(* ===== verification/_CoqProject ===== *)
-Q . S2P
Prelude.v
Bytes.v
Bitcoin.v
Psbt.v
Types.v
Concrete.v
CoinSelection.v
Database.v
Merkle.v
Util.v
Coordinator.v
Signer.v
PegoutScheduler.v
Activation.v
Codec.v
Peg.v
Edh.v
Mint.v
Execution.v
Wallet.v
Checkpoint.v
DkgAuth.v
Dkg.v
DkgSafety.v
DkgRun.v
Federation.v
Jwt.v
Rpc.v
Server.v
ServerFrame.v
ServerSafety.v
ServerEffects.v
ServerBoot.v
ServerRun.v
Ndd.v
Consensus.v
Payload.v
NodeUtils.v
Build.v
Abci.v
AbciVotes.v
AbciReplay.v
AbciRun.v
Client.v
DataParser.v
WalletSync.v
SyncRun.v
Signing.v
SigningSafety.v
FrostTask.v
FrostSafety.v
FrostRun.v
PeginRecovery.v
Snapshots.v
SnapshotSafety.v
NodeEvm.v
Precompiles.v
