(* ===== verification/Prelude.v ===== *)
(** * Botanix btc-server: a verification development

    The btc-server (src/bin/botanix-btc-server) is the Bitcoin side of the
    Botanix federation.  Each member runs one.  It keeps the federation's
    UTXOs and the pegouts users asked for, builds the Bitcoin transactions
    that pay them, signs those transactions with FROST together with the other
    members, and follows the Bitcoin chain until the payments are final.  This
    library models that server as it is written and proves what makes it
    correct: pegouts are neither lost nor paid twice, value is conserved, a
    member signs only what it checked, and the stored data stays consistent
    under failures.

    Around the server the repository holds the side-chain node.  Of it the
    library models what the payments depend on: the validation of deposits and
    of the minting contract's events, the execution of a block, the extra data
    of block headers, the view of the Bitcoin chain, the activation of network
    upgrades, the application that CometBFT calls to propose blocks, to
    vote on them, to finalize and to commit them, and the tasks that tell the
    server of these blocks, sign with it and keep it synchronized.

    ** The parts and where they are

    Bitcoin side, under src/bin/botanix-btc-server/src:

    - [Bytes], [Bitcoin]: machine integers, byte strings, Bitcoin data, and
      the identifiers of pegout_id.rs, database/version.rs, the parsers of
      util.rs, and [MultisigId] of src/crates/botanix-types/src/multisig_id.rs.
    - [Psbt]: wallet/psbt.rs, the proprietary fields in which the members
      exchange commitments and signature shares, the signing packages, and
      the construction of a PSBT.
    - [Types]: the records that several parts share ([Utxo],
      [FinalizedPegout], [PegoutRequest], [Tx]) and the weights and fees of
      wallet/mod.rs and wallet/util.rs.
    - [CoinSelection]: wallet/coin_selection.rs.
    - [Database]: database/mod.rs, every tree and every operation.
    - [Merkle]: merkle.rs, the roots and the wallet state commitment.
    - [Util]: util.rs, the validation of a PSBT at each stage of a session.
    - [Coordinator]: coordinator/mod.rs, building and finishing a session.
    - [Signer]: signer/mod.rs, the two signing rounds of a member.
    - [PegoutScheduler]: pegout_scheduler/mod.rs, from broadcast to finality.
    - [DkgAuth]: dkg/encryption.rs, signing and encrypting the packages of the
      key generation; [Dkg]: dkg/mod.rs, the state machine of a member;
      [DkgSafety]: its invariant and what a final key stands for; [DkgRun]:
      its timers, and a run of three members.
    - [Rpc]: rpc/btc_server.rs and rpc/type_extensions.rs, the messages and
      their conversions, with the fee rates of util.rs; [Jwt]:
      client/src/jwt.rs, the tokens of the requests.
    - [Server]: bin/main.rs, every request handler as a transition of the
      whole server, [handle] for the service, and the start of the server,
      [app_new].  [ServerFrame]: which fields each operation leaves alone.
      [ServerSafety]: keys, nonces and tokens over any run of requests.
      [ServerEffects]: what the handlers of pegouts and of the recovery do.
      [ServerBoot]: starting, and key generations.  [ServerRun]: a concrete
      server, on which the hypotheses are shown to hold.
    - [Concrete]: small executable instances of the parameters, used to
      evaluate the model and to witness that hypotheses can hold.

    Node side, under src/crates and src/bin/botanix-reth/src:

    - [Activation]: botanix-activation-manager, with the history of versions
      of botanix-storage and, in [Activation.Locks], the order in which the
      manager takes its locks.
    - [Codec]: the reading and writing of integers and byte strings that the
      codecs share.  [Peg]: peg_contract.rs and utils.rs of
      botanix-authority-peg, deposits and withdrawals with their proofs.
      [Edh]: botanix-authority-edh, the extra data header.  [Mint]:
      mint_validation.rs, the events of the minting contract, and the checks
      of botanix-evm/src/execute.rs on them.
    - [Execution]: execute.rs and state.rs of botanix-evm, the execution of a
      block, and the split of its fees of botanix-consensus-common.
    - [Federation]: botanix-configs, the federation file and its hash.
    - [Wallet]: botanix-btc-wallet, the client of bitcoind and its fallback.
    - [Checkpoint]: botanix-bitcoin-checkpoint, the window of Bitcoin blocks
      and its synchronizer.
    - [Ndd]: consensus/comet_bft/non_deterministic_data.rs, the data that a
      proposer adds to its block.  [Consensus]: node/consensus.rs and
      botanix-consensus-common, the rules on headers and bodies.  [Payload]:
      botanix-evm/src/payload.rs, which transactions a proposal takes.
      [NodeUtils]: consensus/utils.rs, the deposits and withdrawals of blocks
      as the node tells the server of them, and the node's own check of a PSBT.
      [Build]: consensus/execution_utils.rs, the block of a proposal.
    - [Abci]: consensus/comet_bft/abci.rs, the handlers of CometBFT as
      transitions of a node, the driver that writes a committed block, and the
      start of a node (consensus/builder.rs).  [AbciVotes]: what a vote stands
      for.  [AbciReplay]: finalizing, crashing and starting again.  [AbciRun]:
      a concrete node.
    - [Snapshots]: the records and tables of snapshots in botanix-storage,
      consensus/snapshot_manager.rs, and the handlers of snapshots of abci.rs;
      [SnapshotSafety]: what is filed can be served.
    - [NodeEvm]: evm and node/evm of the node, the handler of transactions with
      its delegations, fees and blacklist, the environments of blocks, and the
      executor with which proposals are built; the forks of botanix-chainspec.
      [Precompiles]: evm/precompiles, the contracts written in the node.
    - [Client]: botanix-btc-server/client/src/extended_client.rs, the interface
      [BtcServerApi] that the tasks of a node are written against, and the
      client of [Server] that implements it.  [DataParser]:
      botanix-data-parser.
    - [WalletSync]: consensus/wallet_state_sync.rs with its records and their
      table in botanix-storage; [SyncRun]: synchronizations of concrete nodes.
    - [Signing]: consensus/signing.rs, the signing sessions of a node;
      [SigningSafety]: what they guarantee.  [FrostTask]:
      consensus/frost_task.rs, one turn of its loop ([turn]), its start and the
      tasks of the key generations ([runner_turn]); [FrostSafety]: what it
      guarantees.  [FrostRun]: tasks of concrete nodes.

    [PeginRecovery] is src/bin/botanix-pegin-recovery, a service of its own
    that holds the exported key shares of a federation and sends a deposit that
    was never minted back.

    A pegout enters the pending tree of the database.  The coordinator takes
    the oldest requests ([coord_pending_pegouts]), builds a PSBT ([make_tx],
    which calls [coin_selection] and [validate_psbt]), and collects two rounds
    of contributions ([add_round1_signing], [get_to_sign],
    [add_round2_signing]) that the signers make ([get_round1_signing_package],
    [get_round2_signing_package]).  [finalize_signing] aggregates them.  The
    broadcast transaction is tracked ([add_tx]); [sync_until] follows the
    chain and calls [finalize_block] for blocks that leave the confirmation
    window, [rollback_tip] for blocks that were reorganized away and
    [track_mempool] for transactions that were dropped.  A dropped pegout is
    pending again, and the conflicting-input rule ([has_conflicting_input])
    keeps its retry from paying it a second time.

    A deposit goes the other way.  The synchronizer of [Checkpoint] keeps the
    last Bitcoin blocks; the proposer commits to one of them in the extra data
    header ([Edh]).  A user calls the minting contract with proofs of
    deposits; the execution of the block ([Execution]) reads the event, checks
    the proofs against the checkpoint ([botanix_mint_contract_checks], which
    calls [PeginData_validate]), and reverts the transaction when they do not
    hold.  Burn events become the pegouts that the server pays.

    The node comes to its blocks in four steps.  A proposer takes transactions
    from its pool and puts its proposal data in front ([prepare_proposal]); a
    node that is asked to vote reads the data, compares it with its own key,
    window and version, builds the block, judges it and caches it
    ([process_proposal]); the final request takes the block from the cache or
    builds it again ([finalize_block]); [commit_block] hands it to the driver,
    which first writes the staged header with its deposits and withdrawals and
    the version of the block, then the block itself ([drive_commit]).  A crash
    between the two writes is a value of [Fault], and [start_node] is what
    follows it.

    The staged header is what the task of the node then tells the server of
    ([handle_canon_state_commit]), as often as it takes; it is removed when the
    server has accepted the checkpoint.  A block that ends an epoch makes the
    coordinator ask its server for a PSBT and start a session
    ([initiate_signing_session]); the members check the PSBT against their own
    chain ([handle_signing_message]), ask their servers for the two rounds
    ([signer_process_round1], [signer_process_round2]) and send the results to
    the coordinator.  A node that has been away asks its peers for their
    finalized pegouts and resets its server to those that its chain knows
    ([handle_wallet_state]).

    ** How the code is modelled

    A Rust function is a Rocq function with the same name.  [outcome E A] is
    its result: [Ok], [Err], or [Panic] for [expect], [unwrap], [assert] and
    an index out of range.  Functions that change state run in the monad
    [M S E A := S -> S * outcome E A]: what was written before an error or a
    panic stays written, as in the code.  Integers are [Z] with the checked
    and saturating operations of [u64] written out; byte strings are
    [list Z]; a [HashMap] and a sled tree are [gmap]s, a tree iterated in key
    order, a [HashMap] in the order of [map_to_list].

    Code outside the repository is a parameter: a class of functions, and
    where a theorem needs it a class of laws that state documented behaviour.
    They are [BitcoinLib] and [BitcoinLaws] (rust-bitcoin), [FrostLib],
    [FrostLaws] and [FrostSign] (frost-secp256k1-tr), [PsbtLib],
    [PsbtLaws] and [KeySpendLaws] (rust-bitcoin's PSBT, miniscript), [BdkLib] and [BdkLaws]
    (bdk_wallet), [AeadLib] and [AeadLaws] (the export cipher), [PegLib] and
    [PegLaws] (Merkle blocks and keys), [DkgLib] and [DkgLaws] (FROST's key
    generation, secp256k1, ChaCha20-Poly1305, Merlin), [Evm] and [EvmLaws]
    (revm, as the execution of blocks sees it: a transaction runs under the
    environment that the configuration gives its block), [RevmLib] and [JournalLaws] (its
    journal of accounts, as the handler of transactions sees it) and
    [Bitcoind], whose answers may change from one call to the next; [ServerLib]
    (clocks, random numbers and encodings of the server), [ConfigLib] and
    [ConfigLaws] (TOML, SHA-256, hexadecimal keys), [JwtLib] and [JwtLaws]
    (the signed encoding of tokens); on the node side [NddLib] (keys in
    proposal data), [EthLib] and [EthLaws] (hashes and roots of blocks, the
    schedule of forks, the recovery of senders), [RethLib] (the database of
    blocks and the roots of the state), [PayloadLib] and [PayloadLaws] (the
    iterator over the best transactions and the builder that executes them),
    [PoolLib] (the mempool), [TxEncoding] and [NodeLib] (encoded transactions),
    [NodeClient] (what the node looks up of its blocks), [LruLib] and [LruLaws]
    (the map of cached blocks, whose insertions may evict), [FrostNet] (the
    identifiers of the authorities), [SerdeLib], [ProstLib] and [UuidLib]
    (encodings), [EvmConfigLib] (blob parameters and revm's specifications),
    [LightLib], [BlsLib], [SealLib] and [TmLib] (the light client, signatures
    and RLP of the precompiled contracts).  [BtcServerApi] is an interface of the code: the theorems on
    the tasks hold for every server, [extended_client_api] is the server of
    this library behind its client, and [recorded] a server that remembers its
    requests.  The network of the authorities answers and fails as schedules
    say, [fh_peers] and [fh_sends].  [Profile] says whether a build has overflow checks; in [Dkg] it also says
    whether it has debug assertions.  [Activation] takes them to be on.  The answers of sled
    are the schedule [io] of the database state: an entry per call that says
    whether it fails, so a theorem may quantify over all failures; [io d = []]
    says that the database answers.  A call that fails leaves a tree as it was,
    also [Tree::clear], which sled does not make atomic.

    ** What is proved

    - Safety of payments: [attempt_make_tx_safe], [validate_psbt_sound],
      [validate_outputs_spec], [has_conflicting_input_spec],
      [coin_selection_conserves_value], [fee_distribution_exact],
      [target_change_bounds], [sanity_check_accepts_built_psbt],
      [sweep_spends_everything], [available_utxos_spec].
    - Signing: [round1_commits_every_input], [round2_signs_own_nonces],
      [add_round1_signing_spec], [finalize_signing_sound], and the refinement
      of the PSBT fields to maps, [frost_fields_refine_maps] and
      [create_psbt_roundtrip].
    - Following the chain: [no_pegout_lost], [track_mempool_keeps_live_txs],
      [finalize_block_effects], [sync_until_keeps_window],
      [sync_until_success].
    - The whole server: [requests_need_a_token],
      [abort_signing_needs_no_token], [keys_are_permanent] and
      [no_nonce_signs_twice] for any run of requests,
      [finalize_signing_pegouts], [new_pegouts_spec],
      [recovery_adds_only_genuine], [signer_forgets_pending],
      [start_settles_federations], [half_saved_key_is_fatal],
      [start_new_dkg_spec]; its messages and tokens,
      [utxo_message_roundtrip], [pegout_message_roundtrip],
      [integral_fee_rates], [jwt_secret_roundtrip], [token_valid_one_minute].
    - Configuration: [validate_federation_spec], [config_hash_any_notation].
    - Storage: the refinement of the UTXO tree to a map,
      [utxo_ops_refine_map], atomicity under failures
      ([store_utxos_all_or_nothing]), determinism of the commitments
      ([utxo_root_determined], [wallet_commitment_determined]), pruning,
      migration, export and streaming.
    - Deposits: [pegin_validate_spec], [mint_event_spec], [mint_checks_sound],
      [rejected_changes_only_sender], [execute_sound], and the round trips of
      the encodings, [pegin_meta_roundtrip], [pegout_roundtrip],
      [edh_roundtrip].
    - Key generation: [finalized_key_is_confirmed] (every other member signed
      the key and everything it was made of), [final_key_is_irrevocable],
      [restart_is_authenticated], [honest_members_share_channels],
      [nonces_never_repeat], [recv_never_panics], and the timers
      ([on_timeout_resends], [timeout_is_when_something_is_due]).
    - The Bitcoin chain seen by the node: [rounds_keep_window],
      [depth_is_confirmations], [sync_recovers],
      [execute_with_fallback_spec].
    - Blocks: [process_proposal_sound] and [voted_mints_are_backed] (what a
      vote vouches for), [honest_proposals_are_accepted],
      [prepare_proposal_finishes], [payload_fits], [cached_block_is_rebuilt],
      [crash_and_replay] (a node that dies while it commits ends where one
      that did not die ends), [validate_header_standalone_spec],
      [gas_limit_spec], [ndd_roundtrip], [epoch_key_spec].
    - The node's view of payments: [block_pegouts_are_executed],
      [staged_messages_agree], [finalized_pegouts_stay_refused],
      [validate_psbt_by_ids_spec], [node_root_is_server_root].
    - The tasks of the node: [signs_validated_requests_only] (a server is asked
      to sign only what its node has checked, a member's only what the
      coordinator has sent, and for the second round the coordinator's what it
      has itself combined just before), [second_round_follows_first],
      [sessions_follow_protocol], [staged_headers_leave_when_told] and
      [nothing_staged_is_forgotten] (every block reaches the server),
      [sync_resets_only_burned], [parser_roundtrip].
    - Snapshots: [filed_blocks_are_served] (when every block fits into a snapshot,
      every listed one loads, chunk by chunk, to the blocks that were filed),
      [process_block_files] (the
      tables refine an archive of snapshots), [retention_run].
    - The EVM of the node: [delegations_apply_once] (an authorization is used
      once, and never for an account on the blacklist),
      [builder_agrees_with_execution] (from the environment of the next block to
      that of the finished header), [builder_keeps_gas_limit],
      [fees_are_credited_twice], [transact_raw_restores_checks],
      [next_env_matches_header]; its contracts, [light_client_advances],
      [apply_light_block_spec], [consensus_state_roundtrip],
      [double_sign_evidence_spec], [bls_signature_validation_spec],
      [contracts_charge_their_gas], [contracts_of_the_evm].
    - Recovery of deposits: [recovery_sends_deposit] (a recovery spends the
      named deposit with one verified signature and pays the destination),
      [import_effects], [import_after_export].
    - Network upgrades: [proposals_are_accepted],
      [active_version_moves_forward], [votes_are_last_ballots],
      [runtime_history_spec], [engine_calls_never_deadlock].
    - Termination and bounds: [sync_until_terminates], [make_tx_terminates],
      [make_tx_within_limits], [max_number_of_psbt_inputs_spec].
    - Where the code does not do what it means to, a theorem says so:
      [make_tx_small_batch_diverges], [sweep_to_other_federation_fails],
      [get_session_ids_one_short], [emptied_set_keeps_stale_root],
      [unknown_utxo_skips_later_inputs], [pegout_to_change_script_is_rejected],
      [recalculation_can_filter_more_outputs], [vout_past_the_end_panics],
      [is_synced_never_falls_back], [late_round1_panics],
      [failed_part3_is_not_aborted], [force_upgrade_may_deadlock],
      [node_accepts_only_even_fees], [no_votes_for_blobs],
      [genesis_takes_no_transactions], [restart_in_first_epoch_is_fatal],
      [honest_sync_loses_pegouts], [stale_records_silence_peers],
      [retried_gossip_silences_member], [start_forgets_keys],
      [running_generation_stays], [refused_migration_stays],
      [historical_sync_serves_nothing], [signature_is_ignored],
      [version_is_truncated], [recovered_version_is_unknown],
      [missing_fields_panic], and the
      evaluations at the end of [PegoutScheduler] and of [SnapshotSafety], in
      [AbciRun], in [FrostRun] and in [Precompiles].

    The interface between the UTXO store and its clients is the class
    [UtxoStore] of [Database]: the clients' theorems speak of the abstract map
    through [utxo_view].  Calls that preserve part of a state are proved by
    composing [respects] lemmas, calls that accept or refuse by composing
    [decides] lemmas; both are in this file.

    ** Fuel

    [make_tx] runs its loop with one round more than there are outputs: each
    round of ten or more outputs removes one, so a run that ends has ended by
    then ([make_tx_terminates]).  The search for the fork has the length of
    the window as fuel, one round per block it can drop.  [sync_until] takes
    its fuel as an argument; more than the height of the chain is enough
    ([sync_until_terminates]).  [prepare_proposal] takes the fuel of its loop
    over the pool; more than the transactions of the pool is enough
    ([prepare_proposal_finishes]).  The search of [epoch_header] takes as much
    as there are blocks since the epoch.

    ** What is not modelled

    Logging and metrics (a bitcoind call made for a metric is modelled where
    its failure changes the answer); CBOR and other codecs of stored values,
    which are transparent; the transport, the subscription stream and the
    command line of the server, and its locks: a request of [Server] is one
    transition, as are the calls that the locks of the code make atomic.
    Hashes in the federation file are ASCII texts.  Of the CometBFT
    application the transport and the notification of subscribers are left
    out.  Of the tasks of the node the sleeps are left
    out, and what a channel holds is given to a turn at its start.  Of the EVM's wrapper the methods that
    only forward to revm are left out, and the storage patches of
    node/evm/patch, which nothing calls.  Generated
    code, argument parsing, metrics, tools and the test suite are left out.

    This file holds what the components share: outcomes, the state monad with
    its reasoning principles, sorting and sums. *)

From stdpp Require Export base tactics option list list_numbers gmap fin_maps sorting.
From Stdlib Require Export ZArith Lia.

#[global] Set Default Goal Selector "!".

(** ** Outcomes

    A Rust call returns [Ok], returns [Err], or panics ([expect], [unwrap],
    [assert!], an out-of-range index, an overflowing [Amount] addition). *)

Inductive outcome (E A : Type) : Type :=
| Ok (a : A)
| Err (e : E)
| Panic.
Arguments Ok {E A} a.
Arguments Err {E A} e.
Arguments Panic {E A}.

#[global] Instance outcome_eq_dec `{EqDecision E, EqDecision A} : EqDecision (outcome E A).
Proof. solve_decision. Defined.

Definition obind {E A B} (m : outcome E A) (f : A → outcome E B) : outcome E B :=
  match m with Ok a => f a | Err e => Err e | Panic => Panic end.

(** [Result::map_err], the conversion the [?] operator applies. *)
Definition map_err {E E' A} (f : E → E') (m : outcome E A) : outcome E' A :=
  match m with Ok a => Ok a | Err e => Err (f e) | Panic => Panic end.

(** [Option::ok_or]. *)
Definition ok_or {E A} (o : option A) (e : E) : outcome E A :=
  match o with Some a => Ok a | None => Err e end.

(** [Option::expect] and [Option::unwrap]. *)
Definition expect {E A} (o : option A) : outcome E A :=
  match o with Some a => Ok a | None => Panic end.

(** [Result::ok]. *)
Definition ok {E A} (m : outcome E A) : option A :=
  match m with Ok a => Some a | _ => None end.

Declare Scope outcome_scope.
Delimit Scope outcome_scope with outcome.
Notation "'let?' x ':=' m 'in' k" := (obind m (λ x, k))
  (at level 10, x name, m at level 200, k at level 200) : outcome_scope.
Notation "'let?' ' p ':=' m 'in' k" := (obind m (λ x, match x with p => k end))
  (at level 10, p strict pattern, m at level 200, k at level 200) : outcome_scope.
Notation "m ';?' k" := (obind m (λ _, k))
  (at level 199, right associativity) : outcome_scope.
#[global] Open Scope outcome_scope.

(** [collect::<Result<Vec<_>, _>>()] over a fallible map. *)
Fixpoint omap_all {E A B} (f : A → outcome E B) (l : list A) : outcome E (list B) :=
  match l with
  | [] => Ok []
  | x :: l' => let? y := f x in let? ys := omap_all f l' in Ok (y :: ys)
  end.

(** [try_for_each]: stop at the first element that fails. *)
Fixpoint ofor {E A} (l : list A) (f : A → outcome E unit) : outcome E unit :=
  match l with
  | [] => Ok tt
  | x :: l' => f x ;? ofor l' f
  end.

(** A [for] loop that threads an accumulator and may return early. *)
Fixpoint ofold {E A B} (f : B → A → outcome E B) (acc : B) (l : list A) : outcome E B :=
  match l with
  | [] => Ok acc
  | x :: l' => let? acc' := f acc x in ofold f acc' l'
  end.

Lemma obind_Ok {E A B} (m : outcome E A) (f : A → outcome E B) b :
  obind m f = Ok b ↔ ∃ a, m = Ok a ∧ f a = Ok b.
Proof. destruct m; simpl; [|split; [done|by intros (?&?&?)]..]. naive_solver. Qed.

Lemma map_err_Ok {E E' A} (f : E → E') (m : outcome E A) a :
  map_err f m = Ok a ↔ m = Ok a.
Proof. destruct m; simpl; split; congruence. Qed.

Lemma ok_or_Ok {E A} (o : option A) (e : E) a : ok_or o e = Ok a ↔ o = Some a.
Proof. destruct o; simpl; split; congruence. Qed.

Lemma expect_Ok {E A} (o : option A) a : expect (E:=E) o = Ok a ↔ o = Some a.
Proof. destruct o; simpl; split; congruence. Qed.

Lemma omap_all_Ok {E A B} (f : A → outcome E B) l ys :
  omap_all f l = Ok ys ↔ Forall2 (λ x y, f x = Ok y) l ys.
Proof.
  revert ys. induction l as [|x l IH]; intros ys; simpl.
  - split; [intros [= <-]; constructor | by inversion 1].
  - rewrite obind_Ok. setoid_rewrite obind_Ok. setoid_rewrite IH. split.
    + intros (y & ? & ys' & ? & [= <-]). by constructor.
    + inversion 1; subst; eauto 6.
Qed.

Lemma ofor_Ok {E A} (f : A → outcome E unit) l :
  ofor l f = Ok tt ↔ Forall (λ x, f x = Ok tt) l.
Proof.
  induction l as [|x l IH]; simpl; [naive_solver|].
  rewrite obind_Ok, Forall_cons, <-IH. split; [intros ([] & ? & ?); eauto | naive_solver].
Qed.

(** ** Stateful calls

    [M S E A] is a Rust method on a state [S]: the state it leaves behind is
    kept on every outcome, because the mutations made before an early return
    or a panic are not undone. *)

Definition M (S E A : Type) : Type := S → S * outcome E A.

Section state_monad.
Context {S E A B : Type}.

Definition ret (a : A) : M S E A := λ s, (s, Ok a).

Definition fail (e : E) : M S E A := λ s, (s, Err e).

Definition panic : M S E A := λ s, (s, Panic).

Definition lift (o : outcome E A) : M S E A := λ s, (s, o).

Definition get : M S E S := λ s, (s, Ok s).

Definition gets (f : S → A) : M S E A := λ s, (s, Ok (f s)).

Definition modify (f : S → S) : M S E unit := λ s, (f s, Ok tt).

Definition bindM (m : M S E A) (f : A → M S E B) : M S E B :=
  λ s, match m s with
       | (s', Ok a) => f a s'
       | (s', Err e) => (s', Err e)
       | (s', Panic) => (s', Panic)
       end.

End state_monad.

Definition map_errM {S E E' A} (f : E → E') (m : M S E A) : M S E' A :=
  λ s, let '(s', r) := m s in (s', map_err f r).

(** [r.ok()] on the result of a call: the error is dropped, a panic is not. *)
Definition okM {S E E' A} (m : M S E A) : M S E' (option A) :=
  λ s, match m s with
       | (s', Ok a) => (s', Ok (Some a))
       | (s', Err _) => (s', Ok None)
       | (s', Panic) => (s', Panic)
       end.

(** Running a call on a field of a larger state (a method of [self.db]). *)
Definition zoom {S T E A} (proj : S → T) (upd : T → S → S) (m : M T E A) : M S E A :=
  λ s, let '(t', r) := m (proj s) in (upd t' s, r).

Declare Scope state_scope.
Delimit Scope state_scope with state.
Notation "'let!' x ':=' m 'in' k" := (bindM m (λ x, k))
  (at level 10, x name, m at level 200, k at level 200) : state_scope.
Notation "'let!' ' p ':=' m 'in' k" := (bindM m (λ x, match x with p => k end))
  (at level 10, p strict pattern, m at level 200, k at level 200) : state_scope.
Notation "m ';!' k" := (bindM m (λ _, k))
  (at level 199, right associativity) : state_scope.
#[global] Open Scope state_scope.

Fixpoint forM {S E A} (l : list A) (f : A → M S E unit) : M S E unit :=
  match l with
  | [] => ret tt
  | x :: l' => f x ;! forM l' f
  end.

Definition whenM {S E} (b : bool) (m : M S E unit) : M S E unit :=
  if b then m else ret tt.

(** *** Inverting a successful call *)

Lemma bindM_Ok {S E A B} (m : M S E A) (f : A → M S E B) s s' b :
  bindM m f s = (s', Ok b) ↔ ∃ s1 a, m s = (s1, Ok a) ∧ f a s1 = (s', Ok b).
Proof.
  unfold bindM. destruct (m s) as [s1 [a|e|]]; split; try naive_solver.
Qed.

Lemma map_errM_Ok {S E E' A} (f : E → E') (m : M S E A) s s' a :
  map_errM f m s = (s', Ok a) ↔ m s = (s', Ok a).
Proof. unfold map_errM. destruct (m s) as [s1 [b|e|]]; simpl; split; congruence. Qed.

Lemma okM_Ok {S E E' A} (m : M S E A) s s' (o : option A) :
  okM (E':=E') m s = (s', Ok o) ↔
  (∃ a, o = Some a ∧ m s = (s', Ok a)) ∨ (o = None ∧ ∃ e, m s = (s', Err e)).
Proof. unfold okM. destruct (m s) as [s1 [b|e|]]; naive_solver. Qed.

Lemma zoom_Ok {S T E A} (proj : S → T) upd (m : M T E A) s s' a :
  zoom proj upd m s = (s', Ok a) ↔ ∃ t', m (proj s) = (t', Ok a) ∧ s' = upd t' s.
Proof. unfold zoom. destruct (m (proj s)) as [t [b|e|]]; naive_solver. Qed.

Lemma lift_Ok {S E A} (o : outcome E A) (s s' : S) a :
  lift o s = (s', Ok a) ↔ s' = s ∧ o = Ok a.
Proof. unfold lift. naive_solver. Qed.

(** *** What a call may do to the state

    [respects R m]: whatever its outcome, the state [m] leaves is [R]-related
    to the state it found.  With [R s s' := I s → I s'] this is preservation
    of an invariant, with [R s s' := f s' = f s] a frame property. *)

Definition respects {S E A} (R : relation S) (m : M S E A) : Prop :=
  ∀ s, R s (m s).1.

Lemma respects_ret {S E A} (R : relation S) `{!Reflexive R} (a : A) :
  respects R (ret (E:=E) a).
Proof. intros s. by simpl. Qed.

Lemma respects_fail {S E A} (R : relation S) `{!Reflexive R} (e : E) :
  respects R (fail (A:=A) e).
Proof. intros s. by simpl. Qed.

Lemma respects_panic {S E A} (R : relation S) `{!Reflexive R} :
  respects R (panic (S:=S) (E:=E) (A:=A)).
Proof. intros s. by simpl. Qed.

Lemma respects_lift {S E A} (R : relation S) `{!Reflexive R} (o : outcome E A) :
  respects R (lift (S:=S) o).
Proof. intros s. by simpl. Qed.

Lemma respects_gets {S E A} (R : relation S) `{!Reflexive R} (f : S → A) :
  respects R (gets (E:=E) f).
Proof. intros s. by simpl. Qed.

Lemma respects_modify {S E} (R : relation S) (f : S → S) :
  (∀ s, R s (f s)) → respects R (modify (E:=E) f).
Proof. intros H s. apply H. Qed.

Lemma respects_bind {S E A B} (R : relation S) `{!Transitive R}
    (m : M S E A) (f : A → M S E B) :
  respects R m → (∀ a, respects R (f a)) → respects R (bindM m f).
Proof.
  intros Hm Hf s. unfold bindM. specialize (Hm s).
  destruct (m s) as [s1 [a|e|]]; simpl in *; [|done..].
  etrans; [exact Hm|apply Hf].
Qed.

Lemma respects_map_err {S E E' A} (R : relation S) (f : E → E') (m : M S E A) :
  respects R m → respects R (map_errM f m).
Proof. intros Hm s. unfold map_errM. specialize (Hm s). by destruct (m s). Qed.

Lemma respects_okM {S E E' A} (R : relation S) (m : M S E A) :
  respects R m → respects R (okM (E':=E') m).
Proof. intros Hm s. unfold okM. specialize (Hm s). by destruct (m s) as [s1 []]. Qed.

Lemma respects_forM {S E A} (R : relation S) `{!Reflexive R, !Transitive R}
    (l : list A) (f : A → M S E unit) :
  (∀ x, x ∈ l → respects R (f x)) → respects R (forM l f).
Proof.
  induction l as [|x l IH]; intros Hf; simpl; [by apply respects_ret|].
  apply respects_bind; [done|apply Hf; set_solver|intros _; apply IH; set_solver].
Qed.

Lemma respects_whenM {S E} (R : relation S) `{!Reflexive R} b (m : M S E unit) :
  respects R m → respects R (whenM b m).
Proof. destruct b; [done|]. intros _. by apply respects_ret. Qed.

Lemma respects_zoom {S T E A} (R : relation S) (R' : relation T) proj upd (m : M T E A) :
  (∀ s t', R' (proj s) t' → R s (upd t' s)) → respects R' m → respects R (zoom proj upd m).
Proof. intros HR Hm s. unfold zoom. specialize (Hm (proj s)). destruct (m (proj s)). by apply HR. Qed.

(** The same for one state, when the argument of the continuation matters. *)
Lemma bind_rel {S E A B} (R : relation S) `{!Transitive R} (m : M S E A) (f : A → M S E B) s :
  R s (m s).1 → (∀ s1 a, m s = (s1, Ok a) → R s1 (f a s1).1) → R s (bindM m f s).1.
Proof.
  intros Hm Hf. unfold bindM. destruct (m s) as [s1 [a|e|]]; simpl in *; [|done..].
  etrans; [exact Hm|]. by apply Hf.
Qed.

Lemma respects_get {S E B} (R : relation S) (f : S → M S E B) :
  (∀ s, R s (f s s).1) → respects R (bindM get f).
Proof. intros Hf s. apply Hf. Qed.

Lemma respects_weaken {S E A} (R R' : relation S) (m : M S E A) :
  (∀ s s', R s s' → R' s s') → respects R m → respects R' m.
Proof. intros HR Hm s. apply HR, Hm. Qed.

Create HintDb monad discriminated.
#[export] Hint Resolve respects_ret respects_fail respects_panic respects_lift
  respects_gets respects_bind respects_map_err respects_okM respects_forM
  respects_whenM : monad.
#[export] Hint Extern 2 (respects _ (match ?x with _ => _ end)) => destruct x : monad.
#[export] Hint Extern 1 (∀ _, respects _ _) => intros ? : monad.
#[export] Hint Extern 1 (∀ _, _ ∈ _ → respects _ _) => intros ? _ : monad.

(** The relations used with [respects] are written as preorders on the state. *)
Definition keeps {S B} (f : S → B) : relation S := λ s s', f s' = f s.

Definition inv {S} (I : S → Prop) : relation S := λ s s', I s → I s'.

#[export] Instance keeps_refl {S B} (f : S → B) : Reflexive (keeps f).
Proof. intros s. reflexivity. Qed.

#[export] Instance keeps_trans {S B} (f : S → B) : Transitive (keeps f).
Proof. unfold keeps. intros s1 s2 s3. congruence. Qed.

#[export] Instance inv_refl {S} (I : S → Prop) : Reflexive (inv I).
Proof. intros s H. exact H. Qed.

#[export] Instance inv_trans {S} (I : S → Prop) : Transitive (inv I).
Proof. intros s1 s2 s3 H1 H2 H. by apply H2, H1. Qed.

(** *** Checks

    [decides m s P]: run on [s], the check [m] succeeds without effect exactly
    when [P] holds. *)

Definition decides {S E} (m : M S E unit) (s : S) (P : Prop) : Prop :=
  (P ∧ m s = (s, Ok tt)) ∨ (¬ P ∧ (m s).2 ≠ Ok tt).

Lemma decides_iff {S E} (m : M S E unit) s P : decides m s P → (m s = (s, Ok tt) ↔ P).
Proof. intros [[? ->]|[? Hn]]; [done|]. split; [|done]. intros Hm. by rewrite Hm in Hn. Qed.

Lemma decides_Ok {S E} (m : M S E unit) s s' P :
  decides m s P → m s = (s', Ok tt) → P ∧ s' = s.
Proof. intros [[? ->]|[? Hn]] Hm; [naive_solver|]. by rewrite Hm in Hn. Qed.

Lemma decides_ext {S E} (m : M S E unit) s P Q : (P ↔ Q) → decides m s P → decides m s Q.
Proof. unfold decides. tauto. Qed.

Lemma decides_ret {S E} (s : S) : decides (E:=E) (ret tt) s True.
Proof. by left. Qed.

Lemma decides_fail {S E} (e : E) (s : S) : decides (fail e) s False.
Proof. right. split; [tauto|done]. Qed.

Lemma decides_if {S E} (b : bool) (e : E) (m : M S E unit) s Q :
  (b = false → decides m s Q) → decides (if b then fail e else m) s (b = false ∧ Q).
Proof.
  intros Hm. destruct b; [right; split; [naive_solver|done]|].
  eapply decides_ext; [|by apply Hm]. tauto.
Qed.

Lemma decides_seq {S E} (m k : M S E unit) s P Q :
  decides m s P → (P → decides k s Q) → decides (m ;! k) s (P ∧ Q).
Proof.
  intros [[HP Hm]|[HP Hm]] Hk; unfold decides, bindM.
  - rewrite Hm. specialize (Hk HP). unfold decides in Hk. tauto.
  - right. split; [tauto|]. by destruct (m s) as [s' [[]|e|]].
Qed.

Lemma decides_map_err {S E E'} (f : E → E') (m : M S E unit) s P :
  decides m s P → decides (map_errM f m) s P.
Proof.
  unfold decides, map_errM. intros [[HP ->]|[HP Hm]]; [by left|right; split; [done|]].
  destruct (m s) as [s' [[]|e|]]; simpl in *; congruence.
Qed.

Lemma decides_lift {S E} (o : outcome E unit) (s : S) : decides (lift o) s (o = Ok tt).
Proof. unfold decides, lift. destruct o as [[]|e|]; [by left|by right..]. Qed.

Lemma decides_bind_lift {S E A} (o : outcome E A) (f : A → M S E unit) s P :
  match o with Ok a => decides (f a) s P | _ => ¬ P end → decides (bindM (lift o) f) s P.
Proof. unfold decides, bindM, lift. destruct o; [done|by right..]. Qed.

Lemma decides_bind_run {S E A} (m : M S E A) (f : A → M S E unit) s a P :
  m s = (s, Ok a) → decides (f a) s P → decides (bindM m f) s P.
Proof. unfold decides, bindM. by intros ->. Qed.

Lemma decides_forM {S E A} (P : A → Prop) (f : A → M S E unit) l s :
  (∀ x, x ∈ l → decides (f x) s (P x)) → decides (forM l f) s (Forall P l).
Proof.
  induction l as [|x l IH]; intros Hf; cbn [forM].
  - by left.
  - eapply decides_ext; [symmetry; apply Forall_cons|].
    apply decides_seq; [apply Hf; set_solver|]. intros _. apply IH. set_solver.
Qed.

(** Step through a successful call in a hypothesis. *)
Ltac mres H :=
  repeat first
    [ rewrite bindM_Ok in H; destruct H as (?s & ?a & ?Hm & H)
    | rewrite map_errM_Ok in H
    | rewrite lift_Ok in H; destruct H as [? H] ];
  subst.

Ltac ores H :=
  repeat first
    [ rewrite obind_Ok in H; destruct H as (?a & ?Ho & H)
    | rewrite map_err_Ok in H ].

(** ** Lists

    The one sorting routine of the development: insertion from the right,
    which is stable, as [slice::sort], [sort_by] and [sort_by_key] are. *)

Fixpoint insert_by {A} (le : A → A → bool) (x : A) (l : list A) : list A :=
  match l with
  | [] => [x]
  | y :: l' => if le x y then x :: l else y :: insert_by le x l'
  end.

Definition sort_by {A} (le : A → A → bool) (l : list A) : list A :=
  foldr (insert_by le) [] l.

Lemma insert_by_perm {A} (le : A → A → bool) x l : insert_by le x l ≡ₚ x :: l.
Proof.
  induction l as [|y l IH]; simpl; [done|].
  destruct (le x y); [done|]. rewrite IH. apply Permutation_swap.
Qed.

Lemma sort_by_perm {A} (le : A → A → bool) l : sort_by le l ≡ₚ l.
Proof.
  induction l as [|x l IH]; simpl; [done|]. by rewrite insert_by_perm, IH.
Qed.

Lemma sort_by_length {A} (le : A → A → bool) l : length (sort_by le l) = length l.
Proof. by rewrite sort_by_perm. Qed.

Section sort_sorted.
Context {A : Type} (le : A → A → bool).
Hypothesis le_total : ∀ x y, le x y = false → le y x = true.
Hypothesis le_trans : ∀ x y z, le x y = true → le y z = true → le x z = true.

Lemma insert_by_sorted x l :
  StronglySorted (λ a b, le a b = true) l →
  StronglySorted (λ a b, le a b = true) (insert_by le x l).
Proof.
  induction 1 as [|y l Hl IH Hy]; simpl; [by repeat constructor|].
  destruct (le x y) eqn:Exy.
  - constructor; [by constructor|]. constructor; [done|].
    eapply Forall_impl; [exact Hy|]. naive_solver.
  - constructor; [done|]. rewrite insert_by_perm. constructor; [by apply le_total|done].
Qed.

Lemma sort_by_sorted l : StronglySorted (λ a b, le a b = true) (sort_by le l).
Proof.
  induction l; simpl; [constructor|by apply insert_by_sorted].
Qed.

End sort_sorted.

Lemma StronglySorted_snoc {A} (R : relation A) (l : list A) x :
  StronglySorted R (l ++ [x]) ↔ StronglySorted R l ∧ Forall (λ y, R y x) l.
Proof.
  induction l as [|y l IH]; cbn.
  - split; intros _; [by split; constructor|]. constructor; [constructor|constructor].
  - split.
    + intros [Hl Hy]%StronglySorted_inv. apply IH in Hl as [Hl Hx].
      apply Forall_app in Hy as [Hy Hyx]. rewrite Forall_singleton in Hyx.
      split; [by apply SSorted_cons|]. apply Forall_cons. by split.
    + intros [[Hl Hy]%StronglySorted_inv [Hyx Hx]%Forall_cons]. apply SSorted_cons; [by apply IH|].
      apply Forall_app. split; [done|]. by apply Forall_singleton.
Qed.

(** Sums of amounts. *)
Definition sumZ (l : list Z) : Z := foldr Z.add 0%Z l.

Lemma sumZ_app l1 l2 : sumZ (l1 ++ l2) = (sumZ l1 + sumZ l2)%Z.
Proof. induction l1 as [|x l1 IH]; simpl; [done|]. rewrite IH. lia. Qed.

#[export] Instance sumZ_proper : Proper ((≡ₚ) ==> (=)) sumZ.
Proof. induction 1; simpl; lia. Qed.

Lemma sumZ_nonneg l : Forall (λ x, 0 ≤ x)%Z l → (0 ≤ sumZ l)%Z.
Proof. induction 1; simpl; lia. Qed.

Lemma sumZ_replicate n x : sumZ (replicate n x) = (Z.of_nat n * x)%Z.
Proof. induction n as [|n IH]; simpl; [done|]. rewrite IH. lia. Qed.

Lemma sumZ_insert l (i : nat) x y :
  l !! i = Some x → sumZ (<[i:=y]> l) = (sumZ l - x + y)%Z.
Proof.
  revert i. induction l as [|z l IH]; intros [|i] Hi; simplify_eq/=; [lia|].
  rewrite (IH i Hi). lia.
Qed.

Lemma sumZ_map_sub {A} (f g : A → Z) l :
  sumZ (map (λ a, f a - g a)%Z l) = (sumZ (map f l) - sumZ (map g l))%Z.
Proof. induction l as [|a l IH]; simpl; [done|]. rewrite IH. lia. Qed.

(** Boolean membership, [slice::contains]. *)
Definition contains `{EqDecision A} (l : list A) (x : A) : bool := bool_decide (x ∈ l).

Lemma contains_true `{EqDecision A} (l : list A) x : contains l x = true ↔ x ∈ l.
Proof. apply bool_decide_eq_true. Qed.

Lemma contains_false `{EqDecision A} (l : list A) x : contains l x = false ↔ x ∉ l.
Proof. apply bool_decide_eq_false. Qed.
