(* ===== verification/Bytes.v ===== *)
(** * Machine integers and byte strings

    Rust's fixed-width integers as [Z] with the overflow behaviour of the
    operations the code uses, byte arrays as lists of [Z], the little- and
    big-endian conversions ([to_le_bytes], [to_be_bytes], ...) and the
    iteration order of a sled tree (lexicographic on the key bytes). *)

From S2P Require Import Prelude.

Open Scope Z_scope.

Definition u8_max : Z := 255.
Definition u32_max : Z := 4294967295.
Definition u64_max : Z := 18446744073709551615.

Definition is_u8 (x : Z) : Prop := 0 ≤ x ≤ u8_max.
Definition is_u32 (x : Z) : Prop := 0 ≤ x ≤ u32_max.
Definition is_u64 (x : Z) : Prop := 0 ≤ x ≤ u64_max.

(** [u64::checked_add] and its relatives, which [bitcoin::Amount] and
    [bitcoin::Weight] forward to. *)
Definition checked_add (a b : Z) : option Z :=
  if a + b <=? u64_max then Some (a + b) else None.

Definition checked_sub (a b : Z) : option Z :=
  if b <=? a then Some (a - b) else None.

Definition checked_mul (a b : Z) : option Z :=
  if a * b <=? u64_max then Some (a * b) else None.

Definition checked_div (a b : Z) : option Z :=
  if b =? 0 then None else Some (a / b).

Definition saturating_sub (a b : Z) : Z := Z.max 0 (a - b).

(** [CheckedSum::checked_sum]. *)
Fixpoint checked_sum_from (acc : Z) (l : list Z) : option Z :=
  match l with
  | [] => Some acc
  | x :: l' => match checked_add acc x with
               | Some acc' => checked_sum_from acc' l'
               | None => None
               end
  end.

Definition checked_sum (l : list Z) : option Z := checked_sum_from 0 l.

(** [Iterator::sum::<Amount>()]: the addition panics on overflow. *)
Definition amount_sum {E} (l : list Z) : outcome E Z := expect (checked_sum l).

(** ** Byte strings *)

Abbreviation bytes := (list Z).

Definition is_array (n : nat) (b : bytes) : Prop := length b = n ∧ Forall is_u8 b.

Fixpoint to_le_bytes (n : nat) (v : Z) : bytes :=
  match n with
  | O => []
  | S n' => v mod 256 :: to_le_bytes n' (v / 256)
  end.

Fixpoint from_le_bytes (b : bytes) : Z :=
  match b with
  | [] => 0
  | x :: b' => x + 256 * from_le_bytes b'
  end.

Definition to_be_bytes (n : nat) (v : Z) : bytes := reverse (to_le_bytes n v).

Definition from_be_bytes (b : bytes) : Z := from_le_bytes (reverse b).

(** Lexicographic order on keys, the order of [sled::Tree::iter]. *)
Fixpoint bytes_le (a b : bytes) : bool :=
  match a, b with
  | [], _ => true
  | _ :: _, [] => false
  | x :: a', y :: b' => if x <? y then true else if x =? y then bytes_le a' b' else false
  end.

Definition tree_iter {V} (t : gmap bytes V) : list (bytes * V) :=
  sort_by (λ a b, bytes_le a.1 b.1) (map_to_list t).

Definition tree_keys {V} (t : gmap bytes V) : list bytes := (tree_iter t).*1.

Definition tree_values {V} (t : gmap bytes V) : list V := (tree_iter t).*2.

(** ** Lemmas on integers *)

Lemma checked_add_Some a b c : checked_add a b = Some c ↔ c = a + b ∧ a + b ≤ u64_max.
Proof. unfold checked_add. destruct (Z.leb_spec (a + b) u64_max); naive_solver lia. Qed.

Lemma checked_add_None a b : checked_add a b = None ↔ u64_max < a + b.
Proof. unfold checked_add. destruct (Z.leb_spec (a + b) u64_max); naive_solver lia. Qed.

Lemma checked_sub_Some a b c : checked_sub a b = Some c ↔ c = a - b ∧ b ≤ a.
Proof. unfold checked_sub. destruct (Z.leb_spec b a); naive_solver lia. Qed.

Lemma checked_mul_Some a b c : checked_mul a b = Some c ↔ c = a * b ∧ a * b ≤ u64_max.
Proof. unfold checked_mul. destruct (Z.leb_spec (a * b) u64_max); naive_solver lia. Qed.

Lemma checked_div_Some a b c : checked_div a b = Some c ↔ c = a / b ∧ b ≠ 0.
Proof. unfold checked_div. destruct (Z.eqb_spec b 0); naive_solver. Qed.

Lemma checked_sum_from_Some acc l s :
  Forall (λ x, 0 ≤ x) l →
  checked_sum_from acc l = Some s → s = acc + sumZ l ∧ (l ≠ [] → acc + sumZ l ≤ u64_max).
Proof.
  intros Hl. revert acc. induction Hl as [|x l Hx Hl IH]; intros acc; simpl.
  - intros [= <-]. split; [lia|done].
  - destruct (checked_add acc x) as [acc'|] eqn:E; [|done].
    apply checked_add_Some in E as [-> ?]. intros Hs.
    destruct (IH _ Hs) as [-> Hb]. split; [lia|intros _].
    destruct l; simpl in *; [lia|]. specialize (Hb ltac:(done)). lia.
Qed.

Lemma checked_sum_Some l s :
  Forall (λ x, 0 ≤ x) l → checked_sum l = Some s → s = sumZ l ∧ sumZ l ≤ u64_max.
Proof.
  intros Hl Hs. apply checked_sum_from_Some in Hs as [-> Hb]; [|done].
  split; [lia|]. destruct l as [|x l]; [done|]. specialize (Hb ltac:(done)). lia.
Qed.

Lemma checked_sum_from_intro acc l :
  Forall (λ x, 0 ≤ x) l → acc + sumZ l ≤ u64_max →
  checked_sum_from acc l = Some (acc + sumZ l).
Proof.
  intros Hl. revert acc. induction Hl as [|x l Hx Hl IH]; intros acc Hb; simpl in *.
  - f_equal; lia.
  - pose proof (sumZ_nonneg _ Hl).
    rewrite (proj2 (checked_add_Some acc x (acc + x))) by lia.
    rewrite IH by lia. f_equal; lia.
Qed.

Lemma checked_sum_intro l :
  Forall (λ x, 0 ≤ x) l → sumZ l ≤ u64_max → checked_sum l = Some (sumZ l).
Proof. intros. unfold checked_sum. rewrite checked_sum_from_intro by (done || lia). done. Qed.

Lemma amount_sum_Ok {E} l s :
  Forall (λ x, 0 ≤ x) l → amount_sum (E:=E) l = Ok s → s = sumZ l ∧ sumZ l ≤ u64_max.
Proof. unfold amount_sum. rewrite expect_Ok. apply checked_sum_Some. Qed.

(** ** Lemmas on byte strings *)

Lemma to_le_bytes_length n v : length (to_le_bytes n v) = n.
Proof. revert v. induction n; intros; simpl; auto. Qed.

Lemma to_le_bytes_u8 n v : Forall is_u8 (to_le_bytes n v).
Proof.
  revert v. induction n; intros v; simpl; constructor; [|done].
  unfold is_u8, u8_max. pose proof (Z.mod_pos_bound v 256). lia.
Qed.

Lemma from_to_le_bytes n v : 0 ≤ v < 256 ^ Z.of_nat n → from_le_bytes (to_le_bytes n v) = v.
Proof.
  revert v. induction n as [|n IH]; intros v Hv; simpl.
  - change (256 ^ Z.of_nat 0) with 1 in Hv. lia.
  - rewrite Nat2Z.inj_succ, Z.pow_succ_r in Hv by lia.
    rewrite IH.
    + pose proof (Z.div_mod v 256). lia.
    + split; [apply Z.div_pos; lia|]. apply Z.div_lt_upper_bound; lia.
Qed.

Lemma to_from_le_bytes b : Forall is_u8 b → to_le_bytes (length b) (from_le_bytes b) = b.
Proof.
  induction 1 as [|x b Hx Hb IH]; simpl; [done|].
  unfold is_u8, u8_max in Hx.
  rewrite (Z.mul_comm 256), Z.mod_add, Z.div_add by lia.
  rewrite Z.mod_small, Z.div_small by lia. rewrite Z.add_0_l. by rewrite IH.
Qed.

Lemma from_le_bytes_bound b : Forall is_u8 b → 0 ≤ from_le_bytes b < 256 ^ Z.of_nat (length b).
Proof.
  induction 1 as [|x b Hx Hb IH]; [simpl; lia|].
  unfold is_u8, u8_max in Hx. cbn [length from_le_bytes].
  rewrite Nat2Z.inj_succ, Z.pow_succ_r by lia. lia.
Qed.

Lemma from_to_be_bytes n v : 0 ≤ v < 256 ^ Z.of_nat n → from_be_bytes (to_be_bytes n v) = v.
Proof. intros. unfold from_be_bytes, to_be_bytes. rewrite reverse_involutive. by apply from_to_le_bytes. Qed.

Lemma to_from_be_bytes b : Forall is_u8 b → to_be_bytes (length b) (from_be_bytes b) = b.
Proof.
  intros. unfold from_be_bytes, to_be_bytes. rewrite <-(length_reverse b).
  rewrite to_from_le_bytes by (by apply Forall_reverse). apply reverse_involutive.
Qed.

Lemma to_be_bytes_length n v : length (to_be_bytes n v) = n.
Proof. unfold to_be_bytes. by rewrite length_reverse, to_le_bytes_length. Qed.

Lemma to_be_bytes_u8 n v : Forall is_u8 (to_be_bytes n v).
Proof. apply Forall_reverse, to_le_bytes_u8. Qed.

Lemma to_le_bytes_inj4 v w : is_u32 v → is_u32 w → to_le_bytes 4 v = to_le_bytes 4 w → v = w.
Proof.
  unfold is_u32, u32_max. intros Hv Hw H.
  rewrite <-(from_to_le_bytes 4 v), <-(from_to_le_bytes 4 w), H; [done|simpl; lia..].
Qed.

(** ** The iteration order of a tree *)

Lemma bytes_le_total a b : bytes_le a b = false → bytes_le b a = true.
Proof.
  revert b. induction a as [|x a IH]; intros [|y b]; simpl; try done.
  destruct (Z.ltb_spec x y), (Z.eqb_spec x y), (Z.ltb_spec y x), (Z.eqb_spec y x);
    try done; try lia. apply IH.
Qed.

Lemma bytes_le_trans a b c : bytes_le a b = true → bytes_le b c = true → bytes_le a c = true.
Proof.
  revert b c. induction a as [|x a IH]; intros [|y b] [|z c]; simpl; try done.
  destruct (Z.ltb_spec x y), (Z.ltb_spec y z), (Z.ltb_spec x z), (Z.eqb_spec x y),
    (Z.eqb_spec y z), (Z.eqb_spec x z); try done; try lia. apply IH.
Qed.

Lemma tree_iter_perm {V} (t : gmap bytes V) : tree_iter t ≡ₚ map_to_list t.
Proof. apply sort_by_perm. Qed.

Lemma tree_iter_sorted {V} (t : gmap bytes V) :
  StronglySorted (λ a b, bytes_le a.1 b.1 = true) (tree_iter t).
Proof.
  apply (sort_by_sorted (λ a b : bytes * V, bytes_le a.1 b.1)).
  - intros ??. apply bytes_le_total.
  - intros ???. apply bytes_le_trans.
Qed.

Lemma elem_of_tree_iter {V} (t : gmap bytes V) k v : (k, v) ∈ tree_iter t ↔ t !! k = Some v.
Proof. by rewrite tree_iter_perm, elem_of_map_to_list. Qed.

Lemma elem_of_tree_values {V} (t : gmap bytes V) v :
  v ∈ tree_values t ↔ ∃ k, t !! k = Some v.
Proof.
  unfold tree_values. rewrite list_elem_of_fmap. split.
  - intros ([k w] & -> & Hk). exists k. by apply elem_of_tree_iter.
  - intros (k & Hk). exists (k, v). by rewrite elem_of_tree_iter.
Qed.

Lemma tree_values_empty {V} (t : gmap bytes V) : tree_values t = [] ↔ t = ∅.
Proof.
  unfold tree_values. split.
  - intros H%fmap_nil_inv. apply map_to_list_empty_iff, Permutation_nil_r.
    by rewrite <-tree_iter_perm, H.
  - intros ->. unfold tree_iter. by rewrite map_to_list_empty.
Qed.
