(* ===== verification/Bitcoin.v ===== *)
(** * Bitcoin data and the identifiers of the btc-server

    The transaction data types of rust-bitcoin that the server reads and
    builds, the functions of rust-bitcoin and of its hash crate it calls
    (class [BitcoinLib], parameters of the model), and the server's own
    identifiers: [PegoutId] (src/bin/botanix-btc-server/src/pegout_id.rs),
    [OutPointExt] and the parsers of util.rs, [MultisigId]
    (src/crates/botanix-types/src/multisig_id.rs) and [UtxoVersion]. *)

From S2P Require Import Prelude Bytes.

Open Scope Z_scope.

(** ** Transactions *)

Abbreviation Txid := bytes.
Abbreviation BlockHash := bytes.
Abbreviation ScriptBuf := bytes.
Abbreviation Amount := Z.

Record OutPoint := mkOutPoint { op_txid : Txid; op_vout : Z }.

Record TxOut := mkTxOut { value : Amount; script_pubkey : ScriptBuf }.

Record TxIn := mkTxIn {
  previous_output : OutPoint;
  script_sig : ScriptBuf;
  sequence : Z;
  witness : list bytes }.

Record Transaction := mkTransaction {
  tx_version : Z;
  lock_time : Z;
  input : list TxIn;
  output : list TxOut }.

#[global] Instance OutPoint_eq_dec : EqDecision OutPoint.
Proof. solve_decision. Defined.

#[global] Instance TxOut_eq_dec : EqDecision TxOut.
Proof. solve_decision. Defined.

#[global] Instance TxIn_eq_dec : EqDecision TxIn.
Proof. solve_decision. Defined.

#[global] Instance Transaction_eq_dec : EqDecision Transaction.
Proof. solve_decision. Defined.

#[global] Program Instance OutPoint_countable : Countable OutPoint :=
  inj_countable' (λ o, (op_txid o, op_vout o)) (λ p, mkOutPoint p.1 p.2) _.
Next Obligation. by intros []. Qed.

#[global] Program Instance TxOut_countable : Countable TxOut :=
  inj_countable' (λ o, (value o, script_pubkey o)) (λ p, mkTxOut p.1 p.2) _.
Next Obligation. by intros []. Qed.

Definition outpoint_wf (o : OutPoint) : Prop := is_array 32 (op_txid o) ∧ is_u32 (op_vout o).

(** The functions of rust-bitcoin the server calls on this data. *)
Class BitcoinLib := {
  (** [Transaction::compute_txid] *)
  compute_txid : Transaction → Txid;
  (** [Transaction::weight], in weight units *)
  tx_weight : Transaction → Z;
  (** [ScriptBuf::minimal_non_dust] *)
  minimal_non_dust : ScriptBuf → Amount;
  (** [FeeRate::fee_wu] *)
  fee_wu : Z → Z → option Amount;
  (** [ScriptBuf::is_p2tr] *)
  is_p2tr : ScriptBuf → bool;
  (** [consensus::deserialize] at [OutPoint], [Txid] and [ScriptBuf] *)
  deserialize_outpoint : bytes → option OutPoint;
  deserialize_txid : bytes → option Txid;
  deserialize_script : bytes → option ScriptBuf;
  (** [Encodable::consensus_encode] at the types that are hashed *)
  encode_txid : Txid → bytes;
  encode_outpoint : OutPoint → bytes;
  encode_u32 : Z → bytes;
  encode_u64 : Z → bytes;
  encode_array : bytes → bytes;
  (** [sha256::Hash::hash] and [merkle_tree::calculate_root] *)
  sha256 : bytes → bytes;
  calculate_root : list bytes → option bytes }.

(** What the server relies on. *)
Class BitcoinLaws `{!BitcoinLib} : Prop := {
  (** an outpoint is consensus-encoded as its txid followed by the
      little-endian output index *)
  deserialize_outpoint_spec o :
    outpoint_wf o → deserialize_outpoint (op_txid o ++ to_le_bytes 4 (op_vout o)) = Some o;
  (** an [Amount] is a [u64] *)
  fee_wu_range rate w f : fee_wu rate w = Some f → is_u64 f;
  (** the root of a non-empty list of leaves exists *)
  calculate_root_some l : l ≠ [] → is_Some (calculate_root l) }.

(** ** PegoutId *)

Record PegoutId := mkPegoutId { pid_txid : bytes; pid_idx : Z }.

#[global] Instance PegoutId_eq_dec : EqDecision PegoutId.
Proof. solve_decision. Defined.

#[global] Program Instance PegoutId_countable : Countable PegoutId :=
  inj_countable' (λ o, (pid_txid o, pid_idx o)) (λ p, mkPegoutId p.1 p.2) _.
Next Obligation. by intros []. Qed.

Definition pegout_id_wf (p : PegoutId) : Prop := is_array 32 (pid_txid p) ∧ is_u32 (pid_idx p).

Definition PegoutId_new (txid : bytes) (idx : Z) : PegoutId := mkPegoutId txid idx.

Definition as_bytes (p : PegoutId) : bytes := pid_txid p ++ to_be_bytes 4 (pid_idx p).

Definition PegoutId_from_bytes (b : bytes) : outcome unit PegoutId :=
  if decide (length b = 36%nat)
  then Ok (mkPegoutId (take 32 b) (from_be_bytes (take 4 (drop 32 b))))
  else Err tt.

(** ** OutPointExt *)

Definition to_bytes (o : OutPoint) : bytes := op_txid o ++ to_le_bytes 4 (op_vout o).

Definition from_slice `{!BitcoinLib} (b : bytes) : option OutPoint := deserialize_outpoint b.

(** ** MultisigId and UtxoVersion *)

Record MultisigId := mkMultisigId { as_u32 : Z }.

#[global] Instance MultisigId_eq_dec : EqDecision MultisigId.
Proof. solve_decision. Defined.

Definition LEGACY_MULTISIG_ID : MultisigId := mkMultisigId 0.

Definition default_multisig_id : MultisigId := LEGACY_MULTISIG_ID.

Inductive UtxoVersion := V1.

#[global] Instance UtxoVersion_eq_dec : EqDecision UtxoVersion.
Proof. solve_decision. Defined.

Definition UtxoVersion_as_u32 (v : UtxoVersion) : Z := match v with V1 => 0 end.

(** [TryFrom<u32>]; the error carries the rejected number. *)
Definition UtxoVersion_try_from (v : Z) : outcome Z UtxoVersion :=
  if v =? 0 then Ok V1 else Err v.

(** [.ok().unwrap_or_default()] *)
Definition UtxoVersion_or_default (v : Z) : UtxoVersion :=
  match UtxoVersion_try_from v with Ok v' => v' | _ => V1 end.

(** ** Parsers of util.rs *)

Inductive ParsingError := FrostPeerId | SigningSessionId | EthAddressErr.

Definition parse_signing_session_id (session_id : bytes) : outcome ParsingError bytes :=
  if decide (length session_id = 32%nat) then Ok session_id else Err SigningSessionId.

(** [Network] and the pegin confirmation depth. *)
Inductive Network := Mainnet | Testnet | Testnet4 | Signet | Regtest.

Definition get_pegin_confirmation_depth {E} (network : Network) : outcome E Z :=
  match network with
  | Regtest | Signet => Ok 1
  | Mainnet => Ok 18
  | _ => Panic
  end.

(** ** Keys of the database are injective *)

Lemma as_bytes_length p : pegout_id_wf p → length (as_bytes p) = 36%nat.
Proof.
  intros [[Hl _] _]. unfold as_bytes. by rewrite length_app, Hl, to_be_bytes_length.
Qed.

Lemma as_bytes_from_bytes p : pegout_id_wf p → PegoutId_from_bytes (as_bytes p) = Ok p.
Proof.
  intros Hp. pose proof (as_bytes_length p Hp) as Hlen. destruct Hp as [[Hl Hu] Hi].
  unfold PegoutId_from_bytes. rewrite decide_True by done. unfold as_bytes.
  rewrite take_app_length', drop_app_length' by done.
  rewrite take_ge by (by rewrite to_be_bytes_length).
  unfold is_u32, u32_max in Hi.
  rewrite from_to_be_bytes by (simpl; lia). by destruct p.
Qed.

Lemma from_bytes_as_bytes b p :
  Forall is_u8 b → PegoutId_from_bytes b = Ok p → pegout_id_wf p ∧ as_bytes p = b.
Proof.
  unfold PegoutId_from_bytes. intros Hb. case_decide as Hl; [|done]. intros [= <-].
  assert (length (drop 32 b) = 4%nat) as Hd by (rewrite length_drop; lia).
  rewrite (take_ge (drop 32 b)) by lia.
  split.
  - split; simpl.
    + split; [rewrite length_take; lia|by apply Forall_take].
    + unfold is_u32, u32_max, from_be_bytes.
      pose proof (from_le_bytes_bound (reverse (drop 32 b))) as Hbd.
      rewrite length_reverse, Hd in Hbd. specialize (Hbd ltac:(by apply Forall_reverse, Forall_drop)).
      simpl in Hbd. lia.
  - unfold as_bytes. cbn [pid_txid pid_idx].
    pose proof (to_from_be_bytes (drop 32 b) ltac:(by apply Forall_drop)) as Hr.
    rewrite Hd in Hr. rewrite Hr. apply take_drop.
Qed.

Lemma as_bytes_inj p q : pegout_id_wf p → pegout_id_wf q → as_bytes p = as_bytes q → p = q.
Proof.
  intros Hp Hq H. apply as_bytes_from_bytes in Hp, Hq. rewrite H in Hp. congruence.
Qed.

Lemma to_bytes_inj o o' : outpoint_wf o → outpoint_wf o' → to_bytes o = to_bytes o' → o = o'.
Proof.
  intros [[Hl _] Hi] [[Hl' _] Hi'] H. unfold to_bytes in H.
  apply app_inj_1 in H as [H1 H2]; [|congruence].
  apply to_le_bytes_inj4 in H2; [|done..]. destruct o, o'; simpl in *; congruence.
Qed.

Lemma from_slice_to_bytes `{!BitcoinLib, !BitcoinLaws} o :
  outpoint_wf o → from_slice (to_bytes o) = Some o.
Proof. apply deserialize_outpoint_spec. Qed.

Lemma UtxoVersion_roundtrip v : UtxoVersion_try_from (UtxoVersion_as_u32 v) = Ok v.
Proof. by destruct v. Qed.

(** [PegoutId::as_bytes] and [PegoutId::from_bytes] are inverse to each
    other: every id round-trips, and a byte string decodes exactly when it is
    36 bytes long, to an id that encodes back to it. *)
Theorem pegout_id_roundtrip :
  (∀ p, pegout_id_wf p → PegoutId_from_bytes (as_bytes p) = Ok p) ∧
  (∀ b, Forall is_u8 b →
    match PegoutId_from_bytes b with
    | Ok p => length b = 36%nat ∧ pegout_id_wf p ∧ as_bytes p = b
    | Err _ => length b ≠ 36%nat
    | Panic => False
    end).
Proof.
  split; [apply as_bytes_from_bytes|]. intros b Hb.
  destruct (PegoutId_from_bytes b) as [p|[]|] eqn:E.
  - destruct (from_bytes_as_bytes b p Hb E) as [Hp Hab]. split; [|done].
    rewrite <-Hab. by apply as_bytes_length.
  - unfold PegoutId_from_bytes in E. by case_decide.
  - unfold PegoutId_from_bytes in E. by case_decide.
Qed.
