(* ===== verification/Psbt.v ===== *)
(** * Partially signed transactions

    src/bin/botanix-btc-server/src/wallet/psbt.rs: the proprietary fields in
    which coordinator and signers exchange pegout ids, tweaks, commitments and
    partial signatures, and the construction of pegout and sweep PSBTs.
    FROST's types and codecs ([FrostLib]) and the PSBT functions of
    rust-bitcoin ([PsbtLib]) are parameters of the model. *)

From S2P Require Import Prelude Bytes Bitcoin.

Open Scope Z_scope.

(** ** FROST *)

Class FrostLib := {
  Identifier : Type;
  Identifier_eq_dec :: EqDecision Identifier;
  Identifier_countable :: Countable Identifier;
  SigningCommitments : Type;
  SigningCommitments_eq_dec :: EqDecision SigningCommitments;
  SignatureShare : Type;
  SigningNonces : Type;
  KeyPackage : Type;
  PublicKeyPackage : Type;
  Round1Package : Type;
  Round2Package : Type;
  identifier_serialize : Identifier → bytes;
  identifier_deserialize : bytes → option Identifier;
  commitments_serialize : SigningCommitments → bytes;
  commitments_deserialize : bytes → option SigningCommitments;
  share_serialize : SignatureShare → bytes;
  share_deserialize : bytes → option SignatureShare;
  (** the size of a DKG package in CBOR *)
  round1_cbor_len : Round1Package → Z;
  round2_cbor_len : Round2Package → Z;
  (** the verifying key of a package as a compressed secp256k1 key *)
  to_secp_pk : PublicKeyPackage → option bytes;
  (** [ScriptBuf::new_p2tr] on the x-only part of such a key *)
  new_p2tr : bytes → ScriptBuf }.

Class FrostLaws `{!FrostLib} : Prop := {
  identifier_roundtrip i : identifier_deserialize (identifier_serialize i) = Some i;
  identifier_injective b i : identifier_deserialize b = Some i → b = identifier_serialize i;
  commitments_roundtrip c : commitments_deserialize (commitments_serialize c) = Some c;
  share_roundtrip s : share_deserialize (share_serialize s) = Some s }.

(** ** The PSBT data type *)

Record ProprietaryKey := mkPropKey { pk_prefix : bytes; pk_subtype : Z; pk_key : bytes }.

#[global] Instance ProprietaryKey_eq_dec : EqDecision ProprietaryKey.
Proof. solve_decision. Defined.

#[global] Program Instance ProprietaryKey_countable : Countable ProprietaryKey :=
  inj_countable' (λ o, (pk_prefix o, pk_subtype o, pk_key o))
    (λ p, mkPropKey p.1.1 p.1.2 p.2) _.
Next Obligation. by intros []. Qed.

Record PsbtInput := mkPsbtInput {
  witness_utxo : option TxOut;
  in_proprietary : gmap ProprietaryKey bytes;
  sighash_type : option Z;
  tap_key_sig : option (bytes * Z);
  final_script_witness : option (list bytes) }.

Record PsbtOutput := mkPsbtOutput { out_proprietary : gmap ProprietaryKey bytes }.

Record Psbt := mkPsbt {
  unsigned_tx : Transaction;
  inputs : list PsbtInput;
  outputs : list PsbtOutput }.

Definition PsbtInput_default : PsbtInput := mkPsbtInput None ∅ None None None.
Definition PsbtOutput_default : PsbtOutput := mkPsbtOutput ∅.

#[global] Instance PsbtInput_eq_dec : EqDecision PsbtInput.
Proof. solve_decision. Defined.

#[global] Instance PsbtOutput_eq_dec : EqDecision PsbtOutput.
Proof. solve_decision. Defined.

#[global] Instance Psbt_eq_dec : EqDecision Psbt.
Proof. solve_decision. Defined.

Inductive PsbtError := NegativeFee | FeeOverflow | PsbtOther.
Inductive ExtractTxError := ExtractFailed.
Inductive TaprootError := TaprootFailed.

Definition unsigned (tx : Transaction) : Prop :=
  Forall (λ i, script_sig i = [] ∧ witness i = []) (input tx).

Class PsbtLib := {
  (** [Psbt::from_unsigned_tx] *)
  from_unsigned_tx : Transaction → option Psbt;
  (** [Psbt::fee] *)
  psbt_fee : Psbt → outcome PsbtError Amount;
  (** [Psbt::extract_tx] *)
  extract_tx : Psbt → outcome ExtractTxError Transaction;
  (** [Psbt::combine] *)
  psbt_combine : Psbt → Psbt → outcome PsbtError Psbt;
  (** [PsbtExt::finalize] of miniscript *)
  psbt_finalize : Psbt → option Psbt;
  (** the size of a PSBT in CBOR *)
  psbt_cbor_len : Psbt → Z;
  (** [SighashCache::taproot_key_spend_signature_hash] over all prevouts *)
  taproot_sighash : Transaction → list TxOut → nat → outcome TaprootError bytes }.

(** [psbt_fee] sums the funding outputs and the outputs as 64-bit numbers. *)
Definition fee_of (ins outs : list Amount) : outcome PsbtError Amount :=
  match checked_sum ins, checked_sum outs with
  | Some i, Some o => ok_or (checked_sub i o) NegativeFee
  | _, _ => Err FeeOverflow
  end.

Class PsbtLaws `{!PsbtLib} : Prop := {
  from_unsigned_tx_spec tx : unsigned tx →
    from_unsigned_tx tx = Some (mkPsbt tx (replicate (length (input tx)) PsbtInput_default)
                                          (replicate (length (output tx)) PsbtOutput_default));
  psbt_fee_spec p us :
    length (inputs p) = length (input (unsigned_tx p)) →
    Forall2 (λ i u, witness_utxo i = Some u) (inputs p) us →
    psbt_fee p = fee_of (map value us) (map value (output (unsigned_tx p)));
  extract_tx_spec p tx : extract_tx p = Ok tx →
    output tx = output (unsigned_tx p) ∧
    map previous_output (input tx) = map previous_output (input (unsigned_tx p)) }.

(** ** Proprietary keys *)

Definition ETH_ADDRESS_KEY_TYPE : Z := 1.
Definition SIGNING_COMMITMENTS_KEY_TYPE : Z := 2.
Definition PARTIAL_SIGNATURE_KEY_TYPE : Z := 3.
Definition UTXO_VERSION_TYPE : Z := 4.
Definition MULTISIG_ID_KEY_TYPE : Z := 5.
Definition PEGOUT_ID_KEY_TYPE : Z := 4.

(** the bytes of "btx" *)
Definition PROP_KEY_PREFIX : bytes := [98; 116; 120].

Definition ETH_ADDRESS_KEY := mkPropKey PROP_KEY_PREFIX ETH_ADDRESS_KEY_TYPE [].
Definition PEGOUT_ID_KEY := mkPropKey PROP_KEY_PREFIX PEGOUT_ID_KEY_TYPE [].
Definition UTXO_VERSION_TYPE_KEY := mkPropKey PROP_KEY_PREFIX UTXO_VERSION_TYPE [].
Definition MULTISIG_ID_KEY := mkPropKey PROP_KEY_PREFIX MULTISIG_ID_KEY_TYPE [].

(** [ProprietaryKeyExt::cast] *)
Definition cast (k : ProprietaryKey) (subtype : Z) : option bytes :=
  if bool_decide (pk_prefix k = PROP_KEY_PREFIX) && (pk_subtype k =? subtype)
  then Some (pk_key k) else None.

Definition set_prop (k : ProprietaryKey) (v : bytes) (i : PsbtInput) : PsbtInput :=
  mkPsbtInput (witness_utxo i) (<[k := v]> (in_proprietary i)) (sighash_type i)
    (tap_key_sig i) (final_script_witness i).

Definition set_witness_utxo (o : TxOut) (i : PsbtInput) : PsbtInput :=
  mkPsbtInput (Some o) (in_proprietary i) (sighash_type i) (tap_key_sig i)
    (final_script_witness i).

(** ** PsbtInputExt *)

Definition set_eth_address (a : bytes) (i : PsbtInput) : PsbtInput :=
  set_prop ETH_ADDRESS_KEY a i.

Definition add_version_to_psbt (v : Z) (i : PsbtInput) : PsbtInput :=
  set_prop UTXO_VERSION_TYPE_KEY (to_le_bytes 4 v) i.

Definition get_version_from_psbt_input (i : PsbtInput) : option UtxoVersion :=
  match in_proprietary i !! UTXO_VERSION_TYPE_KEY with
  | Some b => if decide (length b = 4%nat)
              then match UtxoVersion_try_from (from_le_bytes b) with
                   | Ok v => Some v
                   | _ => None
                   end
              else None
  | None => None
  end.

Definition eth_address (i : PsbtInput) : option bytes :=
  match in_proprietary i !! ETH_ADDRESS_KEY with
  | Some b => if decide (length b = 20%nat) then Some b else None
  | None => None
  end.

Definition set_multisig_id (m : MultisigId) (i : PsbtInput) : PsbtInput :=
  set_prop MULTISIG_ID_KEY (to_le_bytes 4 (as_u32 m)) i.

Definition multisig_id (i : PsbtInput) : option MultisigId :=
  match in_proprietary i !! MULTISIG_ID_KEY with
  | Some b => if decide (length b = 4%nat) then Some (mkMultisigId (from_le_bytes b)) else None
  | None => None
  end.

(** The order of a [BTreeMap<ProprietaryKey, _>]. *)
Definition prop_le (a b : ProprietaryKey) : bool :=
  if decide (pk_prefix a = pk_prefix b) then
    if decide (pk_subtype a = pk_subtype b) then bytes_le (pk_key a) (pk_key b)
    else pk_subtype a <? pk_subtype b
  else bytes_le (pk_prefix a) (pk_prefix b).

Definition prop_iter (m : gmap ProprietaryKey bytes) : list (ProprietaryKey * bytes) :=
  sort_by (λ a b, prop_le a.1 b.1) (map_to_list m).

Section frost_fields.
Context `{!FrostLib}.

Definition frost_id_from_bytes (b : bytes) : option Identifier := identifier_deserialize b.

Definition signature_share_from_bytes (b : bytes) : option SignatureShare := share_deserialize b.

Definition commitment_key (id : Identifier) : ProprietaryKey :=
  mkPropKey PROP_KEY_PREFIX SIGNING_COMMITMENTS_KEY_TYPE (identifier_serialize id).

Definition signature_key (id : Identifier) : ProprietaryKey :=
  mkPropKey PROP_KEY_PREFIX PARTIAL_SIGNATURE_KEY_TYPE (identifier_serialize id).

Definition set_signing_commitment (id : Identifier) (c : SigningCommitments) (i : PsbtInput) :=
  set_prop (commitment_key id) (commitments_serialize c) i.

Definition signing_commitments (id : Identifier) (i : PsbtInput) : option SigningCommitments :=
  match in_proprietary i !! commitment_key id with
  | Some b => commitments_deserialize b
  | None => None
  end.

(** The loop shared by the two collectors: skip a foreign key, a key that is
    no FROST identifier and a value that does not decode. *)
Definition collect_fields {V} (subtype : Z) (decode : bytes → option V)
    (m : gmap ProprietaryKey bytes) : gmap Identifier V :=
  foldl (λ ret '(k, v),
    match cast k subtype with
    | Some key => match frost_id_from_bytes key with
                  | Some id => match decode v with
                               | Some x => <[id := x]> ret
                               | None => ret
                               end
                  | None => ret
                  end
    | None => ret
    end) ∅ (prop_iter m).

Definition all_signing_commitments (i : PsbtInput) : gmap Identifier SigningCommitments :=
  collect_fields SIGNING_COMMITMENTS_KEY_TYPE commitments_deserialize (in_proprietary i).

Definition set_partial_signature (id : Identifier) (s : SignatureShare) (i : PsbtInput) :=
  set_prop (signature_key id) (share_serialize s) i.

Definition partial_signature (id : Identifier) (i : PsbtInput) : option SignatureShare :=
  match in_proprietary i !! signature_key id with
  | Some b => signature_share_from_bytes b
  | None => None
  end.

Definition all_partial_signatures (i : PsbtInput) : gmap Identifier SignatureShare :=
  collect_fields PARTIAL_SIGNATURE_KEY_TYPE signature_share_from_bytes (in_proprietary i).

End frost_fields.

(** ** PsbtOutputExt and PsbtExt *)

Definition set_pegout_id (id : bytes) (o : PsbtOutput) : PsbtOutput :=
  mkPsbtOutput (<[PEGOUT_ID_KEY := id]> (out_proprietary o)).

Definition pegout_id (o : PsbtOutput) : option bytes :=
  match out_proprietary o !! PEGOUT_ID_KEY with
  | Some b => if decide (length b = 36%nat) then Some b else None
  | None => None
  end.

Definition pegout_ids (p : Psbt) : list bytes := omap pegout_id (outputs p).

Inductive CalculateSighashError := SighashTaprootError (e : TaprootError) | MissingWitnessUtxo.

Inductive PsbtToSigningPackageConversionError :=
| SighashError (e : CalculateSighashError)
| MissingSigningCommitments
| ConversionFrostError
| FailedToDeserializeFrostPeerId.

Definition calculate_sighash `{!PsbtLib} (p : Psbt) (input_index : nat)
    : outcome CalculateSighashError bytes :=
  let? prevouts := omap_all (λ i, ok_or (witness_utxo i) MissingWitnessUtxo) (inputs p) in
  map_err SighashTaprootError (taproot_sighash (unsigned_tx p) prevouts input_index).

(** [frost::SigningPackage]: the commitments and the message to sign. *)
Record SigningPackage `{!FrostLib} := mkSigningPackage {
  sp_commitments : gmap Identifier SigningCommitments;
  sp_message : bytes }.

Definition signing_packages `{!FrostLib, !PsbtLib} (p : Psbt)
    : outcome PsbtToSigningPackageConversionError (list SigningPackage) :=
  omap_all (λ '(idx, i),
    let? sighash := map_err SighashError (calculate_sighash p idx) in
    let sc := all_signing_commitments i in
    if decide (sc = ∅) then Err MissingSigningCommitments
    else Ok (mkSigningPackage _ sc sighash)) (imap pair (inputs p)).

Inductive PsbtFeePerOutputError := FeeError (e : PsbtError) | DivideByZero.

Definition fee_per_output `{!PsbtLib} (p : Psbt) (num_outputs : Z)
    : outcome PsbtFeePerOutputError Amount :=
  let? fee := map_err FeeError (psbt_fee p) in
  ok_or (checked_div fee num_outputs) DivideByZero.

(** ** Building a PSBT *)

Record InputDTO := mkInputDTO {
  dto_outpoint : OutPoint;
  dto_output : TxOut;
  dto_eth_address : option bytes;
  dto_version : UtxoVersion;
  dto_multisig_id : MultisigId }.

(** [Sequence::ENABLE_RBF_NO_LOCKTIME] *)
Definition ENABLE_RBF_NO_LOCKTIME : Z := 4294967293.

Definition unsigned_input (u : InputDTO) : TxIn :=
  mkTxIn (dto_outpoint u) [] ENABLE_RBF_NO_LOCKTIME [].

(** [for (a, b) in xs.iter_mut().zip(ys)] *)
Fixpoint zip_mut {A B} (f : B → A → A) (xs : list A) (ys : list B) : list A :=
  match xs, ys with
  | x :: xs', y :: ys' => f y x :: zip_mut f xs' ys'
  | _, _ => xs
  end.

Definition add_input_meta (u : InputDTO) (i : PsbtInput) : PsbtInput :=
  let i := set_witness_utxo (dto_output u) i in
  let i := match dto_eth_address u with Some a => set_eth_address a i | None => i end in
  let i := add_version_to_psbt (UtxoVersion_as_u32 (dto_version u)) i in
  set_multisig_id (dto_multisig_id u) i.

#[global] Arguments add_input_meta : simpl never.

Section build.
Context `{!PsbtLib}.

Definition create_psbt {E} (ins : list InputDTO) (outs : list (TxOut * bytes))
    (change : option TxOut) : outcome E Psbt :=
  let outp := map fst outs ++ match change with Some c => [c] | None => [] end in
  let tx := mkTransaction 2 0 (map unsigned_input ins) outp in
  let? psbt := expect (from_unsigned_tx tx) in
  Ok (mkPsbt (unsigned_tx psbt)
        (zip_mut add_input_meta (inputs psbt) ins)
        (zip_mut (λ '(_, id), set_pegout_id id) (outputs psbt) outs)).

Definition create_sweep_psbt {E} (ins : list InputDTO) (out : TxOut) : outcome E Psbt :=
  let tx := mkTransaction 2 0 (map unsigned_input ins) [out] in
  let? psbt := expect (from_unsigned_tx tx) in
  Ok (mkPsbt (unsigned_tx psbt) (zip_mut add_input_meta (inputs psbt) ins) (outputs psbt)).

End build.

(** ** Collecting the FROST fields *)

Lemma prop_iter_list_to_map (m : gmap ProprietaryKey bytes) :
  (list_to_map (prop_iter m) : gmap ProprietaryKey bytes) = m.
Proof.
  etrans; [|apply list_to_map_to_list]. apply list_to_map_proper.
  - unfold prop_iter. rewrite sort_by_perm. apply NoDup_fst_map_to_list.
  - apply sort_by_perm.
Qed.

Lemma cast_Some k subtype key :
  cast k subtype = Some key ↔ k = mkPropKey PROP_KEY_PREFIX subtype key.
Proof.
  unfold cast. destruct k as [p s k']; simpl.
  case_bool_decide; destruct (Z.eqb_spec s subtype); simpl; naive_solver.
Qed.

Section collect.
Context `{!FrostLib, !FrostLaws}.

Definition field_key (subtype : Z) (id : Identifier) : ProprietaryKey :=
  mkPropKey PROP_KEY_PREFIX subtype (identifier_serialize id).

Definition collect_step {V} subtype (decode : bytes → option V)
    (ret : gmap Identifier V) (kv : ProprietaryKey * bytes) : gmap Identifier V :=
  let '(k, v) := kv in
  match cast k subtype with
  | Some key => match frost_id_from_bytes key with
                | Some id => match decode v with Some x => <[id := x]> ret | None => ret end
                | None => ret
                end
  | None => ret
  end.

Lemma collect_step_other {V} subtype (decode : bytes → option V) ret k v id :
  k ≠ field_key subtype id → collect_step subtype decode ret (k, v) !! id = ret !! id.
Proof.
  intros Hk. unfold collect_step.
  destruct (cast k subtype) as [key|] eqn:Ec; [|done].
  destruct (frost_id_from_bytes key) as [id'|] eqn:Ef; [|done].
  destruct (decode v); [|done]. rewrite lookup_insert_ne; [done|].
  intros ->. apply Hk. apply cast_Some in Ec. apply identifier_injective in Ef. by subst.
Qed.

Lemma collect_step_this {V} subtype (decode : bytes → option V) ret v id :
  collect_step subtype decode ret (field_key subtype id, v) !! id =
  match decode v with Some x => Some x | None => ret !! id end.
Proof.
  unfold collect_step, field_key.
  rewrite (proj2 (cast_Some _ subtype (identifier_serialize id)) eq_refl).
  unfold frost_id_from_bytes. rewrite identifier_roundtrip.
  destruct (decode v); [|done]. apply lookup_insert_eq.
Qed.

Lemma foldl_collect_step {V} subtype (decode : bytes → option V) id l ret :
  NoDup l.*1 →
  foldl (collect_step subtype decode) ret l !! id =
  match (list_to_map l : gmap _ _) !! field_key subtype id ≫= decode with
  | Some x => Some x
  | None => ret !! id
  end.
Proof.
  revert ret. induction l as [|[k v] l IH]; intros ret; [done|].
  rewrite fmap_cons, NoDup_cons. intros [Hk Hnd]. cbn [foldl]. rewrite IH by done.
  rewrite list_to_map_cons. destruct (decide (k = field_key subtype id)) as [->|Hne].
  - rewrite lookup_insert_eq. rewrite not_elem_of_list_to_map_1 by done.
    cbn [mbind option_bind]. apply collect_step_this.
  - rewrite lookup_insert_ne by done. by rewrite collect_step_other.
Qed.

Lemma collect_fields_lookup {V} subtype (decode : bytes → option V) m id :
  collect_fields subtype decode m !! id = m !! field_key subtype id ≫= decode.
Proof.
  unfold collect_fields.
  pose proof (foldl_collect_step subtype decode id (prop_iter m) ∅) as Hf.
  rewrite prop_iter_list_to_map in Hf. etrans; [apply Hf|].
  - unfold prop_iter. rewrite sort_by_perm. apply NoDup_fst_map_to_list.
  - rewrite lookup_empty. by destruct (_ ≫= _).
Qed.

Lemma collect_fields_insert {V} subtype (decode : bytes → option V) m id b x :
  decode b = Some x →
  collect_fields subtype decode (<[field_key subtype id := b]> m) =
  <[id := x]> (collect_fields subtype decode m).
Proof.
  intros Hb. apply map_eq. intros id'. rewrite collect_fields_lookup.
  destruct (decide (id = id')) as [->|Hne].
  - by rewrite !lookup_insert_eq.
  - rewrite !lookup_insert_ne; [by rewrite collect_fields_lookup|done|].
    intros [= Hs]. apply Hne. apply (inj Some).
    by rewrite <-(identifier_roundtrip id), Hs, identifier_roundtrip.
Qed.

Lemma collect_fields_insert_other {V} subtype subtype' (decode : bytes → option V) m key b :
  subtype ≠ subtype' →
  collect_fields subtype decode (<[mkPropKey PROP_KEY_PREFIX subtype' key := b]> m) =
  collect_fields subtype decode m.
Proof.
  intros Hne. apply map_eq. intros id. rewrite !collect_fields_lookup.
  rewrite lookup_insert_ne; [done|]. unfold field_key. congruence.
Qed.

(** Adding a commitment or a share adds exactly that entry and touches
    nothing else of the input. *)
Lemma set_signing_commitment_spec id c i :
  all_signing_commitments (set_signing_commitment id c i) =
    <[id := c]> (all_signing_commitments i) ∧
  all_partial_signatures (set_signing_commitment id c i) = all_partial_signatures i ∧
  witness_utxo (set_signing_commitment id c i) = witness_utxo i ∧
  eth_address (set_signing_commitment id c i) = eth_address i ∧
  multisig_id (set_signing_commitment id c i) = multisig_id i.
Proof.
  unfold all_signing_commitments, all_partial_signatures, eth_address, multisig_id; simpl.
  repeat split.
  - apply collect_fields_insert, commitments_roundtrip.
  - by apply collect_fields_insert_other.
  - by rewrite lookup_insert_ne.
  - by rewrite lookup_insert_ne.
Qed.

Lemma set_partial_signature_spec id s i :
  all_partial_signatures (set_partial_signature id s i) =
    <[id := s]> (all_partial_signatures i) ∧
  all_signing_commitments (set_partial_signature id s i) = all_signing_commitments i ∧
  witness_utxo (set_partial_signature id s i) = witness_utxo i ∧
  eth_address (set_partial_signature id s i) = eth_address i ∧
  multisig_id (set_partial_signature id s i) = multisig_id i.
Proof.
  unfold all_signing_commitments, all_partial_signatures, eth_address, multisig_id; simpl.
  repeat split.
  - apply collect_fields_insert, share_roundtrip.
  - by apply collect_fields_insert_other.
  - by rewrite lookup_insert_ne.
  - by rewrite lookup_insert_ne.
Qed.

End collect.

(** ** What a built PSBT contains *)

Lemma zip_mut_replicate {A B} (f : B → A → A) x ys n :
  zip_mut f (replicate (length ys + n) x) ys = map (λ y, f y x) ys ++ replicate n x.
Proof. induction ys as [|y ys IH]; simpl; [by destruct n|by rewrite IH]. Qed.

Lemma map_unsigned_input ins : map previous_output (map unsigned_input ins) = map dto_outpoint ins.
Proof. rewrite map_map. by apply map_ext. Qed.

Definition pegout_output (o : TxOut * bytes) : PsbtOutput := set_pegout_id o.2 PsbtOutput_default.

Definition opt_list {A} (o : option A) : list A := match o with Some x => [x] | None => [] end.

Definition psbt_of (ins : list InputDTO) (outs : list (TxOut * bytes)) (change : option TxOut) : Psbt :=
  mkPsbt (mkTransaction 2 0 (map unsigned_input ins) (map fst outs ++ opt_list change))
    (map (λ u, add_input_meta u PsbtInput_default) ins)
    (map pegout_output outs ++ replicate (length (opt_list change)) PsbtOutput_default).

Lemma unsigned_inputs_unsigned v l ins outs :
  unsigned (mkTransaction v l (map unsigned_input ins) outs).
Proof. unfold unsigned; simpl. apply Forall_map, Forall_true. by intros u. Qed.

Section build_facts.
Context `{!PsbtLib, !PsbtLaws}.

Lemma create_psbt_eq {E} ins outs change :
  create_psbt (E:=E) ins outs change = Ok (psbt_of ins outs change).
Proof.
  unfold create_psbt. rewrite from_unsigned_tx_spec by apply unsigned_inputs_unsigned.
  simpl. unfold psbt_of. do 2 f_equal.
  - rewrite length_map, <-(Nat.add_0_r (length ins)), zip_mut_replicate. simpl.
    by rewrite app_nil_r.
  - rewrite length_app, length_map.
    replace (length outs) with (length outs) by done.
    rewrite (zip_mut_replicate (λ '(_, id), set_pegout_id id) PsbtOutput_default outs).
    f_equal. apply map_ext. by intros [].
Qed.

Lemma create_sweep_psbt_eq {E} ins out :
  create_sweep_psbt (E:=E) ins out = Ok (psbt_of ins [] (Some out)).
Proof.
  unfold create_sweep_psbt. rewrite from_unsigned_tx_spec by apply unsigned_inputs_unsigned.
  simpl. unfold psbt_of. do 2 f_equal.
  rewrite length_map, <-(Nat.add_0_r (length ins)), zip_mut_replicate. simpl.
  by rewrite app_nil_r.
Qed.

End build_facts.

Lemma add_input_meta_witness u i : witness_utxo (add_input_meta u i) = Some (dto_output u).
Proof. unfold add_input_meta. by destruct (dto_eth_address u). Qed.

Definition dto_wf (u : InputDTO) : Prop :=
  is_u32 (as_u32 (dto_multisig_id u)) ∧
  match dto_eth_address u with Some a => length a = 20%nat | None => True end.

Lemma add_input_meta_fields u : dto_wf u →
  eth_address (add_input_meta u PsbtInput_default) = dto_eth_address u ∧
  get_version_from_psbt_input (add_input_meta u PsbtInput_default) = Some (dto_version u) ∧
  multisig_id (add_input_meta u PsbtInput_default) = Some (dto_multisig_id u).
Proof.
  intros [Hm Ha]. unfold eth_address, get_version_from_psbt_input, multisig_id, add_input_meta.
  unfold set_multisig_id, add_version_to_psbt, set_eth_address, set_witness_utxo, set_prop.
  unfold is_u32, u32_max in Hm.
  assert (mkMultisigId (from_le_bytes (to_le_bytes 4 (as_u32 (dto_multisig_id u)))) =
    dto_multisig_id u) as Hid.
  { rewrite from_to_le_bytes by (simpl; lia). by destruct (dto_multisig_id u). }
  destruct (dto_eth_address u) as [a|]; cbn [in_proprietary]; simplify_map_eq;
    rewrite ?to_le_bytes_length, ?Hid; by destruct (dto_version u).
Qed.

Lemma psbt_of_pegout_ids ins outs change :
  Forall (λ o, length o.2 = 36%nat) outs → pegout_ids (psbt_of ins outs change) = map snd outs.
Proof.
  intros Ho. unfold pegout_ids, psbt_of; simpl. rewrite omap_app.
  replace (omap pegout_id (replicate _ _)) with (@nil bytes)
    by (by destruct change). rewrite app_nil_r.
  induction Ho as [|[o id] outs Hid Ho IH]; [done|]. simpl in Hid. csimpl. rewrite IH.
  unfold pegout_id, pegout_output, set_pegout_id; cbn [out_proprietary snd].
  by rewrite lookup_insert_eq, decide_True.
Qed.

Lemma psbt_of_witness ins outs change :
  Forall2 (λ i u, witness_utxo i = Some u) (inputs (psbt_of ins outs change)) (map dto_output ins).
Proof.
  simpl. induction ins as [|u ins IH]; simpl; [constructor|]. constructor; [|done].
  apply add_input_meta_witness.
Qed.

(** ** Properties *)

(** The two kinds of writes that coordinator and signers make to an input. *)
Inductive field_op `{!FrostLib} :=
| SetCommitment (id : Identifier) (c : SigningCommitments)
| SetShare (id : Identifier) (s : SignatureShare).

Definition run_field_op `{!FrostLib} (i : PsbtInput) (o : field_op) : PsbtInput :=
  match o with
  | SetCommitment id c => set_signing_commitment id c i
  | SetShare id s => set_partial_signature id s i
  end.

(** The maps that the input stands for. *)
Definition abs_field_op `{!FrostLib}
    (m : gmap Identifier SigningCommitments * gmap Identifier SignatureShare) (o : field_op) :=
  match o with
  | SetCommitment id c => (<[id := c]> m.1, m.2)
  | SetShare id s => (m.1, <[id := s]> m.2)
  end.

Section field_properties.
Context `{!FrostLib, !FrostLaws}.

Lemma run_field_ops_sim ops i :
  (all_signing_commitments (foldl run_field_op i ops),
   all_partial_signatures (foldl run_field_op i ops)) =
    foldl abs_field_op (all_signing_commitments i, all_partial_signatures i) ops ∧
  witness_utxo (foldl run_field_op i ops) = witness_utxo i ∧
  eth_address (foldl run_field_op i ops) = eth_address i ∧
  multisig_id (foldl run_field_op i ops) = multisig_id i.
Proof.
  revert i. induction ops as [|o ops IH]; intros i; [done|]. cbn [foldl].
  destruct (IH (run_field_op i o)) as (-> & -> & -> & ->). destruct o as [id c|id s];
    cbn [run_field_op abs_field_op fst snd].
  - destruct (set_signing_commitment_spec id c i) as (-> & -> & -> & -> & ->). done.
  - destruct (set_partial_signature_spec id s i) as (-> & -> & -> & -> & ->). done.
Qed.

(** The proprietary fields of a PSBT input implement two independent maps
    from signers to commitments and to signature shares: after any sequence of
    [set_signing_commitment] and [set_partial_signature], by any signers in
    any order, [all_signing_commitments] and [all_partial_signatures] return
    what the same updates of two maps give, the single getters agree with
    them, and the funding output, the tweak address and the multisig id of the
    input are untouched. *)
Theorem frost_fields_refine_maps ops i m :
  all_signing_commitments i = m.1 → all_partial_signatures i = m.2 →
  let i' := foldl run_field_op i ops in
  let m' := foldl abs_field_op m ops in
  all_signing_commitments i' = m'.1 ∧ all_partial_signatures i' = m'.2 ∧
  (∀ id, signing_commitments id i' = m'.1 !! id ∧ partial_signature id i' = m'.2 !! id) ∧
  witness_utxo i' = witness_utxo i ∧ eth_address i' = eth_address i ∧
  multisig_id i' = multisig_id i.
Proof.
  intros Hc Hs i' m'. destruct (run_field_ops_sim ops i) as (Hm & Hw & He & Hid).
  fold i' in Hm, Hw, He, Hid.
  assert (m' = (all_signing_commitments i', all_partial_signatures i')) as ->.
  { rewrite Hm, Hc, Hs. subst m'. by destruct m. }
  cbn [fst snd]. split_and!; try done. intros id.
  unfold all_signing_commitments, all_partial_signatures. rewrite !collect_fields_lookup. done.
Qed.

End field_properties.

(** [create_psbt] never panics and loses nothing: the transaction spends
    the given outpoints in order, each input signalling replaceability, and
    pays the given outputs and then the change; every input carries its
    funding output, tweak address, version and multisig id, and the pegout ids
    read back from the outputs are the given ones in order. *)
Theorem create_psbt_roundtrip `{!PsbtLib, !PsbtLaws} ins outs change :
  Forall dto_wf ins → Forall (λ o, length o.2 = 36%nat) outs →
  ∃ p, create_psbt (E:=unit) ins outs change = Ok p ∧
    map previous_output (input (unsigned_tx p)) = map dto_outpoint ins ∧
    Forall (λ i, sequence i = ENABLE_RBF_NO_LOCKTIME) (input (unsigned_tx p)) ∧
    output (unsigned_tx p) = map fst outs ++ opt_list change ∧
    Forall2 (λ i u, witness_utxo i = Some (dto_output u) ∧
      eth_address i = dto_eth_address u ∧
      get_version_from_psbt_input i = Some (dto_version u) ∧
      multisig_id i = Some (dto_multisig_id u)) (inputs p) ins ∧
    pegout_ids p = map snd outs.
Proof.
  intros Hi Ho. exists (psbt_of ins outs change). split_and!.
  - apply create_psbt_eq.
  - apply map_unsigned_input.
  - simpl. apply Forall_map, Forall_true. done.
  - done.
  - simpl. induction Hi as [|u ins Hu Hi IH]; simpl; constructor; [|done].
    split; [apply add_input_meta_witness|by apply add_input_meta_fields].
  - by apply psbt_of_pegout_ids.
Qed.
