(* ===== verification/Types.v ===== *)
(** * The records of the btc-server

    The UTXO, pegout and tracked-transaction records that the database, the
    wallet, the coordinator and the pegout scheduler share, and the weight
    arithmetic of src/bin/botanix-btc-server/src/wallet/. *)

From S2P Require Import Prelude Bytes Bitcoin Psbt.

Open Scope Z_scope.

(** ** Records *)

(** [database::Utxo] *)
Record Utxo := mkUtxo {
  utxo_outpoint : OutPoint;
  utxo_output : TxOut;
  utxo_eth_address : option bytes;
  utxo_version : Z;
  utxo_multisig_id : MultisigId }.

(** [Utxo::new] *)
Definition Utxo_new (outpoint : OutPoint) (output : TxOut) (eth_address : option bytes)
    (version : option UtxoVersion) (multisig_id : MultisigId) : Utxo :=
  mkUtxo outpoint output eth_address
    (UtxoVersion_as_u32 (default V1 version)) multisig_id.

(** [database::FinalizedPegout] *)
Record FinalizedPegout := mkFinalizedPegout {
  fp_id : PegoutId;
  fp_block_number : Z;
  fp_timestamp : option Z }.

(** [pegout_scheduler::PegoutRequest] *)
Record PegoutRequest := mkPegoutRequest {
  pr_id : PegoutId;
  pr_spk : ScriptBuf;
  pr_value : Amount;
  pr_botanix_height : Z;
  pr_timestamp : option Z }.

Definition txout (r : PegoutRequest) : TxOut := mkTxOut (pr_value r) (pr_spk r).

(** [pegout_scheduler::Tx] *)
Record Tx := mkTx {
  tx_txid : Txid;
  tx_tx : Transaction;
  tx_pegout_idxs : list nat;
  tx_pegout_requests : list PegoutRequest;
  tx_change_idxs : list nat;
  tx_created : Z }.

(** [Tx::inputs] *)
Definition tx_inputs (t : Tx) : list OutPoint := map previous_output (input (tx_tx t)).

(** [Tx::pegouts] and [Tx::change]: indexing [tx.output] panics out of range. *)
Definition outputs_at {E} (t : Tx) (idxs : list nat) : outcome E (list (OutPoint * TxOut)) :=
  omap_all (λ i, let? o := expect (output (tx_tx t) !! i) in
                 Ok (mkOutPoint (tx_txid t) (Z.of_nat i), o)) idxs.

Definition pegouts {E} (t : Tx) : outcome E (list (OutPoint * TxOut)) :=
  outputs_at t (tx_pegout_idxs t).

Definition change {E} (t : Tx) : outcome E (list (OutPoint * TxOut)) :=
  outputs_at t (tx_change_idxs t).

#[global] Instance Utxo_eq_dec : EqDecision Utxo.
Proof. solve_decision. Defined.

#[global] Instance FinalizedPegout_eq_dec : EqDecision FinalizedPegout.
Proof. solve_decision. Defined.

#[global] Instance PegoutRequest_eq_dec : EqDecision PegoutRequest.
Proof. solve_decision. Defined.

#[global] Instance Tx_eq_dec : EqDecision Tx.
Proof. solve_decision. Defined.

Definition utxo_wf (u : Utxo) : Prop :=
  outpoint_wf (utxo_outpoint u) ∧ is_u64 (value (utxo_output u)).

(** [InputDTO] of a stored UTXO, as the coordinator and the coin selection
    convert it. *)
Definition utxo_to_dto (u : Utxo) : InputDTO :=
  mkInputDTO (utxo_outpoint u) (utxo_output u) (utxo_eth_address u)
    (UtxoVersion_or_default (utxo_version u)) (utxo_multisig_id u).

(** ** Weights: wallet/mod.rs *)

Definition TAPROOT_KEYSPEND_SIGHASH_DEFAULT_WEIGHT : Z := 65.
Definition SEGWIT_FLAG_WEIGHT : Z := 1.
Definition SEGWIT_MARKER_WEIGHT : Z := 1.
Definition MAX_BITCOIN_TX_WEIGHT : Z := 400000.
Definition MAX_BASE_TX_WEIGHT : Z := 4 * 4 + 1 + 1 + 3 * 4 + 3 * 4 + 4 * 4.
Definition PER_P2TR_KEYSPEND_WEIGHT : Z :=
  32 * 4 + 4 * 4 + 1 * 4 + 4 * 4 + 1 + TAPROOT_KEYSPEND_SIGHASH_DEFAULT_WEIGHT.
Definition PER_OUTPUT_MAX_WEIGHT : Z := 8 * 4 + 1 * 4 + 34 * 4.
Definition MAX_PEGOUT_TX_WEIGHT : Z := 50000.
Definition MAX_PEGOUT_TX_INPUTS : Z := 80.

(** ** wallet/util.rs *)

Inductive WalletCalculationError := WeightOverflow | InvalidParameters.

Definition calculate_signed_tx_weight `{!BitcoinLib} (p : Psbt)
    : outcome WalletCalculationError Z :=
  let unsigned_tx_weight := tx_weight (unsigned_tx p) in
  let num_inputs := length (inputs p) in
  let per_input_witness_item_count := 1 in
  let? total_signature_weight := ok_or
    (checked_mul (TAPROOT_KEYSPEND_SIGHASH_DEFAULT_WEIGHT + per_input_witness_item_count)
       (Z.of_nat num_inputs)) WeightOverflow in
  ok_or
    (match checked_add unsigned_tx_weight total_signature_weight with
     | Some w => match checked_add w SEGWIT_FLAG_WEIGHT with
                 | Some w => checked_add w SEGWIT_MARKER_WEIGHT
                 | None => None
                 end
     | None => None
     end) WeightOverflow.

(** The subtraction is on [u64]: [None] is its overflow (a panic in a debug
    build). *)
Definition max_number_of_psbt_inputs (num_outputs : Z) : option Z :=
  let psbt_without_inputs_weight := MAX_BASE_TX_WEIGHT + num_outputs * PER_OUTPUT_MAX_WEIGHT in
  match checked_sub MAX_BITCOIN_TX_WEIGHT psbt_without_inputs_weight with
  | Some w => checked_div w PER_P2TR_KEYSPEND_WEIGHT
  | None => None
  end.

Definition calculate_sweep_fee `{!BitcoinLib, !PsbtLib} (ins : list InputDTO)
    (output_script : ScriptBuf) (fee_rate : Z) : outcome WalletCalculationError Amount :=
  let dummy_output := mkTxOut 0 output_script in
  let? psbt := create_sweep_psbt ins dummy_output in
  let? total_weight := calculate_signed_tx_weight psbt in
  ok_or (fee_wu fee_rate total_weight) WeightOverflow.

(** ** Facts *)

Lemma calculate_signed_tx_weight_Ok `{!BitcoinLib} p w :
  calculate_signed_tx_weight p = Ok w →
  w = tx_weight (unsigned_tx p) + 66 * Z.of_nat (length (inputs p)) + 2.
Proof.
  unfold calculate_signed_tx_weight. intros Hw. ores Hw.
  apply ok_or_Ok, checked_mul_Some in Ho as [-> _]. apply ok_or_Ok in Hw.
  destruct (checked_add (tx_weight _) _) as [w1|] eqn:E1; [|done].
  destruct (checked_add w1 _) as [w2|] eqn:E2; [|done].
  apply checked_add_Some in E1 as [-> _], E2 as [-> _], Hw as [-> _].
  unfold TAPROOT_KEYSPEND_SIGHASH_DEFAULT_WEIGHT, SEGWIT_FLAG_WEIGHT, SEGWIT_MARKER_WEIGHT. lia.
Qed.

(** [max_number_of_psbt_inputs] is the largest number of key-spend inputs
    that fits: with [n] inputs, [k] outputs of the largest standard size and
    the base weight, the transaction stays within Bitcoin's 400,000 weight
    units, one more input would not, and the subtraction overflows exactly
    when the outputs alone exceed the limit (from 2,326 outputs on). *)
Theorem max_number_of_psbt_inputs_spec k :
  0 ≤ k →
  match max_number_of_psbt_inputs k with
  | Some n =>
      0 ≤ n ∧ k ≤ 2325 ∧
      MAX_BASE_TX_WEIGHT + k * PER_OUTPUT_MAX_WEIGHT + n * PER_P2TR_KEYSPEND_WEIGHT
        ≤ MAX_BITCOIN_TX_WEIGHT
        < MAX_BASE_TX_WEIGHT + k * PER_OUTPUT_MAX_WEIGHT + (n + 1) * PER_P2TR_KEYSPEND_WEIGHT
  | None => 2326 ≤ k
  end.
Proof.
  intros Hk. unfold max_number_of_psbt_inputs.
  change PER_P2TR_KEYSPEND_WEIGHT with 230. change MAX_BASE_TX_WEIGHT with 58.
  change MAX_BITCOIN_TX_WEIGHT with 400000. change PER_OUTPUT_MAX_WEIGHT with 172.
  unfold checked_sub. destruct (Z.leb_spec (58 + k * 172) 400000) as [Hle|Hgt]; [|lia].
  unfold checked_div. simpl Z.eqb. cbn match.
  pose proof (Z.div_mod (400000 - (58 + k * 172)) 230 ltac:(lia)).
  pose proof (Z.mod_pos_bound (400000 - (58 + k * 172)) 230 ltac:(lia)).
  assert (0 ≤ (400000 - (58 + k * 172)) / 230) by (apply Z.div_pos; lia). lia.
Qed.

Lemma max_number_of_psbt_inputs_witness :
  0 ≤ 100 ∧ max_number_of_psbt_inputs 100 = Some 1664 ∧
  match max_number_of_psbt_inputs 100 with Some n => 0 ≤ n | None => False end.
Proof.
  split; [lia|]. split; [reflexivity|].
  exact (proj1 (max_number_of_psbt_inputs_spec 100 ltac:(lia))).
Defined.
