(* ===== verification/Concrete.v ===== *)
(** * Concrete instances of the libraries

    Small executable instances of the parameter classes, used by witnesses and
    by the evaluations of the model on concrete inputs.  Weights, dust limits
    and fees follow the formulas of Bitcoin for witness programs, hashes and
    keys are plain encodings. *)

From S2P Require Import Prelude Bytes Bitcoin Psbt Types.

Open Scope Z_scope.

Definition toy_hash (b : bytes) : bytes := to_le_bytes 32 (from_le_bytes b mod (2 ^ 256 - 189)).

Definition toy_encode_tx (tx : Transaction) : bytes :=
  concat (map (λ i, to_bytes (previous_output i)) (input tx)) ++
  concat (map (λ o, to_le_bytes 8 (value o) ++ script_pubkey o) (output tx)).

(** 10 bytes of header, 41 bytes per unsigned input, 9 bytes and the script per
    output, four weight units per byte. *)
Definition toy_tx_weight (tx : Transaction) : Z :=
  4 * (10 + 41 * Z.of_nat (length (input tx)) +
       sumZ (map (λ o, 9 + Z.of_nat (length (script_pubkey o))) (output tx))).

(** The dust limit of a witness program at 3 sat/vB: 330 for P2TR, 294 for
    P2WPKH. *)
Definition toy_minimal_non_dust (spk : ScriptBuf) : Amount :=
  3 * (76 + Z.of_nat (length spk)).

Definition toy_fee_wu (rate w : Z) : option Amount :=
  let fee := (rate * w + 999) / 1000 in
  if (0 <=? fee) && (fee <=? u64_max) then Some fee else None.

Definition toy_deserialize_outpoint (b : bytes) : option OutPoint :=
  if decide (length b = 36%nat)
  then Some (mkOutPoint (take 32 b) (from_le_bytes (drop 32 b))) else None.

#[export] Instance toy_bitcoin : BitcoinLib := {
  compute_txid tx := toy_hash (toy_encode_tx tx);
  tx_weight := toy_tx_weight;
  minimal_non_dust := toy_minimal_non_dust;
  fee_wu := toy_fee_wu;
  is_p2tr spk := bool_decide (length spk = 34%nat) && bool_decide (take 2 spk = [81; 32]);
  deserialize_outpoint := toy_deserialize_outpoint;
  deserialize_txid b := if decide (length b = 32%nat) then Some b else None;
  deserialize_script b := match b with n :: s => if Z.of_nat (length s) =? n then Some s else None
                                     | [] => None end;
  encode_txid b := b;
  encode_outpoint := to_bytes;
  encode_u32 := to_le_bytes 4;
  encode_u64 := to_le_bytes 8;
  encode_array b := b;
  sha256 := toy_hash;
  calculate_root l := match l with [] => None | _ => Some (toy_hash (concat l)) end }.

#[export] Instance toy_bitcoin_laws : BitcoinLaws.
Proof.
  split.
  - intros [t v] [[Hl Hu] Hv]. cbn [op_txid op_vout] in *.
    change (toy_deserialize_outpoint (t ++ to_le_bytes 4 v) = Some (mkOutPoint t v)).
    unfold toy_deserialize_outpoint.
    rewrite decide_True by (by rewrite length_app, Hl, to_le_bytes_length).
    rewrite take_app_length', drop_app_length' by done.
    unfold is_u32, u32_max in Hv. by rewrite from_to_le_bytes by (simpl; lia).
  - intros rate w f. simpl. unfold toy_fee_wu.
    destruct (0 <=? _) eqn:E1, (_ <=? u64_max) eqn:E2; simpl; try done.
    intros [= <-]. unfold is_u64. lia.
  - intros [|x l] Hne; [done|]. by eexists.
Qed.

#[export] Instance toy_frost : FrostLib := {
  Identifier := bytes;
  SigningCommitments := bytes;
  SignatureShare := bytes;
  SigningNonces := bytes;
  KeyPackage := bytes;
  PublicKeyPackage := bytes;
  Round1Package := bytes;
  Round2Package := bytes;
  identifier_serialize b := b;
  identifier_deserialize b := Some b;
  commitments_serialize b := b;
  commitments_deserialize b := Some b;
  share_serialize b := b;
  share_deserialize b := Some b;
  round1_cbor_len b := Z.of_nat (length b);
  round2_cbor_len b := Z.of_nat (length b);
  to_secp_pk b := Some b;
  new_p2tr pk := [81; 32] ++ drop 1 pk }.

#[export] Instance toy_frost_laws : FrostLaws.
Proof. split; try done. intros b i [= ->]. done. Qed.

Definition toy_merge (i j : PsbtInput) : PsbtInput :=
  mkPsbtInput (match witness_utxo i with Some u => Some u | None => witness_utxo j end)
    (in_proprietary i ∪ in_proprietary j) (sighash_type i) (tap_key_sig i)
    (final_script_witness i).

(** A key-spend input is final once it is signed. *)
Definition toy_finalize (p : Psbt) : option Psbt :=
  match omap_all (λ i, ok_or (tap_key_sig i) tt) (inputs p) with
  | Ok sigs => Some (mkPsbt (unsigned_tx p)
      (zip_with (λ i s, mkPsbtInput (witness_utxo i) ∅ (sighash_type i) (tap_key_sig i)
                          (Some [s.1])) (inputs p) sigs) (outputs p))
  | _ => None
  end.

(** The transaction takes the final witnesses. *)
Definition toy_extract (p : Psbt) : Transaction :=
  let tx := unsigned_tx p in
  mkTransaction (tx_version tx) (lock_time tx)
    (imap (λ k i, mkTxIn (previous_output i) (script_sig i) (sequence i)
                    (default [] (inputs p !! k ≫= final_script_witness))) (input tx)) (output tx).

#[export] Instance toy_psbt : PsbtLib := {
  from_unsigned_tx tx := Some (mkPsbt tx (replicate (length (input tx)) PsbtInput_default)
                                         (replicate (length (output tx)) PsbtOutput_default));
  psbt_fee p := match omap_all (λ i, ok_or (witness_utxo i) PsbtOther) (inputs p) with
                | Ok us => fee_of (map value us) (map value (output (unsigned_tx p)))
                | Err e => Err e
                | Panic => Panic
                end;
  extract_tx p := Ok (toy_extract p);
  psbt_combine p q := if decide (unsigned_tx p = unsigned_tx q)
                      then Ok (mkPsbt (unsigned_tx p) (zip_with toy_merge (inputs p) (inputs q))
                                      (outputs p))
                      else Err PsbtOther;
  psbt_finalize := toy_finalize;
  psbt_cbor_len p := 1 + Z.of_nat (length (inputs p));
  taproot_sighash tx us i := Ok (toy_encode_tx tx ++ to_le_bytes 4 (Z.of_nat i)) }.

#[export] Instance toy_psbt_laws : PsbtLaws.
Proof.
  split.
  - done.
  - intros p us _ Hus. simpl.
    rewrite (proj2 (omap_all_Ok (λ i, ok_or (witness_utxo i) PsbtOther) (inputs p) us)); [done|].
    eapply Forall2_impl; [exact Hus|]. intros i u Hu. by apply ok_or_Ok.
  - intros p tx [= <-]. split; [done|]. unfold toy_extract. cbn [input]. apply list_eq. intros k.
    rewrite !list_lookup_fmap, list_lookup_imap. by destruct (input (unsigned_tx p) !! k).
Qed.

(** A P2TR script and a P2WPKH script, told apart by one byte. *)
Definition p2tr (n : Z) : ScriptBuf := [81; 32] ++ replicate 32 n.
Definition p2wpkh (n : Z) : ScriptBuf := [0; 20] ++ replicate 20 n.

Definition toy_outpoint (n : Z) : OutPoint := mkOutPoint (replicate 32 n) 0.
Definition toy_pegout_id (n : Z) : PegoutId := mkPegoutId (replicate 32 n) 0.

(** A UTXO of the legacy federation worth [v] satoshi. *)
Definition toy_utxo (n v : Z) : Utxo :=
  mkUtxo (toy_outpoint n) (mkTxOut v (p2tr n)) None 0 LEGACY_MULTISIG_ID.

Lemma toy_array n : is_u8 n → is_array 32 (replicate 32 n).
Proof. intros Hn. split; [by rewrite length_replicate|by apply Forall_replicate]. Qed.

Lemma toy_outpoint_wf n : is_u8 n → outpoint_wf (toy_outpoint n).
Proof. intros Hn. split; [by apply toy_array|]. simpl. unfold is_u32, u32_max. lia. Qed.

Lemma toy_pegout_id_wf n : is_u8 n → pegout_id_wf (toy_pegout_id n).
Proof. intros Hn. split; [by apply toy_array|]. simpl. unfold is_u32, u32_max. lia. Qed.

(** The well-formedness of lists of toy data. *)
Ltac toy_wf :=
  repeat match goal with
  | |- Forall _ (_ :: _) => apply Forall_cons; split
  | |- Forall _ [] => apply Forall_nil; exact I
  | |- outpoint_wf _ => apply toy_outpoint_wf
  | |- pegout_id_wf _ => apply toy_pegout_id_wf
  | |- is_u8 _ => unfold is_u8, u8_max; lia
  | |- is_u64 _ => unfold is_u64, u64_max; simpl; lia
  | _ => progress simpl
  end.

(** ** Witnesses of the properties of the PSBT fields *)

Lemma frost_fields_refine_maps_witness :
  let i' := foldl run_field_op PsbtInput_default
    [@SetCommitment toy_frost [1] [11]; @SetShare toy_frost [1] [12]; @SetCommitment toy_frost [2] [21]] in
  all_signing_commitments PsbtInput_default = ∅ ∧
  all_partial_signatures PsbtInput_default = ∅ ∧
  signing_commitments [2] i' = Some [21] ∧ partial_signature [1] i' = Some [12] ∧
  partial_signature [2] i' = None.
Proof.
  split; [reflexivity|]. split; [reflexivity|].
  destruct (frost_fields_refine_maps
    [@SetCommitment toy_frost [1] [11]; @SetShare toy_frost [1] [12]; @SetCommitment toy_frost [2] [21]] PsbtInput_default (∅, ∅)
    eq_refl eq_refl) as (_ & _ & Hg & _).
  split; [|split].
  - etrans; [apply (Hg [2])|]. vm_compute. reflexivity.
  - etrans; [apply (Hg [1])|]. vm_compute. reflexivity.
  - etrans; [apply (Hg [2])|]. vm_compute. reflexivity.
Defined.

Lemma create_psbt_roundtrip_witness :
  ∃ p, create_psbt (E:=unit) [utxo_to_dto (toy_utxo 1 1000)]
         [(mkTxOut 500 (p2wpkh 3), as_bytes (toy_pegout_id 4))] (Some (mkTxOut 400 (p2tr 5))) = Ok p ∧
    map previous_output (input (unsigned_tx p)) = [toy_outpoint 1] ∧
    pegout_ids p = [as_bytes (toy_pegout_id 4)].
Proof.
  destruct (create_psbt_roundtrip [utxo_to_dto (toy_utxo 1 1000)]
    [(mkTxOut 500 (p2wpkh 3), as_bytes (toy_pegout_id 4))] (Some (mkTxOut 400 (p2tr 5))))
    as (p & Hp & Hin & _ & _ & _ & Hids).
  - apply Forall_cons; split; [|by apply Forall_nil]. split; [|exact I].
    unfold is_u32, u32_max. simpl. lia.
  - apply Forall_cons; split; [reflexivity|by apply Forall_nil].
  - exists p. split; [exact Hp|]. split; [exact Hin|exact Hids].
Defined.
