(* ===== verification/CoinSelection.v ===== *)
(** * Coin selection and fees

    src/bin/botanix-btc-server/src/wallet/coin_selection.rs: the coordinator
    chooses inputs for a batch of pegouts, charges the mining fee to the
    pegouts, drops the ones the fee turns into dust and returns the rest of
    the selected value as change.  BDK's selection algorithm is a parameter
    ([BdkLib]); iteration over a Rust [HashMap] is [map_to_list]. *)

From S2P Require Import Prelude Bytes Bitcoin Psbt Types Concrete.

Open Scope Z_scope.

Inductive SanityCheckError :=
| BadRefundBalance (change_output_value total_input_value target_amount : Amount)
| RecalculationFilteredMoreOutputs.

Inductive CoinSelectionError :=
| CoinSelectionBdk (needed available : Amount)
| CsPsbtError (e : PsbtError)
| CsExtractTxError (e : ExtractTxError)
| OutputsCannotBeEmpty
| PegoutFeeOverflow
| FeeRateOverflow
| TotalUtxosValueOverflow
| SanityCheck (e : SanityCheckError)
| NoViableOutputs
| WalletCalculation (e : WalletCalculationError).

#[global] Instance CoinSelectionError_eq_dec : EqDecision CoinSelectionError.
Proof.
  assert (EqDecision WalletCalculationError) by solve_decision.
  assert (EqDecision PsbtError) by solve_decision.
  assert (EqDecision ExtractTxError) by solve_decision.
  assert (EqDecision SanityCheckError) by solve_decision.
  solve_decision.
Defined.

Inductive FilterResult :=
| AllRemaining (pegouts : list (TxOut * bytes))
| SomeFiltered (filtered_pegout_ids : list bytes).

Definition TARGET_CHANGE_PERCENT : Z := 50.
Definition MAX_CHANGE_PERCENT : Z := 5.
Definition MIN_CHANGE_SATS : Z := 10000.

(** [bdk_wallet::WeightedUtxo], with the fields that vary. *)
Record WeightedUtxo := mkWeightedUtxo {
  satisfaction_weight : Z;
  wu_outpoint : OutPoint;
  wu_txout : TxOut }.

(** [CoinSelectionAlgorithm::coin_select] of
    [BranchAndBoundCoinSelection<OldestFirstCoinSelection>]: the required and
    the optional UTXOs, the fee rate, the target and the drain script give the
    selected outpoints, or the amounts needed and available. *)
Class BdkLib := {
  coin_select : list WeightedUtxo → list WeightedUtxo → Z → Amount → ScriptBuf →
                outcome (Amount * Amount) (list OutPoint) }.

(** The required UTXOs are always part of the selection, which comes from the
    UTXOs it was given. *)
Class BdkLaws `{!BdkLib} : Prop := {
  coin_select_required req opt rate target drain sel :
    coin_select req opt rate target drain = Ok sel →
    ∀ w, w ∈ req → wu_outpoint w ∈ sel;
  coin_select_subset req opt rate target drain sel :
    coin_select req opt rate target drain = Ok sel →
    ∀ o, o ∈ sel → ∃ w, w ∈ req ++ opt ∧ wu_outpoint w = o }.

Definition utxo_to_bdk (u : Utxo) : WeightedUtxo :=
  mkWeightedUtxo TAPROOT_KEYSPEND_SIGHASH_DEFAULT_WEIGHT (utxo_outpoint u) (utxo_output u).

(** [HashMap::values] *)
Definition map_values (m : gmap OutPoint Utxo) : list Utxo := (map_to_list m).*2.

Definition utxo_values (m : gmap OutPoint Utxo) : list Amount :=
  map (λ u, value (utxo_output u)) (map_values m).

Definition calculate_target_change (total_pegout_value remaining_utxos_value : Amount)
    : outcome CoinSelectionError Amount :=
  let? t := ok_or (checked_mul total_pegout_value TARGET_CHANGE_PERCENT) FeeRateOverflow in
  let? target_change := ok_or (checked_div t 100) FeeRateOverflow in
  let? m := ok_or (checked_mul remaining_utxos_value MAX_CHANGE_PERCENT) FeeRateOverflow in
  let? max_change_value := ok_or (checked_div m 100) FeeRateOverflow in
  Ok (Z.min (Z.max (Z.min target_change max_change_value) MIN_CHANGE_SATS) remaining_utxos_value).

(** [sort_by_key(|&i| Reverse(pegouts[i].0.value))] on the indices, all of
    which are in range. *)
Definition pegout_value (pegouts : list (TxOut * bytes)) (i : nat) : Amount :=
  default 0 ((λ p, value p.1) <$> pegouts !! i).

Definition sorted_indices (pegouts : list (TxOut * bytes)) : list nat :=
  sort_by (λ a b, pegout_value pegouts b <=? pegout_value pegouts a) (seq 0 (length pegouts)).

(** [fees_to_subtract[index] += 1], for an index that is in range. *)
Definition add_one_sat (fees : list Amount) (index : nat) : outcome CoinSelectionError (list Amount) :=
  let? f := expect (fees !! index) in
  let? f' := ok_or (checked_add f 1) FeeRateOverflow in
  Ok (<[index := f']> fees).

Definition calculate_fee_distribution (pegouts : list (TxOut * bytes)) (absolute_fee : Amount)
    : outcome CoinSelectionError (list Amount) :=
  let num_outputs := length pegouts in
  if (num_outputs =? 0)%nat then Err OutputsCannotBeEmpty else
  let? base_fee_per_output :=
    ok_or (checked_div absolute_fee (Z.of_nat num_outputs)) FeeRateOverflow in
  let remainder := absolute_fee mod Z.of_nat num_outputs in
  let fees_to_subtract := replicate num_outputs base_fee_per_output in
  let sorted := sorted_indices pegouts in
  ofold (λ fees sat_index,
    let? index := expect (sorted !! sat_index) in add_one_sat fees index)
    fees_to_subtract (seq 0 (Z.to_nat remainder)).

Section coin_selection.
Context `{!BitcoinLib, !PsbtLib, !BdkLib}.

(** One round of the loop of [try_apply_fees_and_filter_dust]: the pair holds
    [result] and [filtered_pegout_ids]. *)
Definition charge_output (fees : list Amount)
    (acc : list (TxOut * bytes) * list bytes) (p : nat * (TxOut * bytes))
    : outcome CoinSelectionError (list (TxOut * bytes) * list bytes) :=
  let '(result, filtered) := acc in
  let '(i, (o, id)) := p in
  let? fee := expect (fees !! i) in
  let value_after_fee := default 0 (checked_sub (value o) fee) in
  let updated_output := mkTxOut value_after_fee (script_pubkey o) in
  let dust_threshold := minimal_non_dust (script_pubkey updated_output) in
  if dust_threshold <=? value updated_output
  then Ok (result ++ [(updated_output, id)], filtered)
  else Ok (result, filtered ++ [id]).

Definition try_apply_fees_and_filter_dust (pegouts : list (TxOut * bytes))
    (absolute_fee : Amount) : outcome CoinSelectionError FilterResult :=
  if bool_decide (pegouts = []) then Err NoViableOutputs else
  let original_count := length pegouts in
  let? fees_to_subtract := calculate_fee_distribution pegouts absolute_fee in
  let? '(result, filtered_pegout_ids) :=
    ofold (charge_output fees_to_subtract) ([], []) (imap pair pegouts) in
  if (length result =? original_count)%nat then Ok (AllRemaining result)
  else if bool_decide (result = []) then Err NoViableOutputs
  else Ok (SomeFiltered filtered_pegout_ids).

Definition calculate_required_fee (ins : list InputDTO) (outs : list (TxOut * bytes))
    (change : option TxOut) (fee_rate : Z) : outcome CoinSelectionError Amount :=
  let? psbt := create_psbt ins outs change in
  let? total_weight := map_err WalletCalculation (calculate_signed_tx_weight psbt) in
  ok_or (fee_wu fee_rate total_weight) FeeRateOverflow.

Definition create_change (selected_inputs : list InputDTO) (pegouts : list (TxOut * bytes))
    (change_script : ScriptBuf) : outcome CoinSelectionError (option TxOut) :=
  let? total_selected_inputs := amount_sum (map (λ i, value (dto_output i)) selected_inputs) in
  let? total_pegout_target := amount_sum (map (λ p, value p.1) pegouts) in
  let? final_change_amount :=
    ok_or (checked_sub total_selected_inputs total_pegout_target)
      (CoinSelectionBdk total_selected_inputs total_pegout_target) in
  Ok (Some (mkTxOut final_change_amount change_script)).

Definition sanity_check_psbt (psbt : Psbt) (selected_inputs : list InputDTO)
    (change_script : ScriptBuf) (total_pegout_target : Amount)
    : outcome CoinSelectionError unit :=
  let? tx := expect (ok (extract_tx psbt)) in
  let? total_input_value := amount_sum (map (λ i, value (dto_output i)) selected_inputs) in
  let? change_output :=
    expect (snd <$> list_find (λ o, script_pubkey o = change_script) (output tx)) in
  let change_output_value := value change_output in
  let? expected := ok_or (checked_sub total_input_value total_pegout_target) FeeRateOverflow in
  if change_output_value =? expected then Ok tt
  else Err (SanityCheck (BadRefundBalance change_output_value total_input_value total_pegout_target)).

(** The pegouts whose id is not among the filtered ones. *)
Definition remaining (filtered : list bytes) (pegouts : list (TxOut * bytes)) : list (TxOut * bytes) :=
  List.filter (λ p, negb (contains filtered p.2)) pegouts.

Definition apply_fees_and_create_psbt (selected_inputs : list InputDTO)
    (pegouts : list (TxOut * bytes)) (change_script : ScriptBuf) (fee_rate : Z)
    : outcome CoinSelectionError (Psbt * list bytes) :=
  let? change := create_change selected_inputs pegouts change_script in
  let? absolute_fee := calculate_required_fee selected_inputs pegouts change fee_rate in
  let? first_attempt := try_apply_fees_and_filter_dust pegouts absolute_fee in
  match first_attempt with
  | AllRemaining final_pegouts =>
      let? psbt := create_psbt selected_inputs final_pegouts change in
      Ok (psbt, [])
  | SomeFiltered filtered_pegout_ids =>
      let remaining_pegouts := remaining filtered_pegout_ids pegouts in
      let? recalculated_change := create_change selected_inputs remaining_pegouts change_script in
      let? recalculated_absolute_fee :=
        calculate_required_fee selected_inputs remaining_pegouts recalculated_change fee_rate in
      let? second_attempt :=
        try_apply_fees_and_filter_dust remaining_pegouts recalculated_absolute_fee in
      match second_attempt with
      | AllRemaining final_outputs =>
          let? psbt := create_psbt selected_inputs final_outputs recalculated_change in
          Ok (psbt, filtered_pegout_ids)
      | SomeFiltered _ => Err (SanityCheck RecalculationFilteredMoreOutputs)
      end
  end.

Definition perform_coin_selection (optional_utxos required_utxos : gmap OutPoint Utxo)
    (fee_rate : Z) (coin_selection_target : Amount) (change_script : ScriptBuf)
    : outcome CoinSelectionError (list InputDTO) :=
  let? selection := map_err (λ '(needed, available), CoinSelectionBdk needed available)
    (coin_select (map utxo_to_bdk (map_values required_utxos))
       (map utxo_to_bdk (map_values optional_utxos))
       fee_rate coin_selection_target change_script) in
  let selected := omap (λ op, match optional_utxos !! op with
                              | Some u => Some u
                              | None => required_utxos !! op
                              end) selection in
  Ok (map utxo_to_dto selected).

Definition coin_selection (optional_utxos required_utxos : gmap OutPoint Utxo)
    (outs : list (TxOut * PegoutId)) (fee_rate : Z) (change_script : ScriptBuf)
    : outcome CoinSelectionError Psbt :=
  if bool_decide (outs = []) then Err OutputsCannotBeEmpty else
  let pegouts := map (λ '(o, id), (o, as_bytes id)) outs in
  let? required_utxos_value :=
    ok_or (checked_sum (utxo_values required_utxos)) TotalUtxosValueOverflow in
  let? optional_utxos_value :=
    ok_or (checked_sum (utxo_values optional_utxos)) TotalUtxosValueOverflow in
  let? total_utxos_value :=
    ok_or (checked_add required_utxos_value optional_utxos_value) TotalUtxosValueOverflow in
  let? total_pegout_target :=
    ok_or (checked_sum (map (λ p, value p.1) pegouts)) TotalUtxosValueOverflow in
  let? remaining_utxos_value := ok_or (checked_sub total_utxos_value total_pegout_target)
    (CoinSelectionBdk total_pegout_target total_utxos_value) in
  let? target_change := calculate_target_change total_pegout_target remaining_utxos_value in
  let? coin_selection_target :=
    ok_or (checked_add total_pegout_target target_change) FeeRateOverflow in
  let? selected_inputs := perform_coin_selection optional_utxos required_utxos fee_rate
    coin_selection_target change_script in
  let? '(psbt, filtered_pegout_ids) :=
    apply_fees_and_create_psbt selected_inputs pegouts change_script fee_rate in
  let? updated_pegout_target := amount_sum
    (omap (λ p, if contains filtered_pegout_ids p.2 then None else Some (value p.1)) pegouts) in
  sanity_check_psbt psbt selected_inputs change_script updated_pegout_target ;?
  Ok psbt.

End coin_selection.

(** ** The fee distribution *)

Lemma ofold_lookup {E A B} (f : B → A → outcome E B) (l : list A) k r acc :
  (k + r ≤ length l)%nat →
  ofold (λ acc i, let? x := expect (l !! i) in f acc x) acc (seq k r) =
  ofold f acc (take r (drop k l)).
Proof.
  revert k acc. induction r as [|r IH]; intros k acc Hk; [done|].
  destruct (lookup_lt_is_Some_2 l k ltac:(lia)) as [x Hx].
  rewrite (drop_S l x k Hx). cbn [seq ofold take]. rewrite Hx. simpl.
  destruct (f acc x); simpl; [|done..]. apply IH. lia.
Qed.

Lemma add_one_sat_spec fees i f :
  fees !! i = Some f → f < u64_max → add_one_sat fees i = Ok (<[i := f + 1]> fees).
Proof.
  intros Hi Hf. unfold add_one_sat. rewrite Hi. simpl.
  by rewrite (proj2 (checked_add_Some f 1 (f + 1))) by (unfold u64_max in *; lia).
Qed.

(** Adding one satoshi at distinct places, none of them at the top of the range. *)
Lemma add_one_sat_fold idxs fees :
  NoDup idxs →
  (∀ i, i ∈ idxs → ∃ f, fees !! i = Some f ∧ f < u64_max) →
  ∃ fees', ofold add_one_sat fees idxs = Ok fees' ∧
    length fees' = length fees ∧
    sumZ fees' = sumZ fees + Z.of_nat (length idxs) ∧
    ∀ i, fees' !! i = (λ f, if decide (i ∈ idxs) then f + 1 else f) <$> fees !! i.
Proof.
  intros Hnd. revert fees. induction Hnd as [|i idxs Hi Hnd IH]; intros fees Hr; simpl.
  - exists fees. repeat split; [lia|]. intros i. by destruct (fees !! i).
  - destruct (Hr i ltac:(set_solver)) as (f & Hf & Hlt).
    rewrite (add_one_sat_spec _ _ _ Hf Hlt). simpl.
    destruct (IH (<[i := f + 1]> fees)) as (fees' & -> & Hlen & Hsum & Hl).
    { intros j Hj. destruct (Hr j ltac:(set_solver)) as (g & Hg & ?). exists g.
      rewrite list_lookup_insert_ne by set_solver. done. }
    exists fees'. repeat split; [by rewrite length_insert in Hlen| |].
    + rewrite Hsum, (sumZ_insert _ _ _ _ Hf). lia.
    + intros j. rewrite Hl. destruct (decide (i = j)) as [<-|Hne].
      * rewrite list_lookup_insert_eq by eauto using lookup_lt_Some. rewrite Hf. simpl.
        by rewrite decide_False, decide_True by set_solver.
      * rewrite list_lookup_insert_ne by done. destruct (fees !! j); simpl; [|done].
        f_equal. destruct (decide (j ∈ idxs)).
        -- by rewrite decide_True by set_solver.
        -- by rewrite decide_False by set_solver.
Qed.

Lemma sorted_indices_perm pegouts : sorted_indices pegouts ≡ₚ seq 0 (length pegouts).
Proof. apply sort_by_perm. Qed.

Lemma sorted_indices_desc pegouts :
  StronglySorted (λ a b, (pegout_value pegouts b <=? pegout_value pegouts a) = true)
    (sorted_indices pegouts).
Proof. apply sort_by_sorted; intros; lia. Qed.

Lemma StronglySorted_app_rel {A} (R : relation A) l1 l2 x y :
  StronglySorted R (l1 ++ l2) → x ∈ l1 → y ∈ l2 → R x y.
Proof.
  induction l1 as [|z l1 IH]; simpl; [set_solver|].
  inversion 1 as [|? ? Hs Hf]; subst. intros [->|Hx]%elem_of_cons Hy; [|by apply IH].
  rewrite Forall_forall in Hf. apply Hf. set_solver.
Qed.

(** The first [r] of the sorted indices: distinct, in range, and at least as
    valuable as every other index. *)
Lemma sorted_indices_take pegouts r :
  (r ≤ length pegouts)%nat →
  let top := take r (sorted_indices pegouts) in
  NoDup top ∧ length top = r ∧ (∀ i, i ∈ top → (i < length pegouts)%nat) ∧
  (∀ i j, i ∈ top → (j < length pegouts)%nat → j ∉ top →
     pegout_value pegouts j ≤ pegout_value pegouts i).
Proof.
  intros Hr top. pose proof (take_drop r (sorted_indices pegouts)) as Htd. fold top in Htd.
  assert (NoDup (top ++ drop r (sorted_indices pegouts))) as Hnd.
  { rewrite Htd, sorted_indices_perm. apply NoDup_seq. }
  repeat split.
  - by apply NoDup_app in Hnd as (? & _).
  - unfold top. rewrite length_take, sorted_indices_perm, length_seq. lia.
  - intros i Hi. assert (i ∈ seq 0 (length pegouts)) as Hs%elem_of_seq; [|lia].
    rewrite <-sorted_indices_perm, <-Htd. set_solver.
  - intros i j Hi Hj Hnj. pose proof (sorted_indices_desc pegouts) as Hs.
    rewrite <-Htd in Hs. apply Z.leb_le, (StronglySorted_app_rel _ _ _ _ _ Hs Hi).
    assert (j ∈ top ++ drop r (sorted_indices pegouts)) as [|]%elem_of_app; [|done..].
    rewrite Htd, sorted_indices_perm. apply elem_of_seq. lia.
Qed.

Lemma fee_distribution_Ok pegouts fee :
  pegouts ≠ [] → is_u64 fee →
  ∃ fees,
    calculate_fee_distribution pegouts fee = Ok fees ∧
    length fees = length pegouts ∧
    sumZ fees = fee ∧
    ∃ top : list nat, (∀ i, fees !! i = (λ f, if decide (i ∈ top) then f + 1 else f) <$>
               replicate (length pegouts) (fee / Z.of_nat (length pegouts)) !! i) ∧
      (∀ i j, i ∈ top → (j < length pegouts)%nat → j ∉ top →
         pegout_value pegouts j ≤ pegout_value pegouts i).
Proof.
  intros Hne [H0 Hmax]. unfold calculate_fee_distribution.
  assert (length pegouts ≠ 0)%nat as Hn by (by destruct pegouts).
  rewrite (proj2 (Nat.eqb_neq _ _) Hn). set (n := length pegouts) in *.
  rewrite (proj2 (checked_div_Some fee (Z.of_nat n) (fee / Z.of_nat n))) by lia. simpl.
  pose proof (Z.div_mod fee (Z.of_nat n) ltac:(lia)) as Hdm.
  pose proof (Z.mod_pos_bound fee (Z.of_nat n) ltac:(lia)) as Hmb.
  assert (0 ≤ fee / Z.of_nat n) as Hq by (apply Z.div_pos; lia).
  set (r := Z.to_nat (fee mod Z.of_nat n)).
  assert (r ≤ n)%nat as Hr by lia.
  destruct (sorted_indices_take pegouts r Hr) as (Hnd & Hlen & Hin & Hval).
  rewrite (ofold_lookup add_one_sat (sorted_indices pegouts) 0 r) by (rewrite sorted_indices_perm, length_seq; lia).
  rewrite drop_0. set (top := take r (sorted_indices pegouts)) in *.
  destruct (add_one_sat_fold top (replicate n (fee / Z.of_nat n)) Hnd)
    as (fees & Hf & Hlf & Hsum & Hl).
  { intros i Hi. exists (fee / Z.of_nat n). split; [apply lookup_replicate_2, Hin, Hi|].
    assert (r ≠ 0)%nat by (intros Hz; rewrite Hz in Hlen; destruct top; set_solver).
    assert (fee / Z.of_nat n * 1 ≤ fee / Z.of_nat n * Z.of_nat n) by nia.
    unfold u64_max in *. nia. }
  exists fees. rewrite length_replicate in Hlf. repeat split; [done|done| |].
  - rewrite Hsum, sumZ_replicate, Hlen. lia.
  - exists top. split; [exact Hl|exact Hval].
Qed.

(** ** Charging the outputs *)

Section charging.
Context `{!BitcoinLib, !PsbtLib, !BdkLib}.

(** A pegout with the fee it is charged. *)
Definition charged (pf : (TxOut * bytes) * Amount) : TxOut * bytes :=
  (mkTxOut (default 0 (checked_sub (value pf.1.1) pf.2)) (script_pubkey pf.1.1), pf.1.2).

Definition survives (pf : (TxOut * bytes) * Amount) : bool :=
  minimal_non_dust (script_pubkey pf.1.1) <=? value (charged pf).1.

Lemma charge_fold fees pegouts k acc :
  (k + length pegouts ≤ length fees)%nat →
  ofold (charge_output fees) acc (imap (λ i p, ((k + i)%nat, p)) pegouts) =
  Ok (acc.1 ++ map charged (List.filter survives (zip pegouts (drop k fees))),
      acc.2 ++ map (λ pf, pf.1.2) (List.filter (λ pf, negb (survives pf)) (zip pegouts (drop k fees)))).
Proof.
  revert k acc. induction pegouts as [|[o id] pegouts IH]; intros k [res fil] Hk.
  - simpl. by rewrite !app_nil_r.
  - destruct (lookup_lt_is_Some_2 fees k ltac:(simpl in Hk; lia)) as [fee Hfee].
    rewrite (drop_S fees fee k Hfee). rewrite imap_cons. cbn [ofold zip zip_with].
    unfold charge_output at 1. rewrite Nat.add_0_r, Hfee. cbn [expect obind].
    assert (imap ((λ i p, ((k + i)%nat, p)) ∘ S) pegouts =
            imap (λ i p, ((S k + i)%nat, p)) pegouts) as Himap.
    { apply imap_ext. intros i p _. simpl. f_equal. lia. }
    assert (Hs : survives (o, id, fee) = (minimal_non_dust (script_pubkey o) <=?
       default 0 (checked_sub (value o) fee))) by done.
    cbn [List.filter]. rewrite Hs. cbn [script_pubkey value].
    destruct (minimal_non_dust (script_pubkey o) <=? _); cbn [obind negb];
      rewrite Himap, IH by (simpl in Hk; lia); cbn [fst snd map]; by rewrite <-app_assoc.
Qed.

Lemma charge_all fees pegouts :
  length fees = length pegouts →
  ofold (charge_output fees) ([], []) (imap pair pegouts) =
  Ok (map charged (List.filter survives (zip pegouts fees)),
      map (λ pf, pf.1.2) (List.filter (λ pf, negb (survives pf)) (zip pegouts fees))).
Proof.
  intros Hl. pose proof (charge_fold fees pegouts 0 ([], [])) as Hc.
  rewrite drop_0 in Hc. apply Hc. lia.
Qed.

Lemma filter_length_all {A} (f : A → bool) l :
  length (List.filter f l) = length l → List.filter f l = l ∧ Forall (λ x, f x = true) l.
Proof.
  induction l as [|x l IH]; simpl; [done|]. destruct (f x) eqn:E; simpl.
  - intros [= Hl]. destruct (IH Hl) as [-> ?]. by split; [|constructor].
  - intros Hl. pose proof (List.filter_length_le f l). lia.
Qed.

(** The outputs that remain: same recipients, each charged its share, the
    shares sum up to the fee and no output is dust. *)
Definition charged_outputs (kept final : list (TxOut * bytes)) (fee : Amount) : Prop :=
  ∃ shares, length shares = length kept ∧ sumZ shares = fee ∧
    final = map charged (zip kept shares) ∧
    Forall (λ p, minimal_non_dust (script_pubkey p.1) ≤ value p.1) final.

Lemma try_apply_AllRemaining pegouts fee final :
  is_u64 fee →
  try_apply_fees_and_filter_dust pegouts fee = Ok (AllRemaining final) →
  charged_outputs pegouts final fee.
Proof.
  intros Hfee. unfold try_apply_fees_and_filter_dust. case_bool_decide as Hne; [done|].
  destruct (fee_distribution_Ok pegouts fee Hne Hfee) as (fees & Hd & Hl & Hs & _).
  rewrite Hd. cbn [obind]. rewrite charge_all by done. cbn [obind].
  rewrite length_map. destruct (Nat.eqb_spec (length (List.filter survives (zip pegouts fees)))
    (length pegouts)) as [Heq|]; [|by case_bool_decide].
  intros [= <-]. destruct (filter_length_all survives (zip pegouts fees)) as [Hf Hall].
  { rewrite Heq, length_zip_with. lia. }
  exists fees. rewrite Hf. repeat split; [done..|].
  apply Forall_map. eapply Forall_impl; [exact Hall|]. intros [[o id] f] Hsv.
  unfold survives in Hsv. apply Z.leb_le in Hsv. exact Hsv.
Qed.

Lemma charged_value kept f :
  0 < minimal_non_dust (script_pubkey kept.1) →
  minimal_non_dust (script_pubkey kept.1) ≤ value (charged (kept, f)).1 →
  value (charged (kept, f)).1 = value kept.1 - f.
Proof.
  intros Hd Hle. unfold charged in *; simpl in *.
  destruct (checked_sub (value kept.1) f) as [v|] eqn:E; simpl in *; [|lia].
  by apply checked_sub_Some in E as [-> _].
Qed.

(** No satoshi is created or lost by the charging, provided dust limits are
    positive (they are zero only for provably unspendable scripts). *)
Lemma charged_outputs_sum kept final fee :
  Forall (λ p, 0 < minimal_non_dust (script_pubkey p.1)) kept →
  charged_outputs kept final fee →
  sumZ (map (λ p, value p.1) kept) = sumZ (map (λ p, value p.1) final) + fee.
Proof.
  intros Hk (shares & Hl & <- & -> & Hd). revert shares Hl Hd. unfold sumZ.
  induction Hk as [|p kept Hp Hk IH]; intros [|f shares] Hl; try done.
  cbn [zip zip_with map]. intros [Hpd Hrest]%Forall_cons.
  cbn [foldr]. rewrite (charged_value p f Hp Hpd).
  injection Hl as Hl. specialize (IH shares Hl Hrest). lia.
Qed.

Lemma charged_outputs_recipients kept final fee :
  charged_outputs kept final fee →
  Forall2 (λ p q, script_pubkey q.1 = script_pubkey p.1 ∧ q.2 = p.2) kept final.
Proof.
  intros (shares & Hl & _ & -> & _). revert shares Hl.
  induction kept as [|p kept IH]; intros [|f shares] Hl; try done.
  simpl. constructor; [done|]. apply IH. by injection Hl.
Qed.

Lemma create_change_Ok ins outs spk c :
  Forall (λ i, 0 ≤ value (dto_output i)) ins → Forall (λ p, 0 ≤ value p.1) outs →
  create_change ins outs spk = Ok c →
  c = Some (mkTxOut (sumZ (map (λ i, value (dto_output i)) ins) -
                     sumZ (map (λ p, value p.1) outs)) spk) ∧
  sumZ (map (λ p, value p.1) outs) ≤ sumZ (map (λ i, value (dto_output i)) ins) ≤ u64_max.
Proof.
  intros Hi Ho. unfold create_change. intros Hc. ores Hc.
  apply amount_sum_Ok in Ho0 as [-> ?]; [|by apply Forall_map].
  apply amount_sum_Ok in Ho1 as [-> ?]; [|by apply Forall_map].
  apply ok_or_Ok, checked_sub_Some in Ho2 as [-> ?]. by injection Hc as <-.
Qed.

Lemma remaining_nil outs : remaining [] outs = outs.
Proof. induction outs as [|p outs IH]; simpl; [done|]. by rewrite IH. Qed.

Lemma remaining_Forall (P : TxOut * bytes → Prop) fil outs :
  Forall P outs → Forall P (remaining fil outs).
Proof.
  intros Hp. apply Forall_forall. intros p Hin. rewrite Forall_forall in Hp. apply Hp.
  apply list_elem_of_In in Hin. apply List.filter_In in Hin as [Hin _].
  by apply list_elem_of_In.
Qed.

(** What [apply_fees_and_create_psbt] returns. *)
Definition paid_batch (ins : list InputDTO) (kept : list (TxOut * bytes))
    (change_script : ScriptBuf) (fee_rate : Z) (psbt : Psbt) : Prop :=
  ∃ final fee chg,
    psbt = psbt_of ins final (Some chg) ∧
    script_pubkey chg = change_script ∧
    value chg = sumZ (map (λ i, value (dto_output i)) ins) - sumZ (map (λ p, value p.1) kept) ∧
    0 ≤ value chg ∧
    calculate_required_fee ins kept (Some chg) fee_rate = Ok fee ∧
    charged_outputs kept final fee.

End charging.

Section apply_fees.
Context `{!BitcoinLib, !PsbtLib, !BdkLib, !BitcoinLaws, !PsbtLaws}.

Lemma calculate_required_fee_range ins outs chg rate fee :
  calculate_required_fee ins outs chg rate = Ok fee → is_u64 fee.
Proof.
  unfold calculate_required_fee. intros Hc. ores Hc.
  apply ok_or_Ok in Hc. by eapply fee_wu_range.
Qed.

Lemma apply_fees_Ok ins outs spk rate psbt filtered :
  Forall (λ i, 0 ≤ value (dto_output i)) ins → Forall (λ p, 0 ≤ value p.1) outs →
  apply_fees_and_create_psbt ins outs spk rate = Ok (psbt, filtered) →
  paid_batch ins (remaining filtered outs) spk rate psbt.
Proof.
  intros Hi Ho Ha. unfold apply_fees_and_create_psbt in Ha.
  rewrite obind_Ok in Ha. destruct Ha as (chg & Hchg & Ha).
  rewrite obind_Ok in Ha. destruct Ha as (fee & Hfee & Ha).
  rewrite obind_Ok in Ha. destruct Ha as (first & Hfirst & Ha).
  pose proof (calculate_required_fee_range _ _ _ _ _ Hfee) as Hr.
  destruct first as [final|fil].
  - rewrite create_psbt_eq in Ha. simpl in Ha. injection Ha as <- <-. rewrite remaining_nil.
    apply create_change_Ok in Hchg as [-> ?]; [|done..].
    apply try_apply_AllRemaining in Hfirst; [|done].
    eexists final, fee, _. repeat split; try done. simpl. lia.
  - rewrite obind_Ok in Ha. destruct Ha as (chg' & Hchg' & Ha).
    rewrite obind_Ok in Ha. destruct Ha as (fee' & Hfee' & Ha).
    rewrite obind_Ok in Ha. destruct Ha as (second & Hsecond & Ha).
    destruct second as [final|]; [|done].
    rewrite create_psbt_eq in Ha. simpl in Ha. injection Ha as <- <-.
    pose proof (calculate_required_fee_range _ _ _ _ _ Hfee') as Hr'.
    apply create_change_Ok in Hchg' as [-> ?]; [|done|by apply remaining_Forall].
    apply try_apply_AllRemaining in Hsecond; [|done].
    eexists final, fee', _. repeat split; try done. simpl. lia.
Qed.

End apply_fees.

(** ** The selected inputs *)

(** A map from outpoints to the UTXOs with those outpoints. *)
Definition keyed (m : gmap OutPoint Utxo) : Prop :=
  map_Forall (λ op u, utxo_outpoint u = op ∧ 0 ≤ value (utxo_output u)) m.

Lemma elem_of_map_values (m : gmap OutPoint Utxo) u :
  u ∈ map_values m ↔ ∃ op, m !! op = Some u.
Proof.
  unfold map_values. rewrite list_elem_of_fmap. split.
  - intros ([op u'] & -> & Hin). exists op. by apply elem_of_map_to_list.
  - intros (op & Hop). exists (op, u). by rewrite elem_of_map_to_list.
Qed.

Section selected.
Context `{!BitcoinLib, !PsbtLib, !BdkLib, !BdkLaws}.

Lemma perform_coin_selection_Ok opt req rate target spk ins :
  keyed opt → keyed req →
  perform_coin_selection opt req rate target spk = Ok ins →
  (∀ i, i ∈ ins → ∃ op u, (opt !! op = Some u ∨ req !! op = Some u) ∧ i = utxo_to_dto u) ∧
  (∀ op, is_Some (req !! op) → op ∈ map dto_outpoint ins) ∧
  Forall (λ i, 0 ≤ value (dto_output i)) ins.
Proof.
  intros Hopt Hreq Hp. unfold perform_coin_selection in Hp. ores Hp. rename a into sel.
  apply map_err_Ok in Ho.
  injection Hp as <-.
  assert (∀ i, i ∈ map utxo_to_dto (omap (λ op, match opt !! op with
      | Some u => Some u | None => req !! op end) sel) →
    ∃ op u, (opt !! op = Some u ∨ req !! op = Some u) ∧ i = utxo_to_dto u) as Hin.
  { intros i. rewrite list_elem_of_fmap. intros (u & -> & Hu).
    apply list_elem_of_omap in Hu as (op & _ & Hop). exists op, u.
    destruct (opt !! op); naive_solver. }
  split; [done|]. split.
  - intros op [u Hu]. destruct (Hreq _ _ Hu) as [Hou _].
    pose proof (coin_select_required _ _ _ _ _ _ Ho (utxo_to_bdk u)) as Hsel.
    simpl in Hsel. rewrite Hou in Hsel.
    assert (op ∈ sel) as Hops.
    { apply Hsel. apply list_elem_of_fmap_2, elem_of_map_values. eauto. }
    rewrite map_map. apply list_elem_of_fmap.
    destruct (opt !! op) as [u'|] eqn:Eo.
    + exists u'. split; [simpl; by destruct (Hopt _ _ Eo) as [-> _]|].
      apply list_elem_of_omap. exists op. by rewrite Eo.
    + exists u. split; [by simpl|]. apply list_elem_of_omap. exists op. by rewrite Eo.
  - apply Forall_forall. intros i Hi. destruct (Hin i Hi) as (op & u & Hu & ->).
    destruct Hu as [Hu|Hu]; [destruct (Hopt _ _ Hu)|destruct (Hreq _ _ Hu)]; done.
Qed.

End selected.

Lemma remaining_sum fil outs :
  omap (λ p : TxOut * bytes, if contains fil p.2 then None else Some (value p.1)) outs =
  map (λ p, value p.1) (remaining fil outs).
Proof.
  induction outs as [|p outs IH]; csimpl; [done|].
  destruct (contains fil p.2); csimpl; by rewrite IH.
Qed.

(** The value an unsigned pegout transaction spends and the value it pays. *)
Definition spent (p : Psbt) : Amount := sumZ (map value (omap witness_utxo (inputs p))).
Definition paid (p : Psbt) : Amount := sumZ (map value (output (unsigned_tx p))).

Lemma psbt_of_spent ins outs chg :
  spent (psbt_of ins outs chg) = sumZ (map (λ i, value (dto_output i)) ins).
Proof.
  unfold spent. f_equal.
  rewrite <-(map_map dto_output value). f_equal.
  induction (psbt_of_witness ins outs chg) as [|i u l l' Hi Hl IH]; csimpl; [done|].
  by rewrite Hi, IH.
Qed.

Lemma psbt_of_paid ins outs c :
  paid (psbt_of ins outs (Some c)) = sumZ (map (λ p, value p.1) outs) + value c.
Proof.
  unfold paid, psbt_of; cbn [unsigned_tx output opt_list].
  rewrite map_app, sumZ_app, map_map. simpl. lia.
Qed.

Lemma paid_batch_conserves `{!BitcoinLib, !PsbtLib} ins kept spk rate psbt :
  Forall (λ p, 0 < minimal_non_dust (script_pubkey p.1)) kept →
  paid_batch ins kept spk rate psbt →
  ∃ chg fee, calculate_required_fee ins kept (Some chg) rate = Ok fee ∧
    script_pubkey chg = spk ∧ last (output (unsigned_tx psbt)) = Some chg ∧
    spent psbt = paid psbt + fee ∧
    spent psbt = value chg + sumZ (map (λ p, value p.1) kept).
Proof.
  intros Hd (final & fee & chg & -> & Hs & Hv & Hnn & Hfee & Hch).
  exists chg, fee. split; [done|]. split; [done|].
  split; [unfold psbt_of; cbn; by rewrite last_snoc|].
  apply charged_outputs_sum in Hch; [|done].
  rewrite psbt_of_spent, psbt_of_paid. split; lia.
Qed.

Definition encode_ids (outs : list (TxOut * PegoutId)) : list (TxOut * bytes) :=
  map (λ '(o, id), (o, as_bytes id)) outs.

Section selection_facts.
Context `{!BitcoinLib, !PsbtLib, !BdkLib, !BitcoinLaws, !PsbtLaws, !BdkLaws}.

Lemma coin_selection_Ok opt req outs rate spk psbt :
  keyed opt → keyed req → Forall (λ o, 0 ≤ value o.1) outs →
  coin_selection opt req outs rate spk = Ok psbt →
  ∃ ins filtered,
    (∀ i, i ∈ ins → ∃ op u, (opt !! op = Some u ∨ req !! op = Some u) ∧ i = utxo_to_dto u) ∧
    (∀ op, is_Some (req !! op) → op ∈ map dto_outpoint ins) ∧
    paid_batch ins (remaining filtered (encode_ids outs)) spk rate psbt.
Proof.
  intros Hopt Hreq Hv Hc. unfold coin_selection in Hc. case_bool_decide; [done|].
  rewrite obind_Ok in Hc. destruct Hc as (rv & _ & Hc).
  rewrite obind_Ok in Hc. destruct Hc as (ov & _ & Hc).
  rewrite obind_Ok in Hc. destruct Hc as (tv & _ & Hc).
  rewrite obind_Ok in Hc. destruct Hc as (pv & _ & Hc).
  rewrite obind_Ok in Hc. destruct Hc as (rem & _ & Hc).
  rewrite obind_Ok in Hc. destruct Hc as (tc & _ & Hc).
  rewrite obind_Ok in Hc. destruct Hc as (target & _ & Hc).
  rewrite obind_Ok in Hc. destruct Hc as (ins & Hins & Hc).
  rewrite obind_Ok in Hc. destruct Hc as ([psbt' filtered] & Hap & Hc).
  rewrite obind_Ok in Hc. destruct Hc as (upd & _ & Hc).
  rewrite obind_Ok in Hc. destruct Hc as ([] & _ & Hc). injection Hc as ->.
  apply perform_coin_selection_Ok in Hins as (Hin & Hr & Hpos); [|done..].
  exists ins, filtered. split; [done|]. split; [done|].
  eapply apply_fees_Ok; [done| |exact Hap].
  apply Forall_map. eapply Forall_impl; [exact Hv|]. by intros [].
Qed.

Lemma encode_ids_dust outs :
  Forall (λ o, 0 < minimal_non_dust (script_pubkey o.1)) outs →
  Forall (λ p, 0 < minimal_non_dust (script_pubkey p.1)) (encode_ids outs).
Proof.
  intros Hd. apply Forall_map. eapply Forall_impl; [exact Hd|]. by intros [].
Qed.

(** ** The sanity check *)

Lemma list_find_app_last {A} (P : A → Prop) `{∀ x, Decision (P x)} l x :
  Forall (λ y, ¬ P y) l → P x → snd <$> list_find P (l ++ [x]) = Some x.
Proof.
  intros Hl Hx. induction Hl as [|y l Hy Hl IH]; simpl.
  - by rewrite decide_True.
  - rewrite decide_False by done. destruct (list_find P (l ++ [x])) as [[i z]|]; [|done].
    simpl in *. by injection IH as ->.
Qed.

Lemma sanity_check_Ok ins outs spk rate psbt filtered tx :
  Forall (λ i, 0 ≤ value (dto_output i)) ins → Forall (λ p, 0 ≤ value p.1) outs →
  Forall (λ p, script_pubkey p.1 ≠ spk) outs →
  apply_fees_and_create_psbt ins outs spk rate = Ok (psbt, filtered) →
  extract_tx psbt = Ok tx →
  sumZ (map (λ i, value (dto_output i)) ins) ≤ u64_max →
  sanity_check_psbt psbt ins spk (sumZ (map (λ p, value p.1) (remaining filtered outs))) = Ok tt.
Proof.
  intros Hi Ho Hspk Hap Htx Hmax. apply apply_fees_Ok in Hap; [|done..].
  destruct Hap as (final & fee & chg & -> & Hs & Hv & Hnn & _ & Hch).
  unfold sanity_check_psbt. rewrite Htx. cbn [ok expect obind].
  unfold amount_sum. rewrite checked_sum_intro; [|by apply Forall_map|done]. cbn [expect obind].
  apply extract_tx_spec in Htx as [Hout _]. rewrite Hout.
  cbn [psbt_of unsigned_tx output opt_list]. rewrite list_find_app_last.
  - cbn [expect obind]. rewrite (proj2 (checked_sub_Some _ _ (value chg))) by lia.
    cbn [ok_or obind]. by rewrite Z.eqb_refl.
  - apply charged_outputs_recipients in Hch. apply Forall_map.
    pose proof (remaining_Forall _ filtered _ Hspk) as Hr.
    eapply Forall2_Forall_r; [exact Hch|]. eapply Forall_impl; [exact Hr|].
    intros p Hp q [Hq _]. simpl. congruence.
  - done.
Qed.

End selection_facts.

(** A selection that spends everything it is given. *)
#[export] Instance toy_bdk : BdkLib := {
  coin_select req opt rate target drain :=
    let available := sumZ (map (λ w, value (wu_txout w)) (req ++ opt)) in
    if target <=? available then Ok (map wu_outpoint (req ++ opt)) else Err (target, available) }.

#[export] Instance toy_bdk_laws : BdkLaws.
Proof.
  split; intros req opt rate target drain sel; simpl; destruct (_ <=? _); try done;
    intros [= <-].
  - intros w Hw. apply list_elem_of_fmap_2. set_solver.
  - intros o Ho. apply list_elem_of_fmap in Ho as (w & -> & Hw). eauto.
Qed.

(** ** Properties *)

(** [calculate_fee_distribution] never fails on a non-empty batch: every
    output pays the integer share or one satoshi more, the shares sum up to
    exactly the absolute fee, and an output pays the extra satoshi only when
    no output that does not is worth more. *)
Theorem fee_distribution_exact pegouts fee :
  pegouts ≠ [] → is_u64 fee →
  ∃ fees,
    calculate_fee_distribution pegouts fee = Ok fees ∧
    length fees = length pegouts ∧
    sumZ fees = fee ∧
    (∀ i f, fees !! i = Some f →
       f = fee / Z.of_nat (length pegouts) ∨ f = fee / Z.of_nat (length pegouts) + 1) ∧
    (∀ i j fi fj, fees !! i = Some fi → fees !! j = Some fj → fj < fi →
       pegout_value pegouts j ≤ pegout_value pegouts i).
Proof.
  intros Hne Hfee.
  destruct (fee_distribution_Ok pegouts fee Hne Hfee) as (fees & Hd & Hl & Hs & top & Ht & Hv).
  exists fees. split; [done|]. split; [done|]. split; [done|].
  assert (∀ i f, fees !! i = Some f →
    f = fee / Z.of_nat (length pegouts) + (if decide (i ∈ top) then 1 else 0)) as Hf.
  { intros i f Hi. pose proof (lookup_lt_Some _ _ _ Hi) as Hlt. rewrite Ht in Hi.
    rewrite lookup_replicate_2 in Hi by lia. simpl in Hi. injection Hi as <-.
    case_decide; lia. }
  split.
  - intros i f Hi. rewrite (Hf i f Hi). case_decide; [right|left]; lia.
  - intros i j fi fj Hi Hj Hlt. pose proof (lookup_lt_Some _ _ _ Hj).
    rewrite (Hf i fi Hi), (Hf j fj Hj) in Hlt.
    do 2 case_decide; try lia. apply Hv; [done|lia|done].
Qed.

Lemma fee_distribution_exact_witness :
  let batch := [(mkTxOut 5000 (p2tr 1), [1]); (mkTxOut 9000 (p2tr 2), [2]);
                (mkTxOut 7000 (p2tr 3), [3])] in
  ∃ fees, calculate_fee_distribution batch 1001 = Ok fees ∧ fees = [333; 334; 334].
Proof.
  intros batch.
  destruct (fee_distribution_exact batch 1001 ltac:(done) ltac:(unfold is_u64, u64_max; lia))
    as (fees & Hd & _).
  exists fees. split; [exact Hd|]. vm_compute in Hd. by injection Hd as <-.
Defined.

(** The target change: it fails exactly when one of the two 64-bit
    products overflows; otherwise it never exceeds the funds that remain after
    the pegouts, is at least 10,000 sat whenever that much remains, and above
    that floor stays within half of the pegout value and a twentieth of the
    remaining funds. *)
Theorem target_change_bounds total remaining_value :
  0 ≤ total → 0 ≤ remaining_value →
  match calculate_target_change total remaining_value with
  | Ok c =>
      0 ≤ c ≤ remaining_value ∧
      Z.min MIN_CHANGE_SATS remaining_value ≤ c ∧
      (MIN_CHANGE_SATS < c → c ≤ total / 2 ∧ c ≤ remaining_value / 20)
  | Err e => e = FeeRateOverflow ∧ (u64_max < total * 50 ∨ u64_max < remaining_value * 5)
  | Panic => False
  end.
Proof.
  intros Ht Hr. unfold calculate_target_change, checked_mul, checked_div.
  change TARGET_CHANGE_PERCENT with 50. change MAX_CHANGE_PERCENT with 5.
  change MIN_CHANGE_SATS with 10000.
  destruct (Z.leb_spec (total * 50) u64_max); cbn -[Z.div Z.mul Z.min Z.max];
    [|by split; [|left; lia]].
  destruct (Z.leb_spec (remaining_value * 5) u64_max); cbn -[Z.div Z.mul Z.min Z.max];
    [|by split; [|right; lia]].
  replace (total * 50 / 100) with (total / 2)
    by (change 100 with (2 * 50); by rewrite Z.div_mul_cancel_r by lia).
  replace (remaining_value * 5 / 100) with (remaining_value / 20)
    by (change 100 with (20 * 5); by rewrite Z.div_mul_cancel_r by lia).
  lia.
Qed.

Lemma target_change_bounds_witness :
  calculate_target_change 100000 10000000 = Ok 50000 ∧
  match calculate_target_change 100000 10000000 with Ok c => 0 ≤ c ≤ 10000000 | _ => False end.
Proof.
  split; [reflexivity|]. exact (proj1 (target_change_bounds 100000 10000000 ltac:(lia) ltac:(lia))).
Defined.

(** C28.  Conservation of value in a pegout transaction, for wallets that are
    keyed by outpoint with nonnegative values, and for pegouts of nonnegative
    value to scripts whose dust limit is positive.  When [coin_selection] returns
    a PSBT, its inputs are UTXOs it was offered, every required UTXO is spent, the
    pegouts that were not dropped as dust keep their recipient and id in order,
    each is charged its share of the fee, and none of these outputs is below its
    dust limit.  The last output is the change, which receives exactly the spent
    value minus the kept pegouts' original value; it is not compared with a dust
    limit.  The value spent is the value paid plus the fee required for that transaction. *)
Theorem coin_selection_conserves_value
    `{!BitcoinLib, !PsbtLib, !BdkLib, !BitcoinLaws, !PsbtLaws, !BdkLaws}
    opt req outs rate spk psbt :
  keyed opt → keyed req →
  Forall (λ o, 0 ≤ value o.1 ∧ 0 < minimal_non_dust (script_pubkey o.1)) outs →
  coin_selection opt req outs rate spk = Ok psbt →
  ∃ ins filtered final fee chg,
    psbt = psbt_of ins final (Some chg) ∧
    (∀ i, i ∈ ins → ∃ op u, (opt !! op = Some u ∨ req !! op = Some u) ∧ i = utxo_to_dto u) ∧
    (∀ op, is_Some (req !! op) → op ∈ map previous_output (input (unsigned_tx psbt))) ∧
    let kept := remaining filtered (encode_ids outs) in
    Forall2 (λ p q, script_pubkey q.1 = script_pubkey p.1 ∧ q.2 = p.2) kept final ∧
    charged_outputs kept final fee ∧
    calculate_required_fee ins kept (Some chg) rate = Ok fee ∧
    script_pubkey chg = spk ∧
    value chg = spent psbt - sumZ (map (λ p, value p.1) kept) ∧
    spent psbt = paid psbt + fee.
Proof.
  intros Hopt Hreq Houts Hc.
  assert (Forall (λ o, 0 ≤ value o.1) outs) as Hv
    by (eapply Forall_impl; [exact Houts|]; naive_solver).
  destruct (coin_selection_Ok _ _ _ _ _ _ Hopt Hreq Hv Hc) as (ins & filtered & Hin & Hr & Hp).
  pose proof Hp as (final & fee & chg & -> & Hs & Hval & _ & Hfee & Hch).
  exists ins, filtered, final, fee, chg. split; [done|]. split; [done|]. split.
  { intros op Hop. cbn [psbt_of unsigned_tx input]. rewrite map_unsigned_input. by apply Hr. }
  cbn zeta. split; [by apply (charged_outputs_recipients _ _ fee)|]. split; [done|].
  split; [done|]. split; [done|].
  apply charged_outputs_sum in Hch.
  - rewrite psbt_of_spent, psbt_of_paid. lia.
  - apply remaining_Forall, encode_ids_dust.
    eapply Forall_impl; [exact Houts|]. naive_solver.
Qed.

Definition toy_wallet : gmap OutPoint Utxo := {[ toy_outpoint 1 := toy_utxo 1 2000000 ]}.

Lemma toy_wallet_keyed : keyed toy_wallet.
Proof. apply map_Forall_singleton. split; [reflexivity|simpl; lia]. Qed.

Lemma coin_selection_conserves_value_witness :
  let outs := [(mkTxOut 50000 (p2tr 7), toy_pegout_id 1)] in
  match coin_selection ∅ toy_wallet outs 1000 (p2tr 9) with
  | Ok psbt => ∃ fee, spent psbt = paid psbt + fee
  | _ => False
  end.
Proof.
  intros outs. destruct (coin_selection ∅ toy_wallet outs 1000 (p2tr 9)) as [psbt|e|] eqn:E.
  - destruct (coin_selection_conserves_value ∅ toy_wallet outs 1000 (p2tr 9) psbt)
      as (ins & fil & final & fee & chg & _ & _ & _ & _ & _ & _ & _ & _ & Hc).
    + apply map_Forall_empty.
    + apply toy_wallet_keyed.
    + repeat constructor; simpl; unfold toy_minimal_non_dust; simpl; lia.
    + exact E.
    + exists fee. exact Hc.
  - vm_compute in E. discriminate E.
  - vm_compute in E. discriminate E.
Defined.

(** The sanity check of [coin_selection], documented as "should not
    happen", does not reject a batch built by [apply_fees_and_create_psbt]
    when no pegout pays to the change script itself. *)
Theorem sanity_check_accepts_built_psbt
    `{!BitcoinLib, !PsbtLib, !BdkLib, !BitcoinLaws, !PsbtLaws}
    ins outs spk rate psbt filtered tx :
  Forall (λ i, 0 ≤ value (dto_output i)) ins → Forall (λ p, 0 ≤ value p.1) outs →
  sumZ (map (λ i, value (dto_output i)) ins) ≤ u64_max →
  Forall (λ p, script_pubkey p.1 ≠ spk) outs →
  apply_fees_and_create_psbt ins outs spk rate = Ok (psbt, filtered) →
  extract_tx psbt = Ok tx →
  sanity_check_psbt psbt ins spk (sumZ (map (λ p, value p.1) (remaining filtered outs))) = Ok tt.
Proof. intros. by eapply sanity_check_Ok. Qed.

Lemma sanity_check_accepts_built_psbt_witness :
  let ins := [utxo_to_dto (toy_utxo 1 2000000)] in
  let outs := [(mkTxOut 50000 (p2tr 7), as_bytes (toy_pegout_id 1))] in
  match apply_fees_and_create_psbt ins outs (p2tr 9) 1000 with
  | Ok (psbt, filtered) =>
      sanity_check_psbt psbt ins (p2tr 9)
        (sumZ (map (λ p, value p.1) (remaining filtered outs))) = Ok tt
  | _ => False
  end.
Proof.
  intros ins outs.
  destruct (apply_fees_and_create_psbt ins outs (p2tr 9) 1000) as [[psbt filtered]|e|] eqn:E.
  - apply (sanity_check_accepts_built_psbt ins outs (p2tr 9) 1000 psbt filtered (toy_extract psbt)).
    + repeat constructor; simpl; lia.
    + repeat constructor; simpl; lia.
    + simpl. unfold u64_max. lia.
    + repeat constructor. simpl. done.
    + exact E.
    + reflexivity.
  - vm_compute in E. discriminate E.
  - vm_compute in E. discriminate E.
Defined.

(** A pegout that pays to the federation's change script defeats the
    sanity check: the check takes the first output with that script for the
    change, so the whole batch is rejected with [BadRefundBalance]. *)
Theorem pegout_to_change_script_is_rejected :
  coin_selection ∅ toy_wallet
    [(mkTxOut 50000 (p2tr 7), toy_pegout_id 1); (mkTxOut 60000 (p2tr 9), toy_pegout_id 2)]
    1000 (p2tr 9)
  = Err (SanityCheck (BadRefundBalance 59606 2000000 110000)).
Proof. vm_compute. reflexivity. Qed.

(** The branch the code marks as "should never happen" is reachable: with
    fewer outputs the fee per output grows, so the second attempt can turn
    another output into dust and the batch fails with
    [RecalculationFilteredMoreOutputs] although a smaller batch is payable. *)
Theorem recalculation_can_filter_more_outputs :
  let big := (mkTxOut 1000000 (p2tr 7), toy_pegout_id 1) in
  let mid := (mkTxOut 15000 (p2tr 8), toy_pegout_id 2) in
  let small := (mkTxOut 12000 (p2tr 10), toy_pegout_id 3) in
  coin_selection ∅ toy_wallet [big; mid; small] 40000 (p2tr 9) = Err (SanityCheck RecalculationFilteredMoreOutputs) ∧
  is_Some (ok (coin_selection ∅ toy_wallet [big] 40000 (p2tr 9))).
Proof. split; vm_compute; [reflexivity|by eexists]. Qed.
