(* ===== verification/Database.v ===== *)
(** * The wallet database

    src/bin/botanix-btc-server/src/database/mod.rs: the sled trees of the
    btc-server and every operation on them.  A tree is a finite map from key
    bytes (built by the code's own key functions) to values; the CBOR codec is
    transparent, except that a stored UTXO does not carry its outpoint.

    sled itself is a parameter: [io] is the schedule of its answers, one entry
    per call, [true] when that call returns a sled error, and an exhausted
    schedule means no further error.  A call that fails leaves the data as it
    was, and a sled transaction applies all of its writes or none. *)

From S2P Require Import Prelude Bytes Bitcoin Psbt Types Concrete.

Open Scope Z_scope.

(** ** Errors *)

(** [Error] of database/error.rs; texts and payloads of libraries are left
    out. *)
Inductive DbError :=
| DbSled
| DataCorruption
| FrostSerialization
| Serialization
| BitcoinSerialization
| PsbtErr (e : PsbtError)
| TransactionErr
| RpcToDbMap
| EmptyMerkleRoot
| CiboriumWrite
| OutputNotFound (i : nat)
| HashEngine
| InvalidUTXOVersion (v : Z)
| DurationSinceEpoch
| BitcoindError
| TrackedTxNotFoundInPegoutScheduler
| BadDecryptionPassphrase
| BadExportedPackageFormatVersion
| InvalidMultisigIdKeyLength (len : nat).

(** ** State *)

(** A UTXO as stored: the outpoint is the key and is not serialized. *)
Record StoredUtxo := mkStoredUtxo {
  su_output : TxOut;
  su_eth_address : option bytes;
  su_version : Z;
  su_multisig_id : MultisigId }.

Definition store_form (u : Utxo) : StoredUtxo :=
  mkStoredUtxo (utxo_output u) (utxo_eth_address u) (utxo_version u) (utxo_multisig_id u).

Definition load_form (op : OutPoint) (s : StoredUtxo) : Utxo :=
  mkUtxo op (su_output s) (su_eth_address s) (su_version s) (su_multisig_id s).

Record Db `{!FrostLib} := mkDb {
  io : list bool;
  legacy_pubkey_package : option PublicKeyPackage;
  legacy_key_package : option KeyPackage;
  utxo_root : option bytes;
  tracked_tx_root : option bytes;
  pending_pegouts_root : option bytes;
  finalized_root : option bytes;
  pegoutmgr_tip : option BlockHash;
  utxos : gmap bytes StoredUtxo;
  round1_dkg_packages : gmap bytes Round1Package;
  round2_dkg_packages : gmap bytes Round2Package;
  psbts : gmap bytes Psbt;
  tracked_txs : gmap bytes Tx;
  finalized_pegout_ids : gmap bytes FinalizedPegout;
  pending_pegouts : gmap bytes PegoutRequest;
  key_packages : gmap bytes KeyPackage;
  pubkey_packages : gmap bytes PublicKeyPackage }.

Definition set_io `{!FrostLib} (v : list bool) (d : Db) : Db :=
  mkDb _ v (legacy_pubkey_package d) (legacy_key_package d) (utxo_root d) (tracked_tx_root d) (pending_pegouts_root d) (finalized_root d) (pegoutmgr_tip d) (utxos d) (round1_dkg_packages d) (round2_dkg_packages d) (psbts d) (tracked_txs d) (finalized_pegout_ids d) (pending_pegouts d) (key_packages d) (pubkey_packages d).

Definition set_legacy_pubkey_package `{!FrostLib} (v : option PublicKeyPackage) (d : Db) : Db :=
  mkDb _ (io d) v (legacy_key_package d) (utxo_root d) (tracked_tx_root d) (pending_pegouts_root d) (finalized_root d) (pegoutmgr_tip d) (utxos d) (round1_dkg_packages d) (round2_dkg_packages d) (psbts d) (tracked_txs d) (finalized_pegout_ids d) (pending_pegouts d) (key_packages d) (pubkey_packages d).

Definition set_legacy_key_package `{!FrostLib} (v : option KeyPackage) (d : Db) : Db :=
  mkDb _ (io d) (legacy_pubkey_package d) v (utxo_root d) (tracked_tx_root d) (pending_pegouts_root d) (finalized_root d) (pegoutmgr_tip d) (utxos d) (round1_dkg_packages d) (round2_dkg_packages d) (psbts d) (tracked_txs d) (finalized_pegout_ids d) (pending_pegouts d) (key_packages d) (pubkey_packages d).

Definition set_utxo_root `{!FrostLib} (v : option bytes) (d : Db) : Db :=
  mkDb _ (io d) (legacy_pubkey_package d) (legacy_key_package d) v (tracked_tx_root d) (pending_pegouts_root d) (finalized_root d) (pegoutmgr_tip d) (utxos d) (round1_dkg_packages d) (round2_dkg_packages d) (psbts d) (tracked_txs d) (finalized_pegout_ids d) (pending_pegouts d) (key_packages d) (pubkey_packages d).

Definition set_tracked_tx_root `{!FrostLib} (v : option bytes) (d : Db) : Db :=
  mkDb _ (io d) (legacy_pubkey_package d) (legacy_key_package d) (utxo_root d) v (pending_pegouts_root d) (finalized_root d) (pegoutmgr_tip d) (utxos d) (round1_dkg_packages d) (round2_dkg_packages d) (psbts d) (tracked_txs d) (finalized_pegout_ids d) (pending_pegouts d) (key_packages d) (pubkey_packages d).

Definition set_pending_pegouts_root `{!FrostLib} (v : option bytes) (d : Db) : Db :=
  mkDb _ (io d) (legacy_pubkey_package d) (legacy_key_package d) (utxo_root d) (tracked_tx_root d) v (finalized_root d) (pegoutmgr_tip d) (utxos d) (round1_dkg_packages d) (round2_dkg_packages d) (psbts d) (tracked_txs d) (finalized_pegout_ids d) (pending_pegouts d) (key_packages d) (pubkey_packages d).

Definition set_finalized_root `{!FrostLib} (v : option bytes) (d : Db) : Db :=
  mkDb _ (io d) (legacy_pubkey_package d) (legacy_key_package d) (utxo_root d) (tracked_tx_root d) (pending_pegouts_root d) v (pegoutmgr_tip d) (utxos d) (round1_dkg_packages d) (round2_dkg_packages d) (psbts d) (tracked_txs d) (finalized_pegout_ids d) (pending_pegouts d) (key_packages d) (pubkey_packages d).

Definition set_pegoutmgr_tip `{!FrostLib} (v : option BlockHash) (d : Db) : Db :=
  mkDb _ (io d) (legacy_pubkey_package d) (legacy_key_package d) (utxo_root d) (tracked_tx_root d) (pending_pegouts_root d) (finalized_root d) v (utxos d) (round1_dkg_packages d) (round2_dkg_packages d) (psbts d) (tracked_txs d) (finalized_pegout_ids d) (pending_pegouts d) (key_packages d) (pubkey_packages d).

Definition set_utxos `{!FrostLib} (v : gmap bytes StoredUtxo) (d : Db) : Db :=
  mkDb _ (io d) (legacy_pubkey_package d) (legacy_key_package d) (utxo_root d) (tracked_tx_root d) (pending_pegouts_root d) (finalized_root d) (pegoutmgr_tip d) v (round1_dkg_packages d) (round2_dkg_packages d) (psbts d) (tracked_txs d) (finalized_pegout_ids d) (pending_pegouts d) (key_packages d) (pubkey_packages d).

Definition set_round1_dkg_packages `{!FrostLib} (v : gmap bytes Round1Package) (d : Db) : Db :=
  mkDb _ (io d) (legacy_pubkey_package d) (legacy_key_package d) (utxo_root d) (tracked_tx_root d) (pending_pegouts_root d) (finalized_root d) (pegoutmgr_tip d) (utxos d) v (round2_dkg_packages d) (psbts d) (tracked_txs d) (finalized_pegout_ids d) (pending_pegouts d) (key_packages d) (pubkey_packages d).

Definition set_round2_dkg_packages `{!FrostLib} (v : gmap bytes Round2Package) (d : Db) : Db :=
  mkDb _ (io d) (legacy_pubkey_package d) (legacy_key_package d) (utxo_root d) (tracked_tx_root d) (pending_pegouts_root d) (finalized_root d) (pegoutmgr_tip d) (utxos d) (round1_dkg_packages d) v (psbts d) (tracked_txs d) (finalized_pegout_ids d) (pending_pegouts d) (key_packages d) (pubkey_packages d).

Definition set_psbts `{!FrostLib} (v : gmap bytes Psbt) (d : Db) : Db :=
  mkDb _ (io d) (legacy_pubkey_package d) (legacy_key_package d) (utxo_root d) (tracked_tx_root d) (pending_pegouts_root d) (finalized_root d) (pegoutmgr_tip d) (utxos d) (round1_dkg_packages d) (round2_dkg_packages d) v (tracked_txs d) (finalized_pegout_ids d) (pending_pegouts d) (key_packages d) (pubkey_packages d).

Definition set_tracked_txs `{!FrostLib} (v : gmap bytes Tx) (d : Db) : Db :=
  mkDb _ (io d) (legacy_pubkey_package d) (legacy_key_package d) (utxo_root d) (tracked_tx_root d) (pending_pegouts_root d) (finalized_root d) (pegoutmgr_tip d) (utxos d) (round1_dkg_packages d) (round2_dkg_packages d) (psbts d) v (finalized_pegout_ids d) (pending_pegouts d) (key_packages d) (pubkey_packages d).

Definition set_finalized_pegout_ids `{!FrostLib} (v : gmap bytes FinalizedPegout) (d : Db) : Db :=
  mkDb _ (io d) (legacy_pubkey_package d) (legacy_key_package d) (utxo_root d) (tracked_tx_root d) (pending_pegouts_root d) (finalized_root d) (pegoutmgr_tip d) (utxos d) (round1_dkg_packages d) (round2_dkg_packages d) (psbts d) (tracked_txs d) v (pending_pegouts d) (key_packages d) (pubkey_packages d).

Definition set_pending_pegouts `{!FrostLib} (v : gmap bytes PegoutRequest) (d : Db) : Db :=
  mkDb _ (io d) (legacy_pubkey_package d) (legacy_key_package d) (utxo_root d) (tracked_tx_root d) (pending_pegouts_root d) (finalized_root d) (pegoutmgr_tip d) (utxos d) (round1_dkg_packages d) (round2_dkg_packages d) (psbts d) (tracked_txs d) (finalized_pegout_ids d) v (key_packages d) (pubkey_packages d).

Definition set_key_packages `{!FrostLib} (v : gmap bytes KeyPackage) (d : Db) : Db :=
  mkDb _ (io d) (legacy_pubkey_package d) (legacy_key_package d) (utxo_root d) (tracked_tx_root d) (pending_pegouts_root d) (finalized_root d) (pegoutmgr_tip d) (utxos d) (round1_dkg_packages d) (round2_dkg_packages d) (psbts d) (tracked_txs d) (finalized_pegout_ids d) (pending_pegouts d) v (pubkey_packages d).

Definition set_pubkey_packages `{!FrostLib} (v : gmap bytes PublicKeyPackage) (d : Db) : Db :=
  mkDb _ (io d) (legacy_pubkey_package d) (legacy_key_package d) (utxo_root d) (tracked_tx_root d) (pending_pegouts_root d) (finalized_root d) (pegoutmgr_tip d) (utxos d) (round1_dkg_packages d) (round2_dkg_packages d) (psbts d) (tracked_txs d) (finalized_pegout_ids d) (pending_pegouts d) (key_packages d) v.

Definition Db_empty `{!FrostLib} : Db :=
  mkDb _ [] None None None None None None None ∅ ∅ ∅ ∅ ∅ ∅ ∅ ∅ ∅.

(** [RETENTION_WINDOW_SECONDS]: 90 days *)
Definition RETENTION_WINDOW_SECONDS : Z := 90 * 24 * 60 * 60.

Definition EXPORTED_PACKAGE_VERSION : Z := 0.

Record ExportedKeyPackage := mkExportedKeyPackage {
  exp_version : Z;
  exp_iv : bytes;
  exp_enc_key_package : bytes;
  exp_enc_pk_package : bytes }.

Inductive SigningStatus := Finalized | Running | Failed.

(** The AEAD cipher, the Merlin key derivation (the two challenges drawn after
    the salt and the passphrase) and the CBOR codecs of the key packages. *)
Class AeadLib `{!FrostLib} := {
  challenges : bytes → bytes → bytes * bytes;
  encrypt : bytes → bytes → bytes → bytes;
  decrypt : bytes → bytes → bytes → option bytes;
  encode_key_package : KeyPackage → bytes;
  decode_key_package : bytes → option KeyPackage;
  encode_pk_package : PublicKeyPackage → bytes;
  decode_pk_package : bytes → option PublicKeyPackage }.

Class AeadLaws `{!FrostLib, !AeadLib} : Prop := {
  decrypt_encrypt key nonce b : decrypt key nonce (encrypt key nonce b) = Some b;
  key_package_roundtrip k : decode_key_package (encode_key_package k) = Some k;
  pk_package_roundtrip k : decode_pk_package (encode_pk_package k) = Some k }.

Section db.
Context `{!BitcoinLib, !FrostLib, !PsbtLib}.

Abbreviation DbM A := (M Db DbError A).

(** ** sled *)

Definition sled {A} (f : Db → Db * A) : DbM A := λ d,
  match io d with
  | true :: rest => (set_io rest d, Err DbSled)
  | false :: rest => let '(d', a) := f (set_io rest d) in (d', Ok a)
  | [] => let '(d', a) := f d in (d', Ok a)
  end.

Definition sled_read {A} (f : Db → A) : DbM A := sled (λ d, (d, f d)).

Definition sled_write (f : Db → Db) : DbM unit := sled (λ d, (f d, tt)).

(** [Tree::transaction]: all writes or none, its error rendered as text. *)
Definition transaction (f : Db → Db) : DbM unit := map_errM (λ _, TransactionErr) (sled_write f).

(** [Db::flush] flushes the trees one after the other: none of them changes
    the data and the first failure is returned. *)
Definition flush : DbM unit := sled_read (λ _, tt).

(** ** PSBTs *)

Definition update_psbt (signing_session_id : bytes) (psbt : Psbt) : DbM Z :=
  let! b := sled_read (λ d, psbts d !! signing_session_id) in
  let! new :=
    match b with
    | Some existing_psbt => lift (map_err PsbtErr (psbt_combine existing_psbt psbt))
    | None => ret psbt
    end in
  sled_write (λ d, set_psbts (<[signing_session_id := new]> (psbts d)) d) ;!
  ret (psbt_cbor_len new).

Definition get_psbt (signing_session_id : bytes) : DbM (option Psbt) :=
  sled_read (λ d, psbts d !! signing_session_id).

(** The loop of [get_session_ids]: [results] counts the entries seen, and the
    loop is left before the entry that reaches [max_results] is pushed. *)
Fixpoint session_ids_loop (keys : list bytes) (results max_results : Z) (acc : list bytes)
    : outcome DbError (list bytes) :=
  match keys with
  | [] => Ok acc
  | k :: keys' =>
      if decide (length k = 32%nat) then
        let results := results + 1 in
        if max_results =? results then Ok acc
        else session_ids_loop keys' results max_results (acc ++ [k])
      else Err Serialization
  end.

Definition get_session_ids (max_results : Z) : DbM (list bytes) :=
  let! keys := sled_read (λ d, tree_keys (psbts d)) in
  lift (session_ids_loop keys 0 max_results []).

Definition get_signing_status (signing_session_id : bytes) : DbM SigningStatus :=
  let! p := get_psbt signing_session_id in
  ret match p with
      | Some psbt => match psbt_finalize psbt with Some _ => Finalized | None => Running end
      | None => Failed
      end.

(** ** Key packages *)

Definition get_legacy_public_key_package : DbM (option PublicKeyPackage) :=
  sled_read legacy_pubkey_package.

Definition get_legacy_key_package : DbM (option KeyPackage) := sled_read legacy_key_package.

(** [multisig_id.to_le_bytes()] *)
Definition multisig_key (m : MultisigId) : bytes := to_le_bytes 4 (as_u32 m).

Definition get_key_package_by_id (m : MultisigId) : DbM (option KeyPackage) :=
  sled_read (λ d, key_packages d !! multisig_key m).

Definition get_public_key_package_by_id (m : MultisigId) : DbM (option PublicKeyPackage) :=
  sled_read (λ d, pubkey_packages d !! multisig_key m).

Definition set_key_package_by_id (m : MultisigId) (k : KeyPackage) : DbM unit :=
  sled_write (λ d, set_key_packages (<[multisig_key m := k]> (key_packages d)) d).

Definition set_pubkey_package_by_id (m : MultisigId) (k : PublicKeyPackage) : DbM unit :=
  sled_write (λ d, set_pubkey_packages (<[multisig_key m := k]> (pubkey_packages d)) d).

(** The deprecated accessors of the legacy federation. *)
Definition get_public_key_package : DbM (option PublicKeyPackage) :=
  get_public_key_package_by_id LEGACY_MULTISIG_ID.

Definition get_key_package : DbM (option KeyPackage) := get_key_package_by_id LEGACY_MULTISIG_ID.

Definition set_key_package (k : KeyPackage) : DbM unit := set_key_package_by_id LEGACY_MULTISIG_ID k.

Definition set_pubkey_package (k : PublicKeyPackage) : DbM unit :=
  set_pubkey_package_by_id LEGACY_MULTISIG_ID k.

Definition multisig_of_key (k : bytes) : outcome DbError MultisigId :=
  if decide (length k = 4%nat) then Ok (mkMultisigId (from_le_bytes k))
  else Err (InvalidMultisigIdKeyLength (length k)).

Definition list_multisig_ids : DbM (list MultisigId) :=
  let! keys := sled_read (λ d, tree_keys (key_packages d)) in
  let! ids := lift (omap_all multisig_of_key keys) in
  ret (sort_by (λ a b, as_u32 a <=? as_u32 b) ids).

(** [a.is_some() && b.is_some()]: the second lookup only happens when the
    first one found something. *)
Definition migrate_legacy_key_package : DbM bool :=
  let! k := get_key_package_by_id LEGACY_MULTISIG_ID in
  let! migrated :=
    match k with
    | Some _ => let! pk := get_public_key_package_by_id LEGACY_MULTISIG_ID in
                ret (bool_decide (is_Some pk))
    | None => ret false
    end in
  if migrated then ret false else
  let! legacy_key_package := get_legacy_key_package in
  let! legacy_pubkey_package := get_legacy_public_key_package in
  match legacy_key_package, legacy_pubkey_package with
  | Some key_package, Some pk_package =>
      set_key_package_by_id LEGACY_MULTISIG_ID key_package ;!
      set_pubkey_package_by_id LEGACY_MULTISIG_ID pk_package ;!
      ret true
  | _, _ => ret false
  end.

Section export.
Context `{!AeadLib}.

(** [iv] is the random nonce. *)
Definition export_key_package_by_id (m : MultisigId) (passphrase iv : bytes)
    : DbM (option ExportedKeyPackage) :=
  let! key_package := get_key_package_by_id m in
  match key_package with
  | None => ret None
  | Some key_package =>
      let! pk_package := get_public_key_package_by_id m in
      match pk_package with
      | None => ret None
      | Some pk_package =>
          let '(master1, master2) := challenges iv passphrase in
          ret (Some (mkExportedKeyPackage EXPORTED_PACKAGE_VERSION iv
                       (encrypt master1 iv (encode_key_package key_package))
                       (encrypt master2 iv (encode_pk_package pk_package))))
      end
  end.

Definition import_key_package_by_id (m : MultisigId) (passphrase : bytes)
    (export : ExportedKeyPackage) : DbM unit :=
  if negb (exp_version export =? EXPORTED_PACKAGE_VERSION)
  then fail BadExportedPackageFormatVersion else
  let nonce := exp_iv export in
  let '(master1, master2) := challenges nonce passphrase in
  let! b := lift (ok_or (decrypt master1 nonce (exp_enc_key_package export)) BadDecryptionPassphrase) in
  let! key_package := lift (ok_or (decode_key_package b) DataCorruption) in
  let! b := lift (ok_or (decrypt master2 nonce (exp_enc_pk_package export)) BadDecryptionPassphrase) in
  let! pk_package := lift (ok_or (decode_pk_package b) DataCorruption) in
  set_key_package_by_id m key_package ;!
  set_pubkey_package_by_id m pk_package.

End export.

(** ** DKG packages *)

Definition add_round2_dkg (peer_id : Identifier) (p : Round2Package) : DbM Z :=
  let k := identifier_serialize peer_id in
  let! present := sled_read (λ d, bool_decide (is_Some (round2_dkg_packages d !! k))) in
  if present then ret 0 else
  sled_write (λ d, set_round2_dkg_packages (<[k := p]> (round2_dkg_packages d)) d) ;!
  ret (round2_cbor_len p).

Definition add_round1_dkg (peer_id : Identifier) (p : Round1Package) : DbM Z :=
  let k := identifier_serialize peer_id in
  let! present := sled_read (λ d, bool_decide (is_Some (round1_dkg_packages d !! k))) in
  if present then ret 0 else
  sled_write (λ d, set_round1_dkg_packages (<[k := p]> (round1_dkg_packages d)) d) ;!
  ret (round1_cbor_len p).

Definition dkg_package_of {V} (kv : bytes * V) : outcome DbError (Identifier * V) :=
  let '(k, v) := kv in
  if decide (length k = 32%nat) then
    let? id := ok_or (identifier_deserialize k) FrostSerialization in Ok (id, v)
  else Err Serialization.

Definition get_round2_dkg_packages : DbM (gmap Identifier Round2Package) :=
  let! kvs := sled_read (λ d, tree_iter (round2_dkg_packages d)) in
  let! l := lift (omap_all dkg_package_of kvs) in
  ret (foldl (λ m p, <[p.1 := p.2]> m) ∅ l).

Definition get_round1_dkg_packages : DbM (gmap Identifier Round1Package) :=
  let! kvs := sled_read (λ d, tree_iter (round1_dkg_packages d)) in
  let! l := lift (omap_all dkg_package_of kvs) in
  ret (foldl (λ m p, <[p.1 := p.2]> m) ∅ l).

(** ** UTXOs *)

Definition get_utxo (op : OutPoint) : DbM (option Utxo) :=
  sled_read (λ d, load_form op <$> utxos d !! to_bytes op).

Definition remove_utxo (op : OutPoint) : DbM unit :=
  sled_write (λ d, set_utxos (delete (to_bytes op) (utxos d)) d).

(** A key that is no outpoint is a broken database and panics. *)
Definition load_entry {E} (kv : bytes * StoredUtxo) : outcome E Utxo :=
  let? op := expect (from_slice kv.1) in Ok (load_form op kv.2).

Definition iter_utxos : DbM (list Utxo) :=
  let! kvs := sled_read (λ d, tree_iter (utxos d)) in
  lift (omap_all load_entry kvs).

Definition iter_utxos_by_multisig (m : MultisigId) : DbM (list Utxo) :=
  let! us := iter_utxos in
  ret (List.filter (λ u, bool_decide (utxo_multisig_id u = m)) us).

Definition insert_new_utxo (u : Utxo) (t : gmap bytes StoredUtxo) : gmap bytes StoredUtxo :=
  match t !! to_bytes (utxo_outpoint u) with
  | Some _ => t
  | None => <[to_bytes (utxo_outpoint u) := store_form u]> t
  end.

Definition store_utxo (u : Utxo) : DbM bool :=
  let! present := sled_read (λ d, bool_decide (is_Some (utxos d !! to_bytes (utxo_outpoint u)))) in
  if negb present then
    sled_write (λ d, set_utxos (<[to_bytes (utxo_outpoint u) := store_form u]> (utxos d)) d) ;!
    ret true
  else ret false.

Definition store_utxos_atomically (us : list Utxo) : DbM bool :=
  transaction (λ d, set_utxos (foldl (λ t u, insert_new_utxo u t) (utxos d) us) d) ;!
  ret true.

Definition store_utxos (us : list Utxo) : DbM bool :=
  match us with
  | [] => ret false
  | [u] => store_utxo u
  | _ => store_utxos_atomically us
  end.

(** [Tree::clear]; sled does not clear a tree at once, so that a failing call may
    have removed some UTXOs.  Here it has removed none; what is stated of the
    UTXOs across resets is stated while the database answers. *)
Definition clear_utxos : DbM unit := sled_write (set_utxos ∅).

Definition reset_utxos (us : list Utxo) : DbM unit :=
  clear_utxos ;! store_utxos us ;! ret tt.

Definition get_all_utxos : DbM (list Utxo) :=
  let! kvs := sled_read (λ d, tree_iter (utxos d)) in
  lift (omap_all load_entry kvs).

(** ** Merkle roots

    Hash the entries, sort the hashes, and store the root of the sorted list;
    an empty set leaves the stored root alone. *)

Definition merkle_leaves (l : list bytes) : list bytes := sort_by bytes_le (map sha256 l).

Definition root_of (l : list bytes) : outcome DbError bytes :=
  ok_or (calculate_root (merkle_leaves l)) EmptyMerkleRoot.

(** ** Tracked transactions *)

Definition get_tracked_txs : DbM (list Tx) := sled_read (λ d, tree_values (tracked_txs d)).

Definition update_tracked_tx_merkle_root : DbM unit :=
  let! txs := get_tracked_txs in
  if bool_decide (txs = []) then ret tt else
  let! root := lift (root_of (map (λ t, encode_txid (tx_txid t)) txs)) in
  sled_write (set_tracked_tx_root (Some root)).

Definition get_tracked_tx_merkle_root : DbM (option bytes) := sled_read tracked_tx_root.

Definition store_tracked_tx (t : Tx) : DbM unit :=
  sled_write (λ d, set_tracked_txs (<[tx_txid t := t]> (tracked_txs d)) d) ;!
  update_tracked_tx_merkle_root.

Definition insert_new_tx (t : Tx) (m : gmap bytes Tx) : gmap bytes Tx :=
  match m !! tx_txid t with Some _ => m | None => <[tx_txid t := t]> m end.

Definition store_tracked_txs_atomically (txs : list Tx) : DbM unit :=
  transaction (λ d, set_tracked_txs (foldl (λ m t, insert_new_tx t m) (tracked_txs d) txs) d).

Definition store_tracked_txs (txs : list Tx) : DbM unit :=
  match txs with
  | [] => ret tt
  | [t] => store_tracked_tx t
  | _ => store_tracked_txs_atomically txs
  end.

Definition remove_tracked_tx (txid : Txid) : DbM unit :=
  sled_write (λ d, set_tracked_txs (delete txid (tracked_txs d)) d).

Definition clear_tracked_txs : DbM unit := sled_write (set_tracked_txs ∅).

Definition reset_tracked_txs (txs : list Tx) : DbM unit :=
  clear_tracked_txs ;! store_tracked_txs txs.

Definition store_pegout_mgr_finalized_block (block_hash : BlockHash) : DbM unit :=
  sled_write (set_pegoutmgr_tip (Some block_hash)).

Definition get_pegout_mgr_finalized_block : DbM (option BlockHash) := sled_read pegoutmgr_tip.

(** ** The UTXO root *)

Definition update_utxo_merkle_root : DbM unit :=
  let! us := iter_utxos in
  if bool_decide (us = []) then ret tt else
  let! root := lift (root_of (map (λ u, encode_outpoint (utxo_outpoint u)) us)) in
  sled_write (set_utxo_root (Some root)).

Definition get_utxo_merkle_root : DbM (option bytes) := sled_read utxo_root.

(** ** Pending pegouts *)

Definition get_pending_pegouts : DbM (list PegoutRequest) :=
  sled_read (λ d, tree_values (pending_pegouts d)).

Definition update_pending_pegouts_merkle_root : DbM unit :=
  let! reqs := get_pending_pegouts in
  if bool_decide (reqs = []) then ret tt else
  let! root := lift (root_of (map (λ r, as_bytes (pr_id r)) reqs)) in
  sled_write (set_pending_pegouts_root (Some root)).

Definition get_pending_pegouts_merkle_root : DbM (option bytes) := sled_read pending_pegouts_root.

Definition store_pending_pegout (r : PegoutRequest) : DbM unit :=
  sled_write (λ d, set_pending_pegouts (<[as_bytes (pr_id r) := r]> (pending_pegouts d)) d) ;!
  update_pending_pegouts_merkle_root.

Definition insert_new_pegout (r : PegoutRequest) (m : gmap bytes PegoutRequest) :=
  match m !! as_bytes (pr_id r) with Some _ => m | None => <[as_bytes (pr_id r) := r]> m end.

Definition store_pending_pegouts_atomically (rs : list PegoutRequest) : DbM unit :=
  transaction (λ d, set_pending_pegouts
    (foldl (λ m r, insert_new_pegout r m) (pending_pegouts d) rs) d) ;!
  update_pending_pegouts_merkle_root.

Definition store_pending_pegouts (rs : list PegoutRequest) : DbM unit :=
  match rs with
  | [] => ret tt
  | [r] => store_pending_pegout r
  | _ => store_pending_pegouts_atomically rs
  end.

Definition get_pending_pegout (id : PegoutId) : DbM (option PegoutRequest) :=
  sled_read (λ d, pending_pegouts d !! as_bytes id).

Definition coord_pending_pegouts (max : nat) : DbM (list PegoutRequest) :=
  let! pegouts := get_pending_pegouts in
  let pegouts := sort_by (λ a b, pr_botanix_height a <=? pr_botanix_height b) pegouts in
  if (length pegouts <? max)%nat then ret pegouts
  else ret (take max pegouts).

Definition remove_pending_pegout (ids : list PegoutId) : DbM unit :=
  forM ids (λ id, sled_write (λ d, set_pending_pegouts (delete (as_bytes id) (pending_pegouts d)) d)).

Definition clear_pending_pegouts : DbM unit := sled_write (set_pending_pegouts ∅).

Definition reset_pending_pegouts (rs : list PegoutRequest) : DbM unit :=
  clear_pending_pegouts ;! store_pending_pegouts rs.

(** ** Finalized pegouts *)

Definition get_finalized_pegout_ids : DbM (list FinalizedPegout) :=
  sled_read (λ d, tree_values (finalized_pegout_ids d)).

Definition peek_finalized_pegout_ids : DbM nat :=
  gets (λ d, length (tree_iter (finalized_pegout_ids d))).

Definition remove_finalized_pegout_ids (fs : list FinalizedPegout) : DbM unit :=
  forM fs (λ f, sled_write (λ d,
    set_finalized_pegout_ids (delete (as_bytes (fp_id f)) (finalized_pegout_ids d)) d)).

Definition clear_finalized_pegout_ids : DbM unit := sled_write (set_finalized_pegout_ids ∅).

Definition store_finalized_pegout_id (f : FinalizedPegout) : DbM unit :=
  sled_write (λ d, set_finalized_pegout_ids
    (<[as_bytes (fp_id f) := f]> (finalized_pegout_ids d)) d).

Definition insert_new_finalized (f : FinalizedPegout) (m : gmap bytes FinalizedPegout) :=
  match m !! as_bytes (fp_id f) with Some _ => m | None => <[as_bytes (fp_id f) := f]> m end.

Definition store_finalized_pegout_ids_atomically (fs : list FinalizedPegout) : DbM unit :=
  transaction (λ d, set_finalized_pegout_ids
    (foldl (λ m f, insert_new_finalized f m) (finalized_pegout_ids d) fs) d).

Definition store_finalized_pegout_ids (fs : list FinalizedPegout) : DbM unit :=
  match fs with
  | [] => ret tt
  | [f] => store_finalized_pegout_id f
  | _ => store_finalized_pegout_ids_atomically fs
  end.

Definition reset_finalized_pegout_ids (fs : list FinalizedPegout) : DbM unit :=
  clear_finalized_pegout_ids ;! store_finalized_pegout_ids fs.

(** What the pruning transaction does with one entry. *)
Definition prune_entry (now cutoff : Z) (m : gmap bytes FinalizedPegout) (f : FinalizedPegout)
    : gmap bytes FinalizedPegout :=
  match fp_timestamp f with
  | Some timestamp => if timestamp <? cutoff then delete (as_bytes (fp_id f)) m else m
  | None => <[as_bytes (fp_id f) := mkFinalizedPegout (fp_id f) (fp_block_number f) (Some now)]> m
  end.

(** [now] is the clock in seconds since the epoch, negative before it. *)
Definition prune_finalized_pegout_ids (now : Z) : DbM unit :=
  if now <? 0 then fail DurationSinceEpoch else
  let cutoff_timestamp := saturating_sub now RETENTION_WINDOW_SECONDS in
  let! finalized_pegouts := get_finalized_pegout_ids in
  transaction (λ d, set_finalized_pegout_ids
    (foldl (prune_entry now cutoff_timestamp) (finalized_pegout_ids d) finalized_pegouts) d).

Definition iter_finalized_pegout_ids : DbM (list FinalizedPegout) :=
  sled_read (λ d, tree_values (finalized_pegout_ids d)).

Definition update_finalized_pegout_ids_merkle_root : DbM unit :=
  let! fs := iter_finalized_pegout_ids in
  if bool_decide (fs = []) then ret tt else
  let! root := lift (root_of (map (λ f,
    encode_u32 (pid_idx (fp_id f)) ++ encode_array (pid_txid (fp_id f)) ++
    encode_u64 (fp_block_number f)) fs)) in
  sled_write (set_finalized_root (Some root)).

Definition get_finalized_pegout_ids_merkle_root : DbM (option bytes) := sled_read finalized_root.

(** The chunks of the stream: a key that cannot be read is skipped, a chunk
    without items is not yielded. *)
Fixpoint stream_items (keys : list bytes) : DbM (list FinalizedPegout) :=
  match keys with
  | [] => ret []
  | k :: keys' =>
      let! v := okM (sled_read (λ d, finalized_pegout_ids d !! k)) in
      let! items := stream_items keys' in
      ret (match v with Some (Some f) => f :: items | _ => items end)
  end.

Fixpoint stream_chunks (chunks : list (list bytes)) (chunk_index num_chunks : Z)
    : DbM (list (list FinalizedPegout * Z * Z)) :=
  match chunks with
  | [] => ret []
  | c :: chunks' =>
      let! items := stream_items c in
      if bool_decide (items = []) then stream_chunks chunks' chunk_index num_chunks
      else
        let! rest := stream_chunks chunks' (chunk_index + 1) num_chunks in
        ret ((items, chunk_index, num_chunks) :: rest)
  end.

(** [slice::chunks]; the fuel is the length of the list. *)
Fixpoint chunks_of {A} (fuel : nat) (n : nat) (l : list A) : list (list A) :=
  match fuel, l with
  | S fuel', _ :: _ => take n l :: chunks_of fuel' n (drop n l)
  | _, _ => []
  end.

Definition chunks {A} (n : nat) (l : list A) : list (list A) := chunks_of (length l) n l.

Definition div_ceil (a b : Z) : Z := (a + b - 1) / b.

Definition get_finalized_pegout_ids_stream (chunk_size : nat)
    : DbM (list (list FinalizedPegout * Z * Z)) :=
  let! total_count := peek_finalized_pegout_ids in
  if (chunk_size =? 0)%nat then panic else
  let num_chunks := div_ceil (Z.of_nat total_count) (Z.of_nat chunk_size) in
  let! all_keys := sled_read (λ d, tree_keys (finalized_pegout_ids d)) in
  stream_chunks (chunks chunk_size all_keys) 0 num_chunks.

End db.

(** ** Running calls

    Without pending sled errors a read returns its value and a write applies;
    with errors pending a call either behaves so or fails and leaves the data
    as it was. *)

Section run.
Context `{!FrostLib}.

Lemma sled_read_ok {A} (f : Db → A) d : io d = [] → sled_read f d = (d, Ok (f d)).
Proof. intros Hio. unfold sled_read, sled. by rewrite Hio. Qed.

Lemma sled_write_ok (f : Db → Db) d : io d = [] → sled_write f d = (f d, Ok tt).
Proof. intros Hio. unfold sled_write, sled. by rewrite Hio. Qed.

Lemma transaction_ok (f : Db → Db) d : io d = [] → transaction f d = (f d, Ok tt).
Proof. intros Hio. unfold transaction, map_errM. by rewrite sled_write_ok. Qed.

Lemma sled_read_Ok {A} (f : Db → A) d d' a :
  sled_read f d = (d', Ok a) → (d' = d ∨ ∃ r, d' = set_io r d) ∧ a = f d'.
Proof.
  unfold sled_read, sled. destruct (io d) as [|[] r]; intros [= <- <-]; eauto.
Qed.

Lemma sled_write_Ok (f : Db → Db) d d' a :
  sled_write f d = (d', Ok a) → d' = f d ∨ ∃ r, d' = f (set_io r d).
Proof. unfold sled_write, sled. destruct (io d) as [|[] r]; intros [= <- <-]; eauto. Qed.

Lemma transaction_Ok (f : Db → Db) d d' a :
  transaction f d = (d', Ok a) → d' = f d ∨ ∃ r, d' = f (set_io r d).
Proof. unfold transaction. rewrite map_errM_Ok. apply sled_write_Ok. Qed.

(** A relation between databases that does not look at the schedule. *)
Class IoFree (R : relation Db) : Prop := io_free r d : R d (set_io r d).

Lemma respects_sled_read (R : relation Db) `{!Reflexive R, !IoFree R} {A} (f : Db → A) :
  respects R (sled_read f).
Proof.
  intros d. unfold sled_read, sled. destruct (io d) as [|[] r]; simpl; [done|apply io_free..].
Qed.

Lemma respects_sled_write (R : relation Db) `{!Transitive R, !IoFree R} (f : Db → Db) :
  (∀ d, R d (f d)) → respects R (sled_write f).
Proof.
  intros Hf d. unfold sled_write, sled. destruct (io d) as [|[] r]; simpl; [done|apply io_free|].
  etrans; [apply (io_free r)|apply Hf].
Qed.

Lemma respects_transaction (R : relation Db) `{!Transitive R, !IoFree R} (f : Db → Db) :
  (∀ d, R d (f d)) → respects R (transaction f).
Proof. intros. by apply respects_map_err, respects_sled_write. Qed.

Lemma respects_flush (R : relation Db) `{!Reflexive R, !IoFree R} : respects R flush.
Proof. apply respects_sled_read; apply _. Qed.

End run.

#[export] Hint Resolve respects_sled_read respects_sled_write respects_transaction
  respects_flush : monad.

(** ** The UTXO set

    The abstract view of the UTXO tree: a map from outpoints to UTXOs. *)

Definition utxo_view `{!FrostLib} (d : Db) (m : gmap OutPoint Utxo) : Prop :=
  (∀ op, outpoint_wf op → m !! op = load_form op <$> utxos d !! to_bytes op) ∧
  (∀ op, is_Some (m !! op) → outpoint_wf op) ∧
  (∀ k, is_Some (utxos d !! k) → ∃ op, outpoint_wf op ∧ k = to_bytes op).

(** Inserting the UTXOs whose outpoint is not in the set yet, in order. *)
Definition insert_absent (m : gmap OutPoint Utxo) (u : Utxo) : gmap OutPoint Utxo :=
  match m !! utxo_outpoint u with Some _ => m | None => <[utxo_outpoint u := u]> m end.

Section utxo_facts.
Context `{!BitcoinLib, !FrostLib, !BitcoinLaws}.

Lemma load_store_form u : load_form (utxo_outpoint u) (store_form u) = u.
Proof. by destruct u. Qed.

Lemma utxo_view_lookup d m op :
  utxo_view d m → outpoint_wf op → m !! op = load_form op <$> utxos d !! to_bytes op.
Proof. intros (Hl & _). apply Hl. Qed.

Lemma utxo_view_io d m r : utxo_view d m → utxo_view (set_io r d) m.
Proof. done. Qed.

Lemma utxo_view_ext d d' m : utxos d' = utxos d → utxo_view d m → utxo_view d' m.
Proof. unfold utxo_view. by intros ->. Qed.

Lemma utxo_view_empty d : utxos d = ∅ → utxo_view d ∅.
Proof.
  intros Hd. unfold utxo_view. rewrite Hd. split; [|split].
  - intros op _. by rewrite !lookup_empty.
  - intros op [u Hu]. by rewrite lookup_empty in Hu.
  - intros k [u Hu]. by rewrite lookup_empty in Hu.
Qed.

Lemma utxo_view_delete d m op :
  outpoint_wf op → utxo_view d m →
  utxo_view (set_utxos (delete (to_bytes op) (utxos d)) d) (delete op m).
Proof.
  intros Hop (Hl & Hm & Hk). split; [|split]; cbn [utxos set_utxos].
  - intros op' Hop'. destruct (decide (op = op')) as [<-|Hne].
    + by rewrite !lookup_delete_eq.
    + rewrite !lookup_delete_ne; [by apply Hl| |done].
      intros He. by apply Hne, to_bytes_inj.
  - intros op' [u Hu%lookup_delete_Some]. naive_solver.
  - intros k [s Hs%lookup_delete_Some]. naive_solver.
Qed.

Lemma utxo_view_insert d m u :
  outpoint_wf (utxo_outpoint u) → utxo_view d m →
  utxo_view (set_utxos (<[to_bytes (utxo_outpoint u) := store_form u]> (utxos d)) d)
    (<[utxo_outpoint u := u]> m).
Proof.
  intros Hop (Hl & Hm & Hk). split; [|split]; cbn [utxos set_utxos].
  - intros op' Hop'. destruct (decide (utxo_outpoint u = op')) as [<-|Hne].
    + rewrite !lookup_insert_eq. simpl. by rewrite load_store_form.
    + rewrite !lookup_insert_ne; [by apply Hl| |done].
      intros He. by apply Hne, to_bytes_inj.
  - intros op' [u' Hu'%lookup_insert_Some]. naive_solver.
  - intros k [s Hs%lookup_insert_Some]. naive_solver.
Qed.

Lemma utxo_view_insert_new d m u :
  outpoint_wf (utxo_outpoint u) → utxo_view d m →
  utxo_view (set_utxos (insert_new_utxo u (utxos d)) d) (insert_absent m u).
Proof.
  intros Hop Hv. pose proof (utxo_view_lookup _ _ _ Hv Hop) as Hl.
  unfold insert_new_utxo, insert_absent. rewrite Hl.
  destruct (utxos d !! to_bytes (utxo_outpoint u)); simpl; [by destruct d|].
  by apply utxo_view_insert.
Qed.

Lemma utxo_view_fold d m us :
  Forall (λ u, outpoint_wf (utxo_outpoint u)) us → utxo_view d m →
  utxo_view (set_utxos (foldl (λ t u, insert_new_utxo u t) (utxos d) us) d)
    (foldl insert_absent m us).
Proof.
  intros Hus. revert d m. induction Hus as [|u us Hu Hus IH]; intros d m Hv; simpl.
  - by destruct d.
  - apply (IH (set_utxos (insert_new_utxo u (utxos d)) d) (insert_absent m u)).
    by apply utxo_view_insert_new.
Qed.

Lemma utxo_view_keyed d m op u : utxo_view d m → m !! op = Some u → utxo_outpoint u = op.
Proof.
  intros (Hl & Hm & _) Hu. rewrite Hl in Hu by (apply Hm; eauto).
  destruct (utxos d !! to_bytes op); simpl in Hu; [|done]. by injection Hu as <-.
Qed.

(** Every entry of the tree loads. *)
Lemma load_entries_sub d m kvs :
  utxo_view d m → kvs ⊆ tree_iter (utxos d) →
  ∃ us, omap_all (E:=DbError) load_entry kvs = Ok us ∧
    Forall2 (λ kv u, kv.1 = to_bytes (utxo_outpoint u) ∧ m !! utxo_outpoint u = Some u) kvs us.
Proof.
  intros (Hl & Hm & Hk). induction kvs as [|[k s] kvs IH]; intros Hsub; [exists []; by constructor|].
  destruct IH as (us & Hus & HF); [set_solver|].
  assert (utxos d !! k = Some s) as Hks by (apply elem_of_tree_iter; set_solver).
  destruct (Hk k) as (op & Hop & ->); [eauto|].
  exists (load_form op s :: us). simpl. unfold load_entry at 1; simpl.
  rewrite from_slice_to_bytes by done. simpl. rewrite Hus. split; [done|].
  constructor; [|done]. simpl. split; [done|]. by rewrite Hl, Hks.
Qed.

Lemma load_entries_NoDup d (m : gmap OutPoint Utxo) us :
  Forall2 (λ kv u, kv.1 = to_bytes (utxo_outpoint u) ∧ m !! utxo_outpoint u = Some u)
    (tree_iter (utxos d)) us →
  NoDup us.
Proof.
  intros HF. apply (NoDup_fmap_1 (to_bytes ∘ utxo_outpoint)).
  assert ((to_bytes ∘ utxo_outpoint) <$> us = (tree_iter (utxos d)).*1) as ->.
  { clear -HF. induction HF as [|kv u kvs us [Hk _] HF IH]; [done|]. csimpl. by rewrite Hk, IH. }
  rewrite tree_iter_perm. apply NoDup_fst_map_to_list.
Qed.

Lemma map_values_NoDup d m : utxo_view d m → NoDup (map_to_list m).*2.
Proof.
  intros Hv. apply NoDup_fmap_2_strong; [|apply NoDup_map_to_list].
  intros [o1 u1] [o2 u2] Ha%elem_of_map_to_list Hb%elem_of_map_to_list. simpl. intros <-.
  by rewrite <-(utxo_view_keyed _ _ _ _ Hv Ha), <-(utxo_view_keyed _ _ _ _ Hv Hb).
Qed.

(** The loaded entries are the view's UTXOs. *)
Lemma load_entries_view d m :
  utxo_view d m →
  ∃ us, omap_all (E:=DbError) load_entry (tree_iter (utxos d)) = Ok us ∧ us ≡ₚ (map_to_list m).*2.
Proof.
  intros Hv. destruct (load_entries_sub d m _ Hv ltac:(done)) as (us & Hus & HF).
  exists us. split; [done|].
  apply NoDup_Permutation; [by eapply load_entries_NoDup|by eapply map_values_NoDup|].
  intros u. rewrite list_elem_of_fmap. split.
  - intros Hu. apply list_elem_of_lookup in Hu as (i & Hi).
    eapply Forall2_lookup_r in HF as ([k s] & _ & _ & Hmu); [|exact Hi].
    exists (utxo_outpoint u, u). by rewrite elem_of_map_to_list.
  - intros ([o u'] & -> & Hou%elem_of_map_to_list). simpl.
    destruct Hv as (Hl & Hm & _). assert (outpoint_wf o) as Ho by (apply Hm; eauto).
    pose proof Hou as Hou'. rewrite Hl in Hou by done.
    destruct (utxos d !! to_bytes o) as [s|] eqn:Es; simpl in Hou; [|done].
    apply elem_of_tree_iter, list_elem_of_lookup in Es as (i & Hi).
    eapply Forall2_lookup_l in HF as (u & Hu & Hk1 & Hmu); [|exact Hi]. simpl in Hk1.
    apply to_bytes_inj in Hk1; [|done|apply Hm; eauto]. rewrite <-Hk1 in Hmu.
    assert (u = u') as <- by congruence. by eapply list_elem_of_lookup_2.
Qed.

End utxo_facts.

(** Everything but the UTXO tree and the schedule. *)
Definition same_but_utxos `{!FrostLib} : relation Db := λ d d',
  set_utxos ∅ (set_io [] d') = set_utxos ∅ (set_io [] d).

(** What the database promises the wallet about the UTXO set: its operations
    act on the abstract view like the operations of a finite map. *)
Class UtxoStore `{!BitcoinLib, !FrostLib} (view : Db → gmap OutPoint Utxo → Prop) : Prop := {
  store_get d m op : view d m → io d = [] → outpoint_wf op →
    get_utxo op d = (d, Ok (m !! op));
  store_all d m : view d m → io d = [] →
    ∃ us, get_all_utxos d = (d, Ok us) ∧ us ≡ₚ (map_to_list m).*2;
  store_by_multisig d m id : view d m → io d = [] →
    ∃ us, iter_utxos_by_multisig id d = (d, Ok us) ∧
      us ≡ₚ List.filter (λ u, bool_decide (utxo_multisig_id u = id)) (map_to_list m).*2;
  store_remove d m op : view d m → io d = [] → outpoint_wf op →
    ∃ d', remove_utxo op d = (d', Ok tt) ∧ view d' (delete op m) ∧ io d' = [] ∧ same_but_utxos d d';
  store_store d m us : view d m → io d = [] →
    Forall (λ u, outpoint_wf (utxo_outpoint u)) us →
    ∃ d' b, store_utxos us d = (d', Ok b) ∧ view d' (foldl insert_absent m us) ∧
      io d' = [] ∧ same_but_utxos d d';
  store_clear d m : view d m → io d = [] →
    ∃ d', clear_utxos d = (d', Ok tt) ∧ view d' ∅ ∧ io d' = [] ∧ same_but_utxos d d';
  (** whatever sled answers, a store or a removal that does not succeed
      leaves the set unchanged *)
  store_atomic d m us : view d m →
    (∀ d' r, store_utxos us d = (d', r) → (∀ b, r ≠ Ok b) → view d' m);
  remove_atomic d m op : view d m →
    (∀ d' r, remove_utxo op d = (d', r) → r ≠ Ok tt → view d' m) }.

Section utxo_store.
Context `{!BitcoinLib, !FrostLib, !BitcoinLaws}.

Lemma filter_perm {A} (f : A → bool) l l' : l ≡ₚ l' → List.filter f l ≡ₚ List.filter f l'.
Proof.
  induction 1 as [|x l l' Hp IH|x y l|l1 l2 l3 Hp1 IH1 Hp2 IH2]; simpl; [done| | |by etrans].
  - by destruct (f x); rewrite ?IH.
  - destruct (f x), (f y); try done. apply Permutation_swap.
Qed.

Lemma iter_utxos_view d m : utxo_view d m → io d = [] →
  ∃ us, iter_utxos d = (d, Ok us) ∧ us ≡ₚ (map_to_list m).*2.
Proof.
  intros Hv Hio. destruct (load_entries_view d m Hv) as (us & Hus & Hp). exists us.
  unfold iter_utxos, bindM. rewrite sled_read_ok by done. unfold lift. by rewrite Hus.
Qed.

Lemma store_utxos_view d m us : utxo_view d m → io d = [] →
  Forall (λ u, outpoint_wf (utxo_outpoint u)) us →
  ∃ d' b, store_utxos us d = (d', Ok b) ∧ utxo_view d' (foldl insert_absent m us) ∧
    io d' = [] ∧ same_but_utxos d d'.
Proof.
  intros Hv Hio Hus. destruct us as [|u [|u' us]].
  - exists d, false. split; [done|]. by split.
  - apply Forall_cons in Hus as [Hu _]. unfold store_utxos, store_utxo, bindM.
    rewrite sled_read_ok by done. cbn [foldl].
    pose proof (utxo_view_insert_new _ _ _ Hu Hv) as Hins. unfold insert_new_utxo in Hins.
    destruct (utxos d !! to_bytes (utxo_outpoint u)) eqn:E.
    + rewrite bool_decide_true by eauto. exists d, false. split; [done|].
      split; [|done]. revert Hins. apply utxo_view_ext. done.
    + rewrite bool_decide_false by (intros [? ?]; congruence). cbn [negb].
      rewrite sled_write_ok by done. by eexists _, true.
  - unfold store_utxos, store_utxos_atomically, bindM. rewrite transaction_ok by done.
    eexists _, true. split; [done|]. split; [by apply utxo_view_fold|done].
Qed.

Lemma sled_write_fail (f : Db → Db) d d' r a :
  sled_write f d = (d', r) → r ≠ Ok a → a = tt → utxos d' = utxos d.
Proof.
  unfold sled_write, sled. destruct (io d) as [|[] l]; intros [= <- <-]; simpl; congruence.
Qed.

Lemma transaction_fail (f : Db → Db) d d' r :
  transaction f d = (d', r) → r ≠ Ok tt → utxos d' = utxos d.
Proof.
  unfold transaction, map_errM, sled_write, sled.
  destruct (io d) as [|[] l]; intros [= <- <-]; simpl; congruence.
Qed.

Lemma sled_read_keeps {A} (f : Db → A) d d' r : sled_read f d = (d', r) → utxos d' = utxos d.
Proof. unfold sled_read, sled. by destruct (io d) as [|[] l]; intros [= <- <-]. Qed.

Lemma store_utxo_fail u d d' r :
  store_utxo u d = (d', r) → (∀ b, r ≠ Ok b) → utxos d' = utxos d.
Proof.
  unfold store_utxo, bindM. destruct (sled_read _ d) as [d1 [p|e|]] eqn:E1;
    apply sled_read_keeps in E1; [|by intros [= <- <-]..].
  destruct p; cbn [negb]; [by intros [= <- <-]|].
  destruct (sled_write _ d1) as [d2 [[]|e|]] eqn:E2; intros [= <- <-] Hr.
  - by destruct (Hr true).
  - rewrite <-E1. by eapply sled_write_fail.
  - rewrite <-E1. by eapply sled_write_fail.
Qed.

Lemma store_utxos_fail us d d' r :
  store_utxos us d = (d', r) → (∀ b, r ≠ Ok b) → utxos d' = utxos d.
Proof.
  destruct us as [|u [|u' us]]; [by intros [= <- <-]|apply store_utxo_fail|].
  unfold store_utxos, store_utxos_atomically, bindM.
  destruct (transaction _ d) as [d1 [[]|e|]] eqn:E; intros [= <- <-] Hr.
  - by destruct (Hr true).
  - by eapply transaction_fail.
  - by eapply transaction_fail.
Qed.

#[export] Instance utxo_store : UtxoStore utxo_view.
Proof.
  split.
  - intros d m op Hv Hio Hop. unfold get_utxo. rewrite sled_read_ok by done.
    by rewrite (utxo_view_lookup d m op Hv Hop).
  - intros d m Hv Hio. by apply iter_utxos_view.
  - intros d m id Hv Hio. destruct (iter_utxos_view d m Hv Hio) as (us & Hus & Hp).
    unfold iter_utxos_by_multisig, bindM. rewrite Hus. eexists. split; [done|].
    by apply filter_perm.
  - intros d m op Hv Hio Hop. unfold remove_utxo. rewrite sled_write_ok by done.
    eexists. split; [done|]. split; [by apply utxo_view_delete|done].
  - apply store_utxos_view.
  - intros d m Hv Hio. unfold clear_utxos. rewrite sled_write_ok by done.
    eexists. split; [done|]. split; [by apply utxo_view_empty|done].
  - intros d m us Hv d' r Hs Hr. eapply utxo_view_ext; [|exact Hv]. by eapply store_utxos_fail.
  - intros d m op Hv d' r Hs Hr. eapply utxo_view_ext; [|exact Hv].
    by eapply sled_write_fail.
Qed.

End utxo_store.

(** *** Sequences of UTXO operations *)

Inductive utxo_op :=
| OpStore (us : list Utxo)
| OpRemove (op : OutPoint)
| OpReset (us : list Utxo).

Definition run_utxo_op `{!FrostLib} (o : utxo_op) : M Db DbError unit :=
  match o with
  | OpStore us => store_utxos us ;! ret tt
  | OpRemove op => remove_utxo op
  | OpReset us => reset_utxos us
  end.

Definition abs_utxo_op (m : gmap OutPoint Utxo) (o : utxo_op) : gmap OutPoint Utxo :=
  match o with
  | OpStore us => foldl insert_absent m us
  | OpRemove op => delete op m
  | OpReset us => foldl insert_absent ∅ us
  end.

Definition utxo_op_wf (o : utxo_op) : Prop :=
  match o with
  | OpStore us | OpReset us => Forall (λ u, outpoint_wf (utxo_outpoint u)) us
  | OpRemove op => outpoint_wf op
  end.

Section utxo_sim.
Context `{!BitcoinLib, !FrostLib} (view : Db → gmap OutPoint Utxo → Prop) `{!UtxoStore view}.

Lemma run_utxo_op_sim d m o :
  view d m → io d = [] → utxo_op_wf o →
  ∃ d', run_utxo_op o d = (d', Ok tt) ∧ view d' (abs_utxo_op m o) ∧ io d' = [] ∧
    same_but_utxos d d'.
Proof.
  intros Hv Hio Hw. destruct o as [us|op|us]; simpl in *.
  - destruct (store_store d m us Hv Hio Hw) as (d' & b & Hs & ?). exists d'.
    unfold bindM. by rewrite Hs.
  - by apply store_remove.
  - destruct (store_clear d m Hv Hio) as (d1 & Hc & Hv1 & Hio1 & Hs1).
    destruct (store_store d1 ∅ us Hv1 Hio1 Hw) as (d' & b & Hs & Hv' & Hio' & Hs').
    exists d'. unfold reset_utxos, bindM. rewrite Hc, Hs. split; [done|]. split; [done|].
    split; [done|]. unfold same_but_utxos in *. congruence.
Qed.

Lemma run_utxo_ops_sim d m ops :
  view d m → io d = [] → Forall utxo_op_wf ops →
  ∃ d', forM ops run_utxo_op d = (d', Ok tt) ∧ view d' (foldl abs_utxo_op m ops) ∧ io d' = [] ∧
    same_but_utxos d d'.
Proof.
  intros Hv Hio Hops. revert d m Hv Hio.
  induction Hops as [|o ops Ho Hops IH]; intros d m Hv Hio.
  - exists d. split; [done|]. by split.
  - destruct (run_utxo_op_sim d m o Hv Hio Ho) as (d1 & H1' & Hv1 & Hio1 & Hs1).
    destruct (IH d1 _ Hv1 Hio1) as (d' & Hrun & Hv' & Hio' & Hs').
    exists d'. cbn [forM]. unfold bindM at 1. rewrite H1'. split; [done|]. split; [done|].
    split; [done|]. unfold same_but_utxos in *. congruence.
Qed.

End utxo_sim.

(** ** Pruning *)

Definition fp_key (f : FinalizedPegout) : bytes := as_bytes (fp_id f).

(** What becomes of an entry. *)
Definition prune_value (now cutoff : Z) (f : FinalizedPegout) : option FinalizedPegout :=
  match fp_timestamp f with
  | Some t => if t <? cutoff then None else Some f
  | None => Some (mkFinalizedPegout (fp_id f) (fp_block_number f) (Some now))
  end.

Lemma prune_entry_lookup (now cutoff : Z) (m : gmap bytes FinalizedPegout) (f : FinalizedPegout) (k : bytes) :
  m !! fp_key f = Some f →
  prune_entry now cutoff m f !! k =
  if decide (k = fp_key f) then prune_value now cutoff f else m !! k.
Proof.
  intros Hf. unfold prune_entry, prune_value. fold (fp_key f).
  destruct (fp_timestamp f) as [t|].
  - destruct (t <? cutoff); case_decide; subst; try done.
    + apply lookup_delete_eq.
    + by rewrite lookup_delete_ne.
  - case_decide; subst; [apply lookup_insert_eq|by rewrite lookup_insert_ne].
Qed.

Lemma prune_fold (now cutoff : Z) (l : list FinalizedPegout) (m : gmap bytes FinalizedPegout) :
  NoDup (fp_key <$> l) → (∀ f, f ∈ l → m !! fp_key f = Some f) →
  ∀ k, (∀ f, f ∈ l → k = fp_key f →
          foldl (prune_entry now cutoff) m l !! k = prune_value now cutoff f) ∧
       (k ∉ fp_key <$> l → foldl (prune_entry now cutoff) m l !! k = m !! k).
Proof.
  revert m. induction l as [|f l IH]; intros m Hnd Hm k; [split; [set_solver|done]|].
  rewrite fmap_cons, NoDup_cons in Hnd. destruct Hnd as [Hf Hnd]. cbn [foldl].
  pose proof (prune_entry_lookup now cutoff m f) as Hstep.
  specialize (Hm f ltac:(set_solver)) as Hmf.
  assert (∀ g, g ∈ l → prune_entry now cutoff m f !! fp_key g = Some g) as Hm'.
  { intros g Hg. rewrite Hstep, decide_False by (done || intros He; apply Hf; rewrite <-He;
      by apply list_elem_of_fmap_2). apply Hm. set_solver. }
  destruct (IH _ Hnd Hm' k) as [Hin Hout]. split.
  - intros g [->|Hg]%elem_of_cons ->; [|by eapply Hin].
    rewrite Hout by done. rewrite Hstep by done. by rewrite decide_True.
  - rewrite fmap_cons, not_elem_of_cons. intros [Hk1 Hk2].
    rewrite Hout, Hstep by done. by rewrite decide_False.
Qed.

(** Every entry is stored under its own id. *)
Definition finalized_keyed `{!FrostLib} (d : Db) : Prop :=
  map_Forall (λ k f, k = fp_key f) (finalized_pegout_ids d).

Lemma tree_values_keys (t : gmap bytes FinalizedPegout) :
  map_Forall (λ k f, k = fp_key f) t → fp_key <$> tree_values t = tree_keys t.
Proof.
  intros Ht. unfold tree_values, tree_keys. rewrite <-list_fmap_compose.
  apply list_fmap_ext. intros i [k f] Hi. simpl. symmetry. apply Ht.
  apply elem_of_tree_iter. by eapply list_elem_of_lookup_2.
Qed.

Lemma prune_tree_lookup (now cutoff : Z) (t : gmap bytes FinalizedPegout) (k : bytes) :
  map_Forall (λ k f, k = fp_key f) t →
  foldl (prune_entry now cutoff) t (tree_values t) !! k = t !! k ≫= prune_value now cutoff.
Proof.
  intros Ht. destruct (prune_fold now cutoff (tree_values t) t) with (k := k) as [Hin Hout].
  - rewrite tree_values_keys by done. unfold tree_keys. rewrite tree_iter_perm.
    apply NoDup_fst_map_to_list.
  - intros f (k' & Hk)%elem_of_tree_values. by rewrite <-(Ht _ _ Hk).
  - destruct (t !! k) as [f|] eqn:E; cbn [mbind option_bind].
    + apply Hin; [apply elem_of_tree_values; eauto|by apply Ht].
    + rewrite Hout; [done|]. rewrite tree_values_keys by done. unfold tree_keys.
      intros ([k' f] & -> & Hk%elem_of_tree_iter)%list_elem_of_fmap. simpl in E. congruence.
Qed.

(** ** Pending pegouts in order of age *)

Lemma sorted_app_take {A} (R : relation A) n l x y :
  StronglySorted R l → x ∈ take n l → y ∈ drop n l → R x y.
Proof.
  intros Hs Hx Hy. rewrite <-(take_drop n l) in Hs. revert Hs Hx. generalize (take n l).
  induction l0 as [|z l0 IH]; simpl; [set_solver|].
  intros Hs. apply StronglySorted_cons in Hs as [Hf Hs]. rewrite elem_of_cons.
  intros [->|Hx]; [|by apply IH]. rewrite Forall_forall in Hf. apply Hf. set_solver.
Qed.

Lemma height_sorted (l : list PegoutRequest) :
  StronglySorted (λ a b, (pr_botanix_height a <=? pr_botanix_height b) = true)
    (sort_by (λ a b, pr_botanix_height a <=? pr_botanix_height b) l).
Proof. apply sort_by_sorted; intros; lia. Qed.

(** ** Session ids *)

Lemma session_ids_loop_spec keys results max_results acc :
  Forall (λ k, length k = 32%nat) keys →
  session_ids_loop keys results max_results acc =
  Ok (acc ++ if max_results <=? results then keys
             else take (Z.to_nat (max_results - results - 1)) keys).
Proof.
  intros Hk. revert results acc. induction Hk as [|k keys Hlen Hk IH]; intros results acc; simpl.
  - rewrite take_nil. by destruct (_ <=? _); rewrite app_nil_r.
  - rewrite decide_True by done. destruct (Z.eqb_spec max_results (results + 1)) as [->|Hne].
    + destruct (Z.leb_spec (results + 1) results); [lia|].
      replace (results + 1 - results - 1) with 0 by lia. by rewrite app_nil_r.
    + rewrite IH, <-app_assoc.
      destruct (Z.leb_spec max_results (results + 1)), (Z.leb_spec max_results results);
        try lia; [done|].
      replace (Z.to_nat (max_results - results - 1))
        with (S (Z.to_nat (max_results - (results + 1) - 1))) by lia. done.
Qed.

(** ** Roots depend on the set only *)

Lemma bytes_le_antisym a b : bytes_le a b = true → bytes_le b a = true → a = b.
Proof.
  revert b. induction a as [|x a IH]; intros [|y b]; simpl; try done.
  destruct (Z.ltb_spec x y), (Z.eqb_spec x y), (Z.ltb_spec y x), (Z.eqb_spec y x);
    try done; try lia. intros. f_equal; [done|]. by apply IH.
Qed.

Lemma merkle_leaves_perm `{!BitcoinLib} (l l' : list bytes) :
  l ≡ₚ l' → merkle_leaves l = merkle_leaves l'.
Proof.
  intros Hp. unfold merkle_leaves.
  assert (AntiSymm (=) (λ a b, bytes_le a b = true)) as Hanti by (intros a b; apply bytes_le_antisym).
  apply (StronglySorted_unique (λ a b, bytes_le a b = true)).
  - apply sort_by_sorted; [apply bytes_le_total|apply bytes_le_trans].
  - apply sort_by_sorted; [apply bytes_le_total|apply bytes_le_trans].
  - rewrite !sort_by_perm. by apply fmap_Permutation.
Qed.

Lemma merkle_leaves_nil `{!BitcoinLib} (l : list bytes) : merkle_leaves l = [] → l = [].
Proof.
  unfold merkle_leaves. intros Hl. apply (f_equal length) in Hl.
  rewrite sort_by_length, length_map in Hl. by destruct l.
Qed.

Section roots.
Context `{!BitcoinLib, !FrostLib, !BitcoinLaws}.

Lemma root_of_Ok l : l ≠ [] → ∃ r, root_of l = Ok r.
Proof.
  intros Hl. unfold root_of. destruct (calculate_root_some (merkle_leaves l)) as [r ->].
  - intros He. by apply merkle_leaves_nil in He.
  - by exists r.
Qed.

(** The root of a set of outpoints. *)
Definition outpoints_root (s : gset OutPoint) : outcome DbError bytes :=
  root_of (map encode_outpoint (elements s)).

Lemma view_outpoints_perm d m us :
  utxo_view d m → us ≡ₚ (map_to_list m).*2 → map utxo_outpoint us ≡ₚ elements (dom m).
Proof.
  intros Hv Hp. etrans; [by apply fmap_Permutation|].
  assert (utxo_outpoint <$> (map_to_list m).*2 = (map_to_list m).*1) as ->.
  { rewrite <-list_fmap_compose. apply list_fmap_ext. intros i [o u] Hi. simpl.
    eapply utxo_view_keyed; [done|]. apply elem_of_map_to_list. by eapply list_elem_of_lookup_2. }
  apply NoDup_Permutation; [apply NoDup_fst_map_to_list|apply NoDup_elements|].
  intros o. rewrite elem_of_elements, elem_of_dom, list_elem_of_fmap. split.
  - intros ([o' u] & -> & Hu%elem_of_map_to_list). eauto.
  - intros [u Hu]. exists (o, u). by rewrite elem_of_map_to_list.
Qed.

Lemma update_utxo_root_view d m :
  utxo_view d m → io d = [] → m ≠ ∅ →
  ∃ r, outpoints_root (dom m) = Ok r ∧
    update_utxo_merkle_root d = (set_utxo_root (Some r) d, Ok tt).
Proof.
  intros Hv Hio Hm. destruct (iter_utxos_view d m Hv Hio) as (us & Hus & Hp).
  pose proof (view_outpoints_perm d m us Hv Hp) as Hops.
  assert (us ≠ []) as Hne.
  { intros ->. apply Hm. apply map_to_list_empty_iff.
    apply Permutation_nil_l in Hp. symmetry in Hp. by apply fmap_nil_inv in Hp. }
  destruct (root_of_Ok (map (λ u, encode_outpoint (utxo_outpoint u)) us)) as [r Hr].
  { by destruct us. }
  exists r. split.
  - unfold outpoints_root, root_of. rewrite <-Hr. unfold root_of. do 2 f_equal.
    apply merkle_leaves_perm. rewrite <-(map_map utxo_outpoint encode_outpoint).
    by apply fmap_Permutation.
  - unfold update_utxo_merkle_root, bindM. rewrite Hus, bool_decide_false by done.
    unfold lift. rewrite Hr. by rewrite sled_write_ok.
Qed.

Lemma update_utxo_root_empty d :
  utxos d = ∅ → io d = [] → update_utxo_merkle_root d = (d, Ok tt).
Proof.
  intros Hd Hio. unfold update_utxo_merkle_root, iter_utxos, bindM.
  rewrite sled_read_ok, Hd by done. unfold tree_iter. rewrite map_to_list_empty. done.
Qed.

End roots.

(** ** Streaming *)

Lemma chunks_of_spec {A} fuel n (l : list A) :
  (0 < n)%nat → (length l ≤ fuel)%nat →
  concat (chunks_of fuel n l) = l ∧
  Z.of_nat (length (chunks_of fuel n l)) = div_ceil (Z.of_nat (length l)) (Z.of_nat n) ∧
  Forall (λ c, c ≠ [] ∧ (length c ≤ n)%nat) (chunks_of fuel n l).
Proof.
  intros Hn. revert l. induction fuel as [|fuel IH]; intros [|x l] Hl; simpl in Hl; try lia.
  - simpl. unfold div_ceil. rewrite Z.div_small by lia. done.
  - simpl. unfold div_ceil. rewrite Z.div_small by lia. done.
  - cbn [chunks_of]. destruct (IH (drop n (x :: l))) as (Hc & Hlen & HF).
    { rewrite length_drop. simpl. lia. }
    cbn [concat length]. rewrite Hc, take_drop. split; [done|]. split.
    + rewrite Nat2Z.inj_succ, Hlen, length_drop. unfold div_ceil. cbn [length].
      destruct (decide (n ≤ S (length l)))%nat as [Hle|Hgt].
      * replace (Z.of_nat (S (length l)) + Z.of_nat n - 1)
          with (Z.of_nat (S (length l) - n) + Z.of_nat n - 1 + 1 * Z.of_nat n) by lia.
        rewrite Z.div_add by lia. lia.
      * replace (S (length l) - n)%nat with 0%nat by lia.
        rewrite (Z.div_small (Z.of_nat 0 + _ - 1)) by lia.
        apply (Z.div_unique _ _ _ (Z.of_nat (length l))); lia.
    + constructor; [|done]. rewrite length_take. split; [by destruct n; [lia|]|lia].
Qed.

Section streaming.
Context `{!FrostLib}.

Lemma stream_items_ok d keys :
  io d = [] → (∀ k, k ∈ keys → is_Some (finalized_pegout_ids d !! k)) →
  stream_items keys d = (d, Ok (omap (λ k, finalized_pegout_ids d !! k) keys)).
Proof.
  intros Hio Hk. induction keys as [|k keys IH]; [done|].
  cbn [stream_items]. unfold bindM, okM. rewrite sled_read_ok by done.
  destruct (Hk k ltac:(set_solver)) as [f Hf]. rewrite IH by set_solver. csimpl. by rewrite Hf.
Qed.

Lemma omap_lookup_length d keys :
  (∀ k, k ∈ keys → is_Some (finalized_pegout_ids d !! k)) →
  length (omap (λ k, finalized_pegout_ids d !! k) keys) = length keys.
Proof.
  induction keys as [|k keys IH]; intros Hk; [done|]. csimpl.
  destruct (Hk k ltac:(set_solver)) as [f ->]. simpl. f_equal. apply IH. set_solver.
Qed.

(** Without errors every chunk of keys becomes one numbered message. *)
Lemma stream_chunks_ok d cs i n :
  io d = [] → (∀ c k, c ∈ cs → k ∈ c → is_Some (finalized_pegout_ids d !! k)) →
  Forall (λ c, c ≠ []) cs →
  stream_chunks cs i n d =
  (d, Ok (imap (λ j c, (omap (λ k, finalized_pegout_ids d !! k) c, i + Z.of_nat j, n)) cs)).
Proof.
  intros Hio Hk Hne. revert i Hk. induction Hne as [|c cs Hc Hne IH]; intros i Hk; [done|].
  cbn [stream_chunks]. unfold bindM at 1. rewrite stream_items_ok by (done || set_solver).
  rewrite bool_decide_false.
  - unfold bindM. rewrite IH by set_solver. rewrite imap_cons. unfold ret. do 3 f_equal.
    + do 2 f_equal. lia.
    + apply imap_ext. intros j x _. simpl. do 2 f_equal. lia.
  - intros He. apply (f_equal length) in He.
    rewrite omap_lookup_length in He by set_solver. by destruct c.
Qed.

Lemma omap_keys_values {V} (t : gmap bytes V) :
  omap (λ k, t !! k) (tree_keys t) = tree_values t.
Proof.
  unfold tree_keys, tree_values.
  assert (∀ l : list (bytes * V), l ⊆ tree_iter t → omap (λ k, t !! k) l.*1 = l.*2) as Hl.
  { induction l as [|[k v] l IH]; intros Hs; [done|]. csimpl.
    rewrite (proj1 (elem_of_tree_iter t k v)) by set_solver. rewrite IH by set_solver. done. }
  by apply Hl.
Qed.

Lemma omap_concat {A B} (f : A → option B) (ls : list (list A)) :
  concat (map (omap f) ls) = omap f (concat ls).
Proof. induction ls as [|l ls IH]; simpl; [done|]. by rewrite omap_app, IH. Qed.

End streaming.

(** ** Properties of the database *)

(** A store that succeeds under any schedule inserted every UTXO whose
    outpoint was free. *)
Lemma store_utxos_success `{!BitcoinLib, !FrostLib, !BitcoinLaws} d m us d' b :
  utxo_view d m → Forall (λ u, outpoint_wf (utxo_outpoint u)) us →
  store_utxos us d = (d', Ok b) → utxo_view d' (foldl insert_absent m us).
Proof.
  intros Hv Hus. destruct us as [|u [|u' us]].
  - by intros [= <- <-].
  - apply Forall_cons in Hus as [Hu _]. unfold store_utxos, store_utxo. intros Hs. mres Hs.
    apply sled_read_Ok in Hm as [Hd ->].
    assert (utxo_view s m) as Hv1 by (destruct Hd as [->|[r ->]]; done).
    pose proof (utxo_view_insert_new _ _ _ Hu Hv1) as Hins. unfold insert_new_utxo in Hins.
    cbn [foldl]. destruct (utxos s !! to_bytes (utxo_outpoint u)) eqn:E.
    + rewrite bool_decide_true in Hs by eauto. injection Hs as <- _.
      revert Hins. by apply utxo_view_ext.
    + rewrite bool_decide_false in Hs by (intros [? ?]; congruence). cbn [negb] in Hs. mres Hs.
      injection Hs as <- _. apply sled_write_Ok in Hm as [->|[r ->]]; [done|].
      revert Hins. by apply utxo_view_ext.
  - unfold store_utxos, store_utxos_atomically. intros Hs. mres Hs. injection Hs as <- _.
    apply transaction_Ok in Hm as [->|[r ->]]; by apply utxo_view_fold.
Qed.

Section properties.
Context `{!BitcoinLib, !FrostLib, !BitcoinLaws}.

(** C37.  The UTXO tree implements a finite map from outpoints to UTXOs: while the
    database answers and the outpoints are well-formed, any
    sequence of [store_utxos], [remove_utxo] and [reset_utxos] succeeds and
    leaves the map that the same sequence of abstract updates leaves (a store
    never overwrites an outpoint that is present), as seen through
    [get_utxo] and [get_all_utxos]. *)
Theorem utxo_ops_refine_map d m ops op :
  utxo_view d m → io d = [] → Forall utxo_op_wf ops → outpoint_wf op →
  ∃ d' us, forM ops run_utxo_op d = (d', Ok tt) ∧
    get_utxo op d' = (d', Ok (foldl abs_utxo_op m ops !! op)) ∧
    get_all_utxos d' = (d', Ok us) ∧ us ≡ₚ (map_to_list (foldl abs_utxo_op m ops)).*2.
Proof.
  intros Hv Hio Hops Hop.
  destruct (run_utxo_ops_sim utxo_view d m ops Hv Hio Hops) as (d' & Hrun & Hv' & Hio' & _).
  destruct (store_all d' _ Hv' Hio') as (us & Hus & Hp).
  exists d', us. split; [done|]. split; [by apply store_get|done].
Qed.

(** [store_utxos] is all or nothing under every schedule of sled errors:
    when it returns [Ok] every UTXO with a free outpoint is stored, when it
    does not the set is as it was. *)
Theorem store_utxos_all_or_nothing d m us d' r :
  utxo_view d m → Forall (λ u, outpoint_wf (utxo_outpoint u)) us →
  store_utxos us d = (d', r) →
  match r with
  | Ok _ => utxo_view d' (foldl insert_absent m us)
  | _ => utxo_view d' m
  end.
Proof.
  intros Hv Hus Hs. destruct r as [b|e|].
  - by eapply store_utxos_success.
  - by eapply (store_atomic d m us Hv d' (Err e) Hs).
  - by eapply (store_atomic d m us Hv d' Panic Hs).
Qed.

(** [update_utxo_merkle_root] stores a root that depends on the set of
    outpoints only: two servers whose UTXO sets hold the same outpoints, in
    whatever order and with whatever values, store the same root. *)
Theorem utxo_root_determined d1 d2 m1 m2 :
  utxo_view d1 m1 → utxo_view d2 m2 → io d1 = [] → io d2 = [] →
  dom m1 = dom m2 → m1 ≠ ∅ →
  ∃ r, update_utxo_merkle_root d1 = (set_utxo_root (Some r) d1, Ok tt) ∧
    update_utxo_merkle_root d2 = (set_utxo_root (Some r) d2, Ok tt).
Proof.
  intros Hv1 Hv2 Hio1 Hio2 Hdom Hne.
  destruct (update_utxo_root_view d1 m1) as (r1 & Hr1 & Hu1); [done..|].
  destruct (update_utxo_root_view d2 m2) as (r2 & Hr2 & Hu2); [done..| |].
  { intros ->. apply Hne. apply dom_empty_inv_L. by rewrite Hdom, dom_empty_L. }
  rewrite Hdom in Hr1. assert (r1 = r2) as -> by congruence. eauto.
Qed.

(** [prune_finalized_pegout_ids] forgets exactly the pegouts whose
    timestamp is older than 90 days, stamps those without a timestamp with the
    current time and keeps the others as they are; it changes no other tree,
    and pruning again at the same time changes nothing. *)
Theorem prune_finalized_spec now d :
  finalized_keyed d → io d = [] → 0 ≤ now →
  ∃ t, prune_finalized_pegout_ids now d = (set_finalized_pegout_ids t d, Ok tt) ∧
    (∀ id, t !! as_bytes id =
      match finalized_pegout_ids d !! as_bytes id with
      | Some f =>
          match fp_timestamp f with
          | Some ts => if ts <? Z.max 0 (now - 90 * 86400) then None else Some f
          | None => Some (mkFinalizedPegout (fp_id f) (fp_block_number f) (Some now))
          end
      | None => None
      end) ∧
    prune_finalized_pegout_ids now (set_finalized_pegout_ids t d) =
      (set_finalized_pegout_ids t d, Ok tt).
Proof.
  intros Hk Hio Hnow. unfold prune_finalized_pegout_ids.
  destruct (Z.ltb_spec now 0) as [|_]; [lia|].
  set (cutoff := saturating_sub now RETENTION_WINDOW_SECONDS).
  assert (cutoff = Z.max 0 (now - 90 * 86400)) as Hc
    by (unfold cutoff, saturating_sub, RETENTION_WINDOW_SECONDS; lia).
  set (t := foldl (prune_entry now cutoff) (finalized_pegout_ids d)
              (tree_values (finalized_pegout_ids d))).
  pose proof (λ k, prune_tree_lookup now cutoff (finalized_pegout_ids d) k Hk) as Ht.
  fold t in Ht. exists t. split; [|split].
  - unfold bindM, get_finalized_pegout_ids. rewrite sled_read_ok by done.
    by rewrite transaction_ok.
  - intros id. rewrite Ht, <-Hc. by destruct (finalized_pegout_ids d !! as_bytes id).
  - assert (map_Forall (λ k f, k = fp_key f) t) as Hkt.
    { intros k f Hf. rewrite Ht in Hf. destruct (finalized_pegout_ids d !! k) as [g|] eqn:E;
        [|done]. cbn in Hf. apply Hk in E. unfold prune_value in Hf. subst k.
      destruct (fp_timestamp g); [|by injection Hf as <-].
      destruct (_ <? _); [done|]. by injection Hf as <-. }
    unfold bindM, get_finalized_pegout_ids. rewrite sled_read_ok by done.
    rewrite transaction_ok by done. cbn [finalized_pegout_ids set_finalized_pegout_ids].
    f_equal. enough (foldl (prune_entry now cutoff) t (tree_values t) = t) as -> by done.
    apply map_eq. intros k. rewrite prune_tree_lookup by done.
    rewrite Ht. destruct (finalized_pegout_ids d !! k) as [g|]; [|done].
    cbn [mbind option_bind]. unfold prune_value at 2. unfold prune_value.
    destruct (fp_timestamp g) as [ts|] eqn:Ets; cbn [mbind option_bind fp_timestamp].
    + destruct (ts <? cutoff) eqn:E; [done|]. cbn [mbind option_bind]. by rewrite Ets, E.
    + destruct (Z.ltb_spec now cutoff) as [Hlt|_]; [|done]. lia.
Qed.

(** [coord_pending_pegouts] hands the coordinator the oldest requests: a
    list sorted by Botanix height of at most [max] of the pending requests,
    all of them when there are fewer, such that no request it leaves out is
    older than one it returns. *)
Theorem coord_pending_pegouts_oldest max d :
  io d = [] →
  ∃ taken left, coord_pending_pegouts max d = (d, Ok taken) ∧
    taken ++ left ≡ₚ tree_values (pending_pegouts d) ∧
    length taken = Nat.min max (size (pending_pegouts d)) ∧
    StronglySorted (λ a b, (pr_botanix_height a <=? pr_botanix_height b) = true) taken ∧
    (∀ a b, a ∈ taken → b ∈ left → pr_botanix_height a ≤ pr_botanix_height b).
Proof.
  intros Hio.
  set (le := λ a b, pr_botanix_height a <=? pr_botanix_height b).
  set (l := sort_by le (tree_values (pending_pegouts d))).
  assert (length l = size (pending_pegouts d)) as Hlen.
  { unfold l. rewrite sort_by_length. unfold tree_values.
    rewrite length_fmap, tree_iter_perm. apply length_map_to_list. }
  pose proof (height_sorted (tree_values (pending_pegouts d))) as Hs. fold le l in Hs.
  exists (take max l), (drop max l). split_and!.
  - unfold coord_pending_pegouts, get_pending_pegouts, bindM. rewrite sled_read_ok by done.
    fold le l. destruct (Nat.ltb_spec (length l) max); [|done]. rewrite take_ge by lia. done.
  - rewrite take_drop. apply sort_by_perm.
  - by rewrite length_take, Hlen.
  - rewrite <-(take_drop max l) in Hs. by apply StronglySorted_app_1_l in Hs.
  - intros a b Ha Hb. pose proof (sorted_app_take _ _ _ _ _ Hs Ha Hb) as Hab. simpl in Hab. lia.
Qed.

(** [get_session_ids], asked for [n] sessions of a store that holds at
    least [n], returns [n - 1] of them: the counter is incremented and
    compared before the session is pushed. *)
Theorem get_session_ids_one_short n d :
  io d = [] → map_Forall (λ k _, length k = 32%nat) (psbts d) →
  (1 ≤ n ≤ size (psbts d))%nat →
  ∃ ids, get_session_ids (Z.of_nat n) d = (d, Ok ids) ∧ length ids = (n - 1)%nat.
Proof.
  intros Hio Hk Hn. exists (take (n - 1) (tree_keys (psbts d))).
  assert (length (tree_keys (psbts d)) = size (psbts d)) as Hlen.
  { unfold tree_keys. rewrite length_fmap, tree_iter_perm. apply length_map_to_list. }
  split; [|rewrite length_take; lia].
  unfold get_session_ids, bindM. rewrite sled_read_ok by done. unfold lift.
  rewrite session_ids_loop_spec.
  - destruct (Z.leb_spec (Z.of_nat n) 0); [lia|]. do 2 f_equal. simpl. f_equal. lia.
  - apply Forall_forall. intros k Hk'. unfold tree_keys in Hk'.
    apply list_elem_of_fmap in Hk' as ([k' p] & -> & Hp%elem_of_tree_iter). by apply Hk in Hp.
Qed.

(** The migration as one case analysis. *)
Lemma migrate_legacy_eq d :
  io d = [] → migrate_legacy_key_package d =
    match key_packages d !! multisig_key LEGACY_MULTISIG_ID,
          pubkey_packages d !! multisig_key LEGACY_MULTISIG_ID with
    | Some _, Some _ => (d, Ok false)
    | _, _ => match legacy_key_package d, legacy_pubkey_package d with
              | Some k, Some pk =>
                  (set_pubkey_packages (<[multisig_key LEGACY_MULTISIG_ID := pk]> (pubkey_packages d))
                    (set_key_packages (<[multisig_key LEGACY_MULTISIG_ID := k]> (key_packages d)) d),
                   Ok true)
              | _, _ => (d, Ok false)
              end
    end.
Proof.
  intros Hio. unfold migrate_legacy_key_package, bindM, get_key_package_by_id,
    get_public_key_package_by_id, get_legacy_key_package, get_legacy_public_key_package,
    set_key_package_by_id, set_pubkey_package_by_id.
  rewrite sled_read_ok by done.
  destruct (key_packages d !! _); [rewrite sled_read_ok by done;
    destruct (pubkey_packages d !! _)|]; unfold ret; cbn -[sled_read sled_write]; try done;
  rewrite !sled_read_ok by done; destruct (legacy_key_package d), (legacy_pubkey_package d);
  try done; by rewrite !sled_write_ok.
Qed.

(** [migrate_legacy_key_package] copies the key packages of the legacy
    federation under multisig id 0 exactly when both exist and the new slots
    are not both filled, reports whether it did, never touches the legacy
    slots, and a second run does nothing. *)
Theorem migrate_legacy_spec d :
  io d = [] →
  ∃ d' b, migrate_legacy_key_package d = (d', Ok b) ∧
    legacy_key_package d' = legacy_key_package d ∧
    legacy_pubkey_package d' = legacy_pubkey_package d ∧
    (b = true ↔ (is_Some (legacy_key_package d) ∧ is_Some (legacy_pubkey_package d)) ∧
       ¬ (is_Some (key_packages d !! multisig_key LEGACY_MULTISIG_ID) ∧
          is_Some (pubkey_packages d !! multisig_key LEGACY_MULTISIG_ID))) ∧
    (b = true →
       key_packages d' !! multisig_key LEGACY_MULTISIG_ID = legacy_key_package d ∧
       pubkey_packages d' !! multisig_key LEGACY_MULTISIG_ID = legacy_pubkey_package d) ∧
    (b = false → d' = d) ∧
    migrate_legacy_key_package d' = (d', Ok false).
Proof.
  intros Hio.
  rewrite (migrate_legacy_eq d Hio).
  destruct (key_packages d !! _) as [k0|] eqn:Ek, (pubkey_packages d !! _) as [p0|] eqn:Ep;
    destruct (legacy_key_package d) as [k|] eqn:Elk, (legacy_pubkey_package d) as [p|] eqn:Elp;
    (eexists _, _; split; [reflexivity|]); rewrite migrate_legacy_eq by done;
    cbn [legacy_key_package legacy_pubkey_package key_packages pubkey_packages
         set_key_packages set_pubkey_packages];
    rewrite ?Ek, ?Ep, ?Elk, ?Elp, ?lookup_insert_eq;
    (split_and!; [done..|unfold is_Some; naive_solver|naive_solver|naive_solver|done]).
Qed.

(** A key package exported under a passphrase and imported with it
    installs the same pair of packages under the target id. *)
Theorem export_import_roundtrip `{!AeadLib, !AeadLaws} m m' passphrase iv d1 d2 k pk :
  io d1 = [] → io d2 = [] →
  key_packages d1 !! multisig_key m = Some k → pubkey_packages d1 !! multisig_key m = Some pk →
  ∃ e d2', export_key_package_by_id m passphrase iv d1 = (d1, Ok (Some e)) ∧
    import_key_package_by_id m' passphrase e d2 = (d2', Ok tt) ∧
    get_key_package_by_id m' d2' = (d2', Ok (Some k)) ∧
    get_public_key_package_by_id m' d2' = (d2', Ok (Some pk)).
Proof.
  intros Hio1 Hio2 Hk Hpk.
  unfold export_key_package_by_id, import_key_package_by_id, get_key_package_by_id,
    get_public_key_package_by_id, set_key_package_by_id, set_pubkey_package_by_id, bindM.
  rewrite sled_read_ok, Hk by done. rewrite sled_read_ok, Hpk by done.
  destruct (challenges iv passphrase) as [m1 m2] eqn:Ec.
  eexists _, _. split; [reflexivity|]. cbn [exp_version exp_iv exp_enc_key_package exp_enc_pk_package].
  rewrite Ec. simpl negb. cbn match. rewrite !decrypt_encrypt. cbn [ok_or lift].
  rewrite key_package_roundtrip, pk_package_roundtrip. cbn [ok_or lift].
  unfold lift. rewrite Z.eqb_refl. cbn [negb]. rewrite !sled_write_ok by done.
  split; [reflexivity|]. rewrite !sled_read_ok by done. simpl.
  by rewrite !lookup_insert_eq.
Qed.

(** The stream of finalized pegouts delivers every entry exactly once and
    in key order: its messages carry the numbers 0, 1, ... and the announced
    total is the number of messages; each holds between one and [chunk_size]
    entries.  A chunk size of zero panics. *)
Theorem finalized_stream_complete n d :
  io d = [] →
  match n with
  | O => get_finalized_pegout_ids_stream n d = (d, Panic)
  | S _ => ∃ msgs, get_finalized_pegout_ids_stream n d = (d, Ok msgs) ∧
      concat (map (λ m, m.1.1) msgs) = tree_values (finalized_pegout_ids d) ∧
      (∀ i m, msgs !! i = Some m → m.1.2 = Z.of_nat i ∧ m.2 = Z.of_nat (length msgs) ∧
        (1 ≤ length m.1.1 ≤ n)%nat)
  end.
Proof.
  intros Hio. destruct n as [|n]; [done|].
  set (ks := tree_keys (finalized_pegout_ids d)).
  assert (∀ k, k ∈ ks → is_Some (finalized_pegout_ids d !! k)) as Hks.
  { intros k Hk. unfold ks, tree_keys in Hk.
    apply list_elem_of_fmap in Hk as ([k' p] & -> & Hp%elem_of_tree_iter). eauto. }
  destruct (chunks_of_spec (length ks) (S n) ks) as (Hc & Hlen & HF); [lia|lia|].
  assert (∀ c k, c ∈ chunks (S n) ks → k ∈ c → is_Some (finalized_pegout_ids d !! k)) as Hcs.
  { intros c k Hcc Hk. apply Hks. rewrite <-Hc. apply list_elem_of_In, in_concat.
    exists c. split; by apply list_elem_of_In. }
  unfold get_finalized_pegout_ids_stream, peek_finalized_pegout_ids, bindM, gets.
  cbn [Nat.eqb]. rewrite sled_read_ok by done. fold ks.
  rewrite stream_chunks_ok; [|done|done|eapply Forall_impl; [exact HF|]; naive_solver].
  eexists. split; [reflexivity|].
  assert (length (tree_iter (finalized_pegout_ids d)) = length ks) as ->
    by (unfold ks, tree_keys; by rewrite length_fmap).
  split.
  - rewrite <-(omap_keys_values (finalized_pegout_ids d)). fold ks. rewrite <-Hc at 2.
    rewrite <-omap_concat. f_equal. fold (chunks (S n) ks).
    change (map ?f (imap ?g ?l)) with (f <$> imap g l).
    rewrite fmap_imap. apply (imap_const (omap (λ k, finalized_pegout_ids d !! k))).
  - intros i m Hi. rewrite list_lookup_imap in Hi.
    destruct (chunks (S n) ks !! i) as [c|] eqn:Ec; simplify_eq/=. split; [done|].
    rewrite length_imap. unfold chunks. rewrite Hlen. split; [done|].
    apply list_elem_of_lookup_2 in Ec as Hin. rewrite omap_lookup_length by (intros; by eapply Hcs).
    rewrite Forall_forall in HF. destruct (HF c Hin) as [Hne Hle]. destruct c; [done|]. simpl in *. lia.
Qed.

End properties.

(** ** Witnesses *)

Lemma utxo_ops_refine_map_witness :
  utxo_view Db_empty ∅ ∧
  ∃ d' us, forM [OpStore [toy_utxo 1 1000; toy_utxo 2 2000]; OpRemove (toy_outpoint 1)]
             run_utxo_op Db_empty = (d', Ok tt) ∧
    get_utxo (toy_outpoint 2) d' = (d', Ok (Some (toy_utxo 2 2000))) ∧
    get_all_utxos d' = (d', Ok us) ∧ length us = 1%nat.
Proof.
  split; [by apply utxo_view_empty|].
  destruct (utxo_ops_refine_map Db_empty ∅
    [OpStore [toy_utxo 1 1000; toy_utxo 2 2000]; OpRemove (toy_outpoint 1)] (toy_outpoint 2))
    as (d' & us & Hrun & Hget & Hall & Hp).
  - by apply utxo_view_empty.
  - reflexivity.
  - toy_wf.
  - toy_wf.
  - exists d', us. split; [done|]. split; [exact Hget|]. split; [done|]. by rewrite Hp.
Defined.

(** The first sled call fails, and nothing is stored. *)
Lemma store_utxos_all_or_nothing_witness :
  let d := set_io [true] Db_empty in
  let us := [toy_utxo 1 1000; toy_utxo 2 2000] in
  utxo_view d ∅ ∧ (store_utxos us d).2 = Err TransactionErr ∧ utxo_view (store_utxos us d).1 ∅.
Proof.
  split; [by apply utxo_view_empty|]. split; [reflexivity|].
  apply (store_utxos_all_or_nothing (set_io [true] Db_empty) ∅
    [toy_utxo 1 1000; toy_utxo 2 2000] _ (Err TransactionErr)).
  - by apply utxo_view_empty.
  - toy_wf.
  - reflexivity.
Defined.

Definition toy_db_with_utxos (us : list Utxo) : Db :=
  (store_utxos us Db_empty).1.

Lemma toy_db_view us :
  Forall (λ u, outpoint_wf (utxo_outpoint u)) us →
  utxo_view (toy_db_with_utxos us) (foldl insert_absent ∅ us) ∧ io (toy_db_with_utxos us) = [].
Proof.
  intros Hus. destruct (store_utxos_view Db_empty ∅ us) as (d' & b & Hs & Hv & Hio & _);
    [by apply utxo_view_empty|done|done|]. unfold toy_db_with_utxos. rewrite Hs. done.
Qed.

(** The two servers learned the outpoints in different orders and with
    different values. *)
Lemma utxo_root_determined_witness :
  let d1 := toy_db_with_utxos [toy_utxo 1 1000; toy_utxo 2 2000] in
  let d2 := toy_db_with_utxos [toy_utxo 2 7; toy_utxo 1 8] in
  ∃ r, update_utxo_merkle_root d1 = (set_utxo_root (Some r) d1, Ok tt) ∧
    update_utxo_merkle_root d2 = (set_utxo_root (Some r) d2, Ok tt).
Proof.
  assert (∀ v w, Forall (λ u, outpoint_wf (utxo_outpoint u)) [toy_utxo 1 v; toy_utxo 2 w]) as Hw.
  { intros v w. toy_wf. }
  assert (∀ v w, Forall (λ u, outpoint_wf (utxo_outpoint u)) [toy_utxo 2 v; toy_utxo 1 w]) as Hw'.
  { intros v w. toy_wf. }
  destruct (toy_db_view _ (Hw 1000 2000)) as [Hv1 Hio1].
  destruct (toy_db_view _ (Hw' 7 8)) as [Hv2 Hio2].
  apply (utxo_root_determined _ _ _ _ Hv1 Hv2 Hio1 Hio2).
  - apply (bool_decide_unpack _). vm_compute. exact I.
  - apply (bool_decide_unpack _). vm_compute. exact I.
Defined.

(** Three entries at day 200: one 150 days old, one 50, one without a time. *)
Definition toy_finalized (n : Z) (ts : option Z) : FinalizedPegout :=
  mkFinalizedPegout (toy_pegout_id n) 7 ts.

Definition toy_finalized_db : Db :=
  set_finalized_pegout_ids
    (<[fp_key (toy_finalized 1 (Some (50 * 86400))) := toy_finalized 1 (Some (50 * 86400))]>
    (<[fp_key (toy_finalized 2 (Some (150 * 86400))) := toy_finalized 2 (Some (150 * 86400))]>
    (<[fp_key (toy_finalized 3 None) := toy_finalized 3 None]> ∅))) Db_empty.

Lemma toy_finalized_keyed : finalized_keyed toy_finalized_db.
Proof.
  unfold finalized_keyed. simpl. repeat (apply map_Forall_insert_2; [done|]). done.
Qed.

Lemma prune_finalized_spec_witness :
  finalized_keyed toy_finalized_db ∧ io toy_finalized_db = [] ∧
  ∃ t, prune_finalized_pegout_ids (200 * 86400) toy_finalized_db =
         (set_finalized_pegout_ids t toy_finalized_db, Ok tt) ∧
    t !! as_bytes (toy_pegout_id 1) = None ∧
    t !! as_bytes (toy_pegout_id 2) = Some (toy_finalized 2 (Some (150 * 86400))) ∧
    t !! as_bytes (toy_pegout_id 3) = Some (toy_finalized 3 (Some (200 * 86400))).
Proof.
  split; [apply toy_finalized_keyed|]. split; [reflexivity|].
  destruct (prune_finalized_spec (200 * 86400) toy_finalized_db) as (t & Hp & Hl & _);
    [apply toy_finalized_keyed|reflexivity|lia|].
  exists t. split; [exact Hp|]. rewrite !Hl. split_and!; vm_compute; reflexivity.
Defined.

Definition toy_pending (n height : Z) : PegoutRequest :=
  mkPegoutRequest (toy_pegout_id n) (p2wpkh n) 10000 height None.

Definition toy_pending_db : Db :=
  (store_pending_pegouts [toy_pending 1 30; toy_pending 2 10; toy_pending 3 20] Db_empty).1.

Lemma coord_pending_pegouts_oldest_witness :
  io toy_pending_db = [] ∧
  (coord_pending_pegouts 2 toy_pending_db).2 = Ok [toy_pending 2 10; toy_pending 3 20] ∧
  ∃ taken left, coord_pending_pegouts 2 toy_pending_db = (toy_pending_db, Ok taken) ∧
    taken ++ left ≡ₚ tree_values (pending_pegouts toy_pending_db).
Proof.
  split; [reflexivity|]. split; [vm_compute; reflexivity|].
  destruct (coord_pending_pegouts_oldest 2 toy_pending_db) as (t & l & Hc & Hp & _);
    [reflexivity|]. exists t, l. exact (conj Hc Hp).
Defined.

Definition toy_sessions_db : Db :=
  set_psbts (<[replicate 32 1 := mkPsbt (mkTransaction 2 0 [] []) [] []]>
            (<[replicate 32 2 := mkPsbt (mkTransaction 2 0 [] []) [] []]> ∅)) Db_empty.

(** Asked for two sessions of two, the store returns one. *)
Lemma get_session_ids_one_short_witness :
  ∃ ids, get_session_ids 2 toy_sessions_db = (toy_sessions_db, Ok ids) ∧ length ids = 1%nat.
Proof.
  apply (get_session_ids_one_short 2 toy_sessions_db).
  - reflexivity.
  - simpl. repeat (apply map_Forall_insert_2; [done|]). done.
  - vm_compute. lia.
Defined.

Definition toy_legacy_db : Db :=
  set_legacy_key_package (Some [1]) (set_legacy_pubkey_package (Some [2]) Db_empty).

Lemma migrate_legacy_spec_witness :
  io toy_legacy_db = [] ∧ ∃ d', migrate_legacy_key_package toy_legacy_db = (d', Ok true) ∧
    key_packages d' !! multisig_key LEGACY_MULTISIG_ID = Some [1] ∧
    pubkey_packages d' !! multisig_key LEGACY_MULTISIG_ID = Some [2].
Proof.
  split; [reflexivity|].
  destruct (migrate_legacy_spec toy_legacy_db) as (d' & b & Hm & _ & _ & Hb & Ht & _); [reflexivity|].
  assert (b = true) as -> by (apply Hb; vm_compute; split; [eauto|by intros [[? ?] _]]).
  exists d'. split; [exact Hm|]. exact (Ht eq_refl).
Defined.

(** A cipher that prefixes the key and the nonce, with identity codecs. *)
#[local] Instance toy_aead : AeadLib := {
  challenges iv p := (1 :: iv ++ p, 2 :: iv ++ p);
  encrypt key nonce b := key ++ nonce ++ b;
  decrypt key nonce b :=
    if decide (take (length (key ++ nonce)) b = key ++ nonce)
    then Some (drop (length (key ++ nonce)) b) else None;
  encode_key_package k := k;
  decode_key_package b := Some b;
  encode_pk_package k := k;
  decode_pk_package b := Some b }.

#[local] Instance toy_aead_laws : AeadLaws.
Proof.
  split; [|done..]. intros key nonce b. simpl. rewrite app_assoc.
  rewrite take_app_length, drop_app_length. by rewrite decide_True.
Qed.

Definition toy_keys_db : Db :=
  set_key_packages (<[multisig_key (mkMultisigId 3) := [1]]> ∅)
    (set_pubkey_packages (<[multisig_key (mkMultisigId 3) := [2]]> ∅) Db_empty).

Lemma export_import_roundtrip_witness :
  ∃ e d', export_key_package_by_id (mkMultisigId 3) [9] [8] toy_keys_db =
      (toy_keys_db, Ok (Some e)) ∧
    import_key_package_by_id (mkMultisigId 5) [9] e Db_empty = (d', Ok tt) ∧
    get_key_package_by_id (mkMultisigId 5) d' = (d', Ok (Some [1])) ∧
    get_public_key_package_by_id (mkMultisigId 5) d' = (d', Ok (Some [2])).
Proof.
  apply (export_import_roundtrip (mkMultisigId 3) (mkMultisigId 5) [9] [8] toy_keys_db Db_empty
           [1] [2]); vm_compute; reflexivity.
Defined.

Lemma finalized_stream_complete_witness :
  io toy_finalized_db = [] ∧
  ∃ msgs, get_finalized_pegout_ids_stream 2 toy_finalized_db = (toy_finalized_db, Ok msgs) ∧
    concat (map (λ m, m.1.1) msgs) =
      [toy_finalized 1 (Some (50 * 86400)); toy_finalized 2 (Some (150 * 86400));
       toy_finalized 3 None].
Proof.
  split; [reflexivity|].
  destruct (finalized_stream_complete 2 toy_finalized_db) as (msgs & Hs & Hc & _); [reflexivity|].
  exists msgs. split; [exact Hs|]. etrans; [exact Hc|]. vm_compute. reflexivity.
Defined.
