(* ===== verification/Merkle.v ===== *)
(** * The wallet state commitment

    src/bin/botanix-btc-server/src/merkle.rs: the roots that the server
    reports and the commitment to the whole wallet state, over the roots that
    the database keeps. *)

From S2P Require Import Prelude Bytes Bitcoin Psbt Types Concrete Database.

Open Scope Z_scope.

Section merkle.
Context `{!BitcoinLib, !FrostLib}.

(** [vec![0u8; 32]], reported while no root is stored *)
Definition ZERO_ROOT : bytes := replicate 32 0.

Definition get_finalized_pegout_ids_merkle_root_or_zero : M Db DbError bytes :=
  let! root := get_finalized_pegout_ids_merkle_root in
  ret (default ZERO_ROOT root).

Definition get_utxo_set_merkle_root : M Db DbError bytes :=
  let! root := get_utxo_merkle_root in
  ret (default ZERO_ROOT root).

Definition get_tracked_tx_set_merkle_root : M Db DbError bytes :=
  let! root := get_tracked_tx_merkle_root in
  ret (default ZERO_ROOT root).

Definition get_pending_pegouts_set_merkle_root : M Db DbError bytes :=
  let! root := get_pending_pegouts_merkle_root in
  ret (default ZERO_ROOT root).

Record WalletState := mkWalletState {
  ws_utxo_root : bytes;
  ws_tracked_tx_root : bytes;
  ws_pending_pegouts_root : bytes;
  ws_wallet_state_commitment : bytes }.

(** Writing to the hash engine appends and cannot fail. *)
Definition get_wallet_state_commitment : M Db DbError WalletState :=
  let! utxo_root := get_utxo_set_merkle_root in
  let! tracked_tx_root := get_tracked_tx_set_merkle_root in
  let! pending_pegouts_root := get_pending_pegouts_set_merkle_root in
  let hash := sha256 (utxo_root ++ tracked_tx_root ++ pending_pegouts_root) in
  ret (mkWalletState utxo_root tracked_tx_root pending_pegouts_root hash).

(** Recomputing the three roots, as the server does after its writes. *)
Definition refresh_roots : M Db DbError unit :=
  update_utxo_merkle_root ;!
  update_tracked_tx_merkle_root ;!
  update_pending_pegouts_merkle_root.

(** ** The roots after a refresh *)

(** A stored root after it was updated for the entries [l]. *)
Definition updated_root (old : option bytes) (l : list bytes) : option bytes :=
  match l with [] => old | _ => calculate_root (merkle_leaves l) end.

Context `{!BitcoinLaws}.

Lemma updated_root_perm old l l' : l ≡ₚ l' → updated_root old l = updated_root old l'.
Proof.
  intros Hp. destruct l as [|x l], l' as [|x' l']; [done| | |].
  - by apply Permutation_nil_l in Hp.
  - by apply Permutation_nil_r in Hp.
  - unfold updated_root. by rewrite (merkle_leaves_perm _ _ Hp).
Qed.

(** The common shape of the three updates. *)
Lemma update_root_run {A} (read : M Db DbError (list A)) (leaf : A → bytes)
    (upd : option bytes → Db → Db) (cur : Db → option bytes) d l :
  read d = (d, Ok l) → io d = [] → upd (cur d) d = d →
  (let! xs := read in
   if bool_decide (xs = []) then ret tt else
   let! root := lift (root_of (map leaf xs)) in
   sled_write (upd (Some root))) d =
  (upd (updated_root (cur d) (map leaf l)) d, Ok tt).
Proof.
  intros Hr Hio Hu. unfold bindM. rewrite Hr. destruct l as [|x l].
  - rewrite bool_decide_true by done. simpl. by rewrite Hu.
  - rewrite bool_decide_false by done. unfold lift.
    destruct (root_of_Ok (map leaf (x :: l))) as [r Hroot]; [done|]. rewrite Hroot.
    rewrite sled_write_ok by done. unfold root_of in Hroot. apply ok_or_Ok in Hroot.
    cbn [map updated_root] in *. by rewrite Hroot.
Qed.

Definition tracked_leaves (d : Db) : list bytes :=
  map (λ t, encode_txid (tx_txid t)) (tree_values (tracked_txs d)).

Definition pending_leaves (d : Db) : list bytes :=
  map (λ r, as_bytes (pr_id r)) (tree_values (pending_pegouts d)).

Lemma refresh_roots_run d m :
  utxo_view d m → io d = [] →
  refresh_roots d =
  (set_pending_pegouts_root (updated_root (pending_pegouts_root d) (pending_leaves d))
    (set_tracked_tx_root (updated_root (tracked_tx_root d) (tracked_leaves d))
      (set_utxo_root (updated_root (utxo_root d) (map encode_outpoint (elements (dom m)))) d)),
   Ok tt).
Proof.
  intros Hv Hio. destruct (iter_utxos_view d m Hv Hio) as (us & Hus & Hp).
  unfold refresh_roots. unfold bindM at 1.
  pose proof (update_root_run iter_utxos (λ u, encode_outpoint (utxo_outpoint u)) set_utxo_root
    utxo_root d us Hus Hio ltac:(by destruct d)) as H1'.
  rewrite (updated_root_perm _ _ (map encode_outpoint (elements (dom m)))) in H1'.
  2: { rewrite <-(map_map utxo_outpoint encode_outpoint). apply fmap_Permutation.
       by eapply view_outpoints_perm. }
  unfold update_utxo_merkle_root. rewrite H1'. unfold bindM at 1.
  unfold update_tracked_tx_merkle_root. rewrite (update_root_run get_tracked_txs _
    set_tracked_tx_root tracked_tx_root _ (tree_values (tracked_txs d)));
    [|unfold get_tracked_txs; by rewrite sled_read_ok|done..].
  unfold update_pending_pegouts_merkle_root. rewrite (update_root_run get_pending_pegouts _
    set_pending_pegouts_root pending_pegouts_root _ (tree_values (pending_pegouts d)));
    [|unfold get_pending_pegouts; by rewrite sled_read_ok|done..].
  reflexivity.
Qed.

Lemma tree_values_nil {V} (t : gmap bytes V) : tree_values t = [] → t = ∅.
Proof.
  intros Ht. apply map_to_list_empty_iff, length_zero_iff_nil.
  rewrite <-(Permutation_length (tree_iter_perm t)). apply fmap_nil_inv in Ht. by rewrite Ht.
Qed.

(** Entries are stored under the key their data gives. *)
Definition tracked_keyed (d : Db) : Prop := map_Forall (λ k t, k = tx_txid t) (tracked_txs d).

Definition pending_keyed (d : Db) : Prop :=
  map_Forall (λ k r, k = as_bytes (pr_id r)) (pending_pegouts d).

Lemma keyed_values_perm {V W} (f : V → bytes) (g : W → bytes) (t : gmap bytes V) (t' : gmap bytes W) :
  map_Forall (λ k v, k = f v) t → map_Forall (λ k v, k = g v) t' → dom t = dom t' →
  map f (tree_values t) ≡ₚ map g (tree_values t').
Proof.
  assert (∀ X (h : X → bytes) (s : gmap bytes X), map_Forall (λ k v, k = h v) s →
    map h (tree_values s) ≡ₚ elements (dom s)) as Hk.
  { intros X h s Hs. unfold tree_values. change (map h) with (fmap (M:=list) h).
    rewrite <-list_fmap_compose.
    assert ((h ∘ snd) <$> tree_iter s = (tree_iter s).*1) as ->.
    { apply list_fmap_ext. intros i [k v] Hi. simpl. symmetry. apply Hs.
      apply elem_of_tree_iter. by eapply list_elem_of_lookup_2. }
    rewrite tree_iter_perm. apply NoDup_Permutation;
      [apply NoDup_fst_map_to_list|apply NoDup_elements|].
    intros k. rewrite elem_of_elements, elem_of_dom, list_elem_of_fmap. split.
    - intros ([k' v] & -> & Hv%elem_of_map_to_list). eauto.
    - intros [v Hv]. exists (k, v). by rewrite elem_of_map_to_list. }
  intros Ht Ht' Hd. rewrite (Hk _ f t Ht), (Hk _ g t' Ht'), Hd. done.
Qed.

Lemma commitment_run d :
  io d = [] →
  get_wallet_state_commitment d =
  (d, Ok (let u := default ZERO_ROOT (utxo_root d) in
          let t := default ZERO_ROOT (tracked_tx_root d) in
          let p := default ZERO_ROOT (pending_pegouts_root d) in
          mkWalletState u t p (sha256 (u ++ t ++ p)))).
Proof.
  intros Hio. unfold get_wallet_state_commitment, get_utxo_set_merkle_root,
    get_tracked_tx_set_merkle_root, get_pending_pegouts_set_merkle_root,
    get_utxo_merkle_root, get_tracked_tx_merkle_root, get_pending_pegouts_merkle_root, bindM.
  repeat (rewrite sled_read_ok by done; unfold ret). reflexivity.
Qed.

(** Two servers that hold the same outpoints, the same tracked
    transaction ids and the same pending pegout ids, and that agree on the
    root of a set that is empty, report the same wallet state after
    recomputing their roots: order of arrival, values and the other trees do
    not matter. *)
Theorem wallet_commitment_determined d1 d2 m1 m2 :
  utxo_view d1 m1 → utxo_view d2 m2 → io d1 = [] → io d2 = [] →
  tracked_keyed d1 → tracked_keyed d2 → pending_keyed d1 → pending_keyed d2 →
  dom m1 = dom m2 → dom (tracked_txs d1) = dom (tracked_txs d2) →
  dom (pending_pegouts d1) = dom (pending_pegouts d2) →
  (m1 = ∅ → utxo_root d1 = utxo_root d2) →
  (tracked_txs d1 = ∅ → tracked_tx_root d1 = tracked_tx_root d2) →
  (pending_pegouts d1 = ∅ → pending_pegouts_root d1 = pending_pegouts_root d2) →
  ∃ d1' d2' w, (refresh_roots ;! get_wallet_state_commitment) d1 = (d1', Ok w) ∧
    (refresh_roots ;! get_wallet_state_commitment) d2 = (d2', Ok w).
Proof.
  intros Hv1 Hv2 Hio1 Hio2 Ht1 Ht2 Hp1 Hp2 Hdm Hdt Hdp Hem Het Hep.
  unfold bindM. rewrite (refresh_roots_run d1 m1), (refresh_roots_run d2 m2) by done.
  rewrite !commitment_run by done.
  cbn [utxo_root tracked_tx_root pending_pegouts_root set_utxo_root set_tracked_tx_root
       set_pending_pegouts_root].
  assert (∀ o1 o2 l1 l2, l1 ≡ₚ l2 → (l1 = [] → o1 = o2) → updated_root o1 l1 = updated_root o2 l2)
    as Hroot.
  { intros o1 o2 l1 l2 Hp He. rewrite (updated_root_perm _ _ _ Hp).
    destruct l2; [|done]. simpl. apply He. by apply Permutation_nil_r in Hp. }
  rewrite (Hroot (utxo_root d1) (utxo_root d2) _ (map encode_outpoint (elements (dom m2)))).
  - rewrite (Hroot (tracked_tx_root d1) (tracked_tx_root d2) _ (tracked_leaves d2)).
    + rewrite (Hroot (pending_pegouts_root d1) (pending_pegouts_root d2) _ (pending_leaves d2));
        [by eexists _, _, _|..].
      * by apply keyed_values_perm.
      * intros He. apply Hep. unfold pending_leaves in He.
        apply map_eq_nil in He. by apply tree_values_nil.
    + unfold tracked_leaves. rewrite <-!(map_map tx_txid encode_txid).
      apply fmap_Permutation. by apply keyed_values_perm.
    + intros He. apply Het. unfold tracked_leaves in He.
      apply map_eq_nil in He. by apply tree_values_nil.
  - by rewrite Hdm.
  - intros He. apply Hem. apply map_eq_nil, elements_empty_inv in He.
    by apply dom_empty_inv_L, leibniz_equiv.
Qed.

End merkle.

(** ** Concrete wallets *)

Definition toy_tx_tracked (n : Z) : Tx :=
  mkTx (replicate 32 n) (mkTransaction 2 0 [] []) [] [] [] 0.

Definition toy_wallet_db (us : list Utxo) (txs : list Tx) (rs : list PegoutRequest) : Db :=
  ((store_utxos us ;! store_tracked_txs txs ;! store_pending_pegouts rs) Db_empty).1.

(** The same wallet, filled in two orders and with different values. *)
Lemma wallet_commitment_determined_witness :
  let d1 := toy_wallet_db [toy_utxo 1 10; toy_utxo 2 20] [toy_tx_tracked 5] [toy_pending 7 1] in
  let d2 := toy_wallet_db [toy_utxo 2 30; toy_utxo 1 40] [toy_tx_tracked 5] [toy_pending 7 9] in
  ∃ d1' d2' w, (refresh_roots ;! get_wallet_state_commitment) d1 = (d1', Ok w) ∧
    (refresh_roots ;! get_wallet_state_commitment) d2 = (d2', Ok w).
Proof.
  refine (wallet_commitment_determined _ _
    (foldl insert_absent ∅ [toy_utxo 1 10; toy_utxo 2 20])
    (foldl insert_absent ∅ [toy_utxo 2 30; toy_utxo 1 40]) _ _ _ _ _ _ _ _ _ _ _ _ _ _).
  - eapply utxo_view_ext; [|apply (toy_db_view [toy_utxo 1 10; toy_utxo 2 20]); toy_wf].
    reflexivity.
  - eapply utxo_view_ext; [|apply (toy_db_view [toy_utxo 2 30; toy_utxo 1 40]); toy_wf].
    reflexivity.
  - vm_compute. reflexivity.
  - vm_compute. reflexivity.
  - apply (bool_decide_unpack _). vm_compute. exact I.
  - apply (bool_decide_unpack _). vm_compute. exact I.
  - apply (bool_decide_unpack _). vm_compute. exact I.
  - apply (bool_decide_unpack _). vm_compute. exact I.
  - apply (bool_decide_unpack _). vm_compute. exact I.
  - apply (bool_decide_unpack _). vm_compute. exact I.
  - apply (bool_decide_unpack _). vm_compute. exact I.
  - intros He. apply (f_equal size) in He. vm_compute in He. discriminate He.
  - intros He. apply (f_equal size) in He. vm_compute in He. discriminate He.
  - intros He. apply (f_equal size) in He. vm_compute in He. discriminate He.
Defined.

(** The wallet state a server reports when it starts empty, runs [m] and
    recomputes its roots. *)
Definition state_after (m : M Db DbError unit) : outcome DbError WalletState :=
  ((m ;! refresh_roots ;! get_wallet_state_commitment) Db_empty).2.

(** A set that becomes empty keeps its last root: a server that stored a
    UTXO, recomputed its roots and spent it reports another wallet state than
    a fresh server with the same (empty) sets, however often the roots are
    recomputed. *)
Theorem emptied_set_keeps_stale_root :
  let history := store_utxos [toy_utxo 1 10] ;! refresh_roots ;! remove_utxo (toy_outpoint 1) in
  utxos (history Db_empty).1 = utxos Db_empty ∧
  tracked_txs (history Db_empty).1 = tracked_txs Db_empty ∧
  pending_pegouts (history Db_empty).1 = pending_pegouts Db_empty ∧
  state_after history ≠ state_after (ret tt).
Proof.
  split; [vm_compute; reflexivity|]. split; [vm_compute; reflexivity|].
  split; [vm_compute; reflexivity|]. vm_compute. discriminate.
Qed.
