(* ===== verification/Util.v ===== *)
(** * Validation of PSBTs

    src/bin/botanix-btc-server/src/util.rs: the retry loop, the flags and
    checks that a PSBT goes through at each stage of a signing session, the
    conflicting-input rule that makes a retried pegout double-spend-proof, and
    the UTXOs that are free to be spent. *)

From S2P Require Import Prelude Bytes Bitcoin Psbt Types Concrete Database.

Open Scope Z_scope.

(** ** Retrying *)

(** [fut i] is the result of the [i]-th call; [rest] is what is left of
    [max_retries].  The delay between the calls has no effect. *)
Fixpoint retry_from {E T} (fut : nat → outcome E T) (i rest : nat) : outcome E T :=
  match fut i with
  | Ok t => Ok t
  | Err e => match rest with
             | O => Err e
             | S rest' => retry_from fut (S i) rest'
             end
  | Panic => Panic
  end.

Definition retry_exec {E T} (fut : nat → outcome E T) (max_retries : nat) : outcome E T :=
  retry_from fut 0 max_retries.

(** ** Flags *)

Definition NO_FLAGS : Z := 0.
Definition ROUND1 : Z := 1.
Definition ROUND1_TRANSITION : Z := Z.lor (Z.shiftl 1 1) ROUND1.
Definition ROUND2 : Z := Z.lor (Z.shiftl 1 2) ROUND1_TRANSITION.
Definition ROUND2_TRANSITION : Z := Z.lor (Z.shiftl 1 3) ROUND1_TRANSITION.

Definition has_flag (flags flag : Z) : bool := Z.land flags flag =? flag.

Definition UPPER_PEGOUT_BOUND : nat := 100.

(** ** Errors *)

Inductive ValidateOutputsError :=
| VoDbError (e : DbError)
| VoMissingKeyPackage
| VoInvalidPegoutId
| VoMissingPsbtPegout (id : PegoutId)
| VoAlreadyFinalizedPegouts (ids : list PegoutId)
| VoPegoutIdTxHashNotFound (ids : list PegoutId)
| VoPegoutIdNotFoundInBlock (ids : list PegoutId)
| VoExpectingOnlyOneChangeOutput
| VoInvalidChangeOutput
| VoExtractTxError (e : ExtractTxError)
| VoDuplicateOutputs
| VoPegoutIdTooOld (ids : list PegoutId)
| VoOutputCountMismatch (n m : nat).

Inductive ConflictingInputError :=
| FailedToDeserializePegoutId
| FailedToGetTrackedTxs (e : DbError)
| NoConflictingInput.

Inductive ValidatePSBTError :=
| VpDbError (e : DbError)
| VpNoInputs
| VpNoOutputs
| VpPsbtError (e : PsbtError)
| VpFeeRateCalculationError
| VpFeeSanityCheck (fee total : Amount)
| VpMissingWitnessUtxo
| VpUtxoNotFound
| VpInvalidNumberOfSigningCommitments
| VpInvalidNumberOfPartialSignatures
| VpFrostIdMismatch
| VpEthTweakMismatch
| VpTxOutMismatch
| VpExtractTxError (e : ExtractTxError)
| VpInvalidOutputs (e : ValidateOutputsError)
| VpConflictingInputError (e : ConflictingInputError)
| VpNegativeFee
| VpFeeOverflow.

Section util.
Context `{!BitcoinLib, !FrostLib, !PsbtLib}.

(** [frost::Identifier::deserialize] on 32 bytes *)
Definition deserialize_frost_peer_id (id : bytes) : outcome ParsingError Identifier :=
  if decide (length id = 32%nat)
  then ok_or (identifier_deserialize id) FrostPeerId
  else Err FrostPeerId.

(** [address::generate_taproot_change_scriptpubkey] *)
Definition generate_taproot_change_scriptpubkey (public_key : bytes) : ScriptBuf :=
  new_p2tr public_key.

(** ** Outputs *)

(** The loop over the outputs: the pegout ids found so far and the index of
    the output without one. *)
Fixpoint scan_outputs (idx : nat) (outs : list PsbtOutput) (ids : list PegoutId)
    (change_output : option nat)
    : outcome ValidateOutputsError (list PegoutId * option nat) :=
  match outs with
  | [] => Ok (ids, change_output)
  | out :: outs' =>
      match pegout_id out with
      | Some id =>
          let? id := map_err (λ _, VoInvalidPegoutId) (PegoutId_from_bytes id) in
          scan_outputs (S idx) outs' (ids ++ [id]) change_output
      | None =>
          if bool_decide (is_Some change_output) then Err VoExpectingOnlyOneChangeOutput
          else scan_outputs (S idx) outs' ids (Some idx)
      end
  end.

(** The second half of [validate_outputs]: no pegout is finalized (one that is
    leaves the pending list), none appears twice, and the change output pays
    the federation. *)
Definition check_scanned (psbt : Psbt) (public_key_package : PublicKeyPackage)
    (psbt_pegout_ids : list PegoutId) (change_output : option nat)
    : M Db ValidateOutputsError unit :=
  let! finalized := map_errM VoDbError get_finalized_pegout_ids in
  let finalized_pegouts_ids := map fp_id finalized in
  forM psbt_pegout_ids (λ id,
    if contains finalized_pegouts_ids id then
      okM (remove_pending_pegout [id]) ;!
      fail (VoAlreadyFinalizedPegouts [id])
    else ret tt) ;!
  let unique_pegout_ids : gset PegoutId := list_to_set psbt_pegout_ids in
  if negb (size unique_pegout_ids =? length psbt_pegout_ids)%nat then fail VoDuplicateOutputs else
  match change_output with
  | Some idx =>
      let! agg_pk := lift (expect (to_secp_pk public_key_package)) in
      let expected_script_pubkey := generate_taproot_change_scriptpubkey agg_pk in
      let! change_output :=
        lift (ok_or (output (unsigned_tx psbt) !! idx) VoInvalidChangeOutput) in
      if negb (bool_decide (script_pubkey change_output = expected_script_pubkey))
      then fail VoInvalidChangeOutput else ret tt
  | None => ret tt
  end.

Definition validate_outputs (psbt : Psbt) : M Db ValidateOutputsError unit :=
  if negb (length (outputs psbt) =? length (output (unsigned_tx psbt)))%nat
  then fail (VoOutputCountMismatch (length (outputs psbt)) (length (output (unsigned_tx psbt))))
  else
  let! pkg := map_errM VoDbError get_public_key_package in
  let! public_key_package := lift (ok_or pkg VoMissingKeyPackage) in
  let! '(psbt_pegout_ids, change_output) := lift (scan_outputs 0 (outputs psbt) [] None) in
  check_scanned psbt public_key_package psbt_pegout_ids change_output.

(** ** Conflicting inputs *)

Definition has_conflicting_input (psbt : Psbt) : M Db ConflictingInputError unit :=
  let psbt_inputs := map previous_output (input (unsigned_tx psbt)) in
  let! ids := lift (omap_all (λ id, map_err (λ _, FailedToDeserializePegoutId)
                                      (PegoutId_from_bytes id)) (pegout_ids psbt)) in
  let pegout_ids : gset PegoutId := list_to_set ids in
  let! txs := map_errM FailedToGetTrackedTxs get_tracked_txs in
  forM txs (λ tx,
    let has_matching_pegout :=
      existsb (λ request, bool_decide (pr_id request ∈ pegout_ids)) (tx_pegout_requests tx) in
    if has_matching_pegout then
      if existsb (contains psbt_inputs) (tx_inputs tx)
      then ret tt else fail NoConflictingInput
    else ret tt).

(** ** Available UTXOs *)

Definition get_available_utxos : M Db DbError (gmap OutPoint Utxo * gset OutPoint) :=
  let! us := iter_utxos in
  let utxos : gmap OutPoint Utxo := foldl (λ m u, <[utxo_outpoint u := u]> m) ∅ us in
  let! txs := get_tracked_txs in
  let tracked_inputs : gset OutPoint := list_to_set (concat (map tx_inputs txs)) in
  let available_utxos := filter (λ '(p, _), p ∉ tracked_inputs) utxos in
  ret (available_utxos, tracked_inputs).

(** ** PSBTs *)

(** The checks on one input in round 1; [false] is the early [return Ok(())]
    taken when the UTXO is not in the database, whose own error panics. *)
Definition check_round1_input (tx : Transaction) (index : nat) (psbt_input : PsbtInput)
    : M Db ValidatePSBTError bool :=
  let! txin := lift (expect (input tx !! index)) in
  let! utxo := λ d, match get_utxo (previous_output txin) d with
                    | (d', Ok u) => (d', Ok u)
                    | (d', _) => (d', Panic)
                    end in
  match utxo with
  | None => ret false
  | Some utxo =>
      (match utxo_eth_address utxo with
       | Some e => if negb (bool_decide (eth_address psbt_input = Some e))
                   then fail VpEthTweakMismatch else ret tt
       | None => ret tt
       end) ;!
      let! txout := lift (ok_or (witness_utxo psbt_input) VpMissingWitnessUtxo) in
      if negb (bool_decide (utxo_output utxo = txout)) then fail VpTxOutMismatch else ret true
  end.

Fixpoint check_inputs (flags : Z) (tx : Transaction) (index : nat) (ins : list PsbtInput)
    : M Db ValidatePSBTError unit :=
  match ins with
  | [] => ret tt
  | psbt_input :: ins' =>
      if has_flag flags ROUND1 then
        let! go_on := check_round1_input tx index psbt_input in
        if go_on then check_inputs flags tx (S index) ins' else ret tt
      else check_inputs flags tx (S index) ins'
  end.

(** [fold] with [checked_add(..).unwrap_or_default()]: an overflow starts over
    from zero. *)
Definition total_outputs_amount (outs : list TxOut) : Amount :=
  foldl (λ total o, default 0 (checked_add total (value o))) 0 outs.

Definition fee_error (e : PsbtError) : ValidatePSBTError :=
  match e with
  | NegativeFee => VpNegativeFee
  | FeeOverflow => VpFeeOverflow
  | PsbtOther => VpPsbtError e
  end.

(** The sanity checks that every stage starts with. *)
Definition sanity_checks (psbt : Psbt) : M Db ValidatePSBTError unit :=
  if bool_decide (inputs psbt = []) then fail VpNoInputs else
  map_errM VpConflictingInputError (has_conflicting_input psbt) ;!
  if bool_decide (outputs psbt = []) then fail VpNoOutputs else
  map_errM VpInvalidOutputs (validate_outputs psbt) ;!
  let! fee := lift (map_err fee_error (psbt_fee psbt)) in
  let total := total_outputs_amount (output (unsigned_tx psbt)) in
  if total <? fee then fail (VpFeeSanityCheck fee total) else ret tt.

(** The counts of commitments and partial signatures. *)
Definition frost_checks (psbt : Psbt) (flags min_signers : Z) : outcome ValidatePSBTError unit :=
  let scs := map all_signing_commitments (inputs psbt) in
  (if has_flag flags ROUND1_TRANSITION then
     if negb (length scs =? length (inputs psbt))%nat
     then Err VpInvalidNumberOfSigningCommitments else
     ofor scs (λ sc, if Z.of_nat (size sc) <? min_signers
                     then Err VpInvalidNumberOfSigningCommitments else Ok tt)
   else Ok tt) ;?
  let sigs := map all_partial_signatures (inputs psbt) in
  (if has_flag flags ROUND2 then
     ofor sigs (λ sig, if min_signers <? Z.of_nat (size sig)
                       then Err VpInvalidNumberOfPartialSignatures else Ok tt)
   else Ok tt) ;?
  if has_flag flags ROUND2_TRANSITION then
    (if negb (length sigs =? length (inputs psbt))%nat
     then Err VpInvalidNumberOfPartialSignatures else Ok tt) ;?
    ofor sigs (λ sig, if negb (Z.of_nat (size sig) =? min_signers)
                      then Err VpInvalidNumberOfPartialSignatures else Ok tt) ;?
    ofor (zip scs sigs) (λ '(sc, sig),
      if bool_decide (dom sc = dom sig) then Ok tt else Err VpFrostIdMismatch)
  else Ok tt.

Definition validate_psbt (psbt : Psbt) (flags min_signers : Z) : M Db ValidatePSBTError unit :=
  sanity_checks psbt ;!
  if flags =? NO_FLAGS then ret tt else
  lift (frost_checks psbt flags min_signers) ;!
  let! tx := lift (map_err VpExtractTxError (extract_tx psbt)) in
  check_inputs flags tx 0 (inputs psbt).

End util.

(** ** What the checks establish *)

(** The pegout ids that a PSBT names. *)
Definition out_id (o : PsbtOutput) : option PegoutId :=
  pegout_id o ≫= λ b, ok (PegoutId_from_bytes b).

Definition psbt_ids (p : Psbt) : list PegoutId := omap out_id (outputs p).

(** The indices of the outputs without an id, from [idx] on. *)
Fixpoint change_idxs (idx : nat) (outs : list PsbtOutput) : list nat :=
  match outs with
  | [] => []
  | o :: outs' => match pegout_id o with
                  | Some _ => change_idxs (S idx) outs'
                  | None => idx :: change_idxs (S idx) outs'
                  end
  end.

Lemma pegout_id_decodes o b : pegout_id o = Some b → ∃ id, PegoutId_from_bytes b = Ok id.
Proof.
  unfold pegout_id, PegoutId_from_bytes. destruct (out_proprietary o !! _); [|done].
  case_decide as Hl; [|done]. intros [= <-]. rewrite decide_True by done. eauto.
Qed.

Lemma decode_pegout_ids {E} (f : unit → E) p :
  omap_all (λ b, map_err f (PegoutId_from_bytes b)) (pegout_ids p) = Ok (psbt_ids p).
Proof.
  unfold pegout_ids, psbt_ids. induction (outputs p) as [|o outs IH]; [done|]. csimpl.
  unfold out_id at 1. destruct (pegout_id o) as [b|] eqn:Eo; [|done].
  destruct (pegout_id_decodes o b Eo) as [id Hid]. csimpl. rewrite Hid. simpl.
  by rewrite IH.
Qed.

Lemma out_id_Some o b id :
  pegout_id o = Some b → PegoutId_from_bytes b = Ok id → out_id o = Some id.
Proof. unfold out_id. intros -> Hid. simpl. by rewrite Hid. Qed.

Lemma out_id_None o : pegout_id o = None → out_id o = None.
Proof. unfold out_id. by intros ->. Qed.

Lemma scan_outputs_eq idx outs ids change_output :
  scan_outputs idx outs ids change_output =
  match opt_list change_output ++ change_idxs idx outs with
  | [] => Ok (ids ++ omap out_id outs, None)
  | [i] => Ok (ids ++ omap out_id outs, Some i)
  | _ => Err VoExpectingOnlyOneChangeOutput
  end.
Proof.
  revert idx ids change_output.
  induction outs as [|o outs IH]; intros idx ids chg; cbn [scan_outputs change_idxs].
  - rewrite app_nil_r. csimpl. rewrite app_nil_r. by destruct chg.
  - destruct (pegout_id o) as [b|] eqn:Eo; csimpl.
    + destruct (pegout_id_decodes o b Eo) as [id Hid]. rewrite (out_id_Some o b id) by done.
      rewrite Hid. cbn [map_err obind]. rewrite IH. by rewrite <-!app_assoc.
    + rewrite (out_id_None o Eo). destruct chg as [i|]; [done|].
      rewrite bool_decide_false by (by intros [? ?]). by rewrite IH.
Qed.

Lemma elem_of_change_idxs idx outs i :
  i ∈ change_idxs idx outs ↔
  ∃ j o, i = (idx + j)%nat ∧ outs !! j = Some o ∧ pegout_id o = None.
Proof.
  revert idx. induction outs as [|o outs IH]; intros idx; simpl.
  - split; [by intros ?%elem_of_nil|]. naive_solver.
  - assert ((∃ j o', i = (idx + j)%nat ∧ (o :: outs) !! j = Some o' ∧ pegout_id o' = None) ↔
      (i = idx ∧ pegout_id o = None) ∨
      ∃ j o', i = (S idx + j)%nat ∧ outs !! j = Some o' ∧ pegout_id o' = None) as ->.
    { split.
      - intros ([|j] & o' & -> & Hj & Ho); simplify_eq/=; [left; split; [lia|done]|].
        right. exists j, o'. split; [lia|done].
      - intros [[-> Ho]|(j & o' & -> & Hj & Ho)].
        + exists 0%nat, o. split; [lia|done].
        + exists (S j), o'. split; [lia|done]. }
    destruct (pegout_id o) eqn:Eo; rewrite ?elem_of_cons, IH; naive_solver.
Qed.

Lemma change_idxs_NoDup idx outs : NoDup (change_idxs idx outs).
Proof.
  revert idx. induction outs as [|o outs IH]; intros idx; simpl; [constructor|].
  destruct (pegout_id o); [done|]. constructor; [|done].
  rewrite elem_of_change_idxs. intros (j & ? & ? & _). lia.
Qed.

Lemma size_list_to_set_le `{Countable A} (l : list A) : (size (list_to_set l : gset A) ≤ length l)%nat.
Proof.
  induction l as [|x l IH]; [by rewrite list_to_set_nil, size_empty|].
  rewrite list_to_set_cons. cbn [length].
  destruct (decide (x ∈ (list_to_set l : gset A))) as [Hx|Hx].
  - rewrite subseteq_union_1_L by set_solver. lia.
  - rewrite size_union by set_solver. rewrite size_singleton. lia.
Qed.

Lemma size_list_to_set_NoDup `{Countable A} (l : list A) :
  size (list_to_set l : gset A) = length l ↔ NoDup l.
Proof.
  split; [|apply size_list_to_set]. induction l as [|x l IH]; [constructor|].
  rewrite list_to_set_cons. cbn [length].
  destruct (decide (x ∈ (list_to_set l : gset A))) as [Hx|Hx].
  - rewrite subseteq_union_1_L by set_solver. pose proof (size_list_to_set_le l). lia.
  - rewrite size_union by set_solver. rewrite size_singleton. intros Hs.
    constructor; [set_solver|]. apply IH. lia.
Qed.

(** The outputs of a PSBT that a signer accepts. *)
Record outputs_valid `{!FrostLib} (d : Db) (p : Psbt) : Prop := {
  ov_count : length (outputs p) = length (output (unsigned_tx p));
  ov_unique : NoDup (psbt_ids p);
  ov_fresh : ∀ id f, id ∈ psbt_ids p → f ∈ tree_values (finalized_pegout_ids d) → fp_id f ≠ id;
  ov_one_change : ∀ i j o o', outputs p !! i = Some o → outputs p !! j = Some o' →
    pegout_id o = None → pegout_id o' = None → i = j;
  ov_change : ∃ pkg, pubkey_packages d !! multisig_key LEGACY_MULTISIG_ID = Some pkg ∧
    ∀ i o t, outputs p !! i = Some o → pegout_id o = None → output (unsigned_tx p) !! i = Some t →
      ∃ agg_pk, to_secp_pk pkg = Some agg_pk ∧
        script_pubkey t = generate_taproot_change_scriptpubkey agg_pk }.

Section outputs.
Context `{!BitcoinLib, !FrostLib}.

(** The change check on its own. *)
Definition change_ok (p : Psbt) (pkg : PublicKeyPackage) (i : nat) : Prop :=
  ∃ t agg_pk, output (unsigned_tx p) !! i = Some t ∧ to_secp_pk pkg = Some agg_pk ∧
    script_pubkey t = generate_taproot_change_scriptpubkey agg_pk.

Lemma one_change p :
  (∀ i j o o', outputs p !! i = Some o → outputs p !! j = Some o' →
    pegout_id o = None → pegout_id o' = None → i = j) ↔
  (length (change_idxs 0 (outputs p)) ≤ 1)%nat.
Proof.
  split.
  - intros Hone. pose proof (change_idxs_NoDup 0 (outputs p)) as Hnd.
    destruct (change_idxs 0 (outputs p)) as [|i [|j l]] eqn:E; simpl; [lia..|].
    assert (i ∈ change_idxs 0 (outputs p)) as (i' & o & -> & Hi & Ho)%elem_of_change_idxs
      by (rewrite E; set_solver).
    assert (j ∈ change_idxs 0 (outputs p)) as (j' & o' & -> & Hj & Ho')%elem_of_change_idxs
      by (rewrite E; set_solver).
    rewrite (Hone i' j' o o' Hi Hj Ho Ho') in Hnd. exfalso.
    apply NoDup_cons in Hnd as [Hnot _]. apply Hnot. set_solver.
  - intros Hlen i j o o' Hi Hj Ho Ho'.
    assert (i ∈ change_idxs 0 (outputs p)) as Hi' by (apply elem_of_change_idxs; eauto).
    assert (j ∈ change_idxs 0 (outputs p)) as Hj' by (apply elem_of_change_idxs; eauto).
    destruct (change_idxs 0 (outputs p)) as [|k [|k' l]]; simpl in Hlen; [set_solver|set_solver|lia].
Qed.

Lemma change_valid p pkg :
  length (outputs p) = length (output (unsigned_tx p)) →
  (∀ i o t, outputs p !! i = Some o → pegout_id o = None → output (unsigned_tx p) !! i = Some t →
      ∃ agg_pk, to_secp_pk pkg = Some agg_pk ∧
        script_pubkey t = generate_taproot_change_scriptpubkey agg_pk) ↔
  Forall (change_ok p pkg) (change_idxs 0 (outputs p)).
Proof.
  intros Hlen. rewrite Forall_forall. split.
  - intros Hc i (j & o & -> & Hj & Ho)%elem_of_change_idxs. simpl.
    destruct (lookup_lt_is_Some_2 (output (unsigned_tx p)) j) as [t Ht].
    { rewrite <-Hlen. by eapply lookup_lt_Some. }
    destruct (Hc j o t Hj Ho Ht) as (agg & ? & ?). by exists t, agg.
  - intros Hc i o t Hi Ho Ht.
    destruct (Hc i) as (t' & agg & Ht' & ? & ?); [apply elem_of_change_idxs; eauto|].
    rewrite Ht in Ht'. injection Ht' as <-. eauto.
Qed.

Lemma finalized_check ids (fs : list FinalizedPegout) d :
  decides (forM ids (λ id,
    if contains (map fp_id fs) id
    then okM (remove_pending_pegout [id]) ;! fail (VoAlreadyFinalizedPegouts [id])
    else ret tt)) d (∀ id f, id ∈ ids → f ∈ fs → fp_id f ≠ id).
Proof.
  eapply decides_ext; [|apply (decides_forM (λ id, id ∉ map fp_id fs))].
  - rewrite Forall_forall. split.
    + intros Hn id f Hid Hf <-. apply (Hn _ Hid). by apply list_elem_of_fmap_2.
    + intros Hn id Hid (f & -> & Hf)%list_elem_of_fmap. by eapply Hn.
  - intros id _. destruct (contains _ id) eqn:E.
    + right. apply contains_true in E. split; [tauto|]. unfold bindM.
      by destruct (okM _ d) as [d' [?|?|]].
    + left. by apply contains_false in E.
Qed.

Lemma change_check p pkg (chg : option nat) (d : Db) :
  decides match chg with
  | Some idx =>
      let! agg_pk := lift (expect (to_secp_pk pkg)) in
      let expected_script_pubkey := generate_taproot_change_scriptpubkey agg_pk in
      let! change_output :=
        lift (ok_or (output (unsigned_tx p) !! idx) VoInvalidChangeOutput) in
      if negb (bool_decide (script_pubkey change_output = expected_script_pubkey))
      then fail VoInvalidChangeOutput else ret tt
  | None => ret tt
  end d (Forall (change_ok p pkg) (opt_list chg)).
Proof.
  destruct chg as [i|]; simpl; [|by left]. unfold decides, change_ok, bindM, lift.
  rewrite Forall_singleton.
  destruct (to_secp_pk pkg) as [agg|]; cbn [expect]; [|right; naive_solver].
  destruct (output (unsigned_tx p) !! i) as [t|]; cbn [ok_or]; [|right; naive_solver].
  case_bool_decide as Hs; cbn [negb]; [left; naive_solver|].
  right. split; [|done]. intros (? & ? & [= <-] & [= <-] & ?). done.
Qed.

Lemma check_scanned_decides p pkg ids chg d :
  io d = [] → decides (check_scanned p pkg ids chg) d
    ((∀ id f, id ∈ ids → f ∈ tree_values (finalized_pegout_ids d) → fp_id f ≠ id) ∧
     NoDup ids ∧ Forall (change_ok p pkg) (opt_list chg)).
Proof.
  intros Hio. unfold check_scanned.
  eapply decides_bind_run; [unfold map_errM, get_finalized_pegout_ids; by rewrite sled_read_ok|].
  eapply decides_ext; [|eapply decides_seq; [apply finalized_check|intros _;
    apply decides_if; intros _; apply change_check]].
  by rewrite negb_false_iff, Nat.eqb_eq, size_list_to_set_NoDup.
Qed.

Lemma validate_outputs_decides p d :
  io d = [] → decides (validate_outputs p) d (outputs_valid d p).
Proof.
  intros Hio. unfold validate_outputs.
  destruct (Nat.eqb_spec (length (outputs p)) (length (output (unsigned_tx p)))) as [Hlen|Hlen];
    cbn [negb]; [|right; split; [by intros []|done]].
  eapply decides_bind_run.
  { unfold map_errM, get_public_key_package, get_public_key_package_by_id.
    by rewrite sled_read_ok. }
  apply decides_bind_lift.
  destruct (pubkey_packages d !! _) as [pkg|] eqn:Epk; cbn [ok_or];
    [|intros [_ _ _ _ (? & ? & _)]; congruence].
  apply (decides_ext _ _ ((length (change_idxs 0 (outputs p)) ≤ 1)%nat ∧
    (∀ id f, id ∈ psbt_ids p → f ∈ tree_values (finalized_pegout_ids d) → fp_id f ≠ id) ∧
    NoDup (psbt_ids p) ∧ Forall (change_ok p pkg) (change_idxs 0 (outputs p)))).
  { rewrite <-one_change, <-change_valid by done. split.
    - intros (? & ? & ? & ?). split; eauto.
    - intros [? ? ? ? (pkg' & ? & ?)]. assert (pkg' = pkg) as -> by congruence. done. }
  apply decides_bind_lift. rewrite scan_outputs_eq. cbn [opt_list app].
  assert (∀ chg, change_idxs 0 (outputs p) = opt_list chg →
    decides (check_scanned p pkg (psbt_ids p) chg) d
      ((length (change_idxs 0 (outputs p)) ≤ 1)%nat ∧
       (∀ id f, id ∈ psbt_ids p → f ∈ tree_values (finalized_pegout_ids d) → fp_id f ≠ id) ∧
       NoDup (psbt_ids p) ∧ Forall (change_ok p pkg) (change_idxs 0 (outputs p)))) as Hrest.
  { intros chg ->. eapply decides_ext; [|by apply check_scanned_decides].
    assert (length (opt_list chg) ≤ 1)%nat by (destruct chg; simpl; lia). tauto. }
  destruct (change_idxs 0 (outputs p)) as [|i [|j l]] eqn:Ech.
  - by apply (Hrest None).
  - by apply (Hrest (Some i)).
  - simpl. lia.
Qed.

(** A signer accepts the outputs of a PSBT exactly when they are valid:
    every output of the transaction is declared, no pegout appears twice or
    has been finalized, at most one output carries no pegout id, and that one
    pays the taproot script of the federation's aggregate key. *)
Theorem validate_outputs_spec p d :
  io d = [] → (validate_outputs p d = (d, Ok tt) ↔ outputs_valid d p).
Proof. intros Hio. by apply decides_iff, validate_outputs_decides. Qed.

End outputs.

(** A PSBT retries a tracked transaction when it delivers one of its pegouts. *)
Definition retries (p : Psbt) (t : Tx) : Prop :=
  ∃ r, r ∈ tx_pegout_requests t ∧ pr_id r ∈ psbt_ids p.

Definition spends (p : Psbt) : list OutPoint := map previous_output (input (unsigned_tx p)).

(** Every tracked transaction that is retried is double-spent. *)
Definition conflicts_respected `{!FrostLib} (d : Db) (p : Psbt) : Prop :=
  ∀ t, t ∈ tree_values (tracked_txs d) → retries p t → ∃ o, o ∈ tx_inputs t ∧ o ∈ spends p.

Section checks.
Context `{!BitcoinLib, !FrostLib, !PsbtLib}.

Lemma existsb_bool_decide {A} (P : A → Prop) `{!∀ x, Decision (P x)} l :
  existsb (λ x, bool_decide (P x)) l = true ↔ ∃ x, x ∈ l ∧ P x.
Proof.
  rewrite existsb_exists. split.
  - intros (x & Hx%list_elem_of_In & HP%bool_decide_eq_true). eauto.
  - intros (x & Hx & HP). exists x. by rewrite bool_decide_eq_true, <-list_elem_of_In.
Qed.

Lemma has_conflicting_input_decides p d :
  io d = [] → decides (has_conflicting_input p) d (conflicts_respected d p).
Proof.
  intros Hio. unfold has_conflicting_input. apply decides_bind_lift.
  rewrite decode_pegout_ids. eapply decides_bind_run.
  { unfold map_errM, get_tracked_txs. by rewrite sled_read_ok. }
  eapply decides_ext; [apply (Forall_forall (λ t, retries p t → ∃ o, o ∈ tx_inputs t ∧ o ∈ spends p))|].
  apply decides_forM. intros t _.
  destruct (existsb _ (tx_pegout_requests t)) eqn:Er.
  - apply (existsb_bool_decide (λ r, pr_id r ∈ (list_to_set (psbt_ids p) : gset _)))
      in Er as (r & Hr & Hid%elem_of_list_to_set).
    destruct (existsb _ (tx_inputs t)) eqn:Ei.
    + left. split; [|done]. intros _.
      apply (existsb_bool_decide (λ o, o ∈ spends p)) in Ei as (o & Ho & Ho'). eauto.
    + right. split; [|done]. intros Hc. destruct (Hc ltac:(by exists r)) as (o & Ho & Ho').
      apply not_true_iff_false in Ei. apply Ei.
      apply (existsb_bool_decide (λ o, o ∈ spends p)). by exists o.
  - left. split; [|done]. intros (r & Hr & Hid). apply not_true_iff_false in Er.
    destruct Er. apply (existsb_bool_decide (λ r, pr_id r ∈ (list_to_set (psbt_ids p) : gset _))).
    exists r. by rewrite elem_of_list_to_set.
Qed.

(** The rule that keeps a pegout from being paid twice: a PSBT passes
    [has_conflicting_input] exactly when it shares an input with every tracked
    transaction that delivers one of its pegouts, so that at most one of them
    can confirm. *)
Theorem has_conflicting_input_spec p d :
  io d = [] →
  (has_conflicting_input p d = (d, Ok tt) ↔
   ∀ t, t ∈ tree_values (tracked_txs d) →
     (∃ r, r ∈ tx_pegout_requests t ∧ pr_id r ∈ psbt_ids p) →
     ∃ o, o ∈ tx_inputs t ∧ o ∈ map previous_output (input (unsigned_tx p))).
Proof. intros Hio. by apply decides_iff, has_conflicting_input_decides. Qed.

(** ** Available UTXOs *)

Lemma insert_all_view d m us :
  utxo_view d m → us ≡ₚ (map_to_list m).*2 →
  foldl (λ m u, <[utxo_outpoint u := u]> m) ∅ us = m.
Proof.
  intros Hv Hp.
  assert (∀ l (acc : gmap OutPoint Utxo), foldl (λ m u, <[utxo_outpoint u := u]> m) acc l =
    list_to_map (reverse (map (λ u, (utxo_outpoint u, u)) l)) ∪ acc) as Hfold.
  { intros l. induction l as [|u l IH]; intros acc; simpl; [by rewrite (left_id_L ∅ (∪))|].
    rewrite IH, reverse_cons, list_to_map_app, <-assoc_L by apply _. f_equal. simpl.
    by rewrite insert_empty, insert_union_singleton_l. }
  rewrite Hfold, (right_id_L ∅ (∪)).
  assert (map (λ u, (utxo_outpoint u, u)) (map_to_list m).*2 = map_to_list m) as Hkv.
  { change (map ?f ?l) with (f <$> l). rewrite <-list_fmap_compose.
    etrans; [|apply list_fmap_id]. apply list_fmap_ext. intros i [o u] Hi. simpl. f_equal.
    eapply utxo_view_keyed; [done|]. apply elem_of_map_to_list. by eapply list_elem_of_lookup_2. }
  assert (reverse (map (λ u, (utxo_outpoint u, u)) us) ≡ₚ map_to_list m) as Hperm.
  { rewrite reverse_Permutation, <-Hkv. by apply fmap_Permutation. }
  etrans; [|apply list_to_map_to_list]. apply list_to_map_proper; [|done].
  rewrite Hperm. apply NoDup_fst_map_to_list.
Qed.

Lemma get_available_utxos_run `{!BitcoinLaws} d m :
  utxo_view d m → io d = [] →
  get_available_utxos d =
  (d, Ok (filter (λ '(p, _), p ∉ (list_to_set (concat (map tx_inputs (tree_values (tracked_txs d))))
                                   : gset OutPoint)) m,
          list_to_set (concat (map tx_inputs (tree_values (tracked_txs d)))))).
Proof.
  intros Hv Hio. destruct (iter_utxos_view d m Hv Hio) as (us & Hus & Hp).
  unfold get_available_utxos, bindM. rewrite Hus. unfold get_tracked_txs.
  rewrite sled_read_ok by done. by rewrite (insert_all_view d m us Hv Hp).
Qed.

(** [get_available_utxos] offers exactly the UTXOs of the wallet that no
    tracked transaction spends, and reports the inputs of the tracked ones. *)
Theorem available_utxos_spec `{!BitcoinLaws} d m :
  utxo_view d m → io d = [] →
  ∃ avail tracked, get_available_utxos d = (d, Ok (avail, tracked)) ∧
    (∀ o, o ∈ tracked ↔ ∃ t, t ∈ tree_values (tracked_txs d) ∧ o ∈ tx_inputs t) ∧
    (∀ o u, avail !! o = Some u ↔ m !! o = Some u ∧ o ∉ tracked).
Proof.
  intros Hv Hio. rewrite (get_available_utxos_run d m) by done. eexists _, _.
  split; [reflexivity|]. split.
  - intros o. rewrite elem_of_list_to_set, list_elem_of_In, in_concat. split.
    + intros (l & Hl & Ho). apply in_map_iff in Hl as (t & <- & Ht).
      exists t. by rewrite !list_elem_of_In.
    + intros (t & Ht & Ho). exists (tx_inputs t). rewrite <-!list_elem_of_In.
      split; [|done]. by apply (list_elem_of_fmap_2 tx_inputs).
  - intros o u. by rewrite map_lookup_filter_Some.
Qed.

(** ** Inputs *)

(** What round 1 checks of an input whose UTXO is known. *)
Definition input_matches (u : Utxo) (i : PsbtInput) : Prop :=
  witness_utxo i = Some (utxo_output u) ∧
  ∀ e, utxo_eth_address u = Some e → eth_address i = Some e.

Lemma check_round1_input_Ok `{!BitcoinLaws} d d' m tx k i b :
  utxo_view d m → io d = [] →
  check_round1_input tx k i d = (d', Ok b) →
  d' = d ∧ ∃ txin, input tx !! k = Some txin ∧
    (outpoint_wf (previous_output txin) →
     match m !! previous_output txin with
     | Some u => b = true ∧ input_matches u i
     | None => b = false
     end).
Proof.
  intros Hv Hio. unfold check_round1_input, bindM, lift.
  destruct (input tx !! k) as [txin|]; cbn [expect]; [|discriminate].
  unfold get_utxo. rewrite sled_read_ok by done. intros Hrun.
  assert (d' = d ∧ match load_form (previous_output txin) <$> utxos d !! to_bytes (previous_output txin) with
     | Some u => b = true ∧ input_matches u i | None => b = false end) as [-> Hb].
  { destruct (_ <$> _) as [u|]; [|by injection Hrun as <- <-]. unfold input_matches.
    destruct (utxo_eth_address u) as [e|] eqn:Ee.
    - case_bool_decide as He; cbn [negb] in Hrun; [|discriminate]. unfold ret in Hrun.
      destruct (witness_utxo i) as [o|]; cbn [ok_or] in Hrun; [|discriminate].
      case_bool_decide; cbn [negb] in Hrun; [|discriminate]. injection Hrun as <- <-. naive_solver.
    - unfold ret in Hrun. destruct (witness_utxo i) as [o|]; cbn [ok_or] in Hrun; [|discriminate].
      case_bool_decide; cbn [negb] in Hrun; [|discriminate]. injection Hrun as <- <-. naive_solver. }
  split; [done|]. exists txin. split; [done|]. intros Hwf.
  by rewrite (utxo_view_lookup d m _ Hv Hwf).
Qed.

(** A known UTXO at every position: then every input is checked. *)
Lemma check_inputs_Ok `{!BitcoinLaws} d d' m flags tx k ins :
  utxo_view d m → io d = [] → has_flag flags ROUND1 = true →
  (∀ i, i ∈ input tx → is_Some (m !! previous_output i)) →
  check_inputs flags tx k ins d = (d', Ok tt) →
  d' = d ∧ ∀ j i, ins !! j = Some i →
    ∃ txin u, input tx !! (k + j)%nat = Some txin ∧ m !! previous_output txin = Some u ∧
      input_matches u i.
Proof.
  intros Hv Hio Hfl Hknown. revert k. induction ins as [|i ins IH]; intros k; cbn [check_inputs].
  { intros [= <-]. split; [done|]. intros j i Hj. by rewrite lookup_nil in Hj. }
  rewrite Hfl. intros Hrun. mres Hrun.
  apply (check_round1_input_Ok d s m) in Hm as (-> & txin & Htx & Hb); [|done..].
  destruct (Hknown txin) as [u Hu]; [by eapply list_elem_of_lookup_2|].
  destruct Hv as (Hv1 & Hv2 & Hv3) eqn:Ev. clear Ev.
  rewrite Hu in Hb. destruct Hb as [-> Hmatch]; [apply Hv2; eauto|].
  apply IH in Hrun as [-> Hrest]. split; [done|]. intros [|j] i' Hj.
  - injection Hj as <-. exists txin, u. by rewrite Nat.add_0_r.
  - destruct (Hrest j i' Hj) as (txin' & u' & ? & ? & ?). exists txin', u'.
    by rewrite <-Nat.add_succ_comm.
Qed.

(** A PSBT that passes the sanity checks. *)
Definition sane (d : Db) (p : Psbt) : Prop :=
  inputs p ≠ [] ∧ conflicts_respected d p ∧ outputs p ≠ [] ∧ outputs_valid d p ∧
  ∃ fee, psbt_fee p = Ok fee ∧ fee ≤ total_outputs_amount (output (unsigned_tx p)).

Lemma sanity_checks_decides p d : io d = [] → decides (sanity_checks p) d (sane d p).
Proof.
  intros Hio. unfold sanity_checks, sane.
  eapply decides_ext; [|apply decides_if; intros _; eapply decides_seq;
    [by apply decides_map_err, has_conflicting_input_decides|intros _; apply decides_if; intros _;
     eapply decides_seq; [by apply decides_map_err, validate_outputs_decides|intros _]]].
  { rewrite !bool_decide_eq_false. reflexivity. }
  apply decides_bind_lift. destruct (psbt_fee p) as [fee|e|]; cbn [map_err]; [|naive_solver..].
  destruct (Z.ltb_spec (total_outputs_amount (output (unsigned_tx p))) fee).
  - right. split; [|done]. intros (f & [= <-] & ?). lia.
  - left. eauto.
Qed.

(** What the counts of a stage require. *)
Definition counts_ok (p : Psbt) (flags min_signers : Z) : Prop :=
  (has_flag flags ROUND1_TRANSITION = true →
     Forall (λ i, min_signers ≤ Z.of_nat (size (all_signing_commitments i))) (inputs p)) ∧
  (has_flag flags ROUND2 = true →
     Forall (λ i, Z.of_nat (size (all_partial_signatures i)) ≤ min_signers) (inputs p)) ∧
  (has_flag flags ROUND2_TRANSITION = true →
     Forall (λ i, Z.of_nat (size (all_partial_signatures i)) = min_signers ∧
                  dom (all_signing_commitments i) = dom (all_partial_signatures i)) (inputs p)).

Lemma ofor_if {E A} (e : E) (f : A → bool) (l : list A) :
  ofor l (λ x, if f x then Err e else Ok tt) = Ok tt ↔ Forall (λ x, f x = false) l.
Proof. rewrite ofor_Ok. apply Forall_iff. intros x. destruct (f x); split; congruence. Qed.

Lemma frost_checks_Ok p flags min_signers :
  frost_checks p flags min_signers = Ok tt ↔ counts_ok p flags min_signers.
Proof.
  unfold frost_checks, counts_ok. rewrite !length_map, !Nat.eqb_refl. cbn [negb].
  assert (∀ (b : bool) (o : outcome ValidatePSBTError unit),
    (if b then o else Ok tt) = Ok tt ↔ (b = true → o = Ok tt)) as Hif
    by (intros []; naive_solver).
  assert (∀ o k : outcome ValidatePSBTError unit, obind o (λ _, k) = Ok tt ↔ o = Ok tt ∧ k = Ok tt)
    as Hseq by (intros [[]| |]; naive_solver).
  rewrite !Hseq, !Hif, !Hseq, !ofor_if, !Forall_map, ofor_Ok.
  rewrite (Forall_iff (λ i, min_signers ≤ Z.of_nat (size (all_signing_commitments i))) (inputs p)
    (λ i, (Z.of_nat (size (all_signing_commitments i)) <? min_signers) = false)) by (intros; lia).
  rewrite (Forall_iff (λ i, Z.of_nat (size (all_partial_signatures i)) ≤ min_signers) (inputs p)
    (λ i, (min_signers <? Z.of_nat (size (all_partial_signatures i))) = false)) by (intros; lia).
  assert (∀ l : list PsbtInput,
    (Forall (λ i, negb (Z.of_nat (size (all_partial_signatures i)) =? min_signers) = false) l ∧
     Forall (λ x : gmap Identifier SigningCommitments * gmap Identifier SignatureShare,
       (let '(sc, sig) := x in
        if bool_decide (dom sc = dom sig) then Ok tt else Err VpFrostIdMismatch) =
       (Ok tt : outcome ValidatePSBTError unit))
       (zip (map all_signing_commitments l) (map all_partial_signatures l))) ↔
    Forall (λ i, Z.of_nat (size (all_partial_signatures i)) = min_signers ∧
                 dom (all_signing_commitments i) = dom (all_partial_signatures i)) l) as Hl.
  { induction l as [|i l IH]; simpl; [by rewrite !Forall_nil|].
    rewrite !Forall_cons, <-IH, negb_false_iff, Z.eqb_eq. case_bool_decide; naive_solver. }
  rewrite <-(Hl (inputs p)). unfold compose. tauto.
Qed.

(** C4.  A PSBT that passes [validate_psbt] at a stage that includes round 1,
    while the database answers and the wallet knows all the UTXOs it spends, is
    sound: its outputs are
    valid and conflict with the transactions they replace, its fee does not
    exceed what it pays out, every input carries the stored funding output and
    the stored tweak of the UTXO it spends, and the commitments and shares
    meet the counts of the stage.  The check changes nothing. *)
Theorem validate_psbt_sound `{!BitcoinLaws, !PsbtLaws} p flags min_signers d d' m :
  utxo_view d m → io d = [] → has_flag flags ROUND1 = true →
  (∀ o, o ∈ spends p → is_Some (m !! o)) →
  validate_psbt p flags min_signers d = (d', Ok tt) →
  d' = d ∧ sane d p ∧ counts_ok p flags min_signers ∧
  ∀ j i, inputs p !! j = Some i →
    ∃ o u, spends p !! j = Some o ∧ m !! o = Some u ∧ input_matches u i.
Proof.
  intros Hv Hio Hfl Hknown. unfold validate_psbt. intros Hrun. mres Hrun. destruct a.
  apply (decides_Ok _ _ _ _ (sanity_checks_decides p d Hio)) in Hm as [Hsane ->].
  destruct (Z.eqb_spec flags NO_FLAGS) as [->|_]; [discriminate|]. mres Hrun. destruct a.
  apply lift_Ok in Hm as [-> Hcounts%frost_checks_Ok].
  apply lift_Ok in Hm0 as [-> Htx%map_err_Ok]. apply extract_tx_spec in Htx as [_ Hins].
  destruct (check_inputs_Ok d d' m flags a0 0 (inputs p)) as [-> Hall]; [done..| |done|].
  { intros i Hi. apply Hknown. unfold spends. rewrite <-Hins. by apply list_elem_of_fmap_2. }
  split_and!; [done..|]. intros j i Hj. destruct (Hall j i Hj) as (txin & u & Htx & Hu & Hi).
  rewrite Nat.add_0_l in Htx.
  exists (previous_output txin), u. split; [|done]. unfold spends. rewrite <-Hins.
  change (map ?f ?l) with (f <$> l). by rewrite list_lookup_fmap, Htx.
Qed.

End checks.

(** ** Concrete PSBTs *)

(** A federation whose change script is [p2tr 9]. *)
Definition toy_federation (d : Db) : Db :=
  set_pubkey_packages {[ multisig_key LEGACY_MULTISIG_ID := 2 :: replicate 32 9 ]} d.

Definition toy_pegout_tx (n : Z) (u : Utxo) : Tx :=
  mkTx (replicate 32 n) (mkTransaction 2 0 [unsigned_input (utxo_to_dto u)] []) []
    [mkPegoutRequest (toy_pegout_id n) (p2wpkh n) 40000 1 None] [] 0.

(** One known UTXO, and a tracked transaction that spends it for pegout 4. *)
Definition toy_vdb : Db :=
  toy_federation (set_tracked_txs {[ replicate 32 4 := toy_pegout_tx 4 (toy_utxo 1 100000) ]}
    (toy_db_with_utxos [toy_utxo 1 100000])).

(** It spends [us], pays pegout 4 and returns the change. *)
Definition toy_vpsbt (us : list Utxo) : Psbt :=
  psbt_of (map utxo_to_dto us) [(mkTxOut 40000 (p2wpkh 3), as_bytes (toy_pegout_id 4))]
    (Some (mkTxOut 59000 (p2tr 9))).

Lemma toy_vdb_view : utxo_view toy_vdb (foldl insert_absent ∅ [toy_utxo 1 100000]).
Proof.
  eapply utxo_view_ext; [|apply (toy_db_view [toy_utxo 1 100000]); toy_wf]. reflexivity.
Qed.

Lemma validate_outputs_spec_witness :
  io toy_vdb = [] ∧ outputs_valid toy_vdb (toy_vpsbt [toy_utxo 1 100000]).
Proof.
  split; [reflexivity|]. apply (validate_outputs_spec (toy_vpsbt [toy_utxo 1 100000]) toy_vdb).
  - reflexivity.
  - vm_compute. reflexivity.
Defined.

(** The retry passes with the tracked input and fails without it. *)
Lemma has_conflicting_input_spec_witness :
  (has_conflicting_input (toy_vpsbt [toy_utxo 2 100000]) toy_vdb).2 = Err NoConflictingInput ∧
  ∀ t, t ∈ tree_values (tracked_txs toy_vdb) →
    (∃ r, r ∈ tx_pegout_requests t ∧ pr_id r ∈ psbt_ids (toy_vpsbt [toy_utxo 1 100000])) →
    ∃ o, o ∈ tx_inputs t ∧
      o ∈ map previous_output (input (unsigned_tx (toy_vpsbt [toy_utxo 1 100000]))).
Proof.
  split; [vm_compute; reflexivity|].
  apply (has_conflicting_input_spec (toy_vpsbt [toy_utxo 1 100000]) toy_vdb).
  - reflexivity.
  - vm_compute. reflexivity.
Defined.

Lemma available_utxos_spec_witness :
  ∃ avail tracked, get_available_utxos toy_vdb = (toy_vdb, Ok (avail, tracked)) ∧
    ∀ o u, avail !! o = Some u ↔
      (foldl insert_absent ∅ [toy_utxo 1 100000] : gmap _ _) !! o = Some u ∧ o ∉ tracked.
Proof.
  destruct (available_utxos_spec toy_vdb _ toy_vdb_view) as (a & t & Hr & _ & Ha); [reflexivity|].
  exists a, t. exact (conj Hr Ha).
Defined.

Lemma validate_psbt_sound_witness :
  (validate_psbt (toy_vpsbt [toy_utxo 1 100000]) ROUND1 1 toy_vdb).2 = Ok tt ∧
  sane toy_vdb (toy_vpsbt [toy_utxo 1 100000]).
Proof.
  split; [vm_compute; reflexivity|].
  refine (proj1 (proj2 (validate_psbt_sound (toy_vpsbt [toy_utxo 1 100000]) ROUND1 1 toy_vdb _
    (foldl insert_absent ∅ [toy_utxo 1 100000]) toy_vdb_view _ _ _ _))).
  - reflexivity.
  - reflexivity.
  - intros o Ho. apply (bool_decide_unpack _). unfold spends in Ho. simpl in Ho.
    apply list_elem_of_singleton in Ho as ->. vm_compute. exact I.
  - vm_compute. reflexivity.
Defined.

(** The round-1 check of the inputs stops at the first UTXO that the
    signer does not know: a PSBT whose second input misstates the value of a
    known UTXO is rejected, but accepted once an unknown input is put in
    front of it. *)
Theorem unknown_utxo_skips_later_inputs :
  (validate_psbt (toy_vpsbt [toy_utxo 1 90000; toy_utxo 7 20000]) ROUND1 1 toy_vdb).2 =
    Err VpTxOutMismatch ∧
  (validate_psbt (toy_vpsbt [toy_utxo 7 20000; toy_utxo 1 90000]) ROUND1 1 toy_vdb).2 = Ok tt.
Proof. split; vm_compute; reflexivity. Qed.
