(* ===== verification/Coordinator.v ===== *)
(** * The signing coordinator

    src/bin/botanix-btc-server/src/coordinator/mod.rs: building pegout and
    sweep PSBTs, collecting the two signing rounds, and aggregating the shares
    into final signatures.  FROST's aggregation and verification are a
    parameter ([FrostSign]). *)

From S2P Require Import Prelude Bytes Bitcoin Psbt Types Concrete CoinSelection Database Util.

Open Scope Z_scope.

Inductive FrostFailure := FrostFailed.

(** The signing functions of frost-secp256k1-tr.  The tweak is the additional
    tweak of [SigningParameters], whose Merkle root is always absent; a
    signature is its serialization. *)
Class FrostSign `{!FrostLib} := {
  (** [round1::commit]; the number stands for the randomness drawn *)
  commit : KeyPackage → Z → SigningNonces * SigningCommitments;
  (** [round2::sign_with_tweak] *)
  sign_with_tweak : SigningPackage → SigningNonces → KeyPackage → option bytes →
                    outcome FrostFailure SignatureShare;
  (** [aggregate_with_tweak] *)
  aggregate_with_tweak : SigningPackage → gmap Identifier SignatureShare → PublicKeyPackage →
                         option bytes → outcome FrostFailure bytes;
  (** [pk_package.tweak(..).verifying_key().verify(message, signature)] *)
  verify_with_tweak : PublicKeyPackage → option bytes → bytes → bytes → bool;
  (** [schnorr::Signature::from_slice] *)
  schnorr_from_slice : bytes → option bytes }.

(** Payloads that belong to libraries, and the scheduler's own error, are left
    out. *)
Inductive CoordinatorError :=
| CoMissingKeyPackage
| CoMissingMultisigId
| CoInvalidFrostPeerId
| CoNotEnoughSigners
| CoInvalidSigningPackage
| CoFailedToConvertVerifyingKeyToSecpPk
| CoFailedToCalculateSighash (e : CalculateSighashError)
| CoPbst (e : PsbtError)
| CoFrostError (e : FrostFailure)
| CoDb (e : DbError)
| CoPbstFinalizationFailed
| CoInvalidResultingTx
| CoPsbtToSigningPackageConversionError (e : PsbtToSigningPackageConversionError)
| CoCouldNotFindPsbt
| CoFailedToBroadcastTx
| CoCouldNotFindParticipantInformation
| CoFailedToValidatePsbt (e : ValidatePSBTError)
| CoExtractTxError (e : ExtractTxError)
| CoPegoutMgrSync
| CoUtxoMerkleRootMismatch (expected actual : bytes)
| CoSecp256k1Error
| CoMissingFinalScript
| CoMissingSigningPackageAtIndex (i : nat)
| CoCoinSelectionErr (e : CoinSelectionError)
| CoNoConflictingInputs
| CoMissingUtxoForConflictingInput
| CoWalletCalculationError (e : WalletCalculationError)
| CoTransactionTooLarge
| CoTooManyUtxos (count max : nat)
| CoNoUtxosAvailable
| CoInsufficientValueForFees.

Definition MAX_SWEEP_UTXOS : nat := 1000.

(** [None] drops a UTXO whose address is excluded. *)
Definition keep_utxo (excluded_addresses : list bytes) (u : Utxo) : option Utxo :=
  match utxo_eth_address u with
  | Some addr => if contains excluded_addresses addr then None else Some u
  | None => Some u
  end.

Definition filter_excluded_utxos (utxos : gmap OutPoint Utxo) (excluded_addresses : list bytes)
    : gmap OutPoint Utxo :=
  if bool_decide (excluded_addresses = []) then utxos
  else omap (keep_utxo excluded_addresses) utxos.

Section coordinator.
Context `{!BitcoinLib, !FrostLib, !PsbtLib, !BdkLib}.

Abbreviation CoM A := (M Db CoordinatorError A).

(** ** Collecting the rounds *)

Definition add_round1_signing (signing_session_id : bytes) (frost_id : Identifier) (psbt : Psbt)
    (min_signers : Z) : CoM unit :=
  map_errM CoFailedToValidatePsbt (validate_psbt psbt ROUND1 min_signers) ;!
  forM (inputs psbt) (λ i,
    match signing_commitments frost_id i with
    | None => fail CoCouldNotFindParticipantInformation
    | Some _ => ret tt
    end) ;!
  map_errM CoDb (update_psbt signing_session_id psbt) ;!
  map_errM CoDb flush.

Definition add_round2_signing (signing_session_id : bytes) (frost_id : Identifier) (psbt : Psbt)
    (min_signers : Z) : CoM unit :=
  map_errM CoFailedToValidatePsbt (validate_psbt psbt ROUND2 min_signers) ;!
  map_errM CoDb (update_psbt signing_session_id psbt) ;!
  map_errM CoDb flush.

(** ** Pegout transactions *)

(** [try_fold] into a [HashMap] keyed by outpoint *)
Definition utxo_map (us : list Utxo) : gmap OutPoint Utxo :=
  foldl (λ m u, <[utxo_outpoint u := u]> m) ∅ us.

(** The tracked transactions that honour one of the pegouts being retried. *)
Definition honours (ids : list PegoutId) (tx : Tx) : bool :=
  existsb (λ p, contains ids (pr_id p)) (tx_pegout_requests tx).

(** The pegouts of the batch that a tracked transaction already delivers. *)
Definition matching_pegouts_ids (tracked_txs : list Tx) (outs : list (TxOut * PegoutId))
    : list PegoutId :=
  let tracked_pegout_request_ids : gset PegoutId :=
    list_to_set (concat (map (λ tx, map pr_id (tx_pegout_requests tx)) tracked_txs)) in
  map snd (List.filter (λ o, bool_decide (o.2 ∈ tracked_pegout_request_ids)) outs).

(** The UTXOs of the first inputs of those transactions. *)
Definition conflicting_utxos (utxos : gmap OutPoint Utxo) (tracked_txs : list Tx)
    (outs : list (TxOut * PegoutId)) : outcome CoordinatorError (gmap OutPoint Utxo) :=
  let? matching_tracked_inputs :=
    omap_all (λ tx, ok_or (head (tx_inputs tx)) CoNoConflictingInputs)
      (List.filter (honours (matching_pegouts_ids tracked_txs outs)) tracked_txs) in
  let? found := omap_all (λ op,
    let? u := ok_or (utxos !! op) CoMissingUtxoForConflictingInput in Ok (op, u))
    matching_tracked_inputs in
  Ok (foldl (λ m p, <[p.1 := p.2]> m) ∅ found).

Definition attempt_make_tx (outs : list (TxOut * PegoutId)) (fee_rate : Z)
    (change_script : ScriptBuf) (min_signers : Z) (tracked_txs : list Tx)
    (excluded_eth_addresses : list bytes) (multisig_id : MultisigId) : CoM Psbt :=
  let! us := map_errM CoDb (iter_utxos_by_multisig multisig_id) in
  let utxos := utxo_map us in
  let filtered_utxos := filter_excluded_utxos utxos excluded_eth_addresses in
  let tracked_inputs : gset OutPoint := list_to_set (concat (map tx_inputs tracked_txs)) in
  let optional_utxos := filter (λ '(p, _), p ∉ tracked_inputs) filtered_utxos in
  let! conflicting := lift (conflicting_utxos utxos tracked_txs outs) in
  let! psbt := lift (map_err CoCoinSelectionErr
    (coin_selection optional_utxos conflicting outs fee_rate change_script)) in
  map_errM CoFailedToValidatePsbt (validate_psbt psbt NO_FLAGS min_signers) ;!
  ret psbt.

(** [outs.truncate(outs.len() - outs.len() / 10)] *)
Definition truncate_outputs (outs : list (TxOut * PegoutId)) : list (TxOut * PegoutId) :=
  take (length outs - length outs / 10) outs.

Definition exceeds_limit (psbt : Psbt) (tx_weight : Z) : bool :=
  (MAX_PEGOUT_TX_WEIGHT <? tx_weight) ||
  (MAX_PEGOUT_TX_INPUTS <? Z.of_nat (length (inputs psbt))).

(** The [loop] of [make_tx]; [None] when the fuel runs out. *)
Fixpoint make_tx_loop (fuel : nat) (attempted_outputs : list (TxOut * PegoutId)) (fee_rate : Z)
    (change_script : ScriptBuf) (min_signers : Z) (tracked_txs : list Tx)
    (excluded : list bytes) (multisig_id : MultisigId) (d : Db)
    : option (Db * outcome CoordinatorError Psbt) :=
  match fuel with
  | O => None
  | S fuel' =>
      match attempt_make_tx attempted_outputs fee_rate change_script min_signers tracked_txs
              excluded multisig_id d with
      | (d, Err e) => Some (d, Err e)
      | (d, Panic) => Some (d, Panic)
      | (d, Ok psbt) =>
          match calculate_signed_tx_weight psbt with
          | Err e => Some (d, Err (CoWalletCalculationError e))
          | Panic => Some (d, Panic)
          | Ok tx_weight =>
              if negb (exceeds_limit psbt tx_weight) then Some (d, Ok psbt)
              else if (length attempted_outputs <=? 1)%nat then Some (d, Err CoTransactionTooLarge)
              else make_tx_loop fuel' (truncate_outputs attempted_outputs) fee_rate change_script
                     min_signers tracked_txs excluded multisig_id d
          end
      end
  end.

(** With one more round than there are outputs every run that ends has
    ended. *)
Definition make_tx (outs : list (TxOut * PegoutId)) (fee_rate : Z)
    (change_script : ScriptBuf) (min_signers : Z) (tracked_txs : list Tx)
    (excluded : list bytes) (multisig_id : MultisigId) (d : Db)
    : option (Db * outcome CoordinatorError Psbt) :=
  make_tx_loop (S (length outs)) outs fee_rate change_script min_signers tracked_txs excluded
    multisig_id d.

(** ** Sweeps *)

Definition make_sweep_tx (fee_rate : Z) (output_script : ScriptBuf) (min_signers : Z)
    (multisig_id : MultisigId) : CoM Psbt :=
  let! us := map_errM CoDb (iter_utxos_by_multisig multisig_id) in
  let utxos := utxo_map us in
  if bool_decide (utxos = ∅) then fail CoNoUtxosAvailable else
  if (MAX_SWEEP_UTXOS <? size utxos)%nat then fail (CoTooManyUtxos (size utxos) MAX_SWEEP_UTXOS) else
  let ins := map utxo_to_dto (map_values utxos) in
  let! absolute_fee :=
    lift (map_err CoWalletCalculationError (calculate_sweep_fee ins output_script fee_rate)) in
  let! total_value := lift (amount_sum (map (λ i, value (dto_output i)) ins)) in
  let! output_value :=
    lift (ok_or (checked_sub total_value absolute_fee) CoInsufficientValueForFees) in
  let! psbt := lift (create_sweep_psbt ins (mkTxOut output_value output_script)) in
  map_errM CoFailedToValidatePsbt (validate_psbt psbt NO_FLAGS min_signers) ;!
  ret psbt.

(** ** Finishing a session *)

Definition get_to_sign (signing_session_id : bytes) (min_signers : Z) : CoM Psbt :=
  let! p := map_errM CoDb (get_psbt signing_session_id) in
  match p with
  | Some psbt =>
      forM (inputs psbt) (λ i,
        if Z.of_nat (size (all_signing_commitments i)) <? min_signers
        then fail CoNotEnoughSigners else ret tt) ;!
      map_errM CoFailedToValidatePsbt (validate_psbt psbt ROUND1_TRANSITION min_signers) ;!
      ret psbt
  | None => fail CoCouldNotFindPsbt
  end.

Context `{!FrostSign}.

(** [TapSighashType::Default] *)
Definition SIGHASH_DEFAULT : Z := 0.

Definition set_key_sig (sig : bytes) (i : PsbtInput) : PsbtInput :=
  mkPsbtInput (witness_utxo i) (in_proprietary i) (Some SIGHASH_DEFAULT)
    (Some (sig, SIGHASH_DEFAULT)) (final_script_witness i).

(** One input of the aggregation loop. *)
Definition aggregate_input (packages : list SigningPackage) (index : nat) (i : PsbtInput)
    : CoM PsbtInput :=
  let! m := lift (ok_or (multisig_id i) CoMissingMultisigId) in
  let! pk := map_errM CoDb (get_public_key_package_by_id m) in
  let! pk_package := lift (ok_or pk CoMissingKeyPackage) in
  let! signing_package :=
    lift (ok_or (packages !! index) (CoMissingSigningPackageAtIndex index)) in
  let tweak := eth_address i in
  let! agg_sig := lift (map_err CoFrostError
    (aggregate_with_tweak signing_package (all_partial_signatures i) pk_package tweak)) in
  (if verify_with_tweak pk_package tweak (sp_message signing_package) agg_sig
   then ret tt else fail (CoFrostError FrostFailed)) ;!
  let! secp_sig := lift (ok_or (schnorr_from_slice agg_sig) CoSecp256k1Error) in
  ret (set_key_sig secp_sig i).

Fixpoint aggregate_inputs (packages : list SigningPackage) (index : nat) (ins : list PsbtInput)
    : CoM (list PsbtInput) :=
  match ins with
  | [] => ret []
  | i :: ins' =>
      let! i' := aggregate_input packages index i in
      let! rest := aggregate_inputs packages (S index) ins' in
      ret (i' :: rest)
  end.

Definition set_final_witness (w : list bytes) (i : PsbtInput) : PsbtInput :=
  mkPsbtInput (witness_utxo i) (in_proprietary i) (sighash_type i) (tap_key_sig i) (Some w).

(** Copying the final witnesses back; indexing [psbt.inputs] can panic. *)
Definition copy_witnesses (finalized : Psbt) (ins : list PsbtInput)
    : outcome CoordinatorError (list PsbtInput) :=
  omap_all (λ '(index, i),
    let? f := expect (inputs finalized !! index) in
    let? w := ok_or (final_script_witness f) CoMissingFinalScript in
    Ok (set_final_witness w i)) (imap pair ins).

Definition finalize_signing (signing_session_id : bytes) : CoM Psbt :=
  let! p := map_errM CoDb (get_psbt signing_session_id) in
  let! psbt := lift (ok_or p CoCouldNotFindPsbt) in
  let! packages :=
    lift (map_err CoPsbtToSigningPackageConversionError (signing_packages psbt)) in
  let! ins := aggregate_inputs packages 0 (inputs psbt) in
  let original_psbt := mkPsbt (unsigned_tx psbt) ins (outputs psbt) in
  let! finalized := lift (ok_or (psbt_finalize original_psbt) CoPbstFinalizationFailed) in
  let! ins' := lift (copy_witnesses finalized ins) in
  ret (mkPsbt (unsigned_tx psbt) ins' (outputs psbt)).

End coordinator.

(** ** Maps built by insertion *)

Lemma fold_insert_Some {A} (l : list (OutPoint * A)) (acc : gmap OutPoint A) k v :
  foldl (λ m p, <[p.1 := p.2]> m) acc l !! k = Some v → (k, v) ∈ l ∨ acc !! k = Some v.
Proof.
  revert acc. induction l as [|[k' v'] l IH]; intros acc; simpl; [by right|].
  intros [?|Hk]%IH; [left; set_solver|].
  apply lookup_insert_Some in Hk as [[<- <-]|[_ ?]]; [left; set_solver|by right].
Qed.

Lemma fold_insert_is_Some {A} (l : list (OutPoint * A)) (acc : gmap OutPoint A) k :
  k ∈ l.*1 ∨ is_Some (acc !! k) → is_Some (foldl (λ m p, <[p.1 := p.2]> m) acc l !! k).
Proof.
  revert acc. induction l as [|[k' v'] l IH]; intros acc; simpl.
  - intros [Hk|?]; [by apply elem_of_nil in Hk|done].
  - intros Hk. apply IH. rewrite elem_of_cons in Hk.
    destruct (decide (k' = k)) as [->|Hne]; [right; by rewrite lookup_insert_eq|].
    rewrite lookup_insert_ne by done. naive_solver.
Qed.

Lemma utxo_map_fold us :
  utxo_map us = foldl (λ m p, <[p.1 := p.2]> m) ∅ (map (λ u, (utxo_outpoint u, u)) us).
Proof.
  unfold utxo_map. generalize (∅ : gmap OutPoint Utxo).
  induction us as [|u us IH]; intros acc; simpl; [done|apply IH].
Qed.

(** The UTXOs of a federation, as the coordinator loads them. *)
Lemma federation_utxos `{!BitcoinLib, !FrostLib, !BitcoinLaws} d m id :
  utxo_view d m → io d = [] →
  ∃ us, iter_utxos_by_multisig id d = (d, Ok us) ∧
    ∀ o u, utxo_map us !! o = Some u ↔ m !! o = Some u ∧ utxo_multisig_id u = id.
Proof.
  intros Hv Hio. destruct (store_by_multisig d m id Hv Hio) as (us & Hus & Hp).
  exists us. split; [done|].
  assert (∀ u, u ∈ us ↔ m !! utxo_outpoint u = Some u ∧ utxo_multisig_id u = id) as Hin.
  { intros u. rewrite Hp, list_elem_of_In, List.filter_In, <-list_elem_of_In,
      bool_decide_eq_true, list_elem_of_fmap. split.
    - intros [([o u'] & -> & Ho%elem_of_map_to_list) ?]. split; [|done]. simpl in *.
      by rewrite (utxo_view_keyed d m o u' Hv Ho).
    - intros [? ?]. split; [|done]. exists (utxo_outpoint u, u). by rewrite elem_of_map_to_list. }
  intros o u. rewrite utxo_map_fold. split.
  - intros [Hu|Hu]%fold_insert_Some; [|by rewrite lookup_empty in Hu].
    apply list_elem_of_fmap in Hu as (u' & [= -> ->] & Hu). by apply Hin.
  - intros [Hu Hid]. pose proof (utxo_view_keyed d m o u Hv Hu) as <-.
    destruct (fold_insert_is_Some (map (λ u, (utxo_outpoint u, u)) us) ∅ (utxo_outpoint u))
      as [u' Hu'].
    { left. change (map ?f ?l) with (f <$> l). rewrite <-list_fmap_compose.
      apply (list_elem_of_fmap_2 (fst ∘ λ u, (utxo_outpoint u, u)) us u). by apply Hin. }
    rewrite Hu'. apply fold_insert_Some in Hu' as [Hi|Hi]; [|by rewrite lookup_empty in Hi].
    apply list_elem_of_fmap in Hi as (u2 & [= Ho ->] & Hi). apply Hin in Hi as [Hi _].
    rewrite <-Ho in Hi. congruence.
Qed.

(** ** Conflicting inputs of a batch *)

(** A tracked transaction delivers one of the pegouts of the batch. *)
Definition delivers_one_of (t : Tx) (outs : list (TxOut * PegoutId)) : Prop :=
  ∃ r, r ∈ tx_pegout_requests t ∧ pr_id r ∈ map snd outs.

Lemma honours_iff (outs : list (TxOut * PegoutId)) txs t :
  t ∈ txs →
  honours (matching_pegouts_ids txs outs) t = true ↔ delivers_one_of t outs.
Proof.
  intros Ht. unfold honours, matching_pegouts_ids, delivers_one_of. rewrite existsb_exists. split.
  - intros (r & Hr & Hc%contains_true). exists r. rewrite list_elem_of_In. split; [done|].
    apply list_elem_of_fmap in Hc as (o & Ho & Hin%list_elem_of_In).
    apply List.filter_In in Hin as [Hin _]. rewrite Ho.
    by apply (list_elem_of_fmap_2 snd), list_elem_of_In.
  - intros (r & Hr & Hid). exists r. rewrite <-list_elem_of_In. split; [done|].
    apply contains_true. apply list_elem_of_fmap in Hid as (o & Ho & Hin).
    rewrite Ho. apply (list_elem_of_fmap_2 snd), list_elem_of_In, List.filter_In.
    rewrite <-list_elem_of_In. split; [done|]. apply bool_decide_eq_true, elem_of_list_to_set.
    rewrite list_elem_of_In, in_concat. exists (map pr_id (tx_pegout_requests t)).
    rewrite <-!list_elem_of_In. split.
    + by apply (list_elem_of_fmap_2 (λ tx, map pr_id (tx_pegout_requests tx))).
    + rewrite <-Ho. by apply list_elem_of_fmap_2.
Qed.

Lemma conflicting_utxos_Ok utxos txs outs c :
  conflicting_utxos utxos txs outs = Ok c →
  (∀ t, t ∈ txs → delivers_one_of t outs →
     ∃ o, head (tx_inputs t) = Some o ∧ is_Some (c !! o)) ∧
  (∀ o u, c !! o = Some u → utxos !! o = Some u ∧
     ∃ t, t ∈ txs ∧ delivers_one_of t outs ∧ head (tx_inputs t) = Some o).
Proof.
  unfold conflicting_utxos. intros Hc. ores Hc. injection Hc as <-.
  apply omap_all_Ok in Ho, Ho0. split.
  - intros t Ht Hd. assert (t ∈ List.filter (honours (matching_pegouts_ids txs outs)) txs) as Hin.
    { apply list_elem_of_In, List.filter_In. rewrite <-list_elem_of_In.
      split; [done|]. by apply honours_iff. }
    apply list_elem_of_lookup in Hin as [i Hi].
    destruct (Forall2_lookup_l _ _ _ _ _ Ho Hi) as (o & Ho' & Hh%ok_or_Ok).
    exists o. split; [done|]. apply fold_insert_is_Some. left.
    destruct (Forall2_lookup_l _ _ _ _ _ Ho0 Ho') as ([o2 u2] & Hl & Hp).
    ores Hp. injection Hp as <- <-. apply list_elem_of_fmap. exists (o, a1).
    split; [done|]. by eapply list_elem_of_lookup_2.
  - intros o u [Hu|Hu]%fold_insert_Some; [|by rewrite lookup_empty in Hu].
    apply list_elem_of_lookup in Hu as [i Hi].
    destruct (Forall2_lookup_r _ _ _ _ _ Ho0 Hi) as (o2 & Hl & Hp).
    ores Hp. injection Hp as -> ->. apply ok_or_Ok in Ho1. split; [done|].
    destruct (Forall2_lookup_r _ _ _ _ _ Ho Hl) as (t & Ht & Hh%ok_or_Ok).
    apply list_elem_of_lookup_2, list_elem_of_In, List.filter_In in Ht as [Ht Hhon].
    apply list_elem_of_In in Ht. exists t. split; [done|]. split; [by eapply honours_iff|done].
Qed.

(** ** One attempt *)

(** All stored values are 64-bit amounts. *)
Definition wallet_wf (m : gmap OutPoint Utxo) : Prop :=
  map_Forall (λ _ u, 0 ≤ value (utxo_output u)) m.

Section attempt.
Context `{!BitcoinLib, !FrostLib, !PsbtLib, !BdkLib, !BitcoinLaws, !PsbtLaws, !BdkLaws}.

Lemma validate_no_flags p n d d' :
  io d = [] → validate_psbt p NO_FLAGS n d = (d', Ok tt) → d' = d ∧ sane d p.
Proof.
  intros Hio. unfold validate_psbt. intros Hr. mres Hr. destruct a.
  apply (decides_Ok _ _ _ _ (sanity_checks_decides p d Hio)) in Hm as [Hs ->].
  change (NO_FLAGS =? NO_FLAGS) with true in Hr. injection Hr as <-. done.
Qed.

Lemma filter_excluded_Some utxos ex o u :
  filter_excluded_utxos utxos ex !! o = Some u → utxos !! o = Some u.
Proof.
  unfold filter_excluded_utxos. case_bool_decide; [done|]. rewrite lookup_omap_Some.
  intros (u' & Hk & Hu). rewrite Hu. unfold keep_utxo in Hk.
  destruct (utxo_eth_address u'); [|by injection Hk as ->].
  by destruct (contains ex _); [|injection Hk as ->].
Qed.

(** The parts of a successful attempt. *)
Lemma attempt_make_tx_Ok d d' m outs rate spk n txs ex id p :
  utxo_view d m → io d = [] →
  attempt_make_tx outs rate spk n txs ex id d = (d', Ok p) →
  d' = d ∧ sane d p ∧ ∃ utxos c,
    (∀ o u, utxos !! o = Some u ↔ m !! o = Some u ∧ utxo_multisig_id u = id) ∧
    conflicting_utxos utxos txs outs = Ok c ∧
    coin_selection (filter (λ '(p, _), p ∉ (list_to_set (concat (map tx_inputs txs)) : gset OutPoint))
      (filter_excluded_utxos utxos ex)) c outs rate spk = Ok p.
Proof.
  intros Hv Hio. unfold attempt_make_tx.
  destruct (federation_utxos d m id Hv Hio) as (us & Hus & Hmap).
  unfold bindM at 1, map_errM at 1. rewrite Hus. cbn [map_err]. intros Hr. mres Hr.
  injection Hr as <- <-. apply lift_Ok in Hm as [-> Hc]. apply lift_Ok in Hm0 as [-> Hsel].
  rewrite map_err_Ok in Hsel. destruct a1. rewrite map_errM_Ok in Hm1.
  apply validate_no_flags in Hm1 as [-> Hs]; [|done]. split; [done|]. split; [done|].
  by exists (utxo_map us), a.
Qed.

Lemma attempt_keeps_db d d' m outs rate spk n txs ex id p :
  utxo_view d m → io d = [] →
  attempt_make_tx outs rate spk n txs ex id d = (d', Ok p) → d' = d.
Proof. intros Hv Hio Ha. by eapply attempt_make_tx_Ok in Ha as [-> _]. Qed.

Lemma tracked_input_elem txs o :
  o ∈ (list_to_set (concat (map tx_inputs txs)) : gset OutPoint) ↔ ∃ t, t ∈ txs ∧ o ∈ tx_inputs t.
Proof.
  rewrite elem_of_list_to_set, list_elem_of_In, in_concat. split.
  - intros (l & Hl & Ho). apply in_map_iff in Hl as (t & <- & Ht).
    exists t. by rewrite !list_elem_of_In.
  - intros (t & Ht & Ho). exists (tx_inputs t). rewrite <-!list_elem_of_In.
    split; [|done]. by apply (list_elem_of_fmap_2 tx_inputs).
Qed.

Lemma keyed_sub m (m' : gmap OutPoint Utxo) :
  (∀ o u, m !! o = Some u → utxo_outpoint u = o) → wallet_wf m →
  (∀ o u, m' !! o = Some u → m !! o = Some u) → keyed m'.
Proof. intros Hk Hw Hs o u Hu. split; [by eapply Hk, Hs|]. by eapply Hw, Hs. Qed.

(** C1.  A PSBT that [attempt_make_tx] builds, while the database answers, from a
    well-formed wallet and for pegouts of nonnegative value to scripts with a
    positive dust limit, is safe to sign: it spends only
    UTXOs of the requested federation; it spends the first input of every
    tracked transaction that delivers one of its pegouts, so that the two
    exclude each other; apart from those inputs it touches no tracked input;
    its outputs and conflicts pass the signers' checks; it pays out what it
    spends up to a fee; and the database is unchanged. *)
Theorem attempt_make_tx_safe d d' m outs rate spk n txs ex id p :
  utxo_view d m → wallet_wf m → io d = [] →
  Forall (λ o, 0 ≤ value o.1 ∧ 0 < minimal_non_dust (script_pubkey o.1)) outs →
  attempt_make_tx outs rate spk n txs ex id d = (d', Ok p) →
  d' = d ∧ sane d p ∧
  (∀ o, o ∈ spends p → ∃ u, m !! o = Some u ∧ utxo_multisig_id u = id) ∧
  (∀ t, t ∈ txs → delivers_one_of t outs → ∃ o, head (tx_inputs t) = Some o ∧ o ∈ spends p) ∧
  (∀ o t, o ∈ spends p → t ∈ txs → o ∈ tx_inputs t →
     ∃ t', t' ∈ txs ∧ delivers_one_of t' outs ∧ head (tx_inputs t') = Some o) ∧
  (∃ fee, is_u64 fee ∧ spent p = paid p + fee).
Proof.
  intros Hv Hw Hio Hout Ha.
  destruct (attempt_make_tx_Ok _ _ _ _ _ _ _ _ _ _ _ Hv Hio Ha) as (-> & Hs & us & c & Hus & Hc & Hsel).
  destruct (conflicting_utxos_Ok _ _ _ _ Hc) as [Hreq Hcu].
  assert (∀ o u, m !! o = Some u → utxo_outpoint u = o) as Hkey
    by (intros o u Hu; by eapply utxo_view_keyed).
  assert (Forall (λ o, 0 ≤ value o.1) outs) as Hv0
    by (eapply Forall_impl; [exact Hout|]; naive_solver).
  apply coin_selection_Ok in Hsel as (ins & fil & Hin & Hr & Hp); [|..|done].
  2: { eapply keyed_sub; [done..|]. intros o u [Hu _]%map_lookup_filter_Some.
       apply filter_excluded_Some in Hu. by apply Hus. }
  2: { eapply keyed_sub; [done..|]. intros o u Hu. apply Hcu in Hu as [Hu _]. by apply Hus. }
  assert (spends p = map dto_outpoint ins) as Hsp.
  { destruct Hp as (final & fee & chg & -> & _). apply map_unsigned_input. }
  assert (∀ o, o ∈ spends p → ∃ u, utxo_outpoint u = o ∧
    ((us !! o = Some u ∧ ∀ t, t ∈ txs → o ∉ tx_inputs t) ∨ c !! o = Some u)) as Hspent.
  { intros o. rewrite Hsp. intros (i & -> & Hi)%list_elem_of_fmap.
    destruct (Hin i Hi) as (op & u & [Hu|Hu] & ->); simpl.
    - apply map_lookup_filter_Some in Hu as [Hu Hn]. apply filter_excluded_Some in Hu.
      pose proof (Hkey op u (proj1 (proj1 (Hus _ _) Hu))) as Ho.
      exists u. rewrite Ho. split; [done|]. left. split; [done|]. intros t Ht Hot.
      apply Hn, tracked_input_elem. eauto.
    - pose proof Hu as Hu'. apply Hcu in Hu' as [Hu' _].
      pose proof (Hkey op u (proj1 (proj1 (Hus _ _) Hu'))) as Ho.
      exists u. rewrite Ho. split; [done|]. by right. }
  split; [done|]. split; [done|]. split_and!.
  - intros o Ho. destruct (Hspent o Ho) as (u & _ & [[Hu _]|Hu]).
    + exists u. by apply Hus.
    + apply Hcu in Hu as [Hu _]. exists u. by apply Hus.
  - intros t Ht Hd. destruct (Hreq t Ht Hd) as (o & Hh & Hso). exists o. split; [done|].
    rewrite Hsp. by apply Hr.
  - intros o t Ho Ht Hot. destruct (Hspent o Ho) as (u & _ & [[_ Hn]|Hu]).
    + by destruct (Hn t Ht).
    + apply Hcu in Hu as (_ & t' & ? & ? & ?). eauto.
  - apply paid_batch_conserves in Hp as (chg & fee & Hf & _ & _ & Hsum & _).
    + exists fee. split; [|done]. by eapply calculate_required_fee_range.
    + apply remaining_Forall, encode_ids_dust. eapply Forall_impl; [exact Hout|]. naive_solver.
Qed.

(** ** The loop *)

(** The attempt with these outputs yields a PSBT over the limits. *)
Definition oversized (outs : list (TxOut * PegoutId)) rate spk n txs ex id (d : Db) : Prop :=
  ∃ p w, attempt_make_tx outs rate spk n txs ex id d = (d, Ok p) ∧
    calculate_signed_tx_weight p = Ok w ∧ exceeds_limit p w = true.

(** The same as a computation. *)
Definition oversized_b (outs : list (TxOut * PegoutId)) rate spk n txs ex id (d : Db) : bool :=
  match attempt_make_tx outs rate spk n txs ex id d with
  | (_, Ok p) => match calculate_signed_tx_weight p with
                 | Ok w => exceeds_limit p w
                 | _ => false
                 end
  | _ => false
  end.

Lemma oversized_b_true m outs rate spk n txs ex id d :
  utxo_view d m → io d = [] → oversized_b outs rate spk n txs ex id d = true →
  oversized outs rate spk n txs ex id d.
Proof.
  intros Hv Hio. unfold oversized_b, oversized.
  destruct (attempt_make_tx outs rate spk n txs ex id d) as [d' [p|e|]] eqn:Ea; [|done..].
  assert (d' = d) as -> by by eapply attempt_keeps_db.
  destruct (calculate_signed_tx_weight p) as [w|e|] eqn:Ew; [|done..]. eauto.
Qed.

Lemma oversized_b_false outs rate spk n txs ex id d :
  oversized_b outs rate spk n txs ex id d = false → ¬ oversized outs rate spk n txs ex id d.
Proof. unfold oversized_b. by intros Hb (p & w & Ha & Hw & Hx); rewrite Ha, Hw, Hx in Hb. Qed.

Lemma truncate_small outs : (length outs ≤ 9)%nat → truncate_outputs outs = outs.
Proof.
  intros Hl. unfold truncate_outputs. rewrite Nat.div_small by lia.
  rewrite Nat.sub_0_r. by rewrite firstn_all.
Qed.

Lemma truncate_shorter outs : (10 ≤ length outs)%nat →
  (1 ≤ length (truncate_outputs outs) < length outs)%nat.
Proof.
  intros Hl. unfold truncate_outputs. rewrite length_take.
  pose proof (Nat.div_lt (length outs) 10). pose proof (Nat.div_le_lower_bound (length outs) 10 1). lia.
Qed.

(** One round of the loop. *)
Lemma make_tx_loop_step m fuel outs rate spk n txs ex id d :
  utxo_view d m → io d = [] →
  (∃ r, (∀ fuel', make_tx_loop (S fuel') outs rate spk n txs ex id d = Some r) ∧
     ∀ d' p, r = (d', Ok p) → d' = d ∧
       attempt_make_tx outs rate spk n txs ex id d = (d, Ok p) ∧
       ∃ w, calculate_signed_tx_weight p = Ok w ∧ exceeds_limit p w = false) ∨
  (oversized outs rate spk n txs ex id d ∧ (2 ≤ length outs)%nat ∧
   make_tx_loop (S fuel) outs rate spk n txs ex id d =
   make_tx_loop fuel (truncate_outputs outs) rate spk n txs ex id d).
Proof.
  intros Hv Hio. cbn [make_tx_loop].
  destruct (attempt_make_tx outs rate spk n txs ex id d) as [d' [p|e|]] eqn:Ea.
  - assert (d' = d) as -> by by eapply attempt_keeps_db.
    destruct (calculate_signed_tx_weight p) as [w|e|] eqn:Ew; [|left; eexists; split; [done|]; naive_solver..].
    destruct (exceeds_limit p w) eqn:Ex; cbn [negb].
    + destruct (Nat.leb_spec (length outs) 1).
      * left. eexists. split; [done|]. naive_solver.
      * right. split; [by exists p, w|]. split; [lia|done].
    + left. eexists. split; [done|]. intros d' p' [= <- <-]. eauto.
  - left. eexists. split; [done|]. naive_solver.
  - left. eexists. split; [done|]. naive_solver.
Qed.

Lemma make_tx_loop_stuck m fuel outs rate spk n txs ex id d :
  utxo_view d m → io d = [] → oversized outs rate spk n txs ex id d →
  (2 ≤ length outs ≤ 9)%nat → make_tx_loop fuel outs rate spk n txs ex id d = None.
Proof.
  intros Hv Hio (p & w & Ha & Hw & Hx) Hl. induction fuel as [|fuel IH]; [done|].
  cbn [make_tx_loop]. rewrite Ha, Hw, Hx. cbn [negb].
  destruct (Nat.leb_spec (length outs) 1); [lia|]. by rewrite truncate_small by lia.
Qed.

Lemma truncate_take outs k : (k ≤ length (truncate_outputs outs))%nat →
  take k (truncate_outputs outs) = take k outs.
Proof.
  unfold truncate_outputs. rewrite length_take. intros Hk. rewrite take_take. f_equal. lia.
Qed.

(** The run of the loop on any batch. *)
Lemma make_tx_loop_cases m outs rate spk n txs ex id d :
  utxo_view d m → io d = [] →
  (∃ r, (∀ fuel, (length outs < fuel)%nat → make_tx_loop fuel outs rate spk n txs ex id d = Some r) ∧
     ∀ d' p, r = (d', Ok p) → d' = d ∧
       ∃ k w, (k ≤ length outs)%nat ∧
         attempt_make_tx (take k outs) rate spk n txs ex id d = (d, Ok p) ∧
         calculate_signed_tx_weight p = Ok w ∧ exceeds_limit p w = false) ∨
  ((∃ k, (2 ≤ k ≤ 9)%nat ∧ (k ≤ length outs)%nat ∧ oversized (take k outs) rate spk n txs ex id d) ∧
   ∀ fuel, make_tx_loop fuel outs rate spk n txs ex id d = None).
Proof.
  intros Hv Hio. remember (length outs) as len eqn:Elen. revert outs Elen.
  induction len as [len IH] using lt_wf_ind. intros outs ->.
  destruct (make_tx_loop_step m 0 outs rate spk n txs ex id d Hv Hio)
    as [(r & Hr & Hok)|(Hov & Hl & _)].
  - left. exists r. split; [intros [|fuel] Hf; [lia|apply Hr]|].
    intros d' p Hp. destruct (Hok d' p Hp) as (-> & Ha & w & Hw & Hx). split; [done|].
    exists (length outs), w. rewrite firstn_all. eauto.
  - destruct (decide (length outs ≤ 9)%nat) as [Hs|Hbig].
    { right. split; [|intros fuel; by eapply make_tx_loop_stuck].
      exists (length outs). rewrite firstn_all. split; [lia|]. done. }
    destruct (truncate_shorter outs ltac:(lia)) as [Hlo Hlt].
    assert (∀ fuel, make_tx_loop (S fuel) outs rate spk n txs ex id d =
      make_tx_loop fuel (truncate_outputs outs) rate spk n txs ex id d) as Hstep.
    { intros fuel. destruct Hov as (p & w & Ha & Hw & Hx). cbn [make_tx_loop].
      rewrite Ha, Hw, Hx. cbn [negb]. destruct (Nat.leb_spec (length outs) 1); [lia|done]. }
    destruct (IH _ Hlt (truncate_outputs outs) eq_refl) as [(r & Hr & Hok)|((k & Hk1 & Hk2 & Hk3) & Hnone)].
    + left. exists r. split; [intros [|fuel] Hf; [lia|rewrite Hstep; apply Hr; lia]|].
      intros d' p Hp. destruct (Hok d' p Hp) as (-> & k & w & Hk & Ha & ?). split; [done|].
      exists k, w. rewrite truncate_take in Ha by done. split; [lia|done].
    + right. split; [|intros [|fuel]; [done|by rewrite Hstep]].
      exists k. rewrite truncate_take in Hk3 by done. split; [done|]. split; [lia|done].
Qed.

End attempt.

(** ** Properties of the loop *)

Section loop_properties.
Context `{!BitcoinLib, !FrostLib, !PsbtLib, !BdkLib, !BitcoinLaws, !PsbtLaws, !BdkLaws}.

(** C38.  When [make_tx] returns a PSBT, while the database answers, it is the attempt for a prefix of the
    requested pegouts, its signed weight is at most 50,000 units (the unsigned
    transaction, 66 units of witness per input and the two segwit bytes), it
    has at most 80 inputs, and the database is unchanged. *)
Theorem make_tx_within_limits m outs rate spk n txs ex id d d' p :
  utxo_view d m → io d = [] →
  make_tx outs rate spk n txs ex id d = Some (d', Ok p) →
  d' = d ∧
  (∃ k, (k ≤ length outs)%nat ∧
     attempt_make_tx (take k outs) rate spk n txs ex id d = (d, Ok p)) ∧
  tx_weight (unsigned_tx p) + 66 * Z.of_nat (length (inputs p)) + 2 ≤ MAX_PEGOUT_TX_WEIGHT ∧
  Z.of_nat (length (inputs p)) ≤ MAX_PEGOUT_TX_INPUTS.
Proof.
  intros Hv Hio Hmk. destruct (make_tx_loop_cases m outs rate spk n txs ex id d Hv Hio)
    as [(r & Hr & Hok)|[_ Hnone]].
  - unfold make_tx in Hmk. rewrite Hr in Hmk by lia. injection Hmk as ->.
    destruct (Hok d' p eq_refl) as (-> & k & w & Hk & Ha & Hw & Hx). split; [done|].
    split; [eauto|]. apply calculate_signed_tx_weight_Ok in Hw. subst w.
    unfold exceeds_limit in Hx. apply orb_false_iff in Hx as [Hx1 Hx2]. lia.
  - unfold make_tx in Hmk. by rewrite Hnone in Hmk.
Qed.

(** C36.  [make_tx] terminates unless a small batch is oversized: if the database
    answers and no attempt for the first two to nine of the pegouts yields a PSBT
    over the limits, the loop returns after at most one round per pegout and one
    more. *)
Theorem make_tx_terminates m outs rate spk n txs ex id d :
  utxo_view d m → io d = [] →
  (∀ k, (2 ≤ k ≤ 9)%nat → (k ≤ length outs)%nat →
     ¬ oversized (take k outs) rate spk n txs ex id d) →
  ∃ r, make_tx outs rate spk n txs ex id d = Some r ∧
    ∀ fuel, (length outs < fuel)%nat → make_tx_loop fuel outs rate spk n txs ex id d = Some r.
Proof.
  intros Hv Hio Hsmall. destruct (make_tx_loop_cases m outs rate spk n txs ex id d Hv Hio)
    as [(r & Hr & _)|[(k & Hk & Hle & Hov) _]].
  - exists r. split; [|done]. apply Hr. lia.
  - by destruct (Hsmall k Hk Hle).
Qed.

End loop_properties.

(** ** Sweeps *)

Section sweep.
Context `{!BitcoinLib, !FrostLib, !PsbtLib, !BitcoinLaws, !PsbtLaws}.

(** The parts of a successful sweep. *)
Lemma make_sweep_tx_Ok m rate spk n id d d' p :
  utxo_view d m → io d = [] → make_sweep_tx rate spk n id d = (d', Ok p) →
  d' = d ∧ sane d p ∧ ∃ um v fee,
    (∀ o u, um !! o = Some u ↔ m !! o = Some u ∧ utxo_multisig_id u = id) ∧
    um ≠ ∅ ∧ (size um ≤ MAX_SWEEP_UTXOS)%nat ∧
    p = psbt_of (map utxo_to_dto (map_values um)) [] (Some (mkTxOut v spk)) ∧
    is_u64 fee ∧ 0 ≤ v ∧
    checked_sum (map (λ i, value (dto_output i)) (map utxo_to_dto (map_values um))) = Some (v + fee).
Proof.
  intros Hv Hio. unfold make_sweep_tx.
  destruct (federation_utxos d m id Hv Hio) as (us & Hus & Hmap).
  unfold bindM at 1, map_errM at 1. rewrite Hus. cbn [map_err].
  case_bool_decide as Hne; [discriminate|].
  destruct (Nat.ltb_spec MAX_SWEEP_UTXOS (size (utxo_map us))) as [|Hmax]; [discriminate|].
  intros Hr. mres Hr. injection Hr as <- <-.
  apply lift_Ok in Hm as [-> Hfee]. apply lift_Ok in Hm0 as [-> Hsum].
  apply lift_Ok in Hm1 as [-> Hsub]. apply lift_Ok in Hm2 as [-> Hpsbt].
  destruct a3. rewrite map_errM_Ok in Hm3. apply validate_no_flags in Hm3 as [-> Hs]; [|done].
  rewrite create_sweep_psbt_eq in Hpsbt. injection Hpsbt as <-.
  apply ok_or_Ok, checked_sub_Some in Hsub as [-> Hle]. apply expect_Ok in Hsum.
  unfold calculate_sweep_fee in Hfee. apply map_err_Ok in Hfee. ores Hfee.
  apply ok_or_Ok, fee_wu_range in Hfee.
  split; [done|]. split; [done|]. exists (utxo_map us), (a0 - a), a.
  split_and!; try done; [lia|]. rewrite Hsum. f_equal. lia.
Qed.

(** A sweep spends every UTXO of the federation, each once and nothing
    else, into a single output that pays the given script the whole value less
    a fee; it has at most 1,000 inputs and the database is unchanged. *)
Theorem sweep_spends_everything m rate spk n id d d' p :
  utxo_view d m → wallet_wf m → io d = [] →
  make_sweep_tx rate spk n id d = (d', Ok p) →
  d' = d ∧ sane d p ∧
  (∀ o, o ∈ spends p ↔ ∃ u, m !! o = Some u ∧ utxo_multisig_id u = id) ∧
  NoDup (spends p) ∧ (1 ≤ length (spends p) ≤ 1000)%nat ∧
  ∃ v fee, output (unsigned_tx p) = [mkTxOut v spk] ∧ spent p = v + fee ∧ 0 ≤ v ∧ 0 ≤ fee.
Proof.
  intros Hv Hw Hio Hmk.
  destruct (make_sweep_tx_Ok _ _ _ _ _ _ _ _ Hv Hio Hmk)
    as (-> & Hs & um & v & fee & Hmap & Hne & Hmax & -> & Hfee & Hv0 & Hsum).
  assert (spends (psbt_of (map utxo_to_dto (map_values um)) [] (Some (mkTxOut v spk))) =
    (map_to_list um).*1) as Hsp.
  { unfold spends. cbn [psbt_of unsigned_tx input]. rewrite map_unsigned_input, map_map.
    unfold map_values. change (map ?f ?l) with (f <$> l). rewrite <-list_fmap_compose.
    apply list_fmap_ext. intros i [o u] Hi. simpl. eapply utxo_view_keyed; [done|].
    apply Hmap, elem_of_map_to_list. by eapply list_elem_of_lookup_2. }
  split; [done|]. split; [done|]. rewrite Hsp, length_fmap, length_map_to_list. split_and!.
  - intros o. rewrite list_elem_of_fmap. split.
    + intros ([o' u] & -> & Hu%elem_of_map_to_list). exists u. by apply Hmap.
    + intros (u & Hu). exists (o, u). split; [done|]. by apply elem_of_map_to_list, Hmap.
  - apply NoDup_fst_map_to_list.
  - apply map_size_non_empty_iff in Hne. lia.
  - done.
  - exists v, fee. split; [done|]. rewrite psbt_of_spent.
    unfold is_u64 in Hfee. apply checked_sum_Some in Hsum as [Heq _]; [lia|].
    rewrite map_map. apply Forall_map, Forall_forall.
    intros u (o & Hu)%elem_of_map_values. simpl. by eapply Hw, Hmap.
Qed.

(** The sweep is checked against the legacy federation's change script:
    whatever federation is swept, a destination other than the taproot script
    of the key stored under multisig id 0 is refused, so the migration to a
    new federation that the sweep is for cannot be built. *)
Theorem sweep_to_other_federation_fails m rate spk n id d pkg agg_pk :
  utxo_view d m → io d = [] →
  pubkey_packages d !! multisig_key LEGACY_MULTISIG_ID = Some pkg →
  to_secp_pk pkg = Some agg_pk → spk ≠ generate_taproot_change_scriptpubkey agg_pk →
  ∀ p, (make_sweep_tx rate spk n id d).2 ≠ Ok p.
Proof.
  intros Hv Hio Hpkg Hagg Hne p Hok.
  destruct (make_sweep_tx rate spk n id d) as [d' r] eqn:E. simpl in Hok. subst r.
  destruct (make_sweep_tx_Ok _ _ _ _ _ _ _ _ Hv Hio E)
    as (-> & (_ & _ & _ & [_ _ _ _ (pkg' & Hpkg' & Hchange)] & _) & um & v & fee & _ & _ & _ & -> & _).
  destruct (Hchange 0%nat PsbtOutput_default (mkTxOut v spk)) as (agg & Hagg' & Hspk);
    [done..|]. simpl in Hspk. congruence.
Qed.

End sweep.

(** ** Signing sessions *)

#[export] Instance keeps_psbts_io `{!FrostLib} : IoFree (keeps psbts).
Proof. intros r d. reflexivity. Qed.

Section sessions.
Context `{!BitcoinLib, !FrostLib, !PsbtLib}.

(** Validation writes no PSBT, whatever its outcome. *)
Lemma validate_psbt_keeps_psbts p flags n : respects (keeps psbts) (validate_psbt p flags n).
Proof.
  assert (respects (keeps psbts) (sanity_checks p)) as Hs.
  { unfold sanity_checks, has_conflicting_input, validate_outputs, check_scanned,
      get_tracked_txs, get_public_key_package, get_public_key_package_by_id,
      get_finalized_pegout_ids, remove_pending_pegout.
    repeat (intros; first
      [ apply respects_bind; [apply _| |]
      | apply respects_map_err | apply respects_okM | apply respects_lift; apply _
      | apply respects_ret; apply _ | apply respects_fail; apply _
      | apply respects_forM; [apply _|apply _|]
      | apply respects_sled_read; apply _
      | apply respects_sled_write; [apply _|apply _|reflexivity]
      | case_match ]). }
  assert (∀ tx k ins, respects (keeps psbts) (check_inputs flags tx k ins)) as Hc.
  { intros tx k ins. revert k. induction ins as [|i ins IH]; intros k; cbn [check_inputs].
    { apply respects_ret; apply _. }
    destruct (has_flag flags ROUND1); [|apply IH].
    apply respects_bind; [apply _| |intros []; [apply IH|apply respects_ret; apply _]].
    unfold check_round1_input. apply respects_bind; [apply _|apply respects_lift; apply _|].
    intros txin. apply respects_bind; [apply _| |].
    - intros d. pose proof (respects_sled_read (keeps psbts)
        (λ d, load_form (previous_output txin) <$> utxos d !! to_bytes (previous_output txin)) d) as Hr.
      unfold get_utxo. by destruct (sled_read _ d) as [d' [?|?|]].
    - intros u. repeat (intros; first
      [ apply respects_bind; [apply _| |] | apply respects_lift; apply _
      | apply respects_ret; apply _ | apply respects_fail; apply _ | case_match ]). }
  unfold validate_psbt. apply respects_bind; [apply _|done|]. intros _.
  destruct (flags =? NO_FLAGS); [apply respects_ret; apply _|].
  apply respects_bind; [apply _|apply respects_lift; apply _|]. intros _.
  apply respects_bind; [apply _|apply respects_lift; apply _|]. intros tx. apply Hc.
Qed.

Lemma check_inputs_state flags tx k ins d d' :
  io d = [] → check_inputs flags tx k ins d = (d', Ok tt) → d' = d.
Proof.
  intros Hio. revert k. induction ins as [|i ins IH]; intros k; cbn [check_inputs];
    [by intros [= <-]|].
  destruct (has_flag flags ROUND1); [|apply IH]. intros Hr. mres Hr.
  assert (s = d) as ->.
  { unfold check_round1_input in Hm. mres Hm. apply lift_Ok in Hm0 as [-> _].
    unfold get_utxo in Hm1. rewrite sled_read_ok in Hm1 by done. injection Hm1 as <- <-.
    destruct (_ <$> _) as [u|]; [|by injection Hm as <-]. mres Hm.
    assert (s0 = d) as ->.
    { destruct (utxo_eth_address u); [destruct (negb _); [discriminate|]|]; by injection Hm0 as <-. }
    apply lift_Ok in Hm1 as [-> _]. destruct (negb _); [discriminate|].
    by injection Hm as <-. }
  destruct a; [by eapply IH|by injection Hr as <-].
Qed.

Lemma validate_psbt_state p flags n d d' :
  io d = [] → validate_psbt p flags n d = (d', Ok tt) → d' = d ∧ sane d p.
Proof.
  intros Hio. unfold validate_psbt. intros Hr. mres Hr. destruct a.
  apply (decides_Ok _ _ _ _ (sanity_checks_decides p d Hio)) in Hm as [Hs ->].
  destruct (flags =? NO_FLAGS); [by injection Hr as <-|]. mres Hr.
  apply lift_Ok in Hm as [-> _], Hm0 as [-> _]. split; [by eapply check_inputs_state|done].
Qed.

(** The PSBT of a session after a signer's contribution. *)
Definition merged (old : option Psbt) (new : Psbt) : outcome PsbtError Psbt :=
  match old with Some p => psbt_combine p new | None => Ok new end.

Lemma update_psbt_run sid psbt d :
  io d = [] →
  update_psbt sid psbt d =
  match merged (psbts d !! sid) psbt with
  | Ok p => (set_psbts (<[sid := p]> (psbts d)) d, Ok (psbt_cbor_len p))
  | Err e => (d, Err (PsbtErr e))
  | Panic => (d, Panic)
  end.
Proof.
  intros Hio. unfold update_psbt, bindM. rewrite sled_read_ok by done. unfold merged.
  destruct (psbts d !! sid) as [p0|].
  - unfold lift. destruct (psbt_combine p0 psbt) as [p|e|]; cbn [map_err]; [|done..].
    by rewrite sled_write_ok.
  - unfold ret. by rewrite sled_write_ok.
Qed.

(** [add_round1_signing] stores a contribution only when it is sound: on
    success the PSBT passes the sanity checks, every input carries a
    commitment of the contributing signer, and the session now holds it (or
    its combination with what it held); on any other outcome no session
    changed. *)
Theorem add_round1_signing_spec sid frost_id psbt n d d' r :
  io d = [] → add_round1_signing sid frost_id psbt n d = (d', r) →
  match r with
  | Ok _ => sane d psbt ∧ Forall (λ i, is_Some (signing_commitments frost_id i)) (inputs psbt) ∧
      ∃ p, merged (psbts d !! sid) psbt = Ok p ∧ d' = set_psbts (<[sid := p]> (psbts d)) d
  | _ => psbts d' = psbts d
  end.
Proof.
  intros Hio. unfold add_round1_signing. unfold bindM at 1, map_errM at 1.
  pose proof (validate_psbt_keeps_psbts psbt ROUND1 n d) as Hkeep.
  destruct (validate_psbt psbt ROUND1 n d) as [d1 [[]|e|]] eqn:Ev; cbn [map_err];
    [|intros [= <- <-]; exact Hkeep..].
  apply validate_psbt_state in Ev as [-> Hs]; [|done].
  assert (decides (forM (inputs psbt) (λ i, match signing_commitments frost_id i with
    | None => fail CoCouldNotFindParticipantInformation | Some _ => ret tt end)) d
    (Forall (λ i, is_Some (signing_commitments frost_id i)) (inputs psbt))) as Hdec.
  { apply decides_forM. intros i _. destruct (signing_commitments frost_id i); [left; eauto|].
    right. split; [by intros [? ?]|done]. }
  assert (∀ l, respects (keeps psbts) (forM l (λ i, match signing_commitments frost_id i with
    | None => fail CoCouldNotFindParticipantInformation | Some _ => ret tt end))) as Hkeep'.
  { intros l. apply respects_forM; [apply _..|]. intros i _.
    destruct (signing_commitments frost_id i); [apply respects_ret|apply respects_fail]; apply _. }
  unfold bindM at 1. specialize (Hkeep' (inputs psbt) d).
  destruct (forM _ _ d) as [d2 [[]|e|]] eqn:Ef; [|intros [= <- <-]; exact Hkeep'..].
  apply (decides_Ok _ _ _ _ Hdec) in Ef as [Hall ->].
  unfold bindM, map_errM. rewrite update_psbt_run by done.
  destruct (merged (psbts d !! sid) psbt) as [p|e|]; cbn [map_err]; [|by intros [= <- <-]..].
  unfold flush. rewrite sled_read_ok by done. intros [= <- <-]. eauto 10.
Qed.

End sessions.

(** ** Aggregation *)

Section aggregation.
Context `{!BitcoinLib, !FrostLib, !PsbtLib, !FrostSign}.

(** [i] is [i0] with a signature that verifies under the tweaked key of its
    federation, over the message of its signing package. *)
Definition signed_input (d : Db) (packages : list SigningPackage) (j : nat) (i0 i : PsbtInput) : Prop :=
  ∃ m pk pkg agg sig,
    multisig_id i0 = Some m ∧ pubkey_packages d !! multisig_key m = Some pk ∧
    packages !! j = Some pkg ∧
    aggregate_with_tweak pkg (all_partial_signatures i0) pk (eth_address i0) = Ok agg ∧
    verify_with_tweak pk (eth_address i0) (sp_message pkg) agg = true ∧
    schnorr_from_slice agg = Some sig ∧
    tap_key_sig i = Some (sig, SIGHASH_DEFAULT) ∧ sighash_type i = Some SIGHASH_DEFAULT ∧
    witness_utxo i = witness_utxo i0 ∧ in_proprietary i = in_proprietary i0.

Lemma aggregate_input_Ok packages j i0 i d d' :
  io d = [] → aggregate_input packages j i0 d = (d', Ok i) → d' = d ∧ signed_input d packages j i0 i.
Proof.
  intros Hio Hr. unfold aggregate_input in Hr. mres Hr.
  apply lift_Ok in Hm as [-> Hmid%ok_or_Ok].
  rewrite map_errM_Ok in Hm0. unfold get_public_key_package_by_id in Hm0.
  rewrite sled_read_ok in Hm0 by done. injection Hm0 as <- <-.
  apply lift_Ok in Hm1 as [-> Hpk%ok_or_Ok]. apply lift_Ok in Hm2 as [-> Hpkg%ok_or_Ok].
  apply lift_Ok in Hm3 as [-> Hagg%map_err_Ok].
  destruct (verify_with_tweak _ _ _ _) eqn:Hver; [|discriminate]. injection Hm4 as <- <-.
  apply lift_Ok in Hm5 as [-> Hsig%ok_or_Ok]. injection Hr as <- <-.
  split; [done|]. by exists a, a1, a2, a3, a5.
Qed.

Lemma aggregate_inputs_Ok packages k ins ins' d d' :
  io d = [] → aggregate_inputs packages k ins d = (d', Ok ins') →
  d' = d ∧ length ins' = length ins ∧
  ∀ j i0 i, ins !! j = Some i0 → ins' !! j = Some i → signed_input d packages (k + j) i0 i.
Proof.
  intros Hio. revert k ins'. induction ins as [|i0 ins IH]; intros k ins'; cbn [aggregate_inputs].
  { intros [= <- <-]. split; [done|]. split; [done|]. intros j ?? Hj. by rewrite lookup_nil in Hj. }
  intros Hr. mres Hr. injection Hr as <- <-.
  apply aggregate_input_Ok in Hm as [-> Hsi]; [|done].
  destruct (IH _ _ Hm0) as (-> & Hlen & Hrest). split; [done|]. split; [simpl; by rewrite Hlen|].
  intros [|j] x y Hx Hy; simplify_eq/=; [by rewrite Nat.add_0_r|].
  rewrite <-Nat.add_succ_comm. by apply Hrest.
Qed.

Lemma copy_witnesses_Ok f ins ins' :
  copy_witnesses f ins = Ok ins' →
  Forall2 (λ i i', ∃ w, i' = set_final_witness w i) ins ins'.
Proof.
  unfold copy_witnesses. intros Hc%omap_all_Ok.
  assert (ins = (imap pair ins).*2) as Heq.
  { rewrite fmap_imap. symmetry. etrans; [apply (imap_const id)|]. apply list_fmap_id. }
  rewrite Heq at 1. apply Forall2_fmap_l. eapply Forall2_impl; [exact Hc|].
  intros [j i] i' Hi. simpl. ores Hi. injection Hi as <-. eauto.
Qed.

(** [finalize_signing] returns a fully signed version of the session's
    PSBT and of nothing else: the transaction, the outputs, the funding
    outputs and the proprietary fields are those of the stored PSBT, every
    input has a key-spend signature that verifies, under the key of the
    federation named by the input tweaked with the input's address, over that
    input's own sighash, and every input has a final witness. *)
Theorem finalize_signing_sound sid d d' p :
  io d = [] → finalize_signing sid d = (d', Ok p) →
  d' = d ∧ ∃ p0 packages, psbts d !! sid = Some p0 ∧ signing_packages p0 = Ok packages ∧
    unsigned_tx p = unsigned_tx p0 ∧ outputs p = outputs p0 ∧
    length (inputs p) = length (inputs p0) ∧
    ∀ j i0 i, inputs p0 !! j = Some i0 → inputs p !! j = Some i →
      signed_input d packages j i0 i ∧ is_Some (final_script_witness i) ∧
      ∃ pkg, packages !! j = Some pkg ∧ calculate_sighash p0 j = Ok (sp_message pkg).
Proof.
  intros Hio Hr. unfold finalize_signing in Hr. mres Hr. injection Hr as <- <-.
  rewrite map_errM_Ok in Hm. unfold get_psbt in Hm. rewrite sled_read_ok in Hm by done.
  injection Hm as <- <-. apply lift_Ok in Hm0 as [-> Hp0%ok_or_Ok].
  apply lift_Ok in Hm1 as [-> Hpk%map_err_Ok].
  apply aggregate_inputs_Ok in Hm2 as (-> & Hlen & Hsig); [|done].
  apply lift_Ok in Hm3 as [-> _]. apply lift_Ok in Hm4 as [-> Hcopy%copy_witnesses_Ok].
  split; [done|]. exists a0, a1. split_and!; [done..| |].
  - simpl. rewrite <-(Forall2_length _ _ _ Hcopy). done.
  - intros j i0 i Hi0 Hi. simpl in Hi.
    destruct (Forall2_lookup_r _ _ _ _ _ Hcopy Hi) as (i1 & Hi1 & w & ->).
    destruct (Hsig j i0 i1 Hi0 Hi1) as (m & pk & pkg & agg & sig & Hs).
    split; [exists m, pk, pkg, agg, sig; naive_solver|]. split; [by eexists|].
    exists pkg. split; [naive_solver|]. unfold signing_packages in Hpk. apply omap_all_Ok in Hpk.
    destruct Hs as (_ & _ & Hpkg & _). rewrite Nat.add_0_l in Hpkg.
    destruct (Forall2_lookup_r _ _ _ _ _ Hpk Hpkg) as ([idx x] & Hx & Hb).
    rewrite list_lookup_imap, Hi0 in Hx. simpl in Hx. injection Hx as <- <-.
    ores Hb. apply map_err_Ok in Ho. case_decide; [done|]. by injection Hb as <-.
Qed.

End aggregation.

(** ** Concrete runs *)

(** Signatures are the signed message. *)
#[export] Instance toy_frost_sign : FrostSign := {
  commit k r := ([r], [r]);
  sign_with_tweak pkg nonces k t := Ok (sp_message pkg);
  aggregate_with_tweak pkg sigs pk t := Ok (sp_message pkg);
  verify_with_tweak pk t m s := bool_decide (m = s);
  schnorr_from_slice s := Some s }.

Definition toy_outs : list (TxOut * PegoutId) := [(mkTxOut 40000 (p2wpkh 3), toy_pegout_id 4)].
Definition toy_txs : list Tx := [toy_pegout_tx 4 (toy_utxo 1 100000)].

Lemma toy_vdb_wallet_wf : wallet_wf (foldl insert_absent ∅ [toy_utxo 1 100000]).
Proof. apply map_Forall_singleton. simpl. lia. Qed.

(** A retry of pegout 4 spends the input of the transaction that is tracked
    for it. *)
Lemma attempt_make_tx_safe_witness :
  match attempt_make_tx toy_outs 1000 (p2tr 9) 1 toy_txs [] LEGACY_MULTISIG_ID toy_vdb with
  | (_, Ok p) => ∃ o, head (tx_inputs (toy_pegout_tx 4 (toy_utxo 1 100000))) = Some o ∧ o ∈ spends p
  | _ => False
  end.
Proof.
  destruct (attempt_make_tx toy_outs 1000 (p2tr 9) 1 toy_txs [] LEGACY_MULTISIG_ID toy_vdb)
    as [d' [p|e|]] eqn:E; [|vm_compute in E; discriminate E..].
  destruct (attempt_make_tx_safe toy_vdb d' _ toy_outs 1000 (p2tr 9) 1 toy_txs [] LEGACY_MULTISIG_ID p
    toy_vdb_view toy_vdb_wallet_wf) as (_ & _ & _ & Hc & _).
  - reflexivity.
  - apply Forall_cons; split; [|by apply Forall_nil]. vm_compute. split; [discriminate|reflexivity].
  - exact E.
  - apply Hc; [apply list_elem_of_singleton; reflexivity|].
    exists (mkPegoutRequest (toy_pegout_id 4) (p2wpkh 4) 40000 1 None).
    split; apply list_elem_of_singleton; reflexivity.
Defined.

Lemma make_tx_within_limits_witness :
  match make_tx toy_outs 1000 (p2tr 9) 1 toy_txs [] LEGACY_MULTISIG_ID toy_vdb with
  | Some (_, Ok p) => Z.of_nat (length (inputs p)) ≤ MAX_PEGOUT_TX_INPUTS
  | _ => False
  end.
Proof.
  destruct (make_tx toy_outs 1000 (p2tr 9) 1 toy_txs [] LEGACY_MULTISIG_ID toy_vdb)
    as [[d' [p|e|]]|] eqn:E; [|vm_compute in E; discriminate E..].
  apply (make_tx_within_limits _ toy_outs 1000 (p2tr 9) 1 toy_txs [] LEGACY_MULTISIG_ID toy_vdb d' p
    toy_vdb_view eq_refl E).
Defined.

(** Ten pegouts to long scripts weigh too much, nine do not. *)
Definition heavy_db : Db := toy_federation (toy_db_with_utxos [toy_utxo 1 2000000]).
Definition heavy_outs : list (TxOut * PegoutId) :=
  map (λ n, (mkTxOut 100000 (replicate 1250 3), toy_pegout_id (Z.of_nat n))) (seq 1 10).

Definition heavy_oversized (k : nat) : bool :=
  oversized_b (take k heavy_outs) 1000 (p2tr 9) 1 [] [] LEGACY_MULTISIG_ID heavy_db.

Lemma heavy_view : utxo_view heavy_db (foldl insert_absent ∅ [toy_utxo 1 2000000]).
Proof. eapply utxo_view_ext; [|apply (toy_db_view [toy_utxo 1 2000000]); toy_wf]. reflexivity. Qed.

(** The batch of ten is truncated once. *)
Lemma make_tx_terminates_witness :
  map heavy_oversized (seq 2 9) = replicate 8 false ++ [true] ∧
  ∃ r, make_tx heavy_outs 1000 (p2tr 9) 1 [] [] LEGACY_MULTISIG_ID heavy_db = Some r.
Proof.
  assert (map heavy_oversized (seq 2 9) = replicate 8 false ++ [true]) as Hall
    by (vm_cast_no_check (eq_refl (replicate 8 false ++ [true]))).
  split; [exact Hall|].
  destruct (make_tx_terminates _ heavy_outs 1000 (p2tr 9) 1 [] [] LEGACY_MULTISIG_ID heavy_db
    heavy_view eq_refl) as (r & Hr & _).
  - intros k Hk _. apply oversized_b_false.
    assert (map heavy_oversized (seq 2 9) !! (k - 2)%nat = Some (heavy_oversized k)) as Hl.
    { rewrite list_lookup_fmap, lookup_seq_lt by lia. cbn [fmap option_fmap option_map]. do 2 f_equal. lia. }
    rewrite Hall, lookup_app_l in Hl by (rewrite length_replicate; lia).
    rewrite lookup_replicate_2 in Hl by lia. apply (inj Some) in Hl. symmetry. exact Hl.
  - exists r. exact Hr.
Defined.

(** Many small UTXOs: two pegouts need 81 inputs. *)
Definition dusty_utxos : list Utxo := map (λ n, toy_utxo (Z.of_nat n) 10000) (seq 1 81).
Definition dusty_db : Db := toy_federation (toy_db_with_utxos dusty_utxos).
Definition two_outs : list (TxOut * PegoutId) :=
  [(mkTxOut 20000 (p2wpkh 3), toy_pegout_id 4); (mkTxOut 20000 (p2wpkh 3), toy_pegout_id 5)].

Lemma dusty_view : utxo_view dusty_db (foldl insert_absent ∅ dusty_utxos).
Proof.
  eapply utxo_view_ext; [|apply (toy_db_view dusty_utxos)]; [reflexivity|].
  apply Forall_map, Forall_forall. intros n Hn%elem_of_seq. apply toy_outpoint_wf.
  unfold is_u8, u8_max. lia.
Qed.

(** [make_tx] can loop forever: ten per cent of two to nine outputs is
    none, so truncation removes nothing, and a wallet of small UTXOs from
    which two pegouts need 81 inputs makes the same oversized attempt in every
    round. *)
Theorem make_tx_small_batch_diverges :
  ∀ fuel, make_tx_loop fuel two_outs 1000 (p2tr 9) 1 [] [] LEGACY_MULTISIG_ID dusty_db = None.
Proof.
  intros fuel. eapply make_tx_loop_stuck; [exact dusty_view|reflexivity| |simpl; lia].
  eapply oversized_b_true; [exact dusty_view|reflexivity|]. vm_compute. reflexivity.
Qed.

Definition toy_sweep_db : Db := toy_federation (toy_db_with_utxos [toy_utxo 1 100000]).

Lemma toy_sweep_view : utxo_view toy_sweep_db (foldl insert_absent ∅ [toy_utxo 1 100000]).
Proof.
  eapply utxo_view_ext; [|apply (toy_db_view [toy_utxo 1 100000]); toy_wf]. reflexivity.
Qed.

Lemma sweep_spends_everything_witness :
  match make_sweep_tx 1000 (p2tr 9) 1 LEGACY_MULTISIG_ID toy_sweep_db with
  | (_, Ok p) => (1 ≤ length (spends p) ≤ 1000)%nat
  | _ => False
  end.
Proof.
  destruct (make_sweep_tx 1000 (p2tr 9) 1 LEGACY_MULTISIG_ID toy_sweep_db)
    as [d' [p|e|]] eqn:E; [|vm_compute in E; discriminate E..].
  destruct (sweep_spends_everything _ 1000 (p2tr 9) 1 LEGACY_MULTISIG_ID toy_sweep_db d' p
    toy_sweep_view toy_vdb_wallet_wf eq_refl E) as (_ & _ & _ & _ & Hl & _). exact Hl.
Defined.

(** The sweep to the federation's own script above succeeds; to [p2tr 8] it
    cannot. *)
Lemma sweep_to_other_federation_fails_witness :
  match (make_sweep_tx 1000 (p2tr 8) 1 LEGACY_MULTISIG_ID toy_sweep_db).2 with
  | Ok _ => False
  | _ => True
  end.
Proof.
  pose proof (sweep_to_other_federation_fails _ 1000 (p2tr 8) 1 LEGACY_MULTISIG_ID toy_sweep_db
    (2 :: replicate 32 9) (2 :: replicate 32 9) toy_sweep_view eq_refl eq_refl eq_refl) as Hf.
  destruct (make_sweep_tx 1000 (p2tr 8) 1 LEGACY_MULTISIG_ID toy_sweep_db).2 as [p|e|];
    [|exact I..].
  apply (Hf ltac:(discriminate) p eq_refl).
Defined.

Definition toy_signer : @Identifier toy_frost := [1].
Definition toy_commitment : @SigningCommitments toy_frost := [11].

(** The session PSBT with the commitment of signer [[1]] on its input. *)
Definition toy_round1_psbt : Psbt :=
  mkPsbt (unsigned_tx (toy_vpsbt [toy_utxo 1 100000]))
    (map (set_signing_commitment toy_signer toy_commitment) (inputs (toy_vpsbt [toy_utxo 1 100000])))
    (outputs (toy_vpsbt [toy_utxo 1 100000])).

Lemma add_round1_signing_spec_witness :
  match add_round1_signing (replicate 32 6) toy_signer toy_round1_psbt 1 toy_vdb with
  | (d', Ok _) => psbts d' = <[replicate 32 6 := toy_round1_psbt]> (psbts toy_vdb)
  | _ => False
  end.
Proof.
  destruct (add_round1_signing (replicate 32 6) toy_signer toy_round1_psbt 1 toy_vdb)
    as [d' r] eqn:E.
  pose proof (add_round1_signing_spec (replicate 32 6) toy_signer toy_round1_psbt 1 toy_vdb d' r
    eq_refl E) as Hr.
  assert (r = Ok tt) as ->.
  { apply (f_equal snd) in E. cbn [snd] in E. rewrite <-E. vm_compute. reflexivity. }
  destruct Hr as (_ & _ & p & Hp & ->).
  assert (p = toy_round1_psbt) as ->.
  { assert (merged (psbts toy_vdb !! replicate 32 6) toy_round1_psbt = Ok toy_round1_psbt) as Hq
      by (vm_compute; reflexivity). rewrite Hq in Hp. injection Hp as <-. reflexivity. }
  reflexivity.
Defined.

Definition toy_session_db : Db := set_psbts {[ replicate 32 6 := toy_round1_psbt ]} toy_vdb.

Lemma finalize_signing_sound_witness :
  match finalize_signing (replicate 32 6) toy_session_db with
  | (_, Ok p) => length (inputs p) = 1%nat ∧
      unsigned_tx p = unsigned_tx (toy_vpsbt [toy_utxo 1 100000])
  | _ => False
  end.
Proof.
  destruct (finalize_signing (replicate 32 6) toy_session_db) as [d' [p|e|]] eqn:E;
    [|vm_compute in E; discriminate E..].
  destruct (finalize_signing_sound (replicate 32 6) toy_session_db d' p eq_refl E)
    as (_ & p0 & pks & Hp0 & _ & Htx & _ & Hlen & _).
  assert (psbts toy_session_db !! replicate 32 6 = Some toy_round1_psbt) as Hq
    by (vm_compute; reflexivity).
  rewrite Hq in Hp0. injection Hp0 as <-. rewrite Hlen, Htx. split; reflexivity.
Defined.
