(* ===== verification/Signer.v ===== *)
(** * The signer

    src/bin/botanix-btc-server/src/signer/mod.rs: the two rounds in which a
    federation member commits to nonces for the inputs of a PSBT and then
    signs them.  The PSBT is a mutable reference, so it is part of the state;
    the random generator is a function of the number of draws. *)

From stdpp Require Import strings.
From S2P Require Import Prelude Bytes Bitcoin Psbt Types Concrete CoinSelection Database Util Coordinator.

Open Scope Z_scope.

Inductive SigningRound1Error :=
| AlreadyInSigningSession
| R1MissingKeyPackage
| R1MissingMultisigId
| InvalidNumberOfNoncesRequested
| R1InvalidSigningPackage (msg : string)
| R1Db (e : DbError)
| FailedToAddSigningCommitsToPsbt (e : PsbtToSigningPackageConversionError)
| FailedToGetEstimateSmartFeeRate
| FeeRateDifferenceTooGreat
| R1FailedToValidatePsbt (e : ValidatePSBTError)
| R1ExtractTxError (e : ExtractTxError)
| FailedToGetFeeRateFromPsbt
| R1MissingSigningPackageAtIndex (index : nat).

Inductive SigningRound2Error :=
| R2MissingKeyPackage
| R2MissingMultisigId
| R2InvalidSigningPackage (msg : string)
| R2FrostError (e : FrostFailure)
| MissingRound1SigningNonce
| R2Db (e : DbError)
| R2SignerNotFound (index : nat)
| R2FailedToCalculateSighash (e : CalculateSighashError)
| R2PsbtToSigningPackageConversionError (e : PsbtToSigningPackageConversionError)
| R2FailedToValidatePsbt (e : ValidatePSBTError)
| R2ExtractTxError (e : ExtractTxError)
| R2FailedToDeserializePegoutId.

Section signer.
Context `{!BitcoinLib, !FrostLib, !PsbtLib, !FrostSign}.

(** A call on the database of the state. *)
Definition on_db {E A} (m : M Db E A) : M (Db * Psbt) E A := zoom fst (λ d s, (d, s.2)) m.

(** [psbt.inputs[i] = f(psbt.inputs[i])] *)
Definition update_input (i : nat) (f : PsbtInput → PsbtInput) (p : Psbt) : Psbt :=
  mkPsbt (unsigned_tx p) (alter f i (inputs p)) (outputs p).

(** ** Round 1 *)

(** Committing to input [i]; [draw] is the randomness it uses. *)
Definition commit_input (my_identifier : Identifier) (draw : Z) (i : nat)
    : M (Db * Psbt) SigningRound1Error (SigningNonces * SigningCommitments) :=
  let! s := get in
  let! psbt_input := lift (expect (inputs s.2 !! i)) in
  let! m := lift (ok_or (multisig_id psbt_input) R1MissingMultisigId) in
  let! k := map_errM R1Db (on_db (get_key_package_by_id m)) in
  let! key_package := lift (ok_or k R1MissingKeyPackage) in
  let nonce_pkg := commit key_package draw in
  modify (λ s, (s.1, update_input i (set_signing_commitment my_identifier nonce_pkg.2) s.2)) ;!
  ret nonce_pkg.

(** The loop over [k] inputs from [i] on. *)
Fixpoint commit_inputs (my_identifier : Identifier) (rng : nat → Z) (i k : nat)
    : M (Db * Psbt) SigningRound1Error (list (SigningNonces * SigningCommitments)) :=
  match k with
  | O => ret []
  | S k' =>
      let! n := commit_input my_identifier (rng i) i in
      let! ns := commit_inputs my_identifier rng (S i) k' in
      ret (n :: ns)
  end.

Definition get_round1_signing_package (min_signers : Z) (my_identifier : Identifier) (rng : nat → Z)
    : M (Db * Psbt) SigningRound1Error (list (SigningNonces * SigningCommitments)) :=
  let! s := get in
  map_errM R1FailedToValidatePsbt (on_db (validate_psbt s.2 ROUND1 min_signers)) ;!
  commit_inputs my_identifier rng 0 (length (inputs s.2)).

(** ** Round 2 *)

(** The signer is in the signing set of every input, with the commitment of
    its own nonce. *)
Definition check_package (identifier : Identifier)
    (signing_nonces : list (SigningNonces * SigningCommitments)) (p : nat * SigningPackage)
    : outcome SigningRound2Error unit :=
  let '(index, signing_package) := p in
  match sp_commitments signing_package !! identifier with
  | None => Err (R2SignerNotFound index)
  | Some our_sc =>
      let? our_nonce := expect (signing_nonces !! index) in
      if bool_decide (our_sc = our_nonce.2) then Ok tt else Err (R2InvalidSigningPackage "Invalid nonce pair for this signer")
  end.

Definition sign_input (identifier : Identifier)
    (signing_nonces : list (SigningNonces * SigningCommitments)) (index : nat)
    (signing_package : SigningPackage) : M (Db * Psbt) SigningRound2Error unit :=
  let! s := get in
  let! psbt_in := lift (expect (inputs s.2 !! index)) in
  let! m := lift (ok_or (multisig_id psbt_in) R2MissingMultisigId) in
  let! k := map_errM R2Db (on_db (get_key_package_by_id m)) in
  let! key_package := lift (ok_or k R2MissingKeyPackage) in
  let! nonce := lift (expect (signing_nonces !! index)) in
  let! sig := lift (map_err R2FrostError
    (sign_with_tweak signing_package nonce.1 key_package (eth_address psbt_in))) in
  modify (λ s, (s.1, update_input index (set_partial_signature identifier sig) s.2)).

(** [signing_packages.iter_mut().zip(psbt.inputs.iter_mut()).enumerate()] *)
Fixpoint sign_inputs (identifier : Identifier)
    (signing_nonces : list (SigningNonces * SigningCommitments)) (index : nat)
    (signing_packages : list SigningPackage) : M (Db * Psbt) SigningRound2Error unit :=
  match signing_packages with
  | [] => ret tt
  | pkg :: pkgs' =>
      sign_input identifier signing_nonces index pkg ;!
      sign_inputs identifier signing_nonces (S index) pkgs'
  end.

Definition get_round2_signing_package (min_signers : Z) (identifier : Identifier)
    (signing_nonces : list (SigningNonces * SigningCommitments))
    : M (Db * Psbt) SigningRound2Error unit :=
  let! s := get in
  map_errM R2FailedToValidatePsbt (on_db (validate_psbt s.2 ROUND2 min_signers)) ;!
  let! tx := lift (map_err R2ExtractTxError (extract_tx s.2)) in
  let num_inputs := length (input tx) in
  let! packages := lift (map_err R2PsbtToSigningPackageConversionError (signing_packages s.2)) in
  if negb (length signing_nonces =? num_inputs)%nat 
  then fail (R2InvalidSigningPackage "Number of signing nonces does not match number of inputs")
  else
  lift (ofor (imap pair packages) (check_package identifier signing_nonces)) ;!
  sign_inputs identifier signing_nonces 0 (take (length (inputs s.2)) packages) ;!
  let! s := get in
  lift (map_err R2ExtractTxError (extract_tx s.2)) ;!
  ret tt.

(** ** What the rounds do *)

Lemma on_db_Ok {E A} (m : M Db E A) d p s' a :
  on_db m (d, p) = (s', Ok a) → ∃ d', m d = (d', Ok a) ∧ s' = (d', p).
Proof. unfold on_db. rewrite zoom_Ok. simpl. eauto. Qed.

Lemma update_input_lookup f i j p :
  inputs (update_input i f p) !! j = if decide (i = j) then f <$> inputs p !! j else inputs p !! j.
Proof.
  unfold update_input; simpl. case_decide as He; [subst; apply list_lookup_alter_eq|].
  by apply list_lookup_alter_ne.
Qed.

(** The key of the federation that an input belongs to. *)
Definition input_key (d : Db) (i : PsbtInput) (k : KeyPackage) : Prop :=
  ∃ m, multisig_id i = Some m ∧ key_packages d !! multisig_key m = Some k.

Lemma commit_input_Ok id draw i d p s' n :
  io d = [] → commit_input id draw i (d, p) = (s', Ok n) →
  ∃ x k, inputs p !! i = Some x ∧ input_key d x k ∧ n = commit k draw ∧
    s' = (d, update_input i (set_signing_commitment id n.2) p).
Proof.
  intros Hio Hr. unfold commit_input in Hr. mres Hr. injection Hr as <- <-.
  injection Hm as <- <-. apply lift_Ok in Hm0 as [-> Hx%expect_Ok].
  apply lift_Ok in Hm1 as [-> Hid%ok_or_Ok].
  rewrite map_errM_Ok in Hm2. apply on_db_Ok in Hm2 as (d' & Hk & ->).
  unfold get_key_package_by_id in Hk. rewrite sled_read_ok in Hk by done. injection Hk as <- <-.
  apply lift_Ok in Hm3 as [-> Hkey%ok_or_Ok]. injection Hm4 as <- <-.
  exists a0, a3. split; [done|]. split; [by exists a1|]. done.
Qed.

(** Input [j] of [p'] is input [j] of [p] with the commitment of a fresh nonce. *)
Definition committed (id : Identifier) (rng : nat → Z) (d : Db) (p p' : Psbt)
    (ns : list (SigningNonces * SigningCommitments)) (i j : nat) : Prop :=
  ∃ x k n, inputs p !! (i + j)%nat = Some x ∧ input_key d x k ∧
    ns !! j = Some n ∧ n = commit k (rng (i + j)%nat) ∧
    inputs p' !! (i + j)%nat = Some (set_signing_commitment id n.2 x).

Lemma commit_inputs_Ok id rng i k d p s' ns :
  io d = [] → commit_inputs id rng i k (d, p) = (s', Ok ns) →
  ∃ p', s' = (d, p') ∧ unsigned_tx p' = unsigned_tx p ∧ outputs p' = outputs p ∧
    length (inputs p') = length (inputs p) ∧ length ns = k ∧
    (∀ j, (j < k)%nat → committed id rng d p p' ns i j) ∧
    (∀ j, (j < i ∨ i + k ≤ j)%nat → inputs p' !! j = inputs p !! j).
Proof.
  intros Hio. revert i p s' ns. induction k as [|k IH]; intros i p s' ns; cbn [commit_inputs].
  { intros [= <- <-]. exists p. split_and!; try done. intros j Hj. lia. }
  intros Hr. mres Hr. injection Hr as <- <-.
  apply commit_input_Ok in Hm as (x & key & Hx & Hkey & Hn & ->); [|done].
  destruct (IH _ _ _ _ Hm0) as (p' & -> & Htx & Hout & Hlen & Hns & Hc & Hrest).
  exists p'. split; [done|]. rewrite Htx, Hout, Hlen. cbn [update_input unsigned_tx outputs inputs].
  rewrite length_alter. split_and!; try done; [simpl; lia|..].
  - intros [|j] Hj.
    + exists x, key, a. rewrite Nat.add_0_r. split_and!; try done.
      rewrite Hrest, update_input_lookup, decide_True, Hx by (done || lia). done.
    + destruct (Hc j ltac:(lia)) as (x' & k' & n' & Hx' & Hk' & Hn' & He & Hp').
      rewrite update_input_lookup, decide_False in Hx' by lia.
      exists x', k', n'. rewrite Nat.add_succ_r, <-Nat.add_succ_l. done.
  - intros j Hj. rewrite Hrest by lia. by rewrite update_input_lookup, decide_False by lia.
Qed.

(** Round 1 commits once per input: on success the signer has drawn one
    fresh nonce pair per input, in input order, from the key of the federation
    that the input names, each input of the PSBT carries the commitment of its
    own nonce, and neither the transaction, the outputs nor the database
    changed; the PSBT passed the sanity checks. *)
Theorem round1_commits_every_input n id rng d p s' ns :
  io d = [] → get_round1_signing_package n id rng (d, p) = (s', Ok ns) →
  sane d p ∧ ∃ p', s' = (d, p') ∧ unsigned_tx p' = unsigned_tx p ∧ outputs p' = outputs p ∧
    length (inputs p') = length (inputs p) ∧ length ns = length (inputs p) ∧
    ∀ j x, inputs p !! j = Some x → ∃ k nonce, input_key d x k ∧ ns !! j = Some nonce ∧
      nonce = commit k (rng j) ∧ inputs p' !! j = Some (set_signing_commitment id nonce.2 x).
Proof.
  intros Hio Hr. unfold get_round1_signing_package in Hr. mres Hr. injection Hm as <- <-.
  rewrite map_errM_Ok in Hm0. destruct a0. apply on_db_Ok in Hm0 as (d' & Hv & ->).
  apply validate_psbt_state in Hv as [-> Hs]; [|done]. split; [done|].
  apply commit_inputs_Ok in Hr as (p' & -> & Htx & Hout & Hlen & Hns & Hc & _); [|done].
  exists p'. split_and!; try done. intros j x Hx.
  destruct (Hc j) as (x' & k & nonce & Hx' & Hk & Hn & He & Hp').
  { by eapply lookup_lt_Some. }
  rewrite Nat.add_0_l in Hx', He, Hp'. simpl in Hx'. rewrite Hx in Hx'. injection Hx' as <-. eauto 10.
Qed.

Lemma sign_input_Ok id ns i pkg d p s' u :
  io d = [] → sign_input id ns i pkg (d, p) = (s', Ok u) →
  ∃ x k nonce sig, inputs p !! i = Some x ∧ input_key d x k ∧ ns !! i = Some nonce ∧
    sign_with_tweak pkg nonce.1 k (eth_address x) = Ok sig ∧
    s' = (d, update_input i (set_partial_signature id sig) p).
Proof.
  intros Hio Hr. unfold sign_input in Hr. mres Hr. injection Hr as <- <-.
  injection Hm as <- <-. apply lift_Ok in Hm0 as [-> Hx%expect_Ok].
  apply lift_Ok in Hm1 as [-> Hid%ok_or_Ok].
  rewrite map_errM_Ok in Hm2. apply on_db_Ok in Hm2 as (d' & Hk & ->).
  unfold get_key_package_by_id in Hk. rewrite sled_read_ok in Hk by done. injection Hk as <- <-.
  apply lift_Ok in Hm3 as [-> Hkey%ok_or_Ok]. apply lift_Ok in Hm4 as [-> Hn%expect_Ok].
  apply lift_Ok in Hm5 as [-> Hsig%map_err_Ok].
  exists a0, a3, a4, a5. split; [done|]. split; [by exists a1|]. done.
Qed.

(** Input [i + j] of [p'] is that of [p] with a share made from nonce [i + j]. *)
Definition share_added (id : Identifier) (ns : list (SigningNonces * SigningCommitments)) (d : Db)
    (p p' : Psbt) (pkg : SigningPackage) (i : nat) : Prop :=
  ∃ x k nonce sig, inputs p !! i = Some x ∧ input_key d x k ∧ ns !! i = Some nonce ∧
    sign_with_tweak pkg nonce.1 k (eth_address x) = Ok sig ∧
    inputs p' !! i = Some (set_partial_signature id sig x).

Lemma sign_inputs_Ok id ns i pkgs d p s' u :
  io d = [] → sign_inputs id ns i pkgs (d, p) = (s', Ok u) →
  ∃ p', s' = (d, p') ∧ unsigned_tx p' = unsigned_tx p ∧ outputs p' = outputs p ∧
    length (inputs p') = length (inputs p) ∧
    (∀ j pkg, pkgs !! j = Some pkg → share_added id ns d p p' pkg (i + j)) ∧
    (∀ j, (j < i)%nat → inputs p' !! j = inputs p !! j).
Proof.
  intros Hio. revert i p s'. induction pkgs as [|pkg pkgs IH]; intros i p s'; cbn [sign_inputs].
  { intros [= <- <-]. exists p. split_and!; done. }
  intros Hr. mres Hr.
  apply sign_input_Ok in Hm as (x & k & nonce & sig & Hx & Hkey & Hn & Hsig & ->); [|done].
  destruct (IH _ _ _ Hr) as (p' & -> & Htx & Hout & Hlen & Hc & Hrest).
  exists p'. split; [done|]. rewrite Htx, Hout, Hlen. cbn [update_input unsigned_tx outputs inputs].
  rewrite length_alter. split_and!; try done.
  - intros [|j] pkg' Hj; [injection Hj as <-|].
    + exists x, k, nonce, sig. rewrite Nat.add_0_r. split_and!; try done.
      rewrite Hrest, update_input_lookup, decide_True, Hx by (done || lia). done.
    + destruct (Hc j pkg' Hj) as (x' & k' & n' & sig' & Hx' & Hk' & Hn' & Hs' & Hp').
      rewrite update_input_lookup, decide_False in Hx' by lia.
      rewrite Nat.add_succ_r, <-Nat.add_succ_l. exists x', k', n', sig'. done.
  - intros j Hj. rewrite Hrest by lia. by rewrite update_input_lookup, decide_False by lia.
Qed.

Lemma signing_packages_length p pkgs :
  signing_packages p = Ok pkgs → length pkgs = length (inputs p).
Proof.
  unfold signing_packages. intros Hp%omap_all_Ok.
  by rewrite <-(Forall2_length _ _ _ Hp), length_imap.
Qed.

(** Round 2 never signs with a nonce the signer did not commit to in this
    very PSBT: on success there is a nonce for every input, for every input
    the commitment published under the signer's identifier is the one of its
    own nonce for that input, the input has gained exactly the share made from
    that nonce, the key of the federation that the input names and the input's
    tweak, over the input's own signing package, and neither the transaction,
    the outputs nor the database changed. *)
Theorem round2_signs_own_nonces n id ns d p s' :
  io d = [] → get_round2_signing_package n id ns (d, p) = (s', Ok tt) →
  sane d p ∧ ∃ p' pkgs, s' = (d, p') ∧ signing_packages p = Ok pkgs ∧
    unsigned_tx p' = unsigned_tx p ∧ outputs p' = outputs p ∧
    length (inputs p') = length (inputs p) ∧
    ∀ j x, inputs p !! j = Some x →
      ∃ pkg k nonce sig, pkgs !! j = Some pkg ∧ input_key d x k ∧ ns !! j = Some nonce ∧
        sp_commitments pkg !! id = Some nonce.2 ∧
        sign_with_tweak pkg nonce.1 k (eth_address x) = Ok sig ∧
        inputs p' !! j = Some (set_partial_signature id sig x).
Proof.
  intros Hio Hr. unfold get_round2_signing_package in Hr. mres Hr. injection Hm as <- <-.
  rewrite map_errM_Ok in Hm0. destruct a0. apply on_db_Ok in Hm0 as (d' & Hv & ->).
  apply validate_psbt_state in Hv as [-> Hs]; [|done]. split; [done|].
  apply lift_Ok in Hm1 as [-> _]. apply lift_Ok in Hm2 as [-> Hpk%map_err_Ok].
  destruct (negb _); [discriminate|]. mres Hr. injection Hr as <-.
  destruct a. apply lift_Ok in Hm as [-> Hcheck%ofor_Ok].
  apply sign_inputs_Ok in Hm0 as (p' & -> & Htx & Hout & Hlen & Hc & _); [|done].
  injection Hm1 as <- <-. apply lift_Ok in Hm2 as [-> _].
  pose proof (signing_packages_length _ _ Hpk) as Hpl. cbn [snd] in *.
  exists p', a2. split_and!; try done. intros j x Hx.
  destruct (lookup_lt_is_Some_2 a2 j) as [pkg Hpkg]; [rewrite Hpl; by eapply lookup_lt_Some|].
  destruct (Hc j pkg) as (x' & k & nonce & sig & Hx' & Hk & Hn & Hsig & Hp').
  { rewrite take_ge by lia. done. }
  rewrite Nat.add_0_l in Hx', Hn, Hp'. rewrite Hx in Hx'. injection Hx' as <-.
  exists pkg, k, nonce, sig. split_and!; try done.
  assert (check_package id ns (j, pkg) = Ok tt) as Hcp.
  { rewrite Forall_forall in Hcheck. apply Hcheck, list_elem_of_lookup. exists j.
    by rewrite list_lookup_imap, Hpkg. }
  unfold check_package in Hcp. destruct (sp_commitments pkg !! id); [|done].
  rewrite Hn in Hcp. cbn [expect obind] in Hcp. case_bool_decide; [|done]. by subst.
Qed.

End signer.

(** ** A concrete session *)

(** The federation's key share is stored too. *)
Definition toy_signer_db : Db :=
  set_key_packages {[ multisig_key LEGACY_MULTISIG_ID := [5] ]} toy_vdb.

Lemma round1_commits_every_input_witness :
  match get_round1_signing_package 1 toy_signer (λ i, Z.of_nat i + 77)
          (toy_signer_db, toy_vpsbt [toy_utxo 1 100000]) with
  | (_, Ok ns) => length ns = 1%nat
  | _ => False
  end.
Proof.
  destruct (get_round1_signing_package 1 toy_signer (λ i, Z.of_nat i + 77)
    (toy_signer_db, toy_vpsbt [toy_utxo 1 100000])) as [s' [ns|e|]] eqn:E;
    [|vm_compute in E; discriminate E..].
  destruct (round1_commits_every_input 1 toy_signer (λ i, Z.of_nat i + 77) toy_signer_db
    (toy_vpsbt [toy_utxo 1 100000]) s' ns eq_refl E) as (_ & p' & _ & _ & _ & _ & Hl & _).
  exact Hl.
Defined.

(** The second round on the PSBT of the first, with the nonce of its
    commitment. *)
Lemma round2_signs_own_nonces_witness :
  match get_round2_signing_package 1 toy_signer [([11], toy_commitment)]
          (toy_signer_db, toy_round1_psbt) with
  | ((_, p'), Ok _) => length (inputs p') = 1%nat
  | _ => False
  end.
Proof.
  destruct (get_round2_signing_package 1 toy_signer [([11], toy_commitment)]
    (toy_signer_db, toy_round1_psbt)) as [[d' p'] [[]|e|]] eqn:E;
    [|vm_compute in E; discriminate E..].
  destruct (round2_signs_own_nonces 1 toy_signer [([11], toy_commitment)] toy_signer_db
    toy_round1_psbt (d', p') eq_refl E) as (_ & p2 & pkgs & Hs & _ & _ & _ & Hl & _).
  injection Hs as _ ->. exact Hl.
Defined.
