(* ===== verification/PegoutScheduler.v ===== *)
(** * The pegout scheduler

    src/bin/botanix-btc-server/src/pegout_scheduler/mod.rs: the transactions
    that deliver pegouts are tracked from broadcast until they are deeply
    confirmed; the scheduler follows the chain, rolls back reorganized blocks,
    finalizes blocks that leave the confirmation window and requeues the
    pegouts of transactions that dropped out of the mempool.

    bitcoind is a parameter ([Bitcoind]): every answer may depend on the number
    of the call, kept in [calls], so the chain may change between any two
    calls.  Calls made only to fill log messages and metrics are left out.
    Times are whole seconds since the epoch. *)

From S2P Require Import Prelude Bytes Bitcoin Psbt Types Concrete Database Util.

Open Scope Z_scope.

(** ** Blocks and bitcoind *)

Record BlockInfo := mkBlockInfo {
  bi_hash : BlockHash;
  relevant_txs : list Txid;
  relevant_inputs : list OutPoint }.

(** [bitcoin::Block]; [b_hash] is [block.block_hash()]. *)
Record Block := mkBlock {
  b_hash : BlockHash;
  prev_blockhash : BlockHash;
  txdata : list Transaction }.

(** [GetBlockHeaderResult] *)
Record HeaderInfo := mkHeaderInfo {
  h_hash : BlockHash;
  h_height : Z;
  h_confirmations : Z;
  h_previous : option BlockHash;
  h_time : Z }.

(** An RPC error; [not_in_mempool] tells whether its lower-cased message
    contains "transaction not in mempool". *)
Record RpcError := mkRpcError { not_in_mempool : bool }.

Class Bitcoind := {
  get_block_header_info : nat → BlockHash → HeaderInfo + RpcError;
  get_best_block_hash : nat → BlockHash + RpcError;
  get_block : nat → BlockHash → Block + RpcError;
  (** the block hash of a transaction on chain, [None] in the mempool *)
  get_raw_transaction_info : nat → Txid → option BlockHash + RpcError;
  (** the height of a block *)
  get_block_info : nat → BlockHash → Z + RpcError;
  get_mempool_entry : nat → Txid → unit + RpcError;
  initialblockdownload : nat → bool + RpcError;
  (** [SystemTime::now] *)
  system_time : nat → Z }.

Inductive BlockError := CantConnectBlock.

Inductive SyncError :=
| CheckPointNotReached
| NodeNotSynced
| Rpc (e : RpcError)
| DeepReorg
| SyBlock (e : BlockError)
| SyDb (e : DbError)
| TrackedTxNotInBlock (txid : Txid)
| DeeplyConfirmedTxNotFinalized (txid : Txid)
| IncorrectChangeOutputCreated
(** of the model only: a loop did not end within its fuel *)
| OutOfFuel.

Inductive ChangeOutputError := KeyConversion | ChangeDb (e : DbError).

(** ** State *)

Record PegoutScheduler `{!FrostLib} := mkScheduler {
  conf_window : nat;
  txs : gmap Txid Tx;
  txs_by_input : gmap OutPoint (list Txid);
  txs_by_pegout : gmap TxOut (list Txid);
  confirmed_txs : gset Txid;
  last_blocks : list BlockInfo;
  last_finalized : BlockHash;
  db : Db;
  (** whether a telemetry handle is present *)
  telemetry : bool;
  (** the number of bitcoind and clock calls made *)
  calls : nat }.

Section setters.
Context `{!FrostLib}.

Definition set_txs v (s : PegoutScheduler) :=
  mkScheduler _ (conf_window s) v (txs_by_input s) (txs_by_pegout s) (confirmed_txs s) (last_blocks s) (last_finalized s) (db s) (telemetry s) (calls s).
Definition set_txs_by_input v (s : PegoutScheduler) :=
  mkScheduler _ (conf_window s) (txs s) v (txs_by_pegout s) (confirmed_txs s) (last_blocks s) (last_finalized s) (db s) (telemetry s) (calls s).
Definition set_txs_by_pegout v (s : PegoutScheduler) :=
  mkScheduler _ (conf_window s) (txs s) (txs_by_input s) v (confirmed_txs s) (last_blocks s) (last_finalized s) (db s) (telemetry s) (calls s).
Definition set_confirmed_txs v (s : PegoutScheduler) :=
  mkScheduler _ (conf_window s) (txs s) (txs_by_input s) (txs_by_pegout s) v (last_blocks s) (last_finalized s) (db s) (telemetry s) (calls s).
Definition set_last_blocks v (s : PegoutScheduler) :=
  mkScheduler _ (conf_window s) (txs s) (txs_by_input s) (txs_by_pegout s) (confirmed_txs s) v (last_finalized s) (db s) (telemetry s) (calls s).
Definition set_last_finalized v (s : PegoutScheduler) :=
  mkScheduler _ (conf_window s) (txs s) (txs_by_input s) (txs_by_pegout s) (confirmed_txs s) (last_blocks s) v (db s) (telemetry s) (calls s).
Definition set_db v (s : PegoutScheduler) :=
  mkScheduler _ (conf_window s) (txs s) (txs_by_input s) (txs_by_pegout s) (confirmed_txs s) (last_blocks s) (last_finalized s) v (telemetry s) (calls s).
Definition set_calls v (s : PegoutScheduler) :=
  mkScheduler _ (conf_window s) (txs s) (txs_by_input s) (txs_by_pegout s) (confirmed_txs s) (last_blocks s) (last_finalized s) (db s) (telemetry s) v.

End setters.

Section scheduler.
Context `{!BitcoinLib, !FrostLib, !PsbtLib, !Bitcoind}.

Abbreviation SM E A := (M PegoutScheduler E A).

(** ** Calls on the parts of the state *)

Definition on_db {E A} (m : M Db E A) : SM E A := zoom db set_db m.

Definition rpc {A} (f : nat → A + RpcError) : SM SyncError A := λ s,
  let s' := set_calls (S (calls s)) s in
  match f (calls s) with
  | inl a => (s', Ok a)
  | inr e => (s', Err (Rpc e))
  end.

Definition now {E} : SM E Z := λ s, (set_calls (S (calls s)) s, Ok (system_time (calls s))).

(** [Result::expect] on a call *)
Definition expectM {E E' A} (m : SM E A) : SM E' A := λ s,
  match m s with
  | (s', Ok a) => (s', Ok a)
  | (s', _) => (s', Panic)
  end.

(** [HeaderExt::block_time]: a timestamp that is no [u32] panics. *)
Definition block_time {E} (h : HeaderInfo) : outcome E Z :=
  if (0 <=? h_time h) && (h_time h <=? u32_max) then Ok (h_time h) else Panic.

(** ** Change scripts *)

Definition get_change_spk (m : MultisigId) : SM ChangeOutputError ScriptBuf :=
  let! pkg := map_errM ChangeDb (on_db (get_public_key_package_by_id m)) in
  let! pk_package := lift (expect pkg) in
  let! agg_pk := lift (ok_or (to_secp_pk pk_package) KeyConversion) in
  ret (generate_taproot_change_scriptpubkey agg_pk).

Definition match_change_spk_to_multisig (script : ScriptBuf)
    : SM ChangeOutputError (option MultisigId) :=
  let current_multisig_id := LEGACY_MULTISIG_ID in
  let previous_multisig_id : option MultisigId := None in
  let! current_spk := get_change_spk current_multisig_id in
  if bool_decide (script = current_spk) then ret (Some current_multisig_id) else
  match previous_multisig_id with
  | Some prev_id =>
      let! prev_spk := get_change_spk prev_id in
      if bool_decide (script = prev_spk) then ret (Some prev_id) else ret None
  | None => ret None
  end.

(** ** Tracking *)

(** [entry(k).or_default().push(txid)] *)
Definition push_entry `{Countable K} (k : K) (txid : Txid) (m : gmap K (list Txid))
    : gmap K (list Txid) :=
  <[k := default [] (m !! k) ++ [txid]]> m.

Definition output_at {E} (t : Tx) (i : nat) : outcome E TxOut := expect (output (tx_tx t) !! i).

Definition track_tx {E} (t : Tx) : SM E unit :=
  modify (λ s, set_txs_by_input
    (foldl (λ m i, push_entry i (tx_txid t) m) (txs_by_input s) (tx_inputs t)) s) ;!
  forM (tx_pegout_idxs t) (λ i,
    let! pegout := lift (output_at t i) in
    modify (λ s, set_txs_by_pegout (push_entry pegout (tx_txid t) (txs_by_pegout s)) s)) ;!
  modify (λ s, set_txs (<[tx_txid t := t]> (txs s)) s).

(** [PegoutScheduler::new] *)
Definition new {E} (window : nat) (ts : list Tx) (finalized : BlockHash) (d : Db) (tel : bool)
    : PegoutScheduler * outcome E unit :=
  forM ts track_tx
    (mkScheduler _ window ∅ ∅ ∅ ∅ [mkBlockInfo finalized [] []] finalized d tel 0).

(** The change outputs of a new transaction; an output that does not match, or
    whose lookup fails, is skipped with a log message. *)
Fixpoint find_change {E} (pegout_idxs : list nat) (i : nat) (outs : list TxOut)
    : SM E (list nat) :=
  match outs with
  | [] => ret []
  | o :: outs' =>
      if contains pegout_idxs i then find_change pegout_idxs (S i) outs' else
      let! m := okM (match_change_spk_to_multisig (script_pubkey o)) in
      let! rest := find_change pegout_idxs (S i) outs' in
      ret (match m with Some (Some _) => i :: rest | _ => rest end)
  end.

Definition add_tx {E} (tx : Transaction) (pegouts : list PegoutRequest) (timestamp : Z) : SM E Tx :=
  let! pegout_idxs := lift (omap_all (λ p,
    expect (fst <$> list_find (λ o, script_pubkey o = pr_spk p) (output tx))) pegouts) in
  let! change_idxs := find_change pegout_idxs 0 (output tx) in
  let txid := compute_txid tx in
  track_tx (mkTx txid tx pegout_idxs pegouts change_idxs timestamp) ;!
  let! s := get in
  lift (expect (txs s !! txid)).

(** ** Queries *)

Definition tx_values (s : PegoutScheduler) : list Tx := (map_to_list (txs s)).*2.

Definition tracked_pegout_request_ids (s : PegoutScheduler) : list PegoutId :=
  concat (map (λ t, map pr_id (tx_pegout_requests t)) (tx_values s)).

Definition tracked_inputs (s : PegoutScheduler) : gset OutPoint :=
  list_to_set (concat (map tx_inputs (tx_values s))).

Definition pending_confirmed_utxos (s : PegoutScheduler) : gset OutPoint :=
  list_to_set (concat (map (λ t,
    if bool_decide (tx_txid t ∈ confirmed_txs s)
    then map (λ v, mkOutPoint (tx_txid t) (Z.of_nat v)) (seq 0 (length (output (tx_tx t))))
    else []) (tx_values s))).

(** ** Untracking and requeueing *)

Definition un_track_tx (txid : Txid) : SM DbError unit :=
  let! s := get in
  let! tx := lift (expect (txs s !! txid)) in
  modify (λ s, set_txs_by_input (foldl (λ m i, delete i m) (txs_by_input s) (tx_inputs tx)) s) ;!
  forM (tx_pegout_idxs tx) (λ i,
    let! o := lift (output_at tx i) in
    modify (λ s, set_txs_by_pegout (delete o (txs_by_pegout s)) s)) ;!
  modify (λ s, set_txs (delete txid (txs s)) s) ;!
  on_db (remove_tracked_tx txid).

Definition add_tx_back_to_pending (tx : Tx) : SM DbError unit :=
  on_db (store_pending_pegouts (tx_pegout_requests tx)) ;!
  on_db flush ;!
  let! s := get in
  if telemetry s then on_db get_pending_pegouts ;! ret tt else ret tt.

Definition rollback_tip {E} : SM E unit :=
  let! s := get in
  match last (last_blocks s) with
  | None => panic
  | Some drop_block =>
      modify (λ s, set_last_blocks (removelast (last_blocks s)) s) ;!
      forM (relevant_txs drop_block) (λ txid,
        let! s := get in
        let! tx := lift (expect (txs s !! txid)) in
        modify (λ s, set_confirmed_txs (confirmed_txs s ∖ {[ txid ]}) s) ;!
        expectM (un_track_tx txid) ;!
        expectM (add_tx_back_to_pending tx))
  end.

(** ** Finalizing a block *)

(** The change outputs of a finalized transaction as new UTXOs. *)
Fixpoint change_utxos (tx : Tx) (idxs : list nat) : SM DbError (list Utxo) :=
  match idxs with
  | [] => ret []
  | i :: idxs' =>
      let! o := lift (output_at tx i) in
      let outpoint := mkOutPoint (tx_txid tx) (Z.of_nat i) in
      let! m := okM (match_change_spk_to_multisig (script_pubkey o)) in
      match m with
      | Some (Some multisig_id) =>
          let! u := okM (on_db (get_utxo outpoint)) in
          let utxo_version := match u with Some (Some u) => utxo_version u | _ => 0 end in
          let! rest := change_utxos tx idxs' in
          ret (mkUtxo outpoint o None utxo_version multisig_id :: rest)
      | _ => change_utxos tx idxs'
      end
  end.

(** The first loop of [finalize_block]: store the change and collect the
    inputs. *)
Fixpoint store_change (txids : list Txid) (all_inputs : gset OutPoint) : SM DbError (gset OutPoint) :=
  match txids with
  | [] => ret all_inputs
  | txid :: txids' =>
      let! s := get in
      let! tx := lift (ok_or (txs s !! txid) TrackedTxNotFoundInPegoutScheduler) in
      let! us := change_utxos tx (tx_change_idxs tx) in
      on_db (store_utxos us) ;!
      on_db flush ;!
      store_change txids' (all_inputs ∪ list_to_set (tx_inputs tx))
  end.

(** One input of the second loop. *)
Definition spend_input (i : OutPoint) : SM DbError unit :=
  let! s := get in
  (if bool_decide (is_Some (txs s !! op_txid i)) then
     modify (λ s, set_txs (delete (op_txid i) (txs s)) s) ;!
     on_db (remove_tracked_tx (op_txid i))
   else ret tt) ;!
  on_db (remove_utxo i) ;!
  on_db flush.

Definition finalized_of (tx : Tx) : list FinalizedPegout :=
  map (λ r, mkFinalizedPegout (pr_id r) (pr_botanix_height r) (pr_timestamp r)) (tx_pegout_requests tx).

(** One transaction of the third loop. *)
Definition finalize_tx (txid : Txid) : SM DbError unit :=
  let! s := get in
  match txs s !! txid with
  | Some tx =>
      (if bool_decide (finalized_of tx = []) then ret tt else
       on_db (store_finalized_pegout_ids_atomically (finalized_of tx)) ;!
       let! t := now in
       on_db (prune_finalized_pegout_ids t) ;!
       on_db flush) ;!
      modify (λ s, set_txs (delete txid (txs s)) s) ;!
      on_db (remove_tracked_tx txid)
  | None => on_db (remove_tracked_tx txid)
  end.

(** The iteration order of the [HashSet] of inputs is unspecified. *)
Definition finalize_block (block : BlockInfo) : SM DbError unit :=
  let! all_inputs := store_change (relevant_txs block) (list_to_set (relevant_inputs block)) in
  forM (elements all_inputs) spend_input ;!
  forM (relevant_txs block) finalize_tx ;!
  let! us := on_db get_all_utxos in
  let! utxos_amount := lift (amount_sum (map (λ u, value (utxo_output u)) us)) in
  modify (set_last_finalized (bi_hash block)) ;!
  on_db flush.

(** ** Adding a block *)

(** One transaction of a new block: [inl] its id when it is tracked, [inr] the
    inputs it shares with tracked transactions otherwise. *)
Definition classify_tx (s : PegoutScheduler) (tx : Transaction) : Txid + list OutPoint :=
  let txid := compute_txid tx in
  if bool_decide (is_Some (txs s !! txid)) then inl txid
  else inr (List.filter (λ o, bool_decide (is_Some (txs_by_input s !! o)))
              (map previous_output (input tx))).

Definition add_block {E} (block : Block) : SM E unit :=
  let! s := get in
  match last (last_blocks s) with
  | None => panic
  | Some last_block =>
      if negb (bool_decide (prev_blockhash block = bi_hash last_block)) then panic else
      let classes := map (classify_tx s) (txdata block) in
      let relevant_txs := omap (λ c, match c with inl t => Some t | inr _ => None end) classes in
      let relevant_inputs := concat (map (λ c, match c with inl _ => [] | inr l => l end) classes) in
      modify (λ s, set_confirmed_txs (confirmed_txs s ∪ list_to_set relevant_txs) s) ;!
      modify (λ s, set_last_blocks
        (last_blocks s ++ [mkBlockInfo (b_hash block) relevant_txs relevant_inputs]) s)
  end.

(** ** The mempool *)

(** Whether the transaction is neither on chain nor in the mempool. *)
Definition dropped_from_mempool (checkpoint : HeaderInfo) (txid : Txid) : SM SyncError bool :=
  let! onchain := okM (rpc (λ n, get_raw_transaction_info n txid)) in
  match onchain with
  | Some None => ret false
  | Some (Some blockhash) =>
      (* at or below the checkpoint's height it should have been finalized:
         that is logged as an error, and it stays tracked too *)
      let! actual_height := rpc (λ n, get_block_info n blockhash) in
      ret false
  | None =>
      let! s := get in
      let! tx := lift (expect (txs s !! txid)) in
      let! entry := λ s,
        let s' := set_calls (S (calls s)) s in
        (s', Ok (get_mempool_entry (calls s) txid)) in
      ret match entry with
          | inl _ => false
          | inr e => not_in_mempool e
          end
  end.

Definition check_mempool_tx (checkpoint : HeaderInfo) (txid : Txid) : SM SyncError unit :=
  let! dropped := dropped_from_mempool checkpoint txid in
  if dropped then
    let! s := get in
    let! tx := lift (expect (txs s !! txid)) in
    map_errM SyDb (un_track_tx txid) ;!
    map_errM SyDb (add_tx_back_to_pending tx)
  else ret tt.

Definition track_mempool (checkpoint : HeaderInfo) : SM SyncError unit :=
  let! cp_time := lift (block_time checkpoint) in
  let! s := get in
  let maybe_dropped_txs :=
    map tx_txid (List.filter (λ t, tx_created t <? cp_time) (tx_values s)) in
  forM maybe_dropped_txs (check_mempool_tx checkpoint).

(** ** Synchronization *)

Definition is_syncing : SM SyncError bool :=
  let! ibd := rpc initialblockdownload in
  if ibd then ret true else
  let! best := rpc get_best_block_hash in
  let! tip := rpc (λ n, get_block_header_info n best) in
  let! t := now in
  let! tip_time := lift (block_time tip) in
  ret (60 * 60 <? saturating_sub t tip_time).

(** The inner loop: roll back until a block of the window is in the chain.
    The fuel is the length of the window. *)
Fixpoint find_fork (fuel : nat) : SM SyncError HeaderInfo :=
  match fuel with
  | O => fail OutOfFuel
  | S fuel' =>
      let! s := get in
      let! last_block := lift (expect (last (last_blocks s))) in
      let! in_chain := rpc (λ n, get_block_header_info n (bi_hash last_block)) in
      if 0 <? h_confirmations in_chain then ret in_chain
      else if (length (last_blocks s) =? 1)%nat then fail DeepReorg
      else rollback_tip ;! find_fork fuel'
  end.

(** The outer loop: repeat until the tip does not change meanwhile. *)
Fixpoint stable_tip (fuel : nat) : SM SyncError (HeaderInfo * HeaderInfo) :=
  match fuel with
  | O => fail OutOfFuel
  | S fuel' =>
      let! best := rpc get_best_block_hash in
      let! tip := rpc (λ n, get_block_header_info n best) in
      let! s := get in
      let! last_header := find_fork (length (last_blocks s)) in
      let! best' := rpc get_best_block_hash in
      let! new_tip := rpc (λ n, get_block_header_info n best') in
      if bool_decide (h_hash tip = h_hash new_tip) then ret (last_header, tip)
      else stable_tip fuel'
  end.

(** The hashes from the cursor back to the block after [last_header], newest
    first. *)
Fixpoint hashes_back (fuel : nat) (last_header cursor : HeaderInfo) : SM SyncError (list BlockHash) :=
  match fuel with
  | O => fail OutOfFuel
  | S fuel' =>
      let! prevhash := lift (expect (h_previous cursor)) in
      let! cursor := rpc (λ n, get_block_header_info n prevhash) in
      if h_height cursor =? h_height last_header then
        if bool_decide (h_hash cursor = h_hash last_header) then ret [] else panic
      else
        let! rest := hashes_back fuel' last_header cursor in
        ret (h_hash cursor :: rest)
  end.

(** One block of the synchronization. *)
Definition sync_block (hash : BlockHash) : SM SyncError unit :=
  let! header := rpc (λ n, get_block_header_info n hash) in
  let! block := rpc (λ n, get_block n hash) in
  add_block block ;!
  let! s := get in
  if (conf_window s <? length (last_blocks s))%nat then
    match last_blocks s with
    | [] => panic
    | deeply_confirmed_block :: rest =>
        modify (set_last_blocks rest) ;!
        map_errM SyDb (finalize_block deeply_confirmed_block)
    end
  else ret tt.

Fixpoint sync_blocks (checkpoint : BlockHash) (hashes : list BlockHash) : SM SyncError unit :=
  match hashes with
  | [] => ret tt
  | hash :: hashes' =>
      let! s := get in
      if bool_decide (last_finalized s = checkpoint) then ret tt else
      sync_block hash ;! sync_blocks checkpoint hashes'
  end.

Definition sync_until (fuel : nat) (checkpoint : BlockHash) : SM SyncError unit :=
  let! cp_result := rpc (λ n, get_block_header_info n checkpoint) in
  let! syncing := is_syncing in
  if syncing then fail NodeNotSynced else
  let! '(last_header, tip) := stable_tip fuel in
  if h_height last_header =? h_height tip then
    if bool_decide (h_hash tip = h_hash last_header) then ret tt else panic
  else
  let! to_sync := hashes_back fuel last_header tip in
  sync_blocks checkpoint (rev (h_hash tip :: to_sync)) ;!
  track_mempool cp_result ;!
  let! s := get in
  if bool_decide (last_finalized s = checkpoint) then ret tt else fail CheckPointNotReached.

End scheduler.

(** ** The confirmation window *)

Section window.
Context `{!BitcoinLib, !FrostLib, !PsbtLib, !Bitcoind}.

(** Calls that leave the window alone. *)
Definition frame (s : PegoutScheduler) : nat * list BlockInfo := (conf_window s, last_blocks s).

Lemma on_db_frame {E A} (m : M Db E A) : respects (keeps frame) (on_db m).
Proof. intros s. unfold on_db, zoom. by destruct (m (db s)). Qed.

Lemma rpc_frame {A} (f : nat → A + RpcError) : respects (keeps frame) (rpc f).
Proof. intros s. unfold rpc. by destruct (f (calls s)). Qed.

Lemma now_frame {E} : respects (keeps frame) (now (E:=E)).
Proof. by intros s. Qed.

Lemma modify_frame {E} (f : PegoutScheduler → PegoutScheduler) :
  (∀ s, frame (f s) = frame s) → respects (keeps frame) (modify (E:=E) f).
Proof. intros Hf s. apply Hf. Qed.

Lemma expectM_frame {E E' A} (m : M PegoutScheduler E A) :
  respects (keeps frame) m → respects (keeps frame) (expectM (E':=E') m).
Proof. intros Hm s. specialize (Hm s). unfold expectM. by destruct (m s) as [s' [?|?|]]. Qed.

End window.

(** Close the frame goal of a call built from the pieces above. *)
Ltac frame_step :=
  intros; first
  [ apply on_db_frame | apply rpc_frame | apply now_frame
  | apply modify_frame; reflexivity
  | apply respects_ret; apply _ | apply respects_fail; apply _ | apply respects_panic; apply _
  | apply respects_lift; apply _
  | apply expectM_frame | apply respects_map_err | apply respects_okM
  | apply respects_forM; [apply _|apply _|]
  | apply respects_bind; [apply _| |]
  | intros ?; reflexivity
  | case_match ].
Ltac frame_solve := repeat frame_step.

Section window_inv.
Context `{!BitcoinLib, !FrostLib, !PsbtLib, !Bitcoind}.

Lemma un_track_frame txid : respects (keeps frame) (un_track_tx txid).
Proof. unfold un_track_tx. frame_solve. Qed.

Lemma add_back_frame tx : respects (keeps frame) (add_tx_back_to_pending tx).
Proof. unfold add_tx_back_to_pending. frame_solve. Qed.

Lemma match_change_frame spk : respects (keeps frame) (match_change_spk_to_multisig spk).
Proof. unfold match_change_spk_to_multisig, get_change_spk. frame_solve. Qed.

Lemma change_utxos_frame tx idxs : respects (keeps frame) (change_utxos tx idxs).
Proof.
  induction idxs as [|i idxs IH]; cbn [change_utxos]; [frame_solve|].
  apply respects_bind; [apply _|frame_solve|]. intros o.
  apply respects_bind; [apply _|apply respects_okM, match_change_frame|]. intros m.
  repeat (intros; first [apply IH | frame_step]).
Qed.

Lemma store_change_frame txids ins : respects (keeps frame) (store_change txids ins).
Proof.
  revert ins. induction txids as [|txid txids IH]; intros ins; cbn [store_change]; [frame_solve|].
  repeat (intros; first [apply change_utxos_frame | apply IH | frame_step]).
Qed.

Lemma finalize_block_frame b : respects (keeps frame) (finalize_block b).
Proof.
  unfold finalize_block, spend_input, finalize_tx.
  repeat (intros; first [apply store_change_frame | frame_step]).
Qed.

Lemma track_mempool_frame cp : respects (keeps frame) (track_mempool cp).
Proof.
  unfold track_mempool, check_mempool_tx, dropped_from_mempool.
  repeat (intros; first [apply un_track_frame | apply add_back_frame | frame_step]).
Qed.

Lemma is_syncing_frame : respects (keeps frame) is_syncing.
Proof. unfold is_syncing. frame_solve. Qed.

Lemma hashes_back_frame fuel l c : respects (keeps frame) (hashes_back fuel l c).
Proof.
  revert c. induction fuel as [|fuel IH]; intros c; cbn [hashes_back]; [frame_solve|].
  repeat (intros; first [apply IH | frame_step]).
Qed.

(** The window holds at least one and at most [conf_window] blocks (one, when
    that is zero). *)
Definition window_ok (s : PegoutScheduler) : Prop :=
  (1 ≤ length (last_blocks s) ≤ Nat.max 1 (conf_window s))%nat.

Definition window_rel : relation PegoutScheduler := λ s s',
  conf_window s' = conf_window s ∧ (window_ok s → window_ok s').

#[local] Instance window_rel_trans : Transitive window_rel.
Proof. intros s1 s2 s3 [H1' H2'] [H3 H4]. split; [congruence|auto]. Qed.

Lemma frame_window s s' : keeps frame s s' → window_rel s s'.
Proof. intros [= Hc Hl]. split; [done|]. unfold window_ok. by rewrite Hc, Hl. Qed.

Lemma frame_respects {E A} (m : M PegoutScheduler E A) :
  respects (keeps frame) m → respects window_rel m.
Proof. apply respects_weaken, frame_window. Qed.

Lemma length_removelast {A} (l : list A) : length (removelast l) = (length l - 1)%nat.
Proof.
  induction l as [|x l IH]; [done|]. simpl removelast. destruct l; [done|]. cbn [length] in *. lia.
Qed.

(** Rolling back shortens the window by one block. *)
Lemma rollback_tip_window {E} s :
  last_blocks s ≠ [] →
  frame (rollback_tip (E:=E) s).1 = (conf_window s, removelast (last_blocks s)).
Proof.
  intros Hne. unfold rollback_tip. cbn [bindM get].
  destruct (last (last_blocks s)) as [b|] eqn:El; [|by apply last_None in El].
  set (s1 := set_last_blocks (removelast (last_blocks s)) s).
  change (frame s1) with (conf_window s, removelast (last_blocks s)).
  match goal with |- frame ((bindM (modify _) ?k) s).1 = _ => change (keeps frame s1 (k tt s1).1) end.
  cbn beta. apply respects_forM; [apply _..|]. intros txid _.
  repeat (intros; first [apply un_track_frame | apply add_back_frame | frame_step]).
Qed.

Lemma find_fork_window fuel : respects window_rel (find_fork fuel).
Proof.
  induction fuel as [|fuel IH]; cbn [find_fork]; [apply frame_respects; frame_solve|].
  apply respects_get. intros s. apply bind_rel; [apply _|apply frame_window, respects_lift, _|].
  intros s1 b [-> Hb]%lift_Ok. apply expect_Ok in Hb.
  apply bind_rel; [apply _|apply frame_window, rpc_frame|].
  intros s2 h Hh. pose proof (rpc_frame (λ n, get_block_header_info n (bi_hash b)) s) as Hf.
  rewrite Hh in Hf. simpl in Hf. injection Hf as Hc Hl.
  destruct (0 <? h_confirmations h); [by apply frame_window|].
  destruct (Nat.eqb_spec (length (last_blocks s)) 1) as [|Hne]; [by apply frame_window|].
  assert (last_blocks s ≠ []) as Hnil by (intros He; by rewrite He in Hb).
  apply bind_rel; [apply _| |intros s3 [] _; apply IH].
  pose proof (rollback_tip_window (E:=SyncError) s2 ltac:(by rewrite Hl)) as Hr.
  injection Hr as Hc' Hl'. split; [done|]. unfold window_ok.
  rewrite Hl', Hc', length_removelast, Hl, Hc. destruct (last_blocks s); [done|]. cbn [length] in *. lia.
Qed.

Lemma stable_tip_window fuel : respects window_rel (stable_tip fuel).
Proof.
  induction fuel as [|fuel IH]; cbn [stable_tip]; [apply frame_respects; frame_solve|].
  apply respects_bind; [apply _|apply frame_respects, rpc_frame|]. intros best.
  apply respects_bind; [apply _|apply frame_respects, rpc_frame|]. intros tip.
  apply respects_get. intros s. apply bind_rel; [apply _|apply find_fork_window|]. intros s1 l _.
  revert s1. apply respects_bind; [apply _|apply frame_respects, rpc_frame|]. intros best'.
  apply respects_bind; [apply _|apply frame_respects, rpc_frame|]. intros new_tip.
  case_bool_decide; [apply frame_respects; frame_solve|apply IH].
Qed.

(** A block enters the window at its end, or the call panics. *)
Lemma add_block_frame {E} b s :
  add_block (E:=E) b s = (s, Panic) ∨
  ∃ s' i, add_block (E:=E) b s = (s', Ok tt) ∧ frame s' = (conf_window s, last_blocks s ++ [i]).
Proof.
  unfold add_block. cbn [bindM get]. destruct (last (last_blocks s)) as [l|]; [|by left].
  destruct (negb _); [by left|]. right. eexists _, _. split; reflexivity.
Qed.

Lemma sync_block_window hash : respects window_rel (sync_block hash).
Proof.
  unfold sync_block.
  apply respects_bind; [apply _|apply frame_respects, rpc_frame|]. intros header.
  apply respects_bind; [apply _|apply frame_respects, rpc_frame|]. intros block s.
  unfold bindM at 1. destruct (add_block_frame (E:=SyncError) block s)
    as [->|(s1 & i & -> & [= Hc1 Hl1])]; [by apply frame_window|].
  cbn [bindM get]. destruct (Nat.ltb_spec (conf_window s1) (length (last_blocks s1))) as [Hlt|Hge].
  - destruct (last_blocks s1) as [|b rest] eqn:El; [cbn [length] in Hlt; lia|].
    assert (keeps frame (set_last_blocks rest s1)
      (map_errM SyDb (finalize_block b) (set_last_blocks rest s1)).1) as Hf
      by (apply respects_map_err, finalize_block_frame).
    injection Hf as Hc Hl. cbn [bindM modify fst]. split; [by rewrite Hc|].
    unfold window_ok. rewrite Hc, Hl. cbn [conf_window set_last_blocks last_blocks].
    apply (f_equal length) in Hl1. rewrite length_app in Hl1. rewrite Hc1.
    cbn [length] in *. lia.
  - split; [done|]. unfold window_ok. cbn [ret fst]. rewrite Hl1, length_app in *.
    cbn [length] in *. lia.
Qed.

Lemma sync_blocks_window cp hashes : respects window_rel (sync_blocks cp hashes).
Proof.
  induction hashes as [|h hs IH]; cbn [sync_blocks]; [apply frame_respects; frame_solve|].
  apply respects_get. intros s. case_bool_decide; [apply frame_window; reflexivity|].
  by apply respects_bind; [apply _|apply sync_block_window|].
Qed.

(** However a synchronization ends, with success, an error of bitcoind or
    of the database, or a panic, and whatever the chain does meanwhile, the
    scheduler keeps between one and [conf_window] blocks (one when the window
    is zero), and never changes the size of the window. *)
Theorem sync_until_keeps_window fuel checkpoint s :
  window_ok s →
  window_ok (sync_until fuel checkpoint s).1 ∧
  conf_window (sync_until fuel checkpoint s).1 = conf_window s.
Proof.
  intros Hw. enough (respects window_rel (sync_until fuel checkpoint)) as Hr.
  { destruct (Hr s) as [Hc Hi]. auto. }
  unfold sync_until.
  apply respects_bind; [apply _|apply frame_respects, rpc_frame|]. intros cp.
  apply respects_bind; [apply _|apply frame_respects, is_syncing_frame|]. intros [];
    [apply frame_respects; frame_solve|].
  apply respects_bind; [apply _|apply stable_tip_window|]. intros [l tip].
  destruct (h_height l =? h_height tip); [case_bool_decide; apply frame_respects; frame_solve|].
  apply respects_bind; [apply _|apply frame_respects, hashes_back_frame|]. intros hs.
  apply respects_bind; [apply _|apply sync_blocks_window|]. intros _.
  apply respects_bind; [apply _|apply frame_respects, track_mempool_frame|]. intros _.
  apply frame_respects. frame_solve.
Qed.

End window_inv.


(** ** No pegout is lost

    A pegout is accounted for while a tracked transaction delivers it or it is
    pending. *)

Definition tracks `{!FrostLib} (s : PegoutScheduler) (id : PegoutId) : Prop :=
  ∃ txid t, txs s !! txid = Some t ∧ id ∈ map pr_id (tx_pegout_requests t).

Definition is_pending `{!FrostLib} (s : PegoutScheduler) (id : PegoutId) : Prop :=
  is_Some (pending_pegouts (db s) !! as_bytes id).

Definition accounted `{!FrostLib} (s : PegoutScheduler) (id : PegoutId) : Prop :=
  tracks s id ∨ is_pending s id.

Section accounting.
Context `{!BitcoinLib, !FrostLib, !PsbtLib, !Bitcoind}.

(** The tracked transactions and the database. *)
Definition core (s : PegoutScheduler) : gmap Txid Tx * Db := (txs s, db s).

Definition keeps_accounted : relation PegoutScheduler := λ s s',
  io (db s) = [] → io (db s') = [] ∧ ∀ id, accounted s id → accounted s' id.

#[export] Instance keeps_accounted_refl : Reflexive keeps_accounted.
Proof. intros s Hio. done. Qed.

#[export] Instance keeps_accounted_trans : Transitive keeps_accounted.
Proof.
  intros s1 s2 s3 H12 H23 Hio. destruct (H12 Hio) as [Hio2 Ha]. destruct (H23 Hio2) as [Hio3 Hb]. auto.
Qed.

Lemma core_accounted s s' : keeps core s s' → keeps_accounted s s'.
Proof.
  intros [= Ht Hd] Hio. rewrite Hd. split; [done|].
  intros id. unfold accounted, tracks, is_pending. by rewrite Ht, Hd.
Qed.

Lemma rpc_core {A} (f : nat → A + RpcError) : respects (keeps core) (rpc f).
Proof. intros s. unfold rpc. by destruct (f (calls s)). Qed.

(** Storing pegouts makes them pending and forgets none, whether or not the
    new root can be computed. *)
Lemma update_pending_root_keeps d :
  io d = [] →
  io (update_pending_pegouts_merkle_root d).1 = [] ∧
  pending_pegouts (update_pending_pegouts_merkle_root d).1 = pending_pegouts d.
Proof.
  intros Hio. unfold update_pending_pegouts_merkle_root, get_pending_pegouts, bindM.
  rewrite sled_read_ok by done. case_bool_decide; [done|]. unfold lift.
  destruct (root_of _); [|done..]. by rewrite sled_write_ok.
Qed.

Lemma insert_new_pegout_is_Some r m k :
  is_Some (m !! k) ∨ k = as_bytes (pr_id r) → is_Some (insert_new_pegout r m !! k).
Proof.
  unfold insert_new_pegout. destruct (m !! as_bytes (pr_id r)) eqn:E.
  - intros [?| ->]; [done|by rewrite E].
  - intros Hk. destruct (decide (k = as_bytes (pr_id r))) as [->|Hne].
    + by rewrite lookup_insert_eq.
    + rewrite lookup_insert_ne by done. naive_solver.
Qed.

Lemma insert_new_pegouts_is_Some rs m k :
  is_Some (m !! k) ∨ k ∈ map (as_bytes ∘ pr_id) rs →
  is_Some (foldl (λ m r, insert_new_pegout r m) m rs !! k).
Proof.
  revert m. induction rs as [|r rs IH]; intros m; simpl.
  - intros [?|Hk]; [done|by apply elem_of_nil in Hk].
  - rewrite elem_of_cons. intros Hk. apply IH.
    destruct Hk as [?|[->|?]]; [left|left|by right]; apply insert_new_pegout_is_Some; auto.
Qed.

Lemma store_pending_keeps rs d :
  io d = [] →
  let d' := (store_pending_pegouts rs d).1 in
  io d' = [] ∧
  ∀ k, is_Some (pending_pegouts d !! k) ∨ k ∈ map (as_bytes ∘ pr_id) rs →
       is_Some (pending_pegouts d' !! k).
Proof.
  intros Hio d'. subst d'. destruct rs as [|r [|r' rs]].
  - split; [done|]. intros k [?|Hk]; [done|by apply elem_of_nil in Hk].
  - unfold store_pending_pegouts, store_pending_pegout, bindM. rewrite sled_write_ok by done.
    match goal with |- context [update_pending_pegouts_merkle_root ?x] =>
      destruct (update_pending_root_keeps x) as [Hio' Hp]; [done|] end.
    split; [done|]. intros k Hk. rewrite Hp. cbn [pending_pegouts set_pending_pegouts].
    destruct (decide (as_bytes (pr_id r) = k)) as [->|Hne]; [by rewrite lookup_insert_eq|].
    rewrite lookup_insert_ne by done. destruct Hk as [?|Hk]; [done|].
    apply list_elem_of_singleton in Hk. by destruct Hne.
  - unfold store_pending_pegouts, store_pending_pegouts_atomically, bindM.
    rewrite transaction_ok by done.
    match goal with |- context [update_pending_pegouts_merkle_root ?x] =>
      destruct (update_pending_root_keeps x) as [Hio' Hp]; [done|] end.
    split; [done|]. intros k Hk. rewrite Hp. by apply insert_new_pegouts_is_Some.
Qed.

Lemma on_db_state {E A} (m : M Db E A) s :
  (on_db m s).1 = set_db (m (db s)).1 s ∧ (on_db m s).2 = (m (db s)).2.
Proof. unfold on_db, zoom. by destruct (m (db s)). Qed.

(** Requeueing a transaction: its pegouts are pending and none is forgotten. *)
Lemma add_back_pending tx s :
  io (db s) = [] →
  let s' := (add_tx_back_to_pending tx s).1 in
  txs s' = txs s ∧ io (db s') = [] ∧
  ∀ id, is_pending s id ∨ id ∈ map pr_id (tx_pegout_requests tx) → is_pending s' id.
Proof.
  intros Hio s'. destruct (store_pending_keeps (tx_pegout_requests tx) (db s) Hio) as [Hio' Hk].
  assert (core s' = (txs s, (store_pending_pegouts (tx_pegout_requests tx) (db s)).1)) as Hcore.
  { subst s'. unfold add_tx_back_to_pending, bindM.
    destruct (on_db_state (store_pending_pegouts (tx_pegout_requests tx)) s) as [H1' H2'].
    destruct (on_db (store_pending_pegouts (tx_pegout_requests tx)) s) as [s1 r1]. simpl in H1', H2'.
    subst s1. destruct r1 as [[]|e|]; [|done..].
    unfold on_db, zoom, flush. rewrite sled_read_ok by done. cbn [fst snd get db set_db].
    destruct (telemetry _); [|done]. unfold get_pending_pegouts. by rewrite sled_read_ok. }
  injection Hcore as Ht Hd. split; [done|]. rewrite Hd. split; [done|].
  intros id Hid. unfold is_pending. rewrite Hd. apply Hk. destruct Hid as [?|Hid]; [by left|right].
  apply list_elem_of_fmap in Hid as (r & -> & Hr). by apply (list_elem_of_fmap_2 (as_bytes ∘ pr_id)).
Qed.

(** Untracking: it stops at an output index out of range and then changed
    nothing, or the transaction is gone from both places. *)
Lemma un_track_cases txid tx s :
  txs s !! txid = Some tx → io (db s) = [] →
  ((un_track_tx txid s).2 ≠ Ok tt ∧ core (un_track_tx txid s).1 = core s) ∨
  ∃ s', un_track_tx txid s = (s', Ok tt) ∧
    core s' = (delete txid (txs s), set_tracked_txs (delete txid (tracked_txs (db s))) (db s)).
Proof.
  intros Htx Hio.
  set (s1 := set_txs_by_input (foldl (λ m i, delete i m) (txs_by_input s) (tx_inputs tx)) s).
  set (loop := forM (tx_pegout_idxs tx) (λ i, let! o := lift (output_at tx i) in
    modify (λ s, set_txs_by_pegout (delete o (txs_by_pegout s)) s)) : M PegoutScheduler DbError unit).
  assert (un_track_tx txid s = (loop ;! modify (λ s, set_txs (delete txid (txs s)) s) ;!
    on_db (remove_tracked_tx txid)) s1) as ->.
  { unfold un_track_tx, bindM at 1 2 3, lift at 1. cbn [get]. by rewrite Htx. }
  assert (respects (keeps core) loop) as Hloop.
  { unfold loop. apply respects_forM; [apply _..|]. intros i _.
    apply respects_bind; [apply _|apply respects_lift; apply _|]. intros o s0. reflexivity. }
  specialize (Hloop s1). unfold bindM. destruct (loop s1) as [s2 [[]|e|]]; cbn [fst snd] in *;
    [|left; split; [done|exact Hloop]..].
  right. injection Hloop as Ht Hd. cbn [modify].
  unfold on_db, zoom, remove_tracked_tx. cbn [db set_txs]. rewrite Hd.
  rewrite sled_write_ok by done. eexists. split; [reflexivity|].
  unfold core. cbn [txs db set_db set_txs]. by rewrite Ht.
Qed.

(** The state after untracking and requeueing one transaction. *)
Definition requeue_state (txid : Txid) (tx : Tx) (s : PegoutScheduler) : PegoutScheduler :=
  match un_track_tx txid s with
  | (s', Ok _) => (add_tx_back_to_pending tx s').1
  | (s', _) => s'
  end.

Lemma requeue_accounted txid tx s :
  txs s !! txid = Some tx → keeps_accounted s (requeue_state txid tx s).
Proof.
  intros Htx Hio. unfold requeue_state.
  destruct (un_track_cases txid tx s Htx Hio) as [[Hr Hc]|(s1 & -> & Hc)].
  - destruct (un_track_tx txid s) as [s1 [[]|e|]]; simpl in Hr, Hc; [done|..];
      by apply (core_accounted s s1).
  - injection Hc as Ht Hd. destruct (add_back_pending tx s1) as (Ht2 & Hio2 & Hp); [by rewrite Hd|].
    split; [done|]. intros id [(txid' & t & Ht' & Hid)|Hid].
    + destruct (decide (txid' = txid)) as [->|Hne].
      * right. apply Hp. right. by simplify_eq.
      * left. exists txid', t. rewrite Ht2, Ht, lookup_delete_ne by done. done.
    + right. apply Hp. left. unfold is_pending in *. by rewrite Hd.
Qed.

Lemma requeue_expect {E} txid tx s :
  ((expectM (un_track_tx txid) ;! expectM (E':=E) (add_tx_back_to_pending tx)) s).1 =
  requeue_state txid tx s.
Proof.
  unfold bindM, expectM, requeue_state. destruct (un_track_tx txid s) as [s1 [[]|e|]]; [|done..].
  by destruct (add_tx_back_to_pending tx s1) as [s2 [[]|e|]].
Qed.

Lemma requeue_map_err txid tx s :
  ((map_errM SyDb (un_track_tx txid) ;! map_errM SyDb (add_tx_back_to_pending tx)) s).1 =
  requeue_state txid tx s.
Proof.
  unfold bindM, map_errM, requeue_state. destruct (un_track_tx txid s) as [s1 [[]|e|]]; [|done..].
  by destruct (add_tx_back_to_pending tx s1) as [s2 [[]|e|]].
Qed.

Lemma rollback_tip_accounted {E} : respects keeps_accounted (rollback_tip (E:=E)).
Proof.
  unfold rollback_tip. apply respects_get. intros s.
  destruct (last (last_blocks s)) as [b|]; [|done].
  revert s. apply respects_bind; [apply _|by apply respects_modify; intros s; apply core_accounted|].
  intros _. apply respects_forM; [apply _..|]. intros txid _. apply respects_get. intros s.
  unfold bindM at 1, lift. destruct (txs s !! txid) as [tx|] eqn:Etx; [|done]. cbn [expect].
  unfold bindM at 1. cbn [modify]. rewrite requeue_expect.
  etrans; [|by apply requeue_accounted]. by apply core_accounted.
Qed.

Lemma dropped_core cp txid : respects (keeps core) (dropped_from_mempool cp txid).
Proof.
  unfold dropped_from_mempool. apply respects_bind; [apply _|apply respects_okM, rpc_core|].
  intros [[h|]|]; [|by intros s|].
  - apply respects_bind; [apply _|apply rpc_core|]. by intros ? s.
  - apply respects_get. intros s. apply bind_rel; [apply _|by apply respects_lift; apply _|].
    by intros s1 a [-> _]%lift_Ok.
Qed.

Lemma track_mempool_accounted cp : respects keeps_accounted (track_mempool cp).
Proof.
  unfold track_mempool. apply respects_bind; [apply _|by apply respects_lift; apply _|]. intros t.
  apply respects_get. intros s. apply respects_forM; [apply _..|]. intros txid _.
  unfold check_mempool_tx. apply respects_bind; [apply _| |].
  { eapply respects_weaken; [|apply dropped_core]. apply core_accounted. }
  intros []; [|by intros s1]. apply respects_get. intros s1. unfold bindM at 1, lift.
  destruct (txs s1 !! txid) as [tx|] eqn:Etx; [|done]. cbn [expect].
  rewrite requeue_map_err. by apply requeue_accounted.
Qed.

(** C16.  Neither a reorganization nor the mempool check loses a pegout: while
    the database answers, every pegout that was pending or delivered by a
    tracked transaction is so afterwards, whatever bitcoind answers and even
    when the call fails or panics half way.  (A database that fails between the
    two writes can lose one, see [requeue_error_loses_pegouts].) *)
Theorem no_pegout_lost checkpoint s id :
  io (db s) = [] → accounted s id →
  accounted (rollback_tip (E:=SyncError) s).1 id ∧ accounted (track_mempool checkpoint s).1 id.
Proof.
  intros Hio Hid. split.
  - by apply (rollback_tip_accounted (E:=SyncError) s).
  - by apply (track_mempool_accounted checkpoint s).
Qed.

End accounting.

(** ** Which transactions are dropped *)

Section dropping.
Context `{!BitcoinLib, !FrostLib, !PsbtLib, !Bitcoind}.

(** bitcoind knows the transaction, or does not say that it is missing. *)
Definition known_to_bitcoind (txid : Txid) : Prop :=
  ∀ n n', match get_raw_transaction_info n txid with
          | inl _ => True
          | inr _ => match get_mempool_entry n' txid with
                     | inl _ => True
                     | inr e => not_in_mempool e = false
                     end
          end.

Lemma dropped_known cp txid s s' b :
  known_to_bitcoind txid → dropped_from_mempool cp txid s = (s', Ok b) → b = false.
Proof.
  intros Hk Hd. unfold dropped_from_mempool in Hd. mres Hd.
  apply okM_Ok in Hm as [([h|] & -> & _)|[-> (e & He)]].
  - mres Hd. by injection Hd as _ <-.
  - by injection Hd as _ <-.
  - unfold rpc in He. destruct (get_raw_transaction_info (calls s) txid) as [x|e'] eqn:Eraw;
      [discriminate|]. injection He as <- _. mres Hd. injection Hm as <- <-.
    apply lift_Ok in Hm0 as [-> _]. injection Hm1 as <- <-. injection Hd as _ <-.
    specialize (Hk (calls s)). rewrite Eraw in Hk. cbn [calls set_calls].
    specialize (Hk (S (calls s))). by destruct (get_mempool_entry _ _).
Qed.

(** Every transaction is tracked under its own id. *)
Definition txs_keyed (s : PegoutScheduler) : Prop := map_Forall (λ k t, k = tx_txid t) (txs s).

Lemma requeue_other txid txid' tx s :
  txid ≠ txid' → txs s !! txid = Some tx → io (db s) = [] →
  txs (requeue_state txid tx s) !! txid' = txs s !! txid' ∧ io (db (requeue_state txid tx s)) = [].
Proof.
  intros Hne Htx Hio. unfold requeue_state.
  destruct (un_track_cases txid tx s Htx Hio) as [[Hr Hc]|(s1 & -> & Hc)].
  - destruct (un_track_tx txid s) as [s1 [[]|e|]]; simpl in Hr, Hc; [done|..];
      injection Hc as Ht Hd; by rewrite Ht, Hd.
  - injection Hc as Ht Hd. destruct (add_back_pending tx s1) as (Ht2 & Hio2 & _); [by rewrite Hd|].
    split; [|done]. by rewrite Ht2, Ht, lookup_delete_ne.
Qed.

Lemma check_mempool_state cp txid s :
  (check_mempool_tx cp txid s).1 =
  match dropped_from_mempool cp txid s with
  | (s1, Ok true) => match txs s1 !! txid with Some tx => requeue_state txid tx s1 | None => s1 end
  | (s1, _) => s1
  end.
Proof.
  unfold check_mempool_tx. unfold bindM at 1.
  destruct (dropped_from_mempool cp txid s) as [s1 [[]|e|]]; [|done..].
  cbn [bindM get]. unfold bindM at 1, lift.
  destruct (txs s1 !! txid) as [tx|]; cbn [expect]; [|done]. apply requeue_map_err.
Qed.

Lemma check_mempool_keeps cp txid txid' s :
  (txid = txid' → known_to_bitcoind txid) → io (db s) = [] →
  let s' := (check_mempool_tx cp txid s).1 in
  txs s' !! txid' = txs s !! txid' ∧ io (db s') = [].
Proof.
  intros Hk Hio. cbn zeta. rewrite check_mempool_state.
  pose proof (dropped_core cp txid s) as Hc.
  destruct (dropped_from_mempool cp txid s) as [s1 [b|e|]] eqn:Ed; cbn [fst] in Hc;
    injection Hc as Ht Hd; [|by rewrite Ht, Hd..].
  destruct b; [|by rewrite Ht, Hd].
  destruct (txs s1 !! txid) as [tx|] eqn:Etx; [|by rewrite Ht, Hd].
  rewrite <-Ht. apply requeue_other; [|done|by rewrite Hd].
  intros ->. specialize (Hk eq_refl). by pose proof (dropped_known cp _ s s1 true Hk Ed).
Qed.

(** The mempool check gives a tracked transaction up only when it is
    older than the checkpoint block and bitcoind reports it both unknown on
    chain and missing from the mempool: any other transaction is tracked
    afterwards as it was before, however the check ends. *)
Theorem track_mempool_keeps_live_txs checkpoint s txid t :
  txs_keyed s → io (db s) = [] → txs s !! txid = Some t →
  known_to_bitcoind txid ∨ h_time checkpoint ≤ tx_created t →
  txs (track_mempool checkpoint s).1 !! txid = Some t.
Proof.
  intros Hkey Hio Ht Hlive. unfold track_mempool. unfold bindM at 1, lift, block_time.
  destruct (_ && _); [|done]. cbn [bindM get].
  set (l := map tx_txid _).
  assert (∀ x, x ∈ l → x = txid → known_to_bitcoind x) as Hl.
  { intros x Hx ->. destruct Hlive as [|Hold]; [done|]. exfalso.
    apply list_elem_of_fmap in Hx as (t' & Hid & Hin%list_elem_of_In).
    apply List.filter_In in Hin as [Hin Hc]. apply list_elem_of_In in Hin.
    unfold tx_values in Hin. apply list_elem_of_fmap in Hin as ([k t2] & -> & Hk%elem_of_map_to_list).
    simpl in *. pose proof (Hkey _ _ Hk) as Hkk. simpl in Hkk. subst. rewrite Ht in Hk.
    injection Hk as <-. lia. }
  clearbody l. clear Hlive Hkey. revert s Hio Ht.
  assert (∀ s, io (db s) = [] → txs (forM l (check_mempool_tx checkpoint) s).1 !! txid = txs s !! txid)
    as Hloop; [|by intros s Hio <-; apply Hloop].
  induction l as [|x l IH]; intros s Hio; [done|]. cbn [forM]. unfold bindM.
  destruct (check_mempool_keeps checkpoint x txid s) as [Hs Hio']; [apply Hl; set_solver|done|].
  destruct (check_mempool_tx checkpoint x s) as [s1 [[]|e|]]; simpl in *; [|done..].
  rewrite IH by (done || set_solver). done.
Qed.

End dropping.

(** ** When a synchronization succeeds *)

Section sync_result.
Context `{!BitcoinLib, !FrostLib, !PsbtLib, !Bitcoind}.

Lemma find_fork_Ok fuel s s' h : find_fork fuel s = (s', Ok h) → 0 < h_confirmations h.
Proof.
  revert s. induction fuel as [|fuel IH]; intros s; cbn [find_fork]; [done|]. intros Hf. mres Hf.
  match type of Hf with (if 0 <? h_confirmations ?x then _ else _) _ = _ =>
    destruct (Z.ltb_spec 0 (h_confirmations x)) end; [by injection Hf as _ <-|].
  destruct (length _ =? 1)%nat; [done|]. mres Hf. by eapply IH.
Qed.

Lemma stable_tip_Ok fuel s s' l tip :
  stable_tip fuel s = (s', Ok (l, tip)) → 0 < h_confirmations l.
Proof.
  revert s. induction fuel as [|fuel IH]; intros s; cbn [stable_tip]; [done|]. intros Hr. mres Hr.
  case_bool_decide; [|by eapply IH]. injection Hr as _ <- _. by eapply find_fork_Ok.
Qed.

(** [sync_until] succeeds only in two ways: the checkpoint is the last
    finalized block when it returns; or it found the window's last block on
    chain at the height of bitcoind's tip, processed no block and returned at
    once, without looking at the checkpoint. *)
Theorem sync_until_success fuel checkpoint s s' :
  sync_until fuel checkpoint s = (s', Ok tt) →
  last_finalized s' = checkpoint ∨
  ∃ s0 l tip, (rpc (λ n, get_block_header_info n checkpoint) ;! is_syncing ;! stable_tip fuel) s =
      (s0, Ok (l, tip)) ∧ s' = s0 ∧
    0 < h_confirmations l ∧ h_height l = h_height tip ∧ h_hash tip = h_hash l.
Proof.
  intros Hr. unfold sync_until in Hr. mres Hr. destruct a0; [discriminate|]. mres Hr.
  destruct a0 as [l tip]. pose proof (stable_tip_Ok _ _ _ _ _ Hm1) as Hc.
  destruct (Z.eqb_spec (h_height l) (h_height tip)) as [Heq|Hne].
  - right. case_bool_decide; [|discriminate]. injection Hr as <-.
    eexists _, l, tip. split; [unfold bindM; by rewrite Hm, Hm0, Hm1|done].
  - left. mres Hr. match goal with Hg : get _ = _ |- _ => injection Hg as <- <- end. case_bool_decide; [|discriminate]. by injection Hr as <-.
Qed.

End sync_result.

(** ** What finalizing a block does *)

Section database_steps.
Context `{!BitcoinLib, !FrostLib}.

Lemma set_db_id (s : PegoutScheduler) : set_db (db s) s = s.
Proof. by destruct s. Qed.

Lemma on_db_read {A} (f : Db → A) s : io (db s) = [] → on_db (sled_read f) s = (s, Ok (f (db s))).
Proof. intros Hio. unfold on_db, zoom. rewrite sled_read_ok by done. by rewrite set_db_id. Qed.

Lemma on_db_write (f : Db → Db) s :
  io (db s) = [] → on_db (sled_write f) s = (set_db (f (db s)) s, Ok tt).
Proof. intros Hio. unfold on_db, zoom. by rewrite sled_write_ok. Qed.

Lemma on_db_transaction (f : Db → Db) s :
  io (db s) = [] → on_db (transaction f) s = (set_db (f (db s)) s, Ok tt).
Proof. intros Hio. unfold on_db, zoom. by rewrite transaction_ok. Qed.

(** [store_utxos] adds the UTXOs whose outpoint is free. *)
Lemma store_utxos_run us d :
  io d = [] →
  ∃ b, store_utxos us d = (set_utxos (foldl (λ t u, insert_new_utxo u t) (utxos d) us) d, Ok b).
Proof.
  intros Hio. destruct us as [|u [|u' us]].
  - exists false. unfold store_utxos, ret. simpl. by destruct d.
  - unfold store_utxos, store_utxo, bindM. rewrite sled_read_ok by done. simpl.
    unfold insert_new_utxo. destruct (utxos d !! to_bytes (utxo_outpoint u)) eqn:E.
    + rewrite bool_decide_true by eauto. exists false. simpl. by destruct d.
    + rewrite bool_decide_false by (intros [? ?]; congruence). cbn [negb].
      rewrite sled_write_ok by done. by exists true.
  - unfold store_utxos, store_utxos_atomically, bindM. rewrite transaction_ok by done. by exists true.
Qed.

Lemma insert_new_utxos_keeps us t k v :
  t !! k = Some v → foldl (λ t u, insert_new_utxo u t) t us !! k = Some v.
Proof.
  revert t. induction us as [|u us IH]; intros t Hk; [done|]. simpl. apply IH. unfold insert_new_utxo.
  destruct (t !! to_bytes (utxo_outpoint u)) eqn:E; [done|].
  rewrite lookup_insert_ne; [done|]. intros <-. congruence.
Qed.

Lemma insert_new_utxos_stored us t u :
  u ∈ us → is_Some (foldl (λ t u, insert_new_utxo u t) t us !! to_bytes (utxo_outpoint u)).
Proof.
  revert t. induction us as [|u' us IH]; intros t; [by intros ?%elem_of_nil|]. simpl.
  intros [->|Hu]%elem_of_cons; [|by apply IH].
  destruct (insert_new_utxo u' t !! to_bytes (utxo_outpoint u')) as [v|] eqn:E.
  - exists v. by apply insert_new_utxos_keeps.
  - exfalso. unfold insert_new_utxo in E. destruct (t !! to_bytes (utxo_outpoint u')) eqn:E'.
    + congruence.
    + by rewrite lookup_insert_eq in E.
Qed.

(** The script is the federation's change script. *)
Definition pays_change (d : Db) (spk : ScriptBuf) : Prop :=
  ∃ pkg agg_pk, pubkey_packages d !! multisig_key LEGACY_MULTISIG_ID = Some pkg ∧
    to_secp_pk pkg = Some agg_pk ∧ spk = generate_taproot_change_scriptpubkey agg_pk.

Lemma match_change_run spk s s' m :
  io (db s) = [] → okM (E':=DbError) (match_change_spk_to_multisig spk) s = (s', Ok m) →
  s' = s ∧ (pays_change (db s) spk → m = Some (Some LEGACY_MULTISIG_ID)).
Proof.
  intros Hio. unfold okM, match_change_spk_to_multisig, get_change_spk, bindM, map_errM,
    get_public_key_package_by_id, pays_change. rewrite on_db_read by done. unfold lift.
  destruct (pubkey_packages (db s) !! _) as [pkg|]; cbn [map_err expect]; [|discriminate].
  destruct (to_secp_pk pkg) as [agg|] eqn:Ea; cbn [ok_or].
  - unfold ret. case_bool_decide; intros [= <- <-]; split; try done.
    intros (pkg' & agg' & [= <-] & Ha & ->). congruence.
  - intros [= <- <-]. split; [done|]. intros (pkg' & agg' & [= <-] & Ha & _). congruence.
Qed.

(** The change outputs of a transaction become UTXOs. *)
Lemma change_utxos_run tx idxs s s' us :
  io (db s) = [] → change_utxos tx idxs s = (s', Ok us) →
  s' = s ∧ ∀ i o, i ∈ idxs → output (tx_tx tx) !! i = Some o → pays_change (db s) (script_pubkey o) →
    ∃ u, u ∈ us ∧ utxo_outpoint u = mkOutPoint (tx_txid tx) (Z.of_nat i).
Proof.
  intros Hio. revert us. induction idxs as [|j idxs IH]; intros us; cbn [change_utxos].
  { intros [= <- <-]. split; [done|]. by intros i o Hi%elem_of_nil. }
  intros Hr. mres Hr. apply lift_Ok in Hm as [-> Ho%expect_Ok].
  apply match_change_run in Hm0 as [-> Hpays]; [|done].
  assert (∀ us' : list Utxo, (∀ i o, i ∈ idxs → output (tx_tx tx) !! i = Some o →
      pays_change (db s) (script_pubkey o) →
      ∃ u, u ∈ us' ∧ utxo_outpoint u = mkOutPoint (tx_txid tx) (Z.of_nat i)) →
    (pays_change (db s) (script_pubkey a) →
      ∃ u, u ∈ us' ∧ utxo_outpoint u = mkOutPoint (tx_txid tx) (Z.of_nat j)) →
    ∀ i o, i ∈ j :: idxs → output (tx_tx tx) !! i = Some o → pays_change (db s) (script_pubkey o) →
      ∃ u, u ∈ us' ∧ utxo_outpoint u = mkOutPoint (tx_txid tx) (Z.of_nat i)) as Hcons.
  { intros us' Hrest Hj i o [->|Hi]%elem_of_cons Hio' Hp; [|by eapply Hrest].
    apply Hj. by simplify_eq. }
  destruct a0 as [[m|]|].
  - mres Hr. injection Hr as <- <-.
    apply okM_Ok in Hm as [(v & -> & Hu)|(_ & e & Hu)];
      (unfold get_utxo in Hu; rewrite on_db_read in Hu by done); [injection Hu as <- _|discriminate].
    apply IH in Hm0 as [-> Hrest]. split; [done|]. apply Hcons.
    + intros i o Hi Hoi Hp. destruct (Hrest i o Hi Hoi Hp) as (u & ? & ?). exists u. set_solver.
    + intros _. eexists. split; [apply list_elem_of_here|done].
  - apply IH in Hr as [-> Hrest]. split; [done|]. apply Hcons; [done|]. intros Hp. by apply Hpays in Hp.
  - apply IH in Hr as [-> Hrest]. split; [done|]. apply Hcons; [done|]. intros Hp. by apply Hpays in Hp.
Qed.

(** The transaction and the input are among those of the block. *)
Definition relevant (s : PegoutScheduler) (txids : list Txid) (t : Tx) : Prop :=
  ∃ txid, txid ∈ txids ∧ txs s !! txid = Some t.

Lemma store_change_run txids ins s s' ins' :
  io (db s) = [] → store_change txids ins s = (s', Ok ins') →
  txs s' = txs s ∧ ∃ t, db s' = set_utxos t (db s) ∧
    (∀ k v, utxos (db s) !! k = Some v → t !! k = Some v) ∧
    (∀ o, o ∈ ins' ↔ o ∈ ins ∨ ∃ tx, relevant s txids tx ∧ o ∈ tx_inputs tx) ∧
    (∀ tx i o, relevant s txids tx → i ∈ tx_change_idxs tx → output (tx_tx tx) !! i = Some o →
       pays_change (db s) (script_pubkey o) →
       is_Some (t !! to_bytes (mkOutPoint (tx_txid tx) (Z.of_nat i)))).
Proof.
  revert ins s. induction txids as [|txid txids IH]; intros ins s Hio; cbn [store_change].
  { intros [= <- <-]. split; [done|]. exists (utxos (db s)). split; [by destruct (db s)|].
    split; [done|]. split.
    - intros o. split; [by left|]. intros [?|(tx & (x & Hx%elem_of_nil & _) & _)]; done.
    - by intros tx i o (x & Hx%elem_of_nil & _). }
  intros Hr. mres Hr. injection Hm as <- <-. apply lift_Ok in Hm0 as [-> Htx%ok_or_Ok].
  apply change_utxos_run in Hm1 as [-> Hch]; [|done].
  destruct (store_utxos_run a1 (db s) Hio) as [b Hst].
  unfold on_db, zoom in Hm2. rewrite Hst in Hm2. injection Hm2 as <- _.
  unfold flush in Hm3. rewrite on_db_read in Hm3 by done. injection Hm3 as <- _.
  apply IH in Hr as (Ht & t & Hd & Hkeep & Hins & Hstored); [|done].
  cbn [db txs set_db utxos set_utxos] in *. split; [done|]. exists t. split; [by rewrite Hd|].
  split; [intros k v Hk; by apply Hkeep, insert_new_utxos_keeps|]. split.
  - intros o. rewrite Hins, elem_of_union, elem_of_list_to_set. unfold relevant. split.
    + intros [[?|?]|(tx & (x & Hx & Hxt) & ?)]; [by left|right|right].
      * exists a0. split; [|done]. exists txid. split; [set_solver|done].
      * exists tx. split; [|done]. exists x. split; [set_solver|done].
    + intros [?|(tx & (x & [->|Hx]%elem_of_cons & Hxt) & ?)]; [by left; left| |].
      * left. right. by simplify_eq.
      * right. exists tx. split; [|done]. by exists x.
  - intros tx i o (x & [->|Hx]%elem_of_cons & Hxt) Hi Ho Hp.
    + simplify_eq. destruct (Hch i o Hi Ho Hp) as (u & Hu & <-).
      destruct (insert_new_utxos_stored a1 (utxos (db s)) u Hu) as [v Hv]. eauto.
    + apply (Hstored tx i o); [by exists x|done..].
Qed.

(** Spending inputs removes their UTXOs, and untracks transactions that have
    the txid of an input. *)
Lemma spend_inputs_run l s s' :
  io (db s) = [] → forM l spend_input s = (s', Ok tt) →
  io (db s') = [] ∧ finalized_pegout_ids (db s') = finalized_pegout_ids (db s) ∧
  (∀ x, txs s' !! x = if decide (x ∈ map op_txid l) then None else txs s !! x) ∧
  (∀ k, utxos (db s') !! k = if decide (k ∈ map to_bytes l) then None else utxos (db s) !! k).
Proof.
  revert s. induction l as [|i l IH]; intros s Hio; cbn [forM].
  { intros [= <-]. split_and!; try done; intros k; by rewrite decide_False by apply not_elem_of_nil. }
  intros Hr. mres Hr. destruct a.
  assert (∃ m, s0 = set_db (set_utxos (delete (to_bytes i) (utxos (db s))) (set_tracked_txs m (db s)))
    (set_txs (delete (op_txid i) (txs s)) s)) as (m & ->).
  { unfold spend_input in Hm. mres Hm. injection Hm0 as <- <-.
    unfold remove_utxo, flush, remove_tracked_tx in *. destruct a0, a1.
    assert (∃ m, s2 = set_db (set_tracked_txs m (db s)) (set_txs (delete (op_txid i) (txs s)) s)) as (m & ->).
    { case_bool_decide as Hin.
      - mres Hm1. injection Hm0 as <-. rewrite on_db_write in Hm1 by done. injection Hm1 as <-. eauto.
      - injection Hm1 as <-. exists (tracked_txs (db s)).
        rewrite delete_id by by apply eq_None_not_Some. by destruct s as [???????[]]. }
    rewrite on_db_write in Hm2 by done. injection Hm2 as <-.
    rewrite on_db_read in Hm by done. injection Hm as <-. by exists m. }
  apply IH in Hr as (Hio' & Hfin & Htxs & Hut); [|done].
  cbn [db txs set_db set_txs utxos set_utxos finalized_pegout_ids set_tracked_txs] in *.
  split; [done|]. split; [done|]. simpl map. split.
  - intros x. rewrite Htxs. destruct (decide (x ∈ map op_txid l)).
    + rewrite decide_True by set_solver. done.
    + destruct (decide (x = op_txid i)) as [->|Hne].
      * rewrite lookup_delete_eq, decide_True by set_solver. done.
      * rewrite lookup_delete_ne, decide_False by set_solver. done.
  - intros k. rewrite Hut. destruct (decide (k ∈ map to_bytes l)).
    + rewrite decide_True by set_solver. done.
    + destruct (decide (k = to_bytes i)) as [->|Hne].
      * rewrite lookup_delete_eq, decide_True by set_solver. done.
      * rewrite lookup_delete_ne, decide_False by set_solver. done.
Qed.

End database_steps.

Section finalizing.
Context `{!BitcoinLib, !FrostLib, !PsbtLib, !Bitcoind}.

(** A timestamp that no reading of the clock makes older than 90 days. *)
Definition recent_at (ts : option Z) : Prop :=
  ∀ t n, ts = Some t → 0 ≤ t ∧ system_time n - RETENTION_WINDOW_SECONDS ≤ t.

Definition all_recent (m : gmap bytes FinalizedPegout) : Prop :=
  map_Forall (λ _ f, recent_at (fp_timestamp f)) m.

(** The readings of the clock lie within 90 days of each other. *)
Definition short_run : Prop :=
  ∀ n n', system_time n' - RETENTION_WINDOW_SECONDS ≤ system_time n.

Lemma prune_recent n fs m :
  short_run → 0 ≤ system_time n → Forall (λ f, recent_at (fp_timestamp f)) fs → all_recent m →
  let m' := foldl (prune_entry (system_time n) (saturating_sub (system_time n) RETENTION_WINDOW_SECONDS))
              m fs in
  all_recent m' ∧ ∀ k, is_Some (m !! k) → is_Some (m' !! k).
Proof.
  intros Hrun Hn Hfs. revert m. induction Hfs as [|f fs Hf Hfs IH]; intros m Hm; simpl; [done|].
  set (cutoff := saturating_sub (system_time n) RETENTION_WINDOW_SECONDS) in *.
  assert (all_recent (prune_entry (system_time n) cutoff m f) ∧
    ∀ k, is_Some (m !! k) → is_Some (prune_entry (system_time n) cutoff m f !! k)) as [Hr Hk].
  { unfold prune_entry. destruct (fp_timestamp f) as [t|] eqn:Et.
    - destruct (Hf t n eq_refl) as [Ht0 Ht]. subst cutoff. unfold saturating_sub.
      destruct (Z.ltb_spec t (Z.max 0 (system_time n - RETENTION_WINDOW_SECONDS))); [lia|done].
    - split.
      + apply map_Forall_insert_2; [|done]. intros t n' [= <-]. split; [done|apply Hrun].
      + intros k Hk. destruct (decide (as_bytes (fp_id f) = k)) as [->|Hne];
          [by rewrite lookup_insert_eq|by rewrite lookup_insert_ne]. }
  destruct (IH _ Hr) as [Hr' Hk']. split; [done|]. auto.
Qed.

Lemma tree_values_recent m : all_recent m → Forall (λ f, recent_at (fp_timestamp f)) (tree_values m).
Proof. intros Hm. apply Forall_forall. intros f (k & Hk)%elem_of_tree_values. by eapply Hm. Qed.

Lemma insert_new_finalized_all fs m :
  all_recent m → Forall (λ f, recent_at (fp_timestamp f)) fs →
  let m' := foldl (λ m f, insert_new_finalized f m) m fs in
  all_recent m' ∧ ∀ k, is_Some (m !! k) ∨ k ∈ map fp_key fs → is_Some (m' !! k).
Proof.
  intros Hm Hfs. revert m Hm. induction Hfs as [|f fs Hf Hfs IH]; intros m Hm; simpl.
  - split; [done|]. intros k [?|Hk]; [done|by apply elem_of_nil in Hk].
  - assert (all_recent (insert_new_finalized f m) ∧
      ∀ k, is_Some (m !! k) ∨ k = fp_key f → is_Some (insert_new_finalized f m !! k)) as [Hr Hk].
    { unfold insert_new_finalized, fp_key. destruct (m !! as_bytes (fp_id f)) as [v|] eqn:E.
      - split; [done|]. intros k [?| ->]; [done|eauto].
      - split; [by apply map_Forall_insert_2|]. intros k Hk.
        destruct (decide (as_bytes (fp_id f) = k)) as [<-|Hne]; [by rewrite lookup_insert_eq|].
        rewrite lookup_insert_ne by done. naive_solver. }
    destruct (IH _ Hr) as [Hr' Hk']. split; [done|]. intros k. rewrite elem_of_cons. naive_solver.
Qed.

(** What one transaction of the third loop leaves behind. *)
Lemma finalize_tx_run txid s s' :
  short_run → io (db s) = [] → all_recent (finalized_pegout_ids (db s)) →
  (∀ t, txs s !! txid = Some t → Forall (λ r, recent_at (pr_timestamp r)) (tx_pegout_requests t)) →
  finalize_tx txid s = (s', Ok tt) →
  ∃ m, db s' = set_tracked_txs (delete txid (tracked_txs (db s))) (set_finalized_pegout_ids m (db s)) ∧
    txs s' = delete txid (txs s) ∧ all_recent m ∧
    (∀ k, is_Some (finalized_pegout_ids (db s) !! k) → is_Some (m !! k)) ∧
    (∀ t r, txs s !! txid = Some t → r ∈ tx_pegout_requests t → is_Some (m !! as_bytes (pr_id r))).
Proof.
  intros Hrun Hio Hrec Hreq. unfold finalize_tx. intros Hr. mres Hr. injection Hm as <- <-.
  unfold remove_tracked_tx in Hr. destruct (txs s !! txid) as [tx|] eqn:Etx.
  - mres Hr. injection Hm0 as <-. destruct a.
    assert (∃ m n, s0 = set_db (set_finalized_pegout_ids m (db s)) (set_calls n s) ∧ all_recent m ∧
      (∀ k, is_Some (finalized_pegout_ids (db s) !! k) ∨ k ∈ map fp_key (finalized_of tx) →
            is_Some (m !! k))) as (m & n & -> & Hrm & Hk).
    { case_bool_decide as Hnil.
      - injection Hm as <-. exists (finalized_pegout_ids (db s)), (calls s).
        split; [by destruct s as [???????[]??]|]. split; [done|]. rewrite Hnil.
        intros k [?|Hk]; [done|by apply elem_of_nil in Hk].
      - mres Hm. unfold store_finalized_pegout_ids_atomically in Hm0.
        rewrite on_db_transaction in Hm0 by done. injection Hm0 as <- _. injection Hm1 as <- <-.
        cbn [calls set_calls set_db] in Hm2.
        destruct (insert_new_finalized_all (finalized_of tx) (finalized_pegout_ids (db s)) Hrec)
          as [Hr1 Hk1]; [by apply Forall_map, Hreq|].
        unfold prune_finalized_pegout_ids in Hm2. unfold on_db, zoom in Hm2.
        destruct (Z.ltb_spec (system_time (calls s)) 0); [discriminate|].
        unfold bindM, get_finalized_pegout_ids in Hm2. rewrite sled_read_ok in Hm2 by done.
        rewrite transaction_ok in Hm2 by done. injection Hm2 as <- _.
        unfold flush in Hm. rewrite on_db_read in Hm by done. injection Hm as <-.
        cbn [finalized_pegout_ids set_finalized_pegout_ids db set_db set_calls] in *.
        match goal with |- context [foldl (prune_entry ?t ?c) ?m0 ?fs] =>
          destruct (prune_recent (calls s) fs m0 Hrun) as [Hr2 Hk2];
            [done|by apply tree_values_recent|done|] end.
        eexists _, _. split; [reflexivity|]. split; [done|]. intros k Hk. by apply Hk2, Hk1. }
    rewrite on_db_write in Hr by done. injection Hr as <-. exists m.
    cbn [db txs set_db set_txs set_calls tracked_txs set_finalized_pegout_ids]. split_and!; try done.
    + intros k Hkk. apply Hk. by left.
    + intros t r [= <-] Hrr. apply Hk. right. unfold finalized_of. rewrite map_map.
      by apply (list_elem_of_fmap_2 (λ r, as_bytes (pr_id r))).
  - rewrite on_db_write in Hr by done. injection Hr as <-. exists (finalized_pegout_ids (db s)).
    cbn [db txs set_db]. split; [by destruct (db s)|]. by rewrite delete_id.
Qed.

Lemma finalize_txs_run txids s s' :
  short_run → io (db s) = [] → all_recent (finalized_pegout_ids (db s)) →
  (∀ t, relevant s txids t → Forall (λ r, recent_at (pr_timestamp r)) (tx_pegout_requests t)) →
  forM txids finalize_tx s = (s', Ok tt) →
  io (db s') = [] ∧ utxos (db s') = utxos (db s) ∧
  (∀ k, is_Some (finalized_pegout_ids (db s) !! k) → is_Some (finalized_pegout_ids (db s') !! k)) ∧
  (∀ t r, relevant s txids t → r ∈ tx_pegout_requests t →
     is_Some (finalized_pegout_ids (db s') !! as_bytes (pr_id r))) ∧
  (∀ x, x ∈ txids ∨ txs s !! x = None → txs s' !! x = None) ∧
  (∀ x, x ∈ txids ∨ tracked_txs (db s) !! x = None → tracked_txs (db s') !! x = None).
Proof.
  intros Hrun. revert s. induction txids as [|txid txids IH]; intros s Hio Hrec Hreq; cbn [forM].
  { intros [= <-]. split_and!; try done.
    - by intros t r (x & Hx%elem_of_nil & _).
    - intros x [Hx%elem_of_nil|?]; done.
    - intros x [Hx%elem_of_nil|?]; done. }
  intros Hr. mres Hr. destruct a.
  apply finalize_tx_run in Hm as (m & Hd & Ht & Hrm & Hk & Hreqs); [|done..|].
  2: { intros t Htx. apply Hreq. exists txid. split; [set_solver|done]. }
  apply IH in Hr as (Hio' & Hut & Hk' & Hreqs' & Htxs & Htr);
    [|by rewrite Hd|by rewrite Hd|].
  2: { intros t (x & Hx & Hxt). apply Hreq. rewrite Ht in Hxt.
       apply lookup_delete_Some in Hxt as [_ Hxt]. exists x. split; [set_solver|done]. }
  rewrite Hd, Ht in *. cbn [finalized_pegout_ids set_finalized_pegout_ids set_tracked_txs utxos
    tracked_txs] in *. split; [done|]. split; [done|]. split; [auto|]. split_and!.
  - intros t r (x & [->|Hx]%elem_of_cons & Hxt) Hrr; [by eapply Hk', Hreqs|].
    destruct (decide (x = txid)) as [->|Hne]; [by eapply Hk', Hreqs|].
    apply (Hreqs' t r); [|done]. exists x. split; [done|]. by rewrite Ht, lookup_delete_ne.
  - intros x Hx. apply Htxs. rewrite elem_of_cons in Hx.
    destruct (decide (x = txid)) as [->|Hne]; [right; by rewrite lookup_delete_eq|].
    rewrite lookup_delete_ne by done. naive_solver.
  - intros x Hx. apply Htr. rewrite elem_of_cons in Hx.
    destruct (decide (x = txid)) as [->|Hne]; [right; by rewrite lookup_delete_eq|].
    rewrite lookup_delete_ne by done. naive_solver.
Qed.

(** The outpoints that a finalized block spends. *)
Definition spent_by (s : PegoutScheduler) (block : BlockInfo) (o : OutPoint) : Prop :=
  o ∈ relevant_inputs block ∨ ∃ t, relevant s (relevant_txs block) t ∧ o ∈ tx_inputs t.

(** C27.  What [finalize_block] does when it succeeds, provided that the database
    answers, that the readings of the clock lie within 90 days of each other, and
    that the pegouts recorded as finalized and those that the block delivers have
    no timestamp or one at most 90 days before every reading, so that none is
    pruned.
    The block becomes the last finalized one; its transactions are tracked no
    more, neither in memory nor in the database; no UTXO that it spends remains;
    every change output of its transactions that it does not spend itself is a
    UTXO of the wallet, and every other UTXO is kept; and every pegout that its
    transactions deliver is recorded as finalized, unless its transaction's own
    output is spent in that block. *)
Theorem finalize_block_effects block s s' :
  short_run → io (db s) = [] → all_recent (finalized_pegout_ids (db s)) →
  (∀ t, relevant s (relevant_txs block) t →
     Forall (λ r, recent_at (pr_timestamp r)) (tx_pegout_requests t)) →
  finalize_block block s = (s', Ok tt) →
  last_finalized s' = bi_hash block ∧
  (∀ txid, txid ∈ relevant_txs block →
     txs s' !! txid = None ∧ tracked_txs (db s') !! txid = None) ∧
  (∀ o, spent_by s block o → utxos (db s') !! to_bytes o = None) ∧
  (∀ k v, utxos (db s) !! k = Some v → (∀ o, spent_by s block o → to_bytes o ≠ k) →
     utxos (db s') !! k = Some v) ∧
  (∀ t i out, relevant s (relevant_txs block) t → i ∈ tx_change_idxs t →
     output (tx_tx t) !! i = Some out → pays_change (db s) (script_pubkey out) →
     let op := mkOutPoint (tx_txid t) (Z.of_nat i) in
     (∀ o, spent_by s block o → to_bytes o ≠ to_bytes op) →
     is_Some (utxos (db s') !! to_bytes op)) ∧
  (∀ txid t r, txid ∈ relevant_txs block → txs s !! txid = Some t → r ∈ tx_pegout_requests t →
     (∀ o, spent_by s block o → op_txid o ≠ txid) →
     is_Some (finalized_pegout_ids (db s') !! as_bytes (pr_id r))).
Proof.
  intros Hrun Hio Hrec Hreq Hr. unfold finalize_block in Hr. mres Hr.
  apply store_change_run in Hm as (Ht1 & t1 & Hd1 & Hkeep & Hins & Hch); [|done].
  destruct a0, a1. apply spend_inputs_run in Hm0 as (Hio2 & Hfin2 & Htx2 & Hut2); [|by rewrite Hd1].
  assert (∀ o, o ∈ elements a ↔ spent_by s block o) as Hel.
  { intros o. rewrite elem_of_elements, Hins, elem_of_list_to_set. done. }
  rewrite Hd1 in Hfin2, Hut2. rewrite Ht1 in Htx2. cbn [finalized_pegout_ids set_utxos utxos] in *.
  apply finalize_txs_run in Hm1 as (Hio3 & Hut3 & Hk3 & Hreq3 & Htx3 & Htr3); [|done..|by rewrite Hfin2|].
  2: { intros t (x & Hx & Hxt). apply Hreq. exists x. split; [done|]. rewrite Htx2 in Hxt.
       by destruct (decide _). }
  assert (∃ us, on_db get_all_utxos s2 = (s2, us)) as (us & Hus).
  { unfold get_all_utxos, on_db, zoom, bindM. rewrite sled_read_ok by done. unfold lift.
    by rewrite set_db_id; eauto. }
  rewrite Hus in Hm2. injection Hm2 as <- ->. apply lift_Ok in Hm3 as [-> _].
  injection Hm4 as <-. unfold flush in Hr. rewrite on_db_read in Hr by done. injection Hr as <-.
  cbn [last_finalized set_last_finalized txs db]. split_and!; [done| | | | |].
  - intros txid Hx. split; [apply Htx3|apply Htr3]; by left.
  - intros o Ho. rewrite Hut3, Hut2, decide_True; [done|].
    apply list_elem_of_fmap_2. by apply Hel.
  - intros k v Hk Hn. rewrite Hut3, Hut2, decide_False; [by apply Hkeep|].
    intros (o & -> & Ho%Hel)%list_elem_of_fmap. by apply (Hn o).
  - intros t i out Hrel Hi Hout Hp Hn. rewrite Hut3, Hut2, decide_False; [by eapply Hch|].
    intros (o & He & Ho%Hel)%list_elem_of_fmap. by apply (Hn o).
  - intros txid t r Hx Htx Hrr Hn. apply (Hreq3 t r); [|done]. exists txid. split; [done|].
    rewrite Htx2, decide_False; [done|].
    intros (o & He & Ho%Hel)%list_elem_of_fmap. by apply (Hn o).
Qed.

End finalizing.

(** ** Termination *)

Section termination.
Context `{!BitcoinLib, !FrostLib, !PsbtLib, !Bitcoind}.

(** The call does not stop for lack of fuel, from [s]. *)
Definition ends_from {A} (m : M PegoutScheduler SyncError A) (s : PegoutScheduler) : Prop :=
  (m s).2 ≠ Err OutOfFuel.

Definition ends {A} (m : M PegoutScheduler SyncError A) : Prop := ∀ s, ends_from m s.

Lemma ends_from_bind {A B} (m : M PegoutScheduler SyncError A) (f : A → M PegoutScheduler SyncError B) s :
  ends_from m s → (∀ s1 a, m s = (s1, Ok a) → ends_from (f a) s1) → ends_from (bindM m f) s.
Proof.
  unfold ends_from, bindM. intros Hm Hf. destruct (m s) as [s1 [a|e|]]; simpl in *; [by apply Hf| |done].
  intros [= ->]. done.
Qed.

Lemma ends_bind {A B} (m : M PegoutScheduler SyncError A) (f : A → M PegoutScheduler SyncError B) :
  ends m → (∀ a, ends (f a)) → ends (bindM m f).
Proof. intros Hm Hf s. apply ends_from_bind; [apply Hm|]. intros s1 a _. apply Hf. Qed.

Lemma ends_rpc {A} (f : nat → A + RpcError) : ends (rpc f).
Proof. intros s. unfold ends_from, rpc. by destruct (f (calls s)). Qed.

Lemma ends_lift_expect {A} (o : option A) : ends (lift (expect o)).
Proof. intros s. unfold ends_from, lift. by destruct o. Qed.

Lemma ends_map_err {A} (m : M PegoutScheduler DbError A) : ends (map_errM SyDb m).
Proof. intros s. unfold ends_from, map_errM. by destruct (m s) as [s1 [a|e|]]. Qed.

Lemma ends_expectM {E A} (m : M PegoutScheduler E A) : ends (expectM m).
Proof. intros s. unfold ends_from, expectM. by destruct (m s) as [s1 [a|e|]]. Qed.

Lemma ends_okM {E A} (m : M PegoutScheduler E A) : ends (okM m).
Proof. intros s. unfold ends_from, okM. by destruct (m s) as [s1 [a|e|]]. Qed.

Lemma ends_block_time h : ends (lift (block_time h)).
Proof. intros s. unfold ends_from, lift, block_time. by destruct (_ && _). Qed.

Lemma ends_forM {A} (l : list A) (f : A → M PegoutScheduler SyncError unit) :
  (∀ x, ends (f x)) → ends (forM l f).
Proof. intros Hf. induction l as [|x l IH]; [done|]. by apply ends_bind; [apply Hf|]. Qed.

Lemma ends_fail {A} e : e ≠ OutOfFuel → ends (fail (A:=A) e).
Proof. intros He s [= ->]. done. Qed.

Ltac ends_step :=
  intros; first
  [ apply ends_rpc | apply ends_lift_expect | apply ends_map_err | apply ends_expectM
  | apply ends_okM | apply ends_block_time | apply ends_fail; discriminate
  | apply ends_forM | apply ends_bind | (intros ?; discriminate) | case_match ].

Lemma rollback_tip_ends : ends rollback_tip.
Proof. unfold rollback_tip. repeat ends_step. Qed.

Lemma track_mempool_ends cp : ends (track_mempool cp).
Proof. unfold track_mempool, check_mempool_tx, dropped_from_mempool. repeat ends_step. Qed.

Lemma is_syncing_ends : ends is_syncing.
Proof. unfold is_syncing. repeat ends_step. Qed.

Lemma sync_blocks_ends cp hashes : ends (sync_blocks cp hashes).
Proof.
  induction hashes as [|h hs IH]; cbn [sync_blocks]; [by intros s|].
  apply ends_bind; [by intros s|]. intros s. case_bool_decide; [by intros ?|].
  apply ends_bind; [|done]. unfold sync_block, add_block. repeat ends_step.
Qed.

(** As many rounds as there are blocks in the window suffice to find the fork. *)
Lemma find_fork_ends fuel s :
  last_blocks s ≠ [] → (length (last_blocks s) ≤ fuel)%nat → ends_from (find_fork fuel) s.
Proof.
  revert s. induction fuel as [|fuel IH]; intros s Hne Hlen; cbn [find_fork].
  { destruct (last_blocks s); [done|]. simpl in Hlen. lia. }
  apply ends_from_bind; [done|]. intros ? ? [= <- <-].
  apply ends_from_bind; [apply ends_lift_expect|]. intros s1 b [-> _]%lift_Ok.
  apply ends_from_bind; [apply ends_rpc|]. intros s2 h Hh.
  pose proof (rpc_frame (λ n, get_block_header_info n (bi_hash b)) s) as Hf.
  rewrite Hh in Hf. injection Hf as _ Hl.
  destruct (0 <? h_confirmations h); [done|].
  destruct (Nat.eqb_spec (length (last_blocks s)) 1); [done|].
  apply ends_from_bind; [apply rollback_tip_ends|]. intros s3 [] Hr.
  pose proof (rollback_tip_window (E:=SyncError) s2 ltac:(by rewrite Hl)) as Hw.
  rewrite Hr in Hw. injection Hw as _ Hl3. cbn [fst] in Hl3.
  assert (length (last_blocks s3) = (length (last_blocks s) - 1)%nat) as Hlen3
    by (by rewrite Hl3, length_removelast, Hl).
  apply IH; [|lia]. intros Hn. rewrite Hn in Hlen3. cbn [length] in Hlen3.
  destruct (last_blocks s); [done|]. cbn [length] in *. lia.
Qed.

(** bitcoind answers from one fixed chain. *)
Record static_chain : Prop := {
  sc_best : ∀ n n', get_best_block_hash n = get_best_block_hash n';
  sc_header : ∀ n n' h, get_block_header_info n h = get_block_header_info n' h;
  sc_height : ∀ n h hd p hd', get_block_header_info n h = inl hd → h_previous hd = Some p →
    get_block_header_info n p = inl hd' → h_height hd' = h_height hd - 1 }.

Lemma hashes_back_ends fuel l c s n h :
  static_chain → (∀ n h hd, get_block_header_info n h = inl hd → 0 ≤ h_height hd) →
  get_block_header_info n h = inl c → h_height c < Z.of_nat fuel →
  ends_from (hashes_back fuel l c) s.
Proof.
  intros Hs Hpos. revert c s n h. induction fuel as [|fuel IH]; intros c s n h Hc Hlt; cbn [hashes_back].
  { pose proof (Hpos _ _ _ Hc). lia. }
  apply ends_from_bind; [apply ends_lift_expect|]. intros s1 p [-> Hp%expect_Ok]%lift_Ok.
  apply ends_from_bind; [apply ends_rpc|]. intros s2 c' Hr. unfold rpc in Hr.
  destruct (get_block_header_info (calls s) p) as [hd|] eqn:Ehd; [|discriminate].
  injection Hr as <- <-. rewrite (sc_header Hs (calls s) n) in Ehd.
  pose proof (sc_height Hs n h c p hd Hc Hp Ehd) as Hh.
  destruct (h_height hd =? h_height l); [by case_bool_decide|].
  apply ends_from_bind; [eapply IH; [exact Ehd|lia]|]. done.
Qed.

Lemma stable_tip_ends fuel s :
  static_chain → last_blocks s ≠ [] → ends_from (stable_tip (S fuel)) s.
Proof.
  intros Hs Hne. cbn [stable_tip].
  apply ends_from_bind; [apply ends_rpc|]. intros s1 best Hb.
  pose proof (rpc_frame get_best_block_hash s) as Hf1. rewrite Hb in Hf1. injection Hf1 as _ Hl1.
  apply ends_from_bind; [apply ends_rpc|]. intros s2 tip Ht.
  pose proof (rpc_frame (λ n, get_block_header_info n best) s1) as Hf2.
  rewrite Ht in Hf2. injection Hf2 as _ Hl2.
  apply ends_from_bind; [done|]. intros ? ? [= <- <-].
  apply ends_from_bind; [apply find_fork_ends; [by rewrite Hl2, Hl1|lia]|]. intros s3 l _.
  apply ends_from_bind; [apply ends_rpc|]. intros s4 best' Hb'.
  apply ends_from_bind; [apply ends_rpc|]. intros s5 tip' Ht'.
  unfold rpc in Hb, Ht, Hb', Ht'.
  rewrite (sc_best Hs (calls s3) (calls s)) in Hb'.
  destruct (get_best_block_hash (calls s)) as [b0|]; [|discriminate].
  injection Hb as <- ->. injection Hb' as <- <-.
  rewrite (sc_header Hs (calls (set_calls _ s3)) (calls (set_calls (S (calls s)) s))) in Ht'.
  destruct (get_block_header_info _ best) as [hd|]; [|discriminate].
  injection Ht as _ <-. injection Ht' as _ <-. by rewrite bool_decide_true.
Qed.

(** On a chain that stands still while it runs [sync_until] terminates:
    with more rounds than the chain is high (and at least one) neither the
    search for a stable tip, nor the search for the fork, nor the walk back
    to it runs out of rounds. *)
Theorem sync_until_terminates fuel checkpoint s :
  static_chain → last_blocks s ≠ [] → (0 < fuel)%nat →
  (∀ n h hd, get_block_header_info n h = inl hd → 0 ≤ h_height hd < Z.of_nat fuel) →
  (sync_until fuel checkpoint s).2 ≠ Err OutOfFuel.
Proof.
  intros Hs Hne Hfuel Hh. change (ends_from (sync_until fuel checkpoint) s). unfold sync_until.
  apply ends_from_bind; [apply ends_rpc|]. intros s1 cp H1'.
  pose proof (rpc_frame (λ n, get_block_header_info n checkpoint) s) as Hf1.
  rewrite H1' in Hf1. injection Hf1 as _ Hl1.
  apply ends_from_bind; [apply is_syncing_ends|]. intros s2 b H2'.
  pose proof (is_syncing_frame s1) as Hf2. rewrite H2' in Hf2. injection Hf2 as _ Hl2.
  destruct b; [done|]. destruct fuel as [|fuel]; [lia|].
  apply ends_from_bind; [apply stable_tip_ends; [done|by rewrite Hl2, Hl1]|]. intros s3 [l tip] H3.
  destruct (h_height l =? h_height tip); [by case_bool_decide|].
  assert (∃ n h, get_block_header_info n h = inl tip) as (n & h & Htip).
  { clear -H3. revert s2 H3. generalize (S fuel). intros f. induction f as [|f IH]; intros s2 H3; [done|].
    cbn [stable_tip] in H3. mres H3. case_bool_decide; [|by eapply IH].
    injection H3 as _ _ <-. unfold rpc in Hm0.
    destruct (get_block_header_info (calls s) a) eqn:E; [|discriminate]. injection Hm0 as _ <-. eauto. }
  apply ends_from_bind.
  - eapply hashes_back_ends; [done| |exact Htip|apply (Hh _ _ _ Htip)].
    intros n' h' hd Hhd. by apply (Hh _ _ _ Hhd).
  - intros s4 hs _. apply ends_from_bind; [apply sync_blocks_ends|]. intros s5 [] _.
    apply ends_from_bind; [apply track_mempool_ends|]. intros s6 [] _.
    apply ends_from_bind; [done|]. intros s7 a _. by case_bool_decide.
Qed.

End termination.

(** ** A concrete chain

    Blocks 0 to 4 in a row, the tip at time 900 and the clock at 1000; block 2
    holds the transaction [toy_delivery].  Of the transactions off the chain
    bitcoind knows [toy_live] only. *)

Definition toy_header (h : BlockHash) : HeaderInfo + RpcError :=
  match h with
  | [n] =>
      if (0 <=? n) && (n <=? 4)
      then inl (mkHeaderInfo [n] n (5 - n) (if n =? 0 then None else Some [n - 1]) 900)
      else inl (mkHeaderInfo [n] 2 (-1) (Some [1]) 900)
  | _ => inr (mkRpcError false)
  end.

(** It spends UTXO 1 (100000 satoshi), pays pegout 4 and returns change. *)
Definition toy_delivery_tx : Transaction :=
  mkTransaction 2 0 [mkTxIn (toy_outpoint 1) [] 0 []]
    [mkTxOut 40000 (p2wpkh 3); mkTxOut 59000 (p2tr 9)].
Definition toy_delivery_id : Txid := Eval vm_compute in compute_txid toy_delivery_tx.
Definition toy_delivery : Tx :=
  mkTx toy_delivery_id toy_delivery_tx [0%nat]
    [mkPegoutRequest (toy_pegout_id 4) (p2wpkh 3) 40000 1 (Some 1000)] [1%nat] 100.

(** Two more tracked transactions, older than the checkpoint. *)
Definition toy_live : Tx :=
  mkTx [21] (mkTransaction 2 0 [mkTxIn (toy_outpoint 2) [] 0 []] [mkTxOut 7 (p2wpkh 5)]) [0%nat]
    [mkPegoutRequest (toy_pegout_id 5) (p2wpkh 5) 7 1 (Some 1000)] [] 100.
Definition toy_dead : Tx :=
  mkTx [22] (mkTransaction 2 0 [mkTxIn (toy_outpoint 3) [] 0 []] [mkTxOut 8 (p2wpkh 6)]) [0%nat]
    [mkPegoutRequest (toy_pegout_id 6) (p2wpkh 6) 8 1 (Some 1000)] [] 100.

#[export] Instance toy_bitcoind : Bitcoind := {
  get_block_header_info _ h := toy_header h;
  get_best_block_hash _ := inl [4];
  get_block _ h := match h with
                   | [n] => inl (mkBlock h [n - 1] (if n =? 2 then [toy_delivery_tx] else []))
                   | _ => inr (mkRpcError false)
                   end;
  get_raw_transaction_info _ txid :=
    if bool_decide (txid = tx_txid toy_live) then inl None
    else if bool_decide (txid = toy_delivery_id) then inl (Some [2])
    else inr (mkRpcError false);
  get_block_info _ h := match h with [n] => inl n | _ => inr (mkRpcError false) end;
  get_mempool_entry _ txid :=
    if bool_decide (txid = tx_txid toy_live) then inl tt else inr (mkRpcError true);
  initialblockdownload _ := inl false;
  system_time _ := 1000 }.

Lemma toy_static_chain : static_chain.
Proof.
  split; [done..|]. intros n h hd p hd' Hh Hp Hh'. simpl in Hh, Hh'.
  destruct h as [|k [|? ?]]; try discriminate. simpl in Hh.
  destruct (0 <=? k) eqn:E1, (k <=? 4) eqn:E2; simpl in Hh; injection Hh as <-; simpl in Hp;
    [destruct (k =? 0) eqn:E3; [discriminate|]|..]; injection Hp as <-; simpl in Hh'.
  - destruct (0 <=? k - 1) eqn:E4, (k - 1 <=? 4) eqn:E5; simpl in Hh'; injection Hh' as <-; simpl; lia.
  - by injection Hh' as <-.
  - by injection Hh' as <-.
  - by injection Hh' as <-.
Qed.

(** A scheduler with a window of two blocks that has seen block 1. *)
Definition toy_scheduler (ts : list Tx) : PegoutScheduler :=
  (new (E:=unit) 2 ts [1] (toy_federation (toy_db_with_utxos [toy_utxo 1 100000])) false).1.

(** The same with a block on top that bitcoind does not have in its chain. *)
Definition toy_forked : PegoutScheduler :=
  set_last_blocks [mkBlockInfo [1] [] []; mkBlockInfo [9] [toy_delivery_id] []]
    (toy_scheduler [toy_delivery]).

Definition toy_checkpoint : HeaderInfo := mkHeaderInfo [2] 2 3 (Some [1]) 900.

Definition block2 : BlockHash := [2].

Lemma sync_until_keeps_window_witness :
  window_ok (toy_scheduler [toy_delivery]) ∧
  (length (last_blocks (sync_until 5 block2 (toy_scheduler [toy_delivery])).1) ≤ 2)%nat.
Proof.
  assert (window_ok (toy_scheduler [toy_delivery])) as Hw by (unfold window_ok; simpl; lia).
  split; [exact Hw|].
  destruct (sync_until_keeps_window 5 block2 (toy_scheduler [toy_delivery]) Hw) as [[_ Hle] Hc].
  rewrite Hc in Hle. exact Hle.
Defined.

(** The rolled back delivery, and the dead one, are pending again. *)
Lemma no_pegout_lost_witness :
  accounted (rollback_tip (E:=SyncError) toy_forked).1 (toy_pegout_id 4) ∧
  accounted (track_mempool toy_checkpoint (toy_scheduler [toy_live; toy_dead])).1 (toy_pegout_id 6) ∧
  bool_decide (is_Some (pending_pegouts (db (rollback_tip (E:=SyncError) toy_forked).1)
    !! as_bytes (toy_pegout_id 4))) = true.
Proof.
  split; [|split].
  - refine (proj1 (no_pegout_lost toy_checkpoint toy_forked (toy_pegout_id 4) eq_refl _)).
    left. exists toy_delivery_id, toy_delivery. split; [reflexivity|]. simpl. by left.
  - refine (proj2 (no_pegout_lost toy_checkpoint (toy_scheduler [toy_live; toy_dead])
      (toy_pegout_id 6) eq_refl _)).
    left. exists (tx_txid toy_dead), toy_dead. split; [reflexivity|]. simpl. by left.
  - vm_compute. reflexivity.
Defined.

Lemma track_mempool_keeps_live_txs_witness :
  let s' := (track_mempool toy_checkpoint (toy_scheduler [toy_live; toy_dead])).1 in
  txs s' !! tx_txid toy_live = Some toy_live ∧
  bool_decide (is_Some (txs s' !! tx_txid toy_dead)) = false.
Proof.
  split; [|vm_compute; reflexivity].
  apply track_mempool_keeps_live_txs; [| reflexivity | reflexivity |].
  - apply map_Forall_insert_2; [reflexivity|].
    apply map_Forall_insert_2; [reflexivity|apply map_Forall_empty].
  - left. intros n n'. exact I.
Defined.

Lemma sync_until_success_witness :
  match sync_until 5 block2 (toy_scheduler [toy_delivery]) with
  | (s', Ok tt) => last_finalized s' = block2 ∨ h_height toy_checkpoint = 4
  | _ => False
  end.
Proof.
  destruct (sync_until 5 block2 (toy_scheduler [toy_delivery])) as [s' [[]|e|]] eqn:E;
    [|vm_compute in E; discriminate E..].
  destruct (sync_until_success 5 block2 (toy_scheduler [toy_delivery]) s' E)
    as [Hf|(s0 & l & tip & Hr & _ & _ & Hh & _)]; [left; exact Hf|].
  exfalso. vm_compute in Hr. injection Hr as _ <- <-. discriminate Hh.
Defined.

Definition toy_block2 : BlockInfo := mkBlockInfo block2 [toy_delivery_id] [].

Lemma finalize_block_effects_witness :
  match finalize_block toy_block2 (toy_scheduler [toy_delivery]) with
  | (s', Ok tt) =>
      last_finalized s' = block2 ∧ txs s' !! toy_delivery_id = None ∧
      utxos (db s') !! to_bytes (toy_outpoint 1) = None ∧
      is_Some (utxos (db s') !! to_bytes (mkOutPoint toy_delivery_id 1)) ∧
      is_Some (finalized_pegout_ids (db s') !! as_bytes (toy_pegout_id 4))
  | _ => False
  end.
Proof.
  destruct (finalize_block toy_block2 (toy_scheduler [toy_delivery])) as [s' [[]|e|]] eqn:E;
    [|vm_compute in E; discriminate E..].
  assert (txs (toy_scheduler [toy_delivery]) !! toy_delivery_id = Some toy_delivery) as Htx
    by reflexivity.
  assert (∀ t, relevant (toy_scheduler [toy_delivery]) (relevant_txs toy_block2) t → t = toy_delivery)
    as Hrel.
  { intros t (x & Hx & Hxt). apply list_elem_of_singleton in Hx as ->. rewrite Htx in Hxt. congruence. }
  assert (relevant (toy_scheduler [toy_delivery]) (relevant_txs toy_block2) toy_delivery) as Hd
    by (exists toy_delivery_id; split; [by apply list_elem_of_singleton|exact Htx]).
  assert (∀ o, spent_by (toy_scheduler [toy_delivery]) toy_block2 o → o = toy_outpoint 1) as Hsp.
  { intros o [Ho|(t & ->%Hrel & Ho)]; [exact (False_ind _ (not_elem_of_nil o Ho))|].
    exact (proj1 (list_elem_of_singleton o _) Ho). }
  destruct (finalize_block_effects toy_block2 (toy_scheduler [toy_delivery]) s')
    as (Hf & Ht & Hs & _ & Hc & Hp).
  - intros n n'. vm_compute. discriminate.
  - reflexivity.
  - apply map_Forall_empty.
  - intros t ->%Hrel. apply Forall_singleton. intros ts n [= <-].
    split; vm_compute; discriminate.
  - exact E.
  - split; [exact Hf|]. split; [refine (proj1 (Ht toy_delivery_id _)); by apply list_elem_of_singleton|].
    split; [|split].
    + apply Hs. right. exists toy_delivery. split; [exact Hd|]. by apply list_elem_of_singleton.
    + apply (Hc toy_delivery 1%nat (mkTxOut 59000 (p2tr 9))); [exact Hd| | reflexivity | |].
      * by apply list_elem_of_singleton.
      * eexists _, _. split; [reflexivity|]. split; reflexivity.
      * intros o ->%Hsp. vm_compute. discriminate.
    + apply (Hp toy_delivery_id toy_delivery (mkPegoutRequest (toy_pegout_id 4) (p2wpkh 3) 40000 1 (Some 1000)));
        [by apply list_elem_of_singleton|exact Htx|by apply list_elem_of_singleton|].
      intros o ->%Hsp. vm_compute. discriminate.
Defined.

Lemma sync_until_terminates_witness :
  (sync_until 5 block2 (toy_scheduler [toy_delivery])).2 ≠ Err OutOfFuel.
Proof.
  apply sync_until_terminates; [exact toy_static_chain|discriminate|lia|].
  intros n h hd Hh. simpl in Hh. destruct h as [|k [|? ?]]; try discriminate. simpl in Hh.
  destruct (0 <=? k) eqn:E1, (k <=? 4) eqn:E2; simpl in Hh; injection Hh as <-; simpl; lia.
Defined.

(** ** Evaluations on the concrete chain

    Another transaction spends UTXO 1, the input of the tracked delivery: when
    its block is final the UTXO is gone, but the delivery, which can never
    confirm, stays tracked, because [finalize_block] looks the transaction to
    drop up under the id of the UTXO's parent. *)
Lemma conflicted_delivery_stays_tracked :
  match finalize_block (mkBlockInfo block2 [] [toy_outpoint 1]) (toy_scheduler [toy_delivery]) with
  | (s', Ok tt) => bool_decide (is_Some (txs s' !! toy_delivery_id)) = true ∧
                   bool_decide (is_Some (utxos (db s') !! to_bytes (toy_outpoint 1))) = false
  | _ => False
  end.
Proof. vm_compute. split; reflexivity. Qed.

(** [un_track_tx] forgets the conflicts of every other tracked transaction
    with the same input: a block that spends it is then not relevant. *)
Definition toy_rival : Tx :=
  mkTx [23] (mkTransaction 2 0 [mkTxIn (toy_outpoint 2) [] 0 []] [mkTxOut 9 (p2wpkh 7)]) [0%nat]
    [mkPegoutRequest (toy_pegout_id 5) (p2wpkh 7) 9 1 (Some 1000)] [] 100.

Lemma untracking_forgets_rivals :
  let s' := (un_track_tx (tx_txid toy_rival) (toy_scheduler [toy_live; toy_rival])).1 in
  bool_decide (is_Some (txs s' !! tx_txid toy_live)) = true ∧
  bool_decide (is_Some (txs_by_input s' !! toy_outpoint 2)) = false.
Proof. vm_compute. split; reflexivity. Qed.

(** At bitcoind's tip [sync_until] succeeds whatever the checkpoint is, and
    without the mempool check: the dropped transaction stays tracked. *)
Definition toy_at_tip : PegoutScheduler :=
  set_last_blocks [mkBlockInfo [3] [] []; mkBlockInfo [4] [] []] (toy_scheduler [toy_dead]).

Lemma synced_tip_ignores_checkpoint :
  match sync_until 5 block2 toy_at_tip with
  | (s', Ok tt) => bool_decide (last_finalized s' = block2) = false ∧
                   bool_decide (is_Some (txs s' !! tx_txid toy_dead)) = true
  | _ => False
  end.
Proof. vm_compute. split; reflexivity. Qed.

(** A sled error after the transaction is untracked loses its pegouts: they
    are neither tracked nor pending. *)
Lemma requeue_error_loses_pegouts :
  let s := set_db (set_io [false; true] (db (toy_scheduler [toy_dead]))) (toy_scheduler [toy_dead]) in
  match track_mempool toy_checkpoint s with
  | (s', Err (SyDb e)) => bool_decide (is_Some (txs s' !! tx_txid toy_dead)) = false ∧
      bool_decide (is_Some (pending_pegouts (db s') !! as_bytes (toy_pegout_id 6))) = false
  | _ => False
  end.
Proof. vm_compute. split; reflexivity. Qed.
