(* ===== verification/Activation.v ===== *)
(** * The activation of runtime upgrades

    src/crates/botanix-activation-manager/src: the vote tracker
    (vote_tracker.rs), the activation manager (manager.rs) that decides at
    every stage of a block which runtime version is proposed, accepted and
    finalized, and its builder (builder.rs); the versions and votes of
    src/crates/botanix-storage/src/models/activation_manager.rs and the
    history of version transitions kept by
    src/crates/botanix-storage/src/provider/database/runtime_transitions.rs.

    The manager is written against the trait [ActivationManagerReaderWriter],
    here the class [VoteStore] with its laws [VoteStoreLaws]; its theorems hold
    for every lawful store, also one that fails at will.  The in-memory
    [VoteWatcher] is the instance.  A call runs to its end before the next one
    starts, except that [force_upgrade_checked] is interrupted between its
    check and its commit ([node_step]); how the calls interleave on the two
    locks is the module [Locks].  [usize] has 64 bits, and the number of
    validators times 100 fits.  The tables of the history never fail. *)

From S2P Require Import Prelude Bytes.

Open Scope Z_scope.

(** ** Versions and votes *)

Inductive Vote := Aye | Nay | Abstain.

#[global] Instance Vote_eq_dec : EqDecision Vote.
Proof. solve_decision. Defined.

Definition default_vote : Vote := Abstain.

(** The two components are [u16]. *)
Record RuntimeVersion := mkVersion { major : Z; minor : Z }.

#[global] Instance RuntimeVersion_eq_dec : EqDecision RuntimeVersion.
Proof. solve_decision. Defined.

Definition version_wf (v : RuntimeVersion) : Prop :=
  0 ≤ major v < 65536 ∧ 0 ≤ minor v < 65536.

Definition version_cmp (a b : RuntimeVersion) : comparison :=
  match major a ?= major b with
  | Eq => minor a ?= minor b
  | ordering => ordering
  end.

Definition version_le (a b : RuntimeVersion) : bool :=
  match version_cmp a b with Gt => false | _ => true end.

Definition version_lt (a b : RuntimeVersion) : bool :=
  match version_cmp a b with Lt => true | _ => false end.

Definition compress (v : RuntimeVersion) : bytes :=
  to_le_bytes 2 (major v) ++ to_le_bytes 2 (minor v).

(** A value of fewer than four bytes is [unreachable!]. *)
Definition decompress {E} (b : bytes) : outcome E RuntimeVersion :=
  if (length b <? 4)%nat then Panic
  else Ok (mkVersion (from_le_bytes (take 2 b)) (from_le_bytes (take 2 (drop 2 b)))).

(** ** The vote store: the interface *)

Inductive ProviderError := ProviderFailed.

Class VoteStore (Auth S : Type) := {
  update_upgrading_vote : Auth → Vote → bool → Z → M S ProviderError unit;
  get_aye_votes : M S ProviderError (Z * Z);
  get_nay_votes : M S ProviderError (Z * Z);
  get_abstained_votes : M S ProviderError (Z * Z);
  get_compliance_count : M S ProviderError (Z * Z);
  get_upgrading_approval_rate_ayes : Z → M S ProviderError (Z * Z);
  get_upgrading_approval_rate_compliance : Z → M S ProviderError (Z * Z);
  remove_upgrading_votes : Z → M S ProviderError Z }.

Record VoteEntry := mkVoteEntry { e_vote : Vote; e_is_compliant : bool; e_botanix_height : Z }.

(** [usize::div_ceil]; zero divides nothing. *)
Definition div_ceil {E} (a b : Z) : outcome E Z :=
  if b =? 0 then Panic else Ok (if 0 <? a mod b then a / b + 1 else a / b).

(** What the documentation of the trait says, over a map from validators to
    their votes. *)
Section votes.
Context `{Countable Auth}.

Definition is_vote (v : Vote) (e : VoteEntry) : bool := bool_decide (e_vote e = v).

(** The number of the entries that satisfy [f]. *)
Definition count_votes (f : VoteEntry → bool) (votes : gmap Auth VoteEntry) : Z :=
  Z.of_nat (length (List.filter f (map_to_list votes).*2)).

Definition total_votes (votes : gmap Auth VoteEntry) : Z := Z.of_nat (size votes).

Definition record_vote (auth : Auth) (e : VoteEntry) (votes : gmap Auth VoteEntry)
    : gmap Auth VoteEntry :=
  match votes !! auth with
  | Some old => if e_botanix_height e <=? e_botanix_height old then votes else <[auth := e]> votes
  | None => <[auth := e]> votes
  end.

Definition retain_from (height : Z) (votes : gmap Auth VoteEntry) : gmap Auth VoteEntry :=
  filter (λ '(_, e), height ≤ e_botanix_height e) votes.

(** The rounded-up percentage of [k] votes of [total]. *)
Definition rate {E} (k total : Z) : outcome E (Z * Z) :=
  let? quorum := div_ceil (k * 100) total in Ok (quorum, total).

Definition approval_rate {E} (f : VoteEntry → bool) (min_validator_count : Z)
    (votes : gmap Auth VoteEntry) : outcome E (Z * Z) :=
  rate (count_votes f votes) (Z.max (total_votes votes) min_validator_count).

(** A call behaves like an update of the map that returns [a], or fails and
    leaves the map alone. *)
Definition implements {S A} (view : S → gmap Auth VoteEntry → Prop) (call : M S ProviderError A)
    (votes votes' : gmap Auth VoteEntry) (a : A) : Prop :=
  ∀ s, view s votes → match call s with
                      | (s', Ok x) => view s' votes' ∧ x = a
                      | (s', Err _) => view s' votes
                      | (_, Panic) => False
                      end.

Class VoteStoreLaws {S} `{!VoteStore Auth S} (view : S → gmap Auth VoteEntry → Prop) : Prop := {
  update_law m auth v c h :
    implements view (update_upgrading_vote auth v c h) m (record_vote auth (mkVoteEntry v c h) m) tt;
  ayes_law m : implements view get_aye_votes m m (count_votes (is_vote Aye) m, total_votes m);
  nays_law m : implements view get_nay_votes m m (count_votes (is_vote Nay) m, total_votes m);
  abstained_law m :
    implements view get_abstained_votes m m (count_votes (is_vote Abstain) m, total_votes m);
  compliance_law m :
    implements view get_compliance_count m m (count_votes e_is_compliant m, total_votes m);
  rate_ayes_law m n r : approval_rate (E:=unit) (is_vote Aye) n m = Ok r →
    implements view (get_upgrading_approval_rate_ayes n) m m r;
  rate_compliance_law m n r : approval_rate (E:=unit) e_is_compliant n m = Ok r →
    implements view (get_upgrading_approval_rate_compliance n) m m r;
  remove_law m h : implements view (remove_upgrading_votes h) m (retain_from h m)
    (total_votes m - total_votes (retain_from h m)) }.

End votes.

(** ** VoteWatcher *)

Section watcher.
Context `{Countable Auth}.

Abbreviation Watcher := (gmap Auth VoteEntry).
Abbreviation VW A := (M Watcher ProviderError A).

Definition watcher_update_upgrading_vote (auth : Auth) (vote : Vote) (is_compliant : bool)
    (botanix_height : Z) : VW unit :=
  let! votes := get in
  match votes !! auth with
  | Some e =>
      if botanix_height <=? e_botanix_height e then ret tt
      else modify (insert auth (mkVoteEntry vote is_compliant botanix_height))
  | None => modify (insert auth (mkVoteEntry vote is_compliant botanix_height))
  end.

(** [votes.iter().filter(..).count()] with [votes.len()] *)
Definition watcher_count (f : VoteEntry → bool) : VW (Z * Z) :=
  let! votes := get in
  ret (Z.of_nat (length (List.filter f (map_to_list votes).*2)), Z.of_nat (size votes)).

Definition watcher_get_aye_votes : VW (Z * Z) := watcher_count (λ e, bool_decide (e_vote e = Aye)).
Definition watcher_get_nay_votes : VW (Z * Z) := watcher_count (λ e, bool_decide (e_vote e = Nay)).
Definition watcher_get_abstained_votes : VW (Z * Z) :=
  watcher_count (λ e, bool_decide (e_vote e = Abstain)).
Definition watcher_get_compliance_count : VW (Z * Z) := watcher_count e_is_compliant.

Definition watcher_get_upgrading_approval_rate_ayes (min_validator_count : Z) : VW (Z * Z) :=
  let! votes := get in
  let total := Z.max (Z.of_nat (size votes)) min_validator_count in
  let votes_received :=
    Z.of_nat (length (List.filter (λ e, bool_decide (e_vote e = Aye)) (map_to_list votes).*2)) in
  let! quorum := lift (div_ceil (votes_received * 100) total) in
  ret (quorum, total).

Definition watcher_get_upgrading_approval_rate_compliance (min_validator_count : Z) : VW (Z * Z) :=
  let! votes := get in
  let total := Z.max (Z.of_nat (size votes)) min_validator_count in
  let votes_received := Z.of_nat (length (List.filter e_is_compliant (map_to_list votes).*2)) in
  let! quorum := lift (div_ceil (votes_received * 100) total) in
  ret (quorum, total).

Definition watcher_remove_upgrading_votes (botanix_height : Z) : VW Z :=
  let! votes := get in
  let gross_total := Z.of_nat (size votes) in
  modify (filter (λ '(_, e), botanix_height ≤ e_botanix_height e)) ;!
  let! votes := get in
  ret (gross_total - Z.of_nat (size votes)).

#[export] Instance VoteWatcher : VoteStore Auth Watcher := {
  update_upgrading_vote := watcher_update_upgrading_vote;
  get_aye_votes := watcher_get_aye_votes;
  get_nay_votes := watcher_get_nay_votes;
  get_abstained_votes := watcher_get_abstained_votes;
  get_compliance_count := watcher_get_compliance_count;
  get_upgrading_approval_rate_ayes := watcher_get_upgrading_approval_rate_ayes;
  get_upgrading_approval_rate_compliance := watcher_get_upgrading_approval_rate_compliance;
  remove_upgrading_votes := watcher_remove_upgrading_votes }.

End watcher.

(** ** The manager *)

Definition MIN_QUORUM : Z := 67.
Definition MIN_VALIDATOR_COUNT : Z := 3.
Definition VOTE_RETENTION_PERIOD : Z := 518400.

Record NetworkUpgradePayload := mkPayload {
  p_version : RuntimeVersion;
  p_vote : Vote;
  p_is_compliant : bool }.

Record NetworkUpgrade := mkUpgrade {
  nu_version : RuntimeVersion;
  nu_quorum : Z;
  nu_min_validator_count : Z;
  nu_target_height : Z;
  nu_our_vote : Vote;
  nu_is_compliant : bool }.

Record ConditionList := mkConditions {
  comp_req : bool;
  aye_approval_req : bool;
  comp_approval_req : bool;
  block_height_req : bool }.

Definition all_passing (c : ConditionList) : bool :=
  comp_req c && aye_approval_req c && comp_approval_req c && block_height_req c.

Record Polling := mkPolling {
  ayes : Z; nays : Z; abstained : Z; compliant : Z; total : Z }.

Record OnPrepareProposalDecision := mkPrepare {
  pd_version : RuntimeVersion;
  pd_vote : option NetworkUpgradePayload;
  pd_conditions : option ConditionList }.

Inductive OnProcessProposalDecision :=
| Process (version : RuntimeVersion) (conditions : option ConditionList)
| RejectBlock (version : RuntimeVersion) (conditions : option ConditionList).

Inductive OnFinalizeBlockDecision :=
| Finalize (version : RuntimeVersion)
| RejectBlockDeadEnd (version : RuntimeVersion).

Record ActivationManager (S : Type) := mkManager {
  client : S;
  vote_retention_period : Z;
  active_version : RuntimeVersion;
  upgrade : option NetworkUpgrade }.
Arguments mkManager {S} client vote_retention_period active_version upgrade.
Arguments client {S} a.
Arguments vote_retention_period {S} a.
Arguments active_version {S} a.
Arguments upgrade {S} a.

Section manager.
Context {Auth S : Type} `{!VoteStore Auth S}.

Abbreviation AM A := (M (ActivationManager S) ProviderError A).

Definition set_client (c : S) (a : ActivationManager S) : ActivationManager S :=
  mkManager c (vote_retention_period a) (active_version a) (upgrade a).
Definition set_active_version (v : RuntimeVersion) (a : ActivationManager S) : ActivationManager S :=
  mkManager (client a) (vote_retention_period a) v (upgrade a).
Definition set_upgrade (u : option NetworkUpgrade) (a : ActivationManager S) : ActivationManager S :=
  mkManager (client a) (vote_retention_period a) (active_version a) u.

(** A call on the vote store. *)
Definition on_client {A} (m : M S ProviderError A) : AM A := zoom client set_client m.

(** [assert!] and [debug_assert!] *)
Definition assertM {T E} (b : bool) : M T E unit := if b then ret tt else panic.

(** [_validate_conditions] *)
Definition validate_conditions (u : NetworkUpgrade) (block_height : Z) : AM ConditionList :=
  let! '(aye_approval, total_votes) :=
    on_client (get_upgrading_approval_rate_ayes (nu_min_validator_count u)) in
  let! '(comp_approval, t2) :=
    on_client (get_upgrading_approval_rate_compliance (nu_min_validator_count u)) in
  assertM (total_votes =? t2) ;!
  assertM (nu_min_validator_count u <=? total_votes) ;!
  ret (mkConditions (nu_is_compliant u)
         (nu_quorum u <=? aye_approval) (nu_quorum u <=? comp_approval)
         (nu_target_height u <=? block_height)).

Definition on_prepare_proposal (block_height : Z) : AM OnPrepareProposalDecision :=
  let! s := get in
  match upgrade s with
  | Some u =>
      assertM (MIN_QUORUM <=? nu_quorum u) ;!
      let our_vote := Some (mkPayload (nu_version u) (nu_our_vote u) (nu_is_compliant u)) in
      let! c := validate_conditions u block_height in
      if all_passing c then ret (mkPrepare (nu_version u) our_vote (Some c))
      else ret (mkPrepare (active_version s) our_vote (Some c))
  | None => ret (mkPrepare (active_version s) None None)
  end.

Definition on_process_proposal (block_height : Z) (block_version : RuntimeVersion)
    : AM OnProcessProposalDecision :=
  let! s := get in
  let otherwise conditions :=
    if bool_decide (block_version = active_version s)
    then ret (Process (active_version s) conditions)
    else ret (RejectBlock block_version conditions) in
  match upgrade s with
  | Some u =>
      let! c := validate_conditions u block_height in
      if all_passing c && bool_decide (block_version = nu_version u)
      then ret (Process (nu_version u) (Some c))
      else otherwise (Some c)
  | None => otherwise None
  end.

(** The vote that counts for the tracked upgrade: none, or one for another
    version, is an abstention. *)
Definition effective_vote (u : NetworkUpgrade) (vote : option NetworkUpgradePayload)
    : NetworkUpgradePayload :=
  let abstained_vote := mkPayload (nu_version u) Abstain false in
  match vote with
  | Some v => if bool_decide (p_version v = nu_version u) then v else abstained_vote
  | None => abstained_vote
  end.

(** [_track_vote] *)
Definition track_vote (block_height : Z) (addr : Auth) (vote : option NetworkUpgradePayload)
    : AM unit :=
  let! s := get in
  match upgrade s with
  | None => ret tt
  | Some u =>
      let vote := effective_vote u vote in
      on_client (update_upgrading_vote addr (p_vote vote) (p_is_compliant vote) block_height) ;!
      let prune_below := saturating_sub block_height (vote_retention_period s) in
      on_client (remove_upgrading_votes (Auth:=Auth) prune_below) ;!
      ret tt
  end.

Definition on_finalize_block (block_version : RuntimeVersion) (block_height : Z)
    (proposer_address : Auth) (proposer_vote : option NetworkUpgradePayload)
    : AM OnFinalizeBlockDecision :=
  track_vote block_height proposer_address proposer_vote ;!
  let! s := get in
  if version_le block_version (active_version s) then ret (Finalize block_version) else
  match upgrade s with
  | Some u =>
      on_client (remove_upgrading_votes (Auth:=Auth) (Z.min u64_max (block_height + 1))) ;!
      if negb (bool_decide (block_version = nu_version u))
      then ret (RejectBlockDeadEnd block_version) else
      if negb (nu_is_compliant u)
      then modify (set_upgrade None) ;! ret (RejectBlockDeadEnd block_version) else
      modify (set_active_version (nu_version u)) ;!
      modify (set_upgrade None) ;!
      ret (Finalize (nu_version u))
  | None => ret (RejectBlockDeadEnd block_version)
  end.

Definition get_upgrade_polling : AM (option (RuntimeVersion * Polling)) :=
  let! s := get in
  match upgrade s with
  | None => ret None
  | Some u =>
      let! '(ayes, total) := on_client get_aye_votes in
      let! '(nays, t2) := on_client get_nay_votes in
      let! '(abstained, t3) := on_client get_abstained_votes in
      let! '(compliant, t4) := on_client get_compliance_count in
      assertM (total =? t2) ;!
      assertM (total =? t3) ;!
      assertM (total =? t4) ;!
      assertM (ayes + nays + abstained =? total) ;!
      ret (Some (nu_version u, mkPolling ayes nays abstained compliant total))
  end.

(** The check of [force_upgrade_checked] under the read lock, and its update
    under the write locks; other calls may run between the two. *)
Definition force_check (version : RuntimeVersion) (s : ActivationManager S) : bool :=
  match upgrade s with
  | None => false
  | Some u => bool_decide (nu_version u = version) && nu_is_compliant u
  end.

Definition force_commit (version : RuntimeVersion) (s : ActivationManager S) : ActivationManager S :=
  set_active_version version (set_upgrade None s).

Definition force_upgrade_checked (version : RuntimeVersion) : AM bool := λ s,
  if force_check version s then (force_commit version s, Ok true) else (s, Ok false).

(** ** The builder *)

Record ActivationManagerBuilder := mkBuilder {
  b_client : S;
  b_active_version : RuntimeVersion;
  b_vote_retention_period : Z;
  b_upgrade : option NetworkUpgrade }.

Definition builder_new (c : S) (v : RuntimeVersion) : ActivationManagerBuilder :=
  mkBuilder c v VOTE_RETENTION_PERIOD None.

Definition with_vote_retention_period (period : Z) (b : ActivationManagerBuilder)
    : ActivationManagerBuilder :=
  mkBuilder (b_client b) (b_active_version b) period (b_upgrade b).

(** [_finalize] *)
Definition builder_finalize (b : ActivationManagerBuilder) : ActivationManager S :=
  mkManager (b_client b) (b_vote_retention_period b) (b_active_version b) (b_upgrade b).

Definition with_upgrade (u : NetworkUpgrade) (b : ActivationManagerBuilder)
    : ActivationManagerBuilder :=
  mkBuilder (b_client b) (b_active_version b) (b_vote_retention_period b) (Some u).

Definition build_ignore_network_upgrade {E} (b : ActivationManagerBuilder)
    : outcome E (ActivationManager S) :=
  if bool_decide (b_upgrade b = None) then Ok (builder_finalize b) else Panic.

Definition build_signal_network_upgrade {E} (upgrade_version : RuntimeVersion) (our_vote : Vote)
    (b : ActivationManagerBuilder) : outcome E (ActivationManager S) :=
  if negb (version_lt (b_active_version b) upgrade_version) then Panic else
  Ok (builder_finalize (with_upgrade
    (mkUpgrade upgrade_version u64_max u64_max u64_max our_vote false) b)).

Definition build_COMPLIANT_network_upgrade {E} (upgrade_version : RuntimeVersion)
    (quorum min_validator_count target_height : Z) (our_vote : option Vote)
    (b : ActivationManagerBuilder) : outcome E (ActivationManager S) :=
  if negb (version_lt (b_active_version b) upgrade_version) then Panic else
  if negb (MIN_QUORUM <=? quorum) then Panic else
  if negb (MIN_VALIDATOR_COUNT <=? min_validator_count) then Panic else
  Ok (builder_finalize (with_upgrade
    (mkUpgrade upgrade_version quorum min_validator_count target_height
       (default Aye our_vote) true) b)).

End manager.

#[global] Instance NetworkUpgrade_eq_dec : EqDecision NetworkUpgrade.
Proof. solve_decision. Defined.

(** ** The history of transitions

    The table [RuntimeTransitions] is a map from block numbers; the highest
    key holds the latest version. *)

Definition LATEST_RUNTIME_KEY : Z := u64_max.

Definition insert_runtime_upgrade_version {E} (height : Z) (version : RuntimeVersion)
    : M (gmap Z RuntimeVersion) E bool :=
  let! t := get in
  let newer := match t !! LATEST_RUNTIME_KEY with
               | Some latest => negb (version_le version latest)
               | None => true
               end in
  if newer then
    modify (insert LATEST_RUNTIME_KEY version) ;!
    modify (insert height version) ;!
    ret true
  else ret false.

(** [walk(None)] visits the keys in order. *)
Definition get_runtime_versions {E} : M (gmap Z RuntimeVersion) E (list (Z * RuntimeVersion)) :=
  let! t := get in
  ret (List.filter (λ e, negb (e.1 =? LATEST_RUNTIME_KEY))
         (sort_by (λ a b, a.1 <=? b.1) (map_to_list t))).

Definition get_last_runtime_version {E} : M (gmap Z RuntimeVersion) E (option RuntimeVersion) :=
  gets (λ t, t !! LATEST_RUNTIME_KEY).

(** ** Versions are totally ordered, and survive storage *)

Lemma version_le_spec a b :
  version_le a b = true ↔ major a < major b ∨ major a = major b ∧ minor a ≤ minor b.
Proof.
  unfold version_le, version_cmp.
  destruct (Z.compare_spec (major a) (major b)), (Z.compare_spec (minor a) (minor b));
    split; intros; try done; lia.
Qed.

Lemma version_lt_spec a b :
  version_lt a b = true ↔ major a < major b ∨ major a = major b ∧ minor a < minor b.
Proof.
  unfold version_lt, version_cmp.
  destruct (Z.compare_spec (major a) (major b)), (Z.compare_spec (minor a) (minor b));
    split; intros; try done; lia.
Qed.

Lemma version_eq a b : major a = major b → minor a = minor b → a = b.
Proof. destruct a, b; simpl; congruence. Qed.

Lemma version_le_lt a b : version_le a b = negb (version_lt b a).
Proof. apply eq_true_iff_eq. rewrite negb_true_iff, <-not_true_iff_false, version_le_spec, version_lt_spec. lia. Qed.

#[global] Instance version_le_preorder : PreOrder (λ a b, version_le a b = true).
Proof.
  split; [intros a|intros a b c]; rewrite !version_le_spec; lia.
Qed.

Lemma version_lt_le a b : version_lt a b = true → version_le a b = true.
Proof. rewrite version_lt_spec, version_le_spec. lia. Qed.

Lemma version_lt_le_trans a b c :
  version_lt a b = true → version_le b c = true → version_lt a c = true.
Proof. rewrite !version_lt_spec, version_le_spec. lia. Qed.

Lemma decompress_compress {E} v : version_wf v → decompress (E:=E) (compress v) = Ok v.
Proof.
  intros [Hmaj Hmin]. unfold decompress, compress.
  rewrite length_app, !to_le_bytes_length. cbn [Nat.ltb Nat.leb Nat.add].
  rewrite take_app_length', drop_app_length' by (by rewrite to_le_bytes_length).
  rewrite take_ge by (by rewrite to_le_bytes_length).
  rewrite !from_to_le_bytes by (simpl; lia). by destruct v.
Qed.

(** ** Approval rates *)

(** More than [quorum - 1] per cent, which the rounded-up rate decides. *)
Definition supermajority (quorum k total : Z) : bool := (quorum - 1) * total <? k * 100.

Lemma div_ceil_le {E} q a b r :
  0 < b → div_ceil (E:=E) a b = Ok r → (q ≤ r ↔ (q - 1) * b < a).
Proof.
  intros Hb. unfold div_ceil. destruct (Z.eqb_spec b 0); [lia|]. intros [= <-].
  pose proof (Z.div_mod a b ltac:(lia)). pose proof (Z.mod_pos_bound a b Hb).
  destruct (Z.ltb_spec 0 (a mod b)); nia.
Qed.

Lemma div_ceil_total {E} a b : 0 < b → ∃ r, div_ceil (E:=E) a b = Ok r.
Proof. intros Hb. unfold div_ceil. destruct (Z.eqb_spec b 0); [lia|eauto]. Qed.

Section voting.
Context `{Countable Auth}.
Implicit Types m : gmap Auth VoteEntry.

Lemma filter_partition (l : list VoteEntry) :
  (length (List.filter (is_vote Aye) l) + length (List.filter (is_vote Nay) l) +
   length (List.filter (is_vote Abstain) l) = length l)%nat.
Proof.
  induction l as [|[v c h] l IH]; [done|]. unfold is_vote in *.
  destruct v; cbn [List.filter e_vote]; repeat case_bool_decide; simpl in *; try done; lia.
Qed.

Lemma counts_add_up m :
  count_votes (is_vote Aye) m + count_votes (is_vote Nay) m + count_votes (is_vote Abstain) m =
  total_votes m.
Proof.
  unfold count_votes, total_votes. pose proof (filter_partition (map_to_list m).*2) as Hp.
  rewrite length_fmap, length_map_to_list in Hp. lia.
Qed.

(** The denominator of a rate. *)
Definition electorate (u : NetworkUpgrade) m : Z := Z.max (total_votes m) (nu_min_validator_count u).

(** The conditions that a manager computes from the votes. *)
Definition conditions_of (u : NetworkUpgrade) (h : Z) m : ConditionList :=
  mkConditions (nu_is_compliant u)
    (supermajority (nu_quorum u) (count_votes (is_vote Aye) m) (electorate u m))
    (supermajority (nu_quorum u) (count_votes e_is_compliant m) (electorate u m))
    (nu_target_height u <=? h).

(** The upgrade may be proposed and accepted at height [h]. *)
Definition activates (u : NetworkUpgrade) (h : Z) m : Prop :=
  nu_is_compliant u = true ∧
  (nu_quorum u - 1) * electorate u m < count_votes (is_vote Aye) m * 100 ∧
  (nu_quorum u - 1) * electorate u m < count_votes e_is_compliant m * 100 ∧
  nu_target_height u ≤ h.

Lemma all_passing_activates u h m : all_passing (conditions_of u h m) = true ↔ activates u h m.
Proof.
  unfold all_passing, conditions_of, activates, supermajority. simpl.
  rewrite !andb_true_iff, !Z.ltb_lt, Z.leb_le. tauto.
Qed.

Lemma approval_rate_spec f n m :
  0 < n → ∃ r, approval_rate (E:=unit) f n m = Ok (r, Z.max (total_votes m) n) ∧
    ∀ q, (q <=? r) = supermajority q (count_votes f m) (Z.max (total_votes m) n).
Proof.
  intros Hn. unfold approval_rate, rate.
  destruct (div_ceil_total (E:=unit) (count_votes f m * 100) (Z.max (total_votes m) n)) as [r Hr]; [lia|].
  rewrite Hr. exists r. split; [done|]. intros q. apply eq_true_iff_eq. unfold supermajority.
  rewrite Z.leb_le, Z.ltb_lt. eapply div_ceil_le; [|exact Hr]. lia.
Qed.

End voting.

(** ** VoteWatcher keeps the promises of the interface *)

Section watcher_laws.
Context `{Countable Auth}.

#[export] Instance VoteWatcher_laws :
  VoteStoreLaws (S:=gmap Auth VoteEntry) (λ s m, s = m).
Proof.
  split; intros; intros s ->; simpl.
  - unfold watcher_update_upgrading_vote, record_vote, bindM, get, modify, ret. simpl.
    destruct (m !! auth); [|done]. by destruct (h <=? _).
  - done.
  - done.
  - done.
  - done.
  - unfold approval_rate, rate, count_votes, total_votes, is_vote in *.
    unfold watcher_get_upgrading_approval_rate_ayes, bindM, get, lift, ret.
    ores H0. unfold div_ceil in *. destruct (_ =? 0); [done|]. by simplify_eq.
  - unfold approval_rate, rate, count_votes, total_votes in *.
    unfold watcher_get_upgrading_approval_rate_compliance, bindM, get, lift, ret.
    ores H0. unfold div_ceil in *. destruct (_ =? 0); [done|]. by simplify_eq.
  - done.
Qed.

End watcher_laws.

(** ** What the manager's calls do

    [frame] is what a vote store cannot touch; [runs call s m m' P]: on the
    votes [m] the call either fails and keeps the frame, or it succeeds with
    the votes [m'], the same frame and a result that satisfies [P].  It never
    panics. *)

Section calls.
Context `{Countable Auth} {S : Type} `{!VoteStore Auth S}.
Context (view : S → gmap Auth VoteEntry → Prop) `{!VoteStoreLaws view}.
Implicit Types (s : ActivationManager S) (m : gmap Auth VoteEntry).

Definition frame (s : ActivationManager S) : Z * RuntimeVersion * option NetworkUpgrade :=
  (vote_retention_period s, active_version s, upgrade s).

Definition runs {A} (call : M (ActivationManager S) ProviderError A) s m m' (P : A → Prop) : Prop :=
  match call s with
  | (s', Ok a) => view (client s') m' ∧ frame s' = frame s ∧ P a
  | (s', Err _) => frame s' = frame s
  | (_, Panic) => False
  end.

Lemma runs_client {A} (call : M S ProviderError A) s m m' a :
  implements view call m m' a → view (client s) m → runs (on_client call) s m m' (λ x, x = a).
Proof.
  intros Hc Hv. specialize (Hc (client s) Hv). unfold runs, on_client, zoom.
  destruct (call (client s)) as [c [x|e|]]; naive_solver.
Qed.

Lemma runs_bind {A B} (call : M (ActivationManager S) ProviderError A)
    (k : A → M (ActivationManager S) ProviderError B) s m m1 m' P Q :
  runs call s m m1 P →
  (∀ s1 a, view (client s1) m1 → frame s1 = frame s → P a → runs (k a) s1 m1 m' Q) →
  runs (bindM call k) s m m' Q.
Proof.
  unfold runs, bindM. intros Hc Hk. destruct (call s) as [s1 [a|e|]]; [|done..].
  destruct Hc as (Hv & Hf & Ha). specialize (Hk s1 a Hv Hf Ha). rewrite <-Hf. exact Hk.
Qed.

Lemma runs_ret {A} (a : A) s m (P : A → Prop) : view (client s) m → P a → runs (ret a) s m m P.
Proof. done. Qed.

Lemma runs_assert (b : bool) s m (P : unit → Prop) :
  b = true → view (client s) m → P tt → runs (assertM b) s m m P.
Proof. by intros -> ??. Qed.

Lemma runs_weaken {A} (call : M (ActivationManager S) ProviderError A) s m m' (P Q : A → Prop) :
  runs call s m m' P → (∀ a, P a → Q a) → runs call s m m' Q.
Proof.
  unfold runs. destruct (call s) as [s' [a|e|]]; [|done..]. intros (? & ? & ?) HPQ. auto.
Qed.

Lemma validate_conditions_runs u h s m :
  0 < nu_min_validator_count u → view (client s) m →
  runs (validate_conditions u h) s m m (λ c, c = conditions_of u h m).
Proof.
  intros Hn Hv. unfold validate_conditions.
  destruct (approval_rate_spec (is_vote Aye) (nu_min_validator_count u) m Hn) as (ra & Hra & Ha).
  destruct (approval_rate_spec e_is_compliant (nu_min_validator_count u) m Hn) as (rc & Hrc & Hc).
  eapply runs_bind; [apply runs_client; [by apply rate_ayes_law|done]|].
  intros s1 ? Hv1 _ ->. eapply runs_bind; [apply runs_client; [by apply rate_compliance_law|done]|].
  intros s2 ? Hv2 _ ->.
  eapply runs_bind; [by apply (runs_assert _ _ _ (λ _, True)); [apply Z.eqb_refl|..]|].
  intros s3 [] Hv3 _ _.
  eapply runs_bind; [apply (runs_assert _ _ _ (λ _, True)); [apply Z.leb_le; lia|done..]|].
  intros s4 [] Hv4 _ _. apply runs_ret; [done|]. unfold conditions_of, electorate.
  by rewrite Ha, Hc.
Qed.

(** A manager as the builder makes it. *)
Definition manager_wf (s : ActivationManager S) : Prop :=
  ∀ u, upgrade s = Some u →
    version_lt (active_version s) (nu_version u) = true ∧
    MIN_QUORUM ≤ nu_quorum u ∧ MIN_VALIDATOR_COUNT ≤ nu_min_validator_count u.

Lemma frame_eq s s' : frame s' = frame s →
  vote_retention_period s' = vote_retention_period s ∧ active_version s' = active_version s ∧
  upgrade s' = upgrade s.
Proof. by intros [= -> -> ->]. Qed.

Lemma runs_get {A} (k : ActivationManager S → M (ActivationManager S) ProviderError A) s m m' P :
  runs (k s) s m m' P → runs (bindM get k) s m m' P.
Proof. done. Qed.

(** The judgement on a proposal with version [v] at height [h]. *)
Definition judged s m (h : Z) (v : RuntimeVersion) (d : OnProcessProposalDecision) : Prop :=
  ((∃ c, d = Process v c) ∧
     (v = active_version s ∨ ∃ u, upgrade s = Some u ∧ v = nu_version u ∧ activates u h m)) ∨
  ((∃ c, d = RejectBlock v c) ∧
     v ≠ active_version s ∧ ∀ u, upgrade s = Some u → v = nu_version u → ¬ activates u h m).

Lemma on_process_proposal_runs s m h v :
  manager_wf s → view (client s) m →
  runs (on_process_proposal h v) s m m (judged s m h v).
Proof.
  intros Hwf Hv. unfold on_process_proposal. apply runs_get.
  assert (∀ c s0, view (client s0) m →
    (∀ u, upgrade s = Some u → v = nu_version u → ¬ activates u h m) →
    runs (if bool_decide (v = active_version s) then ret (Process (active_version s) c)
          else ret (RejectBlock v c)) s0 m m (judged s m h v)) as Helse.
  { intros c s0 Hv0 Hno. unfold judged. case_bool_decide; apply runs_ret; naive_solver. }
  destruct (upgrade s) as [u|] eqn:Eu; [|by apply (Helse None s)].
  destruct (Hwf u Eu) as (_ & _ & Hn). unfold MIN_VALIDATOR_COUNT in Hn.
  eapply runs_bind; [apply validate_conditions_runs; [lia|done]|].
  intros s1 c Hv1 _ ->. destruct (all_passing (conditions_of u h m)) eqn:Eall; cbn [andb].
  - apply all_passing_activates in Eall. destruct (bool_decide_reflect (v = nu_version u)) as [Ev|Ev].
    + apply runs_ret; [done|]. left. rewrite Ev. split; [by eexists|]. right. by exists u.
    + apply Helse; [done|]. by intros u' [= <-].
  - apply Helse; [done|]. intros u' [= <-] _ Ha%all_passing_activates. congruence.
Qed.

(** A proposal with version [v] is accepted exactly when [v] is the
    active version or it is the tracked upgrade and the upgrade activates at
    this height: the node is compliant, the target height is reached, and both
    the ayes and the compliant validators exceed the quorum less one per cent
    of the electorate; otherwise it is rejected.  Judging a proposal changes
    neither the votes nor the manager and never panics, and a failing vote
    store is the only source of errors. *)
Theorem on_process_proposal_spec s m h v :
  manager_wf s → view (client s) m →
  match on_process_proposal h v s with
  | (s', Ok d) => view (client s') m ∧ frame s' = frame s ∧ judged s m h v d
  | (s', Err _) => frame s' = frame s
  | (_, Panic) => False
  end.
Proof. exact (on_process_proposal_runs s m h v). Qed.

(** The version a manager proposes at height [h]. *)
Definition proposed s m (h : Z) (v : RuntimeVersion) : Prop :=
  (v = active_version s ∧ ∀ u, upgrade s = Some u → ¬ activates u h m) ∨
  (∃ u, upgrade s = Some u ∧ v = nu_version u ∧ activates u h m).

Lemma on_prepare_proposal_runs s m h :
  manager_wf s → view (client s) m →
  runs (on_prepare_proposal h) s m m (λ d, proposed s m h (pd_version d)).
Proof.
  intros Hwf Hv. unfold on_prepare_proposal, proposed. apply runs_get.
  destruct (upgrade s) as [u|] eqn:Eu; [|apply runs_ret; [done|]; left; by split].
  destruct (Hwf u Eu) as (_ & Hq & Hn). unfold MIN_VALIDATOR_COUNT in Hn.
  eapply runs_bind; [by apply (runs_assert _ _ _ (λ _, True)); [apply Z.leb_le|..]|].
  intros s1 [] Hv1 _ _.
  eapply runs_bind; [apply validate_conditions_runs; [lia|done]|].
  intros s2 c Hv2 _ ->. destruct (all_passing (conditions_of u h m)) eqn:Eall; apply runs_ret; try done.
  - right. exists u. split_and!; [done..|]. by apply all_passing_activates.
  - left. split; [done|]. intros u' [= <-] Ha%all_passing_activates. congruence.
Qed.

(** The statistics of an upgrade: every validator that voted is counted
    once, as an aye, a nay or an abstention, and the debug assertions of
    [get_upgrade_polling] never fail. *)
Theorem upgrade_polling_adds_up s m :
  view (client s) m →
  match get_upgrade_polling s with
  | (s', Ok None) => upgrade s = None ∧ s' = s
  | (s', Ok (Some (v, p))) => frame s' = frame s ∧ view (client s') m ∧
      (∃ u, upgrade s = Some u ∧ v = nu_version u) ∧
      total p = total_votes m ∧ ayes p + nays p + abstained p = total p ∧
      ayes p = count_votes (is_vote Aye) m ∧ compliant p = count_votes e_is_compliant m
  | (s', Err _) => frame s' = frame s
  | (_, Panic) => False
  end.
Proof.
  intros Hv. destruct (upgrade s) as [u|] eqn:Eu;
    [|unfold get_upgrade_polling, bindM, get; by rewrite Eu].
  assert (runs get_upgrade_polling s m m (λ r, r = Some (nu_version u,
    mkPolling (count_votes (is_vote Aye) m) (count_votes (is_vote Nay) m)
      (count_votes (is_vote Abstain) m) (count_votes e_is_compliant m) (total_votes m)))) as Hr.
  { unfold get_upgrade_polling. apply runs_get. rewrite Eu.
    eapply runs_bind; [apply runs_client; [apply ayes_law|done]|]. intros s1 ? Hv1 _ ->.
    eapply runs_bind; [apply runs_client; [apply nays_law|done]|]. intros s2 ? Hv2 _ ->.
    eapply runs_bind; [apply runs_client; [apply abstained_law|done]|]. intros s3 ? Hv3 _ ->.
    eapply runs_bind; [apply runs_client; [apply compliance_law|done]|]. intros s4 ? Hv4 _ ->.
    rewrite Z.eqb_refl, counts_add_up, Z.eqb_refl. by apply runs_ret. }
  unfold runs in Hr. destruct (get_upgrade_polling s) as [s' [r|e|]]; [|done..].
  destruct Hr as (Hv' & Hf & ->). simpl. split_and!; [done|done|by exists u|done|apply counts_add_up|done|done].
Qed.

(** The votes after a ballot at height [h] has been tracked. *)
Definition tracked s (h : Z) (a : Auth) (v : option NetworkUpgradePayload) m : gmap Auth VoteEntry :=
  match upgrade s with
  | Some u => retain_from (saturating_sub h (vote_retention_period s))
      (record_vote a (mkVoteEntry (p_vote (effective_vote u v)) (p_is_compliant (effective_vote u v)) h) m)
  | None => m
  end.

Lemma track_vote_runs s m h a v :
  view (client s) m → runs (track_vote h a v) s m (tracked s h a v m) (λ _, True).
Proof.
  intros Hv. unfold track_vote, tracked. apply runs_get.
  destruct (upgrade s) as [u|] eqn:Eu; [|by apply runs_ret].
  eapply runs_bind; [apply runs_client; [apply update_law|done]|]. intros s1 ? Hv1 Hf _.
  eapply runs_bind; [apply runs_client; [apply remove_law|done]|]. intros s2 ? Hv2 _ _.
  by apply runs_ret.
Qed.

(** What finalizing a block with version [v] leaves behind: the decision, the
    active version and the tracked upgrade. *)
Definition finalized s (v : RuntimeVersion) (d : OnFinalizeBlockDecision) s' : Prop :=
  if version_le v (active_version s) then d = Finalize v ∧ frame s' = frame s else
  match upgrade s with
  | Some u =>
      if bool_decide (v = nu_version u) then
        if nu_is_compliant u
        then d = Finalize v ∧ frame s' = (vote_retention_period s, v, None)
        else d = RejectBlockDeadEnd v ∧ frame s' = (vote_retention_period s, active_version s, None)
      else d = RejectBlockDeadEnd v ∧ frame s' = frame s
  | None => d = RejectBlockDeadEnd v ∧ frame s' = frame s
  end.

(** The votes that finalizing a block leaves. *)
Definition votes_after s (v : RuntimeVersion) (h : Z) (a : Auth) (p : option NetworkUpgradePayload) m
    : gmap Auth VoteEntry :=
  if version_le v (active_version s) || bool_decide (upgrade s = None) then tracked s h a p m
  else retain_from (Z.min u64_max (h + 1)) (tracked s h a p m).

(** Finalizing a block tracks the proposer's ballot and prunes the votes
    older than the retention period.  A block of the active version or of an
    older one is finalized.  A newer version is finalized exactly when it is
    the tracked upgrade of a compliant node, which becomes the active version
    while the upgrade is forgotten; any other newer version is a dead end,
    which a node that refuses the upgrade also forgets.  When a newer version
    arrives while an upgrade is tracked every vote up to this height is
    dropped.  Neither the quorum nor the target height is consulted, nothing
    panics, and a failing vote store changes neither the active version nor
    the upgrade. *)
Theorem on_finalize_block_spec s m v h a p :
  view (client s) m →
  match on_finalize_block v h a p s with
  | (s', Ok d) => finalized s v d s' ∧ view (client s') (votes_after s v h a p m)
  | (s', Err _) => frame s' = frame s
  | (_, Panic) => False
  end.
Proof.
  intros Hv. unfold on_finalize_block, bindM at 1, votes_after, finalized.
  pose proof (track_vote_runs s m h a p Hv) as Ht. unfold runs in Ht.
  destruct (track_vote h a p s) as [s1 [[]|e|]]; [|done..]. destruct Ht as (Hv1 & Hf & _).
  destruct (frame_eq _ _ Hf) as (Hp & Ha & Hu). unfold bindM at 1, get. rewrite Ha, Hu.
  destruct (version_le v (active_version s)); [done|]. cbn [orb].
  destruct (upgrade s) as [u|] eqn:Eu; [|by rewrite bool_decide_true].
  rewrite (bool_decide_false (Some u = None)) by done.
  pose proof (runs_client _ _ _ _ _ (remove_law (tracked s h a p m) (Z.min u64_max (h + 1))) Hv1) as Hr.
  unfold runs in Hr. unfold bindM at 1. destruct (on_client _ s1) as [s2 [n|e|]]; [|congruence|done].
  destruct Hr as (Hv2 & Hf2 & _). destruct (frame_eq _ _ Hf2) as (Hp2 & Ha2 & Hu2).
  destruct (bool_decide_reflect (v = nu_version u)) as [->|]; [|split; [|done]; split; congruence].
  cbn [negb]. destruct (nu_is_compliant u); unfold bindM, modify, ret; simpl; unfold frame; simpl;
    split_and!; try done; congruence.
Qed.

(** *** A history of finalized blocks *)

Record FinalizedBlock := mkFinalizedBlock {
  fb_version : RuntimeVersion;
  fb_height : Z;
  fb_proposer : Auth;
  fb_vote : option NetworkUpgradePayload }.

Definition finalize_blocks (blocks : list FinalizedBlock) : M (ActivationManager S) ProviderError unit :=
  forM blocks (λ b,
    on_finalize_block (fb_version b) (fb_height b) (fb_proposer b) (fb_vote b) ;! ret tt).

(** The ballot that a block casts on the upgrade [u]. *)
Definition ballot (u : NetworkUpgrade) (b : FinalizedBlock) : VoteEntry :=
  mkVoteEntry (p_vote (effective_vote u (fb_vote b))) (p_is_compliant (effective_vote u (fb_vote b)))
    (fb_height b).

(** The last ballot of a validator. *)
Definition last_ballot (u : NetworkUpgrade) (blocks : list FinalizedBlock) (a : Auth)
    : option VoteEntry :=
  foldl (λ r b, if bool_decide (fb_proposer b = a) then Some (ballot u b) else r) None blocks.

Definition last_height (blocks : list FinalizedBlock) : Z := default 0 (fb_height <$> last blocks).

Definition cast_ballot (u : NetworkUpgrade) (period : Z) m (b : FinalizedBlock) : gmap Auth VoteEntry :=
  retain_from (saturating_sub (fb_height b) period) (record_vote (fb_proposer b) (ballot u b) m).

Lemma tracked_cast_ballot s u b m :
  upgrade s = Some u →
  tracked s (fb_height b) (fb_proposer b) (fb_vote b) m = cast_ballot u (vote_retention_period s) m b.
Proof. intros Eu. unfold tracked. by rewrite Eu. Qed.

Lemma finalize_blocks_runs u blocks s m :
  upgrade s = Some u → view (client s) m →
  Forall (λ b, version_le (fb_version b) (active_version s) = true) blocks →
  runs (finalize_blocks blocks) s m (foldl (cast_ballot u (vote_retention_period s)) m blocks) (λ _, True).
Proof.
  intros Eu Hv Hb. revert s m Eu Hv Hb. induction blocks as [|b blocks IH]; intros s m Eu Hv Hb;
    [by apply runs_ret|].
  apply Forall_cons in Hb as [Hb Hbs]. cbn [finalize_blocks forM foldl].
  eapply (runs_bind _ _ _ _ (cast_ballot u (vote_retention_period s) m b) _ (λ _, True)).
  - rewrite <-(tracked_cast_ballot s u b m Eu).
    eapply (runs_bind _ _ _ _ (tracked s (fb_height b) (fb_proposer b) (fb_vote b) m) _ (λ _, True));
      [|intros; by apply runs_ret].
    eapply runs_bind; [by apply track_vote_runs|]. intros s1 _ Hv1 Hf _. apply runs_get.
    destruct (frame_eq _ _ Hf) as (_ & -> & _). rewrite Hb. by apply runs_ret.
  - intros s1 _ Hv1 Hf _. destruct (frame_eq _ _ Hf) as (Hp & Ha & Hu). rewrite <-Hp in Hv1 |- *.
    apply IH; [congruence|done|by rewrite Ha].
Qed.

Lemma last_ballot_snoc u blocks b a :
  last_ballot u (blocks ++ [b]) a =
  if bool_decide (fb_proposer b = a) then Some (ballot u b) else last_ballot u blocks a.
Proof. unfold last_ballot. by rewrite foldl_app. Qed.

Lemma last_ballot_in u blocks a e :
  last_ballot u blocks a = Some e → ∃ b, b ∈ blocks ∧ e_botanix_height e = fb_height b.
Proof.
  induction blocks as [|b blocks IH] using rev_ind; [done|]. rewrite last_ballot_snoc.
  setoid_rewrite elem_of_app. case_bool_decide; [intros [= <-]; exists b; set_solver|].
  intros (b' & ? & ?)%IH. exists b'. auto.
Qed.

Lemma lookup_retain_from h m a :
  retain_from h m !! a = (m !! a) ≫= λ e, if bool_decide (h ≤ e_botanix_height e) then Some e else None.
Proof.
  unfold retain_from. rewrite map_lookup_filter. destruct (m !! a) as [e|]; [|done]. simpl.
  by case_bool_decide; case_guard.
Qed.

Lemma lookup_record_vote a e m a' :
  (∀ old, m !! a = Some old → e_botanix_height old < e_botanix_height e) →
  record_vote a e m !! a' = if bool_decide (a = a') then Some e else m !! a'.
Proof.
  intros Hold. unfold record_vote.
  replace (match m !! a with Some old => if e_botanix_height e <=? e_botanix_height old then m
           else <[a := e]> m | None => <[a := e]> m end) with (<[a := e]> m).
  - case_bool_decide; [subst; by rewrite lookup_insert_eq|by rewrite lookup_insert_ne].
  - destruct (m !! a) as [old|] eqn:Eo; [|done]. specialize (Hold old eq_refl).
    destruct (Z.leb_spec (e_botanix_height e) (e_botanix_height old)); [lia|done].
Qed.

(** The ballots that are still counted. *)
Definition counted (prune_below : Z) (r : option VoteEntry) : option VoteEntry :=
  r ≫= λ e, if bool_decide (prune_below ≤ e_botanix_height e) then Some e else None.

Lemma cast_all_lookup u period blocks a :
  0 ≤ period → StronglySorted (λ b b', fb_height b < fb_height b') blocks →
  foldl (cast_ballot u period) ∅ blocks !! a =
  counted (saturating_sub (last_height blocks) period) (last_ballot u blocks a).
Proof.
  intros Hp. revert a. induction blocks as [|b blocks IH] using rev_ind; intros a Hs;
    [simpl; by rewrite lookup_empty|].
  apply StronglySorted_app in Hs as (Hlt & Hs & _).
  assert (∀ b', b' ∈ blocks → fb_height b' < fb_height b) as Hlt'.
  { intros b' Hb'. apply Hlt; set_solver. }
  assert (last_height blocks ≤ fb_height b ∨ blocks = []) as Hmono.
  { unfold last_height. destruct (last blocks) as [b'|] eqn:El; simpl.
    - left. apply last_Some_elem_of, Hlt' in El. lia.
    - right. by apply last_None. }
  rewrite foldl_app, last_ballot_snoc. cbn [foldl]. unfold cast_ballot at 1, last_height.
  rewrite last_snoc. simpl. rewrite lookup_retain_from, lookup_record_vote.
  2: { intros old. rewrite IH by done. unfold counted.
       destruct (last_ballot u blocks _) as [e|] eqn:Ee; [|done]. simpl. case_bool_decide; [|done].
       intros [= <-]. apply last_ballot_in in Ee as (b' & Hb' & ->). by apply Hlt'. }
  case_bool_decide; [done|]. rewrite IH by done. unfold counted.
  destruct (last_ballot u blocks a) as [e|] eqn:Ee; [|done]. simpl.
  destruct Hmono as [Hmono| ->]; [|done].
  unfold saturating_sub. repeat (case_bool_decide; simpl); try done; lia.
Qed.

(** The votes that count for an upgrade are the last ballots within the
    retention period: starting from an empty store, after finalizing blocks of
    ascending heights whose versions are no newer than the active one, every
    validator has the ballot of the last block it proposed, unless that block
    is more than the retention period below the last height. *)
Theorem votes_are_last_ballots u blocks s :
  upgrade s = Some u → view (client s) ∅ → 0 ≤ vote_retention_period s →
  Forall (λ b, version_le (fb_version b) (active_version s) = true) blocks →
  StronglySorted (λ b b', fb_height b < fb_height b') blocks →
  match finalize_blocks blocks s with
  | (s', Ok _) => frame s' = frame s ∧ ∃ m, view (client s') m ∧ ∀ a,
      m !! a = counted (saturating_sub (last_height blocks) (vote_retention_period s))
                 (last_ballot u blocks a)
  | (s', Err _) => frame s' = frame s
  | (_, Panic) => False
  end.
Proof.
  intros Eu Hv Hp Hb Hs. pose proof (finalize_blocks_runs u blocks s ∅ Eu Hv Hb) as Hr. unfold runs in Hr.
  destruct (finalize_blocks blocks s) as [s' [[]|e|]]; [|done..]. destruct Hr as (Hv' & Hf & _).
  split; [done|]. eexists. split; [exact Hv'|]. intros a. by apply cast_all_lookup.
Qed.

End calls.

(** ** Agreement

    Two nodes that track the same upgrade on the same terms; their own votes
    may differ. *)

Definition same_terms (a b : NetworkUpgrade) : Prop :=
  nu_version a = nu_version b ∧ nu_quorum a = nu_quorum b ∧
  nu_min_validator_count a = nu_min_validator_count b ∧
  nu_target_height a = nu_target_height b ∧ nu_is_compliant a = nu_is_compliant b.

Lemma same_terms_activates `{Countable Auth} a b h (m : gmap Auth VoteEntry) :
  same_terms a b → activates a h m ↔ activates b h m.
Proof. intros (_ & Hq & Hn & Ht & Hc). unfold activates, electorate. by rewrite Hq, Hn, Ht, Hc. Qed.

(** Honest nodes agree: what a node proposes is accepted by every node
    with the same active version, the same tracked upgrade on the same terms
    and the same votes, whatever vote stores the two run on, unless a store
    fails. *)
Theorem proposals_are_accepted `{Countable Auth} {SA SB}
    `{!VoteStore Auth SA, !VoteStore Auth SB}
    (viewA : SA → gmap Auth VoteEntry → Prop) (viewB : SB → gmap Auth VoteEntry → Prop)
    `{!VoteStoreLaws viewA, !VoteStoreLaws viewB} sA sB sA' m h d :
  manager_wf sA → manager_wf sB → viewA (client sA) m → viewB (client sB) m →
  active_version sA = active_version sB → option_Forall2 same_terms (upgrade sA) (upgrade sB) →
  on_prepare_proposal h sA = (sA', Ok d) →
  match on_process_proposal h (pd_version d) sB with
  | (_, Ok d') => ∃ c, d' = Process (pd_version d) c
  | (_, Err _) => True
  | (_, Panic) => False
  end.
Proof.
  intros HwA HwB HvA HvB Hact Hup Hprep.
  pose proof (on_prepare_proposal_runs viewA sA m h HwA HvA) as HA. unfold runs in HA.
  rewrite Hprep in HA. destruct HA as (_ & _ & HA).
  pose proof (on_process_proposal_runs viewB sB m h (pd_version d) HwB HvB) as HB. unfold runs in HB.
  destruct (on_process_proposal h (pd_version d) sB) as [s' [d'|e|]]; [|done..].
  destruct HB as (_ & _ & [[Hc _]|(_ & Hne & Hno)]); [done|]. exfalso.
  destruct HA as [[Hv _]|(u & Hu & Hv & Ha)]; [congruence|].
  rewrite Hu in Hup. inversion Hup as [? u' Ht Hu1 Hu2|]; subst.
  apply (Hno u'); [done| |by apply (same_terms_activates u)]. rewrite Hv. apply Ht.
Qed.

(** ** The in-memory store never fails *)

Section errless.

Definition errless {S E A} (m : M S E A) : Prop := ∀ s e, (m s).2 ≠ Err e.

Lemma errless_ret {S E A} (a : A) : errless (ret (S:=S) (E:=E) a).
Proof. by intros s e. Qed.

Lemma errless_panic {S E A} : errless (panic (S:=S) (E:=E) (A:=A)).
Proof. by intros s e. Qed.

Lemma errless_modify {S E} (f : S → S) : errless (modify (E:=E) f).
Proof. by intros s e. Qed.

Lemma errless_bind {S E A B} (m : M S E A) (k : A → M S E B) : errless m → (∀ a, errless (k a)) → errless (bindM m k).
Proof.
  intros Hm Hk s e. unfold bindM. specialize (Hm s). destruct (m s) as [s1 [a|e1|]]; cbn in *; [apply Hk| |done].
  intros [= ->]. by apply (Hm e).
Qed.

Lemma errless_get {S E A} (k : S → M S E A) : (∀ s, errless (k s)) → errless (bindM get k).
Proof. intros Hk s. apply Hk. Qed.

Lemma errless_zoom {S T E A} (proj : S → T) upd (m : M T E A) : errless m → errless (zoom proj upd m).
Proof. intros Hm s e. unfold zoom. specialize (Hm (proj s) e). by destruct (m (proj s)). Qed.

Lemma errless_div_ceil {S} a b : errless (lift (S:=S) (div_ceil (E:=ProviderError) a b)).
Proof. intros s e. unfold lift, div_ceil. cbn. by destruct (_ =? 0). Qed.

Hint Resolve errless_ret errless_panic errless_modify errless_bind errless_get errless_zoom errless_div_ceil : errless.
Hint Extern 1 (∀ _, errless _) => intros ? : errless.
Hint Extern 2 (errless (match ?x with _ => _ end)) => destruct x : errless.

Context `{Countable Auth}.

Lemma watcher_errless :
  (∀ a v c h, errless (watcher_update_upgrading_vote (Auth:=Auth) a v c h)) ∧
  (∀ f, errless (watcher_count (Auth:=Auth) f)) ∧
  (∀ n, errless (watcher_get_upgrading_approval_rate_ayes (Auth:=Auth) n)) ∧
  (∀ n, errless (watcher_get_upgrading_approval_rate_compliance (Auth:=Auth) n)) ∧
  (∀ h, errless (watcher_remove_upgrading_votes (Auth:=Auth) h)).
Proof.
  unfold watcher_update_upgrading_vote, watcher_count, watcher_get_upgrading_approval_rate_ayes,
    watcher_get_upgrading_approval_rate_compliance, watcher_remove_upgrading_votes.
  split_and!; eauto 10 with errless.
Qed.

Lemma validate_conditions_errless u h : errless (validate_conditions (Auth:=Auth) (S:=gmap Auth VoteEntry) u h).
Proof.
  destruct watcher_errless as (_ & _ & Ha & Hc & _). unfold validate_conditions, on_client, assertM.
  apply errless_bind; [apply errless_zoom, Ha|]. intros [r t]. apply errless_bind; [apply errless_zoom, Hc|].
  intros [r2 t2]. eauto 10 with errless.
Qed.

Lemma on_prepare_proposal_errless h : errless (on_prepare_proposal (Auth:=Auth) (S:=gmap Auth VoteEntry) h).
Proof.
  unfold on_prepare_proposal, assertM. apply errless_get. intros s. destruct (upgrade s) as [u|]; [|auto with errless].
  pose proof (validate_conditions_errless u h). eauto 10 with errless.
Qed.

Lemma on_process_proposal_errless h v : errless (on_process_proposal (Auth:=Auth) (S:=gmap Auth VoteEntry) h v).
Proof.
  unfold on_process_proposal. apply errless_get. intros s. destruct (upgrade s) as [u|]; [|auto with errless].
  pose proof (validate_conditions_errless u h). eauto 10 with errless.
Qed.

Lemma on_finalize_block_errless v h a p :
  errless (on_finalize_block (Auth:=Auth) (S:=gmap Auth VoteEntry) v h a p).
Proof.
  destruct watcher_errless as (Hu & _ & _ & _ & Hr). unfold on_finalize_block, track_vote, on_client.
  apply errless_bind.
  { apply errless_get. intros s. destruct (upgrade s) as [u|]; [|auto with errless].
    apply errless_bind; [apply errless_zoom, Hu|]. intros _. apply errless_bind; [apply errless_zoom, Hr|].
    auto with errless. }
  intros _. apply errless_get. intros s. destruct (version_le v _); [auto with errless|].
  destruct (upgrade s) as [u|]; [|auto with errless].
  apply errless_bind; [apply errless_zoom, Hr|]. intros _. eauto 10 with errless.
Qed.

Lemma get_upgrade_polling_errless : errless (get_upgrade_polling (Auth:=Auth) (S:=gmap Auth VoteEntry)).
Proof.
  destruct watcher_errless as (_ & Hc & _). unfold get_upgrade_polling, on_client, assertM. apply errless_get.
  intros s. destruct (upgrade s) as [u|]; [|auto with errless].
  do 4 (apply errless_bind; [apply errless_zoom, Hc|]; intros [? ?]). eauto 10 with errless.
Qed.

End errless.

(** ** Version transitions of a running node

    The manager is shared: calls of the consensus engine run between the check
    and the commit of [force_upgrade_checked].  A node is its manager together
    with the checked versions that wait for their commit.  Nothing is assumed
    of the vote store, which may also panic. *)

Section node.
Context {Auth S : Type} `{!VoteStore Auth S}.
Implicit Types s : ActivationManager S.

Definition Node : Type := ActivationManager S * list RuntimeVersion.

Inductive node_step : Node → Node → Prop :=
| step_finalize s checked v h a p :
    node_step (s, checked) ((on_finalize_block (Auth:=Auth) v h a p s).1, checked)
| step_prepare s checked h :
    node_step (s, checked) ((on_prepare_proposal (Auth:=Auth) h s).1, checked)
| step_process s checked h v :
    node_step (s, checked) ((on_process_proposal (Auth:=Auth) h v s).1, checked)
| step_polling s checked :
    node_step (s, checked) ((get_upgrade_polling (Auth:=Auth) s).1, checked)
| step_check s checked v :
    force_check v s = true → node_step (s, checked) (s, v :: checked)
| step_commit s before v after :
    node_step (s, before ++ v :: after) (force_commit v s, before ++ after).

Lemma on_client_frame {A} (m : M S ProviderError A) : respects (keeps frame) (on_client m).
Proof. intros s. unfold on_client, zoom, keeps. by destruct (m (client s)). Qed.

Lemma assert_frame (b : bool) : respects (keeps (frame (S:=S))) (assertM (E:=ProviderError) b).
Proof. by destruct b. Qed.

Hint Resolve on_client_frame assert_frame : monad.

Lemma validate_conditions_frame u h : respects (keeps frame) (validate_conditions (Auth:=Auth) u h).
Proof. unfold validate_conditions. eauto 20 with monad typeclass_instances. Qed.

(** A body that has read the state [s] and runs on it. *)
Ltac run_frame :=
  match goal with
  | |- keeps frame ?s (?m ?s).1 =>
      let Hm := fresh in assert (respects (keeps frame) m) as Hm; [eauto 20 with monad typeclass_instances|apply Hm]
  end.

Lemma track_vote_frame h a p : respects (keeps frame) (track_vote (Auth:=Auth) h a p).
Proof.
  unfold track_vote. apply respects_get. intros s. destruct (upgrade s); [|done]. run_frame.
Qed.

Hint Resolve validate_conditions_frame track_vote_frame : monad.

Lemma on_prepare_proposal_frame h : respects (keeps frame) (on_prepare_proposal (Auth:=Auth) h).
Proof.
  unfold on_prepare_proposal. apply respects_get. intros s. destruct (upgrade s); [|done]. run_frame.
Qed.

Lemma on_process_proposal_frame h v : respects (keeps frame) (on_process_proposal (Auth:=Auth) h v).
Proof.
  unfold on_process_proposal. apply respects_get. intros s.
  destruct (upgrade s); [|by case_bool_decide]. run_frame.
Qed.

Lemma get_upgrade_polling_frame : respects (keeps frame) (get_upgrade_polling (Auth:=Auth)).
Proof.
  unfold get_upgrade_polling. apply respects_get. intros s. destruct (upgrade s); [|done]. run_frame.
Qed.

(** What finalizing a block may do to the active version and the upgrade,
    also when the store fails or panics. *)
Definition may_finalize s s' : Prop :=
  frame s' = frame s ∨
  ∃ u, upgrade s = Some u ∧ upgrade s' = None ∧
    (active_version s' = active_version s ∨
     nu_is_compliant u = true ∧ active_version s' = nu_version u).

Lemma on_finalize_block_frame v h a p s : may_finalize s (on_finalize_block (Auth:=Auth) v h a p s).1.
Proof.
  unfold on_finalize_block, bindM, get, modify, ret, may_finalize.
  pose proof (track_vote_frame h a p s) as Hf. unfold keeps in Hf.
  destruct (track_vote h a p s) as [s1 [[]|e|]]; [|by left..]. simpl in Hf.
  destruct (frame_eq _ _ Hf) as (_ & Ha & Hu). cbv beta iota.
  destruct (version_le v (active_version s1)); [by left|].
  destruct (upgrade s1) as [u|] eqn:Eu; [|by left].
  pose proof (on_client_frame (remove_upgrading_votes (Auth:=Auth) (Z.min u64_max (h + 1))) s1) as Hf2.
  unfold keeps in Hf2. destruct (on_client _ s1) as [s2 [n|e|]]; simpl in Hf2; [|left; simpl; congruence..].
  destruct (negb (bool_decide _)); [left; simpl; congruence|].
  destruct (frame_eq _ _ Hf2) as (_ & Ha2 & Hu2). right. exists u.
  destruct (nu_is_compliant u) eqn:En; simpl; (split; [congruence|split; [done|]]);
    [by right|left; congruence].
Qed.

(** A node that starts with the active version [v0] and the upgrade [u0]. *)
Definition node_inv (v0 : RuntimeVersion) (u0 : option NetworkUpgrade) (n : Node) : Prop :=
  (upgrade n.1 = u0 ∧ active_version n.1 = v0 ∨
   upgrade n.1 = None ∧ (active_version n.1 = v0 ∨
     ∃ u, u0 = Some u ∧ nu_is_compliant u = true ∧ active_version n.1 = nu_version u)) ∧
  Forall (λ v, ∃ u, u0 = Some u ∧ nu_is_compliant u = true ∧ v = nu_version u) n.2.

Lemma node_inv_frame v0 u0 s s' checked :
  frame s' = frame s → node_inv v0 u0 (s, checked) → node_inv v0 u0 (s', checked).
Proof. intros (_ & Ha & Hu)%frame_eq. unfold node_inv. simpl. by rewrite Ha, Hu. Qed.

Lemma node_step_inv v0 u0 n n' : node_step n n' → node_inv v0 u0 n → node_inv v0 u0 n'.
Proof.
  intros Hstep. destruct Hstep as [s checked v h a p|s checked h|s checked h v|s checked|s checked v Hc
    |s before v after].
  - destruct (on_finalize_block_frame v h a p s) as [Hf|(u & Hu & Hu' & Hv)]; [by apply node_inv_frame|].
    intros [Hn Hck]. split; [right|done]. simpl in *. split; [done|].
    destruct Hn as [[<- Ha]|[Hn _]]; [|congruence]. destruct Hv as [Hv|Hv]; [left; congruence|right; eauto].
  - apply node_inv_frame, on_prepare_proposal_frame.
  - apply node_inv_frame, on_process_proposal_frame.
  - apply node_inv_frame, get_upgrade_polling_frame.
  - intros [Hn Hck]. split; [done|]. constructor; [|done]. unfold force_check in Hc. simpl in *.
    destruct (upgrade s) as [u|] eqn:Eu; [|done]. apply andb_true_iff in Hc as [<-%bool_decide_eq_true Hc].
    destruct Hn as [[<- _]|[? _]]; [eauto|done].
  - intros [Hn Hck]. apply Forall_app in Hck as [Hb [Hv Ha]%Forall_cons]. split; [|by apply Forall_app].
    right. simpl. split; [done|]. right. destruct Hv as (u & ? & ? & ?). eauto.
Qed.

(** C39.  The version of a node moves at most once, and only forward: whatever
    calls of the consensus engine, of the RPC server and of
    [force_upgrade_checked] are interleaved, and whatever the vote store does,
    the active version stays the initial one or is the upgrade the node was
    built with, which it accepted and which is newer, and after the upgrade
    the node tracks nothing. *)
Theorem active_version_moves_forward s0 n :
  manager_wf s0 → rtc node_step (s0, []) n →
  version_le (active_version s0) (active_version n.1) = true ∧
  (active_version n.1 ≠ active_version s0 → upgrade n.1 = None ∧
     ∃ u, upgrade s0 = Some u ∧ nu_is_compliant u = true ∧ active_version n.1 = nu_version u).
Proof.
  intros Hwf Hr.
  assert (node_inv (active_version s0) (upgrade s0) n) as [Hn _].
  { refine (rtc_ind_r (node_inv _ _) (s0, []) _ _ n Hr).
    - split; [by left|constructor].
    - intros n1 n2 _ Hs. by apply node_step_inv. }
  destruct Hn as [[Hu ->]|[Hu [->|(u & Hu0 & Hc & ->)]]]; (split; [|intros; try done]).
  - apply version_le_spec. lia.
  - apply version_le_spec. lia.
  - by apply version_lt_le, (Hwf u).
  - eauto.
Qed.

End node.

(** ** The recorded history *)

Section transitions.

Abbreviation History := (gmap Z RuntimeVersion).

(** The transitions of [(height, version)] pairs that were new maxima. *)
Fixpoint maxima (latest : option RuntimeVersion) (l : list (Z * RuntimeVersion))
    : list (Z * RuntimeVersion) :=
  match l with
  | [] => []
  | (h, v) :: l =>
      if match latest with Some v0 => version_lt v0 v | None => true end
      then (h, v) :: maxima (Some v) l else maxima latest l
  end.

Definition insert_versions {E} (l : list (Z * RuntimeVersion)) : M History E unit :=
  forM l (λ e, insert_runtime_upgrade_version e.1 e.2 ;! ret tt).

(** The highest version. *)
Definition latest_of (latest : option RuntimeVersion) (l : list (Z * RuntimeVersion))
    : option RuntimeVersion :=
  foldl (λ r e, match r with
                | Some v => if version_lt v e.2 then Some e.2 else Some v
                | None => Some e.2
                end) latest l.

Lemma insert_records {E} h v (t : History) :
  insert_runtime_upgrade_version (E:=E) h v t =
  if match t !! LATEST_RUNTIME_KEY with Some v0 => version_lt v0 v | None => true end
  then (<[h := v]> (<[LATEST_RUNTIME_KEY := v]> t), Ok true) else (t, Ok false).
Proof.
  unfold insert_runtime_upgrade_version, bindM, get, modify, ret.
  destruct (t !! LATEST_RUNTIME_KEY) as [v0|]; [|done]. rewrite version_le_lt, negb_involutive.
  by destruct (version_lt v0 v).
Qed.

Lemma insert_versions_spec {E} l (t : History) :
  (∀ e, e ∈ l → e.1 < LATEST_RUNTIME_KEY ∧ t !! e.1 = None) → NoDup l.*1 →
  ∃ t', insert_versions (E:=E) l t = (t', Ok tt) ∧
    t' !! LATEST_RUNTIME_KEY = latest_of (t !! LATEST_RUNTIME_KEY) l ∧
    ∀ h v, h ≠ LATEST_RUNTIME_KEY →
      t' !! h = Some v ↔ t !! h = Some v ∨ (h, v) ∈ maxima (t !! LATEST_RUNTIME_KEY) l.
Proof.
  revert t. induction l as [|[h v] l IH]; intros t Hl Hnd.
  { exists t. split_and!; [done..|]. set_solver. }
  apply NoDup_cons in Hnd as [Hh Hnd]. destruct (Hl (h, v) ltac:(set_solver)) as [Hlt Hnone]. simpl in *.
  unfold insert_versions. cbn [forM]. unfold bindM at 1 2. cbn [fst snd].
  rewrite insert_records. unfold latest_of. cbn [foldl maxima snd].
  destruct (match t !! LATEST_RUNTIME_KEY with Some v0 => version_lt v0 v | None => true end) eqn:En.
  - destruct (IH (<[h := v]> (<[LATEST_RUNTIME_KEY := v]> t))) as (t' & Hrun & Hlast & Hget); [|done|].
    { intros e He. destruct (Hl e) as [? ?]; [set_solver|]. split; [done|].
      rewrite !lookup_insert_ne; [done|lia|]. intros ->. apply Hh. apply list_elem_of_fmap. eauto. }
    rewrite lookup_insert_ne, lookup_insert_eq in Hlast, Hget by lia.
    exists t'. split_and!; [exact Hrun| |].
    + rewrite Hlast. unfold latest_of. f_equal.
      destruct (t !! LATEST_RUNTIME_KEY) as [v0|]; [by rewrite En|done].
    + intros h' v' Hne. rewrite Hget by done. rewrite elem_of_cons.
      destruct (decide (h' = h)) as [->|Hne'].
      * rewrite lookup_insert_eq. naive_solver.
      * rewrite !lookup_insert_ne by done. naive_solver.
  - destruct (IH t) as (t' & Hrun & Hlast & Hget); [|done|].
    { intros e He. apply Hl. set_solver. }
    exists t'. split_and!; [exact Hrun| |done]. rewrite Hlast. unfold latest_of. f_equal.
    destruct (t !! LATEST_RUNTIME_KEY) as [v0|]; [by rewrite En|done].
Qed.

Lemma list_filter_sorted {A} (R : A → A → Prop) (f : A → bool) (l : list A) :
  StronglySorted R l → StronglySorted R (List.filter f l).
Proof.
  induction 1 as [|x l Hl IH Hx]; simpl; [constructor|]. destruct (f x); [|done].
  constructor; [done|]. apply Forall_forall. intros y [Hy _]%list_elem_of_In%filter_In.
  apply list_elem_of_In in Hy. by apply (proj1 (Forall_forall _ _) Hx).
Qed.

Lemma maxima_subset latest l e : e ∈ maxima latest l → e ∈ l.
Proof.
  revert latest. induction l as [|[h v] l IH]; intros latest; simpl; [done|].
  destruct (match latest with Some _ => _ | None => _ end); rewrite !elem_of_cons; naive_solver.
Qed.

Lemma maxima_heights latest l :
  StronglySorted (λ a b, a.1 < b.1) l → StronglySorted (λ a b, a.1 < b.1) (maxima latest l).
Proof.
  intros Hs. revert latest. induction Hs as [|[h v] l Hl IH Hx]; intros latest; simpl; [constructor|].
  destruct (match latest with Some _ => _ | None => _ end); [|apply IH]. constructor; [apply IH|].
  apply Forall_forall. intros e He%maxima_subset. by apply (proj1 (Forall_forall _ _) Hx).
Qed.

Lemma maxima_newer v0 l e : e ∈ maxima (Some v0) l → version_lt v0 e.2 = true.
Proof.
  revert v0. induction l as [|[h v] l IH]; intros v0; simpl; [set_solver|].
  destruct (version_lt v0 v) eqn:Ev; [|apply IH].
  intros [->|He]%elem_of_cons; [done|]. apply IH, version_lt_le in He.
  by eapply version_lt_le_trans.
Qed.

Lemma maxima_versions latest l :
  StronglySorted (λ a b, version_lt a.2 b.2 = true) (maxima latest l).
Proof.
  revert latest. induction l as [|[h v] l IH]; intros latest; simpl; [constructor|].
  destruct (match latest with Some _ => _ | None => _ end); [|done]. constructor; [done|].
  apply Forall_forall. intros e He. by apply maxima_newer in He.
Qed.

Lemma latest_of_max l latest v :
  latest_of latest l = Some v →
  (∀ v0, latest = Some v0 → version_le v0 v = true) ∧ (∀ e, e ∈ l → version_le e.2 v = true).
Proof.
  revert latest. induction l as [|[h w] l IH]; intros latest; cbn [latest_of foldl snd].
  { intros ->. split; [|set_solver]. intros ? [= ->]. apply version_le_spec. lia. }
  intros [Hle Hl]%IH. destruct latest as [v0|].
  - destruct (version_lt v0 w) eqn:Ev.
    + specialize (Hle w eq_refl). split.
      * intros ? [= <-]. apply version_lt_le in Ev. by apply (transitivity (R:=λ a b, version_le a b = true) Ev).
      * intros e [->|He]%elem_of_cons; [done|auto].
    + specialize (Hle v0 eq_refl). split; [by intros ? [= <-]|].
      intros e [->|He]%elem_of_cons; [|auto]. simpl.
      assert (version_le w v0 = true) as Hw by (by rewrite version_le_lt, Ev).
      by apply (transitivity (R:=λ a b, version_le a b = true) Hw).
  - specialize (Hle w eq_refl). split; [done|]. intros e [->|He]%elem_of_cons; auto.
Qed.

Lemma latest_of_Some v l : latest_of (Some v) l ≠ None.
Proof.
  revert v. induction l as [|e l IH]; intros v; [done|].
  unfold latest_of. cbn [foldl]. destruct (version_lt v e.2); apply IH.
Qed.

Lemma sorted_heights_NoDup (l : list (Z * RuntimeVersion)) :
  StronglySorted (λ a b, a.1 < b.1) l → NoDup l.*1.
Proof.
  induction 1 as [|x l Hl IH Hx]; simpl; constructor; [|done].
  intros (y & Hxy & Hy)%list_elem_of_fmap. apply (proj1 (Forall_forall _ _) Hx) in Hy. lia.
Qed.

Lemma get_runtime_versions_is (t : History) l :
  StronglySorted (λ a b, a.1 < b.1) l → (∀ h v, (h, v) ∈ l → h ≠ LATEST_RUNTIME_KEY) →
  (∀ h v, h ≠ LATEST_RUNTIME_KEY → t !! h = Some v ↔ (h, v) ∈ l) →
  List.filter (λ e, negb (e.1 =? LATEST_RUNTIME_KEY))
    (sort_by (λ a b, a.1 <=? b.1) (map_to_list t)) = l.
Proof.
  intros Hs Hk Ht. set (r := List.filter _ _).
  assert (∀ h v, (h, v) ∈ r ↔ (h, v) ∈ l) as Hr.
  { intros h v. unfold r. rewrite list_elem_of_In, filter_In, <-list_elem_of_In, sort_by_perm.
    rewrite elem_of_map_to_list. simpl. destruct (Z.eqb_spec h LATEST_RUNTIME_KEY) as [->|Hne].
    - split; [by intros [_ ?]|]. by intros ?%Hk.
    - rewrite Ht by done. naive_solver. }
  apply (StronglySorted_unique_strong (λ a b, (a.1 <=? b.1) = true)).
  - intros [h v] [h' v'] Hx Hy. simpl. rewrite !Z.leb_le. intros ??. assert (h = h') as -> by lia.
    apply Hr in Hx. apply Ht in Hx; [|by eapply Hk]. apply Ht in Hy; [|by eapply Hk]. congruence.
  - apply list_filter_sorted, sort_by_sorted; intros *; rewrite ?Z.leb_gt, ?Z.leb_le; lia.
  - clear -Hs. induction Hs as [|x l' _ IH Hx]; constructor; [done|].
    eapply Forall_impl; [exact Hx|]. intros y Hy. apply Z.leb_le. simpl in Hy. lia.
  - apply NoDup_Permutation.
    + unfold r. apply NoDup_ListNoDup, List.NoDup_filter, NoDup_ListNoDup. rewrite sort_by_perm.
      apply NoDup_map_to_list.
    + by eapply NoDup_fmap_1, sorted_heights_NoDup.
    + intros [h v]. apply Hr.
Qed.

(** The recorded history of version transitions: when blocks of ascending
    heights have reported their versions to an empty table, the table lists
    exactly the blocks whose version was newer than every one before, in
    order, with strictly ascending versions, and the last version is the
    newest of all. *)
Theorem runtime_history_spec {E} l :
  StronglySorted (λ a b, a.1 < b.1) l → Forall (λ e, e.1 < LATEST_RUNTIME_KEY) l →
  ∃ t : History, insert_versions (E:=E) l ∅ = (t, Ok tt) ∧
    get_runtime_versions (E:=E) t = (t, Ok (maxima None l)) ∧
    StronglySorted (λ a b, version_lt a.2 b.2 = true) (maxima None l) ∧
    ∃ latest, get_last_runtime_version (E:=E) t = (t, Ok latest) ∧
      (latest = None → l = []) ∧
      ∀ v, latest = Some v → (∀ e, e ∈ l → version_le e.2 v = true).
Proof.
  intros Hs Hk. destruct (insert_versions_spec (E:=E) l ∅) as (t & Hrun & Hlast & Hget).
  { intros e He. split; [by apply (proj1 (Forall_forall _ _) Hk)|apply lookup_empty]. }
  { by apply sorted_heights_NoDup. }
  rewrite lookup_empty in Hlast, Hget. exists t. split_and!; [done| |apply maxima_versions|].
  - unfold get_runtime_versions, bindM, get, ret. do 2 f_equal. apply get_runtime_versions_is.
    + by apply maxima_heights.
    + intros h v Hin%maxima_subset ->. apply (proj1 (Forall_forall _ _) Hk) in Hin. simpl in Hin. lia.
    + intros h v Hne. rewrite Hget, lookup_empty by done. naive_solver.
  - exists (t !! LATEST_RUNTIME_KEY). split; [done|]. rewrite Hlast. split.
    + destruct l as [|[h v] l]; [done|]. unfold latest_of. cbn [foldl snd]. by intros ?%latest_of_Some.
    + intros v Hv. by apply latest_of_max in Hv as [_ ?].
Qed.

End transitions.

(** ** The locks

    The manager keeps [active_version] and [upgrade] behind two reader-writer
    locks.  Here a call is the sequence of the lock operations of one of its
    paths, with guards released in reverse order of their declaration. *)

Module Locks.

Inductive Lock := ActiveVersion | Upgrade.

#[export] Instance Lock_eq_dec : EqDecision Lock.
Proof. solve_decision. Defined.

Inductive Op := Read (l : Lock) | Write (l : Lock) | ReadDrop (l : Lock) | WriteDrop (l : Lock).

#[export] Instance Op_eq_dec : EqDecision Op.
Proof. solve_decision. Defined.

Abbreviation Path := (list Op).

(** [_track_vote], which every [on_finalize_block] runs first. *)
Definition track_path : Path := [Read Upgrade; ReadDrop Upgrade].

(** The paths of [on_finalize_block]: a block of a known version, a dead end,
    and the activation of the upgrade. *)
Definition finalize_paths : list Path :=
  [ track_path ++ [Read ActiveVersion; ReadDrop ActiveVersion];
    track_path ++ [Read ActiveVersion; Write Upgrade; WriteDrop Upgrade; ReadDrop ActiveVersion];
    track_path ++ [Read ActiveVersion; Write Upgrade; ReadDrop ActiveVersion; Write ActiveVersion;
                   WriteDrop ActiveVersion; WriteDrop Upgrade] ].

(** [on_prepare_proposal] and [on_process_proposal]: the upgraded block, and
    the active version. *)
Definition proposal_paths : list Path :=
  [ [Read Upgrade; ReadDrop Upgrade];
    [Read Upgrade; Read ActiveVersion; ReadDrop ActiveVersion; ReadDrop Upgrade] ].

Definition polling_paths : list Path := [ [Read Upgrade; ReadDrop Upgrade] ].

(** [force_upgrade_checked]: the check fails, or the upgrade is committed. *)
Definition force_paths : list Path :=
  [ [Read Upgrade; ReadDrop Upgrade];
    [Read Upgrade; ReadDrop Upgrade; Write Upgrade; Write ActiveVersion;
     WriteDrop ActiveVersion; WriteDrop Upgrade] ].

(** A thread has executed [done_ops] and still has to run [todo]. *)
Record Thread := mkThread { done_ops : Path; todo : Path }.

#[export] Instance Thread_eq_dec : EqDecision Thread.
Proof. solve_decision. Defined.

Definition start (p : Path) : Thread := mkThread [] p.

Definition count (o : Op) (p : Path) : nat := length (List.filter (λ o', bool_decide (o = o')) p).

Definition reads (l : Lock) (t : Thread) : bool :=
  (count (ReadDrop l) (done_ops t) <? count (Read l) (done_ops t))%nat.

Definition writes (l : Lock) (t : Thread) : bool :=
  (count (WriteDrop l) (done_ops t) <? count (Write l) (done_ops t))%nat.

Definition waits_to_write (l : Lock) (t : Thread) : bool := bool_decide (head (todo t) = Some (Write l)).

(** Whether the lock lets an operation proceed.  The standard library leaves
    open whether a waiting writer keeps new readers out: [prefer_writers]. *)
Definition enabled (prefer_writers : bool) (ts : list Thread) (o : Op) : bool :=
  match o with
  | Read l => negb (existsb (writes l) ts) && negb (prefer_writers && existsb (waits_to_write l) ts)
  | Write l => negb (existsb (writes l) ts) && negb (existsb (reads l) ts)
  | ReadDrop _ | WriteDrop _ => true
  end.

Definition advance (t : Thread) : Thread :=
  match todo t with
  | o :: rest => mkThread (done_ops t ++ [o]) rest
  | [] => t
  end.

Inductive lock_step (prefer_writers : bool) : list Thread → list Thread → Prop :=
| lock_step_thread ts (i : nat) t o rest :
    ts !! i = Some t → todo t = o :: rest → enabled prefer_writers ts o = true →
    lock_step prefer_writers ts (<[i := advance t]> ts).

Definition finished (ts : list Thread) : bool := forallb (λ t, bool_decide (todo t = [])) ts.

(** All the threads that are left wait for each other. *)
Definition deadlocked (prefer_writers : bool) (ts : list Thread) : Prop :=
  finished ts = false ∧ ∀ ts', ¬ lock_step prefer_writers ts ts'.

(** The successors of a state, executable. *)
Definition can_run (prefer_writers : bool) (ts : list Thread) (t : Thread) : bool :=
  match todo t with o :: _ => enabled prefer_writers ts o | [] => false end.

Definition successors (prefer_writers : bool) (ts : list Thread) : list (list Thread) :=
  omap (λ i, t ← ts !! i; if can_run prefer_writers ts t then Some (<[i := advance t]> ts) else None)
    (seq 0 (length ts)).

Lemma successors_spec pw ts ts' : ts' ∈ successors pw ts ↔ lock_step pw ts ts'.
Proof.
  unfold successors. rewrite list_elem_of_omap. split.
  - intros (i & _ & Hi). destruct (ts !! i) as [t|] eqn:Et; [|done]. simpl in Hi. unfold can_run in Hi.
    destruct (todo t) as [|o rest] eqn:Eo; [done|]. destruct (enabled pw ts o) eqn:Een; [|done].
    simplify_eq. by econstructor.
  - intros [ts0 i t o rest Ht Ho Hen]. exists i. split.
    + apply elem_of_seq. apply lookup_lt_Some in Ht. lia.
    + rewrite Ht. simpl. unfold can_run. by rewrite Ho, Hen.
Qed.

(** The states reachable in at most [fuel] steps, without deadlock. *)
Fixpoint safe (fuel : nat) (pw : bool) (frontier : list (list Thread)) : bool :=
  match frontier with
  | [] => true
  | _ => match fuel with
         | O => false
         | S fuel =>
             forallb (λ ts, finished ts || negb (bool_decide (successors pw ts = []))) frontier &&
             safe fuel pw (remove_dups (frontier ≫= successors pw))
         end
  end.

Lemma safe_sound fuel pw frontier ts ts' :
  safe fuel pw frontier = true → ts ∈ frontier → rtc (lock_step pw) ts ts' → ¬ deadlocked pw ts'.
Proof.
  revert frontier ts. induction fuel as [|fuel IH]; intros frontier ts Hs Hin Hr.
  { by destruct frontier; [apply not_elem_of_nil in Hin|]. }
  destruct frontier as [|x frontier]; [by apply not_elem_of_nil in Hin|].
  change (safe (S fuel) pw (x :: frontier)) with
    (forallb (λ ts, finished ts || negb (bool_decide (successors pw ts = []))) (x :: frontier) &&
     safe fuel pw (remove_dups ((x :: frontier) ≫= successors pw))) in Hs.
  apply andb_true_iff in Hs as [Hok Hs]. inversion Hr as [|? ts1 ? Hstep Hr']; subst.
  - intros [Hnf Hno]. rewrite forallb_forall in Hok.
    specialize (Hok ts' ltac:(by apply list_elem_of_In)). rewrite Hnf in Hok. simpl in Hok.
    apply negb_true_iff, bool_decide_eq_false in Hok. destruct (successors pw ts') as [|ts2 l] eqn:E; [done|].
    apply (Hno ts2), successors_spec. rewrite E. by left.
  - eapply IH; [exact Hs| |exact Hr']. apply elem_of_remove_dups, list_elem_of_bind.
    exists ts. split; [by apply successors_spec|done].
Qed.

(** The calls of the consensus engine and of the RPC server. *)
Definition engine_calls : list (list Path) :=
  fin ← finalize_paths; prep ← proposal_paths; proc ← proposal_paths; poll ← polling_paths;
  [[fin; prep; proc; poll]].

(** The calls of the consensus engine never deadlock: however the lock
    operations of a finalized block, of a prepared and of a processed proposal
    and of a poll interleave, on whichever paths, and whether or not waiting
    writers keep readers out, some call can proceed until all are done. *)
Theorem engine_calls_never_deadlock pw paths ts :
  paths ∈ engine_calls → rtc (lock_step pw) (start <$> paths) ts → ¬ deadlocked pw ts.
Proof.
  intros Hp. assert (forallb (λ ps, safe 24 pw [start <$> ps]) engine_calls = true) as Hs
    by (destruct pw; vm_compute; reflexivity).
  rewrite forallb_forall in Hs. apply list_elem_of_In, Hs in Hp.
  intros Hr. eapply safe_sound; [exact Hp|by left|exact Hr].
Qed.

(** Running the threads in a given order. *)
Fixpoint schedule (pw : bool) (order : list nat) (ts : list Thread) : option (list Thread) :=
  match order with
  | [] => Some ts
  | i :: order =>
      t ← ts !! i; if can_run pw ts t then schedule pw order (<[i := advance t]> ts) else None
  end.

Lemma schedule_sound pw order ts ts' : schedule pw order ts = Some ts' → rtc (lock_step pw) ts ts'.
Proof.
  revert ts. induction order as [|i order IH]; intros ts; simpl; [by intros [= ->]|].
  destruct (ts !! i) as [t|] eqn:Et; [|done]. simpl. unfold can_run.
  destruct (todo t) as [|o rest] eqn:Eo; [done|]. destruct (enabled pw ts o) eqn:Een; [|done].
  intros Hr%IH. eapply rtc_l; [|exact Hr]. by econstructor.
Qed.

Lemma deadlocked_spec pw ts : finished ts = false → successors pw ts = [] → deadlocked pw ts.
Proof. intros Hf Hs. split; [done|]. intros ts' H%successors_spec. rewrite Hs in H. set_solver. Qed.

(** [force_upgrade_checked] may deadlock with [on_finalize_block]: the
    former holds [upgrade] and waits for [active_version], which the latter
    reads while it waits for [upgrade]; some paths of the two reach a state in
    which neither can proceed. *)
Theorem force_upgrade_may_deadlock pw :
  ∃ fin force ts, fin ∈ finalize_paths ∧ force ∈ force_paths ∧
    rtc (lock_step pw) [start fin; start force] ts ∧ deadlocked pw ts.
Proof.
  destruct (schedule pw [0; 0; 1; 1; 0; 1]%nat
    [start (default [] (finalize_paths !! 2%nat)); start (default [] (force_paths !! 1%nat))])
    as [ts|] eqn:Es; [|by destruct pw; vm_compute in Es].
  exists (default [] (finalize_paths !! 2%nat)), (default [] (force_paths !! 1%nat)), ts.
  split; [by apply (list_elem_of_lookup_2 _ 2)|]. split; [by apply (list_elem_of_lookup_2 _ 1)|].
  split; [by eapply schedule_sound|].
  destruct pw; vm_compute in Es; injection Es as <-; apply deadlocked_spec; by vm_compute.
Qed.

End Locks.

(** ** Concrete managers *)

Definition toy_upgrade : NetworkUpgrade := mkUpgrade (mkVersion 1 0) 67 3 100 Aye true.

Definition toy_votes : gmap Z VoteEntry :=
  <[1 := mkVoteEntry Aye true 97]> (<[2 := mkVoteEntry Aye true 98]>
  {[ 3 := mkVoteEntry Aye true 99 ]}).

Definition toy_manager (votes : gmap Z VoteEntry) : ActivationManager (gmap Z VoteEntry) :=
  mkManager votes VOTE_RETENTION_PERIOD (mkVersion 0 1) (Some toy_upgrade).

Lemma toy_manager_wf votes : manager_wf (toy_manager votes).
Proof. intros u [= <-]. split; [reflexivity|]. unfold MIN_QUORUM, MIN_VALIDATOR_COUNT. simpl. lia. Qed.

Abbreviation toy_view := (λ s m : gmap Z VoteEntry, s = m).

(** With three ayes the upgrade activates at its target height. *)
Lemma on_process_proposal_spec_witness :
  on_process_proposal (Auth:=Z) 100 (mkVersion 1 0) (toy_manager toy_votes) =
    (toy_manager toy_votes, Ok (Process (mkVersion 1 0) (Some (mkConditions true true true true)))) ∧
  activates toy_upgrade 100 toy_votes.
Proof.
  assert (on_process_proposal (Auth:=Z) 100 (mkVersion 1 0) (toy_manager toy_votes) =
    (toy_manager toy_votes, Ok (Process (mkVersion 1 0) (Some (mkConditions true true true true)))))
    as Hrun by (vm_compute; reflexivity).
  split; [exact Hrun|].
  pose proof (on_process_proposal_spec toy_view (toy_manager toy_votes) toy_votes 100
    (mkVersion 1 0) (toy_manager_wf _) eq_refl) as Hs.
  rewrite Hrun in Hs. destruct Hs as (_ & _ & [[_ [Hv|(u & [= <-] & _ & Ha)]]|[[c Hc] _]]);
    [discriminate Hv|exact Ha|discriminate Hc].
Defined.

Lemma upgrade_polling_adds_up_witness :
  ∃ p, get_upgrade_polling (Auth:=Z) (toy_manager toy_votes) =
         (toy_manager toy_votes, Ok (Some (mkVersion 1 0, p))) ∧
    ayes p + nays p + abstained p = total p.
Proof.
  exists (mkPolling 3 0 0 3 3).
  assert (get_upgrade_polling (Auth:=Z) (toy_manager toy_votes) =
    (toy_manager toy_votes, Ok (Some (mkVersion 1 0, mkPolling 3 0 0 3 3)))) as Hrun
    by (vm_compute; reflexivity).
  split; [exact Hrun|].
  pose proof (upgrade_polling_adds_up toy_view (toy_manager toy_votes) toy_votes eq_refl) as Hs.
  rewrite Hrun in Hs. apply Hs.
Defined.

(** The upgraded block is finalized: the votes are dropped. *)
Lemma on_finalize_block_spec_witness :
  let s' := mkManager ∅ VOTE_RETENTION_PERIOD (mkVersion 1 0) None in
  on_finalize_block (Auth:=Z) (mkVersion 1 0) 100 1 None (toy_manager toy_votes) =
    (s', Ok (Finalize (mkVersion 1 0))) ∧
  finalized (toy_manager toy_votes) (mkVersion 1 0) (Finalize (mkVersion 1 0)) s'.
Proof.
  intros s'.
  assert (on_finalize_block (Auth:=Z) (mkVersion 1 0) 100 1 None (toy_manager toy_votes) =
    (s', Ok (Finalize (mkVersion 1 0)))) as Hrun by (vm_compute; reflexivity).
  split; [exact Hrun|].
  pose proof (on_finalize_block_spec toy_view (toy_manager toy_votes) toy_votes (mkVersion 1 0) 100 1
    None eq_refl) as Hs.
  rewrite Hrun in Hs. apply Hs.
Defined.

Lemma proposals_are_accepted_witness :
  ∃ c, (on_process_proposal (Auth:=Z) 100 (mkVersion 1 0) (toy_manager toy_votes)).2 =
    Ok (Process (mkVersion 1 0) c).
Proof.
  assert (on_prepare_proposal (Auth:=Z) 100 (toy_manager toy_votes) = (toy_manager toy_votes,
    Ok (mkPrepare (mkVersion 1 0) (Some (mkPayload (mkVersion 1 0) Aye true))
          (Some (mkConditions true true true true))))) as Hrun by (vm_compute; reflexivity).
  pose proof (proposals_are_accepted toy_view toy_view (toy_manager toy_votes) (toy_manager toy_votes)
    _ toy_votes 100 (mkPrepare (mkVersion 1 0) (Some (mkPayload (mkVersion 1 0) Aye true))
          (Some (mkConditions true true true true))) (toy_manager_wf _) (toy_manager_wf _)
    eq_refl eq_refl eq_refl ltac:(constructor; repeat split) Hrun) as Hs.
  cbn [pd_version] in Hs.
  destruct (on_process_proposal 100 (mkVersion 1 0) (toy_manager toy_votes)) as [s' o] eqn:E.
  vm_compute in E. injection E as _ <-. destruct Hs as [c Hc]. exists c. simpl. by rewrite Hc.
Defined.

Definition toy_blocks : list (FinalizedBlock (Auth:=Z)) :=
  [ mkFinalizedBlock (mkVersion 0 1) 10 1 (Some (mkPayload (mkVersion 1 0) Nay false));
    mkFinalizedBlock (mkVersion 0 1) 11 2 None;
    mkFinalizedBlock (mkVersion 0 1) 12 1 (Some (mkPayload (mkVersion 1 0) Aye true)) ].

Lemma votes_are_last_ballots_witness :
  let s := toy_manager ∅ in
  ∃ s' m, finalize_blocks toy_blocks s = (s', Ok tt) ∧ client s' = m ∧
    m !! 1 = Some (mkVoteEntry Aye true 12) ∧ m !! 2 = Some (mkVoteEntry Abstain false 11).
Proof.
  intros s.
  pose proof (votes_are_last_ballots toy_view toy_upgrade toy_blocks s eq_refl eq_refl) as Hs.
  specialize (Hs ltac:(by vm_compute) ltac:(by repeat constructor)
    ltac:(repeat constructor; simpl; lia)).
  destruct (finalize_blocks toy_blocks s) as [s' o] eqn:E.
  assert (o = Ok tt) as -> by (change o with (s', o).2; rewrite <-E; by vm_compute).
  destruct Hs as (_ & m & Hc & Hm). exists s', m.
  split; [done|]. split; [exact Hc|]. split; [rewrite (Hm 1)|rewrite (Hm 2)]; by vm_compute.
Defined.

Lemma active_version_moves_forward_witness :
  let s' := (on_finalize_block (Auth:=Z) (mkVersion 1 0) 100 1 None (toy_manager toy_votes)).1 in
  rtc (node_step (Auth:=Z)) (toy_manager toy_votes, []) (s', []) ∧
  active_version s' = mkVersion 1 0 ∧ version_le (mkVersion 0 1) (active_version s') = true.
Proof.
  intros s'.
  assert (rtc (node_step (Auth:=Z)) (toy_manager toy_votes, []) (s', [])) as Hr
    by (apply rtc_once, step_finalize).
  split; [exact Hr|]. split; [by vm_compute|].
  exact (proj1 (active_version_moves_forward (toy_manager toy_votes) (s', []) (toy_manager_wf _) Hr)).
Defined.

Definition toy_history : list (Z * RuntimeVersion) :=
  [(5, mkVersion 0 1); (6, mkVersion 0 1); (9, mkVersion 1 0); (12, mkVersion 0 2)].

Lemma runtime_history_spec_witness :
  ∃ t, insert_versions (E:=unit) toy_history ∅ = (t, Ok tt) ∧
    get_runtime_versions (E:=unit) t = (t, Ok [(5, mkVersion 0 1); (9, mkVersion 1 0)]).
Proof.
  destruct (runtime_history_spec (E:=unit) toy_history) as (t & Hrun & Hget & _);
    [repeat constructor; simpl; lia|repeat constructor; simpl; unfold LATEST_RUNTIME_KEY, u64_max; lia|].
  exists t. split; [exact Hrun|]. rewrite Hget. by vm_compute.
Defined.

Lemma engine_calls_never_deadlock_witness :
  let paths := [default [] (Locks.finalize_paths !! 2%nat); default [] (Locks.proposal_paths !! 1%nat);
                default [] (Locks.proposal_paths !! 1%nat); default [] (Locks.polling_paths !! 0%nat)] in
  paths ∈ Locks.engine_calls ∧ ¬ Locks.deadlocked true (Locks.start <$> paths).
Proof.
  intros paths.
  assert (paths ∈ Locks.engine_calls) as Hp
    by (apply (list_elem_of_lookup_2 _ 11); vm_compute; reflexivity).
  split; [exact Hp|]. exact (Locks.engine_calls_never_deadlock true paths _ Hp (rtc_refl _ _)).
Defined.

(** ** Evaluations *)

(** 67 ayes of 101 validators are less than two thirds, and pass a quorum of
    67 per cent: the rate is rounded up. *)
Lemma quorum_below_two_thirds :
  ∃ u : NetworkUpgrade, nu_quorum u = MIN_QUORUM ∧ 67 * 3 < 101 * 2 ∧
    supermajority (nu_quorum u) 67 101 = true.
Proof. exists toy_upgrade. by vm_compute. Qed.
