(* ===== verification/Codec.v ===== *)
(** * Readers and consensus codecs

    The decoders of the node read from a [&mut &[u8]] that advances: here the
    state monad over the remaining bytes.  A type of rust-bitcoin with its
    [Encodable] and [Decodable] implementations is a [codec], a parameter of
    the model; [CodecLaws] states that decoding inverts encoding and consumes
    input.  [parses] and [advances] are the two judgements with which decoders
    are composed: what they accept, and that they make progress.

    [Profile] says whether arithmetic overflow panics (a debug build) or wraps
    around (a release build). *)

From S2P Require Import Prelude Bytes.

Open Scope Z_scope.

(** ** Build profile *)

Class Profile := overflow_checks : bool.

(** [a - b] and [a + b] on an unsigned integer of [w] bits. *)
Definition usub `{!Profile} {E} (w a b : Z) : outcome E Z :=
  if b <=? a then Ok (a - b) else if overflow_checks then Panic else Ok ((a - b) mod 2 ^ w).

Definition uadd `{!Profile} {E} (w a b : Z) : outcome E Z :=
  if a + b <? 2 ^ w then Ok (a + b) else if overflow_checks then Panic else Ok ((a + b) mod 2 ^ w).

Definition umul `{!Profile} {E} (w a b : Z) : outcome E Z :=
  if a * b <? 2 ^ w then Ok (a * b) else if overflow_checks then Panic else Ok ((a * b) mod 2 ^ w).

Lemma usub_Ok `{!Profile} {E} w a b : b ≤ a → usub (E:=E) w a b = Ok (a - b).
Proof. intros Hle. unfold usub. by rewrite (proj2 (Z.leb_le b a)). Qed.

Lemma uadd_Ok `{!Profile} {E} w a b : a + b < 2 ^ w → uadd (E:=E) w a b = Ok (a + b).
Proof. intros Hlt. unfold uadd. by rewrite (proj2 (Z.ltb_lt (a + b) _)). Qed.

Lemma bind_lift_Ok {S E A B} (o : outcome E A) (f : A → M S E B) s a :
  o = Ok a → bindM (lift o) f s = f a s.
Proof. by intros ->. Qed.

(** ** Readers *)

(** [bitcoin::consensus::encode::Error], an I/O error or another one, and
    [bitcoin::io::Error]. *)
Inductive EncodeError := EncIo | EncOther.
Inductive IoError := UnexpectedEof.

Abbreviation Reader E A := (M bytes E A).

(** [read_slice] and [read_exact] into an array of [n] bytes. *)
Definition read_slice (n : nat) : Reader IoError bytes := λ s,
  if (length s <? n)%nat then (s, Err UnexpectedEof) else (drop n s, Ok (take n s)).

(** [bytes.len()] while reading *)
Definition remaining_len {E} : Reader E Z := gets (λ s, Z.of_nat (length s)).

Record codec (A : Type) := mkCodec {
  consensus_encode : A → bytes;
  consensus_decode : Reader EncodeError A }.
Arguments mkCodec {A}.
Arguments consensus_encode {A}.
Arguments consensus_decode {A}.

(** [for _ in 0..len { v.push(decode(bytes)?) }] *)
Fixpoint decode_times {E A} (n : nat) (m : Reader E A) : Reader E (list A) :=
  match n with
  | O => ret []
  | S n => let! x := m in let! xs := decode_times n m in ret (x :: xs)
  end.

(** ** What a reader accepts *)

(** [m] reads exactly [u] and returns [a]. *)
Definition parses {E A} (m : Reader E A) (u : bytes) (a : A) : Prop :=
  ∀ rest, m (u ++ rest) = (rest, Ok a).

(** A success leaves a suffix of the input behind. *)
Definition suffixes {E A} (m : Reader E A) : Prop :=
  ∀ s s' a, m s = (s', Ok a) → ∃ u, s = u ++ s'.

(** A success consumes at least one byte. *)
Definition advances {E A} (m : Reader E A) : Prop :=
  ∀ s s' a, m s = (s', Ok a) → ∃ u, u ≠ [] ∧ s = u ++ s'.

Definition total_reader {E A} (m : Reader E A) : Prop := ∀ s, (m s).2 ≠ Panic.

Class CodecLaws {A} (c : codec A) (P : A → Prop) : Prop := {
  decode_encode a : P a → parses (consensus_decode c) (consensus_encode c a) a;
  decode_advances : advances (consensus_decode c);
  decode_valid s s' a : consensus_decode c s = (s', Ok a) → P a;
  decode_total : total_reader (consensus_decode c) }.

(** A codec whose encodings have a fixed length. *)
Class FixedLength {A} (c : codec A) (P : A → Prop) (n : nat) : Prop :=
  fixed_length a : P a → length (consensus_encode c a) = n.

(** ** Composition *)

Lemma parses_ret {E A} (a : A) : parses (E:=E) (ret a) [] a.
Proof. done. Qed.

Lemma parses_bind {E A B} (m : Reader E A) (k : A → Reader E B) u v a b :
  parses m u a → parses (k a) v b → parses (bindM m k) (u ++ v) b.
Proof. intros Hm Hk rest. unfold bindM. by rewrite <-app_assoc, Hm, Hk. Qed.

(** The last read, and a step that reads nothing. *)
Lemma parses_bind_last {E A B} (m : Reader E A) (k : A → Reader E B) u a b :
  parses m u a → parses (k a) [] b → parses (bindM m k) u b.
Proof. intros. rewrite <-(app_nil_r u). by eapply parses_bind. Qed.

Lemma parses_bind_pre {E A B} (m : Reader E A) (k : A → Reader E B) v a b :
  parses m [] a → parses (k a) v b → parses (bindM m k) v b.
Proof. intros. by apply (parses_bind m k [] v a b). Qed.

Lemma parses_map_err {E E' A} (f : E → E') (m : Reader E A) u a :
  parses m u a → parses (map_errM f m) u a.
Proof. intros Hm rest. unfold map_errM. by rewrite Hm. Qed.

Lemma parses_lift {E A} (o : outcome E A) a : o = Ok a → parses (lift o) [] a.
Proof. by intros -> rest. Qed.

Lemma parses_read_slice n u : length u = n → parses (read_slice n) u u.
Proof.
  intros <- rest. unfold read_slice. rewrite length_app.
  destruct (Nat.ltb_spec (length u + length rest) (length u)); [lia|].
  by rewrite take_app_length, drop_app_length.
Qed.

Lemma parses_times {E A} (m : Reader E A) (enc : A → bytes) l :
  Forall (λ a, parses m (enc a) a) l → parses (decode_times (length l) m) (concat (map enc l)) l.
Proof.
  induction 1 as [|a l Ha Hl IH]; simpl; [apply parses_ret|].
  eapply parses_bind; [exact Ha|]. eapply parses_bind_last; [exact IH|]. apply parses_ret.
Qed.

Lemma suffixes_ret {E A} (a : A) : suffixes (E:=E) (ret a).
Proof. intros s s' b [= -> ->]. by exists []. Qed.

Lemma suffixes_fail {E A} (e : E) : suffixes (A:=A) (fail e).
Proof. by intros s s' b [=]. Qed.

Lemma suffixes_lift {E A} (o : outcome E A) : suffixes (lift o).
Proof. intros s s' b [= -> ->]. by exists []. Qed.

Lemma suffixes_gets {E A} (f : bytes → A) : suffixes (E:=E) (gets f).
Proof. intros s s' b [= -> <-]. by exists []. Qed.

Lemma suffixes_bind {E A B} (m : Reader E A) (k : A → Reader E B) :
  suffixes m → (∀ a, suffixes (k a)) → suffixes (bindM m k).
Proof.
  intros Hm Hk s s' b Hb. apply bindM_Ok in Hb as (s1 & a & H1 & H2).
  apply Hm in H1 as [u ->]. apply Hk in H2 as [v ->]. exists (u ++ v). by rewrite app_assoc.
Qed.

Lemma suffixes_map_err {E E' A} (f : E → E') (m : Reader E A) : suffixes m → suffixes (map_errM f m).
Proof. intros Hm s s' a H%map_errM_Ok. by eapply Hm. Qed.

Lemma suffixes_read_slice n : suffixes (read_slice n).
Proof.
  intros s s' a. unfold read_slice. destruct (_ <? _)%nat; [done|]. intros [= <- <-].
  exists (take n s). by rewrite take_drop.
Qed.

Lemma advances_suffixes {E A} (m : Reader E A) : advances m → suffixes m.
Proof. intros Hm s s' a H%Hm. naive_solver. Qed.

Lemma suffixes_times {E A} n (m : Reader E A) : suffixes m → suffixes (decode_times n m).
Proof.
  intros Hm. induction n; simpl; [apply suffixes_ret|].
  apply suffixes_bind; [done|]. intros a. apply suffixes_bind; [done|]. intros. apply suffixes_ret.
Qed.

Lemma suffixes_codec {A} (c : codec A) P `{!CodecLaws c P} : suffixes (consensus_decode c).
Proof. apply advances_suffixes, decode_advances. Qed.

Create HintDb reader discriminated.
#[export] Hint Resolve suffixes_ret suffixes_fail suffixes_lift suffixes_gets suffixes_bind
  suffixes_map_err suffixes_read_slice suffixes_times : reader.
#[export] Hint Extern 1 (suffixes (consensus_decode _)) => eapply suffixes_codec : reader.
#[export] Hint Extern 1 (∀ _, suffixes _) => intros ? : reader.
#[export] Hint Extern 2 (suffixes (match ?x with _ => _ end)) => destruct x : reader.
#[export] Hint Extern 0 (CodecLaws _ _) => typeclasses eauto : reader.

(** The first of two readers makes progress. *)
Lemma advances_bind {E A B} (m : Reader E A) (k : A → Reader E B) :
  advances m → (∀ a, suffixes (k a)) → advances (bindM m k).
Proof.
  intros Hm Hk s s' b Hb. apply bindM_Ok in Hb as (s1 & a & H1 & H2).
  apply Hm in H1 as (u & Hu & ->). apply Hk in H2 as [v ->]. exists (u ++ v).
  split; [|by rewrite app_assoc]. by destruct u.
Qed.

Lemma advances_map_err {E E' A} (f : E → E') (m : Reader E A) : advances m → advances (map_errM f m).
Proof. intros Hm s s' a H%map_errM_Ok. by eapply Hm. Qed.

(** ** What a reader returns *)

Definition yields {E A} (m : Reader E A) (P : A → Prop) : Prop := ∀ s s' a, m s = (s', Ok a) → P a.

Lemma yields_codec {A} (c : codec A) P `{!CodecLaws c P} : yields (consensus_decode c) P.
Proof. intros s s' a. apply decode_valid. Qed.

Lemma yields_map_err {E E' A} (f : E → E') (m : Reader E A) P : yields m P → yields (map_errM f m) P.
Proof. intros Hm s s' a H%map_errM_Ok. by eapply Hm. Qed.

Lemma yields_bind {E A B} (m : Reader E A) (k : A → Reader E B) P Q :
  yields m P → (∀ a, P a → yields (k a) Q) → yields (bindM m k) Q.
Proof. intros Hm Hk s s' b (s1 & a & H1 & H2)%bindM_Ok. eapply (Hk a); [by eapply Hm|exact H2]. Qed.

Lemma yields_any {E A} (m : Reader E A) : yields m (λ _, True).
Proof. done. Qed.

Lemma yields_ret {E A} (a : A) (P : A → Prop) : P a → yields (E:=E) (ret a) P.
Proof. intros Ha s s' b [= _ <-]. exact Ha. Qed.

Lemma yields_fail {E A} (e : E) (P : A → Prop) : yields (fail e) P.
Proof. by intros s s' a [=]. Qed.

Lemma yields_times {E A} n (m : Reader E A) : yields (decode_times n m) (λ l, length l = n).
Proof.
  induction n as [|n IH]; simpl; [by apply yields_ret|].
  eapply yields_bind; [apply yields_any|]. intros x _. eapply yields_bind; [exact IH|].
  intros xs Hxs. apply yields_ret. simpl. by rewrite Hxs.
Qed.

(** ** Readers that never panic *)

Lemma total_ret {E A} (a : A) : total_reader (E:=E) (ret a).
Proof. by intros s. Qed.

Lemma total_fail {E A} (e : E) : total_reader (A:=A) (fail e).
Proof. by intros s. Qed.

Lemma total_gets {E A} (f : bytes → A) : total_reader (E:=E) (gets f).
Proof. by intros s. Qed.

Lemma total_lift {E A} (o : outcome E A) : o ≠ Panic → total_reader (lift o).
Proof. by intros ? s. Qed.

Lemma total_bind {E A B} (m : Reader E A) (k : A → Reader E B) :
  total_reader m → (∀ a, total_reader (k a)) → total_reader (bindM m k).
Proof.
  intros Hm Hk s. unfold bindM. specialize (Hm s). destruct (m s) as [s' [a|e|]]; simpl in *; [|done..].
  apply Hk.
Qed.

Lemma total_map_err {E E' A} (f : E → E') (m : Reader E A) : total_reader m → total_reader (map_errM f m).
Proof. intros Hm s. unfold map_errM. specialize (Hm s). by destruct (m s) as [s' [a|e|]]. Qed.

Lemma total_read_slice n : total_reader (read_slice n).
Proof. intros s. unfold read_slice. by destruct (_ <? _)%nat. Qed.

Lemma total_times {E A} n (m : Reader E A) : total_reader m → total_reader (decode_times n m).
Proof.
  intros Hm. induction n; simpl; [apply total_ret|].
  apply total_bind; [done|]. intros a. apply total_bind; [done|]. intros. apply total_ret.
Qed.

Lemma total_codec {A} (c : codec A) P `{!CodecLaws c P} : total_reader (consensus_decode c).
Proof. apply decode_total. Qed.

#[export] Hint Resolve total_ret total_fail total_gets total_bind total_map_err total_read_slice
  total_times : reader.
#[export] Hint Extern 1 (total_reader (consensus_decode _)) => eapply total_codec : reader.
#[export] Hint Extern 1 (∀ _, total_reader _) => intros ? : reader.
#[export] Hint Extern 2 (total_reader (match ?x with _ => _ end)) => destruct x : reader.
#[export] Hint Extern 2 (total_reader (lift (ok_or ?x _))) => apply total_lift; by destruct x : reader.
