(* ===== verification/Peg.v ===== *)
(** * Pegin proofs and pegout records

    src/crates/botanix-authority-peg/src/peg_contract.rs: the proofs with which
    users claim their Bitcoin deposits ([PeginMetaV0], [PeginMetaV1]), their
    encodings, the validation of a claim against a Bitcoin checkpoint
    ([PeginData_validate]), and the encoding of pegouts; the conversions
    between satoshi and wei of utils.rs in the same crate; and the gateway
    script of src/bin/botanix-btc-server/src/wallet/address.rs.

    rust-bitcoin, secp256k1 and FROST are the parameters [PegLib], with what
    the proofs rely on as [PegLaws].  [U256] arithmetic panics on overflow in
    every build; the machine integers follow the [Profile]. *)

From S2P Require Import Prelude Bytes Bitcoin Concrete Codec.
From stdpp Require Import strings.

Open Scope Z_scope.

(** ** Bitcoin headers and the libraries *)

Record Header := mkHeader {
  h_version : Z;
  prev_blockhash : BlockHash;
  merkle_root : bytes;
  h_time : Z;
  h_bits : Z;
  h_nonce : Z }.

#[global] Instance Header_eq_dec : EqDecision Header.
Proof. solve_decision. Defined.

Class PegLib := {
  PublicKey : Type;
  PublicKey_eq_dec :: EqDecision PublicKey;
  (** [secp256k1::PublicKey::serialize] and [from_slice] *)
  pk_serialize : PublicKey → bytes;
  pk_from_slice : bytes → option PublicKey;
  (** [PartialMerkleTree] and [extract_matches]: the root and the matched ids *)
  PartialMerkleTree : Type;
  extract_matches : PartialMerkleTree → option (bytes * list Txid);
  (** [frost::VerifyingKey] with [serialize], [deserialize] and [tweak] *)
  VerifyingKey : Type;
  vk_deserialize : bytes → option VerifyingKey;
  vk_tweak : VerifyingKey → bytes → VerifyingKey;
  vk_serialize : VerifyingKey → option bytes;
  (** [ScriptBuf::new_p2tr_tweaked] on the x-only part of a key *)
  new_p2tr_tweaked : PublicKey → ScriptBuf;
  (** [Header::block_hash] and [Transaction::is_coinbase] *)
  block_hash : Header → BlockHash;
  is_coinbase : Transaction → bool;
  (** [Address<NetworkChecked>] as text, [Address::from_str] and [require_network] *)
  BtcAddress : Type;
  UncheckedAddress : Type;
  address_to_string : BtcAddress → bytes;
  address_from_str : bytes → option UncheckedAddress;
  require_network : UncheckedAddress → Network → option BtcAddress;
  (** [Network as u8] *)
  network_as_u8 : Network → Z;
  (** the consensus encodings *)
  u8_c : codec Z;
  u32_c : codec Z;
  u64_c : codec Z;
  varint_c : codec Z;
  array32_c : codec bytes;
  array33_c : codec bytes;
  header_c : codec Header;
  outpoint_c : codec OutPoint;
  merkle_c : codec PartialMerkleTree;
  tx_c : codec Transaction }.

Definition header_wf (h : Header) : Prop :=
  is_u32 (h_version h) ∧ is_array 32 (prev_blockhash h) ∧ is_array 32 (merkle_root h) ∧
  is_u32 (h_time h) ∧ is_u32 (h_bits h) ∧ is_u32 (h_nonce h).

(** What the code relies on: encodings round-trip, keys take 33 bytes and
    headers 80, and an address as text is UTF-8 that parses back. *)
Class PegLaws `{!PegLib} (tx_wf : Transaction → Prop) : Prop := {
  pk_length pk : length (pk_serialize pk) = 33%nat;
  pk_roundtrip pk : pk_from_slice (pk_serialize pk) = Some pk;
  u8_laws :: CodecLaws u8_c is_u8;
  u8_encode v : is_u8 v → consensus_encode u8_c v = [v];
  u32_laws :: CodecLaws u32_c is_u32;
  u32_length :: FixedLength u32_c is_u32 4;
  u64_laws :: CodecLaws u64_c is_u64;
  varint_laws :: CodecLaws varint_c is_u64;
  array32_laws :: CodecLaws array32_c (is_array 32);
  array32_encode b : is_array 32 b → consensus_encode array32_c b = b;
  array33_laws :: CodecLaws array33_c (is_array 33);
  array33_encode b : is_array 33 b → consensus_encode array33_c b = b;
  pk_bytes pk : Forall is_u8 (pk_serialize pk);
  header_laws :: CodecLaws header_c header_wf;
  header_length :: FixedLength header_c header_wf 80;
  outpoint_laws :: CodecLaws outpoint_c outpoint_wf;
  merkle_laws :: CodecLaws merkle_c (λ _, True);
  tx_laws :: CodecLaws tx_c tx_wf;
  tx_values tx : tx_wf tx → Forall (λ o, is_u64 (value o)) (output tx);
  network_u8 n : network_as_u8 n =
    match n with Mainnet => 0 | Testnet => 1 | Testnet4 => 2 | Signet => 3 | Regtest => 4 end }.

(** ** Satoshi and wei (utils.rs) *)

Abbreviation Wei := Z.

Definition u256_max : Z := 2 ^ 256 - 1.
Definition SATOSHI_IN_WEI : Wei := 10000000000.
Definition MAX_SATOSHI : Z := u64_max.

(** Products and sums of [U256] panic on overflow. *)
Definition u256_mul {E} (a b : Z) : outcome E Z := if a * b <=? u256_max then Ok (a * b) else Panic.
Definition u256_add {E} (a b : Z) : outcome E Z := if a + b <=? u256_max then Ok (a + b) else Panic.

Definition to_wei {E} (a : Amount) : outcome E Wei := u256_mul a SATOSHI_IN_WEI.

Definition from_wei_floor (wei : Wei) : option Amount :=
  let sat := wei / SATOSHI_IN_WEI in
  if sat <=? MAX_SATOSHI then Some (Z.land sat u64_max) else None.

Definition from_wei {E} (wei : Wei) : outcome E (option Amount) :=
  match from_wei_floor wei with
  | None => Ok None
  | Some ret => let? w := to_wei ret in Ok (if w =? wei then Some ret else None)
  end.

(** ** The gateway script (address.rs and [VerifyingKeyExt] of wallet/util.rs) *)

Section gateway.
Context `{!PegLib}.

Inductive VerifyingKeyExtError := FailedToConvertToSecpPk | VkFrostError | FailedToConvertToFrostPk.

Definition vk_to_secp_pk (vk : VerifyingKey) : outcome VerifyingKeyExtError PublicKey :=
  let? b := ok_or (vk_serialize vk) VkFrostError in
  ok_or (pk_from_slice b) FailedToConvertToSecpPk.

Definition vk_from_secp_pk (pk : PublicKey) : outcome VerifyingKeyExtError VerifyingKey :=
  ok_or (vk_deserialize (pk_serialize pk)) FailedToConvertToFrostPk.

Definition generate_tweaked_public_key (verifying_key : VerifyingKey) (eth_address : bytes)
    : outcome VerifyingKeyExtError PublicKey :=
  vk_to_secp_pk (vk_tweak verifying_key eth_address).

Definition generate_taproot_scriptpubkey (tweaked_public_key : PublicKey) : ScriptBuf :=
  new_p2tr_tweaked tweaked_public_key.

End gateway.

(** ** Pegin proofs *)

Definition PEGIN_META_VERSION_V0 : Z := 0.
Definition PEGIN_META_VERSION_V1 : Z := 1.
Definition BITCOIN_HEADER_SIZE : Z := 80.
Definition MAX_BITCOIN_BLOCK_HEADERS : Z := 2016.
Definition COINBASE_MATURITY : Z := 100.

Inductive PeginDataError :=
| InvalidFormat (e : EncodeError)
| PeginInvalid (msg : string)
| InvalidPublicKey
| InvalidBitcoinBlockHeight
| InvalidTweak
| FrostError
| InvalidLength (claimed : Z) (remaining_bytes : Z)
| InvalidMerkleBlock
| TooManyBlockHeaders (n : Z).

Section pegin.
Context `{!PegLib}.

Record PeginMetaV0 := mkPeginMetaV0 {
  m_version : Z;
  m_merkle_proof : PartialMerkleTree;
  m_outpoint : OutPoint;
  m_address : bytes;
  m_aggregate_publickey : PublicKey;
  m_block_headers : list Header;
  m_tx : Transaction }.

Record PeginMetaV1 := mkPeginMetaV1 { m_inner : PeginMetaV0; m_ref_block_hash : bytes }.

Inductive PeginMeta := MetaV0 (meta : PeginMetaV0) | MetaV1 (meta : PeginMetaV1).

Definition PeginMetaV0_serialize (m : PeginMetaV0) : bytes :=
  consensus_encode u32_c (m_version m) ++
  consensus_encode outpoint_c (m_outpoint m) ++
  m_address m ++
  pk_serialize (m_aggregate_publickey m) ++
  consensus_encode varint_c (Z.of_nat (length (m_block_headers m))) ++
  concat (map (consensus_encode header_c) (m_block_headers m)) ++
  consensus_encode merkle_c (m_merkle_proof m) ++
  consensus_encode tx_c (m_tx m).

(** [?] on a decoder, and on [read_slice] *)
Definition decode {A} (c : codec A) : Reader PeginDataError A :=
  map_errM InvalidFormat (consensus_decode c).
Definition read_array (n : nat) : Reader PeginDataError bytes :=
  map_errM (λ _, InvalidFormat EncIo) (read_slice n).

Definition read_publickey : Reader PeginDataError PublicKey :=
  let! pk_bytes := read_array 33 in
  lift (ok_or (pk_from_slice pk_bytes) InvalidPublicKey).

Definition read_block_headers : Reader PeginDataError (list Header) :=
  let! len := decode varint_c in
  if MAX_BITCOIN_BLOCK_HEADERS <? len then fail (TooManyBlockHeaders len) else
  let! remaining_bytes := remaining_len in
  if remaining_bytes / BITCOIN_HEADER_SIZE <? len then fail (InvalidLength len remaining_bytes) else
  decode_times (Z.to_nat len) (decode header_c).

(** The fields in the order of the struct expression. *)
Definition read_meta_v0 : Reader PeginDataError PeginMetaV0 :=
  let! version := decode u32_c in
  let! outpoint := decode outpoint_c in
  let! address := read_array 20 in
  let! aggregate_publickey := read_publickey in
  let! block_headers := read_block_headers in
  let! merkle_proof := decode merkle_c in
  let! tx := decode tx_c in
  ret (mkPeginMetaV0 version merkle_proof outpoint address aggregate_publickey block_headers tx).

(** A decoder on a slice also returns how many bytes it consumed. *)
Definition with_size {A} (m : Reader PeginDataError A) (b : bytes) : outcome PeginDataError (A * Z) :=
  match m b with
  | (rest, Ok a) => Ok (a, Z.of_nat (length b) - Z.of_nat (length rest))
  | (_, Err e) => Err e
  | (_, Panic) => Panic
  end.

Definition PeginMetaV0_deserialize (b : bytes) : outcome PeginDataError (PeginMetaV0 * Z) :=
  with_size read_meta_v0 b.

Definition PeginMetaV1_serialize (m : PeginMetaV1) : bytes :=
  PeginMetaV0_serialize (m_inner m) ++ consensus_encode array32_c (m_ref_block_hash m).

Definition PeginMetaV1_deserialize (b : bytes) : outcome PeginDataError (PeginMetaV1 * Z) :=
  let? '(inner, inner_size) := PeginMetaV0_deserialize b in
  match read_array 32 (drop (Z.to_nat inner_size) b) with
  | (rest, Ok hash) => Ok (mkPeginMetaV1 inner hash, Z.of_nat (length b) - Z.of_nat (length rest))
  | (_, Err e) => Err e
  | (_, Panic) => Panic
  end.

Definition PeginMeta_serialize (m : PeginMeta) : bytes :=
  match m with
  | MetaV0 meta => PeginMetaV0_serialize meta
  | MetaV1 meta => PeginMetaV1_serialize meta
  end.

Definition PeginMeta_deserialize (b : bytes) : outcome PeginDataError (PeginMeta * Z) :=
  let? version := (decode u32_c b).2 in
  if version =? PEGIN_META_VERSION_V0 then
    let? '(meta, size) := PeginMetaV0_deserialize b in Ok (MetaV0 meta, size)
  else if version =? PEGIN_META_VERSION_V1 then
    let? '(meta, size) := PeginMetaV1_deserialize b in Ok (MetaV1 meta, size)
  else Err (PeginInvalid "Invalid pegin meta version").

(** The accessors of [PeginMeta]. *)
Definition meta_inner (m : PeginMeta) : PeginMetaV0 :=
  match m with MetaV0 meta => meta | MetaV1 meta => m_inner meta end.

Definition meta_version (m : PeginMeta) : Z := m_version (meta_inner m).
Definition meta_outpoint (m : PeginMeta) : OutPoint := m_outpoint (meta_inner m).
Definition meta_tx (m : PeginMeta) : Transaction := m_tx (meta_inner m).
Definition meta_block_headers (m : PeginMeta) : list Header := m_block_headers (meta_inner m).
Definition meta_merkle_proof (m : PeginMeta) : PartialMerkleTree := m_merkle_proof (meta_inner m).
Definition meta_address (m : PeginMeta) : bytes := m_address (meta_inner m).
Definition meta_aggregate_publickey (m : PeginMeta) : PublicKey := m_aggregate_publickey (meta_inner m).
Definition meta_ref_block_hash (m : PeginMeta) : option bytes :=
  match m with MetaV0 _ => None | MetaV1 meta => Some (m_ref_block_hash meta) end.

(** [txout], which expects the output to exist. *)
Definition txout {E} (m : PeginMetaV0) : outcome E TxOut :=
  expect (output (m_tx m) !! Z.to_nat (op_vout (m_outpoint m))).
Definition meta_txout {E} (m : PeginMeta) : outcome E TxOut := txout (meta_inner m).

(** *** Validation *)

Section validate.
Context `{!BitcoinLib, !Profile}.

(** The peekable loop over the headers. *)
Fixpoint headers_linked (l : list Header) : bool :=
  match l with
  | header :: ((next :: _) as rest) =>
      bool_decide (prev_blockhash next = block_hash header) && headers_linked rest
  | _ => true
  end.

Fixpoint skip_while {A} (f : A → bool) (l : list A) : list A :=
  match l with
  | [] => []
  | x :: l' => if f x then skip_while f l' else l
  end.

Definition require {E} (b : bool) (e : E) : outcome E unit := if b then Ok tt else Err e.

(** One proof of a claim for [account]; returns the new aggregate value. *)
Definition validate_proof (account : bytes) (bitcoin_block_height : Z)
    (bitcoin_commitment : Header * Z) (aggregate_pk : PublicKey) (aggregate_value : Wei)
    (meta : PeginMeta) : outcome PeginDataError Wei :=
  let commit_hash := block_hash bitcoin_commitment.1 in
  require (contains [PEGIN_META_VERSION_V0; PEGIN_META_VERSION_V1] (meta_version meta))
    (PeginInvalid "invalid meta version: only accepting version 0 or 1") ;?
  let pegin := meta_inner meta in
  require (existsb (λ h, bool_decide (block_hash h = commit_hash)) (m_block_headers pegin))
    (PeginInvalid "recent block hash mismatch") ;?
  let? '(root, txids) := ok_or (extract_matches (m_merkle_proof pegin)) InvalidMerkleBlock in
  require (contains txids (op_txid (m_outpoint pegin)))
    (PeginInvalid "invalid merkle proof: inclusion") ;?
  let? first := expect (m_block_headers pegin !! 0%nat) in
  require (bool_decide (merkle_root first = root))
    (PeginInvalid "merkle proof and block header mismatch") ;?
  require (bool_decide (compute_txid (m_tx pegin) = op_txid (m_outpoint pegin)))
    (PeginInvalid "invalid tx or outpoint: txid") ;?
  require (negb (Z.of_nat (length (output (m_tx pegin))) <? op_vout (m_outpoint pegin)))
    (PeginInvalid "invalid tx or outpoint: output idx") ;?
  let? vk := ok_or (vk_deserialize (pk_serialize aggregate_pk)) FrostError in
  let? tpk := map_err (λ _, InvalidTweak) (generate_tweaked_public_key vk account) in
  let gateway_script := generate_taproot_scriptpubkey tpk in
  let? out := expect (output (m_tx pegin) !! Z.to_nat (op_vout (m_outpoint pegin))) in
  require (bool_decide (gateway_script = script_pubkey out)) (PeginInvalid "invalid script pubkey") ;?
  let? output_value := to_wei (value out) in
  let? aggregate_value := u256_add aggregate_value output_value in
  require (headers_linked (m_block_headers pegin)) (PeginInvalid "invalid block header sequence") ;?
  let? diff := usub 64 (Z.of_nat (length (skip_while (λ h, negb (bool_decide (block_hash h = commit_hash)))
                                          (reverse (m_block_headers pegin))))) 1 in
  let? height := usub 32 bitcoin_commitment.2 (diff mod 2 ^ 32) in
  require (height =? bitcoin_block_height) InvalidBitcoinBlockHeight ;?
  require (negb (is_coinbase (m_tx pegin) && (diff mod 2 ^ 32 <? COINBASE_MATURITY)))
    (PeginInvalid "spending non-mature coinbase") ;?
  Ok aggregate_value.

Record PeginData := mkPeginData {
  account : bytes;
  amount : Wei;
  bitcoin_block_height : Z;
  meta : list PeginMeta }.

(** [PeginData::validate] *)
Definition PeginData_validate (d : PeginData) (bitcoin_commitment : Header * Z)
    (aggregate_pk : PublicKey) : outcome PeginDataError Wei :=
  ofold (validate_proof (account d) (bitcoin_block_height d) bitcoin_commitment aggregate_pk)
    0 (meta d).

End validate.

End pegin.

(** ** Pegouts *)

Inductive PegoutDataError :=
| PegoutInvalid (msg : string) (eth_amount : Z)
| InvalidVersion (e : EncodeError)
| WrongVersion (version : Z)
| InvalidAmount
| InvalidAddressLength
| InsufficientBytesForAddress
| InvalidAddressUtf8
| InvalidAddressFormat
| InvalidNetworkByte
| UnknownNetwork
| AddressNotValidForNetwork
| InsufficientBytesForPegoutId
| InvalidPegoutId.

(** [str::from_utf8] accepts these byte strings. *)
Definition cont (b : Z) : bool := (128 <=? b) && (b <=? 191).

Fixpoint utf8_valid (b : bytes) : bool :=
  match b with
  | [] => true
  | x :: b1 =>
      if x <=? 127 then utf8_valid b1 else
      match b1 with
      | [] => false
      | y :: b2 =>
          if (194 <=? x) && (x <=? 223) then cont y && utf8_valid b2 else
          match b2 with
          | [] => false
          | z :: b3 =>
              if (224 <=? x) && (x <=? 239) then
                cont y && negb ((x =? 224) && (y <? 160)) && negb ((x =? 237) && (159 <? y)) &&
                cont z && utf8_valid b3
              else match b3 with
                   | [] => false
                   | w :: b4 =>
                       (240 <=? x) && (x <=? 244) && cont y && negb ((x =? 240) && (y <? 144)) &&
                       negb ((x =? 244) && (143 <? y)) && cont z && cont w && utf8_valid b4
                   end
          end
      end
  end.

Section pegout.
Context `{!PegLib}.

Record PegoutData := mkPegoutData {
  po_amount : Amount;
  po_destination : BtcAddress;
  po_network : Network }.

Record PegoutWithId := mkPegoutWithId { po_data : PegoutData; po_id : PegoutId }.

(** [PegoutData::version] *)
Definition PegoutData_version : Z := 0.

Definition PegoutData_new (amount : Amount) (eth_amount : Z) (address : bytes) (btc_network : Network)
    : outcome PegoutDataError PegoutData :=
  let? destination := ok_or (address_from_str address) (PegoutInvalid "Invalid Bitcoin Address" eth_amount) in
  let? checked := ok_or (require_network destination btc_network)
                    (PegoutInvalid "Address not valid for network" eth_amount) in
  Ok (mkPegoutData amount checked btc_network).

Definition PegoutWithId_serialize (p : PegoutWithId) : bytes :=
  let addr_bytes := address_to_string (po_destination (po_data p)) in
  PegoutData_version ::
  consensus_encode u64_c (po_amount (po_data p)) ++
  consensus_encode varint_c (Z.of_nat (length addr_bytes)) ++
  addr_bytes ++
  network_as_u8 (po_network (po_data p)) ::
  as_bytes (po_id p).

Definition isize_max : Z := 2 ^ 63 - 1.

Definition network_of_u8 (b : Z) : option Network :=
  match b with
  | 0 => Some Mainnet
  | 1 => Some Testnet
  | 2 => Some Testnet4
  | 3 => Some Signet
  | 4 => Some Regtest
  | _ => None
  end.

Definition read_destination : Reader PegoutDataError UncheckedAddress :=
  let! addr_len := map_errM InvalidVersion (consensus_decode varint_c) in
  (* [vec![0u8; addr_len]] *)
  (if isize_max <? addr_len then panic else ret tt) ;!
  let! addr_bytes := map_errM (λ _, InsufficientBytesForAddress) (read_slice (Z.to_nat addr_len)) in
  (if utf8_valid addr_bytes then ret tt else fail InvalidAddressUtf8) ;!
  lift (ok_or (address_from_str addr_bytes) InvalidAddressFormat).

Definition read_pegout_with_id : Reader PegoutDataError PegoutWithId :=
  let! version := map_errM InvalidVersion (consensus_decode u8_c) in
  if negb (version =? PegoutData_version) then fail (WrongVersion version) else
  let! amount := map_errM (λ e, match e with EncIo => InvalidAmount | EncOther => InvalidVersion EncOther end)
                   (consensus_decode u64_c) in
  let! unchecked_addr := read_destination in
  let! network_byte := map_errM InvalidVersion (consensus_decode u8_c) in
  let! network := lift (ok_or (network_of_u8 network_byte) UnknownNetwork) in
  let! destination := lift (ok_or (require_network unchecked_addr network) AddressNotValidForNetwork) in
  let! id_bytes := map_errM (λ _, InsufficientBytesForPegoutId) (read_slice 36) in
  let! id := lift (map_err (λ _, InvalidPegoutId) (PegoutId_from_bytes id_bytes)) in
  ret (mkPegoutWithId (mkPegoutData amount destination network) id).

Definition PegoutWithId_deserialize (b : bytes) : outcome PegoutDataError PegoutWithId :=
  (read_pegout_with_id b).2.

End pegout.

(** ** Satoshi and wei *)

Lemma to_wei_Ok {E} a : is_u64 a → to_wei (E:=E) a = Ok (a * SATOSHI_IN_WEI).
Proof.
  unfold is_u64, to_wei, u256_mul. intros Ha.
  assert (a * SATOSHI_IN_WEI ≤ u256_max) by (unfold u256_max, SATOSHI_IN_WEI, u64_max in *; lia).
  by rewrite (proj2 (Z.leb_le _ _)).
Qed.

Lemma from_wei_floor_Some w a :
  0 ≤ w → from_wei_floor w = Some a ↔ is_u64 a ∧ a * SATOSHI_IN_WEI ≤ w < (a + 1) * SATOSHI_IN_WEI.
Proof.
  intros Hw. unfold from_wei_floor, is_u64, MAX_SATOSHI.
  pose proof (Z.div_mod w SATOSHI_IN_WEI ltac:(done)) as Hdiv.
  pose proof (Z.mod_pos_bound w SATOSHI_IN_WEI ltac:(done)) as Hmod.
  pose proof (Z.div_pos w SATOSHI_IN_WEI Hw ltac:(done)) as Hpos.
  unfold SATOSHI_IN_WEI in *.
  destruct (Z.leb_spec (w / 10000000000) u64_max) as [Hle|Hgt].
  - change u64_max with (Z.ones 64). rewrite Z.land_ones by lia.
    rewrite Z.mod_small by (unfold u64_max in Hle; lia).
    change (Z.ones 64) with u64_max. split.
    + intros [= <-]. lia.
    + intros [? ?]. f_equal. nia.
  - split; [done|]. intros [? ?]. nia.
Qed.

(** Amounts survive the conversion to wei, the floor conversion keeps the
    whole satoshis, and the exact conversion accepts exactly the multiples of
    a satoshi that fit an amount; none of them panics. *)
Theorem wei_conversions {E} :
  (∀ a, is_u64 a → ∃ w, to_wei (E:=E) a = Ok w ∧ from_wei_floor w = Some a ∧ from_wei (E:=E) w = Ok (Some a)) ∧
  (∀ w a, 0 ≤ w → from_wei_floor w = Some a ↔
    is_u64 a ∧ a * SATOSHI_IN_WEI ≤ w < (a + 1) * SATOSHI_IN_WEI) ∧
  (∀ w, 0 ≤ w → ∃ o, from_wei (E:=E) w = Ok o ∧
    ∀ a, o = Some a ↔ is_u64 a ∧ w = a * SATOSHI_IN_WEI).
Proof.
  assert (∀ w, 0 ≤ w → ∃ o, from_wei (E:=E) w = Ok o ∧
    ∀ a, o = Some a ↔ is_u64 a ∧ w = a * SATOSHI_IN_WEI) as Hexact.
  { intros w Hw. unfold from_wei. pose proof (from_wei_floor_Some w) as Hf.
    destruct (from_wei_floor w) as [s|] eqn:Es.
    - destruct (proj1 (Hf s Hw) eq_refl) as [Hs Hb]. rewrite to_wei_Ok by done. cbn [obind].
      destruct (Z.eqb_spec (s * SATOSHI_IN_WEI) w) as [<-|Hne]; eexists; (split; [done|]); intros a.
      + split; [by intros [= <-]|]. intros [_ Ha]. f_equal. unfold SATOSHI_IN_WEI in Ha. lia.
      + split; [done|]. intros [Ha ->]. destruct Hne. f_equal. unfold SATOSHI_IN_WEI in *. lia.
    - exists None. split; [done|]. intros a. split; [done|]. intros [Ha ->].
      assert (None = Some a) by (apply Hf; [done|]; split; [done|]; unfold SATOSHI_IN_WEI; lia). done. }
  split; [|split; [intros; by apply from_wei_floor_Some|exact Hexact]].
  intros a Ha. exists (a * SATOSHI_IN_WEI). split; [by apply to_wei_Ok|].
  assert (0 ≤ a * SATOSHI_IN_WEI) as Hpos by (unfold is_u64, SATOSHI_IN_WEI in *; lia). split.
  - apply from_wei_floor_Some; [done|]. unfold SATOSHI_IN_WEI in *. split; [done|lia].
  - destruct (Hexact _ Hpos) as (o & -> & Ho). f_equal. by apply Ho.
Qed.

(** ** Pegin proofs round-trip *)

Section pegin_codec.
Context `{!PegLib} (tx_wf : Transaction → Prop) `{!PegLaws tx_wf}.

Lemma parses_decode {A} (c : codec A) P `{!CodecLaws c P} a :
  P a → parses (decode c) (consensus_encode c a) a.
Proof. intros. by apply parses_map_err, decode_encode. Qed.

Lemma advances_decode {A} (c : codec A) P `{!CodecLaws c P} : advances (decode c).
Proof. apply advances_map_err, decode_advances. Qed.

Lemma suffixes_decode {A} (c : codec A) P `{!CodecLaws c P} : suffixes (decode c).
Proof. by eapply advances_suffixes, advances_decode. Qed.

Lemma total_decode {A} (c : codec A) P `{!CodecLaws c P} : total_reader (decode c).
Proof. apply total_map_err, decode_total. Qed.

Lemma parses_array n u : length u = n → parses (read_array n) u u.
Proof. intros. by apply parses_map_err, parses_read_slice. Qed.

Lemma parses_publickey pk : parses read_publickey (pk_serialize pk) pk.
Proof.
  unfold read_publickey. rewrite <-(app_nil_r (pk_serialize pk)).
  eapply parses_bind; [by apply parses_array, pk_length|]. apply parses_lift. by rewrite pk_roundtrip.
Qed.

Lemma headers_length l :
  Forall header_wf l → length (concat (map (consensus_encode header_c) l)) = (80 * length l)%nat.
Proof.
  induction 1 as [|h l Hh Hl IH]; simpl; [done|]. rewrite length_app, IH, fixed_length by done. lia.
Qed.

Lemma parses_block_headers l :
  Z.of_nat (length l) ≤ MAX_BITCOIN_BLOCK_HEADERS → Forall header_wf l →
  parses read_block_headers
    (consensus_encode varint_c (Z.of_nat (length l)) ++ concat (map (consensus_encode header_c) l)) l.
Proof.
  intros Hn Hl. unfold read_block_headers.
  eapply parses_bind; [apply (parses_decode varint_c is_u64)|].
  { unfold is_u64, u64_max, MAX_BITCOIN_BLOCK_HEADERS in *. lia. }
  rewrite (proj2 (Z.ltb_ge _ _)) by done. intros rest.
  unfold bindM at 1, remaining_len, gets. rewrite length_app, headers_length by done.
  rewrite (proj2 (Z.ltb_ge _ _)).
  - rewrite Nat2Z.id. apply (parses_times (decode header_c) (consensus_encode header_c)).
    eapply Forall_impl; [exact Hl|]. intros h. apply (parses_decode header_c header_wf).
  - unfold BITCOIN_HEADER_SIZE. apply Z.div_le_lower_bound; lia.
Qed.

(** A decoded proof is bounded. *)
Lemma read_block_headers_bounded :
  yields read_block_headers (λ l, Z.of_nat (length l) ≤ MAX_BITCOIN_BLOCK_HEADERS).
Proof.
  unfold read_block_headers. eapply yields_bind; [exact (yields_map_err _ _ _ (yields_codec varint_c is_u64))|].
  intros len [Hlen _]. destruct (Z.ltb_spec MAX_BITCOIN_BLOCK_HEADERS len); [apply yields_fail|].
  eapply yields_bind; [apply yields_any|]. intros r _. destruct (r / BITCOIN_HEADER_SIZE <? len); [apply yields_fail|].
  intros s s' l Hl. apply yields_times in Hl. rewrite Hl. lia.
Qed.

(** What validation assumes of a proof. *)
Definition meta_v0_bounded (m : PeginMetaV0) : Prop :=
  Z.of_nat (length (m_block_headers m)) ≤ MAX_BITCOIN_BLOCK_HEADERS ∧
  Forall (λ o, is_u64 (value o)) (output (m_tx m)) ∧ 0 ≤ op_vout (m_outpoint m).

Definition meta_bounded (m : PeginMeta) : Prop := meta_v0_bounded (meta_inner m).

Lemma read_meta_v0_bounded : yields read_meta_v0 meta_v0_bounded.
Proof.
  unfold read_meta_v0. eapply yields_bind; [apply yields_any|]. intros version _.
  eapply yields_bind; [exact (yields_map_err _ _ _ (yields_codec outpoint_c outpoint_wf))|]. intros o [_ [Ho _]].
  eapply yields_bind; [apply yields_any|]. intros a _. eapply yields_bind; [apply yields_any|]. intros pk _.
  eapply yields_bind; [apply read_block_headers_bounded|]. intros hs Hhs.
  eapply yields_bind; [apply yields_any|]. intros mp _.
  eapply yields_bind; [exact (yields_map_err _ _ _ (yields_codec tx_c tx_wf))|]. intros tx Htx%tx_values.
  by apply yields_ret.
Qed.

Lemma with_size_yields {A} (m : Reader PeginDataError A) b a n P :
  yields m P → with_size m b = Ok (a, n) → P a.
Proof.
  intros Hm. unfold with_size. destruct (m b) as [rest [a'|e|]] eqn:E; [|done..]. intros [= -> _].
  by eapply Hm.
Qed.

Lemma pegin_meta_bounded b m n : PeginMeta_deserialize b = Ok (m, n) → meta_bounded m.
Proof.
  unfold PeginMeta_deserialize. destruct (decode u32_c b).2 as [v|e|]; [|done..]. cbn [obind].
  destruct (v =? PEGIN_META_VERSION_V0); [|destruct (v =? PEGIN_META_VERSION_V1); [|done]].
  - intros ([m0 n0] & Hi & [= <- _])%obind_Ok. exact (with_size_yields _ _ _ _ _ read_meta_v0_bounded Hi).
  - intros ([m1 n1] & Hd & [= <- _])%obind_Ok. apply obind_Ok in Hd as ([m0 n0] & Hi & Hd).
    apply (with_size_yields _ _ _ _ _ read_meta_v0_bounded) in Hi.
    destruct (read_array 32 _) as [rest [h|e|]]; [|done..]. by injection Hd as <- _.
Qed.

(** A proof as it can be encoded. *)
Record meta_v0_wf (m : PeginMetaV0) : Prop := {
  wf_version : is_u32 (m_version m);
  wf_outpoint : outpoint_wf (m_outpoint m);
  wf_address : is_array 20 (m_address m);
  wf_header_count : Z.of_nat (length (m_block_headers m)) ≤ MAX_BITCOIN_BLOCK_HEADERS;
  wf_headers : Forall header_wf (m_block_headers m);
  wf_tx : tx_wf (m_tx m) }.

Definition meta_wf (m : PeginMeta) : Prop :=
  meta_v0_wf (meta_inner m) ∧
  match m with
  | MetaV0 meta => m_version meta = PEGIN_META_VERSION_V0
  | MetaV1 meta => m_version (m_inner meta) = PEGIN_META_VERSION_V1 ∧ is_array 32 (m_ref_block_hash meta)
  end.

Lemma parses_meta_v0 m : meta_v0_wf m → parses read_meta_v0 (PeginMetaV0_serialize m) m.
Proof.
  intros []. unfold read_meta_v0, PeginMetaV0_serialize.
  eapply parses_bind; [by apply (parses_decode u32_c is_u32)|].
  eapply parses_bind; [by apply (parses_decode outpoint_c outpoint_wf)|].
  eapply parses_bind; [by apply parses_array, wf_address0|].
  eapply parses_bind; [apply parses_publickey|]. rewrite app_assoc.
  eapply parses_bind; [by apply parses_block_headers|].
  eapply parses_bind; [by apply (parses_decode merkle_c (λ _, True))|].
  rewrite <-(app_nil_r (consensus_encode tx_c _)).
  eapply parses_bind; [by apply (parses_decode tx_c tx_wf)|]. destruct m. apply parses_ret.
Qed.

Lemma with_size_parses {A} (m : Reader PeginDataError A) u a rest :
  parses m u a → with_size m (u ++ rest) = Ok (a, Z.of_nat (length u)).
Proof. intros Hm. unfold with_size. rewrite Hm, length_app. do 2 f_equal. lia. Qed.

Lemma version_of_meta m rest :
  meta_v0_wf m → (decode u32_c (PeginMetaV0_serialize m ++ rest)).2 = Ok (m_version m).
Proof.
  intros []. unfold PeginMetaV0_serialize. rewrite <-app_assoc.
  by rewrite (parses_decode u32_c is_u32).
Qed.

Lemma deserialize_serialize_meta m rest :
  meta_wf m →
  PeginMeta_deserialize (PeginMeta_serialize m ++ rest) =
    Ok (m, Z.of_nat (length (PeginMeta_serialize m))).
Proof.
  intros [Hm Hv]. unfold PeginMeta_deserialize. destruct m as [m|[m h]]; cbn [meta_inner m_inner] in *.
  - cbn [PeginMeta_serialize]. rewrite version_of_meta by done. cbn [obind]. rewrite Hv.
    change (PEGIN_META_VERSION_V0 =? PEGIN_META_VERSION_V0) with true. cbv iota.
    unfold PeginMetaV0_deserialize. by rewrite (with_size_parses _ _ m) by (by apply parses_meta_v0).
  - destruct Hv as [Hv Hh]. pose proof (proj1 Hh) as Hlen. cbn [PeginMeta_serialize]. unfold PeginMetaV1_serialize. cbn [m_inner m_ref_block_hash] in *.
    rewrite <-app_assoc, version_of_meta by done. cbn [obind]. rewrite Hv.
    change (PEGIN_META_VERSION_V1 =? PEGIN_META_VERSION_V0) with false.
    change (PEGIN_META_VERSION_V1 =? PEGIN_META_VERSION_V1) with true. cbv iota.
    unfold PeginMetaV1_deserialize, PeginMetaV0_deserialize.
    rewrite (with_size_parses _ _ m) by (by apply parses_meta_v0). cbn [obind].
    rewrite Nat2Z.id, drop_app_length, array32_encode by done.
    rewrite (parses_array 32 h) by done. rewrite !length_app, Hlen. cbn [obind]. do 2 f_equal. lia.
Qed.

(** Pegin proofs round-trip: a proof whose version is the one of its variant,
    with at most 2,016 headers, is decoded from its encoding, which may be
    followed by further proofs, and the returned size is the length of the
    encoding. *)
Theorem pegin_meta_roundtrip m rest :
  meta_wf m →
  PeginMeta_deserialize (PeginMeta_serialize m ++ rest) =
    Ok (m, Z.of_nat (length (PeginMeta_serialize m))).
Proof. apply deserialize_serialize_meta. Qed.

Lemma read_meta_v0_advances : advances read_meta_v0.
Proof.
  unfold read_meta_v0, read_publickey, read_block_headers, read_array.
  apply advances_bind; [exact (advances_decode _ _)|]. intros version.
  repeat first [apply suffixes_bind; [|intros ?] | exact (suffixes_decode _ _)];
    eauto 10 with reader.
Qed.

Lemma read_meta_v0_total : total_reader read_meta_v0.
Proof.
  unfold read_meta_v0, read_publickey, read_block_headers, read_array.
  repeat first [apply total_bind; [|intros ?] | exact (total_decode _ _)]; eauto 10 with reader.
Qed.
End pegin_codec.

Section pegin_progress.
Context `{!PegLib} (tx_wf : Transaction → Prop) `{!PegLaws tx_wf}.

Lemma with_size_progress {A} (m : Reader PeginDataError A) b a n :
  advances m → with_size m b = Ok (a, n) → 0 < n ≤ Z.of_nat (length b).
Proof.
  intros Hm. unfold with_size. destruct (m b) as [rest [a'|e|]] eqn:E; [|done..]. intros [= -> <-].
  apply Hm in E as (u & Hu & ->). rewrite length_app. destruct u; [done|]. simpl. lia.
Qed.

Lemma read_array_suffix n s s' u : read_array n s = (s', Ok u) → (length s' ≤ length s)%nat.
Proof.
  intros Hr. apply (suffixes_map_err _ _ (suffixes_read_slice n)) in Hr as [v ->]. rewrite length_app. lia.
Qed.

Lemma with_size_total {A} (m : Reader PeginDataError A) b : total_reader m → with_size m b ≠ Panic.
Proof. intros Hm. unfold with_size. specialize (Hm b). by destruct (m b) as [? [?|?|]]. Qed.

(** Decoding a proof makes progress and never panics, so a list of proofs is
    decoded in at most as many steps as it has bytes. *)
Lemma pegin_meta_progress b m n : PeginMeta_deserialize b = Ok (m, n) → 0 < n ≤ Z.of_nat (length b).
Proof.
  unfold PeginMeta_deserialize. destruct (decode u32_c b).2 as [v|e|]; [|done..]. cbn [obind].
  pose proof (read_meta_v0_advances tx_wf) as Ha.
  destruct (v =? PEGIN_META_VERSION_V0).
  - intros Hd. ores Hd. destruct a as [m0 n0]. simplify_eq. by eapply with_size_progress.
  - destruct (v =? PEGIN_META_VERSION_V1); [|done]. unfold PeginMetaV1_deserialize. intros Hd.
    apply obind_Ok in Hd as ([m1 n1] & Hd & [= <- <-]). apply obind_Ok in Hd as ([m0 n0] & Hi & Hd).
    apply (with_size_progress _ _ _ _ Ha) in Hi.
    destruct (read_array 32 _) as [rest [h|e|]] eqn:E; [|done..]. simplify_eq.
    apply read_array_suffix in E. rewrite length_drop in E. lia.
Qed.

Lemma pegin_meta_total b : PeginMeta_deserialize b ≠ Panic.
Proof.
  unfold PeginMeta_deserialize.
  pose proof (total_decode u32_c is_u32 b) as Hv. destruct (decode u32_c b).2 as [v|e|]; [|done..]. cbn [obind].
  pose proof (with_size_total read_meta_v0 b (read_meta_v0_total tx_wf)) as Ht.
  destruct (v =? PEGIN_META_VERSION_V0).
  - unfold PeginMetaV0_deserialize. by destruct (with_size read_meta_v0 b) as [[]| |].
  - destruct (v =? PEGIN_META_VERSION_V1); [|done]. unfold PeginMetaV1_deserialize, PeginMetaV0_deserialize.
    destruct (with_size read_meta_v0 b) as [[m n]| |]; [|done..]. cbn [obind].
    pose proof (total_map_err (λ _, InvalidFormat EncIo) _ (total_read_slice 32) (drop (Z.to_nat n) b)) as Hr.
    unfold read_array. by destruct (map_errM _ _ _) as [rest [h|e|]].
Qed.
End pegin_progress.

(** ** Validation *)

Lemma require_Ok {E A} b (e : E) (k : unit → outcome E A) a :
  obind (require b e) k = Ok a ↔ b = true ∧ k tt = Ok a.
Proof. destruct b; simpl; naive_solver. Qed.

Lemma ok_or_bind {E A B} (o : option A) (e : E) (k : A → outcome E B) b :
  obind (ok_or o e) k = Ok b ↔ ∃ a, o = Some a ∧ k a = Ok b.
Proof. destruct o; simpl; naive_solver. Qed.

Lemma expect_bind {E A B} (o : option A) (k : A → outcome E B) b :
  obind (expect o) k = Ok b ↔ ∃ a, o = Some a ∧ k a = Ok b.
Proof. destruct o; simpl; naive_solver. Qed.

(** The last element of [l] that satisfies [f] is at position [i]. *)
Definition last_match {A} (f : A → bool) (l : list A) (i : nat) : Prop :=
  (∃ x, l !! i = Some x ∧ f x = true) ∧ ∀ j y, (i < j)%nat → l !! j = Some y → f y = false.

Lemma skip_while_last {A} (f : A → bool) (l : list A) i :
  last_match f l i → length (skip_while (λ x, negb (f x)) (reverse l)) = S i.
Proof.
  induction l as [|x l IH] using rev_ind; intros [(y & Hy & Hf) Hlast]; [done|].
  rewrite reverse_snoc. simpl. destruct (f x) eqn:Ex; cbn [negb].
  - simpl. rewrite length_reverse. apply lookup_snoc_Some in Hy as [[Hlt Hy]|[-> ->]]; [|done].
    specialize (Hlast (length l) x Hlt ltac:(rewrite lookup_snoc_Some; auto)). congruence.
  - apply IH. apply lookup_snoc_Some in Hy as [[Hlt Hy]|[-> ->]]; [|congruence]. split; [eauto|].
    intros j z Hj Hz. apply (Hlast j z Hj). apply lookup_snoc_Some. left. split; [|done].
    by apply lookup_lt_Some in Hz.
Qed.

Lemma last_match_exists {A} (f : A → bool) (l : list A) :
  existsb f l = true → ∃ i, last_match f l i.
Proof.
  induction l as [|x l IH] using rev_ind; [done|]. rewrite existsb_app. simpl. rewrite orb_false_r.
  destruct (f x) eqn:Ex.
  - intros _. exists (length l). split; [exists x; by rewrite lookup_snoc_Some; auto|].
    intros j y Hj Hy%lookup_lt_Some. rewrite length_app in Hy. simpl in Hy. lia.
  - rewrite orb_false_r. intros [i [Hi Hlast]]%IH. exists i. split.
    + destruct Hi as (y & Hy & Hf). exists y. rewrite lookup_app_l by (by eapply lookup_lt_Some). done.
    + intros j y Hj [[_ Hy]|[-> ->]]%lookup_snoc_Some; [by eapply Hlast|done].
Qed.

Lemma last_match_existsb {A} (f : A → bool) (l : list A) i : last_match f l i → existsb f l = true.
Proof.
  intros [(x & Hx & Hf) _]. apply existsb_exists. exists x. split; [|done].
  apply list_elem_of_In. by eapply list_elem_of_lookup_2.
Qed.

(** The headers form a chain: each one names its predecessor. *)
Definition chain `{!PegLib} (l : list Header) : Prop :=
  ∀ i h h', l !! i = Some h → l !! S i = Some h' → prev_blockhash h' = block_hash h.

Lemma headers_linked_chain `{!PegLib} l : headers_linked l = true ↔ chain l.
Proof.
  induction l as [|h [|h' l] IH].
  - split; [|done]. by intros _ [|i].
  - split; [|done]. by intros _ [|i].
  - change (headers_linked (h :: h' :: l)) with
      (bool_decide (prev_blockhash h' = block_hash h) && headers_linked (h' :: l)).
    rewrite andb_true_iff, bool_decide_eq_true, IH. split.
    + intros [Heq Hc] [|i]; simpl; [naive_solver|]. apply (Hc i).
    + intros Hc. split; [by apply (Hc 0%nat)|]. intros i. apply (Hc (S i)).
Qed.

Section validation.
Context `{!PegLib, !BitcoinLib, !Profile}.

(** A proof of a deposit of [v] wei to the gateway of [account] in a block at
    height [height], under the checkpoint [cp] that lies [depth] blocks
    above. *)
Record proof_valid (account : bytes) (height : Z) (cp : Header * Z) (pk : PublicKey)
    (m : PeginMeta) (v : Wei) : Prop := {
  pv_version : meta_version m = 0 ∨ meta_version m = 1;
  pv_depth : ∃ depth : nat,
    last_match (λ h, bool_decide (block_hash h = block_hash cp.1)) (meta_block_headers m) depth ∧
    (Z.of_nat depth ≤ cp.2 ∧ height = cp.2 - Z.of_nat depth ∨
     overflow_checks = false ∧ cp.2 < Z.of_nat depth ∧ height = 2 ^ 32 + cp.2 - Z.of_nat depth) ∧
    (is_coinbase (meta_tx m) = true → COINBASE_MATURITY ≤ Z.of_nat depth);
  pv_chain : chain (meta_block_headers m);
  pv_merkle : ∃ first txids, meta_block_headers m !! 0%nat = Some first ∧
    extract_matches (meta_merkle_proof m) = Some (merkle_root first, txids) ∧
    compute_txid (meta_tx m) ∈ txids;
  pv_txid : compute_txid (meta_tx m) = op_txid (meta_outpoint m);
  pv_output : ∃ vk tpk out,
    vk_deserialize (pk_serialize pk) = Some vk ∧ vk_to_secp_pk (vk_tweak vk account) = Ok tpk ∧
    output (meta_tx m) !! Z.to_nat (op_vout (meta_outpoint m)) = Some out ∧
    script_pubkey out = new_p2tr_tweaked tpk ∧ v = value out * SATOSHI_IN_WEI }.

Lemma usub_depth (cp depth height : Z) :
  is_u32 cp → 0 ≤ depth < MAX_BITCOIN_BLOCK_HEADERS →
  (∃ h, usub (E:=PeginDataError) 32 cp (depth mod 2 ^ 32) = Ok h ∧ h = height) ↔
  (depth ≤ cp ∧ height = cp - depth ∨
   overflow_checks = false ∧ cp < depth ∧ height = 2 ^ 32 + cp - depth).
Proof.
  intros Hcp Hd. rewrite Z.mod_small by (unfold MAX_BITCOIN_BLOCK_HEADERS in *; lia). unfold usub.
  unfold is_u32, u32_max, MAX_BITCOIN_BLOCK_HEADERS in *.
  destruct (Z.leb_spec depth cp).
  - split; [intros (h & [= <-] & <-); lia|]. intros [[_ ->]|]; [eauto|lia].
  - destruct overflow_checks.
    + split; [by intros (h & [=] & _)|]. intros [|[? _]]; [lia|done].
    + assert ((cp - depth) mod 2 ^ 32 = 2 ^ 32 + cp - depth) as Hmod.
      { symmetry. apply (Z.mod_unique _ _ (-1)); lia. }
      rewrite Hmod. split; [intros (h & [= <-] & <-); right; lia|]. intros [|(_ & _ & ->)]; [lia|eauto].
Qed.

Lemma depth_of {A} (d : nat) (k : Z → outcome PeginDataError A) :
  obind (usub 64 (Z.of_nat (S d)) 1) k = k (Z.of_nat d).
Proof.
  unfold usub. rewrite (proj2 (Z.leb_le 1 _)) by lia. cbn [obind]. f_equal. lia.
Qed.

Lemma last_match_bound {A} (f : A → bool) (l : list A) i : last_match f l i → (i < length l)%nat.
Proof. intros [(x & Hx & _) _]. by apply lookup_lt_Some in Hx. Qed.

Lemma u256_add_Ok {E} a b c : u256_add (E:=E) a b = Ok c ↔ c = a + b ∧ a + b ≤ u256_max.
Proof. unfold u256_add. destruct (Z.leb_spec (a + b) u256_max); naive_solver lia. Qed.

Lemma u256_add_intro {E} a b : a + b ≤ u256_max → u256_add (E:=E) a b = Ok (a + b).
Proof. intros. by apply u256_add_Ok. Qed.

Lemma version_in v : v ∈ [PEGIN_META_VERSION_V0; PEGIN_META_VERSION_V1] ↔ v = 0 ∨ v = 1.
Proof. unfold PEGIN_META_VERSION_V0, PEGIN_META_VERSION_V1. set_solver. Qed.

Lemma validate_proof_sound acc height cp pk agg m agg' :
  meta_bounded m → is_u32 cp.2 →
  validate_proof acc height cp pk agg m = Ok agg' → ∃ v, proof_valid acc height cp pk m v ∧ agg' = agg + v.
Proof.
  intros (Hlen & Hvals & Hvout) Hcp. unfold validate_proof.
  rewrite require_Ok, contains_true, require_Ok, ok_or_bind.
  intros (Hver & Hhit & [root txids] & Hex & Hk). apply require_Ok in Hk as [Hin Hk].
  apply expect_bind in Hk as (first & Hfirst & Hk). do 3 apply require_Ok in Hk as [? Hk].
  apply ok_or_bind in Hk as (vk & Hvk & Hk). apply obind_Ok in Hk as (tpk & Htpk & Hk).
  apply expect_bind in Hk as (out & Hout & Hk). apply require_Ok in Hk as [? Hk].
  apply obind_Ok in Hk as (w & Hw & Hk). apply obind_Ok in Hk as (agg1 & Hagg1 & Hk).
  apply require_Ok in Hk as [Hlink Hk].
  apply last_match_exists in Hhit as [d Hd]. rewrite (skip_while_last _ _ d Hd) in Hk.
  pose proof (last_match_bound _ _ _ Hd) as Hdlt. rewrite depth_of in Hk.
  apply obind_Ok in Hk as (h & Hh & Hk). apply require_Ok in Hk as [->%Z.eqb_eq Hk].
  apply require_Ok in Hk as [Hcb [= <-]].
  rewrite Forall_forall in Hvals. pose proof (Hvals out ltac:(by eapply list_elem_of_lookup_2)) as Hv.
  rewrite to_wei_Ok in Hw by done. injection Hw as <-. apply u256_add_Ok in Hagg1 as [-> _].
  exists (value out * SATOSHI_IN_WEI). split; [|done]. rewrite !bool_decide_eq_true in *. split.
  + by apply version_in.
  + exists d. split; [done|]. split.
    * apply usub_depth; [done|unfold meta_block_headers in Hlen; lia|eauto].
    * intros Ec. unfold meta_tx in Ec. rewrite Ec, Z.mod_small in Hcb by (unfold MAX_BITCOIN_BLOCK_HEADERS, meta_block_headers in *; lia).
      apply negb_true_iff in Hcb. simpl in Hcb. by apply Z.ltb_ge in Hcb.
  + by apply headers_linked_chain.
  + exists first, txids. apply contains_true in Hin. subst. unfold meta_merkle_proof, meta_tx. (split; [done|]; split; [congruence|]). match goal with E : compute_txid _ = _ |- _ => by rewrite E end.
  + done.
  + apply map_err_Ok in Htpk. by exists vk, tpk, out.
Qed.

Lemma validate_proof_complete acc height cp pk agg m v :
  meta_bounded m → is_u32 cp.2 → 0 ≤ agg ≤ u256_max - u64_max * SATOSHI_IN_WEI →
  proof_valid acc height cp pk m v → validate_proof acc height cp pk agg m = Ok (agg + v).
Proof.
  intros (Hlen & Hvals & Hvout) Hcp Hagg. unfold validate_proof.
  rewrite require_Ok, contains_true, require_Ok, ok_or_bind.
  intros [Hver (d & Hd & Hh & Hcb) Hc (first & txids & Hfirst & Hex & Hin) Htx
    (vk & tpk & out & Hvk & Htpk & Hout & Hspk & ->)].
  rewrite Forall_forall in Hvals. pose proof (Hvals out ltac:(by eapply list_elem_of_lookup_2)) as Hv.
  pose proof (last_match_bound _ _ _ Hd) as Hdlt.
  apply usub_depth in Hh as (h & Hh & ->); [|done|unfold meta_block_headers in *; lia].
  split; [by apply version_in|]. split; [by eapply last_match_existsb|]. exists (merkle_root first, txids).
  split; [done|]. apply require_Ok. split; [rewrite contains_true; unfold meta_outpoint in Htx; congruence|].
  apply expect_bind. exists first. split; [done|]. rewrite !require_Ok, !bool_decide_eq_true.
  split; [done|]. split; [done|]. split.
  { apply negb_true_iff, Z.ltb_ge. apply lookup_lt_Some in Hout. unfold meta_tx, meta_outpoint in *. lia. }
  apply ok_or_bind. exists vk. split; [done|]. apply obind_Ok. exists tpk.
  split; [unfold generate_tweaked_public_key; by rewrite Htpk|].
  apply expect_bind. exists out. split; [done|]. apply require_Ok.
  split; [by apply bool_decide_eq_true|]. rewrite to_wei_Ok by done. cbn [obind].
  rewrite u256_add_intro by (unfold is_u64, SATOSHI_IN_WEI in *; lia). cbn [obind].
  apply require_Ok. split; [by apply headers_linked_chain|].
  unfold meta_block_headers in Hd. rewrite (skip_while_last _ _ d Hd), depth_of, Hh. cbn [obind].
  rewrite Z.eqb_refl. cbn [require obind]. apply require_Ok. split; [|done].
  unfold meta_tx in Hcb. destruct (is_coinbase _); [|done]. cbn [andb].
  apply negb_true_iff, Z.ltb_ge. rewrite Z.mod_small by (unfold MAX_BITCOIN_BLOCK_HEADERS, meta_block_headers in *; lia).
  auto.
Qed.

Lemma validate_proofs_sound acc height cp pk l agg total :
  Forall meta_bounded l → is_u32 cp.2 →
  ofold (validate_proof acc height cp pk) agg l = Ok total →
  ∃ vs, Forall2 (proof_valid acc height cp pk) l vs ∧ total = agg + sumZ vs.
Proof.
  intros Hl Hcp. revert agg. induction Hl as [|m l Hm Hl IH]; intros agg; cbn [ofold].
  { intros [= ->]. exists []. split; [constructor|simpl; lia]. }
  intros (agg' & Hp1 & Hp2)%obind_Ok. apply validate_proof_sound in Hp1 as (v & Hv & ->); [|done..].
  apply IH in Hp2 as (vs & Hvs & ->). exists (v :: vs). split; [by constructor|]. simpl. lia.
Qed.

Lemma validate_version d cp pk total m :
  head (meta d) = Some m → PeginData_validate d cp pk = Ok total → meta_version m = 0 ∨ meta_version m = 1.
Proof.
  unfold PeginData_validate. destruct (meta d) as [|m' l]; [done|]. intros [= ->]. cbn [ofold].
  intros (agg & Hv & _)%obind_Ok. unfold validate_proof in Hv.
  by apply require_Ok in Hv as [Hv%contains_true%version_in _].
Qed.

Lemma validate_sound d cp pk total :
  Forall meta_bounded (meta d) → is_u32 cp.2 → PeginData_validate d cp pk = Ok total →
  ∃ vs, Forall2 (proof_valid (account d) (bitcoin_block_height d) cp pk) (meta d) vs ∧ total = sumZ vs.
Proof. intros Hm Hcp Hv. exact (validate_proofs_sound _ _ _ _ _ 0 _ Hm Hcp Hv). Qed.

Lemma proof_valid_range acc height cp pk m v :
  meta_bounded m → proof_valid acc height cp pk m v → 0 ≤ v ≤ u64_max * SATOSHI_IN_WEI.
Proof.
  intros (_ & Hvals & _) [_ _ _ _ _ (vk & tpk & out & _ & _ & Hout & _ & ->)].
  rewrite Forall_forall in Hvals. specialize (Hvals out ltac:(by eapply list_elem_of_lookup_2)).
  unfold is_u64, SATOSHI_IN_WEI in *. lia.
Qed.

Lemma validate_proofs_complete acc height cp pk l agg vs :
  Forall meta_bounded l → is_u32 cp.2 → 0 ≤ agg →
  agg + Z.of_nat (length l) * (u64_max * SATOSHI_IN_WEI) ≤ u256_max →
  Forall2 (proof_valid acc height cp pk) l vs →
  ofold (validate_proof acc height cp pk) agg l = Ok (agg + sumZ vs).
Proof.
  intros Hl Hcp Hge Hmax Hvs. revert agg Hl Hge Hmax.
  induction Hvs as [|m v l vs Hv Hvs IH]; intros agg Hl Hge Hmax; cbn [ofold].
  { simpl. f_equal. lia. }
  apply Forall_cons in Hl as [Hm Hl]. pose proof (proof_valid_range _ _ _ _ _ _ Hm Hv).
  cbn [length] in Hmax. rewrite Nat2Z.inj_succ, Z.mul_succ_l in Hmax.
  assert (0 ≤ Z.of_nat (length l) * (u64_max * SATOSHI_IN_WEI)) by (unfold u64_max, SATOSHI_IN_WEI; lia).
  rewrite (validate_proof_complete _ _ _ _ _ _ v) by (done || lia). cbn [obind].
  rewrite IH by (done || lia). simpl. f_equal. lia.
Qed.

(** What a claim for [account] has to prove. *)
Definition claim_valid (d : PeginData) (cp : Header * Z) (pk : PublicKey) (vs : list Wei) : Prop :=
  Forall2 (proof_valid (account d) (bitcoin_block_height d) cp pk) (meta d) vs.

(** C25.  A claim whose numbers have the widths of their fields, and whose value
    cannot exceed 256 bits, is accepted exactly when every proof is valid, and its value
    is then the sum of the deposits in wei: each deposit is an output of a
    transaction that a Merkle proof places in the first of a chain of headers,
    pays the gateway script of the claiming account under the aggregate key,
    and lies in a block at the claimed height, as deep below the checkpoint as
    the chain says, a coinbase at least 100 blocks deep. *)
Theorem pegin_validate_spec d cp pk total :
  Forall meta_bounded (meta d) → is_u32 cp.2 →
  Z.of_nat (length (meta d)) * (u64_max * SATOSHI_IN_WEI) ≤ u256_max →
  PeginData_validate d cp pk = Ok total ↔ ∃ vs, claim_valid d cp pk vs ∧ total = sumZ vs.
Proof.
  intros Hm Hcp Hn. unfold PeginData_validate. split; [by apply validate_proofs_sound|].
  intros (vs & Hvs & ->). by apply (validate_proofs_complete _ _ _ _ _ 0).
Qed.

(** An output index one past the last output passes the index check and
    panics: a claim whose first proof is genuine but for the output index,
    which equals the number of outputs of the deposit transaction, crashes the
    validation instead of being refused. *)
Theorem vout_past_the_end_panics d m rest cp pk first txids vk tpk :
  meta d = m :: rest → meta_version m = 0 ∨ meta_version m = 1 →
  existsb (λ h, bool_decide (block_hash h = block_hash cp.1)) (meta_block_headers m) = true →
  meta_block_headers m !! 0%nat = Some first →
  extract_matches (meta_merkle_proof m) = Some (merkle_root first, txids) →
  op_txid (meta_outpoint m) ∈ txids → compute_txid (meta_tx m) = op_txid (meta_outpoint m) →
  op_vout (meta_outpoint m) = Z.of_nat (length (output (meta_tx m))) →
  vk_deserialize (pk_serialize pk) = Some vk → vk_to_secp_pk (vk_tweak vk (account d)) = Ok tpk →
  PeginData_validate d cp pk = Panic.
Proof.
  intros Hd Hver Hhit Hfirst Hex Hin Htx Hvout Hvk Htpk. unfold PeginData_validate. rewrite Hd. cbn [ofold].
  unfold validate_proof, meta_block_headers, meta_merkle_proof, meta_outpoint, meta_tx in *.
  rewrite (proj2 (contains_true _ (meta_version m))) by (by apply version_in).
  rewrite Hhit, Hex. cbn [obind require ok_or]. rewrite (proj2 (contains_true _ _)) by done.
  rewrite Hfirst. cbn [obind require expect]. rewrite !bool_decide_true by done. cbn [obind require].
  rewrite Hvout, Z.ltb_irrefl. cbn [negb obind require]. rewrite Hvk. cbn [obind ok_or].
  unfold generate_tweaked_public_key. rewrite Htpk. cbn [obind ok_or map_err].
  by rewrite Nat2Z.id, lookup_ge_None_2.
Qed.

End validation.

(** ** Pegouts *)

Section pegouts.
Context `{!PegLib} (tx_wf : Transaction → Prop) `{!PegLaws tx_wf}.

(** What the encoding relies on: an address prints as ASCII, shorter than the
    address space, and what it prints parses to an address that is valid for
    its network. *)
Definition pegout_wf (p : PegoutWithId) : Prop :=
  is_u64 (po_amount (po_data p)) ∧ pegout_id_wf (po_id p) ∧
  Forall (λ b, 0 ≤ b ≤ 127) (address_to_string (po_destination (po_data p))) ∧
  Z.of_nat (length (address_to_string (po_destination (po_data p)))) ≤ isize_max ∧
  ∃ u, address_from_str (address_to_string (po_destination (po_data p))) = Some u ∧
    require_network u (po_network (po_data p)) = Some (po_destination (po_data p)).

Lemma utf8_valid_ascii b : Forall (λ x, 0 ≤ x ≤ 127) b → utf8_valid b = true.
Proof.
  induction 1 as [|x b Hx Hb IH]; [done|]. cbn [utf8_valid].
  by rewrite (proj2 (Z.leb_le x 127)) by lia.
Qed.

Lemma network_roundtrip n : network_of_u8 (network_as_u8 n) = Some n.
Proof. rewrite network_u8. by destruct n. Qed.

Lemma network_is_u8 n : is_u8 (network_as_u8 n).
Proof. rewrite network_u8. unfold is_u8, u8_max. destruct n; lia. Qed.

Lemma parses_u8 {E} (f : EncodeError → E) v : is_u8 v → parses (map_errM f (consensus_decode u8_c)) [v] v.
Proof.
  intros Hv. apply parses_map_err. rewrite <-(u8_encode v Hv). by apply (decode_encode (P:=is_u8)).
Qed.

Lemma parses_destination addr u :
  Forall (λ b, 0 ≤ b ≤ 127) addr → Z.of_nat (length addr) ≤ isize_max → address_from_str addr = Some u →
  parses read_destination (consensus_encode varint_c (Z.of_nat (length addr)) ++ addr) u.
Proof.
  intros Hascii Hlen Hu. unfold read_destination.
  eapply parses_bind.
  { apply parses_map_err, (decode_encode (P:=is_u64)). unfold is_u64, u64_max, isize_max in *. lia. }
  rewrite (proj2 (Z.ltb_ge _ _)) by done. rewrite Nat2Z.id.
  eapply parses_bind_pre; [apply parses_ret|].
  eapply parses_bind_last; [by apply parses_map_err, parses_read_slice|].
  rewrite utf8_valid_ascii by done. eapply parses_bind_pre; [apply parses_ret|].
  apply parses_lift. by rewrite Hu.
Qed.

(** Pegout records round-trip: a record with an address that is valid for
    its network is decoded from its encoding. *)
Theorem pegout_roundtrip p rest :
  pegout_wf p → PegoutWithId_deserialize (PegoutWithId_serialize p ++ rest) = Ok p.
Proof.
  intros (Hamt & Hid & Hascii & Hlen & u & Hu & Hn).
  enough (parses read_pegout_with_id (PegoutWithId_serialize p) p) as Hp
    by (unfold PegoutWithId_deserialize; by rewrite Hp).
  unfold read_pegout_with_id, PegoutWithId_serialize.
  apply (parses_bind _ _ [PegoutData_version] _ PegoutData_version).
  { apply parses_u8. unfold is_u8, u8_max, PegoutData_version. lia. }
  rewrite Z.eqb_refl. cbn [negb].
  eapply parses_bind; [by apply parses_map_err, (decode_encode (P:=is_u64))|]. rewrite app_assoc.
  eapply parses_bind; [by apply parses_destination|].
  apply (parses_bind _ _ [network_as_u8 (po_network (po_data p))] _ (network_as_u8 (po_network (po_data p)))).
  { apply parses_u8, network_is_u8. }
  eapply parses_bind_pre; [by apply parses_lift, ok_or_Ok, network_roundtrip|].
  eapply parses_bind_pre; [by apply parses_lift, ok_or_Ok|].
  eapply parses_bind_last; [by apply parses_map_err, parses_read_slice, as_bytes_length|].
  eapply parses_bind_pre; [by apply parses_lift, map_err_Ok, as_bytes_from_bytes|].
  destruct p as [[]]. apply parses_ret.
Qed.

(** The length of the address is trusted: a record of a few bytes whose
    address claims more bytes than the address space holds panics in the
    allocation of the buffer, before the input is found to be too short. *)
Theorem pegout_length_panics amount len rest :
  is_u64 amount → isize_max < len ≤ u64_max →
  PegoutWithId_deserialize
    (PegoutData_version :: consensus_encode u64_c amount ++ consensus_encode varint_c len ++ rest) = Panic.
Proof.
  intros Hamt Hlen. unfold PegoutWithId_deserialize, read_pegout_with_id.
  assert (parses (map_errM InvalidVersion (consensus_decode u8_c)) [PegoutData_version] PegoutData_version) as Hv
    by (apply parses_u8; unfold is_u8, u8_max, PegoutData_version; lia).
  unfold bindM at 1. change (PegoutData_version :: ?l) with ([PegoutData_version] ++ l). rewrite Hv.
  rewrite Z.eqb_refl. cbn [negb]. unfold bindM at 1. unfold map_errM at 1.
  rewrite (decode_encode (c:=u64_c) (P:=is_u64)) by done.
  unfold read_destination, bindM, map_errM, panic.
  rewrite (decode_encode (c:=varint_c) (P:=is_u64)) by (unfold is_u64, isize_max in *; lia).
  cbn [map_err].   by rewrite (proj2 (Z.ltb_lt _ _)) by lia.
Qed.
End pegouts.

(** ** A concrete instance

    Fixed-length codecs; transactions with one output; keys, addresses and
    Merkle trees with two values or one. *)

Section fixed.
Context {A : Type} (n : nat) (enc : A → bytes) (dec : bytes → option A) (P : A → Prop) `{∀ a, Decision (P a)}.

(** A decoder that also rejects values out of range. *)
Definition checked_decode (b : bytes) : option A :=
  a ← dec b; if decide (P a) then Some a else None.

Definition fixed_codec : codec A :=
  mkCodec enc (let! b := map_errM (λ _, EncIo) (read_slice n) in lift (ok_or (checked_decode b) EncOther)).

Lemma fixed_codec_laws :
  n ≠ 0%nat → (∀ a, P a → length (enc a) = n ∧ dec (enc a) = Some a) → CodecLaws fixed_codec P.
Proof.
  intros Hn Henc. split.
  - intros a Ha. destruct (Henc a Ha) as [Hl Hd]. simpl.
    eapply parses_bind_last; [by apply parses_map_err, parses_read_slice|].
    apply parses_lift. unfold checked_decode. rewrite Hd. simpl. by rewrite decide_True.
  - intros s s' a. simpl. unfold bindM, map_errM, read_slice, lift.
    destruct (Nat.ltb_spec (length s) n); [done|]. cbn [map_err]. intros Heq. injection Heq as <- _.
    exists (take n s). split; [|by rewrite take_drop].
    intros Hnil%(f_equal length). rewrite length_take in Hnil. simpl in Hnil. lia.
  - intros s s' a. simpl. intros (s1 & b & _ & Hl)%bindM_Ok. apply lift_Ok in Hl as [_ Hl].
    apply ok_or_Ok in Hl. unfold checked_decode in Hl. destruct (dec b) as [a'|]; [|done]. simpl in Hl.
    case_decide; [|done]. by injection Hl as <-.
  - simpl. eauto 10 with reader.
Qed.
End fixed.

Definition toy_int_codec (n : nat) (P : Z → Prop) `{∀ a, Decision (P a)} : codec Z :=
  fixed_codec n (to_le_bytes n) (λ b, Some (from_le_bytes b)) P.

Lemma toy_int_laws n (P : Z → Prop) `{∀ a, Decision (P a)} :
  n ≠ 0%nat → (∀ v, P v → 0 ≤ v < 256 ^ Z.of_nat n) → CodecLaws (toy_int_codec n P) P.
Proof.
  intros Hn HP. apply fixed_codec_laws; [done|]. intros v Hv.
  by rewrite to_le_bytes_length, from_to_le_bytes by auto.
Qed.

#[export] Instance is_u8_dec v : Decision (is_u8 v).
Proof. unfold is_u8. apply _. Defined.
#[export] Instance is_u32_dec v : Decision (is_u32 v).
Proof. unfold is_u32. apply _. Defined.
#[export] Instance is_u64_dec v : Decision (is_u64 v).
Proof. unfold is_u64. apply _. Defined.
#[export] Instance is_array_dec n b : Decision (is_array n b).
Proof. unfold is_array. apply _. Defined.
#[export] Instance header_wf_dec h : Decision (header_wf h).
Proof. unfold header_wf. apply _. Defined.
#[export] Instance outpoint_wf_dec o : Decision (outpoint_wf o).
Proof. unfold outpoint_wf. apply _. Defined.

Definition toy_encode_header (h : Header) : bytes :=
  to_le_bytes 4 (h_version h) ++ prev_blockhash h ++ merkle_root h ++
  to_le_bytes 4 (h_time h) ++ to_le_bytes 4 (h_bits h) ++ to_le_bytes 4 (h_nonce h).

Definition toy_decode_header (b : bytes) : Header :=
  let b1 := drop 4 b in let b2 := drop 32 b1 in let b3 := drop 32 b2 in
  let b4 := drop 4 b3 in let b5 := drop 4 b4 in
  mkHeader (from_le_bytes (take 4 b)) (take 32 b1) (take 32 b2) (from_le_bytes (take 4 b3))
    (from_le_bytes (take 4 b4)) (from_le_bytes b5).

Definition toy_tx (v : Amount) (spk : ScriptBuf) : Transaction :=
  mkTransaction 0 0 [] [mkTxOut v spk].

Definition toy_tx_wf (tx : Transaction) : Prop :=
  match output tx with
  | [o] => is_u64 (value o) ∧ length (script_pubkey o) = 34%nat ∧ tx = toy_tx (value o) (script_pubkey o)
  | _ => False
  end.

#[export] Instance toy_tx_wf_dec tx : Decision (toy_tx_wf tx).
Proof. unfold toy_tx_wf. destruct (output tx) as [|o [|]]; apply _. Defined.

(** The transaction the toy Merkle tree contains. *)
Definition toy_deposit : Transaction := toy_tx 5000 (p2tr 9).

Definition toy_txid : Txid := Eval vm_compute in compute_txid toy_deposit.

#[export] Instance toy_peg : PegLib := {
  PublicKey := bool;
  pk_serialize b := 2 :: replicate 32 (if b then 1 else 0);
  pk_from_slice b := if decide (b = 2 :: replicate 32 1) then Some true else
                     if decide (b = 2 :: replicate 32 0) then Some false else None;
  PartialMerkleTree := bool;
  extract_matches b := if b then Some (replicate 32 7, [toy_txid]) else None;
  VerifyingKey := bytes;
  vk_deserialize b := Some b;
  vk_tweak vk a := vk ++ a;
  vk_serialize vk := Some (2 :: replicate 32 1);
  new_p2tr_tweaked pk := p2tr 9;
  block_hash h := replicate 32 (h_nonce h);
  is_coinbase tx := bool_decide (lock_time tx = 1);
  BtcAddress := unit;
  UncheckedAddress := unit;
  address_to_string _ := [98; 99; 49];
  address_from_str b := if decide (b = [98; 99; 49]) then Some tt else None;
  require_network _ _ := Some tt;
  network_as_u8 n :=
    match n with Mainnet => 0 | Testnet => 1 | Testnet4 => 2 | Signet => 3 | Regtest => 4 end;
  u8_c := fixed_codec 1 (λ v, [v]) (λ b, Some (from_le_bytes b)) is_u8;
  u32_c := toy_int_codec 4 is_u32;
  u64_c := toy_int_codec 8 is_u64;
  varint_c := toy_int_codec 8 is_u64;
  array32_c := fixed_codec 32 (λ b, b) Some (is_array 32);
  array33_c := fixed_codec 33 (λ b, b) Some (is_array 33);
  header_c := fixed_codec 80 toy_encode_header (λ b, Some (toy_decode_header b)) header_wf;
  outpoint_c := fixed_codec 36 to_bytes toy_deserialize_outpoint outpoint_wf;
  merkle_c := fixed_codec 1 (λ b : bool, [if b then 1 else 0]) (λ b, Some (bool_decide (b = [1]))) (λ _, True);
  tx_c := fixed_codec 42
    (λ tx, match output tx with o :: _ => to_le_bytes 8 (value o) ++ script_pubkey o | [] => [] end)
    (λ b, Some (toy_tx (from_le_bytes (take 8 b)) (drop 8 b))) toy_tx_wf }.

Lemma toy_header_roundtrip h :
  header_wf h → length (toy_encode_header h) = 80%nat ∧ toy_decode_header (toy_encode_header h) = h.
Proof.
  intros (Hv & [Hp _] & [Hm _] & Ht & Hb & Hn).
  assert (∀ x, length (to_le_bytes 4 x) = 4%nat) as H4 by (intros; apply to_le_bytes_length).
  assert (∀ x, is_u32 x → from_le_bytes (to_le_bytes 4 x) = x) as Hx
    by (intros x Hx; apply from_to_le_bytes; unfold is_u32, u32_max in Hx; simpl; lia).
  unfold toy_encode_header, toy_decode_header.
  split; [rewrite !length_app, !H4, Hp, Hm; done|].
  rewrite (drop_app_length' (to_le_bytes 4 (h_version h))), (drop_app_length' (prev_blockhash h)),
    (drop_app_length' (merkle_root h)), (drop_app_length' (to_le_bytes 4 (h_time h))),
    (drop_app_length' (to_le_bytes 4 (h_bits h))) by done.
  rewrite !take_app_length' by done. rewrite !Hx by done. by destruct h.
Qed.

#[export] Instance toy_peg_laws : PegLaws toy_tx_wf.
Proof.
  split.
  - by intros [].
  - by intros [].
  - apply fixed_codec_laws; [done|]. intros v Hv. split; [done|]. cbn [from_le_bytes]. f_equal. lia.
  - done.
  - apply toy_int_laws; [done|]. unfold is_u32, u32_max. simpl. lia.
  - intros v _. apply to_le_bytes_length.
  - apply toy_int_laws; [done|]. unfold is_u64, u64_max. simpl. lia.
  - apply toy_int_laws; [done|]. unfold is_u64, u64_max. simpl. lia.
  - apply fixed_codec_laws; [done|]. by intros b [Hb _].
  - done.
  - apply fixed_codec_laws; [done|]. by intros b [Hb _].
  - done.
  - intros []; cbn; repeat constructor; by vm_compute.
  - apply fixed_codec_laws; [done|]. intros h [H1 H2]%toy_header_roundtrip. by rewrite H2.
  - intros h Hh. by apply toy_header_roundtrip.
  - apply fixed_codec_laws; [done|]. intros o Ho. split.
    + unfold to_bytes. destruct Ho as [[Hl _] _]. by rewrite length_app, Hl, to_le_bytes_length.
    + by apply (@deserialize_outpoint_spec toy_bitcoin toy_bitcoin_laws).
  - apply fixed_codec_laws; [done|]. by intros [].
  - apply fixed_codec_laws; [done|]. intros tx. unfold toy_tx_wf.
    destruct (output tx) as [|[v spk] [|]]; [done| |done]. intros (Hv & Hl & ->).
    cbn [value script_pubkey] in *. rewrite length_app, to_le_bytes_length, Hl. split; [done|].
    rewrite take_app_length', drop_app_length' by (by rewrite to_le_bytes_length).
    rewrite from_to_le_bytes by (unfold is_u64, u64_max in Hv; simpl; lia). done.
  - intros tx. unfold toy_tx_wf. destruct (output tx) as [|o [|]]; [done| |done].
    intros (Hv & _ & _). apply Forall_cons; split; [exact Hv|by apply Forall_nil].
  - done.
Qed.

(** A deposit of 5,000 satoshi, two blocks below the checkpoint. *)
Definition toy_chain : list Header :=
  [ mkHeader 0 (replicate 32 0) (replicate 32 7) 0 0 1;
    mkHeader 0 (replicate 32 1) (replicate 32 8) 0 0 2;
    mkHeader 0 (replicate 32 2) (replicate 32 9) 0 0 3 ].

Definition toy_meta_v0 (version vout : Z) : PeginMetaV0 :=
  mkPeginMetaV0 version true (mkOutPoint toy_txid vout) (replicate 20 1) true toy_chain toy_deposit.

Definition toy_meta (vout : Z) : PeginMeta := MetaV0 (toy_meta_v0 0 vout).

Definition toy_claim (vout : Z) : PeginData := mkPeginData (replicate 20 1) 1 98 [toy_meta vout].

Definition toy_checkpoint : Header * Z := (mkHeader 0 (replicate 32 2) (replicate 32 9) 0 0 3, 100).

Lemma toy_txid_array : is_array 32 toy_txid.
Proof. split; [by vm_compute|]. apply (bool_decide_unpack _). by vm_compute. Qed.

Lemma toy_meta_wf vout : is_u32 vout → meta_wf toy_tx_wf (toy_meta vout).
Proof.
  intros Hv. split; [|done]. split.
  - by vm_compute.
  - split; [apply toy_txid_array|done].
  - split; [done|]. apply Forall_replicate. by vm_compute.
  - by vm_compute.
  - repeat constructor; try (by vm_compute); apply Forall_replicate; by vm_compute.
  - by vm_compute.
Qed.

Lemma pegin_meta_roundtrip_witness :
  PeginMeta_deserialize (PeginMeta_serialize (toy_meta 0) ++ [1; 2; 3]) =
    Ok (toy_meta 0, Z.of_nat (length (PeginMeta_serialize (toy_meta 0)))).
Proof. refine (pegin_meta_roundtrip toy_tx_wf (toy_meta 0) [1; 2; 3] (toy_meta_wf 0 _)). by vm_compute. Defined.

Lemma pegin_validate_spec_witness :
  let profile : Profile := true in
  PeginData_validate (toy_claim 0) toy_checkpoint true = Ok 50000000000000 ∧
  ∃ vs, claim_valid (toy_claim 0) toy_checkpoint true vs ∧ sumZ vs = 50000000000000.
Proof.
  intros profile.
  assert (Forall meta_bounded (meta (toy_claim 0))) as Hm.
  { apply Forall_cons. split; [|by apply Forall_nil]. split; [by vm_compute|]. split; [|by vm_compute].
    apply Forall_cons. split; [by vm_compute|by apply Forall_nil]. }
  assert (is_u32 toy_checkpoint.2) as Hcp by (by vm_compute).
  assert (Z.of_nat (length (meta (toy_claim 0))) * (u64_max * SATOSHI_IN_WEI) ≤ u256_max) as Hn
    by (by vm_compute).
  assert (PeginData_validate (toy_claim 0) toy_checkpoint true = Ok 50000000000000) as Hrun
    by (vm_compute; reflexivity).
  split; [exact Hrun|].
  destruct (proj1 (pegin_validate_spec (toy_claim 0) toy_checkpoint true 50000000000000 Hm Hcp Hn) Hrun)
    as (vs & Hvs & Hs).
  exists vs. split; [exact Hvs|exact (eq_sym Hs)].
Defined.

(** The same proof with the output index 1 of a transaction with one output. *)
Lemma vout_past_the_end_panics_witness :
  let profile : Profile := false in
  meta_wf toy_tx_wf (toy_meta 1) ∧ PeginData_validate (toy_claim 1) toy_checkpoint true = Panic.
Proof.
  intros profile. split; [apply toy_meta_wf; by vm_compute|].
  eapply (vout_past_the_end_panics (toy_claim 1) (toy_meta 1) [] toy_checkpoint true _ [toy_txid]);
    [reflexivity|by left|by vm_compute|reflexivity|reflexivity|by left|by vm_compute|reflexivity
    |reflexivity|reflexivity].
Defined.

Definition toy_pegout : PegoutWithId :=
  mkPegoutWithId (mkPegoutData 700 tt Signet) (toy_pegout_id 4).

Lemma pegout_roundtrip_witness :
  PegoutWithId_deserialize (PegoutWithId_serialize toy_pegout ++ [9]) = Ok toy_pegout.
Proof.
  refine (pegout_roundtrip toy_tx_wf toy_pegout [9] _).
  split; [by vm_compute|]. split; [apply toy_pegout_id_wf; by vm_compute|].
  split; [repeat constructor; by vm_compute|]. split; [by vm_compute|]. exists tt. by split.
Defined.

Lemma pegout_length_panics_witness :
  PegoutWithId_deserialize (PegoutData_version :: consensus_encode u64_c 700 ++
    consensus_encode varint_c (2 ^ 63) ++ []) = Panic.
Proof. apply (pegout_length_panics toy_tx_wf 700 (2 ^ 63) []); by vm_compute. Defined.

Lemma wei_conversions_example : from_wei_floor 12345678901 = Some 1.
Proof. reflexivity. Qed.
