(* ===== verification/Edh.v ===== *)
(** * The extra data header

    src/crates/botanix-authority-edh/src: the metadata every block carries in
    the [extra_data] of its header (extra_data_header.rs) with its encoding,
    and the consensus package that the executor derives from it
    (header_ext.rs): the aggregate key and the Bitcoin checkpoint, whose
    header and height bitcoind answers.

    The RPC client is the parameter [CheckpointSource].  Encodings are those
    of [PegLib]; [BlockHash] is encoded as its 32 bytes. *)

From S2P Require Import Prelude Bytes Bitcoin Concrete Codec Peg.
From stdpp Require Import strings.

Open Scope Z_scope.

(** The fields of a sealed Ethereum header that the code reads. *)
Record EthHeader := mkEthHeader {
  eh_hash : bytes;
  parent_hash : bytes;
  number : Z;
  timestamp : Z;
  gas_limit : Z;
  gas_used : Z;
  base_fee_per_gas : option Z;
  beneficiary : bytes;
  blob_gas_used : option Z;
  excess_blob_gas : option Z;
  parent_beacon_block_root : option bytes;
  extra_data : bytes }.

Definition set_extra_data (b : bytes) (h : EthHeader) : EthHeader :=
  mkEthHeader (eh_hash h) (parent_hash h) (number h) (timestamp h) (gas_limit h) (gas_used h)
    (base_fee_per_gas h) (beneficiary h) (blob_gas_used h) (excess_blob_gas h)
    (parent_beacon_block_root h) b.

Definition EXTRA_HEADER_VERSION : Z := 0.
Definition CHAIN_VERSION : Z := 0.

Inductive ExtraDataHeaderDeserializeError :=
| EdhIo
| EdhDecoding (e : EncodeError)
| EdhInvalidVersion.

Section edh.
Context `{!PegLib}.

Record ExtraDataHeader := mkEdh {
  edh_version : Z;
  chain_version : Z;
  bitcoin_block_hash : BlockHash;
  aggregated_public_key : PublicKey;
  block_fee_recipient_address : bytes }.

Definition encode_into_without_signature (e : ExtraDataHeader) : bytes :=
  consensus_encode u32_c (edh_version e) ++
  consensus_encode u32_c (chain_version e) ++
  consensus_encode array32_c (bitcoin_block_hash e) ++
  consensus_encode array33_c (pk_serialize (aggregated_public_key e)) ++
  block_fee_recipient_address e.

Definition encode_into (e : ExtraDataHeader) : bytes := encode_into_without_signature e.

Definition Edh_serialize (e : ExtraDataHeader) : bytes := encode_into e.

Definition edh_decode {A} (c : codec A) : Reader ExtraDataHeaderDeserializeError A :=
  map_errM EdhDecoding (consensus_decode c).

Definition Edh_deserialize : Reader ExtraDataHeaderDeserializeError ExtraDataHeader :=
  let! version := edh_decode u32_c in
  let! chain_version := edh_decode u32_c in
  let! bitcoin_block_hash := edh_decode array32_c in
  let! pk_bytes := edh_decode array33_c in
  let! aggregated_public_key := lift (ok_or (pk_from_slice pk_bytes) (EdhDecoding EncOther)) in
  let! block_fee_recipient_address := map_errM (λ _, EdhIo) (read_slice 20) in
  ret (mkEdh version chain_version bitcoin_block_hash aggregated_public_key
         block_fee_recipient_address).

Definition edh_size (e : ExtraDataHeader) : Z := Z.of_nat (length (Edh_serialize e)).

(** ** HeaderExt *)

Definition add_extra_data_header (e : ExtraDataHeader) (h : EthHeader) : EthHeader :=
  set_extra_data (Edh_serialize e) h.

Definition deserialize_extra_data_header (h : EthHeader)
    : outcome ExtraDataHeaderDeserializeError ExtraDataHeader :=
  (Edh_deserialize (extra_data h)).2.

Definition get_block_fee_recipient_address (h : EthHeader)
    : outcome ExtraDataHeaderDeserializeError bytes :=
  let? edh := deserialize_extra_data_header h in Ok (block_fee_recipient_address edh).

Definition get_aggregate_public_key (h : EthHeader)
    : outcome ExtraDataHeaderDeserializeError PublicKey :=
  let? edh := deserialize_extra_data_header h in Ok (aggregated_public_key edh).

(** *** The consensus package (consensus_package.rs) *)

Abbreviation RecentHeader := (Header * Z)%type.

Record BotanixConsensusPackage := mkConsensusPackage {
  bitcoin_checkpoint : RecentHeader;
  aggregate_public_key : PublicKey;
  btc_network : Network }.

Inductive BitcoindAdapterError := BitcoindAdapterFailed.

(** [FallbackBitcoindClient::get_block_header_rpc] and [get_block_info_rpc] *)
Class CheckpointSource := {
  get_block_header_rpc : BlockHash → outcome BitcoindAdapterError Header;
  get_block_info_height : BlockHash → outcome BitcoindAdapterError Z }.

Inductive BotanixConsensusPackageError :=
| FailedToDeserializeExtraDataHeader (e : ExtraDataHeaderDeserializeError)
| FailedToCreateBitcoindClient
| FailedToRetrieveBitcoinCheckpointHeader (e : BitcoindAdapterError)
| FailedToRetrieveBitcoinCheckpointHeight (e : BitcoindAdapterError).

Definition all_zeros : bytes := replicate 32 0.

(** [Version::default()] signals no soft fork. *)
Definition NO_SOFT_FORK_SIGNALLING : Z := 0x20000000.

Definition default_header : Header := mkHeader NO_SOFT_FORK_SIGNALLING all_zeros all_zeros 0 0 0.

Definition botanix_consensus_package `{!CheckpointSource} (h : EthHeader) (network : Network)
    : outcome BotanixConsensusPackageError BotanixConsensusPackage :=
  let? edh := map_err FailedToDeserializeExtraDataHeader (deserialize_extra_data_header h) in
  if bool_decide (bitcoin_block_hash edh = all_zeros)
  then Ok (mkConsensusPackage (default_header, 0) (aggregated_public_key edh) network) else
  let? header := map_err FailedToRetrieveBitcoinCheckpointHeader
                   (get_block_header_rpc (bitcoin_block_hash edh)) in
  let? height := map_err FailedToRetrieveBitcoinCheckpointHeight
                   (get_block_info_height (bitcoin_block_hash edh)) in
  Ok (mkConsensusPackage (header, height mod 2 ^ 32) (aggregated_public_key edh) network).

End edh.

(** ** The encoding *)

Section edh_codec.
Context `{!PegLib} (tx_wf : Transaction → Prop) `{!PegLaws tx_wf}.

Definition edh_wf (e : ExtraDataHeader) : Prop :=
  is_u32 (edh_version e) ∧ is_u32 (chain_version e) ∧ is_array 32 (bitcoin_block_hash e) ∧
  length (block_fee_recipient_address e) = 20%nat.

Lemma pk_array pk : is_array 33 (pk_serialize pk).
Proof. split; [apply pk_length|apply pk_bytes]. Qed.

Lemma parses_edh e : edh_wf e → parses Edh_deserialize (Edh_serialize e) e.
Proof.
  intros (Hv & Hc & Hb & Ha). unfold Edh_deserialize, Edh_serialize, encode_into, encode_into_without_signature.
  eapply parses_bind; [by apply parses_map_err, (decode_encode (P:=is_u32))|].
  eapply parses_bind; [by apply parses_map_err, (decode_encode (P:=is_u32))|].
  eapply parses_bind; [by apply parses_map_err, (decode_encode (P:=is_array 32))|].
  eapply parses_bind; [by apply parses_map_err, (decode_encode (P:=is_array 33)), pk_array|].
  eapply parses_bind_pre; [by apply parses_lift, ok_or_Ok, pk_roundtrip|].
  eapply parses_bind_last; [by apply parses_map_err, parses_read_slice|].
  destruct e. apply parses_ret.
Qed.

(** Extra data headers round-trip: whatever follows the encoding in the
    header is ignored, the encoding takes 93 bytes, and
    reading the header never panics, on any bytes. *)
Theorem edh_roundtrip :
  (∀ e trailing h, edh_wf e →
    deserialize_extra_data_header (set_extra_data (Edh_serialize e ++ trailing) h) = Ok e) ∧
  (∀ e, edh_wf e → edh_size e = 93) ∧
  (∀ h, deserialize_extra_data_header h ≠ Panic).
Proof.
  split_and!.
  - intros e trailing h He. unfold deserialize_extra_data_header. cbn [extra_data set_extra_data].
    by rewrite (parses_edh e He).
  - intros e (Hv & Hc & Hb & Ha). unfold edh_size, Edh_serialize, encode_into, encode_into_without_signature.
    rewrite !length_app, array32_encode, array33_encode, !(fixed_length (c:=u32_c)), pk_length, Ha by (done || apply pk_array).
    by rewrite (proj1 Hb).
  - intros h. unfold deserialize_extra_data_header, Edh_deserialize, edh_decode. generalize (extra_data h).
    change (total_reader Edh_deserialize). unfold Edh_deserialize, edh_decode. eauto 20 with reader.
Qed.

End edh_codec.
