(* ===== verification/Mint.v ===== *)
(** * The minting contract's events

    src/crates/botanix-authority-peg/src/mint_validation.rs: how the logs of
    the minting contract are read, and [botanix_mint_contract_checks] of
    src/crates/botanix-evm/src/execute.rs, which validates the pegins and
    pegouts of a transaction against the consensus package of its block.

    The ABI decoder and keccak are the parameters [MintLib]; the lookup of a
    referenced block is the parameter [BlockSource].  The texts of formatted
    error messages are kept as data ([ErrorText]). *)

From S2P Require Import Prelude Bytes Bitcoin Concrete Codec Peg Edh.
From stdpp Require Import strings.

Open Scope Z_scope.

(** ** Logs and the ABI *)

Record Log := mkLog { log_address : bytes; topics : list bytes; log_data : bytes }.

Inductive ParamType := PAddress | PUint (bits : Z) | PBytes | PString.
Inductive Token := TAddress (b : bytes) | TUint (v : Z) | TBytes (b : bytes) | TString (b : bytes).

Class MintLib := {
  abi_decode : list ParamType → bytes → option (list Token);
  keccak256 : bytes → bytes }.

Definition string_bytes (s : string) : bytes :=
  map (λ a, Z.of_N (Ascii.N_of_ascii a)) (String.list_ascii_of_string s).

Definition into_address (t : Token) : option bytes := match t with TAddress b => Some b | _ => None end.
Definition into_uint (t : Token) : option Z := match t with TUint v => Some v | _ => None end.
Definition into_bytes (t : Token) : option bytes := match t with TBytes b => Some b | _ => None end.
Definition into_string (t : Token) : option bytes := match t with TString b => Some b | _ => None end.

(** [U256::as_u32] panics when the value does not fit. *)
Definition uint_as_u32 {E} (v : Z) : outcome E Z := if v <=? u32_max then Ok v else Panic.

Definition MINT_CONTRACT_ADDRESS : bytes :=
  [14; 163; 32; 153; 11; 68; 35; 106; 12; 237; 14; 204; 15; 210; 178; 223; 51; 7; 30; 120].

Inductive GenesisContractEventType := MintingEvent | BurnEvent.

Inductive ParseMintEventError :=
| MintInvalidLog (msg : string)
| MintInvalidPeginData (error : PeginDataError) (revert_address : bytes) (revert_amount : Z).

Inductive ParseBurnEventError :=
| BurnInvalidLog (msg : string)
| BurnInvalidPegoutData (error : PegoutDataError).

(** The messages with formatted parts. *)
Inductive ErrorText :=
| Text (msg : string)
| OfPeginError (e : PeginDataError)
| HeightAboveCheckpoint (height checkpoint : Z)
| AmountNotBelowValue (aggregate_value amount : Z)
| ValidationFailed (e : PeginDataError).

Inductive MintContractError :=
| InvalidLog (event : string) (error : string)
| InvalidPeginData (error : ErrorText) (revert_address : bytes) (revert_amount : Z)
| InvalidPegoutData (error : PegoutDataError).

Definition of_mint_error (e : ParseMintEventError) : MintContractError :=
  match e with
  | MintInvalidLog e => InvalidLog "Mint" e
  | MintInvalidPeginData e a v => InvalidPeginData (OfPeginError e) a v
  end.

Definition of_burn_error (e : ParseBurnEventError) : MintContractError :=
  match e with
  | BurnInvalidLog e => InvalidLog "Burn" e
  | BurnInvalidPegoutData e => InvalidPegoutData e
  end.

Section events.
Context `{!PegLib, !MintLib}.

Definition MINT_TOPIC : bytes := keccak256 (string_bytes "Mint(address,uint256,uint32,bytes)").
Definition BURN_TOPIC : bytes := keccak256 (string_bytes "Burn(address,uint256,bytes,bytes)").

Definition event_type (value : bytes) : outcome string GenesisContractEventType :=
  if bool_decide (value = MINT_TOPIC) then Ok MintingEvent
  else if bool_decide (value = BURN_TOPIC) then Ok BurnEvent
  else Err "Invalid topic"%string.

Definition topic_to_address (t : bytes) : option bytes :=
  tokens ← abi_decode [PAddress] t;
  first ← head tokens;
  into_address first.

(** [while offset < meta_bytes.len()]; [None] when the fuel runs out. *)
Fixpoint parse_proofs (fuel : nat) (destination : bytes) (amount : Z) (meta_bytes : bytes)
    (offset : Z) (outpoints : gset OutPoint) (proofs : list PeginMeta)
    : option (outcome ParseMintEventError (list PeginMeta)) :=
  if Z.of_nat (length meta_bytes) <=? offset then Some (Ok proofs) else
  match fuel with
  | O => None
  | S fuel =>
      match PeginMeta_deserialize (drop (Z.to_nat offset) meta_bytes) with
      | Err e => Some (Err (MintInvalidPeginData e destination amount))
      | Panic => Some Panic
      | Ok (proof, proof_size) =>
          if decide (meta_outpoint proof ∈ outpoints)
          then Some (Err (MintInvalidPeginData (PeginInvalid "Duplicate outpoints") destination amount))
          else parse_proofs fuel destination amount meta_bytes (offset + proof_size)
                 ({[ meta_outpoint proof ]} ∪ outpoints) (proofs ++ [proof])
      end
  end.

(** Every proof takes at least one byte: the length is enough fuel. *)
Definition try_parse_mint_event (log : Log)
    : option (outcome ParseMintEventError (option PeginData)) :=
  if negb (bool_decide (log_address log = MINT_CONTRACT_ADDRESS)) then Some (Ok None) else
  match topics log with
  | [] => Some (Ok None)
  | topic :: rest =>
      if negb (bool_decide (topic = MINT_TOPIC)) then Some (Ok None) else
      match rest with
      | [destination_topic] =>
          let read :=
            let? destination := ok_or (topic_to_address destination_topic)
                                  (MintInvalidLog "invalid destination encoding") in
            let? params := ok_or (abi_decode [PUint 256; PUint 32; PBytes] (log_data log))
                             (MintInvalidLog "invalid payload") in
            match params with
            | [p0; p1; p2] =>
                let? amount := ok_or (into_uint p0) (MintInvalidLog "invalid mint amount params") in
                let? height := ok_or (into_uint p1) (MintInvalidLog "parsing bitcoin block height param") in
                let? bitcoin_block_height := uint_as_u32 height in
                let? meta_bytes := ok_or (into_bytes p2)
                                     (MintInvalidLog "converting metadata param to bytes") in
                Ok (destination, amount, bitcoin_block_height, meta_bytes)
            | _ => Err (MintInvalidLog "wrong number of params")
            end in
          match read with
          | Err e => Some (Err e)
          | Panic => Some Panic
          | Ok (destination, amount, bitcoin_block_height, meta_bytes) =>
              meta ← parse_proofs (length meta_bytes) destination amount meta_bytes 0 ∅ [];
              Some (let? meta := meta in
                    Ok (Some (mkPeginData destination amount bitcoin_block_height meta)))
          end
      | _ => Some (Err (MintInvalidLog "wrong number of topics"))
      end
  end.

Definition try_parse_burn_event (log : Log) (btc_network : Network)
    : outcome ParseBurnEventError (option PegoutData) :=
  if negb (bool_decide (log_address log = MINT_CONTRACT_ADDRESS)) then Ok None else
  match topics log with
  | [] => Ok None
  | topic :: rest =>
      if negb (bool_decide (topic = BURN_TOPIC)) then Ok None else
      match rest with
      | [_] =>
          let? params := ok_or (abi_decode [PUint 256; PString; PBytes] (log_data log))
                           (BurnInvalidLog "invalid payload") in
          match params with
          | [p0; p1; p2] =>
              let? amount := ok_or (into_uint p0) (BurnInvalidLog "pegout amount") in
              let? btc_amount := ok_or (from_wei_floor amount) (BurnInvalidLog "invalid amount") in
              let? destination := ok_or (into_string p1) (BurnInvalidLog "pegout destination") in
              let? metadata := ok_or (into_bytes p2)
                                 (BurnInvalidPegoutData (PegoutInvalid "invalid metadata" amount)) in
              if negb (length metadata =? 1)%nat
              then Err (BurnInvalidPegoutData (PegoutInvalid "invalid metadata length" amount))
              (* another version than [PegoutData::version] is only logged *)
              else let? data := map_err BurnInvalidPegoutData
                                  (PegoutData_new btc_amount amount destination btc_network) in
                   Ok (Some data)
          | _ => Err (BurnInvalidLog "wrong number of params")
          end
      | _ => Err (BurnInvalidLog "wrong number of topics")
      end
  end.

End events.

(** ** The checks on a transaction (execute.rs) *)

Inductive DatabaseError := DatabaseFailed.

(** [find_block_by_hash] *)
Class BlockSource := find_block_by_hash : bytes → outcome DatabaseError (option EthHeader).

Section checks.
Context `{!PegLib, !BitcoinLib, !Profile, !MintLib, !CheckpointSource, !BlockSource}.
(** The network the executor was built with. *)
Context (bitcoin_network : Network).

Definition reject {A} (d : PeginData) (e : ErrorText) : outcome MintContractError A :=
  Err (InvalidPeginData e (account d) (amount d)).

(** The checkpoint under which a claim is validated: that of the block a V1
    proof refers to, or that of the current block. *)
Definition checkpoint_of (pkg : BotanixConsensusPackage) (d : PeginData) (first : PeginMeta)
    : outcome MintContractError (Header * Z) :=
  match meta_version first, meta_ref_block_hash first with
  | 1, None => reject d (Text "Reference block hash cannot be found")
  | 1, Some hash =>
      match find_block_by_hash hash with
      | Ok (Some header) =>
          let? package := map_err (λ _, InvalidPeginData (Text "Failed to get botanix consensus package")
                                          (account d) (amount d))
                            (botanix_consensus_package header bitcoin_network) in
          Ok (bitcoin_checkpoint package)
      | Ok None => reject d (Text "No block found for reference block hash")
      | Err _ | Panic => Panic
      end
  | 0, Some _ => reject d (Text "Not expecting reference block hash in proof version 0")
  | _, _ => Ok (bitcoin_checkpoint pkg)
  end.

(** The body of the loop over the logs, for a parsed claim. *)
Definition check_pegin (pkg : BotanixConsensusPackage) (d : PeginData)
    : outcome MintContractError unit :=
  match meta d with
  | [] => reject d (Text "No proofs found in pegin data")
  | first :: _ =>
      let? cp := checkpoint_of pkg d first in
      ofor (meta d) (λ m,
        (if bool_decide (meta_version m = meta_version first) then Ok tt
         else reject d (Text "Proofs have mismatching versions")) ;?
        (if bool_decide (meta_ref_block_hash m = meta_ref_block_hash first) then Ok tt
         else reject d (Text "Proofs have mismatching reference block hashes"))) ;?
      if cp.2 <? bitcoin_block_height d
      then reject d (HeightAboveCheckpoint (bitcoin_block_height d) cp.2) else
      match PeginData_validate d cp (aggregate_public_key pkg) with
      | Ok aggregate_value =>
          if aggregate_value <=? amount d
          then reject d (AmountNotBelowValue aggregate_value (amount d)) else Ok tt
      | Err e => reject d (ValidationFailed e)
      | Panic => Panic
      end
  end.

Definition parse_mint (log : Log) : outcome MintContractError (option PeginData) :=
  default Panic (map_err of_mint_error <$> try_parse_mint_event log).

Definition check_mint_log (pkg : BotanixConsensusPackage) (pegins : list PeginData) (log : Log)
    : outcome MintContractError (list PeginData) :=
  let? pegin_data := parse_mint log in
  match pegin_data with
  | None => Ok pegins
  | Some d => check_pegin pkg d ;? Ok (pegins ++ [d])
  end.

Definition check_burn_log (pkg : BotanixConsensusPackage) (tx_hash : bytes)
    (pegouts : list PegoutWithId) (entry : Z * Log) : outcome MintContractError (list PegoutWithId) :=
  let '(index, log) := entry in
  let? pegout_data := map_err of_burn_error (try_parse_burn_event log (btc_network pkg)) in
  match pegout_data with
  | Some data => Ok (pegouts ++ [mkPegoutWithId data (PegoutId_new tx_hash (index mod 2 ^ 32))])
  | None => Ok pegouts
  end.

(** [botanix_mint_contract_checks] on the logs of a transaction *)
Definition botanix_mint_contract_checks (logs : list Log) (pkg : BotanixConsensusPackage)
    (tx_hash : bytes) : outcome MintContractError (list PeginData * list PegoutWithId) :=
  let? pegins := ofold (check_mint_log pkg) [] logs in
  let? pegouts := ofold (check_burn_log pkg tx_hash) [] (imap (λ i log, (Z.of_nat i, log)) logs) in
  Ok (pegins, pegouts).

End checks.

(** ** Parsing the proofs of a mint event *)

Section mint_parsing.
Context `{!PegLib, !MintLib} (tx_wf : Transaction → Prop) `{!PegLaws tx_wf}.

(** Every proof is at least a byte long. *)
Lemma parse_proofs_fuel fuel dest amt mb offset outs proofs :
  0 ≤ offset → Z.of_nat (length mb) ≤ offset + Z.of_nat fuel →
  is_Some (parse_proofs fuel dest amt mb offset outs proofs).
Proof.
  revert offset outs proofs. induction fuel as [|fuel IH]; intros offset outs proofs Ho Hf; simpl.
  { rewrite (proj2 (Z.leb_le _ _)) by lia. eauto. }
  destruct (_ <=? offset); [eauto|].
  destruct (PeginMeta_deserialize _) as [[m n]|e|] eqn:E; [|eauto..].
  destruct (decide _); [eauto|]. apply (pegin_meta_progress tx_wf) in E as [Hn _]. apply IH; lia.
Qed.

(** What the loop accepts. *)
Lemma parse_proofs_sound fuel dest amt mb offset outs proofs ms :
  parse_proofs fuel dest amt mb offset outs proofs = Some (Ok ms) →
  ∃ new, ms = proofs ++ new ∧ NoDup (map meta_outpoint new) ∧ Forall meta_bounded new ∧
    ∀ m, m ∈ new → meta_outpoint m ∉ outs.
Proof.
  revert offset outs proofs. induction fuel as [|fuel IH]; intros offset outs proofs; simpl;
    destruct (_ <=? offset); try done; [..|].
  1,2: intros [= ->]; exists []; rewrite app_nil_r; split_and!; [done|constructor|constructor|set_solver].
  destruct (PeginMeta_deserialize _) as [[m n]|e|] eqn:E; [|done..].
  destruct (decide _) as [|Hout]; [done|]. intros (new & -> & Hnd & Hb & Hnew)%IH.
  exists (m :: new). rewrite <-app_assoc. split_and!; [done| | |].
  - cbn [map]. apply NoDup_cons. split; [|done]. intros (m' & Heq & Hm')%list_elem_of_fmap.
    apply Hnew in Hm'. set_solver.
  - constructor; [by eapply (pegin_meta_bounded tx_wf)|done].
  - intros m' [->|Hm']%elem_of_cons; [done|]. apply Hnew in Hm'. set_solver.
Qed.

(** Encoded proofs with distinct outpoints are read back. *)
Lemma parse_proofs_complete dest amt ms : ∀ fuel prefix outs proofs,
  (length ms ≤ fuel)%nat → Forall (meta_wf tx_wf) ms → NoDup (map meta_outpoint ms) →
  (∀ m, m ∈ ms → meta_outpoint m ∉ outs) →
  parse_proofs fuel dest amt (prefix ++ concat (map PeginMeta_serialize ms))
    (Z.of_nat (length prefix)) outs proofs = Some (Ok (proofs ++ ms)).
Proof.
  induction ms as [|m ms IH]; intros fuel prefix outs proofs Hf Hwf Hnd Hout.
  { destruct fuel; simpl; rewrite app_nil_r, (proj2 (Z.leb_le _ _)) by lia; by rewrite app_nil_r. }
  destruct fuel as [|fuel]; [simpl in Hf; lia|]. apply Forall_cons in Hwf as [Hm Hwf].
  cbn [map] in Hnd. apply NoDup_cons in Hnd as [Hnew Hnd].
  pose proof (deserialize_serialize_meta tx_wf m (concat (map PeginMeta_serialize ms)) Hm) as Hrt.
  pose proof (pegin_meta_progress tx_wf _ _ _ Hrt) as [Hpos _]. cbn [map concat parse_proofs].
  rewrite !length_app, (proj2 (Z.leb_gt _ _)) by lia.
  rewrite Nat2Z.id, drop_app_length, Hrt, decide_False by (apply Hout; set_solver).
  rewrite app_assoc, <-Nat2Z.inj_add, <-length_app, IH; [by rewrite <-app_assoc|simpl in Hf; lia|done|done|].
  intros m' Hm'. apply not_elem_of_union. split; [|apply Hout; set_solver].
  intros Heq%elem_of_singleton. apply Hnew. apply list_elem_of_fmap. eauto.
Qed.

(** A log that carries the encoded proofs [ms], as the minting contract emits
    it. *)
Definition mint_log (log : Log) (destination : bytes) (amount height : Z) (ms : list PeginMeta) : Prop :=
  log_address log = MINT_CONTRACT_ADDRESS ∧
  (∃ t, topics log = [MINT_TOPIC; t] ∧ abi_decode [PAddress] t = Some [TAddress destination]) ∧
  abi_decode [PUint 256; PUint 32; PBytes] (log_data log) =
    Some [TUint amount; TUint height; TBytes (concat (map PeginMeta_serialize ms))].

Lemma try_parse_mint_event_total log : is_Some (try_parse_mint_event log).
Proof.
  unfold try_parse_mint_event. destruct (negb _); [eauto|].
  destruct (topics log) as [|topic [|t [|]]]; [eauto|destruct (negb _); eauto| |destruct (negb _); eauto].
  destruct (negb _); [eauto|].
  match goal with |- context [match ?r with Ok _ => _ | Err _ => _ | Panic => _ end] =>
    destruct r as [[[[dest amt] h] mb]|e|] end; [|eauto..].
  destruct (parse_proofs_fuel (length mb) dest amt mb 0 ∅ []) as [o Ho]; [lia..|]. rewrite Ho. simpl. eauto.
Qed.

Lemma try_parse_mint_event_sound log d :
  try_parse_mint_event log = Some (Ok (Some d)) →
  NoDup (map meta_outpoint (meta d)) ∧ Forall meta_bounded (meta d) ∧
  log_address log = MINT_CONTRACT_ADDRESS ∧ head (topics log) = Some MINT_TOPIC.
Proof.
  unfold try_parse_mint_event. case_bool_decide as Ha; [|done]. cbn [negb].
  destruct (topics log) as [|topic rest]; [done|]. case_bool_decide as Ht; [|done]. cbn [negb head].
  destruct rest as [|t [|]]; [done| |done].
  match goal with |- context [match ?r with Ok _ => _ | Err _ => _ | Panic => _ end] =>
    destruct r as [[[[dest amt] h] mb]|e|] end; [|done..].
  destruct (parse_proofs _ _ _ _ _ _ _) as [o|] eqn:Ep; [|done]. simpl. intros Hd. injection Hd as Hd.
  apply obind_Ok in Hd as (ms & -> & [= <-]). apply parse_proofs_sound in Ep as (new & -> & Hnd & Hb & _).
  subst topic. by split_and!.
Qed.

Lemma try_parse_mint_event_complete log destination amount height ms :
  mint_log log destination amount height ms → height ≤ u32_max →
  Forall (meta_wf tx_wf) ms → NoDup (map meta_outpoint ms) →
  try_parse_mint_event log = Some (Ok (Some (mkPeginData destination amount height ms))).
Proof.
  intros (Ha & (t & Ht & Hdest) & Hparams) Hh Hwf Hnd. unfold try_parse_mint_event.
  rewrite bool_decide_true by done. rewrite Ht, bool_decide_true by done. cbn [negb].
  unfold topic_to_address. rewrite Hdest. cbn [mbind option_bind head into_address ok_or obind].
  rewrite Hparams. cbn [ok_or obind into_uint into_bytes]. unfold uint_as_u32.
  rewrite (proj2 (Z.leb_le _ _)) by done. cbn [obind].
  pose proof (parse_proofs_complete destination amount ms
    (length (concat (map PeginMeta_serialize ms))) [] ∅ []) as Hp.
  change ([] ++ ?x) with x in Hp. change (Z.of_nat (length (A:=Z) [])) with 0 in Hp.
  rewrite Hp; [done| |done|done|set_solver].
  clear -Hwf PegLaws0. induction Hwf as [|m ms Hm Hms IH]; [done|]. cbn [map concat]. rewrite length_app.
  pose proof (deserialize_serialize_meta tx_wf m [] Hm) as Hrt.
  apply (pegin_meta_progress tx_wf) in Hrt as [Hpos _]. simpl. lia.
Qed.

(** Reading a mint event always ends.  What it accepts comes from the
    minting contract and has pairwise distinct outpoints, and of an event of
    the contract that carries encoded proofs with distinct outpoints it
    returns exactly those proofs. *)
Theorem mint_event_spec :
  (∀ log, is_Some (try_parse_mint_event log)) ∧
  (∀ log d, try_parse_mint_event log = Some (Ok (Some d)) →
    NoDup (map meta_outpoint (meta d)) ∧ Forall meta_bounded (meta d) ∧
    log_address log = MINT_CONTRACT_ADDRESS ∧ head (topics log) = Some MINT_TOPIC) ∧
  (∀ log destination amount height ms,
    mint_log log destination amount height ms → height ≤ u32_max →
    Forall (meta_wf tx_wf) ms → NoDup (map meta_outpoint ms) →
    try_parse_mint_event log = Some (Ok (Some (mkPeginData destination amount height ms)))).
Proof.
  split; [apply try_parse_mint_event_total|]. split; [apply try_parse_mint_event_sound|].
  apply try_parse_mint_event_complete.
Qed.
End mint_parsing.

(** ** What the checks guarantee *)

Section mint_checks.
Context `{!PegLib, !BitcoinLib, !Profile, !MintLib, !CheckpointSource, !BlockSource}.
Context (tx_wf : Transaction → Prop) `{!PegLaws tx_wf} (bitcoin_network : Network).

(** A claim is backed: its proofs are valid under a checkpoint that is at
    least as high as the deposits, that of the block or of the block the
    proofs refer to, and their outputs are worth more than it mints. *)
Record backed (pkg : BotanixConsensusPackage) (d : PeginData) (cp : Header * Z) (vs : list Wei) : Prop := {
  bk_valid : claim_valid d cp (aggregate_public_key pkg) vs;
  bk_value : amount d < sumZ vs;
  bk_distinct : NoDup (map meta_outpoint (meta d));
  bk_height : bitcoin_block_height d ≤ cp.2;
  bk_checkpoint : ∃ first, head (meta d) = Some first ∧
    match meta_ref_block_hash first with
    | Some hash => ∃ h p, find_block_by_hash hash = Ok (Some h) ∧
        botanix_consensus_package h bitcoin_network = Ok p ∧ cp = bitcoin_checkpoint p
    | None => cp = bitcoin_checkpoint pkg
    end;
  bk_uniform : ∀ m, m ∈ meta d → ∀ m', m' ∈ meta d →
    meta_version m = meta_version m' ∧ meta_ref_block_hash m = meta_ref_block_hash m' }.

Lemma package_height h n p : botanix_consensus_package h n = Ok p → is_u32 (bitcoin_checkpoint p).2.
Proof.
  unfold botanix_consensus_package. intros (edh & _ & Hp)%obind_Ok. case_bool_decide.
  - injection Hp as <-. by vm_compute.
  - apply obind_Ok in Hp as (hd & _ & Hp). apply obind_Ok in Hp as (height & _ & [= <-]).
    simpl. unfold is_u32, u32_max. pose proof (Z.mod_pos_bound height (2 ^ 32)). lia.
Qed.
Lemma checkpoint_of_Ok pkg d first cp :
  (meta_version first = 0 ∨ meta_version first = 1) →
  checkpoint_of bitcoin_network pkg d first = Ok cp →
  match meta_ref_block_hash first with
  | Some hash => ∃ h p, find_block_by_hash hash = Ok (Some h) ∧
      botanix_consensus_package h bitcoin_network = Ok p ∧ cp = bitcoin_checkpoint p
  | None => cp = bitcoin_checkpoint pkg
  end.
Proof.
  unfold checkpoint_of. intros [->| ->]; destruct (meta_ref_block_hash first) as [hash|]; try done.
  - by intros [= <-].
  - destruct (find_block_by_hash hash) as [[h|]|e|]; [|done..]. intros (p & Hp & [= <-])%obind_Ok.
    apply map_err_Ok in Hp. eauto.
Qed.

Lemma check_pegin_backed pkg d :
  is_u32 (bitcoin_checkpoint pkg).2 → Forall meta_bounded (meta d) → NoDup (map meta_outpoint (meta d)) →
  check_pegin bitcoin_network pkg d = Ok tt → ∃ cp vs, backed pkg d cp vs.
Proof.
  intros Hpkg Hb Hnd. unfold check_pegin. destruct (meta d) as [|first rest] eqn:Em; [done|].
  intros (cp & Hcp & Hc)%obind_Ok. apply obind_Ok in Hc as ([] & Hu & Hc).
  rewrite ofor_Ok in Hu. destruct (Z.ltb_spec cp.2 (bitcoin_block_height d)); [done|].
  destruct (PeginData_validate d cp (aggregate_public_key pkg)) as [agg|e|] eqn:Ev; [|done..].
  destruct (Z.leb_spec agg (amount d)); [done|].
  pose proof (validate_version d cp _ _ first ltac:(by rewrite Em) Ev) as Hver.
  pose proof (checkpoint_of_Ok _ _ _ _ Hver Hcp) as Hck.
  assert (is_u32 cp.2) as Hcp2.
  { destruct (meta_ref_block_hash first); [|by rewrite Hck].
    destruct Hck as (h & p & _ & Hp & ->). exact (package_height _ _ _ Hp). }
  apply validate_sound in Ev as (vs & Hvs & ->); [|by rewrite Em|done].
  exists cp, vs. split; [done|done|by rewrite Em|done|exists first; by rewrite Em|].
  rewrite Em. rewrite Forall_forall in Hu.
  assert (∀ m, m ∈ first :: rest → meta_version m = meta_version first ∧
    meta_ref_block_hash m = meta_ref_block_hash first) as Hall.
  { intros m Hm. specialize (Hu m Hm). unfold reject in Hu. apply obind_Ok in Hu as ([] & Hu1 & Hu2).
    split; [by destruct (bool_decide_reflect (meta_version m = meta_version first))|by destruct (bool_decide_reflect (meta_ref_block_hash m = meta_ref_block_hash first))]. }
  intros m Hm m' Hm'. destruct (Hall m Hm) as [-> ->], (Hall m' Hm') as [-> ->]. done.
Qed.

Lemma check_mint_logs_backed pkg logs pegins0 pegins :
  is_u32 (bitcoin_checkpoint pkg).2 →
  Forall (λ d, ∃ cp vs, backed pkg d cp vs) pegins0 →
  ofold (check_mint_log bitcoin_network pkg) pegins0 logs = Ok pegins →
  Forall (λ d, ∃ cp vs, backed pkg d cp vs) pegins.
Proof.
  intros Hpkg. revert pegins0. induction logs as [|log logs IH]; intros pegins0 Hp0; cbn [ofold].
  { by intros [= <-]. }
  intros (p1 & Hl1 & Hl2)%obind_Ok. refine (IH _ _ Hl2). clear Hl2 IH. unfold check_mint_log, parse_mint in Hl1.
  apply obind_Ok in Hl1 as (o & Hp & Hl1). destruct o as [d|]; [|by injection Hl1 as <-].
  apply obind_Ok in Hl1 as ([] & Hc & [= <-]). apply Forall_app. split; [done|].
  apply Forall_cons. split; [|by apply Forall_nil].
  destruct (try_parse_mint_event log) as [o|] eqn:Et; [|done]. simpl in Hp. apply map_err_Ok in Hp as ->.
  apply (try_parse_mint_event_sound tx_wf) in Et as (Hnd & Hb & _). by apply check_pegin_backed.
Qed.

(** The pegout of a log. *)
Definition burned (pkg : BotanixConsensusPackage) (tx_hash : bytes) (entry : Z * Log) : option PegoutWithId :=
  match try_parse_burn_event entry.2 (btc_network pkg) with
  | Ok (Some data) => Some (mkPegoutWithId data (mkPegoutId tx_hash (entry.1 mod 2 ^ 32)))
  | _ => None
  end.

Lemma check_burn_logs_Ok pkg tx_hash l pegouts0 pegouts :
  ofold (check_burn_log pkg tx_hash) pegouts0 l = Ok pegouts →
  pegouts = pegouts0 ++ omap (burned pkg tx_hash) l.
Proof.
  revert pegouts0. induction l as [|[i log] l IH]; intros pegouts0; cbn [ofold omap list_omap].
  { intros [= <-]. by rewrite app_nil_r. }
  intros (p1 & Hl1 & ->%IH)%obind_Ok. unfold check_burn_log in Hl1.
  apply obind_Ok in Hl1 as (o & Ho%map_err_Ok & Hl1). unfold burned at 2. cbn [fst snd]. rewrite Ho.
  destruct o as [data|]; injection Hl1 as <-; [|done]. by rewrite <-app_assoc.
Qed.

Lemma omap_ids_NoDup pkg tx_hash l :
  Forall (λ e : Z * Log, 0 ≤ e.1 < 2 ^ 32) l → NoDup l.*1 →
  NoDup (map po_id (omap (burned pkg tx_hash) l)).
Proof.
  induction l as [|[i log] l IH]; intros Hr Hnd; [constructor|].
  apply Forall_cons in Hr as [Hi Hr]. cbn [fmap list_fmap fst] in Hnd. apply NoDup_cons in Hnd as [Hni Hnd].
  specialize (IH Hr Hnd). cbn [omap list_omap]. unfold burned at 1. cbn [fst snd].
  destruct (try_parse_burn_event log _) as [[data|]| |]; [|done..]. cbn [map po_id]. apply NoDup_cons.
  split; [|done]. intros (p & Heq & Hp)%list_elem_of_fmap. apply Hni.
  apply list_elem_of_omap in Hp as ([j log'] & Hj & Hb). unfold burned in Hb. cbn [fst snd] in Hb.
  destruct (try_parse_burn_event log' _) as [[data'|]| |]; [|done..]. injection Hb as <-.
  cbn [po_id] in Heq. injection Heq as Heq. apply list_elem_of_fmap. exists (j, log'). split; [|done].
  rewrite Forall_forall in Hr. specialize (Hr _ Hj). cbn [fst] in *. by rewrite !Z.mod_small in Heq by lia.
Qed.

Lemma indexed_NoDup (logs : list Log) : NoDup (imap (λ i log, (Z.of_nat i, log)) logs).*1.
Proof.
  replace ((imap (λ i log, (Z.of_nat i, log)) logs).*1) with (Z.of_nat <$> seq 0 (length logs)).
  - apply NoDup_fmap_2; [apply _|apply NoDup_seq].
  - apply list_eq. intros i. rewrite !list_lookup_fmap, list_lookup_imap.
    destruct (logs !! i) as [log|] eqn:E; simpl.
    + rewrite lookup_seq_lt by (by eapply lookup_lt_Some). done.
    + by rewrite lookup_seq_ge by (by apply lookup_ge_None).
Qed.

Lemma mint_checks_Ok pkg logs tx_hash pegins pegouts :
  is_u32 (bitcoin_checkpoint pkg).2 → Z.of_nat (length logs) ≤ 2 ^ 32 →
  botanix_mint_contract_checks bitcoin_network logs pkg tx_hash = Ok (pegins, pegouts) →
  Forall (λ d, ∃ cp vs, backed pkg d cp vs) pegins ∧
  pegouts = omap (burned pkg tx_hash) (imap (λ i log, (Z.of_nat i, log)) logs) ∧
  NoDup (map po_id pegouts).
Proof.
  intros Hpkg Hlen. unfold botanix_mint_contract_checks.
  intros (ps & Hps & Hc)%obind_Ok. apply obind_Ok in Hc as (os & Hos%check_burn_logs_Ok & [= <- <-]).
  split; [by eapply check_mint_logs_backed|]. split; [exact Hos|]. rewrite Hos. apply omap_ids_NoDup.
  - apply Forall_lookup. intros i e He. rewrite list_lookup_imap in He.
    destruct (logs !! i) as [log|] eqn:E; [|done]. injection He as <-. apply lookup_lt_Some in E. simpl. lia.
  - apply indexed_NoDup.
Qed.

(** C8.  The checks of the minting contract are sound: when the logs of a
    transaction pass, every pegin is backed, that is, its proofs are valid
    deposits to the gateway of the claiming account with pairwise distinct
    outpoints, at or below a checkpoint of this block or of the block they
    refer to, all of one version, and worth more than is minted; and the
    pegouts are exactly the burn events, with pairwise distinct ids. *)
Theorem mint_checks_sound pkg logs tx_hash pegins pegouts :
  is_u32 (bitcoin_checkpoint pkg).2 → Z.of_nat (length logs) ≤ 2 ^ 32 →
  botanix_mint_contract_checks bitcoin_network logs pkg tx_hash = Ok (pegins, pegouts) →
  Forall (λ d, ∃ cp vs, backed pkg d cp vs) pegins ∧
  pegouts = omap (burned pkg tx_hash) (imap (λ i log, (Z.of_nat i, log)) logs) ∧
  NoDup (map po_id pegouts).
Proof. exact (mint_checks_Ok pkg logs tx_hash pegins pegouts). Qed.
End mint_checks.

(** ** A concrete instance *)

#[export] Instance toy_mint : MintLib := {
  abi_decode params b :=
    match params with
    | [PAddress] => Some [TAddress (take 20 b)]
    | [PUint _; PUint _; PBytes] =>
        Some [TUint (from_le_bytes (take 8 b)); TUint (from_le_bytes (take 4 (drop 8 b))); TBytes (drop 12 b)]
    | [PUint _; PString; PBytes] =>
        Some [TUint (from_le_bytes (take 8 b)); TString (take 3 (drop 8 b)); TBytes (drop 11 b)]
    | _ => None
    end;
  keccak256 b := take 32 (b ++ replicate 32 0) }.

#[export] Instance toy_checkpoints : CheckpointSource := {
  get_block_header_rpc _ := Ok toy_checkpoint.1;
  get_block_info_height _ := Ok toy_checkpoint.2 }.

#[export] Instance toy_blocks_by_hash : BlockSource := λ _, Ok None.

Definition toy_mint_log (amount height : Z) (metas : list PeginMeta) : Log :=
  mkLog MINT_CONTRACT_ADDRESS [MINT_TOPIC; replicate 20 1 ++ replicate 12 0]
    (to_le_bytes 8 amount ++ to_le_bytes 4 height ++ concat (map PeginMeta_serialize metas)).

Definition toy_burn_log (wei : Z) : Log :=
  mkLog MINT_CONTRACT_ADDRESS [BURN_TOPIC; replicate 32 0] (to_le_bytes 8 wei ++ [98; 99; 49; 0]).

Definition toy_package : BotanixConsensusPackage := mkConsensusPackage toy_checkpoint true Regtest.

Lemma mint_event_spec_witness :
  try_parse_mint_event (toy_mint_log 1 98 [toy_meta 0; toy_meta 2]) =
    Some (Ok (Some (mkPeginData (replicate 20 1) 1 98 [toy_meta 0; toy_meta 2]))).
Proof.
  refine (proj2 (proj2 (mint_event_spec toy_tx_wf)) (toy_mint_log 1 98 [toy_meta 0; toy_meta 2])
    (replicate 20 1) 1 98 [toy_meta 0; toy_meta 2] _ _ _ _).
  - split; [reflexivity|]. split; [eexists; split; reflexivity|]. vm_compute. reflexivity.
  - by vm_compute.
  - repeat (apply Forall_cons; split; [apply toy_meta_wf; by vm_compute|]). by apply Forall_nil.
  - apply (bool_decide_unpack _). by vm_compute.
Defined.

Lemma edh_roundtrip_witness :
  let e := mkEdh 0 0 (replicate 32 5) true (replicate 20 6) in
  let h := mkEthHeader [] [] 1 2 3 4 None [] None None None [] in
  deserialize_extra_data_header (add_extra_data_header e h) = Ok e ∧ edh_size e = 93.
Proof.
  intros e h.
  assert (edh_wf e) as He by (apply (bool_decide_unpack _); by vm_compute).
  split.
  - refine (eq_trans _ (proj1 (edh_roundtrip toy_tx_wf) e [] h He)). unfold add_extra_data_header.
    by rewrite app_nil_r.
  - exact (proj1 (proj2 (edh_roundtrip toy_tx_wf)) e He).
Defined.

Definition toy_logs : list Log := [toy_mint_log 1 98 [toy_meta 0]; toy_burn_log 30000000000].

Lemma mint_checks_sound_witness :
  let profile : Profile := false in
  let pegouts := [mkPegoutWithId (mkPegoutData 3 tt Regtest) (mkPegoutId (replicate 32 8) 1)] in
  botanix_mint_contract_checks Regtest toy_logs toy_package (replicate 32 8) = Ok ([toy_claim 0], pegouts) ∧
  ∃ cp vs, backed Regtest toy_package (toy_claim 0) cp vs.
Proof.
  intros profile pegouts.
  assert (is_u32 (bitcoin_checkpoint toy_package).2) as Hcp by (by vm_compute).
  assert (Z.of_nat (length toy_logs) ≤ 2 ^ 32) as Hlen by (by vm_compute).
  assert (botanix_mint_contract_checks Regtest toy_logs toy_package (replicate 32 8) = Ok ([toy_claim 0], pegouts))
    as Hrun by (vm_cast_no_check (eq_refl (botanix_mint_contract_checks Regtest toy_logs toy_package (replicate 32 8)))).
  split; [exact Hrun|].
  pose proof (mint_checks_sound toy_tx_wf Regtest toy_package toy_logs (replicate 32 8)
    [toy_claim 0] pegouts Hcp Hlen Hrun) as Hs.
  destruct Hs as [Hb _].
  exact (Forall_inv Hb).
Defined.
