(* ===== verification/Execution.v ===== *)
(** * Block execution

    src/crates/botanix-evm/src/execute.rs: how a block is executed, with the
    checks of the minting contract after every successful transaction and the
    partial revert of a transaction that fails them
    ([execute_state_transitions], [execute_without_verification]); the
    distribution of the block fees (state.rs in the same crate,
    [block_fees_split] of src/crates/botanix-consensus-common/src/utils.rs).

    The EVM and its database are the parameter [Evm]: a database of accounts
    with a lookup, a commit of account changes and an increment of balances
    (what a lookup caches in the database is not part of it).
    [U256] products and sums of gas and prices do not overflow: the gas is a
    [u64] and the price a [u128]. *)

From S2P Require Import Prelude Bytes Bitcoin Concrete Codec Peg Edh Mint.
From stdpp Require Import strings.

Open Scope Z_scope.

(** ** Fees *)

Definition u128_max : Z := 2 ^ 128 - 1.

Definition checked_mul_u128 (a b : Z) : option Z := if a * b <=? u128_max then Some (a * b) else None.
Definition checked_add_u128 (a b : Z) : option Z := if a + b <=? u128_max then Some (a + b) else None.

Definition block_fees_split {E : Type} (total_block_fees : Z) : outcome E (Z * Z * Z) :=
  let? half := expect (checked_mul_u128 total_block_fees 50) in
  let? lst_fee_receiver_fees := expect (checked_div half 100) in
  let? forty := expect (checked_mul_u128 total_block_fees 40) in
  let? botanix_fees := expect (checked_div forty 100) in
  let? rest := expect (checked_sub total_block_fees lst_fee_receiver_fees) in
  let? block_fee_recipient_fees := expect (checked_sub rest botanix_fees) in
  Ok (lst_fee_receiver_fees, botanix_fees, block_fee_recipient_fees).

Abbreviation Address := bytes.

Definition ZERO_ADDRESS : Address := replicate 20 0.

(** The fields of the chain specification that execution reads.  The two
    recipients are strings there: [Address::from_str] is already applied, and
    is [None] on a string that is no address. *)
Record BotanixChainSpec := mkChainSpec {
  is_spurious_dragon_active_at_block : Z → bool;
  botanix_fee_recipient : option (option Address);
  lst_fee_receiver : option (option Address) }.

(** [entry(a).and_modify(checked_add).or_insert(v)] *)
Definition increment_entry {E : Type} (a : bytes) (v : Z) (m : gmap Address Z) : outcome E (gmap Address Z) :=
  match m !! a with
  | Some bal => let? bal := expect (checked_add_u128 bal v) in Ok (<[a := bal]> m)
  | None => Ok (<[a := v]> m)
  end.

Definition post_block_balance_increments {E : Type} (spec : BotanixChainSpec) (total_block_fees : option Z)
    (block_fee_recipient_address : option Address) : outcome E (gmap Address Z) :=
  let fees := default 0 total_block_fees in
  let block_fee_recipient := default ZERO_ADDRESS block_fee_recipient_address in
  match botanix_fee_recipient spec, lst_fee_receiver spec with
  | Some botanix, Some lst =>
      if (0 <? fees) && negb (bool_decide (block_fee_recipient = ZERO_ADDRESS)) then
        let? '(lst_fee_receiver_fees, botanix_fees, block_fee_recipient_fees) := block_fees_split fees in
        let? lst_fee_receiver_addr := expect lst in
        let? m := increment_entry lst_fee_receiver_addr lst_fee_receiver_fees ∅ in
        let? botanix_addr := expect botanix in
        let? m := increment_entry botanix_addr botanix_fees m in
        increment_entry block_fee_recipient block_fee_recipient_fees m
      else Ok ∅
  | _, _ => Ok ∅
  end.

(** ** The EVM *)

Record AccountInfo := mkAccountInfo { balance : Z; nonce : Z; code_hash : bytes }.

Inductive AccountStatus := Touched | OtherStatus.

Record Account := mkAccount {
  info : AccountInfo;
  storage : gmap Z Z;
  status : AccountStatus;
  transaction_id : Z }.

Inductive ExecutionResult :=
| Success (gas_used : Z) (logs : list Log)
| Revert (gas_used : Z)
| Halt (gas_used : Z).

Definition result_gas_used (r : ExecutionResult) : Z :=
  match r with Success g _ | Revert g | Halt g => g end.
Definition is_success (r : ExecutionResult) : bool := match r with Success _ _ => true | _ => false end.
Definition into_logs (r : ExecutionResult) : list Log := match r with Success _ logs => logs | _ => [] end.

Inductive TxType := Legacy | Eip2930 | Eip1559 | Eip4844 | Eip7702.

Record Receipt := mkReceipt {
  r_tx_type : TxType;
  r_success : bool;
  r_cumulative_gas_used : Z;
  r_logs : list Log }.

(** The environment in which the transactions of a block run *)
Inductive BotanixHardfork := Prague.

Record BlockEnv := mkBlockEnv {
  be_number : Z;
  be_beneficiary : Address;
  be_timestamp : Z;
  be_difficulty : Z;
  be_prevrandao : option bytes;
  be_gas_limit : Z;
  be_basefee : Z;
  (** the excess blob gas and its price *)
  be_blob_excess_gas_and_price : option (Z * Z) }.

Record CfgEnv := mkCfgEnv {
  ce_chain_id : Z;
  ce_spec : BotanixHardfork;
  ce_max_blobs_per_tx : option Z;
  ce_disable_nonce_check : bool }.

Abbreviation EvmEnv := (CfgEnv * BlockEnv)%type.

Class Evm := {
  EvmDb : Type;
  EvmTx : Type;
  tx_hash : EvmTx → bytes;
  tx_gas_limit : EvmTx → Z;
  (** [effective_tip_per_gas] and [effective_gas_price] under a base fee *)
  effective_tip_per_gas : EvmTx → Z → option Z;
  effective_gas_price : EvmTx → option Z → Z;
  is_eip2930 : EvmTx → bool;
  is_eip1559 : EvmTx → bool;
  is_eip4844 : EvmTx → bool;
  is_eip7702 : EvmTx → bool;
  basic : Address → EvmDb → outcome unit (option AccountInfo);
  (** the environment that the configured [ConfigureEvm::evm_env] gives a block,
      and a transaction under an environment *)
  config_env : EthHeader → EvmEnv;
  transact : EvmEnv → EvmTx → Address → EvmDb → outcome unit (ExecutionResult * gmap Address Account);
  commit : gmap Address Account → EvmDb → EvmDb;
  set_state_clear_flag : bool → EvmDb → EvmDb;
  (** an error leaves the database as it is *)
  apply_pre_execution_changes : EthHeader → EvmDb → option EvmDb;
  increment_balances : gmap Address Z → EvmDb → option EvmDb }.

Section execution.
Context `{!PegLib, !BitcoinLib, !Profile, !MintLib, !CheckpointSource, !BlockSource, !Evm}.
Context (bitcoin_network : Network).

Definition tx_type (tx : EvmTx) : TxType :=
  if is_eip7702 tx then Eip7702 else if is_eip4844 tx then Eip4844
  else if is_eip1559 tx then Eip1559 else if is_eip2930 tx then Eip2930 else Legacy.

Record Block := mkBlock {
  header : EthHeader;
  transactions : list EvmTx;
  senders : list Address }.

Record EthExecuteOutput := mkOutput {
  receipts : list Receipt;
  total_gas_used : Z;
  total_block_fees : Z;
  pegins : list PeginData;
  pegouts : list PegoutWithId }.

Inductive BlockExecutionError :=
| TransactionGasLimitMoreThanAvailableBlockGas (transaction_gas_limit block_available_gas : Z)
| InternalError (msg : string)
| PreExecutionFailed
| IncrementBalanceFailed
| ExtraDataSerializeError
| BotanixConsensusPkgError (e : BotanixConsensusPackageError).

(** The database and what has been collected so far. *)
Record ExecState := mkExec {
  x_db : EvmDb;
  x_out : EthExecuteOutput }.

Abbreviation X A := (M ExecState BlockExecutionError A).

Definition db_mut (f : EvmDb → EvmDb) : X unit := modify (λ s, mkExec (f (x_db s)) (x_out s)).

Definition add_gas_and_fees (gas fees : Z) (o : EthExecuteOutput) : EthExecuteOutput :=
  mkOutput (receipts o) gas fees (pegins o) (pegouts o).

Definition push_tx (r : Receipt) (ins : list PeginData) (outs : list PegoutWithId)
    (o : EthExecuteOutput) : EthExecuteOutput :=
  mkOutput (receipts o ++ [r]) (total_gas_used o) (total_block_fees o) (pegins o ++ ins) (pegouts o ++ outs).

Definition out_mut (f : EthExecuteOutput → EthExecuteOutput) : X unit :=
  modify (λ s, mkExec (x_db s) (f (x_out s))).

(** The changes that replace those of a transaction whose events are invalid:
    the sender pays for the gas and its nonce advances. *)
Definition revert_changes (tx_index : Z) (sender : Address) (original : AccountInfo)
    (state : gmap Address Account) (gas_used effective_gas_price : Z)
    : outcome BlockExecutionError (gmap Address Account) :=
  let total_gas_cost := gas_used * effective_gas_price in
  let? account := ok_or (state !! sender) (InternalError "Sender not found in state") in
  let? balance := ok_or (if total_gas_cost <=? balance original
                         then Some (balance original - total_gas_cost) else None)
                    (InternalError "Sender balance underflow") in
  Ok {[ sender := mkAccount (mkAccountInfo balance (nonce (info account)) (code_hash original)) ∅
                    Touched tx_index ]}.

Definition evm_env_for_block (header : EthHeader) : EvmEnv := config_env header.

(** One turn of the loop over the transactions, which run under the environment
    of the block. *)
Definition execute_transaction (block_header : EthHeader) (pkg : BotanixConsensusPackage)
    (entry : Z * (Address * EvmTx)) : X unit :=
  let '(tx_index, (sender, transaction)) := entry in
  let base_fee := base_fee_per_gas block_header in
  let! s := get in
  let! block_available_gas := lift (usub 64 (gas_limit block_header) (total_gas_used (x_out s))) in
  if block_available_gas <? tx_gas_limit transaction
  then fail (TransactionGasLimitMoreThanAvailableBlockGas (tx_gas_limit transaction) block_available_gas)
  else
  let! basic_info := lift (map_err (λ _, InternalError "DB error getting sender") (basic sender (x_db s))) in
  let! original_sender_info := lift (ok_or basic_info (InternalError "Sender not found in state")) in
  let! '(result, state) := lift (map_err (λ _, InternalError "EVM error for transaction")
                                   (transact (evm_env_for_block block_header) transaction sender (x_db s))) in
  let! tip := lift (expect (effective_tip_per_gas transaction (default 0 base_fee))) in
  let! transaction_fee := lift (uadd 128 tip (default 0 base_fee)) in
  let! fee := lift (umul 128 transaction_fee (result_gas_used result)) in
  let! fees := lift (uadd 128 (total_block_fees (x_out s)) fee) in
  let! gas := lift (uadd 64 (total_gas_used (x_out s)) (result_gas_used result)) in
  out_mut (add_gas_and_fees gas fees) ;!
  let! '(new_result, state, ins, outs) :=
    (if is_success result then
       match botanix_mint_contract_checks bitcoin_network (into_logs result) pkg (tx_hash transaction) with
       | Ok (new_pegins, new_pegouts) => ret (result, state, new_pegins, new_pegouts)
       | Err _ =>
           let! state := lift (revert_changes tx_index sender original_sender_info state
                                 (result_gas_used result) (effective_gas_price transaction base_fee)) in
           ret (Revert (result_gas_used result), state, [], [])
       | Panic => panic
       end
     else ret (result, state, [], [])) in
  db_mut (commit state) ;!
  out_mut (push_tx (mkReceipt (tx_type transaction) (is_success new_result) gas (into_logs new_result))
             ins outs).

Definition empty_output : EthExecuteOutput := mkOutput [] 0 0 [] [].

(** [execute_state_transitions] collects from nothing. *)
Definition execute_state_transitions (block : Block) (pkg : BotanixConsensusPackage) : X unit :=
  let! s := get in
  let! db := lift (ok_or (apply_pre_execution_changes (header block) (x_db s)) PreExecutionFailed) in
  db_mut (λ _, db) ;!
  out_mut (λ _, empty_output) ;!
  forM (imap (λ i e, (Z.of_nat i, e)) (zip (senders block) (transactions block)))
    (execute_transaction (header block) pkg).

Definition post_execution (spec : BotanixChainSpec) (total_block_fees : option Z)
    (block_fee_recipient_address : Address) : X unit :=
  let! balance_increments :=
    lift (post_block_balance_increments spec total_block_fees (Some block_fee_recipient_address)) in
  let! s := get in
  let! db := lift (ok_or (increment_balances balance_increments (x_db s)) IncrementBalanceFailed) in
  db_mut (λ _, db).

Definition on_new_block (spec : BotanixChainSpec) (block_number : Z) : X unit :=
  db_mut (set_state_clear_flag (is_spurious_dragon_active_at_block spec block_number)).

Definition execute_without_verification (spec : BotanixChainSpec) (block : Block) : X EthExecuteOutput :=
  on_new_block spec (number (header block)) ;!
  let! edh := lift (map_err (λ _, ExtraDataSerializeError) (deserialize_extra_data_header (header block))) in
  let! pkg := lift (map_err BotanixConsensusPkgError
                      (botanix_consensus_package (header block) bitcoin_network)) in
  execute_state_transitions block pkg ;!
  let! s := get in
  post_execution spec (Some (total_block_fees (x_out s))) (block_fee_recipient_address edh) ;!
  ret (x_out s).

(** [execute] on a fresh executor over a database *)
Definition execute (spec : BotanixChainSpec) (block : Block) (db : EvmDb)
    : EvmDb * outcome BlockExecutionError EthExecuteOutput :=
  let '(s, o) := execute_without_verification spec block (mkExec db empty_output) in (x_db s, o).

End execution.

(** ** The fees of a block *)

Lemma block_fees_split_eq E fees :
  0 ≤ fees → fees * 50 ≤ u128_max →
  block_fees_split (E:=E) fees = Ok (fees / 2, 2 * fees / 5, fees - fees / 2 - 2 * fees / 5).
Proof.
  intros H0 Hmax. unfold block_fees_split, checked_mul_u128, checked_div, checked_sub.
  rewrite !(proj2 (Z.leb_le _ u128_max)) by lia. cbn [expect obind Z.eqb].
  replace (fees * 50 / 100) with (fees / 2)
    by (Z.to_euclidean_division_equations; lia).
  replace (fees * 40 / 100) with (2 * fees / 5) by (Z.to_euclidean_division_equations; lia).
  rewrite (proj2 (Z.leb_le (fees / 2) _)) by (Z.to_euclidean_division_equations; lia). cbn [expect obind].
  by rewrite (proj2 (Z.leb_le (2 * fees / 5) _)) by (Z.to_euclidean_division_equations; lia).
Qed.

(** The split of the block fees loses nothing: the three shares add up to
    the fees, the first two are the rounded-down 50% and 40%, and the recipient
    of the block gets the tenth that is left, rounded up by less than two
    units.  It panics exactly when fifty times the fees does not fit into 128
    bits. *)
Theorem block_fees_split_spec E fees :
  0 ≤ fees →
  (fees * 50 ≤ u128_max →
    ∃ lst botanix recipient, block_fees_split (E:=E) fees = Ok (lst, botanix, recipient) ∧
      lst + botanix + recipient = fees ∧ lst = fees / 2 ∧ botanix = 2 * fees / 5 ∧
      fees ≤ 10 * recipient < fees + 20) ∧
  (u128_max < fees * 50 → block_fees_split (E:=E) fees = Panic).
Proof.
  intros H0. split; intros Hmax.
  - do 3 eexists. split; [by apply block_fees_split_eq|].
    Z.to_euclidean_division_equations; lia.
  - unfold block_fees_split, checked_mul_u128. by rewrite (proj2 (Z.leb_gt _ _)).
Qed.

(** What an account is credited with. *)
Definition credited (m : gmap Address Z) (a : Address) : Z := default 0 (m !! a).

Lemma increment_entry_eq (E : Type) (a : Address) (v : Z) (m : gmap Address Z) :
  credited m a + v ≤ u128_max →
  ∃ m', increment_entry (E:=E) a v m = Ok m' ∧ dom m' = {[a]} ∪ dom m ∧
    ∀ b, credited m' b = credited m b + if bool_decide (b = a) then v else 0.
Proof.
  intros Hmax. unfold increment_entry, credited in *. destruct (m !! a) as [bal|] eqn:E1; simpl in Hmax.
  - unfold checked_add_u128. rewrite (proj2 (Z.leb_le _ _)) by lia. eexists. split; [done|].
    split; [by rewrite dom_insert_L|]. intros b. case_bool_decide as Hb.
    + subst b. by rewrite lookup_insert_eq, E1.
    + rewrite lookup_insert_ne by done. lia.
  - eexists. split; [done|]. split; [by rewrite dom_insert_L|]. intros b. case_bool_decide as Hb.
    + subst b. by rewrite lookup_insert_eq, E1.
    + rewrite lookup_insert_ne by done. lia.
Qed.

(** The increments at the end of a block credit exactly the fees: when
    both recipients of the specification are set and the fees and the block
    fee recipient are not zero, each of the three addresses gets its shares,
    added up where addresses coincide, and nobody else anything; otherwise
    nobody gets anything. *)
Theorem post_block_balance_increments_spec (E : Type) spec fees recipient :
  0 ≤ fees → fees * 50 ≤ u128_max →
  let run := post_block_balance_increments (E:=E) spec (Some fees) (Some recipient) in
  (∀ lst botanix, lst_fee_receiver spec = Some (Some lst) → botanix_fee_recipient spec = Some (Some botanix) →
    fees ≠ 0 → recipient ≠ ZERO_ADDRESS →
    ∃ m, run = Ok m ∧ dom m = {[lst; botanix; recipient]} ∧
      ∀ a, credited m a =
        (if bool_decide (a = lst) then fees / 2 else 0) +
        (if bool_decide (a = botanix) then 2 * fees / 5 else 0) +
        (if bool_decide (a = recipient) then fees - fees / 2 - 2 * fees / 5 else 0)) ∧
  (lst_fee_receiver spec = None ∨ botanix_fee_recipient spec = None ∨ fees = 0 ∨ recipient = ZERO_ADDRESS →
    run = Ok ∅).
Proof.
  intros H0 Hmax run.
  assert (0 ≤ fees / 2 ≤ fees ∧ 0 ≤ 2 * fees / 5 ∧ 2 * fees / 5 ≤ fees - fees / 2) as Hs
    by (Z.to_euclidean_division_equations; lia).
  assert (fees ≤ u128_max) as Hfits by lia.
  unfold run, post_block_balance_increments. cbn [default from_option id]. split.
  - intros lst botanix -> -> Hfees Hrec.
    rewrite (proj2 (Z.ltb_lt 0 fees)) by lia. rewrite bool_decide_false by exact Hrec. cbn [andb negb].
    rewrite block_fees_split_eq by done. cbn [obind expect].
    destruct (increment_entry_eq E lst (fees / 2) ∅) as (m1 & -> & Hd1 & Hc1).
    { unfold credited. rewrite lookup_empty. simpl. lia. }
    cbn [obind expect].
    assert (∀ a, credited ∅ a = 0) as Hc0 by (intros a; unfold credited; by rewrite lookup_empty).
    destruct (increment_entry_eq E botanix (2 * fees / 5) m1) as (m2 & -> & Hd2 & Hc2).
    { rewrite Hc1, Hc0. case_bool_decide; lia. }
    cbn [obind expect].
    destruct (increment_entry_eq E recipient (fees - fees / 2 - 2 * fees / 5) m2) as (m3 & -> & Hd3 & Hc3).
    { rewrite Hc2, Hc1, Hc0. repeat case_bool_decide; lia. }
    exists m3. split; [done|]. split.
    { rewrite Hd3, Hd2, Hd1, dom_empty_L. clear. set_solver. }
    intros a. rewrite Hc3, Hc2, Hc1, Hc0. lia.
  - intros Hnone. destruct (botanix_fee_recipient spec) as [botanix|]; [|done].
    destruct (lst_fee_receiver spec) as [lst|]; [|done].
    destruct Hnone as [|[|[->| ->]]]; [done..| |]; [done|].
    rewrite bool_decide_true by done. by rewrite andb_false_r.
Qed.

(** ** Transactions and blocks *)

(** What the code relies on of the EVM: a transaction does not use more gas
    than its limit, and every log costs at least 375 gas. *)
Class EvmLaws `{!Evm} := {
  transact_gas env tx a db r st : transact env tx a db = Ok (r, st) → 0 ≤ result_gas_used r ≤ tx_gas_limit tx;
  transact_logs env tx a db r st : transact env tx a db = Ok (r, st) →
    375 * Z.of_nat (length (into_logs r)) ≤ result_gas_used r }.

(** What the code relies on of the database: a commit writes the accounts it
    is given, and only them.  A touched account that is empty may be removed;
    one with a nonce is not. *)
Class DbLaws `{!Evm} := {
  basic_commit_other changes a db :
    changes !! a = None → basic a (commit changes db) = basic a db;
  basic_commit_touched changes a account db :
    changes !! a = Some account → status account = Touched → nonce (info account) ≠ 0 →
    basic a (commit changes db) = Ok (Some (info account)) }.

Section block_theorems.
Context `{!PegLib, !BitcoinLib, !Profile, !MintLib, !CheckpointSource, !BlockSource, !Evm}.
Context (tx_wf : Transaction → Prop) `{!PegLaws tx_wf, !EvmLaws} (bitcoin_network : Network).

Abbreviation checks := (botanix_mint_contract_checks bitcoin_network).

(** What a transaction of a block may do to the database, by the result of
    the EVM and of the minting contract's checks. *)
Inductive tx_effect (env : EvmEnv) (pkg : BotanixConsensusPackage) (base_fee : option Z) (i : Z) (sender : Address)
    (tx : EvmTx) (db : EvmDb) : EvmDb → Z → bool → list Log → list PeginData → list PegoutWithId → Prop :=
| effect_failed result state :
    transact env tx sender db = Ok (result, state) → is_success result = false →
    tx_effect env pkg base_fee i sender tx db (commit state db) (result_gas_used result) false [] [] []
| effect_passed gas logs state ins outs :
    transact env tx sender db = Ok (Success gas logs, state) →
    checks logs pkg (tx_hash tx) = Ok (ins, outs) →
    tx_effect env pkg base_fee i sender tx db (commit state db) gas true logs ins outs
| effect_rejected gas logs state e original charged :
    transact env tx sender db = Ok (Success gas logs, state) →
    checks logs pkg (tx_hash tx) = Err e →
    basic sender db = Ok (Some original) → state !! sender = Some charged →
    gas * effective_gas_price tx base_fee ≤ balance original →
    tx_effect env pkg base_fee i sender tx db
      (commit {[ sender := mkAccount (mkAccountInfo (balance original - gas * effective_gas_price tx base_fee)
                                        (nonce (info charged)) (code_hash original)) ∅ Touched i ]} db)
      gas false [] [] [].

Lemma execute_transaction_inv h pkg i sender tx s s' :
  execute_transaction bitcoin_network h pkg (i, (sender, tx)) s = (s', Ok tt) →
  ∃ avail fees gas success logs ins outs tip rate fee,
    usub (E:=BlockExecutionError) 64 (gas_limit h) (total_gas_used (x_out s)) = Ok avail ∧ tx_gas_limit tx ≤ avail ∧
    tx_effect (evm_env_for_block h) pkg (base_fee_per_gas h) i sender tx (x_db s) (x_db s') gas success logs ins outs ∧
    effective_tip_per_gas tx (default 0 (base_fee_per_gas h)) = Some tip ∧
    uadd (E:=BlockExecutionError) 128 tip (default 0 (base_fee_per_gas h)) = Ok rate ∧
    umul (E:=BlockExecutionError) 128 rate gas = Ok fee ∧
    uadd (E:=BlockExecutionError) 128 (total_block_fees (x_out s)) fee = Ok fees ∧
    ∃ cumulative, uadd (E:=BlockExecutionError) 64 (total_gas_used (x_out s)) gas = Ok cumulative ∧
    x_out s' = push_tx (mkReceipt (tx_type tx) success cumulative logs) ins outs
                 (add_gas_and_fees cumulative fees (x_out s)).
Proof.
  unfold execute_transaction. intros Hrun. apply bindM_Ok in Hrun as (? & ? & [= <- <-] & Hrun).
  apply bindM_Ok in Hrun as (? & avail & Havail & Hrun). apply lift_Ok in Havail as [-> Havail].
  destruct (Z.ltb_spec avail (tx_gas_limit tx)) as [|Hlimit]; [done|].
  apply bindM_Ok in Hrun as (? & basic_info & Hb & Hrun). apply lift_Ok in Hb as [-> Hb%map_err_Ok].
  apply bindM_Ok in Hrun as (? & original & Ho & Hrun). apply lift_Ok in Ho as [-> ->%ok_or_Ok].
  apply bindM_Ok in Hrun as (? & [result state] & Ht & Hrun). apply lift_Ok in Ht as [-> Ht%map_err_Ok].
  apply bindM_Ok in Hrun as (? & tip & Htip & Hrun). apply lift_Ok in Htip as [-> Htip%expect_Ok].
  apply bindM_Ok in Hrun as (? & rate & Hrate & Hrun). apply lift_Ok in Hrate as [-> Hrate].
  apply bindM_Ok in Hrun as (? & fee & Hfee & Hrun). apply lift_Ok in Hfee as [-> Hfee].
  apply bindM_Ok in Hrun as (? & fees & Hfees & Hrun). apply lift_Ok in Hfees as [-> Hfees].
  apply bindM_Ok in Hrun as (? & gas & Hgas & Hrun). apply lift_Ok in Hgas as [-> Hgas].
  apply bindM_Ok in Hrun as (? & ? & [= <- <-] & Hrun).
  apply bindM_Ok in Hrun as (s1 & [[[new_result state'] ins] outs] & Hchecks & Hrun).
  injection Hrun as <-. cbn [x_db x_out].
  assert (s1 = mkExec (x_db s) (add_gas_and_fees gas fees (x_out s)) ∧
    tx_effect (evm_env_for_block h) pkg (base_fee_per_gas h) i sender tx (x_db s) (commit state' (x_db s)) (result_gas_used result)
      (is_success new_result) (into_logs new_result) ins outs) as [-> Heff].
  { destruct (is_success result) eqn:Es.
    - destruct result as [g logs|g|g]; [|done..]. cbn [into_logs result_gas_used] in *.
      destruct (checks logs pkg (tx_hash tx)) as [[ins' outs']|e|] eqn:Ec; [| |done].
      + injection Hchecks as <- <- <- <- <-. split; [done|]. by eapply effect_passed.
      + apply bindM_Ok in Hchecks as (? & st & Hst & Hchecks). apply lift_Ok in Hst as [-> Hst].
        injection Hchecks as <- <- <- <- <-. split; [done|]. unfold revert_changes in Hst.
        apply obind_Ok in Hst as (charged & Hcharged%ok_or_Ok & Hst).
        apply obind_Ok in Hst as (bal & Hbal%ok_or_Ok & [= <-]).
        destruct (Z.leb_spec (g * effective_gas_price tx (base_fee_per_gas h)) (balance original)); [|done].
        injection Hbal as <-. by eapply effect_rejected.
    - injection Hchecks as <- <- <- <- <-. split; [done|]. rewrite Es.
      replace (into_logs result) with ([] : list Log) by (by destruct result). by eapply effect_failed. }
  exists avail, fees, (result_gas_used result), (is_success new_result), (into_logs new_result), ins, outs,
    tip, rate, fee. split_and!; [done..|]. exists gas. by split.
Qed.

(** The pegouts of a transaction carry its hash. *)
Lemma burned_ids pkg hash l : Forall (λ p, pid_txid (po_id p) = hash) (omap (burned pkg hash) l).
Proof.
  apply Forall_forall. intros p (e & _ & He)%list_elem_of_omap. unfold burned in He.
  destruct (try_parse_burn_event e.2 (btc_network pkg)) as [[data|]| |]; [|done..]. by injection He as <-.
Qed.

(** A rejected or failed transaction leaves no logs, no pegins and no pegouts;
    a successful one what its logs justify. *)
Lemma tx_effect_sound env pkg base_fee i sender tx db db' gas success logs ins outs :
  tx_gas_limit tx ≤ 375 * 2 ^ 32 → is_u32 (bitcoin_checkpoint pkg).2 →
  tx_effect env pkg base_fee i sender tx db db' gas success logs ins outs →
  0 ≤ gas ≤ tx_gas_limit tx ∧
  Forall (λ d, ∃ cp vs, backed bitcoin_network pkg d cp vs) ins ∧
  Forall (λ p, pid_txid (po_id p) = tx_hash tx) outs ∧ NoDup (map po_id outs) ∧
  (success = false → logs = [] ∧ ins = [] ∧ outs = []).
Proof.
  intros Hlimit Hpkg [result state Ht Hs|g l state ins' outs' Ht Hc|g l state e original charged Ht Hc Hb Hst Hbal].
  - split; [by apply transact_gas in Ht|]. by repeat constructor.
  - pose proof (transact_gas _ _ _ _ _ _ Ht) as Hg. pose proof (transact_logs _ _ _ _ _ _ Ht) as Hl.
    cbn [result_gas_used into_logs] in *. split; [done|].
    apply (mint_checks_Ok tx_wf) in Hc as (Hin & -> & Hnd); [|done|lia].
    split; [done|]. split; [apply burned_ids|]. split; [done|]. intros [=].
  - split; [by apply transact_gas in Ht|]. by repeat constructor.
Qed.

(** What holds of the output after the transactions [txs]. *)
Record output_inv (h : EthHeader) (pkg : BotanixConsensusPackage) (txs : list EvmTx)
    (o : EthExecuteOutput) : Prop := {
  oi_receipts : length (receipts o) = length txs;
  oi_gas : 0 ≤ total_gas_used o ≤ gas_limit h;
  oi_cumulative : StronglySorted Z.le (map r_cumulative_gas_used (receipts o)) ∧
    Forall (λ r, r_cumulative_gas_used r ≤ total_gas_used o) (receipts o);
  oi_logs : Forall (λ r, r_success r = false → r_logs r = []) (receipts o);
  oi_pegins : Forall (λ d, ∃ cp vs, backed bitcoin_network pkg d cp vs) (pegins o);
  oi_hashes : Forall (λ p, pid_txid (po_id p) ∈ map tx_hash txs) (pegouts o);
  oi_pegouts : NoDup (map po_id (pegouts o)) }.

Lemma sorted_snoc (l : list Z) x :
  StronglySorted Z.le l → Forall (λ y, y ≤ x) l → StronglySorted Z.le (l ++ [x]).
Proof.
  induction 1 as [|y l Hl IH Hy]; intros Hx; simpl; [by repeat constructor|].
  apply Forall_cons in Hx as [Hyx Hx]. constructor; [by apply IH|]. apply Forall_app. split; [done|].
  by repeat constructor.
Qed.

Lemma execute_transaction_inv_step h pkg txs i sender tx s s' :
  gas_limit h ≤ 375 * 2 ^ 32 → is_u32 (bitcoin_checkpoint pkg).2 → tx_hash tx ∉ map tx_hash txs →
  output_inv h pkg txs (x_out s) →
  execute_transaction bitcoin_network h pkg (i, (sender, tx)) s = (s', Ok tt) →
  output_inv h pkg (txs ++ [tx]) (x_out s').
Proof.
  intros Hlimit Hpkg Hnew [Hr Hg [Hc1 Hc2] Hl Hp Hh Ho] Hrun.
  apply execute_transaction_inv in Hrun as
    (avail & fees & gas & success & logs & ins & outs & tip & rate & fee & Havail & Htx & Heff & _ & _ & _ & _ & Hx).
  destruct Hx as (cumulative & Hcum & ->).
  unfold usub in Havail. rewrite (proj2 (Z.leb_le _ _)) in Havail by lia. injection Havail as <-.
  apply tx_effect_sound in Heff as (Hgas & Hins & Hids & Hnd & Hfail); [|lia|done].
  unfold uadd in Hcum. rewrite (proj2 (Z.ltb_lt _ _)) in Hcum by lia. injection Hcum as <-.
  split; cbn [push_tx add_gas_and_fees receipts total_gas_used pegins pegouts].
  - rewrite !length_app. simpl. lia.
  - lia.
  - split.
    + rewrite map_app. apply sorted_snoc; [done|]. apply Forall_map.
      eapply Forall_impl; [exact Hc2|]. intros r Hr'. simpl in *. lia.
    + apply Forall_app. split; [|by repeat constructor].
      eapply Forall_impl; [exact Hc2|]. intros r Hr'. simpl in *. lia.
  - apply Forall_app. split; [done|]. apply Forall_singleton. cbn. intros ->. by apply Hfail.
  - by apply Forall_app.
  - rewrite map_app. apply Forall_app. split.
    + eapply Forall_impl; [exact Hh|]. intros p Hp'. apply elem_of_app. by left.
    + eapply Forall_impl; [exact Hids|]. intros p ->. set_solver.
  - rewrite map_app. apply NoDup_app. split; [done|]. split; [|done].
    intros id (p & -> & Hin)%list_elem_of_fmap (q & Heq & Hq)%list_elem_of_fmap.
    rewrite Forall_forall in Hh, Hids. apply Hnew. rewrite <-(Hids q Hq), <-Heq. by apply Hh.
Qed.

Lemma execute_transactions_inv h pkg : ∀ entries txs s s',
  gas_limit h ≤ 375 * 2 ^ 32 → is_u32 (bitcoin_checkpoint pkg).2 →
  NoDup (map tx_hash (txs ++ map (λ e : Z * (Address * EvmTx), e.2.2) entries)) →
  output_inv h pkg txs (x_out s) →
  forM entries (execute_transaction bitcoin_network h pkg) s = (s', Ok tt) →
  output_inv h pkg (txs ++ map (λ e, e.2.2) entries) (x_out s').
Proof.
  induction entries as [|[i [sender tx]] entries IH]; intros txs s s' Hlimit Hpkg Hnd Hinv; cbn [forM map].
  { intros [= <-]. by rewrite app_nil_r. }
  intros (s1 & [] & Htx & Hrest)%bindM_Ok. cbn [map snd] in Hnd.
  assert (∀ l, txs ++ tx :: l = (txs ++ [tx]) ++ l) as Hcons by (intros l; by rewrite <-app_assoc).
  rewrite Hcons. rewrite Hcons in Hnd. apply (IH _ s1 s'); [done..| |done].
  apply (execute_transaction_inv_step h pkg txs i sender tx s s1 Hlimit Hpkg); [|exact Hinv|exact Htx].
  rewrite <-Hcons, map_app in Hnd. apply NoDup_app in Hnd as (_ & Hd & _). intros Hin.
  apply (Hd _ Hin). cbn [map]. by left.
Qed.

Lemma entries_transactions (ss : list Address) (txs : list EvmTx) :
  length ss = length txs →
  map (λ e : Z * (Address * EvmTx), e.2.2) (imap (λ i e, (Z.of_nat i, e)) (zip ss txs)) = txs.
Proof.
  intros Hlen. rewrite <-(snd_zip ss txs) at 2 by lia. apply list_eq. intros k.
  rewrite !list_lookup_fmap, list_lookup_imap. by destruct (zip ss txs !! k).
Qed.

(** A transaction that the loop over a block executes has one of three
    effects: the EVM reverted it and its changes are committed; its events
    passed the minting contract's checks, and its changes, pegins and pegouts
    are kept; or they did not, and nothing but the gas and the nonce of the
    sender changes.  Its receipt records which, with the gas used so far. *)
Theorem execute_transaction_effect h pkg i sender tx s s' :
  execute_transaction bitcoin_network h pkg (i, (sender, tx)) s = (s', Ok tt) →
  ∃ gas success logs ins outs cumulative fees,
    tx_effect (evm_env_for_block h) pkg (base_fee_per_gas h) i sender tx (x_db s) (x_db s') gas success logs ins outs ∧
    uadd (E:=BlockExecutionError) 64 (total_gas_used (x_out s)) gas = Ok cumulative ∧
    x_out s' = push_tx (mkReceipt (tx_type tx) success cumulative logs) ins outs
                 (add_gas_and_fees cumulative fees (x_out s)).
Proof.
  intros Hrun. apply execute_transaction_inv in Hrun as
    (_ & fees & gas & success & logs & ins & outs & _ & _ & _ & _ & _ & Heff & _ & _ & _ & _ & cumulative & Hc & Hx).
  by exists gas, success, logs, ins, outs, cumulative, fees.
Qed.

(** C21.  A transaction that the block's loop takes, whose events the minting
    contract's checks reject, and whose sender has a nonce after it, changes no
    account but the sender's, whatever the EVM had computed: the
    sender pays for the gas and its nonce advances, its code stays, nothing is
    minted or burned, and the receipt says it failed, without logs. *)
Theorem rejected_changes_only_sender `{!DbLaws} h pkg i sender tx s s' gas logs state e charged :
  execute_transaction bitcoin_network h pkg (i, (sender, tx)) s = (s', Ok tt) →
  transact (evm_env_for_block h) tx sender (x_db s) = Ok (Success gas logs, state) →
  checks logs pkg (tx_hash tx) = Err e →
  state !! sender = Some charged → nonce (info charged) ≠ 0 →
  (∀ a, a ≠ sender → basic a (x_db s') = basic a (x_db s)) ∧
  (∃ original, basic sender (x_db s) = Ok (Some original) ∧
    basic sender (x_db s') =
      Ok (Some (mkAccountInfo (balance original - gas * effective_gas_price tx (base_fee_per_gas h))
                 (nonce (info charged)) (code_hash original)))) ∧
  pegins (x_out s') = pegins (x_out s) ∧ pegouts (x_out s') = pegouts (x_out s) ∧
  ∃ cumulative, receipts (x_out s') = receipts (x_out s) ++ [mkReceipt (tx_type tx) false cumulative []].
Proof.
  intros Hrun Ht Hc Hst Hnonce. apply execute_transaction_inv in Hrun as
    (_ & fees & g & success & l & ins & outs & _ & _ & _ & _ & _ & Heff & _ & _ & _ & _ & cumulative & _ & ->).
  inversion Heff as [result st Ht' Hs|g' l' st ins' outs' Ht' Hc'|g' l' st e' original ch Ht' Hc' Hb Hst' Hbal]; subst.
  - rewrite Ht in Ht'. by injection Ht' as <- <-.
  - rewrite Ht in Ht'. injection Ht' as <- <- <-. by rewrite Hc in Hc'.
  - rewrite Ht in Ht'. injection Ht' as <- <- <-. rewrite Hst in Hst'. injection Hst' as <-. split.
    { intros a Ha. apply basic_commit_other. by apply lookup_singleton_ne. }
    split.
    { exists original. split; [done|]. by rewrite (basic_commit_touched _ _ _ _ (lookup_singleton_eq _ _)). }
    cbn [push_tx add_gas_and_fees receipts pegins pegouts]. rewrite !app_nil_r. split_and!; [done..|by eexists].
Qed.

(** The stages of a block that executes. *)
Lemma execute_Ok spec block db db' out :
  execute bitcoin_network spec block db = (db', Ok out) →
  ∃ edh pkg db1 s1, deserialize_extra_data_header (header block) = Ok edh ∧
    botanix_consensus_package (header block) bitcoin_network = Ok pkg ∧
    apply_pre_execution_changes (header block)
      (set_state_clear_flag (is_spurious_dragon_active_at_block spec (number (header block))) db) = Some db1 ∧
    forM (imap (λ i e, (Z.of_nat i, e)) (zip (senders block) (transactions block)))
      (execute_transaction bitcoin_network (header block) pkg) (mkExec db1 empty_output) = (s1, Ok tt) ∧
    out = x_out s1 ∧
    ∃ increments,
      post_block_balance_increments (E:=BlockExecutionError) spec (Some (total_block_fees out))
        (Some (block_fee_recipient_address edh)) = Ok increments ∧
      increment_balances increments (x_db s1) = Some db'.
Proof.
  unfold execute.
  destruct (execute_without_verification bitcoin_network spec block (mkExec db empty_output)) as [s' o] eqn:Hrun.
  intros [= <- ->]. unfold execute_without_verification in Hrun.
  apply bindM_Ok in Hrun as (s0 & [] & [= <-] & Hrun).
  apply bindM_Ok in Hrun as (? & edh & He & Hrun). apply lift_Ok in He as [-> He%map_err_Ok].
  apply bindM_Ok in Hrun as (? & pkg & Hp & Hrun). apply lift_Ok in Hp as [-> Hp%map_err_Ok].
  apply bindM_Ok in Hrun as (s1 & [] & Htxs & Hrun). apply bindM_Ok in Hrun as (? & ? & [= <- <-] & Hrun).
  apply bindM_Ok in Hrun as (s2 & [] & Hpost & [= <- <-]).
  unfold execute_state_transitions in Htxs. apply bindM_Ok in Htxs as (? & ? & [= <- <-] & Htxs).
  apply bindM_Ok in Htxs as (? & db1 & Hdb1 & Htxs). apply lift_Ok in Hdb1 as [-> Hdb1%ok_or_Ok].
  apply bindM_Ok in Htxs as (? & ? & [= <- <-] & Htxs). apply bindM_Ok in Htxs as (? & ? & [= <- <-] & Htxs).
  exists edh, pkg, db1, s1. split_and!; [done..|].
  unfold post_execution in Hpost. apply bindM_Ok in Hpost as (? & m & Hm & Hpost). apply lift_Ok in Hm as [-> Hm].
  apply bindM_Ok in Hpost as (? & ? & [= <- <-] & Hpost).
  apply bindM_Ok in Hpost as (? & db2 & Hdb2 & [= <-]). apply lift_Ok in Hdb2 as [-> Hdb2%ok_or_Ok].
  exists m. by split.
Qed.

Lemma executed_output block pkg db1 s1 :
  0 ≤ gas_limit (header block) ≤ 375 * 2 ^ 32 →
  NoDup (map tx_hash (transactions block)) → length (senders block) = length (transactions block) →
  botanix_consensus_package (header block) bitcoin_network = Ok pkg →
  forM (imap (λ i e, (Z.of_nat i, e)) (zip (senders block) (transactions block)))
    (execute_transaction bitcoin_network (header block) pkg) (mkExec db1 empty_output) = (s1, Ok tt) →
  output_inv (header block) pkg (transactions block) (x_out s1).
Proof.
  intros Hlimit Hnd Hlen Hp Htxs. apply execute_transactions_inv with (txs := []) in Htxs.
  - rewrite entries_transactions in Htxs by done. exact Htxs.
  - lia.
  - by eapply package_height.
  - by rewrite entries_transactions.
  - split; cbn; try lia; try by repeat constructor.
Qed.

(** C33.  What a block yields that executes successfully, with a gas limit below
    375 * 2^32, different transaction hashes and a sender for each transaction.
    There is one receipt per transaction, with non-decreasing cumulative gas that
    never exceeds the limit of the block, and no logs on a failed one.  Every
    pegin is backed by deposits that are valid for the federation key of the
    block's consensus package, under the checkpoint of that package or, where the
    proofs refer to another block, under the checkpoint of that block.  The
    pegouts name transactions of the block and never repeat.  The loop over the
    transactions runs from the state after the changes before the block, on
    nothing collected, and the fees that it has collected are split and credited
    on the state that its last transaction has left. *)
Theorem execute_sound spec block db db' out :
  0 ≤ gas_limit (header block) ≤ 375 * 2 ^ 32 →
  NoDup (map tx_hash (transactions block)) → length (senders block) = length (transactions block) →
  execute bitcoin_network spec block db = (db', Ok out) →
  ∃ edh pkg, deserialize_extra_data_header (header block) = Ok edh ∧
    botanix_consensus_package (header block) bitcoin_network = Ok pkg ∧
    output_inv (header block) pkg (transactions block) out ∧
    ∃ start last increments,
      apply_pre_execution_changes (header block)
        (set_state_clear_flag (is_spurious_dragon_active_at_block spec (number (header block))) db) = Some start ∧
      forM (imap (λ i e, (Z.of_nat i, e)) (zip (senders block) (transactions block)))
        (execute_transaction bitcoin_network (header block) pkg) (mkExec start empty_output) = (mkExec last out, Ok tt) ∧
      post_block_balance_increments (E:=BlockExecutionError) spec (Some (total_block_fees out))
        (Some (block_fee_recipient_address edh)) = Ok increments ∧
      increment_balances increments last = Some db'.
Proof.
  intros Hlimit Hnd Hlen (edh & pkg & db1 & s1 & He & Hp & Hdb1 & Htxs & -> & increments & Hm & Hdb)%execute_Ok.
  exists edh, pkg. split_and!; [done..|by eapply executed_output|]. exists db1, (x_db s1), increments.
  split_and!; [done| |done..]. rewrite Htxs. by destruct s1.
Qed.

End block_theorems.

(** ** A concrete instance *)

(** A ledger of accounts; a transaction carries its hash, its nonce and what
    the EVM answers. *)
Record ToyTx := mkToyTx { toy_hash : bytes; toy_nonce : Z; toy_price : Z; toy_result : ExecutionResult }.

#[export] Instance toy_evm : Evm := {
  EvmDb := gmap Address AccountInfo;
  EvmTx := ToyTx;
  tx_hash := toy_hash;
  tx_gas_limit tx := result_gas_used (toy_result tx) `max` 0;
  effective_tip_per_gas tx base_fee := if base_fee <=? toy_price tx then Some (toy_price tx - base_fee) else None;
  effective_gas_price tx _ := toy_price tx;
  is_eip2930 _ := false;
  is_eip1559 _ := true;
  is_eip4844 _ := false;
  is_eip7702 _ := false;
  basic a db := Ok (db !! a);
  config_env h :=
    (mkCfgEnv 1 Prague (Some 6) false,
     mkBlockEnv (number h) (beneficiary h) (timestamp h) 0 (Some (to_be_bytes 32 0)) (gas_limit h)
       (default 0 (base_fee_per_gas h)) ((λ e, (e, 1)) <$> excess_blob_gas h));
  transact env tx sender db :=
    match db !! sender with
    | Some i =>
        let cost := result_gas_used (toy_result tx) * toy_price tx in
        if bool_decide (0 ≤ result_gas_used (toy_result tx) ∧
             375 * Z.of_nat (length (into_logs (toy_result tx))) ≤ result_gas_used (toy_result tx) ∧
             cost ≤ balance i ∧ be_basefee env.2 ≤ toy_price tx)
        then Ok (toy_result tx,
                 {[ sender := mkAccount (mkAccountInfo (balance i - cost) (toy_nonce tx + 1) (code_hash i))
                                ∅ Touched 0;
                    MINT_CONTRACT_ADDRESS := mkAccount (mkAccountInfo 1000 1 []) ∅ Touched 0 ]})
        else Err tt
    | None => Err tt
    end;
  commit changes db := (info <$> changes) ∪ db;
  set_state_clear_flag _ db := db;
  apply_pre_execution_changes _ db := Some db;
  increment_balances m db :=
    Some (merge (λ v i, match i, v with
                        | Some i, Some v => Some (mkAccountInfo (balance i + v) (nonce i) (code_hash i))
                        | None, Some v => Some (mkAccountInfo v 0 [])
                        | i, None => i
                        end) m db) }.

#[export] Instance toy_evm_laws : EvmLaws.
Proof.
  split; cbn; intros env tx a db r st; destruct (db !! a) as [i|]; try done; case_bool_decide as Hb; try done;
    intros [= <- _]; lia.
Qed.

#[export] Instance toy_db_laws : DbLaws.
Proof.
  split; cbn; intros changes a.
  - intros db Ha. f_equal. rewrite lookup_union_r; [done|]. by rewrite lookup_fmap, Ha.
  - intros account db Ha _ _. f_equal. apply lookup_union_Some_l. by rewrite lookup_fmap, Ha.
Qed.

Definition toy_sender : Address := replicate 20 7.
Definition toy_recipients : BotanixChainSpec :=
  mkChainSpec (λ _, true) (Some (Some (replicate 20 11))) (Some (Some (replicate 20 12))).
Definition toy_db : EvmDb (Evm:=toy_evm) := {[ toy_sender := mkAccountInfo 10000000 4 [96] ]}.

(** One burn that passes and one mint whose claim is worth too little. *)
Definition toy_burn_tx : EvmTx (Evm:=toy_evm) :=
  mkToyTx (replicate 32 1) 4 20 (Success 1000 [toy_burn_log 30000000000]).
Definition toy_mint_tx : EvmTx (Evm:=toy_evm) :=
  mkToyTx (replicate 32 2) 5 30 (Success 2000 [toy_mint_log (2 ^ 63) 98 [toy_meta 0]]).

Definition toy_edh : ExtraDataHeader := mkEdh 0 0 (replicate 32 5) true (replicate 20 6).
Definition toy_eth_header : EthHeader :=
  add_extra_data_header toy_edh (mkEthHeader [] [] 1 2 30000 3000 (Some 7) [] None None None []).
Definition toy_block : Block := mkBlock toy_eth_header [toy_burn_tx; toy_mint_tx] [toy_sender; toy_sender].

Lemma block_fees_split_spec_witness :
  ∃ lst botanix recipient, block_fees_split (E:=Empty_set) 1009 = Ok (lst, botanix, recipient) ∧
    lst + botanix + recipient = 1009 ∧ lst = 1009 / 2 ∧ botanix = 2 * 1009 / 5 ∧
    1009 ≤ 10 * recipient < 1009 + 20.
Proof.
  assert (0 ≤ 1009 ∧ 1009 * 50 ≤ u128_max) as [H1 H2] by (split; by vm_compute).
  exact (proj1 (block_fees_split_spec Empty_set 1009 H1) H2).
Defined.

Lemma post_block_balance_increments_spec_witness :
  ∃ m, post_block_balance_increments (E:=Empty_set) toy_recipients (Some 1009) (Some (replicate 20 12)) = Ok m ∧
    credited m (replicate 20 12) = 504 + 102.
Proof.
  assert (0 ≤ 1009 ∧ 1009 * 50 ≤ u128_max) as [H1 H2] by (split; by vm_compute).
  destruct (proj1 (post_block_balance_increments_spec Empty_set toy_recipients 1009 (replicate 20 12) H1 H2)
    (replicate 20 12) (replicate 20 11) eq_refl eq_refl ltac:(done) ltac:(done)) as (m & Hm & _ & Hc).
  exists m. split; [exact Hm|]. rewrite Hc. reflexivity.
Defined.

Definition release : Profile := false.
#[local] Existing Instance release.

(** The state after the transactions [txs] of the toy block's loop, from the
    toy ledger. *)
Definition toy_start : ExecState := mkExec toy_db empty_output.

Definition succeeds {S E A} (r : S * outcome E A) : bool := match r.2 with Ok _ => true | _ => false end.

Lemma succeeds_unit {S E} (r : S * outcome E unit) : succeeds r = true → r = (r.1, Ok tt).
Proof. destruct r as [s [[]|e|]]; done. Qed.

Definition toy_step (tx : EvmTx (Evm:=toy_evm)) : ExecState * outcome BlockExecutionError unit :=
  execute_transaction Regtest toy_eth_header toy_package (0, (toy_sender, tx)) toy_start.

Lemma toy_step_run tx :
  succeeds (toy_step tx) = true →
  execute_transaction Regtest toy_eth_header toy_package (0, (toy_sender, tx)) toy_start = ((toy_step tx).1, Ok tt).
Proof. intros Hok. change (toy_step tx = ((toy_step tx).1, Ok tt)). by apply succeeds_unit. Qed.

Lemma execute_transaction_effect_witness :
  ∃ gas success logs ins outs, tx_effect Regtest (evm_env_for_block toy_eth_header) toy_package (Some 7) 0 toy_sender toy_burn_tx
    (x_db toy_start) (x_db (toy_step toy_burn_tx).1) gas success logs ins outs.
Proof.
  assert (succeeds (toy_step toy_burn_tx) = true) as Hok by (vm_cast_no_check (eq_refl true)).
  destruct (execute_transaction_effect Regtest toy_eth_header toy_package 0 toy_sender toy_burn_tx
    toy_start (toy_step toy_burn_tx).1 (toy_step_run _ Hok)) as (gas & success & logs & ins & outs & _ & _ & He & _).
  exact (ex_intro _ gas (ex_intro _ success (ex_intro _ logs (ex_intro _ ins (ex_intro _ outs He))))).
Defined.

Lemma rejected_changes_only_sender_witness :
  basic MINT_CONTRACT_ADDRESS (x_db (toy_step toy_mint_tx).1) = basic MINT_CONTRACT_ADDRESS toy_db ∧
  ∃ original, basic toy_sender toy_db = Ok (Some original) ∧
    basic toy_sender (x_db (toy_step toy_mint_tx).1) =
      Ok (Some (mkAccountInfo (balance original - 2000 * 30) 6 (code_hash original))).
Proof.
  set (cost := 2000 * 30).
  set (charged := mkAccount (mkAccountInfo (10000000 - cost) 6 [96]) ∅ Touched 0).
  set (state := ({[ toy_sender := charged;
    MINT_CONTRACT_ADDRESS := mkAccount (mkAccountInfo 1000 1 []) ∅ Touched 0 ]} : gmap Address Account)).
  assert (transact (evm_env_for_block toy_eth_header) toy_mint_tx toy_sender (x_db toy_start) =
    Ok (Success 2000 (into_logs (toy_result toy_mint_tx)), state)) as Ht
    by (vm_cast_no_check (eq_refl (Ok (E:=unit) (Success 2000 (into_logs (toy_result toy_mint_tx)), state)))).
  assert (state !! toy_sender = Some charged) as Hst by (by vm_compute).
  assert (nonce (info charged) ≠ 0) as Hn by done.
  assert (MINT_CONTRACT_ADDRESS ≠ toy_sender) as Hne by (by vm_compute).
  set (e := InvalidPeginData (AmountNotBelowValue 50000000000000 (2 ^ 63)) (replicate 20 1) (2 ^ 63)).
  assert (botanix_mint_contract_checks Regtest (into_logs (toy_result toy_mint_tx)) toy_package
            (tx_hash toy_mint_tx) = Err e) as He
    by (vm_cast_no_check (eq_refl (Err (A:=list PeginData * list PegoutWithId) e))).
  assert (succeeds (toy_step toy_mint_tx) = true) as Hok by (vm_cast_no_check (eq_refl true)).
  destruct (rejected_changes_only_sender Regtest toy_eth_header toy_package 0 toy_sender toy_mint_tx
    toy_start (toy_step toy_mint_tx).1 2000 (into_logs (toy_result toy_mint_tx)) state e charged
    (toy_step_run _ Hok) Ht He Hst Hn) as (Hother & Hs & _).
  exact (conj (Hother _ Hne) Hs).
Defined.

Lemma execute_sound_witness :
  ∃ db' out, execute Regtest toy_recipients toy_block toy_db = (db', Ok out) ∧
    length (receipts out) = 2%nat ∧ total_gas_used out ≤ 30000.
Proof.
  assert (0 ≤ gas_limit (header toy_block) ≤ 375 * 2 ^ 32) as Hg by (by vm_compute).
  assert (NoDup (map tx_hash (transactions toy_block))) as Hnd by (apply (bool_decide_unpack _); by vm_compute).
  assert (succeeds (execute Regtest toy_recipients toy_block toy_db) = true) as Hok by (vm_cast_no_check (eq_refl true)).
  destruct (execute Regtest toy_recipients toy_block toy_db) as [db' [out|e|]] eqn:Hrun; [|discriminate Hok..].
  destruct (execute_sound toy_tx_wf Regtest toy_recipients toy_block toy_db db' out Hg Hnd eq_refl Hrun)
    as (edh & pkg & _ & _ & Hinv & _).
  exact (ex_intro _ db' (ex_intro _ out (conj eq_refl
    (conj (oi_receipts _ _ _ _ _ Hinv) (proj2 (oi_gas _ _ _ _ _ Hinv)))))).
Defined.
