(* ===== verification/Wallet.v ===== *)
(** * The Bitcoin client with fallbacks

    src/crates/botanix-btc-wallet/src/bitcoind.rs: the calls to one bitcoind
    ([BitcoindRpc] on the JSON-RPC client); fallback.rs: the client that tries
    several of them in turn ([FallbackBitcoindClient]).

    The JSON-RPC client is the parameter [JsonRpc]: every call runs on the
    outside world [World] and may answer differently each time.  The
    asynchronous and the synchronous loop of fallback.rs are the same function
    here.  Left out: the construction of the clients from a configuration and
    the mock client of the tests. *)

From S2P Require Import Prelude Bytes Bitcoin Peg.

Open Scope Z_scope.

(** ** One bitcoind (bitcoind.rs) *)

(** [GetBlockResult], as far as it is used *)
Record GetBlockResult := mkBlockResult { gb_height : Z; gb_tx : list Txid }.

(** [bitcoincore_rpc::Client] *)
Class JsonRpc := {
  World : Type;
  Client : Type;
  JsonRPCError : Type;
  EstimateSmartFeeResult : Type;
  (** the field [initialblockdownload] of "getblockchaininfo" *)
  initialblockdownload : Client → M World JsonRPCError bool;
  client_best_block_hash : Client → M World JsonRPCError BlockHash;
  client_block_header : Client → BlockHash → M World JsonRPCError Header;
  client_block_hash : Client → Z → M World JsonRPCError BlockHash;
  client_block_info : Client → BlockHash → M World JsonRPCError GetBlockResult;
  client_estimate_smart_fee : Client → M World JsonRPCError EstimateSmartFeeResult;
  client_block_count : Client → M World JsonRPCError Z }.

Section bitcoind.
Context `{!JsonRpc}.

(** The variants the calls below can return. *)
Inductive BitcoindError :=
| BlockHeaderRetrievalFailed (e : JsonRPCError)
| BestBlockHashRetrievalFailed (e : JsonRPCError)
| BlockInfoRetrievalFailed (e : JsonRPCError)
| EstimateSmartFeeFailed (e : JsonRPCError)
| BlockCountFailed (e : JsonRPCError).

Inductive BitcoindAdapterError :=
| BitcoindRpcError (e : BitcoindError)
| NoClientsAvailable.

(** The trait [BitcoindRpc], without [wait_until_synced], which polls
    [is_synced] until it answers [Ok(true)]. *)
Record BitcoindRpc := mkBitcoindRpc {
  rpc_is_synced : M World BitcoindError bool;
  rpc_get_best_block_hash : M World BitcoindError BlockHash;
  rpc_get_block_header : BlockHash → M World BitcoindError Header;
  rpc_get_block_hash : Z → M World BitcoindError BlockHash;
  rpc_get_txids : BlockHash → M World BitcoindError (list Txid);
  rpc_get_estimate_smart_fee : M World BitcoindError EstimateSmartFeeResult;
  rpc_get_block_info : BlockHash → M World BitcoindError GetBlockResult;
  rpc_get_block_count : M World BitcoindError Z }.

(** [impl BitcoindRpc for Client] *)
Definition is_synced (c : Client) : M World BitcoindError bool :=
  let! res := okM (initialblockdownload c) in
  match res with
  | Some downloading => ret (negb downloading)
  | None => ret false
  end.

Definition client_rpc (c : Client) : BitcoindRpc := {|
  rpc_is_synced := is_synced c;
  rpc_get_best_block_hash := map_errM BestBlockHashRetrievalFailed (client_best_block_hash c);
  rpc_get_block_header h := map_errM BlockHeaderRetrievalFailed (client_block_header c h);
  rpc_get_block_hash height := map_errM BlockHeaderRetrievalFailed (client_block_hash c height);
  rpc_get_txids h := map_errM BlockHeaderRetrievalFailed
                       (let! b := client_block_info c h in ret (gb_tx b));
  rpc_get_estimate_smart_fee := map_errM EstimateSmartFeeFailed (client_estimate_smart_fee c);
  rpc_get_block_info h := map_errM BlockInfoRetrievalFailed (client_block_info c h);
  rpc_get_block_count := map_errM BlockCountFailed (client_block_count c) |}.

(** One turn of [wait_until_synced] per unit of fuel; [None] when it is still
    waiting. *)
Fixpoint wait_until_synced (fuel : nat) (rpc : BitcoindRpc) (w : World) : option World :=
  match fuel with
  | O => None
  | S fuel =>
      let '(w, res) := rpc_is_synced rpc w in
      match res with Ok true => Some w | _ => wait_until_synced fuel rpc w end
  end.

(** ** Several of them (fallback.rs) *)

Inductive ClientSelection := Fallback | Secondary | Primary.

Inductive BitcoindClientWrapper := Provider1 (rpc : BitcoindRpc) | Provider2 (rpc : BitcoindRpc).

Record FallbackBitcoindClient := mkFallback {
  clients : list BitcoindClientWrapper;
  selection : ClientSelection }.

Definition is_provider2 (c : BitcoindClientWrapper) : bool :=
  match c with Provider2 _ => true | Provider1 _ => false end.

Definition filter_clients_to_use (f : FallbackBitcoindClient) : list BitcoindClientWrapper :=
  match selection f with
  | Primary => take 1 (clients f)
  | Secondary => filter is_provider2 (clients f)
  | Fallback => clients f
  end.

Definition should_fallback (e : BitcoindAdapterError) : bool :=
  match e with BitcoindRpcError _ => true | NoClientsAvailable => false end.

(** The loop over the clients, with the error of the previous one. *)
Fixpoint try_clients {A} (operation : BitcoindClientWrapper → M World BitcoindAdapterError A)
    (last_error : option BitcoindAdapterError) (l : list BitcoindClientWrapper)
    : M World BitcoindAdapterError A :=
  match l with
  | [] => fail (default NoClientsAvailable last_error)
  | client :: l => λ w,
      match operation client w with
      | (w, Ok result) => (w, Ok result)
      | (w, Err e) => if should_fallback e then try_clients operation (Some e) l w else (w, Err e)
      | (w, Panic) => (w, Panic)
      end
  end.

Definition execute_with_fallback {A} (f : FallbackBitcoindClient)
    (operation : BitcoindClientWrapper → M World BitcoindAdapterError A)
    : M World BitcoindAdapterError A :=
  match filter_clients_to_use f with
  | [] => fail NoClientsAvailable
  | c => try_clients operation None c
  end.

(** [match client { Provider1(rpc) | Provider2(rpc) => call(rpc).map_err(BitcoindRpc) }] *)
Definition on_rpc {A} (call : BitcoindRpc → M World BitcoindError A) (c : BitcoindClientWrapper)
    : M World BitcoindAdapterError A :=
  match c with Provider1 rpc | Provider2 rpc => map_errM BitcoindRpcError (call rpc) end.

Definition fallback_is_synced (f : FallbackBitcoindClient) : M World BitcoindAdapterError bool :=
  execute_with_fallback f (on_rpc rpc_is_synced).

Definition get_best_block_hash_rpc (f : FallbackBitcoindClient) : M World BitcoindAdapterError BlockHash :=
  execute_with_fallback f (on_rpc rpc_get_best_block_hash).

Definition fallback_get_block_header_rpc (f : FallbackBitcoindClient) (h : BlockHash)
    : M World BitcoindAdapterError Header :=
  execute_with_fallback f (on_rpc (λ rpc, rpc_get_block_header rpc h)).

Definition get_block_hash_rpc (f : FallbackBitcoindClient) (height : Z)
    : M World BitcoindAdapterError BlockHash :=
  execute_with_fallback f (on_rpc (λ rpc, rpc_get_block_hash rpc height)).

Definition get_txids_rpc (f : FallbackBitcoindClient) (h : BlockHash)
    : M World BitcoindAdapterError (list Txid) :=
  execute_with_fallback f (on_rpc (λ rpc, rpc_get_txids rpc h)).

Definition get_estimate_smart_fee_rpc (f : FallbackBitcoindClient)
    : M World BitcoindAdapterError EstimateSmartFeeResult :=
  execute_with_fallback f (on_rpc rpc_get_estimate_smart_fee).

Definition get_block_info_rpc (f : FallbackBitcoindClient) (h : BlockHash)
    : M World BitcoindAdapterError GetBlockResult :=
  execute_with_fallback f (on_rpc (λ rpc, rpc_get_block_info rpc h)).

Definition get_block_count_rpc (f : FallbackBitcoindClient) : M World BitcoindAdapterError Z :=
  execute_with_fallback f (on_rpc rpc_get_block_count).

Definition find_rpc (p : BitcoindClientWrapper → option BitcoindRpc) (f : FallbackBitcoindClient)
    : option BitcoindRpc := head (omap p (clients f)).

Definition primary : FallbackBitcoindClient → option BitcoindRpc :=
  find_rpc (λ c, match c with Provider1 rpc => Some rpc | Provider2 _ => None end).

Definition secondary : FallbackBitcoindClient → option BitcoindRpc :=
  find_rpc (λ c, match c with Provider2 rpc => Some rpc | Provider1 _ => None end).

(** ** What the fallback answers *)

Definition rpc_of (c : BitcoindClientWrapper) : BitcoindRpc :=
  match c with Provider1 rpc | Provider2 rpc => rpc end.

(** The clients of [l] are asked in order, from the world [w]; [failures w l
    w' es] when all of them fail, with the errors [es]. *)
Inductive failures {A} (call : BitcoindRpc → M World BitcoindError A)
    : World → list BitcoindClientWrapper → World → list BitcoindError → Prop :=
| failures_nil w : failures call w [] w []
| failures_cons w c w1 e l w2 es :
    call (rpc_of c) w = (w1, Err e) → failures call w1 l w2 es →
    failures call w (c :: l) w2 (e :: es).

Lemma on_rpc_eq {A} (call : BitcoindRpc → M World BitcoindError A) c w :
  on_rpc call c w = (let '(w', r) := call (rpc_of c) w in (w', map_err BitcoindRpcError r)).
Proof. by destruct c. Qed.

Definition last_error (last0 : option BitcoindAdapterError) (es : list BitcoindError)
    : option BitcoindAdapterError :=
  match last es with Some e => Some (BitcoindRpcError e) | None => last0 end.

Lemma last_error_cons last0 e es :
  last_error last0 (e :: es) = last_error (Some (BitcoindRpcError e)) es.
Proof. unfold last_error. destruct es as [|e' es]; [done|]. rewrite last_cons_cons. by destruct (last (e' :: es)) eqn:E; [|apply last_None in E]. Qed.

Lemma try_clients_failures {A} (call : BitcoindRpc → M World BitcoindError A) w l1 w1 es :
  failures call w l1 w1 es → ∀ last0 l2,
  try_clients (on_rpc call) last0 (l1 ++ l2) w = try_clients (on_rpc call) (last_error last0 es) l2 w1.
Proof.
  induction 1 as [w|w c w1 e l w2 es Hc Hf IH]; intros last0 l2; [done|].
  cbn [app try_clients]. rewrite on_rpc_eq, Hc. cbn [map_err should_fallback]. by rewrite IH, last_error_cons.
Qed.

Lemma execute_with_fallback_eq {A} f (op : BitcoindClientWrapper → M World BitcoindAdapterError A) :
  execute_with_fallback f op = try_clients op None (filter_clients_to_use f).
Proof. unfold execute_with_fallback. by destruct (filter_clients_to_use f). Qed.

(** Every run asks a prefix of the clients that fails, and then one that does
    not, if there is one. *)
Lemma try_clients_cases {A} (call : BitcoindRpc → M World BitcoindError A) l : ∀ w,
  (∃ w1 es, failures call w l w1 es) ∨
  ∃ l1 c l2 w1 es w2 r, l = l1 ++ c :: l2 ∧ failures call w l1 w1 es ∧ call (rpc_of c) w1 = (w2, r) ∧
    ∀ e, r ≠ Err e.
Proof.
  induction l as [|c l IH]; intros w; [left; do 2 eexists; constructor|].
  destruct (call (rpc_of c) w) as [w1 [a|e|]] eqn:Hc.
  - right. exists [], c, l, w, [], w1, (Ok a). split_and!; [done|constructor|done|done].
  - destruct (IH w1) as [(w2 & es & Hf)|(l1 & c' & l2 & w2 & es & w3 & r & -> & Hf & Hr & Hne)].
    + left. exists w2, (e :: es). by econstructor.
    + right. exists (c :: l1), c', l2, w2, (e :: es), w3, r. split_and!; [done| |done|done]. by econstructor.
  - right. exists [], c, l, w, [], w1, Panic. split_and!; [done|constructor|done|done].
Qed.

(** A call to the client with fallbacks asks the selected clients in
    order: it returns [a] exactly when the first clients all fail and the
    next one answers [a], and the later ones are not asked; it fails exactly
    when all fail, with the last error, or when there are none. *)
Theorem execute_with_fallback_spec {A} (call : BitcoindRpc → M World BitcoindError A) f w w' :
  let l := filter_clients_to_use f in
  let run := execute_with_fallback f (on_rpc call) w in
  (∀ a, run = (w', Ok a) ↔ ∃ l1 c l2 w1 es,
    l = l1 ++ c :: l2 ∧ failures call w l1 w1 es ∧ call (rpc_of c) w1 = (w', Ok a)) ∧
  (∀ e, run = (w', Err e) ↔ ∃ es, failures call w l w' es ∧
    e = default NoClientsAvailable (BitcoindRpcError <$> last es)).
Proof.
  intros l run. unfold run. rewrite execute_with_fallback_eq. fold l.
  assert (∀ l1 c l2 w1 es w2 r, l = l1 ++ c :: l2 → failures call w l1 w1 es → call (rpc_of c) w1 = (w2, r) →
    (∀ e, r ≠ Err e) → try_clients (on_rpc call) None l w = (w2, map_err BitcoindRpcError r)) as Hfirst.
  { intros l1 c l2 w1 es w2 r -> Hf Hr Hne. rewrite (try_clients_failures _ _ _ _ _ Hf). cbn [try_clients].
    rewrite on_rpc_eq, Hr. destruct r as [a|e|]; [done|by destruct (Hne e)|done]. }
  assert (∀ w1 es, failures call w l w1 es → try_clients (on_rpc call) None l w =
    (w1, Err (default NoClientsAvailable (BitcoindRpcError <$> last es)))) as Hall.
  { intros w1 es Hf. pose proof (try_clients_failures _ _ _ _ _ Hf None []) as Ht. rewrite app_nil_r in Ht.
    rewrite Ht. unfold last_error. cbn [try_clients]. by destruct (last es). }
  split; [intros a|intros e]; split.
  - intros Hrun. destruct (try_clients_cases call l w) as
      [(w1 & es & Hf)|(l1 & c & l2 & w1 & es & w2 & r & Hl & Hf & Hr & Hne)].
    + by rewrite (Hall _ _ Hf) in Hrun.
    + rewrite (Hfirst _ _ _ _ _ _ _ Hl Hf Hr Hne) in Hrun. exists l1, c, l2, w1, es.
      destruct r as [b|e|]; [|done..]. by injection Hrun as -> ->.
  - intros (l1 & c & l2 & w1 & es & Hl & Hf & Hr). by rewrite (Hfirst _ _ _ _ _ _ _ Hl Hf Hr).
  - intros Hrun. destruct (try_clients_cases call l w) as
      [(w1 & es & Hf)|(l1 & c & l2 & w1 & es & w2 & r & Hl & Hf & Hr & Hne)].
    + rewrite (Hall _ _ Hf) in Hrun. injection Hrun as -> <-. eauto.
    + rewrite (Hfirst _ _ _ _ _ _ _ Hl Hf Hr Hne) in Hrun. destruct r as [b|e'|]; [done| |done]. by destruct (Hne e').
  - intros (es & Hf & ->). by apply Hall.
Qed.

(** The synchronization state has no fallback: a JSON-RPC client reports
    a failing call as "not synced", so that the first selected client alone
    decides, also when it is unreachable and another one is synced. *)
Theorem is_synced_never_falls_back f k rest w w' o :
  filter_clients_to_use f = Provider1 (client_rpc k) :: rest →
  initialblockdownload k w = (w', o) → o ≠ Panic →
  fallback_is_synced f w = (w', Ok (match o with Ok downloading => negb downloading | _ => false end)).
Proof.
  intros Hl Hk Ho. unfold fallback_is_synced. rewrite execute_with_fallback_eq, Hl. cbn [try_clients].
  rewrite on_rpc_eq. cbn [rpc_of client_rpc rpc_is_synced]. unfold is_synced, bindM, okM. rewrite Hk.
  by destruct o.
Qed.

End bitcoind.

(** ** A concrete instance *)

(** A client answers its number to every call, or fails when it is negative;
    the world counts the calls. *)
Definition toy_call {A} (c : Z) (a : A) : M Z unit A := λ w, (w + 1, if c <? 0 then Err tt else Ok a).

#[export] Instance toy_jsonrpc : JsonRpc := {
  World := Z;
  Client := Z;
  JsonRPCError := unit;
  EstimateSmartFeeResult := Z;
  initialblockdownload c := toy_call c false;
  client_best_block_hash c := toy_call c [c];
  client_block_header c _ := toy_call c (mkHeader 0 [] [] 0 0 c);
  client_block_hash c h := toy_call c [c; h];
  client_block_info c _ := toy_call c (mkBlockResult c []);
  client_estimate_smart_fee c := toy_call c c;
  client_block_count c := toy_call c c }.

Definition toy_fallback : FallbackBitcoindClient :=
  mkFallback [Provider1 (client_rpc (-1)); Provider2 (client_rpc 7); Provider2 (client_rpc 8)] Fallback.

Lemma is_synced_never_falls_back_witness : fallback_is_synced toy_fallback 0 = (1, Ok false).
Proof.
  exact (is_synced_never_falls_back toy_fallback (-1) [Provider2 (client_rpc 7); Provider2 (client_rpc 8)] 0 1
    (Err tt) eq_refl eq_refl ltac:(discriminate)).
Defined.

Example toy_block_count : get_block_count_rpc toy_fallback 0 = (2, Ok 7).
Proof. reflexivity. Qed.
