(* ===== verification/Checkpoint.v ===== *)
(** * The chain of Bitcoin checkpoints

    src/crates/botanix-bitcoin-checkpoint/src/chain.rs: a window of Bitcoin
    headers, addressed by their number of confirmations; syncer.rs: how it
    follows bitcoind ([BitcoinCheckpointsChainSynchronizer]).

    The calls to bitcoind are the interface [CheckpointRpc], whose answers may
    change with every call; [fallback_rpc] is its implementation by the client
    of Wallet.v.  The channel between the stream of block hashes and the
    synchronization holds one trigger; the atomic swap of the window has one
    writer, the synchronizer.  Left out: logging, the delays and the dummy
    stream of stream.rs. *)

From S2P Require Import Prelude Bytes Bitcoin Codec Peg Wallet.
From stdpp Require Import strings.

Open Scope Z_scope.

Definition saturating_add (a b : Z) : Z := Z.min u64_max (a + b).

(** ** The window (chain.rs) *)

Record BitcoinCheckpoint := mkCheckpoint { cp_header : Header; cp_height : Z; cp_hash : BlockHash }.

Record BitcoinCheckpointsChain := mkChain {
  strong_confirmation_depth : Z;
  (** front = oldest, back = newest *)
  checkpoints : list BitcoinCheckpoint;
  (** first and last element of the inclusive range *)
  confirmation_window : Z * Z;
  confirmation_window_size : Z }.

Inductive BitcoinCheckpointError {E : Type} :=
| StaleBlockAdded (expected_prev_block_hash received_prev_block_hash : BlockHash)
| SyncRpcError (error : E) (procedure_name : string)
| ZeroStrongConfirmationDepth
| WeakCheckpointsCountTooBig (weak_checkpoints_count strong_confirmation_depth : Z)
| ChainParamsTooLarge (strong_confirmation_depth historical_checkpoints_count weak_checkpoints_count : Z).
Arguments BitcoinCheckpointError : clear implicits.

(** [size_of::<BitcoinCheckpoint>()], and what [VecDeque::with_capacity] does
    when the capacity does not fit *)
Definition CHECKPOINT_SIZE : Z := 116.

Definition with_capacity {E : Type} (capacity : Z) : outcome E (list BitcoinCheckpoint) :=
  if isize_max <? capacity * CHECKPOINT_SIZE then Panic else Ok [].

Definition try_new {E : Type} (strong historical weak : Z)
    : outcome (BitcoinCheckpointError E) BitcoinCheckpointsChain :=
  if strong =? 0 then Err ZeroStrongConfirmationDepth else
  if strong <=? weak then Err (WeakCheckpointsCountTooBig weak strong) else
  let confirmations_from := strong - weak in
  let? confirmations_to := ok_or (checked_add strong historical) (ChainParamsTooLarge strong historical weak) in
  let? size := ok_or (v ← checked_sub confirmations_to confirmations_from; checked_add v 1)
                 (ChainParamsTooLarge strong historical weak) in
  let? checkpoints := with_capacity size in
  Ok (mkChain strong checkpoints (confirmations_from, confirmations_to) size).

Definition set_checkpoints (l : list BitcoinCheckpoint) (c : BitcoinCheckpointsChain) : BitcoinCheckpointsChain :=
  mkChain (strong_confirmation_depth c) l (confirmation_window c) (confirmation_window_size c).

Definition push {E : Type} (checkpoint : BitcoinCheckpoint) : M BitcoinCheckpointsChain (BitcoinCheckpointError E) unit :=
  let! c := get in
  let l := checkpoints c in
  let add :=
    let l := if Z.of_nat (length l) =? confirmation_window_size c then tail l else l in
    modify (set_checkpoints (l ++ [checkpoint])) in
  match last l with
  | Some recent =>
      if bool_decide (prev_blockhash (cp_header checkpoint) = cp_hash recent) then add
      else fail (StaleBlockAdded (cp_hash recent) (prev_blockhash (cp_header checkpoint)))
  | None => add
  end.

Definition contains_by_hash (hash : BlockHash) (c : BitcoinCheckpointsChain) : bool :=
  existsb (λ cp, bool_decide (cp_hash cp = hash)) (checkpoints c).

Definition get_by_confirmation_depth (depth : Z) (c : BitcoinCheckpointsChain) : option BitcoinCheckpoint :=
  if negb ((fst (confirmation_window c) <=? depth) && (depth <=? snd (confirmation_window c))) then None else
  match checkpoints c with
  | [] => None
  | l =>
      let index_from_back := depth - fst (confirmation_window c) in
      if Z.of_nat (length l) <=? index_from_back then None
      else l !! Z.to_nat (Z.of_nat (length l) - 1 - index_from_back)
  end.

Definition strong (c : BitcoinCheckpointsChain) : option BitcoinCheckpoint :=
  get_by_confirmation_depth (strong_confirmation_depth c) c.

Definition size_limit (c : BitcoinCheckpointsChain) : Z := confirmation_window_size c.
Definition len (c : BitcoinCheckpointsChain) : Z := Z.of_nat (length (checkpoints c)).
Definition clear (c : BitcoinCheckpointsChain) : BitcoinCheckpointsChain := set_checkpoints [] c.
Definition recent_height (c : BitcoinCheckpointsChain) : option Z := cp_height <$> last (checkpoints c).
Definition lowest_confirmation_depth (c : BitcoinCheckpointsChain) : Z := fst (confirmation_window c).

(** ** Synchronization (syncer.rs) *)

Class CheckpointRpc := {
  RpcWorld : Type;
  RpcError : Type;
  count_rpc : M RpcWorld RpcError Z;
  hash_rpc : Z → M RpcWorld RpcError BlockHash;
  header_rpc : BlockHash → M RpcWorld RpcError Header }.

(** The client of Wallet.v implements it. *)
Definition fallback_rpc `{!JsonRpc} (f : FallbackBitcoindClient) : CheckpointRpc := {|
  RpcWorld := World;
  RpcError := BitcoindAdapterError;
  count_rpc := get_block_count_rpc f;
  hash_rpc := get_block_hash_rpc f;
  header_rpc := fallback_get_block_header_rpc f |}.

Section syncer.
Context `{!PegLib, !Profile, !CheckpointRpc}.

(** [BitcoinCheckpoint::new] *)
Definition checkpoint_new (h : Header) (height : Z) : BitcoinCheckpoint := mkCheckpoint h height (block_hash h).

(** The synchronizer, with the world its RPC client talks to. *)
Record Syncer := mkSyncer {
  checkpoints_chain : BitcoinCheckpointsChain;
  last_synced_height : option Z;
  rpc_world : RpcWorld }.

Definition set_chain (c : BitcoinCheckpointsChain) (s : Syncer) : Syncer :=
  mkSyncer c (last_synced_height s) (rpc_world s).
Definition set_last_synced_height (h : option Z) (s : Syncer) : Syncer :=
  mkSyncer (checkpoints_chain s) h (rpc_world s).
Definition set_world (w : RpcWorld) (s : Syncer) : Syncer :=
  mkSyncer (checkpoints_chain s) (last_synced_height s) w.

Abbreviation Sync A := (M Syncer (BitcoinCheckpointError RpcError) A).

Definition syncer_new (c : BitcoinCheckpointsChain) (w : RpcWorld) : outcome Empty_set Syncer :=
  let? last := match recent_height c with
               | Some height => let? h := uadd 64 height (lowest_confirmation_depth c) in Ok (Some h)
               | None => Ok None
               end in
  Ok (mkSyncer c last w).

(** [map_rpc_error!] *)
Definition map_rpc_error {A} (name : string) (m : M RpcWorld RpcError A) : Sync A :=
  zoom rpc_world set_world (map_errM (λ e, SyncRpcError e name) m).

(** One turn of the loop over the heights. *)
Definition sync_height (height : Z) : Sync (Z * BlockHash) :=
  let! confirmed_hash := map_rpc_error "get_block_hash_rpc" (hash_rpc height) in
  let! header := map_rpc_error "get_block_header_rpc" (header_rpc confirmed_hash) in
  let checkpoint := checkpoint_new header (height mod 2 ^ 32) in
  zoom checkpoints_chain set_chain (push checkpoint) ;!
  ret (cp_height checkpoint, cp_hash checkpoint).

Fixpoint sync_heights (n : nat) (from : Z) : Sync (list (Z * BlockHash)) :=
  match n with
  | O => ret []
  | S n => let! info := sync_height from in let! infos := sync_heights n (from + 1) in ret (info :: infos)
  end.

Definition remember (tip_height : Z) : Sync unit := modify (set_last_synced_height (Some tip_height)).

Definition sync_new_blocks : Sync (list (Z * BlockHash)) :=
  let! tip_height := map_rpc_error "get_block_count_rpc" count_rpc in
  let! s := get in
  let last_synced := default 0 (last_synced_height s) in
  if tip_height <=? last_synced then ret [] else
  let lowest := lowest_confirmation_depth (checkpoints_chain s) in
  if tip_height <? lowest then remember tip_height ;! ret [] else
  let! tip_plus_1 := lift (uadd 64 tip_height 1) in
  let! confirmed_available := lift (usub 64 tip_plus_1 lowest) in
  let confirmed_already := saturating_sub (saturating_add last_synced 1) lowest in
  let need_to_sync := saturating_sub confirmed_available confirmed_already in
  if need_to_sync =? 0 then remember tip_height ;! ret [] else
  let blocks_to_sync := Z.min need_to_sync (size_limit (checkpoints_chain s)) in
  let! below := lift (usub 64 lowest 1) in
  let top_confirmed_height := saturating_sub tip_height below in
  let! more := lift (usub 64 blocks_to_sync 1) in
  let from_height := saturating_sub top_confirmed_height more in
  let! synced := sync_heights (Z.to_nat (top_confirmed_height - from_height + 1)) from_height in
  remember tip_height ;!
  ret synced.

(** *** The loop around it *)

Inductive SyncLoopControl := WaitForNewBlock | SyncNow.

Definition handle_new_blocks_sync_result
    (result : outcome (BitcoinCheckpointError RpcError) (list (Z * BlockHash)))
    (s : Syncer) : Syncer * SyncLoopControl :=
  match result with
  | Err (StaleBlockAdded _ _) =>
      (set_last_synced_height None (set_chain (clear (checkpoints_chain s)) s), SyncNow)
  | Err _ => (s, SyncNow)
  | Ok _ | Panic => (s, WaitForNewBlock)
  end.

(** A turn of the loop of [sync]: a panic ends it. *)
Definition sync_round (s : Syncer) : Syncer * option SyncLoopControl :=
  let '(s, result) := sync_new_blocks s in
  match result with
  | Panic => (s, None)
  | _ => let '(s, control) := handle_new_blocks_sync_result result s in (s, Some control)
  end.

End syncer.

(** ** The window *)

Definition linked (l : list BitcoinCheckpoint) : Prop :=
  ∀ i a b, l !! i = Some a → l !! S i = Some b → prev_blockhash (cp_header b) = cp_hash a.

Lemma linked_snoc l cp :
  linked l → (∀ recent, last l = Some recent → prev_blockhash (cp_header cp) = cp_hash recent) → linked (l ++ [cp]).
Proof.
  intros Hl Hcp i a b Ha Hb. destruct (decide (S i < length l)%nat) as [Hi|Hi].
  - rewrite lookup_app_l in Ha, Hb by lia. by eapply Hl.
  - pose proof (lookup_lt_Some _ _ _ Hb) as Hlen. rewrite length_app in Hlen. cbn in Hlen.
    rewrite lookup_app_l in Ha by lia. rewrite lookup_app_r in Hb by lia.
    replace (S i - length l)%nat with 0%nat in Hb by lia. injection Hb as <-. apply Hcp.
    rewrite last_lookup. by replace (pred (length l)) with i by lia.
Qed.

Lemma linked_tail l : linked l → linked (tail l).
Proof. intros Hl i a b Ha Hb. destruct l; [done|]. by apply (Hl (S i)). Qed.

Definition chain_params (c : BitcoinCheckpointsChain) : Prop :=
  let '(lo, hi) := confirmation_window c in
  1 ≤ lo ≤ strong_confirmation_depth c ∧ strong_confirmation_depth c ≤ hi ∧
  confirmation_window_size c = hi - lo + 1 ∧ hi ≤ u64_max ∧ confirmation_window_size c ≤ u64_max.

(** A window is made for exactly the parameters that make sense: the
    range of confirmations holds the strong depth and is as wide as the
    window, and parameters that are zero, inconsistent or overflow are
    errors.  A window that no allocation can hold panics instead. *)
Theorem try_new_spec E s historical weak :
  is_u64 s → is_u64 historical → is_u64 weak →
  match try_new (E:=E) s historical weak with
  | Ok c => chain_params c ∧ checkpoints c = [] ∧ strong_confirmation_depth c = s ∧
      confirmation_window c = (s - weak, s + historical)
  | Err ZeroStrongConfirmationDepth => s = 0
  | Err (WeakCheckpointsCountTooBig _ _) => 0 < s ≤ weak
  | Err (ChainParamsTooLarge _ _ _) => weak < s ∧ u64_max < Z.max (s + historical) (historical + weak + 1)
  | Err _ => False
  | Panic => isize_max < (historical + weak + 1) * CHECKPOINT_SIZE
  end.
Proof.
  intros Hs Hh Hw. unfold try_new, is_u64 in *. destruct (Z.eqb_spec s 0) as [->|]; [done|].
  destruct (Z.leb_spec s weak); [lia|]. unfold checked_add, checked_sub.
  destruct (Z.leb_spec (s + historical) u64_max); [|cbn; lia]. cbn [ok_or obind].
  rewrite (proj2 (Z.leb_le _ _)) by lia. cbn [mbind option_bind].
  destruct (Z.leb_spec (s + historical - (s - weak) + 1) u64_max); [|cbn; lia]. cbn [ok_or obind].
  unfold with_capacity. destruct (Z.ltb_spec isize_max ((s + historical - (s - weak) + 1) * CHECKPOINT_SIZE)).
  - unfold CHECKPOINT_SIZE in *. cbn. lia.
  - unfold chain_params. cbn. split_and!; reflexivity || lia.
Qed.

Lemma get_by_confirmation_depth_Some c d :
  chain_params c →
  get_by_confirmation_depth d c =
    if decide (fst (confirmation_window c) ≤ d ≤ snd (confirmation_window c) ∧
               d - fst (confirmation_window c) < len c)
    then checkpoints c !! Z.to_nat (len c - 1 - (d - fst (confirmation_window c))) else None.
Proof.
  intros Hp. unfold get_by_confirmation_depth, len.
  destruct (Z.leb_spec (confirmation_window c).1 d); [|by rewrite decide_False by lia].
  destruct (Z.leb_spec d (confirmation_window c).2); [|by rewrite decide_False by lia]. cbn [andb negb].
  destruct (checkpoints c) as [|cp l] eqn:El; [by rewrite decide_False by (simpl; lia)|]. rewrite <-El.
  destruct (Z.leb_spec (Z.of_nat (length (checkpoints c))) (d - (confirmation_window c).1)).
  - rewrite decide_False; [done|]. lia.
  - rewrite decide_True; [done|]. lia.
Qed.

(** ** Synchronization *)

Section syncer_theorems.
Context `{!PegLib, !Profile, !CheckpointRpc}.

Definition chain_ok (c : BitcoinCheckpointsChain) : Prop :=
  chain_params c ∧ len c ≤ confirmation_window_size c ∧ linked (checkpoints c) ∧
  Forall (λ cp, cp_hash cp = block_hash (cp_header cp)) (checkpoints c).

(** The window after a push. *)
Definition pushed (cp : BitcoinCheckpoint) (c : BitcoinCheckpointsChain) : BitcoinCheckpointsChain :=
  set_checkpoints
    ((if len c =? confirmation_window_size c then tail (checkpoints c) else checkpoints c) ++ [cp]) c.

Definition connects (cp : BitcoinCheckpoint) (c : BitcoinCheckpointsChain) : Prop :=
  ∀ recent, last (checkpoints c) = Some recent → prev_blockhash (cp_header cp) = cp_hash recent.

Lemma push_connects {E} cp c : connects cp c → push (E:=E) cp c = (pushed cp c, Ok tt).
Proof.
  unfold connects, push, bindM, get. intros Hc. destruct (last (checkpoints c)) as [recent|]; [|done].
  by rewrite bool_decide_true by eauto.
Qed.

Lemma push_stale {E} cp c : ¬ connects cp c → ∃ a b, push (E:=E) cp c = (c, Err (StaleBlockAdded a b)).
Proof.
  unfold connects, push, bindM, get. intros Hc. destruct (last (checkpoints c)) as [recent|].
  - rewrite bool_decide_false by naive_solver. eexists _, _. done.
  - by destruct Hc.
Qed.

#[export] Instance connects_dec cp c : Decision (connects cp c).
Proof.
  unfold connects. destruct (last (checkpoints c)) as [recent|].
  - destruct (decide (prev_blockhash (cp_header cp) = cp_hash recent)); [left|right]; naive_solver.
  - by left.
Defined.

Lemma pushed_len cp c : chain_ok c → len (pushed cp c) = Z.min (len c + 1) (confirmation_window_size c).
Proof.
  unfold chain_ok, chain_params, pushed, len. destruct (confirmation_window c) as [lo hi]. intros (Hp & Hlen & _).
  cbn [set_checkpoints checkpoints]. rewrite length_app. cbn [length].
  destruct (Z.eqb_spec (Z.of_nat (length (checkpoints c))) (confirmation_window_size c)) as [He|He].
  - destruct (checkpoints c); cbn [tail length] in *; lia.
  - lia.
Qed.

Lemma pushed_ok cp c : connects cp c → cp_hash cp = block_hash (cp_header cp) → chain_ok c → chain_ok (pushed cp c).
Proof.
  intros Hc Hh Hok. pose proof (pushed_len cp c Hok) as Hlen. destruct Hok as (Hp & Hl & Hlk & Hhs).
  split; [done|]. split; [rewrite Hlen; cbn; lia|]. unfold pushed. cbn [set_checkpoints checkpoints]. split.
  - apply linked_snoc; [destruct (_ =? _); [by apply linked_tail|done]|]. intros recent Hr. apply Hc.
    destruct (_ =? _); [|done]. destruct (checkpoints c) as [|a [|b l]]; done.
  - apply Forall_app. split; [|by constructor]. destruct (_ =? _); [|done].
    destruct (checkpoints c); [done|]. by apply Forall_cons in Hhs as [_ ?].
Qed.

Lemma pushed_last cp c : last (checkpoints (pushed cp c)) = Some cp.
Proof. unfold pushed. cbn. by rewrite last_snoc. Qed.

(** What a synchronization may do to the synchronizer, whatever bitcoind
    answers: push on the window. *)
Definition grows (s s' : Syncer) : Prop :=
  last_synced_height s' = last_synced_height s ∧
  (chain_ok (checkpoints_chain s) →
    chain_ok (checkpoints_chain s') ∧ len (checkpoints_chain s) ≤ len (checkpoints_chain s')) ∧
  confirmation_window (checkpoints_chain s') = confirmation_window (checkpoints_chain s) ∧
  confirmation_window_size (checkpoints_chain s') = confirmation_window_size (checkpoints_chain s).

#[export] Instance grows_refl : Reflexive grows.
Proof. intros s. split_and!; [done| |done..]. intros Hok. split; [done|lia]. Qed.

#[export] Instance grows_trans : Transitive grows.
Proof.
  intros s1 s2 s3 (Hl1 & Hc1 & Hw1 & Hs1) (Hl2 & Hc2 & Hw2 & Hs2). split_and!; [congruence| |congruence..].
  intros Hok. destruct (Hc1 Hok) as [Hok1 ?]. destruct (Hc2 Hok1) as [Hok2 ?]. split; [done|lia].
Qed.

Lemma respects_rpc {A} name (m : M RpcWorld RpcError A) : respects grows (map_rpc_error name m).
Proof. apply (respects_zoom grows (λ _ _, True)); [|done]. intros s w _. apply (grows_refl s). Qed.

Lemma respects_sync_height height : respects grows (sync_height height).
Proof.
  unfold sync_height. apply respects_bind; [apply _|apply respects_rpc|intros b].
  apply respects_bind; [apply _|apply respects_rpc|intros hd].
  apply respects_bind; [apply _| |intros _; by apply respects_ret].
  intros s. unfold zoom. set (cp := checkpoint_new hd (height mod 2 ^ 32)).
  destruct (decide (connects cp (checkpoints_chain s))) as [Hc|Hc].
  - rewrite (push_connects cp _ Hc). split_and!; [done| |done..]. intros Hok. split.
    + by apply pushed_ok.
    + cbn. rewrite pushed_len by done. unfold chain_ok in Hok. lia.
  - destruct (push_stale (E:=RpcError) cp _ Hc) as (e1 & e2 & ->).
    cbn. by replace (set_chain (checkpoints_chain s) s) with s by (by destruct s).
Qed.

Lemma respects_sync_heights n : ∀ from, respects grows (sync_heights n from).
Proof.
  induction n as [|n IH]; intros from; [by apply respects_ret|]. cbn [sync_heights].
  apply respects_bind; [apply _|apply respects_sync_height|intros info].
  apply respects_bind; [apply _|apply IH|intros infos]. by apply respects_ret.
Qed.

(** bitcoind reports a height that fits, as every Bitcoin height does, and a
    call answers or fails. *)
Class RpcLaws : Prop := {
  count_range w w' n : count_rpc w = (w', Ok n) → 0 ≤ n ≤ u32_max;
  count_no_panic w : (count_rpc w).2 ≠ Panic;
  hash_no_panic h w : (hash_rpc h w).2 ≠ Panic;
  header_no_panic b w : (header_rpc b w).2 ≠ Panic }.

(** The window holds every confirmed block since the last synchronized tip,
    as far as it is wide enough. *)
Definition filled (s : Syncer) : Prop :=
  match last_synced_height s with
  | Some tip => 0 ≤ tip ≤ u32_max ∧
      Z.min (confirmation_window_size (checkpoints_chain s))
        (tip + 1 - lowest_confirmation_depth (checkpoints_chain s)) ≤ len (checkpoints_chain s)
  | None => True
  end.

Definition syncer_inv (s : Syncer) : Prop := chain_ok (checkpoints_chain s) ∧ filled s.

Lemma grows_filled s s' : grows s s' → syncer_inv s → syncer_inv s'.
Proof.
  intros (Hl & Hc & Hw & Hs) [Hok Hf]. destruct (Hc Hok) as [Hok' Hlen]. split; [done|].
  unfold filled, lowest_confirmation_depth in *. rewrite Hl, Hw, Hs.
  destruct (last_synced_height s); [|done]. lia.
Qed.

Lemma map_rpc_error_eq {A} name (m : M RpcWorld RpcError A) s :
  map_rpc_error name m s =
    (let '(w, r) := m (rpc_world s) in (set_world w s, map_err (λ e, SyncRpcError e name) r)).
Proof. unfold map_rpc_error, zoom, map_errM. by destruct (m (rpc_world s)). Qed.

(** A success of [sync_height] pushes one block, so [n] of them fill the
    window by [n]. *)
Lemma sync_height_Ok height s s' info :
  sync_height height s = (s', Ok info) →
  ∃ w1 w2 b hd, hash_rpc height (rpc_world s) = (w1, Ok b) ∧ header_rpc b w1 = (w2, Ok hd) ∧
    let cp := checkpoint_new hd (height mod 2 ^ 32) in
    connects cp (checkpoints_chain s) ∧ info = (cp_height cp, cp_hash cp) ∧
    s' = mkSyncer (pushed cp (checkpoints_chain s)) (last_synced_height s) w2.
Proof.
  unfold sync_height. intros Hrun. apply bindM_Ok in Hrun as (s1 & b & Hb & Hrun).
  apply bindM_Ok in Hrun as (s2 & hd & Hhd & Hrun). rewrite map_rpc_error_eq in Hb. rewrite map_rpc_error_eq in Hhd.
  destruct (hash_rpc height (rpc_world s)) as [w1 [b'|e|]] eqn:E1; [|done..]. injection Hb as <- ->.
  cbn [rpc_world set_world] in Hhd. destruct (header_rpc b w1) as [w2 [hd'|e|]] eqn:E2; [|done..].
  injection Hhd as <- ->. exists w1, w2, b, hd. split; [done|]. split; [done|]. cbn zeta.
  apply bindM_Ok in Hrun as (s3 & [] & Hpush & [= <- <-]).
  apply zoom_Ok in Hpush as (c & Hpush & ->). cbn [checkpoints_chain set_world] in Hpush.
  destruct (decide (connects (checkpoint_new hd (height mod 2 ^ 32)) (checkpoints_chain s))) as [Hc|Hc].
  - rewrite (push_connects _ _ Hc) in Hpush. injection Hpush as <-. by destruct s.
  - destruct (push_stale (E:=RpcError) _ _ Hc) as (e1 & e2 & Hs). by rewrite Hs in Hpush.
Qed.

Lemma sync_heights_len n : ∀ from s s' infos,
  chain_ok (checkpoints_chain s) → sync_heights n from s = (s', Ok infos) →
  len (checkpoints_chain s') =
    Z.min (len (checkpoints_chain s) + Z.of_nat n) (confirmation_window_size (checkpoints_chain s)) ∧
  length infos = n.
Proof.
  induction n as [|n IH]; intros from s s' infos Hok; cbn [sync_heights].
  - intros [= <- <-]. split; [|done]. unfold chain_ok in Hok. lia.
  - intros Hrun. apply bindM_Ok in Hrun as (s1 & info & Hone & Hrun).
    apply bindM_Ok in Hrun as (s2 & infos1 & Hrest & [= <- <-]).
    pose proof (respects_sync_height from s) as Hg. rewrite Hone in Hg. destruct Hg as (_ & Hg & _ & Hsz).
    destruct (Hg Hok) as [Hok1 _]. apply IH in Hrest as [Hlen Hn]; [|done].
    apply sync_height_Ok in Hone as (w1 & w2 & b & hd & _ & _ & Hc & _ & ->). cbn [checkpoints_chain] in *.
    rewrite pushed_len in Hlen by done. cbn in Hsz. cbn [pushed set_checkpoints confirmation_window_size] in Hlen.
    split; [lia|cbn; lia].
Qed.

(** How many blocks a synchronization fetches, up to the highest confirmed
    one. *)
Definition to_fetch (s : Syncer) (tip : Z) : Z :=
  let lo := lowest_confirmation_depth (checkpoints_chain s) in
  Z.min (tip + 1 - lo - Z.max 0 (default 0 (last_synced_height s) + 1 - lo))
    (confirmation_window_size (checkpoints_chain s)).

Definition top_height (s : Syncer) (tip : Z) : Z := tip + 1 - lowest_confirmation_depth (checkpoints_chain s).

Lemma params_window c : chain_params c →
  1 ≤ lowest_confirmation_depth c ≤ u64_max ∧ 1 ≤ confirmation_window_size c ≤ u64_max ∧
  confirmation_window_size c = snd (confirmation_window c) - lowest_confirmation_depth c + 1.
Proof. unfold chain_params, lowest_confirmation_depth. destruct (confirmation_window c) as [lo hi]. cbn. lia. Qed.

Lemma last_range s : filled s → 0 ≤ default 0 (last_synced_height s) ≤ u32_max.
Proof. unfold filled. destruct (last_synced_height s); cbn; [tauto|]. intros _. split; by vm_compute. Qed.

Lemma to_fetch_bounds s tip :
  syncer_inv s → default 0 (last_synced_height s) < tip →
  lowest_confirmation_depth (checkpoints_chain s) ≤ tip →
  1 ≤ to_fetch s tip ≤ top_height s tip ∧ to_fetch s tip ≤ confirmation_window_size (checkpoints_chain s).
Proof.
  intros [(Hp & _) Hf] Hlt Hlo. apply params_window in Hp. apply last_range in Hf.
  unfold to_fetch, top_height. lia.
Qed.

(** What a synchronization does, by the answer to its first call. *)
Lemma sync_new_blocks_eq s w tip :
  syncer_inv s → count_rpc (rpc_world s) = (w, Ok tip) → 0 ≤ tip ≤ u32_max →
  sync_new_blocks s =
    (if tip <=? default 0 (last_synced_height s) then ret []
     else if tip <? lowest_confirmation_depth (checkpoints_chain s) then remember tip ;! ret []
     else let! synced := sync_heights (Z.to_nat (to_fetch s tip)) (top_height s tip - to_fetch s tip + 1) in
          remember tip ;! ret synced) (set_world w s).
Proof.
  intros Hinv Hw Htip. unfold sync_new_blocks. unfold bindM at 1. rewrite map_rpc_error_eq, Hw. cbn [map_err].
  unfold bindM at 1, get. cbn [checkpoints_chain set_world last_synced_height].
  destruct (Z.leb_spec tip (default 0 (last_synced_height s))) as [|Hlt]; [done|].
  destruct (Z.ltb_spec tip (lowest_confirmation_depth (checkpoints_chain s))) as [|Hlo]; [done|].
  pose proof (to_fetch_bounds s tip Hinv Hlt Hlo) as Hb. destruct Hinv as [(Hp & _) Hf].
  apply params_window in Hp. apply last_range in Hf. unfold to_fetch, top_height, size_limit in *.
  set (lo := lowest_confirmation_depth (checkpoints_chain s)) in *.
  set (L := default 0 (last_synced_height s)) in *.
  rewrite (bind_lift_Ok _ _ _ (tip + 1)) by (apply uadd_Ok; unfold u32_max in *; lia).
  rewrite (bind_lift_Ok _ _ _ (tip + 1 - lo)) by (apply usub_Ok; lia).
  unfold saturating_sub, saturating_add.
  rewrite (Z.min_r u64_max (L + 1)) by (unfold u64_max, u32_max in *; lia).
  assert (Z.max 0 (tip + 1 - lo - Z.max 0 (L + 1 - lo)) = tip + 1 - lo - Z.max 0 (L + 1 - lo)) as -> by lia.
  rewrite (proj2 (Z.eqb_neq _ 0)) by lia.
  rewrite (bind_lift_Ok _ _ _ (lo - 1)) by (apply usub_Ok; lia).
  set (n := Z.min _ _) in *.
  rewrite (bind_lift_Ok _ _ _ (n - 1)) by (apply usub_Ok; lia).
  assert (Z.max 0 (tip - (lo - 1)) = tip + 1 - lo) as -> by lia.
  assert (Z.max 0 (tip + 1 - lo - (n - 1)) = tip + 1 - lo - n + 1) as -> by lia.
  assert (tip + 1 - lo - (tip + 1 - lo - n + 1) + 1 = n) as -> by lia. reflexivity.
Qed.

Lemma bindM_no_panic {S E A B} (m : M S E A) (f : A → M S E B) s :
  (m s).2 ≠ Panic → (∀ s1 a, m s = (s1, Ok a) → (f a s1).2 ≠ Panic) → (bindM m f s).2 ≠ Panic.
Proof. unfold bindM. intros Hm Hf. destruct (m s) as [s1 [a|e|]]; [by apply Hf|done..]. Qed.

Section laws.
Context `{!RpcLaws}.

Lemma sync_height_no_panic height s : (sync_height height s).2 ≠ Panic.
Proof.
  unfold sync_height. apply bindM_no_panic.
  { rewrite map_rpc_error_eq. pose proof (hash_no_panic height (rpc_world s)) as Hn.
    by destruct (hash_rpc height (rpc_world s)) as [w [b|e|]]. }
  intros s1 b _. apply bindM_no_panic.
  { rewrite map_rpc_error_eq. pose proof (header_no_panic b (rpc_world s1)) as Hn.
    by destruct (header_rpc b (rpc_world s1)) as [w [hd|e|]]. }
  intros s2 hd _. apply bindM_no_panic; [|done]. unfold zoom.
  destruct (decide (connects (checkpoint_new hd (height mod 2 ^ 32)) (checkpoints_chain s2))) as [Hc|Hc].
  - by rewrite (push_connects _ _ Hc).
  - by destruct (push_stale (E:=RpcError) _ _ Hc) as (e1 & e2 & ->).
Qed.

Lemma sync_heights_no_panic n : ∀ from s, (sync_heights n from s).2 ≠ Panic.
Proof.
  induction n as [|n IH]; intros from s; [done|]. cbn [sync_heights].
  apply bindM_no_panic; [apply sync_height_no_panic|]. intros s1 info _.
  apply bindM_no_panic; [apply IH|done].
Qed.

Lemma set_world_inv w s : syncer_inv s → syncer_inv (set_world w s).
Proof. by destruct s. Qed.

Lemma sync_new_blocks_inv s : syncer_inv s →
  syncer_inv (sync_new_blocks s).1 ∧ (sync_new_blocks s).2 ≠ Panic.
Proof.
  intros Hinv. destruct (count_rpc (rpc_world s)) as [w r] eqn:Hw.
  destruct r as [tip|e|].
  2: { unfold sync_new_blocks, bindM. rewrite map_rpc_error_eq, Hw. split; [by apply set_world_inv|done]. }
  2: { pose proof (count_no_panic (rpc_world s)) as Hn. by rewrite Hw in Hn. }
  pose proof (count_range _ _ _ Hw) as Htip. rewrite (sync_new_blocks_eq s w tip Hinv Hw Htip).
  destruct (Z.leb_spec tip (default 0 (last_synced_height s))) as [|Hlt].
  { split; [exact (set_world_inv w s Hinv)|done]. }
  destruct (Z.ltb_spec tip (lowest_confirmation_depth (checkpoints_chain s))) as [Hlo|Hlo].
  { split; [|done]. destruct Hinv as [Hok _]. split; [done|]. unfold filled. cbn.
    split; [done|]. destruct Hok as (Hp & Hlen & _). apply params_window in Hp. unfold len in *. lia. }
  pose proof (to_fetch_bounds s tip Hinv Hlt Hlo) as Hb.
  set (from := top_height s tip - to_fetch s tip + 1). set (n := Z.to_nat (to_fetch s tip)) in *.
  pose proof (respects_sync_heights n from (set_world w s)) as Hg.
  pose proof (sync_heights_no_panic n from (set_world w s)) as Hn. unfold bindM.
  destruct (sync_heights n from (set_world w s)) as [s1 [infos|e|]] eqn:Hs.
  2: { split; [exact (grows_filled _ _ Hg (set_world_inv w s Hinv))|discriminate]. }
  2: { exfalso. apply Hn. reflexivity. }
  split; [|discriminate]. cbn. destruct (sync_heights_len n from (set_world w s) s1 infos (proj1 Hinv) Hs) as [Hlen _].
  destruct Hg as (_ & Hok & Hwin & Hsz). cbn [checkpoints_chain set_world fst] in *.
  destruct (Hok (proj1 Hinv)) as [Hok1 _]. split; [done|]. unfold filled, lowest_confirmation_depth in *. cbn.
  split; [done|]. rewrite Hwin, Hsz, Hlen. unfold n. rewrite Z2Nat.id by lia.
  destruct Hinv as [(Hp & Hle & _) Hf]. apply params_window in Hp. unfold filled, to_fetch, lowest_confirmation_depth, len in *.
  destruct (last_synced_height s) as [L|]; cbn in *; lia.
Qed.

(** [n] turns of the loop of [sync]; [None] when one of them panicked. *)
Fixpoint rounds (n : nat) (s : Syncer) : option Syncer :=
  match n with
  | O => Some s
  | S n => match sync_round s with (s, Some _) => rounds n s | (_, None) => None end
  end.

Lemma sync_round_inv s : syncer_inv s → syncer_inv (sync_round s).1 ∧ (sync_round s).2 ≠ None.
Proof.
  intros Hinv. unfold sync_round. destruct (sync_new_blocks_inv s Hinv) as [Hi Hn].
  destruct (sync_new_blocks s) as [s1 [infos|e|]]; [done| |done]. cbn [fst snd] in *.
  destruct e as [a b|e name| |a b|a b c]; cbn; split; try done.
  destruct Hi as [(Hp & _) _]. split; [|done]. split; [done|]. split; [|split; [|constructor]].
  - apply params_window in Hp. unfold len. cbn. unfold lowest_confirmation_depth in *. lia.
  - intros i x y Hx. done.
Qed.

(** The synchronizer never panics and keeps the window sound, through any
    number of turns of its loop and whatever bitcoind answers, reorganizations
    and failed calls included: at most as many checkpoints as the window is
    wide, each with the hash of its header, each linked to the one before it,
    and as many as the last synchronized tip confirms. *)
Theorem rounds_keep_window c w s0 n :
  chain_params c → checkpoints c = [] → syncer_new c w = Ok s0 →
  ∃ s, rounds n s0 = Some s ∧ syncer_inv s.
Proof.
  intros Hp Hempty Hnew. assert (syncer_inv s0) as Hinv.
  { unfold syncer_new, recent_height in Hnew. rewrite Hempty in Hnew. injection Hnew as <-. split; [|done].
    split; [done|]. unfold len. cbn. rewrite Hempty. cbn. apply params_window in Hp.
    split; [lia|]. split; [by intros i a b Ha|constructor]. }
  clear Hnew Hempty Hp. revert s0 Hinv. induction n as [|n IH]; intros s0 Hinv; [by exists s0|]. cbn [rounds].
  destruct (sync_round_inv s0 Hinv) as [Hi Hn]. destruct (sync_round s0) as [s1 [control|]]; [|done]. by apply IH.
Qed.
End laws.

(** *** Confirmations *)

(** bitcoind is honest about heights, also while it reorganizes: the height of
    a block is that of its parent and one. *)
Class HonestRpc (height_of : BlockHash → Z) : Prop := {
  honest_hash h w w' b : hash_rpc h w = (w', Ok b) → height_of b = h;
  honest_header b w w' hd : header_rpc b w = (w', Ok hd) →
    block_hash hd = b ∧ (0 < height_of b → height_of (prev_blockhash hd) = height_of b - 1) }.

Section honest.
Context (height_of : BlockHash → Z) `{!RpcLaws, !HonestRpc height_of}.

Definition height_ok (cp : BitcoinCheckpoint) : Prop :=
  cp_height cp = height_of (cp_hash cp) ∧ height_of (prev_blockhash (cp_header cp)) = cp_height cp - 1.

Definition heights_ok (c : BitcoinCheckpointsChain) : Prop := Forall height_ok (checkpoints c).

Lemma pushed_heights_ok cp c : height_ok cp → heights_ok c → heights_ok (pushed cp c).
Proof.
  intros Hcp Hc. apply Forall_app. split; [|by constructor]. destruct (_ =? _); [|done].
  unfold heights_ok in Hc. destruct (checkpoints c); [done|]. by apply Forall_cons in Hc as [_ ?].
Qed.

Lemma sync_heights_honest n : ∀ from s s' infos,
  1 ≤ from → from + Z.of_nat n - 1 ≤ u32_max → heights_ok (checkpoints_chain s) →
  sync_heights n from s = (s', Ok infos) →
  heights_ok (checkpoints_chain s') ∧ (n = 0%nat → s' = s) ∧
  (n ≠ 0%nat → ∃ cp, last (checkpoints (checkpoints_chain s')) = Some cp ∧ cp_height cp = from + Z.of_nat n - 1).
Proof.
  induction n as [|n IH]; intros from s s' infos Hfrom Hto Hok; cbn [sync_heights]; [by intros [= <- <-]|].
  intros Hrun. apply bindM_Ok in Hrun as (s1 & info & Hone & Hrun).
  apply bindM_Ok in Hrun as (s2 & infos1 & Hrest & [= <- <-]).
  apply sync_height_Ok in Hone as (w1 & w2 & b & hd & Hb & Hhd & _ & _ & ->).
  apply honest_hash in Hb. apply honest_header in Hhd as [Hh Hprev].
  assert (height_ok (checkpoint_new hd (from mod 2 ^ 32))) as Hcp.
  { unfold height_ok. cbn. rewrite Z.mod_small by (unfold u32_max in *; lia). rewrite Hh. split; [done|].
    rewrite Hprev; lia. }
  apply IH in Hrest as (Hok' & Hz & Hlast); [|lia|lia|by apply pushed_heights_ok]. split; [done|].
  split; [done|]. intros _. destruct n as [|n].
  - rewrite (Hz eq_refl). cbn [checkpoints_chain]. rewrite pushed_last. eexists. split; [done|]. cbn.
    rewrite Z.mod_small by (unfold u32_max in *; lia). lia.
  - destruct (Hlast ltac:(done)) as (cp & Hcp' & Hch). exists cp. split; [done|]. lia.
Qed.

(** In a linked window the heights are consecutive. *)
Lemma heights_consecutive l i a b :
  linked l → Forall height_ok l → l !! i = Some a → last l = Some b →
  cp_height a = cp_height b - (Z.of_nat (length l) - 1 - Z.of_nat i).
Proof.
  intros Hl Hh Ha Hb. rewrite last_lookup in Hb. pose proof (lookup_lt_Some _ _ _ Ha) as Hi.
  rewrite Forall_forall in Hh. remember (length l - 1 - i)%nat as k eqn:Hk. revert i a Ha Hi Hk.
  induction k as [|k IH]; intros i a Ha Hi Hk.
  - replace (pred (length l)) with i in Hb by lia. rewrite Ha in Hb. injection Hb as ->. lia.
  - destruct (l !! S i) as [a'|] eqn:Ha'; [|apply lookup_ge_None in Ha'; lia].
    specialize (IH _ _ Ha' ltac:(apply lookup_lt_Some in Ha'; lia) ltac:(lia)).
    pose proof (Hl _ _ _ Ha Ha') as Hlink.
    destruct (Hh a ltac:(by eapply list_elem_of_lookup_2)) as [Hha _].
    destruct (Hh a' ltac:(by eapply list_elem_of_lookup_2)) as [_ Hha']. rewrite Hlink in Hha'. lia.
Qed.

(** The newest checkpoint of [c] is the highest block with the lowest depth
    under [tip]; the window reaches back as far as [tip] and its width allow. *)
Definition shows (tip : Z) (c : BitcoinCheckpointsChain) : Prop :=
  (∃ cp, last (checkpoints c) = Some cp ∧ cp_height cp = tip + 1 - lowest_confirmation_depth c) ∧
  Z.min (confirmation_window_size c) (tip + 1 - lowest_confirmation_depth c) ≤ len c.

Lemma shows_depth tip c d :
  chain_ok c → heights_ok c → shows tip c →
  match get_by_confirmation_depth d c with
  | Some cp => cp_height cp = tip + 1 - d ∧ height_of (cp_hash cp) = tip + 1 - d
  | None => ¬ (lowest_confirmation_depth c ≤ d ≤ snd (confirmation_window c)) ∨ tip < d
  end.
Proof.
  intros (Hp & Hlen & Hlk & _) Hh [(b & Hb & Hbh) Hfull]. rewrite get_by_confirmation_depth_Some by done.
  pose proof (params_window _ Hp) as Hw. unfold lowest_confirmation_depth, len in *.
  destruct (decide _) as [Hd|Hd].
  - destruct (checkpoints c !! _) as [cp|] eqn:Hcp; [|apply lookup_ge_None in Hcp; lia].
    pose proof (heights_consecutive _ _ _ _ Hlk Hh Hcp Hb) as Hcons.
    assert (cp_height cp = tip + 1 - d) as Heq by lia. split; [done|].
    unfold heights_ok in Hh. rewrite Forall_forall in Hh.
    destruct (Hh cp ltac:(by eapply list_elem_of_lookup_2)) as [<- _]. done.
  - destruct (decide ((confirmation_window c).1 ≤ d ≤ (confirmation_window c).2)); [right; lia|by left].
Qed.

(** Depths are confirmations: after a synchronization that found new
    blocks, the checkpoint at depth [d] is a block with exactly [d]
    confirmations under the tip that bitcoind reported, on one branch linked
    by hashes even if bitcoind reorganized meanwhile; and there is one for
    every depth of the window that the chain is long enough for. *)
Theorem depth_is_confirmations s s' infos :
  syncer_inv s → heights_ok (checkpoints_chain s) →
  sync_new_blocks s = (s', Ok infos) → infos ≠ [] →
  ∃ w tip, count_rpc (rpc_world s) = (w, Ok tip) ∧ last_synced_height s' = Some tip ∧
    linked (checkpoints (checkpoints_chain s')) ∧ heights_ok (checkpoints_chain s') ∧
    ∀ d, match get_by_confirmation_depth d (checkpoints_chain s') with
         | Some cp => cp_height cp = tip + 1 - d ∧ height_of (cp_hash cp) = tip + 1 - d
         | None => ¬ (lowest_confirmation_depth (checkpoints_chain s') ≤ d ≤
                      snd (confirmation_window (checkpoints_chain s'))) ∨ tip < d
         end.
Proof.
  intros Hinv Hh Hrun Hne. pose proof (sync_new_blocks_inv s Hinv) as [Hinv' _]. rewrite Hrun in Hinv'.
  destruct (count_rpc (rpc_world s)) as [w [tip|e|]] eqn:Hw.
  2, 3: unfold sync_new_blocks, bindM in Hrun; rewrite map_rpc_error_eq, Hw in Hrun; done.
  pose proof (count_range _ _ _ Hw) as Htip. rewrite (sync_new_blocks_eq s w tip Hinv Hw Htip) in Hrun.
  destruct (Z.leb_spec tip (default 0 (last_synced_height s))) as [|Hlt]; [by injection Hrun as <- <-|].
  destruct (Z.ltb_spec tip (lowest_confirmation_depth (checkpoints_chain s))) as [|Hlo]; [by injection Hrun as <- <-|].
  pose proof (to_fetch_bounds s tip Hinv Hlt Hlo) as Hb.
  apply bindM_Ok in Hrun as (s1 & infos1 & Hs & [= <- <-]).
  pose proof (respects_sync_heights (Z.to_nat (to_fetch s tip)) (top_height s tip - to_fetch s tip + 1)
    (set_world w s)) as Hg. rewrite Hs in Hg. destruct Hg as (_ & _ & Hwin & Hsz). cbn [fst checkpoints_chain set_world] in *.
  apply sync_heights_honest in Hs as (Hh' & _ & Hlast); [|lia| |exact Hh].
  2: { destruct Hinv as [(Hp & _) _]. apply params_window in Hp. unfold top_height in *. lia. }
  exists w, tip. split; [done|]. split; [done|]. cbn [checkpoints_chain set_last_synced_height remember].
  destruct Hinv' as [Hok' Hf']. split; [apply Hok'|]. split; [done|]. intros d. apply shows_depth; [done|done|].
  unfold shows, lowest_confirmation_depth in *. unfold filled, lowest_confirmation_depth in Hf'. cbn in Hf'.
  split; [|apply Hf']. destruct (Hlast ltac:(lia)) as (cp & Hcp & Hch). exists cp. split; [done|].
  rewrite Hwin. unfold top_height, lowest_confirmation_depth in Hch. lia.
Qed.
End honest.

(** A synchronizer made for a window that is up to date under [tip] believes
    to have seen one block more: the next block leaves the window as it is. *)
Lemma new_misses_a_block c w s0 tip w' :
  chain_ok c → shows tip c → tip + 1 < 2 ^ 64 → syncer_new c w = Ok s0 → count_rpc w = (w', Ok (tip + 1)) →
  sync_new_blocks s0 = (mkSyncer c (Some (tip + 1)) w', Ok []).
Proof.
  intros Hok [(cp & Hcp & Hh) _] Htip Hnew Hw. unfold syncer_new, recent_height in Hnew. rewrite Hcp in Hnew.
  cbn [fmap option_fmap option_map obind] in Hnew. rewrite Hh, uadd_Ok in Hnew by lia.
  replace (tip + 1 - lowest_confirmation_depth c + lowest_confirmation_depth c) with (tip + 1) in Hnew by lia.
  injection Hnew as <-. unfold sync_new_blocks, bindM. rewrite map_rpc_error_eq. cbn [rpc_world]. rewrite Hw.
  cbn [map_err get]. unfold get. cbn [last_synced_height set_world default]. unfold default. cbn.
  by rewrite Z.leb_refl.
Qed.

(** *** A bitcoind that stands still *)

Section still.
Context (tip : Z) (hd : Z → Header).
Hypothesis still_count : ∀ w, (count_rpc w).2 = Ok tip.
Hypothesis still_hash : ∀ h w, 1 ≤ h ≤ tip → (hash_rpc h w).2 = Ok (block_hash (hd h)).
Hypothesis still_header : ∀ h w, 1 ≤ h ≤ tip → (header_rpc (block_hash (hd h)) w).2 = Ok (hd h).
Hypothesis still_linked : ∀ h, 1 ≤ h → prev_blockhash (hd (h + 1)) = block_hash (hd h).
Hypothesis still_tip : 0 ≤ tip ≤ u32_max.

Lemma sync_height_still h s :
  1 ≤ h ≤ tip → let cp := checkpoint_new (hd h) h in
  ∃ w, sync_height h s =
    (zoom checkpoints_chain set_chain (push cp) ;! ret (h, block_hash (hd h))) (set_world w s).
Proof.
  intros Hh. cbv zeta. unfold sync_height. unfold bindM at 1. rewrite map_rpc_error_eq.
  pose proof (still_hash h (rpc_world s) Hh) as Hb. destruct (hash_rpc h (rpc_world s)) as [w1 r].
  cbn [snd] in Hb. subst r. cbn [map_err]. unfold bindM at 1. rewrite map_rpc_error_eq. cbn [rpc_world set_world].
  pose proof (still_header h w1 Hh) as Hhd. destruct (header_rpc (block_hash (hd h)) w1) as [w2 r].
  cbn [snd] in Hhd. subst r. cbn [map_err]. rewrite Z.mod_small by (unfold u32_max in *; lia).
  exists w2. by destruct s.
Qed.

Lemma sync_height_still_Ok h s :
  1 ≤ h ≤ tip → connects (checkpoint_new (hd h) h) (checkpoints_chain s) → ∃ w, sync_height h s =
    (mkSyncer (pushed (checkpoint_new (hd h) h) (checkpoints_chain s)) (last_synced_height s) w,
     Ok (h, block_hash (hd h))).
Proof.
  intros Hh Hc. destruct (sync_height_still h s Hh) as [w ->]. exists w. unfold bindM, zoom.
  cbn [checkpoints_chain set_world]. by rewrite (push_connects _ _ Hc).
Qed.

Lemma sync_height_still_stale h s :
  1 ≤ h ≤ tip → ¬ connects (checkpoint_new (hd h) h) (checkpoints_chain s) → ∃ w a b,
  sync_height h s = (set_world w s, Err (StaleBlockAdded a b)).
Proof.
  intros Hh Hc. destruct (sync_height_still h s Hh) as [w ->].
  destruct (push_stale (E:=RpcError) _ _ Hc) as (e1 & e2 & Hst). exists w, e1, e2. unfold bindM, zoom.
  cbn [checkpoints_chain set_world]. rewrite Hst. by destruct s.
Qed.

Lemma pushed_connects h c : 1 ≤ h → connects (checkpoint_new (hd (h + 1)) (h + 1)) (pushed (checkpoint_new (hd h) h) c).
Proof. intros Hh recent. rewrite pushed_last. intros [= <-]. cbn. by apply still_linked. Qed.

(** From a window that the first block connects to, all of them are added. *)
Lemma sync_heights_still n : ∀ h s,
  1 ≤ h → h + Z.of_nat n - 1 ≤ tip → connects (checkpoint_new (hd h) h) (checkpoints_chain s) →
  ∃ s' infos, sync_heights n h s = (s', Ok infos) ∧
    (n ≠ 0%nat → last (checkpoints (checkpoints_chain s')) =
      Some (checkpoint_new (hd (h + Z.of_nat n - 1)) (h + Z.of_nat n - 1))) ∧ (n = 0%nat → s' = s).
Proof.
  induction n as [|n IH]; intros h s Hh Hn Hc; cbn [sync_heights]; [eexists _, _; by split_and!|].
  unfold bindM at 1. destruct (sync_height_still_Ok h s ltac:(lia) Hc) as [w ->].
  destruct (IH (h + 1) (mkSyncer (pushed (checkpoint_new (hd h) h) (checkpoints_chain s)) (last_synced_height s) w))
    as (s' & infos & Hrun & Hlast & Hz); [lia..|by apply pushed_connects|].
  unfold bindM. rewrite Hrun. eexists _, _. split; [done|]. split; [|done]. intros _. destruct n as [|n].
  - rewrite (Hz eq_refl). cbn [checkpoints_chain]. rewrite pushed_last.
    by replace (h + Z.of_nat 1 - 1) with h by lia.
  - rewrite Hlast by done. by replace (h + 1 + Z.of_nat (S n) - 1) with (h + Z.of_nat (S (S n)) - 1) by lia.
Qed.

Context `{!RpcLaws}.

Definition first_height (s : Syncer) : Z := top_height s tip - to_fetch s tip + 1.

Lemma sync_still s :
  syncer_inv s → default 0 (last_synced_height s) < tip → lowest_confirmation_depth (checkpoints_chain s) ≤ tip →
  ∃ w, sync_new_blocks s =
    (let! synced := sync_heights (Z.to_nat (to_fetch s tip)) (first_height s) in remember tip ;! ret synced)
      (set_world w s).
Proof.
  intros Hinv Hlt Hlo. pose proof (still_count (rpc_world s)) as Hc.
  destruct (count_rpc (rpc_world s)) as [w r] eqn:Hw. cbn [snd] in Hc. subst r. exists w.
  rewrite (sync_new_blocks_eq s w tip Hinv Hw still_tip).
  by rewrite (proj2 (Z.leb_gt _ _) Hlt), (proj2 (Z.ltb_ge _ _) Hlo).
Qed.

(** The synchronizer has caught up. *)
Definition caught_up (s : Syncer) : Prop :=
  syncer_inv s ∧ last_synced_height s = Some tip ∧
  last (checkpoints (checkpoints_chain s)) = Some (checkpoint_new (hd (top_height s tip)) (top_height s tip)).

Lemma round_still_Ok s :
  syncer_inv s → default 0 (last_synced_height s) < tip → lowest_confirmation_depth (checkpoints_chain s) ≤ tip →
  connects (checkpoint_new (hd (first_height s)) (first_height s)) (checkpoints_chain s) →
  ∃ s', sync_round s = (s', Some WaitForNewBlock) ∧ caught_up s'.
Proof.
  intros Hinv Hlt Hlo Hc. pose proof (to_fetch_bounds s tip Hinv Hlt Hlo) as Hb.
  pose proof (sync_new_blocks_inv s Hinv) as [Hinv' _].
  destruct (sync_still s Hinv Hlt Hlo) as [w Hs]. rewrite Hs in Hinv'. unfold sync_round. rewrite Hs.
  assert (1 ≤ lowest_confirmation_depth (checkpoints_chain s)) as Hlo1.
  { destruct Hinv as [(Hp & _) _]. apply params_window in Hp. lia. }
  pose proof (respects_sync_heights (Z.to_nat (to_fetch s tip)) (first_height s) (set_world w s)) as Hg.
  destruct (sync_heights_still (Z.to_nat (to_fetch s tip)) (first_height s) (set_world w s))
    as (s1 & infos & Hrun & Hlast & _); [unfold first_height; lia|unfold first_height, top_height in *; lia|exact Hc|].
  unfold bindM in *. rewrite Hrun in Hg, Hinv' |- *. cbn in Hinv', Hg |- *. eexists. split; [done|].
  split; [done|]. split; [done|]. cbn [checkpoints_chain set_last_synced_height].
  rewrite Hlast by lia. unfold first_height. rewrite Z2Nat.id by lia.
  replace (top_height s tip - to_fetch s tip + 1 + to_fetch s tip - 1) with (top_height s tip) by lia.
  unfold top_height, lowest_confirmation_depth. cbn [checkpoints_chain set_last_synced_height].
  destruct Hg as (_ & _ & Hwin & _). cbn in Hwin. by rewrite Hwin.
Qed.

(** The synchronizer recovers by itself: whatever window it holds, stale
    or partly fetched ones included, once bitcoind stands still at a higher
    tip it has caught up after one turn of its loop, or after a second one
    that it starts at once, without waiting for a new block. *)
Theorem sync_recovers s :
  syncer_inv s → default 0 (last_synced_height s) < tip → lowest_confirmation_depth (checkpoints_chain s) ≤ tip →
  (∃ s', sync_round s = (s', Some WaitForNewBlock) ∧ caught_up s') ∨
  (∃ s1 s2, sync_round s = (s1, Some SyncNow) ∧ sync_round s1 = (s2, Some WaitForNewBlock) ∧ caught_up s2).
Proof.
  intros Hinv Hlt Hlo. pose proof (to_fetch_bounds s tip Hinv Hlt Hlo) as Hb.
  assert (1 ≤ lowest_confirmation_depth (checkpoints_chain s)) as Hlo1.
  { destruct Hinv as [(Hp & _) _]. apply params_window in Hp. lia. }
  destruct (decide (connects (checkpoint_new (hd (first_height s)) (first_height s)) (checkpoints_chain s))) as [Hc|Hc].
  { left. by apply round_still_Ok. }
  right. pose proof (sync_round_inv s Hinv) as [Hinv1 _]. destruct (sync_still s Hinv Hlt Hlo) as [w Hs].
  destruct (sync_height_still_stale (first_height s) (set_world w s)) as (w1 & a & b & Hstale);
    [unfold first_height, top_height in *; lia|exact Hc|].
  assert (sync_round s = (set_last_synced_height None
    (set_chain (clear (checkpoints_chain s)) (set_world w1 s)), Some SyncNow)) as Hr.
  { unfold sync_round. rewrite Hs. destruct (Z.to_nat (to_fetch s tip)) as [|n] eqn:En; [lia|].
    unfold bindM. cbn [sync_heights]. unfold bindM. by rewrite Hstale. }
  rewrite Hr in Hinv1 |- *. cbn [fst] in Hinv1.
  edestruct (round_still_Ok _ Hinv1) as (s2 & Hr2 & Hc2); cycle 3; [eauto 6|cbn; lia|exact Hlo|].
  intros recent. done.
Qed.
End still.
End syncer_theorems.

(** ** A concrete instance *)

(** The world is the tip of a chain whose blocks carry their height. *)
Definition toy_header (h : Z) : Header := mkHeader 0 (replicate 32 (h - 1)) (replicate 32 0) 0 0 h.
Definition toy_hash_at (h : Z) : BlockHash := replicate 32 h.
Definition toy_height_of (b : BlockHash) : Z := default 0 (head b).

#[export] Instance toy_rpc : CheckpointRpc := {
  RpcWorld := Z;
  RpcError := unit;
  count_rpc tip := (tip, if (0 <=? tip) && (tip <=? u32_max) then Ok tip else Err tt);
  hash_rpc h tip := (tip, if (1 <=? h) && (h <=? tip) then Ok (toy_hash_at h) else Err tt);
  header_rpc b tip := (tip, if decide (b = toy_hash_at (toy_height_of b)) then Ok (toy_header (toy_height_of b))
                            else Err tt) }.

#[export] Instance toy_rpc_laws : RpcLaws.
Proof.
  split; cbn; intros.
  - destruct (Z.leb_spec 0 w), (Z.leb_spec w u32_max); cbn in *; naive_solver lia.
  - by destruct (_ && _).
  - by destruct (_ && _).
  - by destruct (decide _).
Qed.

#[export] Instance toy_honest : HonestRpc toy_height_of.
Proof.
  split; unfold hash_rpc, header_rpc, toy_rpc.
  - intros h w w' b. destruct (_ && _); [|done]. by intros [= <- <-].
  - intros b w w' hd. destruct (decide (b = toy_hash_at (toy_height_of b))) as [Hb|]; [|done].
    intros [= <- <-]. split; [by rewrite Hb at 2|]. intros _. reflexivity.
Qed.

Definition debug : Profile := true.
#[local] Existing Instance debug.

Definition toy_chain_of (E : Type) : outcome (BitcoinCheckpointError E) BitcoinCheckpointsChain := try_new 6 4 2.

Definition toy_window : BitcoinCheckpointsChain := mkChain 6 [] (4, 10) 7.

Lemma try_new_spec_witness : ∃ c, toy_chain_of unit = Ok c ∧ chain_params c ∧ confirmation_window c = (4, 10).
Proof.
  assert (is_u64 6 ∧ is_u64 4 ∧ is_u64 2) as (H6 & H4 & H2) by (split_and!; by vm_compute).
  destruct (try_new_spec unit 6 4 2 H6 H4 H2) as (Hp & _ & _ & Hw).
  exact (ex_intro _ toy_window (conj eq_refl (conj Hp Hw))).
Defined.

Definition toy_syncer (tip : Z) : Syncer := mkSyncer toy_window None tip.

Lemma rounds_keep_window_witness : ∃ s, rounds 5 (toy_syncer 20) = Some s ∧ syncer_inv s.
Proof.
  assert (chain_params toy_window) as Hp by (by vm_compute).
  exact (rounds_keep_window toy_window 20 (toy_syncer 20) 5 Hp eq_refl eq_refl).
Defined.

Lemma toy_syncer_inv tip : syncer_inv (toy_syncer tip).
Proof.
  split; [|done]. split; [by vm_compute|]. split; [by vm_compute|]. split; [|constructor]. intros i a b Ha. done.
Qed.

Lemma depth_is_confirmations_witness :
  ∃ s' cp, sync_new_blocks (toy_syncer 20) = (s', Ok (map (λ h, (h, toy_hash_at h)) [11; 12; 13; 14; 15; 16; 17])) ∧
    strong (checkpoints_chain s') = Some cp ∧ cp_height cp = 20 + 1 - 6.
Proof.
  assert (heights_ok toy_height_of toy_window) as Hh by constructor.
  destruct (sync_new_blocks (toy_syncer 20)) as [s' r] eqn:Hrun.
  assert (r = (sync_new_blocks (toy_syncer 20)).2) as Hr by (by rewrite Hrun).
  assert (s' = (sync_new_blocks (toy_syncer 20)).1) as Hs by (by rewrite Hrun).
  vm_compute in Hr. subst r.
  destruct (depth_is_confirmations toy_height_of (toy_syncer 20) s' _ (toy_syncer_inv 20) Hh Hrun ltac:(done))
    as (w & tip & Hw & _ & _ & _ & Hd).
  vm_compute in Hw. injection Hw as <- <-. specialize (Hd 6).
  assert (strong_confirmation_depth (checkpoints_chain s') = 6) as Hst by (by rewrite Hs; vm_compute).
  assert (is_Some (get_by_confirmation_depth 6 (checkpoints_chain s'))) as [cp Hcp].
  { rewrite Hs. vm_compute. eauto. }
  rewrite Hcp in Hd. exists s', cp. split; [reflexivity|]. split; [|exact (proj1 Hd)].
  unfold strong. by rewrite Hst.
Defined.

(** A bitcoind that stands still at height 20, and a synchronizer whose window
    ends in a block of another branch. *)
Definition still_rpc : CheckpointRpc := {|
  RpcWorld := unit;
  RpcError := unit;
  count_rpc w := (w, Ok 20);
  hash_rpc h w := (w, Ok (toy_hash_at h));
  header_rpc b w := (w, Ok (toy_header (toy_height_of b))) |}.

#[local] Existing Instance still_rpc.

Lemma still_rpc_laws : RpcLaws.
Proof. split; try by cbn. intros w w' n. cbn. intros [= _ <-]. split; by vm_compute. Qed.

#[local] Existing Instance still_rpc_laws.

Definition stale_syncer : Syncer :=
  mkSyncer
    (set_checkpoints [checkpoint_new (mkHeader 0 [] [] 0 0 99) 9] toy_window) (Some 4) tt.

Lemma sync_recovers_witness :
  (∃ s', sync_round stale_syncer = (s', Some WaitForNewBlock) ∧
    caught_up 20 toy_header s') ∨
  (∃ s1 s2, sync_round stale_syncer = (s1, Some SyncNow) ∧
    sync_round s1 = (s2, Some WaitForNewBlock) ∧
    caught_up 20 toy_header s2).
Proof.
  assert (0 ≤ 20 ≤ u32_max) as Htip by (split; by vm_compute).
  assert (syncer_inv stale_syncer) as Hinv.
  { split; [|by vm_compute]. split; [by vm_compute|]. split; [by vm_compute|].
    split; [|by repeat constructor]. intros i a b Ha Hb. apply lookup_lt_Some in Hb. cbn in Hb. lia. }
  assert (∀ h, 1 ≤ h → prev_blockhash (toy_header (h + 1)) = block_hash (toy_header h)) as Hlinked.
  { intros h _. unfold toy_header. cbn. by replace (h + 1 - 1) with h by lia. }
  exact (sync_recovers 20 toy_header (λ _, eq_refl)
    (λ h w _, eq_refl) (λ h w _, eq_refl) Hlinked Htip stale_syncer Hinv eq_refl ltac:(by vm_compute)).
Defined.
