(* ===== verification/DkgAuth.v ===== *)
(** * Authentication and encryption of the key generation

    src/bin/botanix-btc-server/src/dkg/encryption.rs: the three managers that
    authenticate and encrypt the packages of the distributed key generation.
    [DkgHandshakeManager] signs and checks the packages of the first round,
    [SecureChannelManager] encrypts and decrypts those of the second,
    [KeyVerificationManager] signs and checks the resulting key.

    FROST, secp256k1, ChaCha20-Poly1305 and the Merlin transcripts are the
    parameter [DkgLib]; identifiers are the integers their scalars stand for,
    ordered as those.  A [Profile] with overflow checks also has debug
    assertions, as in cargo's profiles. *)

From S2P Require Import Prelude Bytes Codec.
From stdpp Require Import strings.

Open Scope Z_scope.

Abbreviation FrostId := Z.

(** ** The libraries *)

Class DkgLib := {
  SecretKey : Type;
  PubKey : Type;
  EcdsaSig : Type;
  (** the key that the [n]-th draw of the random generator gives *)
  random_secret : Z → SecretKey;
  pub_of : SecretKey → PubKey;
  pub_serialize : PubKey → bytes;
  ecdsa_sign : bytes → SecretKey → EcdsaSig;
  ecdsa_verify : PubKey → bytes → EcdsaSig → bool;
  serialize_compact : EcdsaSig → bytes;
  shared_secret : PubKey → SecretKey → bytes;
  (** key, nonce and text *)
  aead_encrypt : bytes → bytes → bytes → option bytes;
  aead_decrypt : bytes → bytes → bytes → option bytes;
  Transcript : Type;
  transcript_new : string → Transcript;
  append_message : string → bytes → Transcript → Transcript;
  append_u64 : string → Z → Transcript → Transcript;
  (** 32 challenge bytes, and the transcript after them *)
  challenge_bytes : string → Transcript → Transcript * bytes;
  id_serialize : FrostId → bytes;
  Round1Secret : Type;
  Round1Package : Type;
  Round2Secret : Type;
  Round2Package : Type;
  KeyPackage : Type;
  DkgPublicKeyPackage : Type;
  r1_serialize : Round1Package → option bytes;
  r2_serialize : Round2Package → option bytes;
  r2_deserialize : bytes → option Round2Package;
  pkp_serialize : DkgPublicKeyPackage → option bytes;
  (** [part1(id, max_signers, min_signers, rng)] on the [n]-th draw *)
  dkg_part1 : FrostId → Z → Z → Z → option (Round1Secret * Round1Package);
  dkg_part2 : Round1Secret → gmap FrostId Round1Package → option (Round2Secret * gmap FrostId Round2Package);
  dkg_part3 : Round2Secret → gmap FrostId Round1Package → gmap FrostId Round2Package →
    option (KeyPackage * DkgPublicKeyPackage) }.

(** Iterating a [BTreeMap] with these keys. *)
Definition btree_iter {A} (m : gmap FrostId A) : list (FrostId * A) :=
  sort_by (λ a b, a.1 <=? b.1) (map_to_list m).

Definition debug_assert `{!Profile} {S E} (b : bool) : M S E unit :=
  if overflow_checks && negb b then panic else ret tt.

Section encryption.
Context `{!DkgLib, !Profile}.

Inductive EncryptionError :=
| SelfNotInFederation
| InsufficientSamples
| NotAFedMember
| SignatureVerificationFailed
| DecryptionFailed
| DeserializationFailed
| AwaitingChallengeGeneration
| InternalFrostError
| InternalAeadError.

Record SymmetricKeyEntry := mkSymmetricKey { sending : bytes; receiving : bytes; k_nonce : Z }.

Definition integer_to_serialized_nonce (nonce : Z) : bytes := to_le_bytes 8 nonce ++ replicate 4 0.

(** ** Round one *)

Record DkgHandshakeManager := mkHandshake {
  h_transcript : Transcript;
  h_my_frost_id : FrostId;
  h_my_static_sec : SecretKey;
  my_eph_sec : SecretKey;
  my_eph_pub : PubKey;
  h_fed_members : gmap FrostId PubKey;
  eph_keys : gmap FrostId PubKey;
  round1_commits : gmap FrostId bytes }.

Definition handshake_new (context : bytes) (nonce : Z) (my_frost_id : FrostId) (my_static_sec : SecretKey)
    (fed_members : gmap FrostId PubKey) (rng : Z) : outcome EncryptionError DkgHandshakeManager :=
  match fed_members !! my_frost_id with
  | None => Err SelfNotInFederation
  | Some _ =>
      let t := transcript_new "Botanix_Macbeth_DKG_Setup_v1" in
      let t := append_message "context" context t in
      let t := append_u64 "nonce" nonce t in
      let my_eph_sec := random_secret rng in
      let my_eph_pub := pub_of my_eph_sec in
      Ok (mkHandshake t my_frost_id my_static_sec my_eph_sec my_eph_pub fed_members
            {[ my_frost_id := my_eph_pub ]} ∅)
  end.

(** The bytes that a package of round one is signed with. *)
Definition round1_commit (t : Transcript) (id : FrostId) (eph_pub : PubKey) (package : Round1Package)
    : outcome EncryptionError bytes :=
  let t := append_message "frost_id" (id_serialize id) t in
  let t := append_message "eph_pub" (pub_serialize eph_pub) t in
  let? b := ok_or (r1_serialize package) InternalFrostError in
  Ok (challenge_bytes "round1_commit" (append_message "round1_package" b t)).2.

Definition set_commit (id : FrostId) (commit : bytes) (h : DkgHandshakeManager) : DkgHandshakeManager :=
  mkHandshake (h_transcript h) (h_my_frost_id h) (h_my_static_sec h) (my_eph_sec h) (my_eph_pub h)
    (h_fed_members h) (eph_keys h) (<[id := commit]> (round1_commits h)).

Definition set_eph_key (id : FrostId) (k : PubKey) (h : DkgHandshakeManager) : DkgHandshakeManager :=
  mkHandshake (h_transcript h) (h_my_frost_id h) (h_my_static_sec h) (my_eph_sec h) (my_eph_pub h)
    (h_fed_members h) (<[id := k]> (eph_keys h)) (round1_commits h).

Definition commit_round1 (package : Round1Package) : M DkgHandshakeManager EncryptionError (PubKey * EcdsaSig) :=
  let! h := get in
  let! commit := lift (round1_commit (h_transcript h) (h_my_frost_id h) (my_eph_pub h) package) in
  modify (set_commit (h_my_frost_id h) commit) ;!
  ret (my_eph_pub h, ecdsa_sign commit (h_my_static_sec h)).

Definition validate_round1 (initiator : FrostId) (eph_pub : PubKey) (signature : EcdsaSig)
    (package : Round1Package) : M DkgHandshakeManager EncryptionError unit :=
  let! h := get in
  let! fed_static := lift (ok_or (h_fed_members h !! initiator) NotAFedMember) in
  let! commit := lift (round1_commit (h_transcript h) initiator eph_pub package) in
  if negb (ecdsa_verify fed_static commit signature) then fail SignatureVerificationFailed else
  modify (set_eph_key initiator eph_pub) ;!
  modify (set_commit initiator commit).

(** ** Round two *)

Record SecureChannelManager := mkChannel {
  c_transcript : Transcript;
  c_my_frost_id : FrostId;
  c_my_static_sec : SecretKey;
  c_fed_members : gmap FrostId PubKey;
  symmetric_keys : gmap FrostId SymmetricKeyEntry;
  round2_checks : gset FrostId }.

(** The keys shared with the member [fed_id]. *)
Definition symmetric_key (h : DkgHandshakeManager) (t : Transcript) (fed_id : FrostId)
    (fed_static fed_eph : PubKey) : SymmetricKeyEntry :=
  let mine := shared_secret fed_eph (h_my_static_sec h) in
  let theirs := shared_secret fed_static (my_eph_sec h) in
  let lower := h_my_frost_id h <? fed_id in
  let '(ss1, ss2) := if lower then (mine, theirs) else (theirs, mine) in
  let t := append_message "ss2" ss2 (append_message "ss1" ss1 t) in
  let '(t, key1) := challenge_bytes "sym_key1" t in
  let '(_, key2) := challenge_bytes "sym_key2" t in
  let '(sending, receiving) := if lower then (key1, key2) else (key2, key1) in
  mkSymmetricKey sending receiving 0.

Definition add_symmetric_key (h : DkgHandshakeManager) (t : Transcript)
    (keys : gmap FrostId SymmetricKeyEntry) (member : FrostId * PubKey)
    : outcome EncryptionError (gmap FrostId SymmetricKeyEntry) :=
  let '(fed_id, fed_static) := member in
  if bool_decide (fed_id = h_my_frost_id h) then Ok keys else
  let? fed_eph := expect (eph_keys h !! fed_id) in
  Ok (<[fed_id := symmetric_key h t fed_id fed_static fed_eph]> keys).

Definition append_commits (commits : gmap FrostId bytes) (t : Transcript) : Transcript :=
  foldl (λ t (e : FrostId * bytes), append_message "round1_commit" e.2 t) t (btree_iter commits).

Definition handshake_finalize : M DkgHandshakeManager EncryptionError SecureChannelManager :=
  let! h := get in
  if negb (size (round1_commits h) =? size (h_fed_members h))%nat then fail InsufficientSamples else
  debug_assert (size (eph_keys h) =? size (h_fed_members h))%nat ;!
  let t := append_commits (round1_commits h) (h_transcript h) in
  modify (λ h, mkHandshake t (h_my_frost_id h) (h_my_static_sec h) (my_eph_sec h) (my_eph_pub h)
                 (h_fed_members h) (eph_keys h) ∅) ;!
  let! keys := lift (ofold (add_symmetric_key h t) ∅ (btree_iter (h_fed_members h))) in
  modify (λ h, mkHandshake (h_transcript h) (h_my_frost_id h) (h_my_static_sec h) (my_eph_sec h)
                 (my_eph_pub h) ∅ (eph_keys h) (round1_commits h)) ;!
  ret (mkChannel t (h_my_frost_id h) (h_my_static_sec h) (h_fed_members h) keys ∅).

Definition set_symmetric_keys (k : gmap FrostId SymmetricKeyEntry) (c : SecureChannelManager) :=
  mkChannel (c_transcript c) (c_my_frost_id c) (c_my_static_sec c) (c_fed_members c) k (round2_checks c).

Definition set_checks (s : gset FrostId) (c : SecureChannelManager) :=
  mkChannel (c_transcript c) (c_my_frost_id c) (c_my_static_sec c) (c_fed_members c) (symmetric_keys c) s.

Definition commit_round2 (target : FrostId) (package : Round2Package)
    : M SecureChannelManager EncryptionError (bytes * Z) :=
  let! c := get in
  let! entry := lift (ok_or (symmetric_keys c !! target) NotAFedMember) in
  let sending_nonce := k_nonce entry in
  let! next := lift (uadd 64 sending_nonce 1) in
  modify (set_symmetric_keys
            (<[target := mkSymmetricKey (sending entry) (receiving entry) next]> (symmetric_keys c))) ;!
  let! plaintext := lift (ok_or (r2_serialize package) InternalFrostError) in
  let! enc_package := lift (ok_or (aead_encrypt (sending entry) (integer_to_serialized_nonce sending_nonce) plaintext)
                              InternalAeadError) in
  modify (λ c, set_checks ({[ c_my_frost_id c ]} ∪ round2_checks c) c) ;!
  ret (enc_package, sending_nonce).

Definition validate_round2 (initiator : FrostId) (nonce : Z) (package : bytes)
    : M SecureChannelManager EncryptionError Round2Package :=
  let! c := get in
  let! entry := lift (ok_or (symmetric_keys c !! initiator) NotAFedMember) in
  let! plaintext := lift (ok_or (aead_decrypt (receiving entry) (integer_to_serialized_nonce nonce) package)
                            DecryptionFailed) in
  let! package := lift (ok_or (r2_deserialize plaintext) DeserializationFailed) in
  modify (λ c, set_checks ({[ initiator ]} ∪ round2_checks c) c) ;!
  ret package.

(** ** Round three *)

Record KeyVerificationManager := mkVerification {
  v_transcript : Transcript;
  v_my_frost_id : FrostId;
  v_my_static_sec : SecretKey;
  v_fed_members : gmap FrostId PubKey;
  challenge : option bytes;
  round3_commits : gmap FrostId EcdsaSig }.

Definition channel_finalize : M SecureChannelManager EncryptionError KeyVerificationManager :=
  let! c := get in
  if negb (size (round2_checks c) =? size (c_fed_members c))%nat then fail InsufficientSamples else
  let t := append_message "round2_commit" [] (c_transcript c) in
  modify (λ c, mkChannel t (c_my_frost_id c) (c_my_static_sec c) ∅ (symmetric_keys c) (round2_checks c)) ;!
  ret (mkVerification t (c_my_frost_id c) (c_my_static_sec c) (c_fed_members c) None ∅).

Definition set_commit3 (id : FrostId) (sig : EcdsaSig) (v : KeyVerificationManager) : KeyVerificationManager :=
  mkVerification (v_transcript v) (v_my_frost_id v) (v_my_static_sec v) (v_fed_members v) (challenge v)
    (<[id := sig]> (round3_commits v)).

Definition commit_round3 (package : DkgPublicKeyPackage) : M KeyVerificationManager EncryptionError EcdsaSig :=
  let! v := get in
  let! b := lift (ok_or (pkp_serialize package) InternalFrostError) in
  let '(t, commit) := challenge_bytes "round3_commit" (append_message "round3_package" b (v_transcript v)) in
  let signature := ecdsa_sign commit (v_my_static_sec v) in
  modify (λ v, mkVerification t (v_my_frost_id v) (v_my_static_sec v) (v_fed_members v) (Some commit)
                 (round3_commits v)) ;!
  modify (set_commit3 (v_my_frost_id v) signature) ;!
  ret signature.

Definition validate_round3 (initiator : FrostId) (signature : EcdsaSig) : M KeyVerificationManager EncryptionError unit :=
  let! v := get in
  let! commit := lift (ok_or (challenge v) AwaitingChallengeGeneration) in
  let! fed_static := lift (ok_or (v_fed_members v !! initiator) NotAFedMember) in
  if negb (ecdsa_verify fed_static commit signature) then fail SignatureVerificationFailed else
  modify (set_commit3 initiator signature).

Definition verification_finalize : M KeyVerificationManager EncryptionError bytes :=
  let! v := get in
  if negb (size (round3_commits v) =? size (v_fed_members v))%nat then fail InsufficientSamples else
  let t := foldl (λ t (e : FrostId * EcdsaSig), append_message "round3_commit" (serialize_compact e.2) t)
             (v_transcript v) (btree_iter (round3_commits v)) in
  let '(t, final_commit) := challenge_bytes "final_commit" t in
  modify (λ v, mkVerification t (v_my_frost_id v) (v_my_static_sec v) (v_fed_members v) (challenge v) ∅) ;!
  ret final_commit.

End encryption.

(** ** Documented behaviour of the libraries *)

Class DkgLaws `{!DkgLib} : Prop := {
  ecdsa_correct sk m : ecdsa_verify (pub_of sk) m (ecdsa_sign m sk) = true;
  shared_secret_comm a b : shared_secret (pub_of a) b = shared_secret (pub_of b) a;
  aead_roundtrip k n t ct : aead_encrypt k n t = Some ct → aead_decrypt k n ct = Some t;
  r2_roundtrip p b : r2_serialize p = Some b → r2_deserialize b = Some p;
  (** FROST wants a package of both rounds from each of the others *)
  dkg_part3_same_ids s r1 r2 k : dkg_part3 s r1 r2 = Some k → dom r1 = dom r2 }.

(** ** Maps iterated in order *)

Lemma btree_iter_perm {A} (m : gmap FrostId A) : btree_iter m ≡ₚ map_to_list m.
Proof. apply sort_by_perm. Qed.

Lemma elem_of_btree_iter {A} (m : gmap FrostId A) k x : (k, x) ∈ btree_iter m ↔ m !! k = Some x.
Proof. by rewrite btree_iter_perm, elem_of_map_to_list. Qed.

Lemma NoDup_btree_iter {A} (m : gmap FrostId A) : NoDup (btree_iter m).*1.
Proof. rewrite btree_iter_perm. apply NoDup_fst_map_to_list. Qed.

Section theory.
Context `{!DkgLib, !Profile}.

(** ** The handshake *)

Lemma ofold_add_symmetric_key h t l keys keys' :
  NoDup l.*1 →
  ofold (add_symmetric_key h t) keys l = Ok keys' →
  ∀ j, keys' !! j =
    match list_find (λ e : FrostId * PubKey, e.1 = j ∧ j ≠ h_my_frost_id h) l with
    | Some (_, e) => symmetric_key h t j e.2 <$> eph_keys h !! j
    | None => keys !! j
    end.
Proof.
  revert keys. induction l as [|[i pk] l IH]; intros keys Hl Hf j; cbn [ofold fmap list_fmap] in *.
  { by injection Hf as <-. }
  apply NoDup_cons in Hl as [Hi Hl]. apply obind_Ok in Hf as (keys1 & Hadd & Hf).
  specialize (IH _ Hl Hf j). cbn [list_find fst snd]. unfold add_symmetric_key in Hadd.
  destruct (bool_decide_reflect (i = h_my_frost_id h)) as [->|Hme]; cbn in Hadd.
  - injection Hadd as <-. rewrite decide_False by naive_solver.
    destruct (list_find _ l) as [[k e]|]; exact IH.
  - apply obind_Ok in Hadd as (eph & Heph & Hadd). apply expect_Ok in Heph. injection Hadd as <-.
    destruct (decide (i = j ∧ j ≠ h_my_frost_id h)) as [[-> _]|Hne]; cbn [snd fst].
    + rewrite Heph. cbn. destruct (list_find _ l) as [[k e]|] eqn:Hfind.
      * apply list_find_Some in Hfind as (Hk & [Hej _] & _). exfalso. apply Hi.
        rewrite <-Hej. apply list_elem_of_fmap. exists e. split; [done|].
        by eapply list_elem_of_lookup_2.
      * rewrite IH. by rewrite lookup_insert_eq.
    + destruct (list_find _ l) as [[k e]|]; [exact IH|]. rewrite IH.
      rewrite lookup_insert_ne; [done|]. naive_solver.
Qed.

(** What [finalize] returns: a channel with every other member. *)
Lemma handshake_finalize_Ok h h' c :
  handshake_finalize h = (h', Ok c) →
  let t := append_commits (round1_commits h) (h_transcript h) in
  size (round1_commits h) = size (h_fed_members h) ∧
  c_transcript c = t ∧ c_my_frost_id c = h_my_frost_id h ∧ c_my_static_sec c = h_my_static_sec h ∧
  c_fed_members c = h_fed_members h ∧ round2_checks c = ∅ ∧
  h_fed_members h' = ∅ ∧
  ∀ j, symmetric_keys c !! j =
    if bool_decide (j = h_my_frost_id h) then None else
    pk ← h_fed_members h !! j; symmetric_key h t j pk <$> eph_keys h !! j.
Proof.
  intros Hf t. unfold handshake_finalize in Hf. apply bindM_Ok in Hf as (s & h1 & Hg & Hf).
  injection Hg as <- <-.
  destruct (negb _) eqn:Hsz; [by cbv [fail] in Hf|]. apply negb_false_iff, Nat.eqb_eq in Hsz.
  apply bindM_Ok in Hf as (s & [] & Hda & Hf).
  assert (s = h) as ->.
  { unfold debug_assert in Hda. destruct (_ && _); cbv [panic ret] in Hda; by simplify_eq. }
  apply bindM_Ok in Hf as (s & [] & Hm & Hf). injection Hm as <-.
  apply bindM_Ok in Hf as (s & ks & Hk & Hf). apply lift_Ok in Hk as [-> Hk].
  apply bindM_Ok in Hf as (s & [] & Hm & Hf). injection Hm as <-.
  injection Hf as <- <-. cbn.
  split; [done|]. do 6 (split; [done|]). intros j.
  rewrite (ofold_add_symmetric_key _ _ _ _ _ (NoDup_btree_iter _) Hk j).
  destruct (bool_decide_reflect (j = h_my_frost_id h)) as [->|Hj].
  - destruct (list_find _ _) as [[k e]|] eqn:Hfind; [|done].
    apply list_find_Some in Hfind as (_ & [_ Hn] & _). done.
  - destruct (list_find _ _) as [[k [i e]]|] eqn:Hfind.
    + apply list_find_Some in Hfind as (Hin & [Hij _] & _). cbn in Hij. subst i.
      apply list_elem_of_lookup_2, elem_of_btree_iter in Hin. by rewrite Hin.
    + destruct (h_fed_members h !! j) as [pk|] eqn:Hpk; [|done].
      apply list_find_None in Hfind. rewrite Forall_forall in Hfind.
      exfalso. apply (Hfind (j, pk)); [by apply elem_of_btree_iter|done].
Qed.

Lemma handshake_finalize_completes h :
  size (round1_commits h) = size (h_fed_members h) → size (eph_keys h) = size (h_fed_members h) →
  (∀ j, is_Some (h_fed_members h !! j) → is_Some (eph_keys h !! j)) →
  ∃ h' c, handshake_finalize h = (h', Ok c).
Proof.
  intros Hsz Hsz' Hk. unfold handshake_finalize.
  assert (∃ ks, ofold (add_symmetric_key h (append_commits (round1_commits h) (h_transcript h))) ∅
                  (btree_iter (h_fed_members h)) = Ok ks) as [ks Hks].
  { assert (∀ e, e ∈ btree_iter (h_fed_members h) → is_Some (eph_keys h !! e.1)) as Hl.
    { intros [j pk] Hin. apply Hk. apply elem_of_btree_iter in Hin. by exists pk. }
    revert Hl. generalize (btree_iter (h_fed_members h)) as l, (∅ : gmap FrostId SymmetricKeyEntry) as ks.
    induction l as [|[j pk] l IH]; intros ks Hl; cbn [ofold]; [by eauto|].
    destruct (Hl (j, pk)) as [e He]; [set_solver|]. cbn in He.
    assert (∃ ks', add_symmetric_key h (append_commits (round1_commits h) (h_transcript h)) ks (j, pk) = Ok ks')
      as [ks' ->].
    { unfold add_symmetric_key. case_bool_decide; [by eauto|]. rewrite He. cbn. eauto. }
    cbn [obind]. apply IH. set_solver. }
  unfold bindM, get, modify, lift, ret. rewrite Hsz, Nat.eqb_refl. cbn [negb].
  unfold debug_assert. rewrite Hsz', Nat.eqb_refl. cbn [negb]. rewrite andb_false_r. cbv [ret].
  cbn [h_fed_members]. rewrite Hks. eauto.
Qed.

(** Both ends derive the same keys, each the other way round. *)
Lemma symmetric_key_agrees `{!DkgLaws} hi hj t :
  h_my_frost_id hi ≠ h_my_frost_id hj →
  let ki := symmetric_key hi t (h_my_frost_id hj) (pub_of (h_my_static_sec hj)) (pub_of (my_eph_sec hj)) in
  let kj := symmetric_key hj t (h_my_frost_id hi) (pub_of (h_my_static_sec hi)) (pub_of (my_eph_sec hi)) in
  sending ki = receiving kj ∧ receiving ki = sending kj.
Proof.
  intros Hne. cbn zeta. unfold symmetric_key.
  rewrite (shared_secret_comm (my_eph_sec hj) (h_my_static_sec hi)),
    (shared_secret_comm (h_my_static_sec hj) (my_eph_sec hi)).
  destruct (Z.ltb_spec (h_my_frost_id hi) (h_my_frost_id hj)) as [Hlt|Hlt];
    destruct (Z.ltb_spec (h_my_frost_id hj) (h_my_frost_id hi)) as [Hlt'|Hlt']; try lia;
    cbn zeta; destruct (challenge_bytes "sym_key1" _) as [u k1];
    destruct (challenge_bytes "sym_key2" u) as [u' k2]; done.
Qed.

(** ** Using a channel

    A channel is used by sealing packages for a target and by opening the
    packages of an initiator, in any order. *)

Inductive ChannelOp :=
| Seal (target : FrostId) (package : Round2Package)
| Open (initiator : FrostId) (nonce : Z) (package : bytes).

(** Every operation in turn, whatever its outcome; the result lists the
    target and the nonce of the packages that were encrypted. *)
Fixpoint channel_run (ops : list ChannelOp) (c : SecureChannelManager)
    : SecureChannelManager * list (FrostId * Z) :=
  match ops with
  | [] => (c, [])
  | Seal target package :: ops =>
      let '(c, r) := commit_round2 target package c in
      let '(c, l) := channel_run ops c in
      (c, match r with Ok (_, n) => (target, n) :: l | _ => l end)
  | Open initiator nonce package :: ops => channel_run ops (validate_round2 initiator nonce package c).1
  end.

(** The keys of a channel are fixed, only the nonces advance. *)
Definition same_keys (c c' : SecureChannelManager) : Prop :=
  c_my_frost_id c' = c_my_frost_id c ∧ c_transcript c' = c_transcript c ∧
  c_my_static_sec c' = c_my_static_sec c ∧ c_fed_members c' = c_fed_members c ∧
  ∀ j, (λ e, (sending e, receiving e)) <$> symmetric_keys c' !! j =
       (λ e, (sending e, receiving e)) <$> symmetric_keys c !! j.

#[local] Instance same_keys_refl : Reflexive same_keys.
Proof. intros c. unfold same_keys. by do 4 (split; [done|]). Qed.
#[local] Instance same_keys_trans : Transitive same_keys.
Proof.
  intros c1 c2 c3 (E1 & E2 & E3 & E4 & E5) (F1 & F2 & F3 & F4 & F5).
  unfold same_keys. do 4 (split; [congruence|]). intros j. by rewrite F5.
Qed.

Lemma commit_round2_same_keys target package : respects same_keys (commit_round2 target package).
Proof.
  intros c. unfold commit_round2. apply bind_rel; [exact _|done|].
  intros c1 c1' [= <- <-]. unfold bindM at 1, lift at 1.
  destruct (symmetric_keys c !! target) as [e|] eqn:He; [|done]. cbn [ok_or].
  unfold bindM at 1, lift at 1. destruct (uadd 64 (k_nonce e) 1) as [n| |]; [|done..].
  apply bind_rel; [exact _| |].
  { cbn. do 4 (split; [done|]). intros j. cbn. destruct (decide (j = target)) as [->|].
    - by rewrite lookup_insert_eq, He.
    - by rewrite lookup_insert_ne by congruence. }
  intros c1 [] _. revert c1.
  eapply respects_bind; [exact _|apply respects_lift; exact _|intros b].
  eapply respects_bind; [exact _|apply respects_lift; exact _|intros b'].
  eapply respects_bind; [exact _| |intros []; apply respects_ret; exact _].
  apply respects_modify. by repeat split.
Qed.

Lemma validate_round2_same_keys initiator nonce package :
  respects same_keys (validate_round2 initiator nonce package).
Proof.
  unfold validate_round2. apply respects_get. intros c. revert c.
  assert (∀ c0, respects same_keys (
    let! entry := lift (ok_or (symmetric_keys c0 !! initiator) NotAFedMember) in
    let! plaintext := lift (ok_or (aead_decrypt (receiving entry) (integer_to_serialized_nonce nonce) package)
                              DecryptionFailed) in
    let! package := lift (ok_or (r2_deserialize plaintext) DeserializationFailed) in
    modify (λ c, set_checks ({[ initiator ]} ∪ round2_checks c) c) ;!
    ret package)) as Hr; [|intros c; apply Hr].
  intros c0. do 3 (eapply respects_bind; [exact _|apply respects_lift; exact _|intros ?]).
  eapply respects_bind; [exact _| |intros []; apply respects_ret; exact _].
  apply respects_modify. by repeat split.
Qed.

Lemma channel_run_same_keys ops c : same_keys c (channel_run ops c).1.
Proof.
  revert c. induction ops as [|[target package|i n p] ops IH]; intros c; cbn [channel_run]; [done| |].
  - pose proof (commit_round2_same_keys target package c) as Hc.
    destruct (commit_round2 target package c) as [c1 r]. specialize (IH c1).
    destruct (channel_run ops c1) as [c2 l]. cbn in *. by etrans.
  - etrans; [apply validate_round2_same_keys|apply IH].
Qed.

Lemma commit_round2_Ok target package c c' ct n :
  commit_round2 target package c = (c', Ok (ct, n)) →
  ∃ e pt, symmetric_keys c !! target = Some e ∧ n = k_nonce e ∧ r2_serialize package = Some pt ∧
    aead_encrypt (sending e) (integer_to_serialized_nonce n) pt = Some ct.
Proof.
  unfold commit_round2. intros Hc. apply bindM_Ok in Hc as (s & c0 & Hg & Hc). injection Hg as <- <-.
  apply bindM_Ok in Hc as (s & e & Hm & Hc). apply lift_Ok in Hm as [-> He]. apply ok_or_Ok in He.
  apply bindM_Ok in Hc as (s & next & Hm & Hc). apply lift_Ok in Hm as [-> _].
  apply bindM_Ok in Hc as (s & [] & Hm & Hc).
  apply bindM_Ok in Hc as (s' & pt & Hm' & Hc). apply lift_Ok in Hm' as [-> Hpt]. apply ok_or_Ok in Hpt.
  apply bindM_Ok in Hc as (s'' & ct' & Hm'' & Hc). apply lift_Ok in Hm'' as [-> Hct]. apply ok_or_Ok in Hct.
  apply bindM_Ok in Hc as (s3 & [] & _ & Hc). injection Hc as _ -> <-. eauto 6.
Qed.

(** The nonce of a target advances by at most one, and does when its package
    was encrypted. *)
Lemma commit_round2_nonces target package c :
  (∀ j e, symmetric_keys c !! j = Some e → 0 ≤ k_nonce e ∧ k_nonce e + 1 < 2 ^ 64) →
  let '(c', r) := commit_round2 target package c in
  (∀ j e', symmetric_keys c' !! j = Some e' →
     ∃ e, symmetric_keys c !! j = Some e ∧ k_nonce e ≤ k_nonce e' ≤ k_nonce e + 1) ∧
  (∀ ct n, r = Ok (ct, n) →
     (∃ e, symmetric_keys c !! target = Some e ∧ k_nonce e = n) ∧
     ∀ e', symmetric_keys c' !! target = Some e' → k_nonce e' = n + 1).
Proof.
  intros Hb. destruct (commit_round2 target package c) as [c' r] eqn:Hrun.
  assert (∀ j e, symmetric_keys c !! j = Some e →
    ∃ e', symmetric_keys c !! j = Some e' ∧ k_nonce e' ≤ k_nonce e ≤ k_nonce e' + 1) as Hsame.
  { intros j e He. exists e. split; [done|lia]. }
  unfold commit_round2, bindM, get, lift, modify in Hrun.
  destruct (symmetric_keys c !! target) as [e|] eqn:He; cbn in Hrun; [|by simplify_eq].
  specialize (Hb _ _ He) as Hbe. rewrite uadd_Ok in Hrun by lia.
  set (c1 := set_symmetric_keys _ c) in Hrun.
  assert (symmetric_keys c' = symmetric_keys c1 ∧ ∀ ct n, r = Ok (ct, n) → n = k_nonce e) as [Hc' Hn].
  { destruct (r2_serialize package); cbn in Hrun; [|injection Hrun as <- <-; split; [done|congruence]].
    destruct (aead_encrypt _ _ _); cbn in Hrun; injection Hrun as <- <-; (split; [done|congruence]). }
  rewrite Hc'. cbn. split.
  - intros j e'. destruct (decide (j = target)) as [->|Hj].
    + rewrite lookup_insert_eq. intros [= <-]. exists e. split; [done|cbn; lia].
    + rewrite lookup_insert_ne by done. apply Hsame.
  - intros ct n Hr. specialize (Hn _ _ Hr) as ->. split; [eauto|].
    intros e'. rewrite lookup_insert_eq. by intros [= <-].
Qed.

Lemma channel_run_nonces ops c c' l :
  channel_run ops c = (c', l) →
  (∀ j e, symmetric_keys c !! j = Some e → 0 ≤ k_nonce e ∧ k_nonce e + Z.of_nat (length ops) < 2 ^ 64) →
  NoDup l ∧ ∀ j n, (j, n) ∈ l → ∃ e, symmetric_keys c !! j = Some e ∧ k_nonce e ≤ n.
Proof.
  revert c l. induction ops as [|[target package|i n p] ops IH]; intros c l Hrun Hb; cbn [channel_run length] in *.
  - injection Hrun as <- <-. split; [constructor|]. set_solver.
  - pose proof (commit_round2_nonces target package c) as Hstep.
    destruct (commit_round2 target package c) as [c1 r].
    destruct (channel_run ops c1) as [c2 l1] eqn:Hrest. injection Hrun as -> <-.
    destruct Hstep as [Hmono Hlast]; [intros j e He; specialize (Hb _ _ He); lia|].
    destruct (IH c1 l1 Hrest) as [Hnd Hge].
    { intros j e He. destruct (Hmono _ _ He) as (e0 & He0 & ?). specialize (Hb _ _ He0). lia. }
    assert (∀ j n, (j, n) ∈ l1 → ∃ e, symmetric_keys c !! j = Some e ∧ k_nonce e ≤ n) as Hge'.
    { intros j n Hin. destruct (Hge _ _ Hin) as (e & He & ?). destruct (Hmono _ _ He) as (e0 & He0 & ?).
      exists e0. split; [done|lia]. }
    destruct r as [[ct n]|e|]; [|by split..].
    destruct (Hlast _ _ eq_refl) as [(e & He & Hen) Hn']. split.
    + apply NoDup_cons. split; [|done]. intros Hin. destruct (Hge _ _ Hin) as (e' & He' & ?).
      specialize (Hn' _ He'). lia.
    + intros j m [[= -> ->]|Hin]%elem_of_cons; [exists e; split; [done|lia]|by apply Hge'].
  - assert (symmetric_keys (validate_round2 i n p c).1 = symmetric_keys c) as Hsame.
    { unfold validate_round2, bindM, get, lift, modify. cbn. destruct (symmetric_keys c !! i); [|done]. cbn.
      destruct (aead_decrypt _ _ _) as [t|]; [|done]. cbn. by destruct (r2_deserialize t). }
    rewrite <-Hsame in Hb |- *. apply (IH _ _ Hrun).
    intros j e He. specialize (Hb _ _ He). lia.
Qed.

(** A package that one end encrypted is decrypted by the other. *)
Lemma channel_opens `{!DkgLaws} c c' target initiator package ci e e' ct n :
  commit_round2 target package ci = (c', Ok (ct, n)) →
  symmetric_keys ci !! target = Some e → symmetric_keys c !! initiator = Some e' →
  sending e = receiving e' →
  ∃ c', validate_round2 initiator n ct c = (c', Ok package) ∧ initiator ∈ round2_checks c'.
Proof.
  intros Hc He He' Hk. apply commit_round2_Ok in Hc as (e0 & pt & He0 & -> & Hpt & Hct).
  simplify_eq. apply aead_roundtrip in Hct. apply r2_roundtrip in Hpt.
  unfold validate_round2, bindM, get, lift, modify. rewrite He'. cbn [ok_or]. rewrite <-Hk, Hct. cbn [ok_or].
  rewrite Hpt. cbn [ok_or]. eexists. split; [done|]. cbn. set_solver.
Qed.

End theory.

(** ** An honest exchange

    Every member runs [handshake_new], commits to its own package and
    validates the packages of the others, in the order in which they come. *)

Section honest.
Context `{!DkgLib, !Profile}.
Variables (context : bytes) (nonce : Z) (members : gmap FrostId PubKey).
Variables (sec : FrostId → SecretKey) (draw : FrostId → Z) (pkg : FrostId → Round1Package).

Definition session_transcript : Transcript :=
  append_u64 "nonce" nonce (append_message "context" context (transcript_new "Botanix_Macbeth_DKG_Setup_v1")).

Definition eph (i : FrostId) : SecretKey := random_secret (draw i).

(** What the member [i] sends: its ephemeral key and its signature. *)
Definition honest_round1 (i : FrostId) : outcome EncryptionError (PubKey * EcdsaSig) :=
  let? h := handshake_new context nonce i (sec i) members (draw i) in
  (commit_round1 (pkg i) h).2.

Definition honest_exchange (i : FrostId) (others : list FrostId)
    : outcome EncryptionError DkgHandshakeManager :=
  let? h := handshake_new context nonce i (sec i) members (draw i) in
  let '(h, r) := commit_round1 (pkg i) h in
  r ;?
  let '(h, r) := forM others (λ j h,
    match honest_round1 j with
    | Ok (eph_pub, signature) => validate_round1 j eph_pub signature (pkg j) h
    | _ => (h, Ok tt)
    end) h in
  r ;? Ok h.

(** The commitment of a member. *)
Definition honest_commit (i : FrostId) : option bytes :=
  ok (round1_commit session_transcript i (pub_of (eph i)) (pkg i)).

(** The layer of the member [i] once it has seen the members of [l]. *)
Definition exchanged (i : FrostId) (l : list FrostId) (h : DkgHandshakeManager) : Prop :=
  h_transcript h = session_transcript ∧ h_my_frost_id h = i ∧ h_my_static_sec h = sec i ∧
  my_eph_sec h = eph i ∧ h_fed_members h = members ∧
  (∀ j, eph_keys h !! j = if decide (j ∈ l) then Some (pub_of (eph j)) else None) ∧
  (∀ j, round1_commits h !! j = if decide (j ∈ l) then honest_commit j else None).

Hypothesis Hstatic : ∀ k pk, members !! k = Some pk → pk = pub_of (sec k).
Hypothesis Hserialize : ∀ k, is_Some (members !! k) → is_Some (r1_serialize (pkg k)).

Lemma honest_commit_Some i : is_Some (members !! i) →
  ∃ c, round1_commit session_transcript i (pub_of (eph i)) (pkg i) = Ok c ∧ honest_commit i = Some c.
Proof.
  intros Hi. destruct (Hserialize i Hi) as [b Hb]. unfold honest_commit, round1_commit.
  rewrite Hb. cbn. eauto.
Qed.

Lemma honest_start i : is_Some (members !! i) →
  ∃ h c, handshake_new context nonce i (sec i) members (draw i) = Ok h ∧ honest_commit i = Some c ∧
    let '(h', r) := commit_round1 (pkg i) h in
    r = Ok (pub_of (eph i), ecdsa_sign c (sec i)) ∧ exchanged i [i] h'.
Proof.
  intros Hi. destruct (honest_commit_Some i Hi) as (c & Hc & Hc'). unfold handshake_new.
  destruct (members !! i) as [pk|] eqn:Hpk; [|by destruct Hi].
  eexists _, c. split; [done|]. split; [done|].
  unfold commit_round1, bindM, get, lift, modify, ret. cbn.
  change (append_u64 _ _ _) with session_transcript. fold (eph i). rewrite Hc. cbn.
  split; [done|]. do 5 (split; [done|]). split; intros j; cbn;
    destruct (decide (j ∈ [i])) as [->%list_elem_of_singleton|Hj]; simplify_map_eq; try done.
  - rewrite lookup_singleton_ne; [done|]. set_solver.
  - rewrite lookup_insert_ne; [done|]. set_solver.
Qed.

Lemma honest_round1_Ok i : is_Some (members !! i) →
  ∃ c, honest_commit i = Some c ∧ honest_round1 i = Ok (pub_of (eph i), ecdsa_sign c (sec i)).
Proof.
  intros Hi. destruct (honest_start i Hi) as (h & c & Hnew & Hc & Hstart). unfold honest_round1.
  rewrite Hnew. cbn [obind]. destruct (commit_round1 (pkg i) h) as [h' r]. destruct Hstart as [-> _]. eauto.
Qed.

Lemma honest_validate `{!DkgLaws} i l j h eph_pub signature :
  is_Some (members !! j) → exchanged i l h → honest_round1 j = Ok (eph_pub, signature) →
  ∃ h', validate_round1 j eph_pub signature (pkg j) h = (h', Ok tt) ∧ exchanged i (j :: l) h'.
Proof.
  intros Hj (Ht & Hi & Hs & He & Hm & Hk & Hc) Hr.
  destruct (honest_round1_Ok j Hj) as (c & Hcj & Hr'). rewrite Hr in Hr'. injection Hr' as -> ->.
  destruct (honest_commit_Some j Hj) as (c' & Hround & Hc'). rewrite Hcj in Hc'. simplify_eq.
  destruct Hj as [pk Hpk]. specialize (Hstatic _ _ Hpk) as ->.
  unfold validate_round1, bindM, get, lift, modify, ret. rewrite Hm, Hpk. cbn [ok_or].
  rewrite Ht, Hround, ecdsa_correct. cbn [negb]. eexists. split; [done|].
  do 5 (split; [done|]). split; intros k; cbn;
    (destruct (decide (k = j)) as [->|Hkj];
      [rewrite lookup_insert_eq, decide_True by set_solver; done
      |rewrite lookup_insert_ne by done]).
  - rewrite Hk. by repeat case_decide; set_solver.
  - rewrite Hc. by repeat case_decide; set_solver.
Qed.

Lemma honest_exchange_spec `{!DkgLaws} i others :
  is_Some (members !! i) → (∀ j, j ∈ others → is_Some (members !! j)) →
  ∃ h, honest_exchange i others = Ok h ∧ exchanged i (reverse others ++ [i]) h.
Proof.
  intros Hi Hothers. unfold honest_exchange.
  destruct (honest_start i Hi) as (h0 & c & -> & _ & Hstart). cbn [obind].
  destruct (commit_round1 (pkg i) h0) as [h1 r]. destruct Hstart as [-> Hex]. cbn [obind].
  revert h1 Hex. generalize [i] as l. induction others as [|j others IH]; intros l h1 Hex; cbn [forM].
  - exists h1. by cbn.
  - destruct (honest_round1_Ok j) as (cj & _ & Hr); [apply Hothers; set_solver|]. rewrite Hr.
    destruct (honest_validate i l j h1 _ _ (Hothers j ltac:(set_solver)) Hex Hr) as (h2 & Hv & Hex2).
    unfold bindM at 1. rewrite Hv. rewrite reverse_cons, <-app_assoc. cbn [app].
    apply IH; [intros k Hk; apply Hothers; set_solver|done].
Qed.

Lemma exchanged_full i l h :
  l ≡ₚ (btree_iter members).*1 → exchanged i l h →
  (∀ j, eph_keys h !! j = (λ _, pub_of (eph j)) <$> members !! j) ∧
  (∀ j, round1_commits h !! j = members !! j ≫= λ _, honest_commit j) ∧
  ∃ h' c, handshake_finalize h = (h', Ok c).
Proof.
  intros Hl (Ht & Hi & Hs & He & Hm & Hk & Hc).
  assert (∀ j, j ∈ l ↔ is_Some (members !! j)) as Hin.
  { intros j. rewrite Hl, list_elem_of_fmap. split.
    - intros ([k pk] & -> & Hk'). apply elem_of_btree_iter in Hk'. by exists pk.
    - intros [pk Hpk]. exists (j, pk). by rewrite elem_of_btree_iter. }
  assert (∀ j, eph_keys h !! j = (λ _, pub_of (eph j)) <$> members !! j) as Hk'.
  { intros j. rewrite Hk. specialize (Hin j). destruct (members !! j) as [pk|]; case_decide as Hd; try done.
    - exfalso. apply Hd, Hin. eauto.
    - apply Hin in Hd as [? [=]]. }
  assert (∀ j, round1_commits h !! j = members !! j ≫= λ _, honest_commit j) as Hc'.
  { intros j. rewrite Hc. specialize (Hin j). destruct (members !! j) as [pk|]; case_decide as Hd; try done.
    - exfalso. apply Hd, Hin. eauto.
    - apply Hin in Hd as [? [=]]. }
  split; [done|]. split; [done|]. apply handshake_finalize_completes; rewrite ?Hm, <-?size_dom.
  - f_equal. apply set_eq. intros j. rewrite !elem_of_dom, Hc'. split.
    + intros [c Hj]. destruct (members !! j); [by eauto|done].
    + intros Hj. destruct (honest_commit_Some j Hj) as (c & _ & ->). destruct Hj as [pk ->]. by exists c.
  - f_equal. apply set_eq. intros j. rewrite !elem_of_dom, Hk'. by rewrite fmap_is_Some.
  - intros j. rewrite Hk'. by rewrite fmap_is_Some.
Qed.

(** Two layers that have seen every member share a channel. *)
Lemma exchanged_connect `{!DkgLaws} i j li lj hi hj hi' ci hj' cj :
  i ≠ j → is_Some (members !! i) → is_Some (members !! j) →
  li ≡ₚ (btree_iter members).*1 → lj ≡ₚ (btree_iter members).*1 →
  exchanged i li hi → exchanged j lj hj →
  handshake_finalize hi = (hi', Ok ci) → handshake_finalize hj = (hj', Ok cj) →
  ∃ ei ej, symmetric_keys ci !! j = Some ei ∧ symmetric_keys cj !! i = Some ej ∧
    sending ei = receiving ej ∧ receiving ei = sending ej ∧ c_transcript ci = c_transcript cj.
Proof.
  intros Hne [pki Hi] [pkj Hj] Hli Hlj Hexi Hexj Hfi Hfj.
  destruct (exchanged_full _ _ _ Hli Hexi) as (Hki & Hci & _).
  destruct (exchanged_full _ _ _ Hlj Hexj) as (Hkj & Hcj & _).
  destruct Hexi as (Hti & Hidi & Hsi & Hei & Hmi & _). destruct Hexj as (Htj & Hidj & Hsj & Hej & Hmj & _).
  assert (round1_commits hi = round1_commits hj) as Hcommits.
  { apply map_eq. intros k. by rewrite Hci, Hcj. }
  apply handshake_finalize_Ok in Hfi as (_ & Hct & _ & _ & _ & _ & _ & Hsymi).
  apply handshake_finalize_Ok in Hfj as (_ & Hct' & _ & _ & _ & _ & _ & Hsymj).
  rewrite Hti in Hct, Hsymi. rewrite Htj, <-Hcommits in Hct', Hsymj.
  specialize (Hsymi j). specialize (Hsymj i).
  rewrite bool_decide_false in Hsymi by congruence. rewrite bool_decide_false in Hsymj by congruence.
  rewrite Hmi, Hki, Hj in Hsymi. rewrite Hmj, Hkj, Hi in Hsymj. cbn in Hsymi, Hsymj.
  rewrite (Hstatic _ _ Hj) in Hsymi. rewrite (Hstatic _ _ Hi) in Hsymj.
  eexists _, _. split; [exact Hsymi|]. split; [exact Hsymj|].
  pose proof (symmetric_key_agrees hi hj (append_commits (round1_commits hi) session_transcript)) as Hag.
  rewrite Hidi, Hidj, Hsi, Hsj, Hei, Hej in Hag. destruct (Hag Hne) as [? ?].
  split; [done|]. split; [done|]. congruence.
Qed.

(** Members that run the first round honestly, in whatever order the
    packages of the others come, all finish it, and then any two of them
    share a channel: whatever both have already sealed and opened on their
    channels, a package that one encrypts for the other is decrypted there to
    the package that was sent, and it is recorded as received. *)
Theorem honest_members_share_channels `{!DkgLaws} i j oi oj :
  i ≠ j → i :: oi ≡ₚ (btree_iter members).*1 → j :: oj ≡ₚ (btree_iter members).*1 →
  ∃ hi hj hi' ci hj' cj,
    honest_exchange i oi = Ok hi ∧ honest_exchange j oj = Ok hj ∧
    handshake_finalize hi = (hi', Ok ci) ∧ handshake_finalize hj = (hj', Ok cj) ∧
    ∀ opsi opsj package c ct n,
      commit_round2 j package (channel_run opsi ci).1 = (c, Ok (ct, n)) →
      ∃ c', validate_round2 i n ct (channel_run opsj cj).1 = (c', Ok package) ∧ i ∈ round2_checks c'.
Proof.
  intros Hne Hoi Hoj.
  assert (∀ k, k ∈ (btree_iter members).*1 → is_Some (members !! k)) as Hin.
  { intros k ([k' pk] & -> & Hk)%list_elem_of_fmap. apply elem_of_btree_iter in Hk. by exists pk. }
  assert (is_Some (members !! i)) as Hi by (apply Hin; rewrite <-Hoi; set_solver).
  assert (is_Some (members !! j)) as Hj by (apply Hin; rewrite <-Hoj; set_solver).
  destruct (honest_exchange_spec i oi Hi) as (hi & -> & Hexi);
    [intros k Hk; apply Hin; rewrite <-Hoi; set_solver|].
  destruct (honest_exchange_spec j oj Hj) as (hj & -> & Hexj);
    [intros k Hk; apply Hin; rewrite <-Hoj; set_solver|].
  assert (reverse oi ++ [i] ≡ₚ (btree_iter members).*1) as Hpi.
  { by rewrite <-Permutation_cons_append, reverse_Permutation. }
  assert (reverse oj ++ [j] ≡ₚ (btree_iter members).*1) as Hpj.
  { by rewrite <-Permutation_cons_append, reverse_Permutation. }
  destruct (exchanged_full _ _ _ Hpi Hexi) as (_ & _ & hi' & ci & Hfi).
  destruct (exchanged_full _ _ _ Hpj Hexj) as (_ & _ & hj' & cj & Hfj).
  destruct (exchanged_connect _ _ _ _ _ _ _ _ _ _ Hne Hi Hj Hpi Hpj Hexi Hexj Hfi Hfj)
    as (ei & ej & Hei & Hej & Hk1 & Hk2 & _).
  exists hi, hj, hi', ci, hj', cj. do 4 (split; [done|]). intros opsi opsj package c ct n Hseal.
  destruct (channel_run_same_keys opsi ci) as (_ & _ & _ & _ & Hsame). specialize (Hsame j).
  destruct (channel_run_same_keys opsj cj) as (_ & _ & _ & _ & Hsame'). specialize (Hsame' i).
  rewrite Hei in Hsame. rewrite Hej in Hsame'. cbn in Hsame, Hsame'.
  apply fmap_Some in Hsame as (e & He & Hpair). apply fmap_Some in Hsame' as (e' & He' & Hpair').
  eapply channel_opens; [exact Hseal|exact He|exact He'|]. congruence.
Qed.

End honest.

(** No nonce is used twice with one key: on a channel that has just been
    opened, fewer than 2^64 operations never encrypt two packages for the
    same member under the same nonce. *)
Theorem nonces_never_repeat `{!DkgLib, !Profile} h h' c ops :
  handshake_finalize h = (h', Ok c) → Z.of_nat (length ops) < 2 ^ 64 → NoDup (channel_run ops c).2.
Proof.
  intros Hf Hops. apply handshake_finalize_Ok in Hf as (_ & _ & _ & _ & _ & _ & _ & Hk).
  destruct (channel_run ops c) as [c' l] eqn:Hrun. apply (channel_run_nonces _ _ _ _ Hrun).
  intros j e He. rewrite Hk in He. case_bool_decide; [done|].
  destruct (h_fed_members h !! j) as [pk|]; [|done]. cbn in He.
  destruct (eph_keys h !! j) as [ep|]; [|done]. cbn in He. injection He as <-.
  unfold symmetric_key. repeat case_match; cbn; lia.
Qed.

(** ** A concrete instance

    Transcripts are lists of bytes, hashes are sums, keys are integers with
    multiplication for Diffie-Hellman, a signature is the key with the
    message, and a key of [n] members is the sum of their contributions. *)

Module Toy.

Definition weigh (b : bytes) : Z := foldl (λ a x, (a * 31 + x + 1) mod 65537) 7 b.

Definition label (s : string) : Z := Z.of_nat (String.length s).

#[export] Instance toy_dkg : DkgLib := {|
  SecretKey := Z;
  PubKey := Z;
  EcdsaSig := Z * bytes;
  random_secret n := n + 100;
  pub_of s := 5 * s;
  pub_serialize p := [p];
  ecdsa_sign m s := (5 * s, m);
  ecdsa_verify p m sig := (sig.1 =? p) && bool_decide (sig.2 = m);
  serialize_compact sig := sig.1 :: sig.2;
  shared_secret p s := [p * s];
  aead_encrypt k n t := Some (k ++ n ++ t);
  aead_decrypt k n c :=
    if bool_decide (take (length k) c = k ∧ take (length n) (drop (length k) c) = n)
    then Some (drop (length n) (drop (length k) c)) else None;
  Transcript := bytes;
  transcript_new s := [label s];
  append_message s b t := t ++ label s :: b;
  append_u64 s n t := t ++ [label s; n];
  challenge_bytes s t := (t ++ [label s], [weigh t; label s]);
  id_serialize i := [i];
  Round1Secret := FrostId * Z;
  Round1Package := Z;
  Round2Secret := FrostId * Z;
  Round2Package := Z;
  KeyPackage := FrostId * Z;
  DkgPublicKeyPackage := Z;
  r1_serialize p := Some [p];
  r2_serialize p := Some [p];
  r2_deserialize b := match b with [p] => Some p | _ => None end;
  pkp_serialize p := Some [p];
  dkg_part1 i _ _ n := Some ((i, n), n);
  dkg_part2 s r1 := Some (s, (λ _, s.2) <$> r1);
  dkg_part3 s r1 r2 :=
    if bool_decide (dom r1 = dom r2) then
      let k := s.2 + foldr (λ e, Z.add e.2) 0 (map_to_list r2) in Some ((s.1, k), k)
    else None |}.

#[export] Instance toy_laws : DkgLaws.
Proof.
  split; cbn.
  - intros sk m. by rewrite Z.eqb_refl, bool_decide_true.
  - intros a b. f_equal. lia.
  - intros k n t ct [= <-]. rewrite !drop_app_length. rewrite bool_decide_true; [done|].
    by rewrite !take_app_length.
  - by intros p b [= <-].
  - intros s r1 r2 k. by case_bool_decide.
Qed.

(** The static secret of the member [i], and the federation of [l]. *)
Definition sec (i : FrostId) : SecretKey := i + 10.
Definition federation (l : list FrostId) : gmap FrostId PubKey := list_to_map ((λ i, (i, 5 * sec i)) <$> l).

Definition three : gmap FrostId PubKey := federation [1; 2; 3].

#[export] Instance debug : Profile := true.

End Toy.

#[local] Existing Instances Toy.toy_dkg Toy.toy_laws Toy.debug.

Lemma honest_members_share_channels_witness :
  [1; 3; 2] ≡ₚ (btree_iter Toy.three).*1 ∧
  ∃ hi hj hi' ci hj' cj,
    honest_exchange [7] 4 Toy.three Toy.sec id id 1 [3; 2] = Ok hi ∧
    honest_exchange [7] 4 Toy.three Toy.sec id id 2 [1; 3] = Ok hj ∧
    handshake_finalize hi = (hi', Ok ci) ∧ handshake_finalize hj = (hj', Ok cj) ∧
    ∀ opsi opsj package c ct n,
      commit_round2 2 package (channel_run opsi ci).1 = (c, Ok (ct, n)) →
      ∃ c', validate_round2 1 n ct (channel_run opsj cj).1 = (c', Ok package) ∧ 1 ∈ round2_checks c'.
Proof.
  assert ((btree_iter Toy.three).*1 = [1; 2; 3]) as Hk by (vm_compute; reflexivity).
  assert ([1; 3; 2] ≡ₚ (btree_iter Toy.three).*1) as Hp by (rewrite Hk; apply perm_skip, perm_swap).
  split; [exact Hp|].
  apply (honest_members_share_channels [7] 4 Toy.three Toy.sec id id).
  - intros k pk Hpk. apply elem_of_list_to_map_2 in Hpk.
    apply list_elem_of_fmap in Hpk as (i & [= -> ->] & _). reflexivity.
  - intros k _. eexists. reflexivity.
  - exact Toy.toy_laws.
  - lia.
  - exact Hp.
  - rewrite Hk. apply perm_swap.
Defined.

(** The member 1 after the first round. *)
Definition toy_handshake : DkgHandshakeManager :=
  match honest_exchange [7] 4 Toy.three Toy.sec id id 1 [3; 2] with
  | Ok h => h
  | _ => mkHandshake [] 0 0 0 0 ∅ ∅ ∅
  end.

Definition toy_ops : list ChannelOp := [Seal 2 41; Seal 3 42; Open 2 0 [1]; Seal 2 43].

Definition toy_channel : SecureChannelManager :=
  match handshake_finalize toy_handshake with
  | (_, Ok c) => c
  | _ => mkChannel [] 0 0 ∅ ∅ ∅
  end.

(** Two packages for member 2, with the nonces 0 and 1. *)
Lemma nonces_never_repeat_witness :
  handshake_finalize toy_handshake = ((handshake_finalize toy_handshake).1, Ok toy_channel) ∧
  (channel_run toy_ops toy_channel).2 = [(2, 0); (3, 0); (2, 1)] ∧
  NoDup (channel_run toy_ops toy_channel).2.
Proof.
  assert (handshake_finalize toy_handshake = ((handshake_finalize toy_handshake).1, Ok toy_channel)) as Hf
    by (vm_cast_no_check (eq_refl (handshake_finalize toy_handshake))).
  split; [exact Hf|].
  split; [vm_cast_no_check (eq_refl [(2, 0); (3, 0); (2, 1)])|].
  apply (nonces_never_repeat _ _ _ _ Hf). reflexivity.
Defined.
