(* ===== verification/Dkg.v ===== *)
(** * The distributed key generation

    src/bin/botanix-btc-server/src/dkg/mod.rs: the state machine with which a
    member of the federation takes part in the generation of a key.  The
    coordinator starts a session and forwards the packages of three rounds;
    every package is repeated until it is acknowledged.

    A [BTreeMap] is a [gmap] that is iterated in ascending order of its keys.
    Times are nanoseconds; sums of times do not overflow.  [rng] counts the
    draws of the random generator.  Debug assertions are on exactly when the
    [Profile] has overflow checks. *)

From S2P Require Import Prelude Bytes Bitcoin Codec DkgAuth.
From stdpp Require Import strings.

Open Scope Z_scope.

Definition SESSION_CONTEXT : bytes :=
  [115; 116; 97; 116; 105; 99; 45; 100; 107; 103; 45; 115; 101; 115; 115; 105; 111; 110; 45;
   99; 111; 110; 116; 101; 120; 116].

Definition MILLISECOND : Z := 1000000.

(** Iterating a [BTreeMap] keyed by pairs. *)
Definition pair_le (a b : FrostId * FrostId) : bool :=
  (a.1 <? b.1) || ((a.1 =? b.1) && (a.2 <=? b.2)).

Definition btree_iter2 {A} (m : gmap (FrostId * FrostId) A) : list ((FrostId * FrostId) * A) :=
  sort_by (λ a b, pair_le a.1 b.1) (map_to_list m).

(** The keys of a [BTreeMap], ascending. *)
Definition keys {A} (m : gmap FrostId A) : list FrostId := (btree_iter m).*1.

(** What a member sends: the initiator and the recipient of a package, and
    the package once it is available. *)
Abbreviation OutMap E := (gmap (FrostId * FrostId) (option E)).

Section dkg.
Context `{!DkgLib, !Profile}.

(** ** Messages *)

Inductive DkgMessage :=
| Round1 (initiator : FrostId) (context : bytes) (nonce : Z) (ephemeral_pub : PubKey) (signature : EcdsaSig)
    (package : Round1Package)
| AckRound1 (initiator : FrostId)
| Round2 (initiator target : FrostId) (nonce : Z) (package : bytes)
| AckRound2 (initiator target : FrostId)
| Round3 (initiator : FrostId) (signature : EcdsaSig)
| AckRound3 (initiator : FrostId).

Record DkgPayload := mkPayload { p_sender : FrostId; recipient : FrostId; msg : DkgMessage }.

(** ** State *)

Record Config := mkConfig {
  max_signers : Z;
  min_signers : Z;
  round1_package_timeout : Z;
  round2_package_timeout : Z;
  round3_package_timeout : Z;
  pending_session_timeout : option Z }.

Inductive Stage := AwaitingInit | RoundOne | RoundTwo | RoundThree | Aborted | Finalized.

#[export] Instance Stage_eq_dec : EqDecision Stage.
Proof. solve_decision. Defined.

Record OutEntryRoundOne := mkOut1 {
  o1_package : Round1Package; o1_ephemeral_pub : PubKey; o1_signature : EcdsaSig;
  o1_timer : option Z; o1_attempts : Z }.

Record OutEntryRoundTwo := mkOut2 {
  o2_ciphernonce : Z; o2_ciphertext : bytes; o2_timer : option Z; o2_attempts : Z }.

Record OutEntryRoundThree := mkOut3 { o3_signature : EcdsaSig; o3_timer : option Z; o3_attempts : Z }.

Record StateRoundOne := mkS1 {
  s1_context : bytes;
  s1_nonce : Z;
  s1_auth : DkgHandshakeManager;
  s1_secret_package : Round1Secret;
  s1_in_round1 : gmap FrostId Round1Package;
  s1_out_round1 : OutMap OutEntryRoundOne }.

Record StateRoundTwo := mkS2 {
  s2_pending : bool;
  s2_auth : SecureChannelManager;
  s2_secret_package : Round2Secret;
  s2_in_round1 : gmap FrostId Round1Package;
  s2_in_round2 : gmap FrostId Round2Package;
  s2_out_round2 : OutMap OutEntryRoundTwo }.

Record StateRoundThree := mkS3 {
  s3_pending : bool;
  s3_auth : KeyVerificationManager;
  s3_secret_package : KeyPackage;
  s3_public_key_package : DkgPublicKeyPackage;
  s3_in_round1 : gmap FrostId Round1Package;
  s3_in_round2 : gmap FrostId Round2Package;
  s3_in_round3 : gmap FrostId EcdsaSig;
  s3_out_round3 : OutMap OutEntryRoundThree }.

Inductive StageState :=
| StAwaitingInit
| StRoundOne (s : StateRoundOne)
| StRoundTwo (s : StateRoundTwo)
| StRoundThree (s : StateRoundThree)
| StAborted
| StFinalized (secret_package : KeyPackage) (public_key_package : DkgPublicKeyPackage).

Definition did_round_one_finalize (s : StageState) : bool :=
  match s with StRoundTwo _ | StRoundThree _ | StFinalized _ _ => true | _ => false end.
Definition did_round_two_finalize (s : StageState) : bool :=
  match s with StRoundThree _ | StFinalized _ _ => true | _ => false end.
Definition did_round_three_finalize (s : StageState) : bool :=
  match s with StFinalized _ _ => true | _ => false end.

Inductive DkgError := BadConfig (msg : string) | DkgFrost | DkgEncryption (e : EncryptionError).

Record DkgStateMachine := mkDkg {
  config : Config;
  my_frost_id : FrostId;
  my_static_sec : SecretKey;
  multisig_id : MultisigId;
  coordinator : FrostId;
  members : gmap FrostId PubKey;
  queue : list DkgPayload;
  state : StageState;
  session_nonce : option Z;
  session_activated : option Z;
  rng : Z }.

Definition is_coordinator (d : DkgStateMachine) : bool := my_frost_id d =? coordinator d.

Definition stage (d : DkgStateMachine) : Stage :=
  match state d with
  | StAwaitingInit => AwaitingInit
  | StRoundOne _ => RoundOne
  | StRoundTwo _ => RoundTwo
  | StRoundThree _ => RoundThree
  | StFinalized _ _ => Finalized
  | StAborted => Aborted
  end.

Definition aggregate_key_packages (d : DkgStateMachine) : option (KeyPackage * DkgPublicKeyPackage) :=
  match state d with StFinalized s p => Some (s, p) | _ => None end.

Definition set_queue (q : list DkgPayload) (d : DkgStateMachine) : DkgStateMachine :=
  mkDkg (config d) (my_frost_id d) (my_static_sec d) (multisig_id d) (coordinator d) (members d) q (state d)
    (session_nonce d) (session_activated d) (rng d).
Definition set_state (s : StageState) (d : DkgStateMachine) : DkgStateMachine :=
  mkDkg (config d) (my_frost_id d) (my_static_sec d) (multisig_id d) (coordinator d) (members d) (queue d) s
    (session_nonce d) (session_activated d) (rng d).
Definition set_session (n a : option Z) (d : DkgStateMachine) : DkgStateMachine :=
  mkDkg (config d) (my_frost_id d) (my_static_sec d) (multisig_id d) (coordinator d) (members d) (queue d)
    (state d) n a (rng d).
Definition set_rng (n : Z) (d : DkgStateMachine) : DkgStateMachine :=
  mkDkg (config d) (my_frost_id d) (my_static_sec d) (multisig_id d) (coordinator d) (members d) (queue d)
    (state d) (session_nonce d) (session_activated d) n.

Abbreviation D A := (M DkgStateMachine DkgError A).

(** [self.queue.i.push_back(DkgPayload { sender: self.my_frost_id, recipient, msg })] *)
Definition push_payload (to : FrostId) (m : DkgMessage) (d : DkgStateMachine) : DkgStateMachine :=
  set_queue (queue d ++ [mkPayload (my_frost_id d) to m]) d.

Definition send_to (to : FrostId) (m : DkgMessage) : D unit := modify (push_payload to m).
Definition send_round1_ack (initiator to : FrostId) : D unit := send_to to (AckRound1 initiator).
Definition send_round2_ack (initiator to target : FrostId) : D unit := send_to to (AckRound2 initiator target).
Definition send_round3_ack (initiator to : FrostId) : D unit := send_to to (AckRound3 initiator).

(** A draw of the random generator. *)
Definition draw : D Z := let! d := get in modify (set_rng (rng d + 1)) ;! ret (rng d).

Definition put (s : StageState) : D unit := modify (set_state s).

(** A call on the authentication layer, with its state put back. *)
Definition on_auth {S A} (a : S) (upd : S → StageState) (m : M S EncryptionError A) : D A := λ d,
  let '(a, r) := m a in (set_state (upd a) d, map_err DkgEncryption r).

(** The same on a layer that is not stored yet. *)
Definition with_auth {S A} (a : S) (m : M S EncryptionError A) : D (S * A) := λ d,
  let '(a, r) := m a in (d, match r with Ok x => Ok (a, x) | Err e => Err (DkgEncryption e) | Panic => Panic end).

(** ** Starting a session *)

(** The pairs of the coordinator's nested loops over the members. *)
Definition coordinator_pairs (d : DkgStateMachine) : list (FrostId * FrostId) :=
  filter (λ '(initiator, to), to ≠ my_frost_id d ∧ initiator ≠ to)
    (i ← keys (members d); r ← keys (members d); [(i, r)]).

(** Own packages are set, those to be forwarded are awaited. *)
Definition coordinator_out {E} (d : DkgStateMachine) (entry : E) : OutMap E :=
  foldl (λ m p, <[p := if bool_decide (p.1 = my_frost_id d) then Some entry else None]> m) ∅
    (coordinator_pairs d).

Definition send_own (m : DkgMessage) : D unit :=
  let! d := get in
  forM (filter (λ p, p.1 = my_frost_id d) (coordinator_pairs d)) (λ p, send_to p.2 m).

Definition init_new_session (nonce : Z) : D unit :=
  let! d := get in
  debug_assert (is_coordinator d) ;!
  modify (set_session (Some nonce) None) ;!
  modify (set_queue []) ;!
  let! n := draw in
  let! '(secret_package, our_round1_package) := lift (ok_or
    (dkg_part1 (my_frost_id d) (max_signers (config d)) (min_signers (config d)) n) DkgFrost) in
  let! n := draw in
  let! auth := lift (map_err DkgEncryption
    (handshake_new SESSION_CONTEXT nonce (my_frost_id d) (my_static_sec d) (members d) n)) in
  let! '(auth, (our_eph_pub, our_sig)) := with_auth auth (commit_round1 our_round1_package) in
  send_own (Round1 (my_frost_id d) SESSION_CONTEXT nonce our_eph_pub our_sig our_round1_package) ;!
  put (StRoundOne (mkS1 SESSION_CONTEXT nonce auth secret_package ∅
         (coordinator_out d (mkOut1 our_round1_package our_eph_pub our_sig None 0)))).

Definition dkg_new (my_frost_id : FrostId) (my_static_sec : SecretKey) (multisig_id : MultisigId)
    (coordinator : FrostId) (members : gmap FrostId PubKey) (config : Config) (session_nonce : option Z)
    (rng : Z) : outcome DkgError DkgStateMachine :=
  if bool_decide (members !! my_frost_id = None) then Err (BadConfig "my_frost_id not in members") else
  if bool_decide (members !! coordinator = None) then Err (BadConfig "coordinator not in members") else
  if max_signers config <? min_signers config
  then Err (BadConfig "min_signers cannot be greater than max_signers") else
  if negb (Z.of_nat (size members) mod 2 ^ 16 =? max_signers config)
  then Err (BadConfig "max_signers does not match member size") else
  if (my_frost_id =? coordinator) && bool_decide (session_nonce = None)
  then Err (BadConfig "coordinator must provide a session nonce") else
  let this := mkDkg config my_frost_id my_static_sec multisig_id coordinator members [] StAwaitingInit
                None None rng in
  if is_coordinator this then
    let? nonce := expect session_nonce in
    let '(this, r) := init_new_session nonce this in
    r ;?
    (if overflow_checks && negb (bool_decide (stage this = RoundOne)) then Panic else Ok tt) ;?
    Ok this
  else Ok this.

(** ** Timers *)

Definition elapsed (now : Z) (timer : option Z) : bool :=
  match timer with Some t => t <=? now + MILLISECOND | None => false end.

Definition resend {E} (now : Z) (timer : E → option Z) (payload : FrostId * FrostId → E → FrostId * DkgMessage)
    (out : OutMap E) : D unit :=
  forM (btree_iter2 out) (λ '(p, entry),
    match entry with
    | Some e => if elapsed now (timer e) then let '(to, m) := payload p e in send_to to m else ret tt
    | None => ret tt
    end).

(** [expect] on the result of a call *)
Definition expectM {A} (m : D A) : D A := λ d,
  match m d with (d, Err _) => (d, Panic) | r => r end.

Definition session_expired (now : Z) (d : DkgStateMachine) : bool :=
  is_coordinator d && negb (bool_decide (stage d = Finalized)) &&
  match pending_session_timeout (config d), session_activated d with
  | Some max, Some activated => activated + max <=? now
  | _, _ => false
  end.

Definition on_timeout (now : Z) : D unit :=
  let! d := get in
  (if session_expired now d then
     let! nonce := lift (expect (session_nonce d)) in
     expectM (init_new_session ((nonce + 1) mod 2 ^ 64))
   else ret tt) ;!
  let! d := get in
  match state d with
  | StRoundOne s =>
      resend now o1_timer (λ '(i, r) e,
        (r, Round1 i (s1_context s) (s1_nonce s) (o1_ephemeral_pub e) (o1_signature e) (o1_package e)))
        (s1_out_round1 s)
  | StRoundTwo s =>
      resend now o2_timer (λ '(i, t) e,
        (if is_coordinator d then t else coordinator d, Round2 i t (o2_ciphernonce e) (o2_ciphertext e)))
        (s2_out_round2 s)
  | StRoundThree s =>
      resend now o3_timer (λ '(i, r) e, (r, Round3 i (o3_signature e))) (s3_out_round3 s)
  | _ => ret tt
  end.

Definition min_opt (l : list Z) : option Z :=
  match l with [] => None | x :: l => Some (foldl Z.min x l) end.

Definition timers {E} (now : Z) (timer : E → option Z) (out : OutMap E) : option Z :=
  min_opt (omap (λ e : (FrostId * FrostId) * option E,
    t ← (e.2 ≫= timer); Some (saturating_sub t now)) (btree_iter2 out)).

Definition timeout (now : Z) (d : DkgStateMachine) : option Z :=
  let session_timeout :=
    if is_coordinator d && negb (bool_decide (stage d = Finalized)) then
      match pending_session_timeout (config d), session_activated d with
      | Some max, Some activated => Some (saturating_sub (activated + max) now)
      | _, _ => None
      end
    else None in
  let t := match state d with
           | StRoundOne s => timers now o1_timer (s1_out_round1 s)
           | StRoundTwo s => timers now o2_timer (s2_out_round2 s)
           | StRoundThree s => timers now o3_timer (s3_out_round3 s)
           | _ => None
           end in
  match t, session_timeout with
  | Some t, Some s => Some (Z.min t s)
  | Some t, None => Some t
  | None, s => s
  end.

(** ** Sending *)

Definition set_out1 (m : OutMap OutEntryRoundOne) (s : StateRoundOne) : StateRoundOne :=
  mkS1 (s1_context s) (s1_nonce s) (s1_auth s) (s1_secret_package s) (s1_in_round1 s) m.
Definition set_out2 (m : OutMap OutEntryRoundTwo) (s : StateRoundTwo) : StateRoundTwo :=
  mkS2 (s2_pending s) (s2_auth s) (s2_secret_package s) (s2_in_round1 s) (s2_in_round2 s) m.
Definition set_out3 (m : OutMap OutEntryRoundThree) (s : StateRoundThree) : StateRoundThree :=
  mkS3 (s3_pending s) (s3_auth s) (s3_secret_package s) (s3_public_key_package s) (s3_in_round1 s)
    (s3_in_round2 s) (s3_in_round3 s) m.

(** The timer of a payload is started; [None] when it has expired. *)
Definition start_timer (now : Z) (p : DkgPayload) (d : DkgStateMachine) : option DkgStateMachine :=
  match msg p with
  | Round1 initiator _ _ _ _ _ =>
      match state d with
      | StRoundOne s =>
          match s1_out_round1 s !! (initiator, recipient p) with
          | Some (Some e) =>
              let activated := match session_activated d with None => Some now | a => a end in
              let e := mkOut1 (o1_package e) (o1_ephemeral_pub e) (o1_signature e)
                         (Some (now + round1_package_timeout (config d))) (o1_attempts e + 1) in
              Some (set_state (StRoundOne (set_out1 (<[(initiator, recipient p) := Some e]> (s1_out_round1 s)) s))
                      (set_session (session_nonce d) activated d))
          | _ => None
          end
      | _ => None
      end
  | Round2 initiator target _ _ =>
      match state d with
      | StRoundTwo s =>
          match s2_out_round2 s !! (initiator, target) with
          | Some (Some e) =>
              let e := mkOut2 (o2_ciphernonce e) (o2_ciphertext e)
                         (Some (now + round2_package_timeout (config d))) (o2_attempts e + 1) in
              Some (set_state (StRoundTwo (set_out2 (<[(initiator, target) := Some e]> (s2_out_round2 s)) s)) d)
          | _ => None
          end
      | _ => None
      end
  | Round3 initiator _ =>
      match state d with
      | StRoundThree s =>
          match s3_out_round3 s !! (initiator, recipient p) with
          | Some (Some e) =>
              let e := mkOut3 (o3_signature e) (Some (now + round3_package_timeout (config d)))
                         (o3_attempts e + 1) in
              Some (set_state (StRoundThree (set_out3 (<[(initiator, recipient p) := Some e]> (s3_out_round3 s)) s)) d)
          | _ => None
          end
      | _ => None
      end
  | _ => Some d
  end.

Fixpoint send_loop (now : Z) (q : list DkgPayload) (d : DkgStateMachine) : DkgStateMachine * option DkgPayload :=
  match q with
  | [] => (set_queue [] d, None)
  | p :: q =>
      match start_timer now p d with
      | Some d => (set_queue q d, Some p)
      | None => send_loop now q d
      end
  end.

Definition send (now : Z) : D (option DkgPayload) := λ d,
  let '(d, p) := send_loop now (queue d) d in (d, Ok p).

(** ** Receiving *)

Definition is_member (id : FrostId) (d : DkgStateMachine) : bool := bool_decide (is_Some (members d !! id)).

Definition on_dkg_msg_ack_round1 (initiator sender : FrostId) : D unit :=
  let! d := get in
  if negb (is_member initiator d) then ret tt else
  match state d with
  | StRoundOne s => put (StRoundOne (set_out1 (delete (initiator, sender) (s1_out_round1 s)) s))
  | _ => ret tt
  end.

Definition on_dkg_msg_ack_round2 (initiator target : FrostId) : D unit :=
  let! d := get in
  if negb (is_member initiator d) then ret tt else
  match state d with
  | StRoundTwo s => put (StRoundTwo (set_out2 (delete (initiator, target) (s2_out_round2 s)) s))
  | _ => ret tt
  end.

Definition on_dkg_msg_ack_round3 (initiator sender : FrostId) : D unit :=
  let! d := get in
  if negb (is_member initiator d) then ret tt else
  match state d with
  | StRoundThree s => put (StRoundThree (set_out3 (delete (initiator, sender) (s3_out_round3 s)) s))
  | _ => ret tt
  end.

(** The request of the coordinator to start a session. *)
Definition validate_new_session_init (initiator : FrostId) (their_context : bytes) (their_nonce : Z)
    (their_ephmeral_pub : PubKey) (their_signature : EcdsaSig) (their_package : Round1Package) : D bool :=
  let! d := get in
  if is_coordinator d then ret false else
  if negb (initiator =? coordinator d) then ret false else
  if negb (bool_decide (their_context = SESSION_CONTEXT)) then ret false else
  if match session_nonce d with Some last => their_nonce <=? last | None => false end then ret false else
  if bool_decide (stage d = Finalized) then ret false else
  let! n := draw in
  let! auth := lift (map_err DkgEncryption
    (handshake_new their_context their_nonce (my_frost_id d) (my_static_sec d) (members d) n)) in
  let! '(auth, _) := with_auth auth (validate_round1 initiator their_ephmeral_pub their_signature their_package) in
  modify (set_session (Some their_nonce) None) ;!
  modify (set_queue []) ;!
  send_round1_ack initiator (coordinator d) ;!
  let! n := draw in
  let! '(secret_package, our_round1_package) := lift (ok_or
    (dkg_part1 (my_frost_id d) (max_signers (config d)) (min_signers (config d)) n) DkgFrost) in
  let! '(auth, (our_eph_pub, our_sig)) := with_auth auth (commit_round1 our_round1_package) in
  send_to (coordinator d)
    (Round1 (my_frost_id d) their_context their_nonce our_eph_pub our_sig our_round1_package) ;!
  put (StRoundOne (mkS1 their_context their_nonce auth secret_package {[ initiator := their_package ]}
         {[ (my_frost_id d, coordinator d) := Some (mkOut1 our_round1_package our_eph_pub our_sig None 0) ]})) ;!
  ret true.

(** The loop that forwards a package to the other members. *)
Definition forward {E} (sender initiator : FrostId) (out : StageState → option (OutMap E))
    (upd : OutMap E → StageState → StageState) (entry : E) (m : DkgMessage) : D unit :=
  let! d := get in
  forM (keys (members d)) (λ to,
    if (to =? my_frost_id d) || (to =? sender) then ret tt else
    let! d := get in
    match out (state d) with
    | Some o =>
        match o !! (initiator, to) with
        | Some _ => put (upd (<[(initiator, to) := Some entry]> o) (state d)) ;! send_to to m
        | None => ret tt
        end
    | None => ret tt
    end).

Definition out1 (s : StageState) : option (OutMap OutEntryRoundOne) :=
  match s with StRoundOne s => Some (s1_out_round1 s) | _ => None end.
Definition upd1 (o : OutMap OutEntryRoundOne) (s : StageState) : StageState :=
  match s with StRoundOne s => StRoundOne (set_out1 o s) | s => s end.
Definition out3 (s : StageState) : option (OutMap OutEntryRoundThree) :=
  match s with StRoundThree s => Some (s3_out_round3 s) | _ => None end.
Definition upd3 (o : OutMap OutEntryRoundThree) (s : StageState) : StageState :=
  match s with StRoundThree s => StRoundThree (set_out3 o s) | s => s end.

Definition set_auth1 (a : DkgHandshakeManager) (s : StateRoundOne) : StateRoundOne :=
  mkS1 (s1_context s) (s1_nonce s) a (s1_secret_package s) (s1_in_round1 s) (s1_out_round1 s).
Definition set_in1 (m : gmap FrostId Round1Package) (s : StateRoundOne) : StateRoundOne :=
  mkS1 (s1_context s) (s1_nonce s) (s1_auth s) (s1_secret_package s) m (s1_out_round1 s).
Definition set_auth2 (a : SecureChannelManager) (s : StateRoundTwo) : StateRoundTwo :=
  mkS2 (s2_pending s) a (s2_secret_package s) (s2_in_round1 s) (s2_in_round2 s) (s2_out_round2 s).
Definition set_in2 (m : gmap FrostId Round2Package) (s : StateRoundTwo) : StateRoundTwo :=
  mkS2 (s2_pending s) (s2_auth s) (s2_secret_package s) (s2_in_round1 s) m (s2_out_round2 s).
Definition not_pending2 (s : StateRoundTwo) : StateRoundTwo :=
  mkS2 false (s2_auth s) (s2_secret_package s) (s2_in_round1 s) (s2_in_round2 s) (s2_out_round2 s).
Definition set_auth3 (a : KeyVerificationManager) (s : StateRoundThree) : StateRoundThree :=
  mkS3 (s3_pending s) a (s3_secret_package s) (s3_public_key_package s) (s3_in_round1 s) (s3_in_round2 s)
    (s3_in_round3 s) (s3_out_round3 s).
Definition set_in3 (m : gmap FrostId EcdsaSig) (s : StateRoundThree) : StateRoundThree :=
  mkS3 (s3_pending s) (s3_auth s) (s3_secret_package s) (s3_public_key_package s) (s3_in_round1 s)
    (s3_in_round2 s) m (s3_out_round3 s).
Definition not_pending3 (s : StateRoundThree) : StateRoundThree :=
  mkS3 false (s3_auth s) (s3_secret_package s) (s3_public_key_package s) (s3_in_round1 s) (s3_in_round2 s)
    (s3_in_round3 s) (s3_out_round3 s).

Definition on_dkg_msg_round1 (initiator : FrostId) (their_context : bytes) (their_nonce : Z)
    (their_ephmeral_pub : PubKey) (their_signature : EcdsaSig) (their_package : Round1Package)
    (sender : FrostId) : D unit :=
  let! d := get in
  if negb (is_member initiator d) then ret tt else
  if initiator =? my_frost_id d then ret tt else
  if negb (bool_decide (their_context = SESSION_CONTEXT)) then ret tt else
  if match session_nonce d with Some last => their_nonce <? last | None => false end then ret tt else
  let! do_new_session_check :=
    match session_nonce d with
    | Some last => ret (last <? their_nonce)
    | None => debug_assert (negb (is_coordinator d)) ;! ret true
    end in
  let! accepted :=
    (if do_new_session_check
     then validate_new_session_init initiator their_context their_nonce their_ephmeral_pub their_signature
            their_package
     else ret false) in
  if accepted then debug_assert (negb (is_coordinator d)) else
  let! d := get in
  match state d with
  | StRoundOne s =>
      if bool_decide (is_Some (s1_in_round1 s !! initiator)) then send_round1_ack initiator sender else
      on_auth (s1_auth s) (λ a, StRoundOne (set_auth1 a s))
        (validate_round1 initiator their_ephmeral_pub their_signature their_package) ;!
      let! d := get in
      match state d with
      | StRoundOne s =>
          put (StRoundOne (set_in1 (<[initiator := their_package]> (s1_in_round1 s)) s)) ;!
          send_round1_ack initiator sender ;!
          whenM (is_coordinator d)
            (forward sender initiator out1 upd1
               (mkOut1 their_package their_ephmeral_pub their_signature None 0)
               (Round1 initiator (s1_context s) (s1_nonce s) their_ephmeral_pub their_signature their_package))
      | _ => ret tt
      end
  | st => whenM (did_round_one_finalize st) (send_round1_ack initiator sender)
  end.

Definition on_dkg_msg_round2 (initiator target : FrostId) (ciphernonce : Z) (ciphertext : bytes)
    (sender : FrostId) : D unit :=
  let! d := get in
  if negb (is_member initiator d) then ret tt else
  if initiator =? my_frost_id d then ret tt else
  match state d with
  | StRoundTwo s =>
      if target =? my_frost_id d then
        if bool_decide (is_Some (s2_in_round2 s !! initiator)) then send_round2_ack initiator sender target else
        let! package := on_auth (s2_auth s) (λ a, StRoundTwo (set_auth2 a s))
                          (validate_round2 initiator ciphernonce ciphertext) in
        let! d := get in
        match state d with
        | StRoundTwo s =>
            put (StRoundTwo (set_in2 (<[initiator := package]> (s2_in_round2 s)) s)) ;!
            send_round2_ack initiator sender target ;!
            whenM (s2_pending s)
              (debug_assert (negb (is_coordinator d)) ;!
               forM (btree_iter2 (s2_out_round2 s)) (λ '((i, t), entry),
                 match entry with
                 | Some e =>
                     debug_assert (i =? my_frost_id d) ;!
                     send_to (coordinator d) (Round2 i t (o2_ciphernonce e) (o2_ciphertext e))
                 | None => ret tt
                 end) ;!
               put (StRoundTwo (not_pending2 (set_in2 (<[initiator := package]> (s2_in_round2 s)) s))))
        | _ => ret tt
        end
      else if negb (is_coordinator d) then ret tt else
        debug_assert (negb (s2_pending s)) ;!
        match s2_out_round2 s !! (initiator, target) with
        | None => ret tt
        | Some _ =>
            put (StRoundTwo (set_out2
                   (<[(initiator, target) := Some (mkOut2 ciphernonce ciphertext None 0)]> (s2_out_round2 s)) s)) ;!
            send_round2_ack initiator sender target ;!
            send_to target (Round2 initiator target ciphernonce ciphertext)
        end
  | st => whenM (did_round_two_finalize st) (send_round2_ack initiator sender target)
  end.

Definition on_dkg_msg_round3 (initiator : FrostId) (sealed_signature : EcdsaSig) (sender : FrostId) : D unit :=
  let! d := get in
  if negb (is_member initiator d) then ret tt else
  if initiator =? my_frost_id d then ret tt else
  match state d with
  | StRoundThree s =>
      if bool_decide (is_Some (s3_in_round3 s !! initiator)) then send_round3_ack initiator sender else
      on_auth (s3_auth s) (λ a, StRoundThree (set_auth3 a s)) (validate_round3 initiator sealed_signature) ;!
      let! d := get in
      match state d with
      | StRoundThree s =>
          let s := set_in3 (<[initiator := sealed_signature]> (s3_in_round3 s)) s in
          put (StRoundThree s) ;!
          send_round3_ack initiator sender ;!
          whenM (s3_pending s)
            (debug_assert (negb (is_coordinator d)) ;!
             debug_assert (size (s3_out_round3 s) =? 1)%nat ;!
             forM (btree_iter2 (s3_out_round3 s)) (λ '((i, r), entry),
               match entry with
               | Some e =>
                   debug_assert (i =? my_frost_id d) ;!
                   debug_assert (r =? coordinator d) ;!
                   send_to r (Round3 i (o3_signature e))
               | None => ret tt
               end) ;!
             put (StRoundThree (not_pending3 s))) ;!
          whenM (is_coordinator d)
            (forward sender initiator out3 upd3 (mkOut3 sealed_signature None 0) (Round3 initiator sealed_signature))
      | _ => ret tt
      end
  | st => whenM (did_round_three_finalize st) (send_round3_ack initiator sender)
  end.

(** ** Transitions *)

(** Every other member has contributed and every package is acknowledged. *)
Definition round_complete {A E} (d : DkgStateMachine) (ins : gmap FrostId A) (out : OutMap E) : bool :=
  (Z.of_nat (size ins) =? Z.of_nat (size (members d)) - 1) && bool_decide (out = ∅).

(** Encrypting the shares, on a layer that is not stored yet. *)
Fixpoint commit_shares (me : FrostId) (coordinator_sends : bool) (shares : list (FrostId * Round2Package))
    (auth : SecureChannelManager) (out : OutMap OutEntryRoundTwo) : D (SecureChannelManager * OutMap OutEntryRoundTwo) :=
  match shares with
  | [] => ret (auth, out)
  | (target, our_package) :: shares =>
      let! '(auth, (ciphertext, ciphernonce)) := with_auth auth (commit_round2 target our_package) in
      whenM coordinator_sends (send_to target (Round2 me target ciphernonce ciphertext)) ;!
      commit_shares me coordinator_sends shares auth
        (<[(me, target) := Some (mkOut2 ciphernonce ciphertext None 0)]> out)
  end.

(** The entries of the packages that the coordinator will forward. *)
Definition add_forwarded {E} (d : DkgStateMachine) (out : OutMap E) : OutMap E :=
  foldl (λ m p, <[p := None]> m) out
    (filter (λ p, p.1 ≠ my_frost_id d) (coordinator_pairs d)).

Definition transition_stage2_checked : D unit :=
  let! d := get in
  match state d with
  | StRoundOne s =>
      if negb (round_complete d (s1_in_round1 s) (s1_out_round1 s)) then ret tt else
      put (StRoundOne (set_in1 ∅ s)) ;!
      match dkg_part2 (s1_secret_package s) (s1_in_round1 s) with
      | None => put StAborted
      | Some (secret_package, dkg2_shares) =>
          let! auth := on_auth (s1_auth s) (λ a, StRoundOne (set_auth1 a (set_in1 ∅ s))) handshake_finalize in
          let! '(auth, out) := commit_shares (my_frost_id d) (is_coordinator d) (btree_iter dkg2_shares) auth ∅ in
          put (StRoundTwo (mkS2 (negb (is_coordinator d)) auth secret_package (s1_in_round1 s) ∅
                 (if is_coordinator d then add_forwarded d out else out)))
      end
  | _ => ret tt
  end.

Definition transition_stage3_checked : D unit :=
  let! d := get in
  match state d with
  | StRoundTwo s =>
      debug_assert (Z.of_nat (size (s2_in_round1 s)) =? Z.of_nat (size (members d)) - 1) ;!
      if negb (round_complete d (s2_in_round2 s) (s2_out_round2 s)) then ret tt else
      debug_assert (negb (s2_pending s)) ;!
      let taken := mkS2 (s2_pending s) (s2_auth s) (s2_secret_package s) ∅ ∅ (s2_out_round2 s) in
      put (StRoundTwo taken) ;!
      match dkg_part3 (s2_secret_package s) (s2_in_round1 s) (s2_in_round2 s) with
      | None => ret tt
      | Some (secret_package, public_key_package) =>
          let! auth := on_auth (s2_auth s) (λ a, StRoundTwo (set_auth2 a taken)) channel_finalize in
          let! '(auth, our_signature) := with_auth auth (commit_round3 public_key_package) in
          let entry := mkOut3 our_signature None 0 in
          whenM (is_coordinator d) (send_own (Round3 (my_frost_id d) our_signature)) ;!
          put (StRoundThree (mkS3 (negb (is_coordinator d)) auth secret_package public_key_package
                 (s2_in_round1 s) (s2_in_round2 s) ∅
                 (if is_coordinator d then coordinator_out d entry
                  else {[ (my_frost_id d, coordinator d) := Some entry ]})))
      end
  | _ => ret tt
  end.

Definition transition_final_checked : D unit :=
  let! d := get in
  match state d with
  | StRoundThree s =>
      debug_assert (Z.of_nat (size (s3_in_round1 s)) =? Z.of_nat (size (members d)) - 1) ;!
      debug_assert (Z.of_nat (size (s3_in_round2 s)) =? Z.of_nat (size (members d)) - 1) ;!
      if negb (round_complete d (s3_in_round3 s) (s3_out_round3 s)) then ret tt else
      on_auth (s3_auth s) (λ a, StRoundThree (set_auth3 a s)) verification_finalize ;!
      debug_assert (negb (s3_pending s)) ;!
      put (StFinalized (s3_secret_package s) (s3_public_key_package s)) ;!
      modify (set_session None None)
  | _ => ret tt
  end.

Definition recv (p : DkgPayload) : D unit :=
  let! d := get in
  if negb (recipient p =? my_frost_id d) then ret tt else
  match msg p with
  | Round1 initiator context nonce ephemeral_pub signature package =>
      on_dkg_msg_round1 initiator context nonce ephemeral_pub signature package (p_sender p) ;!
      transition_stage2_checked
  | AckRound1 initiator => on_dkg_msg_ack_round1 initiator (p_sender p) ;! transition_stage2_checked
  | Round2 initiator target nonce package =>
      on_dkg_msg_round2 initiator target nonce package (p_sender p) ;! transition_stage3_checked
  | AckRound2 initiator target => on_dkg_msg_ack_round2 initiator target ;! transition_stage3_checked
  | Round3 initiator signature => on_dkg_msg_round3 initiator signature (p_sender p) ;! transition_final_checked
  | AckRound3 initiator => on_dkg_msg_ack_round3 initiator (p_sender p) ;! transition_final_checked
  end.

(** ** Runs

    The events of a member: a payload arrives, a payload is taken from the
    queue, a timer fires. *)

Inductive DkgEvent := Recv (p : DkgPayload) | Send (now : Z) | Timeout (now : Z).

Definition dkg_step (e : DkgEvent) : D unit :=
  match e with
  | Recv p => recv p
  | Send now => send now ;! ret tt
  | Timeout now => on_timeout now
  end.

(** The states that [d] may reach, whatever the outcome of the calls. *)
Inductive dkg_reachable (d : DkgStateMachine) : DkgStateMachine → Prop :=
| dkg_start : dkg_reachable d d
| dkg_continue d' e : dkg_reachable d d' → dkg_reachable d (dkg_step e d').1.

End dkg.

(** ** What is fixed and what only concerns the delivery *)

Section frame.
Context `{!DkgLib, !Profile}.

Definition ident (d : DkgStateMachine) :=
  (config d, my_frost_id d, my_static_sec d, multisig_id d, coordinator d, members d).

(** The state of the stage without the packages that are being sent. *)
Definition core (s : StageState) : StageState :=
  match s with
  | StRoundOne s => StRoundOne (set_out1 ∅ s)
  | StRoundTwo s => StRoundTwo (not_pending2 (set_out2 ∅ s))
  | StRoundThree s => StRoundThree (not_pending3 (set_out3 ∅ s))
  | s => s
  end.

Definition same_core (d d' : DkgStateMachine) : Prop :=
  ident d' = ident d ∧ core (state d') = core (state d).

#[export] Instance same_core_refl : Reflexive same_core.
Proof. intros d. by split. Qed.
#[export] Instance same_core_trans : Transitive same_core.
Proof. intros d1 d2 d3 [H1 H2] [H3 H4]. split; congruence. Qed.

Abbreviation D A := (M DkgStateMachine DkgError A).

Lemma same_core_send_to to m : respects same_core (send_to to m).
Proof. apply respects_modify. by split. Qed.

Lemma same_core_draw : respects same_core draw.
Proof. apply respects_get. intros d. cbn. by split. Qed.

Lemma same_core_debug_assert b : respects same_core (debug_assert (E:=DkgError) b).
Proof. unfold debug_assert. destruct (_ && _); auto with monad typeclass_instances. Qed.

Lemma same_core_resend {E : Type} (now : Z) (timer : E → option Z) (payload : FrostId * FrostId → E → FrostId * DkgMessage) (out : OutMap E) :
  respects same_core (resend now timer payload out).
Proof.
  apply respects_forM; [exact _..|]. intros [p [e|]] _; [|by apply respects_ret].
  destruct (elapsed now (timer e)); [|by apply respects_ret].
  destruct (payload p e). apply same_core_send_to.
Qed.

Lemma same_core_start_timer now p d d' : start_timer now p d = Some d' → same_core d d'.
Proof.
  unfold start_timer. destruct (msg p); try (intros [= <-]; reflexivity);
    destruct (state d) eqn:Hst; try discriminate;
    match goal with |- context [?m !! ?k] => destruct (m !! k) as [[e|]|] end; try discriminate;
    intros [= <-]; split; cbn; by rewrite ?Hst.
Qed.

Lemma send_loop_core now q d : same_core d (send_loop now q d).1.
Proof.
  revert d. induction q as [|p q IH]; intros d; cbn [send_loop]; [by split|].
  destruct (start_timer now p d) as [d'|] eqn:Hs; [|apply IH].
  apply same_core_start_timer in Hs. etrans; [exact Hs|]. by split.
Qed.

Lemma same_core_send now : respects same_core (send now).
Proof.
  intros d. unfold send. pose proof (send_loop_core now (queue d) d) as Hl.
  by destruct (send_loop now (queue d) d).
Qed.

Lemma same_core_ack1 i r : respects same_core (on_dkg_msg_ack_round1 i r).
Proof.
  apply respects_get. intros d. destruct (is_member i d); [|done]. cbn.
  destruct (state d) eqn:Hst; try done. split; [done|]. cbn. by rewrite Hst.
Qed.

Lemma same_core_ack2 i r : respects same_core (on_dkg_msg_ack_round2 i r).
Proof.
  apply respects_get. intros d. destruct (is_member i d); [|done]. cbn.
  destruct (state d) eqn:Hst; try done. split; [done|]. cbn. by rewrite Hst.
Qed.

Lemma same_core_ack3 i r : respects same_core (on_dkg_msg_ack_round3 i r).
Proof.
  apply respects_get. intros d. destruct (is_member i d); [|done]. cbn.
  destruct (state d) eqn:Hst; try done. split; [done|]. cbn. by rewrite Hst.
Qed.

Lemma same_core_forward {E : Type} (sender initiator : FrostId) (out : StageState → option (OutMap E))
    (upd : OutMap E → StageState → StageState) (entry : E) (m : DkgMessage) :
  (∀ o s, core (upd o s) = core s) → respects same_core (forward sender initiator out upd entry m).
Proof.
  intros Hupd. apply respects_get. intros d0.
  assert (∀ l, respects same_core (forM l (λ to,
    if (to =? my_frost_id d0) || (to =? sender) then ret tt else
    let! d := get in
    match out (state d) with
    | Some o =>
        match o !! (initiator, to) with
        | Some _ => put (upd (<[(initiator, to) := Some entry]> o) (state d)) ;! send_to to m
        | None => ret tt
        end
    | None => ret tt
    end))) as Hl; [|apply Hl].
  intros l. apply respects_forM; [exact _..|]. intros to _.
  destruct (_ || _); [by apply respects_ret|]. apply respects_get. intros d.
  destruct (out (state d)) as [o|]; [|done]. destruct (o !! (initiator, to)) as [e|]; [|done].
  apply bind_rel; [exact _| |intros d1 _ _; apply same_core_send_to].
  split; [done|]. cbn. apply Hupd.
Qed.

Lemma core_upd1 o s : core (upd1 o s) = core s.
Proof. by destruct s. Qed.
Lemma core_upd3 o s : core (upd3 o s) = core s.
Proof. by destruct s. Qed.

Lemma same_core_send_own m : respects same_core (send_own m).
Proof.
  apply respects_get. intros d. apply (respects_forM same_core). intros p _. apply same_core_send_to.
Qed.

End frame.

Create HintDb dkg discriminated.
#[export] Hint Resolve same_core_send_to same_core_draw same_core_debug_assert same_core_resend same_core_send
  same_core_ack1 same_core_ack2 same_core_ack3 same_core_send_own core_upd1 core_upd3 : dkg.
#[export] Hint Resolve same_core_forward | 5 : dkg.
