(* ===== verification/DkgSafety.v ===== *)
(** * What a generated key stands for

    The invariant of the key generation of [Dkg]: in every state that a member
    reaches, whatever it receives and whenever its timers fire, the packages
    it holds were authenticated by the member they are from.  A key is final
    only when every other member has signed it together with the session's
    transcript. *)

From S2P Require Import Prelude Bytes Bitcoin Codec DkgAuth Dkg.
From stdpp Require Import strings.

Open Scope Z_scope.

(** Calls that only concern the delivery. *)
Ltac same_core_tac :=
  repeat first
    [ progress intros
    | apply same_core_send_to | apply same_core_draw | apply same_core_debug_assert | apply same_core_send_own
    | apply same_core_forward; [apply core_upd1 || apply core_upd3]
    | apply respects_ret; exact _ | apply respects_fail; exact _ | apply respects_panic; exact _
    | apply respects_lift; exact _
    | apply respects_whenM; [exact _|] | apply respects_forM; [exact _..|]
    | apply respects_bind; [exact _| |]
    | match goal with |- respects _ (match ?x with _ => _ end) => destruct x end ].

Section safety.
Context `{!DkgLib, !Profile}.
Variables (me : FrostId) (members : gmap FrostId PubKey).

Abbreviation T nonce := (session_transcript SESSION_CONTEXT nonce).

(** The package [p] of the member [j] was signed by [j] for this session, and
    [commits] holds what was signed. *)
Definition authenticated (nonce : Z) (commits : gmap FrostId bytes) (j : FrostId) (p : Round1Package) : Prop :=
  ∃ pk eph commit signature, members !! j = Some pk ∧ commits !! j = Some commit ∧
    round1_commit (T nonce) j eph p = Ok commit ∧ ecdsa_verify pk commit signature = true.

(** What every member signs in round three. *)
Definition round3_challenge (nonce : Z) (commits : gmap FrostId bytes) (key : bytes) : bytes :=
  (challenge_bytes "round3_commit" (append_message "round3_package" key
    (append_message "round2_commit" [] (append_commits commits (T nonce))))).2.

Definition in1_ok (nonce : Z) (commits : gmap FrostId bytes) (in1 : gmap FrostId Round1Package) : Prop :=
  ∀ j p, in1 !! j = Some p → j ≠ me ∧ authenticated nonce commits j p.

Definition in2_ok (in2 : gmap FrostId Round2Package) : Prop :=
  ∀ j, is_Some (in2 !! j) → j ≠ me ∧ is_Some (members !! j).

Definition in3_ok (challenge : bytes) (in3 : gmap FrostId EcdsaSig) : Prop :=
  ∀ j signature, in3 !! j = Some signature →
    j ≠ me ∧ ∃ pk, members !! j = Some pk ∧ ecdsa_verify pk challenge signature = true.

(** The layer of round one; [own] when it has the member's own package. *)
Record handshake_ok (own : bool) (nonce : Z) (in1 : gmap FrostId Round1Package) (h : DkgHandshakeManager)
    : Prop := {
  hs_transcript : h_transcript h = T nonce;
  hs_me : h_my_frost_id h = me;
  hs_members : h_fed_members h = members;
  hs_commits : dom (round1_commits h) = (if own then {[ me ]} else ∅) ∪ dom in1;
  hs_ephs : dom (eph_keys h) = {[ me ]} ∪ dom in1;
  hs_in1 : in1_ok nonce (round1_commits h) in1 }.

Definition s1_ok (s : StateRoundOne) : Prop :=
  handshake_ok true (s1_nonce s) (s1_in_round1 s) (s1_auth s) ∨
  (s1_in_round1 s = ∅ ∧ h_fed_members (s1_auth s) = ∅).

(** All packages of round one are there and authenticated. *)
Definition round1_done (nonce : Z) (commits : gmap FrostId bytes) (in1 : gmap FrostId Round1Package) : Prop :=
  dom commits = dom members ∧ dom in1 = dom members ∖ {[ me ]} ∧ in1_ok nonce commits in1.

Definition s2_ok (s : StateRoundTwo) : Prop :=
  in2_ok (s2_in_round2 s) ∧
  (s2_in_round1 s = ∅ ∨
   ∃ nonce commits, round1_done nonce commits (s2_in_round1 s) ∧
     c_transcript (s2_auth s) = append_commits commits (T nonce) ∧ c_fed_members (s2_auth s) = members).

(** The key comes out of the authenticated packages. *)
Definition key_ok (nonce : Z) (commits : gmap FrostId bytes) (in1 : gmap FrostId Round1Package)
    (in2 : gmap FrostId Round2Package) (secret : KeyPackage) (public : DkgPublicKeyPackage) : Prop :=
  round1_done nonce commits in1 ∧ dom in2 = dom members ∖ {[ me ]} ∧
  ∃ s, dkg_part3 s in1 in2 = Some (secret, public).

Definition s3_ok (s : StateRoundThree) : Prop :=
  ∃ nonce commits key,
    key_ok nonce commits (s3_in_round1 s) (s3_in_round2 s) (s3_secret_package s) (s3_public_key_package s) ∧
    pkp_serialize (s3_public_key_package s) = Some key ∧
    challenge (s3_auth s) = Some (round3_challenge nonce commits key) ∧
    v_fed_members (s3_auth s) = members ∧
    in3_ok (round3_challenge nonce commits key) (s3_in_round3 s).

(** The key was made from the packages of all members, and every other member
    signed it for this session and these packages. *)
Definition confirmed (secret : KeyPackage) (public : DkgPublicKeyPackage) : Prop :=
  ∃ nonce commits in1 in2 key signatures,
    key_ok nonce commits in1 in2 secret public ∧ pkp_serialize public = Some key ∧
    dom signatures = dom members ∖ {[ me ]} ∧ in3_ok (round3_challenge nonce commits key) signatures.

Definition state_ok (s : StageState) : Prop :=
  match s with
  | StAwaitingInit | StAborted => True
  | StRoundOne s => s1_ok s
  | StRoundTwo s => s2_ok s
  | StRoundThree s => s3_ok s
  | StFinalized secret public => confirmed secret public
  end.

Lemma state_ok_core s s' : core s' = core s → state_ok s → state_ok s'.
Proof.
  intros Hc. assert (∀ s, state_ok (core s) ↔ state_ok s) as Hok by (by intros []).
  by rewrite <-(Hok s), <-(Hok s'), Hc.
Qed.

(** The state of a member is sound. *)
Definition dkg_ok (d : DkgStateMachine) : Prop :=
  my_frost_id d = me ∧ Dkg.members d = members ∧ state_ok (state d).

Lemma dkg_ok_core d d' : same_core d d' → dkg_ok d → dkg_ok d'.
Proof.
  intros [Hid Hcore] (Hme & Hmem & Hst). injection Hid as _ Eme _ _ _ Emem.
  split; [congruence|]. split; [congruence|]. by eapply state_ok_core.
Qed.

Lemma respects_dkg_ok {A} (m : M DkgStateMachine DkgError A) :
  respects same_core m → respects (inv dkg_ok) m.
Proof. apply respects_weaken. intros d d' Hc Hok. by eapply dkg_ok_core. Qed.

Lemma dkg_ok_put s d : dkg_ok d → state_ok s → dkg_ok (set_state s d).
Proof. intros (Hme & Hmem & _) Hs. by split. Qed.

Lemma inv_assume d d' : (dkg_ok d → inv dkg_ok d d') → inv dkg_ok d d'.
Proof. intros Hi Hok. by apply Hi. Qed.

(** ** The layers *)

Lemma handshake_new_ok nonce sec n h :
  handshake_new SESSION_CONTEXT nonce me sec members n = Ok h →
  is_Some (members !! me) ∧ handshake_ok false nonce ∅ h.
Proof.
  unfold handshake_new. destruct (members !! me) as [pk|]; [|done]. intros [= <-].
  split; [eauto|]. split; try done; set_solver.
Qed.

Lemma commit_round1_ok own nonce in1 h p h' x :
  in1 !! me = None → handshake_ok own nonce in1 h → commit_round1 p h = (h', Ok x) → handshake_ok true nonce in1 h'.
Proof.
  intros Hme [Ht Hm Hf Hc He Hi] Hrun. unfold commit_round1, bindM, get, lift, modify, ret in Hrun.
  destruct (round1_commit _ _ _ p) as [commit| |]; [|done..]. injection Hrun as <- _.
  split; cbn; try done.
  - rewrite Hm, dom_insert_L, Hc. destruct own; set_solver.
  - intros j q Hj. destruct (Hi j q Hj) as (Hne & pk & eph & c & sg & ? & ? & ? & ?).
    split; [done|]. exists pk, eph, c, sg. rewrite lookup_insert_ne by congruence. done.
Qed.

Lemma validate_round1_ok own nonce in1 h j eph signature p :
  j ≠ me → handshake_ok own nonce in1 h →
  match validate_round1 j eph signature p h with
  | (h', Ok _) => handshake_ok own nonce (<[j := p]> in1) h'
  | (h', _) => h' = h
  end.
Proof.
  intros Hne [Ht Hm Hf Hc He Hi]. unfold validate_round1, bindM, get, lift, modify.
  rewrite Hf, Ht. destruct (members !! j) as [pk|] eqn:Hpk; cbn [ok_or]; [|done].
  destruct (round1_commit _ _ _ p) as [commit| |] eqn:Hcommit; [|done..].
  destruct (ecdsa_verify pk commit signature) eqn:Hv; cbn [negb]; [|done].
  split; cbn; rewrite ?dom_insert_L, ?Hc, ?He; try done; [set_solver..|].
  intros k q. destruct (decide (k = j)) as [->|Hk].
  - rewrite lookup_insert_eq. intros [= <-]. split; [done|].
    exists pk, eph, commit, signature. by rewrite lookup_insert_eq.
  - rewrite lookup_insert_ne by done. intros Hq.
    destruct (Hi k q Hq) as (Hne' & pk' & eph' & c & sg & ? & ? & ? & ?).
    split; [done|]. exists pk', eph', c, sg. rewrite lookup_insert_ne by done. done.
Qed.

Lemma validate_round1_spent j eph signature p h :
  h_fed_members h = ∅ → validate_round1 j eph signature p h = (h, Err NotAFedMember).
Proof. intros Hf. unfold validate_round1, bindM, get, lift. rewrite Hf, lookup_empty. done. Qed.

(** ** Starting a session *)

Lemma with_auth_Ok {S A} (a a' : S) (m : M S EncryptionError A) d d' x :
  with_auth a m d = (d', Ok (a', x)) → d' = d ∧ m a = (a', Ok x).
Proof. unfold with_auth. destruct (m a) as [b [y|e|]]; by intros [= <- <- <-]. Qed.

Lemma same_core_with_auth {S A} (a : S) (m : M S EncryptionError A) : respects same_core (with_auth a m).
Proof. intros d. unfold with_auth. by destruct (m a). Qed.

Lemma same_core_modify (f : DkgStateMachine → DkgStateMachine) :
  (∀ d, ident (f d) = ident d) → (∀ d, state (f d) = state d) → respects same_core (modify (E:=DkgError) f).
Proof. intros Hi Hs. apply respects_modify. intros d. split; [apply Hi|]. by rewrite Hs. Qed.

(** A call that only concerns the delivery, and the call that follows it. *)
Lemma ok_bind_core {A B} (m : M DkgStateMachine DkgError A) (f : A → M DkgStateMachine DkgError B) d :
  respects same_core m → (∀ d' a, m d = (d', Ok a) → same_core d d' → inv dkg_ok d' (f a d').1) →
  inv dkg_ok d (bindM m f d).1.
Proof.
  intros Hm Hf. apply bind_rel; [exact _| |].
  - intros Hok. eapply dkg_ok_core; [apply Hm|done].
  - intros d' a Hrun. apply (Hf d' a Hrun). specialize (Hm d). by rewrite Hrun in Hm.
Qed.

Lemma respects_put_ok s : state_ok s → respects (inv dkg_ok) (put s).
Proof. intros Hs. apply respects_modify. intros d Hok. by apply dkg_ok_put. Qed.

Lemma in1_ok_own nonce commits in1 : in1_ok nonce commits in1 → in1 !! me = None.
Proof. intros Hi. destruct (in1 !! me) as [p|] eqn:Hp; [|done]. by destruct (Hi me p Hp). Qed.

Lemma init_new_session_ok nonce : respects (inv dkg_ok) (init_new_session nonce).
Proof.
  apply respects_get. intros d. apply inv_assume. intros (Hme & Hmem & _).
  do 3 (apply ok_bind_core; [auto using same_core_modify with dkg|intros ? [] _ _]).
  apply ok_bind_core; [auto with dkg|intros ? n _ _].
  apply ok_bind_core; [by apply respects_lift|intros ? [secret package] _ _].
  apply ok_bind_core; [auto with dkg|intros ? n' _ _].
  apply ok_bind_core; [by apply respects_lift|intros d3 h Hnew _].
  apply ok_bind_core; [apply same_core_with_auth|intros d4 [h' [eph sg]] Hauth _].
  apply ok_bind_core; [auto with dkg|intros d5 [] _ _].
  apply respects_put_ok. left. cbn.
  apply with_auth_Ok in Hauth as [_ Hauth]. apply lift_Ok in Hnew as [_ Hnew].
  apply map_err_Ok in Hnew. rewrite Hme, Hmem in Hnew. apply handshake_new_ok in Hnew as [_ Hh].
  by eapply commit_round1_ok.
Qed.

Lemma validate_new_session_init_ok initiator context nonce eph signature package :
  respects (inv dkg_ok) (validate_new_session_init initiator context nonce eph signature package).
Proof.
  apply respects_get. intros d Hok0. pose proof Hok0 as (Hme & Hmem & Hst). revert Hok0.
  unfold is_coordinator. destruct (Z.eqb_spec (my_frost_id d) (coordinator d)) as [|Hco]; [done|].
  destruct (Z.eqb_spec initiator (coordinator d)) as [->|]; [|done]. cbn [negb].
  destruct (bool_decide_reflect (context = SESSION_CONTEXT)) as [->|]; [|done]. cbn [negb].
  destruct (match session_nonce d with Some _ => _ | None => _ end); [done|].
  destruct (bool_decide (stage d = Finalized)); [done|].
  match goal with |- dkg_ok d → dkg_ok (?m d).1 => change (inv dkg_ok d (m d).1) end.
  apply ok_bind_core; [auto with dkg|intros ? n _ _].
  apply ok_bind_core; [by apply respects_lift|intros d1 h Hnew _].
  apply ok_bind_core; [apply same_core_with_auth|intros d2 [h1 []] Hval _].
  do 2 (apply ok_bind_core; [auto using same_core_modify with dkg|intros ? [] _ _]).
  apply ok_bind_core; [apply same_core_send_to|intros ? [] _ _].
  apply ok_bind_core; [auto with dkg|intros ? n' _ _].
  apply ok_bind_core; [by apply respects_lift|intros ? [secret our_package] _ _].
  apply ok_bind_core; [apply same_core_with_auth|intros d4 [h2 [our_eph sg]] Hauth _].
  apply ok_bind_core; [auto with dkg|intros d5 [] _ _].
  apply bind_rel; [exact _| |intros ? [] _ Hok; exact Hok].
  apply respects_put_ok. left. cbn.
  apply with_auth_Ok in Hauth as [_ Hauth]. apply with_auth_Ok in Hval as [_ Hval].
  apply lift_Ok in Hnew as [_ Hnew]. apply map_err_Ok in Hnew. rewrite Hme, Hmem in Hnew.
  apply handshake_new_ok in Hnew as [_ Hh].
  pose proof (validate_round1_ok false nonce ∅ h (coordinator d) eph signature package) as Hv.
  rewrite Hval in Hv. specialize (Hv ltac:(congruence) Hh). rewrite insert_empty in Hv.
  eapply commit_round1_ok; [|exact Hv|exact Hauth]. rewrite lookup_singleton_ne; [done|congruence].
Qed.

Lemma expectM_ok {A} (m : M DkgStateMachine DkgError A) :
  respects (inv dkg_ok) m → respects (inv dkg_ok) (expectM m).
Proof. intros Hm d. specialize (Hm d). unfold expectM. by destruct (m d) as [d' [x|e|]]. Qed.

Lemma on_timeout_ok now : respects (inv dkg_ok) (on_timeout now).
Proof.
  apply respects_get. intros d. apply bind_rel; [exact _| |].
  - destruct (session_expired now d); [|by intros Hok].
    apply ok_bind_core; [by apply respects_lift|intros d' n _ _]. apply expectM_ok, init_new_session_ok.
  - intros d1 [] _. eapply respects_get. intros d2.
    destruct (state d2); try (by intros Hok); apply respects_dkg_ok; auto with dkg.
Qed.

(** ** Receiving *)

Lemma s1_ok_insert s j eph signature p h' :
  j ≠ me → s1_ok s → validate_round1 j eph signature p (s1_auth s) = (h', Ok tt) →
  s1_ok (set_in1 (<[j := p]> (s1_in_round1 s)) (set_auth1 h' s)).
Proof.
  intros Hne [Hh|[_ Hf]] Hval.
  - left. cbn. pose proof (validate_round1_ok _ _ _ _ j eph signature p Hne Hh) as Hv. by rewrite Hval in Hv.
  - by rewrite validate_round1_spent in Hval.
Qed.

Lemma validate_round1_err j eph signature p h :
  match validate_round1 j eph signature p h with (_, Ok _) => True | (h', _) => h' = h end.
Proof.
  unfold validate_round1, bindM, get, lift, modify. destruct (h_fed_members h !! j); cbn [ok_or]; [|done].
  destruct (round1_commit _ _ _ _); [|done..]. by destruct (negb _).
Qed.

Lemma set_auth1_same s : set_auth1 (s1_auth s) s = s.
Proof. by destruct s. Qed.
Lemma set_state_same d : set_state (state d) d = d.
Proof. by destruct d. Qed.

Lemma on_dkg_msg_round1_ok initiator context nonce eph signature package sender :
  respects (inv dkg_ok) (on_dkg_msg_round1 initiator context nonce eph signature package sender).
Proof.
  apply respects_get. intros d Hok0. pose proof Hok0 as (Hme & _). revert Hok0.
  destruct (negb (is_member initiator d)); [done|].
  destruct (Z.eqb_spec initiator (my_frost_id d)) as [|Hne]; [done|]. rewrite Hme in Hne.
  destruct (negb _); [done|]. destruct (match session_nonce d with Some _ => _ | None => _ end); [done|].
  match goal with |- dkg_ok d → dkg_ok (?m d).1 => change (inv dkg_ok d (m d).1) end.
  apply ok_bind_core; [destruct (session_nonce d); auto with dkg monad typeclass_instances|].
  intros d1 new _ _. apply bind_rel; [exact _| |].
  { destruct new; [apply validate_new_session_init_ok|by intros Hok]. }
  intros d2 accepted _. destruct accepted; [apply respects_dkg_ok; auto with dkg|].
  eapply respects_get. clear d2. intros d2 Hok2. pose proof Hok2 as (_ & _ & Hst).
  destruct (state d2) as [|s|s|s| |sk pk] eqn:Hs2; try (refine (respects_dkg_ok _ _ _ Hok2); apply respects_whenM; [exact _|apply same_core_send_to]).
  cbn in Hst. destruct (bool_decide _); [exact (respects_dkg_ok _ (same_core_send_to _ _) _ Hok2)|].
  unfold bindM at 1, on_auth at 1.
  destruct (validate_round1 initiator eph signature package (s1_auth s)) as [h' r] eqn:Hval.
  pose proof (validate_round1_err initiator eph signature package (s1_auth s)) as Herr. rewrite Hval in Herr.
  destruct r as [[]|e|]; cbn [map_err fst];
    [|rewrite Herr, set_auth1_same, <-Hs2, set_state_same; exact Hok2..].
  pose proof (s1_ok_insert _ _ _ _ _ _ Hne Hst Hval) as Hs'.
  pose proof (dkg_ok_put (StRoundOne _) d2 Hok2 Hs') as Hok3.
  unfold bindM at 1, get at 1. cbn [state set_state].
  unfold bindM at 1, put at 1, modify at 1.
  refine (respects_dkg_ok _ _ _ Hok3). same_core_tac.
Qed.

Lemma validate_round2_frame initiator nonce package c :
  let '(c', r) := validate_round2 initiator nonce package c in
  c_transcript c' = c_transcript c ∧ c_fed_members c' = c_fed_members c.
Proof.
  pose proof (validate_round2_same_keys initiator nonce package c) as Hs.
  destruct (validate_round2 initiator nonce package c) as [c' r]. by destruct Hs as (_ & ? & _ & ? & _).
Qed.

Lemma in2_ok_insert in2 j p : j ≠ me → is_Some (members !! j) → in2_ok in2 → in2_ok (<[j := p]> in2).
Proof.
  intros Hne Hj Hi k Hk. destruct (decide (k = j)) as [->|]; [done|].
  rewrite lookup_insert_ne in Hk by done. by apply Hi.
Qed.

(** A round two state with other packages of that round and another channel. *)
Lemma s2_ok_change s in2 auth :
  s2_ok s → in2_ok in2 → c_transcript auth = c_transcript (s2_auth s) →
  c_fed_members auth = c_fed_members (s2_auth s) →
  s2_ok (set_in2 in2 (set_auth2 auth s)).
Proof. intros [_ Hs] Hi Ht Hf. split; [done|]. cbn. by rewrite Ht, Hf. Qed.

Lemma on_dkg_msg_round2_ok initiator target nonce package sender :
  respects (inv dkg_ok) (on_dkg_msg_round2 initiator target nonce package sender).
Proof.
  apply respects_get. intros d Hok0. pose proof Hok0 as (Hme & Hmem & Hst). revert Hok0.
  unfold is_member. destruct (bool_decide_reflect (is_Some (Dkg.members d !! initiator))) as [Hin|]; [|done].
  cbn [negb]. destruct (Z.eqb_spec initiator (my_frost_id d)) as [|Hne]; [done|]. rewrite Hme in Hne.
  rewrite Hmem in Hin.
  destruct (state d) as [|s|s|s| |sk pk] eqn:Hs;
    try (apply respects_dkg_ok, respects_whenM; [exact _|apply same_core_send_to]).
  destruct (target =? my_frost_id d).
  - destruct (bool_decide _); [apply respects_dkg_ok, same_core_send_to|]. intros Hok.
    unfold bindM at 1, on_auth at 1.
    pose proof (validate_round2_frame initiator nonce package (s2_auth s)) as Hframe.
    destruct (validate_round2 _ _ _ _) as [c r]. destruct Hframe as [Ht Hf]. cbn in Hst.
    destruct r as [p|e|]; cbn [map_err fst];
      [|apply dkg_ok_put; [done|exact (s2_ok_change s _ c Hst (proj1 Hst) Ht Hf)]..].
    pose proof (s2_ok_change s _ c Hst (in2_ok_insert _ _ p Hne Hin (proj1 Hst)) Ht Hf) as Hs'.
    pose proof (dkg_ok_put (StRoundTwo _) d Hok Hs') as Hok3.
    unfold bindM at 1, get at 1. cbn [state set_state].
    unfold bindM at 1, put at 1, modify at 1.
    match goal with |- dkg_ok (?m _).1 =>
      cut (respects (inv dkg_ok) m); [intros Hm; exact (Hm _ Hok3)|] end.
    apply respects_bind; [exact _|apply respects_dkg_ok, same_core_send_to|intros _].
    apply respects_whenM; [exact _|]. apply respects_bind; [exact _|apply respects_dkg_ok; same_core_tac|intros _].
    apply respects_bind; [exact _|apply respects_dkg_ok; same_core_tac|intros _].
    by apply respects_put_ok.
  - destruct (negb (is_coordinator d)); [done|]. intros Hok.
    match goal with |- dkg_ok (?m _).1 =>
      cut (respects (inv dkg_ok) m); [intros Hm; exact (Hm _ Hok)|] end.
    apply respects_bind; [exact _|apply respects_dkg_ok; same_core_tac|intros _].
    destruct (s2_out_round2 s !! (initiator, target)); [|apply respects_dkg_ok; same_core_tac].
    apply respects_bind; [exact _|by apply respects_put_ok|intros _].
    apply respects_dkg_ok; same_core_tac.
Qed.

Lemma validate_round3_frame j signature v :
  match validate_round3 j signature v with
  | (v', r) => challenge v' = challenge v ∧ v_fed_members v' = v_fed_members v ∧
      (r = Ok tt → ∃ c pk, challenge v = Some c ∧ v_fed_members v !! j = Some pk ∧ ecdsa_verify pk c signature = true)
  end.
Proof.
  unfold validate_round3, bindM, get, lift, modify. destruct (challenge v) as [c|] eqn:Hc; cbn [ok_or]; [|done].
  destruct (v_fed_members v !! j) as [pk|] eqn:Hpk; cbn [ok_or]; [|done].
  destruct (ecdsa_verify pk c signature) eqn:Hv; cbn [negb]; [|done].
  split; [done|]. split; [done|]. eauto.
Qed.

Lemma s3_ok_change s v in3 :
  s3_ok s → challenge v = challenge (s3_auth s) → v_fed_members v = v_fed_members (s3_auth s) →
  (∀ c, challenge v = Some c → in3_ok c (s3_in_round3 s) → in3_ok c in3) →
  s3_ok (set_in3 in3 (set_auth3 v s)).
Proof.
  intros (n & cs & key & Hk & Hser & Hch & Hmem & Hin) Hc Hf Hin3.
  exists n, cs, key. cbn. rewrite Hf, Hmem, Hc. rewrite Hc in Hin3. eauto 10.
Qed.

Lemma in3_ok_insert c in3 j pk signature :
  j ≠ me → members !! j = Some pk → ecdsa_verify pk c signature = true →
  in3_ok c in3 → in3_ok c (<[j := signature]> in3).
Proof.
  intros Hne Hpk Hv Hin k sg. destruct (decide (k = j)) as [->|].
  - rewrite lookup_insert_eq. intros [= <-]. eauto.
  - rewrite lookup_insert_ne by done. apply Hin.
Qed.

Lemma on_dkg_msg_round3_ok initiator signature sender :
  respects (inv dkg_ok) (on_dkg_msg_round3 initiator signature sender).
Proof.
  apply respects_get. intros d Hok0. pose proof Hok0 as (Hme & Hmem & Hst). revert Hok0.
  destruct (negb (is_member initiator d)); [done|].
  destruct (Z.eqb_spec initiator (my_frost_id d)) as [|Hne]; [done|]. rewrite Hme in Hne.
  destruct (state d) as [|s|s|s| |sk pk] eqn:Hs;
    try (apply respects_dkg_ok, respects_whenM; [exact _|apply same_core_send_to]).
  destruct (bool_decide _); [apply respects_dkg_ok, same_core_send_to|]. intros Hok. cbn in Hst.
  unfold bindM at 1, on_auth at 1.
  pose proof (validate_round3_frame initiator signature (s3_auth s)) as Hframe.
  destruct (validate_round3 _ _ _) as [v r]. destruct Hframe as (Hc & Hf & Hv).
  destruct r as [[]|e|]; cbn [map_err fst];
    [|apply dkg_ok_put; [done|by apply (s3_ok_change s v (s3_in_round3 s))]..].
  assert (s3_ok (set_in3 (<[initiator := signature]> (s3_in_round3 s)) (set_auth3 v s))) as Hs'.
  { apply s3_ok_change; [done..|]. intros c Hch. destruct (Hv eq_refl) as (c' & pk & Hc' & Hpk & Hver).
    assert (v_fed_members (s3_auth s) = members) as Hfed by (by destruct Hst as (? & ? & ? & _ & _ & _ & ? & _)).
    rewrite Hfed in Hpk. apply (in3_ok_insert _ _ _ pk); congruence. }
  pose proof (dkg_ok_put (StRoundThree _) d Hok Hs') as Hok3.
  unfold bindM at 1, get at 1. cbn [state set_state].
  unfold bindM at 1, put at 1, modify at 1.
  match goal with |- dkg_ok (?m _).1 =>
    cut (respects (inv dkg_ok) m); [intros Hm; exact (Hm _ Hok3)|] end.
  apply respects_bind; [exact _|apply respects_dkg_ok, same_core_send_to|intros _].
  apply respects_bind; [exact _| |intros _; apply respects_dkg_ok; same_core_tac].
  apply respects_whenM; [exact _|].
  do 3 (apply respects_bind; [exact _|apply respects_dkg_ok; same_core_tac|intros _]).
  by apply respects_put_ok.
Qed.

(** ** Transitions *)

Section transitions.
Hypothesis Hself : is_Some (members !! me).
Hypothesis Hsize : (2 ≤ size members)%nat.

(** All the others, when there are as many of them as there should be. *)
Lemma dom_others {A} (m : gmap FrostId A) :
  (∀ j, is_Some (m !! j) → j ≠ me ∧ is_Some (members !! j)) →
  Z.of_nat (size m) = Z.of_nat (size members) - 1 → dom m = dom members ∖ {[ me ]}.
Proof.
  intros Hm Hsz. apply set_subseteq_size_eq.
  - intros j. rewrite elem_of_difference, elem_of_singleton, !elem_of_dom. intros Hj. by destruct (Hm j Hj).
  - rewrite size_difference; rewrite ?size_singleton, ?size_dom; [lia|].
    apply singleton_subseteq_l. by apply elem_of_dom.
Qed.

Lemma round_complete_true {A E : Type} (d : DkgStateMachine) (ins : gmap FrostId A) (out : OutMap E) :
  round_complete d ins out = true →
  Z.of_nat (size ins) = Z.of_nat (size (Dkg.members d)) - 1 ∧ out = ∅.
Proof. unfold round_complete. rewrite andb_true_iff, Z.eqb_eq, bool_decide_eq_true. done. Qed.

Lemma in1_ok_dom nonce commits in1 j :
  in1_ok nonce commits in1 → is_Some (in1 !! j) → j ≠ me ∧ is_Some (members !! j).
Proof. intros Hi [p Hp]. destruct (Hi j p Hp) as (? & pk & _ & _ & _ & ? & _). eauto. Qed.

(** The layer of a complete first round finishes. *)
Lemma handshake_done nonce in1 h :
  handshake_ok true nonce in1 h → Z.of_nat (size in1) = Z.of_nat (size members) - 1 →
  round1_done nonce (round1_commits h) in1 ∧
  ∃ h' c, handshake_finalize h = (h', Ok c) ∧ h_fed_members h' = ∅ ∧
    c_transcript c = append_commits (round1_commits h) (T nonce) ∧ c_fed_members c = members.
Proof.
  intros [Ht Hm Hf Hc He Hi] Hsz.
  assert (dom in1 = dom members ∖ {[ me ]}) as Hdom.
  { apply dom_others; [|done]. intros j. by eapply in1_ok_dom. }
  assert ({[ me ]} ∪ dom in1 = dom members) as Hall.
  { rewrite Hdom. symmetry. apply union_difference_L, singleton_subseteq_l. by apply elem_of_dom. }
  split; [split; [by rewrite Hc|by split]|].
  destruct (handshake_finalize_completes h) as (h' & c & Hrun).
  - by rewrite Hf, <-!size_dom, Hc, Hall.
  - by rewrite Hf, <-!size_dom, He, Hall.
  - intros j. rewrite Hf, <-!elem_of_dom, He, Hall. done.
  - exists h', c. split; [done|]. apply handshake_finalize_Ok in Hrun as (_ & Hct & _ & _ & Hcf & _ & Hf' & _).
    split; [done|]. by rewrite Hct, Hcf, Ht, Hf.
Qed.

Lemma commit_round2_frame target package c :
  let '(c', _) := commit_round2 target package c in
  c_transcript c' = c_transcript c ∧ c_fed_members c' = c_fed_members c.
Proof.
  pose proof (commit_round2_same_keys target package c) as Hs.
  destruct (commit_round2 target package c) as [c' r]. by destruct Hs as (_ & ? & _ & ? & _).
Qed.

Lemma commit_shares_frame co shares c out d :
  same_core d (commit_shares me co shares c out d).1 ∧
  ∀ d' c' out', commit_shares me co shares c out d = (d', Ok (c', out')) →
    c_transcript c' = c_transcript c ∧ c_fed_members c' = c_fed_members c.
Proof.
  revert c out d. induction shares as [|[target package] shares IH]; intros c out d; cbn [commit_shares].
  - split; [done|]. by intros d' c' out' [= _ <- _].
  - unfold bindM at 1 3, with_auth at 1 2. pose proof (commit_round2_frame target package c) as Hf.
    destruct (commit_round2 target package c) as [c1 [[ct n]|e|]]; [|done..].
    unfold bindM at 1 2.
    assert (respects same_core (whenM (E:=DkgError) co (send_to target (Round2 me target n ct)))) as Hw
      by same_core_tac.
    specialize (Hw d). destruct (whenM co _ d) as [d1 [[]|e|]]; [|done..]. cbn in Hw.
    destruct (IH c1 (<[(me, target) := Some (mkOut2 n ct None 0)]> out) d1) as [Hd Hc]. split.
    + by etrans.
    + intros d' c' out' Hrun. destruct (Hc _ _ _ Hrun) as [E1 E2]. destruct Hf as [E3 E4]. by rewrite E1, E2.
Qed.

Lemma transition_stage2_ok : respects (inv dkg_ok) transition_stage2_checked.
Proof.
  apply respects_get. intros d Hok. pose proof Hok as (Hme & Hmem & Hst).
  destruct (state d) as [|s|s|s| |sk pk] eqn:Hs; try done. cbn in Hst.
  destruct (round_complete d _ _) eqn:Hrc; [|done]. cbn [negb]. apply round_complete_true in Hrc as [Hsz _].
  rewrite Hmem in Hsz. destruct Hst as [Hh|[Hin1 _]]; [|rewrite Hin1, map_size_empty in Hsz; lia].
  destruct (handshake_done _ _ _ Hh Hsz) as (Hdone & h' & c & Hrun & Hf & Ht & Hc).
  unfold bindM at 1, put at 1, modify at 1.
  destruct (dkg_part2 (s1_secret_package s) (s1_in_round1 s)) as [[secret shares]|]; [|exact (dkg_ok_put StAborted d Hok I)].
  unfold bindM at 1, on_auth at 1. rewrite Hrun. cbn [map_err].
  rewrite Hme. set (d1 := set_state _ (set_state _ d)).
  assert (dkg_ok d1) as Hok1 by (apply (dkg_ok_put (StRoundOne _) d Hok); by right).
  destruct (commit_shares_frame (is_coordinator d) (btree_iter shares) c ∅ d1) as [Hcore Hframe].
  unfold bindM at 1. destruct (commit_shares _ _ _ _ _ d1) as [d2 [[c' out]|e|]];
    [|exact (dkg_ok_core _ _ Hcore Hok1)..].
  destruct (Hframe _ _ _ eq_refl) as [Ht' Hc']. apply dkg_ok_put; [exact (dkg_ok_core _ _ Hcore Hok1)|].
  split; [intros j [? [=]]|]. right. exists (s1_nonce s), (round1_commits (s1_auth s)). cbn.
  split; [done|]. split; congruence.
Qed.

Lemma channel_finalize_Ok c c' v :
  channel_finalize c = (c', Ok v) →
  v_transcript v = append_message "round2_commit" [] (c_transcript c) ∧ v_fed_members v = c_fed_members c.
Proof.
  unfold channel_finalize, bindM, get, modify, ret, fail. destruct (negb _); [done|]. by intros [= _ <-].
Qed.

Lemma commit_round3_Ok package v v' signature :
  commit_round3 package v = (v', Ok signature) →
  v_fed_members v' = v_fed_members v ∧ ∃ key, pkp_serialize package = Some key ∧
    challenge v' = Some (challenge_bytes "round3_commit" (append_message "round3_package" key (v_transcript v))).2.
Proof.
  unfold commit_round3, bindM, get, lift, modify, ret. destruct (pkp_serialize package) as [b|]; [|done].
  cbn [ok_or]. destruct (challenge_bytes _ _) as [t c] eqn:Hch. intros [= <- _].
  split; [done|]. exists b. by rewrite Hch.
Qed.

Lemma transition_stage3_ok `{!DkgLaws} : respects (inv dkg_ok) transition_stage3_checked.
Proof.
  apply respects_get. intros d.
  apply inv_assume. intros (Hme & Hmem & Hst).
  destruct (state d) as [|s|s|s| |sk pk] eqn:Hs; try (by intros ?). destruct Hst as [Hin2 Hst].
  apply ok_bind_core; [apply same_core_debug_assert|intros d1 [] _ _].
  destruct (round_complete d _ _) eqn:Hrc; [|by intros ?]. cbn [negb].
  apply round_complete_true in Hrc as [Hsz _]. rewrite Hmem in Hsz.
  apply ok_bind_core; [apply same_core_debug_assert|intros d2 [] _ _]. cbn zeta.
  set (taken := mkS2 _ _ _ _ _ _).
  assert (∀ a, state_ok (StRoundTwo (set_auth2 a taken))) as Htaken.
  { intros a. split; [intros j [? [=]]|by left]. }
  apply bind_rel; [exact _|exact (respects_put_ok _ (Htaken (s2_auth s)) d2)|intros d3 [] _].
  destruct (dkg_part3 _ _ _) as [[secret public]|] eqn:Hpart3; [|by intros ?].
  assert (dom (s2_in_round2 s) = dom members ∖ {[ me ]}) as Hdom2 by (by apply dom_others).
  pose proof (dkg_part3_same_ids _ _ _ _ Hpart3) as Hdom12.
  destruct Hst as [Hnone|(nonce & commits & Hdone & Ht & Hf)].
  { exfalso. rewrite Hnone, dom_empty_L in Hdom12. rewrite <-size_dom, <-Hdom12, size_empty in Hsz. lia. }
  apply bind_rel; [exact _| |].
  { unfold on_auth. destruct (channel_finalize (s2_auth s)) as [c r]. intros Hok3. by apply dkg_ok_put. }
  intros d4 v Hauth. apply ok_bind_core; [apply same_core_with_auth|intros d5 [v' signature] Hauth' _].
  apply ok_bind_core; [same_core_tac|intros d6 [] _ _]. apply respects_put_ok.
  unfold on_auth in Hauth. destruct (channel_finalize (s2_auth s)) as [c r] eqn:Hrun.
  injection Hauth as _ Hauth. apply map_err_Ok in Hauth as ->.
  apply channel_finalize_Ok in Hrun as [Hvt Hvf].
  apply with_auth_Ok in Hauth' as [_ Hauth']. apply commit_round3_Ok in Hauth' as (Hvf' & key & Hkey & Hch).
  exists nonce, commits, key. cbn. split; [by repeat (split; [done|]); eauto|]. split; [done|].
  split; [by rewrite Hch, Hvt, Ht|]. split; [by rewrite Hvf', Hvf|]. by intros j sg [=].
Qed.

Lemma verification_finalize_frame v :
  let '(v', _) := verification_finalize v in
  challenge v' = challenge v ∧ v_fed_members v' = v_fed_members v.
Proof.
  unfold verification_finalize, bindM, get, modify, ret, fail. destruct (negb _); [done|].
  destruct (challenge_bytes _ _) as [t c]. done.
Qed.

Lemma transition_final_ok : respects (inv dkg_ok) transition_final_checked.
Proof.
  apply respects_get. intros d.
  apply inv_assume. intros (Hme & Hmem & Hst).
  destruct (state d) as [|s|s|s| |sk pk] eqn:Hs; try (by intros ?).
  do 2 (apply ok_bind_core; [apply same_core_debug_assert|intros ? [] _ _]).
  destruct (round_complete d _ _) eqn:Hrc; [|by intros ?]. cbn [negb].
  apply round_complete_true in Hrc as [Hsz _]. rewrite Hmem in Hsz.
  apply bind_rel; [exact _| |].
  { unfold on_auth. pose proof (verification_finalize_frame (s3_auth s)) as Hf.
    destruct (verification_finalize (s3_auth s)) as [v r]. destruct Hf as [Hc Hm].
    intros Hok1. apply dkg_ok_put; [done|]. by apply (s3_ok_change s v (s3_in_round3 s)). }
  intros ? c _. apply ok_bind_core; [apply same_core_debug_assert|intros ? [] _ _].
  apply bind_rel; [exact _| |intros ? [] _; refine (respects_dkg_ok _ (same_core_modify _ _ _) _); done].
  apply respects_put_ok. destruct Hst as (nonce & commits & key & Hk & Hkey & _ & _ & Hin3).
  exists nonce, commits, (s3_in_round1 s), (s3_in_round2 s), key, (s3_in_round3 s).
  split; [done|]. split; [done|]. split; [|done].
  apply dom_others; [|done]. intros j [sg Hj]. destruct (Hin3 j sg Hj) as (? & pk & ? & _). eauto.
Qed.

Lemma recv_ok `{!DkgLaws} p : respects (inv dkg_ok) (recv p).
Proof.
  apply respects_get. intros d. destruct (negb _); [by intros ?|].
  destruct (msg p);
    match goal with |- inv dkg_ok ?d (?m ?d).1 => apply (respects_bind (inv dkg_ok)) end;
    try apply on_dkg_msg_round1_ok; try apply on_dkg_msg_round2_ok; try apply on_dkg_msg_round3_ok;
    try (apply respects_dkg_ok; auto with dkg);
    intros _; auto using transition_stage2_ok, transition_stage3_ok, transition_final_ok.
Qed.

Lemma dkg_step_ok `{!DkgLaws} e : respects (inv dkg_ok) (dkg_step e).
Proof.
  destruct e as [p|now|now]; cbn [dkg_step].
  - apply recv_ok.
  - apply respects_dkg_ok. apply respects_bind; [exact _|apply same_core_send|intros ?; same_core_tac].
  - apply on_timeout_ok.
Qed.

Lemma dkg_reachable_ok `{!DkgLaws} d d' : dkg_ok d → dkg_reachable d d' → dkg_ok d'.
Proof. intros Hok. induction 1; [done|]. by apply dkg_step_ok. Qed.

End transitions.
End safety.

Section theorems.
Context `{!DkgLib, !Profile}.

Lemma dkg_new_ok id sec mid co members cfg nonce n d :
  dkg_new id sec mid co members cfg nonce n = Ok d → is_Some (members !! id) ∧ dkg_ok id members d.
Proof.
  unfold dkg_new. case_bool_decide as Hid; [done|]. case_bool_decide; [done|].
  destruct (_ <? _); [done|]. destruct (negb _); [done|]. destruct (_ && _); [done|].
  set (this := mkDkg _ _ _ _ _ _ _ _ _ _ _).
  assert (dkg_ok id members this) as Hthis by done.
  intros Hd. split; [by apply not_eq_None_Some|]. destruct (is_coordinator this); [|by injection Hd as <-].
  apply obind_Ok in Hd as (m & _ & Hd).
  pose proof (init_new_session_ok id members m this Hthis) as Hnew.
  destruct (init_new_session m this) as [d1 r]. cbn in Hnew.
  apply obind_Ok in Hd as ([] & _ & Hd). apply obind_Ok in Hd as ([] & _ & Hd). by injection Hd as <-.
Qed.

(** C10.  A key is final only when it was confirmed: whatever payloads a member
    of a federation of two or more received and whenever its timers fired,
    when it reports key packages, they were made by FROST from a package of
    both rounds of every other member, every package of the first round was
    signed by the member it is from, and every other member signed, with its
    static key, the challenge that binds the resulting public key to the
    session's nonce and to the packages of all members. *)
Theorem finalized_key_is_confirmed `{!DkgLaws} id sec mid co members cfg nonce n d0 d secret public :
  dkg_new id sec mid co members cfg nonce n = Ok d0 → (2 ≤ size members)%nat → dkg_reachable d0 d →
  aggregate_key_packages d = Some (secret, public) → confirmed id members secret public.
Proof.
  intros Hnew Hsize Hreach Hagg. apply dkg_new_ok in Hnew as [Hid Hok].
  pose proof (dkg_reachable_ok id members Hid Hsize _ _ Hok Hreach) as (_ & _ & Hst).
  unfold aggregate_key_packages in Hagg. destruct (state d); simplify_eq. exact Hst.
Qed.

(** ** A final key stays *)

Definition final_as (k : KeyPackage * DkgPublicKeyPackage) (d : DkgStateMachine) : Prop :=
  state d = StFinalized k.1 k.2.

Lemma final_as_core k d d' : same_core d d' → final_as k d → final_as k d'.
Proof. unfold final_as. intros [_ Hc] Hs. rewrite Hs in Hc. cbn in Hc. by destruct (state d'). Qed.

Lemma respects_final {A} k (m : M DkgStateMachine DkgError A) :
  respects same_core m → respects (inv (final_as k)) m.
Proof. apply respects_weaken. intros d d' Hc Hf. by eapply final_as_core. Qed.

Lemma final_assume {S} (I : S → Prop) d d' : (I d → inv I d d') → inv I d d'.
Proof. intros Hi Hok. by apply Hi. Qed.

Lemma final_round1 k initiator context nonce eph signature package sender :
  respects (inv (final_as k)) (on_dkg_msg_round1 initiator context nonce eph signature package sender).
Proof.
  apply respects_get. intros d. destruct (negb _); [by intros ?|]. destruct (initiator =? _); [by intros ?|].
  destruct (negb _); [by intros ?|]. destruct (match session_nonce d with Some _ => _ | None => _ end); [by intros ?|].
  apply bind_rel; [exact _| |].
  { apply respects_final. destruct (session_nonce d); same_core_tac. }
  intros d1 new Hd1. apply bind_rel; [exact _| |].
  { destruct new; [|by intros ?]. apply final_assume. intros Hf.
    unfold validate_new_session_init, bindM at 1, get at 1.
    rewrite (bool_decide_true (stage d1 = Finalized)) by (unfold stage; by rewrite Hf).
    destruct (is_coordinator d1); [by intros ?|].
    destruct (negb (initiator =? coordinator d1)); [by intros ?|].
    destruct (negb (bool_decide (context = SESSION_CONTEXT))); [by intros ?|].
    destruct (match session_nonce d1 with Some _ => _ | None => _ end); by intros ?. }
  intros d2 accepted _. destruct accepted; [apply respects_final; same_core_tac|].
  eapply respects_get. clear. intros d. apply final_assume. intros Hf. rewrite Hf.
  apply respects_final. same_core_tac.
Qed.

Lemma final_recv k p : respects (inv (final_as k)) (recv p).
Proof.
  apply respects_get. intros d. destruct (negb _); [by intros ?|].
  assert (respects (inv (final_as k)) transition_stage2_checked) as H2.
  { apply respects_get. intros d'. apply final_assume. intros Hf. rewrite Hf. by intros ?. }
  assert (respects (inv (final_as k)) transition_stage3_checked) as H3.
  { apply respects_get. intros d'. apply final_assume. intros Hf. rewrite Hf. by intros ?. }
  assert (respects (inv (final_as k)) transition_final_checked) as H4.
  { apply respects_get. intros d'. apply final_assume. intros Hf. rewrite Hf. by intros ?. }
  destruct (msg p);
    match goal with |- inv _ ?d (?m ?d).1 => apply (respects_bind (inv (final_as k))) end;
    try apply final_round1; try (apply respects_final; auto with dkg; fail); try (by intros _).
  all: try (apply respects_get; intros d'; apply final_assume; intros Hf; rewrite Hf;
    destruct (negb (is_member initiator d')), (initiator =? my_frost_id d'); try (by intros ?);
    apply respects_final; same_core_tac).
Qed.

Lemma final_step k e : respects (inv (final_as k)) (dkg_step e).
Proof.
  destruct e as [p|now|now]; cbn [dkg_step].
  - apply final_recv.
  - apply respects_final. apply respects_bind; [exact _|apply same_core_send|intros ?; same_core_tac].
  - apply respects_get. intros d. apply final_assume. intros Hf.
    assert (session_expired now d = false) as ->.
    { unfold session_expired, stage. rewrite Hf. cbn. by rewrite andb_false_r. }
    apply bind_rel; [exact _|by intros ?|]. intros d1 [] [= <-]. unfold bindM, get. rewrite Hf. by intros ?.
Qed.

(** The outcome is irrevocable: once a member has its key packages, no
    payload, whoever sent it, and no timer changes them. *)
Theorem final_key_is_irrevocable d d' k :
  aggregate_key_packages d = Some k → dkg_reachable d d' → aggregate_key_packages d' = Some k.
Proof.
  intros Hagg Hreach. destruct k as [secret public].
  assert (∀ d, aggregate_key_packages d = Some (secret, public) ↔ final_as (secret, public) d) as Hiff.
  { intros x. unfold aggregate_key_packages, final_as. cbn. destruct (state x); split; congruence. }
  apply Hiff. apply Hiff in Hagg. induction Hreach as [|d1 e _ IH]; [done|]. by apply final_step.
Qed.

End theorems.

(** ** Panics *)

Record calm {S E A} (m : M S E A) : Prop := mkCalm { calm_run : ∀ s, (m s).2 ≠ Panic }.

Section calm.
Context {S E : Type}.

Lemma calm_ret {A} (a : A) : calm (S:=S) (E:=E) (ret a).
Proof. by split. Qed.
Lemma calm_fail {A} (e : E) : calm (S:=S) (A:=A) (fail e).
Proof. by split. Qed.
Lemma calm_modify (f : S → S) : calm (E:=E) (modify f).
Proof. by split. Qed.
Lemma calm_lift {A} (o : outcome E A) : o ≠ Panic → calm (S:=S) (lift o).
Proof. by split. Qed.
Lemma calm_ok_or {A} (o : option A) (e : E) : calm (S:=S) (lift (ok_or o e)).
Proof. apply calm_lift. by destruct o. Qed.
Lemma calm_get {A} (f : S → M S E A) : (∀ s, calm (f s)) → calm (bindM get f).
Proof. intros Hf. split. intros s. apply Hf. Qed.
Lemma calm_bind {A B} (m : M S E A) (f : A → M S E B) : calm m → (∀ a, calm (f a)) → calm (bindM m f).
Proof.
  intros [Hm] Hf. split. intros s. specialize (Hm s). unfold bindM.
  destruct (m s) as [s' [a|e|]]; [apply Hf|done..].
Qed.
Lemma calm_whenM b (m : M S E unit) : calm m → calm (whenM b m).
Proof. destruct b; [done|]. intros _. apply calm_ret. Qed.
Lemma calm_forM {A} (l : list A) (f : A → M S E unit) : (∀ x, calm (f x)) → calm (forM l f).
Proof. intros Hf. induction l as [|x l IH]; [apply calm_ret|]. by apply calm_bind. Qed.

End calm.

Create HintDb calm discriminated.
#[export] Hint Resolve calm_ret calm_fail calm_modify calm_ok_or calm_get calm_bind calm_whenM calm_forM : calm.
#[export] Hint Extern 2 (calm (match ?x with _ => _ end)) => destruct x : calm.

Section release.
Context `{!DkgLib, !Profile}.
Hypothesis Hrelease : overflow_checks = false.

Lemma calm_debug_assert {S E} b : calm (S:=S) (E:=E) (debug_assert b).
Proof. split. intros s. unfold debug_assert. by rewrite Hrelease. Qed.

Lemma calm_uadd {S E} w a b : calm (S:=S) (E:=E) (lift (uadd w a b)).
Proof. apply calm_lift. unfold uadd. destruct (_ <? _); [done|]. by rewrite Hrelease. Qed.

Lemma round1_commit_no_panic t i k p : round1_commit t i k p ≠ Panic.
Proof. unfold round1_commit. by destruct (r1_serialize p). Qed.

Lemma calm_commit_round1 p : calm (commit_round1 p).
Proof. unfold commit_round1. auto using calm_lift, round1_commit_no_panic with calm. Qed.

Lemma calm_validate_round1 i k sg p : calm (validate_round1 i k sg p).
Proof.
  unfold validate_round1. auto 10 using calm_lift, round1_commit_no_panic with calm.
Qed.

Lemma calm_commit_round2 t p : calm (commit_round2 t p).
Proof. unfold commit_round2. auto 20 using calm_uadd with calm. Qed.

Lemma calm_validate_round2 i n p : calm (validate_round2 i n p).
Proof. unfold validate_round2. auto 20 with calm. Qed.

Lemma calm_channel_finalize : calm channel_finalize.
Proof. unfold channel_finalize. auto 20 with calm. Qed.

Lemma calm_commit_round3 p : calm (commit_round3 p).
Proof. unfold commit_round3. auto 20 with calm. Qed.

Lemma calm_validate_round3 i sg : calm (validate_round3 i sg).
Proof. unfold validate_round3. auto 20 with calm. Qed.

Lemma calm_verification_finalize : calm verification_finalize.
Proof. unfold verification_finalize. auto 20 with calm. Qed.

Lemma calm_on_auth {S A} (a : S) upd (m : M S EncryptionError A) : calm m → calm (on_auth a upd m).
Proof. intros [Hm]. split. intros d. specialize (Hm a). unfold on_auth. by destruct (m a) as [a' []]. Qed.

Lemma calm_with_auth {S A} (a : S) (m : M S EncryptionError A) : calm m → calm (with_auth a m).
Proof. intros [Hm]. split. intros d. specialize (Hm a). unfold with_auth. by destruct (m a) as [a' []]. Qed.

Lemma calm_handshake_new context nonce id sec mem n :
  calm (S:=DkgStateMachine) (lift (map_err DkgEncryption (handshake_new context nonce id sec mem n))).
Proof. apply calm_lift. unfold handshake_new. by destruct (mem !! id). Qed.

Lemma calm_forward {E : Type} (sender initiator : FrostId) (out : StageState → option (OutMap E))
    (upd : OutMap E → StageState → StageState) (entry : E) (m : DkgMessage) :
  calm (forward sender initiator out upd entry m).
Proof.
  unfold forward. apply calm_get. intros d. apply calm_forM. intros to.
  destruct (_ || _); [apply calm_ret|]. apply calm_get. intros d'.
  destruct (out (state d')) as [o|]; [|apply calm_ret]. destruct (o !! _); [|apply calm_ret].
  apply calm_bind; intros; apply calm_modify.
Qed.

Hint Resolve calm_debug_assert calm_uadd calm_commit_round1 calm_validate_round1 calm_commit_round2
  calm_validate_round2 calm_channel_finalize calm_commit_round3 calm_validate_round3
  calm_verification_finalize calm_on_auth calm_with_auth calm_handshake_new calm_forward : calm.

Lemma calm_draw : calm draw.
Proof. unfold draw. auto with calm. Qed.

Hint Extern 1 (calm (send_to _ _)) => apply calm_modify : calm.
Hint Extern 1 (calm (send_round1_ack _ _)) => apply calm_modify : calm.
Hint Extern 1 (calm (send_round2_ack _ _ _)) => apply calm_modify : calm.
Hint Extern 1 (calm (send_round3_ack _ _)) => apply calm_modify : calm.
Hint Extern 1 (calm (put _)) => apply calm_modify : calm.
Hint Resolve calm_draw : calm.

Lemma calm_send_own m : calm (send_own m).
Proof. unfold send_own. auto 10 with calm. Qed.
Hint Resolve calm_send_own : calm.

Lemma calm_validate_new_session_init i c n k sg p : calm (validate_new_session_init i c n k sg p).
Proof. unfold validate_new_session_init, draw. auto 60 with calm. Qed.
Hint Resolve calm_validate_new_session_init : calm.

Lemma calm_round1 i c n k sg p sender : calm (on_dkg_msg_round1 i c n k sg p sender).
Proof. unfold on_dkg_msg_round1. auto 60 with calm. Qed.

Lemma calm_round2 i t n ct sender : calm (on_dkg_msg_round2 i t n ct sender).
Proof. unfold on_dkg_msg_round2. auto 60 with calm. Qed.

Lemma calm_round3 i sg sender : calm (on_dkg_msg_round3 i sg sender).
Proof. unfold on_dkg_msg_round3. auto 60 with calm. Qed.

Lemma calm_acks i t :
  calm (on_dkg_msg_ack_round1 i t) ∧ calm (on_dkg_msg_ack_round2 i t) ∧ calm (on_dkg_msg_ack_round3 i t).
Proof.
  unfold on_dkg_msg_ack_round1, on_dkg_msg_ack_round2, on_dkg_msg_ack_round3. auto 20 with calm.
Qed.

Lemma calm_stage3 : calm transition_stage3_checked.
Proof. unfold transition_stage3_checked. auto 60 with calm. Qed.

Lemma calm_final : calm transition_final_checked.
Proof. unfold transition_final_checked. auto 60 with calm. Qed.

Lemma calm_commit_shares me co shares c out : calm (commit_shares me co shares c out).
Proof. revert c out. induction shares as [|[t p] shares IH]; intros c out; cbn [commit_shares]; auto 20 with calm. Qed.

Lemma stage2_no_panic id members d :
  is_Some (members !! id) → dkg_ok id members d → (2 ≤ size members)%nat →
  (transition_stage2_checked d).2 ≠ Panic.
Proof.
  intros Hid (Hme & Hmem & Hst) Hsize. unfold transition_stage2_checked, bindM at 1, get at 1.
  destruct (state d) as [|s|s|s| |sk pk]; try done. cbn in Hst.
  destruct (round_complete d _ _) eqn:Hrc; [|done]. cbn [negb]. apply round_complete_true in Hrc as [Hsz _].
  rewrite Hmem in Hsz. destruct Hst as [Hh|[Hin1 _]]; [|rewrite Hin1, map_size_empty in Hsz; lia].
  destruct (handshake_done id members Hid Hsize _ _ _ Hh Hsz) as (_ & h' & c & Hrun & _).
  unfold bindM at 1, put at 1, modify at 1.
  destruct (dkg_part2 (s1_secret_package s) (s1_in_round1 s)) as [[secret shares]|]; [|done].
  unfold bindM at 1, on_auth at 1. rewrite Hrun. cbn [map_err].
  apply calm_run. apply calm_bind; [apply calm_commit_shares|]. intros [c' out]. apply calm_modify.
Qed.

Lemma bind_no_panic {S E A B} (m : M S E A) (f : A → M S E B) s :
  calm m → (∀ s' a, m s = (s', Ok a) → (f a s').2 ≠ Panic) → (bindM m f s).2 ≠ Panic.
Proof.
  intros [Hm] Hf. specialize (Hm s). unfold bindM. destruct (m s) as [s' [a|e|]]; [by apply Hf|done..].
Qed.

(** A release build does not panic: whatever payloads a member of a
    federation of two or more received before and whenever its timers fired,
    no payload makes [recv] panic.  In particular the ephemeral keys that the
    end of the first round expects are there. *)
Theorem recv_never_panics `{!DkgLaws} id sec mid co members cfg nonce n d0 d p :
  dkg_new id sec mid co members cfg nonce n = Ok d0 → (2 ≤ size members)%nat → dkg_reachable d0 d →
  (recv p d).2 ≠ Panic.
Proof.
  intros Hnew Hsize Hreach. apply dkg_new_ok in Hnew as [Hid Hok0].
  pose proof (dkg_reachable_ok id members Hid Hsize _ _ Hok0 Hreach) as Hok.
  unfold recv, bindM at 1, get at 1. destruct (negb _); [done|].
  assert (∀ m : M DkgStateMachine DkgError unit, calm m → respects (inv (dkg_ok id members)) m →
    ((m ;! transition_stage2_checked) d).2 ≠ Panic) as H2.
  { intros m Hm Hi. apply bind_no_panic; [done|]. intros d' [] Hrun.
    apply (stage2_no_panic id members); [done| |done]. specialize (Hi d Hok). by rewrite Hrun in Hi. }
  destruct (msg p).
  - apply H2; [apply calm_round1|apply on_dkg_msg_round1_ok].
  - apply H2; [apply calm_acks; exact initiator|apply respects_dkg_ok; auto with dkg].
  - apply calm_run, calm_bind; [apply calm_round2|intros _; apply calm_stage3].
  - apply calm_run, calm_bind; [apply calm_acks|intros _; apply calm_stage3].
  - apply calm_run, calm_bind; [apply calm_round3|intros _; apply calm_final].
  - apply calm_run, calm_bind; [apply calm_acks|intros _; apply calm_final].
Qed.

End release.

(** ** Behaviour of a debug build *)

Section late.
Context `{!DkgLib, !Profile}.

(** With debug assertions, a package of the first round that reaches the
    coordinator after the key is final makes it panic, whoever signed it: the
    session's nonce has been cleared, and [on_dkg_msg_round1] takes that for a
    member that never had a session. *)
Theorem late_round1_panics d k sender initiator nonce eph signature package :
  overflow_checks = true → is_coordinator d = true → aggregate_key_packages d = Some k →
  session_nonce d = None → is_member initiator d = true → initiator ≠ my_frost_id d →
  recv (mkPayload sender (my_frost_id d)
          (Round1 initiator SESSION_CONTEXT nonce eph signature package)) d = (d, Panic).
Proof.
  intros Hdebug Hco Hagg Hnonce Hmem Hne. unfold recv, bindM at 1, get at 1. cbn [recipient msg p_sender].
  rewrite Z.eqb_refl. cbn [negb]. unfold bindM at 1, on_dkg_msg_round1, bindM at 1, get at 1.
  rewrite Hmem, (proj2 (Z.eqb_neq _ _) Hne), bool_decide_true, Hnonce by done. cbn [negb].
  unfold bindM, debug_assert. by rewrite Hdebug, Hco.
Qed.

(** When the third part of FROST fails, the process is not aborted,
    though the comment there says so: the member stays in the second round
    without the packages that it had collected, and its next check of that
    round panics in a build with debug assertions and does nothing in another,
    so that no acknowledgement leads it out of there. *)
Theorem failed_part3_is_not_aborted d s :
  state d = StRoundTwo s → round_complete d (s2_in_round2 s) (s2_out_round2 s) = true →
  Z.of_nat (size (s2_in_round1 s)) = Z.of_nat (size (Dkg.members d)) - 1 → (2 ≤ size (Dkg.members d))%nat →
  s2_pending s = false → dkg_part3 (s2_secret_package s) (s2_in_round1 s) (s2_in_round2 s) = None →
  let d' := (transition_stage3_checked d).1 in
  (transition_stage3_checked d).2 = Ok tt ∧ stage d' = RoundTwo ∧
  transition_stage3_checked d' = (d', if overflow_checks then Panic else Ok tt).
Proof.
  intros Hs Hrc Hin1 Hsize Hpend Hpart3.
  assert (transition_stage3_checked d = (set_state (StRoundTwo
    (mkS2 (s2_pending s) (s2_auth s) (s2_secret_package s) ∅ ∅ (s2_out_round2 s))) d, Ok tt)) as Hrun.
  { unfold transition_stage3_checked, bindM at 1, get at 1. rewrite Hs.
    unfold debug_assert. rewrite Hin1, Z.eqb_refl, Hpend. cbn [negb]. rewrite andb_false_r.
    unfold bindM at 1, ret at 1. rewrite Hrc. cbn [negb]. unfold bindM at 1, ret at 1.
    unfold bindM at 1, put at 1, modify at 1. by rewrite Hpart3. }
  rewrite Hrun. split; [done|]. split; [done|]. cbn [fst].
  unfold transition_stage3_checked, bindM at 1, get at 1. cbn [state set_state s2_in_round1].
  assert (Z.of_nat (size (∅ : gmap FrostId Round1Package)) =?
          Z.of_nat (size (Dkg.members d)) - 1 = false) as Hempty.
  { apply Z.eqb_neq. rewrite map_size_empty. lia. }
  unfold debug_assert, bindM at 1. cbn [Dkg.members set_state]. rewrite Hempty. cbn [negb]. rewrite andb_true_r.
  destruct overflow_checks; [done|]. cbn [ret]. unfold round_complete. cbn [s2_in_round2 Dkg.members set_state].
  assert (Z.of_nat (size (∅ : gmap FrostId Round2Package)) =?
          Z.of_nat (size (Dkg.members d)) - 1 = false) as Hempty'.
  { apply Z.eqb_neq. rewrite map_size_empty. lia. }
  by rewrite Hempty'.
Qed.

End late.

(** ** Restarting a session *)

Section restart.
Context `{!DkgLib, !Profile}.

(** The session of a member in the first round. *)
Definition session (s : StageState) : option Z :=
  match s with StRoundOne s => Some (s1_nonce s) | _ => None end.

(** A member in the first round after a call was there before, in the same
    session, or the call started the session [nonce] with good reason. *)
Definition restarts (nonce : Z) (reason : Prop) (d d' : DkgStateMachine) : Prop :=
  ∀ n, session (state d') = Some n → session (state d) = Some n ∨ (n = nonce ∧ reason).

#[local] Instance restarts_refl nonce reason : Reflexive (restarts nonce reason).
Proof. intros d n. by left. Qed.
#[local] Instance restarts_trans nonce reason : Transitive (restarts nonce reason).
Proof. intros d1 d2 d3 H12 H23 n Hn. destruct (H23 n Hn) as [Hn'|]; [by apply H12|by right]. Qed.

Lemma core_restarts nonce reason d d' : same_core d d' → restarts nonce reason d d'.
Proof.
  intros [_ Hc] n Hn. left. assert (∀ s, session (core s) = session s) as Hs by (by intros []).
  by rewrite <-Hs, <-Hc, Hs.
Qed.

Lemma respects_restarts {A} nonce reason (m : M DkgStateMachine DkgError A) :
  respects same_core m → respects (restarts nonce reason) m.
Proof. apply respects_weaken. intros d d'. apply core_restarts. Qed.

Lemma restarts_bind {A B} nonce reason (m : M DkgStateMachine DkgError A)
    (f : A → M DkgStateMachine DkgError B) d :
  respects same_core m → (∀ d' a, m d = (d', Ok a) → same_core d d' → restarts nonce reason d' (f a d').1) →
  restarts nonce reason d (bindM m f d).1.
Proof.
  intros Hm Hf. apply (bind_rel (restarts _ _)); [exact (respects_restarts _ _ _ Hm d)|].
  intros d' a Hrun. apply (Hf d' a Hrun). specialize (Hm d). by rewrite Hrun in Hm.
Qed.

(** A state that is not the first round. *)
Lemma restarts_put nonce reason s :
  session s = None → respects (restarts nonce reason) (put s).
Proof. intros Hs. apply respects_modify. intros d n. cbn. by rewrite Hs. Qed.

Lemma restarts_put_same nonce reason s d : session s = session (state d) → restarts nonce reason d (put s d).1.
Proof. intros Hs n. cbn. rewrite Hs. by left. Qed.

(** A signed request of the coordinator for a session that is newer than
    every session before. *)
Definition authentic_request (d : DkgStateMachine) (initiator : FrostId) (nonce : Z) (eph : PubKey)
    (signature : EcdsaSig) (package : Round1Package) : Prop :=
  is_coordinator d = false ∧ initiator = coordinator d ∧ aggregate_key_packages d = None ∧
  (∀ last, session_nonce d = Some last → last < nonce) ∧
  ∃ pk commit, Dkg.members d !! initiator = Some pk ∧
    round1_commit (session_transcript SESSION_CONTEXT nonce) initiator eph package = Ok commit ∧
    ecdsa_verify pk commit signature = true.

Lemma validate_round1_Ok h h' j eph signature package :
  validate_round1 j eph signature package h = (h', Ok tt) →
  ∃ pk commit, h_fed_members h !! j = Some pk ∧ round1_commit (h_transcript h) j eph package = Ok commit ∧
    ecdsa_verify pk commit signature = true.
Proof.
  unfold validate_round1, bindM, get, lift, modify. destruct (h_fed_members h !! j) as [pk|]; [|done].
  cbn [ok_or]. destruct (round1_commit _ _ _ _) as [c| |] eqn:Hc; [|done..].
  destruct (ecdsa_verify pk c signature) eqn:Hv; [|done]. eauto.
Qed.

Lemma validate_new_session_init_restarts d initiator context nonce eph signature package :
  restarts nonce (authentic_request d initiator nonce eph signature package) d
    (validate_new_session_init initiator context nonce eph signature package d).1.
Proof.
  unfold validate_new_session_init. unfold bindM at 1, get at 1.
  destruct (is_coordinator d) eqn:Hco; [done|].
  destruct (Z.eqb_spec initiator (coordinator d)) as [Hi|]; [|done]. cbn [negb].
  destruct (bool_decide_reflect (context = SESSION_CONTEXT)) as [->|]; [|done]. cbn [negb].
  destruct (match session_nonce d with Some _ => _ | None => _ end) eqn:Hnonce; [done|].
  destruct (bool_decide_reflect (stage d = Finalized)) as [|Hfin]; [done|].
  apply restarts_bind; [auto with dkg|intros ? n _ _].
  apply restarts_bind; [by apply respects_lift|intros d1 h Hnew _].
  apply restarts_bind; [apply same_core_with_auth|intros d2 [h1 []] Hval _].
  assert (authentic_request d initiator nonce eph signature package) as Hreason.
  { apply with_auth_Ok in Hval as [_ Hval]. apply validate_round1_Ok in Hval as (pk & commit & Hpk & Hc & Hv).
    apply lift_Ok in Hnew as [_ Hnew]. apply map_err_Ok in Hnew. unfold handshake_new in Hnew.
    destruct (Dkg.members d !! my_frost_id d); [|done]. injection Hnew as <-.
    split; [done|]. split; [done|]. split; [by unfold aggregate_key_packages, stage in *; destruct (state d)|].
    split; [|by exists pk, commit]. intros last Hlast. rewrite Hlast in Hnonce. by apply Z.leb_gt in Hnonce. }
  do 2 (apply restarts_bind; [auto using same_core_modify with dkg|intros ? [] _ _]).
  apply restarts_bind; [apply same_core_send_to|intros ? [] _ _].
  apply restarts_bind; [auto with dkg|intros ? n' _ _].
  apply restarts_bind; [by apply respects_lift|intros ? [secret our_package] _ _].
  apply restarts_bind; [apply same_core_with_auth|intros d4 [h2 [our_eph sg]] _ _].
  apply restarts_bind; [auto with dkg|intros d5 [] _ _].
  intros m. cbn. intros [= <-]. by right.
Qed.

Lemma on_dkg_msg_round1_restarts d initiator context nonce eph signature package sender :
  restarts nonce (authentic_request d initiator nonce eph signature package) d
    (on_dkg_msg_round1 initiator context nonce eph signature package sender d).1.
Proof.
  unfold on_dkg_msg_round1. unfold bindM at 1, get at 1.
  destruct (negb (is_member initiator d)); [done|]. destruct (initiator =? _); [done|].
  destruct (negb _); [done|]. destruct (match session_nonce d with Some _ => _ | None => _ end); [done|].
  apply (bind_rel (restarts _ _)); [apply respects_restarts; destruct (session_nonce d); same_core_tac|].
  intros d1 new Hnew. assert (d1 = d) as ->.
  { destruct (session_nonce d); [by injection Hnew as <- _|]. unfold bindM, debug_assert in Hnew.
    destruct (_ && _); by injection Hnew. }
  apply (bind_rel (restarts _ _)).
  { destruct new; [apply validate_new_session_init_restarts|done]. }
  intros d2 accepted _. destruct accepted; [apply respects_restarts; same_core_tac|].
  unfold bindM at 1, get at 1.
  destruct (state d2) as [|s|s|s| |sk pk] eqn:Hs2; try (apply respects_restarts; same_core_tac; fail).
  destruct (bool_decide _); [apply respects_restarts; same_core_tac|].
  apply (bind_rel (restarts _ _)).
  { unfold on_auth. destruct (validate_round1 _ _ _ _ _) as [h r]. intros n. cbn. rewrite Hs2. by left. }
  intros d3 [] _. eapply (respects_get (restarts _ _)). intros d4.
  destruct (state d4) as [|s4|s4|s4| |sk pk] eqn:Hs4; try done.
  apply (bind_rel (restarts _ _)); [apply restarts_put_same; by rewrite Hs4|].
  intros d5 [] _. apply respects_restarts. same_core_tac.
Qed.

Lemma transition_stage2_restarts nonce reason : respects (restarts nonce reason) transition_stage2_checked.
Proof.
  apply respects_get. intros d. destruct (state d) as [|s|s|s| |sk pk] eqn:Hs; try done.
  destruct (negb _); [done|].
  apply (bind_rel (restarts _ _)); [apply restarts_put_same; by rewrite Hs|]. intros d1 [] [= <-].
  destruct (dkg_part2 _ _) as [[secret shares]|]; [|by apply restarts_put].
  apply (bind_rel (restarts _ _)).
  { unfold on_auth. destruct (handshake_finalize _) as [h r]. intros n. cbn. by left. }
  intros d2 auth _. apply (bind_rel (restarts _ _)); [apply core_restarts, commit_shares_frame|].
  intros d3 [c out] _. by apply restarts_put.
Qed.

Lemma on_dkg_msg_round2_restarts nonce reason i t n ct sender :
  respects (restarts nonce reason) (on_dkg_msg_round2 i t n ct sender).
Proof.
  apply respects_get. intros d. destruct (negb (is_member i d)); [done|]. destruct (i =? my_frost_id d); [done|].
  destruct (state d) as [|s|s|s| |sk pk] eqn:Hs; try (apply respects_restarts; same_core_tac; fail).
  destruct (t =? my_frost_id d).
  - destruct (bool_decide _); [apply respects_restarts; same_core_tac|].
    apply (bind_rel (restarts _ _)).
    { unfold on_auth. destruct (validate_round2 _ _ _ _) as [c r]. by intros m. }
    intros d1 p _. eapply (respects_get (restarts _ _)). intros d2. destruct (state d2) as [|s2|s2|s2| |sk pk]; try done.
    apply (bind_rel (restarts _ _)); [by apply restarts_put|intros d3 [] _].
    apply (bind_rel (restarts _ _)); [apply respects_restarts, same_core_send_to|intros d4 [] _].
    apply (respects_whenM (restarts _ _)).
    apply respects_bind; [exact _|apply respects_restarts; same_core_tac|intros _].
    apply respects_bind; [exact _|apply respects_restarts; same_core_tac|intros _].
    by apply restarts_put.
  - destruct (negb (is_coordinator d)); [done|].
    apply (bind_rel (restarts _ _)); [apply respects_restarts; same_core_tac|intros d1 [] _].
    destruct (s2_out_round2 s !! (i, t)); [|done].
    apply (bind_rel (restarts _ _)); [by apply restarts_put|intros d3 [] _].
    apply respects_restarts; same_core_tac.
Qed.

Lemma on_dkg_msg_round3_restarts nonce reason i sg sender :
  respects (restarts nonce reason) (on_dkg_msg_round3 i sg sender).
Proof.
  apply respects_get. intros d. destruct (negb (is_member i d)); [done|]. destruct (i =? my_frost_id d); [done|].
  destruct (state d) as [|s|s|s| |sk pk] eqn:Hs; try (apply respects_restarts; same_core_tac; fail).
  destruct (bool_decide _); [apply respects_restarts; same_core_tac|].
  apply (bind_rel (restarts _ _)).
  { unfold on_auth. destruct (validate_round3 _ _ _) as [c r]. by intros m. }
  intros d1 [] _. eapply (respects_get (restarts _ _)). intros d2. destruct (state d2) as [|s2|s2|s2| |sk pk]; try done.
  apply (bind_rel (restarts _ _)); [by apply restarts_put|intros d3 [] _].
  apply (bind_rel (restarts _ _)); [apply respects_restarts, same_core_send_to|intros d4 [] _].
  apply (bind_rel (restarts _ _)); [|intros d5 [] _; apply respects_restarts; same_core_tac].
  apply (respects_whenM (restarts _ _)).
  do 3 (apply respects_bind; [exact _|apply respects_restarts; same_core_tac|intros _]).
  by apply restarts_put.
Qed.

Lemma transition_stage3_restarts nonce reason : respects (restarts nonce reason) transition_stage3_checked.
Proof.
  apply respects_get. intros d. destruct (state d) as [|s|s|s| |sk pk] eqn:Hs; try done.
  apply (bind_rel (restarts _ _)); [apply respects_restarts; same_core_tac|intros d1 [] _].
  destruct (negb _); [done|].
  apply (bind_rel (restarts _ _)); [apply respects_restarts; same_core_tac|intros d2 [] _].
  apply (bind_rel (restarts _ _)); [by apply restarts_put|intros d3 [] _].
  destruct (dkg_part3 _ _ _) as [[secret public]|]; [|done].
  apply (bind_rel (restarts _ _)).
  { unfold on_auth. destruct (channel_finalize _) as [c r]. by intros m. }
  intros d4 auth _. apply restarts_bind; [apply same_core_with_auth|intros d5 [v sg] _ _].
  apply restarts_bind; [same_core_tac|intros d6 [] _ _]. by apply restarts_put.
Qed.

Lemma transition_final_restarts nonce reason : respects (restarts nonce reason) transition_final_checked.
Proof.
  apply respects_get. intros d. destruct (state d) as [|s|s|s| |sk pk] eqn:Hs; try done.
  do 2 (apply (bind_rel (restarts _ _)); [apply respects_restarts; same_core_tac|intros ? [] _]).
  destruct (negb _); [done|].
  apply (bind_rel (restarts _ _)).
  { unfold on_auth. destruct (verification_finalize _) as [c r]. by intros m. }
  intros ? c _. apply restarts_bind; [same_core_tac|intros ? [] _ _].
  apply (bind_rel (restarts _ _)); [by apply restarts_put|intros ? [] _].
  apply respects_restarts, same_core_modify; done.
Qed.

(** Only the coordinator starts a session: when a payload puts a member
    into a session in which it was not before, the payload is a package of
    the first round from the coordinator, signed with the coordinator's
    static key for this session, the session is newer than every session
    before, the member is not the coordinator and has no key yet.  So old
    packages, replayed or forged, do not disturb a session. *)
Theorem restart_is_authenticated d p n :
  session (state (recv p d).1) = Some n → session (state d) ≠ Some n →
  ∃ sender initiator context eph signature package,
    p = mkPayload sender (my_frost_id d) (Round1 initiator context n eph signature package) ∧
    authentic_request d initiator n eph signature package.
Proof.
  unfold recv. unfold bindM at 1, get at 1. destruct p as [sender to m]. cbn [recipient msg p_sender].
  destruct (Z.eqb_spec to (my_frost_id d)) as [->|]; [|done]. cbn [negb]. intros Hn Hold.
  destruct m as [i c n' k sg p|i|i t n' ct|i t|i sg|i].
  1: { assert (restarts n' (authentic_request d i n' k sg p) d
         ((on_dkg_msg_round1 i c n' k sg p sender ;! transition_stage2_checked) d).1) as Hr.
       { apply (bind_rel (restarts _ _)); [apply on_dkg_msg_round1_restarts|].
         intros d1 [] _. apply transition_stage2_restarts. }
       destruct (Hr n Hn) as [|[-> Hreason]]; [done|]. by exists sender, i, c, k, sg, p. }
  all: exfalso; revert Hn; match goal with |- session (state (?m ?d0).1) = _ → False =>
    cut (respects (restarts 0 False) m); [intros Hr Hn; by destruct (Hr d0 _ Hn) as [|[_ []]]|] end.
  all: apply respects_bind; [exact _| |intros _]; auto using respects_restarts, same_core_ack1, same_core_ack2,
    same_core_ack3, transition_stage2_restarts, transition_stage3_restarts, transition_final_restarts,
    on_dkg_msg_round2_restarts, on_dkg_msg_round3_restarts.
Qed.

End restart.
