(* ===== verification/DkgRun.v ===== *)
(** * Timers and runs of the key generation

    What a member repeats until it is acknowledged, when it has to wake up,
    and runs of a federation of three members that end with a key; they
    witness the hypotheses of [DkgSafety]. *)

From S2P Require Import Prelude Bytes Bitcoin Codec DkgAuth Dkg DkgSafety.
From stdpp Require Import strings.

Open Scope Z_scope.

Section timers.
Context `{!DkgLib, !Profile}.

(** The packages that wait for an acknowledgement, with their timers. *)
Definition waiting {E} (timer : E → option Z) (payload : FrostId * FrostId → E → DkgPayload)
    (out : OutMap E) : list (option Z * DkgPayload) :=
  omap (λ e : (FrostId * FrostId) * option E, o ← e.2; Some (timer o, payload e.1 o)) (btree_iter2 out).

Definition unacknowledged (d : DkgStateMachine) : list (option Z * DkgPayload) :=
  match state d with
  | StRoundOne s =>
      waiting o1_timer (λ p e, mkPayload (my_frost_id d) p.2
        (Round1 p.1 (s1_context s) (s1_nonce s) (o1_ephemeral_pub e) (o1_signature e) (o1_package e)))
        (s1_out_round1 s)
  | StRoundTwo s =>
      waiting o2_timer (λ p e, mkPayload (my_frost_id d) (if is_coordinator d then p.2 else coordinator d)
        (Round2 p.1 p.2 (o2_ciphernonce e) (o2_ciphertext e))) (s2_out_round2 s)
  | StRoundThree s =>
      waiting o3_timer (λ p e, mkPayload (my_frost_id d) p.2 (Round3 p.1 (o3_signature e))) (s3_out_round3 s)
  | _ => []
  end.

(** The payloads whose timer has elapsed. *)
Definition due (now : Z) (l : list (option Z * DkgPayload)) : list DkgPayload :=
  (filter (λ e, elapsed now e.1 = true) l).*2.

Lemma set_queue_app l1 l2 d :
  set_queue (queue (set_queue l1 d) ++ l2) (set_queue l1 d) = set_queue (l1 ++ l2) d.
Proof. done. Qed.

Lemma set_queue_same d : set_queue (queue d) d = d.
Proof. by destruct d. Qed.

Lemma resend_spec {E : Type} (now : Z) (timer : E → option Z) (payload : FrostId * FrostId → E → FrostId * DkgMessage)
    (payload' : FrostId * FrostId → E → DkgPayload) (out : OutMap E) (d : DkgStateMachine) :
  (∀ p e, payload' p e = mkPayload (my_frost_id d) (payload p e).1 (payload p e).2) →
  resend now timer payload out d = (set_queue (queue d ++ due now (waiting timer payload' out)) d, Ok tt).
Proof.
  intros Hp. unfold resend, waiting, due. generalize (btree_iter2 out) as l.
  intros l. assert (∀ q, forM l (λ '(p, entry),
    match entry with
    | Some e => if elapsed now (timer e) then let '(to, m) := payload p e in send_to to m else ret tt
    | None => ret tt
    end) (set_queue q d) = (set_queue (q ++ due now (omap (λ e : (FrostId * FrostId) * option E,
      o ← e.2; Some (timer o, payload' e.1 o)) l)) d, Ok tt)) as Hl; [|specialize (Hl (queue d)); by rewrite set_queue_same in Hl].
  unfold due. induction l as [|[p [e|]] l IH]; intros q; cbn [forM omap list_omap fmap list_fmap].
  - by rewrite app_nil_r.
  - cbn [snd mbind option_bind fst]. rewrite filter_cons. cbn [fst].
    destruct (elapsed now (timer e)) eqn:He.
    + rewrite decide_True by done. cbn [fmap list_fmap snd].
      specialize (Hp p e). destruct (payload p e) as [to m]. rewrite Hp. cbn [fst snd].
      unfold bindM at 1, send_to at 1, modify at 1, push_payload.
      change (set_queue _ (set_queue q d)) with (set_queue (q ++ [mkPayload (my_frost_id d) to m]) d).
      rewrite IH, <-app_assoc. done.
    + rewrite decide_False by done. unfold bindM at 1, ret at 1. apply IH.
  - unfold bindM, ret. apply IH.
Qed.

(** Unacknowledged packages are repeated: unless the session has expired,
    a timer puts exactly the packages whose timer has elapsed and that no
    acknowledgement has removed into the queue, in the order of their keys,
    and changes nothing else. *)
Theorem on_timeout_resends now d :
  session_expired now d = false →
  on_timeout now d = (set_queue (queue d ++ due now (unacknowledged d)) d, Ok tt).
Proof.
  intros Hexp. unfold on_timeout, bindM at 1, get at 1. rewrite Hexp.
  unfold bindM at 1, ret at 1, bindM at 1, get at 1. unfold unacknowledged.
  destruct (state d) as [|s|s|s| |sk pk].
  1, 5, 6: by rewrite app_nil_r, set_queue_same.
  all: apply resend_spec; by intros [i t] e.
Qed.

Lemma min_opt_spec l :
  match min_opt l with
  | Some m => m ∈ l
  | None => l = []
  end.
Proof.
  destruct l as [|x l]; [done|]. cbn. revert x. induction l as [|y l IH]; intros x; cbn; [set_solver|].
  specialize (IH (Z.min x y)). apply elem_of_cons in IH as [->|IH]; [|set_solver].
  destruct (Z.min_spec x y) as [[_ ->]|[_ ->]]; set_solver.
Qed.

Lemma timers_spec {E : Type} (now : Z) (timer : E → option Z) (payload : FrostId * FrostId → E → DkgPayload)
    (out : OutMap E) :
  match timers now timer out with
  | Some t => 0 ≤ t ∧ ∃ e, e ∈ waiting timer payload out ∧ elapsed (now + t) e.1 = true
  | None => ∀ later e, e ∈ waiting timer payload out → elapsed later e.1 = false
  end.
Proof.
  unfold timers. pose proof (min_opt_spec (omap (λ e : (FrostId * FrostId) * option E,
    t ← (e.2 ≫= timer); Some (saturating_sub t now)) (btree_iter2 out))) as Hmin.
  destruct (min_opt _) as [t|].
  - apply list_elem_of_omap in Hmin as ([p [e|]] & Hin & He); [|done]. cbn in He.
    destruct (timer e) as [x|] eqn:Hx; [|done]. cbn in He. injection He as <-.
    unfold saturating_sub. split; [lia|]. exists (timer e, payload p e). split.
    + unfold waiting. apply list_elem_of_omap. by exists (p, Some e).
    + cbn. rewrite Hx. cbn. apply Z.leb_le. unfold MILLISECOND. lia.
  - intros later w Hw. unfold waiting in Hw. apply list_elem_of_omap in Hw as ([p [e|]] & Hin & He); [|done].
    cbn in He. injection He as <-. cbn. destruct (timer e) as [x|] eqn:Hx; [|done]. exfalso.
    assert (saturating_sub x now ∈ ([] : list Z)) as []%elem_of_nil. rewrite <-Hmin.
    apply list_elem_of_omap. exists (p, Some e). split; [done|]. cbn. by rewrite Hx.
Qed.

(** [timeout] says when to wake up: after the time it gives, the session
    has expired or a package is due to be repeated, and when it gives none,
    no timer of this state ever fires. *)
Theorem timeout_is_when_something_is_due now d :
  match timeout now d with
  | Some t => 0 ≤ t ∧ (session_expired (now + t) d = true ∨ due (now + t) (unacknowledged d) ≠ [])
  | None => ∀ later, session_expired later d = false ∧ due later (unacknowledged d) = []
  end.
Proof.
  assert (match (match state d with
     | StRoundOne s => timers now o1_timer (s1_out_round1 s)
     | StRoundTwo s => timers now o2_timer (s2_out_round2 s)
     | StRoundThree s => timers now o3_timer (s3_out_round3 s)
     | _ => None
     end) with
    | Some t => 0 ≤ t ∧ due (now + t) (unacknowledged d) ≠ []
    | None => ∀ later, due later (unacknowledged d) = []
    end) as Ht.
  { assert (∀ l r, match r with
      | Some t => 0 ≤ t ∧ ∃ e, e ∈ l ∧ elapsed (now + t) e.1 = true
      | None => ∀ later e, e ∈ l → elapsed later e.1 = false
      end → match r with
      | Some t => 0 ≤ t ∧ due (now + t) l ≠ []
      | None => ∀ later, due later l = []
      end) as Hdue.
    { intros l [t|]; unfold due.
      - intros (Ht & e & Hin & He). split; [done|]. intros Hnil. apply fmap_nil_inv in Hnil.
        assert (e ∈ filter (λ e, elapsed (now + t) e.1 = true) l) as Hf by (by apply list_elem_of_filter).
        rewrite Hnil in Hf. by apply elem_of_nil in Hf.
      - intros Hl later. destruct (filter _ l) as [|e l'] eqn:Hf; [done|].
        assert (e ∈ filter (λ e, elapsed later e.1 = true) l) as [He Hin]%list_elem_of_filter
          by (rewrite Hf; set_solver). by rewrite (Hl later e Hin) in He. }
    unfold unacknowledged. destruct (state d); try done; apply Hdue, timers_spec. }
  unfold timeout. destruct (match state d with StRoundOne _ => _ | _ => _ end) as [t|].
  - unfold session_expired.
    destruct (is_coordinator d && negb (bool_decide (stage d = Finalized))); [|naive_solver].
    destruct (pending_session_timeout (config d)) as [max|]; [|naive_solver].
    destruct (session_activated d) as [act|]; [|naive_solver].
    destruct Ht as [H0t Ht]. unfold saturating_sub.
    destruct (Z.min_spec t (Z.max 0 (act + max - now))) as [[_ ->]|[_ ->]]; [naive_solver|].
    split; [lia|]. left. apply Z.leb_le. lia.
  - unfold session_expired.
    destruct (is_coordinator d && negb (bool_decide (stage d = Finalized))); [|naive_solver].
    destruct (pending_session_timeout (config d)) as [max|]; [|naive_solver].
    destruct (session_activated d) as [act|]; [|naive_solver].
    unfold saturating_sub. split; [lia|]. left. apply Z.leb_le. lia.
Qed.

End timers.

(** ** Three members

    Member 1 coordinates; in each round every member hands over what it has
    to send, and all of it is delivered to everybody. *)

#[local] Existing Instances Toy.toy_dkg Toy.toy_laws.

Section network.
Context `{!Profile}.

Definition toy_config : Config := mkConfig 3 2 10 10 10 (Some 1000).

Definition toy_start (i : FrostId) : outcome DkgError DkgStateMachine :=
  dkg_new i (Toy.sec i) default_multisig_id 1 Toy.three toy_config (if i =? 1 then Some 5 else None) (100 * i).

Definition toy_idle : DkgStateMachine :=
  mkDkg toy_config 0 (Toy.sec 0) default_multisig_id 0 ∅ [] StAwaitingInit None None 0.

Definition toy_member (i : FrostId) : DkgStateMachine := default toy_idle (ok (toy_start i)).

Fixpoint drain (n : nat) (now : Z) (d : DkgStateMachine) : DkgStateMachine * list DkgPayload :=
  match n with
  | O => (d, [])
  | S n => match send now d with
           | (d, Ok (Some p)) => let '(d, l) := drain n now d in (d, p :: l)
           | (d, _) => (d, [])
           end
  end.

Definition deliver (ds : list DkgStateMachine) (p : DkgPayload) : list DkgStateMachine :=
  map (λ d, (recv p d).1) ds.

Fixpoint network (n : nat) (ds : list DkgStateMachine) : list DkgStateMachine :=
  match n with
  | O => ds
  | S n => let r := map (drain 50 (Z.of_nat n)) ds in network n (foldl deliver r.*1 (concat r.*2))
  end.

Definition toy_network (n : nat) : list DkgStateMachine := network n (toy_member <$> [1; 2; 3]).

Lemma drain_reachable n now d0 d : dkg_reachable d0 d → dkg_reachable d0 (drain n now d).1.
Proof.
  revert d. induction n as [|n IH]; intros d Hd; cbn [drain]; [done|].
  pose proof (dkg_continue d0 d (Send now) Hd) as Hs. cbn [dkg_step] in Hs. unfold bindM in Hs.
  destruct (send now d) as [d1 [[p|]|e|]]; [|done..]. cbn in Hs. specialize (IH d1 Hs).
  by destruct (drain n now d1).
Qed.

Lemma deliver_reachable ps ds0 ds :
  Forall2 dkg_reachable ds0 ds → Forall2 dkg_reachable ds0 (foldl deliver ds ps).
Proof.
  revert ds. induction ps as [|p ps IH]; intros ds Hds; [done|]. apply IH.
  apply Forall2_fmap_r. eapply Forall2_impl; [exact Hds|]. intros d0 d Hd. exact (dkg_continue d0 d (Recv p) Hd).
Qed.

Lemma network_reachable n ds0 ds :
  Forall2 dkg_reachable ds0 ds → Forall2 dkg_reachable ds0 (network n ds).
Proof.
  revert ds. induction n as [|n IH]; intros ds Hds; cbn [network]; [done|]. apply IH, deliver_reachable.
  apply Forall2_fmap_r, Forall2_fmap_r. eapply Forall2_impl; [exact Hds|]. intros d0 d. apply drain_reachable.
Qed.

Lemma toy_reachable n i d d0 :
  (toy_member <$> [1; 2; 3]) !! i = Some d0 → toy_network n !! i = Some d → dkg_reachable d0 d.
Proof.
  intros Hd0 Hd. assert (Forall2 dkg_reachable (toy_member <$> [1; 2; 3]) (toy_network n)) as Hall.
  { apply network_reachable. apply Forall_Forall2_diag, Forall_forall. intros x _. constructor. }
  by apply (Forall2_lookup_lr _ _ _ _ _ _ Hall Hd0 Hd).
Qed.

Definition toy_state (n i : nat) : DkgStateMachine := default toy_idle (toy_network n !! i).

End network.

(** All three end with the same public key, in both profiles. *)
Example three_members_agree (b : bool) :
  map (aggregate_key_packages (H:=Toy.toy_dkg)) (toy_network (H:=b) 20) =
  [Some ((1, 602), 602); Some ((2, 602), 602); Some ((3, 602), 602)].
Proof. destruct b; vm_compute; reflexivity. Qed.

(** *** The hypotheses of [DkgSafety] hold in this run *)

Section witnesses.
#[local] Instance release : Profile := false.

Lemma toy_start_1 : toy_start 1 = Ok (toy_member 1).
Proof. vm_cast_no_check (eq_refl (toy_start 1)). Qed.

Lemma toy_reaches n : dkg_reachable (toy_member 1) (toy_state n 0).
Proof.
  unfold toy_state. destruct (toy_network n !! 0%nat) as [d|] eqn:Hd.
  - exact (toy_reachable n 0 d _ eq_refl Hd).
  - exfalso. apply lookup_ge_None in Hd.
    assert (length (toy_network n) = 3%nat) as Hlen.
    { assert (Forall2 dkg_reachable (toy_member <$> [1; 2; 3]) (toy_network n)) as Hall.
      { apply network_reachable. apply Forall_Forall2_diag, Forall_forall. intros x _. constructor. }
      by rewrite <-(Forall2_length _ _ _ Hall). }
    lia.
Qed.

Lemma toy_final_key : aggregate_key_packages (toy_state 20 0) = Some ((1, 602), 602).
Proof. vm_cast_no_check (eq_refl (Some ((1, 602), 602))). Qed.

Lemma toy_size : (2 ≤ size Toy.three)%nat.
Proof. assert (size Toy.three = 3%nat) as -> by (vm_compute; reflexivity). lia. Qed.

Lemma finalized_key_is_confirmed_witness :
  dkg_reachable (toy_member 1) (toy_state 20 0) ∧
  aggregate_key_packages (toy_state 20 0) = Some ((1, 602), 602) ∧ confirmed 1 Toy.three (1, 602) 602.
Proof.
  split; [exact (toy_reaches 20)|]. split; [exact toy_final_key|].
  exact (finalized_key_is_confirmed 1 (Toy.sec 1) default_multisig_id 1 Toy.three toy_config (Some 5) 100 _ _ _ _
    toy_start_1 toy_size (toy_reaches 20) toy_final_key).
Defined.

Lemma recv_never_panics_witness :
  (recv (mkPayload 2 1 (AckRound1 1)) (toy_state 3 0)).2 ≠ Panic.
Proof.
  exact (recv_never_panics eq_refl 1 (Toy.sec 1) default_multisig_id 1 Toy.three toy_config (Some 5) 100 _ _ _
    toy_start_1 toy_size (toy_reaches 3)).
Defined.

(** A late acknowledgement and a timer after the end. *)
Definition toy_later : DkgStateMachine :=
  (dkg_step (Timeout 999) (dkg_step (Recv (mkPayload 2 1 (AckRound1 1))) (toy_state 20 0)).1).1.

Lemma final_key_is_irrevocable_witness : aggregate_key_packages toy_later = Some ((1, 602), 602).
Proof.
  apply (final_key_is_irrevocable (toy_state 20 0) toy_later (1, 602, 602) toy_final_key).
  apply dkg_continue, dkg_continue, dkg_start.
Defined.

(** The request with which the coordinator starts member 2. *)
Definition toy_request : DkgPayload :=
  match queue (toy_member 1) with p :: _ => p | [] => mkPayload 0 0 (AckRound1 0) end.

Lemma restart_is_authenticated_witness :
  ∃ sender initiator context eph signature package,
    toy_request = mkPayload sender 2 (Round1 initiator context 5 eph signature package) ∧
    authentic_request (toy_member 2) initiator 5 eph signature package.
Proof.
  assert (session (state (recv toy_request (toy_member 2)).1) = Some 5) as Hnew
    by (vm_cast_no_check (eq_refl (Some 5))).
  assert (session (state (toy_member 2)) ≠ Some 5) as Hold.
  { assert (session (state (toy_member 2)) = None) as -> by (vm_cast_no_check (eq_refl (None (A:=Z)))). discriminate. }
  exact (restart_is_authenticated (toy_member 2) toy_request 5 Hnew Hold).
Defined.

Lemma on_timeout_resends_witness :
  on_timeout 30 (drain 50 0 (toy_member 1)).1 =
  (set_queue (queue (drain 50 0 (toy_member 1)).1 ++
     due 30 (unacknowledged (drain 50 0 (toy_member 1)).1)) (drain 50 0 (toy_member 1)).1, Ok tt) ∧
  length (due 30 (unacknowledged (drain 50 0 (toy_member 1)).1)) = 2%nat.
Proof.
  split.
  - apply (on_timeout_resends 30 (drain 50 0 (toy_member 1)).1). vm_cast_no_check (eq_refl false).
  - vm_cast_no_check (eq_refl 2%nat).
Defined.

End witnesses.

Section debug_witness.
#[local] Existing Instance Toy.debug.

(** A repeated package of member 2, after the end. *)
Lemma late_round1_panics_witness :
  recv (mkPayload 2 (my_frost_id (toy_state 20 0)) (Round1 2 SESSION_CONTEXT 5 1 (1, []) 1)) (toy_state 20 0) =
  (toy_state 20 0, Panic).
Proof.
  assert (is_coordinator (toy_state 20 0) = true) as Hco by (vm_cast_no_check (eq_refl true)).
  assert (aggregate_key_packages (toy_state 20 0) = Some ((1, 602), 602)) as Hk
    by (vm_cast_no_check (eq_refl (Some ((1, 602), 602)))).
  assert (session_nonce (toy_state 20 0) = None) as Hn by (vm_cast_no_check (eq_refl (None (A:=Z)))).
  assert (is_member 2 (toy_state 20 0) = true) as Hm by (vm_cast_no_check (eq_refl true)).
  assert (my_frost_id (toy_state 20 0) = 1) as Hid by (vm_cast_no_check (eq_refl 1)).
  apply (late_round1_panics (toy_state 20 0) _ 2 2 5 1 (1, []) 1 eq_refl Hco Hk Hn Hm).
  rewrite Hid. discriminate.
Defined.

(** Packages of different members in the two rounds. *)
Definition toy_odd : StateRoundTwo :=
  mkS2 false (mkChannel [] 1 (Toy.sec 1) Toy.three ∅ ∅) (1, 0) {[ 2 := 20; 3 := 30 ]} {[ 2 := 20; 4 := 40 ]} ∅.

Lemma failed_part3_is_not_aborted_witness :
  stage (transition_stage3_checked (set_state (StRoundTwo toy_odd) (toy_member 1))).1 = RoundTwo.
Proof.
  assert (Dkg.members (set_state (StRoundTwo toy_odd) (toy_member 1)) = Toy.three) as Hm
    by (vm_cast_no_check (eq_refl Toy.three)).
  assert (round_complete (set_state (StRoundTwo toy_odd) (toy_member 1)) (s2_in_round2 toy_odd)
    (s2_out_round2 toy_odd) = true) as Hrc by (vm_cast_no_check (eq_refl true)).
  assert (size Toy.three = 3%nat) as Hsz by (vm_compute; reflexivity).
  assert (size (s2_in_round1 toy_odd) = 2%nat) as Hin1 by (vm_compute; reflexivity).
  assert (dkg_part3 (s2_secret_package toy_odd) (s2_in_round1 toy_odd) (s2_in_round2 toy_odd) = None) as Hp
    by (vm_compute; reflexivity).
  apply (failed_part3_is_not_aborted (set_state (StRoundTwo toy_odd) (toy_member 1)) toy_odd eq_refl Hrc);
    [by rewrite Hm, Hsz, Hin1|rewrite Hm, Hsz; lia|reflexivity|exact Hp].
Defined.

End debug_witness.
