(* ===== verification/Federation.v ===== *)
(** * The federation configuration

    src/crates/botanix-configs/src/federation.rs and hash.rs: the multisigs of
    the federation with their members, the checks a configuration has to pass,
    and the comparison of its hash.  Strings are their UTF-8 bytes.  The TOML
    parser, the parser of public keys and the resolver of socket addresses
    are parameters. *)

From S2P Require Import Prelude Bytes Bitcoin.

Open Scope Z_scope.

(** ** Data *)

Inductive FederationRole := Incoming | Continuing | Outgoing.

#[global] Instance FederationRole_eq_dec : EqDecision FederationRole.
Proof. solve_decision. Defined.

Record FedMemberPubKey := mkMember { key : bytes; socket_addr : bytes; role : FederationRole }.

Record MultisigConfig := mkMultisig {
  mc_multisig_id : MultisigId;
  mc_min_signers : Z;
  mc_max_signers : option Z;
  federation_member_public_key : list FedMemberPubKey }.

(** [unwrap_or(len as u16)] *)
Definition effective_max_signers (m : MultisigConfig) : Z :=
  default (Z.of_nat (length (federation_member_public_key m)) mod 2 ^ 16) (mc_max_signers m).

Record FederationTomlConfig := mkFederation {
  multisig : list MultisigConfig;
  botanix_fee_recipient : bytes;
  minting_contract_bytecode : bytes;
  lst_fee_receiver : bytes }.

(** The texts of [InvalidConfig] are told apart by what they report. *)
Inductive InvalidConfig :=
| MissingMultisigId (m : MultisigId)
| NumberOfMultisigs (n : nat)
| DuplicateMultisigId (m : MultisigId)
| TooFewMembers (m : MultisigId)
| MaxSignersMismatch (m : MultisigId) (max_signers : Z) (members : nat)
| MinSignersOutOfRange (m : MultisigId) (min_signers max_signers : Z)
| IncomingInCurrent (m : MultisigId)
| OutgoingInNext (m : MultisigId)
| ContinuingDiffer (current next : MultisigId)
| OutgoingRejoins.

Inductive FederationError :=
| ParseConfig
| InvalidPublicKeyFormat
| SocketAddressResolution
| FeInvalidConfig (c : InvalidConfig)
| MissingMultisigs.

(** ** Checks *)

Definition validate_signer_constraints (m : MultisigConfig) : outcome FederationError unit :=
  let member_count := length (federation_member_public_key m) in
  if (member_count <? 2)%nat then Err (FeInvalidConfig (TooFewMembers (mc_multisig_id m))) else
  let max_signers := effective_max_signers m in
  if negb (max_signers =? Z.of_nat member_count)
  then Err (FeInvalidConfig (MaxSignersMismatch (mc_multisig_id m) max_signers member_count)) else
  if (mc_min_signers m <? 2) || (max_signers <? mc_min_signers m)
  then Err (FeInvalidConfig (MinSignersOutOfRange (mc_multisig_id m) (mc_min_signers m) max_signers))
  else Ok tt.

Definition has_role (r : FederationRole) (x : FedMemberPubKey) : bool := bool_decide (role x = r).

Definition continuing_member_set (m : MultisigConfig) : gset (bytes * bytes) :=
  list_to_set (map (λ x, (key x, socket_addr x))
    (List.filter (has_role Continuing) (federation_member_public_key m))).

Definition member_key_set_by_role (m : MultisigConfig) (r : FederationRole) : gset bytes :=
  list_to_set (map key (List.filter (has_role r) (federation_member_public_key m))).

Definition validate_dynafed_roles (current next : MultisigConfig) : outcome FederationError unit :=
  if existsb (has_role Incoming) (federation_member_public_key current)
  then Err (FeInvalidConfig (IncomingInCurrent (mc_multisig_id current))) else
  if existsb (has_role Outgoing) (federation_member_public_key next)
  then Err (FeInvalidConfig (OutgoingInNext (mc_multisig_id next))) else
  if negb (bool_decide (continuing_member_set current = continuing_member_set next))
  then Err (FeInvalidConfig (ContinuingDiffer (mc_multisig_id current) (mc_multisig_id next))) else
  if negb (bool_decide (member_key_set_by_role current Outgoing ##
                        member_key_set_by_role next Incoming))
  then Err (FeInvalidConfig OutgoingRejoins)
  else Ok tt.

(** The loop that looks for duplicate ids and checks the signers; [seen_ids]
    is its [BTreeSet]. *)
Fixpoint validate_multisigs (seen_ids : list MultisigId) (ms : list MultisigConfig)
    : outcome FederationError unit :=
  match ms with
  | [] => Ok tt
  | m :: ms' =>
      if contains seen_ids (mc_multisig_id m)
      then Err (FeInvalidConfig (DuplicateMultisigId (mc_multisig_id m))) else
      validate_signer_constraints m ;?
      validate_multisigs (mc_multisig_id m :: seen_ids) ms'
  end.

Definition validate (c : FederationTomlConfig) : outcome FederationError unit :=
  if bool_decide (multisig c = []) then Err MissingMultisigs else
  if (2 <? length (multisig c))%nat
  then Err (FeInvalidConfig (NumberOfMultisigs (length (multisig c)))) else
  validate_multisigs [] (multisig c) ;?
  match sort_by (λ a b, as_u32 (mc_multisig_id a) <=? as_u32 (mc_multisig_id b)) (multisig c) with
  | [current; next] => validate_dynafed_roles current next
  | _ => Ok tt
  end.

Definition finalize (c : FederationTomlConfig) : outcome FederationError unit := validate c.

Definition federation_new (ms : list MultisigConfig) (fee_recipient bytecode lst : bytes)
    : outcome FederationError FederationTomlConfig :=
  let config := mkFederation ms fee_recipient bytecode lst in
  finalize config ;? Ok config.

(** ** Lookups *)

Definition get_config_by_multisig_id (c : FederationTomlConfig) (m : MultisigId)
    : option MultisigConfig :=
  snd <$> list_find (λ x, mc_multisig_id x = m) (multisig c).

Definition select_multisig (c : FederationTomlConfig) (m : MultisigId)
    : outcome FederationError MultisigConfig :=
  if bool_decide (multisig c = []) then Err MissingMultisigs else
  ok_or (get_config_by_multisig_id c m) (FeInvalidConfig (MissingMultisigId m)).

Class ConfigLib := {
  (** [toml::from_str] *)
  toml_parse : bytes → option FederationTomlConfig;
  (** [secp256k1::PublicKey::from_str] as the compressed key *)
  parse_public_key : bytes → option bytes;
  (** [parse::<SocketAddr>()], and the first address that [to_socket_addrs]
      resolves to *)
  parse_socket_addr : bytes → option bytes;
  resolve_socket_addr : bytes → option bytes;
  (** the hash of a text as lower-case hexadecimal digits *)
  sha256_hex : bytes → bytes }.

Section config.
Context `{!ConfigLib}.

(** [FromStr] *)
Definition federation_from_str (s : bytes) : outcome FederationError FederationTomlConfig :=
  let? config := ok_or (toml_parse s) ParseConfig in
  finalize config ;? Ok config.

Definition get_federation_pks_for_multisig (c : FederationTomlConfig) (m : MultisigId)
    : outcome FederationError (list (bytes * bytes)) :=
  let? multisig := select_multisig c m in
  omap_all (λ member,
    let? public_key := ok_or (parse_public_key (key member)) InvalidPublicKeyFormat in
    let? soc_addr :=
      match parse_socket_addr (socket_addr member) with
      | Some addr => Ok addr
      | None => ok_or (resolve_socket_addr (socket_addr member)) SocketAddressResolution
      end in
    Ok (public_key, soc_addr)) (federation_member_public_key multisig).

(** ** The hash of the configuration *)

Inductive ConfigHashError := EmptyHash | HashMismatch (expected found : bytes).

(** [char::to_ascii_lowercase], [str::trim] on ASCII white space, and
    [trim_start_matches("0x")]. *)
Definition ascii_lower (b : Z) : Z := if (65 <=? b) && (b <=? 90) then b + 32 else b.

Definition is_space (b : Z) : bool := (b =? 32) || ((9 <=? b) && (b <=? 13)).

Fixpoint trim_start (s : bytes) : bytes :=
  match s with
  | [] => []
  | b :: s' => if is_space b then trim_start s' else s
  end.

Definition trim (s : bytes) : bytes := reverse (trim_start (reverse (trim_start s))).

Fixpoint trim_0x (s : bytes) : bytes :=
  match s with
  | 48 :: 120 :: s' => trim_0x s'
  | _ => s
  end.

Definition normalize_hash (value : bytes) : bytes := trim_0x (map ascii_lower (trim value)).

Definition compute_config_hash (raw : bytes) : bytes := sha256_hex raw.

Definition verify_config_hash (raw expected_hash : bytes) : outcome ConfigHashError unit :=
  let normalized_expected := normalize_hash expected_hash in
  if bool_decide (normalized_expected = []) then Err EmptyHash else
  let computed := compute_config_hash raw in
  if negb (bool_decide (normalized_expected = computed))
  then Err (HashMismatch normalized_expected computed)
  else Ok tt.

End config.

(** ** What the checks establish *)

Definition signers_ok (m : MultisigConfig) : Prop :=
  let n := Z.of_nat (length (federation_member_public_key m)) in
  2 ≤ n ∧ effective_max_signers m = n ∧ 2 ≤ mc_min_signers m ≤ n.

(** A transition from [current] to [next]: members that stay are listed with
    the same key and address in both, nobody joins the old federation or
    leaves the new one, and nobody who leaves joins again. *)
Record transition_ok (current next : MultisigConfig) : Prop := {
  no_incoming x : x ∈ federation_member_public_key current → role x ≠ Incoming;
  no_outgoing x : x ∈ federation_member_public_key next → role x ≠ Outgoing;
  same_continuing k a :
    (∃ x, x ∈ federation_member_public_key current ∧ role x = Continuing ∧ key x = k ∧ socket_addr x = a) ↔
    (∃ x, x ∈ federation_member_public_key next ∧ role x = Continuing ∧ key x = k ∧ socket_addr x = a);
  no_rejoin x y : x ∈ federation_member_public_key current → role x = Outgoing →
    y ∈ federation_member_public_key next → role y = Incoming → key x ≠ key y }.

Record valid_federation (c : FederationTomlConfig) : Prop := {
  vf_count : (1 ≤ length (multisig c) ≤ 2)%nat;
  vf_ids : NoDup (map mc_multisig_id (multisig c));
  vf_signers : Forall signers_ok (multisig c);
  vf_transition current next :
    current ∈ multisig c → next ∈ multisig c →
    as_u32 (mc_multisig_id current) < as_u32 (mc_multisig_id next) → transition_ok current next }.

Lemma validate_signer_constraints_iff m :
  validate_signer_constraints m = Ok tt ↔ signers_ok m.
Proof.
  unfold validate_signer_constraints, signers_ok.
  destruct (Nat.ltb_spec (length (federation_member_public_key m)) 2); [split; [done|lia]|].
  destruct (Z.eqb_spec (effective_max_signers m) (Z.of_nat (length (federation_member_public_key m)))) as [->|];
    cbn [negb]; [|split; [done|lia]].
  destruct (Z.ltb_spec (mc_min_signers m) 2); cbn [orb]; [split; [done|lia]|].
  destruct (Z.ltb_spec (Z.of_nat (length (federation_member_public_key m))) (mc_min_signers m));
    split; try done; lia.
Qed.

Lemma has_role_elem r x l : x ∈ List.filter (has_role r) l ↔ x ∈ l ∧ role x = r.
Proof. rewrite !list_elem_of_In, filter_In. unfold has_role. by rewrite bool_decide_eq_true. Qed.

Lemma existsb_role r l : existsb (has_role r) l = false ↔ ∀ x, x ∈ l → role x ≠ r.
Proof.
  rewrite <-not_true_iff_false, existsb_exists. unfold has_role.
  setoid_rewrite bool_decide_eq_true. setoid_rewrite <-list_elem_of_In. naive_solver.
Qed.

Lemma elem_of_continuing m k a :
  (k, a) ∈ continuing_member_set m ↔
  ∃ x, x ∈ federation_member_public_key m ∧ role x = Continuing ∧ key x = k ∧ socket_addr x = a.
Proof.
  unfold continuing_member_set. rewrite elem_of_list_to_set, list_elem_of_fmap.
  setoid_rewrite has_role_elem. naive_solver.
Qed.

Lemma elem_of_keys_by_role m r k :
  k ∈ member_key_set_by_role m r ↔
  ∃ x, x ∈ federation_member_public_key m ∧ role x = r ∧ key x = k.
Proof.
  unfold member_key_set_by_role. rewrite elem_of_list_to_set, list_elem_of_fmap.
  setoid_rewrite has_role_elem. naive_solver.
Qed.

Lemma validate_dynafed_roles_iff current next :
  validate_dynafed_roles current next = Ok tt ↔ transition_ok current next.
Proof.
  unfold validate_dynafed_roles.
  destruct (existsb (has_role Incoming) _) eqn:Hin.
  { split; [done|]. intros [Hi _ _ _]. apply existsb_role in Hi. congruence. }
  destruct (existsb (has_role Outgoing) (federation_member_public_key next)) eqn:Hout.
  { split; [done|]. intros [_ Ho _ _]. apply existsb_role in Ho. congruence. }
  case_bool_decide as Hc; cbn [negb].
  2:{ split; [done|]. intros [_ _ Hs _]. destruct Hc. apply set_eq. intros [k a].
      by rewrite !elem_of_continuing. }
  case_bool_decide as Hd; cbn [negb].
  2:{ split; [done|]. intros [_ _ _ Hr]. destruct Hd. intros k.
      rewrite !elem_of_keys_by_role. intros (x & Hx & Hrx & <-) (y & Hy & Hry & Hk).
      by apply (Hr x y). }
  split; [intros _|done]. split.
  - by apply existsb_role.
  - by apply existsb_role.
  - intros k a. rewrite <-!elem_of_continuing. by rewrite Hc.
  - intros x y Hx Hrx Hy Hry Hk. apply (Hd (key x)); rewrite elem_of_keys_by_role; eauto.
Qed.

Lemma oseq_Ok {E B} (m : outcome E unit) (k : outcome E B) b :
  (m ;? k) = Ok b ↔ m = Ok tt ∧ k = Ok b.
Proof. rewrite obind_Ok. split; [intros ([] & ? & ?)|]; eauto. Qed.

Lemma validate_multisigs_iff seen ms :
  validate_multisigs seen ms = Ok tt ↔
  NoDup (map mc_multisig_id ms) ∧ (∀ m, m ∈ ms → mc_multisig_id m ∉ seen) ∧ Forall signers_ok ms.
Proof.
  revert seen. induction ms as [|m ms IH]; intros seen; cbn [validate_multisigs map].
  { split; [|done]. intros _. split; [constructor|]. split; [set_solver|constructor]. }
  destruct (contains seen _) eqn:Hs.
  { split; [done|]. intros (_ & Hn & _). apply contains_true in Hs. by destruct (Hn m ltac:(set_solver)). }
  apply contains_false in Hs. rewrite oseq_Ok, IH.
  rewrite NoDup_cons, Forall_cons, <-validate_signer_constraints_iff.
  change (mc_multisig_id m ∉ map mc_multisig_id ms) with (mc_multisig_id m ∉ mc_multisig_id <$> ms).
  rewrite list_elem_of_fmap. split.
  - intros (Hv & Hnd & Hseen & Hall). split; [|split; [|done]].
    + split; [|done]. intros (m' & Heq & Hm'). specialize (Hseen m' Hm'). set_solver.
    + intros m' [->|Hm']%elem_of_cons; [done|]. specialize (Hseen m' Hm'). set_solver.
  - intros ([Hnot Hnd] & Hseen & Hv & Hall). split; [done|]. split; [done|]. split; [|done].
    intros m' Hm' [Heq|Hin]%elem_of_cons; [apply Hnot; eauto|]. by apply (Hseen m' ltac:(set_solver)).
Qed.

Lemma distinct_ids a b :
  NoDup (map mc_multisig_id [a; b]) → as_u32 (mc_multisig_id a) ≠ as_u32 (mc_multisig_id b).
Proof.
  intros [Hn _]%NoDup_cons He. apply Hn. simpl.
  destruct (mc_multisig_id a), (mc_multisig_id b). simpl in He. subst. by apply elem_of_cons; left.
Qed.

(** C34.  A configuration is accepted exactly when it is well-formed: one or two
    multisigs with different ids, in each at least two members, as many
    signers as members and a threshold between two and that number, and, when
    there are two, a lawful transition from the one with the smaller id to
    the other. *)
Theorem validate_federation_spec c : validate c = Ok tt ↔ valid_federation c.
Proof.
  unfold validate. case_bool_decide as Hnil.
  { split; [done|]. intros [Hc _ _ _]. rewrite Hnil in Hc. simpl in Hc. lia. }
  destruct (Nat.ltb_spec 2 (length (multisig c))) as [H2|H2].
  { split; [done|]. intros [Hc _ _ _]. lia. }
  rewrite oseq_Ok, validate_multisigs_iff.
  destruct (multisig c) as [|a [|b [|? ?]]] eqn:Hms; [done| | |simpl in H2; lia]; cbn [sort_by foldr insert_by].
  - split.
    + intros ((Hnd & _ & Hall) & _). split; rewrite ?Hms; try solve [done | simpl; lia].
      intros x y Hx Hy. apply list_elem_of_singleton in Hx as ->. apply list_elem_of_singleton in Hy as ->. lia.
    + intros [_ Hnd Hall _]. rewrite Hms in *. split; [|done]. split; [done|]. split; [set_solver|done].
  - assert (∀ x y, transition_ok x y → x ∈ [a; b] → y ∈ [a; b] →
              as_u32 (mc_multisig_id x) < as_u32 (mc_multisig_id y) →
              ∀ x' y', x' ∈ [a; b] → y' ∈ [a; b] →
              as_u32 (mc_multisig_id x') < as_u32 (mc_multisig_id y') → transition_ok x' y') as Hpair.
    { intros x y Ht Hx Hy Hlt x' y' Hx' Hy' Hlt'.
      assert (x' = x ∧ y' = y) as [-> ->]; [|done].
      set_unfold in Hx. set_unfold in Hy. set_unfold in Hx'. set_unfold in Hy'.
      destruct Hx as [->|[->|[]]], Hy as [->|[->|[]]], Hx' as [->|[->|[]]], Hy' as [->|[->|[]]];
        try (split; done); exfalso; lia. }
    split.
    + intros ((Hnd & _ & Hall) & Ht). split; rewrite ?Hms; try solve [done | simpl; lia].
      pose proof (distinct_ids a b Hnd) as Hne.
      destruct (Z.leb_spec (as_u32 (mc_multisig_id a)) (as_u32 (mc_multisig_id b)));
        apply validate_dynafed_roles_iff in Ht; eapply Hpair; try exact Ht; try set_solver; lia.
    + intros [_ Hnd Hall Htr]. rewrite Hms in *. split; [split; [done|]; split; [set_solver|done]|].
      pose proof (distinct_ids a b Hnd) as Hne.
      destruct (Z.leb_spec (as_u32 (mc_multisig_id a)) (as_u32 (mc_multisig_id b)));
        apply validate_dynafed_roles_iff, Htr; try set_solver; lia.
Qed.

(** After validation an id names one multisig. *)
Lemma get_config_unique c m x :
  NoDup (map mc_multisig_id (multisig c)) →
  get_config_by_multisig_id c m = Some x ↔ x ∈ multisig c ∧ mc_multisig_id x = m.
Proof.
  intros Hnd. unfold get_config_by_multisig_id. split.
  - intros Hf. apply fmap_Some in Hf as ([i y] & Hf & ->). cbn [snd].
    apply list_find_Some in Hf as (Hi & Hm & _). split; [|done]. by eapply list_elem_of_lookup_2.
  - intros [Hx Hm]. destruct (list_find_elem_of (λ x, mc_multisig_id x = m) (multisig c) x Hx Hm) as [[i y] Hf].
    rewrite Hf. cbn. f_equal. apply list_find_Some in Hf as (Hi & Hy & _).
    apply list_elem_of_lookup in Hx as [j Hj].
    assert (i = j) as ->; [|congruence].
    eapply (NoDup_lookup (mc_multisig_id <$> multisig c)); [exact Hnd| |].
    + rewrite list_lookup_fmap, Hi. reflexivity.
    + rewrite list_lookup_fmap, Hj. cbn. by rewrite Hm, Hy.
Qed.

(** ** The hash in other notations *)

Definition is_hex_digit (b : Z) : Prop := 48 ≤ b ≤ 57 ∨ 97 ≤ b ≤ 102.
Definition ascii_upper (b : Z) : Z := if (97 <=? b) && (b <=? 122) then b - 32 else b.

Lemma trim_start_spaces p s : Forall (λ b, is_space b = true) p → trim_start (p ++ s) = trim_start s.
Proof. induction 1 as [|b p Hb _ IH]; [done|]. cbn. by rewrite Hb. Qed.

Lemma trim_start_id s : (∀ b s', s = b :: s' → is_space b = false) → trim_start s = s.
Proof. destruct s as [|b s]; [done|]. intros Hb. cbn. by rewrite (Hb b s). Qed.

Lemma trim_padded p q s :
  Forall (λ b, is_space b = true) p → Forall (λ b, is_space b = true) q →
  Forall (λ b, is_space b = false) s → trim (p ++ s ++ q) = s.
Proof.
  intros Hp Hq Hs. unfold trim. rewrite trim_start_spaces by done.
  destruct (decide (s = [])) as [->|Hne].
  { cbn [app]. rewrite <-(app_nil_r q), trim_start_spaces by done. done. }
  rewrite (trim_start_id (s ++ q)).
  2:{ intros b s' He. destruct s as [|b' s]; [done|]. injection He as -> _. by apply Forall_cons in Hs as [? _]. }
  rewrite reverse_app, trim_start_spaces by (by apply Forall_reverse).
  rewrite trim_start_id; [by apply reverse_involutive|]. intros b s' He.
  apply Forall_reverse in Hs. rewrite He in Hs. by apply Forall_cons in Hs as [? _].
Qed.

Lemma hex_upper_lower b : is_hex_digit b → ascii_lower (ascii_upper b) = b ∧ is_space (ascii_upper b) = false.
Proof. unfold is_hex_digit, ascii_lower, ascii_upper, is_space. intros Hb. repeat case_match; lia. Qed.

Lemma trim_0x_digits s : Forall is_hex_digit s → trim_0x s = s.
Proof.
  intros Hs. destruct s as [|a [|b s]]; [done| |].
  - apply Forall_cons in Hs as [Ha _]. unfold is_hex_digit in Ha. cbn. repeat case_match; try done; lia.
  - apply Forall_cons in Hs as [Ha [Hb _]%Forall_cons]. unfold is_hex_digit in Hb.
    destruct (decide (b = 120)); [lia|]. cbn. repeat case_match; subst; done || lia.
Qed.

Class ConfigLaws `{!ConfigLib} : Prop := {
  sha256_hex_digits s : sha256_hex s ≠ [] ∧ Forall is_hex_digit (sha256_hex s) }.

(** The expected hash may be written in upper case, with a leading [0x] and
    with white space around it; no other text is accepted as the hash of the
    configuration. *)
Theorem config_hash_any_notation `{!ConfigLib, !ConfigLaws} raw p q :
  Forall (λ b, is_space b = true) p → Forall (λ b, is_space b = true) q →
  verify_config_hash raw (p ++ [48; 120] ++ map ascii_upper (sha256_hex raw) ++ q) = Ok tt ∧
  ∀ e, verify_config_hash raw e = Ok tt → normalize_hash e = sha256_hex raw.
Proof.
  intros Hp Hq. destruct (sha256_hex_digits raw) as [Hne Hd]. split.
  - unfold verify_config_hash, compute_config_hash.
    assert (normalize_hash (p ++ [48; 120] ++ map ascii_upper (sha256_hex raw) ++ q) = sha256_hex raw) as ->.
    { unfold normalize_hash. rewrite app_assoc with (n := q), trim_padded; [|done..|].
      - rewrite map_app, map_map. cbn [map app trim_0x ascii_lower]. cbn -[map trim_0x].
        rewrite (map_ext_in _ id), map_id.
        + by apply trim_0x_digits.
        + intros b Hb. apply list_elem_of_In in Hb. rewrite Forall_forall in Hd. apply hex_upper_lower. auto.
      - apply Forall_app. split; [by repeat constructor|]. rewrite Forall_map.
        eapply Forall_impl; [exact Hd|]. intros b Hb. by apply hex_upper_lower. }
    rewrite bool_decide_eq_false_2 by done. by rewrite bool_decide_eq_true_2.
  - intros e. unfold verify_config_hash, compute_config_hash.
    case_bool_decide; [done|]. case_bool_decide; by cbn.
Qed.

(** ** A concrete instance *)

#[export] Instance toy_config : ConfigLib := {
  toml_parse _ := None;
  parse_public_key b := Some b;
  parse_socket_addr b := Some b;
  resolve_socket_addr _ := None;
  sha256_hex b := [48 + sumZ b mod 10; 97] }.

#[export] Instance toy_config_laws : ConfigLaws.
Proof.
  split. intros s. split; [done|].
  change (Forall is_hex_digit [48 + sumZ s mod 10; 97]).
  pose proof (Z.mod_pos_bound (sumZ s) 10 ltac:(lia)).
  repeat constructor; unfold is_hex_digit; lia.
Qed.

Lemma config_hash_any_notation_witness :
  verify_config_hash [1; 2] [32; 48; 120; 51; 65; 10] = Ok tt.
Proof.
  refine (proj1 (config_hash_any_notation [1; 2] [32] [10] _ _)); repeat constructor.
Defined.
