(* ===== verification/Jwt.v ===== *)
(** * Authentication tokens

    src/bin/botanix-btc-server/client/src/jwt.rs: the secret that client and
    server share and the tokens signed with it.  The library that encodes and
    decodes tokens, and the hex codec, are parameters; texts are their UTF-8
    bytes, and a secret file is an ASCII text. *)

From S2P Require Import Prelude Bytes Federation.

Open Scope Z_scope.

Record Claims := mkClaims { iat : Z; exp : option Z }.

Inductive JwtError :=
| JwtSecretHexDecodeError
| InvalidLength (expected found : nat)
| UnsupportedSignatureAlgorithm
| InvalidSignature
| InvalidIssuanceTimestamp
| JwtDecodingError.

(** The errors of the library that are told apart. *)
Inductive JwtErrorKind := KindInvalidSignature | KindInvalidAlgorithm | KindOther.

Abbreviation JwtSecret := bytes.

Class JwtLib := {
  (** [decode::<Claims>] with an HS256 validation that requires [iat]; the
      number is the time at which it looks at [exp] *)
  jwt_decode : JwtSecret → bytes → Z → outcome JwtErrorKind Claims;
  (** [jsonwebtoken::encode] with an HS256 header *)
  jwt_encode : JwtSecret → Claims → option bytes;
  hex_decode : bytes → option bytes;
  hex_encode : bytes → bytes }.

Class JwtLaws `{!JwtLib} : Prop := {
  (** a token is decoded with the secret it was signed with, as long as it has
      not expired *)
  jwt_roundtrip s c b now : jwt_encode s c = Some b → exp c = None → jwt_decode s b now = Ok c;
  (** lower-case digits, two for each byte *)
  hex_roundtrip b : Forall is_u8 b → hex_decode (hex_encode b) = Some b;
  hex_digits b : Forall is_hex_digit (hex_encode b);
  hex_length b : length (hex_encode b) = (2 * length b)%nat;
  hex_decode_length b d : hex_decode b = Some d → length b = (2 * length d)%nat }.

Section jwt.
Context `{!JwtLib}.

(** The number of digits of a secret. *)
Definition JWT_SECRET_LEN : nat := 64.

Definition JWT_MAX_IAT_DIFF : Z := 60.

Definition with_current_timestamp (now : Z) : Claims := mkClaims now None.

(** [now_secs.abs_diff(self.iat) <= 60] *)
Definition is_within_time_window (now_secs : Z) (c : Claims) : bool :=
  Z.abs (now_secs - iat c) <=? JWT_MAX_IAT_DIFF.

Definition from_hex (hex : bytes) : outcome JwtError JwtSecret :=
  let hex := trim_0x (trim hex) in
  if negb (length hex =? JWT_SECRET_LEN)%nat then Err (InvalidLength JWT_SECRET_LEN (length hex)) else
  let? hex_bytes := ok_or (hex_decode hex) JwtSecretHexDecodeError in
  if (length hex_bytes =? 32)%nat then Ok hex_bytes else Panic.

(** The clock is read twice, by the library and for the time window. *)
Definition validate_token (s : JwtSecret) (jwt : bytes) (now now' : Z) : outcome JwtError unit :=
  match jwt_decode s jwt now with
  | Ok claims => if negb (is_within_time_window now' claims) then Err InvalidIssuanceTimestamp else Ok tt
  | Err KindInvalidSignature => Err InvalidSignature
  | Err KindInvalidAlgorithm => Err UnsupportedSignatureAlgorithm
  | Err KindOther => Err JwtDecodingError
  | Panic => Panic
  end.

(** [JwtSecret::random]; the argument is the 32 random bytes. *)
Definition random_secret (random_bytes : bytes) : outcome JwtError JwtSecret :=
  expect (ok (from_hex (hex_encode random_bytes))).

Definition encode_claims (s : JwtSecret) (c : Claims) : option bytes := jwt_encode s c.

Context `{!JwtLaws}.

Lemma trim_digits s : Forall is_hex_digit s → trim_0x (trim s) = s.
Proof.
  intros Hs. assert (trim s = s) as ->; [|by apply trim_0x_digits].
  pose proof (trim_padded [] [] s) as Ht. cbn [app] in Ht. rewrite app_nil_r in Ht. apply Ht; [constructor..|].
  eapply Forall_impl; [exact Hs|]. unfold is_hex_digit, is_space. lia.
Qed.

(** A secret survives being written to a file and read again, and loading a
    file never panics. *)
Theorem jwt_secret_roundtrip s t :
  is_array 32 s →
  from_hex (hex_encode s) = Ok s ∧ random_secret s = Ok s ∧ from_hex t ≠ Panic.
Proof.
  intros [Hs Hu]. assert (from_hex (hex_encode s) = Ok s) as Hr.
  { unfold from_hex. rewrite trim_digits by apply hex_digits.
    rewrite hex_length, Hs. cbn. rewrite hex_roundtrip by done. cbn. by rewrite Hs. }
  split; [done|]. split; [unfold random_secret; by rewrite Hr|].
  unfold from_hex. destruct (Nat.eqb_spec (length (trim_0x (trim t))) JWT_SECRET_LEN) as [Hl|]; [|done].
  cbn [negb]. destruct (hex_decode _) as [b|] eqn:Hd; cbn; [|done].
  apply hex_decode_length in Hd. unfold JWT_SECRET_LEN in Hl.
  destruct (Nat.eqb_spec (length b) 32); [done|lia].
Qed.

(** The token a client creates is accepted for a minute around its creation
    and rejected at any other time. *)
Theorem token_valid_one_minute s b created now now' :
  encode_claims s (with_current_timestamp created) = Some b →
  validate_token s b now now' =
    if decide (Z.abs (now' - created) ≤ 60) then Ok tt else Err InvalidIssuanceTimestamp.
Proof.
  intros Hb. unfold validate_token. rewrite (jwt_roundtrip _ _ _ now Hb eq_refl).
  unfold is_within_time_window, JWT_MAX_IAT_DIFF. cbn [iat with_current_timestamp].
  destruct (Z.leb_spec (Z.abs (now' - created)) 60); case_decide; cbn; done || lia.
Qed.

End jwt.

(** ** A concrete instance

    Two digits for each byte; a token is the secret followed by the time. *)

Definition toy_digit (n : Z) : Z := if n <? 10 then 48 + n else 87 + n.
Definition toy_value (b : Z) : Z := if b <? 58 then b - 48 else b - 87.

Fixpoint toy_hex_encode (b : bytes) : bytes :=
  match b with
  | [] => []
  | x :: b' => toy_digit (x / 16 mod 16) :: toy_digit (x mod 16) :: toy_hex_encode b'
  end.

Fixpoint toy_hex_decode (b : bytes) : option bytes :=
  match b with
  | [] => Some []
  | x :: y :: b' => d ← toy_hex_decode b'; Some (16 * toy_value x + toy_value y :: d)
  | _ => None
  end.

#[export] Instance toy_jwt : JwtLib := {
  jwt_decode s b _ := match b with
                      | t :: s' => if decide (s' = s) then Ok (mkClaims t None) else Err KindInvalidSignature
                      | [] => Err KindOther
                      end;
  jwt_encode s c := Some (iat c :: s);
  hex_decode := toy_hex_decode;
  hex_encode := toy_hex_encode }.

Lemma toy_value_digit n : 0 ≤ n < 16 → toy_value (toy_digit n) = n.
Proof. unfold toy_value, toy_digit. intros Hn. repeat case_match; lia. Qed.

#[export] Instance toy_jwt_laws : JwtLaws.
Proof.
  split.
  - intros s [t e] b now [= <-]. simpl. intros ->. by rewrite decide_True.
  - induction 1 as [|x b Hx _ IH]; [done|]. cbn in *. rewrite IH. cbn.
    unfold is_u8, u8_max in Hx. rewrite !toy_value_digit by (apply Z.mod_pos_bound; lia).
    rewrite (Z.mod_small (x / 16) 16) by (split; [apply Z.div_pos; lia|apply Z.div_lt_upper_bound; lia]).
    f_equal. f_equal. pose proof (Z.div_mod x 16). lia.
  - induction b as [|x b IH]; [by constructor|]. cbn in *.
    assert (∀ n, 0 ≤ n < 16 → is_hex_digit (toy_digit n)) as Hd.
    { intros n Hn. unfold is_hex_digit, toy_digit. case_match; lia. }
    constructor; [apply Hd, Z.mod_pos_bound; lia|]. constructor; [apply Hd, Z.mod_pos_bound; lia|done].
  - induction b as [|x b IH]; [done|]. cbn in *. rewrite IH. lia.
  - cbn. fix IH 1. intros [|x [|y b]] d; [by intros [= <-]|done|]. cbn.
    destruct (toy_hex_decode b) as [d'|] eqn:Hd; [|done]. intros [= <-]. cbn. rewrite (IH b d' Hd). lia.
Qed.

Lemma jwt_secret_roundtrip_witness :
  is_array 32 (replicate 32 200) ∧ from_hex (hex_encode (replicate 32 200)) = Ok (replicate 32 200).
Proof.
  assert (is_array 32 (replicate 32 200)) as Ha.
  { split; [done|]. apply Forall_replicate. unfold is_u8, u8_max. lia. }
  split; [exact Ha|]. exact (proj1 (jwt_secret_roundtrip (replicate 32 200) [] Ha)).
Defined.

Lemma token_valid_one_minute_witness :
  validate_token [7] [1000; 7] 1050 1050 = Ok tt.
Proof. exact (token_valid_one_minute [7] [1000; 7] 1000 1050 1050 eq_refl). Defined.
