(* ===== verification/Rpc.v ===== *)
(** * The messages of the btc-server

    The conversions between the stored records and the messages of the gRPC
    interface: src/bin/botanix-btc-server/src/rpc/type_extensions.rs, the
    conversions of database/mod.rs and pegout_scheduler/mod.rs, the parser of
    Ethereum addresses and the fee rate conversion of util.rs.  The messages
    are those that prost generates in rpc/btc_server.rs; optional submessages
    are options. *)

From S2P Require Import Prelude Bytes Bitcoin Psbt Types Concrete Database Federation Jwt.
From Stdlib Require Import SpecFloat.

Open Scope Z_scope.

(** ** Messages *)

Record RpcOutPoint := mkRpcOutPoint { ro_txid : bytes; ro_vout : Z }.

Record RpcTxOut := mkRpcTxOut { rt_value : Z; rt_script_pubkey : option bytes }.

Record RpcUtxo := mkRpcUtxo {
  ru_outpoint : option RpcOutPoint;
  ru_output : option RpcTxOut;
  ru_eth_address : bytes;
  ru_multisig_id : Z }.

Record UtxoToRecover := mkUtxoToRecover {
  ur_outpoint : option RpcOutPoint;
  ur_eth_address : bytes;
  ur_multisig_id : Z }.

Record RpcPendingPegout := mkRpcPendingPegout {
  pp_pegout_id : bytes;
  pp_spk : bytes;
  pp_amount : Z;
  pp_height : Z;
  pp_timestamp : Z }.

Record RpcFinalizedPegout := mkRpcFinalizedPegout {
  rf_id : bytes;
  rf_botanix_block_height : Z;
  rf_botanix_block_timestamp : Z }.

Record RpcTxIn := mkRpcTxIn {
  ri_previous_outpoint : option RpcOutPoint;
  ri_script_sig : option bytes;
  ri_sequence : Z;
  ri_witness : list bytes }.

Record RpcTransaction := mkRpcTransaction {
  rx_version : Z;
  rx_lock_time : Z;
  rx_input : list RpcTxIn;
  rx_output : list RpcTxOut }.

(** [created] in whole seconds. *)
Record RpcTrackedTx := mkRpcTrackedTx {
  rk_txid : bytes;
  rk_tx : option RpcTransaction;
  rk_pegout_idxs : list Z;
  rk_pegout_requests : list RpcPendingPegout;
  rk_change_idxs : list Z;
  rk_created : option Z }.

Section rpc.
Context `{!BitcoinLib, !JwtLib}.

(** ** Outpoints, inputs and outputs *)

Inductive TryFromError := ConversionError (variant : bytes).

Definition invalid_txid : bytes := [105; 110; 118; 97; 108; 105; 100; 95; 116; 120; 105; 100].

Definition RpcOutPoint_from (o : OutPoint) : RpcOutPoint := mkRpcOutPoint (op_txid o) (op_vout o).

(** [Txid::from_slice] takes the 32 bytes of a txid. *)
Definition OutPoint_try_from (o : RpcOutPoint) : outcome TryFromError OutPoint :=
  if decide (length (ro_txid o) = 32%nat)
  then Ok (mkOutPoint (ro_txid o) (ro_vout o)) else Err (ConversionError invalid_txid).

Inductive FieldError := FieldRequired | InvalidField.

Definition TxIn_validate (i : RpcTxIn) : outcome FieldError unit :=
  match ri_previous_outpoint i with
  | None => Err FieldRequired
  | Some o =>
      if decide (length (ro_txid o) = 32%nat) then
        if bool_decide (ri_script_sig i = None) then Err FieldRequired else Ok tt
      else Err InvalidField
  end.

Definition TxOut_validate (o : RpcTxOut) : outcome FieldError unit :=
  if bool_decide (rt_script_pubkey o = None) then Err FieldRequired else Ok tt.

Definition TrackedTx_validate (t : RpcTrackedTx) : outcome FieldError unit :=
  match rk_tx t, rk_created t with
  | None, _ => Err FieldRequired
  | _, None => Err FieldRequired
  | Some _, Some _ => Ok tt
  end.

Definition RpcTxIn_from (i : TxIn) : RpcTxIn :=
  mkRpcTxIn (Some (RpcOutPoint_from (previous_output i))) (Some (script_sig i)) (sequence i) (witness i).

Definition RpcTxOut_from (o : TxOut) : RpcTxOut := mkRpcTxOut (value o) (Some (script_pubkey o)).

(** ** Pegouts and tracked transactions

    [now] is the clock in seconds since the epoch; it is read, and must not be
    before the epoch, whether or not the pegout has a timestamp. *)

Definition epoch_seconds {E} (now : Z) : outcome E Z := if now <? 0 then Panic else Ok now.

Definition RpcPendingPegout_from {E} (now : Z) (p : PegoutRequest) : outcome E RpcPendingPegout :=
  let? now := epoch_seconds now in
  Ok (mkRpcPendingPegout (as_bytes (pr_id p)) (pr_spk p) (pr_value p) (pr_botanix_height p)
        (default now (pr_timestamp p))).

(** [TryFrom<rpc::PendingPegout>]: a malformed id panics. *)
Definition PegoutRequest_try_from {E} (p : RpcPendingPegout) : outcome E PegoutRequest :=
  let? id := expect (ok (PegoutId_from_bytes (pp_pegout_id p))) in
  Ok (mkPegoutRequest id (pp_spk p) (pp_amount p) (pp_height p) (Some (pp_timestamp p))).

(** [idx as u32] *)
Definition as_u32_cast (n : nat) : Z := Z.of_nat n mod 2 ^ 32.

(** [clock i] is the time at the conversion of the [i]-th pegout; the creation
    time must not be before the epoch. *)
Definition RpcTrackedTx_from {E} (clock : nat → Z) (t : Tx) : outcome E RpcTrackedTx :=
  let internal_tx := mkRpcTransaction (tx_version (tx_tx t)) (lock_time (tx_tx t))
    (map RpcTxIn_from (input (tx_tx t))) (map RpcTxOut_from (output (tx_tx t))) in
  let? pegout_requests := omap_all (λ '(i, p), RpcPendingPegout_from (clock i) p)
                            (imap pair (tx_pegout_requests t)) in
  let? duration := epoch_seconds (tx_created t) in
  Ok (mkRpcTrackedTx (tx_txid t) (Some internal_tx) (map as_u32_cast (tx_pegout_idxs t))
        pegout_requests (map as_u32_cast (tx_change_idxs t)) (Some duration)).

(** ** Ethereum addresses *)

Definition parse_eth_address (eth_address : bytes) : outcome ParsingError bytes :=
  let eth_address := map ascii_lower (trim_0x eth_address) in
  let? eth_addr_vec := ok_or (hex_decode eth_address) EthAddressErr in
  if negb (length eth_addr_vec =? 20)%nat then Err EthAddressErr else Ok eth_addr_vec.

(** ** UTXOs *)

Definition parse_p2tr_script_with_fallback (script_bytes : bytes) : ScriptBuf :=
  if is_p2tr script_bytes then script_bytes else
  match deserialize_script script_bytes with
  | Some script_from_consensus =>
      if is_p2tr script_from_consensus then script_from_consensus else script_bytes
  | None => script_bytes
  end.

Definition Utxo_try_from (v : RpcUtxo) : outcome DbError Utxo :=
  let? outpoint := ok_or (ru_outpoint v) RpcToDbMap in
  let? txid := ok_or (deserialize_txid (ro_txid outpoint)) RpcToDbMap in
  let? tx_out := ok_or (ru_output v) RpcToDbMap in
  let? script_pubkey := ok_or (rt_script_pubkey tx_out) RpcToDbMap in
  let script := parse_p2tr_script_with_fallback script_pubkey in
  let? eth_address :=
    if bool_decide (ru_eth_address v = []) then Ok None
    else map_err (λ _, RpcToDbMap) (let? a := parse_eth_address (ru_eth_address v) in Ok (Some a)) in
  Ok (Utxo_new (mkOutPoint txid (ro_vout outpoint)) (mkTxOut (rt_value tx_out) script) eth_address
        (Some V1) (mkMultisigId (ru_multisig_id v))).

Definition RpcUtxo_from (u : Utxo) : RpcUtxo :=
  mkRpcUtxo (Some (RpcOutPoint_from (utxo_outpoint u)))
    (Some (mkRpcTxOut (value (utxo_output u)) (Some (script_pubkey (utxo_output u)))))
    (match utxo_eth_address u with Some a => hex_encode a | None => [] end)
    (as_u32 (utxo_multisig_id u)).

(** ** Round trips *)

Context `{!JwtLaws}.

Lemma lower_digits s : Forall is_hex_digit s → map ascii_lower s = s.
Proof.
  intros Hs. rewrite (map_ext_in _ id), map_id; [done|]. intros b Hb.
  rewrite Forall_forall in Hs. apply list_elem_of_In, Hs in Hb.
  unfold is_hex_digit in Hb. unfold ascii_lower. by case_match; [lia|].
Qed.

Lemma parse_eth_address_encode a : is_array 20 a → parse_eth_address (hex_encode a) = Ok a.
Proof.
  intros [Hl Hu]. unfold parse_eth_address.
  rewrite trim_0x_digits, lower_digits by apply hex_digits. rewrite hex_roundtrip by done.
  cbn. by rewrite Hl.
Qed.

(** A UTXO that goes out as a message and comes back is the same UTXO:
    outpoint, value, script, Ethereum address and multisig survive, provided
    the script is not itself the length-prefixed form of a Taproot script. *)
Theorem utxo_message_roundtrip u :
  deserialize_txid (op_txid (utxo_outpoint u)) = Some (op_txid (utxo_outpoint u)) →
  (∀ a, utxo_eth_address u = Some a → is_array 20 a) →
  utxo_version u = UtxoVersion_as_u32 V1 →
  (∀ s, deserialize_script (script_pubkey (utxo_output u)) = Some s →
    is_p2tr s = true → is_p2tr (script_pubkey (utxo_output u)) = true) →
  Utxo_try_from (RpcUtxo_from u) = Ok u.
Proof.
  intros Ht Ha Hv Hs. destruct u as [[t n] [v spk] eth ver [m]]. cbn in Ht, Ha, Hv, Hs. subst ver.
  unfold Utxo_try_from, RpcUtxo_from. cbn. rewrite Ht. cbn.
  assert (parse_p2tr_script_with_fallback spk = spk) as ->.
  { unfold parse_p2tr_script_with_fallback. destruct (is_p2tr spk); [done|].
    destruct (deserialize_script spk) as [s|]; [|done].
    destruct (is_p2tr s) eqn:Hp; [|done]. by specialize (Hs s eq_refl Hp). }
  destruct eth as [a|]; [|done]. specialize (Ha a eq_refl). rewrite parse_eth_address_encode by done.
  rewrite bool_decide_eq_false_2; [done|]. intros He. pose proof (hex_length a) as Hl.
  rewrite He in Hl. destruct Ha as [Hl' _]. rewrite Hl' in Hl. done.
Qed.

(** A pegout that goes out as a message and comes back is the same pegout,
    with the time of the answer when it had no timestamp; a message with a
    malformed id makes the conversion panic. *)
Theorem pegout_message_roundtrip {E} now p m :
  0 ≤ now → pegout_id_wf (pr_id p) →
  (let? m := RpcPendingPegout_from (E:=E) now p in PegoutRequest_try_from m) =
    Ok (mkPegoutRequest (pr_id p) (pr_spk p) (pr_value p) (pr_botanix_height p)
          (Some (default now (pr_timestamp p)))) ∧
  (length (pp_pegout_id m) ≠ 36%nat → PegoutRequest_try_from (E:=E) m = Panic).
Proof.
  intros Hn Hp. split.
  - unfold RpcPendingPegout_from, epoch_seconds. destruct (Z.ltb_spec now 0); [lia|]. cbn.
    unfold PegoutRequest_try_from. cbn [pp_pegout_id]. by rewrite as_bytes_from_bytes.
  - intros Hl. unfold PegoutRequest_try_from, PegoutId_from_bytes. by rewrite decide_False.
Qed.

End rpc.

(** ** The fee rate

    [estimatesmartfee] answers in bitcoin per kilobyte, which the code turns
    into a 64-bit float; [to_float_in_btc] is [Amount::to_float_in].  Floats
    are those of the standard library's [SpecFloat], with 53 bits of
    precision. *)

Definition f64_of_Z (z : Z) : spec_float := binary_normalize 53 1024 z 0 false.

Definition f64_mul : spec_float → spec_float → spec_float := SFmul 53 1024.
Definition f64_div : spec_float → spec_float → spec_float := SFdiv 53 1024.

(** [f.ceil() as u64]: the cast saturates. *)
Definition ceil_u64 (f : spec_float) : Z :=
  match f with
  | S754_finite false m e =>
      let c := if 0 <=? e then Z.pos m * 2 ^ e else - ((- Z.pos m) / 2 ^ (- e)) in
      Z.min c u64_max
  | S754_infinity false => u64_max
  | _ => 0
  end.

(** The number of satoshi per virtual byte. *)
Definition btc_per_kb_to_sat_per_vb (to_float_in_btc : Z → spec_float) (btc_per_kb : Amount) : Z :=
  ceil_u64 (f64_mul (to_float_in_btc btc_per_kb) (f64_of_Z 100000)).

(** The integral rates, in satoshi per virtual byte, that the conversion of
    [1000 r] satoshi per kilobyte does not return as [r]. *)
Definition rounded_up : list Z := [51; 102; 103; 111; 119; 127].

Definition integral_rates : list Z := seqZ 0 201.

(** Up to 200 satoshi per virtual byte every integral fee rate that bitcoind
    reports is used as it is, except that the detour through floats makes
    51, 102, 103, 111, 119 and 127 one satoshi higher. *)
Theorem integral_fee_rates to_float_in_btc r :
  (∀ s, 0 ≤ s < 2 ^ 53 → to_float_in_btc s = f64_div (f64_of_Z s) (f64_of_Z 100000000)) →
  0 ≤ r ≤ 200 →
  btc_per_kb_to_sat_per_vb to_float_in_btc (1000 * r) =
    if decide (r ∈ rounded_up) then r + 1 else r.
Proof.
  intros Hf Hr. unfold btc_per_kb_to_sat_per_vb. rewrite Hf by lia.
  assert (Forall (λ r, ceil_u64 (f64_mul (f64_div (f64_of_Z (1000 * r)) (f64_of_Z 100000000))
                                   (f64_of_Z 100000)) =
                       if decide (r ∈ rounded_up) then r + 1 else r) integral_rates) as Hall.
  { apply (bool_decide_unpack _). vm_cast_no_check I. }
  rewrite Forall_forall in Hall. apply Hall. unfold integral_rates. apply elem_of_seqZ. lia.
Qed.

(** ** Witnesses *)

Lemma utxo_message_roundtrip_witness :
  let u := mkUtxo (toy_outpoint 1) (mkTxOut 500 (p2tr 7)) (Some (replicate 20 200)) 0 LEGACY_MULTISIG_ID in
  Utxo_try_from (RpcUtxo_from u) = Ok u.
Proof.
  refine (utxo_message_roundtrip (mkUtxo (toy_outpoint 1) (mkTxOut 500 (p2tr 7)) (Some (replicate 20 200)) 0
            LEGACY_MULTISIG_ID) _ _ _ _); [reflexivity| |reflexivity|reflexivity].
  intros a [= <-]. split; [reflexivity|]. apply (Forall_replicate is_u8 20 200). unfold is_u8, u8_max. lia.
Defined.

Lemma pegout_message_roundtrip_witness :
  (let? m := RpcPendingPegout_from (E:=unit) 9 (mkPegoutRequest (toy_pegout_id 1) (p2wpkh 2) 5 6 None) in
   PegoutRequest_try_from m) = Ok (mkPegoutRequest (toy_pegout_id 1) (p2wpkh 2) 5 6 (Some 9)) ∧
  PegoutRequest_try_from (E:=unit) (mkRpcPendingPegout [1] [] 0 0 0) = Panic.
Proof.
  destruct (pegout_message_roundtrip (E:=unit) 9 (mkPegoutRequest (toy_pegout_id 1) (p2wpkh 2) 5 6 None)
    (mkRpcPendingPegout [1] [] 0 0 0)) as [H1 H2]; [lia| |].
  - apply toy_pegout_id_wf. unfold is_u8, u8_max. lia.
  - split; [exact H1|]. apply H2. discriminate.
Defined.

Definition toy_to_float (s : Z) : spec_float := f64_div (f64_of_Z s) (f64_of_Z 100000000).

Lemma integral_fee_rates_witness :
  btc_per_kb_to_sat_per_vb toy_to_float 50000 = 50 ∧ btc_per_kb_to_sat_per_vb toy_to_float 51000 = 52.
Proof.
  split; [exact (integral_fee_rates toy_to_float 50 (λ _ _, eq_refl) ltac:(lia))|].
  exact (integral_fee_rates toy_to_float 51 (λ _ _, eq_refl) ltac:(lia)).
Defined.
