(* ===== verification/Server.v ===== *)
(** * The btc-server

    src/bin/botanix-btc-server/src/bin/main.rs: the state of the server and its
    gRPC handlers.  A handler runs atomically: the locks it takes are not
    modelled.  A failing handler and a handler that panics leave behind what
    they have changed, and the server goes on with the next request.

    bitcoind and the clocks answer by the number of the call, kept in the
    scheduler's [calls]; calls made only for log messages and metrics are
    left out, those whose failure the code reports are not. *)

From stdpp Require Import strings.
From S2P Require Import Prelude Bytes Codec DkgAuth Dkg.
From S2P Require Import Bitcoin Psbt Types Concrete CoinSelection Database Merkle Util.
From S2P Require Import Coordinator Signer PegoutScheduler Peg Federation Jwt Rpc.

Open Scope Z_scope.

Abbreviation SigningKey := Psbt.KeyPackage.
Abbreviation DkgMachine := Dkg.DkgStateMachine.

#[global] Program Instance MultisigId_countable : Countable MultisigId :=
  inj_countable' as_u32 mkMultisigId _.
Next Obligation. by intros []. Qed.

(** ** Libraries *)

Class ServerLib `{!FrostLib, !DkgLib, !PegLib} := {
  (** bitcoind; the message of a rejected transaction is a text *)
  send_raw_transaction : nat → Transaction → Txid + bytes;
  get_tx_out : nat → OutPoint → option TxOut + RpcError;
  estimate_smart_fee : nat → option Amount + RpcError;
  get_block_count : nat → Z + RpcError;
  get_block_hash : nat → Z → BlockHash + RpcError;
  (** [Instant::now] in nanoseconds *)
  instant : nat → Z;
  (** [Psbt::deserialize] and [serialize], the CBOR codec of the messages of
      the key generation *)
  psbt_deserialize : bytes → option Psbt;
  psbt_serialize : Psbt → bytes;
  dkg_decode : bytes → option Dkg.DkgMessage;
  dkg_encode : Dkg.DkgMessage → bytes;
  (** [BlockHash::consensus_decode] and [from_slice] *)
  decode_block_hash : bytes → option BlockHash;
  block_hash_from_slice : bytes → option BlockHash;
  (** [Address::from_script] for the network of the server, as text *)
  address_from_script : ScriptBuf → option bytes;
  base64_decode : bytes → option bytes;
  (** [Identifier::derive] on the bytes of a [u16], and the scalar of an
      identifier *)
  frost_id : Z → Identifier;
  id_scalar : Identifier → FrostId;
  (** [Amount::to_float_in(Bitcoin)], [FeeRate::from_sat_per_vb_unchecked] and
      [from_sat_per_vb] *)
  to_float_in_btc : Amount → SpecFloat.spec_float;
  from_sat_per_vb_unchecked : Z → Z;
  from_sat_per_vb : Z → option Z;
  (** [KeyPackage::verifying_key] *)
  verifying_key : SigningKey → VerifyingKey;
  (** the packages of the key generation as they are stored *)
  stored_key_package : DkgAuth.KeyPackage → SigningKey;
  stored_pubkey_package : DkgAuth.DkgPublicKeyPackage → Psbt.PublicKeyPackage;
  (** the keys of the members and of this node in text form *)
  pubkey_from_str : bytes → option PubKey;
  pubkey_to_string : PubKey → bytes;
  secret_key_from_str : bytes → option SecretKey;
  (** 32 random bytes *)
  random_session : Z → bytes }.

(** ** Errors *)

(** [Error], the ones of handlers. *)
Inductive ServerError :=
| ESigning1 (e : SigningRound1Error)
| ESigning2 (e : SigningRound2Error)
| ECoordination (e : CoordinatorError)
| EParsing (e : ParsingError)
| EDb (e : DbError)
| ESync (e : SyncError)
| EDkg (e : DkgError)
| EDkgDeserialization
| EFrost
| EJwt (e : JwtError)
| EIo.

(** [tonic::Status] without its text; [Internal None] is an internal error
    with a text of its own, [NoAnswer] of the model only: the handler does not
    return. *)
Inductive Status :=
| InvalidArgument
| Internal (e : option ServerError)
| Unauthenticated
| AlreadyExists
| FailedPrecondition
| NotFound
| NoAnswer.

(** ** State *)

Record DkgState `{!DkgLib} := mkDkgState {
  machine : DkgMachine;
  ds_stage : option Dkg.Stage;
  ds_session_nonce : option Z }.

Inductive DkgNotification :=
| DkgStart (m : MultisigId)
| DkgRestart (m : MultisigId)
| DkgAbort (m : MultisigId).

(** The parts of [App] and of its [Config] that the handlers use.  The
    database of the server is the one of its scheduler; [draws] counts the
    draws of the random generator by signer and coordinator, [dkg_draws] those
    of the key generation; [notifications] are the messages sent to the
    channel. *)
Record App `{!FrostLib, !DkgLib} := mkApp {
  scheduler : PegoutScheduler;
  identifier : Identifier;
  max_signers : Z;
  min_signers : Z;
  p2p_secret_key : SecretKey;
  federation : FederationTomlConfig;
  dkg_sessions : gmap MultisigId DkgState;
  frost_round1_nonces : option (list (SigningNonces * SigningCommitments));
  config_identifier : Z;
  config_coordinator : option Z;
  excluded_eth_addresses : list bytes;
  btc_signing_server_jwt_secret : option JwtSecret;
  fall_back_fee_rate : Z;
  notifications : list DkgNotification;
  draws : Z;
  dkg_draws : Z }.

Section setters.
Context `{!FrostLib, !DkgLib}.

Definition set_scheduler v (a : App) : App :=
  mkApp _ _ v (identifier a) (max_signers a) (min_signers a) (p2p_secret_key a) (federation a) (dkg_sessions a)
    (frost_round1_nonces a) (config_identifier a) (config_coordinator a) (excluded_eth_addresses a)
    (btc_signing_server_jwt_secret a) (fall_back_fee_rate a) (notifications a) (draws a) (dkg_draws a).
Definition set_dkg_sessions v (a : App) : App :=
  mkApp _ _ (scheduler a) (identifier a) (max_signers a) (min_signers a) (p2p_secret_key a) (federation a) v
    (frost_round1_nonces a) (config_identifier a) (config_coordinator a) (excluded_eth_addresses a)
    (btc_signing_server_jwt_secret a) (fall_back_fee_rate a) (notifications a) (draws a) (dkg_draws a).
Definition set_nonces v (a : App) : App :=
  mkApp _ _ (scheduler a) (identifier a) (max_signers a) (min_signers a) (p2p_secret_key a) (federation a)
    (dkg_sessions a) v (config_identifier a) (config_coordinator a) (excluded_eth_addresses a)
    (btc_signing_server_jwt_secret a) (fall_back_fee_rate a) (notifications a) (draws a) (dkg_draws a).
Definition set_notifications v (a : App) : App :=
  mkApp _ _ (scheduler a) (identifier a) (max_signers a) (min_signers a) (p2p_secret_key a) (federation a)
    (dkg_sessions a) (frost_round1_nonces a) (config_identifier a) (config_coordinator a)
    (excluded_eth_addresses a) (btc_signing_server_jwt_secret a) (fall_back_fee_rate a) v (draws a) (dkg_draws a).
Definition set_draws v (a : App) : App :=
  mkApp _ _ (scheduler a) (identifier a) (max_signers a) (min_signers a) (p2p_secret_key a) (federation a)
    (dkg_sessions a) (frost_round1_nonces a) (config_identifier a) (config_coordinator a)
    (excluded_eth_addresses a) (btc_signing_server_jwt_secret a) (fall_back_fee_rate a) (notifications a) v
    (dkg_draws a).
Definition set_dkg_draws v (a : App) : App :=
  mkApp _ _ (scheduler a) (identifier a) (max_signers a) (min_signers a) (p2p_secret_key a) (federation a)
    (dkg_sessions a) (frost_round1_nonces a) (config_identifier a) (config_coordinator a)
    (excluded_eth_addresses a) (btc_signing_server_jwt_secret a) (fall_back_fee_rate a) (notifications a)
    (draws a) v.

Definition app_db (a : App) : Db := db (scheduler a).

End setters.

(** [DEFAULT_COORDINATOR_ID] *)
Definition DEFAULT_COORDINATOR_ID : Z := 0.

(** [str::contains] *)
Definition text_contains (t pat : bytes) : bool :=
  existsb (λ n, bool_decide (take (length pat) (drop n t) = pat)) (seq 0 (S (length t))).

Definition already_in_chain : bytes :=
  [97; 108; 114; 101; 97; 100; 121; 32; 105; 110; 32; 99; 104; 97; 105; 110].
Definition bad_txns_inputs_missingorspent : bytes :=
  [98; 97; 100; 45; 116; 120; 110; 115; 45; 105; 110; 112; 117; 116; 115; 45;
   109; 105; 115; 115; 105; 110; 103; 111; 114; 115; 112; 101; 110; 116].

Section server.
Context `{!BitcoinLib, !FrostLib, !PsbtLib, !FrostSign, !BdkLib, !Bitcoind, !DkgLib, !Profile, !JwtLib,
          !PegLib, !ServerLib}.

Abbreviation AM E A := (M App E A).
Abbreviation Srv A := (M App Status A).

(** ** Calls on the parts of the state *)

Definition on_sched {E A} (m : M PegoutScheduler E A) : AM E A := zoom scheduler set_scheduler m.

Definition on_db {E A} (m : M Db E A) : AM E A := on_sched (PegoutScheduler.on_db m).

(** [to_status] on a database error. *)
Definition db_call {A} (m : M Db DbError A) : Srv A := map_errM (λ e, Internal (Some (EDb e))) (on_db m).

(** An answer of bitcoind or of a clock. *)
Definition answer {E A} (f : nat → A) : AM E A := λ a,
  let s := scheduler a in (set_scheduler (set_calls (S (calls s)) s) a, Ok (f (calls s))).

Definition has_telemetry {E} : AM E bool := gets (λ a, telemetry (scheduler a)).

(** The gauge of pending pegouts. *)
Definition set_pending_pegouts_metric : Srv unit :=
  let! t := has_telemetry in
  if t then db_call get_pending_pegouts ;! ret tt else ret tt.

(** [parse_signing_session_id(..).to_status()] *)
Definition session_id (b : bytes) : Srv bytes :=
  lift (map_err (λ e, Internal (Some (EParsing e))) (parse_signing_session_id b)).

Definition peer_id (b : bytes) : Srv Identifier :=
  lift (map_err (λ e, Internal (Some (EParsing e))) (deserialize_frost_peer_id b)).

(** [Psbt::deserialize(..).to_status()] *)
Definition parse_psbt (b : bytes) : Srv Psbt := lift (ok_or (psbt_deserialize b) InvalidArgument).

(** [self.db.get_key_package().to_status()?]: a missing key package is no
    error. *)
Definition read_key_package : Srv unit := db_call get_key_package ;! ret tt.

Definition is_coordinator (a : App) : bool :=
  config_identifier a =? default DEFAULT_COORDINATOR_ID (config_coordinator a).

(** ** Authentication *)

(** The clock in seconds since the epoch, which must not be before it. *)
Definition unix_now {E} : AM E Z :=
  let! t := answer system_time in lift (epoch_seconds t).

Definition validate_jwt (jwt : option bytes) : Srv unit :=
  let! app := get in
  match jwt, btc_signing_server_jwt_secret app with
  | _, None => ret tt
  | None, Some _ => fail Unauthenticated
  | Some metadata_value, Some jwt_secret =>
      let! jwt_token_base64_decoded := lift (ok_or (base64_decode metadata_value) InvalidArgument) in
      (if utf8_valid jwt_token_base64_decoded then ret tt else fail InvalidArgument) ;!
      let! now := unix_now in
      let! now' := unix_now in
      lift (map_err (λ _, Unauthenticated) (validate_token jwt_secret jwt_token_base64_decoded now now'))
  end.

(** ** The scheduler *)

Definition sync_pegout_scheduler (fuel : nat) (checkpoint : BlockHash) : AM SyncError unit :=
  on_sched (sync_until fuel checkpoint) ;!
  let! s := gets scheduler in
  map_errM SyDb (on_db (store_pegout_mgr_finalized_block (last_finalized s)) ;!
                 on_db update_utxo_merkle_root ;!
                 on_db flush).

Definition sync_call (fuel : nat) (checkpoint : BlockHash) : Srv unit :=
  map_errM (λ e, Internal (Some (ESync e))) (sync_pegout_scheduler fuel checkpoint).

Definition add_tracked_tx (tx : Transaction) (targets : list PegoutRequest) (timestamp : Z)
    : AM DbError unit :=
  let! t := on_sched (add_tx tx targets timestamp) in
  on_db (store_tracked_tx t) ;! on_db flush.

(** ** General endpoints *)

Definition health_check (jwt : option bytes) : Srv unit :=
  validate_jwt jwt ;!
  let! t := has_telemetry in
  if t then okM (on_sched is_syncing) ;! ret tt else ret tt.

Definition parse_pegout (p : RpcPendingPegout) : outcome Status PegoutRequest :=
  let? _ := ok_or (address_from_script (pp_spk p)) InvalidArgument in
  let? id := map_err (λ _, InvalidArgument) (PegoutId_from_bytes (pp_pegout_id p)) in
  Ok (mkPegoutRequest id (pp_spk p) (pp_amount p) (pp_height p) (Some (pp_timestamp p))).

(** The pegouts that are finalized or that a tracked transaction delivers. *)
Definition broadcasted_pegout_ids : Srv (list PegoutId) :=
  let! finalized := db_call get_finalized_pegout_ids in
  let! s := gets scheduler in
  ret (map fp_id finalized ++ tracked_pegout_request_ids s).

(** The second half of [new_consensus_checkpoint]: the pegouts are dropped
    when there is nothing to pay them with. *)
Definition store_new_pegouts (pending : list RpcPendingPegout) : Srv unit :=
  let! '(available_utxos, tracked_inputs) := db_call get_available_utxos in
  if bool_decide (available_utxos = ∅) && bool_decide (tracked_inputs = ∅) then ret tt else
  let! pegouts := lift (omap_all parse_pegout pending) in
  let! ids := broadcasted_pegout_ids in
  db_call (store_pending_pegouts (List.filter (λ p, negb (contains ids (pr_id p))) pegouts)) ;!
  db_call flush ;!
  set_pending_pegouts_metric.

(** The first half: the UTXOs of the pegins. *)
Definition store_pegins (checkpoint : BlockHash) (pegins : list RpcUtxo) : Srv unit :=
  let! utxos := lift (map_err (λ _, InvalidArgument) (omap_all Utxo_try_from pegins)) in
  db_call (store_utxos utxos) ;!
  db_call update_utxo_merkle_root ;!
  db_call flush ;!
  let! total_utxos := db_call get_all_utxos in
  lift (amount_sum (map (λ u, value (utxo_output u)) total_utxos)) ;!
  let! t := has_telemetry in
  if t then
    let! block_result := answer (λ n, PegoutScheduler.get_block_info n checkpoint) in
    match block_result with inl _ => ret tt | inr _ => fail InvalidArgument end
  else ret tt.

Record ConsensusCheckpointRequest := mkCheckpointRequest {
  checkpoint_block_hash : bytes;
  cr_pegins : list RpcUtxo;
  cr_pending_pegouts : list RpcPendingPegout }.

Definition new_consensus_checkpoint (fuel : nat) (jwt : option bytes) (req : ConsensusCheckpointRequest)
    : Srv unit :=
  validate_jwt jwt ;!
  let! checkpoint := lift (ok_or (decode_block_hash (checkpoint_block_hash req)) InvalidArgument) in
  sync_call fuel checkpoint ;!
  store_pegins checkpoint (cr_pegins req) ;!
  store_new_pegouts (cr_pending_pegouts req).

Definition get_signing_status_rpc (jwt : option bytes) (signing_session_id : bytes) : Srv SigningStatus :=
  validate_jwt jwt ;!
  let! id := session_id signing_session_id in
  db_call (get_signing_status id).

Definition get_session_ids_rpc (jwt : option bytes) (max_results : Z) : Srv (list bytes) :=
  validate_jwt jwt ;! db_call (get_session_ids max_results).

(** A loop over records that reads the clock for each of them. *)
Fixpoint with_clock {A B} (f : Z → A → outcome Status B) (l : list A) : Srv (list B) :=
  match l with
  | [] => ret []
  | x :: l' =>
      let! now := answer system_time in
      let! y := lift (f now x) in
      let! ys := with_clock f l' in
      ret (y :: ys)
  end.

Definition get_pending_pegouts_rpc (jwt : option bytes) : Srv (list RpcPendingPegout) :=
  validate_jwt jwt ;!
  let! pending_pegouts := db_call get_pending_pegouts in
  with_clock RpcPendingPegout_from pending_pegouts.

Definition finalized_message (now : Z) (p : FinalizedPegout) : outcome Status RpcFinalizedPegout :=
  let? now := epoch_seconds now in
  Ok (mkRpcFinalizedPegout (as_bytes (fp_id p)) (fp_block_number p) (default now (fp_timestamp p))).

Record FinalizedBatch := mkBatch {
  fb_data : list RpcFinalizedPegout;
  fb_chunk_index : Z;
  fb_total_chunks : Z;
  fb_is_final : bool }.

(** The batches that the spawned task sends while the client is connected; an
    error of the database is only logged.  A channel of capacity zero panics
    before the task is started. *)
Fixpoint send_batches (chunks : list (list FinalizedPegout * Z * Z)) : Srv (list FinalizedBatch) :=
  match chunks with
  | [] => ret []
  | (pegout_ids, chunk_index, total_chunks) :: chunks' =>
      let! data := with_clock finalized_message pegout_ids in
      let! rest := send_batches chunks' in
      ret (mkBatch data chunk_index total_chunks (chunk_index + 1 =? total_chunks) :: rest)
  end.

Definition get_finalized_pegout_ids_rpc (jwt : option bytes) (chunk_size : nat) : Srv (list FinalizedBatch) :=
  validate_jwt jwt ;!
  if (chunk_size =? 0)%nat then panic else
  let! chunks := okM (on_db (get_finalized_pegout_ids_stream chunk_size)) in
  send_batches (default [] chunks).

(** ** Wallet state *)

Definition reset_all_utxos (jwt : option bytes) (us : list RpcUtxo) : Srv unit :=
  validate_jwt jwt ;!
  let! utxos := lift (map_err (λ e, Internal (Some (EDb e))) (omap_all Utxo_try_from us)) in
  db_call (reset_utxos utxos).

Definition get_all_utxos_rpc (jwt : option bytes) : Srv (list RpcUtxo) :=
  validate_jwt jwt ;!
  let! db_utxos := db_call get_all_utxos in
  ret (map RpcUtxo_from db_utxos).

Definition list_multisigs (jwt : option bytes) : Srv (list Z) :=
  validate_jwt jwt ;!
  let! multisig_ids := db_call list_multisig_ids in
  ret (map as_u32 multisig_ids).

Definition get_wallet_state (jwt : option bytes) : Srv WalletState :=
  validate_jwt jwt ;!
  map_errM (λ _, Internal None) (on_db get_wallet_state_commitment).

(** One reading of the clock for each pegout of the transaction. *)
Fixpoint convert_tracked (l : list Tx) : Srv (list RpcTrackedTx) :=
  match l with
  | [] => ret []
  | t :: l' =>
      let! s := gets scheduler in
      on_sched (modify (λ s, set_calls (calls s + length (tx_pegout_requests t)) s)) ;!
      let! m := lift (RpcTrackedTx_from (λ i, system_time (calls s + i)) t) in
      let! rest := convert_tracked l' in
      ret (m :: rest)
  end.

Definition get_tracked_txs_rpc (jwt : option bytes) : Srv (list RpcTrackedTx) :=
  validate_jwt jwt ;!
  let! db_tracked_txs := map_errM (λ _, Internal None) (on_db get_tracked_txs) in
  convert_tracked db_tracked_txs.

Definition reset_wallet_state (jwt : option bytes) (ids : list RpcFinalizedPegout) : Srv unit :=
  validate_jwt jwt ;!
  let! finalized_pegout_ids := lift (map_err (λ _, Internal None) (omap_all (λ v,
    let? id := PegoutId_from_bytes (rf_id v) in
    Ok (mkFinalizedPegout id (rf_botanix_block_height v) (Some (rf_botanix_block_timestamp v)))) ids)) in
  db_call (reset_finalized_pegout_ids finalized_pegout_ids).

(** ** Signer endpoints *)

(** The only endpoint that does not ask for a token. *)
Definition abort_signing : Srv unit :=
  read_key_package ;!
  modify (set_nonces None).

Record SigningPackageResponse := mkSigningPackage {
  sr_identifier : bytes;
  sr_psbt : bytes;
  sr_session_id : bytes }.

(** The answer that carries a PSBT. *)
Definition signing_package (psbt : Psbt) (signing_session_id : bytes) : Srv SigningPackageResponse :=
  let! app := get in
  ret (mkSigningPackage (identifier_serialize (identifier app)) (psbt_serialize psbt) signing_session_id).

(** A signing round on a PSBT of its own. *)
Definition on_signer {E A} (psbt : Psbt) (m : M (Db * Psbt) E A) : AM E (Psbt * A) := λ a,
  let '((d, p), r) := m (app_db a, psbt) in
  (set_scheduler (set_db d (scheduler a)) a,
   match r with Ok x => Ok (p, x) | Err e => Err e | Panic => Panic end).

(** One draw of the random generator for each input. *)
Definition draw_for (psbt : Psbt) : Srv (nat → Z) := λ a,
  (set_draws (draws a + Z.of_nat (length (inputs psbt))) a, Ok (λ i, draws a + Z.of_nat i)).

Definition get_round1_rpc (jwt : option bytes) (req_psbt signing_session_id : bytes)
    : Srv SigningPackageResponse :=
  validate_jwt jwt ;!
  read_key_package ;!
  let! id := session_id signing_session_id in
  let! app := get in
  if bool_decide (is_Some (frost_round1_nonces app)) then fail (Internal None) else
  let! psbt := parse_psbt req_psbt in
  let! rng := draw_for psbt in
  let! '(psbt, nonces) := map_errM (λ e, Internal (Some (ESigning1 e)))
    (on_signer psbt (get_round1_signing_package (min_signers app) (identifier app) rng)) in
  modify (set_nonces (Some nonces)) ;!
  signing_package psbt id.

(** The pegout ids of the outputs that have one. *)
Definition psbt_output_ids (outs : list PsbtOutput) : outcome Status (list PegoutId) :=
  omap_all (λ b, map_err (λ _, Internal (Some (ESigning2 R2FailedToDeserializePegoutId))) (PegoutId_from_bytes b))
    (omap pegout_id outs).

(** What the signer does with the database once it has signed. *)
Definition record_signed (psbt : Psbt) (signed_tx : Transaction) : Srv unit :=
  if (UPPER_PEGOUT_BOUND + 1 <? length (outputs psbt))%nat then fail InvalidArgument else
  let! psbt_pegout_ids := lift (psbt_output_ids (outputs psbt)) in
  let! pending_pegouts := db_call get_pending_pegouts in
  let psbt_pending_pegouts := List.filter (λ p, contains psbt_pegout_ids (pr_id p)) pending_pegouts in
  let! now := answer system_time in
  map_errM (λ e, Internal (Some (EDb e))) (add_tracked_tx signed_tx psbt_pending_pegouts now) ;!
  let! app := get in
  (if negb (is_coordinator app) then db_call (reset_pending_pegouts []) else ret tt) ;!
  db_call flush ;!
  set_pending_pegouts_metric.

Definition get_round2_rpc (jwt : option bytes) (req_psbt signing_session_id : bytes)
    : Srv SigningPackageResponse :=
  validate_jwt jwt ;!
  read_key_package ;!
  let! app := get in
  match frost_round1_nonces app with
  | None => fail (Internal None)
  | Some signing_nonces =>
      let! id := session_id signing_session_id in
      let! psbt := parse_psbt req_psbt in
      let! '(psbt, _) := map_errM (λ e, Internal (Some (ESigning2 e)))
        (on_signer psbt (get_round2_signing_package (min_signers app) (identifier app) signing_nonces)) in
      modify (set_nonces None) ;!
      let! signed_tx := lift (expect (ok (extract_tx psbt))) in
      record_signed psbt signed_tx ;!
      signing_package psbt id
  end.

(** ** Coordinator endpoints *)

(** A rejected input that the database still holds but that is no longer on
    chain is forgotten; a failing removal is only logged. *)
Definition handle_invalid_inputs (tx : Transaction) : AM DbError unit :=
  forM (input tx) (λ i,
    let! u := on_db (get_utxo (previous_output i)) in
    match u with
    | None => ret tt
    | Some _ =>
        let! result := answer (λ n, get_tx_out n (previous_output i)) in
        match result with
        | inr _ => fail BitcoindError
        | inl (Some _) => ret tt
        | inl None => okM (on_db (remove_utxo (previous_output i))) ;! ret tt
        end
    end).

Definition untrack_rejected (tx : Transaction) : Srv unit :=
  map_errM (λ e, Internal (Some (EDb e))) (on_sched (un_track_tx (compute_txid tx))).

Definition handle_broadcast_error (err_msg : bytes) (tx : Transaction) : Srv unit :=
  if text_contains err_msg already_in_chain then ret tt else
  if text_contains err_msg bad_txns_inputs_missingorspent then
    map_errM (λ e, Internal (Some (EDb e))) (handle_invalid_inputs tx) ;!
    untrack_rejected tx ;!
    fail (Internal None)
  else
    untrack_rejected tx ;!
    fail (Internal None).

Definition broadcast (tx : Transaction) : Srv (option Txid) :=
  let! answered := answer (λ n, send_raw_transaction n tx) in
  match answered with
  | inl tx_id => ret (Some tx_id)
  | inr err => handle_broadcast_error err tx ;! ret None
  end.

(** The last attempted pegout height: a metric whose failure is reported. *)
Definition set_last_attempted_height : Srv unit :=
  let! t := has_telemetry in
  if t then
    let! tip_height := answer get_block_count in
    match tip_height with inl _ => ret tt | inr _ => fail (Internal None) end
  else ret tt.

Definition finalize_signing_rpc (jwt : option bytes) (signing_session_id : bytes) : Srv bytes :=
  validate_jwt jwt ;!
  let! id := session_id signing_session_id in
  let! psbt := map_errM (λ _, Internal None) (on_db (finalize_signing id)) in
  let! tx := lift (map_err (λ _, InvalidArgument) (extract_tx psbt)) in
  broadcast tx ;!
  set_last_attempted_height ;!
  let! ids := lift (omap_all (λ p, expect (ok (PegoutId_from_bytes p))) (pegout_ids psbt)) in
  db_call (remove_pending_pegout ids) ;!
  set_pending_pegouts_metric ;!
  db_call flush ;!
  ret (psbt_serialize psbt).

(** The fee rate that bitcoind estimates, or the configured one. *)
Definition estimate_fee_rate : Srv Z :=
  let! app := get in
  let! fee_res := answer estimate_smart_fee in
  ret match fee_res with
      | inl (Some f) => from_sat_per_vb_unchecked (btc_per_kb_to_sat_per_vb to_float_in_btc f)
      | _ => fall_back_fee_rate app
      end.

(** The change script of a federation. *)
Definition federation_script (m : MultisigId) : Srv ScriptBuf :=
  let! pkg := db_call (get_public_key_package_by_id m) in
  let! pk_package := lift (ok_or pkg (Internal None)) in
  let! secp_pk := lift (ok_or (to_secp_pk pk_package) (Internal None)) in
  ret (generate_taproot_change_scriptpubkey secp_pk).

(** [coordinator::make_tx] may not return. *)
Definition make_tx_call (outs : list (TxOut * PegoutId)) (fee_rate : Z) (change_script : ScriptBuf)
    (tracked : list Tx) (m : MultisigId) : Srv Psbt := λ a,
  match make_tx outs fee_rate change_script (min_signers a) tracked (excluded_eth_addresses a) m (app_db a) with
  | Some (d, r) => (set_scheduler (set_db d (scheduler a)) a,
                    map_err (λ e, Internal (Some (ECoordination e))) r)
  | None => (a, Err NoAnswer)
  end.

(** Storing the PSBT of a session and answering with it. *)
Definition open_session (id : bytes) (psbt : Psbt) : Srv SigningPackageResponse :=
  db_call (update_psbt id psbt) ;!
  db_call flush ;!
  signing_package psbt id.

Definition get_psbt_rpc (fuel : nat) (jwt : option bytes) (signing_session_id checkpoint : bytes)
    : Srv SigningPackageResponse :=
  validate_jwt jwt ;!
  read_key_package ;!
  read_key_package ;!
  let! id := session_id signing_session_id in
  let! checkpoint := lift (ok_or (block_hash_from_slice checkpoint) InvalidArgument) in
  let! fee_rate := estimate_fee_rate in
  sync_call fuel checkpoint ;!
  let! tracked_txs := db_call get_tracked_txs in
  let! pending_pegouts := db_call (coord_pending_pegouts UPPER_PEGOUT_BOUND) in
  let outputs := map (λ p, (mkTxOut (pr_value p) (pr_spk p), pr_id p)) pending_pegouts in
  let! change_script := federation_script LEGACY_MULTISIG_ID in
  let! psbt := make_tx_call outputs fee_rate change_script tracked_txs LEGACY_MULTISIG_ID in
  open_session id psbt.

Definition draw_session : Srv bytes := λ a, (set_draws (draws a + 1) a, Ok (random_session (draws a))).

Definition sweep_to_multisig (jwt : option bytes) : Srv SigningPackageResponse :=
  validate_jwt jwt ;!
  let! id := draw_session in
  let! tracked_txs := db_call get_tracked_txs in
  if negb (bool_decide (tracked_txs = [])) then fail FailedPrecondition else
  let! fee_rate := estimate_fee_rate in
  let! output_script := federation_script LEGACY_MULTISIG_ID in
  let! app := get in
  let! psbt := map_errM (λ e, Internal (Some (ECoordination e)))
    (on_db (make_sweep_tx fee_rate output_script (min_signers app) LEGACY_MULTISIG_ID)) in
  open_session id psbt.

Definition get_to_sign_rpc (jwt : option bytes) (signing_session_id : bytes) : Srv SigningPackageResponse :=
  validate_jwt jwt ;!
  let! id := session_id signing_session_id in
  let! app := get in
  let! psbt := map_errM (λ e, Internal (Some (ECoordination e))) (on_db (get_to_sign id (min_signers app))) in
  signing_package psbt id.

Definition new_round1_rpc (jwt : option bytes) (r : SigningPackageResponse) : Srv unit :=
  validate_jwt jwt ;!
  read_key_package ;!
  let! id := session_id (sr_session_id r) in
  let! frost_id := peer_id (sr_identifier r) in
  let! psbt := parse_psbt (sr_psbt r) in
  let! app := get in
  map_errM (λ e, Internal (Some (ECoordination e)))
    (on_db (add_round1_signing id frost_id psbt (min_signers app))).

Definition new_round2_rpc (jwt : option bytes) (r : SigningPackageResponse) : Srv unit :=
  validate_jwt jwt ;!
  read_key_package ;!
  let! id := session_id (sr_session_id r) in
  let! frost_id := peer_id (sr_identifier r) in
  let! psbt := parse_psbt (sr_psbt r) in
  let! app := get in
  map_errM (λ e, Internal (Some (ECoordination e)))
    (on_db (add_round2_signing id frost_id psbt (min_signers app))).

(** ** Addresses *)

Definition get_public_key (jwt : option bytes) : Srv bytes :=
  validate_jwt jwt ;!
  let! k := db_call get_key_package in
  let! key_package := lift (ok_or k InvalidArgument) in
  let! pk := lift (ok_or (vk_serialize (verifying_key key_package)) (Internal (Some EFrost))) in
  ret (hex_encode pk).

(** [address::generate_taproot_address] *)
Definition generate_taproot_address {E} (tweaked_public_key : PublicKey) : outcome E bytes :=
  expect (address_from_script (generate_taproot_scriptpubkey tweaked_public_key)).

Record GatewayAddress := mkGatewayAddress {
  ga_publickey : bytes;
  ga_tweaked_public_key : bytes;
  ga_gateway_address : bytes }.

Definition get_gateway_address (jwt : option bytes) (eth_address : bytes) : Srv GatewayAddress :=
  validate_jwt jwt ;!
  let! k := db_call get_key_package in
  let! key_package := lift (ok_or k (Internal None)) in
  let! eth_address := lift (map_err (λ e, Internal (Some (EParsing e))) (parse_eth_address eth_address)) in
  let agg_key := verifying_key key_package in
  let! tweaked_key := lift (map_err (λ _, Internal None) (generate_tweaked_public_key agg_key eth_address)) in
  let! gateway_address := lift (generate_taproot_address tweaked_key) in
  let! publickey := lift (ok_or (vk_serialize agg_key) (Internal None)) in
  ret (mkGatewayAddress (hex_encode publickey) (hex_encode (pk_serialize tweaked_key)) gateway_address).

(** ** Recovering UTXOs *)

(** The script that a UTXO of this key has to pay: tweaked by the Ethereum
    address, or the change script without one. *)
Definition expected_script_pubkey (key_package : SigningKey) (eth_address : option bytes)
    : outcome Status ScriptBuf :=
  match eth_address with
  | Some a =>
      let? tweaked_key := map_err (λ _, Internal None)
                            (generate_tweaked_public_key (verifying_key key_package) a) in
      Ok (generate_taproot_scriptpubkey tweaked_key)
  | None =>
      let? secp_pk := map_err (λ _, Internal None) (vk_to_secp_pk (verifying_key key_package)) in
      Ok (generate_taproot_change_scriptpubkey (pk_serialize secp_pk))
  end.

Definition recovery_address (b : bytes) : outcome Status (option bytes) :=
  if bool_decide (b = []) then Ok None
  else let? a := map_err (λ _, Internal None) (parse_eth_address b) in Ok (Some a).

(** One requested UTXO; [None] when it is skipped. *)
Definition recover_utxo (db_outpoints : list OutPoint) (r : UtxoToRecover) : Srv (option Utxo) :=
  let m := mkMultisigId (ur_multisig_id r) in
  let! k := db_call (get_key_package_by_id m) in
  let! key_package := lift (ok_or k (Internal None)) in
  let! req_outpoint := lift (ok_or (ur_outpoint r) InvalidArgument) in
  let! outpoint := lift (map_err (λ _, InvalidArgument) (OutPoint_try_from req_outpoint)) in
  if contains db_outpoints outpoint then ret None else
  let! on_chain := answer (λ n, get_tx_out n outpoint) in
  match on_chain with
  | inr _ => fail (Internal None)
  | inl None => ret None
  | inl (Some on_chain_utxo) =>
      let! eth_address := lift (recovery_address (ur_eth_address r)) in
      let utxo := mkUtxo outpoint on_chain_utxo eth_address 0 m in
      let! expected := lift (expected_script_pubkey key_package eth_address) in
      if negb (bool_decide (expected = script_pubkey (utxo_output utxo))) then ret None
      else ret (Some utxo)
  end.

Fixpoint recover_utxos (db_outpoints : list OutPoint) (rs : list UtxoToRecover) : Srv (list Utxo) :=
  match rs with
  | [] => ret []
  | r :: rs' =>
      let! u := recover_utxo db_outpoints r in
      let! us := recover_utxos db_outpoints rs' in
      ret (match u with Some u => u :: us | None => us end)
  end.

(** The numbers requested and recovered. *)
Definition recover_missing_utxos (jwt : option bytes) (rs : list UtxoToRecover) : Srv (Z * Z) :=
  validate_jwt jwt ;!
  let total_requested := Z.of_nat (length rs) in
  let! db_utxos := db_call get_all_utxos in
  let! utxos_to_add := recover_utxos (map utxo_outpoint db_utxos) rs in
  db_call (store_utxos utxos_to_add) ;!
  db_call update_utxo_merkle_root ;!
  db_call flush ;!
  ret (total_requested, Z.of_nat (length utxos_to_add)).

(** ** Key generation *)

Record RpcDkgPayload := mkRpcDkgPayload {
  dp_sender : bytes;
  dp_recipient : bytes;
  dp_payload : bytes;
  dp_multisig_id : Z }.

Record RpcDkgPayloads := mkRpcDkgPayloads { dps_timeout : Z; dps_payloads : list RpcDkgPayload }.

(** A call on the state machine of a multisig; the machines share the random
    generator. *)
Definition on_machine {A} (m : MultisigId) (f : M DkgMachine DkgError A) : AM DkgError A := λ a,
  match dkg_sessions a !! m with
  | None => (a, Panic)
  | Some s =>
      let '(d, r) := f (Dkg.set_rng (dkg_draws a) (machine s)) in
      (set_dkg_draws (Dkg.rng d)
         (set_dkg_sessions (<[m := mkDkgState _ d (ds_stage s) (ds_session_nonce s)]> (dkg_sessions a)) a), r)
  end.

Definition dkg_call {A} (m : MultisigId) (f : M DkgMachine DkgError A) : Srv A :=
  map_errM (λ e, Internal (Some (EDkg e))) (on_machine m f).

(** What the log remembers of the machine. *)
Definition print_dkg_state_log (s : DkgState) : DkgState :=
  let s := match Dkg.session_nonce (machine s), ds_session_nonce s with
           | Some current, Some tracked =>
               if negb (tracked =? current) then mkDkgState _ (machine s) None (Some current) else s
           | Some current, None => mkDkgState _ (machine s) (ds_stage s) (Some current)
           | None, _ => s
           end in
  let stage := Dkg.stage (machine s) in
  match ds_stage s with
  | Some tracked => if bool_decide (tracked ≠ stage)
                    then mkDkgState _ (machine s) (Some stage) (ds_session_nonce s) else s
  | None => mkDkgState _ (machine s) (Some stage) (ds_session_nonce s)
  end.

Definition log_session (m : MultisigId) : Srv unit :=
  modify (λ a, set_dkg_sessions (alter print_dkg_state_log m (dkg_sessions a)) a).

(** The loop that empties the queue of the machine; every round takes a
    payload from the queue, so its length is fuel enough. *)
Fixpoint drain_payloads (fuel : nat) (m : MultisigId) : Srv (list RpcDkgPayload) :=
  match fuel with
  | O => ret []
  | S fuel' =>
      let! now := answer instant in
      let! p := dkg_call m (Dkg.send now) in
      match p with
      | None => ret []
      | Some p =>
          let! rest := drain_payloads fuel' m in
          ret (mkRpcDkgPayload (id_serialize (Dkg.p_sender p)) (id_serialize (Dkg.recipient p))
                 (dkg_encode (Dkg.msg p)) (as_u32 m) :: rest)
      end
  end.

Definition queue_length (m : MultisigId) (a : App) : nat :=
  match dkg_sessions a !! m with Some s => length (Dkg.queue (machine s)) | None => 0%nat end.

Definition send_all (m : MultisigId) : Srv (list RpcDkgPayload) :=
  let! n := gets (queue_length m) in drain_payloads (S n) m.

(** [timeout.map(|t| t.as_millis() as u64).unwrap_or(u64::MAX)] *)
Definition timeout_millis (m : MultisigId) : Srv Z :=
  let! now := answer instant in
  let! a := get in
  ret match dkg_sessions a !! m ≫= λ s, Dkg.timeout now (machine s) with
      | Some t => (t / Dkg.MILLISECOND) mod 2 ^ 64
      | None => u64_max
      end.

Definition require_session (m : MultisigId) : Srv unit :=
  let! a := get in
  if bool_decide (is_Some (dkg_sessions a !! m)) then ret tt else fail (Internal None).

(** [AlreadyExists] when the multisig has a key. *)
Definition refuse_existing_key (m : MultisigId) : Srv unit :=
  let! k := db_call (get_key_package_by_id m) in
  if bool_decide (is_Some k) then fail AlreadyExists else ret tt.

Definition get_dkg_payloads (jwt : option bytes) (multisig_id : Z) : Srv RpcDkgPayloads :=
  validate_jwt jwt ;!
  let m := mkMultisigId multisig_id in
  refuse_existing_key m ;!
  require_session m ;!
  let! now := answer instant in
  dkg_call m (Dkg.on_timeout now) ;!
  log_session m ;!
  let! payloads := send_all m in
  let! timeout := timeout_millis m in
  ret (mkRpcDkgPayloads timeout payloads).

(** The packages of a finished key generation are stored, once. *)
Definition store_final_key (m : MultisigId) : Srv unit :=
  let! a := get in
  match dkg_sessions a !! m ≫= λ s, Dkg.aggregate_key_packages (machine s) with
  | None => ret tt
  | Some (sec_key, pub_key) =>
      let m := default m ((λ s, Dkg.multisig_id (machine s)) <$> dkg_sessions a !! m) in
      let! k := db_call (get_key_package_by_id m) in
      if bool_decide (k = None) then
        db_call (set_key_package_by_id m (stored_key_package sec_key)) ;!
        db_call (set_pubkey_package_by_id m (stored_pubkey_package pub_key)) ;!
        db_call flush
      else ret tt
  end.

Definition new_dkg_payload (jwt : option bytes) (req : RpcDkgPayload) : Srv RpcDkgPayloads :=
  validate_jwt jwt ;!
  let m := mkMultisigId (dp_multisig_id req) in
  let! sender := peer_id (dp_sender req) in
  let! recipient := peer_id (dp_recipient req) in
  let! msg := lift (ok_or (dkg_decode (dp_payload req)) (Internal (Some EDkgDeserialization))) in
  require_session m ;!
  dkg_call m (Dkg.recv (Dkg.mkPayload (id_scalar sender) (id_scalar recipient) msg)) ;!
  log_session m ;!
  let! payloads := send_all m in
  store_final_key m ;!
  let! timeout := timeout_millis m in
  ret (mkRpcDkgPayloads timeout payloads).

(** ** Starting and aborting a key generation *)

Definition SECOND : Z := 1000000000.

(** The members of a multisig by their position. *)
Definition dkg_members (ms : list FedMemberPubKey) : outcome DkgError (gmap FrostId PubKey) :=
  ofold (λ members '(pos, x),
    let? pubkey := ok_or (pubkey_from_str (key x)) (Dkg.BadConfig "invalid federation member public key") in
    Ok (<[id_scalar (frost_id (Z.of_nat pos mod 2 ^ 16)) := pubkey]> members)) ∅ (imap pair ms).

(** [unix] is the clock in seconds since the epoch, read by the coordinator
    only, and [draw] the next draw of the random generator. *)
Definition new_dkg_state_machine (frost_identifier : Identifier) (secret : SecretKey) (m : MultisigId)
    (coordinator : Identifier) (federation : FederationTomlConfig) (min_signers max_signers : Z)
    (is_coordinator : bool) (unix draw : Z) : outcome DkgError DkgState :=
  let dkg_config := Dkg.mkConfig max_signers min_signers (3 * SECOND) (3 * SECOND) (3 * SECOND)
                      (Some (60 * 5 * SECOND)) in
  let? multisig_config :=
    ok_or (get_config_by_multisig_id federation m) (Dkg.BadConfig "missing multisig id") in
  let? members := dkg_members (federation_member_public_key multisig_config) in
  let? session_nonce := if is_coordinator then let? t := epoch_seconds unix in Ok (Some t) else Ok None in
  let? machine := Dkg.dkg_new (id_scalar frost_identifier) secret m (id_scalar coordinator) members dkg_config
                    session_nonce draw in
  Ok (mkDkgState _ machine None None).

(** The [federation.min_signers] and [max_signers] of the legacy multisig are
    used for every multisig. *)
Definition start_new_dkg (jwt : option bytes) (multisig_id : Z) : Srv unit :=
  validate_jwt jwt ;!
  let m := mkMultisigId multisig_id in
  refuse_existing_key m ;!
  let! a := get in
  if bool_decide (is_Some (dkg_sessions a !! m)) then fail AlreadyExists else
  let coordinator := frost_id (default DEFAULT_COORDINATOR_ID (config_coordinator a)) in
  let! unix := if is_coordinator a then answer system_time else ret 0 in
  let! state := lift (map_err (λ _, Internal None)
    (new_dkg_state_machine (identifier a) (p2p_secret_key a) m coordinator (federation a) (min_signers a)
       (max_signers a) (is_coordinator a) unix (dkg_draws a))) in
  modify (λ a, set_dkg_draws (Dkg.rng (machine state))
                 (set_dkg_sessions (<[m := state]> (dkg_sessions a)) a)) ;!
  modify (λ a, set_notifications (notifications a ++ [DkgStart m]) a).

Definition abort_dkg (jwt : option bytes) (multisig_id : Z) : Srv unit :=
  validate_jwt jwt ;!
  let m := mkMultisigId multisig_id in
  refuse_existing_key m ;!
  let! a := get in
  if negb (bool_decide (is_Some (dkg_sessions a !! m))) then fail NotFound else
  modify (λ a, set_dkg_sessions (delete m (dkg_sessions a)) a) ;!
  modify (λ a, set_notifications (notifications a ++ [DkgAbort m]) a).

(** Currently not used. *)
Definition signer_finalize : Srv unit := panic.

(** ** The requests *)

Inductive Request :=
| HealthCheck
| NewConsensusCheckpoint (r : ConsensusCheckpointRequest)
| GetSigningStatus (signing_session_id : bytes)
| GetSessionIds (max_results : Z)
| GetPendingPegouts
| GetFinalizedPegoutIds (chunk_size : nat)
| ResetAllUtxos (us : list RpcUtxo)
| GetAllUtxos
| ListMultisigs
| GetWalletState
| GetTrackedTxs
| ResetWalletState (ids : list RpcFinalizedPegout)
| AbortSigning
| GetRound1SigningPackage (psbt signing_session_id : bytes)
| GetRound2SigningPackage (psbt signing_session_id : bytes)
| FinalizeSigning (signing_session_id : bytes)
| GetPsbt (signing_session_id checkpoint : bytes)
| SweepToMultisig
| GetToSignPackage (signing_session_id : bytes)
| NewRound1SigningPackage (r : SigningPackageResponse)
| NewRound2SigningPackage (r : SigningPackageResponse)
| GetPublicKey
| GetGatewayAddress (eth_address : bytes)
| GetDkgPayloads (multisig_id : Z)
| NewDkgPayload (p : RpcDkgPayload)
| StartNewDkg (multisig_id : Z)
| AbortDkg (multisig_id : Z)
| SignerFinalize
| RecoverMissingUtxos (us : list UtxoToRecover).

Inductive Response :=
| REmpty
| RSigningStatus (s : SigningStatus)
| RSessionIds (ids : list bytes)
| RPendingPegouts (ps : list RpcPendingPegout)
| RFinalizedPegouts (bs : list FinalizedBatch)
| RUtxos (us : list RpcUtxo)
| RMultisigs (ids : list Z)
| RWalletState (w : WalletState)
| RTrackedTxs (ts : list RpcTrackedTx)
| RSigningPackage (p : SigningPackageResponse)
| RPsbt (p : bytes)
| RPublicKey (k : bytes)
| RGatewayAddress (g : GatewayAddress)
| RDkgPayloads (p : RpcDkgPayloads)
| RRecovered (requested recovered : Z).

Definition respond {A} (f : A → Response) (m : Srv A) : Srv Response := let! x := m in ret (f x).

Definition empty_response (m : Srv unit) : Srv Response := respond (λ _, REmpty) m.

(** The dispatch of tonic: [jwt] is the metadata entry of the request, [fuel]
    bounds the loops of the chain synchronization. *)
Definition handle (fuel : nat) (jwt : option bytes) (req : Request) : Srv Response :=
  match req with
  | HealthCheck => empty_response (health_check jwt)
  | NewConsensusCheckpoint r => empty_response (new_consensus_checkpoint fuel jwt r)
  | GetSigningStatus id => respond RSigningStatus (get_signing_status_rpc jwt id)
  | GetSessionIds n => respond RSessionIds (get_session_ids_rpc jwt n)
  | GetPendingPegouts => respond RPendingPegouts (get_pending_pegouts_rpc jwt)
  | GetFinalizedPegoutIds n => respond RFinalizedPegouts (get_finalized_pegout_ids_rpc jwt n)
  | ResetAllUtxos us => empty_response (reset_all_utxos jwt us)
  | GetAllUtxos => respond RUtxos (get_all_utxos_rpc jwt)
  | ListMultisigs => respond RMultisigs (list_multisigs jwt)
  | GetWalletState => respond RWalletState (get_wallet_state jwt)
  | GetTrackedTxs => respond RTrackedTxs (get_tracked_txs_rpc jwt)
  | ResetWalletState ids => empty_response (reset_wallet_state jwt ids)
  | AbortSigning => empty_response abort_signing
  | GetRound1SigningPackage psbt id => respond RSigningPackage (get_round1_rpc jwt psbt id)
  | GetRound2SigningPackage psbt id => respond RSigningPackage (get_round2_rpc jwt psbt id)
  | FinalizeSigning id => respond RPsbt (finalize_signing_rpc jwt id)
  | GetPsbt id checkpoint => respond RSigningPackage (get_psbt_rpc fuel jwt id checkpoint)
  | SweepToMultisig => respond RSigningPackage (sweep_to_multisig jwt)
  | GetToSignPackage id => respond RSigningPackage (get_to_sign_rpc jwt id)
  | NewRound1SigningPackage r => empty_response (new_round1_rpc jwt r)
  | NewRound2SigningPackage r => empty_response (new_round2_rpc jwt r)
  | GetPublicKey => respond RPublicKey (get_public_key jwt)
  | GetGatewayAddress a => respond RGatewayAddress (get_gateway_address jwt a)
  | GetDkgPayloads m => respond RDkgPayloads (get_dkg_payloads jwt m)
  | NewDkgPayload p => respond RDkgPayloads (new_dkg_payload jwt p)
  | StartNewDkg m => empty_response (start_new_dkg jwt m)
  | AbortDkg m => empty_response (abort_dkg jwt m)
  | SignerFinalize => empty_response signer_finalize
  | RecoverMissingUtxos us => respond (λ '(n, k), RRecovered n k) (recover_missing_utxos jwt us)
  end.

(** ** Starting the server *)

(** The configuration; the contents of a file that cannot be read are [None],
    and [jwt_secret] is the result of loading or creating the secret. *)
Record BootConfig := mkBoot {
  boot_identifier : Z;
  boot_coordinator : option Z;
  boot_federation : option bytes;
  boot_config_hash : bytes;
  boot_p2p_secret_key : option bytes;
  boot_jwt_secret : option (outcome JwtError JwtSecret);
  boot_fall_back_fee_rate : Z;
  boot_network : Network;
  boot_excluded : list bytes;
  boot_telemetry : bool }.

Context `{!ConfigLib}.

Definition is_hexdigit (b : Z) : bool :=
  ((48 <=? b) && (b <=? 57)) || ((65 <=? b) && (b <=? 70)) || ((97 <=? b) && (b <=? 102)).

Definition load_federation (c : BootConfig) : outcome ServerError FederationTomlConfig :=
  let? raw := ok_or (boot_federation c) EIo in
  map_err (λ _, EDkg (Dkg.BadConfig "config hash")) (verify_config_hash raw (boot_config_hash c)) ;?
  map_err (λ _, EDkg (Dkg.BadConfig "invalid federation Toml config")) (federation_from_str raw).

Definition load_secret_key (c : BootConfig) : outcome ServerError SecretKey :=
  let? raw := ok_or (boot_p2p_secret_key c) EIo in
  ok_or (secret_key_from_str (List.filter is_hexdigit raw)) (EDkg (Dkg.BadConfig "invalid p2p secret key")).

(** While the server starts: its database and the number of calls made. *)
Abbreviation Boot A := (M (Db * nat) ServerError A).

Definition boot_db {E A} (m : M Db E A) : M (Db * nat) E A := zoom fst (λ d s, (d, s.2)) m.

Definition boot_answer {A} (f : nat → A + RpcError) : Boot A := λ s,
  ((s.1, S s.2), match f s.2 with inl a => Ok a | inr e => Err (ESync (Rpc e)) end).

Definition load_pegout_scheduler (fallback_checkpoint : BlockHash) (depth : nat) (tel : bool)
    : Boot PegoutScheduler :=
  let! latest := map_errM EDb (boot_db get_pegout_mgr_finalized_block) in
  let! '(txs, checkpoint) :=
    match latest with
    | Some latest => let! txs := map_errM EDb (boot_db get_tracked_txs) in ret (txs, latest)
    | None => ret ([], fallback_checkpoint)
    end in
  let! s := get in
  let '(sched, r) := PegoutScheduler.new depth txs checkpoint s.1 tel in
  lift r ;! ret sched.

(** One multisig of the federation: a member without a key takes part in the
    generation of one; a key whose public part is missing panics. *)
Definition boot_session (c : BootConfig) (fed : FederationTomlConfig) (secret : SecretKey)
    (persisted : list MultisigId) (acc : gmap MultisigId DkgState * Z) (mc : MultisigConfig)
    : Boot (gmap MultisigId DkgState * Z) :=
  let id := frost_id (boot_identifier c) in
  let coordinator := frost_id (default DEFAULT_COORDINATOR_ID (boot_coordinator c)) in
  let m := mc_multisig_id mc in
  let is_member := existsb (λ x, bool_decide (key x = pubkey_to_string (pub_of secret)))
                     (federation_member_public_key mc) in
  if negb is_member then ret acc else
  if contains persisted m then
    let! pk := λ s, match boot_db (get_public_key_package_by_id m) s with
                    | (s', Ok o) => (s', Ok o)
                    | (s', _) => (s', Panic)
                    end in
    match pk with Some _ => ret acc | None => panic end
  else
    let! s := get in
    let! state := lift (map_err EDkg (new_dkg_state_machine id secret m coordinator fed (mc_min_signers mc)
      (effective_max_signers mc) (bool_decide (id = coordinator)) (system_time s.2) acc.2)) in
    modify (λ s, (s.1, S s.2)) ;!
    ret (<[m := state]> acc.1, Dkg.rng (machine state)).

Fixpoint boot_sessions (c : BootConfig) (fed : FederationTomlConfig) (secret : SecretKey)
    (persisted : list MultisigId) (acc : gmap MultisigId DkgState * Z) (ms : list MultisigConfig)
    : Boot (gmap MultisigId DkgState * Z) :=
  match ms with
  | [] => ret acc
  | mc :: ms' =>
      let! acc := boot_session c fed secret persisted acc mc in
      boot_sessions c fed secret persisted acc ms'
  end.

Definition app_new (c : BootConfig) : Boot App :=
  okM (boot_db migrate_legacy_key_package) ;!
  let! fed := lift (load_federation c) in
  let! active_multisig := lift (ok_or (get_config_by_multisig_id fed LEGACY_MULTISIG_ID)
    (EDkg (Dkg.BadConfig "missing multisig id"))) in
  let! secret := lift (load_secret_key c) in
  let! jwt := match boot_jwt_secret c with
              | Some r => let! s := lift (map_err EJwt r) in ret (Some s)
              | None => ret None
              end in
  let! fee_rate := lift (expect (from_sat_per_vb (boot_fall_back_fee_rate c))) in
  let! depth := lift (get_pegin_confirmation_depth (boot_network c)) in
  let! tip_height := boot_answer get_block_count in
  let! fallback_checkpoint := boot_answer (λ n, get_block_hash n (saturating_sub tip_height depth)) in
  let! sched := load_pegout_scheduler fallback_checkpoint (Z.to_nat depth) (boot_telemetry c) in
  let! persisted := λ s, match boot_db list_multisig_ids s with
                         | (s', Ok ids) => (s', Ok ids)
                         | (s', _) => (s', Panic)
                         end in
  let! '(sessions, dkg_draws) := boot_sessions c fed secret persisted (∅, 0) (multisig fed) in
  let! s := get in
  ret (mkApp _ _ (set_calls s.2 (PegoutScheduler.set_db s.1 sched)) (frost_id (boot_identifier c))
         (effective_max_signers active_multisig) (mc_min_signers active_multisig) secret fed sessions None
         (boot_identifier c) (boot_coordinator c) (boot_excluded c) jwt fee_rate [] 0 dkg_draws).

(** ** Notifications *)

Inductive MigrationEvent := MigrationStart | MigrationEnd | MigrationAbort.

Record MigrationNotification := mkMigration {
  mn_event : MigrationEvent;
  mn_multisig_id_from : MultisigId;
  mn_multisig_id_to : MultisigId;
  mn_migration_id : bytes }.

Inductive DynafedSubscriptionMessage :=
| DynafedDkg (n : DkgNotification)
| DynafedMigration (n : MigrationNotification).

(** The message of the stream: the number of the event and the ids. *)
Inductive RpcNotification :=
| RpcDkgNotification (event multisig_id : Z)
| RpcMigrationNotification (event multisig_id_from multisig_id_to : Z) (migration_id : bytes).

Definition notification_multisig_id (n : DkgNotification) : MultisigId :=
  match n with DkgStart m | DkgRestart m | DkgAbort m => m end.

Definition notification_payload (n : DynafedSubscriptionMessage) : RpcNotification :=
  match n with
  | DynafedDkg (DkgStart m) => RpcDkgNotification 1 (as_u32 m)
  | DynafedDkg (DkgRestart m) => RpcDkgNotification 2 (as_u32 m)
  | DynafedDkg (DkgAbort m) => RpcDkgNotification 3 (as_u32 m)
  | DynafedMigration m =>
      let migration_event := match mn_event m with
                             | MigrationStart => 1
                             | MigrationEnd => 2
                             | MigrationAbort => 3
                             end in
      RpcMigrationNotification migration_event (as_u32 (mn_multisig_id_from m))
        (as_u32 (mn_multisig_id_to m)) (mn_migration_id m)
  end.

End server.
