(* ===== verification/ServerFrame.v ===== *)
(** * What the calls of the server leave alone

    Frame lemmas for [ServerSafety]: which calls of the database, of the
    scheduler and of the handlers can change the stored keys, the nonces of
    the signer, the sessions and the configuration. *)

From stdpp Require Import strings.
From S2P Require Import Prelude Bytes Codec DkgAuth Dkg.
From S2P Require Import Bitcoin Psbt Types Concrete CoinSelection Database Merkle Util.
From S2P Require Import Coordinator Signer PegoutScheduler Peg Federation Jwt Rpc Server.

Open Scope Z_scope.

(** ** The database *)

(** The stored keys of the federations. *)
Definition stored_keys `{!FrostLib} (d : Db) : gmap bytes SigningKey * gmap bytes Psbt.PublicKeyPackage :=
  (key_packages d, pubkey_packages d).

#[export] Instance stored_keys_io `{!FrostLib} : IoFree (keeps stored_keys).
Proof. intros r d. reflexivity. Qed.

(** [expect] and [unwrap] on the result of a call. *)
Lemma respects_expect {S E E' A} (R : relation S) (m : M S E A) (k : S * outcome E A → S * outcome E' A) :
  (∀ s r, (k (s, r)).1 = s) → respects R m → respects R (λ s, k (m s)).
Proof. intros Hk Hm s. specialize (Hm s). destruct (m s) as [s' r]. by rewrite Hk. Qed.

Create HintDb frames discriminated.

(** Peel the combinators off a call; what remains is a primitive of the
    database, a hint or a hypothesis. *)
Ltac head_of t := lazymatch t with ?f _ => head_of f | _ => t end.

Ltac peel :=
  intros; first
  [ assumption
  | solve [auto 2 with frames nocore]
  | lazymatch goal with
    | |- respects _ (bindM _ _) => apply respects_bind; [exact _| |]
    | |- respects _ (map_errM _ _) => apply respects_map_err
    | |- respects _ (okM _) => apply respects_okM
    | |- respects _ (forM _ _) => apply respects_forM; [exact _|exact _|]
    | |- respects _ (sled_read _) => apply respects_sled_read; exact _
    | |- respects _ (sled_write _) => apply respects_sled_write; [exact _|exact _|reflexivity]
    | |- respects _ (transaction _) => apply respects_transaction; [exact _|exact _|reflexivity]
    | |- respects _ (lift _) => apply respects_lift; exact _
    | |- respects _ (match ?x with _ => _ end) => destruct x
    | |- respects _ (let '_ := ?x in _) => destruct x
    | |- respects _ (ret _) => apply respects_ret; exact _
    | |- respects _ (fail _) => apply respects_fail; exact _
    | |- respects _ panic => apply respects_panic; exact _
    | |- respects _ (gets _) => apply respects_gets; exact _
    | |- respects _ get => intros ?; reflexivity
    | |- respects _ (modify _) => apply respects_modify; reflexivity
    | |- respects _ ?m => let f := head_of m in unfold f
    end
  | intros ?; reflexivity ].
Ltac peel_all := repeat peel.

Section db_frames.
Context `{!BitcoinLib, !FrostLib, !PsbtLib}.

Abbreviation R := (keeps stored_keys).

Lemma keys_update_tracked_root : respects R update_tracked_tx_merkle_root.
Proof. unfold update_tracked_tx_merkle_root, get_tracked_txs. peel_all. Qed.

Lemma keys_store_tracked_tx t : respects R (store_tracked_tx t).
Proof. unfold store_tracked_tx. pose proof keys_update_tracked_root. peel_all. Qed.

Lemma keys_iter_utxos : respects R iter_utxos.
Proof. unfold iter_utxos. peel_all. Qed.

Lemma keys_update_utxo_root : respects R update_utxo_merkle_root.
Proof. unfold update_utxo_merkle_root. pose proof keys_iter_utxos. peel_all. Qed.

Lemma keys_store_utxos us : respects R (store_utxos us).
Proof. unfold store_utxos, store_utxo, store_utxos_atomically. peel_all. Qed.

Lemma keys_store_pending rs : respects R (store_pending_pegouts rs).
Proof.
  unfold store_pending_pegouts, store_pending_pegout, store_pending_pegouts_atomically,
    update_pending_pegouts_merkle_root, get_pending_pegouts. peel_all.
Qed.

Lemma keys_remove_pending ids : respects R (remove_pending_pegout ids).
Proof. unfold remove_pending_pegout. peel_all. Qed.

Lemma keys_finalized fs : respects R (store_finalized_pegout_ids fs).
Proof. unfold store_finalized_pegout_ids, store_finalized_pegout_id, store_finalized_pegout_ids_atomically. peel_all. Qed.

Lemma keys_prune now : respects R (prune_finalized_pegout_ids now).
Proof. unfold prune_finalized_pegout_ids, get_finalized_pegout_ids. peel_all. Qed.

Lemma keys_update_psbt sid p : respects R (update_psbt sid p).
Proof. unfold update_psbt. peel_all. Qed.

Lemma keys_session_ids n : respects R (get_session_ids n).
Proof. unfold get_session_ids. peel_all. Qed.

Lemma keys_signing_status sid : respects R (get_signing_status sid).
Proof. unfold get_signing_status, get_psbt. peel_all. Qed.

Lemma keys_list_ids : respects R list_multisig_ids.
Proof. unfold list_multisig_ids. peel_all. Qed.

Lemma keys_get_all_utxos : respects R get_all_utxos.
Proof. unfold get_all_utxos. peel_all. Qed.

Lemma keys_wallet_state : respects R get_wallet_state_commitment.
Proof.
  unfold get_wallet_state_commitment, get_utxo_set_merkle_root, get_tracked_tx_set_merkle_root,
    get_pending_pegouts_set_merkle_root, get_utxo_merkle_root, get_tracked_tx_merkle_root,
    get_pending_pegouts_merkle_root. peel_all.
Qed.

Lemma keys_coord_pending n : respects R (coord_pending_pegouts n).
Proof. unfold coord_pending_pegouts, get_pending_pegouts. peel_all. Qed.

Lemma keys_available : respects R get_available_utxos.
Proof. unfold get_available_utxos, get_tracked_txs. pose proof keys_iter_utxos. peel_all. Qed.

Lemma keys_stream n : respects R (get_finalized_pegout_ids_stream n).
Proof.
  assert (∀ ks, respects R (stream_items ks)) as Hi.
  { induction ks; cbn [stream_items]; peel_all. }
  assert (∀ cs i k, respects R (stream_chunks cs i k)) as Hc.
  { induction cs; intros i k; cbn [stream_chunks]; peel_all. }
  unfold get_finalized_pegout_ids_stream, peek_finalized_pegout_ids. peel_all.
Qed.

Lemma keys_validate_psbt p flags n : respects R (validate_psbt p flags n).
Proof.
  assert (respects R (sanity_checks p)) as Hs.
  { unfold sanity_checks, has_conflicting_input, validate_outputs, check_scanned, get_tracked_txs,
      get_public_key_package, get_public_key_package_by_id, get_finalized_pegout_ids, remove_pending_pegout.
    peel_all. }
  assert (∀ tx i k, respects R (check_round1_input tx i k)) as Hone.
  { intros tx i k. unfold check_round1_input.
    apply respects_bind; [exact _|peel_all|]. intros txin.
    apply respects_bind; [exact _| |intros u; peel_all].
    apply (respects_expect R (get_utxo (previous_output txin))
      (λ p, match p with (d', Ok u) => (d', Ok u) | (d', _) => (d', Panic) end)).
    - by intros s [].
    - unfold get_utxo. peel_all. }
  assert (∀ tx k ins, respects R (check_inputs flags tx k ins)) as Hc.
  { intros tx k ins. revert k. induction ins as [|i ins IH]; intros k; cbn [check_inputs]; [peel_all|].
    destruct (has_flag flags ROUND1); [|apply IH]. apply respects_bind; [exact _|apply Hone|].
    intros []; [apply IH|peel_all]. }
  unfold validate_psbt. apply respects_bind; [exact _|exact Hs|]. intros _.
  destruct (flags =? NO_FLAGS); [peel_all|]. apply respects_bind; [exact _|peel_all|]. intros _.
  apply respects_bind; [exact _|peel_all|]. intros tx. apply Hc.
Qed.

End db_frames.

#[export] Hint Resolve keys_update_tracked_root keys_store_tracked_tx keys_iter_utxos keys_update_utxo_root
  keys_store_utxos keys_store_pending keys_remove_pending keys_finalized keys_prune keys_update_psbt
  keys_session_ids keys_signing_status keys_list_ids keys_get_all_utxos keys_wallet_state keys_coord_pending
  keys_available keys_stream keys_validate_psbt : frames.

Section coordinator_frames.
Context `{!BitcoinLib, !FrostLib, !PsbtLib, !FrostSign, !BdkLib}.

Abbreviation R := (keeps stored_keys).

Lemma keys_add_round1 sid id p n : respects R (add_round1_signing sid id p n).
Proof. unfold add_round1_signing, flush. peel_all. Qed.

Lemma keys_add_round2 sid id p n : respects R (add_round2_signing sid id p n).
Proof. unfold add_round2_signing, flush. peel_all. Qed.

Lemma keys_get_to_sign sid n : respects R (get_to_sign sid n).
Proof. unfold get_to_sign, get_psbt. peel_all. Qed.

Lemma keys_finalize_signing sid : respects R (finalize_signing sid).
Proof.
  assert (∀ pkgs ins k, respects R (aggregate_inputs pkgs k ins)) as Ha.
  { intros pkgs. induction ins as [|i ins IH]; intros k; cbn [aggregate_inputs]; [peel_all|].
    unfold aggregate_input, get_public_key_package_by_id. peel_all. }
  unfold finalize_signing, get_psbt. peel_all.
Qed.

Lemma keys_attempt outs rate spk n txs ex m : respects R (attempt_make_tx outs rate spk n txs ex m).
Proof. unfold attempt_make_tx, iter_utxos_by_multisig. peel_all. Qed.

Lemma keys_make_tx outs rate spk n txs ex m d :
  match make_tx outs rate spk n txs ex m d with Some (d', _) => R d d' | None => True end.
Proof.
  unfold make_tx. generalize (S (length outs)) as fuel. intros fuel. revert outs d.
  induction fuel as [|fuel IH]; intros outs d; cbn [make_tx_loop]; [done|].
  pose proof (keys_attempt outs rate spk n txs ex m d) as Hk.
  destruct (attempt_make_tx outs rate spk n txs ex m d) as [d1 [p|e|]]; [|exact Hk..]. cbn [fst] in Hk.
  destruct (calculate_signed_tx_weight p) as [w|e|]; [|exact Hk..].
  destruct (negb _); [exact Hk|]. destruct (length outs <=? 1)%nat; [exact Hk|].
  specialize (IH (truncate_outputs outs) d1).
  destruct (make_tx_loop _ _ _ _ _ _ _ _ _) as [[d2 r]|]; [|done]. by etrans.
Qed.

Lemma keys_sweep rate spk n m : respects R (make_sweep_tx rate spk n m).
Proof. unfold make_sweep_tx, iter_utxos_by_multisig. peel_all. Qed.

End coordinator_frames.

#[export] Hint Resolve keys_add_round1 keys_add_round2 keys_get_to_sign keys_finalize_signing keys_attempt
  keys_sweep : frames.

(** ** The scheduler *)

Definition sched_keys `{!FrostLib} (s : PegoutScheduler) := stored_keys (db s).

Section scheduler_frames.
Context `{!BitcoinLib, !FrostLib, !PsbtLib, !Bitcoind}.

Abbreviation R := (keeps sched_keys).

Lemma sched_on_db {E A} (m : M Db E A) : respects (keeps stored_keys) m → respects R (PegoutScheduler.on_db m).
Proof. intros Hm. apply (respects_zoom R (keeps stored_keys)); [|done]. by intros s d. Qed.

Lemma sched_rpc {A} (f : nat → A + RpcError) : respects R (rpc f).
Proof. intros s. unfold rpc. by destruct (f (calls s)). Qed.

Lemma sched_expectM {E E' A} (m : M PegoutScheduler E A) : respects R m → respects R (expectM (E':=E') m).
Proof. intros Hm s. specialize (Hm s). unfold expectM. by destruct (m s) as [s' []]. Qed.

End scheduler_frames.

#[export] Hint Extern 2 (respects (keeps sched_keys) (PegoutScheduler.on_db _)) => apply sched_on_db; peel_all : frames.
#[export] Hint Extern 2 (respects (keeps sched_keys) (rpc _)) => apply sched_rpc : frames.
#[export] Hint Extern 2 (respects (keeps sched_keys) PegoutScheduler.now) => intros ?; reflexivity : frames.
#[export] Hint Extern 2 (respects (keeps sched_keys) (expectM _)) => apply sched_expectM; peel_all : frames.
#[export] Hint Extern 2 (respects (keeps sched_keys) (modify _)) => intros ?; reflexivity : frames.
#[export] Hint Extern 2 (respects (keeps sched_keys) get) => intros ?; reflexivity : frames.

Section scheduler_frames2.
Context `{!BitcoinLib, !FrostLib, !PsbtLib, !Bitcoind}.

Abbreviation R := (keeps sched_keys).

Lemma sched_track_tx {E} t : respects R (track_tx (E:=E) t).
Proof. unfold track_tx. peel_all. Qed.

Lemma sched_un_track txid : respects R (un_track_tx txid).
Proof. unfold un_track_tx, remove_tracked_tx. peel_all. Qed.

Lemma sched_add_back tx : respects R (add_tx_back_to_pending tx).
Proof. unfold add_tx_back_to_pending, flush, get_pending_pegouts. peel_all. Qed.

Hint Resolve sched_track_tx sched_un_track sched_add_back : frames.

Lemma sched_rollback {E} : respects R (rollback_tip (E:=E)).
Proof. unfold rollback_tip. peel_all. Qed.

Lemma sched_match_change spk : respects R (match_change_spk_to_multisig spk).
Proof. unfold match_change_spk_to_multisig, get_change_spk, get_public_key_package_by_id. peel_all. Qed.

Hint Resolve sched_rollback sched_match_change : frames.

Lemma sched_find_change {E} idxs i outs : respects R (find_change (E:=E) idxs i outs).
Proof. revert i. induction outs as [|o outs IH]; intros i; cbn [find_change]; peel_all. Qed.

Hint Resolve sched_find_change : frames.

Lemma sched_add_tx {E} tx ps t : respects R (add_tx (E:=E) tx ps t).
Proof. unfold add_tx. peel_all. Qed.

Lemma sched_change_utxos tx idxs : respects R (change_utxos tx idxs).
Proof. induction idxs as [|i idxs IH]; cbn [change_utxos]; unfold get_utxo; peel_all. Qed.

Hint Resolve sched_change_utxos : frames.

Lemma sched_store_change txids ins : respects R (store_change txids ins).
Proof. revert ins. induction txids as [|t txids IH]; intros ins; cbn [store_change]; unfold flush; peel_all. Qed.

Hint Resolve sched_store_change : frames.

Lemma sched_finalize_block b : respects R (finalize_block b).
Proof.
  unfold finalize_block, spend_input, finalize_tx, remove_tracked_tx, remove_utxo, flush,
    store_finalized_pegout_ids_atomically. peel_all.
Qed.

Lemma sched_track_mempool cp : respects R (track_mempool cp).
Proof. unfold track_mempool, check_mempool_tx, dropped_from_mempool. peel_all. Qed.

Lemma sched_is_syncing : respects R is_syncing.
Proof. unfold is_syncing. peel_all. Qed.

Lemma sched_find_fork fuel : respects R (find_fork fuel).
Proof. induction fuel as [|fuel IH]; cbn [find_fork]; peel_all. Qed.

Hint Resolve sched_finalize_block sched_track_mempool sched_is_syncing sched_find_fork : frames.

Lemma sched_stable_tip fuel : respects R (stable_tip fuel).
Proof. induction fuel as [|fuel IH]; cbn [stable_tip]; peel_all. Qed.

Lemma sched_hashes_back fuel l c : respects R (hashes_back fuel l c).
Proof. revert c. induction fuel as [|fuel IH]; intros c; cbn [hashes_back]; peel_all. Qed.

Lemma sched_sync_block h : respects R (sync_block h).
Proof. unfold sync_block, add_block. peel_all. Qed.

Hint Resolve sched_stable_tip sched_hashes_back sched_sync_block : frames.

Lemma sched_sync_blocks cp hs : respects R (sync_blocks cp hs).
Proof. induction hs as [|h hs IH]; cbn [sync_blocks]; peel_all. Qed.

Hint Resolve sched_sync_blocks : frames.

Lemma sched_sync_until fuel cp : respects R (sync_until fuel cp).
Proof. unfold sync_until. peel_all. Qed.

End scheduler_frames2.

#[export] Hint Resolve sched_un_track sched_add_tx sched_is_syncing sched_sync_until : frames.

(** ** Signing rounds *)

Section signer_frames.
Context `{!BitcoinLib, !FrostLib, !PsbtLib, !FrostSign}.

Definition signer_keys (s : Db * Psbt) := stored_keys s.1.

Lemma signer_on_db {E A} (m : M Db E A) :
  respects (keeps stored_keys) m → respects (keeps signer_keys) (Signer.on_db m).
Proof. intros Hm. apply (respects_zoom (keeps signer_keys) (keeps stored_keys)); [|done]. by intros s d. Qed.

End signer_frames.

#[export] Hint Extern 2 (respects (keeps signer_keys) (Signer.on_db _)) => apply signer_on_db; peel_all : frames.

Section signer_frames2.
Context `{!BitcoinLib, !FrostLib, !PsbtLib, !FrostSign}.

Lemma signer_commit_inputs id rng i k : respects (keeps signer_keys) (commit_inputs id rng i k).
Proof. revert i. induction k as [|k IH]; intros i; cbn [commit_inputs]; peel_all. Qed.

Lemma signer_sign_inputs id ns i pkgs : respects (keeps signer_keys) (sign_inputs id ns i pkgs).
Proof. revert i. induction pkgs as [|p pkgs IH]; intros i; cbn [sign_inputs]; peel_all. Qed.

Hint Resolve signer_commit_inputs signer_sign_inputs : frames.

Lemma signer_round1 n id rng : respects (keeps signer_keys) (get_round1_signing_package n id rng).
Proof. unfold get_round1_signing_package. peel_all. Qed.

Lemma signer_round2 n id ns : respects (keeps signer_keys) (get_round2_signing_package n id ns).
Proof. unfold get_round2_signing_package. peel_all. Qed.

End signer_frames2.

#[export] Hint Resolve signer_round1 signer_round2 : frames.

(** ** The server *)

Section app.
Context `{!FrostLib, !DkgLib}.

(** What is read from the configuration and never changes. *)
Definition app_conf (a : App) :=
  (identifier a, max_signers a, min_signers a, p2p_secret_key a, federation a, config_identifier a,
   config_coordinator a, excluded_eth_addresses a, btc_signing_server_jwt_secret a, fall_back_fee_rate a).

(** Keys, nonces and configuration stay, random numbers are only consumed. *)
Record steady (a a' : App) : Prop := {
  st_keys : stored_keys (app_db a') = stored_keys (app_db a);
  st_nonces : frost_round1_nonces a' = frost_round1_nonces a;
  st_draws : draws a ≤ draws a';
  st_conf : app_conf a' = app_conf a }.

(** The same, but for the nonces. *)
Record almost_steady (a a' : App) : Prop := {
  as_keys : stored_keys (app_db a') = stored_keys (app_db a);
  as_draws : draws a ≤ draws a';
  as_conf : app_conf a' = app_conf a }.

#[export] Instance steady_refl : Reflexive steady.
Proof. intros a. by split. Qed.
#[export] Instance steady_trans : Transitive steady.
Proof. intros a b c [] []. split; [congruence..|lia|congruence]. Qed.
#[export] Instance almost_steady_refl : Reflexive almost_steady.
Proof. intros a. by split. Qed.
#[export] Instance almost_steady_trans : Transitive almost_steady.
Proof. intros a b c [] []. split; [congruence|lia|congruence]. Qed.

Lemma steady_almost a a' : steady a a' → almost_steady a a'.
Proof. by intros []; split. Qed.

End app.

Section app_frames.
Context `{!BitcoinLib, !FrostLib, !PsbtLib, !FrostSign, !BdkLib, !Bitcoind, !DkgLib, !Profile, !JwtLib,
          !PegLib, !ServerLib}.

Lemma steady_on_sched {E A} (m : M PegoutScheduler E A) :
  respects (keeps sched_keys) m → respects steady (on_sched m).
Proof. intros Hm. apply (respects_zoom steady (keeps sched_keys)); [|done]. intros a s Hs. by split. Qed.

Lemma steady_on_db {E A} (m : M Db E A) : respects (keeps stored_keys) m → respects steady (on_db m).
Proof. intros Hm. by apply steady_on_sched, sched_on_db. Qed.

Lemma steady_answer {E A} (f : nat → A) : respects steady (answer (E:=E) f).
Proof. intros a. by split. Qed.

Lemma steady_on_signer {E A} psbt (m : M (Db * Psbt) E A) :
  respects (keeps signer_keys) m → respects steady (on_signer psbt m).
Proof.
  intros Hm a. unfold on_signer. specialize (Hm (app_db a, psbt)).
  destruct (m (app_db a, psbt)) as [[d p] r]. by split.
Qed.

Lemma steady_draw_for psbt : respects steady (draw_for psbt).
Proof. intros a. split; try done. cbn. lia. Qed.

Lemma steady_draw_session : respects steady draw_session.
Proof. intros a. split; try done. cbn. lia. Qed.

Lemma steady_make_tx_call outs rate spk txs m : respects steady (make_tx_call outs rate spk txs m).
Proof.
  intros a. unfold make_tx_call.
  pose proof (keys_make_tx outs rate spk (min_signers a) txs (excluded_eth_addresses a) m (app_db a)) as Hk.
  destruct (make_tx _ _ _ _ _ _ _ _) as [[d r]|]; [|by split]. by split.
Qed.

Lemma steady_on_machine {A} m (f : M DkgMachine DkgError A) : respects steady (on_machine m f).
Proof.
  intros a. unfold on_machine. destruct (dkg_sessions a !! m) as [s|]; [|by split].
  destruct (f _) as [d r]. by split.
Qed.

End app_frames.

#[export] Hint Extern 2 (respects steady (on_sched _)) => apply steady_on_sched; peel_all : frames.
#[export] Hint Extern 2 (respects steady (Server.on_db _)) => apply steady_on_db; peel_all : frames.
#[export] Hint Extern 2 (respects steady (on_signer _ _)) => apply steady_on_signer; peel_all : frames.
#[export] Hint Extern 2 (respects steady (answer _)) => apply steady_answer : frames.
#[export] Hint Extern 2 (respects steady (modify _)) => intros ?; split; reflexivity : frames.
#[export] Hint Resolve steady_draw_for steady_draw_session steady_make_tx_call steady_on_machine : frames.

Section handler_frames.
Context `{!BitcoinLib, !FrostLib, !PsbtLib, !FrostSign, !BdkLib, !Bitcoind, !DkgLib, !Profile, !JwtLib,
          !PegLib, !ServerLib}.

Lemma steady_validate_jwt jwt : respects steady (validate_jwt jwt).
Proof. unfold validate_jwt. peel_all. Qed.

Lemma steady_sync_call fuel cp : respects steady (sync_call fuel cp).
Proof. unfold sync_call. peel_all. Qed.

Lemma steady_with_clock {A B} (f : Z → A → outcome Status B) l : respects steady (with_clock f l).
Proof. induction l as [|x l IH]; cbn [with_clock]; peel_all. Qed.

Lemma steady_send_batches cs : respects steady (send_batches cs).
Proof.
  induction cs as [|[[ids i] k] cs IH]; cbn [send_batches]; [peel_all|].
  apply respects_bind; [exact _|apply steady_with_clock|]. peel_all.
Qed.

Lemma steady_convert_tracked l : respects steady (convert_tracked l).
Proof. induction l as [|x l IH]; cbn [convert_tracked]; peel_all. Qed.

Lemma steady_recover_utxos ops rs : respects steady (recover_utxos ops rs).
Proof. induction rs as [|r rs IH]; cbn [recover_utxos]; peel_all. Qed.

Lemma steady_drain fuel m : respects steady (drain_payloads fuel m).
Proof. induction fuel as [|fuel IH]; cbn [drain_payloads]; peel_all. Qed.

Hint Resolve steady_validate_jwt steady_sync_call steady_with_clock steady_send_batches
  steady_convert_tracked steady_recover_utxos steady_drain : frames.

(** The requests that leave keys and nonces alone. *)
Definition ordinary (req : Request) : bool :=
  match req with
  | AbortSigning | GetRound1SigningPackage _ _ | GetRound2SigningPackage _ _ | NewDkgPayload _ => false
  | _ => true
  end.

Lemma steady_handle fuel jwt req : ordinary req = true → respects steady (handle fuel jwt req).
Proof. destruct req; intros Ho; try discriminate Ho; clear Ho; unfold handle; peel_all. Qed.

Lemma almost_steady_of {A} (m : M App Status A) : respects steady m → respects almost_steady m.
Proof. apply respects_weaken, steady_almost. Qed.

End handler_frames.

#[export] Hint Resolve steady_validate_jwt steady_sync_call steady_with_clock steady_send_batches
  steady_convert_tracked steady_recover_utxos steady_drain : frames.

(** The requests of a signing session change nothing but the nonces. *)
#[export] Hint Extern 2 (respects almost_steady (validate_jwt _)) =>
  apply almost_steady_of; peel_all : frames.
#[export] Hint Extern 2 (respects almost_steady (db_call _)) => apply almost_steady_of; peel_all : frames.
#[export] Hint Extern 2 (respects almost_steady (draw_for _)) => apply almost_steady_of; peel_all : frames.
#[export] Hint Extern 2 (respects almost_steady (map_errM _ (on_signer _ _))) =>
  apply almost_steady_of; peel_all : frames.
#[export] Hint Extern 2 (respects almost_steady (record_signed _ _)) =>
  apply almost_steady_of; peel_all : frames.
#[export] Hint Extern 2 (respects almost_steady (modify _)) => intros ?; split; reflexivity : frames.

Section signing_frames.
Context `{!BitcoinLib, !FrostLib, !PsbtLib, !FrostSign, !BdkLib, !Bitcoind, !DkgLib, !Profile, !JwtLib,
          !PegLib, !ServerLib}.

Lemma almost_abort : respects almost_steady abort_signing.
Proof. unfold abort_signing. peel_all. Qed.

Lemma almost_round1 jwt p id : respects almost_steady (get_round1_rpc jwt p id).
Proof. unfold get_round1_rpc. peel_all. Qed.

Lemma almost_round2 jwt p id : respects almost_steady (get_round2_rpc jwt p id).
Proof. unfold get_round2_rpc. peel_all. Qed.

End signing_frames.
