(* ===== verification/ServerSafety.v ===== *)
(** * Safety of the btc-server

    What the handlers of [Server] guarantee together: which requests need a
    token, that keys are never overwritten, that no nonce signs twice, what
    happens to pending pegouts, to recovered UTXOs and to key generations. *)

From stdpp Require Import strings.
From S2P Require Import Prelude Bytes Codec DkgAuth Dkg.
From S2P Require Import Bitcoin Psbt Types Concrete CoinSelection Database Merkle Util.
From S2P Require Import Coordinator Signer PegoutScheduler Peg Federation Jwt Rpc Server ServerFrame.

Open Scope Z_scope.

(** ** Runs *)

Record Call := mkCall { c_fuel : nat; c_jwt : option bytes; c_req : Request }.

Section runs.
Context `{!BitcoinLib, !FrostLib, !PsbtLib, !FrostSign, !BdkLib, !Bitcoind, !DkgLib, !Profile, !JwtLib,
          !PegLib, !ServerLib}.

Definition serve (c : Call) (a : App) : App * outcome Status Response :=
  handle (c_fuel c) (c_jwt c) (c_req c) a.

(** A failed request and a panic do not stop the server. *)
Fixpoint run_calls (cs : list Call) (a : App) : App :=
  match cs with
  | [] => a
  | c :: cs' => run_calls cs' (serve c a).1
  end.

Lemma run_calls_app cs cs' a : run_calls (cs ++ cs') a = run_calls cs' (run_calls cs a).
Proof. revert a. induction cs as [|c cs IH]; intros a; [done|]. apply IH. Qed.

End runs.

(** ** Tokens *)

Section tokens.
Context `{!BitcoinLib, !FrostLib, !PsbtLib, !FrostSign, !BdkLib, !Bitcoind, !DkgLib, !Profile, !JwtLib,
          !PegLib, !ServerLib}.

(** Only the number of calls changes. *)
Definition tick (n : nat) (a : App) : App := set_scheduler (set_calls n (scheduler a)) a.

Definition token_accepted (jwt : option bytes) (a : App) : Prop :=
  match btc_signing_server_jwt_secret a with
  | None => True
  | Some s =>
      ∃ v b, jwt = Some v ∧ base64_decode v = Some b ∧ utf8_valid b = true ∧
        let n := calls (scheduler a) in
        0 ≤ system_time n ∧ 0 ≤ system_time (S n) ∧
        validate_token s b (system_time n) (system_time (S n)) = Ok tt
  end.

Lemma tick_id a : tick (calls (scheduler a)) a = a.
Proof. by destruct a as [[]]. Qed.

Lemma unix_now_run {E} a :
  unix_now (E:=E) a = (tick (S (calls (scheduler a))) a, epoch_seconds (system_time (calls (scheduler a)))).
Proof. done. Qed.

Lemma epoch_seconds_cases {E} t :
  (0 ≤ t ∧ epoch_seconds (E:=E) t = Ok t) ∨ (t < 0 ∧ epoch_seconds (E:=E) t = Panic).
Proof. unfold epoch_seconds. destruct (Z.ltb_spec t 0); [right|left]; done. Qed.

Lemma validate_jwt_cases jwt a :
  (∃ n, (validate_jwt jwt a).1 = tick n a) ∧ ((validate_jwt jwt a).2 = Ok tt ↔ token_accepted jwt a).
Proof.
  unfold validate_jwt, token_accepted. cbn [bindM get].
  destruct (btc_signing_server_jwt_secret a) as [s|].
  2:{ split; [exists (calls (scheduler a)); rewrite tick_id; by destruct jwt|]. by destruct jwt. }
  destruct jwt as [v|].
  2:{ split; [exists (calls (scheduler a)); by rewrite tick_id|]. split; [done|]. by intros (? & ? & ? & _). }
  unfold bindM, lift, ret, fail. destruct (base64_decode v) as [b|] eqn:Hb; cbn [ok_or].
  2:{ split; [exists (calls (scheduler a)); by rewrite tick_id|]. split; [done|].
      intros (v' & b & [= <-] & Hb' & _). congruence. }
  destruct (utf8_valid b) eqn:Hu.
  2:{ split; [exists (calls (scheduler a)); by rewrite tick_id|]. split; [done|].
      intros (v' & b' & [= <-] & Hb' & Hu' & _). congruence. }
  rewrite unix_now_run.
  destruct (epoch_seconds_cases (E:=Status) (system_time (calls (scheduler a)))) as [[Ht0 ->]|[Ht0 ->]].
  2:{ split; [by eexists|]. split; [done|]. intros (? & ? & ? & ? & ? & ? & _). lia. }
  rewrite unix_now_run. cbn [calls scheduler tick set_scheduler set_calls].
  destruct (epoch_seconds_cases (E:=Status) (system_time (S (calls (scheduler a))))) as [[Ht1 ->]|[Ht1 ->]].
  2:{ split; [by eexists|]. split; [done|]. intros (? & ? & ? & ? & ? & ? & ? & _). lia. }
  cbn [fst snd]. split; [by eexists|]. rewrite map_err_Ok. split.
  - intros Hv. by exists v, b.
  - intros (v' & b' & [= <-] & Hb' & _ & _ & _ & Hv). rewrite Hb in Hb'. by injection Hb' as <-.
Qed.

Lemma guarded {A} jwt a (k : unit → M App Status A) :
  ¬ token_accepted jwt a →
  ∃ n, (bindM (validate_jwt jwt) k a).1 = tick n a ∧ ∀ r, (bindM (validate_jwt jwt) k a).2 ≠ Ok r.
Proof.
  intros Hn. destruct (validate_jwt_cases jwt a) as [[n Ht] Hok]. exists n. unfold bindM.
  destruct (validate_jwt jwt a) as [a1 [[]|e|]]; [|done..]. by destruct Hn; apply Hok.
Qed.

Lemma respond_fails {A} (f : A → Response) (m : M App Status A) a n :
  (m a).1 = tick n a → (∀ r, (m a).2 ≠ Ok r) →
  (respond f m a).1 = tick n a ∧ ∀ r, (respond f m a).2 ≠ Ok r.
Proof.
  unfold respond, bindM. destruct (m a) as [a1 [x|e|]]; cbn; intros Ht Hn; [|done..].
  by destruct (Hn x).
Qed.

(** C23.  Without a valid token a request changes nothing and gets no answer: when
    the server has a secret and the request carries no token that is encoded
    properly, signed with the secret and from the last minute, every request
    but [AbortSigning] and the unused [SignerFinalize] fails and leaves the
    server as it was, but for the number of clock readings. *)
Theorem requests_need_a_token fuel jwt req a :
  req ≠ AbortSigning → req ≠ SignerFinalize → ¬ token_accepted jwt a →
  ∃ n, (handle fuel jwt req a).1 = tick n a ∧ ∀ r, (handle fuel jwt req a).2 ≠ Ok r.
Proof.
  intros Ha Hs Hn. destruct req; try done; cbn [handle]; unfold empty_response;
  match goal with |- context [respond ?f ?m] =>
    assert (∃ n, (m a).1 = tick n a ∧ ∀ r, (m a).2 ≠ Ok r) as (n & Ht & Hf) by (by apply guarded);
    exists n; by apply respond_fails
  end.
Qed.

(** Aborting a signing session takes no token: whoever reaches the server
    makes the signer forget its nonces, whatever secret is configured. *)
Theorem abort_signing_needs_no_token fuel jwt a :
  io (app_db a) = [] → handle fuel jwt AbortSigning a = (set_nonces None a, Ok REmpty).
Proof.
  intros Hio. cbn [handle]. unfold empty_response, respond, abort_signing, read_key_package, db_call,
    Server.on_db, on_sched, PegoutScheduler.on_db, zoom, get_key_package, get_key_package_by_id, bindM, map_errM.
  unfold app_db in Hio. rewrite sled_read_ok by done. cbn. by destruct a as [[]].
Qed.

End tokens.

(** ** Keys over a run *)

Section keys.
Context `{!BitcoinLib, !FrostLib, !PsbtLib, !FrostSign, !BdkLib, !Bitcoind, !DkgLib, !Profile, !JwtLib,
          !PegLib, !ServerLib}.

(** No stored key share is replaced or dropped, and the public package of a
    stored key share does not change. *)
Record keys_kept (d d' : Db) : Prop := {
  kk_keys : key_packages d ⊆ key_packages d';
  kk_pubs k : is_Some (key_packages d !! k) → pubkey_packages d' !! k = pubkey_packages d !! k }.

#[export] Instance keys_kept_refl : Reflexive keys_kept.
Proof. intros a. by split. Qed.

#[export] Instance keys_kept_trans : Transitive keys_kept.
Proof.
  intros a b c [Hk Hp] [Hk' Hp']. split; [by etrans|]. intros k Hs. rewrite Hp', Hp; [done..|].
  by eapply lookup_weaken_is_Some.
Qed.

Lemma keys_kept_same d d' : stored_keys d' = stored_keys d → keys_kept d d'.
Proof. intros [= Hk Hp]. split; [by rewrite Hk|]. intros k _. by rewrite Hp. Qed.

(** Keys are changed in slot [x] only. *)
Definition outside (x : bytes) (d d' : Db) : Prop := ∀ k, k ≠ x →
  key_packages d' !! k = key_packages d !! k ∧ pubkey_packages d' !! k = pubkey_packages d !! k.

#[export] Instance outside_refl x : Reflexive (outside x).
Proof. by intros d k. Qed.
#[export] Instance outside_trans x : Transitive (outside x).
Proof. intros a b c Hab Hbc k Hk. destruct (Hab k Hk), (Hbc k Hk). split; congruence. Qed.
#[export] Instance outside_io x : IoFree (outside x).
Proof. by intros r d k. Qed.

(** A slot that was empty may be filled. *)
Lemma outside_empty x d d' : key_packages d !! x = None → outside x d d' → keys_kept d d'.
Proof.
  intros Hx Ho. split.
  - apply map_subseteq_spec. intros k p Hk. rewrite (proj1 (Ho k ltac:(congruence))). done.
  - intros k [p Hk]. apply Ho. congruence.
Qed.

Definition on_app (R : relation Db) : relation App := λ a a', R (app_db a) (app_db a').

#[export] Instance on_app_refl R : Reflexive R → Reflexive (on_app R).
Proof. intros HR a. apply HR. Qed.
#[export] Instance on_app_trans R : Transitive R → Transitive (on_app R).
Proof. intros HR a b c. apply HR. Qed.

Lemma on_app_call {A} R (m : M Db DbError A) : respects R m → respects (on_app R) (db_call m).
Proof.
  intros Hm a. specialize (Hm (app_db a)). unfold db_call, map_errM, Server.on_db, on_sched,
    PegoutScheduler.on_db, zoom, app_db in *. by destruct (m _).
Qed.

Lemma keys_steady {A} (m : M App Status A) : respects steady m → respects (on_app keys_kept) m.
Proof. apply respects_weaken. intros a a' [Hk _ _ _]. by apply keys_kept_same. Qed.

Lemma key_free_Ok m a a' :
  db_call (get_key_package_by_id m) a = (a', Ok None) →
  key_packages (app_db a') !! multisig_key m = None ∧ stored_keys (app_db a') = stored_keys (app_db a).
Proof.
  unfold db_call, map_errM, Server.on_db, on_sched, PegoutScheduler.on_db, zoom, get_key_package_by_id, app_db.
  destruct (sled_read _ (db (scheduler a))) as [d [o|e|]] eqn:E; cbn; [|done..].
  intros [= <- ->]. apply sled_read_Ok in E as [Hd Hk]. cbn. split; [done|].
  by destruct Hd as [->|[r ->]].
Qed.

Lemma store_final_key_keys m : respects (on_app keys_kept) (store_final_key m).
Proof.
  unfold store_final_key. apply respects_get. intros a.
  destruct (dkg_sessions a !! m ≫= _) as [[sec pub]|]; [|apply on_app_refl; exact _].
  set (i := default m _). clearbody i.
  apply bind_rel; [exact _|apply on_app_call, (respects_weaken (keeps stored_keys))|].
  - intros d d' Hd. by apply keys_kept_same.
  - unfold get_key_package_by_id. peel_all.
  - intros a1 o Hk. case_bool_decide as Ho; [subst o|apply on_app_refl; exact _].
    apply key_free_Ok in Hk as [Hf _]. apply (outside_empty (multisig_key i)); [done|].
    change (on_app (outside (multisig_key i)) a1
      ((db_call (set_key_package_by_id i (stored_key_package sec)) ;!
        db_call (set_pubkey_package_by_id i (stored_pubkey_package pub)) ;! db_call flush) a1).1).
    revert a1 Hf. cut (respects (on_app (outside (multisig_key i)))
      (db_call (set_key_package_by_id i (stored_key_package sec)) ;!
       db_call (set_pubkey_package_by_id i (stored_pubkey_package pub)) ;! db_call flush)); [auto|].
    apply respects_bind; [exact _| |intros _; apply respects_bind; [exact _| |intros _]]; apply on_app_call.
    + apply respects_sled_write; [exact _..|]. intros d k Hk. cbn. by rewrite lookup_insert_ne.
    + apply respects_sled_write; [exact _..|]. intros d k Hk. cbn. by rewrite lookup_insert_ne.
    + apply respects_sled_read; exact _.
Qed.

Lemma keys_new_dkg_payload jwt p : respects (on_app keys_kept) (new_dkg_payload jwt p).
Proof.
  unfold new_dkg_payload. do 8 (apply respects_bind; [exact _|apply keys_steady; peel_all|intros ?]).
  apply respects_bind; [exact _|apply store_final_key_keys|]. intros _. apply keys_steady. peel_all.
Qed.

Lemma keys_handle fuel jwt req : respects (on_app keys_kept) (handle fuel jwt req).
Proof.
  destruct (ordinary req) eqn:Ho; [by apply keys_steady, steady_handle|].
  assert (∀ A (m : M App Status A), respects almost_steady m → respects (on_app keys_kept) m) as Hw.
  { intros A m. apply respects_weaken. intros a a' [Hk _ _]. by apply keys_kept_same. }
  destruct req; try discriminate Ho; cbn [handle]; unfold empty_response, respond;
    (apply respects_bind; [exact _| |by intros ? ?]).
  - apply Hw. apply almost_abort.
  - apply Hw. apply almost_round1.
  - apply Hw. apply almost_round2.
  - apply keys_new_dkg_payload.
Qed.

Lemma run_keys_kept cs a : keys_kept (app_db a) (app_db (run_calls cs a)).
Proof.
  revert a. induction cs as [|c cs IH]; intros a; cbn [run_calls]; [done|].
  etrans; [apply (keys_handle (c_fuel c) (c_jwt c) (c_req c))|apply IH].
Qed.

(** C13.  Stored keys are permanent: whatever requests the server serves, in
    whatever order, with whatever failures of its disk, a key share that is
    stored for a federation stays the one that is stored, and the public
    package beside it (or its absence) does not change either. *)
Theorem keys_are_permanent cs a m k :
  key_packages (app_db a) !! multisig_key m = Some k →
  key_packages (app_db (run_calls cs a)) !! multisig_key m = Some k ∧
  pubkey_packages (app_db (run_calls cs a)) !! multisig_key m = pubkey_packages (app_db a) !! multisig_key m.
Proof.
  intros Hk. destruct (run_keys_kept cs a) as [Hs Hp]. split; [by eapply lookup_weaken|]. apply Hp. by eexists.
Qed.

End keys.

(** ** Nonces over a run *)

Section nonces.
Context `{!BitcoinLib, !FrostLib, !PsbtLib, !FrostSign, !BdkLib, !Bitcoind, !DkgLib, !Profile, !JwtLib,
          !PegLib, !ServerLib}.

Abbreviation Nonces := (list (SigningNonces * SigningCommitments)).

(** The nonces made from the draws [lo], [lo + 1], … *)
Definition drawn_from (lo : Z) (ns : Nonces) : Prop :=
  Forall2 (λ n i, ∃ k, n = commit k i) ns (seqZ lo (Z.of_nat (length ns))).

(** What one request can do to the nonces. *)
Record nonce_step (a a' : App) : Prop := {
  ns_draws : draws a ≤ draws a';
  ns_nonces : frost_round1_nonces a' = None ∨ frost_round1_nonces a' = frost_round1_nonces a ∨
    ∃ lo ns, draws a ≤ lo ∧ lo + Z.of_nat (length ns) ≤ draws a' ∧
      frost_round1_nonces a = None ∧ frost_round1_nonces a' = Some ns ∧ drawn_from lo ns }.

Lemma commit_inputs_drawn id rng i k s s' ns :
  commit_inputs id rng i k s = (s', Ok ns) →
  length ns = k ∧ ∀ j n, ns !! j = Some n → ∃ key, n = commit key (rng (i + j)%nat).
Proof.
  revert i s s' ns. induction k as [|k IH]; intros i s s' ns; cbn [commit_inputs].
  { intros [= <- <-]. split; [done|]. by intros j n. }
  intros Hr. mres Hr. injection Hr as <- <-. apply IH in Hm0 as [Hl Hj]. split; [by cbn; rewrite Hl|].
  intros [|j] n; cbn [lookup list_lookup].
  - intros [= <-]. unfold commit_input in Hm. mres Hm. injection Hm as _ <-. rewrite Nat.add_0_r. eauto.
  - intros Hn. rewrite Nat.add_succ_r, <-Nat.add_succ_l. by apply Hj.
Qed.

Lemma round1_drawn n id lo psbt d p' ns :
  get_round1_signing_package n id (λ i, lo + Z.of_nat i) (d, psbt) = (p', Ok ns) →
  drawn_from lo ns ∧ length ns = length (inputs psbt).
Proof.
  unfold get_round1_signing_package. intros Hr. mres Hr. injection Hm as <- <-.
  destruct (commit_inputs_drawn _ _ _ _ _ _ _ Hr) as [Hl Hj]. cbn [snd] in Hl. split; [|done].
  apply Forall2_same_length_lookup_2.
  - rewrite length_seqZ. lia.
  - intros j x i Hx Hi. apply Hj in Hx as [k ->]. apply lookup_seqZ in Hi as [-> _]. by exists k.
Qed.

Lemma steady_nonces a a' : steady a a' → nonce_step a a'.
Proof. intros []; split; auto. Qed.

Lemma steady_nonces_step a b c : steady a b → nonce_step b c → nonce_step a c.
Proof.
  intros [_ Hn Hd _] [Hd' Hn']. rewrite Hn in Hn'. split; [lia|].
  destruct Hn' as [?|[?|(lo & ns & ? & ? & ?)]]; [by auto..|]. right; right. exists lo, ns. split; [lia|done].
Qed.

Lemma nonces_steady_step a b c : nonce_step a b → steady b c → nonce_step a c.
Proof.
  intros [Hd Hn] [_ Hn' Hd' _]. rewrite <-Hn' in Hn. split; [lia|].
  destruct Hn as [?|[?|(lo & ns & ? & ? & ?)]]; [by auto..|]. right; right. exists lo, ns. repeat split; lia || tauto.
Qed.

Lemma nonces_after {A B} (m : M App Status A) (k : A → M App Status B) :
  respects steady m → (∀ x, respects nonce_step (k x)) → respects nonce_step (bindM m k).
Proof.
  intros Hm Hk a. unfold bindM. specialize (Hm a). destruct (m a) as [a1 [x|e|]]; cbn in *;
    [eapply steady_nonces_step; [done|apply Hk]|by apply steady_nonces..].
Qed.

Lemma nonces_before {A B} (m : M App Status A) (k : A → M App Status B) :
  respects nonce_step m → (∀ x, respects steady (k x)) → respects nonce_step (bindM m k).
Proof.
  intros Hm Hk a. unfold bindM. specialize (Hm a). destruct (m a) as [a1 [x|e|]]; cbn in *; [|done..].
  eapply nonces_steady_step; [done|apply Hk].
Qed.

Lemma nonces_cleared : respects nonce_step (modify (E:=Status) (set_nonces None)).
Proof. intros a. split; [done|]. by left. Qed.

Lemma nonces_round1 jwt p id : respects nonce_step (get_round1_rpc jwt p id).
Proof.
  unfold get_round1_rpc. do 3 (apply nonces_after; [peel_all|intros ?]).
  apply respects_get. intros a. case_bool_decide as Hn; [by apply steady_nonces|].
  apply eq_None_not_Some in Hn. unfold bindM, parse_psbt, lift.
  destruct (psbt_deserialize p) as [psbt|]; [|by apply steady_nonces]. cbn [ok_or draw_for].
  unfold map_errM, on_signer. cbn [app_db scheduler set_draws].
  destruct (get_round1_signing_package _ _ _ _) as [[d p'] [ns|e|]] eqn:E; cbn;
    [|split; [cbn; lia|by right; left]..].
  apply round1_drawn in E as [Hns Hl]. split; [cbn; lia|]. right; right. exists (draws a), ns.
  cbn. split_and!; [done|lia|done..].
Qed.

Lemma nonces_round2 jwt p id : respects nonce_step (get_round2_rpc jwt p id).
Proof.
  unfold get_round2_rpc. do 3 (apply nonces_after; [peel_all|intros ?]). case_match; [|by intros a; apply steady_nonces].
  do 2 (apply nonces_after; [peel_all|intros ?]). apply nonces_after; [peel_all|]. intros [psbt []].
  apply nonces_before; [apply nonces_cleared|]. intros _. peel_all.
Qed.

Lemma nonces_store_final m : respects nonce_step (store_final_key m).
Proof.
  set (R := keeps (λ a : App, (frost_round1_nonces a, draws a))).
  apply (respects_weaken R).
  { intros a a' [= Hn Hd]. split; [by rewrite Hd|]. by right; left. }
  assert (∀ A (c : M Db DbError A), respects R (db_call c)) as Hc.
  { intros A c a. unfold db_call, map_errM, Server.on_db, on_sched, zoom. by destruct (PegoutScheduler.on_db _ _). }
  unfold store_final_key, R in *. peel_all; apply Hc.
Qed.

Lemma nonces_handle fuel jwt req : respects nonce_step (handle fuel jwt req).
Proof.
  destruct (ordinary req) eqn:Ho; [intros a; by apply steady_nonces, steady_handle|].
  destruct req; try discriminate Ho; cbn [handle]; unfold empty_response, respond;
    (apply nonces_before; [|by intros ? ?]).
  - unfold abort_signing. apply nonces_after; [peel_all|]. intros _. apply nonces_cleared.
  - apply nonces_round1.
  - apply nonces_round2.
  - unfold new_dkg_payload. do 8 (apply nonces_after; [peel_all|intros ?]).
    apply nonces_before; [|intros ?; peel_all]. apply nonces_store_final.
Qed.

(** The nonces that a request signs with: those that the signer holds when it
    answers a second round. *)
Definition signs (c : Call) (a : App) : list Nonces :=
  match c_req c, (serve c a).2, frost_round1_nonces a with
  | GetRound2SigningPackage _ _, Ok _, Some ns => [ns]
  | _, _, _ => []
  end.

Fixpoint signings (cs : list Call) (a : App) : list Nonces :=
  match cs with
  | [] => []
  | c :: cs' => signs c a ++ signings cs' (serve c a).1
  end.

(** The nonces held were drawn from [lo] on and before the next draw. *)
Definition held (lo : Z) (a : App) : Prop :=
  lo ≤ draws a ∧ match frost_round1_nonces a with
                 | None => True
                 | Some ns => ∃ l, lo ≤ l ∧ l + Z.of_nat (length ns) ≤ draws a ∧ drawn_from l ns
                 end.

Lemma held_step lo a a' : held lo a → nonce_step a a' → held lo a'.
Proof.
  intros [Hlo Hh] [Hd Hn]. split; [lia|]. destruct Hn as [->|[->|(l & ns & Hl & Hl' & _ & -> & Hf)]]; [done| |].
  - destruct (frost_round1_nonces a) as [ns|]; [|done]. destruct Hh as (l & ? & ? & ?). exists l.
    split_and!; [done|lia|done].
  - exists l. split_and!; [lia|done..].
Qed.

(** A call that, when it succeeds, leaves no nonces. *)
Definition clears {A} (m : M App Status A) : Prop :=
  ∀ a a' x, m a = (a', Ok x) → frost_round1_nonces a' = None.

Lemma clears_after {A B} (m : M App Status A) (k : A → M App Status B) :
  (∀ x, clears (k x)) → clears (bindM m k).
Proof. intros Hk a a' y Hr. mres Hr. by eapply Hk. Qed.

Lemma clears_before {A B} (m : M App Status A) (k : A → M App Status B) :
  clears m → (∀ x, respects steady (k x)) → clears (bindM m k).
Proof.
  intros Hm Hk a a' y Hr. mres Hr. pose proof (Hk a0 s) as Hs. rewrite Hr in Hs.
  apply st_nonces in Hs. cbn in Hs. rewrite Hs. by eapply Hm.
Qed.

Lemma round2_clears jwt p id : clears (get_round2_rpc jwt p id).
Proof.
  unfold get_round2_rpc. do 3 (apply clears_after; intros ?). case_match; [|by intros ???].
  do 2 (apply clears_after; intros ?). apply clears_after. intros [psbt []].
  apply clears_before; [by intros a a' [] [= <-]|]. intros _. peel_all.
Qed.

(** What happens to the nonces that sign. *)
Lemma signs_step lo c a :
  held lo a → (signs c a = [] ∧ held lo (serve c a).1) ∨
  ∃ l ns, signs c a = [ns] ∧ lo ≤ l ∧ drawn_from l ns ∧ held (l + Z.of_nat (length ns)) (serve c a).1.
Proof.
  intros Hh. pose proof (nonces_handle (c_fuel c) (c_jwt c) (c_req c) a) as Hs.
  pose proof (held_step _ _ _ Hh Hs) as Hh'. fold (serve c a) in Hs, Hh'.
  unfold signs. destruct (c_req c) eqn:Hreq; try (by left).
  destruct (serve c a) as [a' [r|e|]] eqn:E; try (by left).
  destruct (frost_round1_nonces a) as [ns|] eqn:Hn; [|by left]. right. cbn in *.
  destruct Hh as [Hlo Hh]. rewrite Hn in Hh. destruct Hh as (l & Hl & Hl' & Hf). exists l, ns.
  split_and!; [done..|]. unfold serve in E. rewrite Hreq in E. cbn [handle] in E. unfold respond in E. mres E.
  injection E as -> _. apply round2_clears in Hm. split; [destruct Hs; lia|by rewrite Hm].
Qed.

Lemma drawn_unused lo l (ns : Nonces) (used : list (list Z)) :
  lo ≤ l → Forall (λ i, l + Z.of_nat (length ns) ≤ i) (concat used) → NoDup (concat used) →
  NoDup (seqZ l (Z.of_nat (length ns)) ++ concat used) ∧
  Forall (λ i, lo ≤ i) (seqZ l (Z.of_nat (length ns)) ++ concat used).
Proof.
  intros Hlo Hu Hd. rewrite Forall_forall in Hu. split.
  - apply NoDup_app. split; [apply NoDup_seqZ|]. split; [|done].
    intros i Hi Hi'. apply elem_of_seqZ in Hi. apply Hu in Hi'. lia.
  - apply Forall_app_2; apply Forall_forall; intros i Hi; [apply elem_of_seqZ in Hi; lia|apply Hu in Hi; lia].
Qed.

Lemma signings_drawn cs lo a : held lo a → ∃ used : list (list Z),
  NoDup (concat used) ∧ Forall (λ i, lo ≤ i) (concat used) ∧
  Forall2 (Forall2 (λ n i, ∃ k, n = commit k i)) (signings cs a) used.
Proof.
  revert lo a. induction cs as [|c cs IH]; intros lo a Hh; cbn [signings].
  { exists []. split_and!; [constructor..|done]. }
  destruct (signs_step lo c a Hh) as [[-> Hh']|(l & ns & -> & Hl & Hf & Hh')]; [by apply IH|].
  destruct (IH _ _ Hh') as (used & Hd & Hu & Hfs). exists (seqZ l (Z.of_nat (length ns)) :: used). cbn [concat].
  destruct (drawn_unused lo l ns used Hl Hu Hd). split_and!; [done..|]. by constructor.
Qed.

(** C2.  No nonce signs twice: over any run of requests, in any order and with
    any failures in between, that starts without nonces, the nonces that the
    successful second rounds have signed with come from draws of the random
    generator that are all different, between the inputs of one transaction
    and between sessions. *)
Theorem no_nonce_signs_twice cs a :
  frost_round1_nonces a = None → ∃ used : list (list Z),
    NoDup (concat used) ∧ Forall2 (Forall2 (λ n i, ∃ k, n = commit k i)) (signings cs a) used.
Proof.
  intros Hn. destruct (signings_drawn cs (draws a) a) as (used & Hd & _ & Hf); [|by exists used].
  split; [lia|by rewrite Hn].
Qed.

End nonces.
