(* ===== verification/ServerEffects.v ===== *)
(** * What the requests do

    The effects of the handlers of [Server] on pegouts, UTXOs, keys and key
    generations: when pending pegouts are dropped, which pegouts and UTXOs are
    stored, and which federations a key is generated for. *)

From stdpp Require Import strings.
From S2P Require Import Prelude Bytes Codec DkgAuth Dkg.
From S2P Require Import Bitcoin Psbt Types Concrete CoinSelection Database Merkle Util.
From S2P Require Import Coordinator Signer PegoutScheduler Peg Federation Jwt Rpc Server ServerFrame ServerSafety.

Open Scope Z_scope.

(** ** Calls that succeed *)

Section calls.
Context `{!BitcoinLib, !FrostLib, !PsbtLib, !FrostSign, !BdkLib, !Bitcoind, !DkgLib, !Profile, !JwtLib,
          !PegLib, !ServerLib}.

(** A frame, used on a run. *)
Lemma respects_run {S E A} (R : relation S) (m : M S E A) s s' r : respects R m → m s = (s', r) → R s s'.
Proof. intros Hm Hr. specialize (Hm s). by rewrite Hr in Hm. Qed.

Definition put_db (d : Db) (a : App) : App := set_scheduler (PegoutScheduler.set_db d (scheduler a)) a.

Lemma put_db_id a : put_db (app_db a) a = a.
Proof. by destruct a as [[]]. Qed.

(** A call on the database is a function of the database. *)
Lemma on_db_eq {E A} (m : M Db E A) a :
  Server.on_db m a = (put_db (m (app_db a)).1 a, (m (app_db a)).2).
Proof.
  unfold Server.on_db, on_sched, PegoutScheduler.on_db, zoom, app_db. by destruct (m (db (scheduler a))).
Qed.

Lemma db_call_eq {A} (m : M Db DbError A) a :
  db_call m a = (put_db (m (app_db a)).1 a, map_err (λ e, Internal (Some (EDb e))) (m (app_db a)).2).
Proof. unfold db_call, map_errM. rewrite on_db_eq. done. Qed.

(** Reading the database while it answers. *)
Lemma db_call_read {A} (f : Db → A) a : io (app_db a) = [] → db_call (sled_read f) a = (a, Ok (f (app_db a))).
Proof. intros Hio. rewrite db_call_eq, sled_read_ok by done. cbn. by rewrite put_db_id. Qed.

Lemma validate_jwt_ok jwt a : token_accepted jwt a → ∃ n, validate_jwt jwt a = (tick n a, Ok tt).
Proof.
  intros Ht. destruct (validate_jwt_cases jwt a) as [[n Hn] Hok]. apply Hok in Ht. exists n.
  destruct (validate_jwt jwt a). cbn in *. by subst.
Qed.

(** A request with an accepted token. *)
Lemma authorized {A} jwt a (k : unit → M App Status A) :
  token_accepted jwt a → ∃ n, bindM (validate_jwt jwt) k a = k tt (tick n a).
Proof. intros (n & Hn)%validate_jwt_ok. exists n. unfold bindM. by rewrite Hn. Qed.

Lemma metric_ok a : io (app_db a) = [] → set_pending_pegouts_metric a = (a, Ok tt).
Proof.
  intros Hio. unfold set_pending_pegouts_metric, has_telemetry, gets, bindM.
  destruct (telemetry _); [|done]. unfold get_pending_pegouts. by rewrite db_call_read.
Qed.

Lemma flush_ok a : io (app_db a) = [] → db_call flush a = (a, Ok tt).
Proof. intros Hio. unfold flush. by rewrite db_call_read. Qed.

End calls.

(** ** Finalizing a signing session *)

Section finalize.
Context `{!BitcoinLib, !FrostLib, !PsbtLib, !FrostSign, !BdkLib, !Bitcoind, !DkgLib, !Profile, !JwtLib,
          !PegLib, !ServerLib}.

(** bitcoind has the transaction. *)
Definition accepted (r : Txid + bytes) : Prop :=
  match r with inl _ => True | inr msg => text_contains msg already_in_chain = true end.

Definition app_pending (a : App) := pending_pegouts (app_db a).

(** A call that only reads, while the database answers. *)
Definition quiet (d d' : Db) : Prop := io d = [] → d' = d.

#[export] Instance quiet_refl : Reflexive quiet.
Proof. by intros d _. Qed.
#[export] Instance quiet_trans : Transitive quiet.
Proof. intros a b c Hab Hbc Hio. rewrite Hbc, Hab; [done..|]. by rewrite Hab. Qed.

Lemma quiet_read {A} (f : Db → A) : respects quiet (sled_read f).
Proof. intros d Hio. by rewrite sled_read_ok. Qed.

#[export] Instance pending_io : IoFree (keeps pending_pegouts).
Proof. intros r d. reflexivity. Qed.

(** What happens once a transaction has been rejected changes no pending pegout. *)
Lemma pending_reject msg tx : respects (keeps app_pending) (handle_broadcast_error msg tx).
Proof.
  assert (∀ A E (m : M Db E A), respects (keeps pending_pegouts) m →
    respects (keeps app_pending) (Server.on_db m)) as Hdb.
  { intros A E m Hm a. rewrite on_db_eq. specialize (Hm (app_db a)). done. }
  assert (respects (keeps (pending_pegouts ∘ db)) (un_track_tx (compute_txid tx))) as Hu.
  { unfold un_track_tx, remove_tracked_tx. peel_all.
    intros s. unfold PegoutScheduler.on_db, zoom, sled_write, sled. by destruct (io (db s)) as [|[]]. }
  unfold handle_broadcast_error, handle_invalid_inputs, untrack_rejected, get_utxo, remove_utxo.
  peel_all; try (by intros ?); try (apply Hdb; peel_all).
  all: intros app; unfold on_sched, zoom; specialize (Hu (scheduler app)); by destruct (un_track_tx _ _).
Qed.

(** The transaction of a session once bitcoind has answered. *)
Lemma broadcast_cases tx a a' r :
  broadcast tx a = (a', r) →
  (∃ n o, accepted (send_raw_transaction n tx) ∧ a' = tick (S n) a ∧ r = Ok o) ∨
  ((∀ o, r ≠ Ok o) ∧ app_pending a' = app_pending a).
Proof.
  unfold broadcast. set (n := calls (scheduler a)).
  intros Hr. change (match send_raw_transaction n tx with
    | inl tx_id => ret (Some tx_id)
    | inr err => handle_broadcast_error err tx ;! ret None end (tick (S n) a) = (a', r)) in Hr.
  destruct (send_raw_transaction n tx) as [t|msg] eqn:Es.
  { injection Hr as <- <-. left. exists n, (Some t). by rewrite Es. }
  destruct (text_contains msg already_in_chain) eqn:Hm.
  { unfold handle_broadcast_error, bindM in Hr. rewrite Hm in Hr. injection Hr as <- <-.
    left. exists n, None. by rewrite Es. }
  right. unfold bindM in Hr. pose proof (pending_reject msg tx (tick (S n) a)) as Hp.
  unfold keeps in Hp. unfold handle_broadcast_error in *. rewrite Hm in *. 
  assert (∀ m : M App Status unit, ∀ u s, (m ;! fail (Internal None) : M App Status unit) s ≠ (u, Ok tt)) as Hf.
  { intros m u s. unfold bindM, fail. by destruct (m s) as [? []]. }
  destruct (text_contains msg _);
    match type of Hr with (match ?m with _ => _ end) = _ => destruct m as [a1 [[]|e|]] eqn:E end;
    try (injection Hr as <- <-; split; [done|exact Hp]); exfalso.
  - unfold bindM at 1 in E. destruct (map_errM _ _ _) as [? [[]|?|]]; [|done..]. by eapply Hf.
  - by eapply Hf.
Qed.

(** A call on the database uses up its schedule of failures, and fails only when
    the schedule says so. *)
Definition drained (d d' : Db) : Prop := io d' `suffix_of` io d.

#[export] Instance drained_preorder : PreOrder drained.
Proof. split; [intros d; unfold drained; reflexivity|]. intros d1 d2 d3 Hab Hbc. unfold drained in *. by etrans. Qed.

Lemma sled_cases {A} (f : Db → Db * A) d :
  ∃ l, l `suffix_of` io d ∧
    (sled f d = ((f (set_io l d)).1, Ok (f (set_io l d)).2) ∨ sled f d = (set_io l d, Err DbSled) ∧ true ∈ io d).
Proof.
  unfold sled. destruct (io d) as [|[] rest] eqn:Hio.
  - exists []. split; [done|]. left. assert (set_io [] d = d) as -> by (by destruct d; cbn in *; subst). by destruct (f d).
  - exists rest. split; [by apply suffix_cons_r|]. right. split; [done|by left].
  - exists rest. split; [by apply suffix_cons_r|]. left. by destruct (f (set_io rest d)).
Qed.

Lemma drained_read {A} (f : Db → A) : respects drained (sled_read f).
Proof. intros d. unfold sled_read. by destruct (sled_cases (λ d, (d, f d)) d) as (l & Hl & [->|[-> _]]). Qed.

Lemma drained_finalize sid : respects drained (finalize_signing sid).
Proof.
  pose proof @drained_read as Hr.
  assert (∀ pkgs ins k, respects drained (aggregate_inputs pkgs k ins)) as Ha.
  { intros pkgs. induction ins as [|i ins IH]; intros k; cbn [aggregate_inputs]; [peel_all|].
    unfold aggregate_input, get_public_key_package_by_id. peel_all; auto. }
  unfold finalize_signing, get_psbt. peel_all; auto.
Qed.

Lemma drained_fails d d' : drained d d' → true ∈ io d' → true ∈ io d.
Proof. intros [l ->] Hin. apply elem_of_app. by right. Qed.

(** The pegouts that the database has dropped before it failed are the first. *)
Lemma pending_removed_first ids d d' o :
  remove_pending_pegout ids d = (d', o) →
  drained d d' ∧ ∃ k, pending_pegouts d' = foldl (λ m i, delete (as_bytes i) m) (pending_pegouts d) (take k ids) ∧
    (o = Ok tt ∧ k = length ids ∨ (∀ x, o ≠ Ok x) ∧ true ∈ io d).
Proof.
  unfold remove_pending_pegout. revert d. induction ids as [|i ids IH]; intros d; cbn [forM].
  { intros [= <- <-]. split; [done|]. exists 0%nat. by auto. }
  unfold bindM, sled_write. match goal with |- context [sled ?f d] =>
    destruct (sled_cases f d) as (l & Hl & [->|[-> Hin]]) end; cbn [fst snd].
  - intros (Hd & k & Hk & Ho)%IH. assert (drained d d') as Hdr by (etrans; [|exact Hd]; exact Hl). split; [done|]. exists (S k). split; [exact Hk|].
    destruct Ho as [[-> ->]|[Ho Hin]]; [by left|right]. split; [done|]. destruct Hl as [l' ->]. apply elem_of_app. by right.
  - intros [= <- <-]. split; [done|]. exists 0%nat. split; [done|]. right. by split.
Qed.

(** A call that reads *)
Lemma read_call {A} (f : Db → A) a a' o :
  db_call (sled_read f) a = (a', o) →
  app_pending a' = app_pending a ∧ drained (app_db a) (app_db a') ∧ (is_Some (ok o) ∨ (∀ x, o ≠ Ok x) ∧ true ∈ io (app_db a)).
Proof.
  rewrite db_call_eq. unfold sled_read. destruct (sled_cases (λ d, (d, f d)) (app_db a)) as (l & Hl & [->|[-> Hin]]);
    intros [= <- <-]; (split; [done|]); (split; [exact Hl|]); cbn; [left; by eexists|right; by split].
Qed.

Lemma pending_finalize sid : respects (keeps pending_pegouts) (finalize_signing sid).
Proof.
  assert (∀ pkgs ins k, respects (keeps pending_pegouts) (aggregate_inputs pkgs k ins)) as Ha.
  { intros pkgs. induction ins as [|i ins IH]; intros k; cbn [aggregate_inputs]; [peel_all|].
    unfold aggregate_input, get_public_key_package_by_id. peel_all; auto. }
  unfold finalize_signing, get_psbt. peel_all; auto.
Qed.

(** What follows the broadcast. *)
Lemma drop_paid ids (b : bytes) a a' r :
  (db_call (remove_pending_pegout ids) ;! set_pending_pegouts_metric ;! db_call flush ;! ret b) a = (a', r) →
  ∃ k, app_pending a' = foldl (λ m i, delete (as_bytes i) m) (app_pending a) (take k ids) ∧
    (r = Ok b ∧ k = length ids ∨ (∀ x, r ≠ Ok x) ∧ true ∈ io (app_db a)).
Proof.
  intros Hr. unfold bindM at 1 in Hr. rewrite db_call_eq in Hr.
  destruct (remove_pending_pegout ids (app_db a)) as [d o] eqn:Ed.
  apply pending_removed_first in Ed as (Hd & k & Hk & Ho). cbn [fst snd] in Hr. exists k.
  assert (app_pending (put_db d a) = foldl (λ m i, delete (as_bytes i) m) (app_pending a) (take k ids)) as Hp by exact Hk.
  destruct Ho as [[-> ->]|[Hno Hin]].
  2:{ destruct o as [[]|e|]; [by destruct (Hno tt)|injection Hr as <- <-; by auto..]. }
  cbn [map_err] in Hr. unfold bindM at 1 in Hr.
  assert (∀ a2 o2, set_pending_pegouts_metric (put_db d a) = (a2, o2) → app_pending a2 = app_pending (put_db d a) ∧
    drained d (app_db a2) ∧ (is_Some (ok o2) ∨ (∀ x, o2 ≠ Ok x) ∧ true ∈ io d)) as Hmetric.
  { intros a2 o2. unfold set_pending_pegouts_metric, has_telemetry, gets, bindM. destruct (telemetry _).
    - unfold get_pending_pegouts. destruct (db_call _ _) as [a3 o3] eqn:E3. apply read_call in E3 as (Hp3 & Hd3 & Ho3).
      destruct o3 as [x|e|]; intros [= <- <-]; (split; [exact Hp3|]); (split; [exact Hd3|]); [left; by eexists|..];
        (destruct Ho3 as [[? ?]|[_ ?]]; [done|by right]).
    - intros [= <- <-]. split; [done|]. split; [done|]. left. by eexists. }
  destruct (set_pending_pegouts_metric (put_db d a)) as [a2 o2]. destruct (Hmetric _ _ eq_refl) as (Hp2 & Hd2 & Ho2).
  destruct o2 as [[]|e|]; [|destruct Ho2 as [[? ?]|[_ Hin]]; [done|]; injection Hr as <- <-; split; [congruence|];
    right; (split; [done|]); by eapply drained_fails..].
  unfold bindM at 1, flush in Hr. destruct (db_call _ a2) as [a3 o3] eqn:E3. apply read_call in E3 as (Hp3 & Hd3 & Ho3).
  destruct o3 as [[]|e|]; injection Hr as <- <-; (split; [congruence|]); [by left|..];
    (destruct Ho3 as [[? ?]|[_ Hin]]; [done|]); right; (split; [done|]); (eapply drained_fails; [exact Hd|]);
    by eapply drained_fails.
Qed.

(** C9.  A pegout leaves the pending ones only when it has been paid, also when
    calls on the database fail.  Finalizing a signing session either fails and
    leaves the pending pegouts alone, or bitcoind has taken the signed
    transaction of the session's PSBT (or says that the chain has it) and only
    pegouts that this PSBT pays are dropped.  In the latter case either all of
    them are dropped and the PSBT is the answer, or the call fails, the dropped
    ones are the first of them, and the database was to fail a call. *)
Theorem finalize_signing_pegouts jwt id a a' r :
  finalize_signing_rpc jwt id a = (a', r) →
  ((∀ b, r ≠ Ok b) ∧ app_pending a' = app_pending a) ∨
  ∃ psbt tx n ids k, (finalize_signing id (app_db a)).2 = Ok psbt ∧ extract_tx psbt = Ok tx ∧
    accepted (send_raw_transaction n tx) ∧
    Forall2 (λ p i, PegoutId_from_bytes p = Ok i) (pegout_ids psbt) ids ∧
    app_pending a' = foldl (λ m i, delete (as_bytes i) m) (app_pending a) (take k ids) ∧
    (r = Ok (psbt_serialize psbt) ∧ k = length ids ∨ (∀ b, r ≠ Ok b) ∧ true ∈ io (app_db a)).
Proof.
  intros Hr. unfold finalize_signing_rpc in Hr.
  destruct (validate_jwt_cases jwt a) as [[n Hn] _]. unfold bindM at 1 in Hr.
  destruct (validate_jwt jwt a) as [a1 [[]|e|]]; cbn in Hn; subst a1; [|left; injection Hr as <- <-; by split..].
  unfold bindM at 1, session_id, lift, parse_signing_session_id in Hr.
  case_decide; [|left; injection Hr as <- <-; by split]. cbn [map_err] in Hr.
  unfold bindM at 1, map_errM in Hr. rewrite on_db_eq in Hr. change (app_db (tick n a)) with (app_db a) in Hr.
  pose proof (pending_finalize id (app_db a)) as Hq. pose proof (drained_finalize id (app_db a)) as Hdr.
  destruct (finalize_signing id (app_db a)) as [d [psbt|e|]]; cbn [fst snd] in *; unfold keeps in Hq;
    cbn [map_err] in Hr; [|left; injection Hr as <- <-; by split..].
  set (a1 := put_db d (tick n a)) in Hr. assert (app_pending a1 = app_pending a) as Ha1 by exact Hq.
  unfold bindM at 1, lift in Hr.
  destruct (extract_tx psbt) as [tx|e|] eqn:Etx; cbn [map_err] in Hr; [|left; injection Hr as <- <-; by split..].
  unfold bindM at 1 in Hr. destruct (broadcast tx a1) as [a2 r1] eqn:Eb.
  apply broadcast_cases in Eb as [(k & o & Hacc & -> & ->)|[Hno Hpend]].
  2:{ left. destruct r1 as [o|e|]; [by destruct (Hno o)|injection Hr as <- <-; split; congruence..]. }
  unfold bindM at 1 in Hr.
  assert (∃ k' r', set_last_attempted_height (tick (S k) a1) = (tick k' a1, r')) as (k' & r' & Ht).
  { unfold set_last_attempted_height, has_telemetry, gets, bindM, answer. cbn [fst snd].
    destruct (telemetry _); [|by exists (S k), (Ok tt)].
    match goal with |- context [get_block_count ?x] => destruct (get_block_count x) end; by eexists _, _. }
  rewrite Ht in Hr. destruct r' as [[]|e|]; [|left; injection Hr as <- <-; by split..].
  unfold bindM at 1, lift in Hr.
  destruct (omap_all _ (pegout_ids psbt)) as [ids|e|] eqn:Eids; [|left; injection Hr as <- <-; by split..].
  apply drop_paid in Hr as (j & Hp & Hr). change (app_pending (tick k' a1)) with (app_pending a1) in Hp. rewrite Ha1 in Hp.
  right. exists psbt, tx, k, ids, j. split_and!; [done..| |done|].
  2:{ destruct Hr as [Hr|[Hr Hin]]; [by left|right]. split; [done|]. by apply (drained_fails _ d). }
  apply omap_all_Ok in Eids. eapply Forall2_impl; [exact Eids|]. intros p i Hi. cbn in Hi.
  apply expect_Ok in Hi. by destruct (PegoutId_from_bytes p) as [x|e|]; [injection Hi as ->|..].
Qed.

End finalize.

#[export] Hint Resolve quiet_read : frames.

(** ** The pegouts of a checkpoint *)

Section checkpoint.
Context `{!BitcoinLib, !FrostLib, !PsbtLib, !FrostSign, !BdkLib, !Bitcoind, !DkgLib, !Profile, !JwtLib,
          !PegLib, !ServerLib}.

Lemma insert_new_pegouts_dom rs m k :
  is_Some (foldl (λ m r, insert_new_pegout r m) m rs !! k) →
  is_Some (m !! k) ∨ k ∈ map (as_bytes ∘ pr_id) rs.
Proof.
  revert m. induction rs as [|r rs IH]; intros m; cbn [foldl map]; [by left|]. rewrite elem_of_cons.
  intros [Hk|Hk]%IH; [|by auto]. unfold insert_new_pegout in Hk.
  destruct (m !! as_bytes (pr_id r)); [by left|].
  destruct (decide (as_bytes (pr_id r) = k)) as [<-|Hne]; [by right; left|].
  rewrite lookup_insert_ne in Hk by done. by left.
Qed.

(** Storing pegouts makes exactly them pending as well. *)
Lemma store_pending_dom rs d k :
  io d = [] → is_Some (pending_pegouts (store_pending_pegouts rs d).1 !! k) ↔
    is_Some (pending_pegouts d !! k) ∨ k ∈ map (as_bytes ∘ pr_id) rs.
Proof.
  intros Hio. split; [|apply store_pending_keeps, Hio]. destruct rs as [|r [|r' rs]].
  - by left.
  - unfold store_pending_pegouts, store_pending_pegout, bindM. rewrite sled_write_ok by done.
    match goal with |- context [update_pending_pegouts_merkle_root ?x] =>
      destruct (update_pending_root_keeps x) as [_ ->]; [done|] end.
    cbn [pending_pegouts set_pending_pegouts map]. rewrite list_elem_of_singleton.
    destruct (decide (as_bytes (pr_id r) = k)) as [<-|Hne]; [by right|].
    rewrite lookup_insert_ne by done. by left.
  - unfold store_pending_pegouts, store_pending_pegouts_atomically, bindM. rewrite transaction_ok by done.
    match goal with |- context [update_pending_pegouts_merkle_root ?x] =>
      destruct (update_pending_root_keeps x) as [_ ->]; [done|] end.
    apply insert_new_pegouts_dom.
Qed.

Lemma quiet_available : respects quiet get_available_utxos.
Proof. unfold get_available_utxos, get_tracked_txs, iter_utxos. peel_all. Qed.

Lemma io_store_pending rs d : io d = [] → io (store_pending_pegouts rs d).1 = [].
Proof. intros Hio. by destruct (store_pending_keeps rs d Hio). Qed.

(** The pegouts that are finalized or in flight. *)
Definition delivered (a : App) (i : PegoutId) : Prop :=
  i ∈ map fp_id (tree_values (finalized_pegout_ids (app_db a))) ∨
  i ∈ tracked_pegout_request_ids (scheduler a).

Lemma broadcasted_ids a :
  io (app_db a) = [] → ∃ ids, broadcasted_pegout_ids a = (a, Ok ids) ∧ ∀ i, i ∈ ids ↔ delivered a i.
Proof.
  intros Hio. unfold broadcasted_pegout_ids, bindM, get_finalized_pegout_ids. rewrite db_call_read by done.
  eexists. split; [reflexivity|]. intros i. by rewrite elem_of_app.
Qed.

(** A checkpoint adds its new pegouts and nothing else: when it is processed
    and the wallet has something to pay with, the pending pegouts are those
    from before and those of the checkpoint that are neither finalized nor
    delivered by a tracked transaction; when the wallet is empty the pegouts
    of the checkpoint are dropped, without an error. *)
Theorem new_pegouts_spec ps a a' :
  io (app_db a) = [] → store_new_pegouts ps a = (a', Ok tt) →
  ∃ available tracked, get_available_utxos (app_db a) = (app_db a, Ok (available, tracked)) ∧
    (available = ∅ ∧ tracked = ∅ ∧ a' = a ∨
     ¬ (available = ∅ ∧ tracked = ∅) ∧ ∃ pegouts, Forall2 (λ m p, parse_pegout m = Ok p) ps pegouts ∧
       ∀ k, is_Some (app_pending a' !! k) ↔ is_Some (app_pending a !! k) ∨
         ∃ p, p ∈ pegouts ∧ as_bytes (pr_id p) = k ∧ ¬ delivered a (pr_id p)).
Proof.
  intros Hio Hr. unfold store_new_pegouts in Hr. unfold bindM at 1 in Hr. rewrite db_call_eq in Hr.
  pose proof (quiet_available (app_db a) Hio) as Hq.
  destruct (get_available_utxos (app_db a)) as [d [[av tr]|e|]]; cbn in Hq; subst d; [|done..].
  cbn [fst snd map_err] in Hr. rewrite put_db_id in Hr. exists av, tr. split; [done|].
  destruct (bool_decide (av = ∅) && bool_decide (tr = ∅)) eqn:Hb.
  { left. apply andb_true_iff in Hb as [Ha%bool_decide_eq_true Ht%bool_decide_eq_true]. by injection Hr as <-. }
  right. split.
  { intros [Ha Ht]. by rewrite !bool_decide_true in Hb. }
  unfold bindM at 1, lift in Hr. destruct (omap_all parse_pegout ps) as [pegouts|e|] eqn:Ep; [|done..].
  exists pegouts. split; [by apply omap_all_Ok|].
  destruct (broadcasted_ids a Hio) as (ids & Hids & Hin). unfold bindM at 1 in Hr. rewrite Hids in Hr.
  set (new := List.filter _ pegouts) in Hr. unfold bindM at 1 in Hr. rewrite db_call_eq in Hr.
  pose proof (io_store_pending new (app_db a) Hio) as Hio'.
  pose proof (λ k, store_pending_dom new (app_db a) k Hio) as Hdom.
  destruct (store_pending_pegouts new (app_db a)) as [d [[]|e|]]; [|done..]. cbn [fst snd map_err] in *.
  unfold bindM at 1 in Hr. rewrite flush_ok in Hr by done. rewrite metric_ok in Hr by done. injection Hr as <-.
  intros k. unfold app_pending. cbn [app_db put_db scheduler set_scheduler db PegoutScheduler.set_db].
  rewrite Hdom. apply or_iff_compat_l. rewrite list_elem_of_fmap. split.
  - intros (p & -> & Hp). apply list_elem_of_In, filter_In in Hp as [Hp Hf]. exists p.
    apply list_elem_of_In in Hp. split_and!; [done..|]. intros Hd. apply Hin in Hd.
    apply negb_true_iff in Hf. by apply contains_true in Hd; rewrite Hd in Hf.
  - intros (p & Hp & <- & Hd). exists p. split; [done|]. apply list_elem_of_In, filter_In.
    split; [by apply list_elem_of_In|]. apply negb_true_iff, not_true_iff_false.
    rewrite contains_true, Hin. done.
Qed.

End checkpoint.

(** ** Recovered UTXOs *)

(** The pure steps of a successful call. *)
Ltac lifts := repeat match goal with H : lift _ _ = (_, Ok _) |- _ => apply lift_Ok in H as [-> H] end.

Section recovery.
Context `{!BitcoinLib, !BitcoinLaws, !FrostLib, !PsbtLib, !FrostSign, !BdkLib, !Bitcoind, !DkgLib, !Profile,
          !JwtLib, !PegLib, !ServerLib}.

(** The outpoint of a request as a message decodes it. *)
Definition request_wf (r : UtxoToRecover) : Prop :=
  ∀ o, ur_outpoint r = Some o → Forall is_u8 (ro_txid o) ∧ is_u32 (ro_vout o).

(** The UTXO that a request asks for: bitcoind reports the output as unspent
    and it pays the script of the federation's key, tweaked by the address of
    the request. *)
Definition genuine (d : Db) (r : UtxoToRecover) (u : Utxo) : Prop :=
  ∃ o n t eth k, ur_outpoint r = Some o ∧ utxo_outpoint u = mkOutPoint (ro_txid o) (ro_vout o) ∧
    get_tx_out n (utxo_outpoint u) = inl (Some t) ∧
    recovery_address (ur_eth_address r) = Ok eth ∧
    u = mkUtxo (utxo_outpoint u) t eth 0 (mkMultisigId (ur_multisig_id r)) ∧
    key_packages d !! multisig_key (mkMultisigId (ur_multisig_id r)) = Some k ∧
    expected_script_pubkey k eth = Ok (script_pubkey t).

Lemma recover_utxo_Ok ops r a a' o :
  io (app_db a) = [] → request_wf r → recover_utxo ops r a = (a', Ok o) →
  app_db a' = app_db a ∧
  ∀ u, o = Some u → utxo_outpoint u ∉ ops ∧ outpoint_wf (utxo_outpoint u) ∧ genuine (app_db a) r u.
Proof.
  intros Hio Hwf Hr. unfold recover_utxo in Hr. unfold bindM at 1 in Hr.
  unfold get_key_package_by_id in Hr. rewrite db_call_read in Hr by done.
  mres Hr. lifts. apply ok_or_Ok in Hm. apply ok_or_Ok in Hm0. rewrite map_err_Ok in Hm1.
  assert (ro_txid a1 = op_txid a2 ∧ ro_vout a1 = op_vout a2 ∧ length (op_txid a2) = 32%nat) as (Ht & Hv & Hl).
  { unfold OutPoint_try_from in Hm1. case_decide; [|done]. by injection Hm1 as <-. }
  destruct (contains ops a2) eqn:Hc; [injection Hr as <- <-; by split|].
  mres Hr. cbv beta delta [answer] in Hm2. cbn zeta in Hm2. injection Hm2 as <- Hg.
  destruct a3 as [[t|]|]; [|injection Hr as <- <-; by split|done].
  mres Hr. lifts. destruct (negb _) eqn:Hs; injection Hr as <- <-; (split; [done|]); [done|].
  intros u [= <-]. cbn [utxo_outpoint].
  apply negb_false_iff, bool_decide_eq_true in Hs. cbn [utxo_output] in Hs. subst a4.
  destruct (Hwf a1 Hm0) as [Hb Hu]. split; [|split].
  - intros Hin. apply contains_true in Hin. congruence.
  - split; [split; [done|by rewrite <-Ht]|by rewrite <-Hv].
  - exists a1, (calls (scheduler a)), t, a3, a0. cbn [utxo_outpoint]. split_and!; try done.
    destruct a2. cbn in *. by rewrite Ht, Hv.
Qed.

Lemma recover_utxos_Ok ops rs a a' us :
  io (app_db a) = [] → Forall request_wf rs → recover_utxos ops rs a = (a', Ok us) →
  app_db a' = app_db a ∧ ∀ u, u ∈ us → utxo_outpoint u ∉ ops ∧ outpoint_wf (utxo_outpoint u) ∧
    ∃ r, r ∈ rs ∧ genuine (app_db a) r u.
Proof.
  intros Hio Hwf. revert a us Hio. induction Hwf as [|r rs Hr _ IH]; intros a us Hio; cbn [recover_utxos].
  { intros [= <- <-]. split; [done|]. intros u Hu. by apply elem_of_nil in Hu. }
  intros Hm. mres Hm. injection Hm as -> <-. apply recover_utxo_Ok in Hm0 as [Hd Hone]; [|done..].
  apply IH in Hm1 as [Hd' Hrest]; [|by rewrite Hd]. split; [congruence|].
  rewrite Hd in Hrest. intros u Hu.
  assert (a0 = Some u ∨ u ∈ a1) as [->|Hu'] by (destruct a0; set_solver).
  - destruct (Hone u eq_refl) as (? & ? & ?). split_and!; [done..|]. exists r. split; [by left|done].
  - destruct (Hrest u Hu') as (? & ? & r' & ? & ?). split_and!; [done..|]. exists r'. split; [by right|done].
Qed.

Lemma insert_absent_all us m o u :
  foldl insert_absent m us !! o = Some u → m !! o = Some u ∨ (u ∈ us ∧ utxo_outpoint u = o).
Proof.
  revert m. induction us as [|x us IH]; intros m; cbn [foldl]; [by left|].
  intros [Hm|[? ?]]%IH; [|right; split; [by right|done]].
  unfold insert_absent in Hm. destruct (m !! utxo_outpoint x) eqn:E; [by left|].
  apply lookup_insert_Some in Hm as [[<- <-]|[_ ?]]; [right; split; [by left|done]|by left].
Qed.

Lemma insert_absent_mono us m : m ⊆ foldl insert_absent m us.
Proof.
  revert m. induction us as [|x us IH]; intros m; cbn [foldl]; [done|]. etrans; [|apply IH].
  unfold insert_absent. destruct (m !! utxo_outpoint x) eqn:E; [done|]. by apply insert_subseteq.
Qed.

#[export] Instance utxos_io : IoFree (keeps utxos).
Proof. intros r d. reflexivity. Qed.

Lemma root_keeps_utxos : respects (keeps utxos) update_utxo_merkle_root.
Proof. unfold update_utxo_merkle_root, iter_utxos. peel_all. Qed.

(** C22.  Recovery adds only UTXOs that exist: while the database answers and the
    requests are well-formed, a successful recovery keeps every
    UTXO of the wallet, and each one it adds was asked for, was not in the
    wallet, is reported as unspent by bitcoind, and pays exactly the script of
    a key that the signer holds for the requested federation, tweaked by the
    requested Ethereum address. *)
Theorem recovery_adds_only_genuine m jwt rs a a' n k :
  utxo_view (app_db a) m → io (app_db a) = [] → Forall request_wf rs →
  recover_missing_utxos jwt rs a = (a', Ok (n, k)) →
  n = Z.of_nat (length rs) ∧ ∃ m', utxo_view (app_db a') m' ∧ m ⊆ m' ∧
    ∀ o u, m' !! o = Some u → m !! o = Some u ∨
      m !! o = None ∧ utxo_outpoint u = o ∧ ∃ r, r ∈ rs ∧ genuine (app_db a) r u.
Proof.
  intros Hv Hio Hwf Hr. unfold recover_missing_utxos in Hr.
  destruct (validate_jwt_cases jwt a) as [[i Hi] _]. unfold bindM at 1 in Hr.
  destruct (validate_jwt jwt a) as [a1 [[]|e|]]; cbn in Hi; subst a1; [|done..].
  mres Hr. injection Hr as <- <- <-. split; [done|].
  rewrite db_call_eq in Hm. change (app_db (tick i a)) with (app_db a) in Hm.
  destruct (iter_utxos_view (app_db a) m Hv Hio) as (us & Hus & Hp).
  change (get_all_utxos (app_db a)) with (iter_utxos (app_db a)) in Hm. rewrite Hus in Hm.
  cbn [fst snd map_err] in Hm. injection Hm as <- <-.
  change (put_db (app_db a) (tick i a)) with (put_db (app_db (tick i a)) (tick i a)) in Hm0.
  rewrite put_db_id in Hm0. apply recover_utxos_Ok in Hm0 as [Hd Hnew]; [|done..].
  change (app_db (tick i a)) with (app_db a) in *.
  rewrite db_call_eq, Hd in Hm1.
  destruct (store_utxos_view (app_db a) m a1) as (d2 & b & Hst & Hv2 & Hio2 & _); [done..| |].
  { apply Forall_forall. intros u Hu. by apply Hnew. }
  rewrite Hst in Hm1. cbn [fst snd map_err] in Hm1. injection Hm1 as <- <-.
  rewrite db_call_eq in Hm2. pose proof (root_keeps_utxos d2) as Hroot. unfold keeps in Hroot.
  change (app_db (put_db d2 s0)) with d2 in Hm2.
  destruct (update_utxo_merkle_root d2) as [d3 [[]|e|]]; cbn [fst snd map_err] in *; [|done..].
  injection Hm2 as <-. rewrite db_call_eq in Hm3. injection Hm3 as <- Hfl.
  exists (foldl insert_absent m a1). split; [|split; [apply insert_absent_mono|]].
  - change (utxo_view (flush d3).1 (foldl insert_absent m a1)).
    eapply utxo_view_ext; [|exact Hv2]. rewrite <-Hroot. unfold flush, sled_read, sled.
    by destruct (io d3) as [|[]].
  - intros o u Hu. destruct (insert_absent_all _ _ _ _ Hu) as [?|[Hin <-]]; [by left|].
    destruct (m !! utxo_outpoint u) as [u'|] eqn:E; [|].
    + left. destruct (Hnew u Hin) as [Hno _]. destruct Hno. rewrite list_elem_of_fmap.
      exists u'. split; [symmetry; exact (utxo_view_keyed _ _ _ _ Hv E)|]. rewrite Hp.
      apply list_elem_of_fmap. exists (utxo_outpoint u, u'). by rewrite elem_of_map_to_list.
    + right. split_and!; [done..|]. by apply Hnew.
Qed.

End recovery.

(** ** The pending pegouts of a signer *)

Section signed.
Context `{!BitcoinLib, !FrostLib, !PsbtLib, !FrostSign, !BdkLib, !Bitcoind, !DkgLib, !Profile, !JwtLib,
          !PegLib, !ServerLib}.

Abbreviation pending := (pending_pegouts ∘ db).

Lemma pending_on_db {E A} (m : M Db E A) :
  respects (keeps pending_pegouts) m → respects (keeps pending) (PegoutScheduler.on_db m).
Proof. intros Hm. by apply (respects_zoom (keeps pending) (keeps pending_pegouts)). Qed.

(** The pending pegouts and the role of the server. *)
Abbreviation calm := (keeps (λ a : App, (app_pending a, is_coordinator a))).

Lemma calm_on_sched {E A} (m : M PegoutScheduler E A) :
  respects (keeps pending) m → respects calm (on_sched m).
Proof. apply respects_zoom. intros a s Hs. unfold keeps in *. by f_equal. Qed.

Lemma calm_on_db {E A} (m : M Db E A) :
  respects (keeps pending_pegouts) m → respects calm (Server.on_db m).
Proof. intros Hm. by apply calm_on_sched, pending_on_db. Qed.

Lemma pending_add_tx {E} tx ps t : respects (keeps pending) (add_tx (E:=E) tx ps t).
Proof.
  assert (∀ spk, respects (keeps pending) (match_change_spk_to_multisig spk)) as Hmatch.
  { intros spk. unfold match_change_spk_to_multisig, get_change_spk, get_public_key_package_by_id.
    peel_all; (apply pending_on_db; peel_all). }
  assert (∀ idxs outs i, respects (keeps pending) (find_change (E:=E) idxs i outs)) as Hfind.
  { intros idxs outs. induction outs as [|o outs IH]; intros i; cbn [find_change]; peel_all. }
  unfold add_tx, track_tx. peel_all; by intros ?.
Qed.

Lemma calm_add_tracked tx ps t : respects calm (add_tracked_tx tx ps t).
Proof.
  unfold add_tracked_tx. apply respects_bind; [exact _|apply calm_on_sched, pending_add_tx|]. intros x.
  apply respects_bind; [exact _|apply calm_on_db|intros _; apply calm_on_db].
  - unfold store_tracked_tx, update_tracked_tx_merkle_root, get_tracked_txs. peel_all.
  - unfold flush. peel_all.
Qed.

Lemma calm_db_read {A} (f : Db → A) : respects calm (db_call (sled_read f)).
Proof. apply respects_map_err, calm_on_db, respects_sled_read; exact _. Qed.

Lemma calm_metric : respects calm set_pending_pegouts_metric.
Proof.
  unfold set_pending_pegouts_metric, has_telemetry. apply respects_bind; [exact _|by intros ?|]. intros [].
  - apply respects_bind; [exact _|apply calm_db_read|by intros ? ?].
  - by intros ?.
Qed.

(** After a second round a signer that is not the coordinator has no pending
    pegouts at all, not even those that the signed transaction does not pay;
    the pending pegouts of the coordinator are those from before. *)
Theorem signer_forgets_pending psbt tx a a' :
  record_signed psbt tx a = (a', Ok tt) →
  app_pending a' = if is_coordinator a then app_pending a else ∅.
Proof.
  unfold record_signed. destruct (_ <? _)%nat; [done|]. intros Hr. mres Hr. lifts.
  apply (respects_run _ _ _ _ _ (calm_db_read _)) in Hm0, Hm5. injection Hm1 as <- _.
  rewrite map_errM_Ok in Hm2. apply (respects_run _ _ _ _ _ (calm_add_tracked _ _ _)) in Hm2.
  injection Hm3 as <- <-. apply (respects_run _ _ _ _ _ calm_metric) in Hr.
  unfold keeps in *. injection Hm0 as Hp0 Hc0. injection Hm2 as Hp2 Hc2. injection Hm5 as Hp5 _.
  injection Hr as Hp _. change (is_coordinator s2 = is_coordinator s0) in Hc2.
  change (app_pending s2 = app_pending s0) in Hp2. rewrite <-Hc0, <-Hc2, Hp, Hp5.
  destruct (is_coordinator s2); cbn [negb] in Hm4; [injection Hm4 as <-; by rewrite Hp2, Hp0|].
  rewrite db_call_eq in Hm4. unfold reset_pending_pegouts, clear_pending_pegouts, bindM in Hm4.
  destruct (sled_write _ (app_db s2)) as [d [[]|e|]] eqn:E; [|done..]. injection Hm4 as <-.
  apply sled_write_Ok in E as [->|[r ->]]; done.
Qed.

End signed.

(** ** Rejected transactions *)

Section rejected.
Context `{!BitcoinLib, !FrostLib, !PsbtLib, !FrostSign, !BdkLib, !Bitcoind, !DkgLib, !Profile, !JwtLib,
          !PegLib, !ServerLib}.

(** When bitcoind rejects a transaction that the scheduler does not track (the
    coordinator has not signed it itself, or an earlier attempt has untracked
    it), the handler panics. *)
Lemma untracked_rejection_panics msg tx a :
  text_contains msg already_in_chain = false →
  text_contains msg bad_txns_inputs_missingorspent = false →
  txs (scheduler a) !! compute_txid tx = None → (handle_broadcast_error msg tx a).2 = Panic.
Proof.
  intros Hc Hm Ht. unfold handle_broadcast_error. rewrite Hc, Hm.
  unfold untrack_rejected, map_errM, on_sched, zoom, un_track_tx, bindM, get, lift. by rewrite Ht.
Qed.

End rejected.
