(* ===== verification/ServerBoot.v ===== *)
(** * Keys and key generations of the btc-server

    Starting the server and starting a key generation ([Server]): the key
    generations that run after the start are those of the federations without
    a key, a key share whose public package could not be stored keeps the
    server from ever starting again, and a requested key generation uses the
    numbers of signers of the legacy federation. *)

From stdpp Require Import strings.
From S2P Require Import Prelude Bytes Codec DkgAuth Dkg.
From S2P Require Import Bitcoin Psbt Types Concrete CoinSelection Database Merkle Util.
From S2P Require Import Coordinator Signer PegoutScheduler Peg Federation Jwt Rpc Server ServerFrame ServerSafety.
From S2P Require Import ServerEffects.

Open Scope Z_scope.

(** ** The multisig ids of the stored keys *)

Section ids.
Context `{!BitcoinLib, !FrostLib}.

(** The keys of the table are bytes. *)
Definition key_bytes (d : Db) : Prop := ∀ k, is_Some (key_packages d !! k) → Forall is_u8 k.

Lemma multisig_of_key_key m : is_u32 (as_u32 m) → multisig_of_key (multisig_key m) = Ok m.
Proof.
  intros Hm. unfold multisig_of_key, multisig_key. rewrite decide_True by apply to_le_bytes_length.
  rewrite from_to_le_bytes by (unfold is_u32, u32_max in Hm; lia). by destruct m.
Qed.

Lemma list_ids_Ok d d' ids :
  list_multisig_ids d = (d', Ok ids) → key_bytes d →
  ∀ m, is_u32 (as_u32 m) → m ∈ ids ↔ is_Some (key_packages d !! multisig_key m).
Proof.
  unfold list_multisig_ids. intros Hr Hb m Hm. mres Hr. injection Hr as <- <-.
  lifts. apply sled_read_Ok in Hm0 as [Hd ->].
  assert (key_packages s = key_packages d) as Hk by (by destruct Hd as [->|[? ->]]). rewrite Hk in *.
  apply omap_all_Ok in Hm1. unfold tree_keys in Hm1. rewrite sort_by_perm. split.
  - intros Hin. apply list_elem_of_lookup in Hin as [i Hi].
    destruct (Forall2_lookup_r _ _ _ _ _ Hm1 Hi) as (k & Hk0 & Hok).
    apply list_elem_of_lookup_2, list_elem_of_fmap in Hk0 as ([k' p] & -> & Hin%elem_of_tree_iter).
    cbn [fst] in *. unfold multisig_of_key in Hok. case_decide as Hl; [|done]. injection Hok as <-.
    unfold multisig_key. cbn [as_u32]. rewrite <-Hl, to_from_le_bytes; [by eexists|]. apply Hb. by eexists.
  - intros [p Hp]. apply elem_of_tree_iter, (list_elem_of_fmap_2 fst) in Hp. cbn [fst] in Hp.
    apply list_elem_of_lookup in Hp as [i Hi].
    destruct (Forall2_lookup_l _ _ _ _ _ Hm1 Hi) as (y & Hy & Hok).
    rewrite multisig_of_key_key in Hok by done. injection Hok as <-. by eapply list_elem_of_lookup_2.
Qed.

End ids.

(** ** Starting *)

Section boot.
Context `{!BitcoinLib, !FrostLib, !PsbtLib, !FrostSign, !BdkLib, !Bitcoind, !DkgLib, !Profile, !JwtLib,
          !PegLib, !ServerLib, !ConfigLib}.

Definition is_member (secret : SecretKey) (mc : MultisigConfig) : Prop :=
  ∃ x, x ∈ federation_member_public_key mc ∧ key x = pubkey_to_string (pub_of secret).

Lemma is_member_existsb secret mc :
  existsb (λ x, bool_decide (key x = pubkey_to_string (pub_of secret))) (federation_member_public_key mc) = true
  ↔ is_member secret mc.
Proof.
  rewrite existsb_exists. unfold is_member. setoid_rewrite list_elem_of_In.
  split; intros (x & Hx & Hk); exists x; [by apply bool_decide_eq_true in Hk|by rewrite bool_decide_true].
Qed.

(** What one federation of the configuration does while the server starts. *)
Record booted (secret : SecretKey) (persisted : list MultisigId) (mcs : list MultisigConfig)
    (s s' : Db * nat) (acc acc' : gmap MultisigId DkgState * Z) : Prop := {
  bo_keys : stored_keys s'.1 = stored_keys s.1;
  bo_public mc : mc ∈ mcs → is_member secret mc → mc_multisig_id mc ∈ persisted →
    is_Some (pubkey_packages s.1 !! multisig_key (mc_multisig_id mc));
  bo_sessions m : is_Some (acc'.1 !! m) ↔ is_Some (acc.1 !! m) ∨
    ∃ mc, mc ∈ mcs ∧ mc_multisig_id mc = m ∧ is_member secret mc ∧ m ∉ persisted }.

Lemma boot_session_Ok c fed secret persisted acc mc s s' acc' :
  boot_session c fed secret persisted acc mc s = (s', Ok acc') →
  booted secret persisted [mc] s s' acc acc'.
Proof.
  unfold boot_session. destruct (existsb _ _) eqn:Hm; cbn [negb].
  2:{ apply not_true_iff_false in Hm. rewrite is_member_existsb in Hm. intros [= <- <-]. split; [done| |].
      - by intros x ->%list_elem_of_singleton Hx.
      - intros m. split; [by left|]. by intros [?|(x & ->%list_elem_of_singleton & _ & Hx & _)]. }
  apply is_member_existsb in Hm. destruct (contains persisted (mc_multisig_id mc)) eqn:Hp.
  - apply contains_true in Hp. intros Hr. unfold bindM at 1, boot_db, zoom in Hr.
    destruct (get_public_key_package_by_id _ s.1) as [d [o|e|]] eqn:E; [|done..].
    apply sled_read_Ok in E as [Hd Ho]. destruct o as [pk|]; [|done]. injection Hr as <- <-.
    assert (stored_keys d = stored_keys s.1) as Hk by (by destruct Hd as [->|[r ->]]).
    split; [done| |].
    + intros x ->%list_elem_of_singleton _ _. injection Hk as _ Hk. rewrite <-Hk, <-Ho. by eexists.
    + intros m. split; [by left|]. by intros [?|(x & ->%list_elem_of_singleton & <- & _ & Hx)].
  - apply contains_false in Hp. intros Hr. mres Hr. injection Hr as <- <-. lifts.
    injection Hm0 as <- <-. injection Hm2 as <- <-. split; [done| |].
    + by intros x ->%list_elem_of_singleton _ Hx.
    + intros m. cbn [fst]. destruct (decide (mc_multisig_id mc = m)) as [<-|Hne].
      * rewrite lookup_insert_eq. split; [|by eexists]. intros _. right. exists mc. split_and!; [by left|done..].
      * rewrite lookup_insert_ne by done. split; [by left|].
        by intros [?|(x & ->%list_elem_of_singleton & ? & _)].
Qed.

Lemma boot_sessions_Ok c fed secret persisted acc mcs s s' acc' :
  boot_sessions c fed secret persisted acc mcs s = (s', Ok acc') →
  booted secret persisted mcs s s' acc acc'.
Proof.
  revert acc s. induction mcs as [|mc mcs IH]; intros acc s; cbn [boot_sessions].
  { intros [= <- <-]. split; [done|by intros x Hx%elem_of_nil|]. intros m. split; [by left|].
    by intros [?|(x & Hx%elem_of_nil & _)]. }
  intros Hr. mres Hr. apply boot_session_Ok in Hm as [Hk Hp Hs]. apply IH in Hr as [Hk' Hp' Hs'].
  pose proof Hk as Hkb. injection Hkb as _ Hkb. split; [by rewrite Hk', Hk| |].
  - intros x [->|Hx]%elem_of_cons Hmem Hin; [by apply Hp; [left|..]|]. rewrite <-Hkb. by apply Hp'.
  - intros m. rewrite Hs', Hs. setoid_rewrite elem_of_cons. split.
    + intros [[?|(x & [->|Hx%elem_of_nil] & ?)]|(x & ? & ?)]; [by left|right; exists mc; auto|done|].
      right. exists x. auto.
    + intros [?|(x & [->|Hx] & ?)]; [by left; left|left; right|right; exists x; auto].
      exists mc. split; [by left|done].
Qed.

(** Starting changes the keys of the legacy federation only. *)
Definition legacy_only (s s' : Db * nat) : Prop := outside (multisig_key LEGACY_MULTISIG_ID) s.1 s'.1.

#[local] Instance legacy_only_refl : Reflexive legacy_only.
Proof. intros s. apply outside_refl. Qed.
#[local] Instance legacy_only_trans : Transitive legacy_only.
Proof. intros a b c. apply outside_trans. Qed.

Lemma legacy_boot_db {E A} (m : M Db E A) :
  respects (outside (multisig_key LEGACY_MULTISIG_ID)) m → respects legacy_only (boot_db m).
Proof. intros Hm s. unfold boot_db, zoom. specialize (Hm s.1). by destruct (m s.1). Qed.

Lemma legacy_answer {A} (f : nat → A + RpcError) : respects legacy_only (boot_answer f).
Proof. by intros s. Qed.

Lemma legacy_migrate : respects legacy_only (okM (E':=ServerError) (boot_db migrate_legacy_key_package)).
Proof.
  apply respects_okM, legacy_boot_db. unfold migrate_legacy_key_package, get_key_package_by_id,
    get_public_key_package_by_id, get_legacy_key_package, get_legacy_public_key_package.
  peel_all; (apply respects_sled_write; [exact _..|]; intros d x Hx; cbn; by rewrite lookup_insert_ne).
Qed.

Lemma legacy_load cp depth tel : respects legacy_only (load_pegout_scheduler cp depth tel).
Proof.
  unfold load_pegout_scheduler, get_pegout_mgr_finalized_block, get_tracked_txs.
  peel_all; try (apply legacy_boot_db; peel_all).
Qed.

(** Finding the federations that have a key. *)
Lemma persisted_Ok s s' ids :
  (match boot_db (E:=DbError) list_multisig_ids s with
   | (s', Ok ids) => (s', Ok ids) | (s', _) => (s', Panic) end : (Db * nat) * outcome ServerError _) = (s', Ok ids) →
  key_bytes s'.1 → stored_keys s'.1 = stored_keys s.1 ∧
  ∀ m, is_u32 (as_u32 m) → m ∈ ids ↔ is_Some (key_packages s'.1 !! multisig_key m).
Proof.
  unfold boot_db, zoom. pose proof (keys_list_ids s.1) as Hk.
  destruct (list_multisig_ids s.1) as [d [l|e|]] eqn:E; [|done..]. intros [= <- <-] Hb.
  cbn [fst] in *. split; [done|]. unfold keeps, stored_keys in Hk. injection Hk as Hk _. rewrite Hk.
  eapply list_ids_Ok; [done|]. unfold key_bytes in *. by rewrite <-Hk.
Qed.

Lemma app_new_Ok c s s' a :
  app_new c s = (s', Ok a) → key_bytes (app_db a) → ∃ persisted : list MultisigId,
    (∀ m, is_u32 (as_u32 m) → m ∈ persisted ↔ is_Some (key_packages (app_db a) !! multisig_key m)) ∧
    (∀ mc, mc ∈ multisig (federation a) → is_member (p2p_secret_key a) mc → mc_multisig_id mc ∈ persisted →
       is_Some (pubkey_packages (app_db a) !! multisig_key (mc_multisig_id mc))) ∧
    (∀ m, is_Some (dkg_sessions a !! m) ↔ ∃ mc, mc ∈ multisig (federation a) ∧ mc_multisig_id mc = m ∧
       is_member (p2p_secret_key a) mc ∧ m ∉ persisted) ∧
    frost_round1_nonces a = None ∧ outside (multisig_key LEGACY_MULTISIG_ID) s.1 (app_db a).
Proof.
  intros Hr. unfold app_new in Hr. mres Hr. destruct a11 as [sessions dd].
  assert (legacy_only s3 s4) as Hjwt.
  { destruct (boot_jwt_secret c) as [r|]; [mres Hm3; by lifts; injection Hm3 as <- _|by injection Hm3 as <- _]. }
  apply (respects_run _ _ _ _ _ legacy_migrate) in Hm. lifts.
  apply (respects_run _ _ _ _ _ (legacy_answer _)) in Hm6, Hm7.
  apply (respects_run _ _ _ _ _ (legacy_load _ _ _)) in Hm8.
  assert (legacy_only s s9) as Hleg by (do 5 (etrans; [eassumption|]); done). clear Hm Hjwt Hm6 Hm7 Hm8.
  apply boot_sessions_Ok in Hm10 as [Hk Hp Hs]. unfold bindM, get, ret in Hr. injection Hr as <- <-.
  cbn [federation app_db scheduler db set_calls PegoutScheduler.set_db p2p_secret_key dkg_sessions frost_round1_nonces].
  intros Hb. injection Hk as Hka Hkb. unfold key_bytes in Hb. rewrite Hka in Hb.
  apply persisted_Ok in Hm9 as [[= Hla Hlb] Hin]; [|done].
  exists a10. setoid_rewrite Hkb. setoid_rewrite Hka. split_and!; [done..| |done|].
  - intros m. rewrite Hs. cbn [fst]. rewrite lookup_empty. split; [|by right]. by intros [[? ?]|?].
  - intros k Hne. destruct (Hleg k Hne). by rewrite Hka, Hkb, Hla, Hlb.
Qed.

(** C32.  After a successful start the state of every federation is settled: each
    federation that the node is a member of and has a key share for also has
    its public package, a key generation runs for exactly the federations that
    the node is a member of and has no key share for, no nonces are held, and
    no keys but those of the legacy federation have been touched. *)
Theorem start_settles_federations c s s' a :
  app_new c s = (s', Ok a) → Forall (λ mc, is_u32 (as_u32 (mc_multisig_id mc))) (multisig (federation a)) →
  key_bytes (app_db a) →
  (∀ mc, mc ∈ multisig (federation a) → is_member (p2p_secret_key a) mc →
     is_Some (key_packages (app_db a) !! multisig_key (mc_multisig_id mc)) →
     is_Some (pubkey_packages (app_db a) !! multisig_key (mc_multisig_id mc))) ∧
  (∀ m, is_Some (dkg_sessions a !! m) ↔ ∃ mc, mc ∈ multisig (federation a) ∧ mc_multisig_id mc = m ∧
     is_member (p2p_secret_key a) mc ∧ key_packages (app_db a) !! multisig_key m = None) ∧
  frost_round1_nonces a = None ∧ outside (multisig_key LEGACY_MULTISIG_ID) s.1 (app_db a).
Proof.
  intros Hnew Hids Hb. rewrite Forall_forall in Hids.
  destruct (app_new_Ok _ _ _ _ Hnew Hb) as (ids & Hin & Hpub & Hs & Hn & Hout). split_and!; [| |done..].
  - intros mc Hmc Hmem Hkey. apply Hpub, Hin; [done..|by apply Hids|done].
  - intros m. rewrite Hs. split; intros (mc & Hmc & <- & Hmem & Hno); exists mc; (split_and!; [done..|]).
    + apply eq_None_not_Some. intros Hsome. by apply Hno, Hin; [apply Hids|].
    + intros Hm. apply Hin in Hm; [|by apply Hids]. rewrite Hno in Hm. by destruct Hm.
Qed.

End boot.

(** ** A key share without its public package *)

Section half_saved.
Context `{!BitcoinLib, !FrostLib, !PsbtLib, !FrostSign, !BdkLib, !Bitcoind, !DkgLib, !Profile, !JwtLib,
          !PegLib, !ServerLib, !ConfigLib}.

Definition half_saved (m : MultisigId) (d : Db) : Prop :=
  is_Some (key_packages d !! multisig_key m) ∧ pubkey_packages d !! multisig_key m = None.

Lemma multisig_key_inj m m' :
  is_u32 (as_u32 m) → is_u32 (as_u32 m') → multisig_key m = multisig_key m' → m = m'.
Proof. intros Hm Hm' Hk. apply (f_equal (multisig_of_key)) in Hk. rewrite !multisig_of_key_key in Hk by done. by injection Hk. Qed.

(** A disk that fails between the two writes saves half a key. *)
Lemma failing_write_saves_half m a s sec pub rest :
  dkg_sessions a !! m = Some s → Dkg.aggregate_key_packages (machine s) = Some (sec, pub) →
  let m' := Dkg.multisig_id (machine s) in
  key_packages (app_db a) !! multisig_key m' = None → pubkey_packages (app_db a) !! multisig_key m' = None →
  io (app_db a) = false :: false :: true :: rest →
  (store_final_key m a).2 = Err (Internal (Some (EDb DbSled))) ∧ half_saved m' (app_db (store_final_key m a).1).
Proof.
  intros Hs Hagg m' Hk Hp Hio. destruct (store_final_key m a) as [a' r] eqn:E.
  unfold store_final_key, bindM at 1, get in E. rewrite Hs in E. cbn [mbind option_bind] in E. rewrite Hagg in E.
  change (default m _) with m' in E. unfold bindM at 1 in E. rewrite db_call_eq in E.
  unfold get_key_package_by_id, sled_read, sled in E. rewrite Hio in E. cbn [fst snd map_err key_packages set_io] in E.
  rewrite Hk, bool_decide_true in E by done. injection E as <- <-. split; [done|].
  split; [eexists; apply lookup_insert_eq|exact Hp].
Qed.

(** A disk failure at the wrong moment costs the server its federation: once
    a key share is stored without its public package (the second write of a
    finished key generation failed), no sequence of requests repairs it, and
    no start of the server on the resulting database succeeds as a member of
    that federation. *)
Theorem half_saved_key_is_fatal m a cs c n s' a' :
  half_saved m (app_db a) → is_u32 (as_u32 m) → m ≠ LEGACY_MULTISIG_ID →
  app_new c (app_db (run_calls cs a), n) = (s', Ok a') →
  key_bytes (app_db a') →
  ¬ ∃ mc, mc ∈ multisig (federation a') ∧ mc_multisig_id mc = m ∧ is_member (p2p_secret_key a') mc.
Proof.
  intros [Hk Hp] Hm Hne Hnew Hb (mc & Hmc & <- & Hmem).
  destruct (app_new_Ok _ _ _ _ Hnew Hb) as (ids & Hin & Hpub & _ & _ & Hout).
  destruct (run_keys_kept cs a) as [Hsub Hsame].
  destruct (Hout (multisig_key (mc_multisig_id mc))) as [Hk' Hp'].
  { intros Heq. by apply Hne, multisig_key_inj. }
  cbn [fst] in Hk', Hp'. assert (is_Some (pubkey_packages (app_db a') !! multisig_key (mc_multisig_id mc))) as Hs.
  { apply Hpub, Hin; [done..|]. rewrite Hk'. by eapply lookup_weaken_is_Some. }
  rewrite Hp', Hsame, Hp in Hs by done. by destruct Hs.
Qed.

End half_saved.

(** ** Requested key generations *)

Section start_dkg.
Context `{!BitcoinLib, !FrostLib, !PsbtLib, !FrostSign, !BdkLib, !Bitcoind, !DkgLib, !Profile, !JwtLib,
          !PegLib, !ServerLib}.

(** [Identifier::derive] gives different members different identifiers. *)
Definition distinct_identifiers : Prop := ∀ i j,
  0 ≤ i < 2 ^ 16 → 0 ≤ j < 2 ^ 16 → id_scalar (frost_id i) = id_scalar (frost_id j) → i = j.

Abbreviation add_member := (λ members '(pos, x),
  let? pubkey := ok_or (pubkey_from_str (key x)) (Dkg.BadConfig "invalid federation member public key") in
  Ok (<[id_scalar (frost_id (Z.of_nat pos mod 2 ^ 16)) := pubkey]> members)).

Lemma members_size_from n ms (acc r : gmap FrostId PubKey) :
  distinct_identifiers → (Z.of_nat (n + length ms) < 2 ^ 16) →
  (∀ i, (n ≤ i < n + length ms)%nat → acc !! id_scalar (frost_id (Z.of_nat i)) = None) →
  ofold add_member acc (imap (λ i x, ((n + i)%nat, x)) ms) = Ok r → size r = (size acc + length ms)%nat.
Proof.
  intros Hinj. revert n acc. induction ms as [|x ms IH]; intros n acc Hn Hacc; cbn [imap length ofold].
  { intros [= <-]. lia. }
  rewrite Nat.add_0_r. intros Hr. apply obind_Ok in Hr as (acc' & Hx & Hr).
  apply obind_Ok in Hx as (k & _ & [= <-]). cbn [length] in *.
  rewrite Z.mod_small in Hr by lia.
  assert (imap ((λ i y, ((n + i)%nat, y)) ∘ S) ms = imap (λ i y, ((S n + i)%nat, y)) ms) as Him.
  { apply imap_ext. intros i y _. cbn. f_equal. lia. }
  rewrite Him in Hr. apply IH in Hr; [|lia|].
  - rewrite Hr, map_size_insert_None by (apply Hacc; lia). lia.
  - intros i Hi. rewrite lookup_insert_ne; [apply Hacc; lia|].
    intros Heq. apply Hinj in Heq; lia.
Qed.

Lemma dkg_members_size ms r :
  distinct_identifiers → Z.of_nat (length ms) < 2 ^ 16 → dkg_members ms = Ok r → size r = length ms.
Proof.
  intros Hinj Hn Hr. unfold dkg_members in Hr.
  change (imap pair ms) with (imap (λ i x, ((0 + i)%nat, x)) ms) in Hr.
  apply members_size_from in Hr; [by rewrite map_size_empty in Hr|done..|]. intros i _. apply lookup_empty.
Qed.

(** What a new state machine has checked. *)
Lemma new_machine_Ok id secret m coord fed mins maxs coordinating unix draw st :
  new_dkg_state_machine id secret m coord fed mins maxs coordinating unix draw = Ok st →
  ∃ mc members, get_config_by_multisig_id fed m = Some mc ∧
    dkg_members (federation_member_public_key mc) = Ok members ∧
    Z.of_nat (size members) mod 2 ^ 16 = maxs ∧ mins ≤ maxs.
Proof.
  unfold new_dkg_state_machine. intros Hr. ores Hr. apply ok_or_Ok in Ho.
  exists a, a0. split_and!; [done..| |]; unfold Dkg.dkg_new in Ho2;
    do 2 (case_bool_decide; [done|]); cbn [Dkg.max_signers Dkg.min_signers] in Ho2;
    destruct (Z.ltb_spec maxs mins); try done;
    destruct (Z.eqb_spec (Z.of_nat (size a0) mod 2 ^ 16) maxs); try done.
Qed.

(** A requested key generation is for a federation of the size of the legacy
    one: it starts only when the federation has neither a key nor a running
    key generation, adds exactly one session and one notification, and the
    number of members of the federation is the number of signers of the
    legacy federation, whatever number the federation itself is configured
    with. *)
Theorem start_new_dkg_spec jwt m a a' :
  distinct_identifiers → io (app_db a) = [] → start_new_dkg jwt m a = (a', Ok tt) →
  let i := mkMultisigId m in
  key_packages (app_db a) !! multisig_key i = None ∧ dkg_sessions a !! i = None ∧
  ∃ mc st, get_config_by_multisig_id (federation a) i = Some mc ∧
    (Z.of_nat (length (federation_member_public_key mc)) < 2 ^ 16 →
     Z.of_nat (length (federation_member_public_key mc)) = max_signers a) ∧
    min_signers a ≤ max_signers a ∧
    dkg_sessions a' = <[i := st]> (dkg_sessions a) ∧ notifications a' = notifications a ++ [DkgStart i].
Proof.
  intros Hinj Hio Hr i. unfold start_new_dkg in Hr.
  destruct (validate_jwt_cases jwt a) as [[n Hn] _]. unfold bindM at 1 in Hr.
  destruct (validate_jwt jwt a) as [a1 [[]|e|]]; cbn in Hn; subst a1; [|done..]. fold i in Hr.
  unfold refuse_existing_key, get_key_package_by_id in Hr. unfold bindM at 1 2 in Hr.
  rewrite db_call_read in Hr by done. change (app_db (tick n a)) with (app_db a) in Hr.
  case_bool_decide as Hk; [done|]. apply eq_None_not_Some in Hk. split; [done|].
  unfold ret at 1 in Hr. unfold bindM at 1, get at 1 in Hr. cbn [dkg_sessions tick set_scheduler] in Hr.
  case_bool_decide as Hs; [done|]. apply eq_None_not_Some in Hs. split; [done|].
  mres Hr. lifts. injection Hm1 as <- _. injection Hr as <-.
  assert (dkg_sessions s = dkg_sessions a ∧ notifications s = notifications a) as [Hss Hns].
  { by destruct (is_coordinator (tick n a)); injection Hm as <- _. }
  apply map_err_Ok, new_machine_Ok in Hm0 as (mc & members & Hmc & Hmem & Hsize & Hmin).
  exists mc, a1. split; [exact Hmc|]. split_and!.
  - intros Hlt. apply dkg_members_size in Hmem; [|done..]. rewrite Hmem, Z.mod_small in Hsize by lia. done.
  - done.
  - cbn. by rewrite Hss.
  - cbn. by rewrite Hns.
Qed.

End start_dkg.
