(* ===== verification/ServerRun.v ===== *)
(** * A concrete server

    Instances of the libraries of [Server] and a server with one federation
    member, with the runs on which the theorems about the server are applied. *)

From stdpp Require Import strings.
From S2P Require Import Prelude Bytes Codec DkgAuth Dkg.
From S2P Require Import Bitcoin Psbt Types Concrete CoinSelection Database Merkle Util.
From S2P Require Import Coordinator Signer PegoutScheduler Peg Federation Jwt Rpc Server ServerFrame ServerSafety.
From S2P Require Import ServerEffects ServerBoot.

Open Scope Z_scope.

#[local] Existing Instances Toy.toy_dkg Toy.toy_laws Toy.debug.

(** ** The libraries *)

(** The PSBT of the session with the commitment of a draw. *)
Definition toy_committed_psbt (draw : Z) : Psbt :=
  mkPsbt (unsigned_tx (toy_vpsbt [toy_utxo 1 100000]))
    (map (set_signing_commitment toy_signer ([draw] : @SigningCommitments toy_frost))
       (inputs (toy_vpsbt [toy_utxo 1 100000])))
    (outputs (toy_vpsbt [toy_utxo 1 100000])).

(** bitcoind takes every transaction and has one output that pays [p2tr 9]; a
    PSBT is encoded by its commitment, or by nothing without one. *)
#[export] Instance toy_server : ServerLib := {
  send_raw_transaction _ tx := inl [1];
  get_tx_out _ o := inl (if decide (o = toy_outpoint 8) then Some (mkTxOut 500 (p2tr 9)) else None);
  estimate_smart_fee _ := inl None;
  get_block_count _ := inl 4;
  get_block_hash _ h := inl [h];
  instant n := Z.of_nat n;
  psbt_deserialize b := match b with
                        | [] => Some (toy_vpsbt [toy_utxo 1 100000])
                        | draw :: _ => Some (toy_committed_psbt draw)
                        end;
  psbt_serialize p := [];
  dkg_decode _ := None;
  dkg_encode _ := [];
  decode_block_hash b := Some b;
  block_hash_from_slice b := Some b;
  address_from_script s := if bool_decide (s = []) then None else Some s;
  base64_decode b := Some b;
  frost_id i := [i + 1];
  id_scalar b := match b with [x] => x | _ => 0 end;
  to_float_in_btc := toy_to_float;
  from_sat_per_vb_unchecked v := v * 250;
  from_sat_per_vb v := Some (v * 250);
  verifying_key k := k;
  stored_key_package k := [k.1; k.2];
  stored_pubkey_package p := [p];
  pubkey_from_str b := match b with [x] => Some x | _ => None end;
  pubkey_to_string p := [p];
  secret_key_from_str b := match b with x :: _ => Some x | _ => None end;
  random_session n := replicate 32 n }.

(** ** The server *)

(** This member is in federations 0 and 3; the other member of federation 0
    leaves and a new one joins. *)
Definition toy_member_key (p : Z) (r : FederationRole) : FedMemberPubKey := mkMember [p] [] r.

Definition toy_fed : FederationTomlConfig :=
  mkFederation [mkMultisig LEGACY_MULTISIG_ID 2 None [toy_member_key 245 Continuing; toy_member_key 250 Outgoing];
                mkMultisig (mkMultisigId 3) 2 None [toy_member_key 245 Continuing; toy_member_key 400 Incoming]]
    [] [] [].

Definition toy_server_db : Db := toy_signer_db.

Definition toy_app : App :=
  mkApp _ _ (PegoutScheduler.new (E:=unit) 2 [] [1] toy_server_db false).1 toy_signer 2 1 49 toy_fed ∅ None
    0 None [] None 250 [] 11 0.

Definition session1 : bytes := replicate 32 6.

Definition round1 (psbt : bytes) : Call := mkCall 10 None (GetRound1SigningPackage psbt session1).
Definition round2 (psbt : bytes) : Call := mkCall 10 None (GetRound2SigningPackage psbt session1).

(** ** Tokens *)

Definition toy_guarded_app : App :=
  mkApp _ _ (scheduler toy_app) toy_signer 2 1 49 toy_fed ∅ None 0 None [] (Some [7]) 250 [] 11 0.

(** The clock reads 1000: this token is properly signed, but old. *)
Lemma requests_need_a_token_witness :
  ∃ n, (handle 10 (Some [9; 7]) (GetPsbt session1 [2]) toy_guarded_app).1 = tick n toy_guarded_app.
Proof.
  destruct (requests_need_a_token 10 (Some [9; 7]) (GetPsbt session1 [2]) toy_guarded_app) as (n & Hn & _);
    [discriminate|discriminate| |by exists n].
  intros (v & b & [= <-] & [= <-] & _ & _ & _ & Hv). vm_compute in Hv. discriminate Hv.
Defined.

Lemma abort_signing_needs_no_token_witness :
  (handle 10 None AbortSigning (run_calls [round1 []] toy_app)).2 = Ok REmpty ∧
  (handle 10 None AbortSigning toy_guarded_app).2 = Ok REmpty.
Proof.
  split; [|by rewrite (abort_signing_needs_no_token 10 None toy_guarded_app eq_refl)].
  by rewrite (abort_signing_needs_no_token 10 None (run_calls [round1 []] toy_app));
    [|apply (bool_decide_unpack _); vm_cast_no_check I].
Defined.

(** ** Keys and nonces *)

Lemma keys_are_permanent_witness :
  key_packages (app_db (run_calls [round1 []; round2 [11]] toy_app)) !! multisig_key LEGACY_MULTISIG_ID = Some [5].
Proof.
  exact (proj1 (keys_are_permanent [round1 []; round2 [11]] toy_app LEGACY_MULTISIG_ID [5] eq_refl)).
Defined.

(** Two sessions; the second round of the first is asked for twice. *)
Lemma no_nonce_signs_twice_witness :
  ∃ used : list (list Z), NoDup (concat used) ∧ length used = 2%nat.
Proof.
  destruct (no_nonce_signs_twice [round1 []; round2 [11]; round2 [11]; round1 []; round2 [12]] toy_app eq_refl)
    as (used & Hd & Hf).
  exists used. split; [exact Hd|]. rewrite <-(Forall2_length _ _ _ Hf).
  apply (bool_decide_unpack _). vm_cast_no_check I.
Defined.

(** ** Pegouts *)

Definition toy_finalizing : App :=
  put_db (set_pending_pegouts {[ as_bytes (toy_pegout_id 4) := mkPegoutRequest (toy_pegout_id 4) (p2wpkh 3) 40000 1 None;
                                 as_bytes (toy_pegout_id 5) := toy_pending 5 1 ]} toy_session_db) toy_app.

Definition signed_ids (p : Db * outcome CoordinatorError Psbt) : list (list Z) :=
  if p.2 is Ok psbt then pegout_ids psbt else [].

Lemma toy_signed_ids :
  signed_ids (finalize_signing session1 (app_db toy_finalizing)) = [as_bytes (toy_pegout_id 4)].
Proof. apply (bool_decide_unpack _). vm_cast_no_check I. Qed.

Lemma finalize_signing_pegouts_witness :
  app_pending (finalize_signing_rpc None session1 toy_finalizing).1
  = {[ as_bytes (toy_pegout_id 5) := toy_pending 5 1 ]}.
Proof.
  destruct (finalize_signing_rpc None session1 toy_finalizing) as [a' r] eqn:E.
  destruct (finalize_signing_pegouts None session1 toy_finalizing a' r E)
    as [[Hno _]|(psbt & tx & n & ids & k & Hf & _ & _ & Hids & Hp & [[_ ->]|[_ Hio]])].
  - exfalso. apply (f_equal snd) in E. cbn [snd] in E.
    apply (Hno []). rewrite <-E. vm_compute. reflexivity.
  - cbn [fst]. rewrite Hp.
    pose proof toy_signed_ids as Hids'. unfold signed_ids in Hids'. rewrite Hf in Hids'.
    rewrite Hids' in Hids. apply Forall2_cons_inv_l in Hids as (i & l & Hi & Hl & ->).
    apply Forall2_nil_inv_l in Hl as ->. vm_compute in Hi. injection Hi as <-.
    apply (bool_decide_unpack _). vm_cast_no_check I.
  - assert (io (app_db toy_finalizing) = []) as Hnil by reflexivity. rewrite Hnil in Hio. destruct (not_elem_of_nil true Hio).
Defined.

Definition toy_new_pegout (n : Z) : RpcPendingPegout :=
  mkRpcPendingPegout (as_bytes (toy_pegout_id n)) (p2wpkh n) 900 2 1000.

Definition no_utxos (p : Db * outcome DbError (gmap OutPoint Utxo * gset OutPoint)) : bool :=
  if p.2 is Ok (available, _) then bool_decide (available = ∅) else false.

Lemma toy_has_utxos :
  no_utxos (get_available_utxos (app_db (set_scheduler (toy_scheduler [toy_delivery]) toy_app))) = false.
Proof. vm_cast_no_check (eq_refl false). Qed.

(** Pegout 4 is in flight already, pegout 6 is new. *)
Lemma new_pegouts_spec_witness :
  is_Some (app_pending (store_new_pegouts [toy_new_pegout 4; toy_new_pegout 6]
    (set_scheduler (toy_scheduler [toy_delivery]) toy_app)).1 !! as_bytes (toy_pegout_id 6)).
Proof.
  set (a := set_scheduler (toy_scheduler [toy_delivery]) toy_app).
  destruct (store_new_pegouts [toy_new_pegout 4; toy_new_pegout 6] a) as [a' r] eqn:E.
  assert (r = Ok tt) as ->.
  { apply (f_equal snd) in E. cbn [snd] in E. rewrite <-E. vm_compute. reflexivity. }
  destruct (new_pegouts_spec [toy_new_pegout 4; toy_new_pegout 6] a a' eq_refl E)
    as (av & tr & Hav & [(-> & _ & _)|(_ & pegouts & Hp & Hk)]).
  - subst a. apply (f_equal no_utxos) in Hav. rewrite toy_has_utxos in Hav. discriminate Hav.
  - cbn [fst]. apply Hk. right.
    apply Forall2_cons_inv_l in Hp as (p4 & l & _ & Hp & ->).
    apply Forall2_cons_inv_l in Hp as (p6 & l' & H6 & Hp & ->). exists p6.
    assert (pr_id p6 = toy_pegout_id 6) as Hid by (vm_compute in H6; injection H6 as <-; reflexivity).
    split; [by right; left|]. rewrite Hid. split; [done|].
    intros [Hd|Hd]; apply contains_true in Hd; vm_compute in Hd; discriminate Hd.
Defined.

(** A signer that is not the coordinator drops pegout 5, which the transaction
    does not pay. *)
Definition toy_follower : App :=
  mkApp _ _ (scheduler toy_finalizing) toy_signer 2 1 49 toy_fed ∅ None 1 None [] None 250 [] 11 0.

Lemma signer_forgets_pending_witness :
  app_pending toy_follower ≠ ∅ ∧
  app_pending (record_signed toy_round1_psbt (unsigned_tx toy_round1_psbt) toy_follower).1 = ∅.
Proof.
  split; [apply (bool_decide_unpack _); vm_cast_no_check I|].
  destruct (record_signed toy_round1_psbt (unsigned_tx toy_round1_psbt) toy_follower) as [a' r] eqn:E.
  assert (r = Ok tt) as ->.
  { apply (f_equal snd) in E. cbn [snd] in E. rewrite <-E. vm_compute. reflexivity. }
  exact (signer_forgets_pending toy_round1_psbt (unsigned_tx toy_round1_psbt) toy_follower a' E).
Defined.

(** ** Recovery *)

(** Outpoint 8 is on chain, outpoint 7 is not. *)
Definition toy_recover (n : Z) : UtxoToRecover :=
  mkUtxoToRecover (Some (mkRpcOutPoint (replicate 32 n) 0)) (hex_encode (replicate 20 1)) 0.

Lemma toy_recover_wf n : is_u8 n → request_wf (toy_recover n).
Proof. intros Hn o [= <-]. split; [exact (Forall_replicate _ 32 n Hn)|done]. Qed.

Lemma toy_recovers_wf : Forall request_wf [toy_recover 8; toy_recover 7].
Proof.
  apply Forall_cons; split; [|apply Forall_cons; split; [|by constructor]]; apply toy_recover_wf;
    unfold is_u8, u8_max; lia.
Qed.

Lemma recovery_adds_only_genuine_witness :
  (recover_missing_utxos None [toy_recover 8; toy_recover 7] toy_app).2 = Ok (2, 1) ∧
  ∃ m, utxo_view (app_db (recover_missing_utxos None [toy_recover 8; toy_recover 7] toy_app).1) m.
Proof.
  destruct (recover_missing_utxos None [toy_recover 8; toy_recover 7] toy_app) as [a' r] eqn:E.
  assert (r = Ok (2, 1)) as ->.
  { apply (f_equal snd) in E. cbn [snd] in E. rewrite <-E. vm_compute. reflexivity. }
  split; [done|].
  destruct (recovery_adds_only_genuine (foldl insert_absent ∅ [toy_utxo 1 100000]) None
    [toy_recover 8; toy_recover 7] toy_app a' 2 1 toy_vdb_view eq_refl toy_recovers_wf E) as (_ & m & Hm & _).
  exists m. exact Hm.
Defined.

(** ** Starting and generating keys *)

(** The configuration of federations 0 and 3; the key of federation 0 is
    stored with its public package. *)
Definition toy_boot_lib : ConfigLib := {|
  toml_parse _ := Some toy_fed;
  parse_public_key b := Some b;
  parse_socket_addr b := Some b;
  resolve_socket_addr _ := None;
  sha256_hex b := [48; 97] |}.

#[local] Existing Instance toy_boot_lib.

Definition toy_boot : BootConfig :=
  mkBoot 0 None (Some [1]) [48; 97] (Some [49]) None 1 Regtest [] false.

Lemma toy_key_bytes d : bool_decide (map_Forall (λ k _, Forall is_u8 k) (key_packages d)) = true → key_bytes d.
Proof. intros Hd k [p Hk]. apply bool_decide_eq_true in Hd. by apply (Hd k p). Qed.

(** The key of federation 0 is complete and that of federation 3 has to be
    generated. *)
Definition toy_started : App := Eval vm_compute in default toy_app (ok (app_new toy_boot (toy_signer_db, 0%nat)).2).

Lemma result_is {A B} (p : A * B) b : p.2 = b → p = (p.1, b).
Proof. by intros <-; destruct p. Qed.

Lemma toy_start : app_new toy_boot (toy_signer_db, 0%nat) = ((app_new toy_boot (toy_signer_db, 0%nat)).1, Ok toy_started).
Proof. apply result_is. vm_cast_no_check (eq_refl (Ok (E:=ServerError) toy_started)). Qed.

Lemma toy_fed_ids : Forall (λ mc, is_u32 (as_u32 (mc_multisig_id mc))) (multisig toy_fed).
Proof. by repeat constructor. Qed.

Lemma toy_started_bytes : key_bytes (app_db toy_started).
Proof. apply toy_key_bytes. vm_compute. reflexivity. Qed.

Lemma start_settles_federations_witness :
  is_Some (dkg_sessions toy_started !! mkMultisigId 3) ∧ dkg_sessions toy_started !! LEGACY_MULTISIG_ID = None.
Proof.
  pose proof (start_settles_federations toy_boot (toy_signer_db, 0%nat) _ toy_started toy_start toy_fed_ids
    toy_started_bytes) as (_ & Hs & _).
  split.
  - apply Hs. exists (mkMultisig (mkMultisigId 3) 2 None [toy_member_key 245 Continuing; toy_member_key 400 Incoming]).
    split; [by right; left|]. split; [done|]. split; [by eexists; split; [left|]|]. vm_compute. reflexivity.
  - apply eq_None_not_Some. intros Hno. apply Hs in Hno as (mc & _ & _ & _ & Hk). vm_compute in Hk. discriminate Hk.
Defined.

(** A federation whose public package was not stored: the server does not
    start as its member, but does with the key of another member, who is in
    federation 0 only. *)
Definition toy_broken : App :=
  put_db (set_key_packages (<[multisig_key (mkMultisigId 3) := [5]]> (key_packages toy_signer_db)) toy_signer_db) toy_app.

Definition toy_boot_other : BootConfig :=
  mkBoot 1 None (Some [1]) [48; 97] (Some [50]) None 1 Regtest [] false.

Definition toy_other_started : App := Eval vm_compute in
  default toy_app (ok (app_new toy_boot_other (app_db toy_broken, 0%nat)).2).

Lemma toy_other_start :
  app_new toy_boot_other (app_db toy_broken, 0%nat)
  = ((app_new toy_boot_other (app_db toy_broken, 0%nat)).1, Ok toy_other_started).
Proof. apply result_is. vm_cast_no_check (eq_refl (Ok (E:=ServerError) toy_other_started)). Qed.

Definition is_panic {E A} (m : outcome E A) : bool := if m is Panic then true else false.

Lemma is_panic_true {E A} (m : outcome E A) : is_panic m = true → m = Panic.
Proof. by destruct m. Qed.

Lemma half_saved_key_is_fatal_witness :
  (app_new toy_boot (app_db toy_broken, 0%nat)).2 = Panic ∧
  ¬ ∃ mc, mc ∈ multisig toy_fed ∧ mc_multisig_id mc = mkMultisigId 3 ∧ is_member 50 mc.
Proof.
  split; [apply is_panic_true; vm_cast_no_check (eq_refl true)|].
  refine (half_saved_key_is_fatal (mkMultisigId 3) toy_broken [] toy_boot_other 0 _ toy_other_started
    _ _ _ toy_other_start _).
  - split; [by eexists|]. vm_compute. reflexivity.
  - unfold is_u32, u32_max. cbn. lia.
  - discriminate.
  - apply toy_key_bytes. vm_compute. reflexivity.
Defined.

Lemma toy_distinct : distinct_identifiers.
Proof. intros i j _ _ Hij. cbn in Hij. lia. Qed.

Lemma start_new_dkg_spec_witness :
  notifications (start_new_dkg None 3 toy_app).1 = [DkgStart (mkMultisigId 3)].
Proof.
  destruct (start_new_dkg None 3 toy_app) as [a' r] eqn:E.
  assert (r = Ok tt) as ->.
  { apply (f_equal snd) in E. cbn [snd] in E. rewrite <-E. vm_compute. reflexivity. }
  destruct (start_new_dkg_spec None 3 toy_app a' toy_distinct eq_refl E) as (_ & _ & mc & st & _ & _ & _ & _ & Hn).
  exact Hn.
Defined.
