(* ===== verification/Ndd.v ===== *)
(** * The data a proposer adds to a block

    src/bin/botanix-reth/src/consensus/comet_bft/non_deterministic_data.rs:
    the first transaction of every CometBFT block.  It carries what the nodes
    cannot compute by themselves: the Bitcoin checkpoint, the aggregate key,
    who receives the fees, the runtime version the block was built with and the
    proposer's vote on an upgrade.

    The encodings of [u16] and [bool] of rust-bitcoin are the parameter
    [NddLib]; a tuple is encoded field by field.  Writing to a [Vec] never
    fails. *)

From S2P Require Import Prelude Bytes Bitcoin Concrete Activation Codec Peg.
From stdpp Require Import strings.

Open Scope Z_scope.

Definition is_u16 (x : Z) : Prop := 0 ≤ x ≤ 65535.

Class NddLib := {
  u16_c : codec Z;
  bool_c : codec bool }.

Class NddLaws `{!NddLib} : Prop := {
  u16_laws :: CodecLaws u16_c is_u16;
  bool_laws :: CodecLaws bool_c (λ _, True) }.

Inductive NonDeterministicDataDeserializeError :=
| NddDecoding (e : EncodeError)
| NddInvalidVersion
| InclusionIndicator
| NetworkUpgradePayloadVote.

Definition RUNTIME_VERSION_GENESIS : RuntimeVersion := mkVersion 0 1.

Definition VERSION_0 : Z := 0.
Definition VERSION_1 : Z := 1.
Definition VERSION_2 : Z := 2.

Section ndd.
Context `{!PegLib, !NddLib}.

Record NonDeterministicData := mkNdd {
  ndd_version : Z;
  ndd_bitcoin_block_hash : BlockHash;
  ndd_aggregated_public_key : PublicKey;
  ndd_block_fee_recipient_address : option bytes;
  ndd_runtime_version : RuntimeVersion;
  ndd_network_upgrade_payload : option NetworkUpgradePayload }.

Definition new_v0 (bitcoin_block_hash : BlockHash) (aggregated_public_key : PublicKey) : NonDeterministicData :=
  mkNdd VERSION_0 bitcoin_block_hash aggregated_public_key None RUNTIME_VERSION_GENESIS None.

Definition new_v1 (bitcoin_block_hash : BlockHash) (aggregated_public_key : PublicKey)
    (block_fee_recipient_address : bytes) : NonDeterministicData :=
  mkNdd VERSION_1 bitcoin_block_hash aggregated_public_key (Some block_fee_recipient_address)
    RUNTIME_VERSION_GENESIS None.

Definition new_v2 (bitcoin_block_hash : BlockHash) (aggregated_public_key : PublicKey)
    (block_fee_recipient_address : bytes) (runtime_version : RuntimeVersion)
    (network_upgrade_payload : option NetworkUpgradePayload) : NonDeterministicData :=
  mkNdd VERSION_2 bitcoin_block_hash aggregated_public_key (Some block_fee_recipient_address)
    runtime_version network_upgrade_payload.

(** ** Encoding *)

Definition encode_version (v : RuntimeVersion) : bytes :=
  consensus_encode u16_c (major v) ++ consensus_encode u16_c (minor v).

Definition vote_as_u8 (v : Vote) : Z := match v with Abstain => 0 | Nay => 1 | Aye => 2 end.

Definition encode_upgrade (payload : option NetworkUpgradePayload) : bytes :=
  match payload with
  | None => consensus_encode u8_c 0
  | Some upgrade =>
      consensus_encode u8_c 1 ++ encode_version (p_version upgrade) ++
      consensus_encode u8_c (vote_as_u8 (p_vote upgrade)) ++ consensus_encode bool_c (p_is_compliant upgrade)
  end.

Definition Ndd_serialize {E} (n : NonDeterministicData) : outcome E bytes :=
  let common :=
    consensus_encode array32_c (ndd_bitcoin_block_hash n) ++
    consensus_encode array33_c (pk_serialize (ndd_aggregated_public_key n)) ++
    consensus_encode u16_c (ndd_version n) in
  if ndd_version n =? VERSION_0 then Ok common
  else if ndd_version n =? VERSION_1 then
    let? address := expect (ndd_block_fee_recipient_address n) in Ok (common ++ address)
  else if ndd_version n =? VERSION_2 then
    let? address := expect (ndd_block_fee_recipient_address n) in
    Ok (common ++ address ++ encode_version (ndd_runtime_version n) ++
        encode_upgrade (ndd_network_upgrade_payload n))
  else Panic.

(** ** Decoding *)

Abbreviation NR A := (Reader NonDeterministicDataDeserializeError A).

Definition ndd_decode {A} (c : codec A) : NR A := map_errM NddDecoding (consensus_decode c).

Definition decode_version : NR RuntimeVersion :=
  let! major := ndd_decode u16_c in
  let! minor := ndd_decode u16_c in
  ret (mkVersion major minor).

Definition decode_vote (b : Z) : outcome NonDeterministicDataDeserializeError Vote :=
  if b =? 0 then Ok Abstain else if b =? 1 then Ok Nay else if b =? 2 then Ok Aye
  else Err NetworkUpgradePayloadVote.

Definition _deserialize_version_2 : NR (RuntimeVersion * option NetworkUpgradePayload) :=
  let! runtime_version := decode_version in
  let! included := ndd_decode u8_c in
  if included =? 0 then ret (runtime_version, None)
  else if included =? 1 then
    let! upgrade_version := decode_version in
    let! b := ndd_decode u8_c in
    let! vote := lift (decode_vote b) in
    let! is_compliant := ndd_decode bool_c in
    ret (runtime_version, Some (mkPayload upgrade_version vote is_compliant))
  else fail InclusionIndicator.

(** [if let Ok(a) = m]: what an unsuccessful reader has read stays read. *)
Definition tryM {E A} (m : Reader E A) : Reader E (option A) := λ s,
  match m s with
  | (s', Ok a) => (s', Ok (Some a))
  | (s', Err _) => (s', Ok None)
  | (s', Panic) => (s', Panic)
  end.

Definition read_address : NR bytes := map_errM (λ _, NddDecoding EncOther) (read_slice 20).

Definition Ndd_deserialize : NR NonDeterministicData :=
  let! bitcoin_block_hash := ndd_decode array32_c in
  let! pk_bytes := ndd_decode array33_c in
  let! aggregated_public_key := lift (ok_or (pk_from_slice pk_bytes) (NddDecoding EncOther)) in
  let! version := ndd_decode u16_c in
  if version =? VERSION_0 then
    ret (mkNdd version bitcoin_block_hash aggregated_public_key None RUNTIME_VERSION_GENESIS None)
  else if version =? VERSION_1 then
    let! address := read_address in
    let! v2 := tryM _deserialize_version_2 in
    let '(runtime_version, payload) := default (RUNTIME_VERSION_GENESIS, None) v2 in
    ret (mkNdd version bitcoin_block_hash aggregated_public_key (Some address) runtime_version payload)
  else if version =? VERSION_2 then
    let! address := read_address in
    let! '(runtime_version, payload) := _deserialize_version_2 in
    ret (mkNdd version bitcoin_block_hash aggregated_public_key (Some address) runtime_version payload)
  else fail NddInvalidVersion.

End ndd.

(** ** The round trip *)

Section ndd_codec.
Context `{!PegLib, !NddLib} (tx_wf : Transaction → Prop) `{!PegLaws tx_wf, !NddLaws}.

Definition payload_wf (p : NetworkUpgradePayload) : Prop := version_wf (p_version p).

(** What the three constructors build. *)
Definition ndd_wf (n : NonDeterministicData) : Prop :=
  is_array 32 (ndd_bitcoin_block_hash n) ∧
  ((∃ pk, n = new_v0 (ndd_bitcoin_block_hash n) pk) ∨
   (∃ pk a, is_array 20 a ∧ n = new_v1 (ndd_bitcoin_block_hash n) pk a) ∨
   (∃ pk a v p, is_array 20 a ∧ version_wf v ∧ (∀ x, p = Some x → payload_wf x) ∧
     n = new_v2 (ndd_bitcoin_block_hash n) pk a v p)).

Lemma parses_ndd_decode {A} (c : codec A) P `{!CodecLaws c P} a :
  P a → parses (ndd_decode c) (consensus_encode c a) a.
Proof. intros Ha. apply parses_map_err. by apply (decode_encode (P:=P)). Qed.

Lemma parses_version v : version_wf v → parses decode_version (encode_version v) v.
Proof.
  intros [Hm Hn]. unfold decode_version, encode_version.
  eapply parses_bind; [apply (parses_ndd_decode u16_c is_u16); unfold is_u16; lia|].
  eapply parses_bind_last; [apply (parses_ndd_decode u16_c is_u16); unfold is_u16; lia|].
  destruct v. apply parses_ret.
Qed.

Lemma parses_v2 v p :
  version_wf v → (∀ x, p = Some x → payload_wf x) →
  parses _deserialize_version_2 (encode_version v ++ encode_upgrade p) (v, p).
Proof.
  intros Hv Hp. unfold _deserialize_version_2.
  eapply parses_bind; [by apply parses_version|]. destruct p as [x|].
  - specialize (Hp x eq_refl). unfold encode_upgrade.
    eapply parses_bind; [apply (parses_ndd_decode u8_c is_u8); unfold is_u8, u8_max; lia|].
    change (1 =? 0) with false; change (1 =? 1) with true; cbn iota.
    eapply parses_bind; [by apply parses_version|].
    eapply parses_bind; [apply (parses_ndd_decode u8_c is_u8); destruct (p_vote x); unfold is_u8, u8_max; simpl; lia|].
    eapply (parses_bind_pre _ _ _ (p_vote x)); [apply parses_lift; by destruct (p_vote x)|].
    eapply parses_bind_last; [by apply (parses_ndd_decode bool_c (λ _, True))|].
    destruct x. apply parses_ret.
  - eapply parses_bind_last; [apply (parses_ndd_decode u8_c is_u8); unfold is_u8, u8_max; lia|].
    apply parses_ret.
Qed.

Lemma bindM_parses {E A B} (m : Reader E A) (k : A → Reader E B) u a rest :
  parses m u a → bindM m k (u ++ rest) = k a rest.
Proof. intros Hm. unfold bindM. by rewrite Hm. Qed.

Lemma bindM_parses_end {E A B} (m : Reader E A) (k : A → Reader E B) u a :
  parses m u a → bindM m k u = k a [].
Proof. intros Hm. specialize (Hm []). rewrite app_nil_r in Hm. unfold bindM. by rewrite Hm. Qed.

(** The fields that every version starts with. *)
Lemma run_common {A} h pk v (k : BlockHash → PublicKey → Z → Reader NonDeterministicDataDeserializeError A) rest :
  is_array 32 h → is_u16 v →
  (let! bitcoin_block_hash := ndd_decode array32_c in
   let! pk_bytes := ndd_decode array33_c in
   let! aggregated_public_key := lift (ok_or (pk_from_slice pk_bytes) (NddDecoding EncOther)) in
   let! version := ndd_decode u16_c in
   k bitcoin_block_hash aggregated_public_key version)
    (consensus_encode array32_c h ++ consensus_encode array33_c (pk_serialize pk) ++ consensus_encode u16_c v ++ rest)
  = k h pk v rest.
Proof.
  intros Hh Hv.
  rewrite (bindM_parses _ _ _ h) by (by apply (parses_ndd_decode array32_c (is_array 32))).
  rewrite (bindM_parses _ _ _ (pk_serialize pk))
    by (apply (parses_ndd_decode array33_c (is_array 33)); split; [apply pk_length|apply pk_bytes]).
  rewrite (bind_lift_Ok _ _ _ pk) by (apply ok_or_Ok, pk_roundtrip).
  by rewrite (bindM_parses _ _ _ v) by (by apply (parses_ndd_decode u16_c is_u16)).
Qed.

Lemma parses_address a : is_array 20 a → parses read_address a a.
Proof. intros [Ha _]. by apply parses_map_err, parses_read_slice. Qed.

(** Nothing is read from an empty reader. *)
Lemma v2_on_empty : (tryM _deserialize_version_2 []).2 = Ok None.
Proof.
  unfold tryM, _deserialize_version_2, decode_version, ndd_decode, bindM, map_errM.
  destruct (consensus_decode u16_c []) as [s [v|e|]] eqn:E; cbn [map_err]; [|done|].
  - apply (decode_advances (P:=is_u16)) in E as (u & Hu & Happ).
    by apply eq_sym, app_eq_nil in Happ as [-> _].
  - pose proof (decode_total (c:=u16_c) (P:=is_u16) []) as Ht. by rewrite E in Ht.
Qed.

Lemma total_tryM {E A} (m : Reader E A) : total_reader m → total_reader (tryM m).
Proof. intros Hm s. specialize (Hm s). unfold tryM. by destruct (m s) as [s' [a|e|]]. Qed.

Lemma total_ndd_decode {A} (c : codec A) P `{!CodecLaws c P} : total_reader (ndd_decode c).
Proof. by apply total_map_err, (total_codec c P). Qed.

Ltac total_step :=
  match goal with
  | |- total_reader (bindM _ _) => apply total_bind; [|intros ?]
  | |- total_reader (ret _) => apply total_ret
  | |- total_reader (fail _) => apply total_fail
  | |- total_reader (ndd_decode _) => eapply total_ndd_decode; apply _
  | |- total_reader (tryM _) => apply total_tryM
  | |- total_reader (lift _) => apply total_lift; unfold decode_vote, ok_or; repeat case_match; done
  | |- total_reader (map_errM _ _) => apply total_map_err, total_read_slice
  | |- total_reader (match ?x with _ => _ end) => destruct x
  end.

Lemma total_ndd : total_reader Ndd_deserialize.
Proof.
  unfold Ndd_deserialize, _deserialize_version_2, decode_version, read_address. repeat total_step.
Qed.

Lemma parses_whole {E A} (m : Reader E A) u a (P : Prop) : parses m u a → (m u).2 = Ok a ∧ (P → parses m u a).
Proof. intros Hm. split; [|done]. specialize (Hm []). rewrite app_nil_r in Hm. by rewrite Hm. Qed.

Lemma parses_new_v2 {E} h pk a v p :
  is_array 32 h → is_array 20 a → version_wf v → (∀ x, p = Some x → payload_wf x) →
  ∃ b, Ndd_serialize (E:=E) (new_v2 h pk a v p) = Ok b ∧ parses Ndd_deserialize b (new_v2 h pk a v p).
Proof.
  intros Hh Ha Hv Hp. eexists. split; [reflexivity|]. intros rest. unfold Ndd_deserialize.
  cbn [new_v2 ndd_bitcoin_block_hash ndd_aggregated_public_key ndd_version ndd_block_fee_recipient_address
    ndd_runtime_version ndd_network_upgrade_payload]. rewrite <-!app_assoc, run_common by done.
  change (VERSION_2 =? VERSION_0) with false; change (VERSION_2 =? VERSION_1) with false;
  change (VERSION_2 =? VERSION_2) with true; cbn iota.
  rewrite (bindM_parses _ _ _ a) by (by apply parses_address).
  by rewrite app_assoc, (bindM_parses _ _ _ (v, p)) by (by apply parses_v2).
Qed.

(** The data of a proposal round-trips: what any of the three constructors
    builds is written without a panic and read back as it was, for versions 0
    and 2 whatever follows it; and no bytes make the reader panic. *)
Theorem ndd_roundtrip :
  (∀ n, ndd_wf n → ∃ b, Ndd_serialize (E:=EncodeError) n = Ok b ∧ (Ndd_deserialize b).2 = Ok n ∧
     (ndd_version n ≠ VERSION_1 → parses Ndd_deserialize b n)) ∧
  (∀ b, (Ndd_deserialize b).2 ≠ Panic).
Proof.
  split; [|exact total_ndd].
  intros n (Hh & [(pk & Hn)|[(pk & a & Ha & Hn)|(pk & a & v & p & Ha & Hv & Hp & Hn)]]); rewrite Hn;
    set (h := ndd_bitcoin_block_hash n) in *; clearbody h; clear n Hn.
  - eexists. split; [reflexivity|]. apply parses_whole. intros rest. unfold Ndd_deserialize.
    rewrite <-!app_assoc. by rewrite run_common.
  - eexists. split; [reflexivity|]. split; [|done]. unfold Ndd_deserialize.
    cbn [new_v1 ndd_bitcoin_block_hash ndd_aggregated_public_key ndd_version ndd_block_fee_recipient_address].
    rewrite <-!app_assoc, run_common by done.
    change (VERSION_1 =? VERSION_0) with false; change (VERSION_1 =? VERSION_1) with true; cbn iota.
    rewrite (bindM_parses_end _ _ _ a) by (by apply parses_address).
    pose proof v2_on_empty as Hv2. unfold bindM. destruct (tryM _deserialize_version_2 []) as [s o].
    cbn [snd] in Hv2. by subst o.
  - destruct (parses_new_v2 (E:=EncodeError) h pk a v p Hh Ha Hv Hp) as (b & Hb & Hr).
    exists b. split; [done|]. by apply parses_whole.
Qed.

End ndd_codec.

(** ** A concrete instance *)

#[export] Instance is_u16_dec v : Decision (is_u16 v).
Proof. unfold is_u16. apply _. Defined.

#[export] Instance toy_ndd_lib : NddLib := {
  u16_c := toy_int_codec 2 is_u16;
  bool_c := fixed_codec 1 (λ b : bool, [if b then 1 else 0]) (λ b, Some (bool_decide (b = [1]))) (λ _, True) }.

#[export] Instance toy_ndd_laws : NddLaws.
Proof.
  split.
  - apply toy_int_laws; [done|]. unfold is_u16. intros v. simpl. lia.
  - apply fixed_codec_laws; [done|]. intros [] _; split; reflexivity.
Qed.

(** A proposal with a vote, from bytes to data and back. *)
Definition toy_ndd : NonDeterministicData :=
  new_v2 (replicate 32 5) true (replicate 20 6) (mkVersion 0 2) (Some (mkPayload (mkVersion 0 3) Aye true)).

Definition reads_back (n : NonDeterministicData) : bool :=
  match Ndd_serialize (E:=EncodeError) n with
  | Ok b => match (Ndd_deserialize b).2 with
            | Ok m => bool_decide (ok (Ndd_serialize (E:=EncodeError) m) = Some b) && bool_decide (length b = 98%nat)
            | _ => false end
  | _ => false end.

Example toy_ndd_reads_back : reads_back toy_ndd = true.
Proof. by vm_compute. Qed.

Lemma ndd_roundtrip_witness :
  ∃ b, Ndd_serialize (E:=EncodeError) toy_ndd = Ok b ∧ (Ndd_deserialize b).2 = Ok toy_ndd.
Proof.
  destruct (proj1 (ndd_roundtrip toy_tx_wf) toy_ndd) as (b & Hb & Hr & _); [|exists b; split; assumption].
  split; [apply (bool_decide_unpack _); vm_compute; exact I|]. right. right.
  exists true, (replicate 20 6), (mkVersion 0 2), (Some (mkPayload (mkVersion 0 3) Aye true)).
  split; [apply (bool_decide_unpack _); vm_compute; exact I|].
  split; [split; simpl; lia|]. split; [|reflexivity]. intros x [= <-]. split; simpl; lia.
Defined.
