(* ===== verification/Consensus.v ===== *)
(** * Consensus rules on blocks and headers

    src/bin/botanix-reth/src/node/consensus.rs: what a node checks of a block
    before it votes for it ([validate_block_pre_execution],
    [validate_header], [validate_header_standalone]), and of a header against
    its parent ([validate_header_against_parent]); and the rules of
    src/crates/botanix-consensus-common/src (validation.rs, calc.rs and the
    checks of utils.rs).

    The parameter [EthLib] is what the node takes from alloy and reth: hashes
    and roots, fork activation, fee and blob arithmetic and the checks it
    calls.  [EthLaws] states what those checks are documented to do. *)

From S2P Require Import Prelude Bytes Bitcoin Codec Peg Edh Mint Execution.
From stdpp Require Import strings.

Open Scope Z_scope.

(** ** Headers *)

Record EvmHeader := mkEvmHeader {
  hd_parent_hash : bytes;
  hd_ommers_hash : bytes;
  hd_beneficiary : bytes;
  hd_state_root : bytes;
  hd_transactions_root : bytes;
  hd_receipts_root : bytes;
  hd_withdrawals_root : option bytes;
  hd_logs_bloom : Z;
  hd_difficulty : Z;
  hd_number : Z;
  hd_gas_limit : Z;
  hd_gas_used : Z;
  hd_timestamp : Z;
  hd_mix_hash : bytes;
  hd_nonce : bytes;
  hd_base_fee_per_gas : option Z;
  hd_blob_gas_used : option Z;
  hd_excess_blob_gas : option Z;
  hd_extra_data : bytes;
  hd_parent_beacon_block_root : option bytes;
  hd_requests_hash : option bytes }.

#[global] Instance EvmHeader_eq_dec : EqDecision EvmHeader.
Proof. solve_decision. Defined.

Class EthLib `{!Evm} := {
  EMPTY_OMMER_ROOT_HASH : bytes;
  EMPTY_TRANSACTIONS : bytes;
  EMPTY_RECEIPTS : bytes;
  hash_slow : EvmHeader → bytes;
  calculate_transaction_root : list EvmTx → bytes;
  calculate_receipt_root : list Receipt → bytes;
  receipt_bloom : Receipt → Z;
  blob_gas_used_of : EvmTx → option Z;
  recover_signers : list EvmTx → option (list Address);
  (** the hard forks of the chain specification *)
  is_paris_active_at_block : Z → bool;
  is_london_active_at_block : Z → bool;
  is_cancun_active_at_timestamp : Z → bool;
  london_transitions_at_block : Z → bool;
  elasticity_multiplier_at : Z → Z;
  next_block_base_fee : EvmHeader → Z → option Z;
  calc_excess_blob_gas : Z → Z → Z;
  (** reth's checks, [true] for [Ok] *)
  reth_validate_header_gas : EvmHeader → bool;
  reth_validate_header_base_fee : EvmHeader → bool;
  reth_validate_4844_header_standalone : EvmHeader → bool;
  reth_validate_cancun_gas : EvmHeader → list EvmTx → bool;
  reth_validate_against_parent_hash_number : EvmHeader → EvmHeader → bool;
  reth_validate_against_parent_timestamp : EvmHeader → EvmHeader → bool;
  reth_validate_against_parent_eip1559_base_fee : EvmHeader → EvmHeader → bool;
  reth_validate_against_parent_4844 : EvmHeader → EvmHeader → bool }.

(** The header as the extra data and the executor see it. *)
Definition eth_header `{!Evm, !EthLib} (h : EvmHeader) : EthHeader :=
  mkEthHeader (hash_slow h) (hd_parent_hash h) (hd_number h) (hd_timestamp h) (hd_gas_limit h) (hd_gas_used h)
    (hd_base_fee_per_gas h) (hd_beneficiary h) (hd_blob_gas_used h) (hd_excess_blob_gas h)
    (hd_parent_beacon_block_root h) (hd_extra_data h).

Inductive InvalidAggregatedPublicKeyError :=
| MissingAggregatedPublicKey
| NumsAggregatePublicKeyPastGenesis
| InvalidAggregatedPublicKey.

Inductive ConsensusError :=
| BlockBeneficiaryIsNotBurnAddress
| InvalidAggregatedPublicKeyE (e : InvalidAggregatedPublicKeyError)
| ExtraDataExceedsMax (len : Z)
| ExtraDataInvalid
| ExtraDataHeaderExceedsMax (len : Z)
| InvalidChainVersion
| TheMergeDifficultyIsNotZero
| TheMergeNonceIsNotZero
| TheMergeOmmerRootIsNotEmpty
| TimestampIsInFuture (timestamp present_timestamp : Z)
| BlobGasUsedUnexpected
| ExcessBlobGasUnexpected
| ParentBeaconBlockRootUnexpected
| GasLimitInvalidIncrease (parent_gas_limit child_gas_limit : Z)
| GasLimitInvalidDecrease (parent_gas_limit child_gas_limit : Z)
| GasLimitInvalidMinimum (child_gas_limit : Z)
| BodyOmmersHashDiff
| BodyTransactionRootDiff
| RethConsensusError
(* the variants that the node's other calls return *)
| MissingBlockFeeRecipientAddress
| MissingBitcoinCheckpoint
| LatestHeaderMissing
| ConsensusOther.

Definition MAXIMUM_EXTRA_DATA_SIZE : Z := 256.
Definition MAX_EDH_SIZE : Z := 93.

(** [GAS_LIMIT_BOUND_DIVISOR] and [MINIMUM_GAS_LIMIT] of reth,
    [ALLOWED_FUTURE_BLOCK_TIME_SECONDS] of alloy *)
Definition GAS_LIMIT_BOUND_DIVISOR : Z := 1024.
Definition MINIMUM_GAS_LIMIT : Z := 5000.
Definition ALLOWED_FUTURE_BLOCK_TIME_SECONDS : Z := 15.

Section consensus.
Context `{!PegLib, !Evm, !EthLib, !Profile}.

(** [nums_secp256k1_pk()], the key with the x coordinate of the generator *)
Context (nums_secp256k1_pk : PublicKey).

Abbreviation R A := (outcome ConsensusError A).

Definition check (b : bool) (e : ConsensusError) : R unit := if b then Ok tt else Err e.

(** ** Proof of authority *)

Definition validate_chain_version (edh_chain_version : Z) : R unit :=
  check (edh_chain_version =? CHAIN_VERSION) InvalidChainVersion.

Definition validate_extra_data_header (header : EvmHeader) (aggregate_public_key : option PublicKey) : R unit :=
  if hd_number header =? 0 then Ok tt else
  match aggregate_public_key with
  | None => Err (InvalidAggregatedPublicKeyE MissingAggregatedPublicKey)
  | Some aggregate_public_key =>
      let extradata_len := Z.of_nat (length (hd_extra_data header)) in
      if MAXIMUM_EXTRA_DATA_SIZE <? extradata_len then Err (ExtraDataExceedsMax extradata_len) else
      let? edh := map_err (λ _, ExtraDataInvalid) (deserialize_extra_data_header (eth_header header)) in
      if MAX_EDH_SIZE <? edh_size edh then Err (ExtraDataHeaderExceedsMax (edh_size edh)) else
      let? _ := validate_chain_version (chain_version edh) in
      if bool_decide (aggregated_public_key edh = nums_secp256k1_pk)
      then Err (InvalidAggregatedPublicKeyE NumsAggregatePublicKeyPastGenesis) else
      check (bool_decide (aggregated_public_key edh = aggregate_public_key))
        (InvalidAggregatedPublicKeyE InvalidAggregatedPublicKey)
  end.

Definition validate_block_beneficiary (header : EvmHeader) : R unit :=
  check (bool_decide (hd_beneficiary header = ZERO_ADDRESS)) BlockBeneficiaryIsNotBurnAddress.

Definition validate_header_standalone (header : EvmHeader) (aggregate_public_key : option PublicKey) : R unit :=
  match aggregate_public_key with
  | None => Err (InvalidAggregatedPublicKeyE MissingAggregatedPublicKey)
  | Some _ =>
      let? _ := validate_extra_data_header header aggregate_public_key in
      validate_block_beneficiary header
  end.

(** ** Headers *)

(** [present_timestamp] is the clock; the sum of a clock reading and the
    constant does not overflow a [u64]. *)
Definition validate_header_inner (present_timestamp : Z) (header : EvmHeader) : R unit :=
  let? _ :=
    if is_paris_active_at_block (hd_number header) then
      if negb (hd_difficulty header =? 0) then Err TheMergeDifficultyIsNotZero else
      if negb (bool_decide (hd_nonce header = replicate 8 0)) then Err TheMergeNonceIsNotZero else
      check (bool_decide (hd_ommers_hash header = EMPTY_OMMER_ROOT_HASH)) TheMergeOmmerRootIsNotEmpty
    else
      check (hd_timestamp header <=? present_timestamp + ALLOWED_FUTURE_BLOCK_TIME_SECONDS)
        (TimestampIsInFuture (hd_timestamp header) present_timestamp) in
  let? _ := check (reth_validate_header_gas header) RethConsensusError in
  let? _ := check (reth_validate_header_base_fee header) RethConsensusError in
  if is_cancun_active_at_timestamp (hd_timestamp header)
  then check (reth_validate_4844_header_standalone header) RethConsensusError
  else if bool_decide (is_Some (hd_blob_gas_used header)) then Err BlobGasUsedUnexpected
  else if bool_decide (is_Some (hd_excess_blob_gas header)) then Err ExcessBlobGasUnexpected
  else check (bool_decide (hd_parent_beacon_block_root header = None)) ParentBeaconBlockRootUnexpected.

Definition validate_header (present_timestamp : Z) (header : EvmHeader) : R unit :=
  validate_header_inner present_timestamp header.

Definition validate_against_parent_gas_limit (header parent : EvmHeader) : R unit :=
  let? parent_gas_limit :=
    if negb (is_london_active_at_block (hd_number parent)) && is_london_active_at_block (hd_number header)
    then umul 64 (hd_gas_limit parent) (elasticity_multiplier_at (hd_timestamp header))
    else Ok (hd_gas_limit parent) in
  let child_gas_limit := hd_gas_limit header in
  if parent_gas_limit <? child_gas_limit then
    check (child_gas_limit - parent_gas_limit <? parent_gas_limit / GAS_LIMIT_BOUND_DIVISOR)
      (GasLimitInvalidIncrease parent_gas_limit child_gas_limit)
  else if parent_gas_limit / GAS_LIMIT_BOUND_DIVISOR <=? parent_gas_limit - child_gas_limit
  then Err (GasLimitInvalidDecrease parent_gas_limit child_gas_limit)
  else check (MINIMUM_GAS_LIMIT <=? child_gas_limit) (GasLimitInvalidMinimum child_gas_limit).

Definition validate_header_against_parent (header parent : EvmHeader) : R unit :=
  let? _ := check (reth_validate_against_parent_hash_number header parent) RethConsensusError in
  let? _ := check (reth_validate_against_parent_timestamp header parent) RethConsensusError in
  let? _ := validate_against_parent_gas_limit header parent in
  let? _ := check (reth_validate_against_parent_eip1559_base_fee header parent) RethConsensusError in
  if is_cancun_active_at_timestamp (hd_timestamp header)
  then check (reth_validate_against_parent_4844 header parent) RethConsensusError else Ok tt.

(** ** Blocks *)

(** The body of a block has no ommers. *)
Definition validate_block_pre_execution (header : EvmHeader) (transactions : list EvmTx) : R unit :=
  let? _ := check (bool_decide (hd_ommers_hash header = EMPTY_OMMER_ROOT_HASH)) BodyOmmersHashDiff in
  let? _ := check (bool_decide (hd_transactions_root header = calculate_transaction_root transactions))
              BodyTransactionRootDiff in
  if is_cancun_active_at_timestamp (hd_timestamp header)
  then check (reth_validate_cancun_gas header transactions) RethConsensusError else Ok tt.

End consensus.

Definition body_blob_gas `{!Evm, !EthLib} (txs : list EvmTx) : Z :=
  foldr (λ tx n, default 0 (blob_gas_used_of tx) + n) 0 txs.

(** What the node relies on of alloy and reth. *)
Class EthLaws `{!Evm, !EthLib} : Prop := {
  empty_transactions_root : calculate_transaction_root [] = EMPTY_TRANSACTIONS;
  recover_length txs l : recover_signers txs = Some l → length l = length txs;
  header_gas h : reth_validate_header_gas h = (hd_gas_used h <=? hd_gas_limit h);
  header_base_fee h : is_Some (hd_base_fee_per_gas h) → reth_validate_header_base_fee h = true;
  cancun_gas h txs : reth_validate_cancun_gas h txs = true ↔
    hd_blob_gas_used h = Some (body_blob_gas txs);
  standalone_4844 h : hd_blob_gas_used h = Some 0 → is_Some (hd_excess_blob_gas h) →
    is_Some (hd_parent_beacon_block_root h) → reth_validate_4844_header_standalone h = true }.

(** ** What is accepted *)

Section consensus_theorems.
Context `{!PegLib, !Evm, !EthLib, !Profile}.
Context (tx_wf : Transaction → Prop) `{!PegLaws tx_wf}.
Context (nums_secp256k1_pk : PublicKey).

Lemma check_Ok b (e : ConsensusError) : check b e = Ok tt ↔ b = true.
Proof. by destruct b. Qed.

Lemma yields_read_slice n : yields (read_slice n) (λ b, length b = n).
Proof.
  intros s s' b. unfold read_slice. destruct (Nat.ltb_spec (length s) n); [done|]. intros [= _ <-].
  by rewrite length_take_le.
Qed.

(** Every extra data header that can be read has the size that is allowed. *)
Lemma read_edh_size h e : deserialize_extra_data_header h = Ok e → edh_size e = MAX_EDH_SIZE.
Proof.
  unfold deserialize_extra_data_header. destruct (Edh_deserialize (extra_data h)) as [s o] eqn:E.
  cbn [snd]. intros ->. revert E. generalize (extra_data h). intros b Hr.
  assert (yields Edh_deserialize (λ e, edh_size e = MAX_EDH_SIZE)) as Hy; [|exact (Hy _ _ _ Hr)].
  unfold Edh_deserialize, edh_decode.
  eapply yields_bind; [by apply yields_map_err, (yields_codec u32_c is_u32)|]. intros v Hv.
  eapply yields_bind; [by apply yields_map_err, (yields_codec u32_c is_u32)|]. intros c Hc.
  eapply yields_bind; [by apply yields_map_err, (yields_codec array32_c (is_array 32))|]. intros hash Hh.
  eapply yields_bind; [apply yields_any|]. intros pkb _.
  eapply yields_bind; [apply yields_any|]. intros pk _.
  eapply yields_bind; [apply yields_map_err, yields_read_slice|]. intros a Ha. apply yields_ret.
  unfold edh_size, Edh_serialize, encode_into, encode_into_without_signature.
  cbn [edh_version chain_version bitcoin_block_hash aggregated_public_key block_fee_recipient_address].
  rewrite !length_app, array32_encode, array33_encode, !(fixed_length (c:=u32_c)), pk_length, Ha by
    (done || (split; [apply pk_length|apply pk_bytes])).
  by rewrite (proj1 Hh).
Qed.

(** Past genesis a header satisfies the rules of the federation exactly when its
    extra data of at most 256 bytes starts with an extra data header of the
    current chain version that names the aggregate key of the federation,
    which is not the point of genesis, and when nobody gets the reward. *)
Theorem validate_header_standalone_spec h k :
  hd_number h ≠ 0 →
  validate_header_standalone nums_secp256k1_pk h (Some k) = Ok tt ↔
  (length (hd_extra_data h) ≤ 256)%nat ∧ hd_beneficiary h = ZERO_ADDRESS ∧ k ≠ nums_secp256k1_pk ∧
  ∃ edh, deserialize_extra_data_header (eth_header h) = Ok edh ∧ chain_version edh = CHAIN_VERSION ∧
    aggregated_public_key edh = k.
Proof.
  intros Hn. unfold validate_header_standalone, validate_extra_data_header, validate_block_beneficiary.
  rewrite (proj2 (Z.eqb_neq _ _) Hn). unfold MAXIMUM_EXTRA_DATA_SIZE.
  destruct (Z.ltb_spec 256 (Z.of_nat (length (hd_extra_data h)))) as [Hl|Hl].
  { split; [done|]. intros [Hle _]. lia. }
  destruct (deserialize_extra_data_header (eth_header h)) as [edh|e|] eqn:E; cbn [map_err obind].
  2,3: split; [done|]; intros (_ & _ & _ & x & [=] & _).
  rewrite (read_edh_size _ _ E). change (MAX_EDH_SIZE <? MAX_EDH_SIZE) with false. cbn iota.
  unfold validate_chain_version, check.
  destruct (Z.eqb_spec (chain_version edh) CHAIN_VERSION) as [Hc|Hc]; cbn [obind].
  2:{ split; [done|]. by intros (_ & _ & _ & x & [= <-] & ? & _). }
  case_bool_decide as Hnums; [split; [done|]; intros (_ & _ & Hk & x & [= <-] & _ & <-); done|].
  case_bool_decide as Hk; cbn [obind]; [|split; [done|]; by intros (_ & _ & _ & x & [= <-] & _ & ?)].
  case_bool_decide as Hb; [|split; [done|]; by intros (_ & ? & _)].
  split; [intros _|done]. split_and!; [lia|done|congruence|by exists edh].
Qed.

(** A header may move the gas limit by less than a 1024th of the parent's,
    rounded down; only a limit that does not rise is held to the minimum. *)
Theorem gas_limit_spec h p :
  is_london_active_at_block (hd_number p) = true ∨ is_london_active_at_block (hd_number h) = false →
  validate_against_parent_gas_limit h p = Ok tt ↔
  Z.abs (hd_gas_limit h - hd_gas_limit p) < hd_gas_limit p / 1024 ∧
  (hd_gas_limit h ≤ hd_gas_limit p → MINIMUM_GAS_LIMIT ≤ hd_gas_limit h).
Proof.
  intros Hlondon. unfold validate_against_parent_gas_limit, GAS_LIMIT_BOUND_DIVISOR.
  replace (negb _ && _) with false by (destruct Hlondon as [-> | ->]; [done|by rewrite andb_false_r]).
  cbn [obind]. unfold check.
  destruct (Z.ltb_spec (hd_gas_limit p) (hd_gas_limit h)) as [Hup|Hdown].
  - destruct (Z.ltb_spec (hd_gas_limit h - hd_gas_limit p) (hd_gas_limit p / 1024)); split; (done || lia).
  - destruct (Z.leb_spec (hd_gas_limit p / 1024) (hd_gas_limit p - hd_gas_limit h)); [split; (done || lia)|].
    destruct (Z.leb_spec MINIMUM_GAS_LIMIT (hd_gas_limit h)); split; (done || lia).
Qed.

End consensus_theorems.

(** ** The rules of botanix-consensus-common

    Hard forks by block are [active_at_block], the fork of the merge is
    [active_at_ttd]. *)

Module Common.
Section common.
Context `{!Evm, !EthLib, !Profile}.

Inductive CommonError :=
| HeaderGasUsedExceedsGasLimit (gas_used gas_limit : Z)
| BaseFeeMissing
| BodyTransactionRootDiffC
| BlobGasUsedMissing
| BlobGasUsedDiff (got expected : Z)
| ExcessBlobGasMissing
| ParentBeaconBlockRootMissing
| BlobGasUsedExceedsMaxBlobGasPerBlock (blob_gas_used max_blob_gas_per_block : Z)
| BlobGasUsedNotMultipleOfBlobGasPerBlob (blob_gas_used blob_gas_per_blob : Z)
| ParentBlockNumberMismatch (parent_block_number block_number : Z)
| ParentHashMismatch (got expected : bytes)
| BaseFeeDiff (got expected : Z)
| TimestampIsInPast (parent_timestamp timestamp : Z)
| ExcessBlobGasDiff (got expected : Z)
| BeneficiaryIsNotBurnAddress.

Abbreviation R A := (outcome CommonError A).

(** [DATA_GAS_PER_BLOB], [MAX_DATA_GAS_PER_BLOCK_DENCUN] and
    [INITIAL_BASE_FEE] of alloy *)
Definition DATA_GAS_PER_BLOB : Z := 131072.
Definition MAX_DATA_GAS_PER_BLOCK : Z := 786432.
Definition INITIAL_BASE_FEE : Z := 1000000000.

Definition validate_header_gas (header : EvmHeader) : R unit :=
  if hd_gas_limit header <? hd_gas_used header
  then Err (HeaderGasUsedExceedsGasLimit (hd_gas_used header) (hd_gas_limit header)) else Ok tt.

Definition validate_header_base_fee (header : EvmHeader) : R unit :=
  if is_london_active_at_block (hd_number header) && bool_decide (hd_base_fee_per_gas header = None)
  then Err BaseFeeMissing else Ok tt.

Definition common_validate_block_pre_execution (header : EvmHeader) (transactions : list EvmTx) : R unit :=
  if negb (bool_decide (hd_transactions_root header = calculate_transaction_root transactions))
  then Err BodyTransactionRootDiffC else
  if is_cancun_active_at_timestamp (hd_timestamp header) then
    let? header_blob_gas_used := ok_or (hd_blob_gas_used header) BlobGasUsedMissing in
    let total_blob_gas := body_blob_gas transactions in
    if negb (total_blob_gas =? header_blob_gas_used)
    then Err (BlobGasUsedDiff header_blob_gas_used total_blob_gas) else Ok tt
  else Ok tt.

Definition validate_4844_header_standalone (header : EvmHeader) : R unit :=
  let? blob_gas_used := ok_or (hd_blob_gas_used header) BlobGasUsedMissing in
  let? excess_blob_gas := ok_or (hd_excess_blob_gas header) ExcessBlobGasMissing in
  if bool_decide (hd_parent_beacon_block_root header = None) then Err ParentBeaconBlockRootMissing else
  if MAX_DATA_GAS_PER_BLOCK <? blob_gas_used
  then Err (BlobGasUsedExceedsMaxBlobGasPerBlock blob_gas_used MAX_DATA_GAS_PER_BLOCK) else
  if negb (blob_gas_used mod DATA_GAS_PER_BLOB =? 0)
  then Err (BlobGasUsedNotMultipleOfBlobGasPerBlob blob_gas_used DATA_GAS_PER_BLOB) else
  if negb (excess_blob_gas mod DATA_GAS_PER_BLOB =? 0)
  then Err (BlobGasUsedNotMultipleOfBlobGasPerBlob excess_blob_gas DATA_GAS_PER_BLOB) else Ok tt.

(** The parent is sealed: its hash is known. *)
Definition validate_against_parent_hash_number (header : EvmHeader) (parent : bytes * EvmHeader) : R unit :=
  let? next := uadd 64 (hd_number parent.2) 1 in
  if negb (next =? hd_number header)
  then Err (ParentBlockNumberMismatch (hd_number parent.2) (hd_number header)) else
  if negb (bool_decide (parent.1 = hd_parent_hash header))
  then Err (ParentHashMismatch (hd_parent_hash header) parent.1) else Ok tt.

Definition validate_against_parent_eip1559_base_fee (header parent : EvmHeader) : R unit :=
  if negb (is_london_active_at_block (hd_number header)) then Ok tt else
  let? base_fee := ok_or (hd_base_fee_per_gas header) BaseFeeMissing in
  let? expected_base_fee :=
    if london_transitions_at_block (hd_number header) then Ok INITIAL_BASE_FEE
    else ok_or (next_block_base_fee parent (hd_timestamp header)) BaseFeeMissing in
  if negb (expected_base_fee =? base_fee) then Err (BaseFeeDiff base_fee expected_base_fee) else Ok tt.

Definition validate_against_parent_timestamp (header parent : EvmHeader) : R unit :=
  if hd_timestamp header <=? hd_timestamp parent
  then Err (TimestampIsInPast (hd_timestamp parent) (hd_timestamp header)) else Ok tt.

Definition validate_against_parent_4844 (header parent : EvmHeader) : R unit :=
  let parent_blob_gas_used := default 0 (hd_blob_gas_used parent) in
  let parent_excess_blob_gas := default 0 (hd_excess_blob_gas parent) in
  if bool_decide (hd_blob_gas_used header = None) then Err BlobGasUsedMissing else
  let? excess_blob_gas := ok_or (hd_excess_blob_gas header) ExcessBlobGasMissing in
  let expected_excess_blob_gas := calc_excess_blob_gas parent_excess_blob_gas parent_blob_gas_used in
  if negb (expected_excess_blob_gas =? excess_blob_gas)
  then Err (ExcessBlobGasDiff excess_blob_gas expected_excess_blob_gas) else Ok tt.

(** *** utils.rs *)

Definition validate_poa_block_beneficiary (header : EvmHeader) : R unit :=
  if bool_decide (hd_beneficiary header = ZERO_ADDRESS) then Ok tt else Err BeneficiaryIsNotBurnAddress.

Definition fixed_bytes_32_to_u256 (value : bytes) : Z := from_le_bytes value.

Definition is_inturn (authorities_len signer_index time_range : Z) (random_source : bytes) : bool :=
  signer_index =? 0.

Definition current_inturn_index (authorities_len reference_timestamp block_time : Z) : Z := 0.

(** *** calc.rs *)

Definition ETH_TO_WEI : Z := 10 ^ 18.

Context (constantinople_active_at_block byzantium_active_at_block : Z → bool).
Context (paris_active_at_ttd : Z → Z → bool).

Definition base_block_reward_pre_merge (block_number : Z) : Z :=
  if constantinople_active_at_block block_number then ETH_TO_WEI * 2
  else if byzantium_active_at_block block_number then ETH_TO_WEI * 3
  else ETH_TO_WEI * 5.

Definition base_block_reward (block_number block_difficulty total_difficulty : Z) : option Z :=
  if paris_active_at_ttd total_difficulty block_difficulty then None
  else Some (base_block_reward_pre_merge block_number).

Definition block_reward {E} (base_block_reward : Z) (ommers : Z) : outcome E Z :=
  let? part := umul 128 (Z.shiftr base_block_reward 5) ommers in
  uadd 128 base_block_reward part.

Definition ommer_reward {E} (base_block_reward block_number ommer_block_number : Z) : outcome E Z :=
  let? eight := uadd 64 8 ommer_block_number in
  let? factor := usub 64 eight block_number in
  let? product := umul 128 factor base_block_reward in
  Ok (Z.shiftr product 3).

End common.

Section common_theorems.
Context `{!Evm, !EthLib, !Profile}.

(** Where the two validations of a header's blob fields meet: a header without
    blobs passes whenever its fields are there and the excess is a multiple. *)
Lemma no_blobs_pass h r e :
  hd_blob_gas_used h = Some 0 → hd_excess_blob_gas h = Some (e * DATA_GAS_PER_BLOB) →
  hd_parent_beacon_block_root h = Some r → validate_4844_header_standalone h = Ok tt.
Proof.
  intros Hb He Hr. unfold validate_4844_header_standalone. rewrite Hb, He, Hr. cbn [ok_or obind].
  rewrite Z.mod_mul by done. reflexivity.
Qed.

(** The reward for an ommer at most seven blocks old is the eighths of the
    block reward that the yellow paper gives, without a wrap-around; for an
    older one the subtraction underflows: it panics when overflows are checked
    and is a wrapped multiple otherwise. *)
Theorem ommer_reward_spec reward n m :
  0 < reward < 2 ^ 64 → 0 ≤ m ≤ n → n < 2 ^ 63 →
  (n - m ≤ 8 → ommer_reward (E:=Empty_set) reward n m = Ok ((8 - (n - m)) * reward / 8)) ∧
  (8 < n - m → ommer_reward (E:=Empty_set) reward n m ≠ Ok ((8 - (n - m)) * reward / 8)).
Proof.
  intros Hr Hm Hn. unfold ommer_reward. rewrite uadd_Ok by lia. cbn [obind]. split.
  - intros Hd. rewrite usub_Ok by lia. cbn [obind]. unfold umul.
    destruct (Z.ltb_spec ((8 + m - n) * reward) (2 ^ 128)); [|nia]. cbn [obind].
    rewrite Z.shiftr_div_pow2 by done. f_equal. f_equal. lia.
  - intros Hd. unfold usub. destruct (Z.leb_spec n (8 + m)); [lia|]. destruct overflow_checks; [done|].
    cbn [obind]. assert (0 ≤ (8 + m - n) mod 2 ^ 64) as Hf by (apply Z.mod_pos_bound; lia).
    assert (∀ x, 0 ≤ x → Z.shiftr x 3 ≠ (8 - (n - m)) * reward / 8) as Hneg.
    { intros x Hx. rewrite Z.shiftr_div_pow2 by done. assert (0 ≤ x / 2 ^ 3) by (apply Z.div_pos; lia).
      assert ((8 - (n - m)) * reward / 8 < 0) by (apply Z.div_lt_upper_bound; nia). lia. }
    unfold umul. destruct (_ <? _); cbn [obind].
    + intros [= Heq]. revert Heq. apply Hneg. nia.
    + destruct overflow_checks; [done|]. cbn [obind]. intros [= Heq]. revert Heq. apply Hneg. apply Z.mod_pos_bound. lia.
Qed.

End common_theorems.
End Common.
