(* ===== verification/Payload.v ===== *)
(** * Building a proposal's transactions

    src/crates/botanix-evm/src/payload.rs: [default_ethereum_payload] takes
    transactions from the pool in the order of what they pay, executes them and
    keeps those that fit.

    The pool, its iterator and the block builder are the parameter
    [PayloadLib].  An iterator may forget descendants of a transaction that is
    marked invalid; the builder is a state that a transaction changes.  The
    loop runs on fuel; [payload_fits] says how much is enough. *)

From S2P Require Import Prelude Bytes Bitcoin Codec Peg Edh Mint Execution Consensus.
From stdpp Require Import strings.

Open Scope Z_scope.

Inductive TxOutcome :=
| Executed (gas_used : Z)
| InvalidTx (is_nonce_too_low : bool)
| FatalTx.

Record Sidecar := mkSidecar { is_eip4844_sidecar : bool; is_eip7594 : bool }.

Inductive Eip4844PoolTransactionError :=
| TooManyEip4844Blobs (have permitted : Z)
| MissingEip4844BlobSidecar
| UnexpectedEip4844SidecarAfterOsaka
| UnexpectedEip7594SidecarBeforeOsaka.

Inductive InvalidPoolTransactionError :=
| ExceedsGasLimit (tx_gas_limit block_gas_limit : Z)
| Eip4844Error (e : Eip4844PoolTransactionError)
| TxTypeNotSupported.

(** The attributes the new block is built with; the random [prev_randao] and
    the payload's id are not part of them. *)
Record PayloadAttributes := mkAttributes {
  at_timestamp : Z;
  at_suggested_fee_recipient : bytes;
  at_withdrawals : option (list bytes);
  at_parent_beacon_block_root : option bytes }.

Class PayloadLib `{!Evm} := {
  PoolTx : Type;
  pool_gas_limit : PoolTx → Z;
  to_consensus : PoolTx → EvmTx;
  (** the number of blobs of a blob transaction *)
  as_eip4844 : EvmTx → option Z;
  get_blob : bytes → outcome unit (option Sidecar);
  BestTxs : Type;
  best_next : BestTxs → option (PoolTx * BestTxs);
  mark_invalid : PoolTx → InvalidPoolTransactionError → BestTxs → BestTxs;
  skip_blobs : BestTxs → BestTxs;
  BlockBuilder : Type;
  builder_gas_limit : BlockBuilder → Z;
  builder_basefee : BlockBuilder → Z;
  builder_blob_gasprice : BlockBuilder → option Z;
  builder_pre_execution : BlockBuilder → option BlockBuilder;
  builder_execute : EvmTx → BlockBuilder → BlockBuilder * TxOutcome;
  (** the transactions of the finished block *)
  builder_finish : BlockBuilder → outcome unit (list EvmTx);
  (** the blob parameters of the chain at the block's time *)
  max_blob_count_at : Z → option Z;
  is_osaka_active_at : Z → bool }.

Inductive PayloadBuilderError := StateUnavailable | BuilderFailed | PreExecution | EvmFailed | BlobStoreFailed | FinishFailed.

(** [BuildOutcome]; the built block by its transactions *)
Inductive BuildOutcome {T : Type} := Aborted (fees : Z) | Cancelled | Better (transactions : list T) (fees : Z).
Arguments BuildOutcome : clear implicits.

Section payload.
Context `{!Evm, !PayloadLib, !Profile}.

Record PayloadState := mkPayloadState {
  ps_builder : BlockBuilder;
  ps_best_txs : BestTxs;
  cumulative_gas_used : Z;
  total_fees : Z;
  block_blob_count : Z;
  blob_sidecars : list Sidecar }.

Definition set_ps_best (b : BestTxs) (s : PayloadState) : PayloadState :=
  mkPayloadState (ps_builder s) b (cumulative_gas_used s) (total_fees s) (block_blob_count s) (blob_sidecars s).
Definition set_ps_builder (b : BlockBuilder) (s : PayloadState) : PayloadState :=
  mkPayloadState b (ps_best_txs s) (cumulative_gas_used s) (total_fees s) (block_blob_count s) (blob_sidecars s).

Definition invalidate (tx : PoolTx) (e : InvalidPoolTransactionError) (s : PayloadState) : PayloadState :=
  set_ps_best (mark_invalid tx e (ps_best_txs s)) s.

Abbreviation PB A := (outcome PayloadBuilderError A).

Section loop.
Context (block_gas_limit base_fee max_blob_count timestamp : Z).

(** The sidecar of a blob transaction, or why it cannot go into the block. *)
Definition blob_sidecar (tx : EvmTx) (blobs count : Z)
    : PB (option Sidecar + Eip4844PoolTransactionError) :=
  let? have := uadd 64 count blobs in
  if max_blob_count <? have then Ok (inr (TooManyEip4844Blobs have max_blob_count)) else
  let? sidecar := map_err (λ _, BlobStoreFailed) (get_blob (tx_hash tx)) in
  Ok match sidecar with
     | None => inr MissingEip4844BlobSidecar
     | Some sidecar =>
         if is_osaka_active_at timestamp
         then if is_eip7594 sidecar then inl (Some sidecar) else inr UnexpectedEip4844SidecarAfterOsaka
         else if is_eip4844_sidecar sidecar then inl (Some sidecar) else inr UnexpectedEip7594SidecarBeforeOsaka
     end.

(** What happens once a transaction has been executed. *)
Definition count_blobs (tx : EvmTx) (s : PayloadState) : PB PayloadState :=
  match as_eip4844 tx with
  | None => Ok s
  | Some blobs =>
      let? count := uadd 64 (block_blob_count s) blobs in
      let s := mkPayloadState (ps_builder s) (ps_best_txs s) (cumulative_gas_used s) (total_fees s) count (blob_sidecars s) in
      Ok (if count =? max_blob_count then set_ps_best (skip_blobs (ps_best_txs s)) s else s)
  end.

Definition record_executed (tx : EvmTx) (gas_used : Z) (sidecar : option Sidecar) (s : PayloadState)
    : PB PayloadState :=
  let? s := count_blobs tx s in
  let? miner_fee := expect (effective_tip_per_gas tx base_fee) in
  let? gas := uadd 64 (cumulative_gas_used s) gas_used in
  Ok (mkPayloadState (ps_builder s) (ps_best_txs s) gas (total_fees s + miner_fee * gas_used) (block_blob_count s)
        (match sidecar with Some x => blob_sidecars s ++ [x] | None => blob_sidecars s end)).

(** A transaction that fits into the block's gas; [inr] when the job has been
    cancelled. *)
Definition include_tx (pool_tx : PoolTx) (cancelled : bool) (s : PayloadState) : PB (PayloadState + unit) :=
  if cancelled then Ok (inr tt) else
  let tx := to_consensus pool_tx in
  let? sidecar :=
    match as_eip4844 tx with
    | None => Ok (inl None)
    | Some blobs => blob_sidecar tx blobs (block_blob_count s)
    end in
  match sidecar with
  | inr e => Ok (inl (invalidate pool_tx (Eip4844Error e) s))
  | inl sidecar =>
      let '(builder, res) := builder_execute tx (ps_builder s) in
      let s := set_ps_builder builder s in
      match res with
      | FatalTx => Err EvmFailed
      | InvalidTx true => Ok (inl s)
      | InvalidTx false => Ok (inl (invalidate pool_tx TxTypeNotSupported s))
      | Executed gas_used => let? s := record_executed tx gas_used sidecar s in Ok (inl s)
      end
  end.

(** One transaction that the iterator has returned. *)
Definition try_include (pool_tx : PoolTx) (cancelled : bool) (s : PayloadState) : PB (PayloadState + unit) :=
  let? needed := uadd 64 (cumulative_gas_used s) (pool_gas_limit pool_tx) in
  if block_gas_limit <? needed
  then Ok (inl (invalidate pool_tx (ExceedsGasLimit (pool_gas_limit pool_tx) block_gas_limit) s))
  else include_tx pool_tx cancelled s.

(** The loop: [None] when the fuel is not enough, [inr] when the job was
    cancelled, which [is_cancelled] says for each turn. *)
Fixpoint payload_loop (fuel : nat) (is_cancelled : nat → bool) (s : PayloadState)
    : option (PB (PayloadState + unit)) :=
  match fuel with
  | O => None
  | S fuel =>
      match best_next (ps_best_txs s) with
      | None => Some (Ok (inl s))
      | Some (pool_tx, rest) =>
          match try_include pool_tx (is_cancelled fuel) (set_ps_best rest s) with
          | Ok (inl s) => payload_loop fuel is_cancelled s
          | Ok (inr _) => Some (Ok (inr tt))
          | Err e => Some (Err e)
          | Panic => Some Panic
          end
      end
  end.

End loop.

(** [default_ethereum_payload]; the size limit [max_tx_bytes] of the build
    arguments is ignored.  [start] is [builder_for_next_block] on the state of
    the parent, [best_txs] the pool's iterator for the two fees, and
    [is_better] compares the fees with those of the best payload so far. *)
Definition default_ethereum_payload (fuel : nat) (start : PB BlockBuilder) (best_txs : Z → option Z → BestTxs)
    (is_cancelled : nat → bool) (is_better : Z → bool) (attributes : PayloadAttributes)
    (max_tx_bytes : option Z) (floor_base_fee : option Z) : option (PB (BuildOutcome EvmTx)) :=
  match start with
  | Err e => Some (Err e)
  | Panic => Some Panic
  | Ok builder =>
      let block_gas_limit := builder_gas_limit builder in
      let base_fee := Z.max (builder_basefee builder) (default 0 floor_base_fee) in
      let best := best_txs base_fee (builder_blob_gasprice builder) in
      match builder_pre_execution builder with
      | None => Some (Err PreExecution)
      | Some builder =>
          let max_blob_count := default 0 (max_blob_count_at (at_timestamp attributes)) in
          match payload_loop block_gas_limit base_fee max_blob_count (at_timestamp attributes) fuel is_cancelled
                  (mkPayloadState builder best 0 0 0 []) with
          | None => None
          | Some (Ok (inl s)) =>
              Some (if negb (is_better (total_fees s)) then Ok (Aborted (total_fees s)) else
                    let? transactions := map_err (λ _, FinishFailed) (builder_finish (ps_builder s)) in
                    Ok (Better transactions (total_fees s)))
          | Some (Ok (inr _)) => Some (Ok Cancelled)
          | Some (Err e) => Some (Err e)
          | Some Panic => Some Panic
          end
      end
  end.

End payload.

(** ** What a payload satisfies *)

(** What the code relies on of the pool and the builder: the iterator is finite,
    the gas limits are those of the transactions, and a transaction that is
    executed is appended to the block and uses at most its limit; one that is
    not leaves the block as it is. *)
Class PayloadLaws `{!Evm, !PayloadLib} := {
  best_size : BestTxs → nat;
  best_next_size b tx rest : best_next b = Some (tx, rest) → (best_size rest < best_size b)%nat;
  mark_invalid_size tx e b : (best_size (mark_invalid tx e b) ≤ best_size b)%nat;
  skip_blobs_size b : (best_size (skip_blobs b) ≤ best_size b)%nat;
  pool_gas tx : pool_gas_limit tx = tx_gas_limit (to_consensus tx);
  pool_gas_range tx : 0 ≤ pool_gas_limit tx < 2 ^ 63;
  blob_count_range tx n : as_eip4844 tx = Some n → 0 ≤ n < 2 ^ 63;
  (** the transactions executed so far, with the gas they used *)
  in_block : BlockBuilder → list (EvmTx * Z);
  executed_in_block tx b b' gas : builder_execute tx b = (b', Executed gas) →
    in_block b' = in_block b ++ [(tx, gas)] ∧ 0 ≤ gas ≤ tx_gas_limit tx;
  invalid_not_in_block tx b b' low : builder_execute tx b = (b', InvalidTx low) → in_block b' = in_block b;
  pre_execution_empty b b' : builder_pre_execution b = Some b' → in_block b' = [];
  finished_block b txs : builder_finish b = Ok txs → txs = map fst (in_block b) }.

Section payload_theorems.
Context `{!Evm, !PayloadLib, !Profile, !PayloadLaws}.

Section loop.
Context (block_gas_limit base_fee max_blob_count timestamp : Z).
Context (Hlimit : 0 ≤ block_gas_limit < 2 ^ 63) (Hblobs : 0 ≤ max_blob_count < 2 ^ 63).

Definition sum_by {A} (f : A → Z) (l : list A) : Z := foldr (λ x n, f x + n) 0 l.

Lemma sum_by_snoc {A} (f : A → Z) l x : sum_by f (l ++ [x]) = sum_by f l + f x.
Proof. unfold sum_by. induction l as [|y l IH]; simpl in *; lia. Qed.

Definition blobs_of (e : EvmTx * Z) : Z := default 0 (as_eip4844 e.1).

(** What holds of the state between two turns. *)
Record payload_inv (s : PayloadState) : Prop := {
  gas_is : cumulative_gas_used s = sum_by snd (in_block (ps_builder s));
  gas_within : 0 ≤ cumulative_gas_used s ≤ block_gas_limit;
  blob_count_is : block_blob_count s = sum_by blobs_of (in_block (ps_builder s));
  blobs_within : 0 ≤ block_blob_count s ≤ max_blob_count;
  sidecars_match : Z.of_nat (length (blob_sidecars s)) =
    sum_by (λ e, if as_eip4844 e.1 then 1 else 0) (in_block (ps_builder s)) }.

Lemma inv_set_best b s : payload_inv s → payload_inv (set_ps_best b s).
Proof. intros []. by constructor. Qed.

Lemma blob_sidecar_fits tx blobs count r :
  0 ≤ blobs < 2 ^ 63 → 0 ≤ count ≤ max_blob_count →
  blob_sidecar max_blob_count timestamp tx blobs count = Ok (inl r) → count + blobs ≤ max_blob_count.
Proof.
  intros Hb Hc. unfold blob_sidecar. rewrite uadd_Ok by lia. cbn [obind].
  destruct (Z.ltb_spec max_blob_count (count + blobs)) as [|Hle]; [done|]. intros _. lia.
Qed.
Lemma count_blobs_Ok tx s s' :
  0 ≤ block_blob_count s → (∀ n, as_eip4844 tx = Some n → block_blob_count s + n ≤ max_blob_count) →
  count_blobs max_blob_count tx s = Ok s' →
  ps_builder s' = ps_builder s ∧ cumulative_gas_used s' = cumulative_gas_used s ∧
  blob_sidecars s' = blob_sidecars s ∧ block_blob_count s' = block_blob_count s + default 0 (as_eip4844 tx) ∧
  (best_size (ps_best_txs s') ≤ best_size (ps_best_txs s))%nat.
Proof.
  intros Hc Hfit. unfold count_blobs. destruct (as_eip4844 tx) as [n|] eqn:En.
  - specialize (Hfit n eq_refl). pose proof (blob_count_range _ _ En). rewrite uadd_Ok by lia. cbn [obind].
    intros [= <-]. pose proof (skip_blobs_size (ps_best_txs s)).
    destruct (_ =? max_blob_count); cbn; split_and!; (done || lia).
  - intros [= <-]. cbn. split_and!; (done || lia).
Qed.

Definition sidecar_for (tx : EvmTx) (sidecar : option Sidecar) : Prop :=
  is_Some sidecar ↔ is_Some (as_eip4844 tx).

Lemma record_executed_inv tx gas sidecar s s' b :
  payload_inv s → cumulative_gas_used s + gas ≤ block_gas_limit → 0 ≤ gas →
  (∀ n, as_eip4844 tx = Some n → block_blob_count s + n ≤ max_blob_count) → sidecar_for tx sidecar →
  in_block b = in_block (ps_builder s) ++ [(tx, gas)] →
  record_executed base_fee max_blob_count tx gas sidecar (set_ps_builder b s) = Ok s' →
  payload_inv s' ∧ (best_size (ps_best_txs s') ≤ best_size (ps_best_txs s))%nat.
Proof.
  intros [Hg Hgw Hb Hbw Hsc] Hgas Hpos Hfit Hside Hin. unfold record_executed.
  destruct (count_blobs max_blob_count tx (set_ps_builder b s)) as [s1|e|] eqn:Ec; [|done..].
  apply count_blobs_Ok in Ec as (E1 & E2 & E3 & E4 & E5); [|cbn; lia|done]. cbn in E1, E2, E3, E4, E5.
  cbn [obind]. destruct (effective_tip_per_gas tx base_fee) as [fee|]; [|done]. cbn [expect obind].
  rewrite E2, uadd_Ok by lia. cbn [obind]. intros [= <-]. split; [|exact E5].
  assert (∀ n, as_eip4844 tx = Some n → 0 ≤ n) as Hn by (intros n Hn; apply blob_count_range in Hn; lia).
  constructor; cbn [cumulative_gas_used block_blob_count ps_builder blob_sidecars]; rewrite ?E1, ?E3, ?E4, ?Hin, ?sum_by_snoc.
  - cbn [snd]. lia.
  - lia.
  - by rewrite Hb.
  - destruct (as_eip4844 tx) as [n|]; [specialize (Hfit n eq_refl); specialize (Hn n eq_refl)|]; simpl; lia.
  - cbn [fst]. destruct Hside as [Hs1 Hs2]. destruct sidecar as [x|], (as_eip4844 tx) as [n|].
    + rewrite length_app. simpl. lia.
    + by destruct Hs1.
    + by destruct Hs2.
    + lia.
Qed.

Lemma inv_set_builder b s : in_block b = in_block (ps_builder s) → payload_inv s → payload_inv (set_ps_builder b s).
Proof. intros Hb []. constructor; cbn; by rewrite ?Hb. Qed.

(** The sidecar of a transaction that goes into the block. *)
Lemma sidecar_chosen tx count r :
  0 ≤ count ≤ max_blob_count →
  (match as_eip4844 tx with
   | None => Ok (inl None)
   | Some blobs => blob_sidecar max_blob_count timestamp tx blobs count
   end) = Ok (inl r) →
  sidecar_for tx r ∧ ∀ n, as_eip4844 tx = Some n → count + n ≤ max_blob_count.
Proof.
  intros Hc. unfold sidecar_for. destruct (as_eip4844 tx) as [n|] eqn:En; [|intros [= <-]; split; [done|]].
  - intros Hr. split.
    + split; [by eexists|]. intros _. revert Hr. unfold blob_sidecar.
      destruct (uadd 64 count n) as [h|e|]; [|done..]. cbn [obind]. destruct (_ <? h); [done|].
      destruct (get_blob (tx_hash tx)) as [o|e|]; [|done..]. cbn [map_err obind].
      destruct o as [x|]; [|done]. destruct (is_osaka_active_at timestamp).
      * destruct (is_eip7594 x); [|done]. intros [= <-]. by eexists.
      * destruct (is_eip4844_sidecar x); [|done]. intros [= <-]. by eexists.
    + intros m [= <-]. eapply blob_sidecar_fits; [|done|exact Hr]. by eapply blob_count_range.
  - by intros n.
Qed.

Lemma try_include_inv p c s s' :
  payload_inv s → try_include block_gas_limit base_fee max_blob_count timestamp p c s = Ok (inl s') →
  payload_inv s' ∧ (best_size (ps_best_txs s') ≤ best_size (ps_best_txs s))%nat.
Proof.
  intros Hinv. pose proof Hinv as [Hg Hgw Hb Hbw Hsc]. pose proof (pool_gas_range p) as Hp.
  assert (∀ e, payload_inv (invalidate p e s) ∧
    (best_size (ps_best_txs (invalidate p e s)) ≤ best_size (ps_best_txs s))%nat) as Hskip.
  { intros e. split; [by apply inv_set_best|]. apply mark_invalid_size. }
  unfold try_include. rewrite uadd_Ok by lia. cbn [obind].
  destruct (Z.ltb_spec block_gas_limit (cumulative_gas_used s + pool_gas_limit p)) as [Hfull|Hfits].
  { intros [= <-]. apply Hskip. }
  unfold include_tx. destruct c; [done|].
  destruct (match as_eip4844 (to_consensus p) with Some _ => _ | None => _ end) as [[r|e]|e|] eqn:Es;
    cbn [obind]; [|intros [= <-]; apply Hskip|done..].
  apply sidecar_chosen in Es as [Hside Hfit]; [|done].
  destruct (builder_execute (to_consensus p) (ps_builder s)) as [b res] eqn:Eb. destruct res as [gas|low|]; [| |done].
  - apply executed_in_block in Eb as [Hin Hgas]. rewrite <-pool_gas in Hgas.
    destruct (record_executed base_fee max_blob_count (to_consensus p) gas r (set_ps_builder b s)) as [s1|e|] eqn:Er;
      [|done..]. cbn [obind]. intros [= <-]. eapply (record_executed_inv (to_consensus p) gas); [done|lia|lia|done..].
  - apply invalid_not_in_block in Eb. destruct low; intros [= <-].
    + split; [by apply inv_set_builder|done].
    + split; [by apply inv_set_best, inv_set_builder|]. apply mark_invalid_size.
Qed.

Lemma payload_loop_inv is_cancelled : ∀ fuel s s',
  payload_inv s → payload_loop block_gas_limit base_fee max_blob_count timestamp fuel is_cancelled s = Some (Ok (inl s')) →
  payload_inv s'.
Proof.
  induction fuel as [|fuel IH]; intros s s' Hs; cbn [payload_loop]; [done|].
  destruct (best_next (ps_best_txs s)) as [[p rest]|]; [|by intros [= <-]].
  destruct (try_include _ _ _ _ p _ _) as [[s1|]|e|] eqn:Et; [|done..].
  intros Hl. eapply IH; [|exact Hl]. eapply try_include_inv; [|exact Et]. by apply inv_set_best.
Qed.

(** The loop returns: every turn takes a transaction from the iterator. *)
Lemma payload_loop_returns is_cancelled : ∀ fuel s,
  payload_inv s → (best_size (ps_best_txs s) < fuel)%nat →
  payload_loop block_gas_limit base_fee max_blob_count timestamp fuel is_cancelled s ≠ None.
Proof.
  induction fuel as [|fuel IH]; intros s Hs Hsize; cbn [payload_loop]; [lia|].
  destruct (best_next (ps_best_txs s)) as [[p rest]|] eqn:En; [|done].
  destruct (try_include _ _ _ _ p _ _) as [[s1|]|e|] eqn:Et; [|done..].
  apply best_next_size in En. apply try_include_inv in Et as [Hs1 Hle]; [|by apply inv_set_best].
  apply IH; [done|]. cbn in Hle. lia.
Qed.

End loop.

(** A proposal's transactions fit into a block: the block's transactions are
    those executed, in this order, the gas they used is within the block's
    limit, and their blobs are within the limit of the fork.  The loop ends
    after at most as many turns as the pool's iterator has transactions. *)
Theorem payload_fits fuel best_txs is_cancelled is_better attributes max_tx_bytes floor builder :
  0 ≤ builder_gas_limit builder < 2 ^ 63 →
  0 ≤ default 0 (max_blob_count_at (at_timestamp attributes)) < 2 ^ 63 →
  (∀ fee blob, (best_size (best_txs fee blob) < fuel)%nat) →
  ∃ r, default_ethereum_payload fuel (Ok builder) best_txs is_cancelled is_better attributes max_tx_bytes floor = Some r ∧
    ∀ txs fees, r = Ok (Better txs fees) →
    ∃ executed : list (EvmTx * Z), txs = map fst executed ∧ sum_by snd executed ≤ builder_gas_limit builder ∧
      sum_by blobs_of executed ≤ default 0 (max_blob_count_at (at_timestamp attributes)).
Proof.
  intros Hlimit Hblobs Hsize. unfold default_ethereum_payload.
  destruct (builder_pre_execution builder) as [b|] eqn:Ep; [|eexists; split; [done|by intros ? ? [=]]].
  apply pre_execution_empty in Ep.
  set (best := best_txs _ _). set (s0 := mkPayloadState b best 0 0 0 []).
  assert (payload_inv (builder_gas_limit builder) (default 0 (max_blob_count_at (at_timestamp attributes))) s0) as Hs0.
  { constructor; cbn; rewrite ?Ep; cbn; lia. }
  destruct (payload_loop _ _ _ _ fuel is_cancelled s0) as [r|] eqn:El.
  2:{ exfalso. revert El. eapply payload_loop_returns; [done|done|done|apply Hsize]. }
  destruct r as [[s|[]]|e|]; (eexists; split; [done|]); [|by intros ? ? [=]..].
  intros txs fees. destruct (negb _); [done|].
  destruct (builder_finish (ps_builder s)) as [l|e|] eqn:Ef; [|done..]. cbn [map_err obind]. intros [= <- _].
  apply finished_block in Ef as ->. eapply payload_loop_inv in El as [Hg Hgw Hb Hbw _]; [|done..].
  exists (in_block (ps_builder s)). split; [done|]. lia.
Qed.

End payload_theorems.

(** ** A concrete pool

    The iterator is the list of transactions that are left and the builder the
    list of those executed; every transaction uses its limit, and the one that
    carries a blob has a sidecar. *)

Record ToyPoolTx := mkToyPoolTx { toy_limit : nat; toy_tip : nat; toy_blob : bool }.

#[local] Instance toy_payload_evm : Evm := {
  EvmDb := unit;
  EvmTx := ToyPoolTx;
  tx_hash _ := [];
  tx_gas_limit tx := Z.of_nat (toy_limit tx);
  effective_tip_per_gas tx _ := Some (Z.of_nat (toy_tip tx));
  effective_gas_price tx _ := Z.of_nat (toy_tip tx);
  is_eip2930 _ := false;
  is_eip1559 _ := true;
  is_eip4844 := toy_blob;
  is_eip7702 _ := false;
  basic _ _ := Err tt;
  config_env _ := (mkCfgEnv 1 Prague None false, mkBlockEnv 0 [] 0 0 None 0 0 None);
  transact _ _ _ _ := Err tt;
  commit _ db := db;
  set_state_clear_flag _ db := db;
  apply_pre_execution_changes _ db := Some db;
  increment_balances _ db := Some db }.

#[local] Instance toy_payload_lib : PayloadLib := {
  PoolTx := ToyPoolTx;
  pool_gas_limit tx := Z.of_nat (toy_limit tx `min` 1000);
  to_consensus tx := mkToyPoolTx (toy_limit tx `min` 1000) (toy_tip tx) (toy_blob tx);
  as_eip4844 tx := if toy_blob tx then Some 1 else None;
  get_blob _ := Ok (Some (mkSidecar true false));
  BestTxs := list ToyPoolTx;
  best_next l := match l with [] => None | tx :: l => Some (tx, l) end;
  mark_invalid _ _ l := l;
  skip_blobs l := List.filter (λ tx, negb (toy_blob tx)) l;
  BlockBuilder := list (ToyPoolTx * Z);
  builder_gas_limit _ := 100;
  builder_basefee _ := 1;
  builder_blob_gasprice _ := None;
  builder_pre_execution _ := Some [];
  builder_execute tx b := (b ++ [(tx, Z.of_nat (toy_limit tx))], Executed (Z.of_nat (toy_limit tx)));
  builder_finish b := Ok (map fst b);
  max_blob_count_at _ := Some 1;
  is_osaka_active_at _ := false }.

#[local] Instance toy_payload_laws : PayloadLaws.
Proof.
  refine {| best_size l := length l; in_block b := b |}.
  - by intros [|x l] tx rest [= <- <-]; simpl; lia.
  - done.
  - intros l. apply List.filter_length_le.
  - intros tx. simpl. lia.
  - intros tx. simpl. lia.
  - intros tx n. simpl. destruct (toy_blob tx); [intros [= <-]; lia|done].
  - intros tx b b' gas [= <- <-]. split; [done|]. simpl. lia.
  - done.
  - by intros b b' [= <-].
  - by intros b txs [= <-].
Defined.

(** Two of four: the second does not fit any more, the third carries the one
    blob, the fourth a second one. *)
Definition toy_pool : @BestTxs toy_payload_evm toy_payload_lib :=
  [mkToyPoolTx 60 2 false; mkToyPoolTx 50 2 false; mkToyPoolTx 30 2 true; mkToyPoolTx 5 2 true].

Definition toy_builder : @BlockBuilder toy_payload_evm toy_payload_lib := [].

Lemma payload_fits_witness :
  let profile : Profile := false in
  ∃ r, default_ethereum_payload 5 (Ok toy_builder) (λ _ _, toy_pool) (λ _, false) (λ _, true)
         (mkAttributes 0 [] None None) None None = Some r ∧
    (∃ txs, r = Ok (Better txs 180) ∧ length txs = 2%nat) ∧
    ∀ txs fees, r = Ok (Better txs fees) →
    ∃ executed : list (EvmTx * Z), txs = map fst executed ∧ sum_by snd executed ≤ 100 ∧ sum_by blobs_of executed ≤ 1.
Proof.
  intros profile.
  destruct (payload_fits 5 (λ _ _, toy_pool) (λ _, false) (λ _, true) (mkAttributes 0 [] None None) None None
    toy_builder) as (r & Hr & Hall); [simpl; lia|simpl; lia|intros; simpl; lia|].
  exists r. split; [exact Hr|]. split; [|exact Hall].
  exists [mkToyPoolTx 60 2 false; mkToyPoolTx 30 2 true]. split; [|reflexivity].
  apply (inj Some). rewrite <-Hr. vm_compute. reflexivity.
Defined.
