(* ===== verification/NodeUtils.v ===== *)
(** * What the node tells the btc-server, and what it checks of its batches

    src/bin/botanix-reth/src/consensus/utils.rs: the messages that a node
    makes of the deposits and withdrawals of a block, directly and by way of
    the staged headers of
    src/crates/botanix-storage/src/models/staged_header.rs, and the
    validation of a batch of pegouts against the receipts of the side chain
    before the node lets its signer sign it.

    Addresses, script encoding and bloom filters are the parameter [NodeLib];
    the side chain's database is the parameter [NodeClient]; the clock is the
    argument [now] in seconds since the epoch, negative before it. *)

From S2P Require Import Prelude Bytes Bitcoin Psbt Types Concrete CoinSelection Database Util Codec Peg Edh Mint.
From S2P Require Import Execution Jwt Rpc Consensus.
From stdpp Require Import strings.

Open Scope Z_scope.

(** [MAX_BLOCK_TS_CUTOFF_DURATION_SECS] of wallet_state_sync.rs *)
Definition MAX_BLOCK_TS_CUTOFF_DURATION : Z := 30 * 24 * 60 * 60 * 3.

Class NodeLib `{!PegLib, !Evm} := {
  (** [Address::script_pubkey] *)
  address_script_pubkey : BtcAddress → ScriptBuf;
  (** [bitcoin::consensus::serialize] of a script *)
  serialize_script : ScriptBuf → bytes;
  (** [Bloom::contains_input] of raw bytes *)
  bloom_contains_input : Z → bytes → bool;
  (** [EthereumTxEnvelope::decode] *)
  decode_transaction : bytes → outcome unit EvmTx }.

Record BlockSummary := mkBlockSummary { bs_number : Z; bs_logs_bloom : Z; bs_timestamp : Z }.

Class NodeClient := {
  (** the logs of a transaction's receipt *)
  receipt_by_hash : bytes → outcome unit (option (list Log));
  (** the block number of [transaction_by_hash_with_meta] *)
  transaction_block : bytes → outcome unit (option Z);
  (** the time of [header_by_number] *)
  header_timestamp : Z → outcome unit (option Z);
  block_by_number : Z → outcome unit (option BlockSummary);
  (** the hashes of a block's transactions *)
  transactions_by_block : Z → outcome unit (option (list bytes));
  receipts_by_block : Z → outcome unit (option (list Receipt)) }.

(** ** Retries *)

(** The closure is a computation that may change what it captures. *)
Fixpoint retry_future {S E T} (future_factory : M S E T) (max_retries : nat) : M S E T := λ s,
  match future_factory s with
  | (s, Err e) =>
      match max_retries with
      | O => (s, Err e)
      | Datatypes.S max_retries => retry_future future_factory max_retries s
      end
  | r => r
  end.

(** The same loop, which also logs every error. *)
Definition retry_exec {S E T} (fut : M S E T) (max_retries : nat) : M S E T := retry_future fut max_retries.

(** ** Staged deposits and withdrawals *)

Record StagedPegin := mkStagedPegin {
  sp_txid : bytes;
  sp_vout : Z;
  sp_value : Z;
  sp_script_pubkey : bytes;
  sp_eth_address : bytes;
  sp_multisig_id : MultisigId }.

Record StagedPegout := mkStagedPegout {
  so_pegout_id : bytes;
  so_script_pubkey : bytes;
  so_amount : Z;
  so_height : Z }.

Record HeaderWithPegs := mkHeaderWithPegs {
  hp_pegins : list StagedPegin;
  hp_pegouts : list StagedPegout;
  hp_header : EvmHeader }.

Section messages.
Context `{!PegLib, !Evm, !NodeLib, !BitcoinLib, !JwtLib}.

(** The map from multisig ids to keys, in the order of a [BTreeMap]. *)
Definition keys_in_order (m : gmap Z PublicKey) : list (Z * PublicKey) :=
  sort_by (λ a b, a.1 <=? b.1) (map_to_list m).

Definition multisig_id_from_public_key (aggregate_public_keys : gmap Z PublicKey) (public_key : PublicKey)
    : option MultisigId :=
  (λ p, mkMultisigId p.2.1) <$> list_find (λ p, p.2 = public_key) (keys_in_order aggregate_public_keys).

Definition utxo_from_pegin_meta {E} (aggregate_public_keys : gmap Z PublicKey) (pegin_meta : PeginMeta)
    : outcome E (option RpcUtxo) :=
  let? tx_out := expect (output (meta_tx pegin_meta) !! Z.to_nat (op_vout (meta_outpoint pegin_meta))) in
  Ok (match multisig_id_from_public_key aggregate_public_keys (meta_aggregate_publickey pegin_meta) with
      | None => None
      | Some id =>
          Some (mkRpcUtxo
            (Some (mkRpcOutPoint (encode_txid (op_txid (meta_outpoint pegin_meta))) (op_vout (meta_outpoint pegin_meta))))
            (Some (mkRpcTxOut (value tx_out) (Some (serialize_script (script_pubkey tx_out)))))
            (hex_encode (meta_address pegin_meta)) (as_u32 id))
      end).

(** [filter_map] with a function that may panic. *)
Definition filter_mapO {E A B} (f : A → outcome E (option B)) (l : list A) : outcome E (list B) :=
  let? l := omap_all f l in Ok (omap id l).

Definition get_utxos_from_pegin_meta {E} (pegins : list PeginMeta) (aggregate_public_keys : gmap Z PublicKey)
    : outcome E (list RpcUtxo) :=
  match pegins with
  | [] => Ok []
  | _ => filter_mapO (utxo_from_pegin_meta aggregate_public_keys) pegins
  end.

Definition get_pending_pegouts_from_pegout_data (pegouts : list PegoutWithId) (height timestamp : Z)
    : list RpcPendingPegout :=
  match pegouts with
  | [] => []
  | _ => map (λ pegout, mkRpcPendingPegout (as_bytes (po_id pegout))
           (address_script_pubkey (po_destination (po_data pegout))) (po_amount (po_data pegout)) height timestamp) pegouts
  end.

Definition staged_from_pegin_meta {E} (aggregate_public_keys : gmap Z PublicKey) (pegin : PeginMeta)
    : outcome E (option StagedPegin) :=
  let? tx_out := meta_txout pegin in
  Ok (match multisig_id_from_public_key aggregate_public_keys (meta_aggregate_publickey pegin) with
      | None => None
      | Some id =>
          Some (mkStagedPegin (encode_txid (op_txid (meta_outpoint pegin))) (op_vout (meta_outpoint pegin))
            (value tx_out) (serialize_script (script_pubkey tx_out)) (meta_address pegin) id)
      end).

Definition get_staged_pegins_from_pegin_meta {E} (pegins : list PeginMeta) (aggregate_public_keys : gmap Z PublicKey)
    : outcome E (list StagedPegin) :=
  filter_mapO (staged_from_pegin_meta aggregate_public_keys) pegins.

Definition get_utxos_from_staged_pegins (pegins : list StagedPegin) : list RpcUtxo :=
  map (λ pegin, mkRpcUtxo (Some (mkRpcOutPoint (sp_txid pegin) (sp_vout pegin mod 2 ^ 32)))
         (Some (mkRpcTxOut (sp_value pegin) (Some (sp_script_pubkey pegin))))
         (hex_encode (sp_eth_address pegin)) (as_u32 (sp_multisig_id pegin))) pegins.

Definition get_staged_pegouts_from_pegout_data (pegouts : list PegoutWithId) (height : Z) : list StagedPegout :=
  map (λ pegout, mkStagedPegout (as_bytes (po_id pegout))
         (address_script_pubkey (po_destination (po_data pegout))) (po_amount (po_data pegout)) height) pegouts.

Definition get_pending_pegouts_from_staged_pegouts (pegouts : list StagedPegout) (timestamp : Z)
    : list RpcPendingPegout :=
  map (λ pegout, mkRpcPendingPegout (so_pegout_id pegout) (so_script_pubkey pegout) (so_amount pegout)
         (so_height pegout) timestamp) pegouts.

(** ** Blooms, epochs and session ids *)

Definition bloom_contains_minting_contract_address (bloom : Z) : bool :=
  bloom_contains_input bloom MINT_CONTRACT_ADDRESS.

Context `{!MintLib}.

Definition bloom_contains_pegout (bloom : Z) : bool :=
  bloom_contains_minting_contract_address bloom && bloom_contains_input bloom BURN_TOPIC.

Definition bloom_contains_pegin (bloom : Z) : bool :=
  bloom_contains_minting_contract_address bloom && bloom_contains_input bloom MINT_TOPIC.

(** [while start_block_number % epoch_length != 0]; the remainder by zero panics. *)
Fixpoint find_epoch_start_loop {E} (fuel : nat) (epoch_length start_block_number : Z) : option (outcome E Z) :=
  match fuel with
  | O => None
  | S fuel =>
      if epoch_length =? 0 then Some Panic else
      if negb (start_block_number mod epoch_length =? 0)
      then find_epoch_start_loop fuel epoch_length (start_block_number - 1) else Some (Ok start_block_number)
  end.

(** Block 0 starts an epoch of any length: as many turns as the block's height
    and one more are enough. *)
Definition find_epoch_start {E} (epoch_length current_block_number : Z) : outcome E Z :=
  default Panic (find_epoch_start_loop (S (Z.to_nat current_block_number)) epoch_length current_block_number).

(** [number.is_multiple_of(epoch_length)] *)
Definition is_poa_epoch (number epoch_length : Z) : bool :=
  if epoch_length =? 0 then number =? 0 else number mod epoch_length =? 0.

Definition get_witness_data_from_psbt (psbt : Psbt) : list (list bytes) :=
  omap final_script_witness (inputs psbt).

Inductive FrostParseError := InvalidSigningSessionId.

Definition node_parse_signing_session_id (session_id : bytes) : outcome FrostParseError bytes :=
  if negb (length session_id =? 32)%nat then Err InvalidSigningSessionId else Ok session_id.

(** [uuid] is the random UUID, 16 bytes; its simple form is hexadecimal. *)
Definition generate_signing_session_id {E} (uuid : bytes) : outcome E bytes :=
  let bytes := hex_encode uuid in
  if (length bytes =? 32)%nat then Ok bytes else Panic.

Definition is_known_minting_contract (precompiled_bytecode deployed_bytecode : bytes) : outcome unit unit :=
  if bool_decide (precompiled_bytecode = hex_encode deployed_bytecode) then Ok tt else Err tt.

Definition transactions_signed_from_bytes (txs : list bytes) : outcome unit (list EvmTx) :=
  omap_all decode_transaction txs.

(** ** The root of a peer's UTXOs *)

Inductive UtxoMerkelRootError := UnparsableTxId | OutpointEncoding | BadMerkleRoot | MissingOutpoint.

Definition utxo_leaf (u : RpcUtxo) : outcome UtxoMerkelRootError bytes :=
  let? ot := ok_or (ru_outpoint u) MissingOutpoint in
  let? tx_id := if (length (ro_txid ot) =? 32)%nat then Ok (ro_txid ot) else Err UnparsableTxId in
  Ok (sha256 (encode_outpoint (mkOutPoint tx_id (ro_vout ot)))).

Definition generate_utxo_merkel_root (peer_utxos : list RpcUtxo) : outcome UtxoMerkelRootError bytes :=
  match peer_utxos with
  | [] => Ok (replicate 32 0)
  | _ =>
      let? utxos := omap_all utxo_leaf peer_utxos in
      ok_or (calculate_root (sort_by bytes_le utxos)) BadMerkleRoot
  end.

End messages.

(** ** The pegouts of blocks *)

Inductive EpochPegoutsError := FailedToFetchPegouts | NoReceiptsFoundForBlock (number : Z).

Section blocks.
Context `{!PegLib, !Evm, !NodeLib, !MintLib, !NodeClient}.
Context (btc_network : Network).

(** The burn events among the logs; a log that cannot be parsed is skipped. *)
Definition burn_of (log : Log) : option PegoutData := default None (ok (try_parse_burn_event log btc_network)).

Definition receipt_pegouts (receipt : Receipt) : list PegoutData :=
  if negb (r_success receipt) then [] else omap burn_of (r_logs receipt).

(** The turn of one block of [epoch_pegouts]. *)
Definition epoch_block_pegouts (block : Z) : outcome EpochPegoutsError (list PegoutData) :=
  match block_by_number block with
  | Ok (Some b) =>
      if bloom_contains_pegout (bs_logs_bloom b) then
        match receipts_by_block (bs_number b) with
        | Ok (Some receipts) => Ok (concat (map receipt_pegouts receipts))
        | Ok None => Ok []
        | Err _ => Err FailedToFetchPegouts
        | Panic => Panic
        end
      else Ok []
  | Ok None | Err _ => Err FailedToFetchPegouts
  | Panic => Panic
  end.

Definition epoch_pegouts (best_block epoch_length : Z) : outcome EpochPegoutsError (list PegoutData) :=
  let? start_block := find_epoch_start epoch_length best_block in
  ofold (λ pegouts block, let? p := epoch_block_pegouts block in Ok (pegouts ++ p)) []
    (seqZ start_block (best_block - start_block + 1)).

(** A clock before the epoch accepts nothing. *)
Definition is_block_age_acceptable (now timestamp max_age_cutoff : Z) : bool :=
  if now <? 0 then false else saturating_sub now max_age_cutoff <? timestamp.

(** The pegouts of a transaction with the time of its block. *)
Definition tx_pegouts (block_timestamp : Z) (entry : Receipt * bytes) : list (PegoutId * Z) :=
  let '(receipt, tx_hash) := entry in
  if negb (r_success receipt) then [] else
  omap (λ '(index, log), _ ← burn_of log; Some (PegoutId_new tx_hash (Z.of_nat index mod 2 ^ 32), block_timestamp))
    (imap pair (r_logs receipt)).

Definition get_block_pegouts (now block : Z) (max_cutoff_age : option Z)
    : outcome EpochPegoutsError (list (PegoutId * Z)) :=
  match block_by_number block with
  | Ok (Some b) =>
      if negb (bloom_contains_pegout (bs_logs_bloom b)) then Ok [] else
      if match max_cutoff_age with Some cutoff => negb (is_block_age_acceptable now (bs_timestamp b) cutoff) | None => false end
      then Ok [] else
      let? transactions := map_err (λ _, FailedToFetchPegouts) (transactions_by_block (bs_number b)) in
      let? receipts := map_err (λ _, FailedToFetchPegouts) (receipts_by_block (bs_number b)) in
      match transactions, receipts with
      | Some transactions, Some receipts =>
          Ok (concat (map (tx_pegouts (bs_timestamp b)) (zip receipts transactions)))
      | _, _ => Err (NoReceiptsFoundForBlock (bs_number b))
      end
  | Ok None | Err _ => Err FailedToFetchPegouts
  | Panic => Panic
  end.

(** ** Validating a batch *)

Inductive ByIdsError :=
| OutputsLengthMismatch
| NoPegoutIds
| DuplicatePegoutId
| MultipleChangeOutputs
| FeePerOutputFailed
| LogNotFound
| BurnEventUnparsable
| NotABurnEvent
| OutputOutOfRange
| DestinationMismatch
| ExpectedAmountUnderflow
| AmountMismatch.

Inductive PsbtValidationError :=
| FailedToValidatePsbtByIds (e : ByIdsError)
| FailedToGetTransactionByPegoutId
| FailedToGetHeaderForPegoutId
| PegoutIdOutsideMaximumCutoffAge.

Definition extract_pegout_ids (psbt : Psbt) : list (nat * PegoutId) :=
  omap (λ '(pos, o), id ← out_id o; Some (pos, id)) (imap pair (outputs psbt)).

Definition validate_psbt_by_output (tx_out : TxOut) (destination : BtcAddress) (amount fee_per_output : Amount)
    : outcome PsbtValidationError unit :=
  if negb (bool_decide (script_pubkey tx_out = address_script_pubkey destination))
  then Err (FailedToValidatePsbtByIds DestinationMismatch) else
  let? expected_amount := ok_or (checked_sub amount fee_per_output) (FailedToValidatePsbtByIds ExpectedAmountUnderflow) in
  if value tx_out =? expected_amount then Ok tt else Err (FailedToValidatePsbtByIds AmountMismatch).

Definition validate_psbt_id_by_maximum_cutoff_age (now : Z) (id : PegoutId) : outcome PsbtValidationError unit :=
  let? tx := map_err (λ _, FailedToGetTransactionByPegoutId) (transaction_block (pid_txid id)) in
  let? block_number := ok_or tx FailedToGetTransactionByPegoutId in
  let? header := map_err (λ _, FailedToGetHeaderForPegoutId) (header_timestamp block_number) in
  let? timestamp := ok_or header FailedToGetHeaderForPegoutId in
  if is_block_age_acceptable now timestamp MAX_BLOCK_TS_CUTOFF_DURATION then Ok tt
  else Err PegoutIdOutsideMaximumCutoffAge.

Definition seen_pegout_id (seen : gset PegoutId) (id : PegoutId) : outcome PsbtValidationError (gset PegoutId) :=
  if decide (id ∈ seen) then Err (FailedToValidatePsbtByIds DuplicatePegoutId) else Ok ({[ id ]} ∪ seen).

(** The outputs that carry no pegout id. *)
Definition change_output_count (psbt : Psbt) (pegout_ids : list (nat * PegoutId)) : nat :=
  length (filter (λ i, i ∉ pegout_ids.*1) (seq 0 (length (outputs psbt)))).

(** The log that a pegout id names; an error of the database counts as absent. *)
Definition pegout_log (id : PegoutId) : option Log :=
  logs ← default None (ok (receipt_by_hash (pid_txid id))); logs !! Z.to_nat (pid_idx id).

Context `{!PsbtLib}.

Definition validate_pegout (psbt : Psbt) (fee_per_output : Amount) (entry : nat * PegoutId)
    : outcome PsbtValidationError unit :=
  let '(pegout_pos, id) := entry in
  let? log := ok_or (pegout_log id) (FailedToValidatePsbtByIds LogNotFound) in
  let? parsed := map_err (λ _, FailedToValidatePsbtByIds BurnEventUnparsable) (try_parse_burn_event log btc_network) in
  let? data := ok_or parsed (FailedToValidatePsbtByIds NotABurnEvent) in
  let? tx_out := ok_or (output (unsigned_tx psbt) !! pegout_pos) (FailedToValidatePsbtByIds OutputOutOfRange) in
  validate_psbt_by_output tx_out (po_destination data) (po_amount data) fee_per_output.

Definition validate_psbt_by_ids (now : Z) (psbt : Psbt) : outcome PsbtValidationError unit :=
  if negb (length (outputs psbt) =? length (output (unsigned_tx psbt)))%nat
  then Err (FailedToValidatePsbtByIds OutputsLengthMismatch) else
  let pegout_ids := extract_pegout_ids psbt in
  if bool_decide (pegout_ids = []) then Err (FailedToValidatePsbtByIds NoPegoutIds) else
  let? _ := ofold seen_pegout_id ∅ pegout_ids.*2 in
  ofor pegout_ids.*2 (validate_psbt_id_by_maximum_cutoff_age now) ;?
  if (1 <? change_output_count psbt pegout_ids)%nat then Err (FailedToValidatePsbtByIds MultipleChangeOutputs) else
  let? fee := map_err (λ _, FailedToValidatePsbtByIds FeePerOutputFailed)
                (fee_per_output psbt (Z.of_nat (length pegout_ids))) in
  ofor pegout_ids (validate_pegout psbt fee).

End blocks.

(** ** Messages *)

Section message_theorems.
Context `{!PegLib, !Evm, !NodeLib, !BitcoinLib, !JwtLib, !MintLib}.

Lemma omap_all_map {E A B C} (f : A → outcome E B) (g : A → outcome E C) (h : B → C) l :
  (∀ x, x ∈ l → g x = (let? b := f x in Ok (h b))) →
  omap_all g l = (let? bs := omap_all f l in Ok (map h bs)).
Proof.
  induction l as [|x l IH]; intros Hl; [done|]. cbn [omap_all]. rewrite Hl by set_solver.
  destruct (f x) as [b|e|]; [|done..]. cbn [obind]. rewrite IH by set_solver.
  by destruct (omap_all f l).
Qed.

Lemma get_utxos_eq {E} pegins keys :
  get_utxos_from_pegin_meta (E:=E) pegins keys = filter_mapO (utxo_from_pegin_meta keys) pegins.
Proof. by destruct pegins. Qed.

(** The two ways by which a block's deposits and withdrawals reach the
    btc-server tell it the same: staging them with the header and converting
    the staged records gives the messages that are made of them directly. *)
Theorem staged_messages_agree {E} pegins pegouts keys height timestamp :
  Forall (λ m, is_u32 (op_vout (meta_outpoint m))) pegins →
  (let? staged := get_staged_pegins_from_pegin_meta (E:=E) pegins keys in
   Ok (get_utxos_from_staged_pegins staged)) = get_utxos_from_pegin_meta pegins keys ∧
  get_pending_pegouts_from_staged_pegouts (get_staged_pegouts_from_pegout_data pegouts height) timestamp =
    get_pending_pegouts_from_pegout_data pegouts height timestamp.
Proof.
  intros Hp. split; [|destruct pegouts; [done|]; apply map_map].
  rewrite get_utxos_eq. unfold get_staged_pegins_from_pegin_meta, filter_mapO, get_utxos_from_staged_pegins.
  set (one := λ pegin : StagedPegin, mkRpcUtxo _ _ _ _).
  rewrite (omap_all_map (staged_from_pegin_meta keys) (utxo_from_pegin_meta keys) (fmap one)).
  - destruct (omap_all _ pegins) as [l|e|]; [|done..]. cbn [obind]. f_equal.
    induction l as [|[x|] l IH]; csimpl; [done| |done]. by rewrite <-IH.
  - intros m Hm. rewrite Forall_forall in Hp. specialize (Hp m Hm). unfold is_u32, u32_max in Hp.
    unfold utxo_from_pegin_meta, staged_from_pegin_meta, meta_txout, txout, meta_tx, meta_outpoint.
    destruct (expect _) as [o|e|]; [|done..]. cbn [obind].
    destruct (multisig_id_from_public_key _ _); [|done]. unfold one. cbn. rewrite Z.mod_small; [done|].
    unfold meta_outpoint in Hp. lia.
Qed.

Lemma elem_of_keys_in_order m e : e ∈ keys_in_order m ↔ m !! e.1 = Some e.2.
Proof.
  unfold keys_in_order. rewrite sort_by_perm. destruct e as [i k]. apply elem_of_map_to_list.
Qed.

(** The first element of a sorted list with a property is the least. *)
Lemma sorted_first {A} (R : relation A) (P : A → Prop) l n x :
  StronglySorted R l → l !! n = Some x → (∀ j y, l !! j = Some y → (j < n)%nat → ¬ P y) →
  ∀ y, y ∈ l → P y → y = x ∨ R x y.
Proof.
  intros Hs Hn Hb y Hy HP. rewrite <-(take_drop_middle l n x Hn) in Hs, Hy.
  apply StronglySorted_app_1_r, StronglySorted_cons in Hs as [Hall _].
  apply elem_of_app in Hy as [Hy|[->|Hy]%elem_of_cons]; [|by left|].
  - apply list_elem_of_lookup in Hy as [j Hj]. apply lookup_take_Some in Hj as [Hj Hlt]. by destruct (Hb j y Hj Hlt).
  - right. rewrite Forall_forall in Hall. by apply Hall.
Qed.

(** The lookup finds a federation with this key, the one with the least id,
    whenever there is one. *)
Theorem multisig_lookup_spec keys pk :
  match multisig_id_from_public_key keys pk with
  | Some id => keys !! as_u32 id = Some pk ∧ ∀ i, keys !! i = Some pk → as_u32 id ≤ i
  | None => ∀ i, keys !! i ≠ Some pk
  end.
Proof.
  unfold multisig_id_from_public_key.
  pose proof (sort_by_sorted (λ a b : Z * PublicKey, a.1 <=? b.1)) as Hsort.
  specialize (Hsort ltac:(intros a b; destruct (Z.leb_spec a.1 b.1), (Z.leb_spec b.1 a.1); auto; lia)
    ltac:(intros a b c ?%Z.leb_le ?%Z.leb_le; apply Z.leb_le; lia) (map_to_list keys)).
  destruct (list_find _ _) as [[n [i k]]|] eqn:E; cbn [fmap option_fmap option_map snd fst as_u32].
  - apply list_find_Some in E as (Hn & Hk & Hbefore). cbn [snd] in Hk. subst k.
    split; [by apply (elem_of_keys_in_order keys (i, pk)), (list_elem_of_lookup_2 _ n)|].
    intros j Hj. apply (elem_of_keys_in_order keys (j, pk)) in Hj as Hin.
    destruct (sorted_first _ _ _ _ _ Hsort Hn Hbefore (j, pk) Hin eq_refl) as [[= ->]|Hle%Z.leb_le]; done.
  - apply list_find_None in E. intros j Hj. apply (elem_of_keys_in_order keys (j, pk)) in Hj.
    rewrite Forall_forall in E. by apply E in Hj.
Qed.

Lemma find_epoch_start_loop_spec {E} len : 0 < len → ∀ fuel n, 0 ≤ n → (Z.to_nat (n mod len) < fuel)%nat →
  find_epoch_start_loop (E:=E) fuel len n = Some (Ok (n - n mod len)).
Proof.
  intros Hlen. induction fuel as [|fuel IH]; intros n Hn Hf; [lia|]. cbn [find_epoch_start_loop].
  destruct (Z.eqb_spec len 0); [lia|]. destruct (Z.eqb_spec (n mod len) 0) as [Hz|Hz]; cbn [negb].
  { by rewrite Hz, Z.sub_0_r. }
  pose proof (Z.mod_pos_bound n len Hlen) as Hb. assert (0 < n) as Hpos.
  { destruct (decide (n = 0)) as [->|]; [|lia]. by rewrite Z.mod_0_l in Hz by lia. }
  assert ((n - 1) mod len = n mod len - 1) as Hm.
  { symmetry. apply (Z.mod_unique _ _ (n / len)); [lia|]. pose proof (Z.div_mod n len). lia. }
  rewrite IH by lia. rewrite Hm. do 2 f_equal. lia.
Qed.

(** The loop over block numbers ends, at the last multiple of the length. *)
Theorem find_epoch_start_spec {E} len n :
  0 < len → 0 ≤ n →
  find_epoch_start (E:=E) len n = Ok (n - n mod len) ∧ is_poa_epoch (n - n mod len) len = true.
Proof.
  intros Hlen Hn. unfold find_epoch_start. rewrite find_epoch_start_loop_spec; [|done..|].
  2:{ pose proof (Z.mod_le n len Hn Hlen). pose proof (Z.mod_pos_bound n len Hlen). lia. }
  split; [done|]. unfold is_poa_epoch. destruct (Z.eqb_spec len 0); [lia|]. apply Z.eqb_eq.
  replace (n - n mod len) with (n / len * len) by (pose proof (Z.div_mod n len); lia). by apply Z.mod_mul.
Qed.

(** The root that a node computes of the UTXOs a server reports is the root of
    the server's own tree. *)
Theorem node_root_is_server_root us :
  us ≠ [] → Forall (λ u, length (op_txid (utxo_outpoint u)) = 32%nat) us →
  ok (generate_utxo_merkel_root (map RpcUtxo_from us)) =
  ok (root_of (map (λ u, encode_outpoint (utxo_outpoint u)) us)).
Proof.
  intros Hne Hl. unfold generate_utxo_merkel_root.
  assert (omap_all utxo_leaf (map RpcUtxo_from us) = Ok (map sha256 (map (λ u, encode_outpoint (utxo_outpoint u)) us))) as ->.
  { clear Hne. induction Hl as [|u us Hu Hl IH]; [done|]. cbn [map omap_all].
    rewrite IH. unfold utxo_leaf at 1. cbn. rewrite Hu. cbn. by destruct (utxo_outpoint u). }
  destruct us as [|u us]; [done|]. cbn [map]. cbn [obind]. unfold root_of, merkle_leaves. cbn [map].
  by destruct (calculate_root _).
Qed.

End message_theorems.

(** ** What the node accepts *)

(** The code fails and the condition does not hold. *)
Ltac absurd_iff := split; [discriminate|let Hx := fresh in intros Hx; decompose [ex and] Hx; simplify_eq; congruence].

Section validation_theorems.
Context `{!PegLib, !Evm, !NodeLib, !MintLib, !NodeClient, !PsbtLib}.
Context (btc_network : Network).

(** A pegout that is recent enough. *)
Definition young (now : Z) (id : PegoutId) : Prop :=
  ∃ block t, transaction_block (pid_txid id) = Ok (Some block) ∧ header_timestamp block = Ok (Some t) ∧
    0 ≤ now ∧ Z.max 0 (now - MAX_BLOCK_TS_CUTOFF_DURATION) < t.

(** The withdrawal that the side chain has for an id. *)
Definition withdrawal (id : PegoutId) (data : PegoutData) : Prop :=
  ∃ log, pegout_log id = Some log ∧ try_parse_burn_event log btc_network = Ok (Some data).

(** The output at a position pays the withdrawal of its id, less [share]. *)
Definition pays (psbt : Psbt) (share : Amount) (entry : nat * PegoutId) : Prop :=
  ∃ data o, withdrawal entry.2 data ∧ output (unsigned_tx psbt) !! entry.1 = Some o ∧
    script_pubkey o = address_script_pubkey (po_destination data) ∧
    share ≤ po_amount data ∧ value o = po_amount data - share.

Lemma cutoff_age_Ok now id : validate_psbt_id_by_maximum_cutoff_age now id = Ok tt ↔ young now id.
Proof.
  unfold validate_psbt_id_by_maximum_cutoff_age, young, is_block_age_acceptable, saturating_sub.
  destruct (transaction_block (pid_txid id)) as [[b|]|e|]; cbn [map_err ok_or obind];
    [|absurd_iff..].
  destruct (header_timestamp b) as [[t|]|e|] eqn:Et; cbn [map_err ok_or obind];
    [|absurd_iff..].
  destruct (Z.ltb_spec now 0); [split; [done|]; intros (? & ? & _ & _ & ? & _); lia|].
  destruct (Z.ltb_spec (Z.max 0 (now - MAX_BLOCK_TS_CUTOFF_DURATION)) t).
  - split; [intros _; by exists b, t|done].
  - split; [done|]. intros (b' & t' & [= <-] & Ht & _ & ?). rewrite Et in Ht. injection Ht as <-. lia.
Qed.

Lemma validate_pegout_Ok psbt share e : validate_pegout btc_network psbt share e = Ok tt ↔ pays psbt share e.
Proof.
  destruct e as [pos id]. unfold validate_pegout, pays, withdrawal, validate_psbt_by_output. cbn [fst snd].
  destruct (pegout_log id) as [log|]; cbn [ok_or obind]; [|absurd_iff].
  destruct (try_parse_burn_event log btc_network) as [[data|]|x|] eqn:El; cbn [map_err ok_or obind];
    [|absurd_iff..].
  destruct (output (unsigned_tx psbt) !! pos) as [o|] eqn:Eo; cbn [ok_or obind]; [|absurd_iff].
  case_bool_decide as Hs; cbn [negb]; [|absurd_iff].
  unfold checked_sub. destruct (Z.leb_spec share (po_amount data)) as [Hle|Hlt]; cbn [ok_or obind].
  - destruct (Z.eqb_spec (value o) (po_amount data - share)) as [Hv|Hv].
    + split; [|done]. intros _. exists data, o. split_and!; [|done..]. by exists log.
    + split; [done|]. intros (d & o' & (l & [= <-] & Hp) & [= <-] & _ & _ & ?). congruence.
  - split; [done|]. intros (d & o' & (l & [= <-] & Hp) & [= <-] & _ & ? & _). rewrite El in Hp. injection Hp as <-. lia.
Qed.

Lemma seen_NoDup ids seen :
  (∃ s, ofold seen_pegout_id seen ids = Ok s) ↔ NoDup ids ∧ ∀ id, id ∈ ids → id ∉ seen.
Proof.
  revert seen. induction ids as [|id ids IH]; intros seen; cbn [ofold].
  { split; [intros _; split; [constructor|set_solver]|by eexists]. }
  unfold seen_pegout_id at 1. destruct (decide (id ∈ seen)) as [Hin|Hout]; cbn [obind].
  { split; [by intros (? & [=])|]. intros [_ Hn]. exfalso. apply (Hn id); [set_solver|done]. }
  rewrite IH, NoDup_cons. set_solver.
Qed.

(** The declared pegouts with their positions, counted from [k]. *)
Definition positions (k : nat) (outs : list PsbtOutput) : list (nat * PegoutId) :=
  omap (λ '(pos, o), id ← out_id o; Some (pos, id)) (imap (λ i o, ((k + i)%nat, o)) outs).

Lemma extract_positions psbt : extract_pegout_ids psbt = positions 0 (outputs psbt).
Proof. done. Qed.

Lemma positions_cons k o outs :
  positions k (o :: outs) =
  match out_id o with Some id => (k, id) :: positions (S k) outs | None => positions (S k) outs end.
Proof.
  unfold positions. rewrite imap_cons. csimpl. rewrite Nat.add_0_r.
  assert (imap ((λ i o, ((k + i)%nat, o)) ∘ S) outs = imap (λ i o, ((S k + i)%nat, o)) outs) as ->.
  { apply imap_ext. intros i x _. simpl. f_equal. lia. }
  destruct (out_id o); reflexivity.
Qed.

Lemma positions_ids k outs : (positions k outs).*2 = omap out_id outs.
Proof.
  revert k. induction outs as [|o outs IH]; intros k; [done|]. rewrite positions_cons. csimpl.
  destruct (out_id o); csimpl; by rewrite IH.
Qed.

Lemma positions_lower k outs i : i ∈ (positions k outs).*1 → (k ≤ i)%nat.
Proof.
  revert k. induction outs as [|o outs IH]; intros k; [intros Hi; by apply not_elem_of_nil in Hi|].
  rewrite positions_cons. destruct (out_id o); csimpl.
  - intros [->|Hi%IH]%elem_of_cons; lia.
  - intros Hi%IH. lia.
Qed.

Lemma filter_ext_length {A} (P Q : A → Prop) `{!∀ x, Decision (P x), !∀ x, Decision (Q x)} l :
  (∀ x, x ∈ l → P x ↔ Q x) → length (filter P l) = length (filter Q l).
Proof.
  intros Hl. induction l as [|x l IH]; [done|]. rewrite !filter_cons.
  rewrite (decide_ext (P x) (Q x)) by (apply Hl; set_solver).
  destruct (decide (Q x)); cbn [length]; rewrite IH; (done || set_solver).
Qed.

(** Every output is a pegout or is counted as change. *)
Lemma positions_complement outs : ∀ k,
  (length (filter (λ i, i ∉ (positions k outs).*1) (seq k (length outs))) + length (positions k outs))%nat = length outs.
Proof.
  induction outs as [|o outs IH]; intros k; [done|]. rewrite positions_cons. cbn [length seq].
  specialize (IH (S k)). rewrite filter_cons. destruct (out_id o) as [id|]; csimpl.
  - rewrite decide_False by (intros Hn; apply Hn; set_solver). cbn [length].
    rewrite (filter_ext_length _ (λ i, i ∉ (positions (S k) outs).*1)); [lia|].
    intros x Hx. apply elem_of_seq in Hx. rewrite not_elem_of_cons. split; [by intros []|]. split; [lia|done].
  - rewrite decide_True by (intros Hi%positions_lower; lia). cbn [length]. lia.
Qed.

Lemma one_change_count psbt :
  (1 <? change_output_count psbt (extract_pegout_ids psbt))%nat = false ↔
  (length (outputs psbt) ≤ S (length (psbt_ids psbt)))%nat.
Proof.
  rewrite Nat.ltb_ge. unfold change_output_count. rewrite extract_positions.
  pose proof (positions_complement (outputs psbt) 0) as Hc.
  unfold psbt_ids. rewrite <-(positions_ids 0), length_fmap. lia.
Qed.

(** A node accepts a batch exactly when every output is declared, there is a
    pegout, no id occurs twice, the side chain has each pegout in a block less
    than 90 days old, at most one output is change, and every pegout receives
    what was burnt for it less the fee divided by the number of pegouts,
    rounded down. *)
Theorem validate_psbt_by_ids_spec now psbt :
  validate_psbt_by_ids btc_network now psbt = Ok tt ↔
  length (outputs psbt) = length (output (unsigned_tx psbt)) ∧ psbt_ids psbt ≠ [] ∧ NoDup (psbt_ids psbt) ∧
  Forall (young now) (psbt_ids psbt) ∧ (length (outputs psbt) ≤ S (length (psbt_ids psbt)))%nat ∧
  ∃ fee, psbt_fee psbt = Ok fee ∧
    Forall (pays psbt (fee / Z.of_nat (length (psbt_ids psbt)))) (extract_pegout_ids psbt).
Proof.
  unfold validate_psbt_by_ids.
  assert ((extract_pegout_ids psbt).*2 = psbt_ids psbt) as Hids by (rewrite extract_positions; apply positions_ids).
  assert (length (extract_pegout_ids psbt) = length (psbt_ids psbt)) as Hlen by (by rewrite <-Hids, length_fmap).
  destruct (Nat.eqb_spec (length (outputs psbt)) (length (output (unsigned_tx psbt)))) as [Ho|Ho]; cbn [negb];
    [|split; [done|by intros [? _]]].
  case_bool_decide as Hne.
  { split; [done|]. intros (_ & Hn & _). by rewrite <-Hids, Hne in Hn. }
  assert (psbt_ids psbt ≠ []) as Hn.
  { rewrite <-Hids. intros Hnil. by apply fmap_nil_inv in Hnil. }
  rewrite Hids. pose proof (seen_NoDup (psbt_ids psbt) ∅) as Hseen.
  destruct (ofold seen_pegout_id ∅ (psbt_ids psbt)) as [s|e|]; cbn [obind];
    [|split; [done|]; intros (_ & _ & Hd & _); destruct Hseen as [_ Hs]; destruct Hs as [? [=]]; set_solver..].
  destruct Hseen as [Hs _]. destruct Hs as [Hd _]; [by eexists|].
  assert (ofor (psbt_ids psbt) (validate_psbt_id_by_maximum_cutoff_age now) = Ok tt ↔
    Forall (young now) (psbt_ids psbt)) as Hage.
  { rewrite ofor_Ok. apply Forall_iff. intros. apply cutoff_age_Ok. }
  destruct (ofor (psbt_ids psbt) _) as [[]|e|]; cbn [obind];
    [|split; [done|]; intros (_ & _ & _ & Ha%Hage & _); done..].
  pose proof (one_change_count psbt) as Hc. unfold fee_per_output, checked_div. rewrite Hlen.
  destruct (1 <? _)%nat.
  { split; [done|]. intros (_ & _ & _ & _ & Hle%Hc & _). done. }
  destruct (psbt_fee psbt) as [fee|e|]; cbn [map_err obind];
    [|split; [done|]; by intros (_ & _ & _ & _ & _ & ? & [=] & _)..].
  destruct (Z.eqb_spec (Z.of_nat (length (psbt_ids psbt))) 0) as [Hz|Hz].
  { destruct (psbt_ids psbt); simpl in Hz; [done|lia]. }
  cbn [ok_or map_err obind].
  assert (∀ share, ofor (extract_pegout_ids psbt) (validate_pegout btc_network psbt share) = Ok tt ↔
    Forall (pays psbt share) (extract_pegout_ids psbt)) as Hp.
  { intros share. rewrite ofor_Ok. apply Forall_iff. intros. apply validate_pegout_Ok. }
  rewrite Hp. split.
  - intros Hpay. split_and!; [done|done|done|by apply Hage|by apply Hc|]. by exists fee.
  - intros (_ & _ & _ & _ & _ & f & [= <-] & Hpay). done.
Qed.

End validation_theorems.

(** ** The coordinator's batches before the node *)

Section batches.
Context `{!PegLib, !Evm, !NodeLib, !MintLib, !NodeClient}.
Context `{!BitcoinLib, !PsbtLib, !BdkLib, !BitcoinLaws, !PsbtLaws, !BdkLaws}.
Context (btc_network : Network).

Lemma out_id_pegout o id : pegout_id_wf id → out_id (pegout_output (o, as_bytes id)) = Some id.
Proof.
  intros Hid. apply (out_id_Some _ (as_bytes id)); [|by apply as_bytes_from_bytes].
  unfold pegout_id, pegout_output, set_pegout_id. cbn [out_proprietary snd].
  rewrite lookup_insert_eq. apply decide_True. destruct Hid as [[Hl _] _].
  unfold as_bytes. by rewrite length_app, to_be_bytes_length, Hl.
Qed.

(** The positions of a batch that [create_psbt] builds. *)
Lemma positions_of_batch m : ∀ final ids k,
  Forall pegout_id_wf ids → final.*2 = map as_bytes ids →
  positions k (map pegout_output final ++ replicate m PsbtOutput_default) = zip (seq k (length ids)) ids.
Proof.
  assert (∀ m k, positions k (replicate m PsbtOutput_default) = []) as Hnone.
  { clear m. induction m as [|m IH]; intros k; [done|]. cbn [replicate]. rewrite positions_cons. apply IH. }
  induction final as [|[o b] final IH]; intros [|id ids] k Hwf Hf; try done; [apply Hnone|].
  csimpl in Hf. injection Hf as -> Hf. apply Forall_cons in Hwf as [Hid Hwf]. cbn [map app].
  rewrite positions_cons, out_id_pegout by done. cbn [length seq zip zip_with]. f_equal. by apply IH.
Qed.

Lemma remaining_encoded fil outs :
  ∃ l, remaining fil (encode_ids outs) = encode_ids l ∧ ∀ o, o ∈ l → o ∈ outs.
Proof.
  induction outs as [|[o id] outs (l & Hl & Hin)]; [by exists []|].
  change (remaining fil (encode_ids ((o, id) :: outs))) with
    (if negb (contains fil (as_bytes id)) then (o, as_bytes id) :: remaining fil (encode_ids outs)
     else remaining fil (encode_ids outs)).
  rewrite Hl. destruct (negb _).
  - exists ((o, id) :: l). split; [done|set_solver].
  - exists l. split; [done|set_solver].
Qed.

Lemma sumZ_const l x : Forall (λ y, y = x) l → sumZ l = Z.of_nat (length l) * x.
Proof. induction 1 as [|y l -> _ IH]; [done|]. cbn [length]. unfold sumZ in *. cbn [foldr]. lia. Qed.

(** What the node asks of a batch is that all outputs pay the same share. *)
Lemma equal_shares opt_ids final fee share spk chg ins (kept : list (TxOut * PegoutId)) :
  opt_ids = kept.*2 → Forall pegout_id_wf opt_ids →
  Forall (λ o, 0 < minimal_non_dust (script_pubkey o.1)) kept →
  (∀ o id data, (o, id) ∈ kept → withdrawal btc_network id data → po_amount data = value o) →
  charged_outputs (encode_ids kept) final fee → script_pubkey chg = spk →
  Forall (pays btc_network (psbt_of ins final (Some chg)) share) (zip (seq 0 (length opt_ids)) opt_ids) →
  fee = Z.of_nat (length opt_ids) * share.
Proof.
  intros -> Hwf Hdust Hagree (shares & Hl & <- & -> & Hnd) _ Hpays.
  unfold encode_ids in Hl. rewrite length_map in Hl. rewrite length_fmap, <-Hl. apply sumZ_const.
  apply Forall_lookup. intros i f Hf.
  destruct (lookup_lt_is_Some_2 kept i) as [[o id] Ho]; [rewrite <-Hl; by eapply lookup_lt_Some|].
  assert (zip (encode_ids kept) shares !! i = Some ((o, as_bytes id), f)) as Hzip.
  { apply lookup_zip_with_Some. exists (o, as_bytes id), f. split; [done|]. split; [|done].
    unfold encode_ids. rewrite list_lookup_fmap, Ho. done. }
  set (pf := ((o, as_bytes id), f)) in *.
  assert (map charged (zip (encode_ids kept) shares) !! i = Some (charged pf)) as Hfin
    by (by rewrite list_lookup_fmap, Hzip).
  assert (zip (seq 0 (length kept.*2)) kept.*2 !! i = Some (i, id)) as Hpos.
  { apply lookup_zip_with_Some. exists i, id. split; [done|]. split.
    - apply lookup_seq. split; [done|]. rewrite length_fmap. by eapply lookup_lt_Some.
    - by rewrite list_lookup_fmap, Ho. }
  rewrite Forall_lookup in Hpays. destruct (Hpays _ _ Hpos) as (data & out & Hw & Hout & _ & _ & Hv).
  cbn [fst snd] in Hw, Hout. cbn [psbt_of unsigned_tx output] in Hout.
  rewrite lookup_app_l in Hout by (rewrite length_map; by eapply lookup_lt_Some).
  rewrite list_lookup_fmap, Hfin in Hout. injection Hout as <-.
  rewrite (Hagree o id data) in Hv; [|by eapply list_elem_of_lookup_2|done].
  rewrite Forall_lookup in Hdust. specialize (Hdust i _ Ho). cbn [fst] in Hdust.
  rewrite Forall_lookup in Hnd. specialize (Hnd i _ Hfin).
  pose proof (charged_value (o, as_bytes id) f Hdust Hnd) as Hc. fold pf in Hc. cbn [fst] in Hc, Hv.
  assert (value o - f = value o - share) as Heq by (rewrite <-Hc; exact Hv). lia.
Qed.

(** C17.  The coordinator and the nodes disagree on who pays the remainder of the
    fee.  [coin_selection] charges one satoshi more to as many outputs as the
    remainder counts; a node asks every output to pay the fee divided by the
    number of outputs, rounded down, and no more.  So it accepts a batch that
    [coin_selection] has made, of pegouts whose values are what was burnt for
    them, only when the number of its pegouts divides its fee. *)
Theorem node_accepts_only_even_fees opt req outs rate spk psbt now :
  keyed opt → keyed req →
  Forall (λ o, 0 ≤ value o.1 ∧ 0 < minimal_non_dust (script_pubkey o.1) ∧ pegout_id_wf o.2) outs →
  coin_selection opt req outs rate spk = Ok psbt →
  (∀ o id data, (o, id) ∈ outs → withdrawal btc_network id data → po_amount data = value o) →
  validate_psbt_by_ids btc_network now psbt = Ok tt →
  (Z.of_nat (length (psbt_ids psbt)) | spent psbt - paid psbt).
Proof.
  intros Hopt Hreq Houts Hc Hagree Hnode.
  assert (Forall (λ o, 0 ≤ value o.1) outs) as Hv by (eapply Forall_impl; [exact Houts|]; naive_solver).
  destruct (coin_selection_Ok _ _ _ _ _ _ Hopt Hreq Hv Hc) as (ins & filtered & _ & _ & Hp).
  destruct (remaining_encoded filtered outs) as (kept & Hk & Hin). rewrite Hk in Hp.
  assert (Forall (λ o, 0 ≤ value o.1 ∧ 0 < minimal_non_dust (script_pubkey o.1) ∧ pegout_id_wf o.2) kept) as Hkept.
  { rewrite Forall_forall in Houts |- *. intros o Ho. by apply Houts, Hin. }
  assert (Forall (λ o, 0 < minimal_non_dust (script_pubkey o.1)) kept) as Hdust
    by (eapply Forall_impl; [exact Hkept|]; naive_solver).
  assert (Forall pegout_id_wf kept.*2) as Hwf
    by (apply Forall_fmap; eapply Forall_impl; [exact Hkept|]; naive_solver).
  pose proof Hp as (chg0 & fee0 & _ & _ & _ & Hspent & _)%paid_batch_conserves; [|by apply encode_ids_dust].
  destruct Hp as (final & fee & chg & -> & Hs & Hval & _ & _ & Hch).
  assert (final.*2 = map as_bytes kept.*2) as Hids.
  { apply charged_outputs_recipients in Hch. clear -Hch. unfold encode_ids in Hch.
    revert final Hch. induction kept as [|[o id] kept IH]; intros final Hch.
    - apply Forall2_nil_inv_l in Hch as ->. done.
    - apply Forall2_cons_inv_l in Hch as ([o' b] & final' & [_ Hb] & Hf & ->). csimpl. f_equal; [exact Hb|].
      by apply IH. }
  pose proof (positions_of_batch 1 final kept.*2 0 Hwf Hids) as Hpos.
  assert (psbt_ids (psbt_of ins final (Some chg)) = kept.*2) as Hpsbt.
  { unfold psbt_ids. rewrite <-(positions_ids 0). cbn [psbt_of outputs opt_list length]. rewrite Hpos.
    apply snd_zip. by rewrite length_seq. }
  apply validate_psbt_by_ids_spec in Hnode as (_ & _ & _ & _ & _ & f & _ & Hpays).
  rewrite Hpsbt, extract_positions in Hpays. cbn [psbt_of outputs opt_list length] in Hpays. rewrite Hpos in Hpays.
  eapply equal_shares in Hpays; [|done|done|done| |exact Hch|exact Hs].
  2:{ intros o id data Ho. by apply Hagree, Hin. }
  apply charged_outputs_sum in Hch; [|by apply encode_ids_dust].
  rewrite Hpsbt, psbt_of_spent, psbt_of_paid, Hval. exists (f / Z.of_nat (length kept.*2)).
  rewrite Hch, Hpays at 1. lia.
Qed.

End batches.

(** ** The pegouts of a block are those its execution accepted *)

Section executed.
Context `{!PegLib, !BitcoinLib, !Profile, !MintLib, !CheckpointSource, !BlockSource, !Evm, !NodeLib, !NodeClient}.

Lemma check_burn_logs pkg tx_hash logs : ∀ acc pegouts,
  ofold (check_burn_log pkg tx_hash) acc logs = Ok pegouts →
  pegouts = acc ++ omap (λ e : Z * Log, data ← burn_of (btc_network pkg) e.2;
                           Some (mkPegoutWithId data (PegoutId_new tx_hash (e.1 mod 2 ^ 32)))) logs.
Proof.
  induction logs as [|[i log] logs IH]; intros acc pegouts; cbn [ofold]; [intros [= <-]; by rewrite app_nil_r|].
  unfold check_burn_log at 1. unfold burn_of at 1. csimpl.
  destruct (try_parse_burn_event log (btc_network pkg)) as [[data|]|e|]; cbn [map_err obind ok]; csimpl; [| |done..].
  - intros ->%IH. by rewrite <-app_assoc.
  - apply IH.
Qed.

(** What the execution of a transaction recorded. *)
Definition executed_pegouts (pkg : BotanixConsensusPackage) (entry : Receipt * bytes)
    (pegouts : list PegoutWithId) : Prop :=
  if r_success entry.1
  then ∃ net pegins, botanix_mint_contract_checks net (r_logs entry.1) pkg entry.2 = Ok (pegins, pegouts)
  else pegouts = [].

Lemma tx_pegouts_executed pkg t entry pegouts :
  executed_pegouts pkg entry pegouts →
  tx_pegouts (btc_network pkg) t entry = map (λ p, (po_id p, t)) pegouts.
Proof.
  destruct entry as [receipt tx_hash]. unfold executed_pegouts, tx_pegouts. cbn [fst snd].
  destruct (r_success receipt); cbn [negb]; [|by intros ->].
  intros (net & pegins & Hc). unfold botanix_mint_contract_checks in Hc.
  destruct (ofold (check_mint_log net pkg) [] (r_logs receipt)) as [pi|e|]; [|done..]. cbn [obind] in Hc.
  destruct (ofold (check_burn_log pkg tx_hash) [] _) as [po|e|] eqn:E; [|done..]. cbn [obind] in Hc.
  injection Hc as _ <-. apply check_burn_logs in E as ->. cbn [app].
  assert (∀ k, omap (λ '(index, log), _ ← burn_of (btc_network pkg) log;
      Some (PegoutId_new tx_hash (Z.of_nat index mod 2 ^ 32), t)) (imap (λ i l, ((k + i)%nat, l)) (r_logs receipt)) =
    map (λ p, (po_id p, t)) (omap (λ e : Z * Log, data ← burn_of (btc_network pkg) e.2;
      Some (mkPegoutWithId data (PegoutId_new tx_hash (e.1 mod 2 ^ 32))))
      (imap (λ i l, (Z.of_nat (k + i)%nat, l)) (r_logs receipt)))) as Hk; [|apply (Hk 0%nat)].
  induction (r_logs receipt) as [|log logs IH]; intros k; [done|]. rewrite !imap_cons. csimpl.
  assert (imap ((λ i l, ((k + i)%nat, l)) ∘ S) logs = imap (λ i l, ((S k + i)%nat, l)) logs) as ->
    by (apply imap_ext; intros; simpl; f_equal; lia).
  assert (imap ((λ i l, (Z.of_nat (k + i)%nat, l)) ∘ S) logs = imap (λ i l, (Z.of_nat (S k + i)%nat, l)) logs) as ->
    by (apply imap_ext; intros; simpl; f_equal; lia).
  rewrite IH. by destruct (burn_of (btc_network pkg) log).
Qed.

(** C35.  The pegouts that a node later looks up in a block are the ones that the
    execution of the block recorded, with the ids that the btc-server was told,
    in the same order, each with the time of the block.  The node must have the
    block, with the bit of the burn event in its bloom filter, its transactions
    and its receipts, and the block must be within the cutoff age, if there is
    one. *)
Theorem block_pegouts_are_executed pkg now block b txs receipts pegouts cutoff :
  block_by_number block = Ok (Some b) → bloom_contains_pegout (bs_logs_bloom b) = true →
  (∀ c, cutoff = Some c → is_block_age_acceptable now (bs_timestamp b) c = true) →
  transactions_by_block (bs_number b) = Ok (Some txs) → receipts_by_block (bs_number b) = Ok (Some receipts) →
  Forall2 (executed_pegouts pkg) (zip receipts txs) pegouts →
  get_block_pegouts (btc_network pkg) now block cutoff =
    Ok (map (λ p, (po_id p, bs_timestamp b)) (concat pegouts)).
Proof.
  intros Hb Hbloom Hcut Ht Hr Hall. unfold get_block_pegouts. rewrite Hb, Hbloom. cbn [negb].
  assert (match cutoff with Some c => negb (is_block_age_acceptable now (bs_timestamp b) c) | None => false end = false)
    as ->. { destruct cutoff as [c|]; [|done]. by rewrite (Hcut c eq_refl). }
  rewrite Ht, Hr. cbn [map_err obind]. f_equal. rewrite concat_map. f_equal.
  induction Hall as [|e ps l l' He Hall IH]; [done|]. cbn [map]. f_equal; [|exact IH].
  by apply (tx_pegouts_executed pkg).
Qed.

End executed.

(** ** Old pegouts *)

Section retention.
Context `{!PegLib, !Evm, !NodeLib, !MintLib, !NodeClient, !BitcoinLib, !FrostLib, !PsbtLib}.
Context (btc_network : Network).

(** C30.  A finalized pegout is not paid again although the btc-server forgets it
    after 90 days: as long as the node would let a batch with it be signed, the
    record that makes the btc-server refuse the batch has not been pruned,
    provided the server has the time of the pegout's block, its database answers
    and its clock was not ahead of the node's when it pruned. *)
Theorem finalized_pegouts_stay_refused now1 now2 d d' id f block psbt :
  finalized_keyed d → io d = [] → 0 ≤ now1 ≤ now2 →
  finalized_pegout_ids d !! as_bytes id = Some f → fp_id f = id →
  transaction_block (pid_txid id) = Ok (Some block) → header_timestamp block = ok_or (E:=unit) (Some (fp_timestamp f)) tt →
  prune_finalized_pegout_ids now1 d = (d', Ok tt) →
  id ∈ psbt_ids psbt → validate_psbt_by_ids btc_network now2 psbt = Ok tt →
  validate_outputs psbt d' ≠ (d', Ok tt).
Proof.
  intros Hk Hio Hnow Hf Hid Hblock Hhead Hprune Hin Hnode Hval.
  apply validate_psbt_by_ids_spec in Hnode as (_ & _ & _ & Hyoung & _).
  rewrite Forall_forall in Hyoung. destruct (Hyoung _ Hin) as (b & t & Hb & Ht & _ & Hage).
  rewrite Hblock in Hb. injection Hb as <-. rewrite Hhead in Ht. cbn in Ht. injection Ht as Ht.
  unfold prune_finalized_pegout_ids in Hprune. destruct (Z.ltb_spec now1 0); [lia|].
  unfold bindM, get_finalized_pegout_ids in Hprune. rewrite sled_read_ok, transaction_ok in Hprune by done.
  injection Hprune as <-. set (m := foldl _ _ _) in Hval.
  assert (m !! as_bytes id = Some f) as Hm.
  { unfold m. rewrite prune_tree_lookup, Hf by done. cbn. unfold prune_value. rewrite Ht.
    destruct (Z.ltb_spec t (saturating_sub now1 RETENTION_WINDOW_SECONDS)) as [Hold|]; [|done].
    unfold saturating_sub, RETENTION_WINDOW_SECONDS, MAX_BLOCK_TS_CUTOFF_DURATION in *. lia. }
  apply (decides_Ok _ _ _ _ (validate_outputs_decides psbt (set_finalized_pegout_ids m d) Hio)) in Hval as [Hov _].
  destruct Hov as [_ _ Hfresh _ _]. apply (Hfresh id f); [done| |done].
  apply elem_of_tree_values. by exists (as_bytes id).
Qed.

End retention.

(** ** Concrete runs

    A node that knows the pegouts of ids 1 and 2, burnt in block 7 at time
    8,000,000, and a batch of both. *)

#[export] Instance toy_node_lib : NodeLib := {
  address_script_pubkey _ := p2tr 7;
  serialize_script s := s;
  bloom_contains_input b _ := b =? 1;
  decode_transaction _ := Err tt }.

Definition toy_burn_receipt (sats : Z) : Receipt := mkReceipt Eip1559 true 21000 [toy_burn_log (sats * 10 ^ 10)].

#[export] Instance toy_node_client : NodeClient := {
  receipt_by_hash h :=
    Ok (if bool_decide (h = replicate 32 1) then Some [toy_burn_log (50000 * 10 ^ 10)]
        else if bool_decide (h = replicate 32 2) then Some [toy_burn_log (60000 * 10 ^ 10)] else None);
  transaction_block _ := Ok (Some 7);
  header_timestamp _ := Ok (Some 8000000);
  block_by_number n := Ok (if n =? 7 then Some (mkBlockSummary 7 1 8000000) else None);
  transactions_by_block _ := Ok (Some [replicate 32 1; replicate 32 2]);
  receipts_by_block _ := Ok (Some [toy_burn_receipt 50000; toy_burn_receipt 60000]) }.

Definition toy_requests : list (TxOut * PegoutId) :=
  [(mkTxOut 50000 (p2tr 7), toy_pegout_id 1); (mkTxOut 60000 (p2tr 7), toy_pegout_id 2)].

(** The batch for a fee rate, and what the node says of it. *)
Definition toy_batch (rate : Z) : option Psbt := ok (coin_selection ∅ toy_wallet toy_requests rate (p2tr 9)).

Definition node_verdict (rate : Z) : option (Z * bool) :=
  psbt ← toy_batch rate;
  Some (spent psbt - paid psbt, bool_decide (ok (validate_psbt_by_ids Regtest 9000000 psbt) = Some tt)).

Lemma toy_requests_agree o id data :
  (o, id) ∈ toy_requests → withdrawal Regtest id data → po_amount data = value o.
Proof.
  intros Hin (log & Hlog & Hparse).
  assert (∀ n v, pegout_log (toy_pegout_id n) = Some (toy_burn_log (v * 10 ^ 10)) →
    po_amount <$> default None (ok (try_parse_burn_event (toy_burn_log (v * 10 ^ 10)) Regtest)) = Some v →
    id = toy_pegout_id n → po_amount data = v) as Hone.
  { intros n v Hl Hp ->. rewrite Hl in Hlog. injection Hlog as <-. rewrite Hparse in Hp. cbn in Hp. by injection Hp. }
  apply elem_of_cons in Hin as [[= -> ->]|[[= -> ->]|Hn]%elem_of_cons]; [..|by apply not_elem_of_nil in Hn].
  - apply (Hone 1 50000); [by vm_compute..|done].
  - apply (Hone 2 60000); [by vm_compute..|done].
Qed.

(** An even fee passes; one satoshi more of it does not. *)
Example even_fee_passes : node_verdict 1000 = Some (788, true).
Proof. vm_compute. reflexivity. Qed.

Example odd_fee_fails : node_verdict 1001 = Some (789, false).
Proof. vm_compute. reflexivity. Qed.

Lemma node_accepts_only_even_fees_witness :
  match toy_batch 1000 with
  | Some psbt => (Z.of_nat (length (psbt_ids psbt)) | spent psbt - paid psbt)
  | None => False
  end.
Proof.
  unfold toy_batch.
  destruct (coin_selection ∅ toy_wallet toy_requests 1000 (p2tr 9)) as [psbt|e|] eqn:E; cbn [ok].
  - apply (node_accepts_only_even_fees Regtest ∅ toy_wallet toy_requests 1000 (p2tr 9) psbt 9000000).
    + apply map_Forall_empty.
    + apply toy_wallet_keyed.
    + repeat (apply Forall_cons; split;
        [split_and!; [simpl; lia|reflexivity|apply toy_pegout_id_wf; unfold is_u8, u8_max; lia]|]).
      apply Forall_nil. exact I.
    + exact E.
    + apply toy_requests_agree.
    + assert (match ok (coin_selection ∅ toy_wallet toy_requests 1000 (p2tr 9)) with
              | Some psbt => ok (validate_psbt_by_ids Regtest 9000000 psbt)
              | None => None end = Some tt) as Hv by (vm_compute; reflexivity).
      rewrite E in Hv. cbn [ok] in Hv.
      destruct (validate_psbt_by_ids Regtest 9000000 psbt) as [[]|e|]; [reflexivity|discriminate Hv|discriminate Hv].
  - assert (is_Some (ok (coin_selection ∅ toy_wallet toy_requests 1000 (p2tr 9)))) as Hs by (vm_compute; eauto).
    rewrite E in Hs. destruct Hs as [x Hx]. discriminate Hx.
  - assert (is_Some (ok (coin_selection ∅ toy_wallet toy_requests 1000 (p2tr 9)))) as Hs by (vm_compute; eauto).
    rewrite E in Hs. destruct Hs as [x Hx]. discriminate Hx.
Defined.

(** A record of the pegout from the time of its block. *)
Definition toy_paid_db : Db :=
  set_finalized_pegout_ids
    {[ as_bytes (toy_pegout_id 1) := toy_finalized 1 (Some 8000000) ]} (toy_federation Db_empty).

Lemma finalized_pegouts_stay_refused_witness :
  match toy_batch 1000 with
  | Some psbt => validate_outputs psbt (prune_finalized_pegout_ids 8500000 toy_paid_db).1 ≠
      ((prune_finalized_pegout_ids 8500000 toy_paid_db).1, Ok tt)
  | None => False
  end.
Proof.
  destruct (toy_batch 1000) as [psbt|] eqn:E.
  - apply (finalized_pegouts_stay_refused Regtest 8500000 9000000 toy_paid_db _ (toy_pegout_id 1)
      (toy_finalized 1 (Some 8000000)) 7 psbt).
    + apply map_Forall_singleton. reflexivity.
    + reflexivity.
    + lia.
    + apply lookup_singleton_eq.
    + reflexivity.
    + reflexivity.
    + reflexivity.
    + vm_compute. reflexivity.
    + assert (bool_decide (toy_pegout_id 1 ∈ default [] (psbt_ids <$> toy_batch 1000)) = true) as Hin
        by (vm_compute; reflexivity).
      rewrite E in Hin. exact (bool_decide_eq_true_1 _ Hin).
    + assert ((toy_batch 1000 ≫= λ psbt, ok (validate_psbt_by_ids Regtest 9000000 psbt)) = Some tt) as Hv
        by (vm_compute; reflexivity).
      rewrite E in Hv. cbn in Hv.
      destruct (validate_psbt_by_ids Regtest 9000000 psbt) as [[]|e|]; [reflexivity|discriminate Hv|discriminate Hv].
  - assert (is_Some (toy_batch 1000)) as Hs by (vm_compute; eauto). rewrite E in Hs.
    destruct Hs as [x Hx]. discriminate Hx.
Defined.

Lemma toy_burn_executed : let profile : Profile := false in
  ∀ n v, (n = 1 ∧ v = 50000) ∨ (n = 2 ∧ v = 60000) →
  executed_pegouts toy_package (toy_burn_receipt v, replicate 32 n)
    [mkPegoutWithId (mkPegoutData v tt Regtest) (toy_pegout_id n)].
Proof.
  intros profile n v Hv. unfold executed_pegouts. cbn [fst r_success toy_burn_receipt snd r_logs].
  exists Regtest, []. destruct Hv as [[-> ->]|[-> ->]];
  match goal with |- ?x = _ => vm_cast_no_check (eq_refl x) end.
Qed.

Lemma block_pegouts_are_executed_witness :
  let profile : Profile := false in
  get_block_pegouts Regtest 9000000 7 (Some MAX_BLOCK_TS_CUTOFF_DURATION) =
    Ok [(toy_pegout_id 1, 8000000); (toy_pegout_id 2, 8000000)].
Proof.
  intros profile.
  refine (block_pegouts_are_executed toy_package 9000000 7 (mkBlockSummary 7 1 8000000)
    [replicate 32 1; replicate 32 2] [toy_burn_receipt 50000; toy_burn_receipt 60000]
    [[mkPegoutWithId (mkPegoutData 50000 tt Regtest) (toy_pegout_id 1)];
     [mkPegoutWithId (mkPegoutData 60000 tt Regtest) (toy_pegout_id 2)]]
    (Some MAX_BLOCK_TS_CUTOFF_DURATION) _ _ _ _ _ _).
  - reflexivity.
  - reflexivity.
  - intros c [= <-]. reflexivity.
  - reflexivity.
  - reflexivity.
  - apply Forall2_cons; split; [apply (toy_burn_executed 1 50000); by left|].
    apply Forall2_cons; split; [apply (toy_burn_executed 2 60000); by right|]. by apply Forall2_nil.
Defined.
