(* ===== verification/Build.v ===== *)
(** * Building a block

    src/bin/botanix-reth/src/consensus/execution_utils.rs: [build_and_execute]
    makes a header on top of the best block, executes the transactions with
    [execute] of [Execution], and completes the header with what the execution
    gave.  Proposals are processed and blocks are finalized with it.

    The database of reth is the parameter [RethLib]: a state with lookups, the
    state of the accounts after a block, and an append.  The lookups of
    referenced blocks that the execution makes go to the same database.  What a
    block changes is kept as the database of accounts after it. *)

From S2P Require Import Prelude Bytes Bitcoin Concrete Codec Peg Edh Mint Execution Activation Consensus.
From stdpp Require Import strings.

Open Scope Z_scope.

(** [ETHEREUM_BLOCK_GAS_LIMIT_30M] of alloy *)
Definition ETHEREUM_BLOCK_GAS_LIMIT_30M : Z := 30000000.

Class RethLib `{!Evm} := {
  RethDb : Type;
  TrieUpdates : Type;
  best_block_number : RethDb → outcome unit Z;
  db_block_hash : Z → RethDb → outcome unit (option bytes);
  header_by_number : Z → RethDb → outcome unit (option EvmHeader);
  header_by_hash : bytes → RethDb → outcome unit (option EvmHeader);
  (** [latest_header], [block_by_id] of the latest block and by hash *)
  latest_header : RethDb → outcome unit (option EvmHeader);
  latest_block : RethDb → outcome unit (option EvmHeader);
  block_by_hash : bytes → RethDb → outcome unit (option EvmHeader);
  (** the accounts after a block *)
  history_by_block_hash : bytes → RethDb → option EvmDb;
  (** the root of the state after a block changed by the accounts given *)
  state_root : bytes → EvmDb → RethDb → outcome unit bytes;
  overlay_root_with_updates : EvmDb → RethDb → outcome unit TrieUpdates;
  (** [append_blocks_with_state] and the commit of its transaction *)
  append_block : EvmHeader → list EvmTx → EvmDb → list Receipt → TrieUpdates → RethDb → outcome unit RethDb }.

Inductive BuildError :=
| ProviderFailure
| SignerRecoveryError
| FailedToFetchBlockProducerAddress
| StateRootError
| ExecutionError (e : BlockExecutionError).

(** [BlockWithContext] with its sealed block taken apart: the hash of the
    sealed block is that of its header. *)
Record BlockWithContext `{!PegLib, !Evm, !RethLib} := mkBlockWithContext {
  bc_header : EvmHeader;
  bc_transactions : list EvmTx;
  bc_senders : list Address;
  bc_pegins : list PeginData;
  bc_pegouts : list PegoutWithId;
  bc_runtime_version : RuntimeVersion;
  bc_network_upgrade_payload : option NetworkUpgradePayload;
  bc_state : EvmDb;
  bc_receipts : list Receipt;
  bc_trie_updates : TrieUpdates }.

Section build.
Context `{!PegLib, !BitcoinLib, !Profile, !MintLib, !CheckpointSource, !Evm, !EthLib, !RethLib}.

(** [debug_assert!]; the profile with overflow checks has debug assertions. *)
Definition debug_assert_that {E} (b : bool) : outcome E unit := if overflow_checks && negb b then Panic else Ok tt.

Abbreviation B A := (outcome BuildError A).

Definition from_provider {A} (o : outcome unit A) : B A := map_err (λ _, ProviderFailure) o.

(** [.expect(..)] on a result *)
Definition expect_provider {A} (o : outcome unit A) : B A := expect (ok o).

Definition blob_gas_sum (transactions : list EvmTx) : B Z :=
  ofold (λ sum tx, match blob_gas_used_of tx with Some gas => uadd 64 sum gas | None => Ok sum end) 0 transactions.

(** The extra data header of a block. *)
Definition block_edh (bitcoin_checkpoint : BlockHash) (agg_pk : PublicKey) (recipient : Address) : ExtraDataHeader :=
  mkEdh EXTRA_HEADER_VERSION CHAIN_VERSION bitcoin_checkpoint agg_pk recipient.

(** The three fields of blobs in a template, under Cancun: the gas used by the
    blobs is zero, whatever the transactions are. *)
Definition blob_fields (timestamp : Z) (best_hash : bytes) (db : RethDb)
    : B (option bytes * option Z * option Z) :=
  let? parent := expect_provider (header_by_hash best_hash db) in
  let '(parent_excess_blob_gas, parent_blob_gas_used) :=
    match parent with
    | Some parent_block =>
        if is_cancun_active_at_timestamp (hd_timestamp parent_block)
        then (default 0 (hd_excess_blob_gas parent_block), default 0 (hd_blob_gas_used parent_block)) else (0, 0)
    | None => (0, 0)
    end in
  Ok (parent ≫= hd_parent_beacon_block_root, Some 0, Some (calc_excess_blob_gas parent_excess_blob_gas parent_blob_gas_used)).

(** [timestamp] are the seconds of the block's time, an [i64]. *)
Definition build_header_template (transactions : list EvmTx) (bitcoin_checkpoint : BlockHash) (agg_pk : PublicKey)
    (timestamp : Z) (block_fee_recipient_address : Address) (db : RethDb) : B EvmHeader :=
  let? best_block := from_provider (best_block_number db) in
  let? best_hash := from_provider (db_block_hash best_block db) in
  let? best_hash := expect best_hash in
  let timestamp := timestamp mod 2 ^ 64 in
  let? best_header := expect_provider (header_by_number best_block db) in
  let base_fee_per_gas := best_header ≫= λ parent, next_block_base_fee parent timestamp in
  let? blob_gas_used :=
    if is_cancun_active_at_timestamp timestamp
    then let? sum := blob_gas_sum transactions in Ok (Some sum) else Ok None in
  let edh := block_edh bitcoin_checkpoint agg_pk block_fee_recipient_address in
  let? number := uadd 64 best_block 1 in
  let? '(parent_beacon_block_root, blob_gas_used, excess_blob_gas) :=
    if is_cancun_active_at_timestamp timestamp then blob_fields timestamp best_hash db
    else Ok (None, blob_gas_used, None) in
  let transactions_root :=
    if bool_decide (length transactions = 0%nat) then EMPTY_TRANSACTIONS else calculate_transaction_root transactions in
  Ok {| hd_parent_hash := best_hash;
        hd_ommers_hash := EMPTY_OMMER_ROOT_HASH;
        hd_beneficiary := ZERO_ADDRESS;
        hd_state_root := replicate 32 0;
        hd_transactions_root := transactions_root;
        hd_receipts_root := replicate 32 0;
        hd_withdrawals_root := None;
        hd_logs_bloom := 0;
        hd_difficulty := 0;
        hd_number := number;
        hd_gas_limit := ETHEREUM_BLOCK_GAS_LIMIT_30M;
        hd_gas_used := 0;
        hd_timestamp := timestamp;
        hd_mix_hash := replicate 32 0;
        hd_nonce := replicate 8 0;
        hd_base_fee_per_gas := base_fee_per_gas;
        hd_blob_gas_used := blob_gas_used;
        hd_excess_blob_gas := excess_blob_gas;
        hd_extra_data := Edh_serialize edh;
        hd_parent_beacon_block_root := parent_beacon_block_root;
        hd_requests_hash := None |}.

Definition set_base_fee (f : option Z) (h : EvmHeader) : EvmHeader :=
  mkEvmHeader (hd_parent_hash h) (hd_ommers_hash h) (hd_beneficiary h) (hd_state_root h) (hd_transactions_root h)
    (hd_receipts_root h) (hd_withdrawals_root h) (hd_logs_bloom h) (hd_difficulty h) (hd_number h) (hd_gas_limit h)
    (hd_gas_used h) (hd_timestamp h) (hd_mix_hash h) (hd_nonce h) f (hd_blob_gas_used h) (hd_excess_blob_gas h)
    (hd_extra_data h) (hd_parent_beacon_block_root h) (hd_requests_hash h).

Definition raise_base_fee (floor_base_fee : option Z) (h : EvmHeader) : EvmHeader :=
  match hd_base_fee_per_gas h, floor_base_fee with
  | Some base_fee, Some floor => set_base_fee (Some (Z.max base_fee floor)) h
  | _, _ => h
  end.

Definition finish_header (state_root receipts_root : bytes) (logs_bloom gas_used : Z) (extra_data : bytes)
    (h : EvmHeader) : EvmHeader :=
  mkEvmHeader (hd_parent_hash h) (hd_ommers_hash h) (hd_beneficiary h) state_root (hd_transactions_root h)
    receipts_root (hd_withdrawals_root h) logs_bloom (hd_difficulty h) (hd_number h) (hd_gas_limit h)
    gas_used (hd_timestamp h) (hd_mix_hash h) (hd_nonce h) (hd_base_fee_per_gas h) (hd_blob_gas_used h)
    (hd_excess_blob_gas h) extra_data (hd_parent_beacon_block_root h) (hd_requests_hash h).

(** [state] are the accounts after the block, [out] what the execution gave. *)
Definition complete_header (h : EvmHeader) (state : EvmDb) (out : EthExecuteOutput) (recent_block_hash : BlockHash)
    (agg_pk : PublicKey) (db : RethDb) : B EvmHeader :=
  let rs := receipts out in
  let '(receipts_root, logs_bloom) :=
    if bool_decide (length rs = 0%nat) then (EMPTY_RECEIPTS, hd_logs_bloom h)
    else (calculate_receipt_root rs, foldl (λ bloom r, Z.lor bloom (receipt_bloom r)) 0 rs) in
  let? _ := expect (history_by_block_hash (hd_parent_hash h) db) in
  let? root := from_provider (state_root (hd_parent_hash h) state db) in
  let? block_producer_address :=
    map_err (λ _, FailedToFetchBlockProducerAddress) (get_block_fee_recipient_address (eth_header h)) in
  Ok (finish_header root receipts_root logs_bloom (total_gas_used out)
        (Edh_serialize (block_edh recent_block_hash agg_pk block_producer_address)) h).

(** [find_block_by_hash] of the execution asks the database of the blocks. *)
Definition referenced_blocks (db : RethDb) : BlockSource := λ hash,
  match block_by_hash hash db with
  | Ok h => Ok (eth_header <$> h)
  | Err _ => Err DatabaseFailed
  | Panic => Panic
  end.

Definition execute_block (bitcoin_network : Network) (spec : BotanixChainSpec) (h : EvmHeader) (transactions : list EvmTx)
    (senders : list Address) (db : RethDb) : B (EvmDb * EthExecuteOutput) :=
  let? state := expect (history_by_block_hash (hd_parent_hash h) db) in
  let '(state, o) := Execution.execute (H4:=referenced_blocks db) bitcoin_network spec
                       (mkBlock (eth_header h) transactions senders) state in
  let? out := map_err ExecutionError o in Ok (state, out).

Definition build_and_execute (transactions : list EvmTx) (spec : BotanixChainSpec) (runtime_version : RuntimeVersion)
    (network_upgrade_payload : option NetworkUpgradePayload) (floor_base_fee : option Z)
    (block_fee_recipient_address : Address) (bitcoin_network : Network) (bitcoin_checkpoint_block_hash : BlockHash)
    (agg_pk : PublicKey) (timestamp : Z) (db : RethDb) : B BlockWithContext :=
  let? header := build_header_template transactions bitcoin_checkpoint_block_hash agg_pk timestamp
                   block_fee_recipient_address db in
  debug_assert_that (bool_decide (is_Some (hd_base_fee_per_gas header))) ;?
  let header := raise_base_fee floor_base_fee header in
  let? senders := ok_or (recover_signers transactions) SignerRecoveryError in
  let? '(state, out) := execute_block bitcoin_network spec header transactions senders db in
  let? completed_header := complete_header header state out bitcoin_checkpoint_block_hash agg_pk db in
  let? senders := ok_or (recover_signers transactions) SignerRecoveryError in
  let? trie_updates := map_err (λ _, StateRootError) (overlay_root_with_updates state db) in
  Ok (mkBlockWithContext _ _ _ completed_header transactions senders (pegins out) (pegouts out) runtime_version
        network_upgrade_payload state (receipts out) trie_updates).

End build.

(** ** What a built block satisfies *)

Section build_theorems.
Context `{!PegLib, !BitcoinLib, !Profile, !MintLib, !CheckpointSource, !Evm, !EthLib, !RethLib}.
Context (tx_wf : Transaction → Prop) `{!PegLaws tx_wf, !EthLaws, !EvmLaws}.

Lemma tx_effect_gas `{!BlockSource} network env pkg base_fee i sender tx db db' gas success logs ins outs :
  tx_effect network env pkg base_fee i sender tx db db' gas success logs ins outs → 0 ≤ gas ≤ tx_gas_limit tx.
Proof. by intros [? ? Ht _|? ? ? ? ? Ht _|? ? ? ? ? ? Ht _ _ _ _]; apply transact_gas in Ht. Qed.

(** The gas of a block stays within its limit. *)
Lemma transactions_gas `{!BlockSource} network h pkg : ∀ entries s s',
  gas_limit h < 2 ^ 64 → 0 ≤ total_gas_used (x_out s) ≤ gas_limit h →
  forM entries (execute_transaction network h pkg) s = (s', Ok tt) → 0 ≤ total_gas_used (x_out s') ≤ gas_limit h.
Proof.
  induction entries as [|[i [sender tx]] entries IH]; intros s s' Hlimit Hg; cbn [forM]; [by intros [= <-]|].
  intros (s1 & [] & Htx & Hrest)%bindM_Ok. apply (IH s1 s'); [done| |done].
  apply execute_transaction_inv in Htx as
    (avail & fees & gas & success & logs & ins & outs & tip & rate & fee & Havail & Hle & Heff & _ & _ & _ & _ & Hx).
  destruct Hx as (cumulative & Hcum & ->). apply tx_effect_gas in Heff.
  rewrite usub_Ok in Havail by lia. injection Havail as <-. rewrite uadd_Ok in Hcum by lia.
  injection Hcum as <-. cbn. lia.
Qed.

Lemma executed_gas `{!BlockSource} network spec block db db' out :
  0 ≤ gas_limit (header block) < 2 ^ 64 →
  Execution.execute network spec block db = (db', Ok out) → 0 ≤ total_gas_used out ≤ gas_limit (header block).
Proof.
  intros Hlimit (edh & pkg & db1 & s1 & _ & _ & _ & Htxs & -> & _)%execute_Ok.
  apply transactions_gas in Htxs; [done|lia|cbn; lia].
Qed.

(** What the template of a block has, whatever the database is. *)
Record template_of (txs : list EvmTx) (checkpoint : BlockHash) (k : PublicKey) (recipient : Address) (h : EvmHeader) : Prop := {
  tm_ommers : hd_ommers_hash h = EMPTY_OMMER_ROOT_HASH;
  tm_transactions : hd_transactions_root h = calculate_transaction_root txs;
  tm_beneficiary : hd_beneficiary h = ZERO_ADDRESS;
  tm_difficulty : hd_difficulty h = 0;
  tm_nonce : hd_nonce h = replicate 8 0;
  tm_gas_limit : hd_gas_limit h = ETHEREUM_BLOCK_GAS_LIMIT_30M;
  tm_extra_data : hd_extra_data h = Edh_serialize (block_edh checkpoint k recipient);
  tm_cancun : is_cancun_active_at_timestamp (hd_timestamp h) = true →
    hd_blob_gas_used h = Some 0 ∧ is_Some (hd_excess_blob_gas h);
  tm_before_cancun : is_cancun_active_at_timestamp (hd_timestamp h) = false →
    hd_blob_gas_used h = None ∧ hd_excess_blob_gas h = None ∧ hd_parent_beacon_block_root h = None }.

Lemma build_header_template_of txs checkpoint k timestamp recipient db h :
  build_header_template txs checkpoint k timestamp recipient db = Ok h → template_of txs checkpoint k recipient h.
Proof.
  unfold build_header_template.
  intros (best & _ & Hrun)%obind_Ok. apply obind_Ok in Hrun as (o & _ & Hrun).
  apply obind_Ok in Hrun as (hash & _ & Hrun). apply obind_Ok in Hrun as (parent & _ & Hrun).
  apply obind_Ok in Hrun as (blob & Hblob & Hrun). apply obind_Ok in Hrun as (n & _ & Hrun).
  apply obind_Ok in Hrun as ([[root used] excess] & Hfields & [= <-]).
  split; cbn; [done| |done..| |].
  - case_bool_decide as Hl; [|done]. by rewrite (nil_length_inv _ Hl), empty_transactions_root.
  - intros Hc. rewrite Hc in Hfields. unfold blob_fields in Hfields.
    apply obind_Ok in Hfields as (p & _ & Hfields).
    destruct (match p with Some _ => _ | None => _ end) as [e u]. by injection Hfields as _ <- <-.
  - intros Hc. rewrite Hc in Hblob, Hfields. injection Hblob as <-. by injection Hfields as <- <- <-.
Qed.

Lemma raise_base_fee_template txs checkpoint k recipient floor h :
  template_of txs checkpoint k recipient h → template_of txs checkpoint k recipient (raise_base_fee floor h).
Proof. intros []. unfold raise_base_fee. by destruct (hd_base_fee_per_gas h), floor. Qed.

Lemma edh_read_back checkpoint k recipient h :
  is_array 32 checkpoint → length recipient = 20%nat → hd_extra_data h = Edh_serialize (block_edh checkpoint k recipient) →
  deserialize_extra_data_header (eth_header h) = Ok (block_edh checkpoint k recipient).
Proof.
  intros Hc Ha Hx. unfold deserialize_extra_data_header. cbn [eth_header extra_data]. rewrite Hx.
  rewrite <-(app_nil_r (Edh_serialize _)). rewrite (parses_edh tx_wf); [done|].
  unfold edh_wf. cbn [block_edh edh_version chain_version bitcoin_block_hash block_fee_recipient_address].
  by split_and!; [vm_compute; split; discriminate..| |].
Qed.

(** The stages of a block that is built: its template, the run of its
    transactions on the state of the parent, and the completed header. *)
Record built (txs : list EvmTx) (spec : BotanixChainSpec) (network : Network) (checkpoint : BlockHash) (k : PublicKey)
    (recipient : Address) (db : RethDb) (b : BlockWithContext) : Prop := {
  bu_template : template_of txs checkpoint k recipient (bc_header b);
  bu_transactions : bc_transactions b = txs;
  bu_executed : ∃ h state out, Execution.execute (H4:=referenced_blocks db) network spec
      (mkBlock (eth_header h) txs (bc_senders b)) state = (bc_state b, Ok out) ∧
    length (bc_senders b) = length txs ∧ template_of txs checkpoint k recipient h ∧
    hd_gas_used (bc_header b) = total_gas_used out ∧ bc_pegins b = pegins out ∧ bc_pegouts b = pegouts out ∧
    bc_receipts b = receipts out }.

Lemma build_and_execute_carries txs spec v payload floor recipient network checkpoint k timestamp db b :
  build_and_execute txs spec v payload floor recipient network checkpoint k timestamp db = Ok b →
  bc_transactions b = txs ∧ bc_runtime_version b = v ∧ bc_network_upgrade_payload b = payload.
Proof.
  unfold build_and_execute.
  intros (h & _ & Hrun)%obind_Ok. apply obind_Ok in Hrun as ([] & _ & Hrun).
  apply obind_Ok in Hrun as (senders & _ & Hrun). apply obind_Ok in Hrun as ([state out] & _ & Hrun).
  apply obind_Ok in Hrun as (h' & _ & Hrun). apply obind_Ok in Hrun as (senders' & _ & Hrun).
  by apply obind_Ok in Hrun as (trie & _ & [= <-]).
Qed.

Lemma build_and_execute_number txs spec v payload floor recipient network checkpoint k timestamp db b n :
  build_and_execute txs spec v payload floor recipient network checkpoint k timestamp db = Ok b →
  best_block_number db = Ok n → 0 ≤ n < 2 ^ 64 - 1 → hd_number (bc_header b) = n + 1.
Proof.
  unfold build_and_execute, build_header_template. intros Hrun Hn Hmax. rewrite Hn in Hrun.
  apply obind_Ok in Hrun as (h & Hh & Hrun). cbn [from_provider map_err obind] in Hh.
  apply obind_Ok in Hh as (o & _ & Hh). apply obind_Ok in Hh as (hash & _ & Hh).
  apply obind_Ok in Hh as (parent & _ & Hh). apply obind_Ok in Hh as (blob & _ & Hh).
  rewrite uadd_Ok in Hh by lia. cbn [obind] in Hh. apply obind_Ok in Hh as ([[? ?] ?] & _ & [= <-]).
  apply obind_Ok in Hrun as ([] & _ & Hrun). apply obind_Ok in Hrun as (senders & _ & Hrun).
  apply obind_Ok in Hrun as ([state out] & _ & Hrun). apply obind_Ok in Hrun as (h' & Hdone & Hrun).
  apply obind_Ok in Hrun as (senders' & _ & Hrun). apply obind_Ok in Hrun as (trie & _ & [= <-]). cbn [bc_header].
  unfold complete_header in Hdone. destruct (if bool_decide _ then _ else _) as [root bloom].
  apply obind_Ok in Hdone as (? & _ & Hdone). apply obind_Ok in Hdone as (sroot & _ & Hdone).
  apply obind_Ok in Hdone as (producer & _ & [= <-]). unfold raise_base_fee. cbn.
  by repeat case_match.
Qed.

Lemma build_and_execute_built txs spec v payload floor recipient network checkpoint k timestamp db b :
  is_array 32 checkpoint → length recipient = 20%nat →
  build_and_execute txs spec v payload floor recipient network checkpoint k timestamp db = Ok b →
  built txs spec network checkpoint k recipient db b.
Proof.
  intros Hc Ha. unfold build_and_execute.
  intros (h & Hh & Hrun)%obind_Ok. apply obind_Ok in Hrun as ([] & _ & Hrun).
  apply obind_Ok in Hrun as (senders & Hs%ok_or_Ok & Hrun). apply obind_Ok in Hrun as ([state out] & Hexec & Hrun).
  apply obind_Ok in Hrun as (h' & Hdone & Hrun). apply obind_Ok in Hrun as (senders' & Hs'%ok_or_Ok & Hrun).
  rewrite Hs in Hs'. injection Hs' as <-.
  apply obind_Ok in Hrun as (trie & _ & [= <-]).
  apply build_header_template_of, (raise_base_fee_template _ _ _ _ floor) in Hh.
  set (h1 := raise_base_fee floor h) in *.
  unfold complete_header in Hdone.
  destruct (if bool_decide _ then _ else _) as [root bloom].
  apply obind_Ok in Hdone as (? & _ & Hdone). apply obind_Ok in Hdone as (sroot & _ & Hdone).
  apply obind_Ok in Hdone as (producer & Hp & [= <-]).
  unfold get_block_fee_recipient_address in Hp.
  rewrite (edh_read_back checkpoint k recipient) in Hp by (done || apply Hh).
  injection Hp as <-. split; cbn; [|done|].
  - destruct Hh. by split.
  - unfold execute_block in Hexec. apply obind_Ok in Hexec as (st & _ & Hexec).
    destruct (Execution.execute _ _ _ _) as [st' o] eqn:Hrun.
    apply obind_Ok in Hexec as (out' & Hout%map_err_Ok & [= <- <-]). rewrite Hout in Hrun.
    exists h1, st, out'. split_and!; try done. by apply recover_length.
Qed.

Lemma built_gas txs spec network checkpoint k recipient db b :
  built txs spec network checkpoint k recipient db b → 0 ≤ hd_gas_used (bc_header b) ≤ hd_gas_limit (bc_header b).
Proof.
  intros [Ht _ (h & state & out & Hrun & _ & Hh & -> & _)].
  apply executed_gas in Hrun; cbn in *; rewrite (tm_gas_limit _ _ _ _ _ Hh) in *; [|done].
  by rewrite (tm_gas_limit _ _ _ _ _ Ht).
Qed.

(** The pegins of a built block are backed by deposits under the checkpoint it
    names, and its pegouts are of its own transactions, once each. *)
Lemma built_pegs txs spec network checkpoint k recipient db b :
  is_array 32 checkpoint → length recipient = 20%nat → built txs spec network checkpoint k recipient db b →
  NoDup (map tx_hash txs) →
  ∃ pkg, botanix_consensus_package (eth_header (bc_header b)) network = Ok pkg ∧ aggregate_public_key pkg = k ∧
    Forall (λ d, ∃ cp vs, backed (H4:=referenced_blocks db) network pkg d cp vs) (bc_pegins b) ∧
    Forall (λ p, pid_txid (po_id p) ∈ map tx_hash txs) (bc_pegouts b) ∧ NoDup (map po_id (bc_pegouts b)).
Proof.
  intros Hc Ha [Ht _ (h & state & out & Hrun & Hlen & Hh & _ & -> & -> & _)] Hnd.
  apply execute_Ok in Hrun as (edh & pkg & db1 & s1 & He & Hp & _ & Htxs & -> & _).
  apply (executed_output tx_wf) in Htxs as []; [|by cbn; rewrite (tm_gas_limit _ _ _ _ _ Hh)|done..].
  exists pkg. cbn [header] in *. unfold botanix_consensus_package in *.
  rewrite (edh_read_back checkpoint k recipient) in * by (done || apply Ht || apply Hh).
  cbn [map_err obind] in *. split_and!; [done| |done..].
  case_bool_decide; [by injection Hp as <-|].
  apply obind_Ok in Hp as (? & _ & Hp). by apply obind_Ok in Hp as (? & _ & [= <-]).
Qed.

(** The rules on headers hold of every built block; the rules on its body
    exactly when its transactions carry no blobs. *)
Lemma built_header_passes nums now txs spec network checkpoint k recipient db b :
  built txs spec network checkpoint k recipient db b → is_array 32 checkpoint → length recipient = 20%nat → k ≠ nums →
  is_paris_active_at_block (hd_number (bc_header b)) = true → is_Some (hd_base_fee_per_gas (bc_header b)) →
  (is_cancun_active_at_timestamp (hd_timestamp (bc_header b)) = true →
    is_Some (hd_parent_beacon_block_root (bc_header b))) →
  validate_header now (bc_header b) = Ok tt ∧
  validate_header_standalone nums (bc_header b) (Some k) = Ok tt.
Proof.
  intros Hb Hc Ha Hk Hparis Hfee Hroot. pose proof (built_gas _ _ _ _ _ _ _ _ Hb) as Hgas. destruct Hb as [[] _ _].
  split.
  - unfold validate_header, validate_header_inner.
    rewrite Hparis, tm_difficulty0, tm_nonce0, tm_ommers0. cbn [negb Z.eqb].
    rewrite !bool_decide_true by done. cbn [check negb obind].
    rewrite header_gas, (proj2 (Z.leb_le _ _) (proj2 Hgas)), (header_base_fee _ Hfee). cbn [check obind].
    destruct (is_cancun_active_at_timestamp _) eqn:E.
    + destruct (tm_cancun0 eq_refl) as [Hu He]. by rewrite standalone_4844 by auto.
    + by destruct (tm_before_cancun0 eq_refl) as (-> & -> & ->).
  - unfold validate_header_standalone, validate_extra_data_header, validate_block_beneficiary.
    rewrite tm_beneficiary0, bool_decide_true by done.
    destruct (Z.eqb_spec (hd_number (bc_header b)) 0); [done|].
    assert (deserialize_extra_data_header (eth_header (bc_header b)) = Ok (block_edh checkpoint k recipient)) as Hd
      by (by apply edh_read_back).
    pose proof (read_edh_size tx_wf _ _ Hd) as Hs. unfold edh_size in Hs. rewrite <-tm_extra_data0 in Hs.
    rewrite Hs. cbn [Z.ltb]. rewrite Hd. cbn [map_err obind]. unfold edh_size. rewrite <-tm_extra_data0, Hs.
    cbn. rewrite bool_decide_false by done. cbn. by rewrite bool_decide_true.
Qed.

Lemma pre_execution_total h txs : validate_block_pre_execution h txs ≠ Panic.
Proof. unfold validate_block_pre_execution, check. repeat case_match; done. Qed.

Lemma built_body_passes txs spec network checkpoint k recipient db b :
  built txs spec network checkpoint k recipient db b →
  (validate_block_pre_execution (bc_header b) (bc_transactions b) = Ok tt ↔
   is_cancun_active_at_timestamp (hd_timestamp (bc_header b)) = false ∨ body_blob_gas txs = 0).
Proof.
  intros [[] -> _]. unfold validate_block_pre_execution. rewrite tm_ommers0, tm_transactions0.
  rewrite !bool_decide_true by done. cbn [check obind].
  destruct (is_cancun_active_at_timestamp _) eqn:E; [|by split; [left|]].
  rewrite check_Ok, cancun_gas. rewrite (proj1 (tm_cancun0 eq_refl)). split; [intros [= <-]; by right|].
  by intros [?| ->].
Qed.

End build_theorems.
