(* ===== verification/Abci.v ===== *)
(** * The CometBFT application

    src/bin/botanix-reth/src/consensus/comet_bft/abci.rs: the handlers that
    CometBFT calls ([prepare_proposal], [process_proposal], [finalize_block],
    [commit], [init_chain], [info], [check_tx]), the cache of executed blocks
    between them, and the driver that writes a committed block to the two
    databases ([ABCIDriver::start]); and the start of a node
    (src/bin/botanix-reth/src/consensus/builder.rs, and [Storage::new] of
    mod.rs there).

    CometBFT calls one handler at a time.  The LRU map is the parameter
    [LruLib], the mempool and the builder of payloads [PoolLib], the encoding of
    transactions [TxEncoding]; the databases of the node are [RethDb] of
    [Build] and two tables.  [commit] waits for the driver, so the two are one
    transition; the notification of subscribers at its end is not part of it,
    nor are snapshots.  Where a log line computes something that can panic, the
    computation is there. *)

From S2P Require Import Prelude Bytes Bitcoin Concrete Codec Peg Edh Mint Execution Activation Checkpoint Jwt Rpc Ndd.
From S2P Require Import Consensus Payload NodeUtils Build.
From stdpp Require Import strings.

Open Scope Z_scope.

(** ** Libraries *)

Class LruLib (V : Type) := {
  LruMap : Type;
  lru_new : Z → LruMap;
  lru_peek : bytes → LruMap → option V;
  (** a lookup makes the entry the newest *)
  lru_get : bytes → LruMap → LruMap * option V;
  lru_insert : bytes → V → LruMap → LruMap;
  lru_remove : bytes → LruMap → LruMap * option V }.
Arguments LruMap V {LruLib}.

Class LruLaws (V : Type) `{!LruLib V} : Prop := {
  peek_new n k : lru_peek k (lru_new n) = None;
  get_result k m : (lru_get k m).2 = lru_peek k m;
  get_peek k k' m : lru_peek k' (lru_get k m).1 = lru_peek k' m;
  insert_peek k v m : lru_peek k (lru_insert k v m) = Some v;
  (** an insertion may evict *)
  insert_peek_ne k k' v m : k' ≠ k → lru_peek k' (lru_insert k v m) = lru_peek k' m ∨ lru_peek k' (lru_insert k v m) = None;
  remove_result k m : (lru_remove k m).2 = lru_peek k m;
  remove_peek k m : lru_peek k (lru_remove k m).1 = None;
  remove_peek_ne k k' m : k' ≠ k → lru_peek k' (lru_remove k m).1 = lru_peek k' m }.

(** [encode_2718] of alloy; what [EthereumTxEnvelope::decode] makes of it. *)
Class TxEncoding `{!Evm} := encode_2718 : EvmTx → bytes.

Class TxEncodingLaws `{!PegLib, !Evm, !NodeLib, !TxEncoding} : Prop := {
  decode_encode_2718 tx : decode_transaction (encode_2718 tx) = Ok tx }.

Class PoolLib `{!Evm, !EthLib, !RethLib, !PayloadLib} := {
  Pool : Type;
  pool_size : Pool → Z;
  best_transactions_with_attributes : Pool → Z → option Z → BestTxs;
  (** the state of the parent and [builder_for_next_block] on it *)
  builder_for_next_block : EvmHeader → PayloadAttributes → RethDb → outcome Payload.PayloadBuilderError BlockBuilder;
  (** [is_better_payload] when there is no payload yet *)
  is_better_than_none : Z → bool }.

(** ** Constants and messages *)

Definition RUNTIME_VERSION_V1 : RuntimeVersion := RUNTIME_VERSION_GENESIS.
Definition RUNTIME_VERSION_V2 : RuntimeVersion := mkVersion 0 2.
Definition RUNTIME_VERSION_V3 : RuntimeVersion := mkVersion 0 3.

Definition FLOOR_BASE_FEE_PER_GAS_V2 : Z := 5000000.
Definition FLOOR_BASE_FEE_PER_GAS_V3 : Z := 500000.

Definition SUCCESS : Z := 0.
Definition VERIFY_ACCEPTED : Z := 1.
Definition VERIFY_REJECT : Z := 2.

(** Times are seconds, heights and sizes are [i64]. *)
Record RequestPrepareProposal := mkPrepareRequest {
  pp_max_tx_bytes : Z;
  pp_txs : list bytes;
  pp_height : Z;
  pp_time : option Z }.

Record RequestProcessProposal := mkProcessRequest {
  rp_txs : list bytes;
  rp_hash : bytes;
  rp_height : Z;
  rp_time : option Z }.

Record RequestFinalizeBlock := mkFinalizeRequest {
  fb_txs : list bytes;
  fb_hash : bytes;
  fb_request_height : Z;
  fb_time : option Z;
  fb_proposer_address : bytes }.

(** [ExecTxResult] by its code and data *)
Record ResponseFinalizeBlock := mkFinalizeResponse {
  fr_tx_results : list (Z * bytes);
  fr_app_hash : bytes }.

Record ResponseInfo := mkInfo { ri_app_version : Z; ri_last_block_height : Z; ri_last_block_app_hash : bytes }.

Definition default_info : ResponseInfo := mkInfo 0 0 [].

(** [as u64] on an [i64] *)
Definition as_u64 (h : Z) : Z := h mod 2 ^ 64.

(** [PayloadBuilderError] of abci.rs *)
Inductive PayloadConfigError :=
| PayloadProviderError
| LatestHeaderDoesNotExist
| LatestBlockDoesNotExist
| ParentBlockDoesNotExist.

(** A handler has no errors; [OutOfFuel] is that of the payload builder's loop. *)
Inductive Unfinished := OutOfFuel.

(** Where a node dies while it writes a block. *)
Inductive Fault := NoFault | BeforeBotanixCommit | BetweenCommits.

(** What does not change while a node runs. *)
Record AbciConfig `{!PegLib} := mkAbciConfig {
  cf_is_fed_node : bool;
  cf_is_testnet : bool;
  cf_chain_id : Z;
  cf_block_fee_recipient_address : option Address;
  cf_chain_spec : BotanixChainSpec;
  cf_btc_network : Network;
  cf_epoch_length : Z;
  (** whether log lines at the level of warnings are computed *)
  cf_warn : bool;
  (** [nums_secp256k1_pk()] *)
  cf_nums : PublicKey;
  cf_genesis_authorities : list PublicKey;
  cf_authority : PublicKey }.

Section abci.
Context `{!PegLib, !BitcoinLib, !Profile, !MintLib, !CheckpointSource, !Evm, !EthLib, !RethLib, !NddLib, !NodeLib}.
Context `{!LruLib BlockWithContext}.

(** The block cache, the storage, the managers and the databases of a node. *)
Record AbciNode := mkAbciNode {
  an_manager : ActivationManager (gmap Address VoteEntry);
  an_cache : LruMap BlockWithContext;
  an_tracked_final : option bytes;
  an_aggregate_public_key : option (gmap Z PublicKey);
  an_checkpoints : BitcoinCheckpointsChain;
  an_reth : RethDb;
  an_staged : gmap bytes HeaderWithPegs;
  an_transitions : gmap Z RuntimeVersion }.

Definition set_an_manager (m : ActivationManager (gmap Address VoteEntry)) (s : AbciNode) : AbciNode :=
  mkAbciNode m (an_cache s) (an_tracked_final s) (an_aggregate_public_key s) (an_checkpoints s) (an_reth s)
    (an_staged s) (an_transitions s).
Definition set_an_cache (c : LruMap BlockWithContext) (s : AbciNode) : AbciNode :=
  mkAbciNode (an_manager s) c (an_tracked_final s) (an_aggregate_public_key s) (an_checkpoints s) (an_reth s)
    (an_staged s) (an_transitions s).
Definition set_an_tracked (t : option bytes) (s : AbciNode) : AbciNode :=
  mkAbciNode (an_manager s) (an_cache s) t (an_aggregate_public_key s) (an_checkpoints s) (an_reth s)
    (an_staged s) (an_transitions s).
Definition set_an_keys (k : option (gmap Z PublicKey)) (s : AbciNode) : AbciNode :=
  mkAbciNode (an_manager s) (an_cache s) (an_tracked_final s) k (an_checkpoints s) (an_reth s)
    (an_staged s) (an_transitions s).
Definition set_an_botanix (staged : gmap bytes HeaderWithPegs) (transitions : gmap Z RuntimeVersion) (s : AbciNode)
    : AbciNode :=
  mkAbciNode (an_manager s) (an_cache s) (an_tracked_final s) (an_aggregate_public_key s) (an_checkpoints s) (an_reth s)
    staged transitions.
Definition set_an_reth (db : RethDb) (s : AbciNode) : AbciNode :=
  mkAbciNode (an_manager s) (an_cache s) (an_tracked_final s) (an_aggregate_public_key s) (an_checkpoints s) db
    (an_staged s) (an_transitions s).

Abbreviation AH A := (M AbciNode Unfinished A).

Context (cf : AbciConfig).

(** ** Helpers of the client *)

Definition aggregate_public_key (multisig_id : MultisigId) (s : AbciNode) : outcome ConsensusError PublicKey :=
  let missing := InvalidAggregatedPublicKeyE MissingAggregatedPublicKey in
  match an_aggregate_public_key s with
  | Some pkeys => ok_or (pkeys !! as_u32 multisig_id) missing
  | None => Err missing
  end.

Definition bitcoin_blockhash (s : AbciNode) : outcome ConsensusError BlockHash :=
  let? checkpoint := ok_or (strong (an_checkpoints s)) MissingBitcoinCheckpoint in Ok (cp_hash checkpoint).

Definition application_hash (db : RethDb) : outcome ConsensusError bytes :=
  let? header := map_err (λ _, ConsensusOther) (latest_header db) in
  let? header := ok_or header LatestHeaderMissing in
  Ok (hash_slow header).

Definition non_deterministic_data (runtime_version : RuntimeVersion)
    (network_upgrade_payload : option NetworkUpgradePayload) (s : AbciNode) : outcome ConsensusError NonDeterministicData :=
  let? aggregate_public_key := aggregate_public_key LEGACY_MULTISIG_ID s in
  let? block_fee_recipient_address := ok_or (cf_block_fee_recipient_address cf) MissingBlockFeeRecipientAddress in
  let? hash := bitcoin_blockhash s in
  Ok (new_v2 hash aggregate_public_key block_fee_recipient_address runtime_version network_upgrade_payload).

Definition serialize_non_deterministic_data_to_bytes (ndd : NonDeterministicData) : outcome ConsensusError bytes :=
  Ndd_serialize ndd.

(** [panic!] on an error *)
Definition or_panic {E E' A} (o : outcome E A) : outcome E' A := expect (ok o).

(** [now] is the clock. *)
Definition validate_block (now : Z) (b : BlockWithContext) (s : AbciNode) : outcome Unfinished Z :=
  let reject {E} (e : E) : Z := VERIFY_REJECT in
  match validate_block_pre_execution (bc_header b) (bc_transactions b) with
  | Panic => Panic
  | Err e => Ok (reject e)
  | Ok _ =>
      match validate_header now (bc_header b) with
      | Panic => Panic
      | Err e => Ok (reject e)
      | Ok _ =>
          match aggregate_public_key LEGACY_MULTISIG_ID s with
          | Panic => Panic
          | Err e => Ok (reject e)
          | Ok agg_pk =>
              match validate_header_standalone (cf_nums cf) (bc_header b) (Some agg_pk) with
              | Panic => Panic
              | Err e => Ok (reject e)
              | Ok _ => Ok VERIFY_ACCEPTED
              end
          end
      end
  end.

(** The log line of a rejected proposal. *)
Definition log_rejection (txs_len : Z) (minus_ndd : bool) : AH unit :=
  if cf_warn cf then
    let! s := get in
    let! _ := lift (or_panic (application_hash (an_reth s))) in
    if minus_ndd then let! _ := lift (usub 64 txs_len 1) in ret tt else ret tt
  else ret tt.

Definition reject_proposal (txs_len : Z) (minus_ndd : bool) : AH Z :=
  log_rejection txs_len minus_ndd ;! ret VERIFY_REJECT.

(** [FixedBytes::<N>::from_slice] *)
Definition fixed_bytes (n : nat) (b : bytes) : AH bytes := if (length b =? n)%nat then ret b else panic.

(** The floor of the base fee of a runtime version that is supported. *)
Definition floor_base_fee_of (v : RuntimeVersion) : option (option Z) :=
  if bool_decide (v = RUNTIME_VERSION_V1) then Some None
  else if bool_decide (v = RUNTIME_VERSION_V2) then Some (Some FLOOR_BASE_FEE_PER_GAS_V2)
  else if bool_decide (v = RUNTIME_VERSION_V3) then Some (Some FLOOR_BASE_FEE_PER_GAS_V3)
  else None.

(** A call to the activation manager; [expect("db cannot fail")]. *)
Definition on_manager {A} (m : M (ActivationManager (gmap Address VoteEntry)) ProviderError A) : AH A :=
  λ s, match m (an_manager s) with
       | (m', Ok a) => (set_an_manager m' s, Ok a)
       | (m', _) => (set_an_manager m' s, Panic)
       end.

(** The version an accepted proposal is processed with; [None] is a rejection. *)
Definition floor_of_decision (d : OnProcessProposalDecision) : outcome Unfinished (option (option Z)) :=
  match d with
  | Process version _ => let? floor := expect (floor_base_fee_of version) in Ok (Some floor)
  | RejectBlock _ _ => Ok None
  end.

(** ** Proposals *)

(** The end of [process_proposal]: the block that was built is validated and
    cached. *)
Definition vote_on_block (now txs_len : Z) (cbft_block_hash : bytes) (built : outcome BuildError BlockWithContext)
    : AH Z :=
  match built with
  | Panic => panic
  | Err _ => reject_proposal txs_len true
  | Ok block_with_context =>
      let! s := get in
      let! verdict := lift (validate_block now block_with_context s) in
      if negb (verdict =? VERIFY_ACCEPTED) then reject_proposal txs_len true else
      modify (λ s, set_an_cache (lru_insert cbft_block_hash block_with_context (an_cache s)) s) ;!
      ret VERIFY_ACCEPTED
  end.

Definition process_proposal (now : Z) (request : RequestProcessProposal) : AH Z :=
  let txs_len := Z.of_nat (length (rp_txs request)) in
  let! s := get in
  match aggregate_public_key LEGACY_MULTISIG_ID s with
  | Panic => panic
  | Err _ => reject_proposal txs_len false
  | Ok agg_pk =>
  match rp_time request with
  | None => ret VERIFY_REJECT
  | Some block_time =>
  let! cbft_block_hash := fixed_bytes 32 (rp_hash request) in
  match rp_txs request with
  | [] => reject_proposal txs_len true
  | non_deterministic_data_bytes :: txs_bytes =>
  match (Ndd_deserialize non_deterministic_data_bytes).2 with
  | Panic => panic
  | Err _ => reject_proposal txs_len true
  | Ok ndd =>
  match ndd_block_fee_recipient_address ndd with
  | None => reject_proposal txs_len true
  | Some block_fee_recipient_address =>
  if negb (contains_by_hash (ndd_bitcoin_block_hash ndd) (an_checkpoints s)) then reject_proposal txs_len true else
  if negb (bool_decide (agg_pk = ndd_aggregated_public_key ndd)) then reject_proposal txs_len true else
  match transactions_signed_from_bytes txs_bytes with
  | Panic => panic
  | Err _ => reject_proposal txs_len true
  | Ok txs =>
  let comet_height := as_u64 (rp_height request) in
  let runtime_version := ndd_runtime_version ndd in
  let! decision := on_manager (on_process_proposal comet_height runtime_version) in
  let! floor := lift (floor_of_decision decision) in
  match floor with
  | None => ret VERIFY_REJECT
  | Some floor_base_fee_per_gas =>
  vote_on_block now txs_len cbft_block_hash
    (build_and_execute txs (cf_chain_spec cf) runtime_version (ndd_network_upgrade_payload ndd)
       floor_base_fee_per_gas block_fee_recipient_address (cf_btc_network cf) (ndd_bitcoin_block_hash ndd)
       agg_pk block_time (an_reth s))
  end end end end end end end.

(** ** Finalized blocks *)

(** A block that is not in the cache is built again. *)
Definition rebuild_block (request : RequestFinalizeBlock) (s : AbciNode) : outcome Unfinished BlockWithContext :=
  match fb_txs request with
  | [] => Panic
  | non_deterministic_data_bytes :: txs_bytes =>
      let? ndd := or_panic (Ndd_deserialize non_deterministic_data_bytes).2 in
      let? block_fee_recipient_address :=
        match ndd_block_fee_recipient_address ndd with
        | Some address => Ok address
        | None =>
            if cf_is_testnet cf then
              if (length (fb_proposer_address request) =? 20)%nat then Ok (fb_proposer_address request) else Panic
            else Panic
        end in
      let? block_time := expect (fb_time request) in
      let? txs := or_panic (transactions_signed_from_bytes txs_bytes) in
      let runtime_version := ndd_runtime_version ndd in
      let floor_base_fee_per_gas := default (Some FLOOR_BASE_FEE_PER_GAS_V3) (floor_base_fee_of runtime_version) in
      or_panic (build_and_execute txs (cf_chain_spec cf) runtime_version (ndd_network_upgrade_payload ndd)
                  floor_base_fee_per_gas block_fee_recipient_address (cf_btc_network cf)
                  (ndd_bitcoin_block_hash ndd) (ndd_aggregated_public_key ndd) block_time (an_reth s))
  end.

(** The cached block, or one that is built and cached. *)
Definition block_to_finalize (request : RequestFinalizeBlock) (cbft_block_hash : bytes) : AH BlockWithContext :=
  let! s := get in
  let '(cache, cached) := lru_get cbft_block_hash (an_cache s) in
  modify (set_an_cache cache) ;!
  match cached with
  | Some block_with_context => ret block_with_context
  | None =>
      let! block_with_context := lift (rebuild_block request s) in
      modify (λ s, set_an_cache (lru_insert cbft_block_hash block_with_context (an_cache s)) s) ;!
      ret block_with_context
  end.

(** An RPC node takes the aggregate key from block 1; one that it has stays. *)
Definition first_keys (b : BlockWithContext) (keys : option (gmap Z PublicKey))
    : outcome Unfinished (option (gmap Z PublicKey)) :=
  if negb (cf_is_fed_node cf) && (hd_number (bc_header b) =? 1) then
    let? edh := or_panic (deserialize_extra_data_header (eth_header (bc_header b))) in
    let key := as_u32 LEGACY_MULTISIG_ID in
    Ok (Some (match keys with
              | Some keys =>
                  match keys !! key with
                  | Some _ => keys
                  | None => <[key := aggregated_public_key edh]> keys
                  end
              | None => {[ key := aggregated_public_key edh ]}
              end))
  else Ok keys.

Definition store_first_key (b : BlockWithContext) : AH unit :=
  let! s := get in
  let! keys := lift (first_keys b (an_aggregate_public_key s)) in
  modify (set_an_keys keys).

(** [finalize_block] once it has the block. *)
Definition finalize_built (now : Z) (request : RequestFinalizeBlock) (non_deterministic_data_tx cbft_block_hash : bytes)
    (block_with_context : BlockWithContext) : AH ResponseFinalizeBlock :=
  let comet_height := as_u64 (fb_request_height request) in
  let! proposer_address := fixed_bytes 20 (fb_proposer_address request) in
  let! decision := on_manager (on_finalize_block (bc_runtime_version block_with_context) comet_height
                                 proposer_address (bc_network_upgrade_payload block_with_context)) in
  match decision with
  | RejectBlockDeadEnd _ => panic
  | Finalize _ =>
      let! _ := on_manager (get_upgrade_polling (Auth:=Address)) in
      modify (set_an_tracked (Some cbft_block_hash)) ;!
      store_first_key block_with_context ;!
      let! s := get in
      let! verdict := lift (validate_block now block_with_context s) in
      if verdict =? VERIFY_REJECT then panic else
      ret (mkFinalizeResponse
             ((SUCCESS, non_deterministic_data_tx) :: map (λ _, (SUCCESS, [])) (bc_transactions block_with_context))
             (hash_slow (bc_header block_with_context)))
  end.

Definition finalize_block (now : Z) (request : RequestFinalizeBlock) : AH ResponseFinalizeBlock :=
  match fb_txs request with
  | [] => panic
  | non_deterministic_data_tx :: _ =>
      let! cbft_block_hash := fixed_bytes 32 (fb_hash request) in
      let! block_with_context := block_to_finalize request cbft_block_hash in
      finalize_built now request non_deterministic_data_tx cbft_block_hash block_with_context
  end.

(** ** Commit *)

(** [insert_staged_header] and [remove_staged_header] of botanix-storage *)
Definition insert_staged_header (id : bytes) (header : HeaderWithPegs) (t : gmap bytes HeaderWithPegs)
    : gmap bytes HeaderWithPegs := <[id := header]> t.

Definition header_with_pegs {E} (b : BlockWithContext) (aggregate_public_keys : gmap Z PublicKey)
    : outcome E HeaderWithPegs :=
  let pegins := mjoin (map meta (bc_pegins b)) in
  let? staged_pegins := get_staged_pegins_from_pegin_meta pegins aggregate_public_keys in
  let staged_pegouts := get_staged_pegouts_from_pegout_data (bc_pegouts b) (hd_number (bc_header b)) in
  Ok (mkHeaderWithPegs staged_pegins staged_pegouts (bc_header b)).

(** The message [CommitBlock] of the driver.  A write that fails panics, or
    ends the driver and with it [commit]. *)
Definition drive_commit (fault : Fault) (b : BlockWithContext) : AH unit :=
  let! s := get in
  let! aggregate_public_keys := lift (expect (an_aggregate_public_key s)) in
  let! header_with_pegs := lift (header_with_pegs b aggregate_public_keys) in
  let '(transitions, _) :=
    insert_runtime_upgrade_version (E:=Unfinished) (hd_number (bc_header b)) (bc_runtime_version b) (an_transitions s) in
  match fault with
  | BeforeBotanixCommit => panic
  | _ =>
      modify (set_an_botanix (insert_staged_header (hash_slow (bc_header b)) header_with_pegs (an_staged s)) transitions) ;!
      match fault with
      | BetweenCommits => panic
      | _ =>
          let! db := lift (or_panic (append_block (bc_header b) (bc_transactions b) (bc_state b) (bc_receipts b)
                                       (bc_trie_updates b) (an_reth s))) in
          modify (set_an_reth db)
      end
  end.

Definition commit_block (fault : Fault) : AH unit :=
  let! s := get in
  modify (set_an_tracked None) ;!
  let! cbft_block_hash := lift (expect (an_tracked_final s)) in
  let '(cache, cached) := lru_remove cbft_block_hash (an_cache s) in
  modify (set_an_cache cache) ;!
  let! block := lift (expect cached) in
  drive_commit fault block.

(** ** The remaining handlers *)

(** [chain_id] is the parsed id of the request, [None] when it is no number. *)
Definition init_chain (chain_id : option Z) : AH bytes :=
  let! cometbft_chain_id := lift (expect chain_id) in
  if negb (cf_chain_id cf =? cometbft_chain_id) then panic else
  let! s := get in
  lift (or_panic (application_hash (an_reth s))).

(** [as i64] on a [u64] *)
Definition as_i64 (n : Z) : Z := let m := n mod 2 ^ 64 in if m <? 2 ^ 63 then m else m - 2 ^ 64.

Definition info : AH ResponseInfo :=
  let! s := get in
  match latest_header (an_reth s) with
  | Panic => panic
  | Err _ | Ok None => ret default_info
  | Ok (Some header) =>
      match application_hash (an_reth s) with
      | Panic => panic
      | Err _ => ret default_info
      | Ok last_block_app_hash => ret (mkInfo 1 (as_i64 (hd_number header)) last_block_app_hash)
      end
  end.

(** The code of the response *)
Definition check_tx : AH Z := ret 1.

(** ** Making a proposal *)

Section prepare.
Context `{!PayloadLib, !PoolLib, !TxEncoding}.

(** [now] is [unix_timestamp()]; the hash of the latest block and a random
    value, which the attributes do not keep, are left out. *)
Definition payload_builder_arguments (now : Z) (db : RethDb) : outcome PayloadConfigError (EvmHeader * PayloadAttributes) :=
  let? best_header := map_err (λ _, PayloadProviderError) (latest_header db) in
  let? best_header := ok_or best_header LatestHeaderDoesNotExist in
  let? best_block := map_err (λ _, PayloadProviderError) (latest_block db) in
  let? best_block := ok_or best_block LatestBlockDoesNotExist in
  let? parent_block := map_err (λ _, PayloadProviderError) (block_by_hash (hd_parent_hash best_header) db) in
  let? parent_block := ok_or parent_block ParentBlockDoesNotExist in
  Ok (best_header, mkAttributes now ZERO_ADDRESS None (hd_parent_beacon_block_root parent_block)).

(** The transactions of the payload, on [fuel] turns of its loop. *)
Definition payload_transactions (fuel : nat) (now max_tx_bytes : Z) (floor_base_fee : option Z) (pool : Pool)
    (db : RethDb) : outcome Unfinished (list EvmTx) :=
  let? '(best_header, attributes) := or_panic (payload_builder_arguments now db) in
  match default_ethereum_payload fuel (builder_for_next_block best_header attributes db)
          (best_transactions_with_attributes pool) (λ _, false) is_better_than_none attributes
          (Some max_tx_bytes) floor_base_fee with
  | None => Err OutOfFuel
  | Some (Ok (Better transactions _)) => Ok transactions
  | Some _ => Panic
  end.

Definition prepare_proposal (fuel : nat) (now : Z) (pool : Pool) (request : RequestPrepareProposal) : AH (list bytes) :=
  match pp_txs request with
  | _ :: _ => panic
  | [] =>
      let! block_time := lift (expect (pp_time request)) in
      let! max_tx_bytes := lift (if pp_max_tx_bytes request <? 0 then Panic else Ok (pp_max_tx_bytes request)) in
      let! decision := on_manager (on_prepare_proposal (Auth:=Address) (as_u64 (pp_height request))) in
      let! s := get in
      let! ndd := lift (or_panic (non_deterministic_data (pd_version decision) (pd_vote decision) s)) in
      let! floor_base_fee := lift (expect (floor_base_fee_of (pd_version decision))) in
      let! ndd_bytes := lift (or_panic (serialize_non_deterministic_data_to_bytes ndd)) in
      let len := Z.of_nat (length ndd_bytes) in
      if max_tx_bytes <? len then panic else
      let! max_tx_bytes := lift (usub 64 max_tx_bytes len) in
      if pool_size pool =? 0 then ret [ndd_bytes] else
      let! txs := lift (payload_transactions fuel now max_tx_bytes floor_base_fee pool (an_reth s)) in
      ret (ndd_bytes :: map encode_2718 txs)
  end.

End prepare.

(** ** The start of a node *)

(** The errors of [AuthorityConsensusBuilder::try_new] modelled here *)
Inductive StartError := FailedToRetrieveEpochHeader | FailedToFindSignerIndex | StartOutOfFuel.

(** The header of the latest epoch; [fuel] bounds how many blocks back it is. *)
Fixpoint epoch_header (fuel : nat) (h : EvmHeader) (db : RethDb) : outcome StartError EvmHeader :=
  if is_poa_epoch (hd_number h) (cf_epoch_length cf) then Ok h else
  match fuel with
  | O => Err StartOutOfFuel
  | S fuel =>
      match header_by_hash (hd_parent_hash h) db with
      | Panic => Panic
      | Err _ | Ok None => Err FailedToRetrieveEpochHeader
      | Ok (Some parent) => epoch_header fuel parent db
      end
  end.

(** The key that the header of the epoch gives. *)
Definition epoch_key (fuel : nat) (genesis : EvmHeader) (db : RethDb) : outcome StartError (option PublicKey) :=
  let? latest :=
    match latest_header db with
    | Panic => Panic
    | Ok (Some header) => Ok header
    | Ok None | Err _ => Ok genesis
    end in
  let? header := epoch_header fuel latest db in
  if 0 <? hd_number header then
    let? k := or_panic (get_aggregate_public_key (eth_header header)) in Ok (Some k)
  else Ok None.

(** The keys that the btc-server answers with are added, [None] for a call
    that fails; a node of the federation has a btc-server. *)
Definition starting_keys (fuel : nat) (genesis : EvmHeader) (server_keys : option (list (Z * PublicKey))) (db : RethDb)
    : outcome StartError (option (gmap Z PublicKey)) :=
  let? agg_pk := epoch_key fuel genesis db in
  let keys : option (gmap Z PublicKey) := (λ k, {[ as_u32 LEGACY_MULTISIG_ID := k ]}) <$> agg_pk in
  if cf_is_fed_node cf then
    if bool_decide (cf_authority cf ∈ cf_genesis_authorities cf) then
      let? server_keys := expect server_keys in
      match server_keys with
      | [] => Ok keys
      | _ => Ok (Some (foldl (λ m e, <[e.1 := e.2]> m) (default ∅ keys) server_keys))
      end
    else Err FailedToFindSignerIndex
  else Ok keys.

(** [configured] is the activation manager as its builder makes it. *)
Definition starting_manager (configured : ActivationManager (gmap Address VoteEntry)) (transitions : gmap Z RuntimeVersion)
    : ActivationManager (gmap Address VoteEntry) :=
  match transitions !! LATEST_RUNTIME_KEY with
  | Some version => (force_upgrade_checked version configured).1
  | None => configured
  end.

Definition start_node (fuel : nat) (genesis : EvmHeader) (server_keys : option (list (Z * PublicKey)))
    (configured : ActivationManager (gmap Address VoteEntry)) (checkpoints : BitcoinCheckpointsChain)
    (db : RethDb) (staged : gmap bytes HeaderWithPegs) (transitions : gmap Z RuntimeVersion)
    : outcome StartError AbciNode :=
  let? keys := starting_keys fuel genesis server_keys db in
  Ok (mkAbciNode (starting_manager configured transitions) (lru_new 5) None keys checkpoints db staged transitions).

End abci.
