(* ===== verification/AbciVotes.v ===== *)
(** * Voting for proposals

    What [process_proposal] of [Abci] accepts, and that what an honest
    proposer prepares is accepted by every node that agrees with it: the
    proposal data ([Ndd]), the activation manager ([Activation]), the Bitcoin
    checkpoints ([Checkpoint]) and the rules on blocks ([Build], [Consensus])
    fit together. *)

From S2P Require Import Prelude Bytes Bitcoin Codec Peg Edh Mint Execution Activation Checkpoint Jwt Rpc Ndd.
From S2P Require Import Consensus Payload NodeUtils Build Abci.
From stdpp Require Import strings.

Open Scope Z_scope.

Section votes.
Context `{!PegLib, !BitcoinLib, !Profile, !MintLib, !CheckpointSource, !Evm, !EthLib, !RethLib, !NddLib, !NodeLib}.
Context `{!LruLib BlockWithContext}.
Context (cf : AbciConfig).

(** What no handler of proposals changes. *)
Definition settled (s : AbciNode) :=
  (frame (an_manager s), an_tracked_final s, an_aggregate_public_key s, an_checkpoints s, an_reth s, an_staged s,
   an_transitions s).

Lemma on_manager_settled {A} (m : M (ActivationManager (gmap Address VoteEntry)) ProviderError A) :
  respects (keeps frame) m → respects (keeps settled) (on_manager m).
Proof.
  intros Hm s. unfold on_manager, keeps. specialize (Hm (an_manager s)). unfold keeps in Hm.
  unfold settled. destruct (m (an_manager s)) as [m' [a|e|]]; cbn in *; by rewrite Hm.
Qed.

Lemma log_rejection_state n b s : (log_rejection cf n b s).1 = s.
Proof.
  unfold log_rejection. destruct (cf_warn cf); [|done]. unfold bindM, get, lift.
  destruct (or_panic _) as [?|?|]; [|done..]. destruct b; [|done]. by destruct (usub _ _ _).
Qed.

Lemma reject_state n b s : (reject_proposal cf n b s).1 = s.
Proof.
  unfold reject_proposal, bindM. pose proof (log_rejection_state n b s) as Hl.
  by destruct (log_rejection cf n b s) as [s' [[]|e|]].
Qed.

Lemma reject_not_accepted n b s s' : reject_proposal cf n b s = (s', Ok VERIFY_ACCEPTED) → False.
Proof. unfold reject_proposal. intros (s1 & [] & _ & [=])%bindM_Ok. Qed.

(** ** What is accepted *)

Lemma process_same_version h v m m' v' c :
  on_process_proposal (Auth:=Address) h v m = (m', Ok (Process v' c)) → v' = v.
Proof.
  unfold on_process_proposal. intros (? & ? & [= <- <-] & Hrun)%bindM_Ok.
  destruct (upgrade m) as [u|].
  - apply bindM_Ok in Hrun as (m1 & conds & _ & Hrun).
    destruct (all_passing conds && bool_decide (v = nu_version u)) eqn:E.
    + apply andb_true_iff in E as [_ E%bool_decide_eq_true]. by injection Hrun as _ <- _.
    + case_bool_decide; [by injection Hrun as _ <- _|done].
  - case_bool_decide; [by injection Hrun as _ <- _|done].
Qed.

(** What a node checked of a request before it voted for it, and the block
    that it built of it. *)
Inductive voted_for (now : Z) (request : RequestProcessProposal) (s : AbciNode) (b : BlockWithContext) : Prop :=
| voted data encoded ndd recipient time txs floor m c
    (v_txs : rp_txs request = data :: encoded) (v_hash : length (rp_hash request) = 32%nat)
    (v_time : rp_time request = Some time)
    (v_data : (Ndd_deserialize data).2 = Ok ndd)
    (v_recipient : ndd_block_fee_recipient_address ndd = Some recipient)
    (v_checkpoint : contains_by_hash (ndd_bitcoin_block_hash ndd) (an_checkpoints s) = true)
    (v_key : aggregate_public_key LEGACY_MULTISIG_ID s = Ok (ndd_aggregated_public_key ndd))
    (v_decoded : transactions_signed_from_bytes encoded = Ok txs)
    (v_version : on_process_proposal (as_u64 (rp_height request)) (ndd_runtime_version ndd) (an_manager s) =
      (m, Ok (Process (ndd_runtime_version ndd) c)))
    (v_floor : floor_base_fee_of (ndd_runtime_version ndd) = Some floor)
    (v_built : build_and_execute txs (cf_chain_spec cf) (ndd_runtime_version ndd) (ndd_network_upgrade_payload ndd)
      floor recipient (cf_btc_network cf) (ndd_bitcoin_block_hash ndd) (ndd_aggregated_public_key ndd) time (an_reth s)
      = Ok b)
    (v_valid : validate_block cf now b s = Ok VERIFY_ACCEPTED) : voted_for now request s b.

Lemma vote_on_block_Ok now n hash o s s' :
  vote_on_block cf now n hash o s = (s', Ok VERIFY_ACCEPTED) →
  ∃ b, o = Ok b ∧ validate_block cf now b s = Ok VERIFY_ACCEPTED ∧
    s' = set_an_cache (lru_insert hash b (an_cache s)) s.
Proof.
  unfold vote_on_block. destruct o as [b|e|]; [|by intros ?%reject_not_accepted|done].
  intros (? & ? & [= <- <-] & Hrun)%bindM_Ok. apply bindM_Ok in Hrun as (? & v & Hv & Hrun).
  apply lift_Ok in Hv as [-> Hv]. destruct (Z.eqb_spec v VERIFY_ACCEPTED) as [->|]; cbn [negb] in Hrun.
  - apply bindM_Ok in Hrun as (? & [] & [= <-] & [= <-]). by exists b.
  - by apply reject_not_accepted in Hrun.
Qed.

Lemma on_manager_Ok {A} (m : M (ActivationManager (gmap Address VoteEntry)) ProviderError A) s s' a :
  on_manager m s = (s', Ok a) ↔ ∃ m', m (an_manager s) = (m', Ok a) ∧ s' = set_an_manager m' s.
Proof.
  unfold on_manager. destruct (m (an_manager s)) as [m' [x|e|]]; split; naive_solver.
Qed.

Lemma process_proposal_Ok now request s s' :
  process_proposal cf now request s = (s', Ok VERIFY_ACCEPTED) →
  ∃ b m', voted_for now request s b ∧ frame m' = frame (an_manager s) ∧
    s' = set_an_cache (lru_insert (rp_hash request) b (an_cache s)) (set_an_manager m' s).
Proof.
  unfold process_proposal. intros (? & ? & [= <- <-] & Hrun)%bindM_Ok.
  destruct (aggregate_public_key _ s) as [k|e|] eqn:Hk; [|by apply reject_not_accepted in Hrun|done].
  destruct (rp_time request) as [time|] eqn:Htime; [|done].
  apply bindM_Ok in Hrun as (? & hash & Hhash & Hrun). unfold fixed_bytes in Hhash.
  destruct (Nat.eqb_spec (length (rp_hash request)) 32) as [Hlen|]; [|done]. injection Hhash as <- <-.
  destruct (rp_txs request) as [|data encoded] eqn:Htxs; [by apply reject_not_accepted in Hrun|].
  destruct (Ndd_deserialize data).2 as [ndd|e|] eqn:Hndd; [|by apply reject_not_accepted in Hrun|done].
  destruct (ndd_block_fee_recipient_address ndd) as [recipient|] eqn:Hr; [|by apply reject_not_accepted in Hrun].
  destruct (contains_by_hash _ _) eqn:Hcp; cbn [negb] in Hrun; [|by apply reject_not_accepted in Hrun].
  case_bool_decide as Hkey; cbn [negb] in Hrun; [subst k|by apply reject_not_accepted in Hrun].
  destruct (transactions_signed_from_bytes encoded) as [txs|e|] eqn:Hdec; [|by apply reject_not_accepted in Hrun|done].
  apply bindM_Ok in Hrun as (s1 & d & Hd & Hrun). apply on_manager_Ok in Hd as (m' & Hd & ->).
  apply bindM_Ok in Hrun as (? & floor & Hfloor & Hrun). apply lift_Ok in Hfloor as [-> Hfloor].
  destruct floor as [floor|]; [|done]. destruct d as [v c|]; [|done]. cbn [floor_of_decision] in Hfloor.
  apply obind_Ok in Hfloor as (fl & Hfl%expect_Ok & [= ->]).
  pose proof (process_same_version _ _ _ _ _ _ Hd) as ->.
  apply vote_on_block_Ok in Hrun as (b & Hb & Hv & ->).
  pose proof (on_process_proposal_frame (Auth:=Address) (as_u64 (rp_height request)) (ndd_runtime_version ndd)
    (an_manager s)) as Hf. rewrite Hd in Hf.
  exists b, m'. split; [by eapply voted|]. by split.
Qed.

(** C24.  A node votes for a proposal only after it has checked everything
    ([voted_for]): the proposal data names the node's own aggregate key, a
    Bitcoin block of its window and a fee recipient, every transaction decodes,
    and the block built of them passes the rules of consensus.  The block's
    runtime version is the active one, or the tracked upgrade at a height where
    it activates.  The block it voted for is cached under the hash of the
    request; the databases, the keys, the window and the manager's version and
    upgrade stay as they are. *)
Theorem process_proposal_sound `{!LruLaws BlockWithContext} now request s s' :
  manager_wf (an_manager s) →
  process_proposal cf now request s = (s', Ok VERIFY_ACCEPTED) →
  ∃ b, voted_for now request s b ∧
    (bc_runtime_version b = active_version (an_manager s) ∨
     ∃ u, upgrade (an_manager s) = Some u ∧ bc_runtime_version b = nu_version u ∧
       activates u (as_u64 (rp_height request)) (Activation.client (an_manager s))) ∧
    lru_peek (rp_hash request) (an_cache s') = Some b ∧ settled s' = settled s.
Proof.
  intros Hwf (b & m' & Hv & Hf & ->)%process_proposal_Ok. exists b. split; [done|]. split_and!.
  - destruct Hv as [data encoded ndd recipient time txs floor m c].
    destruct (build_and_execute_carries _ _ _ _ _ _ _ _ _ _ _ _ v_built) as (_ & -> & _).
    pose proof (on_process_proposal_runs (λ s m, s = m) (an_manager s) _ (as_u64 (rp_height request))
      (ndd_runtime_version ndd) Hwf eq_refl) as Hr.
    unfold runs in Hr. rewrite v_version in Hr. destruct Hr as (_ & _ & [[_ Hr]|[[? [=]] _]]). exact Hr.
  - cbn. apply insert_peek.
  - unfold settled. cbn. by rewrite Hf.
Qed.

(** The block in the cache after a vote is the one that was voted for. *)
Lemma voted_block `{!LruLaws BlockWithContext} now request s s' b :
  process_proposal cf now request s = (s', Ok VERIFY_ACCEPTED) → lru_peek (rp_hash request) (an_cache s') = Some b →
  voted_for now request s b.
Proof.
  intros (b' & m' & Hv & _ & ->)%process_proposal_Ok. cbn. rewrite insert_peek. by intros [= ->].
Qed.

(** What a Bitcoin block hash and an address read from a proposal are. *)
Lemma read_ndd_arrays (tx_wf : Transaction → Prop) `{!PegLaws tx_wf, !NddLaws} data ndd recipient :
  (Ndd_deserialize data).2 = Ok ndd → ndd_block_fee_recipient_address ndd = Some recipient →
  is_array 32 (ndd_bitcoin_block_hash ndd) ∧ length recipient = 20%nat.
Proof.
  intros Hr Hrec. destruct (Ndd_deserialize data) as [rest o] eqn:E. cbn [snd] in Hr. subst o.
  assert (yields Ndd_deserialize (λ n, is_array 32 (ndd_bitcoin_block_hash n) ∧
    ∀ r, ndd_block_fee_recipient_address n = Some r → length r = 20%nat)) as Hy; [|destruct (Hy _ _ _ E); auto].
  unfold Ndd_deserialize, ndd_decode.
  eapply yields_bind; [by apply yields_map_err, (yields_codec array32_c (is_array 32))|]. intros hash Hh.
  eapply yields_bind; [apply yields_any|]. intros pkb _.
  eapply yields_bind; [apply yields_any|]. intros pk _.
  eapply yields_bind; [apply yields_any|]. intros v _.
  assert (yields read_address (λ a, length a = 20%nat)) as Haddr by apply yields_map_err, yields_read_slice.
  destruct (v =? VERSION_0); [by apply yields_ret|].
  destruct (v =? VERSION_1).
  { eapply yields_bind; [exact Haddr|]. intros a Hl. eapply yields_bind; [apply yields_any|]. intros v2 _.
    destruct (default _ _). apply yields_ret. cbn. split; [done|]. by intros ? [= <-]. }
  destruct (v =? VERSION_2).
  { eapply yields_bind; [exact Haddr|]. intros a Hl. eapply yields_bind; [apply yields_any|]. intros [v2 p2] _.
    apply yields_ret. cbn. split; [done|]. by intros ? [= <-]. }
  by intros s1 s2 x [=].
Qed.

(** C3.  No mint without a deposit: every pegin of a block that a node voted
    for, with transactions of different hashes, is backed by deposits whose proofs are valid under a checkpoint, that
    of the block's own consensus package or of the block the proofs refer to,
    and are made to the node's own aggregate key; and every pegout is of a
    transaction of the block, once. *)
Theorem voted_mints_are_backed (tx_wf : Transaction → Prop)
    `{!LruLaws BlockWithContext, !PegLaws tx_wf, !NddLaws, !EthLaws, !EvmLaws} now request s s' b :
  process_proposal cf now request s = (s', Ok VERIFY_ACCEPTED) → lru_peek (rp_hash request) (an_cache s') = Some b →
  NoDup (map tx_hash (bc_transactions b)) →
  voted_for now request s b ∧ ∃ pkg, botanix_consensus_package (eth_header (bc_header b)) (cf_btc_network cf) = Ok pkg ∧
    aggregate_public_key LEGACY_MULTISIG_ID s = Ok (Edh.aggregate_public_key pkg) ∧
    Forall (λ d, ∃ cp vs, backed (H4:=referenced_blocks (an_reth s)) (cf_btc_network cf) pkg d cp vs) (bc_pegins b) ∧
    Forall (λ p, pid_txid (po_id p) ∈ map tx_hash (bc_transactions b)) (bc_pegouts b) ∧
    NoDup (map po_id (bc_pegouts b)).
Proof.
  intros Hrun Hpeek Hnd. pose proof (voted_block _ _ _ _ _ Hrun Hpeek) as Hv. split; [done|].
  destruct Hv as [data encoded ndd recipient time txs floor m c].
  destruct (read_ndd_arrays tx_wf _ _ _ v_data v_recipient) as [Hc Ha].
  pose proof (build_and_execute_built tx_wf _ _ _ _ _ _ _ _ _ _ _ _ Hc Ha v_built) as Hb.
  rewrite (bu_transactions _ _ _ _ _ _ _ _ Hb) in *.
  destruct (built_pegs tx_wf _ _ _ _ _ _ _ _ Hc Ha Hb Hnd) as (pkg & Hp & Hk & Hrest).
  exists pkg. rewrite Hk. split_and!; [done|done|apply Hrest..].
Qed.

End votes.

Lemma runs_errless `{Countable Auth} {S : Type} `{!VoteStore Auth S} (view : S → gmap Auth VoteEntry → Prop) {A}
    (call : M (ActivationManager S) ProviderError A) s m m' P :
  runs view call s m m' P → errless call →
  ∃ s' a, call s = (s', Ok a) ∧ view (Activation.client s') m' ∧ frame s' = frame s ∧ P a.
Proof.
  unfold runs. intros Hr He. specialize (He s). destruct (call s) as [s' [a|e|]]; [|by destruct (He e)|done].
  exists s', a. by destruct Hr as (? & ? & ?).
Qed.

Lemma bind_step {S E A B} (m : M S E A) (k : A → M S E B) s s' a : m s = (s', Ok a) → bindM m k s = k a s'.
Proof. intros Hm. unfold bindM. by rewrite Hm. Qed.

(** ** Proposals of honest nodes *)

Section honest.
Context `{!PegLib, !BitcoinLib, !Profile, !MintLib, !CheckpointSource, !Evm, !EthLib, !RethLib, !NddLib, !NodeLib}.
Context `{!LruLib BlockWithContext, !PayloadLib, !PoolLib, !TxEncoding}.
Context (tx_wf : Transaction → Prop) `{!PegLaws tx_wf, !NddLaws, !EthLaws, !EvmLaws, !TxEncodingLaws, !LruLaws BlockWithContext}.

(** Two nodes that follow the same chain: the key, the upgrade and the votes
    are the same, and the proposer's checkpoint is in the other's window. *)
Record agree (a b : AbciNode) : Prop := {
  ag_key : aggregate_public_key LEGACY_MULTISIG_ID a = aggregate_public_key LEGACY_MULTISIG_ID b;
  ag_version : active_version (an_manager a) = active_version (an_manager b);
  ag_upgrade : option_Forall2 same_terms (upgrade (an_manager a)) (upgrade (an_manager b));
  ag_votes : Activation.client (an_manager a) = Activation.client (an_manager b);
  ag_window : ∀ cp, strong (an_checkpoints a) = Some cp → contains_by_hash (cp_hash cp) (an_checkpoints b) = true }.

(** The versions and hashes that a node works with have their widths. *)
Record node_wf (s : AbciNode) : Prop := {
  nw_manager : manager_wf (an_manager s);
  nw_active : version_wf (active_version (an_manager s));
  nw_upgrade : ∀ u, upgrade (an_manager s) = Some u → version_wf (nu_version u);
  nw_checkpoint : ∀ cp, strong (an_checkpoints s) = Some cp → is_array 32 (cp_hash cp) }.

Lemma decode_encoded txs : transactions_signed_from_bytes (map encode_2718 txs) = Ok txs.
Proof.
  unfold transactions_signed_from_bytes. apply omap_all_Ok. apply Forall2_fmap_l, Forall_Forall2_diag.
  apply Forall_forall. intros tx _. apply decode_encode_2718.
Qed.

(** What a prepared proposal consists of. *)
Lemma prepare_proposal_Ok cf fuel now pool request a a' txs :
  prepare_proposal cf fuel now pool request a = (a', Ok txs) →
  ∃ d m' k recipient cp floor data eth,
    on_prepare_proposal (as_u64 (pp_height request)) (an_manager a) = (m', Ok d) ∧
    aggregate_public_key LEGACY_MULTISIG_ID a = Ok k ∧ cf_block_fee_recipient_address cf = Some recipient ∧
    strong (an_checkpoints a) = Some cp ∧ floor_base_fee_of (pd_version d) = Some floor ∧
    Ndd_serialize (E:=ConsensusError) (new_v2 (cp_hash cp) k recipient (pd_version d) (pd_vote d)) = Ok data ∧
    Z.of_nat (length data) ≤ pp_max_tx_bytes request ∧
    txs = data :: map encode_2718 eth ∧ a' = set_an_manager m' a.
Proof.
  unfold prepare_proposal. destruct (pp_txs request); [|done].
  intros (? & time & Ht & Hrun)%bindM_Ok. apply lift_Ok in Ht as [-> _].
  apply bindM_Ok in Hrun as (? & max & Hmax & Hrun). apply lift_Ok in Hmax as [-> Hmax].
  destruct (Z.ltb_spec (pp_max_tx_bytes request) 0); [done|]. injection Hmax as <-.
  apply bindM_Ok in Hrun as (s1 & d & Hd & Hrun). apply on_manager_Ok in Hd as (m' & Hd & ->).
  apply bindM_Ok in Hrun as (? & ? & [= <- <-] & Hrun).
  apply bindM_Ok in Hrun as (? & ndd & Hn & Hrun). apply lift_Ok in Hn as [-> Hn%expect_Ok].
  apply bindM_Ok in Hrun as (? & floor & Hf & Hrun). apply lift_Ok in Hf as [-> Hf%expect_Ok].
  apply bindM_Ok in Hrun as (? & data & Hdata & Hrun). apply lift_Ok in Hdata as [-> Hdata%expect_Ok].
  destruct (non_deterministic_data _ _ _ _) as [n|e|] eqn:En; [|done..]. injection Hn as ->.
  destruct (serialize_non_deterministic_data_to_bytes ndd) as [dt|e|] eqn:Ed; [|done..]. injection Hdata as ->.
  unfold non_deterministic_data, bitcoin_blockhash in En. apply obind_Ok in En as (k & Hk & En).
  apply obind_Ok in En as (recipient & Hr%ok_or_Ok & En). apply obind_Ok in En as (hash & Hh & [= <-]).
  apply obind_Ok in Hh as (cp & Hcp%ok_or_Ok & [= <-]).
  destruct (Z.ltb_spec (pp_max_tx_bytes request) (Z.of_nat (length data))); [done|].
  apply bindM_Ok in Hrun as (? & max & Hsub & Hrun). apply lift_Ok in Hsub as [-> _].
  assert (∃ eth, txs = data :: map encode_2718 eth ∧ a' = set_an_manager m' a) as (eth & -> & ->).
  { destruct (pool_size pool =? 0); [injection Hrun as <- <-; by exists []|].
    apply bindM_Ok in Hrun as (? & eth & He & [= <- <-]). apply lift_Ok in He as [-> _]. by exists eth. }
  exists d, m', k, recipient, cp, floor, data, eth. by split_and!.
Qed.

(** ** Built blocks are valid *)

(** What the code that builds a block takes for granted of the chain: the
    merge is past, and the parent has a base fee and, under Cancun, a root of
    the beacon chain. *)
Record chain_ready (b : BlockWithContext) : Prop := {
  cr_paris : is_paris_active_at_block (hd_number (bc_header b)) = true;
  cr_base_fee : is_Some (hd_base_fee_per_gas (bc_header b));
  cr_beacon_root : is_cancun_active_at_timestamp (hd_timestamp (bc_header b)) = true →
    is_Some (hd_parent_beacon_block_root (bc_header b)) }.

Definition blobs_under_cancun (b : BlockWithContext) : bool :=
  is_cancun_active_at_timestamp (hd_timestamp (bc_header b)) && negb (body_blob_gas (bc_transactions b) =? 0).

Lemma validate_built cf now s txs spec network checkpoint k recipient db b :
  is_array 32 checkpoint → length recipient = 20%nat → built txs spec network checkpoint k recipient db b →
  aggregate_public_key LEGACY_MULTISIG_ID s = Ok k → k ≠ cf_nums cf → chain_ready b →
  validate_block cf now b s = Ok (if blobs_under_cancun b then VERIFY_REJECT else VERIFY_ACCEPTED).
Proof.
  intros Hc Ha Hb Hk Hnums [Hp Hf Hr]. unfold validate_block.
  destruct (built_header_passes tx_wf (cf_nums cf) now _ _ _ _ _ _ _ _ Hb Hc Ha Hnums Hp Hf Hr) as [-> Hs].
  pose proof (built_body_passes _ _ _ _ _ _ _ _ Hb) as Hbody. pose proof (bu_transactions _ _ _ _ _ _ _ _ Hb) as Ht.
  rewrite Hk, Hs. unfold blobs_under_cancun. rewrite Ht in *.
  destruct (is_cancun_active_at_timestamp _); cbn [andb].
  - destruct (Z.eqb_spec (body_blob_gas txs) 0) as [Hz|Hz]; cbn [negb].
    + by rewrite (proj2 Hbody) by auto.
    + destruct (validate_block_pre_execution _ txs) as [[]|e|] eqn:E; [|done|].
      * by destruct (proj1 Hbody eq_refl).
      * by destruct (pre_execution_total _ _ E).
  - by rewrite (proj2 Hbody) by auto.
Qed.

(** ** From a proposal to a vote *)

Lemma process_proposal_reaches cf now request s data encoded ndd recipient time txs floor m c :
  rp_txs request = data :: encoded → length (rp_hash request) = 32%nat → rp_time request = Some time →
  (Ndd_deserialize data).2 = Ok ndd → ndd_block_fee_recipient_address ndd = Some recipient →
  contains_by_hash (ndd_bitcoin_block_hash ndd) (an_checkpoints s) = true →
  aggregate_public_key LEGACY_MULTISIG_ID s = Ok (ndd_aggregated_public_key ndd) →
  transactions_signed_from_bytes encoded = Ok txs →
  on_process_proposal (as_u64 (rp_height request)) (ndd_runtime_version ndd) (an_manager s) =
    (m, Ok (Process (ndd_runtime_version ndd) c)) →
  floor_base_fee_of (ndd_runtime_version ndd) = Some floor →
  process_proposal cf now request s =
    vote_on_block cf now (Z.of_nat (length (rp_txs request))) (rp_hash request)
      (build_and_execute txs (cf_chain_spec cf) (ndd_runtime_version ndd) (ndd_network_upgrade_payload ndd) floor recipient
         (cf_btc_network cf) (ndd_bitcoin_block_hash ndd) (ndd_aggregated_public_key ndd) time (an_reth s))
      (set_an_manager m s).
Proof.
  intros Htxs Hlen Ht Hn Hr Hc Hk Hd Hp Hf. unfold process_proposal. rewrite (bind_step _ _ s s s) by done.
  rewrite Hk, Ht. unfold fixed_bytes. rewrite Hlen. cbn [Nat.eqb].
  rewrite (bind_step _ _ s s (rp_hash request)) by done. rewrite Htxs, Hn, Hr, Hc. cbn [negb].
  rewrite bool_decide_true by done. cbn [negb]. rewrite Hd.
  erewrite bind_step by (apply on_manager_Ok; by exists m).
  rewrite (bind_step _ _ _ (set_an_manager m s) (Some floor)); [done|].
  unfold lift, floor_of_decision. by rewrite Hf.
Qed.

Lemma vote_on_valid cf now n hash b s :
  validate_block cf now b s = Ok VERIFY_ACCEPTED →
  vote_on_block cf now n hash (Ok b) s = (set_an_cache (lru_insert hash b (an_cache s)) s, Ok VERIFY_ACCEPTED).
Proof. intros Hv. unfold vote_on_block, bindM, get, lift, modify, ret. by rewrite Hv. Qed.

(** The data that a proposer writes has its widths. *)
Lemma proposed_versions h m m' d :
  on_prepare_proposal (Auth:=Address) h m = (m', Ok d) →
  version_wf (active_version m) → (∀ u, upgrade m = Some u → version_wf (nu_version u)) →
  version_wf (pd_version d) ∧ ∀ x, pd_vote d = Some x → payload_wf x.
Proof.
  unfold on_prepare_proposal. intros (? & ? & [= <- <-] & Hrun)%bindM_Ok Ha Hu.
  destruct (upgrade m) as [u|]; [|by injection Hrun as _ <-]. specialize (Hu u eq_refl).
  apply bindM_Ok in Hrun as (? & [] & _ & Hrun). apply bindM_Ok in Hrun as (? & c & _ & Hrun).
  destruct (all_passing c); injection Hrun as _ <-; cbn; (split; [done|]); by intros ? [= <-].
Qed.

(** C11.  What an honest node proposes, every node that follows the same chain
    votes for: the proposal data is read back as it was written, the version
    is judged as it was chosen, and the block that the voter builds of the
    transactions is valid, when it executes at all and carries no blobs. *)
Theorem honest_proposals_are_accepted cfA cfB fuel now now' pool request a a' txs b vote time :
  node_wf a → node_wf b → agree a b →
  (∀ r, cf_block_fee_recipient_address cfA = Some r → is_array 20 r) →
  aggregate_public_key LEGACY_MULTISIG_ID b ≠ Ok (cf_nums cfB) →
  prepare_proposal cfA fuel now pool request a = (a', Ok txs) →
  rp_txs vote = txs → rp_height vote = pp_height request → length (rp_hash vote) = 32%nat → rp_time vote = Some time →
  ∃ data ndd eth recipient floor, txs = data :: map encode_2718 eth ∧
    (Ndd_deserialize data).2 = Ok ndd ∧ ndd_block_fee_recipient_address ndd = Some recipient ∧
    floor_base_fee_of (ndd_runtime_version ndd) = Some floor ∧
    ∀ blk, build_and_execute eth (cf_chain_spec cfB) (ndd_runtime_version ndd) (ndd_network_upgrade_payload ndd) floor
             recipient (cf_btc_network cfB) (ndd_bitcoin_block_hash ndd) (ndd_aggregated_public_key ndd) time (an_reth b)
             = Ok blk →
      chain_ready blk → blobs_under_cancun blk = false →
      ∃ b', process_proposal cfB now' vote b = (b', Ok VERIFY_ACCEPTED) ∧ voted_for cfB now' vote b blk ∧
        lru_peek (rp_hash vote) (an_cache b') = Some blk.
Proof.
  intros Ha Hb Hag Hrec Hnums Hprep <- Hh Hlen Htime.
  apply prepare_proposal_Ok in Hprep as
    (d & m' & k & recipient & cp & floor & data & eth & Hd & Hk & Hr & Hcp & Hf & Hdata & _ & Htxs & _).
  destruct (proposed_versions _ _ _ _ Hd (nw_active _ Ha) (nw_upgrade _ Ha)) as [Hv Hvote].
  specialize (Hrec _ Hr). pose proof (nw_checkpoint _ Ha _ Hcp) as Hcp32.
  destruct (parses_new_v2 (E:=ConsensusError) tx_wf (cp_hash cp) k recipient (pd_version d) (pd_vote d) Hcp32 Hrec Hv Hvote)
    as (data' & Hdata' & Hread). rewrite Hdata in Hdata'. injection Hdata' as <-.
  specialize (Hread []). rewrite app_nil_r in Hread.
  (* the voter's manager *)
  pose proof (on_process_proposal_runs (λ s m, s = m) (an_manager b) _ (as_u64 (rp_height vote)) (pd_version d)
    (nw_manager _ Hb) eq_refl) as Hp.
  apply runs_errless in Hp as (mb & dec & Hp & _ & _ & Hj); [|apply on_process_proposal_errless].
  pose proof (on_prepare_proposal_runs (λ s m, s = m) (an_manager a) _ (as_u64 (pp_height request))
    (nw_manager _ Ha) eq_refl) as HA.
  unfold runs in HA. rewrite Hd in HA. destruct HA as (_ & _ & HA).
  assert (∃ c, dec = Process (pd_version d) c) as [c ->].
  { destruct Hj as [[Hj _]|(_ & Hne & Hno)]; [done|]. exfalso. pose proof (ag_version _ _ Hag) as Hact.
    pose proof (ag_upgrade _ _ Hag) as Hup. destruct HA as [[Hv' _]|(u & Hu & Hv' & Hact')]; [congruence|].
    rewrite Hu in Hup. inversion Hup as [? u' Hterms Hu1 Hu2|]; subst. apply (Hno u'); [done| |].
    - rewrite Hv'. apply Hterms.
    - rewrite Hh, <-(ag_votes _ _ Hag). by apply (same_terms_activates u). }
  exists data, (new_v2 (cp_hash cp) k recipient (pd_version d) (pd_vote d)), eth, recipient, floor.
  split_and!; [done|by rewrite Hread|done|done|]. cbn [new_v2 ndd_runtime_version ndd_network_upgrade_payload
    ndd_bitcoin_block_hash ndd_aggregated_public_key]. intros blk Hblk Hready Hblobs.
  pose proof (ag_key _ _ Hag) as Hkey. rewrite Hk in Hkey. symmetry in Hkey.
  assert (validate_block cfB now' blk b = Ok VERIFY_ACCEPTED) as Hvalid.
  { pose proof (build_and_execute_built tx_wf _ _ _ _ _ _ _ _ _ _ _ _ Hcp32 (proj1 Hrec) Hblk) as Hbuilt.
    rewrite (validate_built cfB now' b _ _ _ _ _ _ _ _ Hcp32 (proj1 Hrec) Hbuilt Hkey) by (done || congruence).
    by rewrite Hblobs. }
  assert (voted_for cfB now' vote b blk) as Hvoted.
  { eapply voted; try done; [by rewrite Hread|done|..]; cbn; try done.
    - by apply (ag_window _ _ Hag).
    - apply decode_encoded. }
  eexists. split; [|split; [exact Hvoted|]].
  - erewrite process_proposal_reaches by
      (exact Htxs || exact Hlen || exact Htime || (rewrite Hread; reflexivity) || reflexivity
       || exact (ag_window _ _ Hag _ Hcp) || exact Hkey || apply decode_encoded || exact Hp || exact Hf).
    cbn [new_v2 ndd_runtime_version ndd_network_upgrade_payload ndd_bitcoin_block_hash ndd_aggregated_public_key].
    rewrite Hblk. by apply vote_on_valid.
  - cbn. apply insert_peek.
Qed.

(** No node votes for a block whose transactions carry blobs once Cancun
    is active, although the builder of payloads puts blob transactions into
    proposals. *)
Theorem no_votes_for_blobs cf now request s b :
  voted_for cf now request s b → aggregate_public_key LEGACY_MULTISIG_ID s ≠ Ok (cf_nums cf) → chain_ready b →
  blobs_under_cancun b = false.
Proof.
  intros [data encoded ndd recipient time txs floor m c] Hnums Hready.
  destruct (read_ndd_arrays tx_wf _ _ _ v_data v_recipient) as [Hc Ha].
  pose proof (build_and_execute_built tx_wf _ _ _ _ _ _ _ _ _ _ _ _ Hc Ha v_built) as Hb.
  rewrite (validate_built cf now s _ _ _ _ _ _ _ _ Hc Ha Hb v_key) in v_valid by (done || congruence).
  by destruct (blobs_under_cancun b).
Qed.

(** ** When a proposal is made *)

Lemma errless_lift {S E A} (o : outcome E A) : (∀ e, o ≠ Err e) → errless (lift (S:=S) o).
Proof. intros Ho s e. apply Ho. Qed.

Lemma errless_expect {S E A} (o : option A) : errless (lift (S:=S) (expect (E:=E) o)).
Proof. apply errless_lift. by destruct o. Qed.

Lemma errless_on_manager {A} (m : M (ActivationManager (gmap Address VoteEntry)) ProviderError A) : errless (on_manager m).
Proof. intros s e. unfold on_manager. by destruct (m (an_manager s)) as [m' []]. Qed.

(** What the code relies on of the builder: limits of 63 bits. *)
Definition builder_limits : Prop :=
  (∀ h attributes db builder, builder_for_next_block h attributes db = Ok builder → 0 ≤ builder_gas_limit builder < 2 ^ 63) ∧
  (∀ t n, max_blob_count_at t = Some n → 0 ≤ n < 2 ^ 63).

Lemma payload_transactions_finish `{!PayloadLaws} fuel now max floor pool db e :
  builder_limits → (∀ base_fee blob_fee, (best_size (best_transactions_with_attributes pool base_fee blob_fee) < fuel)%nat) →
  payload_transactions fuel now max floor pool db ≠ Err e.
Proof.
  intros [Hgas Hblob] Hfuel. unfold payload_transactions, or_panic.
  destruct (payload_builder_arguments now db) as [[h attributes]|e'|]; [|done..]. cbn [ok expect obind].
  unfold default_ethereum_payload. destruct (builder_for_next_block h attributes db) as [builder|e'|] eqn:Eb; [|done..].
  destruct (builder_pre_execution builder) as [b|] eqn:Ep; [|done].
  assert (0 ≤ default 0 (max_blob_count_at (at_timestamp attributes)) < 2 ^ 63) as Hmax.
  { destruct (max_blob_count_at _) as [n|] eqn:En; [by eapply Hblob|done]. }
  set (s := mkPayloadState _ _ _ _ _ _).
  destruct (payload_loop _ _ _ _ fuel _ s) as [[[s1|]|e'|]|] eqn:El; try done.
  - destruct (negb _); [done|]. by destruct (map_err _ _) as [?|?|].
  - exfalso. revert El. apply payload_loop_returns; [by eapply Hgas|exact Hmax| |apply Hfuel].
    pose proof (Hgas _ _ _ _ Eb). split; cbn; rewrite ?(pre_execution_empty _ _ Ep); cbn; lia.
Qed.

(** [prepare_proposal] ends: with fuel for every transaction that the
    pool offers it returns a proposal or panics. *)
Theorem prepare_proposal_finishes `{!PayloadLaws} cf fuel now pool request :
  builder_limits → (∀ base_fee blob_fee, (best_size (best_transactions_with_attributes pool base_fee blob_fee) < fuel)%nat) →
  ∀ s e, (prepare_proposal cf fuel now pool request s).2 ≠ Err e.
Proof.
  intros Hlim Hfuel. change (errless (prepare_proposal cf fuel now pool request)). unfold prepare_proposal.
  destruct (pp_txs request); [|apply errless_panic].
  apply errless_bind; [apply errless_expect|]. intros time.
  apply errless_bind; [apply errless_lift; by destruct (_ <? _)|]. intros max.
  apply errless_bind; [apply errless_on_manager|]. intros d. apply errless_get. intros s.
  apply errless_bind; [apply errless_expect|]. intros ndd. apply errless_bind; [apply errless_expect|]. intros floor.
  apply errless_bind; [apply errless_expect|]. intros data. destruct (_ <? _); [apply errless_panic|].
  apply errless_bind; [apply errless_lift; unfold usub; by repeat case_match|]. intros max'.
  destruct (_ =? _); [apply errless_ret|].
  apply errless_bind; [|intros ?; apply errless_ret]. apply errless_lift. intros e. by apply payload_transactions_finish.
Qed.

(** Until its first block is committed a chain takes no transactions: a
    proposer whose latest block is that of genesis, which has no parent, makes
    no proposal as soon as its pool is not empty. *)
Theorem genesis_takes_no_transactions cf fuel now pool request s genesis :
  latest_header (an_reth s) = Ok (Some genesis) → block_by_hash (hd_parent_hash genesis) (an_reth s) = Ok None →
  pool_size pool ≠ 0 → ∀ s' txs, prepare_proposal cf fuel now pool request s ≠ (s', Ok txs).
Proof.
  intros Hl Hp Hpool s' txs Hrun. unfold prepare_proposal in Hrun. destruct (pp_txs request); [|done].
  apply bindM_Ok in Hrun as (? & time & Ht & Hrun). apply lift_Ok in Ht as [-> _].
  apply bindM_Ok in Hrun as (? & max & Hmax & Hrun). apply lift_Ok in Hmax as [-> _].
  apply bindM_Ok in Hrun as (s1 & d & Hd & Hrun). apply on_manager_Ok in Hd as (m' & _ & ->).
  apply bindM_Ok in Hrun as (? & ? & [= <- <-] & Hrun).
  apply bindM_Ok in Hrun as (? & ndd & Hn & Hrun). apply lift_Ok in Hn as [-> _].
  apply bindM_Ok in Hrun as (? & floor & Hf & Hrun). apply lift_Ok in Hf as [-> _].
  apply bindM_Ok in Hrun as (? & data & Hdata & Hrun). apply lift_Ok in Hdata as [-> _].
  destruct (_ <? _); [done|]. apply bindM_Ok in Hrun as (? & max' & Hsub & Hrun). apply lift_Ok in Hsub as [-> _].
  rewrite (proj2 (Z.eqb_neq _ _) Hpool) in Hrun. apply bindM_Ok in Hrun as (? & eth & He & _).
  apply lift_Ok in He as [_ He]. unfold payload_transactions, payload_builder_arguments in He.
  cbn [an_reth set_an_manager] in He. rewrite Hl in He. cbn [map_err ok_or obind] in He.
  destruct (latest_block (an_reth s)) as [[best|]|e|]; [|done..]. cbn [map_err ok_or obind] in He.
  by rewrite Hp in He.
Qed.

End honest.
