(* ===== verification/AbciReplay.v ===== *)
(** * Finalizing, committing and starting again

    Of the handlers of [Abci]: that a block taken from the cache is the block
    that would be built again; that a node that dies while it commits a block
    and is started again ends with the same databases when CometBFT replays the
    block, as the comment in [ABCIDriver::start] claims; and which key a node
    finds when it starts. *)

From S2P Require Import Prelude Bytes Bitcoin Codec Peg Edh Mint Execution Activation Checkpoint Jwt Rpc Ndd.
From S2P Require Import Consensus Payload NodeUtils Build Abci AbciVotes.
From stdpp Require Import strings.

Open Scope Z_scope.

(** ** The activation manager across a restart *)

Section managers.
Implicit Types (m : ActivationManager (gmap Address VoteEntry)) (v : RuntimeVersion).

(** The versions whose blocks a manager finalizes. *)
Definition finalizes m v : Prop :=
  version_le v (active_version m) = true ∨
  ∃ u, upgrade m = Some u ∧ v = nu_version u ∧ nu_is_compliant u = true.

Lemma on_finalize_iff m v h (a : Address) p :
  (∃ m' w, on_finalize_block (Auth:=Address) v h a p m = (m', Ok (Finalize w))) ↔ finalizes m v.
Proof.
  pose proof (on_finalize_block_spec (Auth:=Address) (λ c w, c = w) m _ v h a p eq_refl) as Hs.
  pose proof (on_finalize_block_errless (Auth:=Address) v h a p m) as He. unfold finalized in Hs. unfold finalizes.
  destruct (on_finalize_block v h a p m) as [m' [d|e|]]; [|by destruct (He e)|done].
  destruct Hs as [Hs _]. destruct (version_le v (active_version m)).
  { destruct Hs as [-> _]. split; [by left|]. by exists m', v. }
  destruct (upgrade m) as [u|].
  2:{ destruct Hs as [-> _]. split; [by intros (? & ? & [=])|]. by intros [[=]|(? & [=] & _)]. }
  case_bool_decide as Hv.
  - destruct (nu_is_compliant u) eqn:Ec; destruct Hs as [-> _].
    + split; [|by exists m', v]. intros _. right. by exists u.
    + split; [by intros (? & ? & [=])|]. intros [[=]|(? & [= <-] & _ & ?)]. congruence.
  - destruct Hs as [-> _]. split; [by intros (? & ? & [=])|]. by intros [[=]|(? & [= <-] & ? & _)].
Qed.

Lemma polling_runs m : ∃ p, get_upgrade_polling (Auth:=Address) m = (m, Ok p).
Proof.
  pose proof (upgrade_polling_adds_up (Auth:=Address) (λ c w, c = w) m _ eq_refl) as Hs.
  pose proof (get_upgrade_polling_errless (Auth:=Address) m) as He.
  destruct (get_upgrade_polling m) as [m' [[[v p]|]|e|]]; [..|by destruct (He e)|done].
  - destruct Hs as ([= Hr Ha Hu] & Hc & _). exists (Some (v, p)). f_equal.
    destruct m, m'; cbn in *. by subst.
  - destruct Hs as [_ ->]. by exists None.
Qed.

(** A running manager is as it was configured, or it has been through its
    upgrade, which the history of versions records. *)
Definition follows (configured m : ActivationManager (gmap Address VoteEntry)) (t : gmap Z RuntimeVersion) : Prop :=
  (active_version m = active_version configured ∧ upgrade m = upgrade configured) ∨
  (∃ u, upgrade configured = Some u ∧ nu_is_compliant u = true ∧ active_version m = nu_version u ∧
     upgrade m = None ∧ t !! LATEST_RUNTIME_KEY = Some (nu_version u)).

Lemma version_le_refl v : version_le v v = true.
Proof. rewrite version_le_spec. lia. Qed.

Definition record_version (h : Z) v (t : gmap Z RuntimeVersion) : gmap Z RuntimeVersion :=
  (insert_runtime_upgrade_version (E:=Unfinished) h v t).1.

Lemma record_version_idem h v t : record_version h v (record_version h v t) = record_version h v t.
Proof.
  unfold record_version, insert_runtime_upgrade_version, bindM, get, modify, ret. cbn.
  destruct (match t !! LATEST_RUNTIME_KEY with Some _ => _ | None => _ end) eqn:E; cbn; [|by rewrite E].
  assert (<[h:=v]> (<[LATEST_RUNTIME_KEY:=v]> t) !! LATEST_RUNTIME_KEY = Some v) as ->.
  { destruct (decide (h = LATEST_RUNTIME_KEY)) as [->|]; [apply lookup_insert_eq|].
    rewrite lookup_insert_ne by done. apply lookup_insert_eq. }
  by rewrite version_le_refl.
Qed.

Lemma record_version_old h v w t :
  t !! LATEST_RUNTIME_KEY = Some w → version_le v w = true → record_version h v t = t.
Proof.
  intros Ht Hle. unfold record_version, insert_runtime_upgrade_version, bindM, get, ret. cbn.
  by rewrite Ht, Hle.
Qed.

(** After a restart the node finalizes what it would have finalized. *)
Lemma restart_finalizes configured m t t' h v :
  manager_wf configured → follows configured m t → finalizes m v → t' = t ∨ t' = record_version h v t →
  finalizes (starting_manager configured t') v.
Proof.
  intros Hwf Hfol Hfin Ht'. unfold starting_manager, force_upgrade_checked, force_check.
  destruct Hfol as [[Ha Hu]|(u & Hu & Hc & Ha & Hn & Hl)].
  - assert (finalizes configured v) as Hconf.
    { unfold finalizes in *. by rewrite Ha, Hu in Hfin. }
    destruct (t' !! LATEST_RUNTIME_KEY) as [w|]; [|done].
    destruct (upgrade configured) as [u|] eqn:Eu; [|done]. case_bool_decide as Hw; [|done]. subst w.
    destruct (nu_is_compliant u); cbn [andb fst]; [|done]. left. cbn.
    destruct Hconf as [Hle|(u' & Hu' & -> & _)].
    + destruct (Hwf u Eu) as [Hlt _]. rewrite version_le_spec in *. rewrite version_lt_spec in Hlt. lia.
    + rewrite Eu in Hu'. injection Hu' as <-. apply version_le_refl.
  - destruct Hfin as [Hle|(u' & Hu' & _)]; [|congruence]. rewrite Ha in Hle.
    assert (t' !! LATEST_RUNTIME_KEY = Some (nu_version u)) as ->.
    { destruct Ht' as [->| ->]; [done|]. by rewrite (record_version_old _ _ (nu_version u)). }
    rewrite Hu, bool_decide_true, Hc by done. by left.
Qed.

End managers.

(** ** Finalizing *)

Section finalize.
Context `{!PegLib, !BitcoinLib, !Profile, !MintLib, !CheckpointSource, !Evm, !EthLib, !RethLib, !NddLib, !NodeLib}.
Context `{!LruLib BlockWithContext, !LruLaws BlockWithContext}.
Context (cf : AbciConfig).

(** A request that CometBFT finalizes after it was voted on. *)
Definition same_block (request : RequestProcessProposal) (final : RequestFinalizeBlock) : Prop :=
  fb_txs final = rp_txs request ∧ fb_hash final = rp_hash request ∧ fb_time final = rp_time request.

Lemma voted_rebuild now request s b final s' :
  voted_for cf now request s b → same_block request final → an_reth s' = an_reth s → rebuild_block cf final s' = Ok b.
Proof.
  intros [data encoded ndd recipient time txs floor m c] (Htxs & _ & Ht) Hdb.
  unfold rebuild_block. rewrite Htxs, v_txs, v_data. cbn [or_panic ok expect obind].
  rewrite v_recipient. cbn [obind]. rewrite Ht, v_time. cbn [expect obind]. rewrite v_decoded. cbn [or_panic ok expect obind].
  rewrite v_floor, Hdb. cbn [default from_option id]. by rewrite v_built.
Qed.

Lemma rebuild_results final s b :
  rebuild_block cf final s = Ok b → length (bc_transactions b) = pred (length (fb_txs final)) ∧ fb_txs final ≠ [].
Proof.
  unfold rebuild_block. destruct (fb_txs final) as [|data encoded]; [done|].
  intros (ndd & _ & Hrun)%obind_Ok. apply obind_Ok in Hrun as (recipient & _ & Hrun).
  apply obind_Ok in Hrun as (time & _ & Hrun). apply obind_Ok in Hrun as (txs & Htxs%expect_Ok & Hrun).
  apply expect_Ok in Hrun. destruct (build_and_execute _ _ _ _ _ _ _ _ _ _ _) as [b'|e|] eqn:E; [|done..].
  injection Hrun as ->. apply build_and_execute_carries in E as (-> & _).
  destruct (transactions_signed_from_bytes encoded) as [l|e|] eqn:Et; [|done..]. injection Htxs as ->.
  apply omap_all_Ok, Forall2_length in Et. split; [cbn; lia|done].
Qed.

(** What [finalize_built] does, when it succeeds. *)
Record finalized_as (now : Z) (final : RequestFinalizeBlock) (hash : bytes) (b : BlockWithContext) (s s' : AbciNode)
    : Prop := {
  fa_proposer : length (fb_proposer_address final) = 20%nat;
  fa_manager : ∃ w, on_finalize_block (bc_runtime_version b) (as_u64 (fb_request_height final))
    (fb_proposer_address final) (bc_network_upgrade_payload b) (an_manager s) = (an_manager s', Ok (Finalize w));
  fa_keys : first_keys cf b (an_aggregate_public_key s) = Ok (an_aggregate_public_key s');
  fa_valid : ∃ v, validate_block cf now b s' = Ok v ∧ v ≠ VERIFY_REJECT;
  fa_state : s' = set_an_keys (an_aggregate_public_key s') (set_an_tracked (Some hash) (set_an_manager (an_manager s') s)) }.

Definition response_of (data : bytes) (b : BlockWithContext) : ResponseFinalizeBlock :=
  mkFinalizeResponse ((SUCCESS, data) :: map (λ _, (SUCCESS, [])) (bc_transactions b)) (hash_slow (bc_header b)).

Lemma validate_block_keys now b s s' :
  an_aggregate_public_key s = an_aggregate_public_key s' → validate_block cf now b s = validate_block cf now b s'.
Proof. intros Hk. unfold validate_block, aggregate_public_key. by rewrite Hk. Qed.

(** Past the merge the clock does not matter. *)
Lemma validate_block_clock now now' b s :
  is_paris_active_at_block (hd_number (bc_header b)) = true → validate_block cf now b s = validate_block cf now' b s.
Proof. intros Hp. unfold validate_block, validate_header, validate_header_inner. by rewrite Hp. Qed.

Lemma finalize_built_iff now final data hash b s s' resp :
  finalize_built cf now final data hash b s = (s', Ok resp) ↔
  finalized_as now final hash b s s' ∧ resp = response_of data b.
Proof.
  unfold finalize_built. rewrite bindM_Ok. unfold fixed_bytes at 1. split.
  - intros (? & proposer & Hp & Hrun). destruct (Nat.eqb_spec (length (fb_proposer_address final)) 20) as [Hlen|]; [|done].
    injection Hp as <- <-. apply bindM_Ok in Hrun as (? & d & Hd & Hrun). apply on_manager_Ok in Hd as (m1 & Hd & ->).
    destruct d as [w|w]; [|done]. apply bindM_Ok in Hrun as (? & polls & Hpolls & Hrun).
    apply on_manager_Ok in Hpolls as (m2 & Hpolls & ->).
    change (an_manager (set_an_manager m1 s)) with m1 in Hpolls.
    destruct (polling_runs m1) as [p Hp]. rewrite Hp in Hpolls. injection Hpolls as <- <-.
    apply bindM_Ok in Hrun as (? & [] & [= <-] & Hrun). apply bindM_Ok in Hrun as (s1 & [] & Hkey & Hrun).
    unfold store_first_key in Hkey. apply bindM_Ok in Hkey as (? & ? & [= <- <-] & Hkey).
    apply bindM_Ok in Hkey as (? & keys & Hkeys & [= <-]). apply lift_Ok in Hkeys as [-> Hkeys].
    apply bindM_Ok in Hrun as (? & ? & [= <- <-] & Hrun). apply bindM_Ok in Hrun as (? & v & Hv & Hrun).
    apply lift_Ok in Hv as [-> Hv]. destruct (Z.eqb_spec v VERIFY_REJECT); [done|]. injection Hrun as <- <-.
    split; [|done]. split; [done| | |by exists v|done]; [by exists w|exact Hkeys].
  - intros [[Hp [w Hm] Hk [v [Hv Hne]] Hs] ->]. rewrite Hp. cbn [Nat.eqb].
    exists s, (fb_proposer_address final). split; [done|].
    rewrite (bind_step _ _ s (set_an_manager (an_manager s') s) (Finalize w))
      by (apply on_manager_Ok; by exists (an_manager s')).
    destruct (polling_runs (an_manager s')) as [p Hpoll].
    rewrite (bind_step _ _ _ (set_an_manager (an_manager s') s) p)
      by (apply on_manager_Ok; exists (an_manager s'); split; [exact Hpoll|by destruct s]).
    unfold bindM at 1, modify at 1. unfold bindM at 1, store_first_key, bindM at 1, get at 1. cbn [an_aggregate_public_key set_an_tracked set_an_manager].
    unfold bindM at 1, lift at 1. rewrite Hk. unfold modify at 1. rewrite <-Hs.
    unfold bindM at 1, get at 1. unfold bindM, lift. rewrite Hv. by rewrite (proj2 (Z.eqb_neq v VERIFY_REJECT)).
Qed.

(** The rest of a handler does not look at the cache. *)
Lemma finalized_as_cache now final hash b s s' c :
  finalized_as now final hash b s s' → finalized_as now final hash b (set_an_cache c s) (set_an_cache c s').
Proof.
  intros [Hp Hm Hk [v [Hv Hne]] Hs]. split; [done|exact Hm|exact Hk| |].
  - exists v. split; [|done]. by rewrite (validate_block_keys now b _ s').
  - cbn. rewrite Hs at 1. done.
Qed.

Lemma block_to_finalize_hit final s hash b :
  lru_peek hash (an_cache s) = Some b →
  ∃ c, block_to_finalize cf final hash s = (set_an_cache c s, Ok b) ∧ lru_peek hash c = Some b.
Proof.
  intros Hp. unfold block_to_finalize, bindM, get, modify, ret.
  pose proof (get_result hash (an_cache s)) as Hr. pose proof (get_peek hash hash (an_cache s)) as Hg.
  destruct (lru_get hash (an_cache s)) as [c o]. cbn in *. subst o. rewrite Hp in *. by exists c.
Qed.

Lemma block_to_finalize_miss final s hash b :
  lru_peek hash (an_cache s) = None → rebuild_block cf final s = Ok b →
  ∃ c, block_to_finalize cf final hash s = (set_an_cache c s, Ok b) ∧ lru_peek hash c = Some b.
Proof.
  intros Hp Hb. unfold block_to_finalize, bindM, get, modify, ret, lift.
  pose proof (get_result hash (an_cache s)) as Hr.
  destruct (lru_get hash (an_cache s)) as [c o]. cbn in *. subst o. rewrite Hp, Hb. eexists. split; [reflexivity|].
  apply insert_peek.
Qed.

(** The block that is finalized: the one of the cache or the one built again. *)
Definition final_block (final : RequestFinalizeBlock) (s : AbciNode) (b : BlockWithContext) : Prop :=
  rebuild_block cf final s = Ok b ∧
  (lru_peek (fb_hash final) (an_cache s) = None ∨ lru_peek (fb_hash final) (an_cache s) = Some b).

Lemma finalize_block_iff now final s s' resp b :
  final_block final s b →
  finalize_block cf now final s = (s', Ok resp) ↔
  ∃ c data rest, fb_txs final = data :: rest ∧ length (fb_hash final) = 32%nat ∧ resp = response_of data b ∧
    lru_peek (fb_hash final) c = Some b ∧ block_to_finalize cf final (fb_hash final) s = (set_an_cache c s, Ok b) ∧
    finalized_as now final (fb_hash final) b (set_an_cache c s) s'.
Proof.
  intros [Hb Hp]. unfold finalize_block. destruct (fb_txs final) as [|data rest] eqn:Htxs.
  { split; [done|]. by intros (? & ? & ? & [=] & _). }
  assert (∃ c, block_to_finalize cf final (fb_hash final) s = (set_an_cache c s, Ok b) ∧
    lru_peek (fb_hash final) c = Some b) as (c & Hc & Hpeek).
  { destruct Hp as [Hp|Hp]; [by apply block_to_finalize_miss|by apply block_to_finalize_hit]. }
  rewrite bindM_Ok. unfold fixed_bytes at 1. split.
  - intros (? & hash & Hh & Hrun). destruct (Nat.eqb_spec (length (fb_hash final)) 32) as [Hlen|]; [|done].
    injection Hh as <- <-. rewrite (bind_step _ _ _ _ _ Hc) in Hrun. apply finalize_built_iff in Hrun as [Hf ->].
    by exists c, data, rest.
  - intros (c' & data' & rest' & [= <- <-] & -> & -> & _ & Hc' & Hf). exists s, (fb_hash final). split; [done|].
    rewrite (bind_step _ _ _ _ _ Hc'). by apply finalize_built_iff.
Qed.

Lemma finalized_as_peek now final hash b s s' : finalized_as now final hash b s s' → an_cache s' = an_cache s.
Proof. intros [_ _ _ _ Hs]. by rewrite Hs. Qed.

(** Finalizing with another cache. *)
Lemma finalize_other_cache now final s s' resp b c :
  final_block final s b → final_block final (set_an_cache c s) b →
  finalize_block cf now final s = (s', Ok resp) →
  ∃ c', finalize_block cf now final (set_an_cache c s) = (set_an_cache c' s', Ok resp) ∧
    lru_peek (fb_hash final) (an_cache s') = Some b ∧ lru_peek (fb_hash final) c' = Some b.
Proof.
  intros Hb Hbc Hf. apply (finalize_block_iff _ _ _ _ _ b Hb) in Hf as
    (c1 & data & rest & Htxs & Hlen & -> & Hpeek & _ & Hf).
  assert (∃ c2, block_to_finalize cf final (fb_hash final) (set_an_cache c s) = (set_an_cache c2 s, Ok b) ∧
    lru_peek (fb_hash final) c2 = Some b) as (c2 & Hrun & Hpeek2).
  { destruct Hbc as [Hr [Hp|Hp]].
    - destruct (block_to_finalize_miss final _ _ b Hp Hr) as (c2 & ? & ?). by exists c2.
    - destruct (block_to_finalize_hit final _ _ b Hp) as (c2 & ? & ?). by exists c2. }
  exists c2. split_and!; [|by rewrite (finalized_as_peek _ _ _ _ _ _ Hf)|done].
  apply (finalize_block_iff _ _ _ _ _ b Hbc). exists c2, data, rest. split_and!; try done.
  apply (finalized_as_cache _ _ _ _ _ _ c2) in Hf. exact Hf.
Qed.

(** C20.  Finalizing a block from the cache and building it again is the same:
    after a vote for a request, and as long as the database of blocks has not
    moved, the node answers the final request for the same block in the same
    way, and ends in the same state up to the cache, whether the cache still
    holds the block or has lost it.  The answer has one result per transaction
    of the request and the hash of the block that was voted for. *)
Theorem cached_block_is_rebuilt now now' request s0 s0' b final s c :
  process_proposal cf now request s0 = (s0', Ok VERIFY_ACCEPTED) → lru_peek (rp_hash request) (an_cache s0') = Some b →
  same_block request final → an_reth s = an_reth s0 →
  lru_peek (fb_hash final) (an_cache s) = Some b → lru_peek (fb_hash final) c = None →
  (∀ s1 resp, finalize_block cf now' final s = (s1, Ok resp) →
    length (fr_tx_results resp) = length (fb_txs final) ∧ fr_app_hash resp = hash_slow (bc_header b) ∧
    ∃ c', finalize_block cf now' final (set_an_cache c s) = (set_an_cache c' s1, Ok resp) ∧
      lru_peek (fb_hash final) (an_cache s1) = Some b ∧ lru_peek (fb_hash final) c' = Some b) ∧
  (∀ s2 resp, finalize_block cf now' final (set_an_cache c s) = (s2, Ok resp) →
    ∃ c', finalize_block cf now' final s = (set_an_cache c' s2, Ok resp)).
Proof.
  intros Hrun Hcached Hsame Hdb Hhit Hmiss. pose proof (voted_block _ _ _ _ _ _ Hrun Hcached) as Hv.
  assert (rebuild_block cf final s = Ok b) as Hr by (by eapply voted_rebuild).
  assert (final_block final s b) as Hb1 by (split; [done|by right]).
  assert (final_block final (set_an_cache c s) b) as Hb2 by (split; [exact Hr|by left]).
  split.
  - intros s1 resp Hf. destruct (finalize_other_cache _ _ _ _ _ _ c Hb1 Hb2 Hf) as (c' & Hf' & Hpeek).
    apply (finalize_block_iff _ _ _ _ _ b Hb1) in Hf as (c1 & data & rest & Htxs & _ & -> & _).
    destruct (rebuild_results _ _ _ Hr) as [Hlen _]. split_and!; [|done|by exists c'].
    unfold response_of. cbn. rewrite length_map, Hlen, Htxs. done.
  - intros s2 resp Hf. assert (set_an_cache (an_cache s) (set_an_cache c s) = s) as Hs by (by destruct s).
    rewrite <-Hs in Hb1. destruct (finalize_other_cache _ _ _ _ _ _ (an_cache s) Hb2 Hb1 Hf) as (c' & Hf' & _).
    exists c'. by rewrite Hs in Hf'.
Qed.

End finalize.

(** ** Committing and dying *)

Section replay.
Context `{!PegLib, !BitcoinLib, !Profile, !MintLib, !CheckpointSource, !Evm, !EthLib, !RethLib, !NddLib, !NodeLib}.
Context `{!LruLib BlockWithContext, !LruLaws BlockWithContext}.
Context (cf : AbciConfig).

(** The databases of a node. *)
Definition databases (s : AbciNode) : RethDb * gmap bytes HeaderWithPegs * gmap Z RuntimeVersion :=
  (an_reth s, an_staged s, an_transitions s).

(** What [commit] writes of the block [b], and what a crash leaves of it. *)
Definition written (fault : Fault) (b : BlockWithContext) (hp : HeaderWithPegs) (db : RethDb) (s : AbciNode)
    : RethDb * gmap bytes HeaderWithPegs * gmap Z RuntimeVersion :=
  let staged := insert_staged_header (hash_slow (bc_header b)) hp (an_staged s) in
  let transitions := record_version (hd_number (bc_header b)) (bc_runtime_version b) (an_transitions s) in
  match fault with
  | NoFault => (db, staged, transitions)
  | BeforeBotanixCommit => databases s
  | BetweenCommits => (an_reth s, staged, transitions)
  end.

Lemma commit_block_runs fault s hash b keys hp db :
  an_tracked_final s = Some hash → lru_peek hash (an_cache s) = Some b →
  an_aggregate_public_key s = Some keys → header_with_pegs (E:=Unfinished) b keys = Ok hp →
  append_block (bc_header b) (bc_transactions b) (bc_state b) (bc_receipts b) (bc_trie_updates b) (an_reth s) = Ok db →
  ∃ s', commit_block fault s = (s', match fault with NoFault => Ok tt | _ => Panic end) ∧
    databases s' = written fault b hp db s.
Proof.
  intros Ht Hp Hk Hh Ha. unfold commit_block, bindM, get, modify, lift. rewrite Ht. cbn [expect].
  pose proof (remove_result hash (an_cache s)) as Hr. destruct (lru_remove hash (an_cache s)) as [c o].
  cbn in Hr. subst o. rewrite Hp. cbn [expect]. unfold drive_commit, bindM, get, modify, lift.
  cbn [an_aggregate_public_key set_an_cache set_an_tracked an_transitions an_staged an_reth set_an_botanix].
  rewrite Hk. cbn [expect]. rewrite Hh. unfold written, databases, record_version.
  destruct (insert_runtime_upgrade_version _ _ _) as [t o]. cbn [fst].
  destruct fault; cbn; [rewrite Ha|..]; by eexists.
Qed.

Lemma commit_block_Ok s s' hash b :
  an_tracked_final s = Some hash → lru_peek hash (an_cache s) = Some b → commit_block NoFault s = (s', Ok tt) →
  ∃ keys hp db, an_aggregate_public_key s = Some keys ∧ header_with_pegs (E:=Unfinished) b keys = Ok hp ∧
    append_block (bc_header b) (bc_transactions b) (bc_state b) (bc_receipts b) (bc_trie_updates b) (an_reth s) = Ok db ∧
    databases s' = written NoFault b hp db s.
Proof.
  intros Ht Hp. unfold commit_block, bindM, get, modify, lift. rewrite Ht. cbn [expect].
  pose proof (remove_result hash (an_cache s)) as Hr. destruct (lru_remove hash (an_cache s)) as [c o].
  cbn in Hr. subst o. rewrite Hp. cbn [expect]. unfold drive_commit, bindM, get, modify, lift.
  cbn [an_aggregate_public_key set_an_cache set_an_tracked an_transitions an_staged an_reth set_an_botanix].
  destruct (an_aggregate_public_key s) as [keys|]; [|done]. cbn [expect].
  destruct (header_with_pegs b keys) as [hp|e|] eqn:Eh; [|done..].
  unfold written, record_version. destruct (insert_runtime_upgrade_version _ _ _) as [t o]. cbn [fst].
  destruct (append_block _ _ _ _ _ _) as [db|e|]; [|done..]. intros [= <-]. by exists keys, hp, db.
Qed.

(** Writing a block again after a crash gives what one write gives. *)
Lemma write_again fault b hp db s s' :
  fault ≠ NoFault → databases s' = written fault b hp db s → written NoFault b hp db s' = written NoFault b hp db s.
Proof.
  intros Hf. unfold databases, written, insert_staged_header. destruct fault; [done| |]; intros [= _ -> ->]; [done|].
  by rewrite insert_insert_eq, record_version_idem.
Qed.

(** C5.  A crash does not fork a node: when a node dies while it commits a
    block, before either database is written or between the two writes, and
    CometBFT replays the block to the node that was started again, the node
    gives the answer it gave before and its three databases end as if it had
    not died.  The keys it finds at the start have to be those it had. *)
Theorem crash_and_replay now now' fault fuel genesis server_keys configured checkpoints final s b s1 resp s2 s3 o :
  manager_wf configured → follows configured (an_manager s) (an_transitions s) →
  final_block cf final s b → is_paris_active_at_block (hd_number (bc_header b)) = true →
  starting_keys cf fuel genesis server_keys (an_reth s) = Ok (an_aggregate_public_key s) →
  finalize_block cf now final s = (s1, Ok resp) → commit_block NoFault s1 = (s2, Ok tt) →
  fault ≠ NoFault → commit_block fault s1 = (s3, o) →
  ∃ r r1 r2,
    start_node cf fuel genesis server_keys configured checkpoints (an_reth s3) (an_staged s3) (an_transitions s3) = Ok r ∧
    finalize_block cf now' final r = (r1, Ok resp) ∧ commit_block NoFault r1 = (r2, Ok tt) ∧
    databases r2 = databases s2.
Proof.
  intros Hwf Hfol Hb Hparis Hkeys Hf Hc Hfault Hdie. pose proof Hb as [Hrebuild _].
  apply (finalize_block_iff _ _ _ _ _ _ b Hb) in Hf as (c & data & rest & Htxs & Hlen & -> & Hpeek & _ & Hf).
  pose proof Hf as [Hprop [w Hman] Hfirst [v [Hvalid Hv]] Hs1].
  assert (an_tracked_final s1 = Some (fb_hash final) ∧ an_cache s1 = c ∧ an_reth s1 = an_reth s ∧
    an_staged s1 = an_staged s ∧ an_transitions s1 = an_transitions s) as (Ht1 & Hc1 & Hr1 & Hst1 & Htr1)
    by (by rewrite Hs1).
  assert (lru_peek (fb_hash final) (an_cache s1) = Some b) as Hp1 by (by rewrite Hc1).
  apply (commit_block_Ok _ _ _ _ Ht1 Hp1) in Hc as (keys & hp & db & Hk1 & Hh & Ha & Hw).
  destruct (commit_block_runs fault _ _ _ _ _ _ Ht1 Hp1 Hk1 Hh Ha) as (s3' & Hdie' & Hw3).
  rewrite Hdie in Hdie'. injection Hdie' as <- _.
  assert (an_reth s3 = an_reth s) as Hr3.
  { unfold databases, written in Hw3. destruct fault; [done| |]; injection Hw3 as -> _ _; exact Hr1. }
  assert (an_transitions s3 = an_transitions s ∨ an_transitions s3 =
    record_version (hd_number (bc_header b)) (bc_runtime_version b) (an_transitions s)) as Ht3.
  { unfold databases, written in Hw3. destruct fault; [done| |]; injection Hw3 as _ _ ->; rewrite Htr1; auto. }
  unfold start_node. rewrite Hr3, Hkeys. cbn [obind]. eexists _.
  set (r := mkAbciNode (starting_manager configured (an_transitions s3)) (lru_new 5) None (an_aggregate_public_key s)
    checkpoints (an_reth s) (an_staged s3) (an_transitions s3)).
  assert (final_block cf final r b) as Hbr by (split; [exact Hrebuild|left; apply peek_new]).
  assert (∃ m w, on_finalize_block (bc_runtime_version b) (as_u64 (fb_request_height final)) (fb_proposer_address final)
    (bc_network_upgrade_payload b) (an_manager r) = (m, Ok (Finalize w))) as (m & w' & Hm).
  { apply on_finalize_iff. eapply restart_finalizes; [done|exact Hfol| |exact Ht3].
    apply (on_finalize_iff _ _ (as_u64 (fb_request_height final)) (fb_proposer_address final)
      (bc_network_upgrade_payload b)). by exists (an_manager s1), w. }
  destruct (block_to_finalize_miss cf final r (fb_hash final) b) as (c' & Hrun & Hpeek'); [apply peek_new|exact Hrebuild|].
  set (r1 := set_an_keys (an_aggregate_public_key s1) (set_an_tracked (Some (fb_hash final))
    (set_an_manager m (set_an_cache c' r)))).
  assert (finalize_block cf now' final r = (r1, Ok (response_of data b))) as Hfin.
  { apply (finalize_block_iff _ _ _ _ _ _ b Hbr). exists c', data, rest. split_and!; try done.
    split; [done|by exists w'|exact Hfirst| |done].
    exists v. split; [|done]. rewrite <-Hvalid. transitivity (validate_block cf now' b s1); [by apply validate_block_keys|].
    by apply validate_block_clock. }
  destruct (commit_block_runs NoFault r1 (fb_hash final) b keys hp db) as (r2 & Hcommit & Hwr); try done.
  { change (an_reth r1) with (an_reth s). by rewrite <-Hr1. }
  exists r1, r2. split; [reflexivity|]. split; [exact Hfin|]. split; [exact Hcommit|].
  rewrite Hwr, Hw. change (written NoFault b hp db r1) with (written NoFault b hp db s3).
  by apply (write_again fault).
Qed.

End replay.

(** ** The key at the start *)

Section restart.
Context `{!PegLib, !BitcoinLib, !Profile, !MintLib, !CheckpointSource, !Evm, !EthLib, !RethLib, !NddLib, !NodeLib}.
Context `{!LruLib BlockWithContext, !LruLaws BlockWithContext}.
Context (cf : AbciConfig).

(** The chain below a header, on which every block past genesis carries the
    key [k]. *)
Inductive chain_of (db : RethDb) (k : PublicKey) : EvmHeader → Prop :=
| chain_genesis g : hd_number g = 0 → chain_of db k g
| chain_block h parent : 0 < hd_number h → get_aggregate_public_key (eth_header h) = Ok k →
    header_by_hash (hd_parent_hash h) db = Ok (Some parent) → hd_number h = hd_number parent + 1 →
    chain_of db k parent → chain_of db k h.

Lemma chain_number db k h : chain_of db k h → 0 ≤ hd_number h.
Proof. induction 1; lia. Qed.

Lemma epoch_header_spec db k h :
  0 < cf_epoch_length cf → chain_of db k h → ∀ fuel, hd_number h ≤ Z.of_nat fuel →
  ∃ e, epoch_header cf fuel h db = Ok e ∧ chain_of db k e ∧
    hd_number e = cf_epoch_length cf * (hd_number h / cf_epoch_length cf).
Proof.
  intros Hlen Hchain. set (len := cf_epoch_length cf) in *.
  assert (∀ n, is_poa_epoch n len = (n mod len =? 0)) as Hepoch.
  { intros n. unfold is_poa_epoch. by rewrite (proj2 (Z.eqb_neq len 0)) by lia. }
  induction Hchain as [g Hg|h parent Hpos Hk Hp Hn Hc IH]; intros fuel Hfuel.
  - exists g. rewrite Hg, Zdiv_0_l, Z.mul_0_r. split; [|split; [by constructor|done]].
    destruct fuel; cbn [epoch_header]; fold len; by rewrite Hepoch, Hg, Zmod_0_l.
  - pose proof (Z.div_mod (hd_number h) len) as Hdm. pose proof (Z.mod_pos_bound (hd_number h) len Hlen) as Hmod.
    destruct (Z.eqb_spec (hd_number h mod len) 0) as [Hz|Hz].
    + exists h. split; [|split; [by econstructor|lia]].
      destruct fuel; cbn [epoch_header]; fold len; by rewrite Hepoch, (proj2 (Z.eqb_eq _ _) Hz).
    + destruct fuel as [|fuel]; [lia|]. cbn [epoch_header]. fold len.
      rewrite Hepoch, (proj2 (Z.eqb_neq _ _) Hz), Hp. destruct (IH fuel) as (e & He & Hce & Hne); [lia|].
      exists e. split; [done|]. split; [done|]. rewrite Hne. f_equal. symmetry.
      apply (Z.div_unique _ _ _ (hd_number h mod len - 1)); lia.
Qed.

(** A node that starts finds the key of the federation in its chain only
    past the first epoch: with the latest block in the first epoch the header
    that is consulted is that of genesis. *)
Theorem epoch_key_spec db k h fuel genesis :
  0 < cf_epoch_length cf → latest_header db = Ok (Some h) → chain_of db k h → hd_number h ≤ Z.of_nat fuel →
  epoch_key cf fuel genesis db = Ok (if hd_number h <? cf_epoch_length cf then None else Some k).
Proof.
  intros Hlen Hl Hchain Hfuel. unfold epoch_key. rewrite Hl. cbn [obind].
  destruct (epoch_header_spec db k h Hlen Hchain fuel Hfuel) as (e & -> & Hce & Hne). cbn [obind].
  pose proof (chain_number _ _ _ Hchain) as Hnn. destruct (Z.ltb_spec (hd_number h) (cf_epoch_length cf)).
  - rewrite Z.div_small, Z.mul_0_r in Hne by lia. by rewrite Hne.
  - assert (0 < hd_number h / cf_epoch_length cf) by (apply Z.div_str_pos; lia).
    rewrite (proj2 (Z.ltb_lt _ _)) by nia. destruct Hce as [g Hg|e p _ Hk _ _ _]; [nia|]. by rewrite Hk.
Qed.

(** The number of a block that is built follows the best one. *)
Lemma rebuilt_number final s b n :
  rebuild_block cf final s = Ok b → best_block_number (an_reth s) = Ok n → 0 ≤ n < 2 ^ 64 - 1 →
  hd_number (bc_header b) = n + 1.
Proof.
  unfold rebuild_block. destruct (fb_txs final) as [|data encoded]; [done|].
  intros (ndd & _ & Hrun)%obind_Ok. apply obind_Ok in Hrun as (recipient & _ & Hrun).
  apply obind_Ok in Hrun as (time & _ & Hrun). apply obind_Ok in Hrun as (txs & _ & Hrun).
  apply expect_Ok in Hrun. destruct (build_and_execute _ _ _ _ _ _ _ _ _ _ _) as [b'|e|] eqn:E; [|done..].
  injection Hrun as ->. intros Hbest Hn. by eapply build_and_execute_number.
Qed.

(** Without a cached block, an answer means that the block was built again. *)
Lemma finalize_rebuilds now final s s' resp :
  lru_peek (fb_hash final) (an_cache s) = None → finalize_block cf now final s = (s', Ok resp) →
  ∃ b, final_block cf final s b.
Proof.
  intros Hp Hf. unfold finalize_block in Hf. destruct (fb_txs final); [done|].
  apply bindM_Ok in Hf as (? & hash & Hh & Hf). unfold fixed_bytes in Hh.
  destruct (length (fb_hash final) =? 32)%nat; [|done]. injection Hh as <- <-.
  unfold block_to_finalize, bindM, get, modify, lift in Hf.
  pose proof (get_result (fb_hash final) (an_cache s)) as Hr. destruct (lru_get _ (an_cache s)) as [c o]. cbn in Hr.
  subst o. rewrite Hp in Hf. destruct (rebuild_block cf final s) as [b|e|] eqn:E; [|done..].
  exists b. split; [done|by left].
Qed.

(** A node without the key rejects every block. *)
Lemma keyless_rejects now b s v :
  an_aggregate_public_key s = None → validate_block cf now b s = Ok v → v = VERIFY_REJECT.
Proof.
  intros Hk. unfold validate_block, aggregate_public_key. rewrite Hk.
  destruct (validate_block_pre_execution _ _); [|by intros [= <-]|done].
  destruct (validate_header _ _); [|by intros [= <-]|done]. by intros [= <-].
Qed.

(** An RPC node that is restarted within the first epoch of its chain
    never finalizes another block: it starts without the key of the federation
    and rejects every block, which [finalize_block] answers with a panic. *)
Theorem restart_in_first_epoch_is_fatal db k h fuel genesis server_keys configured checkpoints staged transitions :
  cf_is_fed_node cf = false → latest_header db = Ok (Some h) → best_block_number db = Ok (hd_number h) →
  chain_of db k h → 0 < hd_number h < cf_epoch_length cf → hd_number h < 2 ^ 64 - 1 → hd_number h ≤ Z.of_nat fuel →
  ∃ s, start_node cf fuel genesis server_keys configured checkpoints db staged transitions = Ok s ∧
    an_aggregate_public_key s = None ∧
    ∀ now final s' resp, finalize_block cf now final s ≠ (s', Ok resp).
Proof.
  intros Hfed Hl Hbest Hchain Hn Hmax Hfuel. unfold start_node, starting_keys, epoch_key. rewrite Hl. cbn [obind].
  destruct (epoch_header_spec db k h ltac:(lia) Hchain fuel Hfuel) as (e & -> & _ & Hne). cbn [obind].
  rewrite Z.div_small, Z.mul_0_r in Hne by lia. rewrite Hne, Hfed. cbn. eexists. split; [reflexivity|].
  split; [done|]. intros now final s' resp. set (s := mkAbciNode _ _ _ _ _ _ _ _). intros Hf.
  assert (lru_peek (fb_hash final) (an_cache s) = None) as Hp by apply peek_new.
  destruct (finalize_rebuilds _ _ _ _ _ Hp Hf) as [b Hb].
  apply (finalize_block_iff _ _ _ _ _ _ b Hb) in Hf as (c & data & rest & _ & _ & _ & _ & _ & [_ _ Hkeys [v [Hv Hne']] _]).
  pose proof (rebuilt_number _ _ _ _ (proj1 Hb) Hbest ltac:(lia)) as Hnum.
  unfold first_keys in Hkeys. rewrite Hfed, Hnum, (proj2 (Z.eqb_neq _ 1)) in Hkeys by lia. injection Hkeys as Hkeys.
  apply Hne'. by eapply keyless_rejects.
Qed.

End restart.
