(* ===== verification/AbciRun.v ===== *)
(** * A concrete node

    An instance of the libraries that [Abci] is parametrised by, a node on a
    chain of one block, and the hypotheses of the theorems of [AbciVotes] and
    [AbciReplay] shown to hold of its run: a proposal with a deposit and a
    withdrawal is voted for, finalized, and committed with and without a crash. *)

From S2P Require Import Prelude Bytes Bitcoin Concrete Codec Peg Edh Mint Execution Activation Checkpoint Jwt Rpc Ndd.
From S2P Require Import Consensus Payload NodeUtils Build Abci AbciVotes AbciReplay.
From stdpp Require Import strings.

Open Scope Z_scope.

(** ** Libraries *)

(** A transaction is a number: 1 claims a deposit, 2 makes a withdrawal, 4
    carries a blob.  The accounts are a counter of the changes made to them. *)
#[local] Instance run_evm : Evm := {
  EvmDb := Z;
  EvmTx := Z;
  tx_hash tx := replicate 32 tx;
  tx_gas_limit _ := 30000;
  effective_tip_per_gas _ _ := Some 0;
  effective_gas_price _ _ := 1;
  is_eip2930 _ := false;
  is_eip1559 _ := true;
  is_eip4844 tx := tx =? 4;
  is_eip7702 _ := false;
  basic _ _ := Ok (Some (mkAccountInfo 1000000 1 []));
  config_env h :=
    (mkCfgEnv 1 Prague None false,
     mkBlockEnv (number h) (beneficiary h) (timestamp h) 0 (Some (replicate 32 0)) (gas_limit h) (default 0 (base_fee_per_gas h)) None);
  transact _ tx _ _ := Ok (Success 21000 (if tx =? 1 then [toy_mint_log 1 98 [toy_meta 0]]
                                        else if tx =? 2 then [toy_burn_log 30000000000] else []), ∅);
  commit _ db := db + 1;
  set_state_clear_flag _ db := db;
  apply_pre_execution_changes _ db := Some db;
  increment_balances _ db := Some (db + 1000) }.

#[local] Instance run_evm_laws : EvmLaws.
Proof.
  split; intros env tx a db r st [= <- _]; cbn; [lia|].
  destruct (tx =? 1); [cbn; lia|]. destruct (tx =? 2); cbn; lia.
Qed.

Definition run_blob_gas (tx : Z) : option Z := if tx =? 4 then Some 131072 else None.

#[local] Instance run_eth : EthLib := {
  EMPTY_OMMER_ROOT_HASH := [1];
  EMPTY_TRANSACTIONS := [2];
  EMPTY_RECEIPTS := [3];
  hash_slow h := replicate 32 (hd_number h);
  calculate_transaction_root txs := match txs with [] => [2] | _ => 4 :: txs end;
  calculate_receipt_root rs := [5; Z.of_nat (length rs)];
  receipt_bloom _ := 1;
  blob_gas_used_of := run_blob_gas;
  recover_signers txs := Some (map (λ _, replicate 20 7) txs);
  is_paris_active_at_block _ := true;
  is_london_active_at_block _ := true;
  is_cancun_active_at_timestamp t := 100 <=? t;
  london_transitions_at_block _ := false;
  elasticity_multiplier_at _ := 2;
  next_block_base_fee _ _ := Some 7;
  calc_excess_blob_gas _ _ := 0;
  reth_validate_header_gas h := hd_gas_used h <=? hd_gas_limit h;
  reth_validate_header_base_fee h := bool_decide (is_Some (hd_base_fee_per_gas h));
  reth_validate_4844_header_standalone h := bool_decide (is_Some (hd_parent_beacon_block_root h));
  reth_validate_cancun_gas h txs :=
    bool_decide (hd_blob_gas_used h = Some (foldr (λ tx n, default 0 (run_blob_gas tx) + n) 0 txs));
  reth_validate_against_parent_hash_number _ _ := true;
  reth_validate_against_parent_timestamp _ _ := true;
  reth_validate_against_parent_eip1559_base_fee _ _ := true;
  reth_validate_against_parent_4844 _ _ := true }.

#[local] Instance run_eth_laws : EthLaws.
Proof.
  split.
  - done.
  - intros txs l [= <-]. by rewrite length_map.
  - done.
  - intros h Hh. by apply bool_decide_eq_true.
  - intros h txs. cbn. by rewrite bool_decide_eq_true.
  - intros h _ _ Hh. by apply bool_decide_eq_true.
Qed.

(** The chain with the accounts after each block, the newest first. *)
Definition RunDb : Type := list (EvmHeader * Z).

Definition find_header (hash : bytes) (db : RunDb) : option (EvmHeader * Z) :=
  snd <$> list_find (λ e, hash_slow e.1 = hash) db.

#[local] Instance run_reth : RethLib := {
  RethDb := RunDb;
  TrieUpdates := unit;
  best_block_number db := Ok (Z.of_nat (length db) - 1);
  db_block_hash n db := Ok ((λ e, hash_slow e.1) <$> list_find (λ e, hd_number e.1 = n) db ≫= λ p, Some p.2);
  header_by_number n db := Ok ((λ p, p.2.1) <$> list_find (λ e, hd_number e.1 = n) db);
  header_by_hash hash db := Ok (fst <$> find_header hash db);
  latest_header db := Ok (fst <$> head db);
  latest_block db := Ok (fst <$> head db);
  block_by_hash hash db := Ok (fst <$> find_header hash db);
  history_by_block_hash hash db := snd <$> find_header hash db;
  state_root _ state _ := Ok (replicate 32 state);
  overlay_root_with_updates _ _ := Ok tt;
  append_block h _ state _ _ db := Ok ((h, state) :: db) }.

(** The newest entry first, five at most. *)
Section lru.
Context {V : Type}.

Definition run_peek (k : bytes) (m : list (bytes * V)) : option V :=
  snd <$> (snd <$> list_find (λ e, e.1 = k) m).

Definition run_without (k : bytes) (m : list (bytes * V)) : list (bytes * V) := filter (λ e, e.1 ≠ k) m.

#[local] Instance run_lru : LruLib V := {
  LruMap := list (bytes * V);
  lru_new _ := [];
  lru_peek := run_peek;
  lru_get k m := (match run_peek k m with Some v => (k, v) :: run_without k m | None => m end, run_peek k m);
  lru_insert k v m := take 5 ((k, v) :: run_without k m);
  lru_remove k m := (run_without k m, run_peek k m) }.

Lemma run_peek_cons k e m : run_peek k (e :: m) = if decide (e.1 = k) then Some e.2 else run_peek k m.
Proof.
  unfold run_peek. cbn. destruct (decide (e.1 = k)); [done|]. by destruct (list_find _ m) as [[i x]|].
Qed.

Lemma run_peek_without k k' m : run_peek k' (run_without k m) = if decide (k' = k) then None else run_peek k' m.
Proof.
  induction m as [|[x v] m IH]; [by destruct (decide _)|]. unfold run_without. rewrite filter_cons. cbn [fst].
  destruct (decide (x ≠ k)) as [Hx|Hx]; rewrite ?run_peek_cons; cbn [fst snd]; fold (run_without k m); rewrite IH.
  - destruct (decide (x = k')), (decide (k' = k)); congruence.
  - apply dec_stable in Hx. subst x. destruct (decide (k = k')), (decide (k' = k)); congruence.
Qed.

Lemma run_peek_take k n m : run_peek k (take n m) = run_peek k m ∨ run_peek k (take n m) = None.
Proof.
  revert n. induction m as [|e m IH]; intros [|n]; cbn [take]; [by left|by left|by right|].
  rewrite !run_peek_cons. destruct (decide (e.1 = k)); [by left|apply IH].
Qed.

#[local] Instance run_lru_laws : LruLaws V.
Proof.
  split; cbn [run_lru lru_peek lru_new lru_get lru_insert lru_remove fst snd].
  - done.
  - done.
  - intros k k' m. destruct (run_peek k m) as [v|] eqn:E; [|done]. rewrite run_peek_cons, run_peek_without. cbn [fst snd].
    destruct (decide (k = k')) as [->|Hne]; [done|]. destruct (decide (k' = k)); congruence.
  - intros k v m. cbn [take]. rewrite run_peek_cons. by rewrite decide_True.
  - intros k k' v m Hne. cbn [take]. rewrite run_peek_cons, decide_False by (cbn; congruence).
    destruct (run_peek_take k' 4 (run_without k m)) as [-> | ->]; [|by right].
    rewrite run_peek_without, decide_False by done. by left.
  - done.
  - intros k m. rewrite run_peek_without. by rewrite decide_True.
  - intros k k' m Hne. rewrite run_peek_without. by rewrite decide_False.
Qed.

End lru.

#[local] Existing Instances run_lru run_lru_laws.

#[local] Instance run_node_lib : NodeLib := {
  address_script_pubkey _ := p2tr 7;
  serialize_script s := s;
  bloom_contains_input b _ := b =? 1;
  decode_transaction b := match b with [tx] => Ok tx | _ => Err tt end }.

#[local] Instance run_encoding : TxEncoding := λ tx, [tx].

#[local] Instance run_encoding_laws : TxEncodingLaws.
Proof. by split. Qed.

(** A pool is the list of its transactions, a builder those it has taken. *)
#[local] Instance run_payload : PayloadLib := {
  PoolTx := Z;
  pool_gas_limit _ := 30000;
  to_consensus tx := tx;
  as_eip4844 _ := None;
  get_blob _ := Ok None;
  BestTxs := list Z;
  best_next l := match l with tx :: rest => Some (tx, rest) | [] => None end;
  mark_invalid _ _ l := l;
  skip_blobs l := l;
  BlockBuilder := list Z;
  builder_gas_limit _ := 30000000;
  builder_basefee _ := 7;
  builder_blob_gasprice _ := None;
  builder_pre_execution _ := Some [];
  builder_execute tx b := (b ++ [tx], Executed 21000);
  builder_finish b := Ok b;
  max_blob_count_at _ := None;
  is_osaka_active_at _ := false }.

#[local] Instance run_payload_laws : PayloadLaws.
Proof.
  refine {| best_size := @length Z; in_block := map (λ tx, (tx, 21000)) |}.
  - intros [|tx b] tx' rest [=]. subst. cbn. lia.
  - done.
  - done.
  - done.
  - intros tx. cbn. lia.
  - done.
  - intros tx b b' gas [= <- <-]. rewrite map_app. split; [done|cbn; lia].
  - intros tx b b' low [=].
  - by intros b b' [= <-].
  - intros b txs [= <-]. rewrite map_map. cbn. by rewrite map_id.
Defined.

#[local] Instance run_pool : PoolLib := {
  Pool := list Z;
  pool_size l := Z.of_nat (length l);
  best_transactions_with_attributes l _ _ := l;
  builder_for_next_block _ _ _ := Ok [];
  is_better_than_none _ := true }.

#[local] Instance run_profile : Profile := true.

(** ** The node *)

Definition run_header (n : Z) : EvmHeader :=
  mkEvmHeader (replicate 32 (n - 1)) [1] ZERO_ADDRESS [] [2] [3] None 0 0 n 30000000 0 (20 + n) [] (replicate 8 0)
    (Some 7) None None (Edh_serialize (block_edh (replicate 32 13) true (replicate 20 6))) (Some []) None.

Definition run_db : RethDb := [(run_header 1, 5); (run_header 0, 0)].

Definition config_of (is_fed_node : bool) : AbciConfig :=
  mkAbciConfig _ is_fed_node false 1 (Some (replicate 20 6)) toy_recipients Regtest 10 true false [true] true.

Definition run_config : AbciConfig := config_of true.

Definition run_window : BitcoinCheckpointsChain :=
  mkChain 6 (map (λ h, mkCheckpoint (toy_header h) h (toy_hash_at h)) [11; 12; 13; 14; 15; 16; 17]) (4, 10) 7.

Definition run_manager : ActivationManager (gmap Address VoteEntry) :=
  mkManager ∅ 100 (mkVersion 0 2) (Some (mkUpgrade (mkVersion 0 3) 67 3 100 Aye true)).

Definition run_node : AbciNode :=
  mkAbciNode run_manager (lru_new 5) None (Some {[ 0 := true ]}) run_window run_db ∅ ∅.

(** A pool of the transactions given. *)
Definition pool_of (l : list Z) : Pool := l.

Definition run_prepare (pool : list Z) : AbciNode * outcome Unfinished (list bytes) :=
  prepare_proposal run_config 10 50 (pool_of pool) (mkPrepareRequest 1000 [] 2 (Some 60)) run_node.

Definition run_proposal : list bytes := default [] (ok (run_prepare [1; 2]).2).

Definition run_request : RequestProcessProposal := mkProcessRequest run_proposal (replicate 32 9) 2 (Some 60).

Definition run_vote : AbciNode * outcome Unfinished Z := process_proposal run_config 50 run_request run_node.

Definition run_final : RequestFinalizeBlock := mkFinalizeRequest run_proposal (replicate 32 9) 2 (Some 60) (replicate 20 3).

Definition run_finalized : AbciNode * outcome Unfinished ResponseFinalizeBlock :=
  finalize_block run_config 51 run_final run_vote.1.

Definition run_committed (fault : Fault) : AbciNode * outcome Unfinished unit := commit_block fault run_finalized.1.

Definition run_block : option BlockWithContext := lru_peek (replicate 32 9) (an_cache run_vote.1).

(** The proposal carries a deposit and a withdrawal, and is voted for,
    finalized and committed. *)
Example run_votes : run_vote.2 = Ok VERIFY_ACCEPTED.
Proof. vm_cast_no_check (eq_refl (Ok (E:=Unfinished) VERIFY_ACCEPTED)). Qed.

Example run_pegs : (λ b, (length (bc_pegins b), length (bc_pegouts b))) <$> run_block = Some (1%nat, 1%nat).
Proof. vm_cast_no_check (eq_refl (Some (1%nat, 1%nat))). Qed.

Example run_answers : (λ r, length (fr_tx_results r)) <$> ok run_finalized.2 = Some 3%nat.
Proof. vm_cast_no_check (eq_refl (Some 3%nat)). Qed.

Example run_commits : (run_committed NoFault).2 = Ok tt.
Proof. vm_cast_no_check (eq_refl (Ok (E:=Unfinished) tt)). Qed.

(** A blob under Cancun: the block is built, and rejected. *)
Definition blob_vote (time : Z) : AbciNode * outcome Unfinished Z :=
  process_proposal run_config 50
    (mkProcessRequest (default [] (ok (run_prepare [4]).2)) (replicate 32 9) 2 (Some time)) run_node.

Example blob_before_cancun : (blob_vote 60).2 = Ok VERIFY_ACCEPTED.
Proof. vm_cast_no_check (eq_refl (Ok (E:=Unfinished) VERIFY_ACCEPTED)). Qed.

Example blob_under_cancun : (blob_vote 160).2 = Ok VERIFY_REJECT.
Proof. vm_cast_no_check (eq_refl (Ok (E:=Unfinished) VERIFY_REJECT)). Qed.

Example plain_under_cancun :
  (process_proposal run_config 50 (mkProcessRequest run_proposal (replicate 32 9) 2 (Some 160)) run_node).2 =
    Ok VERIFY_ACCEPTED.
Proof. vm_cast_no_check (eq_refl (Ok (E:=Unfinished) VERIFY_ACCEPTED)). Qed.

(** An empty request: with warnings and overflow checks on, the log line of the
    rejection panics. *)
Example empty_proposal_panics :
  (process_proposal run_config 50 (mkProcessRequest [] (replicate 32 9) 2 (Some 60)) run_node).2 = Panic.
Proof. vm_cast_no_check (eq_refl (@Panic Unfinished Z)). Qed.

Lemma run_pair {A B} (p : A * B) b : p.2 = b → p = (p.1, b).
Proof. destruct p. by intros <-. Qed.

Lemma run_vote_is : process_proposal run_config 50 run_request run_node = (run_vote.1, Ok VERIFY_ACCEPTED).
Proof. apply (run_pair run_vote), run_votes. Qed.

Lemma run_manager_wf : manager_wf run_manager.
Proof. intros u [= <-]. cbn. unfold MIN_QUORUM, MIN_VALIDATOR_COUNT. split; [done|lia]. Qed.

Lemma run_voted : ∃ b, run_block = Some b ∧ voted_for run_config 50 run_request run_node b.
Proof.
  destruct (process_proposal_Ok _ _ _ _ _ run_vote_is) as (b & m & Hv & _ & Hs). exists b. split; [|done].
  unfold run_block. rewrite Hs. apply insert_peek.
Qed.

Lemma process_proposal_sound_witness :
  ∃ b, voted_for run_config 50 run_request run_node b ∧
    lru_peek (rp_hash run_request) (an_cache run_vote.1) = Some b ∧ settled run_vote.1 = settled run_node.
Proof.
  destruct (process_proposal_sound run_config 50 run_request run_node run_vote.1 run_manager_wf run_vote_is)
    as (b & Hv & _ & Hp & Hs).
  exists b. split; [exact Hv|]. split; [exact Hp|exact Hs].
Defined.

Lemma voted_mints_are_backed_witness :
  ∃ b pkg, run_block = Some b ∧ length (bc_pegins b) = 1%nat ∧
    Forall (λ d, ∃ cp vs, backed (H4:=referenced_blocks run_db) Regtest pkg d cp vs) (bc_pegins b).
Proof.
  destruct run_voted as (b & Hb & Hv).
  assert ((λ b, bc_transactions b) <$> run_block = Some [1; 2]) as Ht by (vm_cast_no_check (eq_refl (Some [1; 2]))).
  pose proof run_pegs as Hl. rewrite Hb in Ht, Hl. injection Ht as Ht. injection Hl as Hl _.
  assert (NoDup (map tx_hash (bc_transactions b))) as Hnd.
  { rewrite Ht. apply (bool_decide_unpack _). vm_compute. exact I. }
  destruct (voted_mints_are_backed run_config toy_tx_wf 50 run_request run_node run_vote.1 b run_vote_is Hb Hnd) as (_ & pkg & _ & _ & Hf & _).
  exists b, pkg. split; [exact Hb|]. split; [exact Hl|exact Hf].
Defined.

(** ** Two nodes *)

Lemma run_node_wf : node_wf run_node.
Proof.
  split.
  - exact run_manager_wf.
  - split; cbn; lia.
  - intros u [= <-]. split; cbn; lia.
  - intros cp Hcp. vm_compute in Hcp. injection Hcp as <-. apply (bool_decide_unpack _). vm_compute. exact I.
Qed.

Lemma run_agree : agree run_node run_node.
Proof.
  split; [done|done| |done|].
  - cbn. constructor. by repeat split.
  - intros cp Hcp. vm_compute in Hcp. injection Hcp as <-. by vm_compute.
Qed.

Lemma run_block_ready b : run_block = Some b → chain_ready b ∧ blobs_under_cancun b = false.
Proof.
  intros Hb. assert ((λ b, bool_decide (is_Some (hd_base_fee_per_gas (bc_header b))) &&
    negb (is_cancun_active_at_timestamp (hd_timestamp (bc_header b)))) <$> run_block = Some true) as Hr
    by (vm_cast_no_check (eq_refl (Some true))).
  rewrite Hb in Hr. injection Hr as [Hf%bool_decide_eq_true Hc%negb_true_iff]%andb_true_iff.
  assert (is_cancun_active_at_timestamp (hd_timestamp (bc_header b)) = false) as Hcancun by exact Hc.
  split; [|unfold blobs_under_cancun; by rewrite Hcancun].
  split; [done|exact Hf|]. intros Ht. rewrite Hcancun in Ht. discriminate.
Qed.

Lemma honest_proposals_are_accepted_witness :
  ∃ blk b', process_proposal run_config 70 run_request run_node = (b', Ok VERIFY_ACCEPTED) ∧
    voted_for run_config 70 run_request run_node blk ∧ lru_peek (replicate 32 9) (an_cache b') = Some blk.
Proof.
  assert (∀ r, cf_block_fee_recipient_address run_config = Some r → is_array 20 r) as Hr.
  { intros r [= <-]. apply (bool_decide_unpack _). vm_compute. exact I. }
  assert (aggregate_public_key LEGACY_MULTISIG_ID run_node ≠ Ok (cf_nums run_config)) as Hk by (intros Hk; discriminate Hk).
  assert (run_prepare [1; 2] = ((run_prepare [1; 2]).1, Ok run_proposal)) as Hp.
  { apply run_pair. vm_cast_no_check (eq_refl (Ok (E:=Unfinished) run_proposal)). }
  destruct (honest_proposals_are_accepted toy_tx_wf run_config run_config 10 50 70 (pool_of [1; 2])
    (mkPrepareRequest 1000 [] 2 (Some 60)) run_node (run_prepare [1; 2]).1 run_proposal run_node run_request 60
    run_node_wf run_node_wf run_agree Hr Hk Hp eq_refl eq_refl eq_refl eq_refl)
    as (data & ndd & eth & recipient & floor & Htxs & Hread & Hrec & Hfloor & Hacc).
  destruct run_voted as (b & Hb & [data' encoded ndd' recipient' time txs floor' m c]).
  exists b. destruct (run_block_ready b Hb) as [Hready Hblobs]. apply Hacc; [|exact Hready|exact Hblobs].
  change (rp_txs run_request) with run_proposal in v_txs. rewrite Htxs in v_txs. injection v_txs as <- <-.
  rewrite Hread in v_data. injection v_data as <-. rewrite Hrec in v_recipient. injection v_recipient as <-.
  rewrite Hfloor in v_floor. injection v_floor as <-. injection v_time as <-.
  pose proof (eq_trans (eq_sym (decode_encoded eth)) v_decoded) as Heth. injection Heth as <-. exact v_built.
Defined.

Lemma no_votes_for_blobs_witness : ∃ b, voted_for run_config 50 run_request run_node b ∧ blobs_under_cancun b = false.
Proof.
  destruct run_voted as (b & Hb & Hv). exists b. split; [exact Hv|].
  assert (aggregate_public_key LEGACY_MULTISIG_ID run_node ≠ Ok (cf_nums run_config)) as Hk by (intros Hk; discriminate Hk).
  exact (no_votes_for_blobs toy_tx_wf run_config 50 run_request run_node b Hv Hk (proj1 (run_block_ready b Hb))).
Defined.

Lemma prepare_proposal_finishes_witness : ∀ e, (run_prepare [1; 2]).2 ≠ Err e.
Proof.
  assert (builder_limits) as Hl by (split; [intros h at_ db b [= <-]; cbn; lia|intros t n [=]]).
  assert (∀ base_fee blob_fee, (best_size (best_transactions_with_attributes (pool_of [1; 2]%Z) base_fee blob_fee) < 10)%nat) as Hf
    by (intros; cbn; lia).
  exact (prepare_proposal_finishes run_config 10 50 (pool_of [1; 2]) (mkPrepareRequest 1000 [] 2 (Some 60)) Hl Hf run_node).
Defined.

Definition genesis_node : AbciNode := set_an_reth [(run_header 0, 0)] run_node.

(** The same request with an empty pool is answered. *)
Lemma genesis_takes_no_transactions_witness :
  (∃ s' txs, prepare_proposal run_config 10 50 (pool_of []) (mkPrepareRequest 1000 [] 1 (Some 60)) genesis_node = (s', Ok txs)) ∧
  ∀ s' txs, prepare_proposal run_config 10 50 (pool_of [2]) (mkPrepareRequest 1000 [] 1 (Some 60)) genesis_node ≠ (s', Ok txs).
Proof.
  split.
  - eexists _, _. apply run_pair. vm_compute. reflexivity.
  - apply (genesis_takes_no_transactions run_config 10 50 (pool_of [2]) (mkPrepareRequest 1000 [] 1 (Some 60)) genesis_node
      (run_header 0)); [reflexivity|vm_compute; reflexivity|discriminate].
Defined.

(** ** Finalizing, crashing and starting again *)

Lemma run_finalized_is : ∃ resp, finalize_block run_config 51 run_final run_vote.1 = (run_finalized.1, Ok resp).
Proof.
  pose proof run_answers as Hr. destruct run_finalized.2 as [resp|e|] eqn:E; [|done..].
  exists resp. by apply (run_pair run_finalized).
Qed.

Lemma run_same : same_block run_request run_final.
Proof. by repeat split. Qed.

Lemma cached_block_is_rebuilt_witness :
  ∃ b resp c', finalize_block run_config 51 run_final run_vote.1 = (run_finalized.1, Ok resp) ∧
    length (fr_tx_results resp) = 3%nat ∧
    finalize_block run_config 51 run_final (set_an_cache (lru_new 5) run_vote.1) =
      (set_an_cache c' run_finalized.1, Ok resp) ∧ lru_peek (replicate 32 9) c' = Some b.
Proof.
  destruct run_voted as (b & Hb & Hv). destruct run_finalized_is as [resp Hf].
  assert (an_reth run_vote.1 = an_reth run_node) as Hdb.
  { destruct (process_proposal_Ok _ _ _ _ _ run_vote_is) as (? & ? & _ & _ & Hs). rewrite Hs. reflexivity. }
  destruct (cached_block_is_rebuilt run_config 50 51 run_request run_node run_vote.1 b run_final run_vote.1 (lru_new 5)
    run_vote_is Hb run_same Hdb Hb (peek_new _ _)) as [Hfin _].
  destruct (Hfin _ _ Hf) as (Hlen & _ & c' & Hf' & _ & Hc'). exists b, resp, c'.
  split; [exact Hf|]. split; [|split; [exact Hf'|exact Hc']]. rewrite Hlen. vm_compute. reflexivity.
Defined.

Lemma run_follows : follows run_manager (an_manager run_vote.1) (an_transitions run_vote.1).
Proof.
  destruct (process_proposal_Ok _ _ _ _ _ run_vote_is) as (? & m & _ & Hf & Hs). rewrite Hs.
  left. unfold frame in Hf. injection Hf as _ Ha Hu. split; [exact Ha|exact Hu].
Qed.

Lemma crash_and_replay_witness : ∃ resp r r1 r2,
  start_node run_config 5 (run_header 0) (Some [(0, true)]) run_manager run_window
    (an_reth (run_committed BetweenCommits).1) (an_staged (run_committed BetweenCommits).1)
    (an_transitions (run_committed BetweenCommits).1) = Ok r ∧
  finalize_block run_config 99 run_final r = (r1, Ok resp) ∧ commit_block NoFault r1 = (r2, Ok tt) ∧
  databases r2 = databases (run_committed NoFault).1.
Proof.
  destruct run_voted as (b & Hb & Hv). destruct run_finalized_is as [resp Hf].
  destruct (process_proposal_Ok _ _ _ _ _ run_vote_is) as (b' & m & Hv' & _ & Hs).
  assert (final_block run_config run_final run_vote.1 b) as Hfb.
  { split; [|right; exact Hb]. apply (voted_rebuild _ 50 run_request run_node); [exact Hv|exact run_same|].
    rewrite Hs. reflexivity. }
  assert (starting_keys run_config 5 (run_header 0) (Some [(0, true)]) (an_reth run_vote.1) =
    Ok (an_aggregate_public_key run_vote.1)) as Hk by (rewrite Hs; vm_compute; reflexivity).
  assert (commit_block NoFault run_finalized.1 = ((run_committed NoFault).1, Ok tt)) as Hc
    by (apply (run_pair (run_committed NoFault)), run_commits).
  assert (BetweenCommits ≠ NoFault) as Hne by discriminate.
  destruct (crash_and_replay run_config 51 99 BetweenCommits 5 (run_header 0) (Some [(0, true)]) run_manager run_window
    run_final run_vote.1 b run_finalized.1 resp (run_committed NoFault).1 (run_committed BetweenCommits).1
    (run_committed BetweenCommits).2 run_manager_wf run_follows Hfb eq_refl Hk Hf Hc Hne
    (run_pair (run_committed BetweenCommits) _ eq_refl)) as (r & r1 & r2 & H1 & H2 & H3 & H4).
  exists resp, r, r1, r2. split; [exact H1|]. split; [exact H2|]. split; [exact H3|exact H4].
Defined.

(** An RPC node whose latest block is the first. *)
Definition rpc_config : AbciConfig := config_of false.

Lemma run_chain : chain_of run_db true (run_header 1).
Proof.
  apply (chain_block _ _ _ (run_header 0)); [done|vm_compute; reflexivity|vm_compute; reflexivity|done|].
  by constructor.
Qed.

Lemma epoch_key_spec_witness : epoch_key rpc_config 5 (run_header 0) run_db = Ok None.
Proof. exact (epoch_key_spec rpc_config run_db true (run_header 1) 5 (run_header 0) eq_refl eq_refl run_chain ltac:(cbn; lia)). Defined.

Lemma restart_in_first_epoch_is_fatal_witness :
  ∃ s, start_node rpc_config 5 (run_header 0) None run_manager run_window run_db ∅ ∅ = Ok s ∧
    an_aggregate_public_key s = None ∧
    ∀ now final s' resp, finalize_block rpc_config now final s ≠ (s', Ok resp).
Proof.
  exact (restart_in_first_epoch_is_fatal rpc_config run_db true (run_header 1) 5 (run_header 0) None run_manager
    run_window ∅ ∅ eq_refl eq_refl eq_refl run_chain ltac:(cbn; lia) ltac:(cbn; lia) ltac:(cbn; lia)).
Defined.

(** A node that was not restarted finalizes the same block. *)
Example rpc_node_finalizes :
  ok (finalize_block rpc_config 51 run_final run_node).2 = ok run_finalized.2 ∧ is_Some (ok run_finalized.2).
Proof.
  split; [vm_cast_no_check (eq_refl (ok run_finalized.2))|].
  apply (bool_decide_unpack _). vm_cast_no_check I.
Qed.
