(* ===== verification/Client.v ===== *)
(** * The client of the btc-server

    src/bin/botanix-btc-server/client/src/extended_client.rs.  The trait
    [BtcServerExtendedApi], which the tasks of a node are written against, is
    the class [BtcServerApi]: one request to a server whose state is [S].  The
    client that implements it, [BtcServerExtendedClient], makes a token for
    each request and sends both to [Server.handle]; it is the instance
    [extended_client_api].

    A request that fails, that the server panics on, or that is not answered
    is [None] for the caller; what the server has changed before stays. *)

From S2P Require Import Prelude Bytes Codec DkgAuth Dkg.
From S2P Require Import Bitcoin Psbt Types CoinSelection Database Util Coordinator Signer PegoutScheduler Peg.
From S2P Require Import Federation Jwt Rpc Server.

Open Scope Z_scope.

Class BtcServerApi (S : Type) := call : Request → S → S * option Response.

(** The token's expiry, in the year 2286. *)
Definition TOKEN_EXPIRY : Z := 10000000000.

Inductive GrpcClientError := CallFailed | JwtFailed.

Section client.
Context `{!JwtLib}.

Record ExtendedClient := mkClient { ec_jwt_secret : option JwtSecret }.

Definition update_jwt_secret (jwt_secret : JwtSecret) (c : ExtendedClient) : ExtendedClient := mkClient (Some jwt_secret).

(** The clock is read when the token is made, and twice when the client
    validates its own token. *)
Definition generate_jwt_token (created now now' : Z) (c : ExtendedClient) : outcome GrpcClientError (option bytes) :=
  match ec_jwt_secret c with
  | None => Ok None
  | Some jwt_secret =>
      let? jwt_token := ok_or (encode_claims jwt_secret (mkClaims created (Some TOKEN_EXPIRY))) JwtFailed in
      let? _ := map_err (λ _, JwtFailed) (validate_token jwt_secret jwt_token now now') in
      Ok (Some jwt_token)
  end.

End client.

Section api.
Context `{!BitcoinLib, !FrostLib, !PsbtLib, !FrostSign, !BdkLib, !Bitcoind, !DkgLib, !Profile, !JwtLib, !PegLib, !ServerLib}.

(** [insert_bin] encodes a token in base64. *)
Context (base64_encode : bytes → bytes).

(** One call, on a client whose clock reads the given times. *)
Definition client_call (fuel : nat) (created now now' : Z) (c : ExtendedClient) (req : Request) (a : App)
    : App * option Response :=
  match generate_jwt_token created now now' c with
  | Ok token =>
      match handle fuel (base64_encode <$> token) req a with
      | (a', Ok r) => (a', Some r)
      | (a', _) => (a', None)
      end
  | _ => (a, None)
  end.

(** [clock] gives the three readings of the client's clock for a call. *)
Definition extended_client_api (fuel : nat) (clock : App → Z * Z * Z) (c : ExtendedClient) : BtcServerApi App :=
  λ req a, let '(created, now, now') := clock a in client_call fuel created now now' c req a.

(** An answered call was answered by the server. *)
Lemma client_call_Some fuel created now now' c req a a' r :
  client_call fuel created now now' c req a = (a', Some r) →
  ∃ token, generate_jwt_token created now now' c = Ok token ∧
    handle fuel (base64_encode <$> token) req a = (a', Ok r).
Proof.
  unfold client_call. destruct (generate_jwt_token _ _ _ _) as [token|e|]; [|done..].
  destruct (handle _ _ _ _) as [a1 [r1|e|]] eqn:Hh; [|done..]. intros [= <- <-]. by exists token.
Qed.

End api.

(** ** Logging

    A server that remembers the requests it has received, with its answers;
    what is proved of a task for every server holds for this one. *)

Definition Recorded (S : Type) : Type := S * list (Request * option Response).

Definition recorded {S : Type} (api : BtcServerApi S) : BtcServerApi (Recorded S) := λ req s,
  let '(s', r) := api req s.1 in ((s', s.2 ++ [(req, r)]), r).

(** [served P s s']: the server has come from [s] to [s'] by requests that [P]
    admits of the server in the state in which it receives them. *)
Definition served {S : Type} `{!BtcServerApi S} (P : S → Request → Prop) : relation S :=
  rtc (λ s s', ∃ req, P s req ∧ s' = (call req s).1).
