(* ===== verification/DataParser.v ===== *)
(** * The data parser

    src/crates/botanix-data-parser/src: serialization in one of three formats
    and an optional compression strategy, and the wrapper of protobuf messages.
    The formats are the parameter [SerdeLib], a strategy is a record of two
    functions. *)

From S2P Require Import Prelude Bytes Server.

Open Scope Z_scope.

Inductive SerializationType := Bincode | Postcard | Json.

#[export] Instance SerializationType_eq_dec : EqDecision SerializationType.
Proof. solve_decision. Defined.

(** [CompressionError] and [SerdeError] without their causes *)
Inductive ParserError := Compression | Serde (t : SerializationType).

Record CompressionStrategy := mkStrategy {
  compress_bytes : bytes → option bytes;
  decompress_bytes : bytes → option bytes }.

Class SerdeLib (T : Type) := {
  to_format : SerializationType → T → option bytes;
  from_format : SerializationType → bytes → option T }.

Record DataParser := mkParser {
  compression_strategy : option CompressionStrategy;
  serialization_type : SerializationType }.

Definition default_parser : DataParser := mkParser None Json.

Definition with_compression_strategy (s : CompressionStrategy) (p : DataParser) : DataParser :=
  mkParser (Some s) (serialization_type p).

Definition with_serialization_type (t : SerializationType) (p : DataParser) : DataParser :=
  mkParser (compression_strategy p) t.

Definition compress (p : DataParser) (data : bytes) : outcome ParserError bytes :=
  match compression_strategy p with
  | Some strategy => ok_or (compress_bytes strategy data) Compression
  | None => Ok data
  end.

Definition decompress (p : DataParser) (data : bytes) : outcome ParserError bytes :=
  match compression_strategy p with
  | Some strategy => ok_or (decompress_bytes strategy data) Compression
  | None => Ok data
  end.

Section serde.
Context {T : Type} `{!SerdeLib T}.

Definition serialize_as (t : SerializationType) (raw_data : T) : outcome ParserError bytes :=
  ok_or (to_format t raw_data) (Serde t).

Definition deserialize_as (t : SerializationType) (raw_data : bytes) : outcome ParserError T :=
  ok_or (from_format t raw_data) (Serde t).

Definition encode (p : DataParser) (data : T) : outcome ParserError bytes :=
  let? serialized_data := serialize_as (serialization_type p) data in compress p serialized_data.

Definition decode (p : DataParser) (data : bytes) : outcome ParserError T :=
  let? data := decompress p data in deserialize_as (serialization_type p) data.

Definition encode_json (p : DataParser) (data : T) : outcome ParserError bytes := serialize_as Json data.

Definition decode_json (p : DataParser) (data : bytes) : outcome ParserError T := deserialize_as Json data.

(** A parser reads back what it has written, when its format and its strategy do. *)
Theorem parser_roundtrip p (data : T) b :
  (∀ b, to_format (serialization_type p) data = Some b → from_format (serialization_type p) b = Some data) →
  (∀ s b c, compression_strategy p = Some s → compress_bytes s b = Some c → decompress_bytes s c = Some b) →
  encode p data = Ok b → decode p b = Ok data.
Proof.
  intros Hserde Hcomp. unfold encode, decode, serialize_as, deserialize_as.
  intros (x & Hx%ok_or_Ok & Hc)%obind_Ok. rewrite obind_Ok. exists x. split; [|by apply ok_or_Ok, Hserde].
  revert Hc. unfold compress, decompress. destruct (compression_strategy p) as [s|] eqn:Hs; [|by intros [= ->]].
  intros Hc%ok_or_Ok. apply ok_or_Ok. by eapply Hcomp.
Qed.

End serde.

(** ** Protobuf messages *)

(** prost's encoding of the batches of finalized pegout ids *)
Class ProstLib := {
  prost_encode : FinalizedBatch → option bytes;
  prost_decode : bytes → option FinalizedBatch }.

Class ProstLaws `{!ProstLib} : Prop := {
  prost_decode_encode b d : prost_encode b = Some d → prost_decode d = Some b }.

Inductive ProstError := ProstEncode | ProstDecode.

Definition prost_serialize `{!ProstLib} (b : FinalizedBatch) : outcome ProstError bytes := ok_or (prost_encode b) ProstEncode.

Definition prost_deserialize `{!ProstLib} (buf : bytes) : outcome ProstError FinalizedBatch :=
  ok_or (prost_decode buf) ProstDecode.
