(* ===== verification/WalletSync.v ===== *)
(** * The synchronization of finalized pegouts

    src/bin/botanix-reth/src/consensus/wallet_state_sync.rs with the records
    of src/crates/botanix-storage/src/models/wallet_sync.rs and their table
    (provider/database/wallet_state_sync.rs there).  At the start of an epoch a
    node asks its peers for their finalized pegouts; the answers come in
    chunks, are collected in a record per peer, and, once enough records are
    complete, the union of the records replaces the finalized pegouts of the
    node's btc-server.

    A message of a peer is one transition ([handle_wallet_state]), and so is the
    notification of a block ([handle_canon_event]).  The answers of the storage
    are the schedule [ws_io], as in [Database]; the pegouts of a block are those
    of [get_block_pegouts]; the server is any [BtcServerApi]. *)

From S2P Require Import Prelude Bytes Bitcoin Psbt Types Database Codec Peg Edh Mint.
From S2P Require Import Execution Jwt Rpc Consensus NodeUtils Server Client DataParser.
From stdpp Require Import gmap.

Open Scope Z_scope.

(** ** Records *)

Record WalletStateSyncRecord := mkSyncRecord {
  wr_uuid : bytes;
  wr_data : list bytes;
  wr_blocks : list Z;
  wr_chunks_count : Z;
  wr_peer_id : bytes }.

Definition sync_record_new (peer_id uuid : bytes) (chunks_count : Z) (data : option (list (Z * bytes)))
    : WalletStateSyncRecord :=
  match data with
  | Some tuples => mkSyncRecord uuid tuples.*2 tuples.*1 chunks_count peer_id
  | None => mkSyncRecord uuid [] [] chunks_count peer_id
  end.

(** A chunk whose data or whose block is there already is not added. *)
Definition add_data_if_not_exists (data_chunk : bytes) (block_number : Z) (r : WalletStateSyncRecord)
    : WalletStateSyncRecord * bool :=
  if existsb (λ data, bool_decide (data = data_chunk)) (wr_data r) then (r, false) else
  if existsb (λ block, block =? block_number) (wr_blocks r) then (r, false) else
  (mkSyncRecord (wr_uuid r) (wr_data r ++ [data_chunk]) (wr_blocks r ++ [block_number]) (wr_chunks_count r)
     (wr_peer_id r), true).

Definition append_data_with_block (additional_data : bytes) (block_number : Z) (r : WalletStateSyncRecord)
    : WalletStateSyncRecord := (add_data_if_not_exists additional_data block_number r).1.

Definition append_data_block_chunks (additional_data_chunks : list bytes) (blocks : list Z) (r : WalletStateSyncRecord)
    : WalletStateSyncRecord :=
  foldl (λ r e, append_data_with_block e.2 e.1 r) r (zip blocks additional_data_chunks).

Definition blocks_and_data_to_set (r : WalletStateSyncRecord) : gset (Z * bytes) :=
  list_to_set (zip (wr_blocks r) (wr_data r)).

Definition sync_record_size (r : WalletStateSyncRecord) : Z :=
  32 + 64 + sumZ (map (λ d, Z.of_nat (length d)) (wr_data r)) + Z.of_nat (length (wr_blocks r)) * 8.

(** A UUID is 16 bytes. *)
Definition uuid_to_b256 (uuid : bytes) : bytes := uuid ++ replicate 16 0.

(** ** The table *)

Abbreviation SyncTable := (gmap bytes WalletStateSyncRecord).

Definition create_new_state_sync_record (uuid peer_id : bytes) (chunks_count : Z) (data : option (list (Z * bytes)))
    (t : SyncTable) : SyncTable := <[peer_id := sync_record_new peer_id uuid chunks_count data]> t.

Definition append_data_to_state_sync_record (peer_id : bytes) (data : list (Z * bytes)) (t : SyncTable) : SyncTable :=
  match t !! peer_id with
  | Some r => <[peer_id := foldl (λ r e, append_data_with_block e.2 e.1 r) r data]> t
  | None => t
  end.

Definition remove_state_sync_record_per_peer_id (peer_id : bytes) (t : SyncTable) : SyncTable := delete peer_id t.

Definition get_state_sync_record_peer_ids (t : SyncTable) : list bytes := map (λ e, wr_peer_id e.2) (map_to_list t).

Definition remove_all_state_sync_records (t : SyncTable) : SyncTable :=
  foldl (λ t k, delete k t) t (get_state_sync_record_peer_ids t).

(** A record with at least as many entries as its peer announced chunks. *)
Definition record_complete (r : WalletStateSyncRecord) : bool := wr_chunks_count r <=? Z.of_nat (length (wr_data r)).

Definition reached_peers (t : SyncTable) : SyncTable := filter (λ e, record_complete e.2 = true) t.

Definition get_minimum_superset (min_required_criterion : Z) (t : SyncTable) : bool * gset (Z * bytes) :=
  if Z.of_nat (size (reached_peers t)) <? min_required_criterion then (false, ∅) else
  (true, ⋃ (map (λ e, blocks_and_data_to_set e.2) (map_to_list (reached_peers t)))).

(** ** The engine *)

(** [Uuid::parse_str] *)
Class UuidLib := uuid_parse_str : bytes → option bytes.

(** The answer of a peer, or the request of one when it has no data. *)
Record WalletStateMessage := mkWalletMessage { wm_uuid : bytes; wm_finalized_pegout_ids : bytes }.

Record SyncEngine (S : Type) := mkSyncEngine {
  ws_records : SyncTable;
  ws_cycle : option bytes;
  ws_io : list bool;
  ws_server : S }.
Arguments mkSyncEngine {S}.
Arguments ws_records {S}.
Arguments ws_cycle {S}.
Arguments ws_io {S}.
Arguments ws_server {S}.

(** [DataParser::default().with_serialization_type(Postcard)] *)
Definition sync_parser : DataParser := with_serialization_type Postcard default_parser.

Section engine.
Context {S : Type} `{!BtcServerApi S}.
Context `{!PegLib, !Evm, !NodeLib, !MintLib, !NodeClient, !UuidLib, !ProstLib}.
Context (btc_network : Network) (min_signers epoch_length : Z).

Abbreviation W A := (M (SyncEngine S) unit A).

(** A call to the storage fails as the schedule says; a failing call writes
    nothing. *)
Definition storage {A} (f : SyncTable → SyncTable * A) : W A := λ s,
  match ws_io s with
  | true :: io => (mkSyncEngine (ws_records s) (ws_cycle s) io (ws_server s), Err tt)
  | io => let '(t, a) := f (ws_records s) in (mkSyncEngine t (ws_cycle s) (tail io) (ws_server s), Ok a)
  end.

Definition storage_read {A} (f : SyncTable → A) : W A := storage (λ t, (t, f t)).

Definition storage_write (f : SyncTable → SyncTable) : W unit := storage (λ t, (f t, tt)).

(** The error of the call is only logged. *)
Definition send_request (req : Request) : W unit := λ s,
  (mkSyncEngine (ws_records s) (ws_cycle s) (ws_io s) (call req (ws_server s)).1, Ok tt).

(** The received ids by block, and the ones among them that the block burned. *)
Definition superset_map (minimum_superset : gset (Z * bytes)) : gmap Z (list bytes) :=
  foldl (λ m e, <[e.1 := default [] (m !! e.1) ++ [e.2]]> m) ∅ (elements minimum_superset).

Definition hydrate_item (pegouts_in_block : list (PegoutId * Z)) (item : bytes) : option (PegoutId * Z) :=
  match PegoutId_from_bytes item with
  | Ok pegout_id => snd <$> list_find (λ p, p.1 = pegout_id) pegouts_in_block
  | _ => None
  end.

Definition hydrate_block (now : Z) (entry : Z * list bytes) : outcome EpochPegoutsError (Z * list (PegoutId * Z)) :=
  let '(block, data) := entry in
  let? pegouts_in_block := get_block_pegouts btc_network now block (Some MAX_BLOCK_TS_CUTOFF_DURATION) in
  Ok (block, omap (hydrate_item pegouts_in_block) data).

Definition hydrate_minimum_superset (now : Z) (minimum_superset : gset (Z * bytes))
    : outcome EpochPegoutsError (list (Z * list (PegoutId * Z))) :=
  let? results := omap_all (hydrate_block now) (map_to_list (superset_map minimum_superset)) in
  Ok (filter (λ e, e.2 ≠ []) results).

Definition hydrated_messages (hydrated : list (Z * list (PegoutId * Z))) : list RpcFinalizedPegout :=
  mjoin (map (λ e, map (λ p, mkRpcFinalizedPegout (as_bytes p.1) e.1 p.2) e.2) hydrated).

(** The transaction or the cursor may fail to open; a record that cannot be
    sought counts as absent. *)
Definition get_state_sync_record_by_peer_id (peer_id : bytes) : W (option WalletStateSyncRecord) :=
  storage_read (λ _, tt) ;!
  let! found := okM (storage_read (λ t, t !! peer_id)) in
  ret (mjoin found).

(** The record of the peer is started or continued; [false] ends the handling
    of the message. *)
Definition store_chunk (uuid peer_id : bytes) (batch : FinalizedBatch) : W bool :=
  let data := map (λ p, (rf_botanix_block_height p, rf_id p)) (fb_data batch) in
  let! record := okM (get_state_sync_record_by_peer_id peer_id) in
  match record with
  | None => ret false
  | Some (Some record) =>
      if negb (bool_decide (wr_uuid record = uuid_to_b256 uuid)) then ret false else
      let! written := okM (storage_write (append_data_to_state_sync_record (wr_peer_id record) data)) in
      ret (bool_decide (is_Some written))
  | Some None =>
      let! written := okM (storage_write (create_new_state_sync_record (uuid_to_b256 uuid) peer_id
                                            (fb_total_chunks batch) (Some data))) in
      ret (bool_decide (is_Some written))
  end.

(** Once enough records are complete the server is told, and whatever it
    answers the records are removed. *)
Definition try_reset (now : Z) : W unit :=
  let! superset := okM (storage_read (get_minimum_superset min_signers)) in
  match superset with
  | Some (true, minimum_superset) =>
      match hydrate_minimum_superset now minimum_superset with
      | Panic => panic
      | Err _ => ret tt
      | Ok hydrated =>
          send_request (ResetWalletState (hydrated_messages hydrated)) ;!
          let! _ := okM (storage_write remove_all_state_sync_records) in
          ret tt
      end
  | _ => ret tt
  end.

(** One turn of the loop of [sync_wallet_state]; [now] is the clock. *)
Definition handle_wallet_state (now : Z) (peer_id : bytes) (wallet_state : WalletStateMessage) : W unit :=
  match uuid_parse_str (wm_uuid wallet_state) with
  | None => ret tt
  | Some request_uuid =>
  if bool_decide (wm_finalized_pegout_ids wallet_state = []) then ret tt else
  match decompress sync_parser (wm_finalized_pegout_ids wallet_state) with
  | Panic => panic
  | Err _ => ret tt
  | Ok finalized_pegout_ids_decompressed =>
  match prost_deserialize finalized_pegout_ids_decompressed with
  | Panic => panic
  | Err _ => ret tt
  | Ok batch =>
  let! s := get in
  match ws_cycle s with
  | None => ret tt
  | Some uuid =>
  if negb (bool_decide (uuid = request_uuid)) then ret tt else
  let! stored := store_chunk uuid peer_id batch in
  if stored then try_reset now else ret tt
  end end end end.

(** A committed block starts a cycle when its number starts an epoch; [uuid] is
    drawn at random and sent to the peers. *)
Definition handle_canon_event (block_number : Z) (uuid : bytes) : W unit :=
  if negb (is_poa_epoch block_number epoch_length) || (block_number =? 0) then ret tt else
  modify (λ s, mkSyncEngine (ws_records s) (Some uuid) (ws_io s) (ws_server s)).

Inductive SyncEvent :=
| PeerAnswer (now : Z) (peer_id : bytes) (wallet_state : WalletStateMessage)
| BlockCommitted (block_number : Z) (uuid : bytes).

Definition handle_event (e : SyncEvent) : W unit :=
  match e with
  | PeerAnswer now peer_id wallet_state => handle_wallet_state now peer_id wallet_state
  | BlockCommitted block_number uuid => handle_canon_event block_number uuid
  end.

Definition run_events (es : list SyncEvent) (s : SyncEngine S) : SyncEngine S :=
  foldl (λ s e, (handle_event e s).1) s es.

End engine.

(** ** What a node tells its server *)

Section sync_theorems.
Context {S : Type} `{!BtcServerApi S}.
Context `{!PegLib, !Evm, !NodeLib, !MintLib, !NodeClient, !UuidLib, !ProstLib}.
Context (btc_network : Network) (min_signers epoch_length : Z).

Implicit Types s : SyncEngine S.

Lemma storage_cases {A} (f : SyncTable → SyncTable * A) s s' o :
  okM (E':=unit) (storage f) s = (s', o) →
  ws_cycle s' = ws_cycle s ∧ ws_server s' = ws_server s ∧
  ((ws_records s' = ws_records s ∧ o = Ok None) ∨
   (ws_records s' = (f (ws_records s)).1 ∧ o = Ok (Some (f (ws_records s)).2))).
Proof.
  unfold okM, storage. destruct s as [t c [|[] io] srv]; cbn; destruct (f t) as [t' a];
    intros [= <- <-]; cbn; naive_solver.
Qed.

(** The record of a peer, which is taken for absent when the seek fails. *)
Lemma record_cases peer s s' o :
  okM (E':=unit) (get_state_sync_record_by_peer_id peer) s = (s', o) →
  ws_cycle s' = ws_cycle s ∧ ws_server s' = ws_server s ∧ ws_records s' = ws_records s ∧
  (o = Ok None ∨ o = Ok (Some None) ∨ o = Ok (Some (ws_records s !! peer))) ∧
  (ws_io s = [] → ws_io s' = [] ∧ o = Ok (Some (ws_records s !! peer))).
Proof.
  unfold okM, get_state_sync_record_by_peer_id, storage_read, storage, bindM, okM.
  destruct s as [t c [|[] [|[] io]] srv]; cbn; intros [= <- <-]; cbn;
    (split; [done|split; [done|split; [done|split; naive_solver]]]).
Qed.

Lemma store_chunk_spec uuid peer batch s s' o :
  store_chunk uuid peer batch s = (s', o) →
  ws_cycle s' = ws_cycle s ∧ ws_server s' = ws_server s ∧ ∃ b, o = Ok b ∧
    (∀ p, p ≠ peer → (∀ r, ws_records s !! peer = Some r → wr_peer_id r = peer) → ws_records s' !! p = ws_records s !! p) ∧
    (∀ r, ws_io s = [] → ws_records s !! peer = Some r → wr_uuid r ≠ uuid_to_b256 uuid →
       b = false ∧ ws_records s' = ws_records s ∧ ws_io s' = []).
Proof.
  unfold store_chunk, bindM. destruct (okM _ s) as [s1 o1] eqn:E1.
  apply record_cases in E1 as (Hc & Hv & Ht & Hcases & Hans).
  assert (o1 = Ok None ∨ ∃ r, o1 = Ok (Some r) ∧ (ws_records s !! peer = r ∨ r = None)) as [->|(r & -> & Hr)].
  { destruct Hcases as [->|[->| ->]]; [by left|right; eexists; by eauto..]. }
  { intros [= <- <-]. split_and!; [done..|]. exists false. rewrite Ht. split_and!; [done..|]. by intros r [_ [=]]%Hans. }
  destruct r as [r|]; [destruct Hr as [Hr|]; [|done]|].
  - destruct (bool_decide_reflect (wr_uuid r = uuid_to_b256 uuid)) as [Hu|Hu]; cbn [negb].
    2:{ intros [= <- <-]. split_and!; [done..|]. exists false. rewrite Ht. split_and!; [done..|]. by intros r' [Hio _]%Hans _ _. }
    destruct (okM _ s1) as [s2 o2] eqn:E2. apply storage_cases in E2 as (Hc2 & Hv2 & Hcase).
    destruct Hcase as [[Ht2 ->]|[Ht2 ->]]; intros [= <- <-]; (split_and!; [congruence..|]); eexists; (split; [done|]);
      (split; [|intros r' _ Hr' Hne; congruence]).
    + by rewrite Ht2, Ht.
    + intros p Hp Hid. rewrite Ht2, Ht. cbn. unfold append_data_to_state_sync_record.
      rewrite (Hid r Hr), Hr. by rewrite lookup_insert_ne.
  - destruct (okM _ s1) as [s2 o2] eqn:E2. apply storage_cases in E2 as (Hc2 & Hv2 & Hcase).
    destruct Hcase as [[Ht2 ->]|[Ht2 ->]]; intros [= <- <-]; (split_and!; [congruence..|]); eexists; (split; [done|]);
      (split; [|intros r [_ [= Hrec]]%Hans Hr'; congruence]).
    + by rewrite Ht2, Ht.
    + intros p Hp _. rewrite Ht2, Ht. cbn. unfold create_new_state_sync_record. by rewrite lookup_insert_ne.
Qed.

(** Where the items of the superset come from. *)
Lemma superset_map_elem (X : gset (Z * bytes)) block data item :
  superset_map X !! block = Some data → item ∈ data → (block, item) ∈ X.
Proof.
  unfold superset_map.
  assert (∀ l (m : gmap Z (list bytes)),
    (∀ b d i, m !! b = Some d → i ∈ d → (b, i) ∈ X) → (∀ e, e ∈ l → e ∈ X) →
    ∀ b d i, foldl (λ m e, <[e.1 := default [] (m !! e.1) ++ [e.2]]> m) m l !! b = Some d → i ∈ d → (b, i) ∈ X) as Hfold.
  { induction l as [|[b0 i0] l IH]; intros m Hm Hl; [done|]. cbn [foldl]. apply IH.
    - intros b d i. cbn. destruct (decide (b = b0)) as [->|Hne].
      + rewrite lookup_insert_eq. intros [= <-] [Hi|Hi]%elem_of_app.
        * destruct (m !! b0) as [d|] eqn:Hd; cbn in Hi; [by eapply Hm|by apply not_elem_of_nil in Hi].
        * apply list_elem_of_singleton in Hi as ->. apply Hl. by left.
      + rewrite lookup_insert_ne by done. apply Hm.
    - intros e He. apply Hl. by right. }
  intros Hd Hi. eapply (Hfold (elements X) ∅); [|by intros e He%elem_of_elements|exact Hd|exact Hi].
  intros b d i. by rewrite lookup_empty.
Qed.

(** One pegout the server is told of: the block burned it, recently enough, and
    some complete record of a peer names it. *)
Definition reported (now : Z) (t : SyncTable) (m : RpcFinalizedPegout) : Prop :=
  ∃ block id time item pegouts peer r,
    m = mkRpcFinalizedPegout (as_bytes id) block time ∧ PegoutId_from_bytes item = Ok id ∧
    get_block_pegouts btc_network now block (Some MAX_BLOCK_TS_CUTOFF_DURATION) = Ok pegouts ∧ (id, time) ∈ pegouts ∧
    t !! peer = Some r ∧ record_complete r = true ∧ (block, item) ∈ blocks_and_data_to_set r.

Lemma hydrated_reported now t b X hydrated :
  get_minimum_superset min_signers t = (b, X) → hydrate_minimum_superset btc_network now X = Ok hydrated →
  Forall (reported now t) (hydrated_messages hydrated).
Proof.
  unfold get_minimum_superset. intros Hsup Hh. apply Forall_forall. intros m Hm.
  unfold hydrated_messages in Hm. apply list_elem_of_join in Hm as (l & Hl & (e & -> & He)%list_elem_of_fmap).
  apply list_elem_of_fmap in Hl as ([id time] & -> & Hp).
  unfold hydrate_minimum_superset in Hh. apply obind_Ok in Hh as (results & Hres & [= <-]).
  apply list_elem_of_filter in He as [_ He].
  apply omap_all_Ok in Hres. apply list_elem_of_lookup in He as [i Hi].
  destruct (Forall2_lookup_r _ _ _ _ _ Hres Hi) as ([block data] & Hdata & Hblock).
  unfold hydrate_block in Hblock. apply obind_Ok in Hblock as (pegouts & Hg & [= <-]).
  apply list_elem_of_lookup_2 in Hdata. apply elem_of_map_to_list in Hdata.
  cbn in Hp. apply list_elem_of_omap in Hp as (item & Hitem & Hh).
  unfold hydrate_item in Hh. destruct (PegoutId_from_bytes item) as [id'|e|] eqn:Hid; [|done..].
  apply fmap_Some in Hh as ([j p] & Hfind & Heq). cbn in Heq. subst p.
  apply list_find_Some in Hfind as (Hj & Hsame & _). cbn in Hsame. subst id'.
  pose proof (superset_map_elem _ _ _ _ Hdata Hitem) as HX.
  destruct (Z.of_nat (size (reached_peers t)) <? min_signers).
  { injection Hsup as _ <-. set_solver. }
  injection Hsup as _ <-. apply elem_of_union_list in HX as (Y & HY & HX).
  apply list_elem_of_fmap in HY as ([peer r] & -> & Hr). apply elem_of_map_to_list in Hr.
  apply map_lookup_filter_Some in Hr as [Hr Hc].
  exists block, id, time, item, pegouts, peer, r. split_and!; [done|done|exact Hg| |done|done|exact HX].
  by eapply list_elem_of_lookup_2.
Qed.

(** C19.  The server is made to replace its finalized pegouts only by pegouts that
    the node's own chain has burned in the last three months, in the block and
    at the time that they are recorded with: whatever the peers send, each
    entry is an executed pegout that a peer with a complete record named, and
    at least [min_signers] records are complete. *)
Theorem sync_resets_only_burned now peer msg s s' o :
  (∀ p r, ws_records s !! p = Some r → wr_peer_id r = p) →
  handle_wallet_state btc_network min_signers now peer msg s = (s', o) →
  ws_server s' = ws_server s ∨
  ∃ ids t, ws_server s' = (call (ResetWalletState ids) (ws_server s)).1 ∧ Forall (reported now t) ids ∧
    min_signers ≤ Z.of_nat (size (reached_peers t)) ∧
    (∀ p, p ≠ peer → t !! p = ws_records s !! p).
Proof.
  intros Hkeys. unfold handle_wallet_state.
  destruct (uuid_parse_str _) as [u|]; [|intros [= <- _]; by left].
  case_bool_decide; [intros [= <- _]; by left|].
  destruct (decompress _ _) as [d|e|]; [|intros [= <- _]; by left..].
  destruct (prost_deserialize d) as [batch|e|]; [|intros [= <- _]; by left..].
  unfold bindM at 1. cbn [get].
  destruct (ws_cycle s) as [uuid|]; [|intros [= <- _]; by left].
  case_bool_decide; cbn [negb]; [|intros [= <- _]; by left].
  unfold bindM at 1. destruct (store_chunk uuid peer batch s) as [s1 o1] eqn:Hst.
  apply store_chunk_spec in Hst as (_ & Hsrv & b & -> & Hother & _).
  destruct b; [|intros [= <- _]; by left].
  unfold try_reset, bindM at 1. destruct (okM _ s1) as [s2 o2] eqn:E2.
  apply storage_cases in E2 as (_ & Hsrv2 & [[Ht2 ->]|[Ht2 ->]]); [intros [= <- _]; left; congruence|]. cbn in *.
  destruct (get_minimum_superset min_signers (ws_records s1)) as [[] X] eqn:Hsup; [|intros [= <- _]; left; congruence].
  destruct (hydrate_minimum_superset btc_network now X) as [hydrated|e|] eqn:Hh; [|intros [= <- _]; left; congruence..].
  unfold bindM at 1, send_request at 1. cbn. unfold bindM at 1.
  destruct (okM _ _) as [s3 o3] eqn:E3. apply storage_cases in E3 as (_ & Hsrv3 & Hcase). cbn in Hsrv3.
  intros Hend. assert (s' = s3) as ->.
  { destruct Hcase as [[_ ->]|[_ ->]]; by injection Hend as <- _. }
  right. exists (hydrated_messages hydrated), (ws_records s1). split_and!.
  - by rewrite Hsrv3, Hsrv2, Hsrv.
  - by eapply hydrated_reported.
  - unfold get_minimum_superset in Hsup.
    destruct (Z.ltb_spec (Z.of_nat (size (reached_peers (ws_records s1)))) min_signers); [done|lia].
  - intros p Hp. by apply Hother; [|apply Hkeys].
Qed.

Lemma uuid_to_b256_inj u v : uuid_to_b256 u = uuid_to_b256 v → u = v.
Proof. apply app_inj_2. done. Qed.

Lemma stale_answer now p msg s s' o u r :
  ws_io s = [] → ws_cycle s ≠ Some u → ws_records s !! p = Some r → wr_uuid r = uuid_to_b256 u →
  handle_wallet_state btc_network min_signers now p msg s = (s', o) →
  ws_records s' = ws_records s ∧ ws_server s' = ws_server s ∧ ws_cycle s' ≠ Some u ∧ ws_io s' = [].
Proof.
  intros Hio Hcycle Hr Hu. unfold handle_wallet_state. destruct (uuid_parse_str _) as [v|]; [|by intros [= <- _]].
  case_bool_decide; [by intros [= <- _]|].
  destruct (decompress _ _) as [d|e|]; [|by intros [= <- _]..].
  destruct (prost_deserialize d) as [batch|e|]; [|by intros [= <- _]..].
  unfold bindM at 1. cbn [get]. destruct (ws_cycle s) as [w|] eqn:Hw; [|intros [= <- _]; by rewrite Hw].
  case_bool_decide; cbn [negb]; [|intros [= <- _]; by rewrite Hw]. unfold bindM.
  destruct (store_chunk w p batch s) as [s2 o2] eqn:Hst.
  apply store_chunk_spec in Hst as (Hc2 & Hs2 & b & -> & _ & Hno).
  destruct (Hno r Hio Hr) as (-> & Ht2 & Hio2); [|intros [= <- _]; by rewrite Ht2, Hs2, Hc2, Hw].
  rewrite Hu. intros Heq%uuid_to_b256_inj. congruence.
Qed.

(** A synchronization that has not finished in its epoch never finishes: a
    peer whose record is left over from an earlier cycle is not listened to
    any more, so with such records of all its peers the node ignores every
    answer of every later cycle, and neither its records nor its server ever
    change again, while its storage answers.  Records are removed by a
    synchronization that finishes only. *)
Lemma stale_records_silence_peers es s u :
  ws_io s = [] → ws_cycle s ≠ Some u →
  (∀ n uuid, BlockCommitted n uuid ∈ es → uuid ≠ u) →
  (∀ now p msg, PeerAnswer now p msg ∈ es → ∃ r, ws_records s !! p = Some r ∧ wr_uuid r = uuid_to_b256 u) →
  ws_records (run_events btc_network min_signers epoch_length es s) = ws_records s ∧
  ws_server (run_events btc_network min_signers epoch_length es s) = ws_server s.
Proof.
  revert s. induction es as [|e es IH]; intros s Hio Hcycle Hfresh Hstale; [done|]. cbn [run_events foldl].
  destruct (handle_event btc_network min_signers epoch_length e s) as [s1 o] eqn:He. cbn [fst].
  assert (ws_records s1 = ws_records s ∧ ws_server s1 = ws_server s ∧ ws_cycle s1 ≠ Some u ∧ ws_io s1 = [])
    as (Ht & Hsrv & Hc & Hio1).
  { destruct e as [now p msg|n uuid]; cbn [handle_event] in He.
    - destruct (Hstale now p msg) as (r & Hr & Hu); [by left|]. by eapply stale_answer.
    - revert He. unfold handle_canon_event. destruct (_ || _); [by intros [= <- _]|]. intros [= <- _]. cbn.
      split_and!; [done..| |done]. intros [= ->]. by apply (Hfresh n u); [left|]. }
  destruct (IH s1 Hio1 Hc) as [Ht1 Hs1].
  - intros m v Hin. eapply Hfresh. by right.
  - intros now p msg Hin. rewrite Ht. eapply Hstale. by right.
  - change (foldl _ s1 es) with (run_events btc_network min_signers epoch_length es s1). by rewrite Ht1, Hs1, Ht, Hsrv.
Qed.

End sync_theorems.
