(* ===== verification/SyncRun.v ===== *)
(** * Synchronizations of concrete nodes

    A node whose server has finalized three pegouts of one block, and two
    peers that have finalized the same ones; the runs on which the theorems of
    [WalletSync] are applied. *)

From S2P Require Import Prelude Bytes Codec DkgAuth Dkg DkgRun.
From S2P Require Import Bitcoin Psbt Types Concrete CoinSelection Database Merkle Util.
From S2P Require Import Coordinator Signer PegoutScheduler Peg Edh Mint Execution Federation Jwt Rpc Server ServerRun.
From S2P Require Import Consensus NodeUtils Client DataParser WalletSync.

Open Scope Z_scope.

#[local] Existing Instances Toy.toy_dkg Toy.toy_laws Toy.debug.

(** ** The libraries *)

#[local] Instance sync_uuid : UuidLib := λ b, if (length b =? 16)%nat then Some b else None.

Definition encode_id (p : RpcFinalizedPegout) : bytes :=
  rf_botanix_block_height p :: rf_botanix_block_timestamp p :: rf_id p.

Definition decode_id (b : bytes) : option RpcFinalizedPegout :=
  match b with height :: time :: id => Some (mkRpcFinalizedPegout id height time) | _ => None end.

(** The ids of a batch have 36 bytes. *)
#[local] Instance sync_prost : ProstLib := {
  prost_encode b := Some (fb_chunk_index b :: fb_total_chunks b :: Z.b2z (fb_is_final b) :: concat (map encode_id (fb_data b)));
  prost_decode b :=
    match b with
    | index :: total :: final :: data => Some (mkBatch (omap decode_id (chunks 38 data)) index total (final =? 1))
    | _ => None
    end }.

(** Block 7 burned the pegouts of three transactions. *)
#[local] Instance sync_client : NodeClient := {
  receipt_by_hash h := Ok None;
  transaction_block _ := Ok (Some 7);
  header_timestamp _ := Ok (Some 8000000);
  block_by_number n := Ok (if n =? 7 then Some (mkBlockSummary 7 1 8000000) else None);
  transactions_by_block _ := Ok (Some [replicate 32 1; replicate 32 2; replicate 32 3]);
  receipts_by_block _ := Ok (Some (replicate 3 (toy_burn_receipt 50000))) }.

#[local] Instance sync_api : BtcServerApi App :=
  extended_client_api (λ b, b) 10 (λ _, (0, 0, 0)) (mkClient None).

(** ** The servers *)

Definition paid_ids : list PegoutId := map toy_pegout_id [1; 2; 3].

Definition paid_db : Db :=
  set_finalized_pegout_ids
    (list_to_map (map (λ n, (as_bytes (toy_pegout_id n), mkFinalizedPegout (toy_pegout_id n) 7 (Some 8000000))) [1; 2; 3]))
    toy_server_db.

Definition paid_app : App := set_scheduler (set_db paid_db (scheduler toy_app)) toy_app.

(** What a peer with the same finalized pegouts answers, two ids in a chunk. *)
Definition honest_chunks : list FinalizedBatch :=
  default [] (ok (get_finalized_pegout_ids_rpc None 2 paid_app).2).

Definition cycle1 : bytes := replicate 16 1.
Definition cycle2 : bytes := replicate 16 2.
Definition peer_a : bytes := replicate 64 10.
Definition peer_b : bytes := replicate 64 11.

Definition answers_of (uuid : bytes) (chunk : FinalizedBatch) : list SyncEvent :=
  map (λ p, PeerAnswer 9000000 p (mkWalletMessage uuid (default [] (prost_encode chunk)))) [peer_a; peer_b].

Definition sync_start : SyncEngine App := mkSyncEngine ∅ None [] paid_app.

Definition honest_run : list SyncEvent := BlockCommitted 10 cycle1 :: mjoin (map (answers_of cycle1) honest_chunks).

Definition run_sync (es : list SyncEvent) (s : SyncEngine App) : SyncEngine App := run_events Regtest 2 10 es s.

Definition finalized_of_server (a : App) : list bool :=
  map (λ id, bool_decide (is_Some (finalized_pegout_ids (app_db a) !! as_bytes id))) paid_ids.

Definition sync_outcome (s : SyncEngine App) : list bool * list (bytes * nat) :=
  (finalized_of_server (ws_server s), map (λ e, (take 1 (wr_uuid e.2), length (wr_data e.2))) (map_to_list (ws_records s))).

Example chunks_are_two : map (λ b, (length (fb_data b), fb_total_chunks b)) honest_chunks = [(2%nat, 2); (1%nat, 2)].
Proof. vm_compute. reflexivity. Qed.
Lemma start_has_all : sync_outcome sync_start = ([true; true; true], []).
Proof. vm_cast_no_check (eq_refl (sync_outcome sync_start)). Qed.

Lemma honest_outcome : sync_outcome (run_sync honest_run sync_start) = ([true; true; false], [([1], 1%nat); ([1], 1%nat)]).
Proof. vm_cast_no_check (eq_refl (sync_outcome (run_sync honest_run sync_start))). Qed.

Lemma honest_leftovers p :
  p ∈ [peer_a; peer_b] →
  ∃ r, ws_records (run_sync honest_run sync_start) !! p = Some r ∧ wr_uuid r = uuid_to_b256 cycle1.
Proof.
  intros Hp.
  assert (Forall (λ p, wr_uuid <$> ws_records (run_sync honest_run sync_start) !! p = Some (uuid_to_b256 cycle1))
    [peer_a; peer_b]) as Hall by (apply (bool_decide_unpack _); vm_cast_no_check I).
  rewrite Forall_forall in Hall. apply Hall, fmap_Some in Hp as (r & Hr & Hu). exists r. split; [exact Hr|symmetry; exact Hu].
Qed.

(** The start of the second epoch. *)
Lemma epoch_event (s : SyncEngine App) :
  let s1 := (handle_event Regtest 2 10 (BlockCommitted 20 cycle2) s).1 in
  ws_records s1 = ws_records s ∧ ws_server s1 = ws_server s ∧ ws_cycle s1 = Some cycle2 ∧ ws_io s1 = ws_io s.
Proof. destruct s as [t c io a]. split_and!; reflexivity. Qed.

Lemma honest_storage_answers : ws_io (run_sync honest_run sync_start) = [].
Proof. vm_cast_no_check (eq_refl ([] : list bool)). Qed.

Lemma run_sync_app es es' s : run_sync (es ++ es') s = run_sync es' (run_sync es s).
Proof. apply foldl_app. Qed.

Lemma run_sync_cons e es s : run_sync (e :: es) s = run_sync es (handle_event Regtest 2 10 e s).1.
Proof. reflexivity. Qed.

Lemma outcome_server s o : sync_outcome s = o → finalized_of_server (ws_server s) = o.1.
Proof. intros <-. reflexivity. Qed.

(** C18.  A synchronization between honest servers loses finalized pegouts, for
    good.  The node's server and two peers have finalized the same three
    pegouts; the peers send them in two chunks.  A record counts as complete
    when it has as many ids as there are chunks, so the first chunks end the
    synchronization: the server forgets the third pegout.  The second chunks
    then start records that no later cycle continues or removes, so whatever
    the two peers send in whatever later cycles with other ids, the server never
    learns of the pegout again.  The node's storage answers throughout. *)
Theorem honest_sync_loses_pegouts es :
  (∀ n uuid, BlockCommitted n uuid ∈ es → uuid ≠ cycle1) →
  (∀ now p msg, PeerAnswer now p msg ∈ es → p ∈ [peer_a; peer_b]) →
  finalized_of_server (ws_server sync_start) = [true; true; true] ∧
  finalized_of_server (ws_server (run_sync (honest_run ++ BlockCommitted 20 cycle2 :: es) sync_start)) =
    [true; true; false].
Proof.
  intros Hfresh Hpeers. split; [exact (outcome_server _ _ start_has_all)|].
  pose proof honest_leftovers as Hleft. pose proof honest_storage_answers as Hio. pose proof (outcome_server _ _ honest_outcome) as Hout.
  rewrite run_sync_app, run_sync_cons. revert Hleft Hio Hout.
  generalize (run_sync honest_run sync_start) as s. intros s Hleft Hio Hout.
  destruct (epoch_event s) as (Hr & Hv & Hc & Hi). rewrite Hio in Hi. cbv zeta in *.
  revert Hr Hv Hc Hi. generalize (handle_event Regtest 2 10 (BlockCommitted 20 cycle2) s).1 as s1. intros s1 Hr Hv Hc Hi.
  destruct (stale_records_silence_peers Regtest 2 10 es s1 cycle1) as [_ Hsrv].
  - exact Hi.
  - rewrite Hc. discriminate.
  - exact Hfresh.
  - intros now p msg Hin. rewrite Hr. eapply Hleft, Hpeers, Hin.
  - unfold run_sync. rewrite Hsrv, Hv. exact Hout.
Qed.

Lemma honest_sync_loses_pegouts_witness :
  finalized_of_server (ws_server (run_sync (honest_run ++ BlockCommitted 20 cycle2 ::
    mjoin (map (answers_of cycle2) honest_chunks)) sync_start)) = [true; true; false].
Proof.
  apply (honest_sync_loses_pegouts (mjoin (map (answers_of cycle2) honest_chunks))).
  - intros n uuid (l & Hl & Hin)%list_elem_of_join. apply list_elem_of_fmap in Hin as (c & -> & _).
    apply list_elem_of_fmap in Hl as (p & [=] & _).
  - intros now p msg (l & Hl & Hin)%list_elem_of_join. apply list_elem_of_fmap in Hin as (c & -> & _).
    apply list_elem_of_fmap in Hl as (q & [= _ -> _] & Hq). exact Hq.
Defined.

(** The message that ends the first synchronization. *)
Definition before_last : SyncEngine App := run_sync (take 2 honest_run) sync_start.

Definition last_answer : WalletStateMessage := mkWalletMessage cycle1 (default [] (prost_encode (nth 0 honest_chunks (mkBatch [] 0 0 false)))).

Lemma last_answer_resets :
  finalized_of_server (ws_server before_last) = [true; true; true] ∧
  finalized_of_server (ws_server (handle_wallet_state Regtest 2 9000000 peer_b last_answer before_last).1) =
    [true; true; false].
Proof.
  split; [vm_cast_no_check (eq_refl [true; true; true])|vm_cast_no_check (eq_refl [true; true; false])].
Qed.

Lemma before_last_keys p r : ws_records before_last !! p = Some r → wr_peer_id r = p.
Proof.
  assert (map_Forall (λ k r, wr_peer_id r = k) (ws_records before_last)) as Hk
    by (apply (bool_decide_unpack _); vm_cast_no_check I).
  apply Hk.
Qed.

Lemma sync_resets_only_burned_witness :
  ∃ ids t,
    ws_server (handle_wallet_state Regtest 2 9000000 peer_b last_answer before_last).1 =
      (call (ResetWalletState ids) (ws_server before_last)).1 ∧
    Forall (reported Regtest 9000000 t) ids ∧ 2 ≤ Z.of_nat (size (reached_peers t)).
Proof.
  pose proof last_answer_resets as [Hbefore Hafter]. pose proof before_last_keys as Hkeys.
  revert Hbefore Hafter Hkeys. generalize before_last as s. intros s.
  destruct (handle_wallet_state Regtest 2 9000000 peer_b last_answer s) as [s' o] eqn:Hs. cbn [fst].
  intros Hbefore Hafter Hkeys.
  destruct (sync_resets_only_burned Regtest 2 9000000 peer_b last_answer s s' o Hkeys Hs)
    as [Hno|(ids & t & Hcall & Hall & Hmin & _)].
  - rewrite Hno, Hbefore in Hafter. discriminate Hafter.
  - exists ids, t. split; [exact Hcall|]. split; [exact Hall|exact Hmin].
Defined.
