(* ===== verification/Signing.v ===== *)
(** * The signing sessions of a node

    src/bin/botanix-reth/src/consensus/signing.rs.  A node keeps a session for
    each block that it signs withdrawals for; the coordinator of the federation
    starts it, the members answer in two rounds.  Every method of
    [SigningStateMachine] is a transition of the sessions, of the btc-server
    (any [BtcServerApi]) and of the network.

    The network of the authorities is not part of the repository: the answers
    to [GetAllConnectedPeers] and the failures of the sends are schedules, as
    those of the disk in [Database], and what was sent is recorded.  A FROST
    identifier is its serialization. *)

From S2P Require Import Prelude Bytes Bitcoin Psbt Types Database Codec Peg Edh Mint.
From S2P Require Import Execution Jwt Rpc Consensus NodeUtils Server Client WalletSync.
From stdpp Require Import gmap.

Open Scope Z_scope.

(** ** The network of the authorities *)

(** [frost::Identifier::try_from] of the index, a [u16], and one *)
Class FrostNet := authority_index_to_frost_identifier : Z → bytes.

Record PeerData := mkPeerData { pd_peer_id : bytes; pd_frost_identifier : bytes }.

Inductive SigningEventResponseType :=
| SignerRound1SigningPackage
| CoordinatorRound1SigningPackage
| SignerRound2SigningPackage
| CoordinatorRound2SigningPackage.

Record SigningResponse := mkSigningResponse {
  sg_response_type : SigningEventResponseType;
  sg_signing_session_id : bytes;
  sg_psbt : bytes }.

(** [DkgResponse] has the fields of the message of the server. *)
Abbreviation DkgResponse := RpcDkgPayload.

Inductive PeerMessageResponse :=
| MsgError
| MsgWalletState (response : WalletStateMessage)
| MsgDkg (response : DkgResponse)
| MsgSigning (response : SigningResponse).

Record FrostHandle := mkHandle {
  fh_peers : list (outcome unit (list PeerData));
  fh_sends : list bool;
  fh_sent : list (bytes * PeerMessageResponse) }.

(** The next answer to [GetAllConnectedPeers]: an error when the command cannot
    be sent, a panic when the answer never comes. *)
Definition connected_peers (h : FrostHandle) : FrostHandle * outcome unit (list PeerData) :=
  match fh_peers h with
  | answer :: peers => (mkHandle peers (fh_sends h) (fh_sent h), answer)
  | [] => (h, Err tt)
  end.

(** A send fails when the receiving side is gone. *)
Definition send_message (peer_id : bytes) (message : PeerMessageResponse) (h : FrostHandle) : FrostHandle * bool :=
  match fh_sends h with
  | true :: sends => (mkHandle (fh_peers h) sends (fh_sent h), false)
  | sends => (mkHandle (fh_peers h) (tail sends) (fh_sent h ++ [(peer_id, message)]), true)
  end.

Record FrostConfig := mkFrostConfig {
  fc_authorities : list PublicKey;
  fc_authority_index : Z;
  fc_min_signers : nat;
  fc_wallet_state_sync_chunk_size : nat }.

(** ** Sessions *)

Inductive SigningState := Initial | Round1 | Round2 | Finalized | Failed.

#[export] Instance SigningState_eq_dec : EqDecision SigningState.
Proof. solve_decision. Defined.

Definition is_running (s : SigningState) : bool :=
  match s with Initial | Finalized | Failed => false | _ => true end.

Definition is_round1 (s : SigningState) : bool := bool_decide (s = Round1).

Definition is_round2 (s : SigningState) : bool := bool_decide (s = Round2).

Record SigningSession := mkSession {
  ss_session_id : bytes;
  ss_state : SigningState;
  ss_coordinator_index : Z;
  ss_original_psbt : option bytes }.

Inductive SigningError :=
| InternalGrpc
| BadSigningSessionId
| FailedToGetPeersHandles
| NotEnoughConnectedPeers
| CoordinatorRetriggeredSession
| SendError.

Record SigningStateMachine (S : Type) := mkSigning {
  sm_signing_states : gmap bytes SigningSession;
  sm_handle : FrostHandle;
  sm_server : S }.
Arguments mkSigning {S}.
Arguments sm_signing_states {S}.
Arguments sm_handle {S}.
Arguments sm_server {S}.

Definition set_states {S : Type} (f : gmap bytes SigningSession → gmap bytes SigningSession) (s : SigningStateMachine S) :=
  mkSigning (f (sm_signing_states s)) (sm_handle s) (sm_server s).

Section sessions.
Context {S : Type}.

Abbreviation SM A := (M (SigningStateMachine S) SigningError A).

Definition update_signing_state (session_id : bytes) (signing_state : SigningState) : SM unit :=
  modify (set_states (alter (λ ss,
    mkSession (ss_session_id ss) signing_state (ss_coordinator_index ss) (ss_original_psbt ss)) session_id)).

Definition signing_session_exists (session_id : bytes) : SM bool :=
  gets (λ s, bool_decide (is_Some (sm_signing_states s !! session_id))).

Definition insert_new_signing_session (session_id : bytes) (coordinator_index : Z) (original_psbt : option bytes)
    (signing_state : SigningState) : SM unit :=
  let! exists_ := signing_session_exists session_id in
  if exists_ then ret tt else
  modify (set_states (insert session_id (mkSession session_id signing_state coordinator_index original_psbt))).

Definition get_signing_session (session_id : bytes) : SM (option SigningSession) :=
  gets (λ s, sm_signing_states s !! session_id).

Definition remove_signing_session (session_id : bytes) : SM unit := modify (set_states (delete session_id)).

(** [is_failed_state], [is_round1_state] and [is_round2_state] *)
Definition in_state (test : SigningState → bool) (session_id : bytes) : SM bool :=
  gets (λ s, default false ((λ ss, test (ss_state ss)) <$> sm_signing_states s !! session_id)).

Definition is_failed_state (session_id : bytes) : SM bool := in_state (λ s, bool_decide (s = Failed)) session_id.

Definition is_round1_state (session_id : bytes) : SM bool := in_state is_round1 session_id.

Definition is_round2_state (session_id : bytes) : SM bool := in_state is_round2 session_id.

(** ** The server *)

Context `{!BtcServerApi S}.

Definition btc_client {A} (req : Request) (answer : Response → option A) : SM A := λ s,
  let '(server, r) := call req (sm_server s) in
  (mkSigning (sm_signing_states s) (sm_handle s) server, ok_or (r ≫= answer) InternalGrpc).

Definition signing_package_answer (r : Response) : option SigningPackageResponse :=
  match r with RSigningPackage p => Some p | _ => None end.

Definition empty_answer (r : Response) : option unit := match r with REmpty => Some tt | _ => None end.

Definition psbt_answer (r : Response) : option bytes := match r with RPsbt p => Some p | _ => None end.

Definition get_round1_signing_package (signing_session_id psbt : bytes) : SM SigningPackageResponse :=
  btc_client (GetRound1SigningPackage psbt signing_session_id) signing_package_answer.

Definition get_round2_signing_package (signing_session_id psbt : bytes) : SM SigningPackageResponse :=
  btc_client (GetRound2SigningPackage psbt signing_session_id) signing_package_answer.

Definition new_round1_signing_package (frost_identifier signing_session_id psbt : bytes) : SM unit :=
  btc_client (NewRound1SigningPackage (mkSigningPackage frost_identifier psbt signing_session_id)) empty_answer.

Definition new_round2_signing_package (frost_identifier signing_session_id psbt : bytes) : SM unit :=
  btc_client (NewRound2SigningPackage (mkSigningPackage frost_identifier psbt signing_session_id)) empty_answer.

Definition get_to_sign_package (signing_session_id : bytes) : SM SigningPackageResponse :=
  btc_client (GetToSignPackage signing_session_id) signing_package_answer.

Definition finalize_signing (signing_session_id : bytes) : SM bytes :=
  btc_client (FinalizeSigning signing_session_id) psbt_answer.

Definition abort_signing : SM unit := btc_client AbortSigning empty_answer.

(** ** The peers *)

Context `{!FrostNet}.
Context (frost_config : FrostConfig).

(** The random source and the clock, which decide nothing so far. *)
Context (random_source : bytes) (unix_timestamp : Z).

Definition personal_frost_identifier : bytes :=
  authority_index_to_frost_identifier (fc_authority_index frost_config mod 2 ^ 16).

Definition is_coordinator : bool :=
  Common.is_inturn (Z.of_nat (length (fc_authorities frost_config))) (fc_authority_index frost_config) 0 random_source.

Definition get_all_peers_handle : SM (list PeerData) := λ s,
  let '(handle, answer) := connected_peers (sm_handle s) in
  (mkSigning (sm_signing_states s) handle (sm_server s), ok_or (ok answer) FailedToGetPeersHandles).

Definition send_to_peer (peer_id : bytes) (response : SigningResponse) : SM unit := λ s,
  let '(handle, sent) := send_message peer_id (MsgSigning response) (sm_handle s) in
  (mkSigning (sm_signing_states s) handle (sm_server s), if sent then Ok tt else Err SendError).

(** [None] when the node is the coordinator, and also when the coordinator is
    not connected. *)
Definition get_coordinator_peer_data : SM (option (PeerData * Z)) :=
  if is_coordinator then ret None else
  let! all_connected_frost_peers := get_all_peers_handle in
  let current_inturn_authority_index :=
    Common.current_inturn_index (Z.of_nat (length (fc_authorities frost_config))) unix_timestamp 0 in
  let current_inturn_authority_frost_identifier :=
    authority_index_to_frost_identifier (current_inturn_authority_index mod 2 ^ 16) in
  ret ((λ p, (p.2, current_inturn_authority_index)) <$>
    list_find (λ p, pd_frost_identifier p = current_inturn_authority_frost_identifier) all_connected_frost_peers).

Definition gossip_round (response : SigningResponse) : SM unit :=
  let! connected_peers := get_all_peers_handle in
  if (length connected_peers + 1 <? fc_min_signers frost_config)%nat then fail NotEnoughConnectedPeers else
  forM connected_peers (λ connected_peer,
    if bool_decide (pd_frost_identifier connected_peer = personal_frost_identifier) then ret tt
    else send_to_peer (pd_peer_id connected_peer) response).

Definition gossip_to_peers (signing_package : SigningPackageResponse) (response_type : SigningEventResponseType)
    : SM unit :=
  retry_exec (gossip_round (mkSigningResponse response_type (sr_session_id signing_package) (sr_psbt signing_package))) 3.

(** ** The rounds *)

Definition session_id_of (signing_session_id : bytes) : SM bytes :=
  lift (map_err (λ _, BadSigningSessionId) (node_parse_signing_session_id signing_session_id)).

(** What fails here fails the session. *)
Definition or_failed {A} (session_id : bytes) (m : SM A) : SM A := λ s,
  match m s with
  | (s', Err e) => ((update_signing_state session_id Failed s').1, Err e)
  | r => r
  end.

Definition initiate_signing_session (signing_session_id psbt : bytes) : SM unit :=
  let! session_id := session_id_of signing_session_id in
  let! coordinator := get_coordinator_peer_data in
  if bool_decide (is_Some coordinator) then ret tt else
  let! session := get_signing_session session_id in
  match session with
  | Some signing_session =>
      if ss_coordinator_index signing_session =? fc_authority_index frost_config then
        abort_signing ;!
        remove_signing_session session_id ;!
        fail CoordinatorRetriggeredSession
      else ret tt
  | None =>
      abort_signing ;!
      insert_new_signing_session session_id (fc_authority_index frost_config) (Some psbt) Initial
  end ;!
  let! signing_round1_package := get_round1_signing_package signing_session_id psbt in
  new_round1_signing_package personal_frost_identifier signing_session_id (sr_psbt signing_round1_package) ;!
  update_signing_state session_id Round1 ;!
  or_failed session_id (gossip_to_peers signing_round1_package SignerRound1SigningPackage).

Definition signer_process_round1 (identifier signing_session_id psbt : bytes) : SM unit :=
  let! session_id := session_id_of signing_session_id in
  let! coordinator := get_coordinator_peer_data in
  match coordinator with
  | None => ret tt
  | Some (coordinator_peer_data, coordinator_id) =>
  if negb (bool_decide (pd_frost_identifier coordinator_peer_data = identifier)) then ret tt else
  let! exists_ := signing_session_exists session_id in
  if exists_ then
    remove_signing_session session_id ;!
    fail CoordinatorRetriggeredSession
  else
  insert_new_signing_session session_id coordinator_id None Round1 ;!
  abort_signing ;!
  let! signing_package_round1 := or_failed session_id (get_round1_signing_package signing_session_id psbt) in
  update_signing_state session_id Round2 ;!
  if negb (bool_decide (pd_frost_identifier coordinator_peer_data = personal_frost_identifier)) then
    retry_future (send_to_peer (pd_peer_id coordinator_peer_data)
      (mkSigningResponse CoordinatorRound1SigningPackage (sr_session_id signing_package_round1)
         (sr_psbt signing_package_round1))) 3
  else ret tt
  end.

(** The contribution of a member; when it is the last one that is needed, the
    second round begins.  An error that is only logged ends the handling. *)
Definition coordinator_process_round1 (frost_identifier signing_session_id psbt : bytes) : SM unit :=
  let! session_id := session_id_of signing_session_id in
  let! in_round1 := is_round1_state session_id in
  if negb in_round1 then ret tt else
  if negb is_coordinator then ret tt else
  if bool_decide (personal_frost_identifier = frost_identifier) then ret tt else
  let! added := okM (new_round1_signing_package frost_identifier signing_session_id psbt) in
  match added with
  | None => ret tt
  | Some _ =>
  let! to_sign := okM (get_to_sign_package signing_session_id) in
  match to_sign with
  | None => ret tt
  | Some to_sign_payload =>
      let! cord_round2 := get_round2_signing_package signing_session_id (sr_psbt to_sign_payload) in
      new_round2_signing_package personal_frost_identifier signing_session_id (sr_psbt cord_round2) ;!
      update_signing_state session_id Round2 ;!
      or_failed session_id (gossip_to_peers to_sign_payload SignerRound2SigningPackage)
  end end.

Definition signer_process_round2 (frost_identifier signing_session_id psbt : bytes) : SM unit :=
  let! session_id := session_id_of signing_session_id in
  let! coordinator := get_coordinator_peer_data in
  match coordinator with
  | None => ret tt
  | Some (coordinator_peer_data, _) =>
  if negb (bool_decide (pd_frost_identifier coordinator_peer_data = frost_identifier)) then ret tt else
  let! in_round2 := is_round2_state session_id in
  if negb in_round2 then ret tt else
  let! signing_package_round2 := or_failed session_id (get_round2_signing_package signing_session_id psbt) in
  retry_future (send_to_peer (pd_peer_id coordinator_peer_data)
    (mkSigningResponse CoordinatorRound2SigningPackage (sr_session_id signing_package_round2)
       (sr_psbt signing_package_round2))) 3
  end.

Definition coordinator_process_round2 (frost_identifier signing_session_id psbt : bytes) : SM unit :=
  let! session_id := session_id_of signing_session_id in
  let! in_round2 := is_round2_state session_id in
  if negb in_round2 then ret tt else
  if negb is_coordinator then ret tt else
  if bool_decide (personal_frost_identifier = frost_identifier) then ret tt else
  or_failed session_id (new_round2_signing_package frost_identifier signing_session_id psbt) ;!
  let! finalized := okM (finalize_signing signing_session_id) in
  whenM (bool_decide (is_Some finalized)) (update_signing_state session_id Finalized).

(** The message of a peer that takes part in a session. *)
Definition process_signing (response_type : SigningEventResponseType) : bytes → bytes → bytes → SM unit :=
  match response_type with
  | SignerRound1SigningPackage => signer_process_round1
  | CoordinatorRound1SigningPackage => coordinator_process_round1
  | SignerRound2SigningPackage => signer_process_round2
  | CoordinatorRound2SigningPackage => coordinator_process_round2
  end.

End sessions.
