(* ===== verification/SigningSafety.v ===== *)
(** * What the signing sessions of a node guarantee

    The states a session goes through, the order in which a node asks its
    server for the two rounds, whose messages a member follows, and what
    becomes of a member that receives the message of the first round twice. *)

From S2P Require Import Prelude Bytes Bitcoin Psbt Types Database Codec Peg Edh Mint.
From S2P Require Import Execution Jwt Rpc Consensus NodeUtils Server Client WalletSync Signing.
From stdpp Require Import gmap.

Open Scope Z_scope.

(** ** Running the methods symbolically

    [wp m Q E s]: from [s], [m] ends in a result and a state of [Q], or in an
    error and a state of [E]; it does not panic. *)

Section wp.
Context {St Er : Type}.

Definition wp {A} (m : M St Er A) (Q : A → St → Prop) (E : St → Prop) (s : St) : Prop :=
  match m s with
  | (s', Ok a) => Q a s'
  | (s', Err _) => E s'
  | (_, Panic) => False
  end.

Lemma wp_ret {A} (a : A) (Q : A → St → Prop) E s : Q a s → wp (ret a) Q E s.
Proof. done. Qed.

Lemma wp_fail {A} e (Q : A → St → Prop) (E : St → Prop) s : E s → wp (fail e) Q E s.
Proof. done. Qed.

Lemma wp_gets {A} (f : St → A) Q E s : Q (f s) s → wp (gets f) Q E s.
Proof. done. Qed.

Lemma wp_modify f Q E s : Q tt (f s) → wp (modify f) Q E s.
Proof. done. Qed.

Lemma wp_bind {A B} (m : M St Er A) (k : A → M St Er B) Q E s :
  wp m (λ a s', wp (k a) Q E s') E s → wp (bindM m k) Q E s.
Proof. unfold wp, bindM. by destruct (m s) as [s' []]. Qed.

Lemma wp_mono {A} (m : M St Er A) (Q Q' : A → St → Prop) (E E' : St → Prop) s :
  wp m Q E s → (∀ a s', Q a s' → Q' a s') → (∀ s', E s' → E' s') → wp m Q' E' s.
Proof. unfold wp. destruct (m s) as [s' []]; eauto. Qed.

Lemma wp_okM {A Er'} (m : M St Er A) (Q : option A → St → Prop) E s :
  wp m (λ a s', Q (Some a) s') (λ s', Q None s') s →
  match okM (E':=Er') m s with (s', Ok a) => Q a s' | (s', Err _) => E s' | (_, Panic) => False end.
Proof. unfold wp, okM. by destruct (m s) as [s' []]. Qed.

Lemma wp_forM {A} (l : list A) (f : A → M St Er unit) (I : St → Prop) (E : St → Prop) s :
  I s → (∀ x s', x ∈ l → I s' → wp (f x) (λ _, I) E s') → wp (forM l f) (λ _, I) E s.
Proof.
  revert s. induction l as [|x l IH]; intros s Hs Hf; cbn [forM]; [by apply wp_ret|]. apply wp_bind.
  eapply wp_mono; [apply Hf; [by left|done]| |done]. intros [] s1 Hs1. apply IH; [done|]. intros y s2 Hy. apply Hf. by right.
Qed.

(** An invariant of each attempt is one of the retries. *)
Lemma wp_retry {A} (m : M St Er A) (I : St → Prop) n s :
  I s → (∀ s', I s' → wp m (λ _, I) I s') → wp (retry_future m n) (λ _, I) I s.
Proof.
  revert s. induction n as [|n IH]; intros s Hs Hm; unfold wp; cbn [retry_future]; pose proof (Hm s Hs) as Hw; unfold wp in Hw;
    destruct (m s) as [s1 [a|e|]]; try done. by apply IH.
Qed.

Lemma wp_elim {A} (m : M St Er A) (P : St → Prop) s : wp m (λ _, P) P s → P (m s).1 ∧ (m s).2 ≠ Panic.
Proof. unfold wp. by destruct (m s) as [s' []]. Qed.

End wp.

(** ** The moves of a session *)

(** What happens to the sessions: a block of the chain starts one, and peers
    send messages. *)
Inductive SigningEvent :=
| Initiate (signing_session_id psbt : bytes)
| PeerSigning (response_type : SigningEventResponseType) (frost_identifier signing_session_id psbt : bytes).

Definition session_of (e : SigningEvent) : bytes :=
  match e with Initiate id _ | PeerSigning _ _ id _ => id end.

Definition handle_signing {S : Type} `{!BtcServerApi S, !FrostNet} (frost_config : FrostConfig) (random_source : bytes)
    (unix_timestamp : Z) (e : SigningEvent) : M (SigningStateMachine S) SigningError unit :=
  match e with
  | Initiate id psbt => initiate_signing_session frost_config random_source unix_timestamp id psbt
  | PeerSigning t identifier id psbt => process_signing frost_config random_source unix_timestamp t identifier id psbt
  end.

(** The moves of one event, at a member ([false]) and at the coordinator. *)
Inductive session_move : bool → option SigningState → option SigningState → Prop :=
| move_stay c x : session_move c x x
| move_removed c x : session_move c (Some x) None
| member_opens y : y ∈ [Round1; Round2; Failed] → session_move false None (Some y)
| member_fails : session_move false (Some Round2) (Some Failed)
| coordinator_opens y : y ∈ [Initial; Round1; Failed] → session_move true None (Some y)
| coordinator_advances : session_move true (Some Round1) (Some Round2)
| coordinator_fails x : x ∈ [Round1; Round2] → session_move true (Some x) (Some Failed)
| coordinator_finishes : session_move true (Some Round2) (Some Finalized).

Section moves.
Context {S : Type} `{!BtcServerApi S, !FrostNet}.
Context (frost_config : FrostConfig) (random_source : bytes) (unix_timestamp : Z).

Implicit Types s : SigningStateMachine S.

Abbreviation me_coordinator := (is_coordinator frost_config random_source).

Definition state_of s (session_id : bytes) : option SigningState := ss_state <$> sm_signing_states s !! session_id.

(** Only the network was used. *)
Definition only_network s s' : Prop :=
  sm_signing_states s' = sm_signing_states s ∧ sm_server s' = sm_server s.

#[local] Instance only_network_preorder : PreOrder only_network.
Proof. split; [done|]. intros s1 s2 s3 [H12 H12'] [H23 H23']. split; congruence. Qed.

Lemma wp_btc_client {A} req (answer : Response → option A) Q E s :
  let s' := mkSigning (sm_signing_states s) (sm_handle s) (call req (sm_server s)).1 in
  (∀ a, (call req (sm_server s)).2 ≫= answer = Some a → Q a s') → E s' → wp (btc_client req answer) Q E s.
Proof.
  intros s' HQ HE. unfold wp, btc_client. subst s'. destruct (call req (sm_server s)) as [server r]. cbn in *.
  destruct (r ≫= answer) as [a|]; cbn; [by apply HQ|done].
Qed.

Lemma send_network peer_id response s :
  wp (send_to_peer peer_id response) (λ _, only_network s) (only_network s) s.
Proof. unfold wp, send_to_peer. destruct (send_message _ _ _) as [h []]; done. Qed.

Lemma peers_network s : wp get_all_peers_handle (λ _, only_network s) (only_network s) s.
Proof. unfold wp, get_all_peers_handle. destruct (connected_peers _) as [h [l|e|]]; done. Qed.

Lemma retry_send_network peer_id response n s :
  wp (retry_future (send_to_peer peer_id response) n) (λ _, only_network s) (only_network s) s.
Proof.
  apply wp_retry; [done|]. intros s1 Hs1. eapply wp_mono; [apply send_network|intros ? s2 Hs2|intros s2 Hs2]; by etrans.
Qed.

Lemma gossip_network pkg response_type s :
  wp (gossip_to_peers frost_config pkg response_type) (λ _, only_network s) (only_network s) s.
Proof.
  unfold gossip_to_peers, retry_exec. apply wp_retry; [done|]. intros s1 Hs1. unfold gossip_round. apply wp_bind.
  eapply wp_mono; [apply peers_network|intros l s2 Hs2|intros s2 Hs2; by etrans].
  destruct (_ <? _)%nat; [apply wp_fail; by etrans|]. apply wp_forM; [by etrans|].
  intros p s3 _ Hs3. case_bool_decide; [by apply wp_ret|].
  eapply wp_mono; [apply send_network|intros ? s4 Hs4|intros s4 Hs4]; by etrans.
Qed.

(** A member learns the coordinator from its peers; its index is zero. *)
Lemma coordinator_network s :
  wp (get_coordinator_peer_data frost_config random_source unix_timestamp)
    (λ c s', only_network s s' ∧ if me_coordinator then c = None else ∀ p k, c = Some (p, k) →
       k = 0 ∧ pd_frost_identifier p = authority_index_to_frost_identifier 0)
    (only_network s) s.
Proof.
  unfold get_coordinator_peer_data. destruct me_coordinator; [by apply wp_ret|]. apply wp_bind.
  eapply wp_mono; [apply peers_network|intros l s1 Hs1|done]. apply wp_ret. split; [done|].
  intros p k ([i q] & Hf & [= -> ->])%fmap_Some. apply list_find_Some in Hf as (_ & Hq & _). done.
Qed.

Lemma session_id_of_wp id Q (E : _ → Prop) s :
  (node_parse_signing_session_id id = Ok id → Q id s) → E s → wp (session_id_of id) Q E s.
Proof.
  unfold wp, session_id_of, lift, node_parse_signing_session_id. by destruct (negb _); [|intros HQ _; apply HQ].
Qed.

Lemma wp_or_failed {A} session_id (m : M _ _ A) Q (E : _ → Prop) s :
  wp m Q (λ s', E (update_signing_state session_id Failed s').1) s → wp (or_failed session_id m) Q E s.
Proof. unfold wp, or_failed. by destruct (m s) as [s' []]. Qed.

(** [at_id m id x m']: [m'] is [m] with [x] for the session [id]. *)
Definition at_id (m : gmap bytes SigningSession) (id : bytes) (x : option SigningSession) (m' : gmap bytes SigningSession)
    : Prop := m' !! id = x ∧ ∀ k, k ≠ id → m' !! k = m !! k.

Lemma at_id_refl m id : at_id m id (m !! id) m.
Proof. done. Qed.

Lemma at_id_network m id x s s' :
  only_network s s' → at_id m id x (sm_signing_states s) → at_id m id x (sm_signing_states s').
Proof. intros [-> _]. done. Qed.

Lemma at_id_alter m id x f m' : at_id m id x m' → at_id m id (f <$> x) (alter f id m').
Proof.
  intros [Hx Ho]. split; [by rewrite lookup_alter_eq, Hx|]. intros k Hk. rewrite lookup_alter_ne by done. by apply Ho.
Qed.

Lemma at_id_insert m id x y m' : at_id m id x m' → at_id m id (Some y) (<[id := y]> m').
Proof.
  intros [Hx Ho]. split; [by rewrite lookup_insert_eq|]. intros k Hk. rewrite lookup_insert_ne by done. by apply Ho.
Qed.

Lemma at_id_delete m id x m' : at_id m id x m' → at_id m id None (delete id m').
Proof.
  intros [Hx Ho]. split; [by rewrite lookup_delete_eq|]. intros k Hk. rewrite lookup_delete_ne by done. by apply Ho.
Qed.

Lemma at_id_failed m id ss s :
  at_id m id (Some ss) (sm_signing_states s) →
  at_id m id (Some (mkSession (ss_session_id ss) Failed (ss_coordinator_index ss) (ss_original_psbt ss)))
    (sm_signing_states (update_signing_state id Failed s).1).
Proof. apply at_id_alter. Qed.

(** All sessions are those of the first authority. *)
Definition first_coordinates (m : gmap bytes SigningSession) : Prop :=
  ∀ id ss, m !! id = Some ss → ss_coordinator_index ss = 0.

Definition moved (id : bytes) s s' : Prop :=
  first_coordinates (sm_signing_states s') ∧ session_move me_coordinator (state_of s id) (state_of s' id) ∧
  ∀ k, k ≠ id → sm_signing_states s' !! k = sm_signing_states s !! k.

Lemma moved_at id x s s' :
  first_coordinates (sm_signing_states s) → at_id (sm_signing_states s) id x (sm_signing_states s') →
  (∀ ss, x = Some ss → ss_coordinator_index ss = 0) →
  session_move me_coordinator (state_of s id) (ss_state <$> x) → moved id s s'.
Proof.
  intros Hf [Hx Ho] Hi Hm. split_and!; [|by unfold state_of at 2; rewrite Hx|done].
  intros k ss Hk. destruct (decide (k = id)) as [->|Hne]; [apply Hi; congruence|]. rewrite Ho in Hk by done. by eapply Hf.
Qed.

Lemma same_moved id s s' :
  first_coordinates (sm_signing_states s) → sm_signing_states s' = sm_signing_states s → moved id s s'.
Proof. intros Hf Hs. unfold moved, state_of. rewrite Hs. split_and!; [done|constructor|done]. Qed.

Lemma stay_moved id s s' : first_coordinates (sm_signing_states s) → only_network s s' → moved id s s'.
Proof. intros Hf [Hs _]. by apply same_moved. Qed.

Lemma wp_network {A} (m : M _ SigningError A) Q (E : _ → Prop) s :
  wp m (λ _, only_network s) (only_network s) s → (∀ a s', only_network s s' → Q a s') → (∀ s', only_network s s' → E s') →
  wp m Q E s.
Proof. intros Hm HQ HE. by eapply wp_mono. Qed.

Lemma initiate_moves id psbt s :
  me_coordinator = true → fc_authority_index frost_config = 0 → first_coordinates (sm_signing_states s) →
  wp (initiate_signing_session frost_config random_source unix_timestamp id psbt) (λ _, moved id s) (moved id s) s.
Proof.
  intros Hco Hidx Hf. pose proof (at_id_refl (sm_signing_states s) id) as Ha.
  unfold initiate_signing_session. apply wp_bind, session_id_of_wp; [intros _|by apply stay_moved].
  apply wp_bind. eapply wp_mono; [apply coordinator_network|intros c s1 [Hn Hc]|intros s1 Hn; by apply stay_moved].
  rewrite Hco in Hc. subst c. cbn [bool_decide]. rewrite bool_decide_eq_false_2 by (by intros [? ?]).
  apply wp_bind, wp_gets. pose proof (at_id_network _ _ _ _ _ Hn Ha) as Ha1. rewrite (proj1 Ha1).
  destruct (sm_signing_states s !! id) as [ss|] eqn:Hss.
  - rewrite (Hf _ _ Hss), Hidx. apply wp_bind, wp_bind, wp_btc_client; [intros _ _|].
    + apply wp_bind, wp_modify, wp_fail. eapply moved_at; [done|by eapply at_id_delete|done|].
      unfold state_of. rewrite Hss. constructor.
    + eapply moved_at; [done|exact Ha1|by intros ? [= <-]; eapply Hf|]. unfold state_of. rewrite Hss. constructor.
  - assert (∀ x s', at_id (sm_signing_states s) id (Some x) (sm_signing_states s') → ss_coordinator_index x = 0 →
      ss_state x ∈ [Initial; Round1; Failed] → moved id s s') as Hopen.
    { intros x s' Hx Hi Hin. eapply moved_at; [done|exact Hx|by intros ? [= <-]|]. unfold state_of. rewrite Hss, Hco. by constructor. }
    apply wp_bind, wp_bind, wp_btc_client; [intros _ _|].
    2:{ eapply moved_at; [done|exact Ha1|done|]. unfold state_of. rewrite Hss. constructor. }
    unfold insert_new_signing_session. apply wp_bind, wp_gets. cbn [sm_signing_states]. rewrite (proj1 Ha1), bool_decide_eq_false_2 by (by intros [? ?]).
    apply wp_modify. pose proof (at_id_insert _ _ _ (mkSession id Initial (fc_authority_index frost_config) (Some psbt)) _ Ha1) as Ha2.
    assert (Ha3 := λ f, at_id_alter _ _ _ f _ Ha2). cbn in Ha3.
    apply wp_bind, wp_btc_client; [intros p _|by eapply Hopen; [exact Ha2|done|left]].
    apply wp_bind, wp_btc_client; [intros _ _|by eapply Hopen; [exact Ha2|done|left]].
    apply wp_bind, wp_modify, wp_or_failed. eapply wp_network; [apply gossip_network|intros ? s2 Hn2|intros s2 Hn2].
    + eapply Hopen; [eapply at_id_network; [exact Hn2|apply Ha3]|done|set_solver].
    + eapply Hopen; [exact (at_id_failed _ _ _ _ (at_id_network _ _ _ _ _ Hn2 (Ha3 _)))|done|set_solver].
Qed.

Lemma signer_round1_moves identifier id psbt s :
  first_coordinates (sm_signing_states s) →
  wp (signer_process_round1 frost_config random_source unix_timestamp identifier id psbt) (λ _, moved id s) (moved id s) s.
Proof.
  intros Hf. pose proof (at_id_refl (sm_signing_states s) id) as Ha.
  unfold signer_process_round1. apply wp_bind, session_id_of_wp; [intros _|by apply stay_moved].
  apply wp_bind. eapply wp_mono; [apply coordinator_network|intros c s1 [Hn Hc]|intros s1 Hn; by apply stay_moved].
  destruct c as [[p k]|]; [|by apply wp_ret, stay_moved]. destruct me_coordinator eqn:Hco; [done|].
  destruct (Hc p k eq_refl) as [-> _]. case_bool_decide; [|by apply wp_ret, stay_moved].
  apply wp_bind, wp_gets. pose proof (at_id_network _ _ _ _ _ Hn Ha) as Ha1. rewrite (proj1 Ha1). cbn [negb].
  destruct (sm_signing_states s !! id) as [ss|] eqn:Hss.
  - rewrite bool_decide_eq_true_2 by done. apply wp_bind, wp_modify, wp_fail.
    eapply moved_at; [done|by eapply at_id_delete|done|]. unfold state_of. rewrite Hss. constructor.
  - rewrite bool_decide_eq_false_2 by (by intros [? ?]).
    assert (∀ x s', at_id (sm_signing_states s) id (Some x) (sm_signing_states s') → ss_coordinator_index x = 0 →
      ss_state x ∈ [Round1; Round2; Failed] → moved id s s') as Hopen.
    { intros x s' Hx Hi Hin. eapply moved_at; [done|exact Hx|by intros ? [= <-]|]. unfold state_of. rewrite Hss, Hco. by constructor. }
    apply wp_bind. unfold insert_new_signing_session. apply wp_bind, wp_gets. rewrite (proj1 Ha1), bool_decide_eq_false_2 by (by intros [? ?]).
    apply wp_modify. pose proof (at_id_insert _ _ _ (mkSession id Round1 0 None) _ Ha1) as Ha2.
    apply wp_bind, wp_btc_client; [intros _ _|by eapply Hopen; [exact Ha2|done|left]].
    apply wp_bind, wp_or_failed, wp_btc_client.
    2:{ eapply Hopen; [eapply at_id_failed; exact Ha2|done|set_solver]. }
    intros pkg _. apply wp_bind, wp_modify. assert (Ha3 := λ f, at_id_alter _ _ _ f _ Ha2). cbn in Ha3.
    destruct (negb _); [|by apply wp_ret; eapply Hopen; [apply Ha3|done|set_solver]].
    eapply wp_network; [apply retry_send_network|intros ? s2 Hn2|intros s2 Hn2];
      by eapply Hopen; [exact (at_id_network _ _ _ _ _ Hn2 (Ha3 _))|done|set_solver].
Qed.

(** A contribution that is not expected changes nothing; the others come in
    the state [st] of a session. *)
Lemma in_state_wp {A} test id (m : M _ SigningError A) Q (E : _ → Prop) r s :
  (∀ ss, sm_signing_states s !! id = Some ss → test (ss_state ss) = true → wp m Q E s) → Q r s →
  wp (let! b := in_state test id in if negb b then ret r else m) Q E s.
Proof.
  intros Hm Hr. apply wp_bind, wp_gets. destruct (sm_signing_states s !! id) as [ss|]; cbn; [|exact Hr].
  destruct (test (ss_state ss)) eqn:Ht; cbn; [by eapply Hm|exact Hr].
Qed.

Lemma coordinator_round1_moves identifier id psbt s :
  first_coordinates (sm_signing_states s) →
  wp (coordinator_process_round1 frost_config random_source identifier id psbt) (λ _, moved id s) (moved id s) s.
Proof.
  intros Hf. pose proof (at_id_refl (sm_signing_states s) id) as Ha.
  unfold coordinator_process_round1. apply wp_bind, session_id_of_wp; [intros _|by apply stay_moved].
  apply in_state_wp; [|by apply stay_moved]. intros ss Hss Hst. apply bool_decide_eq_true_1 in Hst. rewrite Hss in Ha.
  destruct me_coordinator eqn:Hco; cbn [negb]; [|by apply wp_ret, stay_moved].
  case_bool_decide; [by apply wp_ret, stay_moved|].
  assert (∀ x s', at_id (sm_signing_states s) id (Some x) (sm_signing_states s') → ss_coordinator_index x = 0 →
    ss_state x ∈ [Round1; Round2; Failed] → moved id s s') as Hon.
  { intros x s' Hx Hi Hin. eapply moved_at; [done|exact Hx|by intros ? [= <-]|]. unfold state_of. rewrite Hss, Hco. cbn. rewrite Hst.
    apply elem_of_cons in Hin as [->|Hin]; [constructor|]. apply elem_of_cons in Hin as [->|Hin%list_elem_of_singleton]; [constructor|].
    rewrite Hin. constructor. left. }
  pose proof (Hf _ _ Hss) as Hi. assert (∀ s', at_id (sm_signing_states s) id (Some ss) (sm_signing_states s') → moved id s s') as Hstay.
  { intros s' Hs'. eapply Hon; [exact Hs'|done|]. rewrite Hst. left. }
  apply wp_bind, wp_okM, wp_btc_client; [intros _ _|by apply wp_ret, Hstay].
  apply wp_bind, wp_okM, wp_btc_client; [intros p _|by apply wp_ret, Hstay].
  apply wp_bind, wp_btc_client; [intros q _|by apply Hstay].
  apply wp_bind, wp_btc_client; [intros _ _|by apply Hstay].
  apply wp_bind, wp_modify, wp_or_failed. assert (Ha2 := λ f, at_id_alter _ _ _ f _ Ha).
  eapply wp_network; [apply gossip_network|intros ? s2 Hn2|intros s2 Hn2].
  - eapply Hon; [exact (at_id_network _ _ _ _ _ Hn2 (Ha2 _))|done|set_solver].
  - eapply Hon; [exact (at_id_failed _ _ _ _ (at_id_network _ _ _ _ _ Hn2 (Ha2 _)))|done|set_solver].
Qed.

Lemma signer_round2_moves identifier id psbt s :
  first_coordinates (sm_signing_states s) →
  wp (signer_process_round2 frost_config random_source unix_timestamp identifier id psbt) (λ _, moved id s) (moved id s) s.
Proof.
  intros Hf. unfold signer_process_round2. apply wp_bind, session_id_of_wp; [intros _|by apply stay_moved].
  apply wp_bind. eapply wp_mono; [apply coordinator_network|intros c s1 [Hn Hc]|intros s1 Hn; by apply stay_moved].
  destruct c as [[p k]|]; [|by apply wp_ret, stay_moved]. destruct me_coordinator eqn:Hco; [done|].
  case_bool_decide; [|by apply wp_ret, stay_moved]. cbn [negb].
  apply in_state_wp; [|by apply stay_moved]. intros ss Hss Hst. apply bool_decide_eq_true_1 in Hst.
  pose proof (at_id_network _ _ _ _ _ Hn (at_id_refl (sm_signing_states s) id)) as Ha.
  assert (sm_signing_states s !! id = Some ss) as Hs by (by rewrite <- (proj1 Hn)). rewrite Hs in Ha.
  apply wp_bind, wp_or_failed, wp_btc_client.
  - intros pkg _. eapply wp_network; [apply retry_send_network|intros ? s2 Hn2|intros s2 Hn2];
      (apply same_moved; [done|]); rewrite (proj1 Hn2); exact (proj1 Hn).
  - eapply moved_at; [done|eapply at_id_failed; exact Ha|intros ? [= <-]; exact (Hf _ _ Hs)|].
    unfold state_of. rewrite Hs, Hco. cbn. rewrite Hst. constructor.
Qed.

Lemma coordinator_round2_moves identifier id psbt s :
  first_coordinates (sm_signing_states s) →
  wp (coordinator_process_round2 frost_config random_source identifier id psbt) (λ _, moved id s) (moved id s) s.
Proof.
  intros Hf. unfold coordinator_process_round2. apply wp_bind, session_id_of_wp; [intros _|by apply stay_moved].
  apply in_state_wp; [|by apply stay_moved]. intros ss Hss Hst. apply bool_decide_eq_true_1 in Hst.
  destruct me_coordinator eqn:Hco; cbn [negb]; [|by apply wp_ret, stay_moved].
  case_bool_decide; [by apply wp_ret, stay_moved|].
  pose proof (at_id_refl (sm_signing_states s) id) as Ha. rewrite Hss in Ha.
  assert (∀ x s', at_id (sm_signing_states s) id (Some x) (sm_signing_states s') →
    ss_coordinator_index x = ss_coordinator_index ss → ss_state x ∈ [Finalized; Failed] → moved id s s') as Hon.
  { intros x s' Hx Hi Hin. eapply moved_at; [done|exact Hx|intros ? [= <-]; rewrite Hi; exact (Hf _ _ Hss)|].
    unfold state_of. rewrite Hss, Hco. cbn. rewrite Hst.
    apply elem_of_cons in Hin as [->|Hin%list_elem_of_singleton]; [constructor|]. rewrite Hin. constructor. set_solver. }
  apply wp_bind, wp_or_failed, wp_btc_client.
  2:{ eapply Hon; [eapply at_id_failed; exact Ha|done|set_solver]. }
  intros _ _. apply wp_bind, wp_okM, wp_btc_client; [intros p _|by apply wp_ret, same_moved].
  apply wp_modify. eapply Hon; [exact (at_id_alter _ _ _ _ _ Ha)|done|set_solver].
Qed.

(** The sessions of a node move along one protocol.  Whatever a peer sends,
    and when the coordinator starts a session, at most the session of the event
    changes, no handler panics, and the session takes one of the moves of its
    role: a member opens one and waits for the second round, the coordinator
    takes it through both rounds, a failure is final, and a session that is
    failed, finalized or known already can only be removed. *)
Theorem sessions_follow_protocol e s s' o :
  first_coordinates (sm_signing_states s) →
  (∀ id psbt, e = Initiate id psbt → me_coordinator = true) →
  handle_signing frost_config random_source unix_timestamp e s = (s', o) →
  o ≠ Panic ∧ first_coordinates (sm_signing_states s') ∧
  session_move me_coordinator (state_of s (session_of e)) (state_of s' (session_of e)) ∧
  ∀ k, k ≠ session_of e → sm_signing_states s' !! k = sm_signing_states s !! k.
Proof.
  intros Hf Hinit Hh.
  assert (wp (handle_signing frost_config random_source unix_timestamp e) (λ _, moved (session_of e) s) (moved (session_of e) s) s)
    as Hw.
  { destruct e as [id psbt|[] identifier id psbt]; cbn [handle_signing process_signing session_of].
    - specialize (Hinit id psbt eq_refl). apply initiate_moves; [done| |done]. by apply Z.eqb_eq.
    - by apply signer_round1_moves.
    - by apply coordinator_round1_moves.
    - by apply signer_round2_moves.
    - by apply coordinator_round2_moves. }
  apply wp_elim in Hw as [Hm Hp]. rewrite Hh in Hm, Hp. done.
Qed.

End moves.

(** ** The order of the rounds *)

Definition answered_round1 (log : list (Request * option Response)) (id : bytes) : Prop :=
  ∃ psbt p, (GetRound1SigningPackage psbt id, Some (RSigningPackage p)) ∈ log.

Definition rounds_in_order (log : list (Request * option Response)) : Prop :=
  ∀ l1 psbt id r l2, log = l1 ++ (GetRound2SigningPackage psbt id, r) :: l2 → answered_round1 l1 id.

Lemma rounds_in_order_snoc log req r :
  rounds_in_order log → (∀ psbt id, req = GetRound2SigningPackage psbt id → answered_round1 log id) →
  rounds_in_order (log ++ [(req, r)]).
Proof.
  intros Ho Hr l1 psbt id r' l2 Heq. destruct l2 as [|e l2 _] using rev_ind.
  - apply app_inj_tail in Heq as [<- [= -> ->]]. by eapply Hr.
  - rewrite app_comm_cons, app_assoc in Heq. apply app_inj_tail in Heq as [Heq _]. by eapply Ho.
Qed.

Section order.
Context {S : Type} (api : BtcServerApi S) `{!FrostNet}.
Context (frost_config : FrostConfig) (random_source : bytes) (unix_timestamp : Z).

#[local] Existing Instance recorded.

Implicit Types s : SigningStateMachine (Recorded S).

Abbreviation log_of s := (sm_server s).2.
Abbreviation begun s id := (answered_round1 (log_of s) id).

(** The states in which a session has been through the first round. *)
Definition past_round1 (st : SigningState) : bool :=
  is_round2 st || (is_coordinator frost_config random_source && is_round1 st).

Definition rounds_inv s : Prop :=
  rounds_in_order (log_of s) ∧
  ∀ id ss, sm_signing_states s !! id = Some ss → past_round1 (ss_state ss) = true → begun s id.

Lemma begun_snoc log req r id : answered_round1 log id → answered_round1 (log ++ [(req, r)]) id.
Proof. intros (psbt & p & Hin). exists psbt, p. set_solver. Qed.

Lemma rounds_inv_asked s req :
  rounds_inv s → (∀ psbt id, req = GetRound2SigningPackage psbt id → begun s id) →
  rounds_inv (mkSigning (sm_signing_states s) (sm_handle s) (call req (sm_server s)).1).
Proof.
  intros [Ho Hb] Hr. unfold call, recorded. destruct (api req (sm_server s).1) as [srv r]. split; cbn.
  - by apply rounds_in_order_snoc.
  - intros id ss Hss Hp. eapply begun_snoc, Hb; [exact Hss|exact Hp].
Qed.

Lemma wp_ask {A} req (answer : Response → option A) Q (E : _ → Prop) s :
  rounds_inv s → (∀ psbt id, req = GetRound2SigningPackage psbt id → begun s id) →
  (∀ a s', rounds_inv s' → sm_signing_states s' = sm_signing_states s → (∀ id, begun s id → begun s' id) → Q a s') →
  (∀ s', rounds_inv s' → E s') → wp (btc_client req answer) Q E s.
Proof.
  intros Hi Hr HQ HE. pose proof (rounds_inv_asked s req Hi Hr) as Hi'. apply wp_btc_client; [intros a _|by apply HE].
  apply HQ; [done|done|]. intros id Hb. unfold call, recorded. cbn. destruct (api req _) as [srv r]. by apply begun_snoc.
Qed.

Lemma wp_ask_round1 id psbt Q (E : _ → Prop) s :
  rounds_inv s →
  (∀ a s', rounds_inv s' → sm_signing_states s' = sm_signing_states s → begun s' id → Q a s') →
  (∀ s', rounds_inv s' → E s') → wp (get_round1_signing_package id psbt) Q E s.
Proof.
  intros Hi HQ HE. assert (∀ psbt' id', GetRound1SigningPackage psbt id = GetRound2SigningPackage psbt' id' → begun s id') as Hr by done.
  pose proof (rounds_inv_asked s _ Hi Hr) as Hi'. apply wp_btc_client; [intros a Ha|by apply HE].
  apply HQ; [done|done|]. revert Ha. unfold call, recorded. cbn. destruct (api _ _) as [srv [[]|]]; try done. cbn.
  intros _. eexists psbt, _. apply elem_of_app. right. by left.
Qed.

Lemma rounds_inv_update s id st :
  rounds_inv s → (past_round1 st = true → begun s id) → rounds_inv (update_signing_state id st s).1.
Proof.
  intros [Ho Hb] Hst. split; [done|]. intros k ss Hss Hp. cbn in Hss. destruct (decide (k = id)) as [->|Hk].
  - rewrite lookup_alter_eq in Hss. apply fmap_Some in Hss as (ss' & _ & ->). by apply Hst.
  - rewrite lookup_alter_ne in Hss by done. by eapply Hb.
Qed.

Lemma rounds_inv_network s s' : rounds_inv s → only_network s s' → rounds_inv s'.
Proof. intros Hi [Hs Hv]. unfold rounds_inv. by rewrite Hs, Hv. Qed.

Lemma wp_insert id k psbt st Q E s :
  rounds_inv s → (past_round1 st = true → begun s id) →
  (∀ s', rounds_inv s' → log_of s' = log_of s → Q tt s') → wp (insert_new_signing_session id k psbt st) Q E s.
Proof.
  intros Hi Hst HQ. unfold insert_new_signing_session. apply wp_bind, wp_gets. case_bool_decide; [by apply wp_ret, HQ|].
  apply wp_modify, HQ; [|done]. destruct Hi as [Ho Hb]. split; [done|]. intros k' ss Hss Hp. cbn in Hss.
  apply lookup_insert_Some in Hss as [[<- <-]|[_ Hss]]; [by apply Hst|by eapply Hb].
Qed.

Lemma wp_remove id Q E s :
  rounds_inv s → (∀ s', rounds_inv s' → Q tt s') → wp (remove_signing_session id) Q E s.
Proof.
  intros [Ho Hb] HQ. apply wp_modify, HQ. split; [done|]. intros k ss Hss Hp. cbn in Hss.
  apply lookup_delete_Some in Hss as [_ Hss]. by eapply Hb.
Qed.

Lemma wp_update id st Q E s :
  rounds_inv s → (past_round1 st = true → begun s id) →
  (∀ s', rounds_inv s' → Q tt s') → wp (update_signing_state id st) Q E s.
Proof. intros Hi Hst HQ. apply wp_modify, HQ. by apply (rounds_inv_update s id st). Qed.

Lemma wp_failed {A} id (m : M _ SigningError A) Q s :
  wp m Q rounds_inv s → wp (or_failed id m) Q rounds_inv s.
Proof.
  intros Hm. apply wp_or_failed. eapply wp_mono; [exact Hm|done|]. intros s' Hs'. apply rounds_inv_update; [done|].
  unfold past_round1. by destruct (is_coordinator _ _).
Qed.

Lemma wp_net {A} (m : M _ SigningError A) Q s :
  rounds_inv s → wp m (λ _, only_network s) (only_network s) s → (∀ a s', rounds_inv s' → Q a s') → wp m Q rounds_inv s.
Proof. intros Hi Hm HQ. eapply wp_mono; [exact Hm|intros a s' Hn|intros s' Hn]; [apply HQ|]; by eapply rounds_inv_network. Qed.

Lemma wp_coordinator Q s :
  rounds_inv s →
  (∀ c s', rounds_inv s' → (is_Some c → is_coordinator frost_config random_source = false) → Q c s') →
  wp (get_coordinator_peer_data frost_config random_source unix_timestamp) Q rounds_inv s.
Proof.
  intros Hi HQ. eapply wp_mono; [apply coordinator_network|intros c s' [Hn Hc]|intros s' Hn]; [apply HQ|];
    [by eapply rounds_inv_network| |by eapply rounds_inv_network].
  intros [x ->]. by destruct (is_coordinator _ _).
Qed.

Lemma wp_session_id id Q s :
  rounds_inv s → Q id s → wp (session_id_of id) Q rounds_inv s.
Proof. intros Hi HQ. by apply session_id_of_wp. Qed.

Lemma initiate_order id psbt s :
  rounds_inv s →
  wp (initiate_signing_session frost_config random_source unix_timestamp id psbt) (λ _, rounds_inv) rounds_inv s.
Proof.
  intros Hi. unfold initiate_signing_session. apply wp_bind, wp_session_id; [done|]. apply wp_bind, wp_coordinator; [done|].
  intros c s1 Hi1 _. case_bool_decide; [by apply wp_ret|]. apply wp_bind, wp_gets, wp_bind.
  eapply (wp_mono _ (λ _, rounds_inv) _ rounds_inv); [|intros [] s2 Hi2|done].
  - destruct (sm_signing_states s1 !! id) as [ss|].
    + destruct (_ =? _); [|by apply wp_ret]. apply wp_bind, wp_ask; [done|done| |done].
      intros [] s2 Hi2 _ _. apply wp_bind, wp_remove; [done|]. intros s3 Hi3. by apply wp_fail.
    + apply wp_bind, wp_ask; [done|done| |done]. intros [] s2 Hi2 _ _. apply wp_insert; [done| |done].
      unfold past_round1. by destruct (is_coordinator _ _).
  - apply wp_bind, wp_ask_round1; [done| |done]. intros p s3 Hi3 _ Hb. apply wp_bind, wp_ask; [done|done| |done].
    intros [] s4 Hi4 _ Hmono. apply wp_bind, wp_update; [done|by intros _; apply Hmono|]. intros s5 Hi5.
    apply wp_failed, wp_net; [done|apply gossip_network|done].
Qed.

Lemma signer_round1_order identifier id psbt s :
  rounds_inv s →
  wp (signer_process_round1 frost_config random_source unix_timestamp identifier id psbt) (λ _, rounds_inv) rounds_inv s.
Proof.
  intros Hi. unfold signer_process_round1. apply wp_bind, wp_session_id; [done|]. apply wp_bind, wp_coordinator; [done|].
  intros [[p k]|] s1 Hi1 Hc; [|by apply wp_ret]. specialize (Hc ltac:(eauto)). case_bool_decide; cbn [negb]; [|by apply wp_ret].
  apply wp_bind, wp_gets. case_bool_decide.
  { apply wp_bind, wp_remove; [done|]. intros s2 Hi2. by apply wp_fail. }
  apply wp_bind, wp_insert; [done|unfold past_round1; by rewrite Hc|]. intros s2 Hi2 _.
  apply wp_bind, wp_ask; [done|done| |done]. intros [] s3 Hi3 _ _. apply wp_bind, wp_failed, wp_ask_round1; [done| |done].
  intros pkg s4 Hi4 _ Hb. apply wp_bind, wp_update; [done|done|]. intros s5 Hi5. destruct (negb _); [|by apply wp_ret].
  apply wp_net; [done|apply retry_send_network|done].
Qed.

Lemma coordinator_round1_order identifier id psbt s :
  rounds_inv s →
  wp (coordinator_process_round1 frost_config random_source identifier id psbt) (λ _, rounds_inv) rounds_inv s.
Proof.
  intros Hi. unfold coordinator_process_round1. apply wp_bind, wp_session_id; [done|]. apply in_state_wp; [|done].
  intros ss Hss Hst. destruct (is_coordinator frost_config random_source) eqn:Hco; cbn [negb]; [|by apply wp_ret].
  assert (begun s id) as Hb. { eapply Hi; [exact Hss|]. unfold past_round1. by rewrite Hco, Hst, orb_true_r. }
  case_bool_decide; [by apply wp_ret|]. apply wp_bind, wp_okM, wp_ask; [done|done| |intros s1 Hi1; by apply wp_ret].
  intros [] s1 Hi1 _ Hm1. apply wp_bind, wp_okM, wp_ask; [done|done| |intros s2 Hi2; by apply wp_ret].
  intros pkg s2 Hi2 _ Hm2. apply wp_bind, wp_ask; [done|intros ? ? [= _ <-]; by apply Hm2, Hm1| |done].
  intros q s3 Hi3 _ Hm3. apply wp_bind, wp_ask; [done|done| |done]. intros [] s4 Hi4 _ Hm4.
  apply wp_bind, wp_update; [done|by intros _; apply Hm4, Hm3, Hm2, Hm1|]. intros s5 Hi5.
  apply wp_failed, wp_net; [done|apply gossip_network|done].
Qed.

Lemma signer_round2_order identifier id psbt s :
  rounds_inv s →
  wp (signer_process_round2 frost_config random_source unix_timestamp identifier id psbt) (λ _, rounds_inv) rounds_inv s.
Proof.
  intros Hi. unfold signer_process_round2. apply wp_bind, wp_session_id; [done|]. apply wp_bind, wp_coordinator; [done|].
  intros [[p k]|] s1 Hi1 Hc; [|by apply wp_ret]. case_bool_decide; cbn [negb]; [|by apply wp_ret].
  apply in_state_wp; [|done]. intros ss Hss Hst.
  assert (begun s1 id) as Hb. { eapply Hi1; [exact Hss|]. unfold past_round1. by rewrite Hst. }
  apply wp_bind, wp_failed, wp_ask; [done|by intros ? ? [= _ <-]| |done]. intros pkg s2 Hi2 _ _.
  apply wp_net; [done|apply retry_send_network|done].
Qed.

Lemma coordinator_round2_order identifier id psbt s :
  rounds_inv s →
  wp (coordinator_process_round2 frost_config random_source identifier id psbt) (λ _, rounds_inv) rounds_inv s.
Proof.
  intros Hi. unfold coordinator_process_round2. apply wp_bind, wp_session_id; [done|]. apply in_state_wp; [|done].
  intros ss Hss Hst. destruct (is_coordinator frost_config random_source) eqn:Hco; cbn [negb]; [|by apply wp_ret].
  case_bool_decide; [by apply wp_ret|]. apply wp_bind, wp_failed, wp_ask; [done|done| |done]. intros [] s1 Hi1 _ _.
  apply wp_bind, wp_okM, wp_ask; [done|done| |intros s2 Hi2; by apply wp_ret]. intros r s2 Hi2 _ _.
  rewrite bool_decide_eq_true_2 by done. cbn [whenM]. apply wp_update; [done| |done]. unfold past_round1. by destruct (is_coordinator _ _).
Qed.

Definition run_signing (es : list SigningEvent) s : SigningStateMachine (Recorded S) :=
  foldl (λ s e, (handle_signing frost_config random_source unix_timestamp e s).1) s es.

(** C14.  A node asks its server for the second round of a session only after the
    server has answered its request for the first round of that session:
    whatever blocks the node sees, whatever its peers send, in whatever order,
    and whatever the server answers and the network does. *)
Theorem second_round_follows_first es s :
  sm_signing_states s = ∅ → log_of s = [] → rounds_in_order (log_of (run_signing es s)).
Proof.
  intros Hs Hl. cut (rounds_inv (run_signing es s)); [by intros []|].
  assert (rounds_inv s) as Hi.
  { split; [rewrite Hl; intros [|] * [=]|]. intros id ss. by rewrite Hs, lookup_empty. }
  clear Hs Hl. unfold run_signing. revert s Hi. induction es as [|e es IH]; intros s Hi; [done|]. cbn [foldl]. apply IH.
  eapply wp_elim. destruct e as [id psbt|[] identifier id psbt]; cbn [handle_signing process_signing].
  - by apply initiate_order.
  - by apply signer_round1_order.
  - by apply coordinator_round1_order.
  - by apply signer_round2_order.
  - by apply coordinator_round2_order.
Qed.

End order.

(** ** Messages that arrive twice *)

Section silence.
Context {S : Type} `{!BtcServerApi S, !FrostNet}.
Context (frost_config : FrostConfig) (random_source : bytes) (unix_timestamp : Z).

Implicit Types s : SigningStateMachine S.

Definition connects_coordinator (l : list PeerData) : Prop :=
  ∃ p, p ∈ l ∧ pd_frost_identifier p = authority_index_to_frost_identifier 0.

(** A member that is connected to the coordinator finds it. *)
Lemma coordinator_found Q E s l rest :
  is_coordinator frost_config random_source = false →
  fh_peers (sm_handle s) = Ok l :: rest → connects_coordinator l →
  (∀ p, pd_frost_identifier p = authority_index_to_frost_identifier 0 →
    Q (Some (p, 0)) (mkSigning (sm_signing_states s) (mkHandle rest (fh_sends (sm_handle s)) (fh_sent (sm_handle s))) (sm_server s))) →
  wp (get_coordinator_peer_data frost_config random_source unix_timestamp) Q E s.
Proof.
  intros Hco Hp (p & Hin & Hid) HQ. unfold get_coordinator_peer_data. rewrite Hco. apply wp_bind.
  unfold wp, get_all_peers_handle, connected_peers. rewrite Hp. cbn [ok ok_or]. unfold ret.
  match goal with |- context [list_find ?P l] => destruct (list_find P l) as [[i q]|] eqn:Hf end.
  - apply list_find_Some in Hf as (_ & Hq & _). by apply HQ.
  - apply list_find_None in Hf. rewrite Forall_forall in Hf. by destruct (Hf p Hin).
Qed.

Lemma first_message_opens identifier id psbt s l rest :
  is_coordinator frost_config random_source = false → length id = 32%nat → identifier = authority_index_to_frost_identifier 0 →
  fh_peers (sm_handle s) = Ok l :: rest → connects_coordinator l → sm_signing_states s !! id = None →
  let s' := (signer_process_round1 frost_config random_source unix_timestamp identifier id psbt s).1 in
  is_Some (sm_signing_states s' !! id) ∧ fh_peers (sm_handle s') = rest.
Proof.
  intros Hco Hlen -> Hp Hl Hnone.
  set (I := λ s', is_Some (sm_signing_states s' !! id) ∧ fh_peers (sm_handle (S:=S) s') = rest). cbn. change (I (signer_process_round1
    frost_config random_source unix_timestamp (authority_index_to_frost_identifier 0) id psbt s).1).
  eapply wp_elim. unfold signer_process_round1, session_id_of, node_parse_signing_session_id. rewrite Hlen. cbn [negb Nat.eqb].
  apply wp_bind. apply (wp_ret id). apply wp_bind. eapply coordinator_found; [done..|]. intros p Hid.
  rewrite bool_decide_eq_true_2 by done. cbn [negb]. apply wp_bind, wp_gets. cbn [sm_signing_states].
  rewrite Hnone, bool_decide_eq_false_2 by (by intros [? ?]). apply wp_bind. unfold insert_new_signing_session.
  apply wp_bind, wp_gets. cbn [sm_signing_states]. rewrite Hnone, bool_decide_eq_false_2 by (by intros [? ?]).
  apply wp_modify. assert (∀ srv x st, I (mkSigning (<[id := x]> st) (mkHandle rest (fh_sends (sm_handle s)) (fh_sent (sm_handle s))) srv))
    as HI. { intros srv x st. unfold I. cbn. rewrite lookup_insert_eq. by split. }
  assert (∀ s1 st, I s1 → I (update_signing_state id st s1).1) as Hup.
  { intros s1 st [Hs1 Hp1]. split; [|done]. cbn. rewrite lookup_alter_eq. by apply fmap_is_Some. }
  apply wp_bind, wp_btc_client; [intros _ _|apply HI]. apply wp_bind, wp_or_failed, wp_btc_client; [intros pkg _|apply Hup, HI].
  apply wp_bind, wp_modify. destruct (negb _); [|apply wp_ret, (Hup _ Round2), HI].
  apply wp_retry; [apply (Hup _ Round2), HI|]. clear. intros s1 [Hs1 Hp1]. unfold wp, send_to_peer, send_message.
  destruct (fh_sends (sm_handle s1)) as [|[] sends]; by split.
Qed.

(** The same message once more ends the session; nothing is asked or sent. *)
Lemma second_message_ends identifier id psbt s l rest :
  is_coordinator frost_config random_source = false → length id = 32%nat → identifier = authority_index_to_frost_identifier 0 →
  fh_peers (sm_handle s) = Ok l :: rest → connects_coordinator l → is_Some (sm_signing_states s !! id) →
  (signer_process_round1 frost_config random_source unix_timestamp identifier id psbt s).1 =
    mkSigning (delete id (sm_signing_states s)) (mkHandle rest (fh_sends (sm_handle s)) (fh_sent (sm_handle s))) (sm_server s).
Proof.
  intros Hco Hlen -> Hp Hl Hsome.
  eapply (wp_elim _ (λ s', s' = _)). unfold signer_process_round1, session_id_of, node_parse_signing_session_id. rewrite Hlen.
  cbn [negb Nat.eqb]. apply wp_bind. apply (wp_ret id). apply wp_bind. eapply coordinator_found; [done..|]. intros p Hid.
  rewrite bool_decide_eq_true_2 by done. cbn [negb]. apply wp_bind, wp_gets. cbn [sm_signing_states].
  rewrite bool_decide_eq_true_2 by done. apply wp_bind, wp_modify. by apply wp_fail.
Qed.

(** Without a session the second round is ignored. *)
Lemma no_session_ignores identifier id psbt s l rest :
  is_coordinator frost_config random_source = false → length id = 32%nat →
  fh_peers (sm_handle s) = Ok l :: rest → connects_coordinator l → sm_signing_states s !! id = None →
  (signer_process_round2 frost_config random_source unix_timestamp identifier id psbt s).1 =
    mkSigning (sm_signing_states s) (mkHandle rest (fh_sends (sm_handle s)) (fh_sent (sm_handle s))) (sm_server s).
Proof.
  intros Hco Hlen Hp Hl Hnone.
  eapply (wp_elim _ (λ s', s' = _)). unfold signer_process_round2, session_id_of, node_parse_signing_session_id. rewrite Hlen.
  cbn [negb Nat.eqb]. apply wp_bind. apply (wp_ret id). apply wp_bind. eapply coordinator_found; [done..|]. intros p Hid.
  case_bool_decide; cbn [negb]; [|by apply wp_ret]. apply wp_bind, wp_gets. cbn. rewrite Hnone. by apply wp_ret.
Qed.

End silence.

(** A send that fails silences the members that the send has reached.  The
    coordinator gossips the first round to two peers; the second one has just
    disconnected, so the whole gossip is retried, and the first peer gets the
    same message a second time.  A member takes that for a coordinator that
    starts the session again and drops the session: it does not sign in the
    second round, whatever it is asked, its server is not asked anything, and
    the coordinator hears nothing. *)
Theorem retried_gossip_silences_member {S T : Type} `{!BtcServerApi S, !BtcServerApi T, !FrostNet}
    coordinator_config member_config random_source now
    (c : SigningStateMachine S) (m : SigningStateMachine T) a b peers sends pkg l1 l2 l3 rest psbt :
  sm_handle c = mkHandle (Ok [a; b] :: Ok [a] :: peers) (false :: true :: false :: sends) [] →
  pd_frost_identifier a ≠ personal_frost_identifier coordinator_config →
  pd_frost_identifier b ≠ personal_frost_identifier coordinator_config →
  (fc_min_signers coordinator_config ≤ 2)%nat →
  is_coordinator member_config random_source = false →
  length (sr_session_id pkg) = 32%nat → sm_signing_states m !! sr_session_id pkg = None →
  fh_peers (sm_handle m) = Ok l1 :: Ok l2 :: Ok l3 :: rest →
  connects_coordinator l1 → connects_coordinator l2 → connects_coordinator l3 →
  let sent := fh_sent (sm_handle (gossip_to_peers coordinator_config pkg SignerRound1SigningPackage c).1) in
  let handle t psbt := process_signing member_config random_source now t (authority_index_to_frost_identifier 0)
                         (sr_session_id pkg) psbt in
  ∃ r, sent = [(pd_peer_id a, MsgSigning r); (pd_peer_id a, MsgSigning r)] ∧
    sg_response_type r = SignerRound1SigningPackage ∧ sg_signing_session_id r = sr_session_id pkg ∧
    let m1 := (handle SignerRound1SigningPackage (sg_psbt r) m).1 in
    let m2 := (handle SignerRound1SigningPackage (sg_psbt r) m1).1 in
    let m3 := (handle SignerRound2SigningPackage psbt m2).1 in
    sm_signing_states m3 !! sr_session_id pkg = None ∧ sm_server m3 = sm_server m1 ∧
    fh_sent (sm_handle m3) = fh_sent (sm_handle m1).
Proof.
  intros Hc Ha Hb Hmin Hm Hlen Hnone Hp Hl1 Hl2 Hl3 sent handle.
  exists (mkSigningResponse SignerRound1SigningPackage (sr_session_id pkg) (sr_psbt pkg)). split_and!; [|done|done|].
  - unfold sent, gossip_to_peers, retry_exec. cbn [retry_future]. unfold gossip_round, bindM, get_all_peers_handle, connected_peers.
    rewrite Hc. cbn [fh_peers ok ok_or length Nat.add]. assert (∀ k, (Datatypes.S (Datatypes.S k) <? fc_min_signers coordinator_config)%nat = false) as Hk
      by (intros k; apply Nat.ltb_ge; lia).
    rewrite Hk. cbn [forM]. unfold bindM. rewrite !bool_decide_eq_false_2 by done. unfold send_to_peer, send_message. cbn -[Nat.ltb].
    unfold bindM, get_all_peers_handle. cbn -[Nat.ltb]. rewrite Hk. cbn. unfold bindM. rewrite bool_decide_eq_false_2 by done. done.
  - cbn [sg_psbt]. unfold handle. cbn [process_signing].
    destruct (first_message_opens member_config random_source now _ (sr_session_id pkg) (sr_psbt pkg) m l1 _ Hm Hlen eq_refl Hp Hl1 Hnone)
      as [Hsome Hp1].
    rewrite (second_message_ends _ _ _ _ _ _ _ _ _ Hm Hlen eq_refl Hp1 Hl2 Hsome).
    erewrite no_session_ignores; [|exact Hm|exact Hlen|reflexivity|exact Hl3|apply lookup_delete_eq].
    cbn. split; [apply lookup_delete_eq|done].
Qed.
