(* ===== verification/FrostTask.v ===== *)
(** * The task that drives the btc-server of a node

    src/bin/botanix-reth/src/consensus/frost_task.rs.  The task reports the
    blocks of the chain to the server, starts the signing sessions of its
    epochs, follows the key generations that the server announces and handles
    the messages of the peers.  One turn of its loop is [turn]; what it finds
    in its channels is the argument.  A key generation is a task of its own,
    [runner_turn], that shares the keys of the node.

    The storage, the network and the clock are as in [Abci], [Signing] and
    [NodeUtils]; the database of staged headers fails as a schedule says. *)

From S2P Require Import Prelude Bytes Bitcoin Psbt Types Database Codec Peg Edh Mint DkgAuth Dkg.
From S2P Require Import Execution Jwt Rpc Consensus NodeUtils Build Abci Server Client DataParser WalletSync Signing.
From stdpp Require Import gmap.

Open Scope Z_scope.

Inductive MsigMigrationStatus := MSTARTED | MRUNNING | MFINISHED.

Record MsigMigration := mkMsigMigration {
  mg_status : MsigMigrationStatus;
  mg_multisig_id_from : Z;
  mg_multisig_id_to : Z;
  mg_migration_id : bytes }.

(** A key generation task with the receiving side of its channel; [dr_open]
    while the node holds the sending side, [dr_alive] until it returns. *)
Record DkgRunnerTask := mkRunner {
  dr_rx : list DkgResponse;
  dr_open : bool;
  dr_alive : bool;
  dr_multisig_id : Z;
  dr_timeout : Z }.

Record MessageContext := mkMessage {
  mc_peer_id : bytes;
  mc_frost_identifier : option bytes;
  mc_message : PeerMessageResponse }.

Section frost_task.
Context {S : Type} `{!BtcServerApi S, !FrostNet}.
Context `{!PegLib, !Evm, !EthLib, !NodeLib, !MintLib, !NodeClient, !BitcoinLib, !JwtLib, !Profile}.
Context `{!FrostLib, !DkgLib, !PsbtLib, !ServerLib, !UuidLib, !ProstLib}.
Context (frost_config : FrostConfig) (random_source : bytes) (btc_network : Network) (epoch_length : Z).

(** [compressor] *)
Context (compressor : DataParser).

Inductive CanonStateNotification :=
| CanonCommit (tip_hash : bytes) (tip : EvmHeader) (pegins pegouts : option (list bytes))
| CanonReorg.

Record FrostTask := mkTask {
  ft_machine : SigningStateMachine S;
  ft_aggregate_public_key : option (gmap Z PublicKey);
  ft_is_block_syncing : bool;
  ft_staged : gmap bytes HeaderWithPegs;
  ft_io : list bool;
  ft_dkg_tasks : option (gmap Z nat);
  ft_runners : list DkgRunnerTask;
  ft_dkg_migrations : option (gmap bytes MsigMigration);
  ft_check_staged_headers : bool }.

Abbreviation FT A := (M FrostTask unit A).

Definition set_ft_machine (m : SigningStateMachine S) (s : FrostTask) : FrostTask :=
  mkTask m (ft_aggregate_public_key s) (ft_is_block_syncing s) (ft_staged s) (ft_io s) (ft_dkg_tasks s)
    (ft_runners s) (ft_dkg_migrations s) (ft_check_staged_headers s).
Definition set_ft_keys (keys : option (gmap Z PublicKey)) (s : FrostTask) : FrostTask :=
  mkTask (ft_machine s) keys (ft_is_block_syncing s) (ft_staged s) (ft_io s) (ft_dkg_tasks s)
    (ft_runners s) (ft_dkg_migrations s) (ft_check_staged_headers s).
Definition set_ft_syncing (b : bool) (s : FrostTask) : FrostTask :=
  mkTask (ft_machine s) (ft_aggregate_public_key s) b (ft_staged s) (ft_io s) (ft_dkg_tasks s)
    (ft_runners s) (ft_dkg_migrations s) (ft_check_staged_headers s).
Definition set_ft_staged (staged : gmap bytes HeaderWithPegs) (io : list bool) (s : FrostTask) : FrostTask :=
  mkTask (ft_machine s) (ft_aggregate_public_key s) (ft_is_block_syncing s) staged io (ft_dkg_tasks s)
    (ft_runners s) (ft_dkg_migrations s) (ft_check_staged_headers s).
Definition set_ft_dkg (tasks : option (gmap Z nat)) (runners : list DkgRunnerTask) (s : FrostTask) : FrostTask :=
  mkTask (ft_machine s) (ft_aggregate_public_key s) (ft_is_block_syncing s) (ft_staged s) (ft_io s) tasks
    runners (ft_dkg_migrations s) (ft_check_staged_headers s).
Definition set_ft_migrations (migrations : option (gmap bytes MsigMigration)) (s : FrostTask) : FrostTask :=
  mkTask (ft_machine s) (ft_aggregate_public_key s) (ft_is_block_syncing s) (ft_staged s) (ft_io s) (ft_dkg_tasks s)
    (ft_runners s) migrations (ft_check_staged_headers s).
Definition set_ft_check (b : bool) (s : FrostTask) : FrostTask :=
  mkTask (ft_machine s) (ft_aggregate_public_key s) (ft_is_block_syncing s) (ft_staged s) (ft_io s) (ft_dkg_tasks s)
    (ft_runners s) (ft_dkg_migrations s) b.

(** ** Calls *)

(** A call on the server or the sessions; its error is only logged. *)
Definition on_machine {A} (m : M (SigningStateMachine S) SigningError A) : FT (option A) :=
  okM (zoom ft_machine set_ft_machine m).

(** A call on the database; an error panics. *)
Definition on_staged {A} (f : gmap bytes HeaderWithPegs → gmap bytes HeaderWithPegs * A) : FT A := λ s,
  match ft_io s with
  | true :: io => (set_ft_staged (ft_staged s) io s, Panic)
  | io => let '(staged, a) := f (ft_staged s) in (set_ft_staged staged (tail io) s, Ok a)
  end.

Definition get_staged_headers : FT (list (bytes * HeaderWithPegs)) :=
  on_staged (λ t, (t, sort_by (λ a b, bytes_le a.1 b.1) (map_to_list t))).

(** Whether there was an entry. *)
Definition remove_staged_header (id : bytes) : FT bool :=
  on_staged (λ t, (delete id t, bool_decide (is_Some (t !! id)))).

(** The peers for a command of the task itself: [None] when the command cannot
    be sent; the answer is expected. *)
Definition all_peers : FT (option (list PeerData)) := λ s,
  let m := ft_machine s in
  let '(handle, answer) := connected_peers (sm_handle m) in
  (set_ft_machine (mkSigning (sm_signing_states m) handle (sm_server m)) s,
   match answer with Ok peers => Ok (Some peers) | Err _ => Ok None | Panic => Panic end).

(** A failing send is only logged. *)
Definition tell_peer (peer_id : bytes) (message : PeerMessageResponse) : FT unit := λ s,
  let m := ft_machine s in
  (set_ft_machine (mkSigning (sm_signing_states m) (send_message peer_id message (sm_handle m)).1 (sm_server m)) s, Ok tt).

(** ** Blocks *)

Definition sign_epoch (now : Z) (header_hash cp_block_hash : bytes) : FT unit :=
  let! psbt_payload := on_machine (btc_client (GetPsbt header_hash cp_block_hash) signing_package_answer) in
  match psbt_payload with
  | None => ret tt
  | Some psbt_payload =>
  match psbt_deserialize (sr_psbt psbt_payload) with
  | None => ret tt
  | Some psbt =>
  match validate_psbt_by_ids btc_network now psbt with
  | Panic => panic
  | Err _ => ret tt
  | Ok _ =>
      let! _ := on_machine (initiate_signing_session frost_config random_source now header_hash (sr_psbt psbt_payload)) in
      ret tt
  end end end.

Definition handle_canon_state_commit (now : Z) (header_hash : bytes) (header : EvmHeader) (pegins : list RpcUtxo)
    (pending_pegouts : list RpcPendingPegout) : FT unit :=
  lift (debug_assert_that (bool_decide (header_hash = hash_slow header))) ;!
  match deserialize_extra_data_header (eth_header header) with
  | Panic => panic
  | Err _ => ret tt
  | Ok edh =>
  let cp_block_hash := bitcoin_block_hash edh in
  let! accepted := on_machine (retry_exec (btc_client (NewConsensusCheckpoint
                     (mkCheckpointRequest cp_block_hash pegins pending_pegouts)) empty_answer) 3) in
  match accepted with
  | None => modify (set_ft_check true)
  | Some _ =>
      let! existed := remove_staged_header header_hash in
      lift (debug_assert_that existed) ;!
      if negb (is_poa_epoch (hd_number header) epoch_length) then ret tt else
      if negb (is_coordinator frost_config random_source) then ret tt else
      sign_epoch now header_hash cp_block_hash
  end end.

(** The blocks that the server has not accepted yet, in the order of their
    numbers. *)
Definition handle_staged_headers (now : Z) : FT unit :=
  let! staged_headers := get_staged_headers in
  let staged_headers := sort_by (λ a b, hd_number (hp_header a.2) <=? hd_number (hp_header b.2)) staged_headers in
  modify (set_ft_check false) ;!
  forM staged_headers (λ entry,
    let header := hp_header entry.2 in
    let pegins := get_utxos_from_staged_pegins (hp_pegins entry.2) in
    let pegouts := get_pending_pegouts_from_staged_pegouts (hp_pegouts entry.2) (hd_timestamp header) in
    handle_canon_state_commit now entry.1 header pegins pegouts).

(** Undecodable entries are dropped; decoding a pegout may panic. *)
Definition decode_pegouts (l : list bytes) : outcome unit (list PegoutWithId) :=
  filter_mapO (λ b, match PegoutWithId_deserialize b with
                    | Ok p => Ok (Some p) | Err _ => Ok None | Panic => Panic end) l.

Definition decode_pegins (l : list bytes) : outcome unit (list PeginMeta) :=
  filter_mapO (λ b, match PeginMeta_deserialize b with
                    | Ok p => Ok (Some p.1) | Err _ => Ok None | Panic => Panic end) l.

Definition commit_pegins (aggregate_public_keys : gmap Z PublicKey) (pegins : option (list bytes)) : outcome unit (list RpcUtxo) :=
  match pegins with
  | None => Ok []
  | Some pegins => let? pegins := decode_pegins pegins in get_utxos_from_pegin_meta pegins aggregate_public_keys
  end.

Definition commit_pegouts (header : EvmHeader) (pegouts : option (list bytes)) : outcome unit (list RpcPendingPegout) :=
  match pegouts with
  | None => Ok []
  | Some pegouts =>
      let? pegouts := decode_pegouts pegouts in
      Ok (get_pending_pegouts_from_pegout_data pegouts (hd_number header) (hd_timestamp header))
  end.

Definition handle_canon_notification (now : Z) (notification : CanonStateNotification) : FT unit :=
  match notification with
  | CanonReorg => ret tt
  | CanonCommit header_hash header pegins pegouts =>
      let! s := get in
      match ft_aggregate_public_key s with
      | None => modify (set_ft_check true)
      | Some aggregate_public_keys =>
          let! pegins := lift (commit_pegins aggregate_public_keys pegins) in
          let! pending_pegouts := lift (commit_pegouts header pegouts) in
          handle_canon_state_commit now header_hash header pegins pending_pegouts
      end
  end.

(** ** Key generations *)

(** [DkgRunnerTask::new]: the handle is the position of the new task. *)
Definition new_runner (multisig_id : Z) : FT nat := λ s,
  (set_ft_dkg (ft_dkg_tasks s) (ft_runners s ++ [mkRunner [] true true multisig_id 0]) s, Ok (length (ft_runners s))).

(** The handle is dropped. *)
Definition close_runner (i : nat) (runners : list DkgRunnerTask) : list DkgRunnerTask :=
  alter (λ r, mkRunner (dr_rx r) false (dr_alive r) (dr_multisig_id r) (dr_timeout r)) i runners.

(** [tasks.insert], which drops the handle that it replaces. *)
Definition insert_task (multisig_id : Z) (tx : nat) : FT unit :=
  modify (λ s,
    let tasks := default ∅ (ft_dkg_tasks s) in
    let runners := match tasks !! multisig_id with Some old => close_runner old (ft_runners s) | None => ft_runners s end in
    set_ft_dkg (Some (<[multisig_id := tx]> tasks)) runners s).

Definition remove_task (multisig_id : Z) : FT unit :=
  modify (λ s,
    match ft_dkg_tasks s with
    | Some tasks =>
        let runners := match tasks !! multisig_id with Some old => close_runner old (ft_runners s) | None => ft_runners s end in
        set_ft_dkg (Some (delete multisig_id tasks)) runners s
    | None => s
    end).

Definition has_task (multisig_id : Z) (s : FrostTask) : bool :=
  match ft_dkg_tasks s with Some tasks => bool_decide (is_Some (tasks !! multisig_id)) | None => false end.

Definition handle_dkg_notification (n : DkgNotification) : FT unit :=
  let! s := get in
  match n with
  | DkgStart multisig_id =>
      if has_task (as_u32 multisig_id) s then ret tt else
      let! tx := new_runner (as_u32 multisig_id) in
      insert_task (as_u32 multisig_id) tx
  | DkgRestart multisig_id =>
      if negb (has_task (as_u32 multisig_id) s) then ret tt else
      let! tx := new_runner (as_u32 multisig_id) in
      insert_task (as_u32 multisig_id) tx
  | DkgAbort multisig_id =>
      if negb (has_task (as_u32 multisig_id) s) then ret tt else
      remove_task (as_u32 multisig_id)
  end.

Definition set_status (status : MsigMigrationStatus) (m : MsigMigration) : MsigMigration :=
  mkMsigMigration status (mg_multisig_id_from m) (mg_multisig_id_to m) (mg_migration_id m).

Definition set_migration_status (migration_id : bytes) (status : MsigMigrationStatus) : FT unit :=
  modify (λ s, set_ft_migrations (alter (set_status status) migration_id <$> ft_dkg_migrations s) s).

Definition has_migration (migration_id : bytes) (s : FrostTask) : bool :=
  match ft_dkg_migrations s with Some ms => bool_decide (is_Some (ms !! migration_id)) | None => false end.

Definition handle_migration_notification (n : MigrationNotification) : FT unit :=
  let from := as_u32 (mn_multisig_id_from n) in
  let to := as_u32 (mn_multisig_id_to n) in
  let id := mn_migration_id n in
  let! s := get in
  match mn_event n with
  | MigrationStart =>
      if has_migration id s then ret tt else
      modify (λ s, set_ft_migrations (Some (<[id := mkMsigMigration MSTARTED from to id]> (default ∅ (ft_dkg_migrations s)))) s) ;!
      if has_task from s then ret tt else
      if has_task to s then ret tt else
      let! tx := new_runner to in
      insert_task to tx ;!
      set_migration_status id MRUNNING
  | MigrationEnd =>
      if negb (has_migration id s) then ret tt else
      set_migration_status id MFINISHED ;!
      remove_task from
  | MigrationAbort =>
      modify (λ s, set_ft_migrations (delete id <$> ft_dkg_migrations s) s) ;!
      remove_task to
  end.

(** Whatever its event, a notification of a key generation is one to start it. *)
Definition decode_notification (payload : option RpcNotification) : option DynafedSubscriptionMessage :=
  match payload with
  | Some (RpcDkgNotification _ multisig_id) => Some (DynafedDkg (DkgStart (mkMultisigId multisig_id)))
  | Some (RpcMigrationNotification event from to migration_id) =>
      event ← (match event with 1 => Some MigrationStart | 2 => Some MigrationEnd | 3 => Some MigrationAbort | _ => None end);
      migration_id ← uuid_parse_str migration_id;
      Some (DynafedMigration (mkMigration event (mkMultisigId from) (mkMultisigId to) migration_id))
  | None => None
  end.

Definition handle_notification (payload : option RpcNotification) : FT unit :=
  match decode_notification payload with
  | None => ret tt
  | Some (DynafedDkg n) => handle_dkg_notification n
  | Some (DynafedMigration n) => handle_migration_notification n
  end.

(** *** The task of a key generation *)

Definition DEFAULT_TIMEOUT : Z := 10000.

Definition update_runner (i : nat) (f : DkgRunnerTask → DkgRunnerTask) : FT unit :=
  modify (λ s, set_ft_dkg (ft_dkg_tasks s) (alter f i (ft_runners s)) s).

Definition set_timeout (i : nat) (timeout : Z) : FT unit :=
  update_runner i (λ r, mkRunner (dr_rx r) (dr_open r) (dr_alive r) (dr_multisig_id r) timeout).

(** The identifiers of the authorities *)
Definition frost_ids : list bytes :=
  map (λ i, authority_index_to_frost_identifier (Z.of_nat i mod 2 ^ 16)) (seq 0 (length (fc_authorities frost_config))).

(** A payload whose recipient is unknown or not connected is dropped. *)
Definition gossip_payload (peers : list PeerData) (payload : RpcDkgPayload) : FT unit :=
  match identifier_serialize <$> identifier_deserialize (dp_recipient payload) with
  | None => panic
  | Some recipient =>
      if negb (bool_decide (recipient ∈ frost_ids)) then ret tt else
      match list_find (λ p, pd_frost_identifier p = recipient) peers with
      | None => ret tt
      | Some (_, peer_data) => tell_peer (pd_peer_id peer_data) (MsgDkg payload)
      end
  end.

Definition gossip_payloads (payloads : list RpcDkgPayload) : FT unit :=
  if bool_decide (payloads = []) then ret tt else
  let! peers := all_peers in
  match peers with
  | None => ret tt
  | Some peers => forM payloads (gossip_payload peers)
  end.

Definition dkg_answer (r : Response) : option RpcDkgPayloads := match r with RDkgPayloads p => Some p | _ => None end.

Definition public_key_answer (r : Response) : option bytes := match r with RPublicKey k => Some k | _ => None end.

(** [secp256k1::PublicKey::from_str] *)
Definition public_key_from_str (text : bytes) : option PublicKey := hex_decode text ≫= pk_from_slice.

(** A message of a peer goes to the server; its answer goes to the peers.  The
    server is also asked for its key, and a key is stored under the multisig of
    the task. *)
Definition on_dkg_message (i : nat) (r : DkgRunnerTask) (dkg : DkgResponse) : FT unit :=
  let! resp := on_machine (btc_client (NewDkgPayload (mkRpcDkgPayload (dp_sender dkg) (dp_recipient dkg)
                 (dp_payload dkg) (dr_multisig_id r))) dkg_answer) in
  match resp with
  | None => set_timeout i DEFAULT_TIMEOUT
  | Some resp =>
      let! pk := on_machine (btc_client GetPublicKey public_key_answer) in
      match pk with
      | None => ret tt
      | Some publickey =>
          let! public_key_package := lift (expect (public_key_from_str publickey)) in
          modify (λ s, set_ft_keys (Some (<[dr_multisig_id r := public_key_package]> (default ∅ (ft_aggregate_public_key s)))) s)
      end ;!
      set_timeout i (dps_timeout resp) ;!
      gossip_payloads (dps_payloads resp)
  end.

Definition on_dkg_timeout (i : nat) (r : DkgRunnerTask) : FT unit :=
  let! resp := on_machine (btc_client (GetDkgPayloads (dr_multisig_id r)) dkg_answer) in
  match resp with
  | None => set_timeout i DEFAULT_TIMEOUT
  | Some resp =>
      set_timeout i (dps_timeout resp) ;!
      gossip_payloads (dps_payloads resp)
  end.

Definition kill_runner (r : DkgRunnerTask) : DkgRunnerTask :=
  mkRunner (dr_rx r) (dr_open r) false (dr_multisig_id r) (dr_timeout r).

(** The task [i] wakes up: with a message, because the handle was dropped, or
    because its timeout has passed.  A panic ends this task only. *)
Definition runner_turn (i : nat) (timed_out : bool) : FT unit := λ s,
  match ft_runners s !! i with
  | None => (s, Ok tt)
  | Some r =>
      if negb (dr_alive r) then (s, Ok tt) else
      let body :=
        match dr_rx r with
        | dkg :: rx =>
            update_runner i (λ r, mkRunner rx (dr_open r) (dr_alive r) (dr_multisig_id r) (dr_timeout r)) ;!
            on_dkg_message i r dkg
        | [] => if negb (dr_open r) then update_runner i kill_runner else
                if timed_out then on_dkg_timeout i r else ret tt
        end in
      match body s with
      | (s', Panic) => ((update_runner i kill_runner s').1, Ok tt)
      | (s', _) => (s', Ok tt)
      end
  end.

(** ** Messages of the peers *)

Definition has_wallet_state (response : WalletStateMessage) : bool :=
  negb (bool_decide (wm_finalized_pegout_ids response = [])).

Definition batches_answer (r : Response) : option (list FinalizedBatch) :=
  match r with RFinalizedPegouts bs => Some bs | _ => None end.

(** The chunks that are not empty, up to the first that cannot be encoded. *)
Fixpoint send_chunks (peer_id uuid : bytes) (batches : list FinalizedBatch) : FT unit :=
  match batches with
  | [] => ret tt
  | batch :: batches =>
      if bool_decide (fb_data batch = []) then send_chunks peer_id uuid batches else
      match prost_serialize batch with
      | Panic => panic
      | Err _ => ret tt
      | Ok prost_serialized =>
      match compress compressor prost_serialized with
      | Panic => panic
      | Err _ => ret tt
      | Ok compressed =>
          tell_peer peer_id (MsgWalletState (mkWalletMessage uuid compressed)) ;!
          send_chunks peer_id uuid batches
      end end
  end.

Definition send_serialized_compressed_finalized_pegout_ids (chunk_size : nat) (peer_id : bytes)
    (wallet_state_response : WalletStateMessage) : FT unit :=
  let! response := on_machine (btc_client (GetFinalizedPegoutIds chunk_size) batches_answer) in
  match response with
  | None => ret tt
  | Some batches => send_chunks peer_id (wm_uuid wallet_state_response) batches
  end.

Definition handle_wallet_request (peer_id : bytes) (response : WalletStateMessage) : FT unit :=
  if has_wallet_state response then ret tt else
  let! peers := all_peers in
  match peers with
  | None => ret tt
  | Some peers =>
      if negb (bool_decide (peer_id ∈ map pd_peer_id peers)) then ret tt else
      send_serialized_compressed_finalized_pegout_ids (fc_wallet_state_sync_chunk_size frost_config) peer_id response
  end.

(** The message waits in the channel of the task, which has returned when the
    send fails. *)
Definition handle_dkg_message (dkg_response : DkgResponse) : FT unit :=
  let! s := get in
  match ft_dkg_tasks s ≫= λ tasks, tasks !! dp_multisig_id dkg_response with
  | None => ret tt
  | Some i =>
      update_runner i (λ r, if dr_alive r
        then mkRunner (dr_rx r ++ [dkg_response]) (dr_open r) (dr_alive r) (dr_multisig_id r) (dr_timeout r) else r)
  end.

(** A message about a session is handled when its PSBT pays withdrawals of the
    node's own chain. *)
Definition handle_signing_message (now : Z) (frost_identifier : bytes) (response : SigningResponse) : FT unit :=
  if negb (length (sg_signing_session_id response) =? 32)%nat then ret tt else
  match psbt_deserialize (sg_psbt response) with
  | None => ret tt
  | Some psbt =>
  match validate_psbt_by_ids btc_network now psbt with
  | Panic => panic
  | Err _ => ret tt
  | Ok _ =>
      let! _ := on_machine (process_signing frost_config random_source now (sg_response_type response) frost_identifier
                  (sg_signing_session_id response) (sg_psbt response)) in
      ret tt
  end end.

Definition handle_peer_message (now : Z) (message_context : MessageContext) : FT unit :=
  match mc_frost_identifier message_context with
  | None => ret tt
  | Some frost_identifier =>
      match mc_message message_context with
      | MsgError => ret tt
      | MsgWalletState response => handle_wallet_request (mc_peer_id message_context) response
      | MsgDkg dkg_response => handle_dkg_message dkg_response
      | MsgSigning signing_response => handle_signing_message now frost_identifier signing_response
      end
  end.

(** ** The loop *)

(** What a turn finds: the clock, whether the application has started and, if
    so, what the consensus engine answers about its synchronization, and the
    contents of the channels. *)
Record TurnInput := mkTurn {
  tu_now : Z;
  tu_abci_started : bool;
  tu_catching_up : option bool;
  tu_notifications : list (option RpcNotification);
  tu_canon : list CanonStateNotification;
  tu_messages : list MessageContext }.

(** [true] when the turn ends early. *)
Definition sync_status (input : TurnInput) : FT bool :=
  if negb (tu_abci_started input) then ret false else
  match tu_catching_up input with
  | Some is_syncing => modify (set_ft_syncing is_syncing) ;! ret is_syncing
  | None => ret true
  end.

Definition turn (input : TurnInput) : FT unit :=
  let! paused := sync_status input in
  if paused then ret tt else
  let! s := get in
  whenM (ft_check_staged_headers s) (handle_staged_headers (tu_now input)) ;!
  forM (tu_notifications input) handle_notification ;!
  forM (tu_canon input) (handle_canon_notification (tu_now input)) ;!
  forM (tu_messages input) (handle_peer_message (tu_now input)).

(** What [start_task] does before its loop, once it has the channels: the keys
    of the node become the one key that the server answers with, and without
    an answer the first key generation starts. *)
Definition start_task : FT unit :=
  let! public_key := on_machine (btc_client GetPublicKey public_key_answer) in
  match public_key with
  | Some publickey =>
      let! bytes := lift (expect (hex_decode publickey)) in
      match pk_from_slice bytes with
      | Some secp_pk => modify (set_ft_keys (Some {[ as_u32 LEGACY_MULTISIG_ID := secp_pk ]}))
      | None => ret tt
      end
  | None =>
      let! tx := new_runner (as_u32 LEGACY_MULTISIG_ID) in
      insert_task (as_u32 LEGACY_MULTISIG_ID) tx
  end.

End frost_task.
