(* ===== verification/FrostSafety.v ===== *)
(** * What the task of a node guarantees

    Which PSBTs the server of a node is asked to sign, and what becomes of the
    blocks that it has to be told of. *)

From S2P Require Import Prelude Bytes Bitcoin Psbt Types Database Codec Peg Edh Mint DkgAuth Dkg.
From S2P Require Import Execution Jwt Rpc Consensus NodeUtils Build Abci Server Client DataParser WalletSync Signing.
From S2P Require Import SigningSafety FrostTask.
From stdpp Require Import gmap.

Open Scope Z_scope.

(** ** The requests of the sessions *)

Section session_requests.
Context {S : Type} `{!BtcServerApi S, !FrostNet}.
Context (frost_config : FrostConfig) (random_source : bytes) (unix_timestamp : Z).
Context (P : S → Request → Prop).

(** The requests that do not ask for a signature. *)
Definition asks_no_signature (req : Request) : Prop :=
  match req with GetRound1SigningPackage _ _ | GetRound2SigningPackage _ _ => False | _ => True end.

Context (HP : ∀ srv req, asks_no_signature req → P srv req).

Implicit Types s : SigningStateMachine S.

Definition machine_served s s' : Prop := served P (sm_server s) (sm_server s').

#[export] Instance served_preorder : PreOrder (served (S:=S) P).
Proof. apply rtc_po. Qed.

#[export] Instance machine_served_preorder : PreOrder machine_served.
Proof. split; [intros s; apply rtc_refl|intros s1 s2 s3 Hab Hbc; exact (transitivity (R:=served P) Hab Hbc)]. Qed.

Lemma served_call req (srv : S) : P srv req → served P srv (call req srv).1.
Proof. intros Hreq. apply rtc_once. by exists req. Qed.

Lemma network_served s s' : only_network s s' → machine_served s s'.
Proof. intros [_ Hs]. unfold machine_served. by rewrite Hs. Qed.

(** [serves m]: [m] asks requests of [P] only. *)
Abbreviation serves m := (respects machine_served m).

Lemma client_served {A} req (answer : Response → option A) s :
  P (sm_server s) req → machine_served s (btc_client req answer s).1.
Proof.
  intros Hreq. unfold machine_served, btc_client. pose proof (served_call req (sm_server s) Hreq) as Hc.
  by destruct (call req (sm_server s)) as [srv r].
Qed.

Lemma serves_client {A} req (answer : Response → option A) : (∀ srv, P srv req) → serves (btc_client req answer).
Proof. intros Hreq s. by apply client_served. Qed.

Lemma serves_modify f : serves (modify (E:=SigningError) (set_states (S:=S) f)).
Proof. intros s. apply rtc_refl. Qed.

Lemma serves_wp {A} (m : M _ SigningError A) :
  (∀ s, wp m (λ _, only_network s) (only_network s) s) → serves m.
Proof. intros Hm s. eapply network_served, wp_elim, Hm. Qed.

Lemma serves_failed {A} id (m : M _ SigningError A) : serves m → serves (or_failed id m).
Proof. intros Hm s. unfold or_failed. specialize (Hm s). by destruct (m s) as [s' []]. Qed.

Lemma serves_insert id k psbt st : serves (insert_new_signing_session (S:=S) id k psbt st).
Proof.
  unfold insert_new_signing_session, signing_session_exists.
  apply respects_bind; [apply _|apply respects_gets, _|]. intros []; [apply respects_ret, _|apply serves_modify].
Qed.

Lemma serves_gossip pkg t : serves (gossip_to_peers frost_config pkg t).
Proof. apply serves_wp. intros s. apply gossip_network. Qed.

Lemma serves_send p r n : serves (retry_future (send_to_peer p r) n).
Proof. apply serves_wp. intros s. apply retry_send_network. Qed.

(** What follows the search for the coordinator knows who it is. *)
Lemma serves_coordinator {B} (k : option (PeerData * Z) → M _ SigningError B) :
  serves (k None) →
  (∀ p i, is_coordinator frost_config random_source = false → pd_frost_identifier p = authority_index_to_frost_identifier 0 →
     serves (k (Some (p, i)))) →
  serves (let! c := get_coordinator_peer_data frost_config random_source unix_timestamp in k c).
Proof.
  intros Hn Hs s. pose proof (coordinator_network frost_config random_source unix_timestamp s) as Hw.
  unfold wp in Hw. unfold bindM. destruct (get_coordinator_peer_data _ _ _ s) as [s1 [c|e|]]; [|by apply network_served|done].
  destruct Hw as [Hnet Hc]. trans s1; [by apply network_served|]. destruct c as [[p i]|]; [|apply Hn].
  destruct (is_coordinator _ _) eqn:Hco; [done|]. destruct (Hc p i eq_refl). by apply Hs.
Qed.

Lemma serves_id id : serves (session_id_of (S:=S) id).
Proof. apply respects_lift, _. Qed.

#[local] Hint Resolve serves_client serves_modify serves_failed serves_insert serves_gossip serves_send serves_id : monad.
#[local] Hint Extern 1 (P _ _) => apply HP; exact I : monad.
#[local] Hint Extern 1 (Reflexive machine_served) => apply _ : monad.
#[local] Hint Extern 1 (Transitive machine_served) => apply _ : monad.

Ltac serve := unfold get_signing_session, signing_session_exists, in_state, remove_signing_session, update_signing_state,
  new_round1_signing_package, new_round2_signing_package, get_to_sign_package, finalize_signing, abort_signing; eauto 40 with monad.

Lemma initiate_serves id psbt :
  (∀ srv, P srv (GetRound1SigningPackage psbt id)) → serves (initiate_signing_session frost_config random_source unix_timestamp id psbt).
Proof.
  intros Hp. unfold initiate_signing_session. apply respects_bind; [apply _|apply serves_id|]. intros session_id.
  apply serves_coordinator; [|by intros; rewrite bool_decide_eq_true_2 by eauto; apply respects_ret, _].
  rewrite bool_decide_eq_false_2 by (by intros [? ?]). unfold get_round1_signing_package. serve.
Qed.

Lemma signer_round1_serves identifier id psbt :
  (is_coordinator frost_config random_source = false → identifier = authority_index_to_frost_identifier 0 →
     ∀ srv, P srv (GetRound1SigningPackage psbt id)) →
  serves (signer_process_round1 frost_config random_source unix_timestamp identifier id psbt).
Proof.
  intros Hp. unfold signer_process_round1. apply respects_bind; [apply _|apply serves_id|]. intros session_id.
  apply serves_coordinator; [apply respects_ret, _|]. intros p i Hco Hid. case_bool_decide as Heq; cbn [negb]; [|apply respects_ret, _].
  specialize (Hp Hco ltac:(congruence)). unfold get_round1_signing_package. serve.
Qed.

(** The package to sign is what the server has answered last. *)
Lemma serves_to_sign {B} id (k : option SigningPackageResponse → M _ SigningError B) :
  serves (k None) →
  (∀ s srv pkg, call (GetToSignPackage id) srv = (sm_server s, Some (RSigningPackage pkg)) →
     machine_served s (k (Some pkg) s).1) →
  serves (let! to_sign := okM (get_to_sign_package id) in k to_sign).
Proof.
  intros Hn Hk s. unfold get_to_sign_package, bindM, okM.
  pose proof (client_served (GetToSignPackage id) signing_package_answer s (HP _ (GetToSignPackage id) I)) as Hc. revert Hc.
  unfold btc_client. destruct (call (GetToSignPackage id) (sm_server s)) as [srv [r|]] eqn:E; cbn [fst];
    [|intros Hc; etrans; [exact Hc|apply Hn]].
  change (Some r ≫= signing_package_answer) with (signing_package_answer r).
  destruct (signing_package_answer r) as [pkg|] eqn:Hr; cbn [ok_or fst]; [|intros Hc; etrans; [exact Hc|apply Hn]].
  intros Hc. etrans; [exact Hc|]. destruct r; try discriminate Hr. injection Hr as ->. by eapply Hk.
Qed.

Lemma coordinator_round1_serves identifier id psbt :
  (is_coordinator frost_config random_source = true → ∀ srv srv' pkg,
     call (GetToSignPackage id) srv = (srv', Some (RSigningPackage pkg)) → P srv' (GetRound2SigningPackage (sr_psbt pkg) id)) →
  serves (coordinator_process_round1 frost_config random_source identifier id psbt).
Proof.
  intros Hp. unfold coordinator_process_round1, is_round1_state. destruct (is_coordinator frost_config random_source) eqn:Hco; cbn [negb].
  - specialize (Hp eq_refl). apply respects_bind; [apply _|apply serves_id|]. intros session_id.
    apply respects_bind; [apply _|serve|]. intros [|]; cbn [negb]; [|apply respects_ret, _].
    case_bool_decide; [apply respects_ret, _|]. apply respects_bind; [apply _|serve|]. intros [[]|]; [|apply respects_ret, _].
    apply serves_to_sign; [apply respects_ret, _|]. intros s srv pkg Hcall. specialize (Hp _ _ _ Hcall).
    unfold get_round2_signing_package. unfold bindM at 1.
    pose proof (client_served _ signing_package_answer s Hp) as Hc.
    destruct (btc_client _ _ s) as [s1 [pkg2|e|]]; cbn [fst] in Hc; [|exact Hc..]. etrans; [exact Hc|].
    match goal with |- machine_served _ (?m _).1 => assert (serves m) as Hm by serve end. apply Hm.
  - serve.
Qed.

Lemma signer_round2_serves identifier id psbt :
  (is_coordinator frost_config random_source = false → identifier = authority_index_to_frost_identifier 0 →
     ∀ srv, P srv (GetRound2SigningPackage psbt id)) →
  serves (signer_process_round2 frost_config random_source unix_timestamp identifier id psbt).
Proof.
  intros Hp. unfold signer_process_round2, is_round2_state. apply respects_bind; [apply _|apply serves_id|]. intros session_id.
  apply serves_coordinator; [apply respects_ret, _|]. intros p i Hco Hid. case_bool_decide as Heq; cbn [negb]; [|apply respects_ret, _].
  specialize (Hp Hco ltac:(congruence)). unfold get_round2_signing_package. serve.
Qed.

Lemma coordinator_round2_serves identifier id psbt :
  serves (coordinator_process_round2 frost_config random_source identifier id psbt).
Proof. unfold coordinator_process_round2, is_round2_state. serve. Qed.

End session_requests.

(** ** The requests of the task *)

Section task_requests.
Context {S : Type} (api : BtcServerApi S) `{!FrostNet}.
Context `{!PegLib, !Evm, !EthLib, !NodeLib, !MintLib, !NodeClient, !BitcoinLib, !JwtLib, !Profile}.
Context `{!FrostLib, !DkgLib, !PsbtLib, !ServerLib, !UuidLib, !ProstLib}.
Context (frost_config : FrostConfig) (random_source : bytes) (btc_network : Network) (epoch_length : Z).
Context (compressor : DataParser).

#[local] Existing Instance recorded.

Implicit Types s : FrostTask (S:=Recorded S).

(** The PSBT pays withdrawals of the node's own chain. *)
Definition validated (now : Z) (psbt : bytes) : Prop :=
  ∃ p, psbt_deserialize psbt = Some p ∧ validate_psbt_by_ids btc_network now p = Ok tt.

(** The coordinator has sent the PSBT for a round of the session. *)
Definition from_coordinator (messages : list MessageContext) (t : SigningEventResponseType) (id psbt : bytes) : Prop :=
  ∃ peer_id, mkMessage peer_id (Some (authority_index_to_frost_identifier 0)) (MsgSigning (mkSigningResponse t id psbt)) ∈ messages.

(** A peer has sent the coordinator a contribution to the session, with a PSBT
    that passes the check. *)
Definition from_member (now : Z) (messages : list MessageContext) (id : bytes) : Prop :=
  ∃ peer_id identifier psbt,
    mkMessage peer_id (Some identifier) (MsgSigning (mkSigningResponse CoordinatorRound1SigningPackage id psbt)) ∈ messages ∧
    validated now psbt.

(** What the server may be asked in a turn, after what it has answered in the
    past.  For the second round the coordinator passes on the package that its
    server has just made of the first, which it does not validate again. *)
Definition allowed (now : Z) (messages : list MessageContext) (past : list (Request * option Response)) (req : Request) : Prop :=
  let coordinator := is_coordinator frost_config random_source in
  match req with
  | GetRound1SigningPackage psbt id =>
      validated now psbt ∧ (coordinator = true ∨ from_coordinator messages SignerRound1SigningPackage id psbt)
  | GetRound2SigningPackage psbt id =>
      validated now psbt ∧ from_coordinator messages SignerRound2SigningPackage id psbt ∨
      coordinator = true ∧ from_member now messages id ∧
        ∃ pkg, last past = Some (GetToSignPackage id, Some (RSigningPackage pkg)) ∧ sr_psbt pkg = psbt
  | _ => True
  end.

Section one_turn.
Context (now : Z) (messages : list MessageContext).

Abbreviation P := (λ srv : Recorded S, allowed now messages srv.2).

Definition task_served s s' : Prop := machine_served P (ft_machine s) (ft_machine s').

#[local] Instance task_served_preorder : PreOrder task_served.
Proof. split; [intros s; apply rtc_refl|intros s1 s2 s3 Hab Hbc; exact (transitivity (R:=served P) Hab Hbc)]. Qed.

Lemma asks_allowed (srv : Recorded S) req : asks_no_signature req → allowed now messages srv.2 req.
Proof. by destruct req. Qed.

Abbreviation serves m := (respects task_served m).

Lemma serves_machine {A} (m : M _ SigningError A) : respects (machine_served P) m → serves (on_machine m).
Proof. intros Hm. apply respects_okM. by apply (respects_zoom _ (machine_served P)). Qed.

Lemma serves_ask {A} req (answer : Response → option A) : asks_no_signature req → serves (on_machine (btc_client req answer)).
Proof. intros Hr. apply serves_machine, serves_client. intros srv. by apply asks_allowed. Qed.

(** The rest of the state is the task's own. *)
Lemma serves_own f : (∀ s, ft_machine (f s) = ft_machine s) → serves (modify (E:=unit) f).
Proof. intros Hf s. unfold task_served, machine_served. cbn. rewrite Hf. apply rtc_refl. Qed.

Lemma serves_staged {A} (f : gmap bytes HeaderWithPegs → gmap bytes HeaderWithPegs * A) : serves (on_staged f).
Proof.
  intros s. unfold task_served, machine_served, on_staged. destruct (ft_io s) as [|[] io]; [|apply rtc_refl|];
    destruct (f (ft_staged s)); apply rtc_refl.
Qed.

Lemma serves_peers : serves all_peers.
Proof.
  intros s. unfold task_served, machine_served, all_peers. destruct (connected_peers _); apply rtc_refl.
Qed.

Lemma serves_tell peer_id message : serves (tell_peer peer_id message).
Proof. intros s. apply rtc_refl. Qed.

Lemma serves_runner i f : serves (update_runner i f).
Proof. by apply serves_own. Qed.

Lemma serves_new_runner m : serves (new_runner m).
Proof. intros s. apply rtc_refl. Qed.

Lemma serves_remove_task m : serves (remove_task m).
Proof. apply serves_own. intros s. by destruct (ft_dkg_tasks s). Qed.

#[local] Hint Resolve serves_ask serves_own serves_staged serves_peers serves_tell serves_runner serves_new_runner
  serves_remove_task : monad.
#[local] Hint Extern 1 (asks_no_signature _) => exact I : monad.
#[local] Hint Extern 1 (Reflexive task_served) => apply _ : monad.
#[local] Hint Extern 1 (Transitive task_served) => apply _ : monad.
#[local] Hint Extern 2 (respects _ (modify _)) => apply serves_own; done : monad.

(** A block asks for a signature of what the node has validated. *)
Lemma serves_sign_epoch header_hash cp :
  is_coordinator frost_config random_source = true →
  serves (sign_epoch frost_config random_source btc_network now header_hash cp).
Proof.
  intros Hco. unfold sign_epoch. apply respects_bind; [apply _|by apply serves_ask|]. intros [pkg|]; [|eauto with monad].
  destruct (psbt_deserialize _) as [psbt|] eqn:Hp; [|eauto with monad].
  destruct (validate_psbt_by_ids _ _ _) as [[]|e|] eqn:Hv; [|eauto with monad..].
  apply respects_bind; [apply _| |eauto with monad]. apply serves_machine, initiate_serves; [apply asks_allowed|].
  intros srv. split; [by exists psbt|by left].
Qed.

Lemma serves_retry {A} (m : M (SigningStateMachine (Recorded S)) SigningError A) n :
  respects (machine_served P) m → respects (machine_served P) (retry_exec m n).
Proof.
  intros Hm. unfold retry_exec. induction n as [|n IH]; intros s; cbn [retry_future]; specialize (Hm s);
    destruct (m s) as [s1 [a|e|]]; cbn in *; try done. etrans; [exact Hm|apply IH].
Qed.

Lemma serves_commit header_hash header pegins pegouts :
  serves (handle_canon_state_commit frost_config random_source btc_network epoch_length now header_hash header pegins pegouts).
Proof.
  unfold handle_canon_state_commit. apply respects_bind; [apply _|eauto with monad|]. intros _.
  destruct (deserialize_extra_data_header _) as [edh|e|]; [|eauto with monad..].
  apply respects_bind; [apply _|by apply serves_machine, serves_retry, serves_client; intros srv|]. intros [[]|]; [|eauto with monad].
  apply respects_bind; [apply _|apply serves_staged|]. intros existed. apply respects_bind; [apply _|eauto with monad|]. intros _.
  destruct (negb _); [eauto with monad|]. destruct (is_coordinator _ _) eqn:Hco; cbn [negb]; [|eauto with monad].
  by apply serves_sign_epoch.
Qed.

(** A message asks for a signature when the coordinator has sent it. *)
Lemma serves_signing identifier id psbt t peer_id :
  mkMessage peer_id (Some identifier) (MsgSigning (mkSigningResponse t id psbt)) ∈ messages →
  serves (handle_signing_message frost_config random_source btc_network now identifier (mkSigningResponse t id psbt)).
Proof.
  intros Hin. unfold handle_signing_message. cbn [sg_signing_session_id sg_psbt sg_response_type].
  destruct (negb _); [eauto with monad|]. destruct (psbt_deserialize _) as [p|] eqn:Hp; [|eauto with monad].
  destruct (validate_psbt_by_ids _ _ _) as [[]|e|] eqn:Hv; [|eauto with monad..].
  apply respects_bind; [apply _| |eauto with monad]. apply serves_machine.
  assert (validated now psbt) as Hval by (by exists p).
  destruct t; cbn [process_signing].
  - apply signer_round1_serves; [apply asks_allowed|]. intros _ -> srv. split; [done|]. right. by exists peer_id.
  - apply (coordinator_round1_serves _ _ P asks_allowed). intros Hco srv srv' pkg Hcall. right.
    split_and!; [done|by exists peer_id, identifier, psbt|]. exists pkg. split; [|done]. revert Hcall.
    unfold call, recorded. destruct (api _ srv.1) as [srv1 r]. intros [= <- ->]. apply last_snoc.
  - apply signer_round2_serves. intros _ -> srv. left. split; [done|by exists peer_id].
  - apply coordinator_round2_serves, asks_allowed.
Qed.

Lemma serves_message m :
  m ∈ messages → serves (handle_peer_message frost_config random_source btc_network compressor now m).
Proof.
  intros Hin. unfold handle_peer_message. destruct m as [peer_id [identifier|] message]; cbn in *; [|eauto with monad].
  destruct message as [|response|dkg|[t id psbt]]; [eauto with monad| | |by eapply serves_signing].
  - unfold handle_wallet_request, send_serialized_compressed_finalized_pegout_ids.
    assert (∀ p u l, serves (send_chunks compressor p u l)) as Hchunks.
    { intros p u l. induction l as [|b l IH]; cbn [send_chunks]; eauto 10 with monad. }
    eauto 20 with monad.
  - unfold handle_dkg_message. apply respects_get. intros s. destruct (_ ≫= _); [apply serves_runner|apply rtc_refl].
Qed.

Lemma serves_notification payload : serves (handle_notification payload).
Proof.
  unfold handle_notification. destruct (decode_notification payload) as [[n|n]|]; [| |eauto with monad].
  - unfold handle_dkg_notification, insert_task. apply respects_get. intros s.
    destruct n; destruct (has_task _ _); cbn [negb]; apply rtc_refl || apply serves_remove_task.
  - unfold handle_migration_notification. apply respects_get. intros s. destruct (mn_event n); cbn [negb].
    + destruct (has_migration _ _); [apply rtc_refl|]. unfold insert_task, set_migration_status.
      eapply (respects_bind task_served); [by apply serves_own|]. intros _.
      destruct (has_task _ _); [apply respects_ret, _|]. destruct (has_task _ _); [apply respects_ret, _|]. eauto 10 with monad.
    + destruct (has_migration _ _); [|apply rtc_refl]. unfold set_migration_status.
      eapply (respects_bind task_served); [by apply serves_own|]. intros _. apply serves_remove_task.
    + eapply (respects_bind task_served); [by apply serves_own|]. intros _. apply serves_remove_task.
Qed.

Lemma serves_canon notification :
  serves (handle_canon_notification frost_config random_source btc_network epoch_length now notification).
Proof.
  destruct notification as [h header pegins pegouts|]; cbn; [|eauto with monad]. apply respects_get. intros s.
  destruct (ft_aggregate_public_key s) as [keys|]; [|apply rtc_refl].
  eapply (respects_bind task_served); [apply respects_lift, _|]. intros ps.
  eapply (respects_bind task_served); [apply respects_lift, _|]. intros os. apply serves_commit.
Qed.

End one_turn.

(** What the requests of [served] look like in the log. *)
Lemma served_allowed now messages (srv srv' : Recorded S) :
  served (λ srv, allowed now messages srv.2) srv srv' →
  ∃ l, srv'.2 = srv.2 ++ l ∧
    ∀ l1 req r l2, l = l1 ++ (req, r) :: l2 → allowed now messages (srv.2 ++ l1) req.
Proof.
  induction 1 as [srv|srv srv1 srv' (req & Hreq & ->) _ (l & Hl & IH)].
  - exists []. split; [by rewrite app_nil_r|]. by intros [].
  - unfold call, recorded in *. destruct (api req srv.1) as [srv1 r]. cbn in *. exists ((req, r) :: l).
    split; [by rewrite Hl, <- app_assoc|]. intros [|e l1] req' r' l2 Heq; injection Heq as <- Heq.
    + by rewrite app_nil_r.
    + rewrite cons_middle, app_assoc. by eapply IH.
Qed.

(** C6.  In whatever turn of its loop, and whatever its peers, its server and its
    storage do, every request of a node that its server takes part in a
    signature is one of these.  A request for the first round is for a PSBT that
    pays withdrawals of the node's own chain, as [validate_psbt_by_ids] checks;
    a member makes it only for a message of this turn in the coordinator's name,
    for the session and the PSBT of that message.  A request for the second round
    is either for such a PSBT of such a message, or it is the coordinator's: then
    the request before it was for the package to sign of the same session, the
    PSBT is the one that the server has answered, and a peer's message of this
    turn carries a PSBT for that session which passes the check.  The coordinator
    does not check the PSBT that its own server has combined. *)
Theorem signs_validated_requests_only input s :
  let now := tu_now input in
  let log s := (sm_server (ft_machine s)).2 in
  ∃ l, log (turn frost_config random_source btc_network epoch_length compressor input s).1 = log s ++ l ∧
    ∀ l1 req r l2, l = l1 ++ (req, r) :: l2 → allowed now (tu_messages input) (log s ++ l1) req.
Proof.
  intros now log. apply served_allowed. clear log.
  cut (respects (task_served (tu_now input) (tu_messages input))
    (turn frost_config random_source btc_network epoch_length compressor input)); [intros Hr; apply Hr|].
  pose proof (task_served_preorder (tu_now input) (tu_messages input)) as [Hrefl Htrans].
  unfold turn, sync_status. apply respects_bind; [done| |].
  { destruct (negb _); [by apply respects_ret|]. destruct (tu_catching_up input); [|by apply respects_ret].
    apply respects_bind; [done|by apply serves_own|intros _; by apply respects_ret]. }
  intros []; [by apply respects_ret|]. apply respects_get. intros s0.
  eapply (respects_bind (task_served (tu_now input) (tu_messages input))).
  { apply respects_whenM; [done|]. unfold handle_staged_headers. apply respects_bind; [done|apply serves_staged|].
    intros l. apply respects_bind; [done|by apply serves_own|]. intros _. apply respects_forM; [done..|].
    intros e _. apply serves_commit. }
  intros _. apply respects_bind; [done|apply respects_forM; [done..|]; intros n _; apply serves_notification|].
  intros _. apply respects_bind; [done|apply respects_forM; [done..|]; intros n _; apply serves_canon|].
  intros _. apply respects_forM; [done..|]. intros m Hm. by apply serves_message.
Qed.

End task_requests.

(** ** The blocks that the server has to be told of *)

Lemma served_log {S : Type} (api : BtcServerApi S) P (s s' : Recorded S) :
  served (BtcServerApi0:=recorded api) P s s' → ∃ l, s'.2 = s.2 ++ l.
Proof.
  induction 1 as [s|s s1 s' (req & _ & ->) _ [l IH]]; [exists []; by rewrite app_nil_r|].
  rewrite IH. unfold call, recorded. destruct (api req s.1) as [srv r]. cbn. rewrite <- app_assoc. by eexists.
Qed.

Section blocks.
Context {S : Type} `{!BtcServerApi S, !FrostNet}.
Context `{!PegLib, !Evm, !EthLib, !NodeLib, !MintLib, !NodeClient, !BitcoinLib, !JwtLib, !Profile}.
Context `{!FrostLib, !DkgLib, !PsbtLib, !ServerLib, !UuidLib, !ProstLib}.
Context (frost_config : FrostConfig) (random_source : bytes) (btc_network : Network) (epoch_length : Z).
Context (compressor : DataParser).

Implicit Types s : FrostTask (S:=S).

(** The part of the state that the blocks are about. *)
Definition blocks_of s := (ft_aggregate_public_key s, ft_staged s, ft_check_staged_headers s).

Abbreviation frames m := (respects (keeps blocks_of) m).

#[local] Instance keeps_preorder {A B} (f : A → B) : PreOrder (keeps f).
Proof. split; [by intros x|]. intros x y z. unfold keeps. congruence. Qed.

Lemma frames_machine {A} (m : M _ SigningError A) : frames (on_machine (S:=S) m).
Proof.
  apply respects_okM. intros s. unfold zoom. by destruct (m (ft_machine s)).
Qed.

Lemma frames_own f : (∀ s, blocks_of (f s) = blocks_of s) → frames (modify (E:=unit) f).
Proof. intros Hf s. apply Hf. Qed.

Lemma frames_peers : frames (all_peers (S:=S)).
Proof. intros s. unfold all_peers. by destruct (connected_peers _). Qed.

Lemma frames_tell peer_id message : frames (tell_peer (S:=S) peer_id message).
Proof. by intros s. Qed.

Lemma frames_runner i f : frames (update_runner (S:=S) i f).
Proof. by apply frames_own. Qed.

Lemma frames_new_runner m : frames (new_runner (S:=S) m).
Proof. by intros s. Qed.

Lemma frames_remove_task m : frames (remove_task (S:=S) m).
Proof. apply frames_own. intros s. by destruct (ft_dkg_tasks s). Qed.

#[local] Hint Resolve frames_machine frames_own frames_peers frames_tell frames_runner frames_new_runner frames_remove_task : monad.
#[local] Hint Extern 1 (Reflexive (keeps _)) => apply _ : monad.
#[local] Hint Extern 1 (Transitive (keeps _)) => apply _ : monad.
#[local] Hint Extern 2 (respects _ (modify _)) => apply frames_own; done : monad.

Lemma frames_sign_epoch now h cp : frames (sign_epoch frost_config random_source btc_network now h cp).
Proof. unfold sign_epoch. eauto 20 with monad. Qed.

Lemma frames_notification payload : frames (handle_notification payload).
Proof.
  unfold handle_notification. destruct (decode_notification payload) as [[n|n]|]; [| |eauto with monad].
  - unfold handle_dkg_notification, insert_task. apply respects_get. intros s.
    destruct n; destruct (has_task _ _); cbn [negb]; done || apply frames_remove_task.
  - unfold handle_migration_notification. apply respects_get. intros s. destruct (mn_event n); cbn [negb].
    + destruct (has_migration _ _); [done|]. by destruct (has_task _ _); [|destruct (has_task _ _)].
    + destruct (has_migration _ _); [|done]. unfold set_migration_status.
      eapply (respects_bind (keeps blocks_of)); [by apply frames_own|]. intros _. apply frames_remove_task.
    + eapply (respects_bind (keeps blocks_of)); [by apply frames_own|]. intros _. apply frames_remove_task.
Qed.

Lemma frames_message now m : frames (handle_peer_message frost_config random_source btc_network compressor now m).
Proof.
  unfold handle_peer_message. destruct (mc_frost_identifier m) as [identifier|]; [|eauto with monad].
  destruct (mc_message m) as [|response|dkg|response]; [eauto with monad| | |].
  - unfold handle_wallet_request, send_serialized_compressed_finalized_pegout_ids.
    assert (∀ p u l, frames (send_chunks compressor p u l)) as Hchunks.
    { intros p u l. induction l as [|b l IH]; cbn [send_chunks]; eauto 10 with monad. }
    eauto 20 with monad.
  - unfold handle_dkg_message. apply respects_get. intros s. by destruct (_ ≫= _); [apply frames_runner|].
  - unfold handle_signing_message. eauto 20 with monad.
Qed.

Lemma debug_assert_cases (b : bool) : debug_assert_that (E:=unit) b = Ok tt ∨ debug_assert_that (E:=unit) b = Panic.
Proof. unfold debug_assert_that. destruct (_ && _); [by right|by left]. Qed.

(** What the report of a block does to the staged headers and to the flag. *)
Definition commit_effect (header : EvmHeader) (h : bytes) s s' (o : outcome unit unit) : Prop :=
  ft_aggregate_public_key s' = ft_aggregate_public_key s ∧
  ((∃ e, deserialize_extra_data_header (eth_header header) = Err e) ∧ blocks_of s' = blocks_of s ∨
   ft_check_staged_headers s' = true ∧ ft_staged s' = ft_staged s ∨
   ft_check_staged_headers s' = ft_check_staged_headers s ∧ ft_staged s' = delete h (ft_staged s) ∨
   o = Panic ∧ blocks_of s' = blocks_of s).

Lemma commit_cases now h header pegins pegouts s s' o :
  handle_canon_state_commit frost_config random_source btc_network epoch_length now h header pegins pegouts s = (s', o) →
  commit_effect header h s s' o.
Proof.
  unfold handle_canon_state_commit, bindM at 1, lift at 1.
  destruct (debug_assert_cases (bool_decide (h = hash_slow header))) as [-> | ->];
    [|intros [= <- <-]; split; [done|]; by do 3 right].
  destruct (deserialize_extra_data_header _) as [edh|e|] eqn:Hedh;
    [|intros [= <- <-]; split; [done|left; split; [by exists e|done]]|intros [= <- <-]; split; [done|by do 3 right]].
  unfold bindM at 1. match goal with |- context [on_machine ?m s] => pose proof (frames_machine m s) as Hf;
    destruct (on_machine m s) as [s1 [[[]|]|e|]] eqn:Hm end; cbn in Hf.
  - unfold keeps, blocks_of in Hf. injection Hf as Hk Hst Hc.
    unfold remove_staged_header. unfold bindM at 1. unfold on_staged at 1. destruct (ft_io s1) as [|[] io];
      [|intros [= <- <-]; split; [done|do 3 right; split; [done|cbn; unfold blocks_of; cbn; congruence]]|];
    (cbn [fst snd]; unfold bindM at 1; unfold lift at 1;
     set (s2 := set_ft_staged (delete h (ft_staged s1)) _ s1);
     assert (∀ s3, keeps blocks_of s2 s3 → ∀ o', commit_effect header h s s3 o') as Hdone;
     [intros s3 [= Hk3 Hst3 Hc3] o'; split; [congruence|]; right; right; left; cbn in *; split; congruence|];
     destruct (debug_assert_cases (bool_decide (is_Some (ft_staged s1 !! h)))) as [-> | ->];
       [|intros [= <- <-]; by apply Hdone];
     destruct (negb _); [intros [= <- <-]; by apply Hdone|]; destruct (negb _); [intros [= <- <-]; by apply Hdone|];
     intros Hs; apply Hdone; pose proof (frames_sign_epoch now h (bitcoin_block_hash edh) s2) as Hf2;
     rewrite Hs in Hf2; exact Hf2).
  - injection Hf as Hk Hst Hc. intros [= <- <-]. split; [done|]. right. by left.
  - exfalso. revert Hm. unfold on_machine, okM. by destruct (zoom _ _ _ s) as [? []].
  - injection Hf as Hk Hst Hc. intros [= <- <-]. split; [done|]. do 3 right. split; [done|]. unfold blocks_of. congruence.
Qed.

(** The staged headers only become fewer, and nothing clears the flag. *)
Definition shrinks s s' : Prop :=
  ft_aggregate_public_key s' = ft_aggregate_public_key s ∧ ft_staged s' ⊆ ft_staged s ∧
  (ft_check_staged_headers s = true → ft_check_staged_headers s' = true).

#[local] Instance shrinks_preorder : PreOrder shrinks.
Proof.
  split; [by intros s|]. intros s1 s2 s3 (Hk & Hs & Hc) (Hk' & Hs' & Hc'). split_and!; [congruence|by etrans|by eauto].
Qed.

Lemma keeps_shrinks s s' : keeps blocks_of s s' → shrinks s s'.
Proof. intros [= Hk Hs Hc]. unfold shrinks. rewrite Hk, Hs, Hc. done. Qed.

Lemma effect_shrinks header h s s' o : commit_effect header h s s' o → shrinks s s'.
Proof.
  intros [Hk [[_ Hb]|[[Hc Hs]|[[Hc Hs]|[_ Hb]]]]]; [by apply keeps_shrinks| | |by apply keeps_shrinks].
  - split_and!; [done|by rewrite Hs|by rewrite Hc].
  - split_and!; [done|rewrite Hs; apply delete_subseteq|by rewrite Hc].
Qed.

Lemma commit_shrinks now h header pegins pegouts :
  respects shrinks (handle_canon_state_commit frost_config random_source btc_network epoch_length now h header pegins pegouts).
Proof. intros s. destruct (handle_canon_state_commit _ _ _ _ _ _ _ _ _ s) as [s' o] eqn:E. by eapply effect_shrinks, commit_cases. Qed.

(** After the report of a block the block is told or the flag is set, unless
    its extra data cannot be read. *)
Definition settled (header : EvmHeader) (h : bytes) s : Prop :=
  ft_check_staged_headers s = true ∨ (∃ e, deserialize_extra_data_header (eth_header header) = Err e) ∨
  ft_staged s !! h = None.

Lemma settled_shrinks header h s s' : settled header h s → shrinks s s' → settled header h s'.
Proof.
  intros [Hc|[He|Hn]] (_ & Hsub & Hmono); [left; by apply Hmono|right; by left|right; right].
  destruct (ft_staged s' !! h) as [hp|] eqn:Hh; [|done]. eapply lookup_weaken in Hh; [|exact Hsub]. congruence.
Qed.

Lemma commit_settles now h header pegins pegouts s s' :
  handle_canon_state_commit frost_config random_source btc_network epoch_length now h header pegins pegouts s = (s', Ok tt) →
  settled header h s'.
Proof.
  intros Hh. destruct (commit_cases _ _ _ _ _ _ _ _ Hh) as [_ [[He _]|[[Hc _]|[[_ Hs]|[? _]]]]]; [right; by left|by left| |done].
  right; right. rewrite Hs. apply lookup_delete_eq.
Qed.

Lemma canon_settles now h header pegins pegouts s s' :
  handle_canon_notification frost_config random_source btc_network epoch_length now (CanonCommit h header pegins pegouts) s = (s', Ok tt) →
  settled header h s'.
Proof.
  unfold handle_canon_notification. intros Hh. apply bindM_Ok in Hh as (s0 & s1 & [= <- <-] & Hh).
  destruct (ft_aggregate_public_key s) as [keys|]; [|injection Hh as <-; by left].
  apply bindM_Ok in Hh as (s1 & ps & Hp & Hh). apply lift_Ok in Hp as [-> _].
  apply bindM_Ok in Hh as (s2 & os & Ho & Hh). apply lift_Ok in Ho as [-> _]. by eapply commit_settles.
Qed.

Lemma canon_shrinks now n :
  respects shrinks (handle_canon_notification frost_config random_source btc_network epoch_length now n).
Proof.
  destruct n as [h header pegins pegouts|]; [|apply respects_ret, _]. apply respects_get. intros s.
  destruct (ft_aggregate_public_key s) as [keys|] eqn:Hk.
  - eapply (respects_bind shrinks); [apply respects_lift, _|]. intros ps.
    eapply (respects_bind shrinks); [apply respects_lift, _|]. intros os. apply commit_shrinks.
  - split_and!; done.
Qed.

(** A loop settles what each of its turns settles. *)
Lemma forM_settles {A} (f : A → M (FrostTask (S:=S)) unit unit) (settles : A → FrostTask (S:=S) → Prop) l s s' :
  (∀ x s s', x ∈ l → f x s = (s', Ok tt) → settles x s') → (∀ x, x ∈ l → respects shrinks (f x)) →
  (∀ x s s', settles x s → shrinks s s' → settles x s') →
  forM l f s = (s', Ok tt) → ∀ x, x ∈ l → settles x s'.
Proof.
  intros Hf Hr Hmono. revert s. induction l as [|y l IH]; intros s Hs x Hx; [by apply not_elem_of_nil in Hx|].
  cbn [forM] in Hs. apply bindM_Ok in Hs as (s1 & [] & Hy & Hs). apply elem_of_cons in Hx as [->|Hx].
  - apply (Hmono _ s1); [eapply Hf; [by left|exact Hy]|].
    assert (respects shrinks (forM l f)) as Hl by (apply respects_forM; [apply _..|]; intros z Hz; apply Hr; by right).
    specialize (Hl s1). by rewrite Hs in Hl.
  - eapply IH; [|..|exact Hs|exact Hx]; [intros z t t' Hz; apply Hf; by right|intros z Hz; apply Hr; by right].
Qed.

Definition not_paused (input : TurnInput) : Prop := tu_abci_started input = false ∨ tu_catching_up input = Some false.

(** The parts of a turn that is not paused. *)
Lemma turn_parts input s s' :
  not_paused input →
  turn frost_config random_source btc_network epoch_length compressor input s = (s', Ok tt) →
  ∃ s0 s1 s2 s3,
    blocks_of s0 = blocks_of s ∧
    whenM (ft_check_staged_headers s0)
      (handle_staged_headers frost_config random_source btc_network epoch_length (tu_now input)) s0 = (s1, Ok tt) ∧
    keeps blocks_of s1 s2 ∧
    forM (tu_canon input) (handle_canon_notification frost_config random_source btc_network epoch_length (tu_now input)) s2 = (s3, Ok tt) ∧
    keeps blocks_of s3 s'.
Proof.
  intros Hp Ht. unfold turn in Ht. apply bindM_Ok in Ht as (s0 & paused & Hs0 & Ht).
  assert (blocks_of s0 = blocks_of s ∧ paused = false) as [Hb ->].
  { revert Hs0. unfold sync_status. destruct Hp as [Hp|Hp]; rewrite Hp; [by intros [= <- <-]|].
    destruct (negb _); by intros [= <- <-]. }
  apply bindM_Ok in Ht as (s0' & s00 & [= <- <-] & Ht).
  apply bindM_Ok in Ht as (s1 & [] & Hw1 & Ht). apply bindM_Ok in Ht as (s2 & [] & Hw2 & Ht).
  apply bindM_Ok in Ht as (s3 & [] & Hw3 & Ht). exists s0, s1, s2, s3. split_and!; [done|exact Hw1| |exact Hw3|].
  - assert (frames (forM (tu_notifications input) handle_notification)) as Hf
      by (apply respects_forM; [apply _..|]; intros; apply frames_notification).
    specialize (Hf s1). by rewrite Hw2 in Hf.
  - assert (frames (forM (tu_messages input) (handle_peer_message frost_config random_source btc_network compressor (tu_now input))))
      as Hf by (apply respects_forM; [apply _..|]; intros; apply frames_message).
    specialize (Hf s3). by rewrite Ht in Hf.
Qed.

Lemma staged_shrinks now : respects (λ s s', ft_staged s' ⊆ ft_staged s)
  (handle_staged_headers frost_config random_source btc_network epoch_length now).
Proof.
  intros s. unfold handle_staged_headers, bindM at 1. unfold get_staged_headers, on_staged at 1.
  destruct (ft_io s) as [|[] io]; cbn [fst snd]; [|done|];
    (unfold bindM at 1; cbn [modify]; match goal with |- context [forM ?l ?f ?s0] =>
       assert (respects shrinks (forM l f)) as Hr by (apply respects_forM; [apply _..|]; intros; apply commit_shrinks);
       destruct (Hr s0) as (_ & Hs & _); exact Hs end).
Qed.

(** C12.  No block that the server has to be told of is forgotten.  After a turn
    that the synchronization does not pause, a header is still in the database
    of staged headers, though the turn was to report its block -- as one of the
    staged headers, when the flag was set, or because the chain has just
    committed it -- only if the flag is set, so that the next turn reports it
    again, or the extra data of the block cannot be read.  It does not matter
    what the server answers and whether the node has a key. *)
Theorem nothing_staged_is_forgotten input s s' h hp :
  not_paused input →
  turn frost_config random_source btc_network epoch_length compressor input s = (s', Ok tt) →
  ft_staged s' !! h = Some hp →
  let unreadable header := ∃ e, deserialize_extra_data_header (eth_header header) = Err e in
  (ft_check_staged_headers s = true → ft_check_staged_headers s' = true ∨ unreadable (hp_header hp)) ∧
  (∀ header pegins pegouts, CanonCommit h header pegins pegouts ∈ tu_canon input →
     ft_check_staged_headers s' = true ∨ unreadable header).
Proof.
  intros Hp Ht Hh unreadable. destruct (turn_parts _ _ _ Hp Ht) as (s0 & s1 & s2 & s3 & Hb & Hw1 & Hw2 & Hw3 & Hw4).
  assert (shrinks s2 s3) as H23.
  { assert (respects shrinks (forM (tu_canon input)
      (handle_canon_notification frost_config random_source btc_network epoch_length (tu_now input)))) as Hr
      by (apply respects_forM; [apply _..|]; intros; apply canon_shrinks).
    specialize (Hr s2). by rewrite Hw3 in Hr. }
  assert (shrinks s1 s') as H1s by (etrans; [by apply keeps_shrinks|]; etrans; [exact H23|by apply keeps_shrinks]).
  assert (∀ header, settled header h s' → ft_check_staged_headers s' = true ∨ unreadable header) as Hset.
  { intros header [Hc|[He|Hn]]; [by left|by right|congruence]. }
  split.
  - intros Hc. apply Hset, (settled_shrinks _ _ s1); [|exact H1s].
    injection Hb as _ Hst0 Hc0. rewrite Hc0, Hc in Hw1. cbn [whenM] in Hw1.
    pose proof (staged_shrinks (tu_now input) s0) as Hsub. rewrite Hw1 in Hsub. cbn in Hsub.
    assert (ft_staged s0 !! h = Some hp) as Hin.
    { eapply lookup_weaken; [|exact Hsub]. eapply lookup_weaken; [exact Hh|]. apply H1s. }
    unfold handle_staged_headers in Hw1. apply bindM_Ok in Hw1 as (t & entries & Hget & Hw1).
    apply bindM_Ok in Hw1 as (t1 & [] & _ & Hw1).
    refine (forM_settles _ (λ e : bytes * HeaderWithPegs, settled (hp_header e.2) e.1) _ _ _ _ _ _ Hw1 (h, hp) _).
    + intros e u u' _ Hu. by eapply commit_settles.
    + intros e _. apply commit_shrinks.
    + intros e u u'. apply settled_shrinks.
    + rewrite sort_by_perm. revert Hget. unfold get_staged_headers, on_staged.
      destruct (ft_io s0) as [|[] io]; [|done|]; intros [= _ <-]; rewrite sort_by_perm; by apply elem_of_map_to_list.
  - intros header pegins pegouts Hin. apply Hset, (settled_shrinks _ _ s3); [|by apply keeps_shrinks].
    refine (forM_settles _ (λ n u, match n with CanonCommit h header _ _ => settled header h u | CanonReorg => True end) _ _ _ _ _ _ Hw3
      (CanonCommit h header pegins pegouts) Hin).
    + intros [h' header' ps os|] u u' _ Hu; [by eapply canon_settles|done].
    + intros n _. apply canon_shrinks.
    + intros [h' header' ps os|] u u'; [apply settled_shrinks|done].
Qed.

End blocks.

(** ** What the server was told *)

Section told.
Context {S : Type} (api : BtcServerApi S) `{!FrostNet}.
Context `{!PegLib, !Evm, !EthLib, !NodeLib, !MintLib, !NodeClient, !BitcoinLib, !JwtLib, !Profile}.
Context `{!FrostLib, !DkgLib, !PsbtLib, !ServerLib, !UuidLib, !ProstLib}.
Context (frost_config : FrostConfig) (random_source : bytes) (btc_network : Network) (epoch_length : Z).
Context (compressor : DataParser).

#[local] Existing Instance recorded.

Implicit Types s : FrostTask (S:=Recorded S).

Abbreviation log_of s := (sm_server (ft_machine s)).2.

(** The request tells the server of the block [h]: of the deposits and
    withdrawals that are staged with it, or of those that the chain has
    committed it with. *)
Definition tells (canon : list CanonStateNotification) (keys : option (gmap Z PublicKey)) (h : bytes) (hp : HeaderWithPegs)
    (r : ConsensusCheckpointRequest) : Prop :=
  ∃ header edh, deserialize_extra_data_header (eth_header header) = Ok edh ∧ checkpoint_block_hash r = bitcoin_block_hash edh ∧
    (header = hp_header hp ∧ cr_pegins r = get_utxos_from_staged_pegins (hp_pegins hp) ∧
     cr_pending_pegouts r = get_pending_pegouts_from_staged_pegouts (hp_pegouts hp) (hd_timestamp header)
     ∨ ∃ pegins pegouts m, CanonCommit h header pegins pegouts ∈ canon ∧ keys = Some m ∧
       commit_pegins m pegins = Ok (cr_pegins r) ∧ commit_pegouts header pegouts = Ok (cr_pending_pegouts r)).

Definition told (canon : list CanonStateNotification) s s' : Prop :=
  ft_aggregate_public_key s' = ft_aggregate_public_key s ∧ ft_staged s' ⊆ ft_staged s ∧
  ∃ l, log_of s' = log_of s ++ l ∧
    ∀ h hp, ft_staged s !! h = Some hp → ft_staged s' !! h = None →
      ∃ r, (NewConsensusCheckpoint r, Some REmpty) ∈ l ∧ tells canon (ft_aggregate_public_key s) h hp r.

#[local] Instance told_preorder canon : PreOrder (told canon).
Proof.
  split.
  - intros s. split_and!; [done..|]. exists []. split; [by rewrite app_nil_r|]. intros h hp. congruence.
  - intros s1 s2 s3 (Hk & Hs & l & Hl & Ht) (Hk' & Hs' & l' & Hl' & Ht'). split_and!; [congruence|by etrans|].
    exists (l ++ l'). split; [by rewrite Hl', Hl, app_assoc|]. intros h hp Hh Hn. destruct (ft_staged s2 !! h) as [hp'|] eqn:Hmid.
    + assert (hp' = hp) as -> by (eapply lookup_weaken in Hmid; [|exact Hs]; congruence).
      destruct (Ht' h hp Hmid Hn) as (r & Hin & Hr). exists r. rewrite Hk in Hr. split; [set_solver|done].
    + destruct (Ht h hp Hh Hmid) as (r & Hin & Hr). exists r. split; [set_solver|done].
Qed.

(** Requests alone tell nothing and remove nothing. *)
Lemma quiet_told canon s s' :
  keeps blocks_of s s' → (∃ l, log_of s' = log_of s ++ l) → told canon s s'.
Proof. intros [= Hk Hs Hc] [l Hl]. split_and!; [done|by rewrite Hs|]. exists l. split; [done|]. rewrite Hs. congruence. Qed.

Lemma served_prefix now messages s s' :
  task_served api frost_config random_source btc_network now messages s s' → ∃ l, log_of s' = log_of s ++ l.
Proof. apply served_log. Qed.

Lemma client_logs {A} req (answer : Response → option A) m :
  ∃ r, (sm_server (btc_client (S:=Recorded S) req answer m).1).2 = (sm_server m).2 ++ [(req, r)] ∧
    (btc_client req answer m).2 = ok_or (r ≫= answer) InternalGrpc.
Proof. unfold btc_client, call, recorded. destruct (api req _) as [srv r]. by exists r. Qed.

Lemma retry_accepted req n m :
  ∃ l, (sm_server (retry_future (btc_client (S:=Recorded S) req empty_answer) n m).1).2 = (sm_server m).2 ++ l ∧
    ((retry_future (btc_client req empty_answer) n m).2 = Ok tt → (req, Some REmpty) ∈ l).
Proof.
  revert m. induction n as [|n IH]; intros m; cbn [retry_future];
    destruct (client_logs req empty_answer m) as (r & Hl & Ho);
    destruct (btc_client req empty_answer m) as [m1 o]; cbn [fst snd] in *;
    (destruct (r ≫= empty_answer) as [[]|] eqn:Hr; cbn in Ho; subst o;
      [exists [(req, r)]; split; [exact Hl|intros _]; destruct r as [[]|]; try done; by left|]).
  - exists [(req, r)]. by split.
  - destruct (IH m1) as (l & Hl' & Ho'). exists ([(req, r)] ++ l).
    split; [by rewrite Hl', Hl, <- app_assoc|]. intros Hok%Ho'. set_solver.
Qed.

(** The report of a block. *)
Lemma ask_accepted req s s1 o :
  on_machine (retry_exec (btc_client (S:=Recorded S) req empty_answer) 3) s = (s1, o) →
  keeps blocks_of s s1 ∧ ∃ l, log_of s1 = log_of s ++ l ∧ (o = Ok (Some tt) → (req, Some REmpty) ∈ l).
Proof.
  intros Hm. split.
  - pose proof (frames_machine (retry_exec (btc_client (S:=Recorded S) req empty_answer) 3) s) as Hf. by rewrite Hm in Hf.
  - destruct (retry_accepted req 3 (ft_machine s)) as (l & Hl & Ho). exists l. revert Hm.
    unfold on_machine, okM, zoom, retry_exec. destruct (retry_future _ _ _) as [m1 [[]|e|]]; intros [= <- <-]; cbn in *;
      (split; [exact Hl|]); [by intros _; apply Ho|done..].
Qed.

(** After an accepted report the header may go; the rest asks more. *)
Lemma accepted_told canon h req l s s1 s' :
  (∀ hp, ft_staged s !! h = Some hp → tells canon (ft_aggregate_public_key s) h hp req) →
  keeps blocks_of s s1 → log_of s1 = log_of s ++ l → (NewConsensusCheckpoint req, Some REmpty) ∈ l →
  ft_aggregate_public_key s' = ft_aggregate_public_key s → ft_staged s' = delete h (ft_staged s) →
  (∃ l', log_of s' = log_of s1 ++ l') → told canon s s'.
Proof.
  intros Ht Hf Hl Hin Hk Hs [l' Hl']. split_and!; [done|rewrite Hs; apply delete_subseteq|]. exists (l ++ l').
  split; [by rewrite Hl', Hl, app_assoc|]. intros k hp Hh. rewrite Hs. destruct (decide (k = h)) as [->|Hne].
  - intros _. exists req. split; [set_solver|by apply Ht].
  - rewrite lookup_delete_ne by done. congruence.
Qed.

Lemma commit_told canon now h header pegins pegouts s :
  (∀ hp edh, ft_staged s !! h = Some hp → deserialize_extra_data_header (eth_header header) = Ok edh →
     tells canon (ft_aggregate_public_key s) h hp (mkCheckpointRequest (bitcoin_block_hash edh) pegins pegouts)) →
  told canon s (handle_canon_state_commit frost_config random_source btc_network epoch_length now h header pegins pegouts s).1.
Proof.
  intros Htells. unfold handle_canon_state_commit. apply bind_rel; [apply _|done|]. intros s0 [] Hs0.
  apply lift_Ok in Hs0 as [-> _]. destruct (deserialize_extra_data_header _) as [edh|e|] eqn:Hedh; [|done..].
  set (req := mkCheckpointRequest _ _ _). unfold bindM at 1.
  destruct (on_machine _ s) as [s1 o1] eqn:Hm. apply ask_accepted in Hm as (Hf & l & Hl & Hacc).
  assert (told canon s s1) as Hs1 by (apply quiet_told; [done|by exists l]).
  destruct o1 as [[[]|]|e|]; [|exact Hs1..]. specialize (Hacc eq_refl).
  assert (∀ hp, ft_staged s !! h = Some hp → tells canon (ft_aggregate_public_key s) h hp req) as Htell by eauto.
  unfold bindM at 1. unfold remove_staged_header, on_staged at 1. injection Hf as Hk Hst Hc.
  destruct (ft_io s1) as [|[] io]; cbn [fst snd];
    [|apply quiet_told; [cbn; unfold keeps, blocks_of; cbn; congruence|by exists l]|];
  (set (s2 := set_ft_staged (delete h (ft_staged s1)) _ s1);
   assert (∀ s3, keeps blocks_of s2 s3 → (∃ l', log_of s3 = log_of s2 ++ l') → told canon s s3) as Hdone;
   [intros s3 [= Hk3 Hst3 Hc3] Hl3; eapply (accepted_told canon h req l s s1); [done|by unfold keeps, blocks_of; congruence|done|done|congruence| |exact Hl3];
    rewrite Hst3; unfold s2; cbn; by rewrite Hst|];
   assert (told canon s s2) as Hs2 by (apply Hdone; [done|exists []; by rewrite app_nil_r]);
   unfold bindM at 1; unfold lift at 1; destruct (debug_assert_that _) as [[]|e|]; [|exact Hs2..];
   destruct (negb _); [exact Hs2|]; destruct (is_coordinator _ _) eqn:Hco; cbn [negb]; [|exact Hs2];
   apply Hdone; [apply frames_sign_epoch|eapply (served_prefix now []), serves_sign_epoch; done]).
Qed.

Lemma canon_told canon now n :
  n ∈ canon →
  respects (told canon) (handle_canon_notification frost_config random_source btc_network epoch_length now n).
Proof.
  intros Hin. destruct n as [h header pegins pegouts|]; [|apply respects_ret, _]. apply respects_get. intros s.
  destruct (ft_aggregate_public_key s) as [keys|] eqn:Hk.
  - apply bind_rel; [apply _|done|]. intros s0 ps Hps. apply lift_Ok in Hps as [-> Hps].
    apply bind_rel; [apply _|done|]. intros s0 os Hos. apply lift_Ok in Hos as [-> Hos].
    apply commit_told. intros hp edh _ Hedh. exists header, edh. split_and!; [done|done|]. right.
    exists pegins, pegouts, keys. done.
  - split_and!; [done..|]. exists []. split; [by rewrite app_nil_r|]. cbn. congruence.
Qed.

(** The staged headers are told with what is staged with them. *)
Lemma staged_told canon now l s0 s :
  (∀ e, e ∈ l → ft_staged s0 !! e.1 = Some e.2) → ft_staged s ⊆ ft_staged s0 →
  told canon s (forM l (λ e : bytes * HeaderWithPegs,
    handle_canon_state_commit frost_config random_source btc_network epoch_length now e.1 (hp_header e.2)
      (get_utxos_from_staged_pegins (hp_pegins e.2))
      (get_pending_pegouts_from_staged_pegouts (hp_pegouts e.2) (hd_timestamp (hp_header e.2)))) s).1.
Proof.
  revert s. induction l as [|e l IH]; intros s Hl Hs; [done|]. cbn [forM].
  assert (told canon s (handle_canon_state_commit frost_config random_source btc_network epoch_length now e.1 (hp_header e.2)
    (get_utxos_from_staged_pegins (hp_pegins e.2))
    (get_pending_pegouts_from_staged_pegouts (hp_pegouts e.2) (hd_timestamp (hp_header e.2))) s).1) as He.
  { apply commit_told. intros hp edh Hhp Hedh. eapply lookup_weaken in Hhp; [|exact Hs]. rewrite Hl in Hhp by (by left).
    injection Hhp as <-. exists (hp_header e.2), edh. split_and!; [done|done|]. by left. }
  apply bind_rel; [apply _|exact He|]. intros s1 [] Hs1. rewrite Hs1 in He. apply IH; [intros e' He'; apply Hl; by right|].
  etrans; [apply He|exact Hs].
Qed.

Lemma handle_staged_told canon now :
  respects (told canon) (handle_staged_headers frost_config random_source btc_network epoch_length now).
Proof.
  intros s. unfold handle_staged_headers. unfold bindM at 1. unfold get_staged_headers, on_staged at 1.
  assert (∀ io : list bool, told canon s (set_ft_staged (ft_staged s) io s)) as Hio.
  { intros io. apply quiet_told; [done|exists []; by rewrite app_nil_r]. }
  assert (∀ io, told canon s (set_ft_check false (set_ft_staged (ft_staged s) io s))) as Hclear.
  { intros io. split_and!; [done..|]. exists []. split; [by rewrite app_nil_r|]. cbn. congruence. }
  destruct (ft_io s) as [|[] io]; cbn [fst snd]; [|apply Hio|]; (unfold bindM at 1; cbn [modify]; etrans; [apply Hclear|];
    apply (staged_told _ _ _ s); [|done]; intros e; rewrite !sort_by_perm; destruct e; apply elem_of_map_to_list).
Qed.

Lemma serving_told canon now {A} (m : M (FrostTask (S:=Recorded S)) unit A) messages :
  respects (keeps blocks_of) m → respects (task_served api frost_config random_source btc_network now messages) m →
  respects (told canon) m.
Proof. intros Hf Hs s. apply quiet_told; [apply Hf|]. eapply served_prefix, Hs. Qed.

(** C7.  A staged header leaves the database only when the server has been told
    of its block.  Whatever happens in a turn, and also when the turn panics,
    if a header was staged before and is not afterwards then in this turn the
    server has accepted a checkpoint at the Bitcoin block of the header's
    extra data, with exactly the deposits and withdrawals that were staged
    with the header, or with those the chain committed the block with. *)
Theorem staged_headers_leave_when_told input s h hp :
  let s' := (turn frost_config random_source btc_network epoch_length compressor input s).1 in
  ft_staged s !! h = Some hp → ft_staged s' !! h = None →
  ∃ l r, log_of s' = log_of s ++ l ∧ (NewConsensusCheckpoint r, Some REmpty) ∈ l ∧
    tells (tu_canon input) (ft_aggregate_public_key s) h hp r.
Proof.
  intros s' Hh Hn.
  assert (respects (told (tu_canon input)) (turn frost_config random_source btc_network epoch_length compressor input)) as Hr.
  { unfold turn, sync_status. apply respects_bind; [apply _| |].
    { destruct (negb _); [apply respects_ret, _|]. destruct (tu_catching_up input) as [b|]; [|apply respects_ret, _].
      intros s0. apply quiet_told; [done|exists []; by rewrite app_nil_r]. }
    intros []; [apply respects_ret, _|]. apply respects_get. intros s0.
    eapply (respects_bind (told (tu_canon input))); [apply respects_whenM; [apply _|apply handle_staged_told]|]. intros _.
    apply respects_bind; [apply _| |intros _; apply respects_bind; [apply _| |]].
    - apply respects_forM; [apply _..|]. intros n _.
      eapply (serving_told _ (tu_now input) _ []); [apply frames_notification|apply serves_notification].
    - apply respects_forM; [apply _..|]. intros n Hin. by apply canon_told.
    - intros _. apply respects_forM; [apply _..|]. intros m Hin.
      eapply (serving_told _ (tu_now input) _ (tu_messages input)); [apply frames_message|by apply serves_message]. }
  destruct (Hr s) as (_ & _ & l & Hl & Ht). destruct (Ht h hp Hh Hn) as (r & Hin & Htells). by exists l, r.
Qed.

End told.

(** ** Keys, key generations and migrations *)

Section keys.
Context {S : Type} `{!BtcServerApi S, !FrostNet}.
Context `{!PegLib, !Evm, !EthLib, !NodeLib, !MintLib, !NodeClient, !BitcoinLib, !JwtLib, !Profile}.
Context `{!FrostLib, !DkgLib, !PsbtLib, !ServerLib, !UuidLib, !ProstLib}.

Implicit Types s : FrostTask (S:=S).

(** The start of the task replaces all keys of the node, those of the other
    federations too, by the one that the server answers with. *)
Lemma start_forgets_keys s k b pk :
  (call GetPublicKey (sm_server (ft_machine s))).2 = Some (RPublicKey k) → hex_decode k = Some b → pk_from_slice b = Some pk →
  ft_aggregate_public_key (start_task s).1 = Some {[ 0 := pk ]}.
Proof.
  intros Hc Hb Hpk. unfold start_task, bindM, on_machine, okM, zoom, btc_client. destruct (call _ _) as [srv r]. cbn in Hc. subst r.
  cbn. rewrite Hb. cbn. by rewrite Hpk.
Qed.

(** A notification of a key generation arrives as one to start it, whether the
    server has sent it to start, to restart or to abort it; one of a migration
    arrives as it was sent. *)
Lemma notification_received n :
  decode_notification (Some (notification_payload n)) =
  match n with
  | DynafedDkg n => Some (DynafedDkg (DkgStart (notification_multisig_id n)))
  | DynafedMigration m =>
      id ← uuid_parse_str (mn_migration_id m);
      Some (DynafedMigration (mkMigration (mn_event m) (mn_multisig_id_from m) (mn_multisig_id_to m) id))
  end.
Proof. by destruct n as [[[]|[]|[]]|[[] [] [] id]]. Qed.

(** So a key generation that has a task is never aborted or restarted. *)
Lemma running_generation_stays n s i :
  ft_dkg_tasks s ≫= (λ tasks, tasks !! as_u32 (notification_multisig_id n)) = Some i →
  handle_notification (Some (notification_payload (DynafedDkg n))) s = (s, Ok tt).
Proof.
  intros Hi. unfold handle_notification. rewrite notification_received. unfold handle_dkg_notification, bindM. cbn.
  assert (has_task (as_u32 (notification_multisig_id n)) s = true) as ->; [|done].
  unfold has_task. destruct (ft_dkg_tasks s) as [tasks|]; [|done]. cbn in Hi. rewrite Hi. by apply bool_decide_eq_true.
Qed.

(** A migration that is refused because one of its federations generates a key
    stays tracked: the server can start it again only under another id. *)
Lemma refused_migration_stays m s :
  mn_event m = MigrationStart → has_migration (mn_migration_id m) s = false →
  has_task (as_u32 (mn_multisig_id_from m)) s || has_task (as_u32 (mn_multisig_id_to m)) s = true →
  let s1 := (handle_migration_notification m s).1 in
  (ft_dkg_migrations s1 ≫= λ ms, mg_status <$> ms !! mn_migration_id m) = Some MSTARTED ∧
  (∀ s2, ft_dkg_migrations s2 = ft_dkg_migrations s1 → handle_migration_notification m s2 = (s2, Ok tt)).
Proof.
  intros He Hm Ht s1.
  assert (s1 = set_ft_migrations (Some (<[mn_migration_id m := mkMsigMigration MSTARTED (as_u32 (mn_multisig_id_from m))
    (as_u32 (mn_multisig_id_to m)) (mn_migration_id m)]> (default ∅ (ft_dkg_migrations s)))) s) as Hs1.
  { unfold s1, handle_migration_notification, bindM at 1. unfold get. rewrite He, Hm. unfold bindM at 1. cbn [modify].
    destruct (has_task _ s); [done|]. cbn [orb] in Ht. by rewrite Ht. }
  split; [by rewrite Hs1; cbn; rewrite lookup_insert_eq|].
  intros s2 Hs2. unfold handle_migration_notification, bindM at 1. unfold get. rewrite He. unfold has_migration.
  by rewrite Hs2, Hs1; cbn; rewrite lookup_insert_eq.
Qed.

End keys.
