(* ===== verification/FrostRun.v ===== *)
(** * Tasks of concrete nodes

    Runs of the task of a node and of its signing sessions, on which the
    theorems of [SigningSafety] and [FrostSafety] are applied: with the server
    of [ServerRun] and the block that the node of [AbciRun] has committed, and
    with servers that answer from a list. *)

From S2P Require Import Prelude Bytes Codec DkgAuth Dkg DkgRun.
From S2P Require Import Bitcoin Psbt Types Concrete CoinSelection Database Merkle Util.
From S2P Require Import Coordinator Signer PegoutScheduler Peg Edh Mint Execution Federation Jwt Rpc Server ServerRun.
From S2P Require Import Checkpoint Activation Ndd Consensus Payload NodeUtils Build Abci AbciVotes AbciReplay AbciRun.
From S2P Require Import Client DataParser WalletSync SyncRun Signing SigningSafety FrostTask FrostSafety.

Open Scope Z_scope.

#[local] Existing Instances Toy.toy_dkg Toy.toy_laws run_profile.
#[local] Existing Instances run_evm run_eth run_reth run_lru run_node_lib.
#[local] Existing Instances sync_uuid sync_prost sync_api.

#[local] Instance run_frost : FrostNet := λ i, [i + 1].

Definition run_staged : gmap bytes HeaderWithPegs := an_staged (run_committed NoFault).1.

Definition frost_config_of (i : Z) : FrostConfig := mkFrostConfig [] i 2 2.

Definition handle_of (peers : list PeerData) : FrostHandle := mkHandle (replicate 20 (Ok peers)) [] [].

Definition machine_of {S : Type} (peers : list PeerData) (server : S) : SigningStateMachine S :=
  mkSigning ∅ (handle_of peers) server.

(** ** A server that answers from a list *)

Definition Script : Type := list (option Response).

#[local] Instance script_api : BtcServerApi Script := λ _ s,
  match s with r :: s => (s, r) | [] => ([], None) end.

(** ** Signing sessions *)

Definition the_coordinator : PeerData := mkPeerData (replicate 64 1) (authority_index_to_frost_identifier 0).
Definition member_1 : PeerData := mkPeerData (replicate 64 2) (authority_index_to_frost_identifier 1).
Definition member_2 : PeerData := mkPeerData (replicate 64 3) (authority_index_to_frost_identifier 2).

Definition run_session : bytes := replicate 32 5.

Definition package_of (b : Z) : SigningPackageResponse := mkSigningPackage [] [b] run_session.

(** The member answers the abort, then the two rounds. *)
Definition member_script : Script := [Some REmpty; Some (RSigningPackage (package_of 1)); Some (RSigningPackage (package_of 2))].

Definition from_first (t : SigningEventResponseType) (psbt : bytes) : SigningEvent :=
  PeerSigning t (authority_index_to_frost_identifier 0) run_session psbt.

Definition member_start : SigningStateMachine Script := machine_of [the_coordinator; member_2] member_script.

Definition member_handles (e : SigningEvent) (s : SigningStateMachine Script) :=
  handle_signing (frost_config_of 1) [] 0 e s.

Lemma no_sessions : first_coordinates ∅.
Proof. intros id ss. by rewrite lookup_empty. Qed.

Example member_answers :
  let s1 := (member_handles (from_first SignerRound1SigningPackage [7]) member_start).1 in
  let s2 := (member_handles (from_first SignerRound2SigningPackage [8]) s1).1 in
  state_of s1 run_session = Some Round2 ∧ map fst (fh_sent (sm_handle s2)) = replicate 2 (replicate 64 1).
Proof. by vm_compute. Qed.

Lemma sessions_follow_protocol_witness :
  ∃ s' o, member_handles (from_first SignerRound1SigningPackage [7]) member_start = (s', o) ∧ o ≠ Panic ∧
    session_move false None (state_of s' run_session).
Proof.
  destruct (member_handles (from_first SignerRound1SigningPackage [7]) member_start) as [s' o] eqn:E.
  destruct (sessions_follow_protocol (frost_config_of 1) [] 0 (from_first SignerRound1SigningPackage [7]) member_start s' o
    no_sessions) as (Ho & _ & Hm & _); [discriminate|exact E|]. exists s', o. split; [reflexivity|]. split; [exact Ho|exact Hm].
Defined.

Definition recorded_member : SigningStateMachine (Recorded Script) :=
  machine_of [the_coordinator; member_2] (member_script, []).

Definition two_rounds : list SigningEvent :=
  [from_first SignerRound1SigningPackage [7]; from_first SignerRound2SigningPackage [8]].

Definition recorded_run : SigningStateMachine (Recorded Script) :=
  run_signing script_api (frost_config_of 1) [] 0 two_rounds recorded_member.

Example recorded_requests :
  map fst (sm_server recorded_run).2 =
    [AbortSigning; GetRound1SigningPackage [7] run_session; GetRound2SigningPackage [8] run_session].
Proof. by vm_compute. Qed.

Lemma second_round_follows_first_witness :
  sm_signing_states recorded_member = ∅ ∧ rounds_in_order (sm_server recorded_run).2.
Proof.
  split; [reflexivity|].
  exact (second_round_follows_first script_api (frost_config_of 1) [] 0 two_rounds recorded_member eq_refl eq_refl).
Defined.

(** The coordinator loses the second member while it gossips. *)
Definition gossiping : SigningStateMachine Script :=
  mkSigning ∅ (mkHandle [Ok [member_1; member_2]; Ok [member_1]] [false; true; false] []) [].

Lemma retried_gossip_silences_member_witness :
  let sent := fh_sent (sm_handle (gossip_to_peers (frost_config_of 0) (package_of 7) SignerRound1SigningPackage gossiping).1) in
  ∃ r, sent = replicate 2 (pd_peer_id member_1, MsgSigning r) ∧
    let m1 := (member_handles (from_first SignerRound1SigningPackage (sg_psbt r)) member_start).1 in
    let m2 := (member_handles (from_first SignerRound1SigningPackage (sg_psbt r)) m1).1 in
    let m3 := (member_handles (from_first SignerRound2SigningPackage [8]) m2).1 in
    sm_signing_states m3 !! run_session = None ∧ sm_server m3 = sm_server m1.
Proof.
  assert (∀ l, connects_coordinator (the_coordinator :: l)) as Hc by (intros l; exists the_coordinator; split; [left|reflexivity]).
  destruct (retried_gossip_silences_member (frost_config_of 0) (frost_config_of 1) [] 0 gossiping member_start member_1 member_2
    [] [] (package_of 7) [the_coordinator; member_2] [the_coordinator; member_2] [the_coordinator; member_2]
    (replicate 17 (Ok [the_coordinator; member_2])) [8]) as (r & Hsent & _ & _ & Hm);
    [reflexivity|vm_compute; discriminate|vm_compute; discriminate|cbn; lia|reflexivity|reflexivity|reflexivity|reflexivity|apply Hc..|].
  exists r. split; [exact Hsent|]. destruct Hm as (Hnone & Hserver & _). split; [exact Hnone|exact Hserver].
Defined.

(** ** A task that starts with the block of [AbciRun] *)

Definition task_of {S : Type} (server : S) (check : bool) : FrostTask (S:=S) :=
  mkTask (machine_of [] server) (an_aggregate_public_key run_node) false run_staged [] None [] None check.

Definition run_input : TurnInput := mkTurn 9000000 true (Some false) [] [] [].

Abbreviation run_turn api s :=
  (turn (BtcServerApi0:=api) (frost_config_of 0) [] Regtest 10 default_parser run_input s).

Definition run_hash : bytes := replicate 32 2.

(** The server of [ServerRun] does not know the Bitcoin block: it refuses the
    checkpoint, and the block waits for the next turn. *)
Definition refused : FrostTask (S:=App) := task_of toy_app true.

Example refused_ends : (run_turn sync_api refused).2 = Ok tt.
Proof. vm_cast_no_check (eq_refl (Ok tt : outcome unit unit)). Qed.

Lemma refused_stays : is_Some (ft_staged (run_turn sync_api refused).1 !! run_hash).
Proof. apply (bool_decide_unpack _). vm_cast_no_check I. Qed.

Lemma refused_readable h hp :
  ft_staged (run_turn sync_api refused).1 !! h = Some hp →
  ¬ ∃ e, deserialize_extra_data_header (eth_header (hp_header hp)) = Err e.
Proof.
  assert (map_Forall (λ _ hp, is_Some (ok (deserialize_extra_data_header (eth_header (hp_header hp)))))
    (ft_staged (run_turn sync_api refused).1)) as Hall by (apply (bool_decide_unpack _); vm_cast_no_check I).
  intros Hhp [e He]. destruct (Hall h hp Hhp) as [x Hx]. rewrite He in Hx. discriminate Hx.
Qed.

Lemma nothing_staged_is_forgotten_witness : ft_check_staged_headers (run_turn sync_api refused).1 = true.
Proof.
  destruct refused_stays as [hp Hhp].
  destruct (nothing_staged_is_forgotten (frost_config_of 0) [] Regtest 10 default_parser run_input refused
    (run_turn sync_api refused).1 run_hash hp) as [Hstaged _].
  - right. reflexivity.
  - pose proof refused_ends as He. destruct (turn _ _ _ _ _ _ _) as [s' o]. cbn [fst snd] in *.
    rewrite He. reflexivity.
  - exact Hhp.
  - destruct (Hstaged eq_refl) as [Hc|He]; [exact Hc|]. exfalso. exact (refused_readable _ _ Hhp He).
Defined.

(** A server that accepts it. *)
Definition accepted : FrostTask (S:=Recorded Script) := task_of ([Some REmpty], []) true.

Lemma accepted_has : is_Some (ft_staged accepted !! run_hash).
Proof. apply (bool_decide_unpack _). vm_cast_no_check I. Qed.

Lemma accepted_leaves : ft_staged (run_turn (recorded script_api) accepted).1 !! run_hash = None.
Proof. apply (bool_decide_unpack _). vm_cast_no_check I. Qed.

Lemma staged_headers_leave_when_told_witness :
  ∃ hp r, run_staged !! run_hash = Some hp ∧
    (NewConsensusCheckpoint r, Some REmpty) ∈ (sm_server (ft_machine (run_turn (recorded script_api) accepted).1)).2 ∧
    tells [] (an_aggregate_public_key run_node) run_hash hp r.
Proof.
  destruct accepted_has as [hp Hhp]. exists hp.
  destruct (staged_headers_leave_when_told script_api (frost_config_of 0) [] Regtest 10 default_parser run_input accepted run_hash hp
    Hhp accepted_leaves) as (l & r & Hl & Hin & Htells).
  exists r. split; [exact Hhp|]. split; [|exact Htells].
  rewrite Hl. apply elem_of_app. right. exact Hin.
Defined.

(** ** Blocks that are reported twice

    After a failed report the next turn reports all staged headers, among them
    those that the chain has committed since, and then reports those again for
    their notifications.  With debug assertions the task panics, because the
    header is no longer staged; without them the second report of an epoch
    starts its session again, which removes it. *)

Definition twice_input : TurnInput :=
  mkTurn 9000000 true (Some false) []
    (map (λ e, CanonCommit e.1 (hp_header e.2) None None) (map_to_list run_staged)) [].

Example reported_twice_panics :
  (turn (BtcServerApi0:=script_api) (frost_config_of 0) [] Regtest 10 default_parser twice_input
     (task_of (replicate 5 (Some REmpty)) true)).2 = Panic.
Proof. vm_cast_no_check (eq_refl (Panic : outcome unit unit)). Qed.

Definition start_session (s : SigningStateMachine Script) : SigningStateMachine Script * outcome SigningError unit :=
  initiate_signing_session (frost_config_of 0) [] 0 run_session [7] s.

Definition starting_script : Script := [Some REmpty; Some (RSigningPackage (package_of 1)); Some REmpty; Some REmpty].

Example started_twice_is_lost :
  let '(s1, o1) := start_session (machine_of [member_1; member_2] starting_script) in
  let '(s2, o2) := start_session s1 in
  o1 = Ok tt ∧ state_of s1 run_session = Some Round1 ∧
  o2 = Err CoordinatorRetriggeredSession ∧ state_of s2 run_session = None.
Proof. by vm_compute. Qed.

(** ** Turns in which a signature is asked for

    The PSBT of [ServerRun] pays 40,000 satoshi of the 41,000 that were burnt for
    the pegout 4 and takes a fee of 1,000. *)

#[local] Instance signing_node_lib : NodeLib := {
  address_script_pubkey _ := p2wpkh 3;
  serialize_script s := s;
  bloom_contains_input _ _ := false;
  decode_transaction _ := Err tt }.

#[local] Instance signing_client : NodeClient := {
  receipt_by_hash h := Ok (if bool_decide (h = replicate 32 4) then Some [toy_burn_log (41000 * 10 ^ 10)] else None);
  transaction_block _ := Ok (Some 7);
  header_timestamp _ := Ok (Some 8000000);
  block_by_number _ := Ok None;
  transactions_by_block _ := Ok None;
  receipts_by_block _ := Ok None }.

(** A node with the session in a state, and a turn with one message about it. *)
Definition signing_task (st : option SigningState) (peers : list PeerData) (script : Script) : FrostTask (S:=Recorded Script) :=
  mkTask (mkSigning (match st with Some st => {[ run_session := mkSession run_session st 0 None ]} | None => ∅ end)
    (handle_of peers) (script, [])) None false ∅ [] None [] None false.

Definition signing_input (peer : PeerData) (t : SigningEventResponseType) : TurnInput :=
  mkTurn 9000000 true (Some false) [] []
    [mkMessage (pd_peer_id peer) (Some (pd_frost_identifier peer)) (MsgSigning (mkSigningResponse t run_session []))].

Abbreviation signing_log node input s :=
  ((sm_server (ft_machine (turn (BtcServerApi0:=recorded script_api) (frost_config_of node) [] Regtest 10 default_parser input s).1)).2).

(** The member answers the first round, and the coordinator starts the second. *)
Definition member_turn : FrostTask := signing_task None [the_coordinator; member_2] member_script.

Definition coordinator_turn : FrostTask :=
  signing_task (Some Round1) [member_1; member_2]
    [Some REmpty; Some (RSigningPackage (package_of 7)); Some (RSigningPackage (package_of 8)); Some REmpty].

Example member_asks : signing_log 1 (signing_input the_coordinator SignerRound1SigningPackage) member_turn =
  [(AbortSigning, Some REmpty); (GetRound1SigningPackage [] run_session, Some (RSigningPackage (package_of 1)))].
Proof. vm_compute. reflexivity. Qed.

Example coordinator_asks :
  signing_log 0 (signing_input member_1 CoordinatorRound1SigningPackage) coordinator_turn =
  [(NewRound1SigningPackage (mkSigningPackage (pd_frost_identifier member_1) [] run_session), Some REmpty);
   (GetToSignPackage run_session, Some (RSigningPackage (package_of 7)));
   (GetRound2SigningPackage [7] run_session, Some (RSigningPackage (package_of 8)));
   (NewRound2SigningPackage (mkSigningPackage (authority_index_to_frost_identifier 0) [8] run_session), Some REmpty)].
Proof. vm_compute. reflexivity. Qed.

(** The request for the first round is for a checked PSBT of the coordinator's
    message; the request for the second is for the PSBT that the server has just
    answered. *)
Lemma signs_validated_requests_only_witness :
  (validated Regtest 9000000 [] ∧
   from_coordinator (tu_messages (signing_input the_coordinator SignerRound1SigningPackage)) SignerRound1SigningPackage run_session []) ∧
  from_member Regtest 9000000 (tu_messages (signing_input member_1 CoordinatorRound1SigningPackage)) run_session ∧
  ∃ pkg, last (take 2 (signing_log 0 (signing_input member_1 CoordinatorRound1SigningPackage) coordinator_turn)) =
    Some (GetToSignPackage run_session, Some (RSigningPackage pkg)) ∧ sr_psbt pkg = [7].
Proof.
  split.
  - destruct (signs_validated_requests_only script_api (frost_config_of 1) [] Regtest 10 default_parser
      (signing_input the_coordinator SignerRound1SigningPackage) member_turn) as (l & Hl & Hall).
    rewrite member_asks in Hl. match type of Hl with ?x = _ => change (x = l) in Hl end. subst l.
    destruct (Hall [_] (GetRound1SigningPackage [] run_session) _ [] eq_refl) as [Hv [Hc|Hc]]; [discriminate Hc|].
    split; [exact Hv|exact Hc].
  - rewrite coordinator_asks.
    destruct (signs_validated_requests_only script_api (frost_config_of 0) [] Regtest 10 default_parser
      (signing_input member_1 CoordinatorRound1SigningPackage) coordinator_turn) as (l & Hl & Hall).
    rewrite coordinator_asks in Hl. match type of Hl with ?x = _ => change (x = l) in Hl end. subst l.
    destruct (Hall [_; _] (GetRound2SigningPackage [7] run_session) _ [_] eq_refl) as [[_ [p Hp]]|(_ & Hm & Hpkg)].
    + exfalso. apply list_elem_of_singleton in Hp. discriminate Hp.
    + split; [exact Hm|exact Hpkg].
Defined.
