(* ===== verification/PeginRecovery.v ===== *)
(** * The pegin recovery service

    src/bin/botanix-pegin-recovery/src/database/mod.rs and src/bin/main.rs: a
    service that collects the key shares of a retired federation and, holding
    enough of them in one place, sends a deposit to another address.  It
    keeps its own two sled trees, takes the shares in the format that the
    btc-server exports, and runs both FROST rounds by itself.

    The database follows the conventions of [Database]: a schedule of sled
    errors, a transparent CBOR codec.  bitcoind is the one of [ServerLib],
    answering by the number of the call; a generator that the code obtains
    draws by the number of draws made so far. *)

From stdpp Require Import strings.
From S2P Require Import Prelude Bytes Codec DkgAuth Dkg DkgRun.
From S2P Require Import Bitcoin Psbt Types Concrete CoinSelection Database Util.
From S2P Require Import Coordinator Signer PegoutScheduler Peg Federation Jwt Rpc Server ServerRun.

Open Scope Z_scope.

(** ** The database *)

(** [Error] of database/error.rs, the ones that the database returns. *)
Inductive RecoveryError :=
| RecoverySled
| RecoveryDataCorruption
| RecoveryBadDecryptionPassphrase
| RecoveryBadExportedPackageFormatVersion.

Record MultisigKeyShares `{!FrostLib} := mkMultisigKeyShares { ks_shares : gmap bytes SigningKey }.

Record RecoveryDb `{!FrostLib} := mkRecoveryDb {
  r_io : list bool;
  r_key_shares : gmap bytes MultisigKeyShares;
  r_public_key_packages : gmap bytes PublicKeyPackage }.

Section recovery_db.
Context `{!FrostLib}.

Abbreviation RdbM A := (M RecoveryDb RecoveryError A).

Definition set_r_io (v : list bool) (d : RecoveryDb) : RecoveryDb :=
  mkRecoveryDb _ v (r_key_shares d) (r_public_key_packages d).

Definition set_r_key_shares (v : gmap bytes MultisigKeyShares) (d : RecoveryDb) : RecoveryDb :=
  mkRecoveryDb _ (r_io d) v (r_public_key_packages d).

Definition set_r_public_key_packages (v : gmap bytes PublicKeyPackage) (d : RecoveryDb) : RecoveryDb :=
  mkRecoveryDb _ (r_io d) (r_key_shares d) v.

(** A sled call; a failing one leaves the data as it was. *)
Definition r_sled {A} (f : RecoveryDb → RecoveryDb * A) : RdbM A := λ d,
  match r_io d with
  | true :: rest => (set_r_io rest d, Err RecoverySled)
  | false :: rest => let '(d', a) := f (set_r_io rest d) in (d', Ok a)
  | [] => let '(d', a) := f d in (d', Ok a)
  end.

Definition r_read {A} (f : RecoveryDb → A) : RdbM A := r_sled (λ d, (d, f d)).

Definition r_write (f : RecoveryDb → RecoveryDb) : RdbM unit := r_sled (λ d, (f d, tt)).

(** [flush] of the database and of its two trees. *)
Definition recovery_flush : RdbM unit :=
  r_read (λ _, tt) ;! r_read (λ _, tt) ;! r_read (λ _, tt).

(** [multisig_id.to_be_bytes()] *)
Definition recovery_key (multisig_id : Z) : bytes := to_be_bytes 4 multisig_id.

#[global] Arguments recovery_key : simpl never.

Definition get_key_shares (multisig_id : Z) : RdbM (option MultisigKeyShares) :=
  r_read (λ d, r_key_shares d !! recovery_key multisig_id).

Definition set_key_shares (multisig_id : Z) (shares : MultisigKeyShares) : RdbM unit :=
  r_write (λ d, set_r_key_shares (<[recovery_key multisig_id := shares]> (r_key_shares d)) d).

Definition add_key_share (multisig_id : Z) (node_id : bytes) (key_package : SigningKey) : RdbM unit :=
  let! s := get_key_shares multisig_id in
  let multisig_shares := default (mkMultisigKeyShares _ ∅) s in
  set_key_shares multisig_id
    (mkMultisigKeyShares _ (<[node_id := key_package]> (ks_shares multisig_shares))).

Definition get_key_share (multisig_id : Z) (node_id : bytes) : RdbM (option SigningKey) :=
  let! s := get_key_shares multisig_id in
  match s with
  | Some multisig_shares => ret (ks_shares multisig_shares !! node_id)
  | None => ret None
  end.

Definition recovery_public_key_package (multisig_id : Z) : RdbM (option PublicKeyPackage) :=
  r_read (λ d, r_public_key_packages d !! recovery_key multisig_id).

Definition set_public_key_package (multisig_id : Z) (pk_package : PublicKeyPackage) : RdbM unit :=
  r_write (λ d, set_r_public_key_packages
                  (<[recovery_key multisig_id := pk_package]> (r_public_key_packages d)) d).

(** The nonce, the derivation of the two keys and the ciphers are those of
    the export of the btc-server. *)
Definition import_from_btc_server `{!AeadLib} (multisig_id : Z) (node_identifier : Identifier)
    (passphrase : bytes) (export : ExportedKeyPackage) : RdbM unit :=
  if negb (exp_version export =? EXPORTED_PACKAGE_VERSION)
  then fail RecoveryBadExportedPackageFormatVersion else
  let nonce := exp_iv export in
  let '(master1, master2) := challenges nonce passphrase in
  let! decrypted := lift (ok_or (decrypt master1 nonce (exp_enc_key_package export))
                            RecoveryBadDecryptionPassphrase) in
  let! key_package := lift (ok_or (decode_key_package decrypted) RecoveryDataCorruption) in
  let! decrypted := lift (ok_or (decrypt master2 nonce (exp_enc_pk_package export))
                            RecoveryBadDecryptionPassphrase) in
  let! pk_package := lift (ok_or (decode_pk_package decrypted) RecoveryDataCorruption) in
  let node_id := identifier_serialize node_identifier in
  add_key_share multisig_id node_id key_package ;!
  set_public_key_package multisig_id pk_package.

End recovery_db.

(** ** Building the transaction *)

(** [anyhow::Error] without its text. *)
Inductive AnyError := AnyFailed.

(** What the service uses of rust-bitcoin and FROST beyond [ServerLib]. *)
Class RecoveryLib `{!FrostLib, !PegLib} := {
  (** [PublicKeyPackage::verifying_key] *)
  package_verifying_key : PublicKeyPackage → VerifyingKey;
  (** [Address::script_pubkey] *)
  address_script_pubkey : BtcAddress → ScriptBuf;
  (** [Txid] as text *)
  txid_from_str : bytes → option Txid;
  txid_to_string : Txid → bytes;
  (** a generator of [thread_rng], by the number of draws made before *)
  thread_rng : nat → Z }.

Section transaction.
Context `{!BitcoinLib, !FrostLib, !PsbtLib, !FrostSign, !PegLib}.

Definition parse_and_validate_address (address_str : bytes) (testnet : bool) : outcome Status BtcAddress :=
  let network := if testnet then Testnet else Mainnet in
  let? unchecked := ok_or (address_from_str address_str) InvalidArgument in
  ok_or (require_network unchecked network) InvalidArgument.

(** The sum restarts from zero when it overflows. *)
Definition total_outputs (p : Psbt) : Amount :=
  foldl (λ total o, default 0 (checked_add total (value o))) 0 (output (unsigned_tx p)).

Definition validate_psbt_fee_sanity (psbt : Psbt) : outcome AnyError unit :=
  let? fee := map_err (λ _, AnyFailed) (psbt_fee psbt) in
  if total_outputs psbt <? fee then Err AnyFailed else Ok tt.

Definition recovery_input (u : Utxo) : TxIn :=
  mkTxIn (utxo_outpoint u) [] ENABLE_RBF_NO_LOCKTIME [].

Definition add_recovery_meta (u : Utxo) (i : PsbtInput) : PsbtInput :=
  let i := set_witness_utxo (utxo_output u) i in
  let i := match utxo_eth_address u with Some a => set_eth_address a i | None => i end in
  add_version_to_psbt (utxo_version u) i.

Definition create_recovery_psbt {E} (ins : list Utxo) (script_pubkey : ScriptBuf) (value : Amount)
    : outcome E Psbt :=
  let tx := mkTransaction 2 0 (map recovery_input ins) [mkTxOut value script_pubkey] in
  let? psbt := expect (from_unsigned_tx tx) in
  Ok (mkPsbt (unsigned_tx psbt) (zip_mut add_recovery_meta (inputs psbt) ins) (outputs psbt)).

Definition calculate_fee (us : list Utxo) (script_pubkey : ScriptBuf) (fee_rate : Z)
    : outcome Status Amount :=
  let? psbt := create_recovery_psbt us script_pubkey 0 in
  let? total_weight := map_err (λ _, InvalidArgument) (calculate_signed_tx_weight psbt) in
  ok_or (fee_wu fee_rate total_weight) InvalidArgument.

(** ** Signing *)

(** The PSBT is a mutable reference. *)
Abbreviation PsbtM A := (M Psbt AnyError A).

(** The loop over [k] inputs from [i] on; [rng] draws by the input. *)
Fixpoint commit_all (key_package : SigningKey) (identifier : Identifier) (rng : nat → Z) (i k : nat)
    : PsbtM (list (SigningNonces * SigningCommitments)) :=
  match k with
  | O => ret []
  | S k' =>
      let nonce_pkg := commit key_package (rng i) in
      modify (update_input i (set_signing_commitment identifier nonce_pkg.2)) ;!
      let! nonces := commit_all key_package identifier rng (S i) k' in
      ret (nonce_pkg :: nonces)
  end.

Definition do_round1_signing (key_package : SigningKey) (identifier : Identifier) (rng : nat → Z)
    : PsbtM (list (SigningNonces * SigningCommitments)) :=
  let! psbt := get in
  if bool_decide (inputs psbt = []) then fail AnyFailed else
  if bool_decide (outputs psbt = []) then fail AnyFailed else
  lift (validate_psbt_fee_sanity psbt) ;!
  commit_all key_package identifier rng 0 (length (inputs psbt)).

Definition sign_recovery_input (key_package : SigningKey) (identifier : Identifier)
    (signing_nonces : list (SigningNonces * SigningCommitments)) (index : nat)
    (signing_package : SigningPackage) : PsbtM unit :=
  let! psbt := get in
  match sp_commitments signing_package !! identifier with
  | None => fail AnyFailed
  | Some _ =>
      let! psbt_in := lift (expect (inputs psbt !! index)) in
      let eth_address_tweak := eth_address psbt_in in
      let! nonce := lift (expect (signing_nonces !! index)) in
      let! sig := lift (map_err (λ _, AnyFailed)
                          (sign_with_tweak signing_package nonce.1 key_package eth_address_tweak)) in
      modify (update_input index (set_partial_signature identifier sig))
  end.

Fixpoint sign_recovery_inputs (key_package : SigningKey) (identifier : Identifier)
    (signing_nonces : list (SigningNonces * SigningCommitments)) (index : nat)
    (signing_packages : list SigningPackage) : PsbtM unit :=
  match signing_packages with
  | [] => ret tt
  | pkg :: pkgs' =>
      sign_recovery_input key_package identifier signing_nonces index pkg ;!
      sign_recovery_inputs key_package identifier signing_nonces (S index) pkgs'
  end.

Definition do_round2_signing (key_package : SigningKey) (identifier : Identifier)
    (signing_nonces : list (SigningNonces * SigningCommitments)) : PsbtM unit :=
  let! psbt := get in
  let num_inputs := length (inputs psbt) in
  if negb (length signing_nonces =? num_inputs)%nat then fail AnyFailed else
  let! packages := lift (map_err (λ _, AnyFailed) (signing_packages psbt)) in
  sign_recovery_inputs key_package identifier signing_nonces 0 (take num_inputs packages).

(** One input of the aggregation. *)
Definition aggregate_recovery_input (pk_package : PublicKeyPackage) (packages : list SigningPackage)
    (p : nat * PsbtInput) : outcome AnyError PsbtInput :=
  let '(index, psbt_input) := p in
  let? signing_package := ok_or (packages !! index) AnyFailed in
  let partial_sigs := all_partial_signatures psbt_input in
  let eth_address_tweak := eth_address psbt_input in
  let? agg_sig := map_err (λ _, AnyFailed)
    (aggregate_with_tweak signing_package partial_sigs pk_package eth_address_tweak) in
  if negb (verify_with_tweak pk_package eth_address_tweak (sp_message signing_package) agg_sig)
  then Err AnyFailed else
  let? secp_sig := ok_or (schnorr_from_slice agg_sig) AnyFailed in
  Ok (set_key_sig secp_sig psbt_input).

(** The witness of the finalized input, present or not. *)
Definition take_final_witness (finalized : Psbt) (p : nat * PsbtInput) : PsbtInput :=
  let '(index, i) := p in
  mkPsbtInput (witness_utxo i) (in_proprietary i) (sighash_type i) (tap_key_sig i)
    (inputs finalized !! index ≫= final_script_witness).

Definition aggregate_and_finalize (psbt : Psbt) (pk_package : PublicKeyPackage)
    : outcome AnyError Transaction :=
  let? packages := map_err (λ _, AnyFailed) (signing_packages psbt) in
  let? ins := omap_all (aggregate_recovery_input pk_package packages) (imap pair (inputs psbt)) in
  let original_psbt := mkPsbt (unsigned_tx psbt) ins (outputs psbt) in
  let? finalized := ok_or (psbt_finalize original_psbt) AnyFailed in
  let original_psbt := mkPsbt (unsigned_tx psbt) (map (take_final_witness finalized) (imap pair ins))
                         (outputs psbt) in
  map_err (λ _, AnyFailed) (extract_tx original_psbt).

End transaction.

(** ** The service *)

Record ImportKeyShareRequest := mkImportKeyShareRequest {
  ik_multisig_id : Z;
  ik_frost_identifier : bytes;
  ik_passphrase : bytes;
  ik_export : option ExportedKeyPackage }.

Record RecoverPeginRequest := mkRecoverPeginRequest {
  rp_destination : bytes;
  rp_txid : bytes;
  rp_vout : Z;
  rp_eth_address : bytes;
  rp_signature : bytes;
  rp_multisig_id : Z }.

Record RecoverPeginResponse := mkRecoverPeginResponse { rp_tx : bytes; rp_broadcasted_txid : bytes }.

(** [PeginRecoveryServiceImpl] with the calls made to bitcoind and the random
    draws made so far. *)
Record PeginRecoveryServiceImpl `{!FrostLib} := mkPeginRecoveryServiceImpl {
  rs_db : RecoveryDb;
  rs_fallback_fee_rate : Z;
  rs_calls : nat;
  rs_draws : nat }.

Section service.
Context `{!BitcoinLib, !FrostLib, !PsbtLib, !FrostSign, !AeadLib, !DkgLib, !PegLib, !JwtLib}.
Context `{!ServerLib, !RecoveryLib}.

Abbreviation Rec A := (M PeginRecoveryServiceImpl Status A).

Definition new_recovery_service (db : RecoveryDb) (fallback_fee_rate : Z) : PeginRecoveryServiceImpl :=
  mkPeginRecoveryServiceImpl _ db fallback_fee_rate 0 0.

(** A call on the database; its failure is an internal error. *)
Definition recovery_db {A} (m : M RecoveryDb RecoveryError A) : Rec A :=
  map_errM (λ _, Internal None)
    (zoom rs_db (λ d s, mkPeginRecoveryServiceImpl _ d (rs_fallback_fee_rate s) (rs_calls s) (rs_draws s)) m).

(** The answer of bitcoind to the next call. *)
Definition ask {A} (f : nat → A) : Rec A := λ s,
  (mkPeginRecoveryServiceImpl _ (rs_db s) (rs_fallback_fee_rate s) (S (rs_calls s)) (rs_draws s), Ok (f (rs_calls s))).

(** [n] draws of a generator. *)
Definition recovery_draws (n : nat) : Rec (nat → Z) := λ s,
  (mkPeginRecoveryServiceImpl _ (rs_db s) (rs_fallback_fee_rate s) (rs_calls s) (n + rs_draws s),
   Ok (λ i, thread_rng (rs_draws s + i))).

(** A round on the PSBT of the recovery. *)
Definition on_psbt {A} (psbt : Psbt) (m : M Psbt AnyError A) : Rec (Psbt * A) :=
  let '(p, r) := m psbt in lift (map_err (λ _, Internal None) (let? a := r in Ok (p, a))).

Definition recovery_health_check : Rec unit := ret tt.

(** [x as u16] *)
Definition as_u16_cast (v : Z) : Z := v mod 2 ^ 16.

Definition import_key_share (req : ImportKeyShareRequest) : Rec unit :=
  let! frost_identifier := lift
    (if decide (length (ik_frost_identifier req) = 32%nat)
     then ok_or (identifier_deserialize (ik_frost_identifier req)) InvalidArgument
     else Err InvalidArgument) in
  let! export_proto := lift (ok_or (ik_export req) InvalidArgument) in
  let! export := lift
    (if decide (length (exp_iv export_proto) = 12%nat)
     then Ok (mkExportedKeyPackage (as_u16_cast (exp_version export_proto)) (exp_iv export_proto)
                (exp_enc_key_package export_proto) (exp_enc_pk_package export_proto))
     else Err InvalidArgument) in
  recovery_db (import_from_btc_server (ik_multisig_id req) frost_identifier (ik_passphrase req) export).

(** The identifier under which a share is stored. *)
Definition node_identifier (node_id_bytes : bytes) : outcome Status Identifier :=
  if decide (length node_id_bytes = 32%nat)
  then ok_or (identifier_deserialize node_id_bytes) (Internal None)
  else Err (Internal None).

(** The loop of round 1 over the shares. *)
Fixpoint round1_shares (psbt : Psbt) (selected_shares : list (bytes * SigningKey))
    : Rec (Psbt * list (Identifier * list (SigningNonces * SigningCommitments))) :=
  match selected_shares with
  | [] => ret (psbt, [])
  | (node_id_bytes, key_package) :: rest =>
      let! identifier := lift (node_identifier node_id_bytes) in
      let! rng := recovery_draws (length (inputs psbt)) in
      let! '(psbt, nonces) := on_psbt psbt (do_round1_signing key_package identifier rng) in
      let! '(psbt, all_nonces) := round1_shares psbt rest in
      ret (psbt, (identifier, nonces) :: all_nonces)
  end.

(** The loop of round 2 over the nonces. *)
Fixpoint round2_shares (multisig_shares : MultisigKeyShares) (psbt : Psbt)
    (all_nonces : list (Identifier * list (SigningNonces * SigningCommitments))) : Rec Psbt :=
  match all_nonces with
  | [] => ret psbt
  | (identifier, nonces) :: rest =>
      let! key_package := lift (ok_or (ks_shares multisig_shares !! identifier_serialize identifier)
                                  (Internal None)) in
      let! '(psbt, _) := on_psbt psbt (do_round2_signing key_package identifier nonces) in
      round2_shares multisig_shares psbt rest
  end.

(** The script of a deposit of [eth_address]. *)
Definition deposit_script (pk_package : PublicKeyPackage) (eth_address : bytes)
    : outcome Status ScriptBuf :=
  let agg_key := package_verifying_key pk_package in
  let? tweaked_key := map_err (λ _, Internal None) (generate_tweaked_public_key agg_key eth_address) in
  Ok (generate_taproot_scriptpubkey tweaked_key).

(** The deposit as bitcoind reports it, when it pays the script of the
    federation for the Ethereum address. *)
Definition validated_utxo (pk_package : PublicKeyPackage) (outpoint : OutPoint) (eth_address : bytes)
    (multisig_id : Z) : Rec Utxo :=
  let! on_chain := ask (λ n, get_tx_out n outpoint) in
  match on_chain with
  | inr _ => fail (Internal None)
  | inl None => fail InvalidArgument
  | inl (Some on_chain_utxo) =>
      let! expected := lift (deposit_script pk_package eth_address) in
      if negb (bool_decide (script_pubkey on_chain_utxo = expected)) then fail InvalidArgument else
      ret (mkUtxo outpoint (mkTxOut (value on_chain_utxo) expected) (Some eth_address) 1
             (mkMultisigId multisig_id))
  end.

(** The estimate of bitcoind, or the configured rate without one. *)
Definition rate_from (fee_res : option Amount + RpcError) (fallback : Z) : Z :=
  match fee_res with
  | inl (Some f) => from_sat_per_vb_unchecked (btc_per_kb_to_sat_per_vb to_float_in_btc f)
  | _ => fallback
  end.

(** The configured rate has to be valid in either case. *)
Definition recovery_fee_rate : Rec Z :=
  let! fee_res := ask estimate_smart_fee in
  let! s := get in
  let! fallback := lift (ok_or (from_sat_per_vb (rs_fallback_fee_rate s)) InvalidArgument) in
  ret (rate_from fee_res fallback).

(** Both rounds of all shares, and the aggregation. *)
Definition sign_recovery (psbt : Psbt) (multisig_shares : MultisigKeyShares) (pk_package : PublicKeyPackage)
    : Rec Transaction :=
  let! '(psbt, all_nonces) := round1_shares psbt (tree_iter (ks_shares multisig_shares)) in
  let! psbt := round2_shares multisig_shares psbt all_nonces in
  lift (map_err (λ _, Internal None) (aggregate_and_finalize psbt pk_package)).

Definition broadcast_recovery (tx : Transaction) : Rec RecoverPeginResponse :=
  let! answered := ask (λ n, send_raw_transaction n tx) in
  match answered with
  | inl txid => ret (mkRecoverPeginResponse (hex_encode (consensus_encode tx_c tx)) (txid_to_string txid))
  | inr _ => fail (Internal None)
  end.

Definition recover_pegin (req : RecoverPeginRequest) : Rec RecoverPeginResponse :=
  let testnet := true in
  let! s := recovery_db (get_key_shares (rp_multisig_id req)) in
  let! multisig_shares := lift (ok_or s InvalidArgument) in
  let! p := recovery_db (recovery_public_key_package (rp_multisig_id req)) in
  let! pk_package := lift (ok_or p InvalidArgument) in
  if bool_decide (ks_shares multisig_shares = ∅) then fail InvalidArgument else
  let! destination := lift (map_err (λ _, InvalidArgument)
                              (parse_and_validate_address (rp_destination req) testnet)) in
  let script_pubkey := address_script_pubkey destination in
  let! txid := lift (ok_or (txid_from_str (rp_txid req)) InvalidArgument) in
  let! eth_address := lift (map_err (λ _, InvalidArgument) (parse_eth_address (rp_eth_address req))) in
  let! utxo := validated_utxo pk_package (mkOutPoint txid (rp_vout req)) eth_address (rp_multisig_id req) in
  let! fee_rate := recovery_fee_rate in
  let! absolute_fee := lift (map_err (λ _, InvalidArgument) (calculate_fee [utxo] script_pubkey fee_rate)) in
  let! output_value := lift (ok_or (checked_sub (value (utxo_output utxo)) absolute_fee) InvalidArgument) in
  let! psbt := lift (create_recovery_psbt [utxo] script_pubkey output_value) in
  let! final_tx := sign_recovery psbt multisig_shares pk_package in
  broadcast_recovery final_tx.

End service.

(** ** What an import stores *)

Section imports.
Context `{!FrostLib, !AeadLib}.

Definition same_data (d d' : RecoveryDb) : Prop :=
  r_key_shares d' = r_key_shares d ∧ r_public_key_packages d' = r_public_key_packages d.

(** The packages that an export opens to. *)
Definition opens (passphrase : bytes) (e : ExportedKeyPackage) (k : SigningKey) (pk : PublicKeyPackage) : Prop :=
  exp_version e = EXPORTED_PACKAGE_VERSION ∧
  (decrypt (challenges (exp_iv e) passphrase).1 (exp_iv e) (exp_enc_key_package e) ≫= decode_key_package) = Some k ∧
  (decrypt (challenges (exp_iv e) passphrase).2 (exp_iv e) (exp_enc_pk_package e) ≫= decode_pk_package) = Some pk.

(** The shares of a multisig with one more. *)
Definition with_share (m : Z) (id : Identifier) (k : SigningKey) (t : gmap bytes MultisigKeyShares)
    : gmap bytes MultisigKeyShares :=
  <[recovery_key m := mkMultisigKeyShares _
      (<[identifier_serialize id := k]> (ks_shares (default (mkMultisigKeyShares _ ∅) (t !! recovery_key m))))]> t.

Lemma r_read_cases {A} (f : RecoveryDb → A) d d' r :
  (∀ l d, f (set_r_io l d) = f d) → r_read f d = (d', r) →
  same_data d d' ∧ (r = Ok (f d) ∨ r = Err RecoverySled).
Proof.
  intros Hf. unfold r_read, r_sled, same_data. destruct (r_io d) as [|[] l]; intros [= <- <-]; rewrite ?Hf; auto.
Qed.

Lemma r_write_cases f d d' r :
  r_write f d = (d', r) → (∃ l, d' = f (set_r_io l d) ∧ r = Ok tt) ∨ (same_data d d' ∧ r = Err RecoverySled).
Proof.
  unfold r_write, r_sled, same_data. destruct d as [io ks pks]. cbn [r_io].
  destruct io as [|[] l]; intros [= <- <-]; [left; by exists []|by right|left; by exists l].
Qed.

Lemma add_key_share_cases m id k d d' r :
  add_key_share m (identifier_serialize id) k d = (d', r) →
  (r = Err RecoverySled ∧ same_data d d') ∨
  (r = Ok tt ∧ r_key_shares d' = with_share m id k (r_key_shares d) ∧
   r_public_key_packages d' = r_public_key_packages d).
Proof.
  unfold add_key_share, bindM. destruct (get_key_shares m d) as [d1 o] eqn:Hg.
  apply r_read_cases in Hg as [[Hk Hp] [-> | ->]]; [|intros [= <- <-]; by left|done].
  intros Hw. apply r_write_cases in Hw as [(l & -> & ->)|[[Hk' Hp'] ->]].
  - right. cbn. rewrite Hk, Hp. done.
  - left. unfold same_data. by rewrite Hk', Hp', Hk, Hp.
Qed.

(** An import in every case, whatever sled answers: either it fails and both
    trees are as they were, or the export opened, and its share is stored
    under the given identifier next to the other shares of the multisig; then
    it succeeds and the package of the export is the one of the multisig, or
    sled fails and the package is the one of before. *)
Theorem import_effects m id passphrase e d d' r :
  import_from_btc_server m id passphrase e d = (d', r) →
  (same_data d d' ∧ r ≠ Ok tt) ∨
  ∃ k pk, opens passphrase e k pk ∧ r_key_shares d' = with_share m id k (r_key_shares d) ∧
    ((r = Ok tt ∧ r_public_key_packages d' = <[recovery_key m := pk]> (r_public_key_packages d)) ∨
     (r = Err RecoverySled ∧ r_public_key_packages d' = r_public_key_packages d)).
Proof.
  unfold import_from_btc_server. destruct (Z.eqb_spec (exp_version e) EXPORTED_PACKAGE_VERSION) as [Hv|];
    cbn [negb]; [|intros [= <- <-]; by left].
  destruct (challenges (exp_iv e) passphrase) as [m1 m2] eqn:Hc.
  unfold bindM, lift.
  destruct (decrypt m1 _ _) as [b1|] eqn:E1; cbn [ok_or]; [|intros [= <- <-]; by left].
  destruct (decode_key_package b1) as [k|] eqn:E2; cbn [ok_or]; [|intros [= <- <-]; by left].
  destruct (decrypt m2 _ _) as [b2|] eqn:E3; cbn [ok_or]; [|intros [= <- <-]; by left].
  destruct (decode_pk_package b2) as [pk|] eqn:E4; cbn [ok_or]; [|intros [= <- <-]; by left].
  destruct (add_key_share _ _ _ d) as [d1 o] eqn:Ha.
  apply add_key_share_cases in Ha as [[-> Hd]|(-> & Hk & Hp)]; [intros [= <- <-]; by left|].
  intros Hw. right. exists k, pk.
  split; [unfold opens; rewrite Hc; cbn; by rewrite E1, E3; cbn; rewrite E2, E4|].
  apply r_write_cases in Hw as [(l & -> & ->)|[[Hk' Hp'] ->]]; cbn; rewrite ?Hk', ?Hp', ?Hk, ?Hp; auto.
Qed.

Lemma opens_functional passphrase e k k' pk pk' :
  opens passphrase e k pk → opens passphrase e k' pk' → k = k' ∧ pk = pk'.
Proof. unfold opens. intros (_ & H1 & H2) (_ & H3 & H4). split; congruence. Qed.

Lemma recovery_key_inj m m' : is_u32 m → is_u32 m' → recovery_key m = recovery_key m' → m = m'.
Proof.
  intros [? ?] [? ?] He%(f_equal from_be_bytes). unfold u32_max in *. unfold recovery_key in He.
  by rewrite !from_to_be_bytes in He by (simpl; lia).
Qed.

(** An export opens under its passphrase to the packages of the federation. *)
Lemma export_opens `{!BitcoinLib, !PsbtLib, !AeadLaws} src passphrase iv db db' e :
  export_key_package_by_id src passphrase iv db = (db', Ok (Some e)) →
  ∃ k pk, key_packages db !! multisig_key src = Some k ∧ pubkey_packages db !! multisig_key src = Some pk ∧
    opens passphrase e k pk.
Proof.
  unfold export_key_package_by_id. intros He. mres He.
  unfold get_key_package_by_id in Hm. apply sled_read_Ok in Hm as [Hs ->].
  assert (key_packages s = key_packages db ∧ pubkey_packages s = pubkey_packages db) as [Ek Ep]
    by (destruct Hs as [->|[l ->]]; done).
  rewrite Ek in He. destruct (key_packages db !! _) as [k|]; [|discriminate He].
  mres He. unfold get_public_key_package_by_id in Hm. apply sled_read_Ok in Hm as [Hs' ->].
  assert (pubkey_packages s0 = pubkey_packages db) as Ep' by (destruct Hs' as [->|[l ->]]; done).
  rewrite Ep' in He. destruct (pubkey_packages db !! _) as [pk|]; [|discriminate He].
  destruct (challenges iv passphrase) as [m1 m2] eqn:Hc. injection He as _ <-.
  exists k, pk. split_and!; [done..|]. unfold opens. cbn. rewrite Hc. cbn.
  rewrite !decrypt_encrypt. cbn. by rewrite key_package_roundtrip, pk_package_roundtrip.
Qed.

Lemma import_opened m id passphrase e d k pk :
  r_io d = [] → opens passphrase e k pk →
  import_from_btc_server m id passphrase e d =
    (mkRecoveryDb _ [] (with_share m id k (r_key_shares d))
       (<[recovery_key m := pk]> (r_public_key_packages d)), Ok tt).
Proof.
  intros Hio (Hv & Hk & Hp). destruct d as [io ks pks]. cbn in Hio. subst io.
  unfold import_from_btc_server. rewrite Hv. cbn [negb Z.eqb EXPORTED_PACKAGE_VERSION].
  destruct (challenges _ _) as [m1 m2]. cbn [fst snd] in *.
  apply bind_Some in Hk as (b1 & Hd1 & Hk), Hp as (b2 & Hd2 & Hp).
  unfold bindM, lift. rewrite Hd1. cbn [ok_or]. rewrite Hk. cbn [ok_or]. rewrite Hd2. cbn [ok_or].
  by rewrite Hp.
Qed.

Lemma get_key_shares_ok m d : r_io d = [] → get_key_shares m d = (d, Ok (r_key_shares d !! recovery_key m)).
Proof. destruct d as [io ks pks]. intros Hio. cbn in Hio. by subst. Qed.

Lemma get_key_share_ok m node d :
  r_io d = [] →
  get_key_share m node d = (d, Ok (r_key_shares d !! recovery_key m ≫= λ s, ks_shares s !! node)).
Proof. intros Hio. unfold get_key_share, bindM. rewrite get_key_shares_ok by done. by destruct (_ !! _). Qed.

Lemma recovery_public_key_package_ok m d :
  r_io d = [] → recovery_public_key_package m d = (d, Ok (r_public_key_packages d !! recovery_key m)).
Proof. destruct d as [io ks pks]. intros Hio. cbn in Hio. by subst. Qed.

(** What the btc-server exports, the service stores: the share under the
    member's identifier, the package for the multisig; shares of other members
    and everything of other multisigs stay. *)
Theorem import_after_export `{!BitcoinLib, !PsbtLib, !AeadLaws} src m id passphrase iv db db' e d :
  export_key_package_by_id src passphrase iv db = (db', Ok (Some e)) → r_io d = [] → is_u32 m →
  ∃ k pk d', key_packages db !! multisig_key src = Some k ∧
    pubkey_packages db !! multisig_key src = Some pk ∧
    import_from_btc_server m id passphrase e d = (d', Ok tt) ∧
    get_key_share m (identifier_serialize id) d' = (d', Ok (Some k)) ∧
    recovery_public_key_package m d' = (d', Ok (Some pk)) ∧
    (∀ node, node ≠ identifier_serialize id → (get_key_share m node d').2 = (get_key_share m node d).2) ∧
    (∀ m', is_u32 m' → m' ≠ m → (get_key_shares m' d').2 = (get_key_shares m' d).2 ∧
       (recovery_public_key_package m' d').2 = (recovery_public_key_package m' d).2).
Proof.
  intros He Hio Hm. destruct (export_opens src passphrase iv db db' e He) as (k & pk & Hk & Hpk & Ho).
  eexists k, pk, _. split; [done|]. split; [done|]. split; [by apply import_opened|].
  unfold with_share. rewrite !get_key_share_ok, recovery_public_key_package_ok by done. cbn.
  rewrite !lookup_insert_eq. cbn. rewrite lookup_insert_eq. split_and!; [done..| |].
  - intros node Hn. rewrite !get_key_share_ok by done. cbn.
    rewrite lookup_insert_ne by done. destruct (r_key_shares d !! _); cbn; [done|by rewrite lookup_empty].
  - intros m' Hm' Hne. rewrite !get_key_shares_ok, !recovery_public_key_package_ok by done. cbn.
    rewrite !lookup_insert_ne; [done|intros ?%recovery_key_inj; naive_solver..].
Qed.

(** Two imports for one multisig keep both shares, and the package of the
    later one, whatever the package of the earlier one was. *)
Theorem later_import_decides_package m id1 id2 pass1 pass2 e1 e2 d k1 k2 pk1 pk2 :
  r_io d = [] → opens pass1 e1 k1 pk1 → opens pass2 e2 k2 pk2 →
  identifier_serialize id1 ≠ identifier_serialize id2 →
  let d1 := (import_from_btc_server m id1 pass1 e1 d).1 in
  let d2 := (import_from_btc_server m id2 pass2 e2 d1).1 in
  get_key_share m (identifier_serialize id1) d2 = (d2, Ok (Some k1)) ∧
  get_key_share m (identifier_serialize id2) d2 = (d2, Ok (Some k2)) ∧
  recovery_public_key_package m d2 = (d2, Ok (Some pk2)).
Proof.
  intros Hio Ho1 Ho2 Hne d1 d2. unfold d2, d1. erewrite (import_opened m id1) by done. cbn [fst].
  erewrite (import_opened m id2) by done. cbn [fst]. unfold with_share.
  rewrite !get_key_share_ok, recovery_public_key_package_ok by done. cbn [r_key_shares r_public_key_packages].
  rewrite !lookup_insert_eq. cbn. rewrite !lookup_insert_eq. cbn.
  rewrite lookup_insert_ne by done. by rewrite !lookup_insert_eq.
Qed.

End imports.

(** ** Signing with every share *)

Section signing.
Context `{!BitcoinLib, !FrostLib, !PsbtLib, !FrostSign, !PegLib}.

(** A stored share with the draw of its nonce. *)
Record Participant := mkParticipant { pa_id : Identifier; pa_key : SigningKey; pa_draw : Z }.

Definition pa_nonce (p : Participant) : SigningNonces * SigningCommitments := commit (pa_key p) (pa_draw p).

Definition stored_as (p : Participant) : bytes * SigningKey := (identifier_serialize (pa_id p), pa_key p).

Definition commitments_of (cs : gmap Identifier SigningCommitments) (ps : list Participant) :=
  foldl (λ m p, <[pa_id p := (pa_nonce p).2]> m) cs ps.

Definition shares_of (ss : gmap Identifier SignatureShare) (ps : list Participant) (sigs : list SignatureShare) :=
  foldl (λ m p, <[p.1 := p.2]> m) ss (zip (map pa_id ps) sigs).

(** The PSBT [p] with its one input replaced. *)
Definition with_input (p : Psbt) (x : PsbtInput) : Psbt := mkPsbt (unsigned_tx p) [x] (outputs p).

Definition committed_input (x : PsbtInput) (ps : list Participant) : PsbtInput :=
  foldl (λ x p, set_signing_commitment (pa_id p) (pa_nonce p).2 x) x ps.

Definition signed_by (x : PsbtInput) (ps : list Participant) (sigs : list SignatureShare) : PsbtInput :=
  foldl (λ x p, set_partial_signature p.1 p.2 x) x (zip (map pa_id ps) sigs).

Lemma round1_one kp id rng p p' ns x :
  inputs p = [x] → do_round1_signing kp id rng p = (p', Ok ns) →
  validate_psbt_fee_sanity p = Ok tt ∧
  p' = with_input p (set_signing_commitment id (commit kp (rng 0%nat)).2 x) ∧ ns = [commit kp (rng 0%nat)].
Proof.
  intros Hx Hr. unfold do_round1_signing in Hr. mres Hr. injection Hm as <- <-. rewrite Hx in Hr. cbn in Hr.
  destruct (bool_decide _); [discriminate|]. mres Hr. apply lift_Ok in Hm as [-> Hs].
  destruct a. split; [done|]. injection Hr as <- <-. injection Hm1 as <- <-. injection Hm0 as <- _.
  unfold with_input, update_input. by rewrite Hx.
Qed.

Lemma calculate_sighash_one p x o :
  inputs p = [x] → witness_utxo x = Some o →
  calculate_sighash p 0 = map_err SighashTaprootError (taproot_sighash (unsigned_tx p) [o] 0).
Proof. intros Hx Ho. unfold calculate_sighash. rewrite Hx. cbn. by rewrite Ho. Qed.

Lemma signing_packages_one p x o pkgs :
  inputs p = [x] → witness_utxo x = Some o → signing_packages p = Ok pkgs →
  ∃ msg, taproot_sighash (unsigned_tx p) [o] 0 = Ok msg ∧
    pkgs = [Psbt.mkSigningPackage _ (all_signing_commitments x) msg].
Proof.
  intros Hx Ho. unfold signing_packages. rewrite Hx. cbn [imap omap_all].
  rewrite (calculate_sighash_one p x o) by done. destruct (taproot_sighash _ _ _) as [msg|e|]; cbn; [|done..].
  case_decide; [done|]. cbn. intros [= <-]. eauto.
Qed.

Lemma round2_one kp id ns p p' u x o :
  inputs p = [x] → witness_utxo x = Some o → do_round2_signing kp id ns p = (p', Ok u) →
  ∃ n msg sig, ns = [n] ∧ taproot_sighash (unsigned_tx p) [o] 0 = Ok msg ∧
    sign_with_tweak (Psbt.mkSigningPackage _ (all_signing_commitments x) msg) n.1 kp (eth_address x) = Ok sig ∧
    p' = with_input p (set_partial_signature id sig x).
Proof.
  intros Hx Ho Hr. unfold do_round2_signing in Hr. mres Hr. injection Hm as <- <-. rewrite Hx in Hr.
  cbn [length] in Hr. destruct ns as [|n [|]]; cbn [length negb Nat.eqb] in Hr; [discriminate| |discriminate].
  mres Hr. apply lift_Ok in Hm as [-> (msg & Hmsg & ->)%map_err_Ok%(signing_packages_one p x o)]; [|done..].
  cbn [take sign_recovery_inputs] in Hr. mres Hr. injection Hr as <- _. unfold sign_recovery_input in Hm.
  mres Hm. injection Hm0 as <- <-. cbn [sp_commitments] in Hm. destruct (all_signing_commitments x !! id); [|discriminate].
  rewrite Hx in Hm. mres Hm. apply lift_Ok in Hm0 as [-> [= <-]].
  apply lift_Ok in Hm1 as [-> [= <-]]. apply lift_Ok in Hm2 as [-> Hsig%map_err_Ok]. injection Hm as <- _.
  exists n, msg, a2. split_and!; [done..|]. unfold with_input, update_input. by rewrite Hx.
Qed.

(** What the code relies on of the libraries for a spend by key: extracting a
    transaction takes the final witnesses of the PSBT's inputs; finalizing an
    input that pays to taproot and has a signature for the key, of the default
    type, makes that signature the witness; the script of a tweaked key is
    taproot's. *)
Class KeySpendLaws : Prop := {
  extract_tx_witness p tx : extract_tx p = Ok tx → length (inputs p) = length (input (unsigned_tx p)) →
    map witness (input tx) = map (λ i, default [] (final_script_witness i)) (inputs p);
  finalize_key_spend p p' k x o sig :
    psbt_finalize p = Some p' → inputs p !! k = Some x → witness_utxo x = Some o → is_p2tr (script_pubkey o) = true →
    tap_key_sig x = Some (sig, SIGHASH_DEFAULT) → ∃ y, inputs p' !! k = Some y ∧ final_script_witness y = Some [sig];
  new_p2tr_tweaked_is_p2tr pk : is_p2tr (new_p2tr_tweaked pk) = true }.

Context `{!KeySpendLaws}.

Lemma aggregate_one p pk x o tx :
  inputs p = [x] → length (input (unsigned_tx p)) = 1%nat → witness_utxo x = Some o → is_p2tr (script_pubkey o) = true →
  aggregate_and_finalize p pk = Ok tx →
  ∃ msg sig w p', taproot_sighash (unsigned_tx p) [o] 0 = Ok msg ∧
    aggregate_with_tweak (Psbt.mkSigningPackage _ (all_signing_commitments x) msg)
      (all_partial_signatures x) pk (eth_address x) = Ok sig ∧
    verify_with_tweak pk (eth_address x) msg sig = true ∧ schnorr_from_slice sig = Some w ∧
    map witness (input tx) = [[w]] ∧
    unsigned_tx p' = unsigned_tx p ∧ extract_tx p' = Ok tx.
Proof.
  intros Hx Hn Hw Hp Ha. unfold aggregate_and_finalize in Ha. ores Ha. rewrite map_err_Ok in Ho.
  destruct (signing_packages_one p x o _ Hx Hw Ho) as (msg & Hmsg & ->).
  rewrite Hx in Ho0. cbn [imap omap_all] in Ho0. ores Ho0. unfold aggregate_recovery_input in Ho2.
  cbn [lookup list_lookup ok_or obind sp_message] in Ho2. ores Ho2.
  destruct (verify_with_tweak _ _ _ _) eqn:Hv; cbn [negb] in Ho2; [|discriminate].
  rewrite map_err_Ok in Ho4. apply obind_Ok in Ho2 as (w & Hschnorr%ok_or_Ok & [= <-]). injection Ho3 as <-. injection Ho0 as <-.
  apply ok_or_Ok in Ho1. destruct (finalize_key_spend _ _ 0%nat (set_key_sig w x) o w Ho1) as (y & Hy & Hfinal); [done..|].
  eexists msg, a3, w, (mkPsbt (unsigned_tx p) _ _). split_and!; [done|exact Ho4|exact Hv|done| |done|exact Ha].
  rewrite (extract_tx_witness _ _ Ha) by done. cbn. by rewrite Hy; cbn; rewrite Hfinal.
Qed.

Context `{!FrostLaws}.

Lemma committed_input_spec x ps :
  let x' := committed_input x ps in
  all_signing_commitments x' = commitments_of (all_signing_commitments x) ps ∧
  all_partial_signatures x' = all_partial_signatures x ∧
  witness_utxo x' = witness_utxo x ∧ eth_address x' = eth_address x.
Proof.
  revert x. induction ps as [|p ps IH]; intros x; [done|].
  destruct (set_signing_commitment_spec (pa_id p) (pa_nonce p).2 x) as (E1 & E2 & E3 & E4 & _).
  unfold committed_input, commitments_of in *. cbn [foldl]. rewrite <-E1, <-E2, <-E3, <-E4. apply IH.
Qed.

Lemma signed_by_spec x ps sigs :
  let x' := signed_by x ps sigs in
  all_partial_signatures x' = shares_of (all_partial_signatures x) ps sigs ∧
  all_signing_commitments x' = all_signing_commitments x ∧
  witness_utxo x' = witness_utxo x ∧ eth_address x' = eth_address x.
Proof.
  unfold signed_by, shares_of. generalize (zip (map pa_id ps) sigs) as l. intros l.
  revert x. induction l as [|[id sg] l IH]; intros x; [done|].
  destruct (set_partial_signature_spec id sg x) as (E1 & E2 & E3 & E4 & _).
  cbn [foldl fst snd]. rewrite <-E1, <-E2, <-E3, <-E4. apply IH.
Qed.

Lemma recovery_meta_spec u a :
  utxo_eth_address u = Some a → length a = 20%nat →
  let x := add_recovery_meta u PsbtInput_default in
  all_signing_commitments x = ∅ ∧ all_partial_signatures x = ∅ ∧
  witness_utxo x = Some (utxo_output u) ∧ eth_address x = Some a.
Proof.
  intros Ha Hl. unfold add_recovery_meta. rewrite Ha. cbn.
  unfold all_signing_commitments, all_partial_signatures, eth_address, set_eth_address, add_version_to_psbt, set_prop.
  cbn. unfold UTXO_VERSION_TYPE_KEY, ETH_ADDRESS_KEY. rewrite !collect_fields_insert_other by done.
  split_and!; [done..|]. rewrite lookup_insert_ne by done. rewrite lookup_insert_eq. by rewrite decide_True.
Qed.

End signing.

(** ** A recovery *)

Section recovery.
Context `{!BitcoinLib, !FrostLib, !PsbtLib, !FrostSign, !AeadLib, !DkgLib, !PegLib, !JwtLib}.
Context `{!ServerLib, !RecoveryLib, !FrostLaws, !PsbtLaws, !KeySpendLaws}.

Lemma on_psbt_Ok {A} p (m : M Psbt AnyError A) s s' r :
  on_psbt p m s = (s', Ok r) → s' = s ∧ m p = (r.1, Ok r.2).
Proof.
  unfold on_psbt. destruct (m p) as [p' [a|e|]]; cbn; unfold lift; [|done..]. by intros [= <- <-].
Qed.

Lemma with_input_id p x : inputs p = [x] → with_input p x = p.
Proof. destruct p. cbn. by intros ->. Qed.

Lemma node_identifier_Ok b id : node_identifier b = Ok id → b = identifier_serialize id.
Proof. unfold node_identifier. case_decide; [|done]. intros Hid%ok_or_Ok. by apply identifier_injective. Qed.

(** Round 1: every share commits once. *)
Lemma round1_shares_Ok l p x s s' p' ns :
  inputs p = [x] → round1_shares p l s = (s', Ok (p', ns)) →
  ∃ ps, l = map stored_as ps ∧ ns = map (λ q, (pa_id q, [pa_nonce q])) ps ∧
    p' = with_input p (committed_input x ps) ∧ rs_db s' = rs_db s ∧
    (l ≠ [] → validate_psbt_fee_sanity p = Ok tt).
Proof.
  revert p x s ns. induction l as [|[b k] l IH]; intros p x s ns Hx; cbn [round1_shares].
  { intros [= <- <- <-]. exists []. by rewrite with_input_id. }
  intros Hr. mres Hr. apply lift_Ok in Hm as [-> Hid%node_identifier_Ok].
  unfold recovery_draws in Hm0. injection Hm0 as <- <-.
  apply on_psbt_Ok in Hm1 as [-> Hm1]. destruct a1 as [p1 n1]. cbn [fst snd] in *.
  apply (round1_one _ _ _ _ _ _ x) in Hm1 as (Hsane & -> & ->); [|done].
  mres Hr. destruct a0 as [p2 ns2]. injection Hr as <- <- <-.
  destruct (IH (with_input p (committed_input x [mkParticipant a k (thread_rng (rs_draws s + 0))]))
              _ _ _ eq_refl Hm) as (ps & -> & -> & -> & Hdb & _).
  exists (mkParticipant a k (thread_rng (rs_draws s + 0)) :: ps). split_and!; [done..|by rewrite Hdb|done].
Qed.

(** Round 2: every share signs, with its own nonce. *)
Lemma round2_shares_Ok shares ps p x o s s' p' :
  inputs p = [x] → witness_utxo x = Some o →
  Forall (λ q, ks_shares shares !! identifier_serialize (pa_id q) = Some (pa_key q)) ps →
  round2_shares shares p (map (λ q, (pa_id q, [pa_nonce q])) ps) s = (s', Ok p') →
  s' = s ∧ ∃ sigs, p' = with_input p (signed_by x ps sigs) ∧
    ∀ msg, taproot_sighash (unsigned_tx p) [o] 0 = Ok msg →
      Forall2 (λ q sg, sign_with_tweak (Psbt.mkSigningPackage _ (all_signing_commitments x) msg)
                         (pa_nonce q).1 (pa_key q) (eth_address x) = Ok sg) ps sigs.
Proof.
  revert p x. induction ps as [|q ps IH]; intros p x Hx Ho Hall; cbn [round2_shares map].
  { intros [= <- <-]. split; [done|]. exists []. rewrite with_input_id by done. split; [done|constructor]. }
  apply Forall_cons in Hall as [Hq Hall]. rewrite Hq. intros Hr. mres Hr.
  apply lift_Ok in Hm as [-> [= <-]]. destruct a0 as [p1 u].
  apply on_psbt_Ok in Hm0 as [-> Hm0]. cbn [fst snd] in *.
  apply (round2_one _ _ _ _ _ _ x o) in Hm0 as (n & msg & sig & [= <-] & Hmsg & Hsig & ->); [|done..].
  destruct (set_partial_signature_spec (pa_id q) sig x) as (_ & E2 & E3 & E4 & _).
  apply (IH (with_input p (set_partial_signature (pa_id q) sig x)) _ eq_refl) in Hr as [-> (sigs & -> & Hs)];
    [|by rewrite E3|done].
  split; [done|]. exists (sig :: sigs). split; [done|]. intros msg' Hmsg'.
  rewrite Hmsg' in Hmsg. injection Hmsg as ->. constructor; [done|].
  specialize (Hs msg Hmsg'). by rewrite E2, E4 in Hs.
Qed.

(** The PSBT of a recovery. *)
Definition recovery_psbt (u : Utxo) (spk : ScriptBuf) (v : Amount) : Psbt :=
  mkPsbt (mkTransaction 2 0 [recovery_input u] [mkTxOut v spk])
    [add_recovery_meta u PsbtInput_default] [PsbtOutput_default].

Lemma create_recovery_psbt_eq {E} u spk v :
  create_recovery_psbt (E:=E) [u] spk v = Ok (recovery_psbt u spk v).
Proof.
  unfold create_recovery_psbt. rewrite from_unsigned_tx_spec; [done|].
  unfold unsigned. cbn. by constructor.
Qed.

(** The fee sanity check: the fee is at most what the destination receives. *)
Lemma sane_recovery u spk v :
  validate_psbt_fee_sanity (recovery_psbt u spk v) = Ok tt →
  value (utxo_output u) - v ≤ v.
Proof.
  unfold validate_psbt_fee_sanity. rewrite (psbt_fee_spec _ [utxo_output u]).
  2: done.
  2: { constructor; [|constructor]. unfold add_recovery_meta. by destruct (utxo_eth_address u). }
  unfold total_outputs. cbn. unfold fee_of, checked_sum. cbn.
  destruct (checked_add 0 (value (utxo_output u))) as [i|] eqn:Ei; [|done]. cbn.
  destruct (checked_add 0 v) as [o|] eqn:Eo; [|done]. cbn.
  apply checked_add_Some in Ei as [-> _], Eo as [-> _].
  destruct (checked_sub _ _) as [f|] eqn:Ef; [|done]. cbn. apply checked_sub_Some in Ef as [-> _].
  destruct (Z.ltb_spec (0 + v) (0 + value (utxo_output u) - (0 + v))); [done|]. lia.
Qed.

Lemma recovery_db_Ok {A} (m : M RecoveryDb RecoveryError A) s s' a :
  recovery_db m s = (s', Ok a) →
  ∃ d, m (rs_db s) = (d, Ok a) ∧
    s' = mkPeginRecoveryServiceImpl _ d (rs_fallback_fee_rate s) (rs_calls s) (rs_draws s).
Proof. unfold recovery_db. rewrite map_errM_Ok, zoom_Ok. done. Qed.

Lemma r_read_Ok {A} (f : RecoveryDb → A) d d' a :
  (∀ l d, f (set_r_io l d) = f d) → r_read f d = (d', Ok a) → same_data d d' ∧ a = f d.
Proof. intros Hf Hr. destruct (r_read_cases f d d' (Ok a) Hf Hr) as [? [[= ->]|?]]; done. Qed.

(** [w] is a key-path signature of [tx], which spends the output [out]: every
    stored share has taken part in it, with a nonce of its own, and it verifies
    under the federation's key tweaked by [a]. *)
Definition jointly_signed (shares : MultisigKeyShares) (pk : PublicKeyPackage) (a : bytes)
    (tx : Transaction) (out : TxOut) (w : bytes) : Prop :=
  ∃ ps msg sigs sig,
    map stored_as ps = tree_iter (ks_shares shares) ∧
    taproot_sighash tx [out] 0 = Ok msg ∧
    let package := Psbt.mkSigningPackage _ (commitments_of ∅ ps) msg in
    Forall2 (λ p sg, sign_with_tweak package (pa_nonce p).1 (pa_key p) (Some a) = Ok sg) ps sigs ∧
    aggregate_with_tweak package (shares_of ∅ ps sigs) pk (Some a) = Ok sig ∧
    verify_with_tweak pk (Some a) msg sig = true ∧ schnorr_from_slice sig = Some w.

Lemma stored_shares shares ps :
  map stored_as ps = tree_iter (ks_shares shares) →
  Forall (λ q, ks_shares shares !! identifier_serialize (pa_id q) = Some (pa_key q)) ps.
Proof.
  intros Hps. rewrite Forall_forall. intros q Hq.
  apply elem_of_tree_iter. rewrite <-Hps. by apply (list_elem_of_fmap_2 stored_as).
Qed.

Lemma sign_recovery_Ok u a spk v shares pk s s' tx :
  utxo_eth_address u = Some a → length a = 20%nat → is_p2tr (script_pubkey (utxo_output u)) = true → ks_shares shares ≠ ∅ →
  sign_recovery (recovery_psbt u spk v) shares pk s = (s', Ok tx) →
  rs_db s' = rs_db s ∧ value (utxo_output u) - v ≤ v ∧
  map previous_output (input tx) = [utxo_outpoint u] ∧ output tx = [mkTxOut v spk] ∧
  ∃ w, jointly_signed shares pk a (mkTransaction 2 0 [recovery_input u] [mkTxOut v spk]) (utxo_output u) w ∧
    map witness (input tx) = [[w]].
Proof.
  intros Ha Hl Hp Hne Hr. unfold sign_recovery in Hr. mres Hr. destruct a0 as [p1 ns]. mres Hr.
  destruct (recovery_meta_spec u a Ha Hl) as (M1 & M2 & M3 & M4).
  set (x := add_recovery_meta u PsbtInput_default) in *.
  apply (round1_shares_Ok _ _ x) in Hm as (ps & Hps & -> & -> & Hdb & Hsane); [|done].
  destruct (committed_input_spec x ps) as (C1 & C2 & C3 & C4).
  assert (tree_iter (ks_shares shares) ≠ []) as Hnil.
  { intros He. apply Hne, map_to_list_empty_iff, Permutation_nil. by rewrite <-tree_iter_perm, He. }
  apply (round2_shares_Ok _ _ _ (committed_input x ps) (utxo_output u)) in Hm0 as [-> (sigs & -> & Hsigs)];
    [|done|by rewrite C3|by apply stored_shares].
  destruct (signed_by_spec (committed_input x ps) ps sigs) as (S1 & S2 & S3 & S4).
  apply map_err_Ok in Hr.
  apply (aggregate_one _ _ (signed_by (committed_input x ps) ps sigs) (utxo_output u)) in Hr
    as (msg & sig & w & p' & Hmsg & Hag & Hv & Hw & Hwit & Htx & Hex); [|done|done|by rewrite S3, C3|done].
  apply extract_tx_spec in Hex as [Hout Hin]. rewrite Htx in Hout, Hin.
  split; [done|]. split; [by apply (sane_recovery u spk), Hsane|]. split; [done|]. split; [done|].
  rewrite S1, S2, S4, C1, C2, C4, M1, M2, M4 in Hag. rewrite S4, C4, M4 in Hv.
  exists w. split; [|done]. exists ps, msg, sigs, sig. split_and!; try done.
  specialize (Hsigs msg Hmsg). by rewrite C1, C4, M1, M4 in Hsigs.
Qed.

Lemma parse_eth_address_length b a : parse_eth_address b = Ok a → length a = 20%nat.
Proof.
  unfold parse_eth_address. destruct (hex_decode _) as [v|]; [|done]. cbn.
  destruct (Nat.eqb_spec (length v) 20); [|done]. by intros [= <-].
Qed.

Lemma broadcast_recovery_Ok tx s s' resp :
  broadcast_recovery tx s = (s', Ok resp) →
  rs_db s' = rs_db s ∧ ∃ m t, send_raw_transaction m tx = inl t ∧
    resp = mkRecoverPeginResponse (hex_encode (consensus_encode tx_c tx)) (txid_to_string t).
Proof.
  intros Hr. unfold broadcast_recovery in Hr. mres Hr. injection Hm as <- <-.
  destruct (send_raw_transaction _ _) as [t|] eqn:Ht; [|discriminate]. injection Hr as <- <-. eauto.
Qed.

Lemma validated_utxo_Ok pk o a m s s' u :
  validated_utxo pk o a m s = (s', Ok u) →
  ∃ n t, get_tx_out n o = inl (Some t) ∧ deposit_script pk a = Ok (script_pubkey t) ∧
    u = mkUtxo o t (Some a) 1 (mkMultisigId m) ∧ rs_db s' = rs_db s ∧
    rs_fallback_fee_rate s' = rs_fallback_fee_rate s.
Proof.
  intros Hr. unfold validated_utxo in Hr. mres Hr. injection Hm as <- <-.
  destruct (get_tx_out _ _) as [[t|]|] eqn:Ht; [|discriminate..]. mres Hr.
  apply lift_Ok in Hm as [-> Hs]. case_bool_decide as He; [|discriminate]. injection Hr as <- <-.
  eexists _, t. split; [exact Ht|]. subst. by destruct t.
Qed.

Lemma recovery_fee_rate_Ok s s' r :
  recovery_fee_rate s = (s', Ok r) →
  rs_db s' = rs_db s ∧ ∃ n fallback, from_sat_per_vb (rs_fallback_fee_rate s) = Some fallback ∧
    r = rate_from (estimate_smart_fee n) fallback.
Proof.
  intros Hr. unfold recovery_fee_rate in Hr. mres Hr. injection Hm as <- <-. injection Hm0 as <- <-.
  apply lift_Ok in Hm1 as [-> Hf%ok_or_Ok]. injection Hr as <- <-. eauto.
Qed.

(** C15.  A recovery that is answered has sent the deposit where the request
    says.  bitcoind has taken a transaction whose one input spends the named
    output and whose one output pays the destination, which is a valid testnet
    address.  bitcoind has reported the named output unspent and paying the
    script of the stored federation key for the given Ethereum address; the
    destination receives its whole value except the fee, at the estimated or else
    the configured rate, and the fee is at most what the destination receives.
    The witness of the transaction is one signature, which verifies under the key
    tweaked by the address and is made from every stored share of the multisig,
    each signing with a nonce of its own.  The answer is this transaction and the
    id that bitcoind has given it; the stored shares and packages are as before. *)
Theorem recovery_sends_deposit req s s' resp :
  recover_pegin req s = (s', Ok resp) →
  same_data (rs_db s) (rs_db s') ∧
  ∃ shares pk destination txid a n amount spk n' fallback fee tx m broadcasted w,
    r_key_shares (rs_db s) !! recovery_key (rp_multisig_id req) = Some shares ∧
    r_public_key_packages (rs_db s) !! recovery_key (rp_multisig_id req) = Some pk ∧
    parse_and_validate_address (rp_destination req) true = Ok destination ∧
    txid_from_str (rp_txid req) = Some txid ∧
    parse_eth_address (rp_eth_address req) = Ok a ∧
    get_tx_out n (mkOutPoint txid (rp_vout req)) = inl (Some (mkTxOut amount spk)) ∧
    deposit_script pk a = Ok spk ∧
    from_sat_per_vb (rs_fallback_fee_rate s) = Some fallback ∧
    calculate_fee [mkUtxo (mkOutPoint txid (rp_vout req)) (mkTxOut amount spk) (Some a) 1
                     (mkMultisigId (rp_multisig_id req))] (address_script_pubkey destination)
      (rate_from (estimate_smart_fee n') fallback) = Ok fee ∧
    fee ≤ amount - fee ∧
    send_raw_transaction m tx = inl broadcasted ∧
    map previous_output (input tx) = [mkOutPoint txid (rp_vout req)] ∧
    output tx = [mkTxOut (amount - fee) (address_script_pubkey destination)] ∧
    jointly_signed shares pk a
      (mkTransaction 2 0 [mkTxIn (mkOutPoint txid (rp_vout req)) [] ENABLE_RBF_NO_LOCKTIME []] (output tx))
      (mkTxOut amount spk) w ∧
    map witness (input tx) = [[w]] ∧
    resp = mkRecoverPeginResponse (hex_encode (consensus_encode tx_c tx)) (txid_to_string broadcasted).
Proof.
  intros Hr. unfold recover_pegin in Hr. mres Hr.
  apply recovery_db_Ok in Hm as (d1 & Hm & ->). apply r_read_Ok in Hm as [[K1 P1] ->]; [|done].
  apply lift_Ok in Hm0 as [-> Hshares%ok_or_Ok].
  apply recovery_db_Ok in Hm1 as (d2 & Hm1 & ->). apply r_read_Ok in Hm1 as [[K2 P2] ->]; [|done].
  apply lift_Ok in Hm2 as [-> Hpk%ok_or_Ok]. cbn [rs_db] in *. rewrite P1 in Hpk.
  case_bool_decide as Hne; [discriminate|].
  mres Hr. rename a0 into shares, a2 into pk.
  apply lift_Ok in Hm as [-> Hdest%map_err_Ok]. apply lift_Ok in Hm0 as [-> Htxid%ok_or_Ok].
  apply lift_Ok in Hm1 as [-> Heth%map_err_Ok].
  apply validated_utxo_Ok in Hm2 as (n & t & Htxo & Hspk & -> & Hdb1 & Hrate).
  apply recovery_fee_rate_Ok in Hm3 as (Hdb4 & n' & fallback & Hfb & ->).
  apply lift_Ok in Hm4 as [-> Hfee%map_err_Ok]. apply lift_Ok in Hm5 as [-> [-> _]%ok_or_Ok%checked_sub_Some].
  rewrite create_recovery_psbt_eq in Hm6. apply lift_Ok in Hm6 as [-> [= <-]].
  apply (sign_recovery_Ok _ a3) in Hm7 as (Hdb2 & Hle & Hin & Hout & w & Hsig & Hwit);
    [|done|by eapply parse_eth_address_length| |done].
  2:{ cbn [utxo_output]. unfold deposit_script in Hspk. apply obind_Ok in Hspk as (tk & _ & [= <-]).
      apply new_p2tr_tweaked_is_p2tr. }
  apply broadcast_recovery_Ok in Hr as (Hdb3 & m & b & Hsend & ->). cbn [rs_db] in *.
  split; [unfold same_data; split; congruence|].
  exists shares, pk, a, a1, a3, n, (value t), (script_pubkey t), n', fallback, a6, a9, m, b, w.
  rewrite Hout. destruct t as [amount spk]. cbn [value script_pubkey utxo_output utxo_outpoint] in *. split_and!; try done; [by rewrite Hrate in Hfb|lia].
Qed.

(** The signature of a request is never looked at: whoever reaches the service
    redirects a deposit. *)
Lemma signature_is_ignored d t v e sg sg' m s :
  recover_pegin (mkRecoverPeginRequest d t v e sg m) s = recover_pegin (mkRecoverPeginRequest d t v e sg' m) s.
Proof. reflexivity. Qed.

(** The UTXO of a recovery has version 1, which is no version: the input says
    none. *)
Lemma recovered_version_is_unknown o out a m :
  get_version_from_psbt_input (add_recovery_meta (mkUtxo o out (Some a) 1 m) PsbtInput_default) = None.
Proof.
  unfold get_version_from_psbt_input, add_recovery_meta, add_version_to_psbt, set_prop. cbn.
  by rewrite lookup_insert_eq.
Qed.

(** The input of a recovery does not say of which federation it is, so that
    a member of the federation refuses to commit to it. *)
Lemma federation_refuses_recovery u spk v id draw d :
  commit_input id draw 0 (d, recovery_psbt u spk v) = ((d, recovery_psbt u spk v), Err R1MissingMultisigId).
Proof.
  unfold commit_input, bindM, get, lift, multisig_id. cbn.
  unfold add_recovery_meta, add_version_to_psbt. cbn.
  rewrite lookup_insert_ne by done.
  destruct (utxo_eth_address u); cbn; [by rewrite lookup_insert_ne|done].
Qed.

(** The version of an imported package is cut to sixteen bits before it is
    compared. *)
Lemma version_is_truncated m id pass v iv ek ep s :
  import_key_share (mkImportKeyShareRequest m id pass (Some (mkExportedKeyPackage (v + 2 ^ 16) iv ek ep))) s =
  import_key_share (mkImportKeyShareRequest m id pass (Some (mkExportedKeyPackage v iv ek ep))) s.
Proof.
  assert (as_u16_cast (v + 2 ^ 16) = as_u16_cast v) as He.
  { unfold as_u16_cast. replace (v + 2 ^ 16) with (v + 1 * 2 ^ 16) by lia. by rewrite Z.mod_add. }
  unfold import_key_share, bindM, lift. cbn. destruct (decide _); [|done].
  destruct (ok_or _ _); [|done..]. cbn. by rewrite He.
Qed.

End recovery.

(** ** A concrete service

    Two members of the retired federation have exported their shares; the
    deposit of 500 satoshi is the one that the bitcoind of [toy_server]
    knows. *)

#[local] Existing Instances Toy.toy_dkg Toy.toy_laws Toy.debug.

#[local] Instance recovery_aead : AeadLib := {
  challenges iv p := (1 :: iv ++ p, 2 :: iv ++ p);
  encrypt key nonce b := key ++ nonce ++ b;
  decrypt key nonce b :=
    if decide (take (length (key ++ nonce)) b = key ++ nonce)
    then Some (drop (length (key ++ nonce)) b) else None;
  encode_key_package k := k;
  decode_key_package b := Some b;
  encode_pk_package k := k;
  decode_pk_package b := Some b }.

#[local] Instance recovery_aead_laws : AeadLaws.
Proof.
  split; [|done..]. intros key nonce b. simpl. rewrite app_assoc.
  rewrite take_app_length, drop_app_length. by rewrite decide_True.
Qed.

#[local] Instance recovery_lib : RecoveryLib := {
  package_verifying_key pk := pk;
  address_script_pubkey _ := p2wpkh 3;
  txid_from_str b := if decide (length b = 64%nat) then Some (take 32 b) else None;
  txid_to_string t := t ++ t;
  thread_rng n := Z.of_nat n }.

#[local] Instance recovery_key_spend : KeySpendLaws.
Proof.
  split.
  - intros p tx [= <-] Hlen. unfold toy_extract. cbn [input]. apply list_eq. intros k.
    rewrite !list_lookup_fmap, list_lookup_imap.
    destruct (input (unsigned_tx p) !! k) eqn:Hk, (inputs p !! k) eqn:Hi; cbn; rewrite ?Hi; cbn; try done;
      apply lookup_lt_Some in Hk || apply lookup_lt_Some in Hi; apply lookup_ge_None in Hi || apply lookup_ge_None in Hk; lia.
  - intros p p' k x o sig Hf Hx _ _ Hs. cbn in Hf. unfold toy_finalize in Hf.
    destruct (omap_all _ (inputs p)) as [sigs|e|] eqn:Eo; [|done..]. injection Hf as <-. cbn [inputs].
    apply omap_all_Ok in Eo. destruct (Forall2_lookup_l _ _ _ _ _ Eo Hx) as (s & Hsk & Hxs%ok_or_Ok).
    rewrite Hs in Hxs. injection Hxs as <-. rewrite lookup_zip_with, Hx. cbn. rewrite Hsk. cbn. by eexists.
  - intros pk. reflexivity.
Qed.

(** The database of member [n] of federation 3, the passphrase being [9]. *)
Definition member_db (n : Z) : Db :=
  set_key_packages (<[multisig_key (mkMultisigId 3) := [n]]> ∅)
    (set_pubkey_packages (<[multisig_key (mkMultisigId 3) := [2]]> ∅) Db_empty).

Definition member_id (n : Z) : @Identifier toy_frost := replicate 32 n.

Definition member_export (n : Z) : option ExportedKeyPackage :=
  match (export_key_package_by_id (mkMultisigId 3) [9] (replicate 12 n) (member_db n)).2 with
  | Ok e => e
  | _ => None
  end.

Definition import_of (n : Z) : ImportKeyShareRequest :=
  mkImportKeyShareRequest 3 (member_id n) [9] (member_export n).

Definition recovery_start : PeginRecoveryServiceImpl :=
  new_recovery_service (mkRecoveryDb _ [] ∅ ∅) 1.

(** The service with both shares. *)
Definition recovery_ready : PeginRecoveryServiceImpl :=
  Eval vm_compute in (import_key_share (import_of 2) (import_key_share (import_of 1) recovery_start).1).1.

Definition recovery_request : RecoverPeginRequest :=
  mkRecoverPeginRequest [98; 99; 49] (replicate 64 8) 0 (hex_encode (replicate 20 9)) [] 3.

Definition recovery_end : PeginRecoveryServiceImpl :=
  Eval vm_compute in (recover_pegin recovery_request recovery_ready).1.

Definition recovery_response : RecoverPeginResponse :=
  Eval vm_compute in
    match (recover_pegin recovery_request recovery_ready).2 with
    | Ok r => r
    | _ => mkRecoverPeginResponse [] []
    end.

Lemma recovery_runs :
  recover_pegin recovery_request recovery_ready = (recovery_end, Ok recovery_response).
Proof. vm_cast_no_check (eq_refl (recovery_end, Ok recovery_response : outcome Status RecoverPeginResponse)). Qed.

(** 396 weight units at 250 satoshi per kilo weight unit cost 99 satoshi. *)
Lemma recovery_sends_deposit_witness :
  recover_pegin recovery_request recovery_ready = (recovery_end, Ok recovery_response) ∧
  ∃ tx m t, send_raw_transaction m tx = inl t ∧ map previous_output (input tx) = [toy_outpoint 8] ∧
    output tx = [mkTxOut 401 (p2wpkh 3)] ∧ ∃ w, map witness (input tx) = [[w]].
Proof.
  split; [exact recovery_runs|].
  destruct (recovery_sends_deposit recovery_request recovery_ready recovery_end recovery_response recovery_runs)
    as (_ & shares & pk & d & txid & a & n & amount & spk & n' & fallback & fee & tx & m & t & w &
        _ & _ & _ & Htxid & Ha & Htxo & _ & Hfb & Hfee & _ & Hsend & Hin & Hout & _ & Hwit & _).
  injection Htxid as <-. injection Htxo as <- <-. injection Hfb as <-. exists tx, m, t.
  split; [exact Hsend|]. split; [exact Hin|]. split; [|exists w; exact Hwit]. rewrite Hout.
  assert (fee = 99) as -> by (vm_compute in Hfee; by injection Hfee as <-). reflexivity.
Defined.

(** The wrong passphrase, an error between the two writes, and a regular
    import. *)
Example recovery_imports :
  (import_key_share (mkImportKeyShareRequest 3 (member_id 1) [8] (member_export 1)) recovery_start).2 =
    Err (Internal None) ∧
  (import_key_share (import_of 1) (new_recovery_service (mkRecoveryDb _ [false; false; true] ∅ ∅) 1)).2 =
    Err (Internal None) ∧
  (import_key_share (import_of 1) recovery_start).2 = Ok tt.
Proof. vm_compute. repeat split. Qed.

Lemma import_after_export_witness :
  ∃ e d', (export_key_package_by_id (mkMultisigId 3) [9] (replicate 12 1) (member_db 1)).2 = Ok (Some e) ∧
    import_from_btc_server 3 (member_id 1) [9] e (rs_db recovery_start) = (d', Ok tt) ∧
    get_key_share 3 (member_id 1) d' = (d', Ok (Some [1])).
Proof.
  destruct (export_key_package_by_id (mkMultisigId 3) [9] (replicate 12 1) (member_db 1)) as [db' [[e|]| |]] eqn:He;
    [|vm_compute in He; discriminate He..].
  destruct (import_after_export (mkMultisigId 3) 3 (member_id 1) [9] (replicate 12 1) (member_db 1) db' e
    (rs_db recovery_start)) as (k & pk & d' & Hk & _ & Hi & Hg & _); [exact He|reflexivity|by vm_compute|].
  vm_compute in Hk. injection Hk as <-. by exists e, d'.
Defined.
