(* ===== verification/Snapshots.v ===== *)
(** * Snapshots

    src/crates/botanix-storage/src/models/snapshot.rs and
    provider/database/snapshot.rs: the records of snapshots and chunks and
    their tables; src/bin/botanix-reth/src/consensus/snapshot_manager.rs: the
    manager that files the blocks of a node; and the snapshot handlers of
    src/bin/botanix-reth/src/consensus/comet_bft/abci.rs.

    A table is a finite map that is walked in the order of its keys.  Each
    call of the factory is a transaction of its own: it answers and applies all
    of its writes, or is refused and writes nothing, as a schedule says.  A few
    reads drop the error of their inner seek; the schedule tells that case
    apart.  Identifiers and numbers of blocks stay below 2^64. *)

From S2P Require Import Prelude Bytes Bitcoin Server DataParser.

Open Scope Z_scope.

(** ** Tables *)

Definition table_iter {V} (t : gmap Z V) : list (Z * V) :=
  sort_by (λ a b, a.1 <=? b.1) (map_to_list t).

(** [Cursor::first] and [Cursor::last] *)
Definition table_first {V} (t : gmap Z V) : option (Z * V) := head (table_iter t).

Definition table_last {V} (t : gmap Z V) : option (Z * V) := last (table_iter t).

(** [walk_range(a..=b)] *)
Definition walk_range {V} (a b : Z) (t : gmap Z V) : list (Z * V) :=
  filter (λ e, a ≤ e.1 ≤ b) (table_iter t).

(** [BotanixDatabaseProvider::remove] on an inclusive range *)
Definition remove_range {V} (a b : Z) (t : gmap Z V) : gmap Z V :=
  filter (λ e, ¬ (a ≤ e.1 ≤ b)) t.

(** ** Records *)

Record SnapshotChunk := mkSnapshotChunk {
  sc_snapshot_id : Z;
  sc_chunk_data : list bytes;
  sc_starting_block_number : Z;
  sc_ending_block_number : Z }.

Definition SnapshotChunk_new (snapshot_id starting_block_number : Z) (chunk_data : bytes) : SnapshotChunk :=
  mkSnapshotChunk snapshot_id [chunk_data] starting_block_number starting_block_number.

Definition append_chunk_data (additional_data : bytes) (ending_block_number : Z) (c : SnapshotChunk) : SnapshotChunk :=
  mkSnapshotChunk (sc_snapshot_id c) (sc_chunk_data c ++ [additional_data]) (sc_starting_block_number c)
    ending_block_number.

Definition byte_len (b : bytes) : Z := Z.of_nat (length b).

Definition chunk_size (c : SnapshotChunk) : Z := 8 + sumZ (map byte_len (sc_chunk_data c)).

Record Snapshot := mkSnapshot {
  ss_id : Z;
  ss_height : Z;
  ss_chunk_ids : list Z;
  ss_block_ids : list Z;
  ss_block_hash : bytes }.

(** [B256::default()] *)
Definition Snapshot_default : Snapshot := mkSnapshot 0 0 [] [] (replicate 32 0).

Definition set_snapshot_id (id : Z) (s : Snapshot) : Snapshot :=
  mkSnapshot id (ss_height s) (ss_chunk_ids s) (ss_block_ids s) (ss_block_hash s).

Definition set_snapshot_height (height : Z) (s : Snapshot) : Snapshot :=
  mkSnapshot (ss_id s) height (ss_chunk_ids s) (ss_block_ids s) (ss_block_hash s).

Definition set_snapshot_block_hash (block_hash : bytes) (s : Snapshot) : Snapshot :=
  mkSnapshot (ss_id s) (ss_height s) (ss_chunk_ids s) (ss_block_ids s) block_hash.

Definition get_latest_chunk_id (s : Snapshot) : option Z := last (ss_chunk_ids s).

Definition get_oldest_chunk_id (s : Snapshot) : option Z := head (ss_chunk_ids s).

(** Whether the id was added is not used. *)
Definition add_block_id_if_not_exists (block_id : Z) (s : Snapshot) : Snapshot :=
  if contains (ss_block_ids s) block_id then s
  else mkSnapshot (ss_id s) (ss_height s) (ss_chunk_ids s) (ss_block_ids s ++ [block_id]) (ss_block_hash s).

Definition add_chunk_id_if_not_exists (chunk_id : Z) (s : Snapshot) : Snapshot :=
  if contains (ss_chunk_ids s) chunk_id then s
  else mkSnapshot (ss_id s) (ss_height s) (ss_chunk_ids s ++ [chunk_id]) (ss_block_ids s) (ss_block_hash s).

(** The height, the hash and the two lists of ids *)
Definition snapshot_size (s : Snapshot) : Z :=
  8 + 32 + 8 * Z.of_nat (length (ss_block_ids s)) + 8 * Z.of_nat (length (ss_chunk_ids s)).

Definition get_hash `{!BitcoinLib} (s : Snapshot) : bytes :=
  sha256 (to_le_bytes 8 (ss_id s) ++ to_le_bytes 8 (ss_height s) ++
          concat (map (to_le_bytes 8) (ss_chunk_ids s)) ++
          concat (map (to_le_bytes 8) (ss_block_ids s)) ++ ss_block_hash s).

Record SnapshotSync := mkSnapshotSync {
  sy_height : Z;
  sy_total_chunks : Z;
  sy_last_applied_chunk_index : Z;
  sy_snapshot_hash : bytes;
  sy_format : Z }.

Definition SnapshotSync_new (height : Z) (snapshot_hash : bytes) (format total_chunks : Z) : SnapshotSync :=
  mkSnapshotSync height total_chunks 0 snapshot_hash format.

(** ** The provider *)

Record SnapshotTables := mkSnapshotTables {
  t_snapshots : gmap Z Snapshot;
  t_chunks : gmap Z SnapshotChunk;
  t_block_snapshots : gmap Z Z;
  t_chunk_blocks : gmap Z Z;
  t_snapshot_syncs : gmap Z SnapshotSync }.

Definition SnapshotTables_empty : SnapshotTables := mkSnapshotTables ∅ ∅ ∅ ∅ ∅.

Definition with_snapshots (f : gmap Z Snapshot → gmap Z Snapshot) (t : SnapshotTables) : SnapshotTables :=
  mkSnapshotTables (f (t_snapshots t)) (t_chunks t) (t_block_snapshots t) (t_chunk_blocks t) (t_snapshot_syncs t).

Definition with_chunks (f : gmap Z SnapshotChunk → gmap Z SnapshotChunk) (t : SnapshotTables) : SnapshotTables :=
  mkSnapshotTables (t_snapshots t) (f (t_chunks t)) (t_block_snapshots t) (t_chunk_blocks t) (t_snapshot_syncs t).

Definition with_block_snapshots (f : gmap Z Z → gmap Z Z) (t : SnapshotTables) : SnapshotTables :=
  mkSnapshotTables (t_snapshots t) (t_chunks t) (f (t_block_snapshots t)) (t_chunk_blocks t) (t_snapshot_syncs t).

Definition with_chunk_blocks (f : gmap Z Z → gmap Z Z) (t : SnapshotTables) : SnapshotTables :=
  mkSnapshotTables (t_snapshots t) (t_chunks t) (t_block_snapshots t) (f (t_chunk_blocks t)) (t_snapshot_syncs t).

Definition with_snapshot_syncs (f : gmap Z SnapshotSync → gmap Z SnapshotSync) (t : SnapshotTables) : SnapshotTables :=
  mkSnapshotTables (t_snapshots t) (t_chunks t) (t_block_snapshots t) (t_chunk_blocks t) (f (t_snapshot_syncs t)).

(** *** Reading *)

(** By height; snapshots of one height, which the code leaves in any order, in
    the order of their ids. *)
Definition get_snapshots (t : SnapshotTables) : list Snapshot :=
  sort_by (λ a b, ss_height a <=? ss_height b) (table_iter (t_snapshots t)).*2.

Definition get_snapshot_by_id (snapshot_id : Z) (t : SnapshotTables) : option Snapshot :=
  t_snapshots t !! snapshot_id.

Definition get_last_snapshot_sync_id (t : SnapshotTables) : option Z := fst <$> table_last (t_snapshot_syncs t).

(** [seeks] is whether the seek succeeds; its error is dropped. *)
Definition get_snapshot_sync_by_id (id : Z) (seeks : bool) (t : SnapshotTables) : option SnapshotSync :=
  if seeks then t_snapshot_syncs t !! id else None.

Definition get_chunk_by_id (chunk_id : Z) (t : SnapshotTables) : option SnapshotChunk := t_chunks t !! chunk_id.

Definition get_chunk_size (chunk_id : Z) (seeks : bool) (t : SnapshotTables) : Z :=
  if seeks then match t_chunks t !! chunk_id with Some chunk => chunk_size chunk | None => 0 end else 0.

Definition get_snapshot_id_by_block_id (block_id : Z) (t : SnapshotTables) : option Z :=
  t_block_snapshots t !! block_id.

Definition get_chunk_block_number (chunk_id : Z) (t : SnapshotTables) : option Z := t_chunk_blocks t !! chunk_id.

Definition id_and_height (e : Z * Snapshot) : Z * Z := (e.1, ss_height e.2).

Definition get_last_snapshot_height (t : SnapshotTables) : option (Z * Z) :=
  id_and_height <$> table_last (t_snapshots t).

Definition get_first_snapshot_height (t : SnapshotTables) : option (Z * Z) :=
  id_and_height <$> table_first (t_snapshots t).

Definition get_snapshot_size (snapshot_id : Z) (seeks : bool) (t : SnapshotTables) : Z :=
  let '(size, chunk_ids) :=
    match (if seeks then t_snapshots t !! snapshot_id else None) with
    | Some snapshot => (snapshot_size snapshot, ss_chunk_ids snapshot)
    | None => (0, [])
    end in
  let chunks_size :=
    match chunk_ids with
    | [] => 0
    | _ => sumZ (map (λ e, chunk_size e.2)
             (walk_range (default 0 (head chunk_ids)) (default 0 (last chunk_ids)) (t_chunks t)))
    end in
  size + chunks_size.

Definition get_snapshots_count (t : SnapshotTables) : Z := Z.of_nat (length (table_iter (t_snapshots t))).

Definition get_last_chunk_id (t : SnapshotTables) : option Z := fst <$> table_last (t_chunks t).

Definition get_first_chunk_id (t : SnapshotTables) : option Z := fst <$> table_first (t_chunks t).

(** *** Writing *)

Definition create_new_snapshot_sync (height : Z) (snapshot_hash : bytes) (total_chunks format : Z)
    (t : SnapshotTables) : SnapshotTables * Z :=
  let new_snapshot_sync_id := default 0 (get_last_snapshot_sync_id t) + 1 in
  (with_snapshot_syncs <[new_snapshot_sync_id := SnapshotSync_new height snapshot_hash format total_chunks]> t,
   new_snapshot_sync_id).

Definition create_new_snapshot (block_number : Z) (block_hash : bytes) (t : SnapshotTables) : SnapshotTables * Z :=
  let last_snapshot_id := default 0 (fst <$> get_last_snapshot_height t) in
  let new_snapshot_id := last_snapshot_id + 1 in
  let new_snapshot := set_snapshot_block_hash block_hash
    (set_snapshot_height block_number (set_snapshot_id new_snapshot_id Snapshot_default)) in
  (with_block_snapshots <[block_number := new_snapshot_id]>
     (with_snapshots <[new_snapshot_id := new_snapshot]> t), new_snapshot_id).

Definition create_new_chunk (snapshot_id block_number : Z) (chunk_data : bytes) (t : SnapshotTables)
    : SnapshotTables * Z :=
  let new_chunk_id := default 0 (get_last_chunk_id t) + 1 in
  (with_chunk_blocks <[new_chunk_id := block_number]>
     (with_chunks <[new_chunk_id := SnapshotChunk_new snapshot_id block_number chunk_data]> t), new_chunk_id).

(** [None]: the chunk is expected to exist. *)
Definition append_to_chunk (chunk_id block_number : Z) (data : bytes) (t : SnapshotTables) : option SnapshotTables :=
  chunk ← get_chunk_by_id chunk_id t;
  Some (with_chunks <[chunk_id := append_chunk_data data block_number chunk]> t).

Definition update_snapshot (snapshot_id block_number chunk_id : Z) (t : SnapshotTables) : SnapshotTables :=
  match t_snapshots t !! snapshot_id with
  | Some snapshot =>
      with_snapshots <[snapshot_id := set_snapshot_height block_number
        (add_chunk_id_if_not_exists chunk_id (add_block_id_if_not_exists block_number snapshot))]> t
  | None => t
  end.

Definition update_snapshot_sync (snapshot_sync_id : Z) (updated_snapshot : SnapshotSync) (t : SnapshotTables)
    : SnapshotTables :=
  with_snapshot_syncs <[snapshot_sync_id := updated_snapshot]> t.

Definition remove_block_snapshot_id_mapping (a b : Z) : SnapshotTables → SnapshotTables :=
  with_block_snapshots (remove_range a b).

Definition insert_block_snapshot_id_mapping (block_id snapshot_id : Z) : SnapshotTables → SnapshotTables :=
  with_block_snapshots <[block_id := snapshot_id]>.

(** Removing an empty range changes nothing either way. *)
Definition remove_snapshots (a b : Z) : SnapshotTables → SnapshotTables := with_snapshots (remove_range a b).

Definition remove_chunks (a b : Z) : SnapshotTables → SnapshotTables := with_chunks (remove_range a b).

Definition delete_chunks_in_blocks (a b : Z) : SnapshotTables → SnapshotTables :=
  with_chunk_blocks (remove_range a b).

(** [None]: the first snapshot is expected to exist under its id. *)
Definition remove_oldest_snapshot (t : SnapshotTables) : option SnapshotTables :=
  match get_first_snapshot_height t with
  | None => Some t
  | Some (snapshot_id, _) =>
      snapshot ← get_snapshot_by_id snapshot_id t;
      let t := remove_snapshots snapshot_id snapshot_id t in
      let cids := ss_chunk_ids snapshot in
      match cids with
      | [] => Some t
      | _ =>
          let a := default 0 (head cids) in
          let b := default 0 (last cids) in
          Some (delete_chunks_in_blocks a b (remove_chunks a b t))
      end
  end.

(** ** The manager *)

Definition SNAPSHOT_MESSAGE_FORMAT : Z := 1.
Definition SNAPSHOT_MESSAGE_FORMAT_TEST : Z := 2.

Record SnapshotSizeLimits := mkLimits { snapshot_max_size : Z; snapshot_chunk_size : Z }.

Definition SNAPSHOT_SIZE_LIMITS_TEST : SnapshotSizeLimits := mkLimits (1024 * 5) 1024.
Definition SNAPSHOT_SIZE_LIMITS_PROD : SnapshotSizeLimits := mkLimits (1024 * 1024 * 15) (1024 * 1024 * 3).

Record SnapshotManagerStateLock := mkStateLock {
  lk_snapshot_id : Z;
  lk_block_id : Z;
  lk_is_syncing_history : bool }.

Definition set_is_syncing_history (b : bool) (l : SnapshotManagerStateLock) : SnapshotManagerStateLock :=
  mkStateLock (lk_snapshot_id l) (lk_block_id l) b.

Inductive SnapshotManagerError :=
| SmProvider
| SmDataParser (e : ParserError)
| InvalidBlockHeightForSnapshot
| SmTendermint.

(** The configuration of the manager. *)
Record SnapshotManager := mkSnapshotManager {
  sm_compressor : DataParser;
  sm_snapshots_to_keep : Z;
  sm_snapshot_message_format : Z;
  sm_snapshot_size_limits : SnapshotSizeLimits;
  sm_enable_state_sync : bool;
  sm_enable_historical_sync : bool }.

Definition SnapshotManager_new (compressor : DataParser) (snapshots_to_keep snapshot_message_format : Z)
    (enable_state_sync enable_historical_sync : bool) : SnapshotManager :=
  let snapshot_size_limits :=
    if snapshot_message_format =? SNAPSHOT_MESSAGE_FORMAT then SNAPSHOT_SIZE_LIMITS_PROD else
    if snapshot_message_format =? SNAPSHOT_MESSAGE_FORMAT_TEST then SNAPSHOT_SIZE_LIMITS_TEST else
    SNAPSHOT_SIZE_LIMITS_PROD in
  mkSnapshotManager compressor snapshots_to_keep snapshot_message_format snapshot_size_limits
    enable_state_sync enable_historical_sync.

(** How a call to the storage goes. *)
Inductive StorageFault := Answers | Refuses | SeekFails.

(** What the manager and the handlers share: the storage, with the schedule of
    its faults, and the lock. *)
Record SnapshotNode := mkSnapshotNode {
  sn_tables : SnapshotTables;
  sn_faults : list StorageFault;
  sn_lock : SnapshotManagerStateLock }.

Definition set_tables (t : SnapshotTables) (s : SnapshotNode) : SnapshotNode :=
  mkSnapshotNode t (sn_faults s) (sn_lock s).

(** The blocks with their senders, as they are filed. *)
Class SnapshotBlocks (B : Type) := { number_of : B → Z; hash_slow : B → bytes }.

Section manager.
Context {B : Type} `{!SnapshotBlocks B, !SerdeLib B}.
Context (sm : SnapshotManager).
(** whether the messages of the level INFO are written *)
Context (info_enabled : bool).

Abbreviation SmM A := (M SnapshotNode SnapshotManagerError A).

(** A call to the storage; [f] gets whether its inner seek succeeds. *)
Definition stored_call {A} (f : bool → SnapshotTables → option (SnapshotTables * A)) : SmM A := λ s,
  let rest := mkSnapshotNode (sn_tables s) (tail (sn_faults s)) (sn_lock s) in
  let run seeks := match f seeks (sn_tables s) with
                   | Some (t, a) => (set_tables t rest, Ok a)
                   | None => (rest, Panic)
                   end in
  match head (sn_faults s) with
  | Some Refuses => (rest, Err SmProvider)
  | Some SeekFails => run false
  | _ => run true
  end.

(** A read whose errors are all reported. *)
Definition stored_read {A} (f : SnapshotTables → A) : SmM A := λ s,
  match head (sn_faults s) with
  | None | Some Answers => stored_call (λ _ t, Some (t, f t)) s
  | Some _ => (mkSnapshotNode (sn_tables s) (tail (sn_faults s)) (sn_lock s), Err SmProvider)
  end.

(** A read that drops the error of its seek. *)
Definition seek_read {A} (f : bool → SnapshotTables → A) : SmM A := stored_call (λ seeks t, Some (t, f seeks t)).

Definition stored_write {A} (f : SnapshotTables → SnapshotTables * A) : SmM A := λ s,
  match head (sn_faults s) with
  | None | Some Answers => stored_call (λ _ t, Some (f t)) s
  | Some _ => (mkSnapshotNode (sn_tables s) (tail (sn_faults s)) (sn_lock s), Err SmProvider)
  end.

(** A write that expects an entry. *)
Definition stored_try (f : SnapshotTables → option SnapshotTables) : SmM unit := λ s,
  match head (sn_faults s) with
  | None | Some Answers => stored_call (λ _ t, t' ← f t; Some (t', tt)) s
  | Some _ => (mkSnapshotNode (sn_tables s) (tail (sn_faults s)) (sn_lock s), Err SmProvider)
  end.

Definition new_snapshot (block : B) : SmM Z :=
  stored_write (create_new_snapshot (number_of block) (hash_slow block)).

(** The snapshot to file a block in: the last one, or the first of all. *)
Definition current_snapshot (block : B) : SmM Z :=
  let! last := stored_read get_last_snapshot_height in
  match last with
  | Some (last_snapshot_id, last_snapshot_height) =>
      let! s := get in
      if negb (lk_is_syncing_history (sn_lock s)) && (number_of block <? last_snapshot_height)
      then fail InvalidBlockHeightForSnapshot
      else ret last_snapshot_id
  | None => new_snapshot block
  end.

(** The chunk of the snapshot that takes the block, with the block in it. *)
Definition file_in_chunk (snapshot_id : Z) (block : B) (serialized_block : bytes) : SmM Z :=
  let! snapshot := stored_read (get_snapshot_by_id snapshot_id) in
  let! snapshot := lift (expect snapshot) in
  let create := stored_write (create_new_chunk snapshot_id (number_of block) serialized_block) in
  match get_latest_chunk_id snapshot with
  | Some chunk_id =>
      let! latest_chunk_size := seek_read (get_chunk_size chunk_id) in
      if snapshot_chunk_size (sm_snapshot_size_limits sm) <? latest_chunk_size + byte_len serialized_block
      then create
      else stored_try (append_to_chunk chunk_id (number_of block) serialized_block) ;! ret chunk_id
  | None => create
  end.

Definition process_block (block : B) : SmM unit :=
  let! serialized_block := lift (map_err SmDataParser (encode (sm_compressor sm) block)) in
  if bool_decide (serialized_block = []) then ret tt else
  let! last_snapshot_id := current_snapshot block in
  let! latest_snapshot_size := seek_read (get_snapshot_size last_snapshot_id) in
  let! last_snapshot_id :=
    if snapshot_max_size (sm_snapshot_size_limits sm) <? latest_snapshot_size + byte_len serialized_block
    then new_snapshot block else ret last_snapshot_id in
  whenM info_enabled (let! _ := stored_read get_snapshots_count in ret tt) ;!
  modify (λ s, mkSnapshotNode (sn_tables s) (sn_faults s)
                 (mkStateLock last_snapshot_id (number_of block) (lk_is_syncing_history (sn_lock s)))) ;!
  let! chunk_id := file_in_chunk last_snapshot_id block serialized_block in
  stored_write (λ t, (update_snapshot last_snapshot_id (number_of block) chunk_id t, tt)) ;!
  stored_write (λ t, (insert_block_snapshot_id_mapping (number_of block) last_snapshot_id t, tt)).

Definition apply_retention_policy : SmM unit :=
  let! s := get in
  if lk_is_syncing_history (sn_lock s) then ret tt else
  let! count := stored_read get_snapshots_count in
  if negb (sm_snapshots_to_keep sm <? count) then ret tt else
  let! first := stored_read get_first_snapshot_height in
  match first with
  | None => ret tt
  | Some (_, oldest_height) =>
      let! s := get in
      if lk_block_id (sn_lock s) =? oldest_height then ret tt
      else stored_try remove_oldest_snapshot
  end.

(** [run]: [client] is whether CometBFT can be reached and the height that it
    answers in the end.  The stream of missing blocks that it makes is
    dropped. *)
Definition run (client : option Z) : SmM unit :=
  if negb (sm_enable_state_sync sm) then ret tt else
  let! latest_block_height := lift (ok_or client SmTendermint) in
  let! last := stored_read get_last_snapshot_height in
  let latest_persisted_block_height := default 0 (snd <$> last) in
  let starting_block := latest_persisted_block_height + 1 in
  let missing_blocks := saturating_sub latest_block_height starting_block in
  if missing_blocks =? 0 then ret tt else
  modify (λ s, mkSnapshotNode (sn_tables s) (sn_faults s)
                 (set_is_syncing_history (sm_enable_historical_sync sm) (sn_lock s))).

End manager.

(** ** The handlers of CometBFT *)

Record ListedSnapshot := mkListed {
  ls_height : Z;
  ls_format : Z;
  ls_chunks : Z;
  ls_hash : bytes }.

Section handlers.
Context {B : Type} `{!SnapshotBlocks B, !SerdeLib B, !SerdeLib (list B), !BitcoinLib}.
(** the parser and the format of the application *)
Context (compressor : DataParser) (snapshot_format : Z).

(** A handler has no errors of its own. *)
Abbreviation Hm A := (M SnapshotNode Empty_set A).

(** [as u32] *)
Definition listed (s : Snapshot) : ListedSnapshot :=
  mkListed (ss_height s) snapshot_format (Z.of_nat (length (ss_chunk_ids s)) mod 2 ^ 32)
    (get_hash s).

Definition list_snapshots : Hm (list ListedSnapshot) :=
  let! snapshots := okM (stored_read get_snapshots) in
  let! s := get in
  match snapshots with
  | None => ret []
  | Some snapshots =>
      if lk_is_syncing_history (sn_lock s) then ret [] else
      ret (map listed (filter (λ x, ss_height x ≠ lk_block_id (sn_lock s)) snapshots))
  end.

(** [unimplemented!()] *)
Definition offer_snapshot : Hm Z := panic.

(** The blocks of a chunk that can be read, encoded as one list. *)
Definition chunk_answer (c : SnapshotChunk) : bytes :=
  let blocks : list B := omap (λ d, ok (decode compressor d)) (sc_chunk_data c) in
  default [] (ok (encode compressor blocks)).

(** The default response is empty. *)
Definition load_snapshot_chunk (height chunk : Z) : Hm bytes :=
  let! s := get in
  if lk_is_syncing_history (sn_lock s) then ret [] else
  if lk_block_id (sn_lock s) =? height then ret [] else
  let! snapshot_id := okM (stored_read (get_snapshot_id_by_block_id height)) in
  match snapshot_id with
  | Some (Some snapshot_id) =>
      let! snapshot := okM (stored_read (get_snapshot_by_id snapshot_id)) in
      match snapshot with
      | Some (Some snapshot) =>
          match ss_chunk_ids snapshot !! Z.to_nat chunk with
          | None => ret []
          | Some chunk_id =>
              let! c := okM (stored_read (get_chunk_by_id chunk_id)) in
              match c with Some (Some c) => ret (chunk_answer c) | _ => ret [] end
          end
      | _ => ret []
      end
  | _ => ret []
  end.

(** [ApplySnapshotResult::Accept], whatever the chunk is. *)
Definition apply_snapshot_chunk (index : Z) (chunk sender : bytes) : Hm Z := ret 1.

End handlers.
