(* ===== verification/SnapshotSafety.v ===== *)
(** * What is filed can be served

    The tables of [Snapshots] hold an archive: snapshots in the order of their
    ids, chunks in the order of theirs, and in every chunk the encodings of
    consecutive blocks.  Filing a block adds it at the end of the archive,
    the retention policy takes the first snapshot away, and CometBFT is served
    the chunks of every snapshot but the current one. *)

From S2P Require Import Prelude Bytes Bitcoin Concrete Server DataParser Snapshots.

Open Scope Z_scope.

(** ** Ordered tables *)

Section tables.
Context {V : Type}.
Implicit Types (l : list (Z * V)) (t : gmap Z V).

Definition ascending l : Prop := StronglySorted Z.lt l.*1.

Lemma StronglySorted_app_parts (l1 l2 : list Z) :
  StronglySorted Z.lt (l1 ++ l2) →
  StronglySorted Z.lt l1 ∧ StronglySorted Z.lt l2 ∧ ∀ x y, x ∈ l1 → y ∈ l2 → x < y.
Proof.
  induction l1 as [|x l1 IH]; cbn.
  { intros Hl. split; [constructor|]. split; [done|]. intros x y Hx. by apply elem_of_nil in Hx. }
  intros [Hl [Hx1 Hx2]%Forall_app]%StronglySorted_inv. apply IH in Hl as (H1 & H2 & H12).
  split; [by constructor|]. split; [done|]. intros y z [->|Hy]%elem_of_cons Hz; [|by apply H12].
  by eapply Forall_forall in Hx2.
Qed.

Lemma StronglySorted_succ (l : list Z) x :
  StronglySorted Z.lt (l ++ [x]) → StronglySorted Z.lt ((l ++ [x]) ++ [x + 1]).
Proof.
  intros Hl. apply StronglySorted_snoc. split; [done|]. apply StronglySorted_snoc in Hl as [_ Hx].
  apply Forall_app. split; [|constructor; [lia|constructor]]. eapply Forall_impl; [exact Hx|]. cbn. lia.
Qed.

Lemma ascending_NoDup l : ascending l → NoDup l.*1.
Proof.
  unfold ascending. induction (l.*1) as [|x xs IH]; [constructor|]. intros [Hl Hx]%StronglySorted_inv.
  constructor; [|by apply IH]. intros Hin. eapply Forall_forall in Hx; [|exact Hin]. lia.
Qed.

Lemma ascending_iter l : ascending l → table_iter (list_to_map l : gmap Z V) = l.
Proof.
  intros Hl. pose proof (ascending_NoDup l Hl) as Hd.
  assert (table_iter (list_to_map l : gmap Z V) ≡ₚ l) as Hp.
  { unfold table_iter. by rewrite sort_by_perm, map_to_list_to_map. }
  apply (StronglySorted_unique_strong (λ a b : Z * V, (a.1 <=? b.1) = true)); [| | |done].
  - intros [k1 v1] [k2 v2] H1 H2 [=H12%Z.leb_le] [=H21%Z.leb_le]. cbn in *. rewrite Hp in H1.
    assert (k1 = k2) as <- by lia. f_equal.
    apply (elem_of_list_to_map_1 (M:=gmap Z)) in H1, H2; [|done..]. congruence.
  - apply sort_by_sorted.
    + intros a b. lia.
    + intros a b c. lia.
  - clear Hd Hp. revert Hl. unfold ascending. induction l as [|e l IH]; [constructor|].
    cbn. intros [Hl He]%StronglySorted_inv. constructor; [by apply IH|].
    rewrite Forall_fmap in He. eapply Forall_impl; [exact He|]. cbn. intros x Hx. lia.
Qed.

Lemma sort_by_ascending {A} (f : A → Z) (xs : list A) :
  StronglySorted Z.lt (map f xs) → sort_by (λ a b, f a <=? f b) xs = xs.
Proof.
  induction xs as [|x xs IH]; [done|]. cbn [map]. intros [Hs Hx]%StronglySorted_inv.
  unfold sort_by in *. cbn [foldr]. rewrite IH by done.
  destruct xs as [|y ys]; [done|]. cbn in *. apply Forall_cons in Hx as [Hx _].
  by rewrite (proj2 (Z.leb_le _ _)) by lia.
Qed.

Lemma table_last_ascending l : ascending l → table_last (list_to_map l : gmap Z V) = last l.
Proof. intros Hl. unfold table_last. by rewrite ascending_iter. Qed.

Lemma table_first_ascending l : ascending l → table_first (list_to_map l : gmap Z V) = head l.
Proof. intros Hl. unfold table_first. by rewrite ascending_iter. Qed.

Lemma list_to_map_set_last l k v v' :
  k ∉ l.*1 → (list_to_map (l ++ [(k, v')]) : gmap Z V) = <[k := v']> (list_to_map (l ++ [(k, v)])).
Proof. intros Hk. rewrite !list_to_map_snoc by done. by rewrite insert_insert_eq. Qed.

Lemma ascending_last_fresh l k v : ascending (l ++ [(k, v)]) → k ∉ l.*1.
Proof.
  unfold ascending. rewrite fmap_app. intros [_ Hf]%StronglySorted_snoc Hk.
  eapply Forall_forall in Hf; [|exact Hk]. cbn in Hf. lia.
Qed.

Lemma filter_none {A} (P : A → Prop) `{!∀ x, Decision (P x)} (l : list A) :
  (∀ x, x ∈ l → ¬ P x) → filter P l = [].
Proof.
  induction l as [|x l IH]; [done|]. intros Hno. rewrite filter_cons_False by (apply Hno; by left).
  apply IH. intros y Hy. apply Hno. by right.
Qed.

Lemma filter_all {A} (P : A → Prop) `{!∀ x, Decision (P x)} (l : list A) :
  (∀ x, x ∈ l → P x) → filter P l = l.
Proof.
  induction l as [|x l IH]; [done|]. intros Hall. rewrite filter_cons_True by (apply Hall; by left).
  f_equal. apply IH. intros y Hy. apply Hall. by right.
Qed.

Lemma elem_of_concat {A} (x : A) (ls : list (list A)) : x ∈ concat ls ↔ ∃ xs, x ∈ xs ∧ xs ∈ ls.
Proof.
  induction ls as [|xs ls IH]; cbn; [set_solver|]. rewrite elem_of_app, IH. set_solver.
Qed.

Lemma walk_middle l1 l l2 a b :
  ascending (l1 ++ l ++ l2) → head l.*1 = Some a → last l.*1 = Some b →
  walk_range a b (list_to_map (l1 ++ l ++ l2) : gmap Z V) = l.
Proof.
  intros Hs Ha Hb. unfold walk_range. rewrite ascending_iter by done.
  unfold ascending in Hs. rewrite !fmap_app in Hs.
  apply StronglySorted_app_parts in Hs as (_ & Hs & H1). apply StronglySorted_app_parts in Hs as (Hl & _ & H2).
  assert (a ∈ l.*1) as Ha' by (destruct (l.*1); [done|]; injection Ha as ->; by left).
  assert (b ∈ l.*1) as Hb' by (by apply last_Some_elem_of).
  assert (∀ k, k ∈ l.*1 → a ≤ k ≤ b) as Hab.
  { intros k Hk. split.
    - destruct (l.*1) as [|x xs]; [done|]. injection Ha as ->. apply elem_of_cons in Hk as [->|Hk]; [lia|].
      apply StronglySorted_inv in Hl as [_ Hx]. eapply Forall_forall in Hx; [|exact Hk]. lia.
    - apply last_Some in Hb as [xs Hxs]. rewrite Hxs in Hk, Hl. apply StronglySorted_snoc in Hl as [_ Hx].
      apply elem_of_app in Hk as [Hk| ->%list_elem_of_singleton]; [|lia].
      eapply Forall_forall in Hx; [|exact Hk]. lia. }
  rewrite !filter_app. rewrite (filter_none _ l1), (filter_all _ l), (filter_none _ l2).
  - by rewrite app_nil_r.
  - intros e He [_ Hle]. specialize (H2 b e.1 Hb' (list_elem_of_fmap_2 fst _ _ He)). lia.
  - intros e He. apply Hab. by apply (list_elem_of_fmap_2 fst).
  - intros e He [Hle _].
    specialize (H1 e.1 a (list_elem_of_fmap_2 fst _ _ He)). rewrite elem_of_app in H1. specialize (H1 (or_introl Ha')). lia.
Qed.

Lemma remove_first l l2 a b :
  ascending (l ++ l2) → head l.*1 = Some a → last l.*1 = Some b →
  remove_range a b (list_to_map (l ++ l2) : gmap Z V) = list_to_map l2.
Proof.
  intros Hs Ha Hb. pose proof (walk_middle [] l l2 a b Hs Ha Hb) as Hw. cbn [app] in Hw.
  unfold walk_range in Hw. rewrite ascending_iter in Hw by done.
  pose proof (ascending_NoDup _ Hs) as Hd. rewrite fmap_app in Hd.
  apply NoDup_app in Hd as (Hd1 & Hd12 & Hd2).
  apply map_eq. intros k. apply option_eq. intros v. unfold remove_range. rewrite map_lookup_filter_Some.
  rewrite <-!elem_of_list_to_map by (rewrite ?fmap_app; solve [by apply NoDup_app|done]). rewrite elem_of_app.
  assert (∀ e, e ∈ l ++ l2 → a ≤ e.1 ≤ b ↔ e ∈ l) as Hin.
  { intros e He. rewrite <-Hw, list_elem_of_filter. naive_solver. }
  split.
  - intros [[Hl|Hl] Hn]; [|done]. destruct Hn. apply Hin; [set_solver|done].
  - intros Hl. split; [by right|]. intros Hab. apply Hin in Hab; [|set_solver].
    apply (Hd12 k); [by apply (list_elem_of_fmap_2 fst _ _ Hab)|by apply (list_elem_of_fmap_2 fst _ _ Hl)].
Qed.

End tables.

(** ** The archive *)

Section archive.
Context {B : Type} `{!SnapshotBlocks B, !SerdeLib B, !SerdeLib (list B), !BitcoinLib}.
Context (sm : SnapshotManager) (info_enabled : bool).
(** what the parser writes for a block *)
Context (enc : B → bytes).

(** A snapshot with its chunks, and the blocks in each of them. *)
Record Shelf := mkShelf { sh_id : Z; sh_chunks : list (Z * list B) }.

Implicit Types (sh : Shelf) (A : list Shelf) (b : B).

Definition shelf_blocks sh : list B := concat (sh_chunks sh).*2.

Definition blocks_of A : list B := concat (map shelf_blocks A).

Definition chunk_of (snapshot_id : Z) (bs : list B) : SnapshotChunk :=
  mkSnapshotChunk snapshot_id (map enc bs) (default 0 (number_of <$> head bs)) (default 0 (number_of <$> last bs)).

Definition snapshot_of sh : Snapshot :=
  mkSnapshot (sh_id sh) (default 0 (number_of <$> last (shelf_blocks sh))) (sh_chunks sh).*1
    (map number_of (shelf_blocks sh)) (default [] (hash_slow <$> head (shelf_blocks sh))).

Definition snapshot_rows A : list (Z * Snapshot) := map (λ sh, (sh_id sh, snapshot_of sh)) A.

Definition shelf_rows sh : list (Z * SnapshotChunk) := map (λ c, (c.1, chunk_of (sh_id sh) c.2)) (sh_chunks sh).

Definition chunk_rows A : list (Z * SnapshotChunk) := concat (map shelf_rows A).

Definition chunk_bytes (bs : list B) : Z := 8 + sumZ (map (λ b, byte_len (enc b)) bs).

Definition shelf_size sh : Z :=
  40 + 8 * Z.of_nat (length (shelf_blocks sh)) + 8 * Z.of_nat (length (sh_chunks sh)) +
  sumZ (map (λ c, chunk_bytes c.2) (sh_chunks sh)).

(** The tables hold the archive. *)
Record archived A (t : SnapshotTables) : Prop := {
  ar_snapshots : t_snapshots t = list_to_map (snapshot_rows A);
  ar_chunks : t_chunks t = list_to_map (chunk_rows A);
  ar_blocks : ∀ sh b, sh ∈ A → b ∈ shelf_blocks sh → t_block_snapshots t !! number_of b = Some (sh_id sh) }.

Definition full_shelf sh : Prop := sh_chunks sh ≠ [] ∧ Forall (λ c, c.2 ≠ []) (sh_chunks sh).

Record archive_wf A : Prop := {
  wf_ids : StronglySorted Z.lt (map sh_id A);
  wf_chunk_ids : StronglySorted Z.lt (concat (map (λ sh, (sh_chunks sh).*1) A));
  wf_numbers : StronglySorted Z.lt (map number_of (blocks_of A));
  wf_full : Forall full_shelf A }.

Lemma snapshot_rows_ids A : (snapshot_rows A).*1 = map sh_id A.
Proof. unfold snapshot_rows. induction A as [|sh A IH]; [done|]. cbn. by f_equal. Qed.

Lemma shelf_rows_ids sh : (shelf_rows sh).*1 = (sh_chunks sh).*1.
Proof. unfold shelf_rows. induction (sh_chunks sh) as [|c cs IH]; [done|]. cbn. by f_equal. Qed.

Lemma chunk_rows_ids A : (chunk_rows A).*1 = concat (map (λ sh, (sh_chunks sh).*1) A).
Proof. unfold chunk_rows. induction A as [|sh A IH]; [done|]. cbn. by rewrite fmap_app, shelf_rows_ids, <-IH. Qed.

Lemma chunk_rows_app A1 A2 : chunk_rows (A1 ++ A2) = chunk_rows A1 ++ chunk_rows A2.
Proof. unfold chunk_rows. by rewrite map_app, concat_app. Qed.

Lemma blocks_of_app A1 A2 : blocks_of (A1 ++ A2) = blocks_of A1 ++ blocks_of A2.
Proof. unfold blocks_of. by rewrite map_app, concat_app. Qed.

Lemma chunk_rows_one sh : chunk_rows [sh] = shelf_rows sh.
Proof. apply app_nil_r. Qed.

Lemma blocks_of_one sh : blocks_of [sh] = shelf_blocks sh.
Proof. apply app_nil_r. Qed.

Lemma wf_snapshot_rows A : archive_wf A → ascending (snapshot_rows A).
Proof. intros Hwf. unfold ascending. rewrite snapshot_rows_ids. apply Hwf. Qed.

Lemma wf_chunk_rows A : archive_wf A → ascending (chunk_rows A).
Proof. intros Hwf. unfold ascending. rewrite chunk_rows_ids. apply Hwf. Qed.

Lemma wf_parts A1 A2 : archive_wf (A1 ++ A2) → archive_wf A1 ∧ archive_wf A2.
Proof.
  intros [H1 H2 H3 H4]. rewrite map_app in H1, H2. rewrite concat_app in H2.
  rewrite blocks_of_app, map_app in H3. apply Forall_app in H4 as [].
  apply StronglySorted_app_parts in H1 as (? & ? & _), H2 as (? & ? & _), H3 as (? & ? & _).
  by split; split.
Qed.

Lemma full_shelf_blocks sh : full_shelf sh → shelf_blocks sh ≠ [].
Proof.
  unfold full_shelf, shelf_blocks. destruct (sh_chunks sh) as [|[c bs] cs]; [by intros []|].
  intros [_ [Hbs _]%Forall_cons]. cbn in *. by destruct bs.
Qed.

Lemma chunk_of_size id bs : chunk_size (chunk_of id bs) = chunk_bytes bs.
Proof. unfold chunk_size, chunk_of, chunk_bytes. cbn. by rewrite map_map. Qed.

Lemma archived_snapshot A t sh :
  archive_wf A → archived A t → sh ∈ A → get_snapshot_by_id (sh_id sh) t = Some (snapshot_of sh).
Proof.
  intros Hwf Ht Hsh. unfold get_snapshot_by_id. rewrite (ar_snapshots _ _ Ht).
  apply elem_of_list_to_map_1; [by apply ascending_NoDup, wf_snapshot_rows|].
  unfold snapshot_rows. by apply (list_elem_of_fmap_2 (λ sh, (sh_id sh, snapshot_of sh))).
Qed.

Lemma archived_chunk A t sh c :
  archive_wf A → archived A t → sh ∈ A → c ∈ sh_chunks sh →
  get_chunk_by_id c.1 t = Some (chunk_of (sh_id sh) c.2).
Proof.
  intros Hwf Ht Hsh Hc. unfold get_chunk_by_id. rewrite (ar_chunks _ _ Ht).
  apply elem_of_list_to_map_1; [by apply ascending_NoDup, wf_chunk_rows|].
  unfold chunk_rows. apply elem_of_concat. exists (shelf_rows sh). split.
  - by apply (list_elem_of_fmap_2 (λ c, (c.1, chunk_of (sh_id sh) c.2))).
  - by apply (list_elem_of_fmap_2 shelf_rows).
Qed.

(** The chunks of a snapshot are what is between its first and its last one. *)
Lemma archived_walk A t sh (a z : Z) :
  archive_wf A → archived A t → sh ∈ A → head (sh_chunks sh).*1 = Some a → last (sh_chunks sh).*1 = Some z →
  walk_range a z (t_chunks t) = shelf_rows sh.
Proof.
  intros Hwf Ht [A1 [A2 ->]]%list_elem_of_split Ha Hb. rewrite (ar_chunks _ _ Ht).
  pose proof (wf_chunk_rows _ Hwf) as Has. change (sh :: A2) with ([sh] ++ A2) in *.
  rewrite !chunk_rows_app, chunk_rows_one in *. apply walk_middle; [done|by rewrite shelf_rows_ids..].
Qed.

Lemma archived_size A t sh :
  archive_wf A → archived A t → sh ∈ A → get_snapshot_size (sh_id sh) true t = shelf_size sh.
Proof.
  intros Hwf Ht Hsh. unfold get_snapshot_size. fold (get_snapshot_by_id (sh_id sh) t).
  rewrite (archived_snapshot A) by done. unfold snapshot_size. cbn [snapshot_of ss_block_ids ss_chunk_ids].
  rewrite length_map, length_fmap. unfold shelf_size. pose proof (archived_walk A t sh) as Hw.
  destruct (sh_chunks sh).*1 as [|c cs] eqn:Hcs; [by destruct (sh_chunks sh)|].
  destruct (last (c :: cs)) as [z|] eqn:Hb; [|by apply last_None in Hb].
  cbn [head default] in *. specialize (Hw c z Hwf Ht Hsh eq_refl eq_refl). cbn [id from_option]. unfold id. rewrite Hw. unfold shelf_rows. rewrite map_map. cbn.
  rewrite (map_ext _ (λ c, chunk_bytes c.2)) by (intros x; apply chunk_of_size). lia.
Qed.

(** ** Filing a block *)

Abbreviation max_size := (snapshot_max_size (sm_snapshot_size_limits sm)).
Abbreviation max_chunk := (snapshot_chunk_size (sm_snapshot_size_limits sm)).

(** A block starts the archive, starts a snapshot or starts a chunk, or goes
    to the end of the last chunk. *)
Inductive filed b : list Shelf → list Shelf → Prop :=
| filed_first : filed b [] [mkShelf 1 [(1, [b])]]
| filed_shelf A id cs cid bs :
    max_size < shelf_size (mkShelf id (cs ++ [(cid, bs)])) + byte_len (enc b) →
    filed b (A ++ [mkShelf id (cs ++ [(cid, bs)])])
      ((A ++ [mkShelf id (cs ++ [(cid, bs)])]) ++ [mkShelf (id + 1) [(cid + 1, [b])]])
| filed_chunk A id cs cid bs :
    shelf_size (mkShelf id (cs ++ [(cid, bs)])) + byte_len (enc b) ≤ max_size →
    max_chunk < chunk_bytes bs + byte_len (enc b) →
    filed b (A ++ [mkShelf id (cs ++ [(cid, bs)])]) (A ++ [mkShelf id ((cs ++ [(cid, bs)]) ++ [(cid + 1, [b])])])
| filed_append A id cs cid bs :
    shelf_size (mkShelf id (cs ++ [(cid, bs)])) + byte_len (enc b) ≤ max_size →
    chunk_bytes bs + byte_len (enc b) ≤ max_chunk →
    filed b (A ++ [mkShelf id (cs ++ [(cid, bs)])]) (A ++ [mkShelf id (cs ++ [(cid, bs ++ [b])])]).

Lemma shelf_blocks_snoc id cs cid bs : shelf_blocks (mkShelf id (cs ++ [(cid, bs)])) = concat cs.*2 ++ bs.
Proof. unfold shelf_blocks. cbn [sh_chunks]. by rewrite fmap_app, concat_app; cbn; rewrite app_nil_r. Qed.

Lemma filed_blocks b A A' : filed b A A' → blocks_of A' = blocks_of A ++ [b].
Proof.
  intros []; [done| |..].
  - by rewrite (blocks_of_app (_ ++ _)), blocks_of_one.
  - rewrite !blocks_of_app, !blocks_of_one, !shelf_blocks_snoc, fmap_app, concat_app.
    cbn. by rewrite app_nil_r, <-!app_assoc.
  - by rewrite !blocks_of_app, !blocks_of_one, !shelf_blocks_snoc, <-!app_assoc.
Qed.

Lemma filed_wf b A A' :
  filed b A A' → (∀ b', b' ∈ blocks_of A → number_of b' < number_of b) → archive_wf A → archive_wf A'.
Proof.
  intros Hf Hb [H1 H2 H3 H4].
  assert (StronglySorted Z.lt (map number_of (blocks_of A'))) as Hn.
  { rewrite (filed_blocks _ _ _ Hf), map_app. apply StronglySorted_snoc. split; [done|].
    apply Forall_forall. intros n [b' [-> Hb']]%list_elem_of_fmap_1. by apply Hb. }
  destruct Hf as [|A id cs cid bs _|A id cs cid bs _ _|A id cs cid bs _ _].
  - split; [repeat constructor..|done|]. repeat constructor; cbn; done.
  - rewrite map_app, concat_app in H2. cbn in H2. rewrite app_nil_r, fmap_app, app_assoc in H2.
    rewrite map_app in H1. split; [| |done|].
    + rewrite !map_app. by apply StronglySorted_succ.
    + rewrite !map_app, !concat_app. cbn. rewrite app_nil_r, fmap_app, app_assoc. by apply StronglySorted_succ.
    + apply Forall_app. split; [done|]. repeat constructor; cbn; done.
  - rewrite map_app, concat_app in H2. cbn in H2. rewrite app_nil_r, fmap_app, app_assoc in H2.
    rewrite map_app in H1. split; [| |done|].
    + by rewrite map_app.
    + rewrite !map_app, !concat_app. cbn. rewrite app_nil_r, !fmap_app, app_assoc, app_assoc. by apply StronglySorted_succ.
    + apply Forall_app in H4 as [H4 [[_ H5] _]%Forall_cons]. apply Forall_app. split; [done|].
      repeat constructor; cbn in *; [by destruct (cs ++ [(cid, bs)])|]. apply Forall_app. split; [done|]. by repeat constructor.
  - rewrite map_app, concat_app in H2. cbn in H2. rewrite app_nil_r, fmap_app in H2.
    rewrite map_app in H1. split; [| |done|].
    + by rewrite map_app.
    + rewrite !map_app, !concat_app. cbn. by rewrite app_nil_r, !fmap_app.
    + apply Forall_app in H4 as [H4 [[_ H5] _]%Forall_cons]. apply Forall_app. split; [done|]. cbn in H5.
      apply Forall_app in H5 as [H5 _].
      repeat constructor; cbn in *; [by destruct cs|]. apply Forall_app. split; [done|]. repeat constructor. by destruct bs.
Qed.

(** *** The tables after a block *)

Definition last_id A : Z := default 0 (last (map sh_id A)).

Lemma filed_homes b A A' sh' b' :
  filed b A A' → sh' ∈ A' → b' ∈ shelf_blocks sh' →
  b' = b ∧ sh_id sh' = last_id A' ∨ ∃ sh, sh ∈ A ∧ b' ∈ shelf_blocks sh ∧ sh_id sh = sh_id sh'.
Proof.
  unfold last_id. intros []; rewrite ?map_app; cbn; rewrite ?last_snoc; cbn; rewrite ?elem_of_app, ?list_elem_of_singleton.
  - intros -> ->%list_elem_of_singleton. by left.
  - intros [Hsh| ->]; [|intros ->%list_elem_of_singleton; by left].
    intros Hb. right. exists sh'. by rewrite elem_of_app, list_elem_of_singleton.
  - intros [Hsh| ->] Hb; [right; exists sh'; by rewrite elem_of_app; auto|].
    rewrite shelf_blocks_snoc, fmap_app, concat_app in Hb. cbn in Hb.
    rewrite app_nil_r, !elem_of_app, list_elem_of_singleton in Hb. destruct Hb as [Hb| ->]; [|by left].
    right. eexists. split; [apply elem_of_app; right; by left|]. by rewrite shelf_blocks_snoc, elem_of_app.
  - intros [Hsh| ->] Hb; [right; exists sh'; by rewrite elem_of_app; auto|].
    rewrite shelf_blocks_snoc, !elem_of_app, list_elem_of_singleton in Hb. destruct Hb as [Hb|[Hb| ->]]; [| |by left].
    all: right; eexists; (split; [apply elem_of_app; right; by left|]).
    all: rewrite shelf_blocks_snoc, elem_of_app; auto.
Qed.

(** The mapping of the blocks, when the number of the block is new *)
Lemma filed_mapping b A A' t (m : gmap Z Z) :
  filed b A A' → archived A t → (∀ b', b' ∈ blocks_of A → number_of b' < number_of b) →
  (∀ k, k ≠ number_of b → m !! k = t_block_snapshots t !! k) →
  ∀ sh b', sh ∈ A' → b' ∈ shelf_blocks sh → <[number_of b := last_id A']> m !! number_of b' = Some (sh_id sh).
Proof.
  intros Hf Ht Hb Hm sh b' Hsh Hb'. destruct (filed_homes _ _ _ _ _ Hf Hsh Hb') as [[-> ->]|(sh0 & Hsh0 & Hb0 & <-)].
  - apply lookup_insert_eq.
  - assert (number_of b' < number_of b) as Hlt.
    { apply Hb, elem_of_concat. exists (shelf_blocks sh0). split; [done|]. by apply (list_elem_of_fmap_2 shelf_blocks). }
    rewrite lookup_insert_ne by lia. rewrite Hm by lia. by apply (ar_blocks _ _ Ht).
Qed.

Lemma last_snapshot_height A t :
  archive_wf A → archived A t →
  get_last_snapshot_height t = (λ sh, (sh_id sh, ss_height (snapshot_of sh))) <$> last A.
Proof.
  intros Hwf Ht. unfold get_last_snapshot_height. rewrite (ar_snapshots _ _ Ht).
  rewrite table_last_ascending by by apply wf_snapshot_rows. unfold snapshot_rows.
  destruct A as [|sh A _] using rev_ind; [done|]. rewrite map_app. cbn. by rewrite !last_snoc.
Qed.

Lemma last_chunk_id A t :
  archive_wf A → archived A t → get_last_chunk_id t = last (concat (map (λ sh, (sh_chunks sh).*1) A)).
Proof.
  intros Hwf Ht. unfold get_last_chunk_id. rewrite (ar_chunks _ _ Ht).
  rewrite table_last_ascending by by apply wf_chunk_rows. by rewrite <-chunk_rows_ids, fmap_last.
Qed.

Lemma snapshot_rows_snoc A sh : snapshot_rows (A ++ [sh]) = snapshot_rows A ++ [(sh_id sh, snapshot_of sh)].
Proof. unfold snapshot_rows. by rewrite map_app. Qed.

Lemma chunk_rows_snoc A id cs cid bs :
  chunk_rows (A ++ [mkShelf id (cs ++ [(cid, bs)])]) =
  (chunk_rows A ++ shelf_rows (mkShelf id cs)) ++ [(cid, chunk_of id bs)].
Proof. unfold shelf_rows. rewrite chunk_rows_app, chunk_rows_one. unfold shelf_rows. cbn. by rewrite map_app, app_assoc. Qed.

Lemma update_last (rows : list (Z * Snapshot)) id n cid (s : Snapshot) t :
  id ∉ rows.*1 → t_snapshots t = list_to_map (rows ++ [(id, s)]) →
  update_snapshot id n cid t =
  with_snapshots (λ _, list_to_map (rows ++ [(id, set_snapshot_height n
    (add_chunk_id_if_not_exists cid (add_block_id_if_not_exists n s)))])) t.
Proof.
  intros Hid Ht. unfold update_snapshot.
  assert (t_snapshots t !! id = Some s) as ->.
  { rewrite Ht, list_to_map_snoc by done. apply lookup_insert_eq. }
  unfold with_snapshots. f_equal. rewrite Ht. symmetry. by apply list_to_map_set_last.
Qed.

(** *** Running the manager when the storage answers *)

Abbreviation node t lock := (mkSnapshotNode t [] lock).

Lemma stored_read_run {X} (f : SnapshotTables → X) t lock :
  stored_read f (node t lock) = (node t lock, Ok (f t)).
Proof. done. Qed.

Lemma seek_read_run {X} (f : bool → SnapshotTables → X) t lock :
  seek_read f (node t lock) = (node t lock, Ok (f true t)).
Proof. done. Qed.

Lemma stored_write_run {X} (f : SnapshotTables → SnapshotTables * X) t lock :
  stored_write f (node t lock) = (node (f t).1 lock, Ok (f t).2).
Proof. unfold stored_write, stored_call. cbn. by destruct (f t). Qed.

Lemma stored_try_run f t t' lock : f t = Some t' → stored_try f (node t lock) = (node t' lock, Ok tt).
Proof. unfold stored_try, stored_call. cbn. by intros ->. Qed.

Lemma bindM_run {S E X Y} (m : M S E X) (f : X → M S E Y) s s1 x : m s = (s1, Ok x) → bindM m f s = f x s1.
Proof. unfold bindM. by intros ->. Qed.

Definition filed_lock (id : Z) b (lock : SnapshotManagerStateLock) : SnapshotManagerStateLock :=
  mkStateLock id (number_of b) (lk_is_syncing_history lock).

Lemma process_block_run b t lock t0 id0 t1 id1 t2 cid :
  encode (sm_compressor sm) b = Ok (enc b) → enc b ≠ [] →
  current_snapshot b (node t lock) = (node t0 lock, Ok id0) →
  (if max_size <? get_snapshot_size id0 true t0 + byte_len (enc b)
   then create_new_snapshot (number_of b) (hash_slow b) t0 else (t0, id0)) = (t1, id1) →
  file_in_chunk sm id1 b (enc b) (node t1 (filed_lock id1 b lock)) = (node t2 (filed_lock id1 b lock), Ok cid) →
  process_block sm info_enabled b (node t lock) =
  (node (insert_block_snapshot_id_mapping (number_of b) id1 (update_snapshot id1 (number_of b) cid t2))
     (filed_lock id1 b lock), Ok tt).
Proof.
  intros He Hne Hcur Hnew Hfile. unfold process_block.
  erewrite bindM_run; [|unfold lift; by rewrite He]. rewrite bool_decide_eq_false_2 by done.
  rewrite (bindM_run _ _ _ _ _ Hcur), (bindM_run _ _ _ _ _ (seek_read_run _ _ _)).
  rewrite (bindM_run _ _ _ (node t1 lock) id1); [|by case_match; [unfold new_snapshot; rewrite stored_write_run, Hnew|injection Hnew as -> ->]].
  rewrite (bindM_run _ _ _ (node t1 lock) tt); [|by destruct info_enabled].
  erewrite bindM_run; [|done]. rewrite (bindM_run _ _ _ _ _ Hfile).
  by rewrite (bindM_run _ _ _ _ _ (stored_write_run _ _ _)), stored_write_run.
Qed.

Lemma file_in_chunk_new id b s t lock :
  get_snapshot_by_id id t = Some s →
  (∀ c, get_latest_chunk_id s = Some c → max_chunk < get_chunk_size c true t + byte_len (enc b)) →
  file_in_chunk sm id b (enc b) (node t lock) =
  (node (create_new_chunk id (number_of b) (enc b) t).1 lock, Ok (create_new_chunk id (number_of b) (enc b) t).2).
Proof.
  intros Hs Hc. unfold file_in_chunk. rewrite (bindM_run _ _ _ _ _ (stored_read_run _ _ _)), Hs.
  erewrite bindM_run; [|done]. destruct (get_latest_chunk_id s) as [c|]; [|apply stored_write_run].
  rewrite (bindM_run _ _ _ _ _ (seek_read_run _ _ _)).
  rewrite (proj2 (Z.ltb_lt _ _)) by by apply Hc. apply stored_write_run.
Qed.

Lemma file_in_chunk_append id b s c t t' lock :
  get_snapshot_by_id id t = Some s → get_latest_chunk_id s = Some c →
  get_chunk_size c true t + byte_len (enc b) ≤ max_chunk →
  append_to_chunk c (number_of b) (enc b) t = Some t' →
  file_in_chunk sm id b (enc b) (node t lock) = (node t' lock, Ok c).
Proof.
  intros Hs Hc Hle Ht. unfold file_in_chunk. rewrite (bindM_run _ _ _ _ _ (stored_read_run _ _ _)), Hs.
  erewrite bindM_run; [|done]. rewrite Hc, (bindM_run _ _ _ _ _ (seek_read_run _ _ _)).
  rewrite (proj2 (Z.ltb_ge _ _)) by done. by rewrite (bindM_run _ _ _ _ _ (stored_try_run _ _ _ _ Ht)).
Qed.

(** *** A block goes to the end of the archive *)

Definition fresh b A : Prop := ∀ b', b' ∈ blocks_of A → number_of b' < number_of b.

Lemma archived_after b A A' t t' :
  filed b A A' → archived A t → fresh b A →
  t_snapshots t' = list_to_map (snapshot_rows A') → t_chunks t' = list_to_map (chunk_rows A') →
  (∀ k, k ≠ number_of b → t_block_snapshots t' !! k = t_block_snapshots t !! k) →
  archived A' (insert_block_snapshot_id_mapping (number_of b) (last_id A') t').
Proof.
  intros Hf Ht Hb H1 H2 H3. split; [done|done|]. by apply (filed_mapping b A A' t).
Qed.

Lemma last_id_snoc A sh : last_id (A ++ [sh]) = sh_id sh.
Proof. unfold last_id. rewrite map_app. cbn. by rewrite last_snoc. Qed.

Lemma create_new_snapshot_run A t n h :
  archive_wf A → archived A t → Forall (λ i, i < last_id A + 1) (map sh_id A) →
  let id := last_id A + 1 in
  ∃ t1, create_new_snapshot n h t = (t1, id) ∧
    t_snapshots t1 = list_to_map (snapshot_rows A ++ [(id, mkSnapshot id n [] [] h)]) ∧
    t_chunks t1 = t_chunks t ∧ t_block_snapshots t1 = <[n := id]> (t_block_snapshots t).
Proof.
  intros Hwf Ht Hid id. unfold create_new_snapshot.
  assert (default 0 (fst <$> get_last_snapshot_height t) = last_id A) as ->.
  { rewrite (last_snapshot_height A) by done. unfold last_id.
    destruct A as [|sh A _] using rev_ind; [done|]. rewrite map_app. cbn. by rewrite !last_snoc. }
  eexists. split; [done|]. split; [|done]. cbn. rewrite list_to_map_snoc; [by rewrite (ar_snapshots _ _ Ht)|].
  rewrite snapshot_rows_ids. intros Hin. eapply Forall_forall in Hid; [|exact Hin]. lia.
Qed.

Lemma create_new_chunk_run A t id n e :
  archive_wf A → archived A t → ∀ t1, t_chunks t1 = t_chunks t →
  let cid := default 0 (last (chunk_rows A).*1) + 1 in
  ∃ t2, create_new_chunk id n e t1 = (t2, cid) ∧
    t_chunks t2 = list_to_map (chunk_rows A ++ [(cid, mkSnapshotChunk id [e] n n)]) ∧
    t_snapshots t2 = t_snapshots t1 ∧ t_block_snapshots t2 = t_block_snapshots t1.
Proof.
  intros Hwf Ht t1 H1 cid. unfold create_new_chunk.
  assert (default 0 (get_last_chunk_id t1) = default 0 (last (chunk_rows A).*1)) as ->.
  { unfold get_last_chunk_id. rewrite H1. fold (get_last_chunk_id t).
    by rewrite (last_chunk_id A), chunk_rows_ids. }
  eexists. split; [done|]. split; [|done]. cbn. rewrite list_to_map_snoc; [by rewrite H1, (ar_chunks _ _ Ht)|].
  intros Hin. subst cid. pose proof (wf_chunk_ids _ Hwf) as Hs. rewrite <-chunk_rows_ids in Hs.
  destruct (chunk_rows A).*1 as [|c cs _] using rev_ind; [by apply elem_of_nil in Hin|].
  rewrite last_snoc in Hin. cbn in Hin. apply StronglySorted_succ, StronglySorted_snoc in Hs as [_ Hs].
  eapply Forall_forall in Hs; [|exact Hin]. cbn in Hs. lia.
Qed.

Definition next_chunk A : Z := default 0 (last (chunk_rows A).*1) + 1.

(** What filing a block leaves in the tables, but for its mapping *)
Definition tables_of A' t b (t' : SnapshotTables) : Prop :=
  t_snapshots t' = list_to_map (snapshot_rows A') ∧ t_chunks t' = list_to_map (chunk_rows A') ∧
  ∀ k, k ≠ number_of b → t_block_snapshots t' !! k = t_block_snapshots t !! k.

Lemma wf_last_fresh A sh : archive_wf (A ++ [sh]) → sh_id sh ∉ (snapshot_rows A).*1.
Proof.
  intros Hwf%wf_snapshot_rows. rewrite snapshot_rows_snoc in Hwf. by eapply ascending_last_fresh.
Qed.

Lemma files_in_new_shelf A t b :
  let A' := A ++ [mkShelf (last_id A + 1) [(next_chunk A, [b])]] in
  archive_wf A → archive_wf A' → archived A t →
  ∃ t1 t2, create_new_snapshot (number_of b) (hash_slow b) t = (t1, last_id A + 1) ∧
    get_snapshot_size (last_id A + 1) true t1 = 40 ∧
    (∀ lock, file_in_chunk sm (last_id A + 1) b (enc b) (node t1 lock) = (node t2 lock, Ok (next_chunk A))) ∧
    tables_of A' t b (update_snapshot (last_id A + 1) (number_of b) (next_chunk A) t2).
Proof.
  intros A' Hwf Hwf' Ht. pose proof (wf_last_fresh _ _ Hwf') as Hid. cbn [sh_id] in Hid.
  pose proof (wf_ids _ Hwf') as Hids. unfold A' in Hids. rewrite map_app in Hids.
  apply StronglySorted_snoc in Hids as [_ Hids].
  destruct (create_new_snapshot_run A t (number_of b) (hash_slow b) Hwf Ht Hids) as (t1 & Hc & Hs1 & Hk1 & Hb1).
  destruct (create_new_chunk_run A t (last_id A + 1) (number_of b) (enc b) Hwf Ht t1 Hk1) as (t2 & Hc2 & Hk2 & Hs2 & Hb2).
  assert (get_snapshot_by_id (last_id A + 1) t1 = Some (mkSnapshot (last_id A + 1) (number_of b) [] [] (hash_slow b))) as Hg.
  { unfold get_snapshot_by_id. rewrite Hs1, list_to_map_snoc by done. apply lookup_insert_eq. }
  exists t1, t2. split; [done|]. split; [|split].
  - unfold get_snapshot_size. fold (get_snapshot_by_id (last_id A + 1) t1). by rewrite Hg.
  - intros lock. rewrite (file_in_chunk_new _ _ _ _ _ Hg) by done. by rewrite Hc2.
  - rewrite Hs1 in Hs2. erewrite (update_last (snapshot_rows A)) by done. split; [|split].
    + unfold A'. by rewrite snapshot_rows_snoc.
    + change (t_chunks t2 = list_to_map (chunk_rows A')). unfold A'. by rewrite Hk2, chunk_rows_app, chunk_rows_one.
    + intros k Hk. cbn. rewrite Hb2, Hb1. by apply lookup_insert_ne.
Qed.

(** [sh'] is [sh] with the block [b] at its end, in the chunk [c]. *)
Definition extends sh sh' b (c : Z) : Prop :=
  sh_id sh' = sh_id sh ∧ shelf_blocks sh' = shelf_blocks sh ++ [b] ∧
  (c ∈ (sh_chunks sh).*1 ∧ (sh_chunks sh').*1 = (sh_chunks sh).*1 ∨
   c ∉ (sh_chunks sh).*1 ∧ (sh_chunks sh').*1 = (sh_chunks sh).*1 ++ [c]).

Lemma snapshot_of_extended sh sh' b c :
  full_shelf sh → extends sh sh' b c → number_of b ∉ map number_of (shelf_blocks sh) →
  set_snapshot_height (number_of b) (add_chunk_id_if_not_exists c
    (add_block_id_if_not_exists (number_of b) (snapshot_of sh))) = snapshot_of sh'.
Proof.
  intros Hfull%full_shelf_blocks (Hid & Hb & Hc) Hn%contains_false. unfold add_block_id_if_not_exists.
  change (ss_block_ids (snapshot_of sh)) with (map number_of (shelf_blocks sh)). rewrite Hn.
  unfold add_chunk_id_if_not_exists, snapshot_of. cbn [ss_chunk_ids]. rewrite Hb, Hid, map_app, last_snoc.
  replace (head (shelf_blocks sh ++ [b])) with (head (shelf_blocks sh)) by (by destruct (shelf_blocks sh)).
  destruct Hc as [[Hc%contains_true ->]|[Hc%contains_false ->]]; by rewrite Hc.
Qed.

Lemma update_snapshot_of A sh sh' b c t t2 :
  archive_wf (A ++ [sh]) → archived (A ++ [sh]) t → fresh b (A ++ [sh]) → extends sh sh' b c →
  t_snapshots t2 = t_snapshots t → t_chunks t2 = list_to_map (chunk_rows (A ++ [sh'])) →
  t_block_snapshots t2 = t_block_snapshots t →
  tables_of (A ++ [sh']) t b (update_snapshot (sh_id sh) (number_of b) c t2).
Proof.
  intros Hwf Ht Hb Hext Hs2 Hc2 Hb2.
  assert (t_snapshots t2 = list_to_map (snapshot_rows A ++ [(sh_id sh, snapshot_of sh)])) as Hs.
  { by rewrite Hs2, (ar_snapshots _ _ Ht), snapshot_rows_snoc. }
  rewrite (update_last _ _ _ _ _ _ (wf_last_fresh _ _ Hwf) Hs), (snapshot_of_extended sh sh').
  - split; [|split; [done|intros k _; cbn; by rewrite Hb2]]. rewrite snapshot_rows_snoc.
    by destruct Hext as [-> _].
  - by apply wf_full, Forall_app in Hwf as [_ [? _]%Forall_cons].
  - done.
  - intros [b' [Heq Hb']]%list_elem_of_fmap_1. assert (b' ∈ blocks_of (A ++ [sh])) as Hin.
    { rewrite blocks_of_app, blocks_of_one. set_solver. }
    specialize (Hb _ Hin). lia.
Qed.

Lemma chunk_size_of A t id cs cid bs :
  let sh := mkShelf id (cs ++ [(cid, bs)]) in
  archive_wf (A ++ [sh]) → archived (A ++ [sh]) t →
  get_snapshot_by_id id t = Some (snapshot_of sh) ∧ get_latest_chunk_id (snapshot_of sh) = Some cid ∧
  get_chunk_by_id cid t = Some (chunk_of id bs) ∧ get_chunk_size cid true t = chunk_bytes bs ∧
  cid ∉ (chunk_rows A ++ shelf_rows (mkShelf id cs)).*1 ∧ cid ∉ cs.*1 ∧ next_chunk (A ++ [sh]) = cid + 1.
Proof.
  intros sh Hwf Ht. assert (sh ∈ A ++ [sh]) as Hin by (apply elem_of_app; right; by left).
  split; [by apply (archived_snapshot _ _ _ Hwf Ht Hin)|].
  split.
  { change (last (cs ++ [(cid, bs)]).*1 = Some cid). rewrite fmap_app. cbn. by rewrite last_snoc. }
  assert (get_chunk_by_id cid t = Some (chunk_of id bs)) as Hg.
  { apply (archived_chunk _ _ sh (cid, bs) Hwf Ht Hin). apply elem_of_app. right. by left. }
  split; [done|]. split.
  { unfold get_chunk_size. fold (get_chunk_by_id cid t). rewrite Hg. apply chunk_of_size. }
  assert (cid ∉ (chunk_rows A ++ shelf_rows (mkShelf id cs)).*1) as Hc.
  { pose proof (wf_chunk_rows _ Hwf) as Has. unfold sh in Has. rewrite chunk_rows_snoc in Has.
    by eapply ascending_last_fresh. }
  split; [done|]. split.
  { intros Hcs. apply Hc. rewrite fmap_app, elem_of_app, shelf_rows_ids. by right. }
  unfold next_chunk, sh. rewrite chunk_rows_snoc, (fmap_app _ _ [_]). cbn. by rewrite last_snoc.
Qed.

Lemma current_snapshot_run A sh b t lock :
  archive_wf (A ++ [sh]) → archived (A ++ [sh]) t → fresh b (A ++ [sh]) →
  current_snapshot b (node t lock) = (node t lock, Ok (sh_id sh)).
Proof.
  intros Hwf Ht Hb. unfold current_snapshot.
  rewrite (bindM_run _ _ _ _ _ (stored_read_run _ _ _)), (last_snapshot_height _ _ Hwf Ht), last_snoc.
  cbn [fmap option_fmap option_map]. erewrite bindM_run; [|done].
  enough (ss_height (snapshot_of sh) ≤ number_of b) by (by rewrite (proj2 (Z.ltb_ge _ _)), andb_false_r).
  apply wf_full, Forall_app in Hwf as [_ [Hf%full_shelf_blocks _]%Forall_cons]. cbn.
  destruct (last (shelf_blocks sh)) as [b'|] eqn:Hl; [|by apply last_None in Hl].
  apply last_Some_elem_of in Hl. cbn. apply Z.lt_le_incl, Hb.
  rewrite blocks_of_app, blocks_of_one, elem_of_app. by right.
Qed.

(** The steps of the manager take the tables of one archive to the other's. *)
Definition goes A' b t : Prop :=
  ∃ t0 id0 t1 t2 cid, (∀ lock, current_snapshot b (node t lock) = (node t0 lock, Ok id0)) ∧
    (if max_size <? get_snapshot_size id0 true t0 + byte_len (enc b)
     then create_new_snapshot (number_of b) (hash_slow b) t0 else (t0, id0)) = (t1, last_id A') ∧
    (∀ lock, file_in_chunk sm (last_id A') b (enc b) (node t1 lock) = (node t2 lock, Ok cid)) ∧
    tables_of A' t b (update_snapshot (last_id A') (number_of b) cid t2).

Lemma goes_first b t : archived [] t → 40 + byte_len (enc b) ≤ max_size → goes [mkShelf 1 [(1, [b])]] b t.
Proof.
  intros Ht Hmax. assert (archive_wf []) as Hwf by (split; constructor).
  destruct (files_in_new_shelf [] t b Hwf) as (t1 & t2 & Hn & Hsz & Hfile & Htab); [|done|].
  { eapply (filed_wf b); [apply filed_first|intros b' Hb'; by apply elem_of_nil in Hb'|done]. }
  change (last_id [] + 1) with 1 in *. change (next_chunk []) with 1 in *.
  exists t1, 1, t1, t2, 1. split; [|split; [|by split]].
  - intros lock. unfold current_snapshot.
    rewrite (bindM_run _ _ _ _ _ (stored_read_run _ _ _)), (last_snapshot_height [] t) by done.
    change (new_snapshot b (node t lock) = (node t1 lock, Ok 1)). unfold new_snapshot. by rewrite stored_write_run, Hn.
  - by rewrite Hsz, (proj2 (Z.ltb_ge _ _)) by lia.
Qed.

Section last_shelf.
Context (A : list Shelf) (id : Z) (cs : list (Z * list B)) (cid : Z) (bs : list B) (b : B) (t : SnapshotTables).
Let sh := mkShelf id (cs ++ [(cid, bs)]).
Hypothesis Hwf : archive_wf (A ++ [sh]).
Hypothesis Ht : archived (A ++ [sh]) t.
Hypothesis Hb : fresh b (A ++ [sh]).

Lemma last_shelf_size : get_snapshot_size id true t = shelf_size sh.
Proof. apply (archived_size (A ++ [sh]) t sh); [done..|]. apply elem_of_app. right. by left. Qed.

Lemma goes_shelf :
  max_size < shelf_size sh + byte_len (enc b) → goes ((A ++ [sh]) ++ [mkShelf (id + 1) [(cid + 1, [b])]]) b t.
Proof.
  intros Hbig. destruct (chunk_size_of _ _ _ _ _ _ Hwf Ht) as (_ & _ & _ & _ & _ & _ & Hnext). fold sh in Hnext.
  destruct (files_in_new_shelf (A ++ [sh]) t b Hwf) as (t1 & t2 & Hn & _ & Hfile & Htab); [|done|].
  { rewrite last_id_snoc, Hnext. eapply filed_wf; [by apply filed_shelf|done|done]. }
  rewrite last_id_snoc in Hn, Hfile, Htab. rewrite Hnext in Hfile, Htab.
  exists t, id, t1, t2, (cid + 1). rewrite last_id_snoc. split; [|split; [|by split]].
  - intros lock. by apply (current_snapshot_run A sh).
  - by rewrite last_shelf_size, (proj2 (Z.ltb_lt _ _)).
Qed.

Lemma keeps_shelf :
  shelf_size sh + byte_len (enc b) ≤ max_size →
  (if max_size <? get_snapshot_size id true t + byte_len (enc b)
   then create_new_snapshot (number_of b) (hash_slow b) t else (t, id)) = (t, id).
Proof. intros Hsmall. by rewrite last_shelf_size, (proj2 (Z.ltb_ge _ _)). Qed.

Lemma goes_chunk :
  shelf_size sh + byte_len (enc b) ≤ max_size → max_chunk < chunk_bytes bs + byte_len (enc b) →
  goes (A ++ [mkShelf id ((cs ++ [(cid, bs)]) ++ [(cid + 1, [b])])]) b t.
Proof.
  intros Hsmall Hnew. destruct (chunk_size_of _ _ _ _ _ _ Hwf Ht) as (Hg & Hl & _ & Hsz & _ & Hcs & Hnext). fold sh in Hnext.
  destruct (create_new_chunk_run _ t id (number_of b) (enc b) Hwf Ht t eq_refl) as (t2 & Hc2 & Hk2 & Hs2 & Hb2).
  fold (next_chunk (A ++ [sh])) in Hc2, Hk2. rewrite Hnext in Hc2, Hk2.
  exists t, id, t, t2, (cid + 1). rewrite last_id_snoc. split; [|split; [by apply keeps_shelf|split]].
  - intros lock. by apply (current_snapshot_run A sh).
  - intros lock. rewrite (file_in_chunk_new _ _ _ _ _ Hg); [by rewrite Hc2|].
    intros c Hc. rewrite Hl in Hc. injection Hc as <-. by rewrite Hsz.
  - apply (update_snapshot_of A sh _ b (cid + 1) t t2 Hwf Ht Hb); [|done| |done].
    + split; [done|]. split; [unfold sh; rewrite !shelf_blocks_snoc, fmap_app, concat_app; cbn; by rewrite app_nil_r|].
      right. cbn [sh_chunks sh]. rewrite (fmap_app _ _ [(cid + 1, [b])]). split; [|done]. rewrite fmap_app.
      pose proof (wf_chunk_ids _ Hwf) as Hs. rewrite map_app, concat_app in Hs. cbn in Hs. rewrite app_nil_r, fmap_app, app_assoc in Hs.
      apply StronglySorted_succ, StronglySorted_snoc in Hs as [_ Hs]. rewrite <-app_assoc in Hs. apply Forall_app in Hs as [_ Hs].
      intros Hin. eapply Forall_forall in Hs; [|exact Hin]. cbn in Hs. lia.
    + by rewrite Hk2, chunk_rows_snoc, chunk_rows_app, chunk_rows_one.
Qed.

Lemma goes_append :
  shelf_size sh + byte_len (enc b) ≤ max_size → chunk_bytes bs + byte_len (enc b) ≤ max_chunk →
  goes (A ++ [mkShelf id (cs ++ [(cid, bs ++ [b])])]) b t.
Proof.
  intros Hsmall Happ. destruct (chunk_size_of _ _ _ _ _ _ Hwf Ht) as (Hg & Hl & Hgc & Hsz & Hfr & Hcs & _).
  assert (bs ≠ []) as Hbs.
  { apply wf_full, Forall_app in Hwf as [_ [[_ Hf] _]%Forall_cons]. apply Forall_app in Hf as [_ [? _]%Forall_cons]. done. }
  assert (append_to_chunk cid (number_of b) (enc b) t = Some (with_chunks <[cid := chunk_of id (bs ++ [b])]> t)) as Ha.
  { unfold append_to_chunk. rewrite Hgc. cbn. do 3 f_equal. unfold append_chunk_data, chunk_of. cbn.
    rewrite map_app, last_snoc. by destruct bs. }
  exists t, id, t, (with_chunks <[cid := chunk_of id (bs ++ [b])]> t), cid. rewrite last_id_snoc.
  split; [|split; [by apply keeps_shelf|split]].
  - intros lock. by apply (current_snapshot_run A sh).
  - intros lock. apply (file_in_chunk_append _ _ _ _ _ _ _ Hg Hl); [by rewrite Hsz|done].
  - apply (update_snapshot_of A sh _ b cid t _ Hwf Ht Hb); [|done| |done].
    + split; [done|]. split; [by unfold sh; rewrite !shelf_blocks_snoc, app_assoc|].
      left. cbn. rewrite !fmap_app. split; [|done]. apply elem_of_app. right. by left.
    + cbn [with_chunks t_chunks]. rewrite (ar_chunks _ _ Ht). unfold sh. rewrite !chunk_rows_snoc. symmetry.
      by apply list_to_map_set_last.
Qed.

End last_shelf.

(** The manager files the block where [filed] says. *)
Lemma process_block_files A b t lock :
  archive_wf A → archived A t → fresh b A →
  encode (sm_compressor sm) b = Ok (enc b) → enc b ≠ [] → 40 + byte_len (enc b) ≤ max_size →
  ∃ A' t', filed b A A' ∧ archive_wf A' ∧ archived A' t' ∧
    process_block sm info_enabled b (node t lock) = (node t' (filed_lock (last_id A') b lock), Ok tt).
Proof.
  intros Hwf Ht Hb He Hne Hmax.
  enough (∃ A', filed b A A' ∧ goes A' b t)
    as (A' & Hf & t0 & id0 & t1 & t2 & cid & Hcur & Hnew & Hfile & Hs & Hc & Hm).
  { exists A'. eexists. split; [done|]. split; [by eapply filed_wf|].
    split; [|by apply (process_block_run b t lock t0 id0 t1 _ t2 cid)]. by eapply archived_after. }
  destruct A as [|[id chunks] A _] using rev_ind; [eexists; split; [constructor|by apply goes_first]|].
  pose proof Hwf as Hfull%wf_full. apply Forall_app in Hfull as [_ [[Hne' _] _]%Forall_cons]. cbn in Hne'.
  destruct chunks as [|[cid bs] cs _] using rev_ind; [done|]. clear Hne'.
  destruct (decide (max_size < shelf_size (mkShelf id (cs ++ [(cid, bs)])) + byte_len (enc b))) as [Hbig|Hsmall%Z.nlt_ge].
  { eexists. split; [by apply filed_shelf|by apply goes_shelf]. }
  destruct (decide (max_chunk < chunk_bytes bs + byte_len (enc b))) as [Hnew|Happ%Z.nlt_ge].
  - eexists. split; [by apply filed_chunk|by apply goes_chunk].
  - eexists. split; [by apply filed_append|by apply goes_append].
Qed.

(** ** Retention *)

(** The current snapshot is the one that ends with the block of the lock. *)
Definition current_height sh : Z := ss_height (snapshot_of sh).

Lemma height_in_shelf sh : full_shelf sh → ∃ b, b ∈ shelf_blocks sh ∧ current_height sh = number_of b.
Proof.
  intros Hf%full_shelf_blocks. unfold current_height. cbn.
  destruct (last (shelf_blocks sh)) as [b|] eqn:Hl; [|by apply last_None in Hl].
  exists b. split; [by apply last_Some_elem_of|done].
Qed.

Lemma heights_sorted A : archive_wf A → StronglySorted Z.lt (map current_height A).
Proof.
  induction A as [|sh A IH]; [constructor|]. change (sh :: A) with ([sh] ++ A).
  intros Hwf. pose proof (wf_parts _ _ Hwf) as [_ HA]. cbn [map app]. constructor; [by apply IH|].
  pose proof (wf_numbers _ Hwf) as Hn. rewrite blocks_of_app, blocks_of_one, map_app in Hn.
  apply StronglySorted_app_parts in Hn as (_ & _ & Hn). apply wf_full, Forall_app in Hwf as [[Hsh _]%Forall_cons HF].
  apply Forall_forall. intros h [sh' [-> Hsh']]%list_elem_of_fmap_1.
  destruct (height_in_shelf sh Hsh) as (b & Hb & ->).
  eapply Forall_forall in HF; [|exact Hsh']. destruct (height_in_shelf sh' HF) as (b' & Hb' & ->).
  apply Hn; apply (list_elem_of_fmap_2 number_of); [done|]. apply elem_of_concat. exists (shelf_blocks sh').
  split; [done|]. by apply (list_elem_of_fmap_2 shelf_blocks).
Qed.

Lemma remove_oldest_run sh A t :
  archive_wf (sh :: A) → archived (sh :: A) t →
  ∃ t', remove_oldest_snapshot t = Some t' ∧ archived A t'.
Proof.
  intros Hwf Ht. unfold remove_oldest_snapshot, get_first_snapshot_height.
  rewrite (ar_snapshots _ _ Ht), table_first_ascending by by apply wf_snapshot_rows.
  cbn [snapshot_rows map head fmap option_fmap option_map id_and_height fst].
  assert (sh ∈ sh :: A) as Hin by by left.
  rewrite (archived_snapshot _ _ _ Hwf Ht Hin). cbn [mbind option_bind].
  pose proof (wf_full _ Hwf) as [[Hne _] HF]%Forall_cons.
  change (ss_chunk_ids (snapshot_of sh)) with (sh_chunks sh).*1.
  destruct (sh_chunks sh).*1 as [|c cs] eqn:Hcs; [by destruct (sh_chunks sh)|].
  destruct (last (c :: cs)) as [z|] eqn:Hz; [|by apply last_None in Hz].
  eexists. split; [done|]. split.
  - cbn. rewrite (ar_snapshots _ _ Ht). apply (remove_first [(sh_id sh, snapshot_of sh)] (snapshot_rows A)); [|done..].
    apply (wf_snapshot_rows _ Hwf).
  - cbn [delete_chunks_in_blocks with_chunk_blocks remove_chunks with_chunks remove_snapshots with_snapshots t_chunks].
    rewrite (ar_chunks _ _ Ht). change (sh :: A) with ([sh] ++ A). rewrite chunk_rows_app, chunk_rows_one.
    apply (remove_first (shelf_rows sh) (chunk_rows A)); [|rewrite shelf_rows_ids, Hcs; done..].
    pose proof (wf_chunk_rows _ Hwf) as Hc. change (sh :: A) with ([sh] ++ A) in Hc. by rewrite chunk_rows_app, chunk_rows_one in Hc.
  - intros sh' b Hsh' Hb. apply (ar_blocks _ _ Ht); [by right|done].
Qed.

(** The policy takes at most the first snapshot, when there are more than are
    to be kept, and never the current one. *)
Lemma retention_run A t lock :
  archive_wf A → archived A t → lk_is_syncing_history lock = false →
  ∃ A0 A' t', A = A0 ++ A' ∧ archived A' t' ∧ apply_retention_policy sm (node t lock) = (node t' lock, Ok tt) ∧
    (A0 = [] ∨ ∃ sh, A0 = [sh] ∧ sm_snapshots_to_keep sm < Z.of_nat (length A) ∧ current_height sh ≠ lk_block_id lock).
Proof.
  intros Hwf Ht Hlock. unfold apply_retention_policy. erewrite bindM_run; [|done]. cbn [sn_lock]. rewrite Hlock.
  rewrite (bindM_run _ _ _ _ _ (stored_read_run _ _ _)).
  assert (get_snapshots_count t = Z.of_nat (length A)) as ->.
  { unfold get_snapshots_count. rewrite (ar_snapshots _ _ Ht), ascending_iter by by apply wf_snapshot_rows.
    unfold snapshot_rows. by rewrite length_map. }
  destruct (sm_snapshots_to_keep sm <? Z.of_nat (length A)) eqn:Hk; cbn [negb]; [|by exists [], A, t; auto].
  apply Z.ltb_lt in Hk. rewrite (bindM_run _ _ _ _ _ (stored_read_run _ _ _)).
  unfold get_first_snapshot_height. rewrite (ar_snapshots _ _ Ht), table_first_ascending by by apply wf_snapshot_rows.
  destruct A as [|sh A]; [by exists [], [], t; auto|].
  cbn [snapshot_rows map head fmap option_fmap option_map id_and_height fst snd]. erewrite bindM_run; [|done]. cbn [sn_lock].
  destruct (lk_block_id lock =? ss_height (snapshot_of sh)) eqn:Hh; [by exists [], (sh :: A), t; auto|].
  apply Z.eqb_neq in Hh. destruct (remove_oldest_run sh A t Hwf Ht) as (t' & Hr & Ht').
  exists [sh], A, t'. split; [done|]. split; [done|]. split; [by apply stored_try_run|].
  right. exists sh. split; [done|]. split; [done|]. unfold current_height. congruence.
Qed.

(** ** Serving *)

Lemma sorted_snapshots A t :
  archive_wf A → archived A t → get_snapshots t = map snapshot_of A.
Proof.
  intros Hwf Ht. unfold get_snapshots. rewrite (ar_snapshots _ _ Ht), ascending_iter by by apply wf_snapshot_rows.
  assert ((snapshot_rows A).*2 = map snapshot_of A) as ->.
  { unfold snapshot_rows. clear. induction A as [|sh A IH]; [done|]. cbn [map]. rewrite fmap_cons. by f_equal. }
  apply sort_by_ascending. rewrite map_map. by apply heights_sorted.
Qed.

(** The node has filed the archive. *)
Record serves A (s : SnapshotNode) : Prop := {
  sv_wf : archive_wf A;
  sv_tables : archived A (sn_tables s);
  sv_answers : sn_faults s = [];
  sv_live : lk_is_syncing_history (sn_lock s) = false;
  sv_lock : ∀ b, last (blocks_of A) = Some b → lk_block_id (sn_lock s) = number_of b }.

Lemma serves_node A s : serves A s → s = node (sn_tables s) (sn_lock s).
Proof. intros Hs. destruct s. pose proof (sv_answers _ _ Hs) as Hf. cbn in *. by subst. Qed.

Lemma serves_current A sh s : serves (A ++ [sh]) s → lk_block_id (sn_lock s) = current_height sh.
Proof.
  intros Hs. pose proof (wf_full _ (sv_wf _ _ Hs)) as [_ [Hf%full_shelf_blocks _]%Forall_cons]%Forall_app.
  pose proof (sv_lock _ _ Hs) as Hl. rewrite blocks_of_app, blocks_of_one in Hl. unfold current_height. cbn.
  destruct (shelf_blocks sh) as [|b bs _] using rev_ind; [done|]. rewrite app_assoc, !last_snoc in *. by apply Hl.
Qed.

Lemma earlier_heights A sh x : archive_wf (A ++ [sh]) → x ∈ A → current_height x < current_height sh.
Proof.
  intros Hwf%heights_sorted Hx. rewrite map_app in Hwf. apply StronglySorted_snoc in Hwf as [_ Hf].
  eapply Forall_forall in Hf; [exact Hf|]. by apply (list_elem_of_fmap_2 current_height).
Qed.

Lemma list_snapshots_run A sh s :
  serves (A ++ [sh]) s → list_snapshots (sm_snapshot_message_format sm) s = (s, Ok (map (λ x, listed (sm_snapshot_message_format sm) (snapshot_of x)) A)).
Proof.
  intros Hs. rewrite (serves_node _ _ Hs). pose proof (sv_wf _ _ Hs) as Hwf.
  unfold list_snapshots. erewrite bindM_run; [|unfold okM; by rewrite stored_read_run].
  erewrite bindM_run; [|done]. cbn [sn_lock]. rewrite (sv_live _ _ Hs), (sorted_snapshots _ _ Hwf (sv_tables _ _ Hs)).
  unfold ret. do 2 f_equal. rewrite map_app, filter_app, (filter_all _ (map _ A)), filter_none, app_nil_r, map_map; [done| |].
  - intros x ->%list_elem_of_singleton. rewrite (serves_current _ _ _ Hs). by intros [].
  - intros x [y [-> Hy]]%list_elem_of_fmap_1. rewrite (serves_current _ _ _ Hs).
    pose proof (earlier_heights _ _ _ Hwf Hy). unfold current_height in *. lia.
Qed.

Lemma list_snapshots_empty s : serves [] s → list_snapshots (sm_snapshot_message_format sm) s = (s, Ok []).
Proof.
  intros Hs. rewrite (serves_node _ _ Hs). unfold list_snapshots. erewrite bindM_run; [|unfold okM; by rewrite stored_read_run].
  erewrite bindM_run; [|done]. cbn [sn_lock]. rewrite (sv_live _ _ Hs), (sorted_snapshots [] _ (sv_wf _ _ Hs) (sv_tables _ _ Hs)).
  done.
Qed.

(** What the parser writes, it reads back. *)
Class LosslessParser : Prop := {
  encodes_block b : encode (sm_compressor sm) b = Ok (enc b);
  decodes_block b : decode (sm_compressor sm) (enc b) = Ok b;
  encodes_chunk (bs : list B) : ∃ d, encode (sm_compressor sm) bs = Ok d ∧ decode (sm_compressor sm) d = Ok bs }.

Context `{!LosslessParser}.

Lemma chunk_answer_run id bs :
  encode (sm_compressor sm) bs = Ok (chunk_answer (B:=B) (sm_compressor sm) (chunk_of id bs)) ∧
  decode (sm_compressor sm) (chunk_answer (B:=B) (sm_compressor sm) (chunk_of id bs)) = Ok bs.
Proof.
  unfold chunk_answer. cbn [chunk_of sc_chunk_data].
  assert (omap (λ d, ok (decode (sm_compressor sm) d)) (map enc bs) = bs) as ->.
  { induction bs as [|b bs IH]; [done|]. cbn. rewrite decodes_block. cbn. by f_equal. }
  destruct (encodes_chunk bs) as (d & He & Hd). by rewrite He.
Qed.

Lemma load_chunk_run A sh s x (i : nat) c :
  serves (A ++ [sh]) s → x ∈ A → sh_chunks x !! i = Some c →
  ∃ d, load_snapshot_chunk (B:=B) (sm_compressor sm) (current_height x) (Z.of_nat i) s = (s, Ok d) ∧
    decode (sm_compressor sm) d = Ok c.2.
Proof.
  intros Hs Hx Hi. rewrite (serves_node _ _ Hs). pose proof (sv_wf _ _ Hs) as Hwf. pose proof (sv_tables _ _ Hs) as Ht.
  assert (x ∈ A ++ [sh]) as Hin by (apply elem_of_app; by left).
  exists (chunk_answer (B:=B) (sm_compressor sm) (chunk_of (sh_id x) c.2)). split; [|apply chunk_answer_run].
  unfold load_snapshot_chunk. erewrite bindM_run; [|done]. cbn [sn_lock]. rewrite (sv_live _ _ Hs), (serves_current _ _ _ Hs).
  rewrite (proj2 (Z.eqb_neq _ _)) by (pose proof (earlier_heights _ _ _ Hwf Hx); lia).
  erewrite bindM_run; [|unfold okM; by rewrite stored_read_run].
  eapply Forall_forall in Hin as Hf; [|exact (wf_full _ Hwf)]. destruct (height_in_shelf x Hf) as (b & Hb & Hh).
  unfold get_snapshot_id_by_block_id. rewrite Hh, (ar_blocks _ _ Ht x b Hin Hb).
  erewrite bindM_run; [|unfold okM; by rewrite stored_read_run, (archived_snapshot _ _ _ Hwf Ht Hin)].
  cbv iota. assert (ss_chunk_ids (snapshot_of x) !! Z.to_nat (Z.of_nat i) = Some c.1) as ->.
  { cbn. by rewrite Nat2Z.id, list_lookup_fmap, Hi. }
  erewrite bindM_run; [|unfold okM; rewrite stored_read_run, (archived_chunk _ _ x c Hwf Ht Hin); [done|]]; [done|].
  by eapply list_elem_of_lookup_2.
Qed.

(** ** Running the manager *)

Inductive SnapshotOp := FileBlock (b : B) | Retain.

Definition run_op (op : SnapshotOp) : M SnapshotNode SnapshotManagerError unit :=
  match op with FileBlock b => process_block sm info_enabled b | Retain => apply_retention_policy sm end.

Definition run_ops (ops : list SnapshotOp) : M SnapshotNode SnapshotManagerError unit := forM ops run_op.

Definition filed_by (ops : list SnapshotOp) : list B :=
  omap (λ op, match op with FileBlock b => Some b | Retain => None end) ops.

Definition fits_snapshot b : Prop := enc b ≠ [] ∧ 40 + byte_len (enc b) ≤ max_size.

Lemma shelf_size_snoc id cs cid bs :
  shelf_size (mkShelf id (cs ++ [(cid, bs)])) =
  shelf_size (mkShelf id cs) + 8 * Z.of_nat (length bs) + 8 + chunk_bytes bs.
Proof.
  unfold shelf_size. rewrite shelf_blocks_snoc. cbn [sh_chunks]. unfold shelf_blocks. cbn [sh_chunks].
  rewrite !length_app, map_app, sumZ_app. cbn. lia.
Qed.

Lemma chunk_bytes_snoc bs b : chunk_bytes (bs ++ [b]) = chunk_bytes bs + byte_len (enc b).
Proof. unfold chunk_bytes. rewrite map_app, sumZ_app. cbn. lia. Qed.

(** A snapshot is larger than the limit by the ids of one block and one chunk
    at most. *)
Lemma filed_sizes b A A' :
  filed b A A' → fits_snapshot b → Forall (λ sh, shelf_size sh ≤ max_size + 24) A →
  Forall (λ sh, shelf_size sh ≤ max_size + 24) A'.
Proof.
  intros Hf [_ Hmax] HA. assert (∀ id cid, shelf_size (mkShelf id [(cid, [b])]) = 64 + byte_len (enc b)) as Hone.
  { intros id cid. etrans; [apply (shelf_size_snoc id [] cid [b])|]. unfold chunk_bytes, shelf_size. cbn. lia. }
  assert (chunk_bytes [b] = 8 + byte_len (enc b)) as Hb by (unfold chunk_bytes; cbn; lia).
  destruct Hf as [|A id cs cid bs _|A id cs cid bs Hs _|A id cs cid bs Hs _].
  - constructor; [|done]. rewrite Hone. lia.
  - apply Forall_app. split; [done|]. constructor; [|done]. rewrite Hone. lia.
  - apply Forall_app in HA as [HA _]. apply Forall_app. split; [done|]. constructor; [|done].
    rewrite (shelf_size_snoc _ (_ ++ _)), Hb. cbn [length]. lia.
  - apply Forall_app in HA as [HA _]. apply Forall_app. split; [done|]. constructor; [|done].
    rewrite shelf_size_snoc in Hs |- *. rewrite chunk_bytes_snoc, length_app. cbn [length]. lia.
Qed.

Lemma chunks_of_size sh : 16 * Z.of_nat (length (sh_chunks sh)) + 40 ≤ shelf_size sh.
Proof.
  unfold shelf_size. enough (8 * Z.of_nat (length (sh_chunks sh)) ≤ sumZ (map (λ c, chunk_bytes c.2) (sh_chunks sh))) by lia.
  induction (sh_chunks sh) as [|[cid bs] cs IH]; [done|]. cbn [length map snd sumZ foldr]. unfold sumZ in IH. unfold chunk_bytes at 1.
  assert (0 ≤ sumZ (map (λ b, byte_len (enc b)) bs)); [|lia].
  apply sumZ_nonneg, Forall_forall. intros x [b [-> _]]%list_elem_of_fmap_1. unfold byte_len. lia.
Qed.

(** What holds of the archive when the blocks [F] have been filed. *)
Record keeps_of (F : list B) A s : Prop := {
  ko_serves : serves A s;
  ko_suffix : blocks_of A `suffix_of` F;
  ko_kept : blocks_of A = F ∨ sm_snapshots_to_keep sm ≤ Z.of_nat (length A);
  ko_current : F ≠ [] → A ≠ [];
  ko_sizes : Forall (λ sh, shelf_size sh ≤ max_size + 24) A }.

Lemma keeps_file F A s b :
  keeps_of F A s → fits_snapshot b → (∀ b', b' ∈ F → number_of b' < number_of b) →
  ∃ A' s', process_block sm info_enabled b s = (s', Ok tt) ∧ keeps_of (F ++ [b]) A' s'.
Proof.
  intros [Hs [F0 HF] Hk Hc Hz] Hfit Hb.
  assert (fresh b A) as Hfr by (intros b' Hb'; apply Hb; rewrite HF, elem_of_app; auto).
  destruct (process_block_files A b (sn_tables s) (sn_lock s) (sv_wf _ _ Hs) (sv_tables _ _ Hs) Hfr (encodes_block b)
    (proj1 Hfit) (proj2 Hfit)) as (A' & t' & Hf & Hwf' & Ht' & Hrun).
  rewrite <-(serves_node _ _ Hs) in Hrun. pose proof (filed_blocks _ _ _ Hf) as Hbl.
  exists A', (node t' (filed_lock (last_id A') b (sn_lock s))). split; [done|]. split.
  - split; [done..|apply (sv_live _ _ Hs)|]. intros b'. rewrite Hbl, last_snoc. by intros [= <-].
  - exists F0. by rewrite Hbl, HF, app_assoc.
  - rewrite Hbl. destruct Hk as [<-|Hk]; [by left|]. right. etrans; [exact Hk|].
    destruct Hf; rewrite ?length_app; cbn; lia.
  - intros _ ->. by destruct (blocks_of A).
  - by eapply filed_sizes.
Qed.

Lemma keeps_retain F A s :
  keeps_of F A s → ∃ A' s', apply_retention_policy sm s = (s', Ok tt) ∧ keeps_of F A' s'.
Proof.
  intros [Hs [F0 HF] Hk Hc Hz].
  destruct (retention_run A (sn_tables s) (sn_lock s) (sv_wf _ _ Hs) (sv_tables _ _ Hs) (sv_live _ _ Hs))
    as (A0 & A' & t' & -> & Ht' & Hrun & Hwhich).
  rewrite <-(serves_node _ _ Hs) in Hrun. exists A', (node t' (sn_lock s)). split; [done|].
  pose proof (wf_parts _ _ (sv_wf _ _ Hs)) as [_ Hwf']. apply Forall_app in Hz as [_ Hz].
  rewrite blocks_of_app in HF.
  assert (A0 ≠ [] → A' ≠ []) as Hmore.
  { destruct Hwhich as [->|(sh & -> & _ & Hh)]; [done|]. intros _ ->. apply Hh. symmetry. by apply (serves_current []). }
  split; [|by exists (F0 ++ blocks_of A0); rewrite <-app_assoc| | |done].
  - split; [done..|apply (sv_live _ _ Hs)|]. intros b Hb. apply (sv_lock _ _ Hs). rewrite blocks_of_app.
    by rewrite last_app, Hb.
  - destruct Hwhich as [->|(sh & -> & Hlen & _)]; [done|]. right. cbn in Hlen. lia.
  - intros HFne HA'. destruct A0 as [|sh A0]; [by apply (Hc HFne)|by apply Hmore].
Qed.

Lemma keeps_run ops F A s :
  keeps_of F A s → Forall fits_snapshot (filed_by ops) → StronglySorted Z.lt (map number_of (F ++ filed_by ops)) →
  ∃ A' s', run_ops ops s = (s', Ok tt) ∧ keeps_of (F ++ filed_by ops) A' s'.
Proof.
  revert F A s. induction ops as [|op ops IH]; intros F A s Hk Hfit Hs.
  { exists A, s. split; [done|]. by rewrite app_nil_r. }
  unfold run_ops. cbn [forM]. destruct op as [b|]; cbn in Hfit, Hs |- *.
  - apply Forall_cons in Hfit as [Hb Hfit]. pose proof Hs as Hs'. rewrite map_app in Hs.
    apply StronglySorted_app_parts in Hs as (_ & _ & Hlt).
    destruct (keeps_file F A s b Hk Hb) as (A1 & s1 & Hrun & Hk1).
    { intros b' Hb'. apply Hlt; [by apply (list_elem_of_fmap_2 number_of)|by left]. }
    rewrite (bindM_run _ _ _ _ _ Hrun). destruct (IH _ _ _ Hk1 Hfit) as (A2 & s2 & Hrun2 & Hk2).
    { by rewrite <-app_assoc. }
    exists A2, s2. split; [done|]. by rewrite <-app_assoc in Hk2.
  - destruct (keeps_retain F A s Hk) as (A1 & s1 & Hrun & Hk1). rewrite (bindM_run _ _ _ _ _ Hrun). by eapply IH.
Qed.

Definition SnapshotNode_empty : SnapshotNode := node SnapshotTables_empty (mkStateLock 0 0 false).

Lemma keeps_empty : keeps_of [] [] SnapshotNode_empty.
Proof.
  split; [|done|by left|done|constructor]. split; [split; constructor| |done|done|done].
  split; [done|done|]. intros sh b Hsh. by apply elem_of_nil in Hsh.
Qed.

(** What CometBFT can have of a snapshot: its height is the number of its last
    block, and every chunk of it can be loaded and read. *)
Definition servable (s : SnapshotNode) (l : ListedSnapshot) (chunks : list (list B)) : Prop :=
  number_of <$> last (concat chunks) = Some (ls_height l) ∧ ls_chunks l = Z.of_nat (length chunks) ∧
  ∀ i bs, chunks !! i = Some bs → bs ≠ [] ∧
    ∃ d, load_snapshot_chunk (B:=B) (sm_compressor sm) (ls_height l) (Z.of_nat i) s = (s, Ok d) ∧ decode (sm_compressor sm) d = Ok bs.

Lemma shelf_servable A sh s x :
  serves (A ++ [sh]) s → x ∈ A → shelf_size x ≤ max_size + 24 → max_size < 2 ^ 32 →
  servable s (listed (sm_snapshot_message_format sm) (snapshot_of x)) (sh_chunks x).*2.
Proof.
  intros Hs Hx Hsz Hmax. pose proof (wf_full _ (sv_wf _ _ Hs)) as HF. apply Forall_app in HF as [HF _].
  eapply Forall_forall in HF; [|exact Hx]. split; [|split].
  - cbn. fold (shelf_blocks x). pose proof (full_shelf_blocks _ HF) as Hne.
    destruct (last (shelf_blocks x)) as [b|] eqn:Hl; [done|]. by apply last_None in Hl.
  - cbn. rewrite !length_fmap. apply Z.mod_small. pose proof (chunks_of_size x). lia.
  - intros i bs Hi. rewrite list_lookup_fmap in Hi. destruct (sh_chunks x !! i) as [c|] eqn:Hc; [|done].
    injection Hi as <-. split; [|by eapply load_chunk_run]. destruct HF as [_ HF].
    by eapply Forall_lookup in HF; [|exact Hc].
Qed.

(** C40.  A node that starts without snapshots and files blocks, applying the
    retention policy whenever it likes, can serve them, if the blocks come in
    ascending order of their numbers, the parser decodes what it encodes, each
    block encodes to at least one byte and to at most 40 bytes less than the
    maximal size of a snapshot, which is below 2^32, the storage answers, and no
    history is being synced.  Then every call succeeds and the snapshots that
    [list_snapshots] reports are consecutive, each ends at the height it is
    listed with, and every one of its chunks loads and decodes to the blocks
    that were filed; together with the current snapshot they are a final part
    of the chain, the whole of it unless as many snapshots as are to be kept
    remain. *)
Theorem filed_blocks_are_served ops :
  Forall fits_snapshot (filed_by ops) → StronglySorted Z.lt (map number_of (filed_by ops)) → max_size < 2 ^ 32 →
  ∃ s listing parts current,
    run_ops ops SnapshotNode_empty = (s, Ok tt) ∧ list_snapshots (sm_snapshot_message_format sm) s = (s, Ok listing) ∧
    Forall2 (servable s) listing parts ∧
    concat (map (@concat B) parts) ++ current `suffix_of` filed_by ops ∧
    (concat (map (@concat B) parts) ++ current = filed_by ops ∨
     sm_snapshots_to_keep sm ≤ Z.of_nat (length listing) + 1) ∧
    (filed_by ops ≠ [] → current ≠ []).
Proof.
  intros Hfit Hs Hmax. destruct (keeps_run ops [] [] _ keeps_empty Hfit Hs) as (A & s & Hrun & [Hsv Hsuf Hk Hc Hz]).
  cbn [app] in *. destruct A as [|sh A _] using rev_ind.
  { exists s, [], [], []. split; [done|]. split; [by apply list_snapshots_empty|]. split; [constructor|].
    split; [done|]. split; [|intros H'; by destruct (Hc H')]. destruct Hk as [Hk|Hk]; [by left|right; cbn in *; lia]. }
  apply Forall_app in Hz as [Hz _].
  exists s, (map (λ x, listed (sm_snapshot_message_format sm) (snapshot_of x)) A), (map (λ x, (sh_chunks x).*2) A), (shelf_blocks sh).
  split; [done|]. split; [by apply (list_snapshots_run A sh)|]. split; [|split; [|split]].
  - apply Forall2_fmap_l, Forall2_fmap_r, Forall_Forall2_diag, Forall_forall. intros x Hx.
    apply (shelf_servable A sh); [done..| |done]. by eapply Forall_forall in Hz; [|exact Hx].
  - rewrite map_map. fold (blocks_of A). by rewrite blocks_of_app, blocks_of_one in Hsuf.
  - rewrite map_map. fold (blocks_of A). rewrite blocks_of_app, blocks_of_one in Hk.
    destruct Hk as [Hk|Hk]; [by left|right]. rewrite length_map. rewrite length_app in Hk. cbn in Hk. lia.
  - intros _. pose proof (wf_full _ (sv_wf _ _ Hsv)) as [_ [Hf _]%Forall_cons]%Forall_app.
    by apply full_shelf_blocks.
Qed.

End archive.

(** ** A concrete node *)

Section example.

(** Blocks are their numbers; a block takes 900 bytes. *)
#[local] Instance number_blocks : SnapshotBlocks Z := {| number_of n := n; hash_slow n := [n] |}.

#[local] Instance number_serde : SerdeLib Z :=
  {| to_format _ n := Some (replicate 900 n); from_format _ d := head d |}.

#[local] Instance numbers_serde : SerdeLib (list Z) := {| to_format _ ns := Some ns; from_format _ d := Some d |}.

Definition example_manager : SnapshotManager := SnapshotManager_new default_parser 2 SNAPSHOT_MESSAGE_FORMAT_TEST true true.

#[local] Instance number_parser : LosslessParser example_manager (replicate 900).
Proof. split; [done..|]. intros bs. by exists bs. Qed.

(** Sixteen blocks, with the policy applied after every one *)
Definition example_ops : list (SnapshotOp (B:=Z)) := concat (map (λ n, [FileBlock n; Retain]) (seqZ 1 16)).

Lemma filed_blocks_are_served_witness :
  ∃ s listing parts current,
    run_ops example_manager false example_ops SnapshotNode_empty = (s, Ok tt) ∧
    list_snapshots (sm_snapshot_message_format example_manager) s = (s, Ok listing) ∧
    Forall2 (servable example_manager s) listing parts ∧
    concat (map (@concat Z) parts) ++ current `suffix_of` filed_by example_ops ∧
    (concat (map (@concat Z) parts) ++ current = filed_by example_ops ∨
     sm_snapshots_to_keep example_manager ≤ Z.of_nat (length listing) + 1) ∧
    (filed_by example_ops ≠ [] → current ≠ []).
Proof.
  apply (filed_blocks_are_served example_manager false (replicate 900) example_ops).
  - vm_compute. repeat constructor; vm_compute; done.
  - vm_compute. repeat constructor.
  - vm_compute. done.
Defined.

Definition example_node : SnapshotNode := (run_ops example_manager false example_ops SnapshotNode_empty).1.

(** Five blocks to a snapshot: the first and the second are gone, the third is
    served and the fourth is the current one. *)
Example example_listing :
  match (list_snapshots (sm_snapshot_message_format example_manager) example_node).2 with Ok l => map ls_height l | _ => [] end = [15].
Proof. vm_compute. done. Qed.

Example example_chunk : (load_snapshot_chunk (B:=Z) (sm_compressor example_manager) 15 1 example_node).2 = Ok [12].
Proof. vm_compute. done. Qed.

(** The blocks of a removed snapshot keep their mapping. *)
Example removed_blocks_stay_mapped :
  t_block_snapshots (sn_tables example_node) !! 3 = Some 1 ∧ t_snapshots (sn_tables example_node) !! 1 = None.
Proof. split; vm_compute; done. Qed.

(** A block with the number of the last one is filed again. *)
Example same_height_is_filed_twice :
  let s := (run_ops example_manager false [FileBlock 1; FileBlock 1] SnapshotNode_empty).1 in
  sc_starting_block_number <$> (t_chunks (sn_tables s) !! 2) = Some 1.
Proof. vm_compute. done. Qed.

(** One block after the last snapshot is not counted as missing. *)
Example one_block_is_not_missing :
  (run example_manager (Some 17) example_node).1 = example_node ∧
  lk_is_syncing_history (sn_lock (run example_manager (Some 18) example_node).1) = true.
Proof. split; vm_compute; done. Qed.

End example.

(** *** A first block above the limit

    When the first block that is filed does not fit into a snapshot, two
    snapshots are made for it and the first one stays empty.  It is listed as
    soon as there is a later one, with the height of the block and no chunk; the
    block is in the second. *)
Section oversized.

#[local] Instance large_blocks : SnapshotBlocks Z := {| number_of n := n; hash_slow n := [n] |}.

#[local] Instance large_serde : SerdeLib Z := {| to_format _ n := Some (replicate 6000 n); from_format _ d := head d |}.

#[local] Instance large_list_serde : SerdeLib (list Z) := {| to_format _ ns := Some ns; from_format _ d := Some d |}.

Definition large_node : SnapshotNode :=
  (run_ops example_manager false [FileBlock 1; FileBlock 2] SnapshotNode_empty).1.

Example first_large_block_leaves_empty_snapshot :
  match (list_snapshots (sm_snapshot_message_format example_manager) large_node).2 with
  | Ok l => map (λ x, (ls_height x, ls_chunks x)) l
  | _ => []
  end = [(1, 0); (1, 1)].
Proof. vm_compute. done. Qed.

End oversized.

(** ** History that is synced for ever *)

Section history.
Context {B : Type} `{!SnapshotBlocks B, !SerdeLib B, !SerdeLib (list B), !BitcoinLib}.
Context (sm : SnapshotManager) (info_enabled : bool).

Definition syncing (s : SnapshotNode) : bool := lk_is_syncing_history (sn_lock s).

Lemma stored_call_lock {A} (f : bool → SnapshotTables → option (SnapshotTables * A)) :
  respects (keeps sn_lock) (stored_call f).
Proof.
  intros s. unfold stored_call, keeps. destruct (head (sn_faults s)) as [[]|]; try done; by destruct (f _ _) as [[]|].
Qed.

Lemma stored_read_lock {A} (f : SnapshotTables → A) : respects (keeps sn_lock) (stored_read f).
Proof. intros s. unfold stored_read. destruct (head (sn_faults s)) as [[]|]; try done; apply stored_call_lock. Qed.

Lemma stored_write_lock {A} (f : SnapshotTables → SnapshotTables * A) : respects (keeps sn_lock) (stored_write f).
Proof. intros s. unfold stored_write. destruct (head (sn_faults s)) as [[]|]; try done; apply stored_call_lock. Qed.

Lemma stored_try_lock f : respects (keeps sn_lock) (stored_try f).
Proof. intros s. unfold stored_try. destruct (head (sn_faults s)) as [[]|]; try done; apply stored_call_lock. Qed.

Lemma keeps_lock_syncing {A} (m : M SnapshotNode SnapshotManagerError A) :
  respects (keeps sn_lock) m → respects (keeps syncing) m.
Proof. intros Hm s. unfold keeps, syncing. by rewrite (Hm s). Qed.

#[local] Hint Resolve stored_call_lock stored_read_lock stored_write_lock stored_try_lock : monad.
#[local] Hint Extern 1 (respects (keeps syncing) (stored_call _)) => apply keeps_lock_syncing : monad.
#[local] Hint Extern 1 (respects (keeps syncing) (stored_read _)) => apply keeps_lock_syncing : monad.
#[local] Hint Extern 1 (respects (keeps syncing) (stored_write _)) => apply keeps_lock_syncing : monad.
#[local] Hint Extern 1 (respects (keeps syncing) (stored_try _)) => apply keeps_lock_syncing : monad.
#[local] Hint Extern 1 (respects (keeps syncing) (seek_read _)) => apply keeps_lock_syncing; unfold seek_read : monad.
#[local] Hint Extern 1 (respects (keeps syncing) (modify _)) => (by apply respects_modify) : monad.

Lemma current_snapshot_syncing (b : B) : respects (keeps syncing) (current_snapshot b).
Proof.
  unfold current_snapshot. apply respects_bind; [apply _|eauto with monad|]. intros [[id h]|]; [|unfold new_snapshot; eauto with monad].
  apply respects_get. intros s. by case_match.
Qed.

Lemma file_in_chunk_syncing id (b : B) d : respects (keeps syncing) (file_in_chunk sm id b d).
Proof.
  unfold file_in_chunk. apply respects_bind; [apply _|eauto with monad|]. intros o.
  apply respects_bind; [apply _|eauto with monad typeclass_instances|]. intros s. case_match; [|eauto with monad].
  apply respects_bind; [apply _|eauto with monad|]. intros size. case_match; eauto with monad typeclass_instances.
Qed.

Lemma run_op_syncing (op : SnapshotOp (B:=B)) : respects (keeps syncing) (run_op sm info_enabled op).
Proof.
  destruct op as [b|]; cbn [run_op].
  - unfold process_block. apply respects_bind; [apply _|eauto with monad typeclass_instances|]. intros d.
    case_match; [eauto with monad typeclass_instances|].
    apply respects_bind; [apply _|apply current_snapshot_syncing|]. intros id.
    apply respects_bind; [apply _|eauto with monad|]. intros size.
    apply respects_bind; [apply _|case_match; unfold new_snapshot; eauto with monad typeclass_instances|]. intros id'.
    apply respects_bind; [apply _|eauto 8 with monad typeclass_instances|]. intros _.
    apply respects_bind; [apply _|eauto with monad|]. intros _.
    apply respects_bind; [apply _|apply file_in_chunk_syncing|]. eauto with monad typeclass_instances.
  - unfold apply_retention_policy. apply respects_get. intros s. case_match; [done|].
    apply bind_rel; [apply _|apply keeps_lock_syncing, stored_read_lock|]. intros s1 count _. case_match; [done|].
    apply bind_rel; [apply _|apply keeps_lock_syncing, stored_read_lock|]. intros s2 [[id h]|] _; [|done].
    cbn. unfold bindM. cbn. case_match; [done|]. apply keeps_lock_syncing, stored_try_lock.
Qed.

(** A node that starts with a history to sync answers CometBFT with nothing,
    whatever it files later: nothing tells it that the history is complete. *)
Theorem historical_sync_serves_nothing (ops : list (SnapshotOp (B:=B))) height s s1 :
  sm_enable_state_sync sm = true → sm_enable_historical_sync sm = true →
  run sm (Some height) s = (s1, Ok tt) → sn_faults s = [] →
  default 0 (snd <$> get_last_snapshot_height (sn_tables s)) + 1 < height →
  let s2 := (run_ops sm info_enabled ops s1).1 in
  (list_snapshots (sm_snapshot_message_format sm) s2).2 = Ok [] ∧ ∀ h i, (load_snapshot_chunk (B:=B) (sm_compressor sm) h i s2).2 = Ok [].
Proof.
  intros Hs Hh Hrun Hf Hgap s2. assert (syncing s1 = true) as H1.
  { destruct s as [t f l]. cbn in Hf, Hgap. subst f. revert Hrun. unfold run. rewrite Hs. cbn -[Z.add get_last_snapshot_height].
    unfold bindM, stored_read, stored_call. cbn -[Z.add get_last_snapshot_height]. unfold saturating_sub.
    rewrite (proj2 (Z.eqb_neq _ _)) by lia. rewrite Hh. by intros [= <-]. }
  assert (syncing s2 = true) as H2.
  { rewrite <-H1. apply (respects_forM (keeps syncing)). intros op _. apply run_op_syncing. }
  unfold syncing in H2. split.
  - unfold list_snapshots. unfold bindM at 1. destruct (okM _ s2) as [s3 o] eqn:Ho.
    assert (sn_lock s3 = sn_lock s2) as Hl.
    { pose proof (respects_okM (E':=Empty_set) _ _ (stored_read_lock get_snapshots) s2) as Hk. unfold keeps in Hk. by rewrite Ho in Hk. }
    unfold okM in Ho. destruct (stored_read get_snapshots s2) as [s4 [l|e|]] eqn:Hr; injection Ho as <- <-.
    + unfold bindM, get. by rewrite Hl, H2.
    + done.
    + revert Hr. unfold stored_read, stored_call. by destruct (head (sn_faults s2)) as [[]|].
  - intros h i. unfold load_snapshot_chunk, bindM, get. by rewrite H2.
Qed.

End history.
