(* ===== verification/NodeEvm.v ===== *)
(** * The EVM of the node

    src/bin/botanix-reth/src/evm: the handler of transactions that deviates
    from the one of Ethereum (handler.rs), the blacklist (blacklist.rs), the
    transactions (transaction.rs) and their execution (api/exec.rs);
    src/bin/botanix-reth/src/node/evm: the environments of blocks (config.rs),
    system transactions (mod.rs) and the executor of blocks that the builder
    of proposals runs (executor.rs); the forks of
    src/crates/botanix-chainspec.

    revm is the parameter: the journal of accounts that a transaction touches,
    the environment of a transaction, and the steps of Ethereum's handler that
    this one leaves alone ([RevmLib], [JournalLaws]).  Numbers of 256 bits
    saturate where the code says so and are not exceeded elsewhere: gas has 64
    bits, a price 128. *)

From S2P Require Import Prelude Bytes Bitcoin Concrete Codec Peg Edh Mint Execution Consensus.
From stdpp Require Import strings.

Open Scope Z_scope.

(** [U256::saturating_add] *)
Definition u256_saturating_add (a b : Z) : Z := Z.min u256_max (a + b).

(** ** Forks *)

(** revm's numbers of the specifications *)
Abbreviation SpecId := Z.
Definition CANCUN : SpecId := 17.
Definition PRAGUE : SpecId := 18.

Definition SpecId_from (spec : BotanixHardfork) : SpecId := match spec with Prague => PRAGUE end.






(** ** The environments of a block *)



Section config.
Context `{!Evm, !EthLib}.

(** What reth's chain specification answers beside [EthLib]. *)
Class EvmConfigLib := {
  BlobParams : Type;
  max_blobs_per_tx : BlobParams → Z;
  calc_blob_fee : BlobParams → Z → Z;
  (** [BlobParams::cancun] and the parameters of the specification *)
  eip4844_cancun : BlobParams;
  spec_blob_params_cancun : BlobParams;
  spec_chain_id : Z;
  reth_revm_spec : Z → Z → SpecId;
  maybe_next_block_excess_blob_gas : EvmHeader → option BlobParams → option Z }.

Context `{!EvmConfigLib}.






End config.

(** ** Accounts and transactions *)

Inductive Bytecode := BcRaw (code : bytes) | BcEip7702 (address : Address).

Definition bytecode_is_empty (c : Bytecode) : bool := match c with BcRaw [] => true | _ => false end.

Definition is_eip7702_code (c : Bytecode) : bool := match c with BcEip7702 _ => true | BcRaw _ => false end.

(** An account of the journal; [ja_not_existing] is that it was loaded as
    not existing. *)
Record JournalAccount := mkJournalAccount {
  ja_balance : Z;
  ja_nonce : Z;
  ja_code_hash : bytes;
  ja_code : option Bytecode;
  ja_touched : bool;
  ja_not_existing : bool }.

Record Authorization := mkAuthorization {
  au_chain_id : Z;
  au_address : Address;
  au_nonce : Z;
  (** recovered from the signature *)
  au_authority : option Address }.

Record Gas := mkGas { spent : Z; refunded : Z }.

(** What a frame ends with. *)
Inductive SuccessOrHalt :=
| SohSuccess (reason : Z)
| SohRevert
| SohHalt (reason : Z)
| SohFatal
| SohInternal.

Record FrameResult := mkFrameResult {
  fr_gas : Gas;
  fr_result : SuccessOrHalt;
  fr_output : bytes }.

Inductive EvmResult :=
| ErSuccess (reason gas_used gas_refunded : Z) (logs : list Log) (output : bytes)
| ErRevert (gas_used : Z) (output : bytes)
| ErHalt (reason gas_used : Z).

Class RevmLib := {
  (** the environment of a transaction *)
  TxEnv : Type;
  env_tx_type : TxEnv → TxType;
  env_authorization_list : TxEnv → list Authorization;
  env_total_blob_gas : TxEnv → Z;
  env_effective_gas_price : TxEnv → Z → Z;
  (** [TxEnv::builder] with the caller, the input, the contract and the gas *)
  build_call : Address → bytes → Address → Z → option TxEnv;
  DbError : Type;
  Journal : Type;
  load_account : Address → M Journal DbError JournalAccount;
  load_account_code : Address → M Journal DbError JournalAccount;
  (** a write through the reference to an account that is loaded *)
  update_account : Address → (JournalAccount → JournalAccount) → Journal → Journal;
  take_logs : Journal → Journal * list Log;
  commit_tx : Journal → Journal;
  account_is_empty : JournalAccount → bool;
  bytecode_hash_slow : Bytecode → bytes;
  KECCAK_EMPTY : bytes;
  PER_EMPTY_ACCOUNT_COST : Z;
  PER_AUTH_BASE_COST : Z }.

(** ** The handler *)

Section handler.
Context `{!Profile, !RevmLib}.

Record BotanixTxEnv := mkTxEnv { base : TxEnv; is_system_transaction : bool }.

(** [BotanixTxEnv::new] *)
Definition BotanixTxEnv_new (b : TxEnv) : BotanixTxEnv := mkTxEnv b false.

(** A system transaction; the builder is unwrapped. *)
Definition new_system_tx_with_caller {E} (caller system_contract_address : Address) (data : bytes)
    : outcome E BotanixTxEnv :=
  let? b := expect (build_call caller data system_contract_address 30000000) in Ok (mkTxEnv b true).

Definition SYSTEM_ADDRESS : Address := to_be_bytes 20 0xfffffffffffffffffffffffffffffffffffffffe.

Definition NANO_BLACKLIST : list Address :=
  map (to_be_bytes 20)
    [0x489A8756C18C0b8B24EC2a2b9FF3D4d447F79BEc; 0xFd6042Df3D74ce9959922FeC559d7995F3933c55;
     0xdb789Eb5BDb4E559beD199B8b82dED94e1d056C9].

Definition is_blacklisted (address : Address) : bool := contains NANO_BLACKLIST address.

Inductive ContextError := CeDb (e : DbError) | CeCustom.

Inductive EVMError := EvmDatabase (e : DbError) | EvmCustom | EvmInvalid.

Record BotanixContext := mkContext {
  cx_block : BlockEnv;
  cx_cfg : CfgEnv;
  cx_tx : BotanixTxEnv;
  cx_journal : Journal;
  cx_error : option ContextError }.

Definition set_cx_journal (j : Journal) (c : BotanixContext) : BotanixContext :=
  mkContext (cx_block c) (cx_cfg c) (cx_tx c) j (cx_error c).

Definition set_cx_tx (tx : BotanixTxEnv) (c : BotanixContext) : BotanixContext :=
  mkContext (cx_block c) (cx_cfg c) tx (cx_journal c) (cx_error c).

Abbreviation Hd A := (M BotanixContext EVMError A).

Definition on_journal {A} (m : M Journal DbError A) : Hd A :=
  zoom cx_journal set_cx_journal (map_errM EvmDatabase m).

(** *** Delegations *)

Definition set_delegation (address : Address) (acc : JournalAccount) : JournalAccount :=
  let '(bytecode, hash) :=
    if bool_decide (address = ZERO_ADDRESS) then (BcRaw [], KECCAK_EMPTY)
    else (BcEip7702 address, bytecode_hash_slow (BcEip7702 address)) in
  mkJournalAccount (ja_balance acc) (Z.min u64_max (ja_nonce acc + 1)) hash (Some bytecode) true (ja_not_existing acc).

(** One turn of the loop: whether the account counts for the refund. *)
Definition apply_authorization (chain_id : Z) (authorization : Authorization) : M Journal DbError Z :=
  if negb (au_chain_id authorization =? 0) && negb (au_chain_id authorization =? chain_id) then ret 0 else
  if au_nonce authorization =? u64_max then ret 0 else
  match au_authority authorization with
  | None => ret 0
  | Some authority =>
      if is_blacklisted authority then ret 0 else
      let! authority_acc := load_account_code authority in
      let has_code := match ja_code authority_acc with
                      | Some bytecode => negb (bytecode_is_empty bytecode) && negb (is_eip7702_code bytecode)
                      | None => false
                      end in
      if has_code then ret 0 else
      if negb (au_nonce authorization =? ja_nonce authority_acc) then ret 0 else
      let refund :=
        if account_is_empty authority_acc && (ja_not_existing authority_acc && negb (ja_touched authority_acc))
        then 0 else 1 in
      modify (update_account authority (set_delegation (au_address authorization))) ;!
      ret refund
  end.

Fixpoint apply_authorizations (chain_id : Z) (l : list Authorization) : M Journal DbError Z :=
  match l with
  | [] => ret 0
  | authorization :: l =>
      let! n := apply_authorization chain_id authorization in
      let! m := apply_authorizations chain_id l in
      ret (n + m)
  end.

Definition is_eip7702_tx (t : TxType) : bool := match t with Eip7702 => true | _ => false end.

Definition apply_eip7702_auth_list : Hd Z :=
  let! c := get in
  let tx := base (cx_tx c) in
  if negb (is_eip7702_tx (env_tx_type tx)) then ret 0 else
  let! refunded_accounts := on_journal (apply_authorizations (ce_chain_id (cx_cfg c)) (env_authorization_list tx)) in
  ret (refunded_accounts * (PER_EMPTY_ACCOUNT_COST - PER_AUTH_BASE_COST)).

(** *** Gas and fees *)

Record InitialAndFloorGas := mkInitialGas { initial_gas : Z; floor_gas : Z }.

(** [mainnet] is the check of Ethereum. *)
Definition validate_initial_tx_gas (mainnet : BotanixContext → outcome EVMError InitialAndFloorGas)
    : Hd InitialAndFloorGas :=
  let! c := get in
  if is_system_transaction (cx_tx c) then ret (mkInitialGas 0 0) else lift (mainnet c).

Definition add_balance (v : Z) (acc : JournalAccount) : JournalAccount :=
  mkJournalAccount (u256_saturating_add (ja_balance acc) v) (ja_nonce acc) (ja_code_hash acc) (ja_code acc) true
    (ja_not_existing acc).

(** [gas.spent() - gas.refunded() as u64] *)
Definition gas_used_of {E} (gas : Gas) : outcome E Z := usub 64 (spent gas) (refunded gas `mod` 2 ^ 64).

(** The product of a number of 64 bits and one of 128 fits in 256. *)
Definition transaction_fee (c : BotanixContext) (gas_used : Z) : Z :=
  let tx_fee := gas_used * env_effective_gas_price (base (cx_tx c)) (be_basefee (cx_block c)) in
  if CANCUN <=? SpecId_from (ce_spec (cx_cfg c))
  then u256_saturating_add tx_fee
         (env_total_blob_gas (base (cx_tx c)) * default 0 (snd <$> be_blob_excess_gas_and_price (cx_block c)))
  else tx_fee.

Definition reward_beneficiary (gas : Gas) : Hd unit :=
  let! c := get in
  if is_system_transaction (cx_tx c) then ret tt else
  let! gas_used := lift (gas_used_of gas) in
  let tx_fee := transaction_fee c gas_used in
  on_journal (let! _ := load_account SYSTEM_ADDRESS in modify (update_account SYSTEM_ADDRESS (add_balance tx_fee))).

(** *** The result *)

Definition execution_result (result : FrameResult) : Hd EvmResult := λ c,
  let cleared := mkContext (cx_block c) (cx_cfg c) (cx_tx c) (cx_journal c) None in
  match cx_error c with
  | Some (CeDb e) => (cleared, Err (EvmDatabase e))
  | Some CeCustom => (cleared, Err EvmCustom)
  | None =>
      let gas_refunded := if is_system_transaction (cx_tx c) then 0 else refunded (fr_gas result) `mod` 2 ^ 64 in
      match usub 64 (spent (fr_gas result)) gas_refunded with
      | Ok final_gas_used =>
          let '(j, logs) := take_logs (cx_journal c) in
          let committed := set_cx_journal (commit_tx j) cleared in
          match fr_result result with
          | SohSuccess reason => (committed, Ok (ErSuccess reason final_gas_used gas_refunded logs (fr_output result)))
          | SohRevert => (committed, Ok (ErRevert final_gas_used (fr_output result)))
          | SohHalt reason => (committed, Ok (ErHalt reason final_gas_used))
          | SohFatal | SohInternal => (set_cx_journal j cleared, Panic)
          end
      | Err e => (cleared, Err e)
      | Panic => (cleared, Panic)
      end
  end.

(** ** Running transactions *)

(** What revm's default methods do with the hooks above, and the inspectors *)
Context {EvmState : Type}.
Context (handler_run handler_inspect_run : Hd EvmResult) (finalize : BotanixContext → BotanixContext * EvmState).

Definition transact_one (tx : BotanixTxEnv) : Hd EvmResult := modify (set_cx_tx tx) ;! handler_run.

Definition inspect_one_tx (tx : BotanixTxEnv) : Hd EvmResult := modify (set_cx_tx tx) ;! handler_inspect_run.

(** A result with the state of the journal *)
Definition with_state (m : Hd EvmResult) : Hd (EvmResult * EvmState) :=
  let! result := m in
  λ c, let '(c, state) := finalize c in (c, Ok (result, state)).

Definition replay : Hd (EvmResult * EvmState) := with_state handler_run.

Definition transact_tx (tx : BotanixTxEnv) : Hd (EvmResult * EvmState) := with_state (transact_one tx).

(** The checks that a system transaction is excused from are put aside, and
    back when it has run, with or without an error. *)
Definition set_tx_checks (block_gas_limit basefee : Z) (disable_nonce_check : bool) (c : BotanixContext)
    : BotanixContext :=
  let b := cx_block c in
  let g := cx_cfg c in
  mkContext
    (mkBlockEnv (be_number b) (be_beneficiary b) (be_timestamp b) (be_difficulty b) (be_prevrandao b) block_gas_limit
       basefee (be_blob_excess_gas_and_price b))
    (mkCfgEnv (ce_chain_id g) (ce_spec g) (ce_max_blobs_per_tx g) disable_nonce_check)
    (cx_tx c) (cx_journal c) (cx_error c).

Definition restore_checks (before c : BotanixContext) : BotanixContext :=
  set_tx_checks (be_gas_limit (cx_block before)) (be_basefee (cx_block before))
    (ce_disable_nonce_check (cx_cfg before)) c.

(** [gas_limit_of] is the gas limit of the environment. *)
Definition transact_raw (inspect : bool) (gas_limit_of : TxEnv → Z) (tx : BotanixTxEnv)
    : Hd (EvmResult * EvmState) := λ c,
  if inspect then with_state (inspect_one_tx tx) c else
  if is_system_transaction tx then
    match transact_tx tx (set_tx_checks (gas_limit_of (base tx)) 0 true c) with
    | (c', Panic) => (c', Panic)
    | (c', res) => (restore_checks c c', res)
    end
  else transact_tx tx c.

End handler.

(** ** The executor of a block *)

Section executor.
Context `{!Profile, !Evm}.

Record BotanixBlockExecutor := mkExecutor {
  bx_db : EvmDb;
  bx_gas_used : Z;
  bx_receipts : list Receipt }.

Record BlockExecutionResult := mkBlockResult { br_receipts : list Receipt; br_gas_used : Z }.

(** The environment of the EVM, the block, the builder of receipts and the calls
    before a block of alloy *)
Context (env : EvmEnv) (parent_hash : bytes) (parent_beacon_block_root : option bytes).
Context (is_spurious_dragon : Z → bool).
Context (build_receipt : EvmTx → ExecutionResult → Z → Receipt).
Context (apply_blockhashes_contract_call : bytes → EvmDb → option EvmDb).
Context (apply_beacon_root_contract_call : option bytes → EvmDb → option EvmDb).

Abbreviation Bx A := (M BotanixBlockExecutor BlockExecutionError A).

Definition executor_new (db : EvmDb) : BotanixBlockExecutor := mkExecutor db 0 [].

Definition set_bx_db (db : EvmDb) (s : BotanixBlockExecutor) : BotanixBlockExecutor :=
  mkExecutor db (bx_gas_used s) (bx_receipts s).

Definition apply_contract_call (f : EvmDb → option EvmDb) : Bx unit :=
  let! s := get in
  let! db := lift (ok_or (f (bx_db s)) PreExecutionFailed) in
  modify (set_bx_db db).

Definition executor_pre_execution_changes : Bx unit :=
  modify (λ s, set_bx_db (set_state_clear_flag (is_spurious_dragon (be_number env.2)) (bx_db s)) s) ;!
  apply_contract_call (apply_blockhashes_contract_call parent_hash) ;!
  apply_contract_call (apply_beacon_root_contract_call parent_beacon_block_root).

(** [should_commit] is the closure that looks at the result. *)
Definition execute_transaction_with_commit_condition (tx : EvmTx) (sender : Address)
    (should_commit : ExecutionResult → bool) : Bx (option Z) :=
  let! s := get in
  let! block_available_gas := lift (usub 64 (be_gas_limit env.2) (bx_gas_used s)) in
  if block_available_gas <? tx_gas_limit tx
  then fail (TransactionGasLimitMoreThanAvailableBlockGas (tx_gas_limit tx) block_available_gas) else
  let! '(result, state) := lift (map_err (λ _, InternalError "EVM error"%string) (transact env tx sender (bx_db s))) in
  if negb (should_commit result) then ret None else
  let gas_used := result_gas_used result in
  let! total := lift (uadd 64 (bx_gas_used s) gas_used) in
  modify (λ s, mkExecutor (commit state (bx_db s)) total (bx_receipts s ++ [build_receipt tx result total])) ;!
  ret (Some gas_used).

Definition execute_transaction_with_result_closure (tx : EvmTx) (sender : Address) : Bx Z :=
  let! gas := execute_transaction_with_commit_condition tx sender (λ _, true) in ret (default 0 gas).

Definition finish (s : BotanixBlockExecutor) : EvmDb * BlockExecutionResult :=
  (bx_db s, mkBlockResult (bx_receipts s) (bx_gas_used s)).

End executor.

(** ** Delegations *)

(** What the code relies on of the journal: an account is what was loaded or
    what the database has; loading changes no account, and a write through the
    reference to an account changes that one. *)
Class JournalLaws `{!RevmLib} := {
  seen : Journal → Address → JournalAccount;
  load_account_keeps a j : ∀ b, seen (load_account a j).1 b = seen j b;
  load_account_code_keeps a j : ∀ b, seen (load_account_code a j).1 b = seen j b;
  load_account_code_seen a j j' acc : load_account_code a j = (j', Ok acc) → acc = seen j a;
  seen_update a f j b : seen (update_account a f j) b = if decide (b = a) then f (seen j b) else seen j b }.

Section handler_theorems.
Context `{!Profile, !RevmLib, !JournalLaws}.

Abbreviation Hd A := (M BotanixContext EVMError A).

(** An authorization that takes effect on an account, and what the account
    becomes. *)
Definition admissible (chain_id : Z) (acc : JournalAccount) (au : Authorization) : Prop :=
  (au_chain_id au = 0 ∨ au_chain_id au = chain_id) ∧ au_nonce au ≠ u64_max ∧ au_nonce au = ja_nonce acc ∧
  match ja_code acc with Some code => bytecode_is_empty code = true ∨ is_eip7702_code code = true | None => True end.

Definition delegation (address : Address) : Bytecode :=
  if bool_decide (address = ZERO_ADDRESS) then BcRaw [] else BcEip7702 address.

(** One authorization: it takes effect on its authority, or on nothing. *)
Inductive authorization_effect (chain_id : Z) (au : Authorization) (j j' : Journal) : list Authorization → Prop :=
| authorization_ignored : (∀ a, seen j' a = seen j a) → authorization_effect chain_id au j j' []
| authorization_used a :
    au_authority au = Some a → is_blacklisted a = false → admissible chain_id (seen j a) au →
    (∀ b, seen j' b = if decide (b = a) then set_delegation (au_address au) (seen j a) else seen j b) →
    authorization_effect chain_id au j j' [au].

Lemma apply_authorization_effect chain_id au j j' r :
  apply_authorization chain_id au j = (j', r) →
  ∃ used, authorization_effect chain_id au j j' used ∧ ∀ n, r = Ok n → 0 ≤ n ≤ Z.of_nat (length used).
Proof.
  unfold apply_authorization.
  assert (∀ n, (j, Ok (E:=DbError) 0) = (j', r) → r = Ok n → 0 ≤ n ≤ 0) as Hz by (intros n [= <- <-] [= <-]; lia).
  assert ((j, Ok (E:=DbError) 0) = (j', r) → authorization_effect chain_id au j j' []) as Hi
    by (intros [= <- _]; by constructor).
  destruct (negb (au_chain_id au =? 0) && negb (au_chain_id au =? chain_id)) eqn:Hchain; [eauto|].
  destruct (Z.eqb_spec (au_nonce au) u64_max) as [|Hmax]; [eauto|].
  destruct (au_authority au) as [a|] eqn:Ha; [|eauto].
  destruct (is_blacklisted a) eqn:Hb; [eauto|]. clear Hz Hi. unfold bindM at 1.
  pose proof (load_account_code_keeps a j) as Hk.
  destruct (load_account_code a j) as [j1 [acc|e|]] eqn:El; cbn [fst] in Hk;
    [|intros [= <- <-]; exists []; split; [by constructor|done]..].
  apply load_account_code_seen in El as ->.
  destruct (match ja_code (seen j a) with Some _ => _ | None => _ end) eqn:Hcode.
  { intros [= <- <-]. exists []. split; [by constructor|]. intros n [= <-]. cbn. lia. }
  destruct (Z.eqb_spec (au_nonce au) (ja_nonce (seen j a))) as [Hn|_]; cbn [negb].
  2: { intros [= <- <-]. exists []. split; [by constructor|]. intros n [= <-]. cbn. lia. }
  intros [= <- <-]. exists [au]. split.
  - apply authorization_used with a; [done..| |].
    + split_and!; [lia|done|done|]. destruct (ja_code (seen j a)) as [code|]; [|done].
      destruct (bytecode_is_empty code), (is_eip7702_code code); auto.
    + intros b. rewrite seen_update, Hk. by destruct (decide (b = a)) as [->|].
  - intros n [= <-]. cbn. destruct (account_is_empty _ && _); lia.
Qed.

(** The authorizations of an account among those used *)
Definition of_authority (a : Address) (used : list Authorization) : list Authorization :=
  filter (λ au, au_authority au = Some a) used.

Record delegated (chain_id : Z) (j j' : Journal) (used : list Authorization) (a : Address) : Prop := {
  dl_nonces : map au_nonce (of_authority a used) = seqZ (ja_nonce (seen j a)) (Z.of_nat (length (of_authority a used)));
  dl_nonce : ja_nonce (seen j' a) = ja_nonce (seen j a) + Z.of_nat (length (of_authority a used));
  dl_balance : ja_balance (seen j' a) = ja_balance (seen j a);
  dl_code : ja_code (seen j' a) =
    match last (of_authority a used) with Some au => Some (delegation (au_address au)) | None => ja_code (seen j a) end;
  dl_unused : of_authority a used = [] → seen j' a = seen j a;
  dl_allowed : of_authority a used ≠ [] → is_blacklisted a = false ∧
    match ja_code (seen j a) with
    | Some code => bytecode_is_empty code = true ∨ is_eip7702_code code = true
    | None => True
    end }.

Lemma delegated_step chain_id au j j1 j2 used1 used2 a :
  (∀ n, au_nonce au = n → n ≤ u64_max) →
  authorization_effect chain_id au j j1 used1 → delegated chain_id j1 j2 used2 a →
  delegated chain_id j j2 (used1 ++ used2) a.
Proof.
  intros Hmax He [Hns Hn Hb Hc Hu Hal]. inversion He as [Hs|b Ha Hbl (Hch & Hnm & Hnn & Hcode) Hs]; subst.
  { cbn [app]. rewrite Hs in *. by split. }
  rewrite Hs in *. cbn [app]. destruct (decide (a = b)) as [->|Hne].
  - specialize (Hmax _ eq_refl).
    assert (ja_nonce (set_delegation (au_address au) (seen j b)) = ja_nonce (seen j b) + 1) as Hn1.
    { unfold set_delegation. case_bool_decide; cbn; lia. }
    assert (ja_balance (set_delegation (au_address au) (seen j b)) = ja_balance (seen j b)) as Hb1.
    { unfold set_delegation. by case_bool_decide. }
    assert (ja_code (set_delegation (au_address au) (seen j b)) = Some (delegation (au_address au))) as Hc1.
    { unfold set_delegation, delegation. by case_bool_decide. }
    rewrite Hn1, Hb1, Hc1 in *.
    assert (of_authority b (au :: used2) = au :: of_authority b used2) as Hof by by apply filter_cons_True.
    split; rewrite ?Hof; cbn [map length].
    + rewrite Hns, Hnn. rewrite Nat2Z.inj_succ.
      rewrite (seqZ_cons (ja_nonce (seen j b)) (Z.succ _)) by lia. f_equal. f_equal; lia.
    + lia.
    + done.
    + rewrite Hc. destruct (of_authority b used2) as [|x l]; [done|]. rewrite last_cons_cons.
      destruct (last (x :: l)) as [y|] eqn:El; [done|]. by apply last_None in El.
    + done.
    + by intros _.
  - assert (of_authority a (au :: used2) = of_authority a used2) as Hof by (apply filter_cons_False; congruence).
    split; by rewrite ?Hof.
Qed.

(** The authorizations of a transaction take effect once each, whatever the
    outcome: those used are a part of the list in its order; the ones of an
    account carry its nonces one after the other from the one it had, so that
    none is used twice; the account ends with the code of the last one and
    keeps its balance; an account without any is unchanged.  An account on the
    blacklist or with the code of a contract has none.  The accounts counted
    for the refund are not more than the authorizations used. *)
Lemma authorizations_apply_once chain_id l j j' r :
  Forall (λ au, au_nonce au ≤ u64_max) l →
  apply_authorizations chain_id l j = (j', r) →
  ∃ used, used `sublist_of` l ∧ (∀ a, delegated chain_id j j' used a) ∧
    (∀ n, r = Ok n → 0 ≤ n ≤ Z.of_nat (length used)).
Proof.
  revert j j' r. induction l as [|au l IH]; intros j j' r Hl; cbn [apply_authorizations].
  { intros [= <- <-]. exists []. split_and!; [done| |intros n [= <-]; cbn; lia].
    intros a. split; cbn; try done. lia. }
  apply Forall_cons in Hl as [Hau Hl]. unfold bindM at 1.
  destruct (apply_authorization chain_id au j) as [j1 r1] eqn:E1.
  pose proof E1 as (used1 & He & Hr1)%apply_authorization_effect.
  assert (∀ used2, used2 `sublist_of` l → used1 ++ used2 `sublist_of` au :: l) as Hsub.
  { intros used2 Hs. inversion He; subst; cbn [app]; by constructor. }
  assert (∀ a, delegated chain_id j1 j1 [] a) as Hnil by (intros a; split; cbn; try done; lia).
  assert (∀ n, au_nonce au = n → n ≤ u64_max) as Hmax by by intros ? <-.
  destruct r1 as [n1|e|]; cbv beta iota;
    [|intros [= <- <-]; exists (used1 ++ []); split_and!; [by apply Hsub, sublist_nil_l| |done];
      intros a; by apply (delegated_step _ _ _ _ _ _ _ _ Hmax He)..].
  unfold bindM. destruct (apply_authorizations chain_id l j1) as [j2 r2] eqn:E2.
  pose proof E2 as (used2 & Hs & Hd & Hr2)%IH; [|done].
  destruct r2 as [n2|e|]; intros [= <- <-]; exists (used1 ++ used2);
    (split_and!; [by apply Hsub|intros a; by eapply delegated_step|]); [|done..].
  intros n [= <-]. specialize (Hr1 _ eq_refl). specialize (Hr2 _ eq_refl). rewrite length_app. lia.
Qed.

Lemma on_journal_run {A} (m : M Journal DbError A) c :
  on_journal m c = (set_cx_journal (m (cx_journal c)).1 c, map_err EvmDatabase (m (cx_journal c)).2).
Proof. unfold on_journal, zoom, map_errM. by destruct (m (cx_journal c)). Qed.

(** C26.  The delegations of a transaction, whatever the outcome: the
    authorizations that take effect are a part of the transaction's list, in
    its order, and none if the transaction is not one of delegations.  Those of
    an account carry its nonces one after the other from the one it had, so
    that none is used twice; the account's nonce moves past them, its code is
    the delegation of the last and its balance stays.  An account without any,
    a contract and an account on the blacklist do not change.  The refund is
    for at most the authorizations used. *)
Theorem delegations_apply_once c c' r :
  Forall (λ au, au_nonce au ≤ u64_max) (env_authorization_list (base (cx_tx c))) →
  PER_AUTH_BASE_COST ≤ PER_EMPTY_ACCOUNT_COST →
  apply_eip7702_auth_list c = (c', r) →
  ∃ used, used `sublist_of` env_authorization_list (base (cx_tx c)) ∧
    (is_eip7702_tx (env_tx_type (base (cx_tx c))) = false → used = []) ∧
    (∀ a, delegated (ce_chain_id (cx_cfg c)) (cx_journal c) (cx_journal c') used a) ∧
    (∀ a, is_blacklisted a = true → seen (cx_journal c') a = seen (cx_journal c) a) ∧
    c' = set_cx_journal (cx_journal c') c ∧
    (∀ refund, r = Ok refund →
      0 ≤ refund ≤ Z.of_nat (length used) * (PER_EMPTY_ACCOUNT_COST - PER_AUTH_BASE_COST)).
Proof.
  intros Hl Hcost. unfold apply_eip7702_auth_list. cbn [bindM get].
  destruct (is_eip7702_tx _) eqn:Ht; cbn [negb].
  2: { intros [= <- <-]. exists []. split_and!; [by apply sublist_nil_l|done| |done|by destruct c|].
       - intros a. split; cbn; try done; lia.
       - intros n [= <-]. cbn. lia. }
  unfold bindM. rewrite on_journal_run.
  destruct (apply_authorizations _ _ (cx_journal c)) as [j r1] eqn:Ej. cbn [fst snd].
  pose proof Ej as (used & Hs & Hd & Hr)%authorizations_apply_once; [|done].
  intros Hrun. assert (c' = set_cx_journal j c) as ->
    by (destruct r1; cbn [map_err] in Hrun; by injection Hrun as <- _).
  exists used. split_and!; [done..| |done|].
  - intros a Ha. cbn [set_cx_journal cx_journal]. destruct (Hd a) as [_ _ _ _ Hu Hal]. apply Hu.
    destruct (of_authority a used) as [|]; [done|]. destruct Hal as [Hn _]; [done|congruence].
  - intros refund ->. destruct r1 as [n|e|]; cbn [map_err] in Hrun; [|done..].
    injection Hrun as <-. specialize (Hr _ eq_refl). nia.
Qed.

(** ** Fees and results *)

(** What a transaction of the chain pays to the system account.  The gas of a
    frame is one of 64 bits, and so is its refund. *)
Lemma reward_beneficiary_run gas c c' :
  is_system_transaction (cx_tx c) = false → 0 ≤ refunded gas ≤ spent gas → spent gas < 2 ^ 64 →
  reward_beneficiary gas c = (c', Ok tt) →
  c' = set_cx_journal (cx_journal c') c ∧
  ∀ a, seen (cx_journal c') a =
    if decide (a = SYSTEM_ADDRESS) then add_balance (transaction_fee c (spent gas - refunded gas)) (seen (cx_journal c) a)
    else seen (cx_journal c) a.
Proof.
  intros Hs Hg Hw. unfold reward_beneficiary. cbn [bindM get]. rewrite Hs. unfold gas_used_of, usub.
  rewrite Z.mod_small by lia. rewrite (proj2 (Z.leb_le _ _)) by lia. unfold bindM at 1. cbn [lift].
  rewrite on_journal_run. unfold bindM, modify.
  pose proof (load_account_keeps SYSTEM_ADDRESS (cx_journal c)) as Hk.
  destruct (load_account SYSTEM_ADDRESS (cx_journal c)) as [j [acc|e|]]; cbn [fst snd map_err] in *; [|done..].
  intros [= <-]. cbn [set_cx_journal cx_journal]. split; [done|]. intros a. by rewrite seen_update, Hk.
Qed.

(** A system transaction pays no gas: its initial gas is zero, it rewards
    nobody, and its result reports the gas spent without a refund. *)
Theorem system_transactions_are_free mainnet c gas :
  is_system_transaction (cx_tx c) = true →
  validate_initial_tx_gas mainnet c = (c, Ok (mkInitialGas 0 0)) ∧
  reward_beneficiary gas c = (c, Ok tt) ∧
  ∀ c' g output reason used refund logs out, 0 ≤ spent g →
    execution_result (mkFrameResult g (SohSuccess reason) output) c = (c', Ok (ErSuccess reason used refund logs out)) →
    used = spent g ∧ refund = 0.
Proof.
  intros Hs. split_and!.
  - unfold validate_initial_tx_gas. cbn [bindM get]. by rewrite Hs.
  - unfold reward_beneficiary. cbn [bindM get]. by rewrite Hs.
  - intros c' g output reason used refund logs out Hg. unfold execution_result.
    destruct (cx_error c) as [[]|]; [done..|]. rewrite Hs. cbn [fr_gas fr_result fr_output]. unfold usub.
    rewrite (proj2 (Z.leb_le 0 _)) by done. destruct (take_logs _) as [j l]. intros [= <- <- <- <- <-]. lia.
Qed.

(** *** Checks put aside *)

Section transact_theorems.
Context {EvmState : Type}.
Context (handler_run handler_inspect_run : Hd EvmResult) (finalize : BotanixContext → BotanixContext * EvmState).

(** Running a transaction does not write to the environments. *)
Definition keeps_environment (m : Hd EvmResult) : Prop :=
  respects (keeps cx_block) m ∧ respects (keeps cx_cfg) m.

Lemma with_state_keeps {B} (f : BotanixContext → B) (m : Hd EvmResult) :
  (∀ c, f (finalize c).1 = f c) → respects (keeps f) m → respects (keeps f) (with_state finalize m).
Proof.
  intros Hf Hm. unfold with_state. apply respects_bind; [apply _|done|]. intros res c. unfold keeps.
  specialize (Hf c). by destruct (finalize c).
Qed.

Abbreviation transact_raw' := (transact_raw handler_run handler_inspect_run finalize).

(** The checks of a block are back after every transaction.  A
    transaction that ends, with a result or an error, leaves the environments
    of the block and of the chain as it found them; and a system transaction
    runs with a block of its own gas limit, a base fee of zero and no check of
    the nonce, unless an inspector watches: then it runs under the checks, as
    any other. *)
Theorem transact_raw_restores_checks inspect gas_limit_of tx c c' r :
  keeps_environment handler_run → keeps_environment handler_inspect_run →
  (∀ c, cx_block (finalize c).1 = cx_block c ∧ cx_cfg (finalize c).1 = cx_cfg c) →
  transact_raw' inspect gas_limit_of tx c = (c', r) → r ≠ Panic →
  cx_block c' = cx_block c ∧ cx_cfg c' = cx_cfg c ∧
  let excused := negb inspect && is_system_transaction tx in
  let found := (if excused then set_tx_checks (gas_limit_of (base tx)) 0 true c else c) in
  r = (with_state finalize (if inspect then handler_inspect_run else handler_run) (set_cx_tx tx found)).2.
Proof.
  intros [Hb Hg] [Hib Hig] Hf. unfold transact_raw.
  assert (∀ m : Hd EvmResult, keeps_environment m → ∀ c0 c1 r1,
    with_state finalize m c0 = (c1, r1) → cx_block c1 = cx_block c0 ∧ cx_cfg c1 = cx_cfg c0) as Hkeep.
  { intros m [Hmb Hmg] c0 c1 r1 Hrun.
    pose proof (with_state_keeps cx_block m (λ c, proj1 (Hf c)) Hmb c0) as Hkb.
    pose proof (with_state_keeps cx_cfg m (λ c, proj2 (Hf c)) Hmg c0) as Hkg. by rewrite Hrun in Hkb, Hkg. }
  assert (∀ (run : Hd EvmResult) c0, with_state finalize (modify (set_cx_tx tx) ;! run) c0 =
    with_state finalize run (set_cx_tx tx c0)) as Hset by done.
  destruct inspect; cbn [negb andb].
  - unfold inspect_one_tx. rewrite Hset. intros Hrun Hr. rewrite Hrun.
    apply (Hkeep _ (conj Hib Hig)) in Hrun as [? ?]. by split_and!.
  - unfold transact_tx, transact_one. rewrite !Hset. destruct (is_system_transaction tx).
    + destruct (with_state _ _ _) as [c1 r1] eqn:Hrun. apply (Hkeep _ (conj Hb Hg)) in Hrun as [Hb1 Hg1].
      cbn [set_cx_tx set_tx_checks cx_block cx_cfg] in Hb1, Hg1.
      destruct r1; intros [= <- <-] Hr; (split_and!; [| |done]); unfold restore_checks, set_tx_checks;
        cbn [cx_block cx_cfg]; rewrite ?Hb1, ?Hg1; by destruct (cx_block c), (cx_cfg c).
    + intros Hrun Hr. rewrite Hrun. apply (Hkeep _ (conj Hb Hg)) in Hrun as [? ?]. by split_and!.
Qed.

End transact_theorems.

End handler_theorems.

(** ** The environment of the next block *)

Section config_theorems.
Context `{!Evm, !EthLib, !EvmConfigLib}.




End config_theorems.

(** ** The builder's executor *)

(** A run of the builder: transactions with their senders and the conditions
    for their commit, one after the other, whatever becomes of each. *)
Section executor_theorems.
Context `{!Profile, !Evm, !EvmLaws}.
Context (env : EvmEnv) (build_receipt : EvmTx → ExecutionResult → Z → Receipt).

Abbreviation block_gas_limit := (be_gas_limit env.2).
Abbreviation exec_one := (execute_transaction_with_commit_condition env build_receipt).

Fixpoint builder_run (l : list (EvmTx * Address * (ExecutionResult → bool))) (s : BotanixBlockExecutor)
    : BotanixBlockExecutor :=
  match l with [] => s | (tx, sender, f) :: l => builder_run l (exec_one tx sender f s).1 end.

(** The gas counted is what the receipts say. *)
Record builder_inv (s : BotanixBlockExecutor) : Prop := {
  bi_gas : 0 ≤ bx_gas_used s ≤ block_gas_limit;
  bi_last : bx_gas_used s = default 0 (r_cumulative_gas_used <$> last (bx_receipts s));
  bi_sorted : StronglySorted Z.le (map r_cumulative_gas_used (bx_receipts s)) ;
  bi_bound : Forall (λ g, g ≤ bx_gas_used s) (map r_cumulative_gas_used (bx_receipts s)) }.

(** What one transaction does to a builder within its limit *)
Lemma exec_one_effect tx sender f s :
  0 ≤ bx_gas_used s ≤ block_gas_limit → block_gas_limit < 2 ^ 64 →
  (∃ result state, transact env tx sender (bx_db s) = Ok (result, state) ∧ f result = true ∧
    let total := bx_gas_used s + result_gas_used result in
    0 ≤ result_gas_used result ∧ total ≤ block_gas_limit ∧ tx_gas_limit tx ≤ block_gas_limit - bx_gas_used s ∧
    exec_one tx sender f s =
      (mkExecutor (commit state (bx_db s)) total (bx_receipts s ++ [build_receipt tx result total]),
       Ok (Some (result_gas_used result)))) ∨
  (exec_one tx sender f s).1 = s ∧ ∀ g, (exec_one tx sender f s).2 ≠ Ok (Some g).
Proof.
  intros Hg Hw. unfold execute_transaction_with_commit_condition, bindM, get, lift, usub.
  rewrite (proj2 (Z.leb_le _ _)) by lia. cbv iota beta.
  destruct (Z.ltb_spec (block_gas_limit - bx_gas_used s) (tx_gas_limit tx)) as [|Hlimit]; [by (right; split)|].
  destruct (transact env tx sender (bx_db s)) as [[result state]|[]|] eqn:Ht; cbn [map_err]; [|by (right; split)..].
  destruct (f result) eqn:Hf; cbn [negb]; [|by (right; split)].
  pose proof (transact_gas _ _ _ _ _ _ Ht) as Hgas. left. exists result, state. split_and!; [done..|lia|lia|lia|].
  unfold uadd. by rewrite (proj2 (Z.ltb_lt _ _)) by lia.
Qed.

(** A builder never passes the gas limit of its block.  Whatever
    transactions it is given, with errors and results it declines among them,
    the gas it has used stays within the limit and is the cumulative gas of the
    last receipt, and the receipts' gas never decreases. *)
Theorem builder_keeps_gas_limit l db :
  0 ≤ block_gas_limit < 2 ^ 64 →
  (∀ tx result total, r_cumulative_gas_used (build_receipt tx result total) = total) →
  builder_inv (builder_run l (executor_new db)).
Proof.
  intros Hlimit Hr. assert (builder_inv (executor_new db)) as Hinv.
  { split; cbn; [lia|done|constructor|constructor]. }
  revert Hinv. generalize (executor_new db). induction l as [|[[tx sender] f] l IH]; intros s Hinv; [done|].
  cbn [builder_run]. apply IH. destruct Hinv as [Hg Hl Hs Hb].
  destruct (exec_one_effect tx sender f s) as [(result & state & _ & _ & Hz & Ht & _ & ->)|[-> _]]; [lia|lia| |by split].
  split; cbn [fst bx_gas_used bx_receipts].
  - lia.
  - by rewrite last_snoc; cbn; rewrite Hr.
  - rewrite map_app. cbn [map]. rewrite Hr. apply StronglySorted_snoc. split; [done|].
    eapply Forall_impl; [exact Hb|]. cbn. lia.
  - rewrite map_app. cbn [map]. rewrite Hr. apply Forall_app. split; [|by repeat constructor].
    eapply Forall_impl; [exact Hb|]. cbn. lia.
Qed.

End executor_theorems.

(** *** The builder and the executor of blocks *)


Section agreement.
Context `{!PegLib, !BitcoinLib, !Profile, !MintLib, !CheckpointSource, !BlockSource, !Evm, !EthLib, !EvmConfigLib}.
Context (tx_wf : Transaction → Prop) `{!PegLaws tx_wf, !EvmLaws} (bitcoin_network : Network).

(** The receipt of the builder is the one of the executor. *)
Definition eth_receipt (tx : EvmTx) (result : ExecutionResult) (total : Z) : Receipt :=
  mkReceipt (tx_type tx) (is_success result) total (into_logs result).





End agreement.

(** ** Fees are credited twice *)

Section fees.
Context `{!PegLib, !BitcoinLib, !Profile, !MintLib, !CheckpointSource, !BlockSource, !Evm}.
Context (tx_wf : Transaction → Prop) `{!PegLaws tx_wf, !EvmLaws, !RevmLib, !JournalLaws} (bitcoin_network : Network).

(** The fee of a transaction is credited to the system account while it
    runs, and the same amount is added to the fees of the block, which
    [post_block_balance_increments] then credits to three other addresses: for
    a transaction of the chain without blobs that the block's execution takes,
    the balance of the system account grows by what the fees of the block grow
    by, tip and base fee alike, and no other account of the journal changes. *)
Theorem fees_are_credited_twice h pkg i sender tx s s' c c' gas :
  execute_transaction bitcoin_network h pkg (i, (sender, tx)) s = (s', Ok tt) →
  reward_beneficiary gas c = (c', Ok tt) →
  is_system_transaction (cx_tx c) = false → env_total_blob_gas (base (cx_tx c)) = 0 →
  0 ≤ refunded gas ≤ spent gas → spent gas < 2 ^ 64 →
  0 ≤ total_gas_used (x_out s) ≤ gas_limit h → gas_limit h < 2 ^ 64 →
  spent gas - refunded gas = total_gas_used (x_out s') - total_gas_used (x_out s) →
  let base_fee := default 0 (base_fee_per_gas h) in
  let price := env_effective_gas_price (base (cx_tx c)) (be_basefee (cx_block c)) in
  effective_tip_per_gas tx base_fee = Some (price - base_fee) → 0 ≤ price →
  0 ≤ total_block_fees (x_out s) → total_block_fees (x_out s) + price * (spent gas - refunded gas) < 2 ^ 128 →
  price < 2 ^ 128 →
  let balance_of c := ja_balance (seen (cx_journal c) SYSTEM_ADDRESS) in
  balance_of c + price * (spent gas - refunded gas) ≤ u256_max →
  balance_of c' - balance_of c = total_block_fees (x_out s') - total_block_fees (x_out s) ∧
  total_block_fees (x_out s') - total_block_fees (x_out s) = price * (spent gas - refunded gas) ∧
  ∀ a, a ≠ SYSTEM_ADDRESS → seen (cx_journal c') a = seen (cx_journal c) a.
Proof.
  intros Hrun Hrew Hs Hb Hg Hw Ht Hl Hgas base_fee price Htip Hp Hf Hmax Hpm balance_of Hbal.
  pose proof (execute_transaction_inv _ _ _ _ _ _ _ _ Hrun)
    as (avail & fees & g & success & logs & ins & outs & tip & rate & fee & Ha & Hlim & He & Htip' & Hrate & Hfee & Hfees
        & cum & Hc & Hx).
  unfold usub in Ha. rewrite (proj2 (Z.leb_le _ _)) in Ha by lia. injection Ha as <-.
  assert (0 ≤ g ≤ gas_limit h - total_gas_used (x_out s)) as Hg1.
  { inversion He as [r st Ht' Hs'|g0 lg st i' o' Ht' Hk|g0 lg st e orig ch Ht' Hk]; subst;
      apply transact_gas in Ht'; cbn [result_gas_used] in Ht'; lia. }
  unfold uadd in Hc. rewrite (proj2 (Z.ltb_lt _ _)) in Hc by lia. injection Hc as <-.
  rewrite Hx in Hgas |- *. cbn [push_tx add_gas_and_fees total_gas_used total_block_fees] in Hgas |- *.
  assert (g = spent gas - refunded gas) as -> by lia. fold base_fee in Htip', Hrate. rewrite Htip in Htip'. injection Htip' as <-.
  unfold uadd in Hrate. replace (price - base_fee + base_fee) with price in Hrate by lia.
  rewrite (proj2 (Z.ltb_lt _ _)) in Hrate by lia. injection Hrate as <-.
  unfold umul in Hfee. rewrite (proj2 (Z.ltb_lt _ _)) in Hfee by lia. injection Hfee as <-.
  unfold uadd in Hfees. rewrite (proj2 (Z.ltb_lt _ _)) in Hfees by lia. injection Hfees as <-.
  pose proof (reward_beneficiary_run gas c c' Hs Hg Hw Hrew) as [_ Hseen]. split; [|split; [lia|]].
  - unfold balance_of in *. rewrite Hseen, decide_True by done. unfold add_balance. cbn [ja_balance].
    assert (transaction_fee c (spent gas - refunded gas) = price * (spent gas - refunded gas)) as ->.
    { unfold transaction_fee. rewrite Hb. fold price. destruct (CANCUN <=? _); [|lia].
      unfold u256_saturating_add, u256_max in *. lia. }
    unfold u256_saturating_add. lia.
  - intros a Hne. by rewrite Hseen, decide_False.
Qed.

End fees.

(** ** A concrete instance *)

(** A journal is the accounts by address, all of them loaded. *)
Definition toy_account : JournalAccount := mkJournalAccount 0 0 [] None false true.

#[local] Instance toy_revm : RevmLib := {
  TxEnv := TxType * list Authorization * Z;
  env_tx_type t := t.1.1;
  env_authorization_list t := t.1.2;
  env_total_blob_gas _ := 0;
  env_effective_gas_price t _ := t.2;
  build_call _ _ _ _ := Some (Legacy, [], 0);
  DbError := unit;
  Journal := gmap Address JournalAccount;
  load_account a := gets (λ j, default toy_account (j !! a));
  load_account_code a := gets (λ j, default toy_account (j !! a));
  update_account a f j := <[a := f (default toy_account (j !! a))]> j;
  take_logs j := (j, []);
  commit_tx j := j;
  account_is_empty acc := (ja_nonce acc =? 0) && (ja_balance acc =? 0);
  bytecode_hash_slow _ := [1];
  KECCAK_EMPTY := [0];
  PER_EMPTY_ACCOUNT_COST := 25000;
  PER_AUTH_BASE_COST := 12500 }.

#[local] Instance toy_journal_laws : JournalLaws.
Proof.
  refine {| seen := λ (j : Journal (RevmLib:=toy_revm)) a, default toy_account (j !! a) |}.
  - done.
  - done.
  - by intros a j j' acc [= <- <-].
  - intros a f j b. cbn. destruct (decide (b = a)) as [->|]; [by rewrite lookup_insert_eq|by rewrite lookup_insert_ne].
Defined.

Definition toy_authority : Address := replicate 20 7.

(** Two authorizations of one account, of which the first is signed twice,
    and one of an account on the blacklist *)
Definition toy_list : list Authorization :=
  [mkAuthorization 0 (replicate 20 1) 5 (Some toy_authority);
   mkAuthorization 3637 (replicate 20 2) 5 (Some toy_authority);
   mkAuthorization 3637 (replicate 20 3) 6 (Some toy_authority);
   mkAuthorization 0 (replicate 20 4) 0 (head NANO_BLACKLIST)].

Definition toy_context (t : TxType) (price : Z) : BotanixContext :=
  mkContext (mkBlockEnv 1 (replicate 20 0) 2 0 None 30000 7 None) (mkCfgEnv 3637 Prague None false)
    (BotanixTxEnv_new (t, toy_list, price))
    ({[ toy_authority := mkJournalAccount 9 5 [] None false false ]} : gmap Address JournalAccount) None.

Definition toy_delegated : BotanixContext * outcome EVMError Z := apply_eip7702_auth_list (toy_context Eip7702 20).

Example toy_delegated_run :
  toy_delegated.2 = Ok 25000 ∧
  ja_nonce (seen (cx_journal toy_delegated.1) toy_authority) = 7 ∧
  ja_code (seen (cx_journal toy_delegated.1) toy_authority) = Some (BcEip7702 (replicate 20 3)).
Proof. split_and!; reflexivity. Qed.

Lemma delegations_apply_once_witness :
  ∃ used, used `sublist_of` toy_list ∧
    delegated 3637 (cx_journal (toy_context Eip7702 20)) (cx_journal toy_delegated.1) used toy_authority.
Proof.
  assert (Forall (λ au, au_nonce au ≤ u64_max) (env_authorization_list (base (cx_tx (toy_context Eip7702 20))))) as H1
    by (repeat (constructor; [by vm_compute|]); constructor).
  assert (PER_AUTH_BASE_COST ≤ PER_EMPTY_ACCOUNT_COST) as H2 by (by vm_compute).
  destruct (delegations_apply_once (toy_context Eip7702 20) toy_delegated.1 toy_delegated.2 H1 H2
    (surjective_pairing _)) as (used & Hs & _ & Hd & _).
  exists used. split; [exact Hs|exact (Hd toy_authority)].
Defined.

(** A handler that reports the base fee it sees *)
Definition toy_handler : M BotanixContext EVMError EvmResult :=
  gets (λ c, ErSuccess 0 (be_basefee (cx_block c)) 0 [] []).

Lemma transact_raw_restores_checks_witness :
  let tx := mkTxEnv (Legacy, [], 0) true in
  let run inspect := transact_raw toy_handler toy_handler (λ c, (c, tt)) inspect (λ _, 30000000) tx (toy_context Legacy 20) in
  cx_block (run false).1 = cx_block (toy_context Legacy 20) ∧
  (run false).2 = Ok (ErSuccess 0 0 0 [] [], tt) ∧ (run true).2 = Ok (ErSuccess 0 7 0 [] [], tt).
Proof.
  intros tx run.
  assert (keeps_environment toy_handler) as Hk by (split; by intros c).
  assert ((run false).2 = Ok (ErSuccess 0 0 0 [] [], tt)) as Hr by reflexivity.
  assert ((run false).2 ≠ Panic) as Hp by (rewrite Hr; discriminate).
  destruct (transact_raw_restores_checks toy_handler toy_handler (λ c, (c, tt)) false (λ _, 30000000) tx
    (toy_context Legacy 20) (run false).1 (run false).2 Hk Hk (λ c, conj eq_refl eq_refl)
    (surjective_pairing _) Hp) as (Hb & _ & _).
  split_and!; [exact Hb|exact Hr|reflexivity].
Defined.

#[local] Existing Instance release.

Lemma fees_are_credited_twice_witness :
  let gas := mkGas 1000 0 in
  let c := toy_context Legacy 20 in
  let c' := (reward_beneficiary gas c).1 in
  let s' := (toy_step toy_burn_tx).1 in
  ja_balance (seen (cx_journal c') SYSTEM_ADDRESS) - ja_balance (seen (cx_journal c) SYSTEM_ADDRESS) =
    total_block_fees (x_out s') - total_block_fees (x_out toy_start) ∧
  total_block_fees (x_out s') - total_block_fees (x_out toy_start) = 20 * 1000.
Proof.
  intros gas c c' s'.
  assert (succeeds (toy_step toy_burn_tx) = true) as Hok by (vm_cast_no_check (eq_refl true)).
  assert (reward_beneficiary gas c = (c', Ok tt)) as Hr
    by (apply succeeds_unit; vm_cast_no_check (eq_refl true)).
  assert (total_gas_used (x_out s') = 1000) as Hgas by (vm_cast_no_check (eq_refl 1000)).
  destruct (fees_are_credited_twice Regtest toy_eth_header toy_package 0 toy_sender toy_burn_tx toy_start s' c c' gas
    (toy_step_run _ Hok) Hr eq_refl eq_refl) as (Hsame & Hfee & _);
    first [by rewrite Hgas|exact (conj Hsame Hfee)|split; by vm_compute|by vm_compute].
Defined.

Definition toy_builder : BotanixBlockExecutor := executor_new toy_db.

(** An environment with a gas limit and a base fee *)
Definition toy_env (limit basefee : Z) : EvmEnv :=
  (mkCfgEnv 1 Prague None false, mkBlockEnv 1 [] 2 0 None limit basefee None).

Lemma builder_keeps_gas_limit_witness :
  let s := builder_run (toy_env 1500 7) eth_receipt
    [(toy_burn_tx, toy_sender, λ _, true); (toy_burn_tx, toy_sender, λ _, false); (toy_mint_tx, toy_sender, λ _, true)]
    toy_builder in
  builder_inv (toy_env 1500 7) s ∧ bx_gas_used s = 1000.
Proof.
  intros s. split; [|by vm_compute].
  apply (builder_keeps_gas_limit (toy_env 1500 7) eth_receipt); [split; by vm_compute|reflexivity].
Defined.

(** The environment matters: under a base fee above its price the builder does
    not take the transaction. *)
Example dear_block_refuses :
  succeeds (execute_transaction_with_result_closure (toy_env 30000 20) eth_receipt toy_burn_tx toy_sender toy_builder) = true ∧
  succeeds (execute_transaction_with_result_closure (toy_env 30000 21) eth_receipt toy_burn_tx toy_sender toy_builder) = false.
Proof. split; [vm_cast_no_check (eq_refl true)|vm_cast_no_check (eq_refl false)]. Qed.

#[local] Instance toy_eth : EthLib := {
  EMPTY_OMMER_ROOT_HASH := [];
  EMPTY_TRANSACTIONS := [];
  EMPTY_RECEIPTS := [];
  hash_slow _ := [];
  calculate_transaction_root _ := [];
  calculate_receipt_root _ := [];
  receipt_bloom _ := 0;
  blob_gas_used_of _ := None;
  recover_signers _ := None;
  is_paris_active_at_block _ := true;
  is_london_active_at_block _ := true;
  is_cancun_active_at_timestamp _ := true;
  london_transitions_at_block _ := false;
  elasticity_multiplier_at _ := 2;
  next_block_base_fee _ _ := Some 7;
  calc_excess_blob_gas _ _ := 0;
  reth_validate_header_gas _ := true;
  reth_validate_header_base_fee _ := true;
  reth_validate_4844_header_standalone _ := true;
  reth_validate_cancun_gas _ _ := true;
  reth_validate_against_parent_hash_number _ _ := true;
  reth_validate_against_parent_timestamp _ _ := true;
  reth_validate_against_parent_eip1559_base_fee _ _ := true;
  reth_validate_against_parent_4844 _ _ := true }.

#[local] Instance toy_config : EvmConfigLib := {
  BlobParams := Z;
  max_blobs_per_tx n := n;
  calc_blob_fee _ _ := 1;
  eip4844_cancun := 6;
  spec_blob_params_cancun := 6;
  spec_chain_id := 1;
  reth_revm_spec _ _ := PRAGUE;
  maybe_next_block_excess_blob_gas _ _ := None }.




