(* ===== verification/Precompiles.v ===== *)
(** * Precompiled contracts

    src/bin/botanix-reth/src/evm/precompiles: the validation of light blocks
    of CometBFT (cometbft.rs), of aggregated BLS signatures (bls.rs), of
    evidence of two blocks signed at one height (double_sign.rs), of signatures
    of Tendermint (tm_secp256k1.rs), and the two that only call a library
    (tendermint.rs, iavl.rs); the set that the EVM is given (mod.rs).

    The cryptography, RLP and protobuf are parameters, as are the predicates
    of the light client.  A [copy_from_slice] between slices of different
    lengths panics.  The standard library's lossy reading of UTF-8 is written
    out. *)

From S2P Require Import Prelude Bytes Bitcoin Peg Execution NodeEvm.
From stdpp Require Import strings.

Open Scope Z_scope.

Inductive PrecompileError := OutOfGas | Other (msg : string).

Record PrecompileOutput := mkPrecompileOutput { po_gas_used : Z; po_bytes : bytes; po_reverted : bool }.

Abbreviation PrecompileResult := (outcome PrecompileError PrecompileOutput).

Definition output_new (gas_used : Z) (b : bytes) : PrecompileResult := Ok (mkPrecompileOutput gas_used b false).

Definition output_new_reverted (gas_used : Z) : PrecompileResult := Ok (mkPrecompileOutput gas_used [] true).

Inductive BotanixPrecompileError :=
| InvalidInput
| CometBftApplyBlockFailed
| CometBftEncodeConsensusStateFailed
| DoubleSignInvalidEvidence.

Definition PrecompileError_from (error : BotanixPrecompileError) : PrecompileError :=
  match error with
  | InvalidInput => Other "invalid input"
  | CometBftApplyBlockFailed => Other "apply block failed"
  | CometBftEncodeConsensusStateFailed => Other "encode consensus state failed"
  | DoubleSignInvalidEvidence => Other "double sign invalid evidence"
  end.

Definition into_err {A} (error : BotanixPrecompileError) : outcome PrecompileError A := Err (PrecompileError_from error).

(** [&b[from..to]] *)
Definition slice (from to : nat) (b : bytes) : bytes := take (to - from) (drop from b).

Definition copy_from_slice {E} (n : nat) (src : bytes) : outcome E bytes :=
  if bool_decide (length src = n) then Ok src else Panic.

(** ** Strings *)

Definition REPLACEMENT : bytes := [239; 191; 189].

(** [String::from_utf8_lossy]: each longest prefix of a character that stops
    is one replacement character. *)
Fixpoint from_utf8_lossy (b : bytes) : bytes :=
  match b with
  | [] => []
  | x :: b1 =>
      if x <=? 127 then x :: from_utf8_lossy b1 else
      match b1 with
      | [] => REPLACEMENT
      | y :: b2 =>
          if (194 <=? x) && (x <=? 223) then
            if cont y then x :: y :: from_utf8_lossy b2 else REPLACEMENT ++ from_utf8_lossy b1
          else if (224 <=? x) && (x <=? 239) then
            if cont y && negb ((x =? 224) && (y <? 160)) && negb ((x =? 237) && (159 <? y)) then
              match b2 with
              | [] => REPLACEMENT
              | z :: b3 => if cont z then x :: y :: z :: from_utf8_lossy b3 else REPLACEMENT ++ from_utf8_lossy b2
              end
            else REPLACEMENT ++ from_utf8_lossy b1
          else if (240 <=? x) && (x <=? 244) then
            if cont y && negb ((x =? 240) && (y <? 144)) && negb ((x =? 244) && (143 <? y)) then
              match b2 with
              | [] => REPLACEMENT
              | z :: b3 =>
                  if cont z then
                    match b3 with
                    | [] => REPLACEMENT
                    | w :: b4 =>
                        if cont w then x :: y :: z :: w :: from_utf8_lossy b4 else REPLACEMENT ++ from_utf8_lossy b3
                    end
                  else REPLACEMENT ++ from_utf8_lossy b2
              end
            else REPLACEMENT ++ from_utf8_lossy b1
          else REPLACEMENT ++ from_utf8_lossy b1
      end
  end.

(** [trim_end_matches('\0')] *)
Fixpoint strip_zeros (b : bytes) : bytes :=
  match b with x :: b' => if x =? 0 then strip_zeros b' else b | [] => [] end.

Definition trim_end_zeros (b : bytes) : bytes := reverse (strip_zeros (reverse b)).

(** ** Light blocks *)

Definition UINT64_TYPE_LENGTH : Z := 8.
Definition CONSENSUS_STATE_LENGTH_BYTES_LENGTH : Z := 32.
Definition VALIDATE_RESULT_METADATA_LENGTH : Z := 32.
Definition CHAIN_ID_LENGTH : Z := 32.
Definition HEIGHT_LENGTH : Z := 8.
Definition VALIDATOR_SET_HASH_LENGTH : Z := 32.
Definition VALIDATOR_PUBKEY_LENGTH : Z := 32.
Definition VALIDATOR_VOTING_POWER_LENGTH : Z := 8.
Definition RELAYER_ADDRESS_LENGTH : Z := 20.
Definition RELAYER_BLS_KEY_LENGTH : Z := 48.

Definition SINGLE_VALIDATOR_BYTES_LENGTH : Z :=
  VALIDATOR_PUBKEY_LENGTH + VALIDATOR_VOTING_POWER_LENGTH + RELAYER_ADDRESS_LENGTH + RELAYER_BLS_KEY_LENGTH.

Definition MAX_CONSENSUS_STATE_LENGTH : Z :=
  CHAIN_ID_LENGTH + HEIGHT_LENGTH + VALIDATOR_SET_HASH_LENGTH + 99 * SINGLE_VALIDATOR_BYTES_LENGTH.

Section light.
Context {PublicKey : Type}.

Record Validator := mkValidator {
  v_pub_key : PublicKey;
  v_power : Z;
  v_bls_key : bytes;
  v_relayer_address : bytes }.

(** The libraries of CometBFT and its light client *)
Class LightLib := {
  pk_to_bytes : PublicKey → bytes;
  from_raw_ed25519 : bytes → option PublicKey;
  ValidatorSet : Type;
  validators_of : ValidatorSet → list Validator;
  without_proposer : list Validator → ValidatorSet;
  set_hash : ValidatorSet → bytes;
  SignedHeader : Type;
  sh_height : SignedHeader → Z;
  sh_chain_id : SignedHeader → bytes;
  sh_validators_hash : SignedHeader → bytes;
  sh_next_validators_hash : SignedHeader → bytes;
  (** the overlap of the signers of a header with a set, by the threshold *)
  has_sufficient_validators_overlap : SignedHeader → ValidatorSet → Z * Z → bool;
  ProtoHeader : Type;
  ProtoSet : Type;
  signed_header_try_from : ProtoHeader → option SignedHeader;
  set_try_from : ProtoSet → option ValidatorSet;
  (** [merge] into the default: the two fields that are read *)
  merge_light_block : bytes → option (option ProtoHeader * option ProtoSet) }.

Context `{!LightLib}.

Definition TWO_THIRDS : Z * Z := (2, 3).
Definition ONE_THIRD : Z * Z := (1, 3).

Record TmLightBlock := mkTmLightBlock {
  lp_signed_header : option ProtoHeader;
  lp_validator_set : option ProtoSet }.

Record LightBlock := mkLightBlock {
  lb_signed_header : SignedHeader;
  lb_validators : ValidatorSet;
  lb_next_validators : ValidatorSet;
  lb_provider : bytes }.

Record ConsensusState := mkConsensusState {
  cs_chain_id : bytes;
  cs_height : Z;
  cs_next_validator_set_hash : bytes;
  cs_validators : ValidatorSet }.

Definition convert_light_block_from_proto (p : TmLightBlock) : outcome PrecompileError LightBlock :=
  let? sh := expect (lp_signed_header p) in
  let? signed_header := ok_or (signed_header_try_from sh) (PrecompileError_from InvalidInput) in
  let? vs := expect (lp_validator_set p) in
  let? validator_set := ok_or (set_try_from vs) (PrecompileError_from InvalidInput) in
  Ok (mkLightBlock signed_header validator_set validator_set (replicate 20 0)).

(** [height + 1] of a height below another does not overflow. *)
Definition apply_light_block (light_block : LightBlock) : M ConsensusState PrecompileError bool := λ cs,
  let header := lb_signed_header light_block in
  let failed e := (cs, into_err e) in
  let applied :=
    (mkConsensusState (cs_chain_id cs) (sh_height header) (sh_next_validators_hash header) (lb_validators light_block),
     Ok (negb (bool_decide (set_hash (cs_validators cs) = sh_validators_hash header)))) in
  if sh_height header <=? cs_height cs then failed InvalidInput else
  if negb (bool_decide (sh_chain_id header = cs_chain_id cs)) then failed InvalidInput else
  if cs_height cs + 1 =? sh_height header then
    if negb (bool_decide (cs_next_validator_set_hash cs = sh_validators_hash header)) then failed CometBftApplyBlockFailed else
    if negb (has_sufficient_validators_overlap header (lb_validators light_block) TWO_THIRDS)
    then failed CometBftApplyBlockFailed else applied
  else
    if negb (has_sufficient_validators_overlap header (cs_validators cs) ONE_THIRD) then failed CometBftApplyBlockFailed else
    if negb (has_sufficient_validators_overlap header (lb_validators light_block) TWO_THIRDS)
    then failed CometBftApplyBlockFailed else applied.

Definition encode_validator {E} (v : Validator) : outcome E bytes :=
  let? pk := copy_from_slice 32 (pk_to_bytes (v_pub_key v)) in
  let? power := copy_from_slice 8 (to_be_bytes 8 (v_power v)) in
  let? relayer := copy_from_slice 20 (v_relayer_address v) in
  let? bls := copy_from_slice 48 (v_bls_key v) in
  Ok (pk ++ power ++ relayer ++ bls).

(** The buffer of [serialize_length] bytes is filled from its start to its
    end. *)
Definition encode_consensus_state (cs : ConsensusState) : outcome PrecompileError bytes :=
  let validator_set_length := Z.of_nat (length (validators_of (cs_validators cs))) in
  let serialize_length :=
    CHAIN_ID_LENGTH + HEIGHT_LENGTH + VALIDATOR_SET_HASH_LENGTH + validator_set_length * SINGLE_VALIDATOR_BYTES_LENGTH in
  if MAX_CONSENSUS_STATE_LENGTH <? serialize_length then into_err CometBftEncodeConsensusStateFailed else
  if CHAIN_ID_LENGTH <? Z.of_nat (length (cs_chain_id cs)) then into_err CometBftEncodeConsensusStateFailed else
  let filled_chain_id := cs_chain_id cs ++ replicate (32 - length (cs_chain_id cs)) 0 in
  let? hash := copy_from_slice 32 (cs_next_validator_set_hash cs) in
  let? validators := omap_all encode_validator (validators_of (cs_validators cs)) in
  Ok (filled_chain_id ++ to_be_bytes 8 (cs_height cs) ++ hash ++ concat validators).

Definition decode_validator (validator : bytes) : outcome PrecompileError Validator :=
  let voting_power := from_be_bytes (slice 32 40 validator) in
  let relayer_address := slice 40 60 validator in
  let relayer_bls_key := drop 60 validator in
  let? pk := ok_or (from_raw_ed25519 (take 32 validator)) (PrecompileError_from InvalidInput) in
  Ok (mkValidator pk (voting_power mod 2 ^ 32) relayer_bls_key relayer_address).

Definition decode_consensus_state (input : bytes) : outcome PrecompileError ConsensusState :=
  let minimum_length := CHAIN_ID_LENGTH + HEIGHT_LENGTH + VALIDATOR_SET_HASH_LENGTH in
  let input_length := Z.of_nat (length input) in
  if (input_length <=? minimum_length) ||
     negb ((input_length - minimum_length) mod SINGLE_VALIDATOR_BYTES_LENGTH =? 0)
  then into_err InvalidInput else
  let chain_id := trim_end_zeros (from_utf8_lossy (take 32 input)) in
  let height := from_be_bytes (slice 32 40 input) in
  let next_validator_set_hash := slice 40 72 input in
  let validator_set_length := (input_length - minimum_length) / SINGLE_VALIDATOR_BYTES_LENGTH in
  let validator_set_bytes := drop 72 input in
  let? validator_set := omap_all (λ i, decode_validator (slice (i * 108) ((i + 1) * 108) validator_set_bytes))
                          (seq 0 (Z.to_nat validator_set_length)) in
  Ok (mkConsensusState chain_id height next_validator_set_hash (without_proposer validator_set)).

Definition decode_light_block_validation_input (input : bytes)
    : outcome PrecompileError (ConsensusState * TmLightBlock) :=
  let input_length := Z.of_nat (length input) in
  if input_length <? CONSENSUS_STATE_LENGTH_BYTES_LENGTH then into_err InvalidInput else
  let cs_length := from_be_bytes (slice 24 32 input) in
  match checked_add CONSENSUS_STATE_LENGTH_BYTES_LENGTH cs_length with
  | None => into_err InvalidInput
  | Some input_length_checked =>
      if input_length <? input_length_checked then into_err InvalidInput else
      let? consensus_state := decode_consensus_state (slice 32 (32 + Z.to_nat cs_length) input) in
      let? '(sh, vs) := ok_or (merge_light_block (drop (32 + Z.to_nat cs_length) input))
                          (PrecompileError_from InvalidInput) in
      Ok (consensus_state, mkTmLightBlock sh vs)
  end.

Definition encode_light_block_validation_result (validator_set_changed : bool) (consensus_state_bytes : bytes) : bytes :=
  (if validator_set_changed then 1 else 0) :: replicate 23 0 ++
  to_be_bytes 8 (Z.of_nat (length consensus_state_bytes)) ++ consensus_state_bytes.

Definition COMETBFT_LIGHT_BLOCK_VALIDATION_BASE : Z := 3000.

Definition cometbft_light_block_validation_run_inner (input : bytes) (gas_limit : Z) (is_hertz : bool) : PrecompileResult :=
  if gas_limit <? COMETBFT_LIGHT_BLOCK_VALIDATION_BASE then Err OutOfGas else
  let? '(consensus_state, tm_light_block) := decode_light_block_validation_input input in
  let? light_block := convert_light_block_from_proto tm_light_block in
  let '(consensus_state, result) := apply_light_block light_block consensus_state in
  let? validator_set_changed := result in
  let validator_set_changed := validator_set_changed && is_hertz in
  let? consensus_state_bytes := encode_consensus_state consensus_state in
  output_new COMETBFT_LIGHT_BLOCK_VALIDATION_BASE
    (encode_light_block_validation_result validator_set_changed consensus_state_bytes).

Definition cometbft_light_block_validation_run (input : bytes) (gas_limit : Z) : PrecompileResult :=
  cometbft_light_block_validation_run_inner input gas_limit true.

Definition cometbft_light_block_validation_run_before_hertz (input : bytes) (gas_limit : Z) : PrecompileResult :=
  cometbft_light_block_validation_run_inner input gas_limit false.

End light.

(** ** BLS signatures *)

Definition BLS_MSG_HASH_LENGTH : Z := 32.
Definition BLS_SIGNATURE_LENGTH : Z := 96.
Definition BLS_SINGLE_PUBKEY_LENGTH : Z := 48.

(** bls_on_arkworks, under the domain separation tag of Ethereum *)
Class BlsLib := {
  signature_to_point : bytes → bool;
  key_validate : bytes → bool;
  bls_verify : bytes → bytes → bytes → bool;
  bls_aggregate_verify : list bytes → list bytes → bytes → bool }.

Section bls.
Context `{!BlsLib}.

Definition bls_length_is_invalid (input_length : Z) : bool :=
  let msg_and_sig_length := BLS_MSG_HASH_LENGTH + BLS_SIGNATURE_LENGTH in
  (input_length <=? msg_and_sig_length) || negb ((input_length - msg_and_sig_length) mod BLS_SINGLE_PUBKEY_LENGTH =? 0).

Definition calc_gas_cost (input : bytes) : Z :=
  let msg_length := BLS_MSG_HASH_LENGTH + BLS_SIGNATURE_LENGTH in
  let input_length := Z.of_nat (length input) in
  if bls_length_is_invalid input_length then 1000 else
  let pub_key_number := (input_length - msg_length) / BLS_SINGLE_PUBKEY_LENGTH in
  1000 + 3500 * pub_key_number.

(** The loop over the keys: [None] when one is not valid. *)
Fixpoint bls_keys (pub_keys_data : bytes) (l : list nat) : option (list bytes) :=
  match l with
  | [] => Some []
  | i :: l =>
      let pub_key := slice (i * 48) ((i + 1) * 48) pub_keys_data in
      if negb (key_validate pub_key) then None else pub_keys ← bls_keys pub_keys_data l; Some (pub_key :: pub_keys)
  end.

Definition bls_signature_validation_run (input : bytes) (gas_limit : Z) : PrecompileResult :=
  let cost := calc_gas_cost input in
  if gas_limit <? cost then Err OutOfGas else
  let msg_and_sig_length := BLS_MSG_HASH_LENGTH + BLS_SIGNATURE_LENGTH in
  let input_length := Z.of_nat (length input) in
  if bls_length_is_invalid input_length then output_new_reverted cost else
  let msg_hash := take 32 input in
  let signature := slice 32 128 input in
  let pub_keys_data := drop 128 input in
  if negb (signature_to_point signature) then output_new_reverted cost else
  let pub_key_count := (input_length - msg_and_sig_length) / BLS_SINGLE_PUBKEY_LENGTH in
  match bls_keys pub_keys_data (seq 0 (Z.to_nat pub_key_count)) with
  | None => output_new_reverted cost
  | Some pub_keys =>
      let msg_hashes := map (λ _, msg_hash) pub_keys in
      match pub_keys with
      | [] => output_new_reverted cost
      | pub_key :: _ =>
          let output :=
            if ((length pub_keys =? 1)%nat && negb (bls_verify pub_key msg_hash signature)) ||
               negb (bls_aggregate_verify pub_keys msg_hashes signature)
            then [] else [1] in
          output_new cost output
      end
  end.

End bls.

(** ** Evidence of double signing *)

Definition EXTRA_SEAL_LENGTH : nat := 65.

Record DoubleSignEvidence := mkDoubleSignEvidence {
  ev_chain_id : Z;
  header_bytes1 : bytes;
  header_bytes2 : bytes }.

Record DsHeader := mkDsHeader {
  ds_parent_hash : bytes;
  ds_uncle_hash : bytes;
  ds_coinbase : bytes;
  ds_root : bytes;
  ds_tx_hash : bytes;
  ds_receipt_hash : bytes;
  ds_bloom : bytes;
  ds_difficulty : Z;
  ds_number : Z;
  ds_gas_limit : Z;
  ds_gas_used : Z;
  ds_time : Z;
  ds_extra : bytes;
  ds_mix_digest : bytes;
  ds_nonce : bytes }.

(** The fields of the header with the chain's id, and the extra data without
    the seal *)
Record SealContent := mkSealContent { sc_chain_id : Z; sc_header : DsHeader }.

(** The RLP decoders and encoder that are derived for the structures, the
    hash, and the recovery of an address, padded to 32 bytes *)
Class SealLib := {
  decode_evidence : bytes → option DoubleSignEvidence;
  decode_header : bytes → option DsHeader;
  rlp_encode_seal : SealContent → bytes;
  keccak : bytes → bytes;
  ecrecover : bytes → Z → bytes → option bytes }.

Section double_sign.
Context `{!SealLib}.

Definition set_ds_extra (extra : bytes) (h : DsHeader) : DsHeader :=
  mkDsHeader (ds_parent_hash h) (ds_uncle_hash h) (ds_coinbase h) (ds_root h) (ds_tx_hash h) (ds_receipt_hash h)
    (ds_bloom h) (ds_difficulty h) (ds_number h) (ds_gas_limit h) (ds_gas_used h) (ds_time h) extra (ds_mix_digest h)
    (ds_nonce h).

Definition seal_hash (header : DsHeader) (chain_id : Z) : bytes :=
  let seal_content :=
    mkSealContent chain_id (set_ds_extra (take (length (ds_extra header) - EXTRA_SEAL_LENGTH) (ds_extra header)) header) in
  keccak (rlp_encode_seal seal_content).

Definition seal_of (header : DsHeader) : bytes := drop (length (ds_extra header) - EXTRA_SEAL_LENGTH) (ds_extra header).

Definition DOUBLE_SIGN_EVIDENCE_VALIDATION_BASE : Z := 10000.

Definition double_sign_evidence_validation_run (input : bytes) (gas_limit : Z) : PrecompileResult :=
  if gas_limit <? DOUBLE_SIGN_EVIDENCE_VALIDATION_BASE then Err OutOfGas else
  let revert := output_new_reverted DOUBLE_SIGN_EVIDENCE_VALIDATION_BASE in
  match decode_evidence input with
  | None => revert
  | Some evidence =>
  match decode_header (header_bytes1 evidence) with
  | None => revert
  | Some header1 =>
  match decode_header (header_bytes2 evidence) with
  | None => revert
  | Some header2 =>
      if (32 <? length (to_be_bytes 8 (ds_number header1)))%nat || (32 <? length (to_be_bytes 8 (ds_number header2)))%nat
      then into_err DoubleSignInvalidEvidence else
      if negb (ds_number header1 =? ds_number header2) then into_err DoubleSignInvalidEvidence else
      if negb (bool_decide (ds_parent_hash header1 = ds_parent_hash header2)) then into_err DoubleSignInvalidEvidence else
      if (length (ds_extra header1) <? EXTRA_SEAL_LENGTH)%nat || (length (ds_extra header2) <? EXTRA_SEAL_LENGTH)%nat
      then into_err DoubleSignInvalidEvidence else
      let sig1 := seal_of header1 in
      let sig2 := seal_of header2 in
      if bool_decide (sig1 = sig2) then into_err DoubleSignInvalidEvidence else
      let msg_hash1 := seal_hash header1 (ev_chain_id evidence) in
      let msg_hash2 := seal_hash header2 (ev_chain_id evidence) in
      if bool_decide (msg_hash1 = msg_hash2) then into_err DoubleSignInvalidEvidence else
      let? recid1 := expect (sig1 !! 64%nat) in
      match ecrecover (take 64 sig1) recid1 msg_hash1 with
      | None => revert
      | Some addr1 =>
          let? recid2 := expect (sig2 !! 64%nat) in
          match ecrecover (take 64 sig2) recid2 msg_hash2 with
          | None => revert
          | Some addr2 =>
              if negb (bool_decide (addr1 = addr2)) then into_err DoubleSignInvalidEvidence else
              let? signer := copy_from_slice 20 (drop 12 addr1) in
              output_new DOUBLE_SIGN_EVIDENCE_VALIDATION_BASE
                (signer ++ replicate 24 0 ++ to_be_bytes 8 (ds_number header1))
          end
      end
  end end end.

End double_sign.

(** ** Signatures of Tendermint *)

Class TmLib := {
  pubkey_from_slice : bytes → bool;
  signature_from_compact : bytes → bool;
  (** of the public key, the signature and the digest *)
  ecdsa_verify : bytes → bytes → bytes → bool;
  from_raw_secp256k1 : bytes → bool;
  account_id : bytes → bytes;
  (** [TmHeaderVerifier::execute] writes to a buffer that starts as three
      zeros, [iavl_proof::execute] to one of 32 bytes. *)
  tm_header_verifier_execute : bytes → bytes → outcome string bytes;
  iavl_proof_execute : bytes → bytes → bool → bool → bool → outcome string bytes }.

Section tendermint.
Context `{!TmLib}.

Definition SECP256K1_PUBKEY_LENGTH : nat := 33.
Definition SECP256K1_SIGNATURE_LENGTH : nat := 64.
Definition SECP256K1_SIGNATURE_MSGHASH_LENGTH : nat := 32.

Definition tm_secp256k1_signature_recover_run (input : bytes) (gas_limit : Z) : PrecompileResult :=
  if gas_limit <? 3000 then Err OutOfGas else
  if negb (bool_decide (length input =
       SECP256K1_PUBKEY_LENGTH + SECP256K1_SIGNATURE_LENGTH + SECP256K1_SIGNATURE_MSGHASH_LENGTH)%nat)
  then Err (Other "invalid input") else
  let public_key := take SECP256K1_PUBKEY_LENGTH input in
  if negb (pubkey_from_slice public_key) then Err (Other "invalid pubkey") else
  let message := drop (SECP256K1_PUBKEY_LENGTH + SECP256K1_SIGNATURE_LENGTH) input in
  let sig := slice SECP256K1_PUBKEY_LENGTH (SECP256K1_PUBKEY_LENGTH + SECP256K1_SIGNATURE_LENGTH) input in
  if negb (signature_from_compact sig) then Err (Other "invalid signature") else
  if negb (ecdsa_verify public_key sig message) then Err (Other "invalid signature") else
  if negb (from_raw_secp256k1 public_key) then Err (Other "invalid pubkey") else
  output_new 3000 (account_id public_key).

Definition tendermint_header_validation_run (input : bytes) (gas_limit : Z) : PrecompileResult :=
  if gas_limit <? 3000 then Err OutOfGas else
  match tm_header_verifier_execute input [0; 0; 0] with
  | Ok output => output_new 3000 output
  | Err str => Err (Other str)
  | Panic => Panic
  end.

Definition tendermint_header_validation_run_nano (input : bytes) (gas_limit : Z) : PrecompileResult :=
  Err (Other "suspended").

Definition iavl_proof_validation_run_inner (input : bytes) (gas_limit : Z) (is_moran is_planck is_plato : bool)
    : PrecompileResult :=
  if gas_limit <? 3000 then Err OutOfGas else
  match iavl_proof_execute input (replicate 32 0) is_moran is_planck is_plato with
  | Ok output => output_new 3000 output
  | Err str => Err (Other str)
  | Panic => Panic
  end.

Definition iavl_proof_validation_run (input : bytes) (gas_limit : Z) : PrecompileResult :=
  iavl_proof_validation_run_inner input gas_limit false false false.

Definition iavl_proof_validation_run_nano (input : bytes) (gas_limit : Z) : PrecompileResult := Err (Other "suspended").

Definition iavl_proof_validation_run_moran (input : bytes) (gas_limit : Z) : PrecompileResult :=
  iavl_proof_validation_run_inner input gas_limit true false false.

Definition iavl_proof_validation_run_planck (input : bytes) (gas_limit : Z) : PrecompileResult :=
  iavl_proof_validation_run_inner input gas_limit false true false.

Definition iavl_proof_validation_run_plato (input : bytes) (gas_limit : Z) : PrecompileResult :=
  iavl_proof_validation_run_inner input gas_limit false false true.

(** ** The contracts of the EVM *)

(** A precompiled contract at an address *)
Abbreviation Precompiles := (gmap bytes (bytes → Z → PrecompileResult)).

Definition u64_to_address (n : Z) : bytes := to_be_bytes 20 n.

Definition TENDERMINT_HEADER_VALIDATION := (u64_to_address 100, tendermint_header_validation_run).
Definition IAVL_PROOF_VALIDATION := (u64_to_address 101, iavl_proof_validation_run).

(** [prague] is the set of revm. *)
Definition BotanixPrecompiles_new (prague : Precompiles) (spec : BotanixHardfork) : Precompiles * SpecId :=
  (prague, SpecId_from spec).

Definition genesis (prague : Precompiles) : Precompiles :=
  <[IAVL_PROOF_VALIDATION.1 := IAVL_PROOF_VALIDATION.2]>
    (<[TENDERMINT_HEADER_VALIDATION.1 := TENDERMINT_HEADER_VALIDATION.2]> prague).

End tendermint.

(** ** Strings that survive *)

Lemma utf8_lossy_valid n b : (length b ≤ n)%nat → utf8_valid b = true → from_utf8_lossy b = b.
Proof.
  revert b. induction n as [|n IH]; intros [|x b1] Hn Hv; try done; [cbn in Hn; lia|].
  cbn [utf8_valid from_utf8_lossy] in *. cbn [length] in Hn.
  destruct (x <=? 127); [f_equal; apply IH; [lia|done]|].
  destruct b1 as [|y b2]; [done|]. cbn [length] in Hn.
  destruct ((194 <=? x) && (x <=? 223)).
  { apply andb_true_iff in Hv as [-> Hv]. do 2 f_equal. apply IH; [lia|done]. }
  destruct b2 as [|z b3]; [done|]. cbn [length] in Hn.
  destruct ((224 <=? x) && (x <=? 239)).
  { rewrite !andb_true_iff in Hv. destruct Hv as ((((-> & ->) & ->) & ->) & Hv). cbn [andb].
    do 3 f_equal. apply IH; [lia|done]. }
  destruct b3 as [|w b4]; [done|]. cbn [length] in Hn.
  rewrite !andb_true_iff in Hv. destruct Hv as (((((((-> & ->) & ->) & ->) & ->) & ->) & ->) & Hv). cbn [andb].
  do 4 f_equal. apply IH; [lia|done].
Qed.

Lemma utf8_valid_app n a b : (length a ≤ n)%nat → utf8_valid a = true → utf8_valid b = true → utf8_valid (a ++ b) = true.
Proof.
  revert a. induction n as [|n IH]; intros [|x b1] Hn Hv Hb; try done; [cbn in Hn; lia|].
  cbn [utf8_valid app] in *. cbn [length] in Hn.
  destruct (x <=? 127); [apply IH; [lia|done..]|].
  destruct b1 as [|y b2]; [done|]. cbn [length app] in *.
  destruct ((194 <=? x) && (x <=? 223)).
  { apply andb_true_iff in Hv as [-> Hv]. apply IH; [lia|done..]. }
  destruct b2 as [|z b3]; [done|]. cbn [length app] in *.
  destruct ((224 <=? x) && (x <=? 239)).
  { rewrite !andb_true_iff in Hv |- *. destruct Hv as (Hv1 & Hv). split; [done|]. apply IH; [lia|done..]. }
  destruct b3 as [|w b4]; [done|]. cbn [length app] in *.
  rewrite !andb_true_iff in Hv |- *. destruct Hv as (Hv1 & Hv). split; [done|]. apply IH; [lia|done..].
Qed.

Lemma trim_end_padded a n : last a ≠ Some 0 → trim_end_zeros (a ++ replicate n 0) = a.
Proof.
  intros Ha. unfold trim_end_zeros. rewrite reverse_app, reverse_replicate.
  assert (∀ b, strip_zeros (replicate n 0 ++ b) = strip_zeros b) as -> by (intros b; induction n; [done|exact IHn]).
  destruct (reverse a) as [|x l] eqn:E.
  - by apply (f_equal reverse) in E; rewrite reverse_involutive in E.
  - cbn [strip_zeros]. destruct (Z.eqb_spec x 0) as [->|Hx]; [|by rewrite <-E, reverse_involutive].
    destruct Ha. by rewrite <-(reverse_involutive a), E, last_reverse.
Qed.

(** A chain id that [encode] pads is read back: it is a string, and does not
    end in a zero itself. *)
Lemma chain_id_roundtrip a :
  utf8_valid a = true → last a ≠ Some 0 → (length a ≤ 32)%nat →
  trim_end_zeros (from_utf8_lossy (a ++ replicate (32 - length a) 0)) = a.
Proof.
  intros Hv Hl Hn. rewrite (utf8_lossy_valid _ _ (le_n _)).
  - by apply trim_end_padded.
  - eapply utf8_valid_app; [done|done|]. apply utf8_valid_ascii, Forall_replicate. lia.
Qed.

(** ** The consensus state *)

Section light_theorems.
Context {PublicKey : Type} `{!LightLib (PublicKey:=PublicKey)}.

(** The fields of a validator that have a fixed size in the encoding *)
Definition sized_validator (v : Validator) : Prop :=
  length (pk_to_bytes (v_pub_key v)) = 32%nat ∧ length (v_relayer_address v) = 20%nat ∧ length (v_bls_key v) = 48%nat.

Definition validator_bytes (v : Validator) : bytes :=
  pk_to_bytes (v_pub_key v) ++ to_be_bytes 8 (v_power v) ++ v_relayer_address v ++ v_bls_key v.

Lemma copy_from_slice_Ok {E} n src b : copy_from_slice (E:=E) n src = Ok b ↔ length src = n ∧ b = src.
Proof. unfold copy_from_slice. case_bool_decide; naive_solver. Qed.

Lemma copy_from_slice_eq {E} n src : length src = n → copy_from_slice (E:=E) n src = Ok src.
Proof. intros. by apply copy_from_slice_Ok. Qed.

Lemma encode_validator_cases {E} v :
  (sized_validator v ∧ encode_validator (E:=E) v = Ok (validator_bytes v)) ∨
  (¬ sized_validator v ∧ encode_validator (E:=E) v = Panic).
Proof.
  unfold encode_validator, sized_validator. rewrite (copy_from_slice_eq 8) by apply to_be_bytes_length.
  unfold copy_from_slice. repeat (case_bool_decide; cbn [obind]); try (right; split; [tauto|done]). by left.
Qed.

Lemma encode_validators_cases {E} l :
  (Forall sized_validator l ∧ omap_all (encode_validator (E:=E)) l = Ok (map validator_bytes l)) ∨
  (¬ Forall sized_validator l ∧ omap_all (encode_validator (E:=E)) l = Panic).
Proof.
  induction l as [|v l IH]; cbn [omap_all map]; [left; by split|]. rewrite Forall_cons.
  destruct (encode_validator_cases (E:=E) v) as [[Hv ->]|[Hv ->]]; cbn [obind]; [|right; split; [tauto|done]].
  destruct IH as [[Hl ->]|[Hl ->]]; cbn [obind]; [by left|right; split; [tauto|done]].
Qed.

Lemma validator_bytes_length v : sized_validator v → length (validator_bytes v) = 108%nat.
Proof. intros (H1 & H2 & H3). unfold validator_bytes. rewrite !length_app, to_be_bytes_length. lia. Qed.

Definition encoding (cs : ConsensusState) : bytes :=
  (cs_chain_id cs ++ replicate (32 - length (cs_chain_id cs)) 0) ++ to_be_bytes 8 (cs_height cs) ++
  cs_next_validator_set_hash cs ++ concat (map validator_bytes (validators_of (cs_validators cs))).

Definition number_of_validators (cs : ConsensusState) : Z := Z.of_nat (length (validators_of (cs_validators cs))).

(** When a consensus state has an encoding: up to 99 validators and a
    chain id of up to 32 bytes, an error otherwise.  Within these bounds the
    encoding is the chain id padded with zeros, the height, the hash and the
    validators one after the other; a hash, a key, an address or a BLS key of
    another size than the encoding's is not an error but a panic. *)
Theorem encode_consensus_state_spec cs :
  match encode_consensus_state cs with
  | Ok b => number_of_validators cs ≤ 99 ∧ (length (cs_chain_id cs) ≤ 32)%nat ∧
      length (cs_next_validator_set_hash cs) = 32%nat ∧ Forall sized_validator (validators_of (cs_validators cs)) ∧
      b = encoding cs ∧ Z.of_nat (length b) = 72 + 108 * number_of_validators cs
  | Err e => e = PrecompileError_from CometBftEncodeConsensusStateFailed ∧
      (99 < number_of_validators cs ∨ (32 < length (cs_chain_id cs))%nat)
  | Panic => number_of_validators cs ≤ 99 ∧ (length (cs_chain_id cs) ≤ 32)%nat ∧
      (length (cs_next_validator_set_hash cs) ≠ 32%nat ∨ ¬ Forall sized_validator (validators_of (cs_validators cs)))
  end.
Proof.
  unfold encode_consensus_state, number_of_validators.
  unfold MAX_CONSENSUS_STATE_LENGTH, SINGLE_VALIDATOR_BYTES_LENGTH, CHAIN_ID_LENGTH, HEIGHT_LENGTH,
    VALIDATOR_SET_HASH_LENGTH, VALIDATOR_PUBKEY_LENGTH, VALIDATOR_VOTING_POWER_LENGTH, RELAYER_ADDRESS_LENGTH,
    RELAYER_BLS_KEY_LENGTH.
  destruct (Z.ltb_spec (32 + 8 + 32 + 99 * (32 + 8 + 20 + 48))
    (32 + 8 + 32 + Z.of_nat (length (validators_of (cs_validators cs))) * (32 + 8 + 20 + 48))) as [Hn|Hn].
  { cbn [into_err]. split; [done|]. lia. }
  destruct (Z.ltb_spec 32 (Z.of_nat (length (cs_chain_id cs)))) as [Hc|Hc]; [cbn [into_err]; split; [done|lia]|].
  unfold copy_from_slice. case_bool_decide as Hh; cbn [obind]; [|split_and!; [lia|lia|by left]].
  destruct (encode_validators_cases (E:=PrecompileError) (validators_of (cs_validators cs))) as [[Hv ->]|[Hv ->]];
    cbn [obind]; [|split_and!; [lia|lia|by right]].
  split_and!; [lia|lia|done|done|done|].
  assert (∀ l, Forall sized_validator l → length (concat (map validator_bytes l)) = (108 * length l)%nat) as Hlen.
  { induction 1 as [|v l Hv' Hl IH]; [done|]. cbn [map concat length]. rewrite length_app, IH, validator_bytes_length by done.
    lia. }
  rewrite !length_app, length_replicate, to_be_bytes_length, Hh, Hlen by done. lia.
Qed.

(** *** Reading it back *)

Definition truncate_power (v : Validator (PublicKey:=PublicKey)) : Validator :=
  mkValidator (v_pub_key v) (v_power v mod 2 ^ 32) (v_bls_key v) (v_relayer_address v).

Definition from_raw_law (v : Validator) : Prop :=
  from_raw_ed25519 (pk_to_bytes (v_pub_key v)) = Some (v_pub_key v) ∧ is_u64 (v_power v).

Lemma u64_be_roundtrip v : is_u64 v → from_be_bytes (to_be_bytes 8 v) = v.
Proof.
  intros Hv. apply from_to_be_bytes. unfold is_u64, u64_max in Hv.
  change (256 ^ Z.of_nat 8) with 18446744073709551616. lia.
Qed.

Lemma slice_app (a b c : bytes) : slice (length a) (length a + length b) (a ++ b ++ c) = b.
Proof. unfold slice. rewrite drop_app_length. replace (_ - _)%nat with (length b) by lia. apply take_app_length. Qed.

Lemma decode_validator_bytes v :
  sized_validator v → from_raw_law v → decode_validator (validator_bytes v) = Ok (truncate_power v).
Proof.
  intros (Hk & Hr & Hb) (Hraw & Hp). unfold decode_validator, validator_bytes.
  pose proof (to_be_bytes_length 8 (v_power v)) as H8. set (p := to_be_bytes 8 (v_power v)) in *.
  pose proof (slice_app (pk_to_bytes (v_pub_key v)) p (v_relayer_address v ++ v_bls_key v)) as Hs1.
  pose proof (slice_app (pk_to_bytes (v_pub_key v) ++ p) (v_relayer_address v) (v_bls_key v)) as Hs2.
  rewrite length_app, Hk, H8, Hr, <-app_assoc in Hs2. rewrite Hk, H8 in Hs1. cbn [Nat.add] in Hs1, Hs2.
  rewrite Hs1, Hs2. rewrite <-Hk at 1. rewrite take_app_length, Hraw. cbn [ok_or obind]. unfold truncate_power, p.
  rewrite u64_be_roundtrip by done. f_equal. f_equal.
  rewrite !app_assoc, drop_app_length'; [done|]. unfold p in H8. rewrite !length_app. lia.
Qed.

Lemma decode_validators_bytes l :
  Forall sized_validator l → Forall from_raw_law l →
  ∀ k done_bytes, length done_bytes = (108 * k)%nat →
  omap_all (λ i, decode_validator (slice (i * 108) ((i + 1) * 108) (done_bytes ++ concat (map validator_bytes l))))
    (seq k (length l)) = Ok (map truncate_power l).
Proof.
  intros Hs Hr. induction l as [|v l IH]; intros k done_bytes Hk; [done|].
  apply Forall_cons in Hs as [Hv Hs]. apply Forall_cons in Hr as [Hv' Hr]. cbn [length seq omap_all map concat].
  pose proof (validator_bytes_length v Hv) as Hlen.
  pose proof (slice_app done_bytes (validator_bytes v) (concat (map validator_bytes l))) as Hsl.
  rewrite Hk, Hlen in Hsl. replace (k * 108)%nat with (108 * k)%nat by lia.
  replace ((k + 1) * 108)%nat with (108 * k + 108)%nat by lia. rewrite Hsl.
  rewrite decode_validator_bytes by done. cbn [obind].
  specialize (IH Hs Hr (S k) (done_bytes ++ validator_bytes v)). rewrite <-app_assoc in IH. rewrite IH; [done|].
  rewrite length_app. lia.
Qed.

(** A state that the encoding can carry: what the code builds, with a chain id
    that is a string *)
Record wf_consensus_state (cs : ConsensusState) : Prop := {
  wc_utf8 : utf8_valid (cs_chain_id cs) = true;
  wc_no_zero : last (cs_chain_id cs) ≠ Some 0;
  wc_height : is_u64 (cs_height cs);
  wc_validators : validators_of (cs_validators cs) ≠ [];
  wc_keys : Forall from_raw_law (validators_of (cs_validators cs)) }.

Definition read_back (cs : ConsensusState) : ConsensusState :=
  mkConsensusState (cs_chain_id cs) (cs_height cs) (cs_next_validator_set_hash cs)
    (without_proposer (map truncate_power (validators_of (cs_validators cs)))).

Lemma decode_encoding cs b :
  wf_consensus_state cs → encode_consensus_state cs = Ok b → decode_consensus_state b = Ok (read_back cs).
Proof.
  intros [Hu Hz Hh Hne Hk] He. pose proof (encode_consensus_state_spec cs) as Hspec. rewrite He in Hspec.
  destruct Hspec as (Hn & Hc & Hhash & Hs & -> & Hlen). unfold decode_consensus_state.
  unfold SINGLE_VALIDATOR_BYTES_LENGTH, CHAIN_ID_LENGTH, HEIGHT_LENGTH, VALIDATOR_SET_HASH_LENGTH, VALIDATOR_PUBKEY_LENGTH,
    VALIDATOR_VOTING_POWER_LENGTH, RELAYER_ADDRESS_LENGTH, RELAYER_BLS_KEY_LENGTH.
  assert (0 < number_of_validators cs) as Hpos.
  { unfold number_of_validators. destruct (validators_of (cs_validators cs)); [done|cbn [length]; lia]. }
  rewrite Hlen. rewrite (proj2 (Z.leb_gt _ _)) by lia.
  replace (72 + 108 * number_of_validators cs - (32 + 8 + 32)) with (number_of_validators cs * (32 + 8 + 20 + 48)) by lia.
  rewrite Z_mod_mult. cbn [Z.eqb negb orb]. rewrite Z_div_mult by lia.
  set (chain := cs_chain_id cs ++ replicate (32 - length (cs_chain_id cs)) 0).
  assert (length chain = 32%nat) as Hchain by (unfold chain; rewrite length_app, length_replicate; lia).
  pose proof (to_be_bytes_length 8 (cs_height cs)) as H8.
  set (rest := concat (map validator_bytes (validators_of (cs_validators cs)))).
  assert (encoding cs = chain ++ to_be_bytes 8 (cs_height cs) ++ cs_next_validator_set_hash cs ++ rest) as Henc by done.
  assert (take 32 (encoding cs) = chain) as -> by (rewrite Henc, <-Hchain; apply take_app_length).
  assert (slice 32 40 (encoding cs) = to_be_bytes 8 (cs_height cs)) as ->.
  { pose proof (slice_app chain (to_be_bytes 8 (cs_height cs)) (cs_next_validator_set_hash cs ++ rest)) as Hsl.
    rewrite Hchain, H8 in Hsl. exact Hsl. }
  assert (slice 40 72 (encoding cs) = cs_next_validator_set_hash cs) as ->.
  { pose proof (slice_app (chain ++ to_be_bytes 8 (cs_height cs)) (cs_next_validator_set_hash cs) rest) as Hsl.
    rewrite length_app, Hchain, H8, Hhash, <-app_assoc in Hsl. exact Hsl. }
  assert (drop 72 (encoding cs) = rest) as ->.
  { rewrite Henc, !app_assoc, drop_app_length'; [done|]. rewrite !length_app. lia. }
  unfold number_of_validators. rewrite Nat2Z.id.
  pose proof (decode_validators_bytes (validators_of (cs_validators cs)) Hs Hk 0 [] eq_refl) as Hd.
  cbn [app] in Hd. fold rest in Hd. rewrite Hd. cbn [obind].
  unfold read_back, chain. rewrite chain_id_roundtrip by done.
  by rewrite u64_be_roundtrip.
Qed.

(** The encoding of a consensus state is read back as that state, its
    validators in the order of the library and their powers cut to 32 bits:
    a state with powers below 2^32, sorted as the library sorts, comes back as
    it was. *)
Theorem consensus_state_roundtrip cs b :
  wf_consensus_state cs → encode_consensus_state cs = Ok b →
  decode_consensus_state b = Ok (read_back cs) ∧
  (Forall (λ v, v_power v < 2 ^ 32) (validators_of (cs_validators cs)) →
    without_proposer (validators_of (cs_validators cs)) = cs_validators cs → decode_consensus_state b = Ok cs).
Proof.
  intros Hwf He. pose proof (decode_encoding cs b Hwf He) as Hd. split; [exact Hd|].
  intros Hp Hs. rewrite Hd. unfold read_back. destruct Hwf as [_ _ _ _ Hk].
  assert (map truncate_power (validators_of (cs_validators cs)) = validators_of (cs_validators cs)) as ->.
  { clear Hs Hd He. induction Hk as [|v l [_ Hv] Hl IH]; [done|]. apply Forall_cons in Hp as [Hvp Hp]. cbn [map].
    rewrite IH by done. f_equal. unfold truncate_power, is_u64 in *. rewrite Z.mod_small by lia. by destruct v. }
  rewrite Hs. by destruct cs.
Qed.

(** ** Light blocks *)

(** What a light block must show to a consensus state: a later height of the
    same chain, whose validators are, by the hash of the header, those that the
    state expects next, or whose signers have a third of the state's power; and
    two thirds of the power of the validators that come with the block. *)
Definition acceptable (lb : LightBlock) (cs : ConsensusState) : Prop :=
  let header := lb_signed_header lb in
  cs_height cs < sh_height header ∧ sh_chain_id header = cs_chain_id cs ∧
  (if cs_height cs + 1 =? sh_height header then cs_next_validator_set_hash cs = sh_validators_hash header
   else has_sufficient_validators_overlap header (cs_validators cs) ONE_THIRD = true) ∧
  has_sufficient_validators_overlap header (lb_validators lb) TWO_THIRDS = true.

Definition advanced (lb : LightBlock) (cs : ConsensusState) : ConsensusState :=
  mkConsensusState (cs_chain_id cs) (sh_height (lb_signed_header lb)) (sh_next_validators_hash (lb_signed_header lb))
    (lb_validators lb).

Lemma apply_light_block_cases lb cs :
  (acceptable lb cs ∧ apply_light_block lb cs = (advanced lb cs,
     Ok (negb (bool_decide (set_hash (cs_validators cs) = sh_validators_hash (lb_signed_header lb)))))) ∨
  (¬ acceptable lb cs ∧ (apply_light_block lb cs).1 = cs ∧ ∃ e, (apply_light_block lb cs).2 = Err e).
Proof.
  unfold apply_light_block, acceptable. set (h := lb_signed_header lb).
  generalize (negb (bool_decide (set_hash (cs_validators cs) = sh_validators_hash h))). intros changed.
  assert (∀ e : BotanixPrecompileError, ∀ P : Prop, ¬ P → (P ∧ (cs, into_err e) = (advanced lb cs, Ok changed)) ∨
    (¬ P ∧ ((cs, into_err (A:=bool) e)).1 = cs ∧ ∃ e', (cs, into_err (A:=bool) e).2 = Err e')) as Hfail
    by (intros e P HP; right; split; [done|split; [done|by eexists]]).
  destruct (Z.leb_spec (sh_height h) (cs_height cs)) as [Hh|Hh]; [apply Hfail; lia|].
  case_bool_decide as Hc; cbn [negb]; [|apply Hfail; tauto].
  destruct (Z.eqb_spec (cs_height cs + 1) (sh_height h)) as [Hn|Hn].
  - case_bool_decide as Hv; cbn [negb]; [|apply Hfail; tauto].
    destruct (has_sufficient_validators_overlap h (lb_validators lb) TWO_THIRDS) eqn:H2; cbn [negb];
      [left; by split_and!|apply Hfail; naive_solver].
  - destruct (has_sufficient_validators_overlap h (cs_validators cs) ONE_THIRD) eqn:H1'; cbn [negb];
      [|apply Hfail; naive_solver].
    destruct (has_sufficient_validators_overlap h (lb_validators lb) TWO_THIRDS) eqn:H2; cbn [negb];
      [left; by split_and!|apply Hfail; naive_solver].
Qed.

(** A light block advances the consensus state exactly when it is
    acceptable, to its height, its next validators and the validators that
    come with it, and the answer is whether the hash of the state's old
    validators is another than the header's; every other block is an error
    that leaves the state as it was.  The hash of the validators that come
    with the block is no part of this: a block is accepted, or not, whatever
    it is. *)
Theorem apply_light_block_spec lb cs cs' r :
  apply_light_block lb cs = (cs', r) →
  (acceptable lb cs ↔ ∃ changed, r = Ok changed) ∧
  (∀ changed, r = Ok changed → cs' = advanced lb cs ∧ cs_height cs < cs_height cs' ∧
     (changed = false ↔ set_hash (cs_validators cs) = sh_validators_hash (lb_signed_header lb))) ∧
  (∀ e, r = Err e → cs' = cs) ∧ r ≠ Panic.
Proof.
  intros Hrun. destruct (apply_light_block_cases lb cs) as [[Ha Heq]|(Ha & Hcs & e & He)]; rewrite Hrun in *.
  - injection Heq as -> ->. split_and!; [|intros changed [= <-]|done..].
    + split; [by eexists|done].
    + split_and!; [done|by destruct Ha|]. rewrite negb_false_iff. apply bool_decide_eq_true.
  - cbn [fst snd] in *. subst. split_and!; [|done..]. split; [done|by intros [? ?]].
Qed.

(** *** One output is the start of the next input *)

Lemma result_metadata changed b rest :
  Z.of_nat (length b) ≤ u64_max →
  let output := encode_light_block_validation_result changed b ++ rest in
  from_be_bytes (slice 24 32 output) = Z.of_nat (length b) ∧
  slice 32 (32 + length b) output = b ∧ drop (32 + length b) output = rest ∧
  length output = (32 + length b + length rest)%nat.
Proof.
  intros Hb output. pose proof (to_be_bytes_length 8 (Z.of_nat (length b))) as H8.
  set (n := to_be_bytes 8 (Z.of_nat (length b))) in *.
  set (pre := (if changed then 1 else 0) :: replicate 23 0).
  assert (output = pre ++ n ++ b ++ rest) as Ho.
  { unfold output, encode_light_block_validation_result, pre. fold n. by rewrite <-!app_comm_cons, <-!app_assoc. }
  assert (length pre = 24%nat) as Hpre by done. split_and!.
  - pose proof (slice_app pre n (b ++ rest)) as Hs. rewrite Hpre, H8 in Hs. rewrite Ho.
    change (24 + 8)%nat with 32%nat in Hs. rewrite Hs. apply u64_be_roundtrip. unfold is_u64. lia.
  - pose proof (slice_app (pre ++ n) b rest) as Hs. rewrite length_app, Hpre, H8, <-app_assoc in Hs. by rewrite Ho.
  - rewrite Ho, !app_assoc, drop_app_length'; [done|]. rewrite !length_app. lia.
  - rewrite Ho, !length_app. lia.
Qed.

(** C29.  The precompile advances a light client, call by call.  A call that
    succeeds costs 3000 gas; it has read a consensus state and a light block
    that is acceptable to it; and its output, with the bytes of another light
    block behind it, is again an input, whose consensus state is the advanced
    one: of the same chain, at the greater height of the block, with its next
    validators' hash and its validators, the powers cut to 32 bits. *)
Theorem light_client_advances input gas_limit is_hertz out :
  cometbft_light_block_validation_run_inner input gas_limit is_hertz = Ok out →
  po_gas_used out = 3000 ∧ 3000 ≤ gas_limit ∧ po_reverted out = false ∧
  ∃ cs p lb, decode_light_block_validation_input input = Ok (cs, p) ∧ convert_light_block_from_proto p = Ok lb ∧
    acceptable lb cs ∧
    (wf_consensus_state (advanced lb cs) → ∀ next sh vs, merge_light_block next = Some (sh, vs) →
      decode_light_block_validation_input (po_bytes out ++ next) = Ok (read_back (advanced lb cs), mkTmLightBlock sh vs)).
Proof.
  unfold cometbft_light_block_validation_run_inner, COMETBFT_LIGHT_BLOCK_VALIDATION_BASE.
  destruct (Z.ltb_spec gas_limit 3000) as [|Hgas]; [done|].
  intros ([cs p] & Hin & Hrun)%obind_Ok. apply obind_Ok in Hrun as (lb & Hlb & Hrun).
  destruct (apply_light_block lb cs) as [cs' r] eqn:Happly.
  destruct (apply_light_block_cases lb cs) as [[Ha Heq]|(_ & _ & e & He)].
  2: { rewrite Happly in He. cbn [snd] in He. by subst. }
  rewrite Happly in Heq. injection Heq as -> ->. cbn [obind] in Hrun. clear Happly.
  revert Hrun. generalize (negb (bool_decide (set_hash (cs_validators cs) = sh_validators_hash (lb_signed_header lb)))).
  intros changed Hrun.
  apply obind_Ok in Hrun as (b & Hb & [= <-]). split_and!; [done..|]. exists cs, p, lb. split_and!; [done..|].
  intros Hwf next sh vs Hnext. pose proof (encode_consensus_state_spec (advanced lb cs)) as Hspec. rewrite Hb in Hspec.
  destruct Hspec as (Hn & _ & _ & _ & _ & Hlen). unfold number_of_validators in *.
  destruct (result_metadata (changed && is_hertz) b next) as (Hm1 & Hm2 & Hm3 & Hm4); [unfold u64_max; lia|].
  cbn [po_bytes].
  unfold decode_light_block_validation_input, CONSENSUS_STATE_LENGTH_BYTES_LENGTH, checked_add.
  rewrite Hm1, Hm4. rewrite (proj2 (Z.ltb_ge _ _)) by lia. rewrite (proj2 (Z.leb_le _ u64_max)) by (unfold u64_max; lia).
  rewrite (proj2 (Z.ltb_ge _ _)) by lia. rewrite Nat2Z.id, Hm2, Hm3, (decode_encoding _ _ Hwf Hb). cbn [obind].
  by rewrite Hnext.
Qed.

(** A message without a header, or without validators behind a good header,
    is not an error: the call panics. *)
Theorem missing_fields_panic input gas_limit is_hertz cs p :
  3000 ≤ gas_limit → decode_light_block_validation_input input = Ok (cs, p) →
  lp_signed_header p = None ∨
    (∃ sh h, lp_signed_header p = Some sh ∧ signed_header_try_from sh = Some h ∧ lp_validator_set p = None) →
  cometbft_light_block_validation_run_inner input gas_limit is_hertz = Panic.
Proof.
  intros Hgas Hin Hmiss. unfold cometbft_light_block_validation_run_inner, COMETBFT_LIGHT_BLOCK_VALIDATION_BASE.
  rewrite (proj2 (Z.ltb_ge _ _)) by lia. rewrite Hin. cbn [obind]. unfold convert_light_block_from_proto.
  destruct Hmiss as [->|(sh & h & -> & Hh & ->)]; [done|]. cbn [expect obind]. by rewrite Hh.
Qed.

End light_theorems.

(** ** BLS signatures *)

Section bls_theorems.
Context `{!BlsLib}.

Lemma bls_keys_run keys before :
  Forall (λ k, length k = 48%nat) keys → ∀ i, length before = (48 * i)%nat →
  bls_keys (before ++ concat keys) (seq i (length keys)) = if forallb key_validate keys then Some keys else None.
Proof.
  intros Hk. revert before. induction Hk as [|k keys Hlen Hk IH]; intros before i Hi; [done|].
  cbn [length seq bls_keys concat forallb]. pose proof (slice_app before k (concat keys)) as Hs. rewrite Hi, Hlen in Hs.
  replace (i * 48)%nat with (48 * i)%nat by lia. replace ((i + 1) * 48)%nat with (48 * i + 48)%nat by lia. rewrite Hs.
  destruct (key_validate k); cbn [negb andb]; [|done].
  specialize (IH (before ++ k) (S i)). rewrite <-app_assoc in IH. rewrite IH by (rewrite length_app; lia).
  by destruct (forallb key_validate keys).
Qed.

(** The validation of a BLS signature, on a digest, a signature and any
    number of keys: it costs 1000 gas and 3500 for each key; a signature or a
    key that is not a point reverts; otherwise the output is a single one if
    the signature is the keys' aggregate for the digest (and, for one key, its
    own), and empty if it is not.  An input of another length reverts, for
    1000 gas. *)
Theorem bls_signature_validation_spec gas_limit :
  (∀ msg sig keys, length msg = 32%nat → length sig = 96%nat → Forall (λ k, length k = 48%nat) keys → keys ≠ [] →
    let cost := 1000 + 3500 * Z.of_nat (length keys) in
    bls_signature_validation_run (msg ++ sig ++ concat keys) gas_limit =
      if gas_limit <? cost then Err OutOfGas
      else if negb (signature_to_point sig) || negb (forallb key_validate keys) then output_new_reverted cost
      else output_new cost
             (if (match keys with [k] => bls_verify k msg sig | _ => true end) &&
                 bls_aggregate_verify keys (replicate (length keys) msg) sig then [1] else [])) ∧
  (∀ input, (¬ ∃ n, (0 < n)%nat ∧ length input = (128 + 48 * n)%nat) →
    bls_signature_validation_run input gas_limit = if gas_limit <? 1000 then Err OutOfGas else output_new_reverted 1000).
Proof.
  split.
  - intros msg sig keys Hm Hs Hk Hne cost.
    assert (length (concat keys) = (48 * length keys)%nat) as Hc.
    { clear Hne cost. induction Hk as [|k keys Hlen Hk IH]; [done|]. cbn [concat length]. rewrite length_app, IH. lia. }
    assert (0 < length keys)%nat as Hpos by (destruct keys; [done|cbn; lia]).
    assert (Z.of_nat (length (msg ++ sig ++ concat keys)) = 128 + Z.of_nat (length keys) * 48) as Hlen
      by (rewrite !length_app; lia).
    unfold bls_signature_validation_run, calc_gas_cost, bls_length_is_invalid, BLS_MSG_HASH_LENGTH, BLS_SIGNATURE_LENGTH,
      BLS_SINGLE_PUBKEY_LENGTH. rewrite Hlen.
    replace (128 + Z.of_nat (length keys) * 48 - (32 + 96)) with (Z.of_nat (length keys) * 48) by lia.
    rewrite (proj2 (Z.leb_gt _ _)), Z_mod_mult, Z_div_mult by lia. cbn [Z.eqb negb orb]. fold cost.
    destruct (gas_limit <? cost); [done|].
    assert (take 32 (msg ++ sig ++ concat keys) = msg) as -> by (rewrite <-Hm; apply take_app_length).
    pose proof (slice_app msg sig (concat keys)) as Hsl. rewrite Hm, Hs in Hsl. change (32 + 96)%nat with 128%nat in Hsl.
    rewrite Hsl. assert (drop 128 (msg ++ sig ++ concat keys) = concat keys) as ->
      by (rewrite app_assoc, drop_app_length'; [done|rewrite length_app; lia]).
    destruct (signature_to_point sig); cbn [negb orb]; [|done]. rewrite Nat2Z.id.
    pose proof (bls_keys_run keys [] Hk 0 eq_refl) as Hkeys. cbn [app] in Hkeys. rewrite Hkeys.
    destruct (forallb key_validate keys); cbn [negb]; [|done].
    destruct keys as [|k ks]; [done|].
    assert (map (λ _ : bytes, msg) (k :: ks) = replicate (length (k :: ks)) msg) as ->
      by (clear; induction (k :: ks) as [|x l IH]; [done|cbn; by rewrite IH]).
    f_equal. destruct ks as [|k' ks]; cbn [length Nat.eqb andb negb orb].
    + by destruct (bls_verify k msg sig), (bls_aggregate_verify [k] _ sig).
    + by destruct (bls_aggregate_verify _ _ sig).
  - intros input Hlen. assert (bls_length_is_invalid (Z.of_nat (length input)) = true) as Hinv.
    { unfold bls_length_is_invalid, BLS_MSG_HASH_LENGTH, BLS_SIGNATURE_LENGTH, BLS_SINGLE_PUBKEY_LENGTH.
      destruct (Z.leb_spec (Z.of_nat (length input)) (32 + 96)) as [|Hl]; [done|].
      destruct (Z.eqb_spec ((Z.of_nat (length input) - (32 + 96)) mod 48) 0) as [Hmod|]; [|done].
      change (32 + 96) with 128 in *. destruct Hlen. exists (Z.to_nat ((Z.of_nat (length input) - 128) / 48)).
      pose proof (Z.div_mod (Z.of_nat (length input) - 128) 48 ltac:(lia)) as Hd. lia. }
    unfold bls_signature_validation_run, calc_gas_cost. rewrite Hinv. by destruct (gas_limit <? 1000).
Qed.

End bls_theorems.

(** ** Evidence of double signing *)

Section double_sign_theorems.
Context `{!SealLib}.

(** Two headers of one height and one parent, sealed by one signer under two
    hashes *)
Record double_signed (ev : DoubleSignEvidence) (h1 h2 : DsHeader) (signer : bytes) : Prop := {
  dd_header1 : decode_header (header_bytes1 ev) = Some h1;
  dd_header2 : decode_header (header_bytes2 ev) = Some h2;
  dd_number : ds_number h1 = ds_number h2;
  dd_parent : ds_parent_hash h1 = ds_parent_hash h2;
  dd_sealed1 : (65 ≤ length (ds_extra h1))%nat;
  dd_sealed2 : (65 ≤ length (ds_extra h2))%nat;
  dd_seals : seal_of h1 ≠ seal_of h2;
  dd_hashes : seal_hash h1 (ev_chain_id ev) ≠ seal_hash h2 (ev_chain_id ev);
  dd_signer1 : ∃ r, seal_of h1 !! 64%nat = Some r ∧ ecrecover (take 64 (seal_of h1)) r (seal_hash h1 (ev_chain_id ev)) = Some signer;
  dd_signer2 : ∃ r, seal_of h2 !! 64%nat = Some r ∧ ecrecover (take 64 (seal_of h2)) r (seal_hash h2 (ev_chain_id ev)) = Some signer }.

Lemma seal_last h : (65 ≤ length (ds_extra h))%nat → ∃ r, seal_of h !! 64%nat = Some r.
Proof.
  intros Hlen. apply lookup_lt_is_Some_2. unfold seal_of, EXTRA_SEAL_LENGTH. rewrite length_drop. lia.
Qed.

(** Evidence is confirmed exactly when it is evidence: the call succeeds
    without a revert, for 10000 gas, if and only if the input holds two
    headers of one height and one parent, whose seals and sealed hashes
    differ and recover to one address; the output is that address and the
    height.  The call never panics. *)
Theorem double_sign_evidence_spec input gas_limit :
  (∀ sig r m a, ecrecover sig r m = Some a → length a = 32%nat) →
  double_sign_evidence_validation_run input gas_limit ≠ Panic ∧
  ∀ out, (double_sign_evidence_validation_run input gas_limit = Ok out ∧ po_reverted out = false) ↔
    (10000 ≤ gas_limit ∧ ∃ ev h1 h2 signer, decode_evidence input = Some ev ∧ double_signed ev h1 h2 signer ∧
      out = mkPrecompileOutput 10000 (drop 12 signer ++ replicate 24 0 ++ to_be_bytes 8 (ds_number h1)) false).
Proof.
  intros Hlaw. unfold double_sign_evidence_validation_run, DOUBLE_SIGN_EVIDENCE_VALIDATION_BASE.
  assert (∀ r : PrecompileResult, (r = output_new_reverted 10000 ∨ (∃ e, r = Err e)) → ∀ P : PrecompileOutput → Prop,
    (∀ out, ¬ P out) → r ≠ Panic ∧ ∀ out, (r = Ok out ∧ po_reverted out = false) ↔ P out) as Hno.
  { intros r [->|[e ->]] P HP; (split; [done|]); intros out; (split; [|by intros ?%HP]).
    - by intros [[= <-] ?].
    - by intros [? ?]. }
  destruct (Z.ltb_spec gas_limit 10000) as [|Hgas]; [apply Hno; [right; by eexists|intros out [? _]; lia]|].
  destruct (decode_evidence input) as [ev|]; [|apply Hno; [by left|intros out (_ & ? & ? & ? & ? & ? & _); congruence]].
  assert (∀ r : PrecompileResult, (r = output_new_reverted 10000 ∨ (∃ e, r = Err e)) →
    (∀ h1 h2 signer, ¬ double_signed ev h1 h2 signer) → r ≠ Panic ∧ ∀ out, (r = Ok out ∧ po_reverted out = false) ↔
    (10000 ≤ gas_limit ∧ ∃ ev' h1 h2 signer, Some ev = Some ev' ∧ double_signed ev' h1 h2 signer ∧
      out = mkPrecompileOutput 10000 (drop 12 signer ++ replicate 24 0 ++ to_be_bytes 8 (ds_number h1)) false)) as Hno'.
  { intros r Hr HP. apply Hno; [done|]. intros out (_ & ev' & h1 & h2 & signer & [= <-] & Hd & _). by eapply HP. }
  clear Hno.
  destruct (decode_header (header_bytes1 ev)) as [h1|] eqn:E1; [|apply Hno'; [by left|intros ? ? ? []; congruence]].
  destruct (decode_header (header_bytes2 ev)) as [h2|] eqn:E2; [|apply Hno'; [by left|intros ? ? ? []; congruence]].
  assert (∀ r : PrecompileResult, (r = output_new_reverted 10000 ∨ (∃ e, r = Err e)) →
    (∀ signer, ¬ double_signed ev h1 h2 signer) → r ≠ Panic ∧ ∀ out, (r = Ok out ∧ po_reverted out = false) ↔
    (10000 ≤ gas_limit ∧ ∃ ev' h1 h2 signer, Some ev = Some ev' ∧ double_signed ev' h1 h2 signer ∧
      out = mkPrecompileOutput 10000 (drop 12 signer ++ replicate 24 0 ++ to_be_bytes 8 (ds_number h1)) false)) as Hno.
  { intros r Hr HP. apply Hno'; [done|]. intros h1' h2' signer Hd. apply (HP signer).
    pose proof (dd_header1 _ _ _ _ Hd). pose proof (dd_header2 _ _ _ _ Hd). congruence. }
  clear Hno'. rewrite !to_be_bytes_length. change (32 <? 8)%nat with false. cbn [orb].
  destruct (Z.eqb_spec (ds_number h1) (ds_number h2)) as [Hn|Hn]; cbn [negb]; [|apply Hno; [right; by eexists|by intros ? []]].
  destruct (bool_decide_reflect (ds_parent_hash h1 = ds_parent_hash h2)) as [Hp|Hp]; cbn [negb];
    [|apply Hno; [right; by eexists|by intros ? []]].
  unfold EXTRA_SEAL_LENGTH. destruct (Nat.ltb_spec (length (ds_extra h1)) 65) as [Hl1|Hl1]; cbn [orb];
    [apply Hno; [right; by eexists|intros ? []; lia]|].
  destruct (Nat.ltb_spec (length (ds_extra h2)) 65) as [Hl2|Hl2]; [apply Hno; [right; by eexists|intros ? []; lia]|].
  destruct (bool_decide_reflect (seal_of h1 = seal_of h2)) as [Hs|Hs]; [apply Hno; [right; by eexists|by intros ? []]|].
  destruct (bool_decide_reflect (seal_hash h1 (ev_chain_id ev) = seal_hash h2 (ev_chain_id ev))) as [Hh|Hh];
    [apply Hno; [right; by eexists|by intros ? []]|].
  destruct (seal_last h1 Hl1) as [r1 Hr1]. destruct (seal_last h2 Hl2) as [r2 Hr2]. rewrite Hr1, Hr2. cbn [expect obind].
  destruct (ecrecover (take 64 (seal_of h1)) r1 _) as [a1|] eqn:Ea1;
    [|apply Hno; [by left|intros signer Hd; destruct (dd_signer1 _ _ _ _ Hd) as (? & ? & ?); congruence]].
  destruct (ecrecover (take 64 (seal_of h2)) r2 _) as [a2|] eqn:Ea2;
    [|apply Hno; [by left|intros signer Hd; destruct (dd_signer2 _ _ _ _ Hd) as (? & ? & ?); congruence]].
  destruct (bool_decide_reflect (a1 = a2)) as [<-|Ha]; cbn [negb].
  2: { apply Hno; [right; by eexists|]. intros signer Hd. destruct (dd_signer1 _ _ _ _ Hd) as (? & ? & ?).
       destruct (dd_signer2 _ _ _ _ Hd) as (? & ? & ?). congruence. }
  rewrite copy_from_slice_eq by (rewrite length_drop, (Hlaw _ _ _ _ Ea1); done). cbn [obind]. split; [done|].
  intros out. split.
  - intros [[= <-] _]. split; [done|]. exists ev, h1, h2, a1. split_and!; [done| |done].
    split; try done; [by exists r1|by exists r2].
  - intros (_ & ev' & h1' & h2' & signer & [= <-] & Hd & ->). split; [|done].
    pose proof (dd_header1 _ _ _ _ Hd). assert (h1' = h1) as -> by congruence.
    destruct (dd_signer1 _ _ _ _ Hd) as (r & ? & ?). assert (signer = a1) as -> by congruence. done.
Qed.

End double_sign_theorems.

(** ** Gas, and the contracts of the EVM *)

Section all_contracts.
Context {PublicKey : Type} `{!LightLib (PublicKey:=PublicKey), !BlsLib, !SealLib, !TmLib}.

(** A contract that answers within its gas: below [cost] it runs out of gas,
    and what it answers costs [cost]. *)
Definition charges (run : bytes → Z → PrecompileResult) (cost : bytes → Z) : Prop :=
  ∀ input gas_limit,
    (gas_limit < cost input → run input gas_limit = Err OutOfGas) ∧
    (∀ out, run input gas_limit = Ok out → po_gas_used out = cost input ∧ cost input ≤ gas_limit).

Lemma charges_intro run cost (body : bytes → PrecompileResult) :
  (∀ input gas_limit, run input gas_limit = if gas_limit <? cost input then Err OutOfGas else body input) →
  (∀ input out, body input = Ok out → po_gas_used out = cost input) → charges run cost.
Proof.
  intros Hrun Hbody input gas_limit. rewrite Hrun. destruct (Z.ltb_spec gas_limit (cost input)); (split; [lia || done|]).
  - done.
  - intros out Ho. split; [by apply Hbody|done].
Qed.

(** Every contract charges the gas of its kind, and no more than it is
    given: 3000 for light blocks, headers, proofs and signatures of
    Tendermint, 10000 for evidence, and by the number of keys for BLS. *)
Theorem contracts_charge_their_gas is_hertz a b c :
  charges (λ input gas, cometbft_light_block_validation_run_inner input gas is_hertz) (λ _, 3000) ∧
  charges bls_signature_validation_run calc_gas_cost ∧
  charges double_sign_evidence_validation_run (λ _, 10000) ∧
  charges tm_secp256k1_signature_recover_run (λ _, 3000) ∧
  charges tendermint_header_validation_run (λ _, 3000) ∧
  charges (λ input gas, iavl_proof_validation_run_inner input gas a b c) (λ _, 3000).
Proof.
  split_and!; (eapply charges_intro; [intros; reflexivity|]); cbv beta; intros input out.
  - intros ([cs p] & _ & Hrun)%obind_Ok. apply obind_Ok in Hrun as (lb & _ & Hrun).
    destruct (apply_light_block lb cs) as [cs' r]. apply obind_Ok in Hrun as (ch & _ & Hrun).
    by apply obind_Ok in Hrun as (bs & _ & [= <-]).
  - cbv zeta. repeat (case_match; try by intros [= <-]).
  - cbv zeta. repeat first
      [ intros [= <-]; reflexivity
      | discriminate
      | match goal with
        | |- (match ?o with Some _ => _ | None => _ end) = _ → _ => destruct o
        | |- (if ?b then _ else _) = _ → _ => destruct b
        | |- obind ?o _ = _ → _ => destruct o; cbn [obind]
        end ].
  - cbv zeta. repeat (case_match; try done). by intros [= <-].
  - case_match; try done. by intros [= <-].
  - case_match; try done. by intros [= <-].
Qed.

(** The set of the EVM is the one of Prague as it stands.  The set [genesis]
    adds the contracts of Tendermint's headers and of proofs, and leaves every
    other address; the contracts of light blocks, BLS signatures, evidence and
    signatures of Tendermint are in neither. *)
Theorem contracts_of_the_evm prague spec :
  (BotanixPrecompiles_new prague spec).1 = prague ∧
  genesis prague !! u64_to_address 100 = Some tendermint_header_validation_run ∧
  genesis prague !! u64_to_address 101 = Some iavl_proof_validation_run ∧
  ∀ a, a ≠ u64_to_address 100 → a ≠ u64_to_address 101 → genesis prague !! a = prague !! a.
Proof.
  unfold genesis, TENDERMINT_HEADER_VALIDATION, IAVL_PROOF_VALIDATION. cbn [fst snd].
  assert (u64_to_address 101 ≠ u64_to_address 100) as Hne by (by vm_compute). split_and!.
  - done.
  - by rewrite lookup_insert_ne, lookup_insert_eq.
  - by rewrite lookup_insert_eq.
  - intros a H100 H101. by rewrite !lookup_insert_ne.
Qed.

(** A signature of Tendermint is answered with the account of its key, and
    with an error for every other input. *)
Theorem tm_secp256k1_signature_recover_spec input gas_limit out :
  tm_secp256k1_signature_recover_run input gas_limit = Ok out ↔
  3000 ≤ gas_limit ∧ ∃ pk sig msg, input = pk ++ sig ++ msg ∧ length pk = 33%nat ∧ length sig = 64%nat ∧
    length msg = 32%nat ∧ pubkey_from_slice pk = true ∧ signature_from_compact sig = true ∧
    ecdsa_verify pk sig msg = true ∧ from_raw_secp256k1 pk = true ∧ out = mkPrecompileOutput 3000 (account_id pk) false.
Proof.
  unfold tm_secp256k1_signature_recover_run, SECP256K1_PUBKEY_LENGTH, SECP256K1_SIGNATURE_LENGTH,
    SECP256K1_SIGNATURE_MSGHASH_LENGTH. split.
  - destruct (Z.ltb_spec gas_limit 3000); [done|]. case_bool_decide as Hlen; cbn [negb]; [|done].
    destruct (pubkey_from_slice _) eqn:Hv1; cbn [negb]; [|done].
    destruct (signature_from_compact _) eqn:Hv2; cbn [negb]; [|done].
    destruct (ecdsa_verify _ _ _) eqn:Hv3; cbn [negb]; [|done].
    destruct (from_raw_secp256k1 _) eqn:Hv4; cbn [negb]; [|done]. intros [= <-]. split; [done|].
    eexists _, _, _. split_and!; try done.
    + unfold slice. change (33 + 64 - 33)%nat with 64%nat.
      rewrite <-drop_drop. by rewrite take_drop, take_drop.
    + rewrite length_take. lia.
    + unfold slice. rewrite length_take, length_drop. lia.
    + rewrite length_drop. lia.
  - intros (Hg & pk & sig & msg & -> & Hp & Hs & Hm & Hv1 & Hv2 & Hv3 & Hv4 & ->).
    rewrite (proj2 (Z.ltb_ge _ _)) by lia. rewrite bool_decide_true by (rewrite !length_app; lia). cbn [negb].
    pose proof (slice_app pk sig msg) as Hsl. rewrite Hp, Hs in Hsl. rewrite Hsl.
    assert (take 33 (pk ++ sig ++ msg) = pk) as -> by (rewrite <-Hp; apply take_app_length).
    assert (drop (33 + 64) (pk ++ sig ++ msg) = msg) as ->
      by (rewrite app_assoc, drop_app_length'; [done|rewrite length_app; lia]).
    by rewrite Hv1, Hv2, Hv3, Hv4.
Qed.

End all_contracts.

(** ** A concrete instance *)

(** Keys are their bytes; a header carries who signed it; an overlap is
    counted in powers.  A message is a byte that names a block of a table. *)
Record ToyHeader := mkToyHeader {
  th_height : Z;
  th_chain_id : bytes;
  th_validators_hash : bytes;
  th_next_validators_hash : bytes;
  th_signers : list bytes }.

Definition toy_overlap (h : ToyHeader) (l : list (Validator (PublicKey:=bytes))) (threshold : Z * Z) : bool :=
  let signed := sumZ (map v_power (filter (λ v, v_pub_key v ∈ th_signers h) l)) in
  threshold.1 * sumZ (map v_power l) <? threshold.2 * signed.

Definition toy_validator (k : Z) (power : Z) : Validator :=
  mkValidator (replicate 32 k) power (replicate 48 k) (replicate 20 k).

Definition toy_set_hash (l : list (Validator (PublicKey:=bytes))) : bytes :=
  replicate 32 (sumZ (map (λ v, default 0 (head (v_pub_key v)) * v_power v) l) mod 256).

Definition toy_light_chain : bytes := [98; 111; 116].

(** The validators that the chain has elected, and ones that nobody has *)
Definition toy_elected : list (Validator (PublicKey:=bytes)) := [toy_validator 1 10; toy_validator 2 5].
Definition toy_strangers : list (Validator (PublicKey:=bytes)) := [toy_validator 66 1].

Definition toy_light_header (height : Z) (signers : list bytes) : ToyHeader :=
  mkToyHeader height toy_light_chain (toy_set_hash toy_elected) (replicate 32 9) signers.

Definition toy_message (b : bytes) : option (option ToyHeader * option (list Validator)) :=
  match b with
  | [1] => Some (Some (toy_light_header 6 [replicate 32 1; replicate 32 2]), Some toy_elected)
  | [2] => Some (Some (toy_light_header 6 [replicate 32 66]), Some toy_strangers)
  | [3] => Some (Some (toy_light_header 9 [replicate 32 1; replicate 32 2]), Some toy_elected)
  | [4] => Some (None, Some toy_elected)
  | _ => None
  end.

#[local] Instance toy_light : LightLib (PublicKey:=bytes) := {
  pk_to_bytes k := k;
  from_raw_ed25519 b := if bool_decide (length b = 32%nat) then Some b else None;
  ValidatorSet := list (Validator (PublicKey:=bytes));
  validators_of l := l;
  without_proposer l := l;
  set_hash := toy_set_hash;
  SignedHeader := ToyHeader;
  sh_height := th_height;
  sh_chain_id := th_chain_id;
  sh_validators_hash := th_validators_hash;
  sh_next_validators_hash := th_next_validators_hash;
  has_sufficient_validators_overlap := toy_overlap;
  ProtoHeader := ToyHeader;
  ProtoSet := list (Validator (PublicKey:=bytes));
  signed_header_try_from := Some;
  set_try_from := Some;
  merge_light_block := toy_message }.

(** A state at height 5 that expects the elected validators next *)
Definition toy_light_state : ConsensusState := mkConsensusState toy_light_chain 5 (toy_set_hash toy_elected) toy_elected.

Definition toy_block_of (h : ToyHeader) (l : list (Validator (PublicKey:=bytes))) : LightBlock :=
  mkLightBlock h l l (replicate 20 0).

Lemma toy_light_state_wf : wf_consensus_state toy_light_state.
Proof.
  split; cbn; [done|done|unfold is_u64, u64_max; lia|done|].
  repeat constructor; cbn; unfold is_u64, u64_max; lia.
Qed.

Lemma consensus_state_roundtrip_witness : decode_consensus_state (encoding toy_light_state) = Ok toy_light_state.
Proof.
  assert (encode_consensus_state toy_light_state = Ok (encoding toy_light_state)) as He by (by vm_compute).
  apply (consensus_state_roundtrip toy_light_state (encoding toy_light_state) toy_light_state_wf He); [|reflexivity].
  repeat (constructor; [by vm_compute|]). constructor.
Defined.

(** A power of 2^32 comes back as zero. *)
Example power_is_cut :
  let cs := mkConsensusState toy_light_chain 5 (replicate 32 0) [toy_validator 1 (2 ^ 32)] in
  (let? b := encode_consensus_state cs in decode_consensus_state b) =
  Ok (mkConsensusState toy_light_chain 5 (replicate 32 0) [toy_validator 1 0]).
Proof. reflexivity. Qed.

(** A hundred validators are read, and cannot be written. *)
Example hundred_validators :
  let b := replicate 32 97 ++ to_be_bytes 8 5 ++ replicate 32 0 ++
           concat (replicate 100 (validator_bytes (toy_validator 1 1))) in
  (let? cs := decode_consensus_state b in encode_consensus_state cs) = into_err CometBftEncodeConsensusStateFailed.
Proof. by vm_compute. Qed.

(** A block whose header names the hash that the state expects, and whose
    validators are strangers that have signed it, is accepted: nobody compares
    their hash with the header's. *)
Lemma apply_light_block_spec_witness :
  let lb := toy_block_of (toy_light_header 6 [replicate 32 66]) toy_strangers in
  toy_set_hash toy_strangers ≠ toy_set_hash toy_elected ∧ acceptable lb toy_light_state ∧
  cs_validators (apply_light_block lb toy_light_state).1 = toy_strangers.
Proof.
  intros lb. split; [by vm_compute|].
  destruct (apply_light_block_spec lb toy_light_state (apply_light_block lb toy_light_state).1 (apply_light_block lb toy_light_state).2
    (surjective_pairing _)) as (Ha & Hok & _).
  assert ((apply_light_block lb toy_light_state).2 = Ok false) as Hr by (by vm_compute).
  split; [apply Ha; exact (ex_intro _ false Hr)|]. destruct (Hok false Hr) as [-> _]. reflexivity.
Defined.

Definition toy_input : bytes := replicate 24 0 ++ to_be_bytes 8 (Z.of_nat (length (encoding toy_light_state))) ++ encoding toy_light_state ++ [1].

Definition toy_output : PrecompileOutput :=
  match cometbft_light_block_validation_run toy_input 3000 with Ok out => out | _ => mkPrecompileOutput 0 [] true end.

Lemma light_client_advances_witness :
  po_gas_used toy_output = 3000 ∧
  ∃ cs p, decode_light_block_validation_input (po_bytes toy_output ++ [3]) = Ok (cs, p) ∧ cs_height cs = 6.
Proof.
  assert (cometbft_light_block_validation_run_inner toy_input 3000 true = Ok toy_output) as Hrun by (by vm_compute).
  destruct (light_client_advances toy_input 3000 true toy_output Hrun)
    as (Hgas & _ & _ & cs & p & lb & Hin & Hlb & _ & Hnext).
  split; [exact Hgas|].
  assert (decode_light_block_validation_input toy_input = Ok (toy_light_state, mkTmLightBlock
    (Some (toy_light_header 6 [replicate 32 1; replicate 32 2])) (Some toy_elected))) as Hin' by reflexivity.
  rewrite Hin' in Hin. injection Hin as <- <-. cbn in Hlb. injection Hlb as <-.
  eexists _, _. split; [eapply Hnext|reflexivity].
  - split; cbn; [done|done|unfold is_u64, u64_max; lia|done|].
    repeat constructor; cbn; unfold is_u64, u64_max; lia.
  - reflexivity.
Defined.

(** A message without a header panics. *)
Example headless_message_panics :
  cometbft_light_block_validation_run (take (length toy_input - 1) toy_input ++ [4]) 3000 = Panic.
Proof. by vm_compute. Qed.
